(* ===== verification/_CoqProject ===== *)
-Q . S2P
Prelude.v
Regex.v
Text.v
Json.v
Number.v
JsonPrint.v
Base64.v
GateBody.v
GateHttp.v
GateStream.v
GateResolve.v
GatePlatform.v
GateRoutes.v
GatePolicy.v
GateProfile.v
GateReadonly.v
GateApproval.v
GateReplay.v
GateInspect.v
GateState.v
GateReview.v
GateProxy.v
GateServe.v
GateConfig.v
GateMain.v
Dates.v
Log.v
CtParse.v
CtNet.v
FwRender.v
FwContract.v
FwGuard.v
FwHost.v
FwPending.v
FwApply.v
FwFold.v
FwConfirm.v
FwReconcile.v
FwResult.v
LogRedact.v
LogLines.v
CmdOutbox.v
CmdKeeping.v
CmdSessions.v
CmdRouter.v
CmdOnce.v
UpdVersion.v
UpdUrls.v
UpdManifest.v
UpdResolve.v
MonState.v
MonCrash.v
MonDelta.v
MonDocker.v
MonSentinel.v
MonWire.v
DepCompose.v
DepBuild.v
DepPaths.v
HaProbe.v
HaIntent.v
HaObserve.v
SqlServer.v
SqlGrants.v
SqlGranted.v
SqlParts.v
SqlLogins.v
SqlMysql.v
SqlMariadb.v
SqlTopology.v
SqlApplied.v
BakXml.v
BakWorld.v
BakS3.v
BakUpload.v
BakCopier.v
BakKept.v
BakServed.v
BakStored.v
BakReports.v
