(* ===== verification/Prelude.v ===== *)
(** * The TurboPanel daemon: a verification development

    TurboPanel's daemon runs a server for a control plane: it takes commands
    over a socket, manages containers, firewall and releases on the host, and
    reports what it sees.  This development models, from the TypeScript sources
    under [src/], the Docker gate, the host firewall, the command outbox and
    router, redaction, the self update, the container monitor, the policy a
    tenant's compose file must pass, the probe that starts a database failover,
    the SQL that keeps logins and grants of managed databases and the copying of
    backups to object storage, and proves what each promises.

    ** The program and the files that model it

    - Language.  [Prelude] (this file): JavaScript strings as UTF-16 code units,
      [Map]s, exceptions as values ([result]), the tactics and the [turbo] hint
      database.  [Regex]: the regular expressions of the sources, matched by
      derivatives, with their languages.  [Text]: UTF-8 decoding and encoding,
      [decodeURIComponent], query strings.  [Json]: values with doubles as
      [spec_float], [JSON.parse], object entry order.  [Number]: whole numbers
      as doubles.  [JsonPrint]: [JSON.stringify] and [canonicalJson], and that
      printing then parsing gives the value back.  [Base64]: [btoa], [atob] and
      the base64url functions.  [Dates]: [toISOString] and [Date.parse].
    - Docker gate ([orchestration/roles/docker-gate/files/]), a root-side filter
      in front of the engine socket.  [body.ts] is [GateBody]; [http.ts] is
      [GateHttp] (heads, headers, framing) and [GateStream] (readers, chunked
      relaying, capture); [resolve.ts] is [GateResolve]; [platform.ts] is
      [GatePlatform]; the route table of [policy.ts] is [GateRoutes], its rules
      [GatePolicy], and [GateProfile] holds what a verdict without findings
      means.  [readonly.ts] and [build.ts]'s findings are [GateReadonly],
      [approval.ts] [GateApproval], the replay caches [GateReplay],
      [inspect.ts] [GateInspect], [stats.ts] [GateState] (with the monad
      handlers run in), [review.ts] [GateReview], [proxy.ts] [GateProxy] and
      [GateServe], [main.ts] [GateConfig] and [GateMain].  The parts meet in
      [GateProxy.exchange]: read-only list, framing, [judge] (which holds the
      body, parses it twice and calls [review], which calls the policy, the
      approval verifier, the replay cache and the engine lookups), [forward].
      The replay cache is an interface: [ReplayStore] with the laws
      [ReplayLaws], met by the in-memory cache, the persistent one and the
      choice between them a gate starts with.
    - Contracts and firewall.  [contracts/commands-contracts.ts] is [CtParse],
      [CtNet] (names, addresses, CIDR arithmetic), [FwContract] and [FwResult]
      (the firewall commands' payloads and results).  [firewall/] is
      [FwRender] (documents and their meaning for packets), [FwHost] (programs
      and files of the host), [FwPending], [FwApply], [FwFold] and
      [FwConfirm] (with the commit-confirm protocol as a step relation);
      the root script is [FwGuard]; the command handlers are [FwReconcile],
      which calls all of them.
    - Logs.  [util/logger.ts] is [Log], [logs/redactor.ts] [LogRedact],
      [logs/line-stream.ts] [LogLines].
    - Commands.  [commands/command-outbox.ts] is [CmdOutbox] (state and
      functions cut at their awaits), with theorems in [CmdKeeping] and
      [CmdSessions]; [commands/command-router.ts] is [CmdRouter] and, over the
      outbox, [CmdOnce].
    - Self update.  [instance/version-wire.ts] and [update/freshness.ts] are
      [UpdVersion], [update/urls.ts] [UpdUrls], the manifests and their
      signatures [UpdManifest], [update/resolver.ts] and
      [util/retry-fetch.ts] [UpdResolve].
    - Monitor.  [docker/monitor.ts] is [MonDocker]; [monitor/normalize.ts] and
      [service-run-state.ts] are [MonState], [crash-loop-guard.ts] [MonCrash],
      [delta.ts] [MonDelta], [protocol.ts] [MonWire].  [sentinel.ts] is
      [MonSentinel], which reads [MonDocker]'s state and calls the others.
    - Deploy, the tenant's compose policy.  [deploy/compose-final-policy.ts] and
      [compose-reserved-labels.ts] are [DepCompose], whose labels are those the
      gate's [GatePlatform] reads; [compose-build-policy.ts] is [DepBuild],
      [compose-host-paths.ts] [DepPaths].
    - High availability of managed PostgreSQL.  [managed/pg-dead-primary.ts] is
      [HaProbe], [managed/ha-intent.ts] [HaIntent], and
      [instance/pg-dead-primary-observe.ts], which reads the markers of the one
      and steps the detectors of the other, [HaObserve].
    - SQL of managed MySQL and MariaDB ([managed/engines/]).  [SqlServer] is the
      other side: how a server reads a text (lexer and grammar) and what the
      statements do to its accounts, grant rows and prepared statements.
      [grant-pattern.ts] and [grant-databases.ts] are [SqlGrants], with what
      their scripts do in [SqlGranted]; quoting and builders are [SqlMysql]
      ([mysql-sql.ts], and the logins of [mysql.ts]), [SqlMariadb] likewise and
      [SqlTopology]; running the client, dropping logins and the small shared
      builders are [SqlParts].  The grant builders are written against the
      record [GrantQuoting]; its laws are the class [QuotingLaws], met by both
      dialects.  [SqlLogins] follows the steps of one login on the grant table
      and [SqlApplied] composes everything.
    - Copies of backups ([backups/]).  [BakWorld] is what the copier works on: its
      files, the artifacts, the control plane that opens keys and the storages,
      whose answers to requests are specified there, with the triples the proofs
      use.  [s3/client.ts] and [s3/endpoint-guard.ts] are [BakXml] (the XML of
      answers) and [BakS3]; [s3/upload.ts], [s3/prune.ts] and [copy-keys.ts] are
      [BakUpload]; [copy-queue.ts], [copy-target.ts], [copier.ts] and
      [copy-reporter.ts] are [BakCopier], with the life of the daemon as a row of
      operations.  [BakKept] shows that nothing queued is lost, [BakServed] what
      the storage does with the client's requests, [BakStored] that a finished
      upload is in the bucket, [BakReports] that reports are true and
      what does not work.

    ** What is a parameter

    Time, sockets, the file system, programs and the engine are inputs: a byte
    source is the list of results its reads will give, a sink says how its
    writes will behave, a lookup is a connection that may fail, stall or answer
    anything, a system call or program ends as the world says, a fetch is
    answered as the network says.  Asynchronous code is cut at its awaits, and a
    history names which await resumes with which answer.  The clocks of the probe
    are whole milliseconds.  A path is probed
    through [PathProbe]; WebCrypto is [Crypto] and [Sha256]; Unicode
    upper-casing outside ASCII and the shortest text of a double are
    [JsTables], with [WholeNumberText] where a round trip needs it; date forms
    left to the implementation are [JsDates], URL parsing is [JsUrl] and
    [UrlHost], [@std/path] [StdPath], the YAML parser [Yaml], the collation of
    names [Collation].  [body_digest_identifies_body] assumes that
    SHA-256 tells the two texts at hand apart.  Command handlers are a
    parameter of the router: they return or throw.  The container a client
    program runs in is [execIn] of [ManagedEngineContext]; where a theorem speaks
    of the server behind it, [clientRuns] says that a script the server of
    [SqlServer] runs to its end is reported as a success and leaves what the
    server left.  A call of the copier to the outside (a file, a request, a key
    to open) ends as its fate says: well, failed, lost on the way there or back,
    refused with any answer, or with the end of the process.  [EndpointUrl] is
    URL parsing, [StorageNames] the names a storage gives to uploads and parts,
    which [StorageLaws] says are not reused.

    ** What the theorems show

    - Gate, enforcement: whatever a client sends, the engine only receives
      requests whose review left nothing ([enforce_mode_is_complete]); the
      read-only listener only passes reads ([read_only_connection]).
    - Gate, meaning of a clean review: [clean_create_is_contained],
      [clean_volume_is_local], [clean_request_is_known],
      [clean_review_is_justified], [clean_review_owns_subject].
    - Gate, approvals: [approval_is_signed_and_bound], [approval_lifts_once],
      [gate_life_single_use], [restart_remembers], [replay_memory_bounded].
    - Gate, one reading of every byte: [strict_lookup_is_go_lookup],
      [request_framing_unambiguous], [relay_body_exact],
      [kept_connection_is_exact]; ends and paths: [connection_is_served],
      [resolve_follows_every_link], and its exception
      [resolve_dotdot_after_missing]; running: [settings_keep_the_profile],
      [build_socket_never_exposed], [connections_are_capped].
    - Firewall: a document decides packets as the payload says
      ([document_means_payload]), a reconcile keeps SSH open
      ([reconcile_keeps_ssh_open]), nothing is loaded outside the guard
      ([apply_loads_under_guard]), durable rules were applied and confirmed
      ([durable_rules_were_applied], [confirm_refines_spec],
      [applied_ruleset_confirms]), the legacy chain is only removed when
      covered ([fold_removes_only_covered]), and payloads and results agree
      with their contracts ([payload_normal_form],
      [reconcile_result_is_accepted]).
    - Commands: an outcome survives until it is confirmed
      ([outcome_survives]), a restart answers every command
      ([restart_answers_every_command]), a command sent again does not run
      again ([command_runs_once], with the window in which it does:
      [second_run_while_delivering]).
    - Secrets and logs: [remembered_secrets_do_not_leave],
      [sanitized_has_no_controls], [output_independent_of_chunks].
    - Self update: what is installed is signed, fresh and from the release rail
      ([update_is_release_signed], [accepted_updates_never_go_back],
      [release_rail_exact]).
    - Monitor: crash loops are stopped, nothing else is, and the report says so
      ([crash_loop_is_stopped], [guard_stops_only_crash_loops],
      [crash_stop_is_reported]); run states are the worst of the containers and
      stamped with when they began ([services_show_their_worst],
      [stamped_since_first_seen]); the control plane's picture follows the
      host's ([heartbeats_keep_mirror], with the two ways it does not:
      [transition_hides_other_changes], [overlapping_heartbeats_leave_stale]);
      the engine is not flooded ([monitor_never_piles_up]); messages are read
      as built ([built_messages_are_read]).
    - Deploy: an accepted compose model has no platform label
      ([accepted_tenant_is_no_platform]) and stays off the host
      ([accepted_compose_stays_off_host]), its builds are confined
      ([accepted_build_is_confined], with addresses judged by blocks:
      [scope_is_block_table]), and its host paths are all collected
      ([model_paths_are_collected]) and resolve inside the deployment directory
      ([deploy_paths_are_confined]).
    - High availability: an event that starts a failover means a primary that was
      down or silent all along while the platform was not acting
      ([event_means_dead_primary], from [fired_primary_is_dead]), a dead engine is
      reported ([dead_engine_is_reported]) but not too often
      ([reports_are_rationed]); the platform's own commands hold the probe off
      ([command_is_covered], [stop_stays_held], [marker_survives_restart]).  Where
      this fails: [start_grace_is_skipped], [overlapping_end_uncovers_command],
      [reattached_tick_sends].
    - SQL: whatever the arguments, a builder refuses or writes a text that is read
      as exactly the statements meant ([sql_is_what_it_says], so no name,
      password or host can add a statement); applying a login leaves it exactly
      its level on exactly its databases ([applied_login_holds_its_level]).
      Where comments say more: [control_character_host_stops_guard],
      [backup_login_reads_everything].
    - Copies of backups: a queued copy is kept until its report is answered
      ([queued_copy_is_kept]), and a report that says a backup was copied is true:
      its bucket holds the very bytes ([copied_report_means_stored], from
      [upload_stores] for one upload and [prune_copied] for retention).  What
      fails: [large_backup_is_never_uploaded], [mapped_loopback_is_let_through].

    ** Fuel

    Recursion is structural where the code follows a list.  Otherwise it runs on
    fuel derived from the input, and the exception [NoFuel], which no source
    raises, marks its exhaustion: the JSON parsers take the length of the text
    ([parse_body_total]), the chunked relay and the response relay one more
    than the bytes still to come ([relay_body_exact]), the request loop one
    more than the bytes the client will send ([connection_is_served]), the
    escape stripper the length of the text; the link walk recurses on the 40
    links it may follow ([resolve_total]), a fetch on its allowed attempts
    ([retries_are_bounded]); the walk to an existing ancestor takes one more
    than the length of the path ([resolution_ends]).  The server's grammar takes
    the number of tokens; every text of the builders is read with it
    ([sql_is_what_it_says] and [applied_login_holds_its_level] give the
    statements and the end, not only what follows from them).  Reading a range of
    a backup takes its length, since every read gives a byte ([range_ends]); the
    blocks of an XML answer take its length; a listing is followed for at most a
    thousand pages, after which the model throws.

    ** What is not modelled

    In the gate: closing of sockets at the end of a connection, the
    locale-sorted counter snapshot and the JSON log line, the summary timer,
    signal handling and the load check.  In the daemon: the command handlers
    other than the firewall's, the deploy pipelines, managed services (but the
    failover probe and the logins and SQL of MySQL and MariaDB), making and
    restoring backups, metrics, tunnels, the instance client that owns the socket, runtimes, the host summary's readings of [/proc],
    development tooling; the remaining schemas of the command contracts; log
    upload.  Of MySQL's language, the server reads the statements the builders
    write and refuses others; table and column rights, roles and proxies are not
    represented, and the variables of the client's sessions are kept with the
    server.  Of the copies of backups, the JSON text of queue, report and progress
    files is not represented (a file holds a value its writer wrote, or one its
    reader refuses), nor are URLs and signatures of requests or downloads; a
    storage has no other writers, a bucket of its own per address, and gives
    listings in one page.  Memory is unbounded.  Within one gate request, and within one call
    on the intent markers, the code's awaits are run in order, except that an
    upload still running when the response ends may have been cut anywhere
    ([bodyCut]).

    ** Plan

    Next: the other parsers of the command contracts, metric leases and
    capability plans, release retention of the deploy pipeline, member records
    and fencing of managed databases, scheduling and restoring of backups, and the
    instance client's session over the outbox and the monitor. *)

From stdpp Require Export base list gmap.
From Stdlib Require Export NArith ZArith Lia.
From Stdlib Require Import Strings.Byte.

(** ** JavaScript strings

    A JavaScript string is its list of UTF-16 code units, each an [N].  Bytes
    ([Uint8Array]) are lists of [N] below 256; the two are kept apart by name
    only ([jstring] and [bytes]).  String literals in [js_scope] denote the
    code units of their (ASCII) characters. *)
Definition jstring := list N.
Definition bytes := list N.

Inductive literal := Literal (units : jstring).

Definition literal_of_bytes (l : list Byte.byte) : literal :=
  Literal (map Byte.to_N l).

Definition bytes_of_literal (l : literal) : option (list Byte.byte) :=
  match l with Literal units => mapM Byte.of_N units end.

Definition js (units : jstring) : jstring := units.
Arguments js _ /.

Declare Scope js_scope.
Delimit Scope js_scope with js.
Bind Scope js_scope with jstring.
#[warnings="-via-type-remapping,-via-type-mismatch"]
String Notation jstring literal_of_bytes bytes_of_literal
  (via literal mapping [ js => Literal ]) : js_scope.
#[global] Open Scope js_scope.


(** JSON text is written with single quotes in examples. *)
Definition quoted (s : jstring) : jstring :=
  map (fun c => if (c =? 39)%N then 34%N else c) s.

(** Decimal digits, letters and the few code units named in the sources. *)
Definition in_range (lo hi c : N) : bool := (lo <=? c)%N && (c <=? hi)%N.
Definition is_digit (c : N) : bool := in_range 48 57 c.
Definition is_upper (c : N) : bool := in_range 65 90 c.
Definition is_lower (c : N) : bool := in_range 97 122 c.
Definition is_alpha (c : N) : bool := is_upper c || is_lower c.
Definition is_alnum (c : N) : bool := is_alpha c || is_digit c.
(** [\w] of a RegExp without the [u]/[i] flags. *)
Definition is_word (c : N) : bool := is_alnum c || (c =? 95)%N.
Definition is_hex (c : N) : bool :=
  is_digit c || in_range 65 70 c || in_range 97 102 c.

(** What [.] of a RegExp without the [s] flag refuses. *)
Definition is_line_terminator (c : N) : bool :=
  (c =? 10)%N || (c =? 13)%N || (c =? 8232)%N || (c =? 8233)%N.

(** What [String.prototype.trim] removes (WhiteSpace and LineTerminator). *)
Definition is_js_space (c : N) : bool :=
  in_range 9 13 c || (c =? 32)%N || (c =? 160)%N || (c =? 5760)%N ||
  in_range 8192 8202 c || (c =? 8232)%N || (c =? 8233)%N || (c =? 8239)%N ||
  (c =? 8287)%N || (c =? 12288)%N || (c =? 65279)%N.

(** *** [startsWith], [includes], [indexOf], [lastIndexOf] *)
Fixpoint startsWith (p s : jstring) : bool :=
  match p, s with
  | [], _ => true
  | a :: p', b :: s' => (a =? b)%N && startsWith p' s'
  | _ :: _, [] => false
  end.

Fixpoint includes (sub s : jstring) : bool :=
  startsWith sub s || match s with [] => false | _ :: s' => includes sub s' end.

Fixpoint indexOf (c : N) (s : jstring) : option nat :=
  match s with
  | [] => None
  | d :: s' => if (d =? c)%N then Some 0 else S <$> indexOf c s'
  end.

Fixpoint lastIndexOf (c : N) (s : jstring) : option nat :=
  match s with
  | [] => None
  | d :: s' =>
      match lastIndexOf c s' with
      | Some i => Some (S i)
      | None => if (d =? c)%N then Some 0 else None
      end
  end.

(** [s.includes(c)] for a one-character needle. *)
Definition hasChar (c : N) (s : jstring) : bool := existsb (N.eqb c) s.

(** [s.split(c)] for a one-character separator: never empty. *)
Fixpoint split (c : N) (s : jstring) : list jstring :=
  match s with
  | [] => [[]]
  | d :: s' =>
      if (d =? c)%N then [] :: split c s'
      else match split c s' with
           | [] => [[d]]
           | w :: ws => (d :: w) :: ws
           end
  end.

(** [parts.join(sep)]. *)
Fixpoint join (sep : jstring) (parts : list jstring) : jstring :=
  match parts with
  | [] => []
  | [p] => p
  | p :: ps => p ++ sep ++ join sep ps
  end.

Fixpoint dropWhile (f : N -> bool) (s : jstring) : jstring :=
  match s with
  | [] => []
  | c :: s' => if f c then dropWhile f s' else s
  end.

Fixpoint takeWhile (f : N -> bool) (s : jstring) : jstring :=
  match s with
  | [] => []
  | c :: s' => if f c then c :: takeWhile f s' else []
  end.

(** Strip a class of characters at both ends ([trim], [trimOws]). *)
Definition trimBy (f : N -> bool) (s : jstring) : jstring :=
  rev (dropWhile f (rev (dropWhile f s))).
Definition trim (s : jstring) : jstring := trimBy is_js_space s.

(** [toLowerCase] on the code units the sources apply it to: ASCII field names
    and the Latin-1 text of a message head. Exact below 256. *)
Definition lowerUnit (c : N) : N :=
  if is_upper c || (in_range 192 222 c && negb (c =? 215)%N) then (c + 32)%N
  else c.
Definition toLowerCase (s : jstring) : jstring := map lowerUnit s.

Definition asciiUpperUnit (c : N) : N := if is_lower c then (c - 32)%N else c.
Definition is_ascii (s : jstring) : bool := forallb (fun c => (c <? 128)%N) s.

(** [toUpperCase]: exact on ASCII; a string with any other code unit goes
    through [unicode_upper], the engine's Unicode tables. *)
Definition toUpperCase (unicode_upper : jstring -> jstring) (s : jstring) : jstring :=
  if is_ascii s then map asciiUpperUnit s else unicode_upper s.

Definition memb {A} `{EqDecision A} (x : A) (l : list A) : bool :=
  bool_decide (x ∈ l).

(** *** [Map] with string keys: entries in insertion order *)
Definition jsmap (A : Type) : Type := list (jstring * A).

Fixpoint mapGet {A} (m : jsmap A) (k : jstring) : option A :=
  match m with
  | [] => None
  | (k', v) :: m' => if decide (k' = k) then Some v else mapGet m' k
  end.

Definition mapHas {A} (m : jsmap A) (k : jstring) : bool :=
  match mapGet m k with Some _ => true | None => false end.

Fixpoint mapSet {A} (k : jstring) (v : A) (m : jsmap A) : jsmap A :=
  match m with
  | [] => [(k, v)]
  | (k', v') :: m' =>
      if decide (k' = k) then (k, v) :: m' else (k', v') :: mapSet k v m'
  end.

(** *** [Set] of strings: members in insertion order *)
Definition setAdd (l : list jstring) (x : jstring) : list jstring := if memb x l then l else l ++ [x].
(** [new Set(l)] *)
Definition distinct (l : list jstring) : list jstring := foldl setAdd [] l.

(** Exceptions as values. *)
Inductive result (E A : Type) :=
| Ok (a : A)
| Throw (e : E).
Arguments Ok {E A} a.
Arguments Throw {E A} e.

#[global] Instance result_ret E : MRet (result E) := fun A a => Ok a.
#[global] Instance result_bind E : MBind (result E) := fun A B k m =>
  match m with Ok a => k a | Throw e => Throw e end.
#[global] Instance result_fmap E : FMap (result E) := fun A B f m =>
  match m with Ok a => Ok (f a) | Throw e => Throw e end.

(** ** Automation *)

Create HintDb turbo discriminated.

(** Split every [match] and [if] of hypotheses and goal, discarding the
    branches that contradict. *)
Ltac case_step :=
  match goal with
  | H : context [ match ?x with _ => _ end ] |- _ =>
      let E := fresh "E" in destruct x eqn:E; simplify_eq/=
  | |- context [ match ?x with _ => _ end ] =>
      let E := fresh "E" in destruct x eqn:E; simplify_eq/=
  end.
Ltac cases := repeat (case_step; try done).

(** Boolean connectives of hypotheses and goal as propositions. *)
Ltac bools :=
  repeat match goal with
  | H : (_ && _)%bool = true |- _ => apply andb_true_iff in H as [? ?]
  | H : (_ || _)%bool = false |- _ => apply orb_false_iff in H as [? ?]
  | H : negb _ = true |- _ => apply negb_true_iff in H
  | H : negb _ = false |- _ => apply negb_false_iff in H
  | H : (_ =? _)%N = true |- _ => apply N.eqb_eq in H
  | H : (_ =? _)%N = false |- _ => apply N.eqb_neq in H
  | H : (_ <=? _)%N = true |- _ => apply N.leb_le in H
  | H : (_ <=? _)%N = false |- _ => apply N.leb_gt in H
  | H : (_ <? _)%N = true |- _ => apply N.ltb_lt in H
  | H : (_ <? _)%N = false |- _ => apply N.ltb_ge in H
  | H : bool_decide _ = true |- _ => apply bool_decide_eq_true in H
  | H : bool_decide _ = false |- _ => apply bool_decide_eq_false in H
  end.

(** Invert a chain of binds that ended in a value. *)
Lemma bind_Ok {E A B} (m : result E A) (k : A -> result E B) b :
  m ≫= k = Ok b -> exists a, m = Ok a /\ k a = Ok b.
Proof. destruct m; [eauto | done]. Qed.

Lemma Ok_bind {E A B} (a : A) (k : A -> result E B) : Ok a ≫= k = k a.
Proof. done. Qed.

Lemma Ok_inj {E A} (a b : A) : @Ok E A a = Ok b -> a = b.
Proof. by intros [= ->]. Qed.

Ltac ok_inv :=
  repeat match goal with
  | H : (_ ≫= _) = Ok _ |- _ =>
      let a := fresh "a" in let E := fresh "E" in
      apply bind_Ok in H as (a & E & H)
  | H : (if ?b then Throw _ else _) = Ok _ |- _ =>
      let E := fresh "E" in destruct b eqn:E; [discriminate H |]
  | H : (if ?b then _ else Throw _) = Ok _ |- _ =>
      let E := fresh "E" in destruct b eqn:E; [| discriminate H]
  | H : Ok _ = Ok _ |- _ => apply Ok_inj in H
  end.

(** Postconditions of fallible computations: [P] of a value, [Q] of an
    exception. *)
Definition returns {E A} (P : A -> Prop) (Q : E -> Prop) (m : result E A) : Prop :=
  match m with Ok a => P a | Throw e => Q e end.

Lemma returns_bind {E A B} (P : B -> Prop) (Q : E -> Prop) (m : result E A) k :
  returns (fun a => returns P Q (k a)) Q m -> returns P Q (m ≫= k).
Proof. by destruct m. Qed.

Lemma returns_mono {E A} (P P' : A -> Prop) (Q : E -> Prop) m :
  returns P Q m -> (forall a, P a -> P' a) -> returns P' Q m.
Proof. destruct m; simpl; auto. Qed.

(** ** Lemmas on the string functions *)

Lemma memb_true {A} `{EqDecision A} (x : A) l : memb x l = true <-> x ∈ l.
Proof. apply bool_decide_eq_true. Qed.
Lemma memb_false {A} `{EqDecision A} (x : A) l : memb x l = false <-> x ∉ l.
Proof. apply bool_decide_eq_false. Qed.

Lemma startsWith_app p s : startsWith p (p ++ s) = true.
Proof. induction p; simpl; [done |]. by rewrite N.eqb_refl. Qed.

Lemma startsWith_spec p s : startsWith p s = true <-> exists t, s = p ++ t.
Proof.
  split; [| intros [t ->]; apply startsWith_app].
  revert s; induction p as [| a p IH]; intros s H; simpl in *; [by eexists |].
  destruct s as [| b s]; [done |]. bools; subst.
  destruct (IH _ ltac:(eassumption)) as [t ->]. by exists t.
Qed.

Lemma startsWith_nil s : startsWith [] s = true.
Proof. done. Qed.

Lemma hasChar_true c s : hasChar c s = true <-> c ∈ s.
Proof.
  unfold hasChar. rewrite existsb_exists. split.
  - intros (x & Hx & ->%N.eqb_eq). by apply list_elem_of_In.
  - intros H. exists c. rewrite N.eqb_refl. split; [by apply list_elem_of_In | done].
Qed.

Lemma hasChar_false c s : hasChar c s = false <-> c ∉ s.
Proof. rewrite <- hasChar_true. destruct (hasChar c s); naive_solver. Qed.

Lemma split_nonempty c s : split c s <> [].
Proof. destruct s; simpl; [done |]. cases. Qed.

Lemma split_cons_inv c s : exists w ws, split c s = w :: ws.
Proof. destruct (split c s) eqn:E; [by apply split_nonempty in E | eauto]. Qed.

(** [split] loses nothing. *)
Lemma join_split c s : join [c] (split c s) = s.
Proof.
  induction s as [| d s IH]; [done |]. simpl.
  destruct (split_cons_inv c s) as (w & ws & E). rewrite E in *.
  destruct (N.eqb_spec d c) as [-> |]; simpl in *.
  - by rewrite IH.
  - destruct ws; simpl in *; by rewrite <- IH.
Qed.

(** No part of a [split] holds the separator. *)
Lemma split_no_sep c s : Forall (fun w => c ∉ w) (split c s).
Proof.
  induction s as [| d s IH]; simpl; [repeat constructor; set_solver |].
  destruct (split_cons_inv c s) as (w & ws & E). rewrite E in *.
  destruct (N.eqb_spec d c); [constructor; [set_solver | done] |].
  inversion_clear IH; constructor; [set_solver | done].
Qed.

Lemma split_word c w : c ∉ w -> split c w = [w].
Proof.
  induction w as [| d w IH]; intros H; [done |]. simpl.
  destruct (N.eqb_spec d c); [set_solver |]. rewrite IH; set_solver.
Qed.

Lemma split_app_sep c w s : c ∉ w -> split c (w ++ c :: s) = w :: split c s.
Proof.
  induction w as [| d w IH]; intros H; simpl; [by rewrite N.eqb_refl |].
  destruct (N.eqb_spec d c); [set_solver |]. rewrite IH; set_solver.
Qed.

(** [join] is undone by [split] when the parts do not hold the separator. *)
Lemma split_join c ws :
  ws <> [] -> Forall (fun w => c ∉ w) ws -> split c (join [c] ws) = ws.
Proof.
  intros Hne H. induction H as [| w ws Hw Hws IH]; [done |].
  destruct ws as [| w' ws]; [by apply split_word |].
  change (split c (w ++ c :: join [c] (w' :: ws)) = w :: w' :: ws).
  rewrite split_app_sep by done. f_equal. by apply IH.
Qed.

Lemma takeWhile_dropWhile f s : takeWhile f s ++ dropWhile f s = s.
Proof. induction s as [| c s IH]; simpl; [done |]. destruct (f c); simpl; congruence. Qed.

Lemma takeWhile_all f s : Forall (fun c => f c = true) (takeWhile f s).
Proof. induction s as [| c s IH]; simpl; [done |]. destruct (f c) eqn:E; by constructor. Qed.

(** ** Lemmas on [Map] *)

Lemma mapGet_set {A} k (v : A) m : mapGet (mapSet k v m) k = Some v.
Proof.
  induction m as [| [k' v'] m IH]; simpl; [by rewrite decide_True |].
  case_decide; simpl; [by rewrite decide_True |]. by rewrite decide_False.
Qed.

Lemma mapGet_set_ne {A} k k' (v : A) m : k <> k' -> mapGet (mapSet k v m) k' = mapGet m k'.
Proof.
  intros Hne. induction m as [| [k2 v2] m IH]; simpl; [by rewrite decide_False |].
  case_decide; simpl; [subst; by rewrite !decide_False |].
  case_decide; [done |]. done.
Qed.

Lemma mapGet_None {A} (m : jsmap A) k : mapGet m k = None <-> k ∉ map fst m.
Proof.
  induction m as [| [k' v] m IH]; simpl; [set_solver |].
  case_decide; [set_solver |]. rewrite IH. set_solver.
Qed.

Lemma mapSet_fresh {A} k (v : A) m : k ∉ map fst m -> mapSet k v m = m ++ [(k, v)].
Proof.
  induction m as [| [k' v'] m IH]; simpl; intros H; [done |].
  rewrite decide_False by set_solver. by rewrite IH by set_solver.
Qed.

Lemma mapGet_elem {A} (m : jsmap A) k v :
  NoDup (map fst m) -> mapGet m k = Some v <-> (k, v) ∈ m.
Proof.
  induction m as [| [k' v'] m IH]; simpl; intros Hnd; [set_solver |].
  inversion Hnd as [| ? ? Hni Hnd']; subst. rewrite elem_of_cons.
  case_decide as E.
  - subst. split; [intros [= ->]; by left |]. intros [[= ->] | Hin]; [done |].
    exfalso. apply Hni. apply list_elem_of_fmap. by exists (k, v).
  - rewrite IH by done. naive_solver.
Qed.

(** Deleting entries keeps the others. *)
Lemma mapGet_filter {A} (P : A -> Prop) `{forall e : jstring * A, Decision (P e.2)} (m : jsmap A) k v :
  NoDup (map fst m) ->
  mapGet (filter (fun e => P e.2) m) k = Some v <-> mapGet m k = Some v /\ P v.
Proof.
  intros Hnd. assert (NoDup (map fst (filter (fun e => P e.2) m))) as Hnd'.
  { eapply sublist_NoDup; [exact Hnd |]. apply (fmap_sublist fst), sublist_filter. }
  rewrite !mapGet_elem, list_elem_of_filter by done. naive_solver.
Qed.

Lemma mapGet_survives {A} (P : A -> Prop) `{forall e : jstring * A, Decision (P e.2)} (m : jsmap A) k v :
  NoDup (map fst m) -> mapGet m k = Some v -> P v ->
  mapGet (filter (fun e => P e.2) m) k = Some v.
Proof. intros Hnd Hg Hp. by apply mapGet_filter. Qed.

Lemma filter_keys_NoDup {A} (P : jstring * A -> Prop) `{forall x, Decision (P x)} (m : jsmap A) :
  NoDup (map fst m) -> NoDup (map fst (filter P m)).
Proof.
  intros Hnd. eapply sublist_NoDup; [exact Hnd |]. apply (fmap_sublist fst), sublist_filter.
Qed.

Lemma mapGet_filter_keys {A} (P : jstring -> Prop) `{forall k, Decision (P k)} (m : jsmap A) k :
  mapGet (filter (fun e : jstring * A => P e.1) m) k = if decide (P k) then mapGet m k else None.
Proof.
  unfold jsmap in *. induction m as [| [k' v] m IH]; [by case_decide |].
  rewrite filter_cons. cbn [fst mapGet]. destruct (decide (P k')); cbn [mapGet]; rewrite IH; repeat case_decide; naive_solver.
Qed.

Lemma mapHas_true {A} (m : jsmap A) k : mapHas m k = true <-> exists v, mapGet m k = Some v.
Proof. unfold mapHas. destruct (mapGet m k); naive_solver. Qed.

Lemma mapSet_NoDup {A} k (v : A) m :
  mapHas m k = false -> NoDup (map fst m) -> NoDup (map fst (mapSet k v m)).
Proof.
  unfold mapHas. destruct (mapGet m k) eqn:E; [done |]. intros _ Hnd.
  apply mapGet_None in E. rewrite mapSet_fresh, map_app by done. apply NoDup_app.
  split_and!; [done | set_solver | apply NoDup_singleton].
Qed.

Lemma mapSet_keys {A : Type} k (v u : A) m :
  mapGet m k = Some u -> map fst (mapSet k v m) = map fst m.
Proof.
  induction m as [| [k' v'] m IH]; cbn [mapGet mapSet]; [done |].
  case_decide; [by subst |]. intros E. cbn [map fst]. by rewrite IH.
Qed.

Lemma mapSet_keys_NoDup {A : Type} k (v : A) m :
  NoDup (map fst m) -> NoDup (map fst (mapSet k v m)).
Proof.
  intros Hnd. destruct (mapHas m k) eqn:E; [| by apply mapSet_NoDup].
  apply mapHas_true in E as [u E]. by rewrite (mapSet_keys _ _ _ _ E).
Qed.

(** *** The last occurrence of a character *)

Lemma lastIndexOf_None c s : c ∉ s -> lastIndexOf c s = None.
Proof.
  induction s as [| d s IH]; intros H; simpl; [done |].
  rewrite IH by set_solver. destruct (N.eqb_spec d c); set_solver.
Qed.

Lemma lastIndexOf_app c s t : c ∉ t -> lastIndexOf c (s ++ c :: t) = Some (length s).
Proof.
  intros H. induction s as [| d s IH]; simpl.
  - by rewrite lastIndexOf_None, N.eqb_refl.
  - by rewrite IH.
Qed.

Lemma lastIndexOf_le c s i : lastIndexOf c s = Some i -> (i < length s)%nat.
Proof.
  revert i. induction s as [| d s IH]; intros i; cbn [lastIndexOf length]; [done |].
  destruct (lastIndexOf c s) as [j |]; [| case_match; intros [= <-]; lia].
  intros [= <-]. specialize (IH j eq_refl). lia.
Qed.

Lemma lastIndexOf_inv c s i :
  lastIndexOf c s = Some i -> s = take i s ++ c :: drop (S i) s /\ c ∉ drop (S i) s.
Proof.
  revert i. induction s as [| d s IH]; intros i; cbn [lastIndexOf]; [done |].
  destruct (lastIndexOf c s) as [j |] eqn:E.
  - intros [= <-]. destruct (IH j eq_refl) as [Es Hn]. cbn. split; [by f_equal | done].
  - destruct (N.eqb_spec d c) as [-> |]; intros [= <-]. cbn. rewrite drop_0. split; [done |].
    clear IH. induction s as [| d s IH]; [set_solver |]. cbn in E.
    destruct (lastIndexOf c s) eqn:E'; [done |]. destruct (N.eqb_spec d c); [done |]. set_solver.
Qed.

(** *** Trimming *)

Lemma dropWhile_stops f c s : f c = false -> dropWhile f (c :: s) = c :: s.
Proof. intros E. cbn. by rewrite E. Qed.
Lemma dropWhile_head f s c t : dropWhile f s = c :: t -> f c = false.
Proof. induction s as [| d s IH]; cbn; [done |]. destruct (f d) eqn:E; [done |]. by intros [= -> ->]. Qed.
Lemma dropWhile_suffix f s : exists p, s = p ++ dropWhile f s.
Proof. exists (takeWhile f s). by rewrite takeWhile_dropWhile. Qed.

(** A text without the characters at its ends stays as it is. *)
Lemma trimBy_id f s :
  (forall c t, s = c :: t -> f c = false) -> (forall c t, s = t ++ [c] -> f c = false) -> trimBy f s = s.
Proof.
  intros H1 H2. unfold trimBy. assert (dropWhile f s = s) as ->.
  { destruct s as [| c s]; [done |]. by apply dropWhile_stops, (H1 c s). }
  destruct (rev s) as [| c t] eqn:E.
  { by rewrite <- (rev_involutive s), E. }
  rewrite dropWhile_stops.
  - by rewrite <- E, rev_involutive.
  - apply (H2 c (rev t)). by rewrite <- (rev_involutive s), E.
Qed.
Lemma trimBy_idem f s : trimBy f (trimBy f s) = trimBy f s.
Proof.
  apply trimBy_id; unfold trimBy; intros c t E.
  - assert (exists u, dropWhile f s = c :: u) as (u & Eu).
    { destruct (dropWhile_suffix f (rev (dropWhile f s))) as (p & Ep).
      exists (t ++ rev p). rewrite <- (rev_involutive (dropWhile f s)), Ep, rev_app_distr, E. done. }
    by eapply dropWhile_head.
  - apply (dropWhile_head f (rev (dropWhile f s)) c (rev t)).
    rewrite <- (rev_involutive (dropWhile f (rev _))), E, rev_app_distr. done.
Qed.
Lemma trim_idem s : trim (trim s) = trim s.
Proof. apply trimBy_idem. Qed.
(** A text in which no character is trimmed. *)
Lemma trimBy_none f s : Forall (fun c => f c = false) s -> trimBy f s = s.
Proof.
  intros H. apply trimBy_id; intros c t ->.
  - by apply Forall_cons in H as [? _].
  - by apply Forall_app in H as [_ [? _]%Forall_cons].
Qed.

Lemma filter_all {A} (P : A -> Prop) `{forall x, Decision (P x)} l : Forall P l -> filter P l = l.
Proof. induction 1; [done |]. by rewrite filter_cons_True, IHForall. Qed.
Lemma filter_none {A} (P : A -> Prop) `{forall x, Decision (P x)} l : Forall (fun x => ~ P x) l -> filter P l = [].
Proof. induction 1; [done |]. by rewrite filter_cons_False. Qed.

Lemma omap_nil {A B} (f : A -> option B) l : omap f l = [] <-> Forall (fun x => f x = None) l.
Proof.
  induction l as [| x l IH]; simpl; [split; [constructor | done] |].
  rewrite Forall_cons. destruct (f x) eqn:E; [naive_solver |]. rewrite IH. naive_solver.
Qed.

Lemma bind_nil {A B} (f : A -> list B) (l : list A) :
  l ≫= f = [] <-> Forall (fun x => f x = []) l.
Proof.
  induction l as [| x l IH]; [split; [constructor | done] |].
  rewrite Forall_cons, <- IH. cbn. split.
  - intros H. by apply app_nil in H.
  - by intros [-> ->].
Qed.

Lemma existsb_false_iff {A} (f : A -> bool) l :
  existsb f l = false <-> Forall (fun x => f x = false) l.
Proof.
  induction l as [| x l IH]; simpl; [split; [constructor | done] |].
  rewrite orb_false_iff, IH, Forall_cons. done.
Qed.

Lemma existsb_true_iff {A} (f : A -> bool) l :
  existsb f l = true <-> exists x, x ∈ l /\ f x = true.
Proof.
  rewrite existsb_exists. split; intros (x & Hx & Hf); exists x; split; try done;
    by apply list_elem_of_In.
Qed.

Lemma includes_spec sub s : includes sub s = true <-> exists a b, s = a ++ sub ++ b.
Proof.
  induction s as [| c s IH]; cbn [includes]; rewrite orb_true_iff, startsWith_spec.
  - split.
    + intros [[t Ht] | [=]]. exists [], t. done.
    + intros (a & b & E). left. destruct a; [by exists b |]. done.
  - rewrite IH. split.
    + intros [[t Ht] | (a & b & ->)]; [by exists [], t | by exists (c :: a), b].
    + intros ([| x a] & b & E); cbn in E; [left; by exists b | right]. simplify_eq. by exists a, b.
Qed.
