(* ===== verification/Regex.v ===== *)
(** * Anchored regular expressions

    The gate decides routes and token shapes with RegExp literals.  The ones
    it tests with [^...$] are written here as syntax trees over code-unit
    classes and decided by derivatives; [matches_iff] relates the decision to
    the language of the expression, so properties of routes are proved on
    languages.  A pattern anchored only on the left is the expression
    followed by [RAny]. *)

From S2P Require Import Prelude.

Inductive regex :=
| RNone
| REps
| RSet (f : N -> bool)
| RCat (r1 r2 : regex)
| RAlt (r1 r2 : regex)
| RStar (r : regex).

(** ** The language of an expression *)
Inductive lang : regex -> jstring -> Prop :=
| LEps : lang REps []
| LSet f c : f c = true -> lang (RSet f) [c]
| LCat r1 r2 s1 s2 : lang r1 s1 -> lang r2 s2 -> lang (RCat r1 r2) (s1 ++ s2)
| LAltL r1 r2 s : lang r1 s -> lang (RAlt r1 r2) s
| LAltR r1 r2 s : lang r2 s -> lang (RAlt r1 r2) s
| LStarNil r : lang (RStar r) []
| LStarCons r c s1 s2 :
    lang r (c :: s1) -> lang (RStar r) s2 -> lang (RStar r) (c :: s1 ++ s2).

(** ** Deciding membership *)
Fixpoint nullable (r : regex) : bool :=
  match r with
  | RNone | RSet _ => false
  | REps | RStar _ => true
  | RCat r1 r2 => nullable r1 && nullable r2
  | RAlt r1 r2 => nullable r1 || nullable r2
  end.

(** Constructors that drop dead branches, so derivatives stay small. *)
Definition mkCat (r1 r2 : regex) : regex :=
  match r1, r2 with
  | RNone, _ | _, RNone => RNone
  | REps, _ => r2
  | _, _ => RCat r1 r2
  end.
Definition mkAlt (r1 r2 : regex) : regex :=
  match r1, r2 with
  | RNone, _ => r2
  | _, RNone => r1
  | _, _ => RAlt r1 r2
  end.

Fixpoint deriv (c : N) (r : regex) : regex :=
  match r with
  | RNone | REps => RNone
  | RSet f => if f c then REps else RNone
  | RCat r1 r2 =>
      if nullable r1 then mkAlt (mkCat (deriv c r1) r2) (deriv c r2)
      else mkCat (deriv c r1) r2
  | RAlt r1 r2 => mkAlt (deriv c r1) (deriv c r2)
  | RStar r1 => mkCat (deriv c r1) r
  end.

Fixpoint matches (r : regex) (s : jstring) : bool :=
  match s with
  | [] => nullable r
  | c :: s' => matches (deriv c r) s'
  end.

(** ** Derived forms *)
Definition RChar (c : N) : regex := RSet (N.eqb c).
(** [.]: no line terminator. *)
Definition RDot : regex := RSet (fun c => negb (is_line_terminator c)).
Definition RAny : regex := RStar (RSet (fun _ => true)).
Definition RPlus (r : regex) : regex := RCat r (RStar r).
Definition ROpt (r : regex) : regex := RAlt REps r.
Fixpoint RLit (s : jstring) : regex :=
  match s with
  | [] => REps
  | c :: s' => RCat (RChar c) (RLit s')
  end.
Fixpoint RCats (rs : list regex) : regex :=
  match rs with
  | [] => REps
  | r :: rs' => RCat r (RCats rs')
  end.
Fixpoint RAlts (rs : list regex) : regex :=
  match rs with
  | [] => RNone
  | r :: rs' => RAlt r (RAlts rs')
  end.
Definition RWords (ws : list jstring) : regex := RAlts (map RLit ws).
(** [r{0,n}] and [r{lo,lo+n}]. *)
Fixpoint RUpTo (n : nat) (r : regex) : regex :=
  match n with
  | O => REps
  | S n' => ROpt (RCat r (RUpTo n' r))
  end.
Fixpoint RTimes (n : nat) (r : regex) : regex :=
  match n with
  | O => REps
  | S n' => RCat r (RTimes n' r)
  end.
Definition RBetween (lo extra : nat) (r : regex) : regex :=
  RCat (RTimes lo r) (RUpTo extra r).

(** ** Correctness of the decision *)

Lemma lang_nil_inv r : lang RNone r -> False.
Proof. inversion 1. Qed.

Lemma lang_cat_iff r1 r2 s :
  lang (RCat r1 r2) s <-> exists s1 s2, s = s1 ++ s2 /\ lang r1 s1 /\ lang r2 s2.
Proof. split; [inversion 1; subst; eauto 6 | intros (?&?&->&?&?); by constructor]. Qed.

Lemma lang_alt_iff r1 r2 s : lang (RAlt r1 r2) s <-> lang r1 s \/ lang r2 s.
Proof. split; [inversion 1; subst; eauto | intros [?|?]; by constructor]. Qed.

Lemma lang_eps_iff s : lang REps s <-> s = [].
Proof. split; [by inversion 1 | intros ->; constructor]. Qed.

Lemma lang_set_iff f s : lang (RSet f) s <-> exists c, s = [c] /\ f c = true.
Proof. split; [inversion 1; eauto | intros (?&->&?); by constructor]. Qed.

Lemma nullable_spec r : nullable r = true <-> lang r [].
Proof.
  induction r; simpl.
  - split; [done | inversion 1].
  - split; [constructor | done].
  - split; [done | inversion 1].
  - rewrite andb_true_iff, IHr1, IHr2, lang_cat_iff. split.
    + intros [? ?]. by exists [], [].
    + intros (s1 & s2 & E & ? & ?). symmetry in E. by apply app_nil in E as [-> ->].
  - by rewrite orb_true_iff, IHr1, IHr2, lang_alt_iff.
  - split; [constructor | done].
Qed.

Lemma mkCat_spec r1 r2 s : lang (mkCat r1 r2) s <-> lang (RCat r1 r2) s.
Proof.
  assert (forall r, lang (RCat RNone r) s <-> lang RNone s) as HN1.
  { intros r. rewrite lang_cat_iff. split; [| by inversion 1].
    by intros (? & ? & ? & ?%lang_nil_inv & ?). }
  assert (forall r, lang (RCat r RNone) s <-> lang RNone s) as HN2.
  { intros r. rewrite lang_cat_iff. split; [| by inversion 1].
    by intros (? & ? & ? & ? & ?%lang_nil_inv). }
  assert (forall r, lang (RCat REps r) s <-> lang r s) as HE.
  { intros r. rewrite lang_cat_iff. split.
    - by intros (? & ? & -> & ->%lang_eps_iff & ?).
    - intros ?. exists [], s. repeat split; [constructor | done]. }
  destruct r1; simpl; [by rewrite HN1 | destruct r2 | destruct r2 .. ];
    rewrite ?HE, ?HN2; done.
Qed.

Lemma mkAlt_spec r1 r2 s : lang (mkAlt r1 r2) s <-> lang (RAlt r1 r2) s.
Proof.
  rewrite lang_alt_iff.
  assert (~ lang RNone s) by inversion 1.
  destruct r1, r2; simpl; rewrite ?lang_alt_iff; tauto.
Qed.

Lemma lang_star_cons_iff r c s :
  lang (RStar r) (c :: s) <->
  exists s1 s2, s = s1 ++ s2 /\ lang r (c :: s1) /\ lang (RStar r) s2.
Proof. split; [inversion 1; subst; eauto | intros (?&?&->&?&?); by constructor]. Qed.

Lemma deriv_spec c r s : lang (deriv c r) s <-> lang r (c :: s).
Proof.
  revert s; induction r as [| | f | r1 IH1 r2 IH2 | r1 IH1 r2 IH2 | r IH]; intros s; simpl.
  - split; inversion 1.
  - split; inversion 1.
  - rewrite lang_set_iff. destruct (f c) eqn:E; [rewrite lang_eps_iff |]; split.
    + intros ->. eauto.
    + intros (? & ? & ?). congruence.
    + by intros ?%lang_nil_inv.
    + intros (? & ? & ?). congruence.
  - assert (lang (RCat r1 r2) (c :: s) <->
      lang (RCat (deriv c r1) r2) s \/ (lang r1 [] /\ lang r2 (c :: s))) as ->.
    { rewrite !lang_cat_iff. split.
      - intros ([| d s1] & s2 & E & H1 & H2); simplify_eq/=; [by right |].
        left. exists s1, s2. by rewrite IH1.
      - intros [(s1 & s2 & -> & H1%IH1 & H2) | [H1 H2]].
        + by exists (c :: s1), s2.
        + by exists [], (c :: s). }
    rewrite <- nullable_spec.
    destruct (nullable r1); rewrite ?mkAlt_spec, ?lang_alt_iff, mkCat_spec, ?IH2; naive_solver.
  - by rewrite mkAlt_spec, !lang_alt_iff, IH1, IH2.
  - rewrite mkCat_spec, lang_cat_iff, lang_star_cons_iff. setoid_rewrite IH. done.
Qed.

Lemma matches_iff r s : matches r s = true <-> lang r s.
Proof.
  revert r; induction s as [| c s IH]; intros r; simpl; [apply nullable_spec |].
  by rewrite IH, deriv_spec.
Qed.

(** ** Languages of the derived forms *)

Lemma lang_char_iff c s : lang (RChar c) s <-> s = [c].
Proof.
  unfold RChar. rewrite lang_set_iff. split.
  - by intros (d & -> & ->%N.eqb_eq).
  - intros ->. exists c. by rewrite N.eqb_refl.
Qed.

Lemma lang_lit_iff w s : lang (RLit w) s <-> s = w.
Proof.
  revert s; induction w as [| c w IH]; intros s; simpl; [apply lang_eps_iff |].
  rewrite lang_cat_iff. setoid_rewrite IH. setoid_rewrite lang_char_iff. split.
  - by intros (? & ? & -> & -> & ->).
  - intros ->. by exists [c], w.
Qed.

Lemma lang_words_iff ws s : lang (RWords ws) s <-> s ∈ ws.
Proof.
  unfold RWords. induction ws as [| w ws IH]; simpl.
  - split; [inversion 1 | set_solver].
  - rewrite lang_alt_iff, lang_lit_iff, IH. set_solver.
Qed.

Lemma lang_star_set_iff f s :
  lang (RStar (RSet f)) s <-> Forall (fun c => f c = true) s.
Proof.
  induction s as [| c s IH]; [split; constructor |].
  rewrite lang_star_cons_iff, Forall_cons, <- IH. split.
  - intros (s1 & s2 & -> & H & ?). apply lang_set_iff in H as (? & ? & ?). by simplify_eq/=.
  - intros [H1 H2]. exists [], s. repeat split; [by constructor | done].
Qed.

Lemma lang_plus_set_iff f s :
  lang (RPlus (RSet f)) s <-> s <> [] /\ Forall (fun c => f c = true) s.
Proof.
  unfold RPlus. rewrite lang_cat_iff. setoid_rewrite lang_star_set_iff.
  setoid_rewrite lang_set_iff. split.
  - intros (s1 & s2 & -> & (c & -> & Hc) & ?). by repeat constructor.
  - intros [Hne H]. destruct s as [| c s]; [done |].
    inversion_clear H. exists [c], s. eauto.
Qed.

Lemma lang_any s : lang RAny s.
Proof. apply lang_star_set_iff, Forall_forall. done. Qed.

Lemma lang_opt_iff r s : lang (ROpt r) s <-> s = [] \/ lang r s.
Proof. unfold ROpt. by rewrite lang_alt_iff, lang_eps_iff. Qed.

Lemma lang_lit_cat_iff w r s :
  lang (RCat (RLit w) r) s <-> exists t, s = w ++ t /\ lang r t.
Proof.
  rewrite lang_cat_iff. setoid_rewrite lang_lit_iff. split.
  - intros (? & t & -> & -> & ?); eauto.
  - intros (t & -> & ?); eauto.
Qed.

(** [f{0,n}], [f{n}] and [f{lo,lo+extra}] over one class. *)
Lemma lang_upto_set_iff n f s :
  lang (RUpTo n (RSet f)) s <-> (length s <= n)%nat /\ Forall (fun c => f c = true) s.
Proof.
  revert s; induction n as [| n IH]; intros s; cbn [RUpTo].
  - rewrite lang_eps_iff. destruct s; cbn; split; [by intros _; split; [lia | constructor] | done | done |].
    intros [? _]. lia.
  - rewrite lang_opt_iff, lang_cat_iff. setoid_rewrite IH. setoid_rewrite lang_set_iff. split.
    + intros [-> | (? & s2 & -> & (c & -> & Hc) & Hl & Hf)]; [by split; [cbn; lia | constructor] |].
      split; [cbn; lia | by constructor].
    + intros [Hl Hf]. destruct s as [| c s]; [by left | right]. apply Forall_cons in Hf as [Hc Hf].
      exists [c], s. cbn in Hl. split_and!; [done | by exists c | lia | done].
Qed.

Lemma lang_times_set_iff n f s :
  lang (RTimes n (RSet f)) s <-> length s = n /\ Forall (fun c => f c = true) s.
Proof.
  revert s; induction n as [| n IH]; intros s; cbn [RTimes].
  - rewrite lang_eps_iff. destruct s; cbn; split; [by intros _; split; [| constructor] | done | done |].
    by intros [? _].
  - rewrite lang_cat_iff. setoid_rewrite IH. setoid_rewrite lang_set_iff. split.
    + intros (? & s2 & -> & (c & -> & Hc) & <- & Hf). split; [done | by constructor].
    + intros [Hl Hf]. destruct s as [| c s]; [done |]. apply Forall_cons in Hf as [Hc Hf].
      exists [c], s. split_and!; [done | by exists c | cbn in Hl; lia | done].
Qed.

Lemma lang_between_set_iff lo extra f s :
  lang (RBetween lo extra (RSet f)) s <->
  (lo <= length s <= lo + extra)%nat /\ Forall (fun c => f c = true) s.
Proof.
  unfold RBetween. rewrite lang_cat_iff. setoid_rewrite lang_times_set_iff.
  setoid_rewrite lang_upto_set_iff. split.
  - intros (s1 & s2 & -> & (<- & H1) & Hl & H2). rewrite length_app, Forall_app. split; [lia | done].
  - intros [Hl Hf]. exists (take lo s), (drop lo s).
    rewrite take_drop, length_take, length_drop.
    split_and!; [done | lia | by apply Forall_take | lia | by apply Forall_drop].
Qed.

(** [p(d p)*]: the parts between the separators. *)
Definition RSepBy (d : N) (p : regex) : regex := RCat p (RStar (RCat (RChar d) p)).

Lemma lang_sepBy_iff d p s :
  (forall w, lang p w -> d ∉ w) ->
  lang (RSepBy d p) s <-> Forall (lang p) (split d s).
Proof.
  intros Hd.
  assert (forall n t, (length t <= n)%nat -> lang (RStar (RCat (RChar d) p)) t ->
    t = [] \/ exists t', t = d :: t' /\ Forall (lang p) (split d t')) as Hstar.
  { induction n as [| n IH]; intros t Hl Ht.
    { left. by destruct t; [| cbn in Hl; lia]. }
    destruct t as [| c t]; [by left | right].
    apply lang_star_cons_iff in Ht as (s1 & s2 & -> & H1 & H2).
    apply lang_cat_iff in H1 as (x & w & E & ->%lang_char_iff & Hw). injection E as -> ->.
    exists (w ++ s2). split; [done |]. cbn in Hl. rewrite length_app in Hl.
    destruct (IH s2 ltac:(lia) H2) as [-> | (t' & -> & Hf)].
    - rewrite app_nil_r, split_word by (by apply Hd). by constructor.
    - rewrite split_app_sep by (by apply Hd). by constructor. }
  unfold RSepBy. split.
  - intros (w & t & -> & Hw & Ht)%lang_cat_iff.
    destruct (Hstar _ t (le_n _) Ht) as [-> | (t' & -> & Hf)].
    + rewrite app_nil_r, split_word by (by apply Hd). by constructor.
    + rewrite split_app_sep by (by apply Hd). by constructor.
  - intros Hf. rewrite <- (join_split d s). destruct (split_cons_inv d s) as (w & ws & E).
    rewrite E in *. clear E. apply Forall_cons in Hf as [Hw Hf].
    apply lang_cat_iff. exists w, (match ws with [] => [] | _ => d :: join [d] ws end).
    split_and!; [by destruct ws; cbn; rewrite ?app_nil_r | done |].
    clear w Hw. induction Hf as [| w ws Hw Hf IH]; [constructor |].
    replace (d :: join [d] (w :: ws)) with (d :: w ++ match ws with [] => [] | _ => d :: join [d] ws end)
      by (by destruct ws; cbn; rewrite ?app_nil_r).
    apply lang_star_cons_iff. exists w, (match ws with [] => [] | _ => d :: join [d] ws end).
    split_and!; [done | | exact IH]. apply lang_cat_iff. exists [d], w. by rewrite lang_char_iff.
Qed.
