(* ===== verification/Text.v ===== *)
(** * Text encodings of the JavaScript platform

    What the gate uses of [TextDecoder], [TextEncoder], [decodeURIComponent]
    and [URLSearchParams].  The UTF-8 decoder is the byte-at-a-time machine of
    the Encoding Standard: it reports, per byte, the code points it completes
    and the errors it meets, so the fatal decoder (errors throw) and the
    lenient one (errors become U+FFFD) are two readings of one run. *)

From S2P Require Import Prelude.

#[local] Open Scope N_scope.

(** ** UTF-8 decoding *)

(** The decoder's registers; [need = 0] is the initial state. *)
Record utf8_state := Utf8State {
  cp : N;      (** bits gathered so far *)
  need : nat;  (** continuation bytes still expected *)
  lower : N;   (** bounds of the next continuation byte *)
  upper : N
}.
Definition utf8_init : utf8_state := Utf8State 0 0 128 191.

(** An event: a code point, or [None] for an error. *)
Definition utf8_start (b : N) : list (option N) * utf8_state :=
  if b <? 128 then ([Some b], utf8_init)
  else if in_range 194 223 b then ([], Utf8State (N.land b 31) 1 128 191)
  else if in_range 224 239 b then
    ([], Utf8State (N.land b 15) 2
           (if b =? 224 then 160 else 128) (if b =? 237 then 159 else 191))
  else if in_range 240 244 b then
    ([], Utf8State (N.land b 7) 3
           (if b =? 240 then 144 else 128) (if b =? 244 then 143 else 191))
  else ([None], utf8_init).

Definition utf8_byte (st : utf8_state) (b : N) : list (option N) * utf8_state :=
  match need st with
  | O => utf8_start b
  | S more =>
      if in_range (lower st) (upper st) b then
        let c := N.lor (N.shiftl (cp st) 6) (N.land b 63) in
        match more with
        | O => ([Some c], utf8_init)
        | S _ => ([], Utf8State c more 128 191)
        end
      else let '(ev, st') := utf8_start b in (None :: ev, st')
  end.

Fixpoint utf8_events (st : utf8_state) (bs : bytes) : list (option N) :=
  match bs with
  | [] => match need st with O => [] | S _ => [None] end
  | b :: bs' => let '(ev, st') := utf8_byte st b in ev ++ utf8_events st' bs'
  end.

(** UTF-16 code units of a code point. *)
Definition units_of_cp (c : N) : jstring :=
  if c <? 65536 then [c]
  else [55296 + (c - 65536) / 1024; 56320 + (c - 65536) mod 1024].

(** [new TextDecoder("utf-8", { fatal: true, ignoreBOM: true }).decode]. *)
Definition decode_fatal (bs : bytes) : option jstring :=
  cps ← mapM id (utf8_events utf8_init bs); Some (cps ≫= units_of_cp).

Definition decode_lenient (bs : bytes) : jstring :=
  utf8_events utf8_init bs ≫= fun e => units_of_cp (default 65533 e).

(** [new TextDecoder().decode]: a leading byte-order mark is dropped. *)
Definition strip_bom (bs : bytes) : bytes :=
  if startsWith [239; 187; 191] bs then drop 3 bs else bs.
Definition decode_text (bs : bytes) : jstring := decode_lenient (strip_bom bs).

(** ** UTF-8 encoding *)

Definition is_high (c : N) : bool := in_range 55296 56319 c.
Definition is_low (c : N) : bool := in_range 56320 57343 c.

(** Code points of a string; a lone surrogate becomes U+FFFD. *)
Fixpoint code_points (s : jstring) : list N :=
  match s with
  | [] => []
  | c :: s' =>
      if is_high c then
        match s' with
        | d :: s'' =>
            if is_low d then
              65536 + (c - 55296) * 1024 + (d - 56320) :: code_points s''
            else 65533 :: code_points s'
        | [] => [65533]
        end
      else (if is_low c then 65533 else c) :: code_points s'
  end.

Definition bytes_of_cp (c : N) : bytes :=
  if c <? 128 then [c]
  else if c <? 2048 then [192 + c / 64; 128 + c mod 64]
  else if c <? 65536 then
    [224 + c / 4096; 128 + (c / 64) mod 64; 128 + c mod 64]
  else
    [240 + c / 262144; 128 + (c / 4096) mod 64; 128 + (c / 64) mod 64;
     128 + c mod 64].

(** [new TextEncoder().encode]. *)
Definition encode_text (s : jstring) : bytes := code_points s ≫= bytes_of_cp.

(** ** Percent decoding *)

Definition hexValue (c : N) : N :=
  if is_digit c then c - 48 else if in_range 65 70 c then c - 55 else c - 87.

(** [decodeURIComponent]; [None] is the [URIError].  A run of escapes is
    decoded by the same machine; a literal character inside an unfinished
    sequence is an error. *)
Fixpoint decodeURI (st : utf8_state) (s : jstring) : option jstring :=
  match s with
  | [] => match need st with O => Some [] | S _ => None end
  | c :: s' =>
      if c =? 37 then
        match s' with
        | h :: l :: s'' =>
            if is_hex h && is_hex l then
              let '(ev, st') := utf8_byte st (16 * hexValue h + hexValue l) in
              cps ← mapM id ev;
              rest ← decodeURI st' s'';
              Some ((cps ≫= units_of_cp) ++ rest)
            else None
        | _ => None
        end
      else
        match need st with
        | O => rest ← decodeURI st s'; Some (c :: rest)
        | S _ => None
        end
  end.
Definition decodeURIComponent (s : jstring) : option jstring :=
  decodeURI utf8_init s.

(** ** [URLSearchParams] *)

(** Percent-decoding of a form field: a malformed escape stays as it is. *)
Fixpoint percent_decode (bs : bytes) : bytes :=
  match bs with
  | [] => []
  | b :: bs' =>
      match bs' with
      | h :: l :: bs'' =>
          if (b =? 37) && is_hex h && is_hex l
          then 16 * hexValue h + hexValue l :: percent_decode bs''
          else b :: percent_decode bs'
      | _ => b :: percent_decode bs'
      end
  end.

Definition form_text (bs : bytes) : jstring :=
  decode_lenient (percent_decode (map (fun b => if b =? 43 then 32 else b) bs)).

Definition form_field (bs : bytes) : jstring * jstring :=
  match indexOf 61 bs with
  | Some i => (form_text (take i bs), form_text (drop (S i) bs))
  | None => (form_text bs, [])
  end.

Definition query := list (jstring * jstring).

(** [new URLSearchParams(text)]. *)
Definition parseQuery (text : jstring) : query :=
  let text := if startsWith "?" text then drop 1 text else text in
  map form_field (filter (fun f => f <> []) (split 38 (encode_text text))).

(** [query.get(name)]: the first field of that name. *)
Fixpoint queryGet (q : query) (name : jstring) : option jstring :=
  match q with
  | [] => None
  | (k, v) :: q' => if decide (k = name) then Some v else queryGet q' name
  end.

(** ** The fatal and the lenient decoder agree on well-formed input *)

Lemma decode_fatal_lenient bs t : decode_fatal bs = Some t -> decode_lenient bs = t.
Proof.
  unfold decode_fatal, decode_lenient. intros (cps & H & ?)%bind_Some. simplify_eq.
  apply mapM_Some in H. induction H as [| e c es cs He _ IH]; [done |].
  unfold id in He. subst. simpl. by f_equal.
Qed.

(** The fatal decoder above keeps a byte-order mark, as U+FEFF. *)
Lemma decode_fatal_bom bs t :
  startsWith [239; 187; 191] bs = true -> decode_fatal bs = Some t ->
  exists t', t = 65279 :: t'.
Proof.
  intros [r ->]%startsWith_spec. unfold decode_fatal.
  change (utf8_events utf8_init ([239; 187; 191] ++ r)) with
    (Some 65279 :: utf8_events utf8_init r).
  intros (cps & H & ?)%bind_Some. simplify_eq. apply mapM_Some in H.
  inversion H as [| ? c ? cs Hc]; subst. unfold id in Hc. simplify_eq. simpl. eauto.
Qed.

(** ** Encoding round trip

    On strings without lone surrogates, decoding undoes encoding. *)

(** Every surrogate is part of a pair. *)
Fixpoint well_formed (s : jstring) : bool :=
  match s with
  | [] => true
  | c :: s' =>
      if is_high c then
        match s' with d :: s'' => is_low d && well_formed s'' | [] => false end
      else negb (is_low c) && (c <? 65536) && well_formed s'
  end.

(** A code point that is not a surrogate. *)
Definition scalar (c : N) : Prop := c < 55296 \/ (57344 <= c /\ c < 1114112).

Lemma shift_or a b : b < 64 -> N.lor (N.shiftl a 6) b = a * 64 + b.
Proof.
  intros Hb. rewrite N.shiftl_mul_pow2. change (2 ^ 6) with 64.
  rewrite <- N.lxor_lor, N.add_nocarry_lxor; [done | |];
    apply N.bits_inj_0; intros n; rewrite N.land_spec;
    (destruct (N.ltb_spec n 6) as [Hn | Hn];
     [ change 64 with (2 ^ 6); by rewrite N.mul_pow2_bits_low
     | rewrite (N.bits_above_log2 b), andb_false_r; [done |];
       destruct (N.eq_dec b 0) as [-> | Hz]; [simpl; lia |];
       change 64 with (2 ^ 6) in Hb; apply N.log2_lt_pow2 in Hb; lia ]).
Qed.

Lemma low6 b : b < 64 -> N.land (128 + b) 63 = b.
Proof.
  intros Hb. change 63 with (N.ones 6). rewrite N.land_ones. change (2 ^ 6) with 64.
  change 128 with (2 * 64). rewrite N.add_comm, N.Div0.mod_add. by apply N.mod_small.
Qed.

Lemma lead_bits base k b :
  base mod 2 ^ k = 0 -> b < 2 ^ k -> N.land (base + b) (N.ones k) = b.
Proof.
  intros Hbase Hb. rewrite N.land_ones, N.Div0.add_mod, Hbase, N.add_0_l, N.Div0.mod_mod.
  by apply N.mod_small.
Qed.

Lemma continuation lo hi b : b < 64 -> lo <= 128 + b -> 128 + b <= hi ->
  in_range lo hi (128 + b) = true.
Proof. intros. unfold in_range. apply andb_true_iff. by rewrite !N.leb_le. Qed.

Lemma in_range_intro lo hi b : lo <= b -> b <= hi -> in_range lo hi b = true.
Proof. intros. unfold in_range. apply andb_true_iff. by rewrite !N.leb_le. Qed.

Lemma in_range_above lo hi b : hi < b -> in_range lo hi b = false.
Proof.
  intros. unfold in_range. apply andb_false_iff. right. by apply N.leb_gt.
Qed.

(** One step of the machine inside a sequence. *)
Lemma utf8_more st b more bs :
  need st = S more -> in_range (lower st) (upper st) (128 + b) = true -> b < 64 ->
  utf8_events st (128 + b :: bs)
    = match more with
      | O => Some (cp st * 64 + b) :: utf8_events utf8_init bs
      | S _ => utf8_events (Utf8State (cp st * 64 + b) more 128 191) bs
      end.
Proof.
  intros Hn Hr Hb. cbn [utf8_events]. unfold utf8_byte. rewrite Hn, Hr, low6, shift_or by done.
  by destruct more.
Qed.

Lemma utf8_lead b bs :
  utf8_events utf8_init (b :: bs)
    = let '(ev, st') := utf8_start b in ev ++ utf8_events st' bs.
Proof. done. Qed.

(** Quotient and remainder as variables of their own. *)
Lemma sextet_split c :
  exists q r, c / 64 = q /\ c mod 64 = r /\ c = 64 * q + r /\ r < 64.
Proof.
  exists (c / 64), (c mod 64). split_and!; [done .. | by apply N.div_mod | by apply N.mod_lt].
Qed.

Ltac split_cp c q r :=
  let Eq := fresh in let Er := fresh in let E := fresh in let Hr := fresh in
  destruct (sextet_split c) as (q & r & Eq & Er & E & Hr);
  rewrite ?Eq, ?Er in *; clear Eq Er.

Lemma div_4096 c : c / 4096 = c / 64 / 64.
Proof. by rewrite N.Div0.div_div. Qed.
Lemma div_262144 c : c / 262144 = c / 64 / 64 / 64.
Proof. by rewrite !N.Div0.div_div. Qed.

Lemma utf8_two c bs : 128 <= c -> c < 2048 ->
  utf8_events utf8_init (bytes_of_cp c ++ bs) = Some c :: utf8_events utf8_init bs.
Proof.
  intros H1 H2. unfold bytes_of_cp.
  rewrite (proj2 (N.ltb_ge c 128)), (proj2 (N.ltb_lt c 2048)) by lia.
  split_cp c q r. cbn [app]. rewrite utf8_lead. unfold utf8_start.
  rewrite (proj2 (N.ltb_ge (192 + q) 128)) by lia.
  rewrite (in_range_intro 194 223) by lia. cbn [app].
  rewrite (utf8_more _ _ O) by (done || apply in_range_intro; cbn; lia). cbn [cp].
  change 31 with (N.ones 5).
  rewrite (lead_bits 192 5) by (done || (change (2 ^ 5) with 32; lia)).
  f_equal. f_equal. lia.
Qed.

Lemma utf8_three c bs : 2048 <= c -> c < 65536 -> scalar c ->
  utf8_events utf8_init (bytes_of_cp c ++ bs) = Some c :: utf8_events utf8_init bs.
Proof.
  intros H1 H2 Hs. unfold bytes_of_cp, scalar in *.
  rewrite (proj2 (N.ltb_ge c 128)), (proj2 (N.ltb_ge c 2048)), (proj2 (N.ltb_lt c 65536)) by lia.
  rewrite div_4096. split_cp c q r. split_cp q p s. cbn [app]. rewrite utf8_lead. unfold utf8_start.
  rewrite (proj2 (N.ltb_ge (224 + p) 128)), (in_range_above 194 223),
    (in_range_intro 224 239) by lia. cbn [app].
  rewrite (utf8_more _ _ 1) by
    (done || lia || apply in_range_intro; cbn [lower upper]; repeat case_match; bools; lia).
  rewrite (utf8_more _ _ O) by (done || apply in_range_intro; cbn; lia). cbn [cp].
  change 15 with (N.ones 4).
  rewrite (lead_bits 224 4) by (done || (change (2 ^ 4) with 16; lia)).
  f_equal. f_equal. lia.
Qed.

Lemma utf8_four c bs : 65536 <= c -> c < 1114112 ->
  utf8_events utf8_init (bytes_of_cp c ++ bs) = Some c :: utf8_events utf8_init bs.
Proof.
  intros H1 H2. unfold bytes_of_cp.
  rewrite (proj2 (N.ltb_ge c 128)), (proj2 (N.ltb_ge c 2048)), (proj2 (N.ltb_ge c 65536)) by lia.
  rewrite div_262144, div_4096. split_cp c q r. split_cp q p s. split_cp p o t.
  cbn [app]. rewrite utf8_lead. unfold utf8_start.
  rewrite (proj2 (N.ltb_ge (240 + o) 128)), (in_range_above 194 223), (in_range_above 224 239),
    (in_range_intro 240 244) by lia. cbn [app].
  rewrite (utf8_more _ _ 2) by
    (done || lia || apply in_range_intro; cbn [lower upper]; repeat case_match; bools; lia).
  rewrite (utf8_more _ _ 1) by (done || apply in_range_intro; cbn; lia).
  rewrite (utf8_more _ _ O) by (done || apply in_range_intro; cbn; lia). cbn [cp].
  change 7 with (N.ones 3).
  rewrite (lead_bits 240 3) by (done || (change (2 ^ 3) with 8; lia)).
  f_equal. f_equal. lia.
Qed.

Lemma utf8_cp c bs : scalar c ->
  utf8_events utf8_init (bytes_of_cp c ++ bs) = Some c :: utf8_events utf8_init bs.
Proof.
  intros Hs. destruct (N.ltb_spec c 128).
  - unfold bytes_of_cp. rewrite (proj2 (N.ltb_lt c 128)) by done. cbn [app utf8_events].
    unfold utf8_byte, utf8_start. cbn [need utf8_init]. by rewrite (proj2 (N.ltb_lt c 128)).
  - destruct (N.ltb_spec c 2048); [by apply utf8_two |].
    destruct (N.ltb_spec c 65536); [by apply utf8_three |].
    apply utf8_four; [done |]. unfold scalar in Hs. lia.
Qed.

Lemma bind_step {A B} (f : A -> list B) x l : (x :: l) ≫= f = f x ++ (l ≫= f).
Proof. done. Qed.

Lemma units_code_points s : well_formed s = true ->
  Forall scalar (code_points s) /\ code_points s ≫= units_of_cp = s.
Proof.
  induction s as [s IH] using (induction_ltof1 _ (@length N)). unfold ltof in IH.
  destruct s as [| c s]; [done |]. cbn [well_formed code_points].
  unfold is_high, is_low, in_range in *.
  destruct ((55296 <=? c) && (c <=? 56319)) eqn:Hh.
  - destruct s as [| d s]; [done |]. intros [Hl Hw]%andb_true_iff. rewrite Hl. bools.
    destruct (IH s) as [Hf Hu]; [simpl; lia | done |]. split.
    + constructor; [| done]. right. lia.
    + rewrite bind_step, Hu. unfold units_of_cp. rewrite (proj2 (N.ltb_ge _ 65536)) by lia.
      set (x := c - 55296). set (y := d - 56320).
      assert (65536 + x * 1024 + y - 65536 = y + x * 1024) as -> by lia.
      assert (y < 1024) by lia.
      rewrite N.div_add, N.Div0.mod_add, N.div_small, N.mod_small by done.
      simpl. f_equal; [lia |]. f_equal. lia.
  - intros Hw. bools.
    match goal with H : _ && _ = false |- _ => rewrite H end.
    destruct (IH s) as [Hf Hu]; [simpl; lia | done |]. split.
    + constructor; [| done]. unfold scalar.
      repeat match goal with H : _ && _ = false |- _ => apply andb_false_iff in H as [? | ?] end;
        bools; lia.
    + rewrite bind_step, Hu. unfold units_of_cp. by rewrite (proj2 (N.ltb_lt c 65536)).
Qed.

Lemma decode_encode s : well_formed s = true -> decode_lenient (encode_text s) = s.
Proof.
  intros [Hs Hu]%units_code_points. unfold decode_lenient, encode_text.
  rewrite <- Hu at 2. clear Hu. generalize dependent (code_points s).
  induction 1 as [| c cs Hc _ IH]; [done |].
  rewrite bind_step, utf8_cp by done. rewrite !bind_step. cbn [default]. by rewrite IH.
Qed.

(** Encoding loses nothing of a well-formed string. *)
Lemma encode_text_inj s t :
  well_formed s = true -> well_formed t = true -> encode_text s = encode_text t -> s = t.
Proof. intros Hs Ht E. by rewrite <- (decode_encode s), <- (decode_encode t), E. Qed.
