(* ===== verification/Json.v ===== *)
(** * JSON values as JavaScript holds them

    A parsed body is a [jval].  Objects are association lists in insertion
    order without repeated keys ([fromEntries]); [ownEntries] gives the order
    in which JavaScript enumerates them (array-index keys first).  Numbers are
    IEEE binary64 values ([spec_float]), converted from the decimal text with
    a single rounding.  A missing property reads as [undefined], here
    [None]. *)

From S2P Require Import Prelude.
From Stdlib Require Export SpecFloat.

Inductive jval :=
| JNull
| JBool (b : bool)
| JNum (n : spec_float)
| JStr (s : jstring)
| JArr (items : list jval)
| JObj (entries : list (jstring * jval)).

(** Language tables the model does not spell out. *)
Class JsTables := {
  unicode_upper : jstring -> jstring;
  number_text : spec_float -> jstring
}.

(** ** Numbers *)

#[local] Open Scope Z_scope.

(** [Number(text)] for the decimal [(-1)^neg * m * 10^e]. *)
Definition of_decimal (neg : bool) (m e : Z) : spec_float :=
  match m with
  | Zpos p =>
      if 0 <=? e
      then binary_normalize 53 1024 (if neg then - (m * 10 ^ e) else m * 10 ^ e) 0 neg
      else SFdiv 53 1024 (S754_finite neg p 0)
             (S754_finite false (Z.to_pos (10 ^ (- e))) 0)
  | _ => S754_zero neg
  end.

(** The integer a number is, if it is one. *)
Definition integer_of (n : spec_float) : option Z :=
  match n with
  | S754_zero _ => Some 0
  | S754_finite s m e =>
      let signed z := if s then - z else z in
      if 0 <=? e then Some (signed (Zpos m * 2 ^ e))
      else if Zpos m mod 2 ^ (- e) =? 0 then Some (signed (Zpos m / 2 ^ (- e)))
      else None
  | _ => None
  end.

(** [Number.isSafeInteger], with the integer. *)
Definition safe_integer (n : spec_float) : option Z :=
  z ← integer_of n; if Z.abs z <=? 2 ^ 53 - 1 then Some z else None.

Definition num_positive (n : spec_float) : bool := SFltb (S754_zero false) n.
Definition num_negative (n : spec_float) : bool := SFltb n (S754_zero false).
Definition num_finite (n : spec_float) : bool :=
  match n with S754_zero _ | S754_finite _ _ _ => true | _ => false end.

(** ** Objects *)

Definition entries := list (jstring * jval).

Fixpoint getEntry (o : entries) (k : jstring) : option jval :=
  match o with
  | [] => None
  | (k', v) :: o' => if decide (k' = k) then Some v else getEntry o' k
  end.

(** Define a property: in place when the key exists, at the end otherwise. *)
Fixpoint setEntry (k : jstring) (v : jval) (o : entries) : entries :=
  match o with
  | [] => [(k, v)]
  | (k', v') :: o' =>
      if decide (k' = k) then (k, v) :: o' else (k', v') :: setEntry k v o'
  end.

(** [Object.fromEntries]: the last value of a repeated key, at its first place. *)
Definition fromEntries (l : entries) : entries :=
  foldl (fun o '(k, v) => setEntry k v o) [] l.

(** A canonical array index, which enumeration puts first. *)
Definition arrayIndex (k : jstring) : option N :=
  match k with
  | [] => None
  | c :: k' =>
      let n := foldl (fun n d => 10 * n + (d - 48))%N 0%N k in
      if forallb is_digit k && (bool_decide (k' = []) || negb (c =? 48)%N) &&
         (n <? 4294967295)%N
      then Some n else None
  end.

Fixpoint insertIndexed {A} (e : N * A) (l : list (N * A)) : list (N * A) :=
  match l with
  | [] => [e]
  | e' :: l' => if (e.1 <=? e'.1)%N then e :: l else e' :: insertIndexed e l'
  end.

(** [Object.entries]. *)
Definition ownEntries (o : entries) : entries :=
  let indexed := omap (fun e => (fun n => (n, e)) <$> arrayIndex e.1) o in
  map snd (foldr insertIndexed [] indexed) ++
  filter (fun e => arrayIndex e.1 = None) o.

(** [Object.keys]. *)
Definition ownKeys (o : entries) : list jstring := map fst (ownEntries o).

(** ** Reading values: [value.name] of an [unknown] *)

(** [isRecord]: an object that is neither [null] nor an array. *)
Definition asRecord (v : option jval) : option entries :=
  match v with Some (JObj o) => Some o | _ => None end.
Definition isRecord (v : option jval) : bool :=
  match v with Some (JObj _) => true | _ => false end.
Definition asArray (v : option jval) : option (list jval) :=
  match v with Some (JArr l) => Some l | _ => None end.

(** [v ?? ""]. *)
Definition orEmpty (v : option jval) : jval :=
  match v with None | Some JNull => JStr "" | Some v => v end.

(** ** Lexical grammar of JSON *)

Definition is_json_space (c : N) : bool :=
  (c =? 32)%N || (c =? 9)%N || (c =? 10)%N || (c =? 13)%N.
Definition skipSpace (s : jstring) : jstring := dropWhile is_json_space s.

(** The characters of a string token, up to the closing quote. *)
Fixpoint scanString (s : jstring) : option (jstring * jstring) :=
  match s with
  | [] => None
  | c :: s' =>
      if (c =? 34)%N then Some ([], s')
      else if (c =? 92)%N then
        match s' with
        | [] => None
        | d :: s'' => '(body, rest) ← scanString s''; Some (c :: d :: body, rest)
        end
      else '(body, rest) ← scanString s'; Some (c :: body, rest)
  end.

Definition hexUnit (c : N) : N :=
  (if is_digit c then c - 48 else if in_range 65 70 c then c - 55 else c - 87)%N.

Definition escapeUnit (c : N) : option N :=
  (if c =? 34 then Some 34 else if c =? 92 then Some 92 else if c =? 47 then Some 47
   else if c =? 98 then Some 8 else if c =? 102 then Some 12
   else if c =? 110 then Some 10 else if c =? 114 then Some 13
   else if c =? 116 then Some 9 else None)%N.

(** The value of a string token's characters; [None] on a bad escape or a
    control character. *)
Fixpoint decodeString (s : jstring) : option jstring :=
  match s with
  | [] => Some []
  | c :: s' =>
      if (c =? 92)%N then
        match s' with
        | [] => None
        | d :: s'' =>
            if (d =? 117)%N then
              match s'' with
              | h1 :: h2 :: h3 :: h4 :: rest =>
                  if is_hex h1 && is_hex h2 && is_hex h3 && is_hex h4 then
                    t ← decodeString rest;
                    Some ((4096 * hexUnit h1 + 256 * hexUnit h2 + 16 * hexUnit h3
                           + hexUnit h4)%N :: t)
                  else None
              | _ => None
              end
            else u ← escapeUnit d; t ← decodeString s''; Some (u :: t)
        end
      else if (c <? 32)%N || (c =? 34)%N then None
      else t ← decodeString s'; Some (c :: t)
  end.

Definition digits (s : jstring) : jstring * jstring :=
  (takeWhile is_digit s, dropWhile is_digit s).
Definition decimalValue (ds : jstring) : Z :=
  foldl (fun n d => 10 * n + (Z.of_N d - 48)) 0 ds.

(** A JSON number (optional sign, integer part without leading zeros, optional
    fraction, optional exponent), matched greedily at the start of [s]: the
    number and what follows it. *)
Definition intPart (s : jstring) : option (jstring * jstring) :=
  match s with
  | [] => None
  | c :: s' =>
      if (c =? 48)%N then Some ([c], s')
      else if is_digit c then Some (digits s) else None
  end.
Definition fracPart (s : jstring) : jstring * jstring :=
  match s with
  | c :: s' =>
      if (c =? 46)%N && negb (bool_decide ((digits s').1 = [])) then digits s' else ([], s)
  | [] => ([], s)
  end.
Definition expPart (s : jstring) : Z * jstring :=
  match s with
  | c :: s' =>
      if (c =? 101)%N || (c =? 69)%N then
        let '(neg, s'') :=
          match s' with
          | d :: t => if (d =? 45)%N then (true, t) else if (d =? 43)%N then (false, t)
                      else (false, s')
          | [] => (false, s')
          end in
        let '(ds, rest) := digits s'' in
        if bool_decide (ds = []) then (0, s)
        else (if neg then - decimalValue ds else decimalValue ds, rest)
      else (0, s)
  | [] => (0, s)
  end.
Definition scanNumber (s : jstring) : option (spec_float * jstring) :=
  let '(neg, s1) :=
    match s with
    | c :: s' => if (c =? 45)%N then (true, s') else (false, s)
    | [] => (false, s)
    end in
  '(ip, s2) ← intPart s1;
  let '(fp, s3) := fracPart s2 in
  let '(ex, s4) := expPart s3 in
  Some (of_decimal neg (decimalValue (ip ++ fp)) (ex - Z.of_nat (length fp)), s4).

(** [true], [false], [null] or a number at the start of [s]. *)
Definition scanScalar (s : jstring) : option (jval * jstring) :=
  if startsWith "true" s then Some (JBool true, drop 4 s)
  else if startsWith "false" s then Some (JBool false, drop 5 s)
  else if startsWith "null" s then Some (JNull, drop 4 s)
  else '(n, rest) ← scanNumber s; Some (JNum n, rest).

(** A string token at the start of [s]. *)
Definition scanToken (s : jstring) : option (jstring * jstring) :=
  match s with
  | c :: s' =>
      if (c =? 34)%N then
        '(body, rest) ← scanString s'; t ← decodeString body; Some (t, rest)
      else None
  | [] => None
  end.

(** After white space, the character [c] if it comes next. *)
Definition eat (c : N) (s : jstring) : option jstring :=
  match skipSpace s with
  | d :: s' => if (d =? c)%N then Some s' else None
  | [] => None
  end.

#[global] Arguments scanToken : simpl never.
#[global] Arguments scanScalar : simpl never.
#[global] Arguments eat : simpl never.
#[global] Arguments skipSpace : simpl never.

(** ** [JSON.parse]

    Recursive descent on fuel.  Every step of the lexer shortens the text
    (the length lemmas below), so twice its length is enough. *)

Inductive syntax_error := SyntaxError | OutOfFuel.
Definition lexed {A} (o : option A) : result syntax_error A :=
  match o with Some a => Ok a | None => Throw SyntaxError end.

Fixpoint parseValue (fuel : nat) (s : jstring) : result syntax_error (jval * jstring) :=
  match fuel with
  | O => Throw OutOfFuel
  | S fuel =>
      let s := skipSpace s in
      match s with
      | [] => Throw SyntaxError
      | c :: s' =>
          if (c =? 123)%N then
            match eat 125 s' with
            | Some rest => Ok (JObj [], rest)
            | None => '(es, rest) ← parseMembers fuel s'; Ok (JObj (fromEntries es), rest)
            end
          else if (c =? 91)%N then
            match eat 93 s' with
            | Some rest => Ok (JArr [], rest)
            | None => '(vs, rest) ← parseElements fuel s'; Ok (JArr vs, rest)
            end
          else if (c =? 34)%N then
            '(t, rest) ← lexed (scanToken s); Ok (JStr t, rest)
          else lexed (scanScalar s)
      end
  end
with parseMembers (fuel : nat) (s : jstring) : result syntax_error (entries * jstring) :=
  match fuel with
  | O => Throw OutOfFuel
  | S fuel =>
      '(k, s1) ← lexed (scanToken (skipSpace s));
      s2 ← lexed (eat 58 s1);
      '(v, s3) ← parseValue fuel s2;
      match eat 44 s3 with
      | Some s4 => '(es, rest) ← parseMembers fuel s4; Ok ((k, v) :: es, rest)
      | None => rest ← lexed (eat 125 s3); Ok ([(k, v)], rest)
      end
  end
with parseElements (fuel : nat) (s : jstring) : result syntax_error (list jval * jstring) :=
  match fuel with
  | O => Throw OutOfFuel
  | S fuel =>
      '(v, s1) ← parseValue fuel s;
      match eat 44 s1 with
      | Some s2 => '(vs, rest) ← parseElements fuel s2; Ok (v :: vs, rest)
      | None => rest ← lexed (eat 93 s1); Ok ([v], rest)
      end
  end.

Definition JSON_parse (text : jstring) : result syntax_error jval :=
  '(v, rest) ← parseValue (S (2 * length text)) text;
  if bool_decide (skipSpace rest = []) then Ok v else Throw SyntaxError.

(** ** Printing *)

Definition hexDigit (n : N) : N := (if n <? 10 then 48 + n else 87 + n)%N.
Definition unicodeEscape (c : N) : jstring :=
  [92; 117; hexDigit (c / 4096); hexDigit ((c / 256) mod 16);
   hexDigit ((c / 16) mod 16); hexDigit (c mod 16)]%N.

(** One code unit inside a JSON string literal. *)
Definition quoteUnit (c : N) : jstring :=
  (if c =? 34 then [92; 34] else if c =? 92 then [92; 92] else if c =? 8 then [92; 98]
   else if c =? 12 then [92; 102] else if c =? 10 then [92; 110]
   else if c =? 13 then [92; 114] else if c =? 9 then [92; 116]
   else if c <? 32 then unicodeEscape c else [c])%N.

(** [JSON.stringify] of a string: well-formed surrogate pairs are kept, a lone
    surrogate is escaped. *)
Fixpoint quoteUnits (s : jstring) : jstring :=
  match s with
  | [] => []
  | c :: s' =>
      if in_range 55296 56319 c then
        match s' with
        | d :: s'' =>
            if in_range 56320 57343 d then c :: d :: quoteUnits s''
            else unicodeEscape c ++ quoteUnits s'
        | [] => unicodeEscape c
        end
      else if in_range 56320 57343 c then unicodeEscape c ++ quoteUnits s'
      else quoteUnit c ++ quoteUnits s'
  end.
Definition stringifyString (s : jstring) : jstring := 34%N :: quoteUnits s ++ [34%N].

(** [String(n)] of a natural number. *)
Fixpoint decimalDigits (fuel : nat) (n : N) (acc : jstring) : jstring :=
  match fuel with
  | O => acc
  | S fuel =>
      let acc := (48 + n mod 10)%N :: acc in
      if (n <? 10)%N then acc else decimalDigits fuel (n / 10)%N acc
  end.
Definition decimalText (n : N) : jstring := decimalDigits (S (N.size_nat n)) n [].

(** ** The lexer always moves forward *)

Lemma dropWhile_length f (s : jstring) : (length (dropWhile f s) <= length s)%nat.
Proof. induction s as [| c s IH]; simpl; [lia |]. destruct (f c); simpl; lia. Qed.

Lemma skipSpace_length s : (length (skipSpace s) <= length s)%nat.
Proof. apply dropWhile_length. Qed.

Lemma eat_length c s r : eat c s = Some r -> (length r < length s)%nat.
Proof.
  unfold eat. pose proof (skipSpace_length s).
  destruct (skipSpace s) as [| d s'] eqn:E; [done |]. simpl in *; case_match; intros; simplify_eq; lia.
Qed.

Lemma scanString_length s b r : scanString s = Some (b, r) -> (length r < length s)%nat.
Proof.
  revert b r. induction s as [s IH] using (induction_ltof1 _ (@length N)).
  unfold ltof in IH. intros b r H. destruct s as [| c s']; [done |]. simpl in H.
  repeat case_match; simplify_eq/=; try lia.
  - apply bind_Some in H as ([b' r'] & H & ?). simplify_eq.
    apply IH in H; simpl in *; lia.
  - apply bind_Some in H as ([b' r'] & H & ?). simplify_eq.
    apply IH in H; simpl in *; lia.
Qed.

Lemma scanToken_length s t r : scanToken s = Some (t, r) -> (length r < length s)%nat.
Proof.
  unfold scanToken. destruct s as [| c s']; [done |]. case_match; [| done].
  intros ([b r'] & Hb & (t' & _ & ?)%bind_Some)%bind_Some. simplify_eq.
  apply scanString_length in Hb. simpl. lia.
Qed.

Lemma fracPart_length s : (length (fracPart s).2 <= length s)%nat.
Proof.
  unfold fracPart. destruct s as [| c s]; [done |].
  case_match; simpl; pose proof (dropWhile_length is_digit s); lia.
Qed.

Lemma expPart_length s : (length (expPart s).2 <= length s)%nat.
Proof.
  unfold expPart, digits. destruct s as [| c s]; [done |].
  destruct ((c =? 101)%N || (c =? 69)%N); [| done].
  destruct (match s with d :: t => _ | [] => _ end) as [neg s1] eqn:E1.
  assert (length s1 <= length s)%nat by (repeat case_match; simplify_eq/=; lia).
  pose proof (dropWhile_length is_digit s1). case_bool_decide; simpl; lia.
Qed.

Lemma scanNumber_length s n r : scanNumber s = Some (n, r) -> (length r < length s)%nat.
Proof.
  unfold scanNumber. intros H.
  destruct (match s with c :: s' => _ | [] => _ end) as [neg s1] eqn:E1 in H.
  assert (length s1 <= length s)%nat by (repeat case_match; simplify_eq/=; lia).
  apply bind_Some in H as ([ip s2] & Hi & H).
  assert (length s2 < length s1)%nat.
  { destruct s1 as [| c s1]; simpl in Hi; [done |].
    pose proof (dropWhile_length is_digit s1).
    destruct (c =? 48)%N; [simplify_eq/=; lia |].
    destruct (is_digit c) eqn:Hc; [| done].
    unfold digits in Hi. simpl in Hi. rewrite Hc in Hi. simplify_eq/=. lia. }
  pose proof (fracPart_length s2). destruct (fracPart s2) as [fp s3]. simpl in *.
  pose proof (expPart_length s3). destruct (expPart s3) as [ex s4]. simpl in *.
  simplify_eq. lia.
Qed.

Lemma scanScalar_length s v r : scanScalar s = Some (v, r) -> (length r < length s)%nat.
Proof.
  unfold scanScalar.
  repeat match goal with
  | |- context [ if startsWith ?w s then _ else _ ] =>
      let E := fresh "E" in destruct (startsWith w s) eqn:E;
      [apply startsWith_spec in E as [t ->]; intros; simplify_eq;
       rewrite length_drop, length_app; simpl; lia |]
  end.
  intros ([n r'] & H & ?)%bind_Some. simplify_eq. by eapply scanNumber_length.
Qed.

(** Bounds the remaining text of every lexing step in the context. *)
Ltac lex_bounds :=
  repeat match goal with
  | H : eat _ ?s = Some ?r |- _ =>
      lazymatch goal with
      | _ : (length r < length s)%nat |- _ => fail
      | _ => pose proof (eat_length _ _ _ H)
      end
  | H : scanToken ?s = Some (_, ?r) |- _ =>
      lazymatch goal with
      | _ : (length r < length s)%nat |- _ => fail
      | _ => pose proof (scanToken_length _ _ _ H)
      end
  | H : scanScalar ?s = Some (_, ?r) |- _ =>
      lazymatch goal with
      | _ : (length r < length s)%nat |- _ => fail
      | _ => pose proof (scanScalar_length _ _ _ H)
      end
  | _ : context [ skipSpace ?s ] |- _ =>
      lazymatch goal with
      | _ : (length (skipSpace s) <= length s)%nat |- _ => fail
      | _ => pose proof (skipSpace_length s)
      end
  end.

(** ** Objects without repeated keys *)

Lemma getEntry_set k v o : getEntry (setEntry k v o) k = Some v.
Proof.
  induction o as [| [k' v'] o IH]; cbn; [by rewrite decide_True |].
  case_decide; cbn; [by rewrite decide_True | by rewrite decide_False].
Qed.
Lemma getEntry_set_ne k k' v o : k <> k' -> getEntry (setEntry k v o) k' = getEntry o k'.
Proof.
  intros Hn. induction o as [| [k0 v0] o IH]; cbn [setEntry getEntry].
  - by rewrite decide_False.
  - destruct (decide (k0 = k)) as [-> |]; cbn [getEntry]; [by rewrite !decide_False by done |]. by rewrite IH.
Qed.

Lemma setEntry_fresh k v o : k ∉ map fst o -> setEntry k v o = o ++ [(k, v)].
Proof.
  induction o as [| [k' v'] o IH]; simpl; intros H; [done |].
  rewrite decide_False by set_solver. rewrite IH; set_solver.
Qed.

Lemma fromEntries_nodup l : NoDup (map fst l) -> fromEntries l = l.
Proof.
  unfold fromEntries. intros H.
  enough (forall acc, NoDup (map fst (acc ++ l)) ->
    foldl (fun o '(k, v) => setEntry k v o) acc l = acc ++ l) as HE by by apply (HE []).
  clear H. induction l as [| [k v] l IH]; intros acc Hnd; simpl; [by rewrite app_nil_r |].
  rewrite setEntry_fresh.
  - rewrite IH; [by rewrite <- app_assoc | by rewrite <- app_assoc].
  - rewrite map_app in Hnd. simpl in Hnd. apply NoDup_app in Hnd as (_ & Hd & _).
    intros Hk. apply (Hd k Hk). left.
Qed.
