(* ===== verification/Number.v ===== *)
(** * Whole numbers as JavaScript numbers

    [num_of_Z z] is the double nearest to [z]; below [2^53] it is exactly [z],
    and its text is the decimal digits of [z] ([integer_text]).  [num_leb]
    compares a double with a whole number by value. *)

From S2P Require Import Prelude Json.

#[local] Open Scope Z_scope.

Definition num_of_Z (z : Z) : spec_float := of_decimal (z <? 0) (Z.abs z) 0.

(** [n <= z]. *)
Definition num_leb (n : spec_float) (z : Z) : bool :=
  match n with
  | S754_zero _ => 0 <=? z
  | S754_infinity s => s
  | S754_nan => false
  | S754_finite s m e =>
      let signed := if s then - Zpos m else Zpos m in
      if 0 <=? e then signed * 2 ^ e <=? z else signed <=? z * 2 ^ (- e)
  end.

(** [Math.min(n, z)] of a finite [n]. *)
Definition num_min (n : spec_float) (z : Z) : spec_float :=
  if num_leb n z then n else num_of_Z z.

Lemma num_leb_integer n x z : integer_of n = Some x -> num_leb n z = (x <=? z).
Proof.
  destruct n as [s | | | s m e]; simpl; intros H; simplify_eq; [done |].
  destruct (Z.leb_spec 0 e); simplify_eq; [by destruct s; rewrite ?Z.mul_opp_l |].
  destruct (Z.eqb_spec (Zpos m mod 2 ^ (- e)) 0) as [E |]; [| done]. simplify_eq.
  assert (0 < 2 ^ (- e)) by (apply Z.pow_pos_nonneg; lia).
  pose proof (Z.div_mod (Zpos m) (2 ^ (- e)) ltac:(lia)) as Hm. rewrite E, Z.add_0_r in Hm.
  set (q := Zpos m / 2 ^ (- e)) in *. set (k := 2 ^ (- e)) in *.
  rewrite Hm. destruct s; apply Bool.eq_iff_eq_true; rewrite !Z.leb_le; nia.
Qed.

Lemma digits2_bounds p : 2 ^ (Zpos (digits2_pos p) - 1) <= Zpos p < 2 ^ Zpos (digits2_pos p).
Proof.
  induction p as [p IH | p IH |]; cbn [digits2_pos]; [| | done];
    rewrite Pos2Z.inj_succ; replace (Z.succ (Zpos (digits2_pos p)) - 1) with
      (Z.succ (Zpos (digits2_pos p) - 1)) by lia;
    rewrite !Z.pow_succ_r by lia; lia.
Qed.

Lemma digits2_small p n : Zpos p < 2 ^ n -> 0 <= n -> Zpos (digits2_pos p) <= n.
Proof.
  intros Hp Hn. destruct (digits2_bounds p) as [Hlo _].
  destruct (Z.le_gt_cases (Zpos (digits2_pos p)) n) as [| Hgt]; [done |].
  assert (2 ^ n <= 2 ^ (Zpos (digits2_pos p) - 1)) by (apply Z.pow_le_mono_r; lia). lia.
Qed.

Lemma shift_left d p :
  Zpos (Pos.iter xO p d) = Zpos p * 2 ^ Zpos d /\
  digits2_pos (Pos.iter xO p d) = (digits2_pos p + d)%positive.
Proof.
  induction d as [| d [IH1 IH2]] using Pos.peano_ind.
  - simpl. split; [lia |]. by rewrite Pos.add_1_r.
  - rewrite Pos.iter_succ. split.
    + rewrite Pos2Z.inj_xO, IH1, Pos2Z.inj_succ, Z.pow_succ_r by lia. lia.
    + cbn [digits2_pos]. rewrite IH2. lia.
Qed.

(** A number of 53 significant bits is not rounded. *)
Lemma round_exact s m e :
  Zpos (digits2_pos m) = 53 -> -1074 <= e <= 971 ->
  binary_round_aux 53 1024 s (Zpos m) e loc_Exact = S754_finite s m e.
Proof.
  intros Hd He. unfold binary_round_aux, shr_fexp, fexp, emin. cbn [shr_record_of_loc Zdigits2].
  rewrite Hd. replace (Z.max (53 + e - 53) (3 - 1024 - 53) - e) with 0 by lia.
  cbn [shr loc_of_shr_record round_nearest_even shr_m Zdigits2]. rewrite Hd.
  replace (Z.max (53 + e - 53) (3 - 1024 - 53) - e) with 0 by lia.
  cbn [shr shr_record_of_loc shr_m]. by rewrite (proj2 (Z.leb_le e (1024 - 53))) by lia.
Qed.

Lemma round_whole s p : Zpos p < 2 ^ 53 ->
  exists m e, binary_round 53 1024 s p 0 = S754_finite s m e /\ e <= 0 /\
    Zpos m = Zpos p * 2 ^ (- e).
Proof.
  intros Hp. pose proof (digits2_small p 53 Hp ltac:(lia)) as Hd.
  unfold binary_round, shl_align, fexp, emin. rewrite Z.add_0_r, Z.sub_0_r.
  rewrite Z.max_l by lia. destruct (Zpos (digits2_pos p) - 53) as [| | d] eqn:E; [| lia |].
  - exists p, 0. split_and!; [| lia | simpl; lia]. apply round_exact; lia.
  - destruct (shift_left d p) as [Hv Hdig].
    exists (Pos.iter xO p d), (Zneg d). split_and!; [| lia | by rewrite Hv].
    apply round_exact; [rewrite Hdig, Pos2Z.inj_add |]; lia.
Qed.

(** Whole numbers below [2^53] are held exactly. *)
Lemma num_of_Z_exact z : Z.abs z < 2 ^ 53 -> integer_of (num_of_Z z) = Some z.
Proof.
  intros Hz. unfold num_of_Z, of_decimal.
  assert (forall s p, Zpos p < 2 ^ 53 -> integer_of (binary_round 53 1024 s p 0)
    = Some (if s then - Zpos p else Zpos p)) as Hr.
  { intros s p Hp. destruct (round_whole s p Hp) as (m & e & -> & He & Hm). simpl.
    destruct (Z.leb_spec 0 e).
    - assert (e = 0) as -> by lia. simpl in *. rewrite Hm. f_equal. destruct s; lia.
    - assert (0 < 2 ^ (- e)) by (apply Z.pow_pos_nonneg; lia).
      rewrite Hm, Z.mod_mul, Z.div_mul by lia. done. }
  destruct z as [| p | p]; [done | |]; cbn [Z.ltb Z.compare Z.abs Z.leb] in *;
    rewrite Z.pow_0_r, Z.mul_1_r; by apply Hr.
Qed.

(** ** The text of a whole number *)

Lemma decimalValue_snoc ds d : decimalValue (ds ++ [d]) = 10 * decimalValue ds + (Z.of_N d - 48).
Proof. unfold decimalValue. by rewrite foldl_app. Qed.

Definition all_digits (ds : jstring) : Prop := Forall (fun c => is_digit c = true) ds.

Lemma digit_unit n : (n < 10)%N -> is_digit (48 + n) = true.
Proof. intros. unfold is_digit, in_range. apply andb_true_iff. rewrite !N.leb_le. lia. Qed.

(** The digits printed for [n]: no leading zero but for [0] itself. *)
Lemma decimalDigits_spec fuel n acc :
  (n < 2 ^ N.of_nat fuel)%N ->
  exists c ds, decimalDigits (S fuel) n acc = (c :: ds) ++ acc /\ all_digits (c :: ds) /\
    decimalValue (c :: ds) = Z.of_N n /\ (c = 48%N -> ds = [] /\ n = 0%N).
Proof.
  revert n acc. induction fuel as [| fuel IH]; intros n acc Hn.
  { assert (n = 0%N) as -> by (simpl in Hn; lia). exists 48%N, []. split_and!; [done | | done | done].
    by repeat constructor. }
  cbn [decimalDigits]. destruct (N.ltb_spec n 10) as [Hs | Hs].
  - rewrite N.mod_small by done. exists (48 + n)%N, []. split_and!; [done | | |].
    + constructor; [by apply digit_unit | constructor].
    + unfold decimalValue. cbn [foldl]. lia.
    + intros ?. split; [done | lia].
  - assert (n / 10 < 2 ^ N.of_nat fuel)%N as Hd.
    { apply N.Div0.div_lt_upper_bound. rewrite Nat2N.inj_succ, N.pow_succ_r' in Hn. lia. }
    destruct (IH (n / 10)%N ((48 + n mod 10)%N :: acc) Hd) as (c & ds & E & Had & Hv & Hz).
    pose proof (N.div_mod n 10 ltac:(done)) as Hdm.
    pose proof (N.mod_lt n 10 ltac:(done)) as Hm.
    exists c, (ds ++ [(48 + n mod 10)%N]). split_and!.
    + cbn [decimalDigits] in E. rewrite E. cbn [app]. by rewrite <- app_assoc.
    + inversion Had; subst. constructor; [done |]. apply Forall_app. split; [done |].
      constructor; [by apply digit_unit | constructor].
    + change (c :: ds ++ [(48 + n mod 10)%N]) with ((c :: ds) ++ [(48 + n mod 10)%N]).
      rewrite decimalValue_snoc, Hv. lia.
    + intros Hc. destruct (Hz Hc) as [_ H0].
      assert (10 * 1 <= n)%N as Hge by lia. apply N.div_le_lower_bound in Hge; lia.
Qed.

Lemma takeWhile_digits ds rest :
  all_digits ds -> match rest with [] => True | c :: _ => is_digit c = false end ->
  takeWhile is_digit (ds ++ rest) = ds /\ dropWhile is_digit (ds ++ rest) = rest.
Proof.
  intros Hd Hr. induction Hd as [| c ds Hc _ [IH1 IH2]]; simpl.
  - destruct rest as [| c rest]; simpl; [done |]. by rewrite Hr.
  - rewrite Hc. by rewrite IH1, IH2.
Qed.

(** What may follow a value inside a document. *)
Definition ends (rest : jstring) : bool :=
  match rest with [] => true | c :: _ => (c =? 44)%N || (c =? 93)%N || (c =? 125)%N || (c =? 10)%N end.

Lemma ends_cases rest :
  ends rest = true -> rest = [] \/ exists c t, rest = c :: t /\ (c = 44 \/ c = 93 \/ c = 125 \/ c = 10)%N.
Proof.
  destruct rest as [| c t]; [by left |]. cbn [ends]. right. exists c, t. split; [done |].
  rewrite !orb_true_iff, !N.eqb_eq in *. tauto.
Qed.

Lemma size_nat_bound n : (n < 2 ^ N.of_nat (N.size_nat n))%N.
Proof.
  assert (forall p, N.of_nat (Pos.size_nat p) = Npos (Pos.size p)) as Hs.
  { induction p as [p IH | p IH |]; cbn [Pos.size_nat Pos.size]; [| | done];
      rewrite Nat2N.inj_succ, IH; lia. }
  destruct n as [| p]; [simpl; lia |]. cbn [N.size_nat]. rewrite Hs. apply (N.size_gt (Npos p)).
Qed.

(** Nothing of a number follows its integer part. *)
Lemma no_fraction rest : ends rest = true -> fracPart rest = ([], rest) /\ expPart rest = (0, rest).
Proof.
  intros [-> | (c & t & -> & [-> | [-> | [-> | ->]]])]%ends_cases; done.
Qed.

(** A whole number reads back from its decimal text. *)
Lemma scan_decimalText n rest :
  ends rest = true ->
  scanNumber (decimalText n ++ rest) = Some (of_decimal false (Z.of_N n) 0, rest).
Proof.
  intros Hends. unfold decimalText.
  destruct (decimalDigits_spec (N.size_nat n) n [] (size_nat_bound n))
    as (c & ds & E & Had & Hv & Hz).
  rewrite E, app_nil_r. destruct (no_fraction rest Hends) as [Hf He].
  inversion Had as [| ? ? Hc Hds]; subst.
  assert (c <> 45%N) as H45 by (intros ->; done).
  assert (intPart (c :: ds ++ rest) = Some (c :: ds, rest)) as Hi.
  { cbn [intPart]. destruct (N.eqb_spec c 48) as [-> |].
    - by destruct (Hz eq_refl) as [-> _].
    - rewrite Hc. unfold digits. change (c :: ds ++ rest) with ((c :: ds) ++ rest).
      destruct (takeWhile_digits (c :: ds) rest) as [-> ->]; [done | | done].
      by destruct (ends_cases rest Hends) as [-> | (d & t & -> & [-> | [-> | [-> | ->]]])]. }
  unfold scanNumber. cbn [app]. rewrite (proj2 (N.eqb_neq c 45)) by done. rewrite Hi.
  cbn [mbind option_bind]. rewrite Hf, He, app_nil_r, Hv. done.
Qed.

Lemma decimalText_start n : exists c t, decimalText n = c :: t /\ is_digit c = true.
Proof.
  destruct (decimalDigits_spec (N.size_nat n) n [] (size_nat_bound n)) as (c & ds & E & Had & _).
  exists c, ds. unfold decimalText. rewrite E, app_nil_r. split; [done |]. by inversion Had.
Qed.

Lemma decimalText_ascii n : is_ascii (decimalText n) = true.
Proof.
  destruct (decimalDigits_spec (N.size_nat n) n [] (size_nat_bound n)) as (c & ds & E & Had & _).
  unfold decimalText. rewrite E, app_nil_r. apply forallb_forall. intros d Hd.
  rewrite <- list_elem_of_In in Hd. unfold all_digits in Had. rewrite Forall_forall in Had.
  specialize (Had d Hd). unfold is_digit, in_range in Had. bools. apply N.ltb_lt. lia.
Qed.
