(* ===== verification/JsonPrint.v ===== *)
(** * Printing JSON, and reading it back

    [JSON.stringify] and the RFC 8785 form ([canonicalJson] of [approval.ts])
    both print a value without white space; they differ in the order of an
    object's members.  [compact] prints members in the order of the list, both
    printers are [compact] after a reordering, and [parse_compact] shows that
    [JSON.parse] gives the printed value back.  The text of a number comes from
    the [JsTables] interface; [number_ok] says that one number's text reads
    back as that number. *)

From stdpp Require Import sorting.
From S2P Require Import Prelude Text Json Number.

#[local] Open Scope nat_scope.

(** ** Induction on values *)

Fixpoint jval_induction (P : jval -> Prop)
    (Hnull : P JNull) (Hbool : forall b, P (JBool b)) (Hnum : forall n, P (JNum n))
    (Hstr : forall s, P (JStr s)) (Harr : forall l, Forall P l -> P (JArr l))
    (Hobj : forall o, Forall (fun e => P e.2) o -> P (JObj o)) (v : jval) : P v :=
  let rec := jval_induction P Hnull Hbool Hnum Hstr Harr Hobj in
  match v with
  | JNull => Hnull
  | JBool b => Hbool b
  | JNum n => Hnum n
  | JStr s => Hstr s
  | JArr l =>
      Harr l ((fix go l := match l return Forall P l with
                           | [] => Forall_nil_2 P
                           | x :: l' => Forall_cons_2 P x l' (rec x) (go l')
                           end) l)
  | JObj o =>
      Hobj o ((fix go o := match o return Forall (fun e => P e.2) o with
                           | [] => Forall_nil_2 _
                           | x :: o' => Forall_cons_2 (fun e => P e.2) x o' (rec x.2) (go o')
                           end) o)
  end.

(** ** Printers *)

Section Print.
Context `{JsTables}.

(** Everything but arrays and objects: infinities and NaN print as [null]. *)
Definition printScalar (v : jval) : jstring :=
  match v with
  | JBool true => "true"
  | JBool false => "false"
  | JNum n => if num_finite n then number_text n else "null"
  | JStr s => stringifyString s
  | _ => "null"
  end.

Definition bracketed (l : list jstring) : jstring := 91%N :: join "," l ++ [93%N].
Definition member (e : jstring * jstring) : jstring :=
  stringifyString e.1 ++ 58%N :: e.2.
Definition braced (l : list (jstring * jstring)) : jstring :=
  123%N :: join "," (map member l) ++ [125%N].

Fixpoint compact (v : jval) : jstring :=
  match v with
  | JArr l => bracketed (map compact l)
  | JObj o => braced (map (fun e => (e.1, compact e.2)) o)
  | _ => printScalar v
  end.

(** [JSON.stringify]: members in enumeration order. *)
Definition enumerate {A} (o : list (jstring * A)) : list (jstring * A) :=
  let indexed := omap (fun e => (fun n => (n, e)) <$> arrayIndex e.1) o in
  map snd (foldr insertIndexed [] indexed) ++ filter (fun e => arrayIndex e.1 = None) o.

Fixpoint JSON_stringify (v : jval) : jstring :=
  match v with
  | JArr l => bracketed (map JSON_stringify l)
  | JObj o => braced (enumerate (map (fun e => (e.1, JSON_stringify e.2)) o))
  | _ => printScalar v
  end.

(** [a <= b] by UTF-16 code units. *)
Fixpoint leUnits (a b : jstring) : bool :=
  match a, b with
  | [], _ => true
  | _ :: _, [] => false
  | x :: a', y :: b' => (x <? y)%N || ((x =? y)%N && leUnits a' b')
  end.
Definition byCodeUnit {A} (a b : jstring * A) : Prop := leUnits a.1 b.1 = true.
#[global] Instance byCodeUnit_dec {A} (a b : jstring * A) : Decision (byCodeUnit a b).
Proof. unfold byCodeUnit. apply _. Defined.

(** [canonicalJson]: members sorted by key.  Keys of an object are distinct,
    so sorting its members by key is sorting its keys and reading each. *)
Fixpoint canonicalJson (v : jval) : jstring :=
  match v with
  | JArr l => bracketed (map canonicalJson l)
  | JObj o => braced (merge_sort byCodeUnit (map (fun e => (e.1, canonicalJson e.2)) o))
  | _ => printScalar v
  end.
End Print.

(** ** Well-formed values *)

(** The text of [n] is a JSON number that reads back as [n]. *)
Definition number_ok `{JsTables} (n : spec_float) : Prop :=
  num_finite n = true /\ is_ascii (number_text n) = true /\
  (exists c t, number_text n = c :: t /\ is_digit c || (c =? 45)%N = true) /\
  forall rest, ends rest = true -> scanNumber (number_text n ++ rest) = Some (n, rest).

Definition utf16 (s : jstring) : Prop := Forall (fun c => (c < 65536)%N) s.

(** Distinct keys, code units of 16 bits, numbers that print faithfully. *)
Inductive printable_value `{JsTables} : jval -> Prop :=
| PNull : printable_value JNull
| PBool b : printable_value (JBool b)
| PNum n : number_ok n -> printable_value (JNum n)
| PStr s : utf16 s -> printable_value (JStr s)
| PArr l : Forall printable_value l -> printable_value (JArr l)
| PObj o :
    NoDup (map fst o) ->
    Forall (fun e => utf16 e.1 /\ printable_value e.2) o -> printable_value (JObj o).

(** ** String literals read back *)

Lemma hex_digit n : (n < 16)%N -> is_hex (hexDigit n) = true /\ hexUnit (hexDigit n) = n.
Proof.
  intros Hn. rewrite <- (N2Nat.id n). assert (N.to_nat n < 16) as Hn' by lia.
  revert Hn'. generalize (N.to_nat n). intros k Hk. do 16 (destruct k as [| k]; [done |]). lia.
Qed.

Lemma decode_unicodeEscape c t :
  (c < 65536)%N -> decodeString (unicodeEscape c ++ t) = (fun u => c :: u) <$> decodeString t.
Proof.
  intros Hc. pose proof (hex_digit (c / 4096)) as H1.
  pose proof (hex_digit ((c / 256) mod 16)) as H2. pose proof (hex_digit ((c / 16) mod 16)) as H3.
  pose proof (hex_digit (c mod 16)) as H4.
  destruct H1 as [H1 V1]; [apply N.Div0.div_lt_upper_bound; lia |].
  destruct H2 as [H2 V2]; [by apply N.mod_lt |]. destruct H3 as [H3 V3]; [by apply N.mod_lt |].
  destruct H4 as [H4 V4]; [by apply N.mod_lt |].
  assert (4096 * (c / 4096) + 256 * ((c / 256) mod 16) + 16 * ((c / 16) mod 16)
          + c mod 16 = c)%N as Hsum.
  { pose proof (N.div_mod c 16 ltac:(done)). pose proof (N.div_mod (c / 16) 16 ltac:(done)).
    pose proof (N.div_mod (c / 256) 16 ltac:(done)).
    rewrite !N.Div0.div_div in *. change (16 * 16)%N with 256%N in *.
    change (256 * 16)%N with 4096%N in *. lia. }
  unfold unicodeEscape. cbn [app decodeString N.eqb Pos.eqb].
  rewrite H1, H2, H3, H4, V1, V2, V3, V4, Hsum. by destruct (decodeString t).
Qed.

Ltac unit_cases c :=
  unfold quoteUnit;
  repeat match goal with
  | |- context [ (c =? ?k)%N ] => destruct (N.eqb_spec c k) as [-> |]; [done |]
  end.

Lemma decode_quoteUnit c t :
  (c < 65536)%N -> decodeString (quoteUnit c ++ t) = (fun u => c :: u) <$> decodeString t.
Proof.
  intros Hc. unit_cases c. destruct (N.ltb_spec c 32); [by apply decode_unicodeEscape |].
  cbn [decodeString app]. rewrite (proj2 (N.eqb_neq c 92)), (proj2 (N.eqb_neq c 34)) by done.
  by rewrite (proj2 (N.ltb_ge c 32)).
Qed.

Lemma decode_plain c t :
  (c =? 92)%N = false -> (c <? 32)%N || (c =? 34)%N = false ->
  decodeString (c :: t) = (fun u => c :: u) <$> decodeString t.
Proof. intros H1 H2. cbn [decodeString]. by rewrite H1, H2. Qed.

Lemma surrogate_plain c lo : (32 <= lo)%N -> (93 <= lo)%N -> in_range lo (lo + 1023) c = true ->
  (c =? 92)%N = false /\ (c <? 32)%N || (c =? 34)%N = false.
Proof.
  unfold in_range. intros ? ? ?. bools. split; [by apply N.eqb_neq; lia |].
  apply orb_false_iff. split; [apply N.ltb_ge | apply N.eqb_neq]; lia.
Qed.

Lemma scan_unicodeEscape c t : (c < 65536)%N ->
  scanString (unicodeEscape c ++ t)
    = (fun p => (unicodeEscape c ++ p.1, p.2)) <$> scanString t.
Proof.
  intros Hc. unfold unicodeEscape. simpl.
  assert (forall n, (n < 16)%N -> (hexDigit n =? 34)%N = false /\ (hexDigit n =? 92)%N = false) as Hx.
  { intros n Hn. pose proof (hex_digit n Hn) as [Hh _]. unfold is_hex, is_digit, in_range in Hh.
    split; apply N.eqb_neq; intros E; rewrite E in Hh; done. }
  destruct (Hx (c / 4096)%N) as [-> ->]; [apply N.Div0.div_lt_upper_bound; lia |].
  destruct (Hx ((c / 256) mod 16)%N) as [-> ->]; [by apply N.mod_lt |].
  destruct (Hx ((c / 16) mod 16)%N) as [-> ->]; [by apply N.mod_lt |].
  destruct (Hx (c mod 16)%N) as [-> ->]; [by apply N.mod_lt |].
  by destruct (scanString t) as [[? ?] |].
Qed.

Lemma scan_plain c t : (c =? 92)%N = false -> (c =? 34)%N = false ->
  scanString (c :: t) = (fun p => (c :: p.1, p.2)) <$> scanString t.
Proof.
  intros H1 H2. cbn [scanString]. rewrite H1, H2. by destruct (scanString t) as [[? ?] |].
Qed.

Lemma scan_quoteUnit c t : (c < 65536)%N ->
  scanString (quoteUnit c ++ t) = (fun p => (quoteUnit c ++ p.1, p.2)) <$> scanString t.
Proof.
  intros Hc. unfold quoteUnit.
  repeat match goal with
  | |- context [ (c =? ?k)%N ] =>
      destruct (N.eqb_spec c k) as [-> |];
      [cbn; by destruct (scanString t) as [[? ?] |] |]
  end.
  destruct (N.ltb_spec c 32); [by apply scan_unicodeEscape |].
  cbn [app]. apply scan_plain; by apply N.eqb_neq.
Qed.

(** Each piece [p] that [quoteUnits] prints for the units [us]. *)
Definition piece (p us : jstring) : Prop :=
  forall t,
    decodeString (p ++ t) = (fun u => us ++ u) <$> decodeString t /\
    scanString (p ++ t) = (fun q => (p ++ q.1, q.2)) <$> scanString t.

Lemma piece_app p us q vs : piece p us -> piece q vs -> piece (p ++ q) (us ++ vs).
Proof.
  intros Hp Hq t. rewrite <- !app_assoc. destruct (Hp (q ++ t)) as [-> ->].
  destruct (Hq t) as [-> ->]. rewrite <- !option_fmap_compose. split.
  - destruct (decodeString t); simpl; [by rewrite app_assoc | done].
  - destruct (scanString t) as [[? ?] |]; simpl; [by rewrite app_assoc | done].
Qed.

Lemma piece_plain c : (c =? 92)%N = false -> (c <? 32)%N || (c =? 34)%N = false -> piece [c] [c].
Proof.
  intros H1 H2 t. split; [by apply decode_plain |]. apply orb_false_iff in H2 as [_ H2].
  by apply scan_plain.
Qed.

Lemma piece_quoteUnit c : (c < 65536)%N -> piece (quoteUnit c) [c].
Proof. intros Hc t. split; [by apply decode_quoteUnit | by apply scan_quoteUnit]. Qed.

Lemma piece_unicodeEscape c : (c < 65536)%N -> piece (unicodeEscape c) [c].
Proof. intros Hc t. split; [by apply decode_unicodeEscape | by apply scan_unicodeEscape]. Qed.

Lemma piece_quoteUnits s : utf16 s -> piece (quoteUnits s) s.
Proof.
  induction s as [s IH] using (induction_ltof1 _ (@length N)). unfold ltof in IH.
  destruct s as [| c s]; intros Hs.
  { intros t. simpl. split; [by destruct (decodeString t) |].
    by destruct (scanString t) as [[? ?] |]. }
  inversion Hs as [| ? ? Hc Hs']; subst. cbn [quoteUnits].
  assert (piece (quoteUnits s) s) as Hrest by (apply IH; [simpl; lia | done]).
  pose proof (piece_unicodeEscape c Hc) as Hesc.
  destruct (in_range 55296 56319 c) eqn:Hh.
  - destruct s as [| d s]; [done |].
    destruct (in_range 56320 57343 d) eqn:Hl; [| by apply (piece_app _ [c])].
    inversion Hs'; subst.
    destruct (surrogate_plain c 55296) as [? ?]; [done .. |].
    destruct (surrogate_plain d 56320) as [? ?]; [done .. |].
    apply (piece_app [c] [c] (d :: _) (d :: _)); [by apply piece_plain |].
    apply (piece_app [d] [d]); [by apply piece_plain |]. apply IH; [simpl; lia | done].
  - destruct (in_range 56320 57343 c); [by apply (piece_app _ [c]) |].
    apply (piece_app _ [c]); [by apply piece_quoteUnit | done].
Qed.

(** A printed string literal is read back whole, whatever follows it. *)
Lemma scanToken_stringify s rest :
  utf16 s -> scanToken (stringifyString s ++ rest) = Some (s, rest).
Proof.
  intros Hs. pose proof (piece_quoteUnits s Hs) as Hp.
  unfold stringifyString. cbn [app scanToken]. unfold scanToken. cbn [N.eqb Pos.eqb].
  rewrite <- app_assoc. destruct (Hp ([34%N] ++ rest)) as [_ ->]. simpl.
  destruct (Hp []) as [Hd _]. rewrite app_nil_r in Hd. rewrite app_nil_r, Hd. simpl.
  by rewrite app_nil_r.
Qed.

(** ** Printed documents read back *)

Lemma skipSpace_cons c s : is_json_space c = false -> skipSpace (c :: s) = c :: s.
Proof. intros Hc. unfold skipSpace. simpl. by rewrite Hc. Qed.

Lemma eat_hit c s : is_json_space c = false -> eat c (c :: s) = Some s.
Proof. intros Hc. unfold eat. by rewrite skipSpace_cons, N.eqb_refl. Qed.

Lemma eat_miss c d s : is_json_space d = false -> (d =? c)%N = false -> eat c (d :: s) = None.
Proof. intros Hd Hc. unfold eat. by rewrite skipSpace_cons, Hc. Qed.

Lemma stringify_quote s : exists t, stringifyString s = 34%N :: t.
Proof. by eexists. Qed.

Lemma startsWith_head w c s d t :
  w = d :: t -> (d =? c)%N = false -> startsWith w (c :: s) = false.
Proof. intros -> H. simpl. by rewrite H. Qed.

Lemma number_start c : is_digit c || (c =? 45)%N = true -> in_range 45 57 c = true.
Proof.
  unfold is_digit, in_range. intros [?%andb_true_iff | ?%N.eqb_eq]%orb_true_iff.
  - destruct H as [? ?]. bools. apply andb_true_iff. rewrite !N.leb_le. lia.
  - by subst.
Qed.

Section Roundtrip.
Context `{JsTables}.

Lemma compact_head v : printable_value v ->
  exists c t, compact v = c :: t /\ is_json_space c = false /\
    (c =? 44)%N = false /\ (c =? 93)%N = false /\ (c =? 125)%N = false.
Proof.
  intros Hv. destruct Hv as [| [] | n (Hf & _ & (c & t & E & Hc) & _) | | |];
    try by do 2 eexists.
  exists c, t. simpl. rewrite Hf. split; [done |]. apply number_start in Hc.
  unfold is_json_space, in_range in *. bools.
  rewrite !orb_false_iff, !N.eqb_neq. lia.
Qed.

(** [v] is read back from its text by every large enough amount of fuel. *)
Definition reads_back (v : jval) : Prop :=
  forall fuel rest, length (compact v) < fuel -> ends rest = true ->
    parseValue fuel (compact v ++ rest) = Ok (v, rest).

Lemma number_back n : number_ok n -> reads_back (JNum n).
Proof.
  intros (Hf & _ & (c & t & E & Hc) & Hr) fuel rest Hfuel Hends.
  destruct fuel as [| fuel]; [lia |]. specialize (Hr rest Hends).
  cbn [compact printScalar]. rewrite Hf, E in *. cbn [app parseValue].
  apply number_start in Hc. unfold in_range in Hc. bools.
  rewrite skipSpace_cons.
  2: { unfold is_json_space. rewrite !orb_false_iff, !N.eqb_neq. lia. }
  assert (forall k, (k < 45 \/ 57 < k)%N -> (c =? k)%N = false) as Hk
    by (intros; apply N.eqb_neq; lia).
  rewrite !Hk by lia. unfold scanScalar.
  assert (forall k, (k < 45 \/ 57 < k)%N -> (k =? c)%N = false) as Hk'
    by (intros; apply N.eqb_neq; lia).
  rewrite (startsWith_head "true" c _ 116%N "rue"), (startsWith_head "false" c _ 102%N "alse"),
    (startsWith_head "null" c _ 110%N "ull") by (done || apply Hk'; lia).
  cbn [app] in Hr. rewrite Hr. done.
Qed.

Lemma elements_back l fuel rest :
  l <> [] -> Forall (fun v => printable_value v /\ reads_back v) l ->
  length (join "," (map compact l)) + 1 < fuel ->
  parseElements fuel (join "," (map compact l) ++ 93%N :: rest) = Ok (l, rest).
Proof.
  intros Hne Hl. revert fuel. induction Hl as [| v l [Hp Hv] Hl IH]; [done |].
  intros [| fuel] Hfuel; [lia |]. cbn [parseElements].
  destruct l as [| w l]; cbn [map join] in *.
  - rewrite Hv; [| lia | done]. cbn [mbind result_bind].
    rewrite eat_miss, eat_hit by done. done.
  - rewrite !length_app in Hfuel. cbn [length js] in Hfuel.
    rewrite <- app_assoc. cbn [js app] in *. rewrite Hv; [| lia | done].
    cbn [mbind result_bind]. rewrite eat_hit by done.
    rewrite IH; [done | done |]. cbn [map]. lia.
Qed.

Lemma members_back o fuel rest :
  o <> [] -> Forall (fun e => utf16 e.1 /\ printable_value e.2 /\ reads_back e.2) o ->
  let text := join "," (map member (map (fun e => (e.1, compact e.2)) o)) in
  length text + 1 < fuel ->
  parseMembers fuel (text ++ 125%N :: rest) = Ok (o, rest).
Proof.
  intros Hne Ho. cbv zeta. revert fuel.
  induction Ho as [| [k v] o (Hk & Hp & Hv) Ho IH]; [done |].
  intros [| fuel] Hfuel; [lia |]. cbn [parseMembers fst snd] in *.
  destruct (stringify_quote k) as [t Et].
  destruct o as [| e o]; cbn [map join fst snd] in *; unfold member at 1; cbn [fst snd].
  - unfold member in Hfuel. rewrite length_app in Hfuel. cbn [length fst snd] in Hfuel.
    rewrite <- app_assoc. rewrite Et at 1. cbn [app]. rewrite skipSpace_cons by done.
    change (34%N :: t ++ ?x) with ((34%N :: t) ++ x). rewrite <- Et, scanToken_stringify by done.
    cbn [lexed mbind result_bind]. rewrite eat_hit by done. cbn [lexed mbind result_bind].
    rewrite Hv; [| lia | done]. cbn [mbind result_bind].
    rewrite eat_miss, eat_hit by done. done.
  - unfold member in Hfuel at 1. rewrite !length_app in Hfuel.
    cbn [length fst snd js] in Hfuel.
    rewrite <- !app_assoc. rewrite Et at 1. cbn [app]. rewrite skipSpace_cons by done.
    change (34%N :: t ++ ?x) with ((34%N :: t) ++ x). rewrite <- Et, scanToken_stringify by done.
    cbn [lexed mbind result_bind]. rewrite eat_hit by done. cbn [lexed mbind result_bind].
    cbn [js app] in *. rewrite Hv; [| lia | done].
    cbn [mbind result_bind]. rewrite eat_hit by done.
    rewrite IH; [done | done |]. cbn [map]. lia.
Qed.

Lemma compact_reads_back v : printable_value v -> reads_back v.
Proof.
  induction v as [| [] | n | s | l IH | o IH] using jval_induction; intros Hv;
    try (intros [| fuel] rest Hf He; [simpl in Hf; lia | done]).
  - inversion Hv; subst. by apply number_back.
  - inversion Hv; subst. intros [| fuel] rest Hf He; [lia |]. cbn [compact printScalar] in *.
    destruct (stringify_quote s) as [t Et]. rewrite Et at 1. cbn [app parseValue].
    rewrite skipSpace_cons by done. cbn [N.eqb Pos.eqb].
    change (34%N :: t ++ ?x) with ((34%N :: t) ++ x).
    by rewrite <- Et, scanToken_stringify.
  - inversion Hv as [| | | | ? Hl |]; subst. intros [| fuel] rest Hf He; [lia |].
    cbn [compact] in *. unfold bracketed in *. cbn [app parseValue length] in *.
    rewrite skipSpace_cons by done. cbn [N.eqb Pos.eqb]. rewrite <- app_assoc.
    rewrite length_app in Hf. cbn [length] in Hf.
    destruct l as [| v l]; [done |].
    inversion Hl as [| ? ? Hpv _]; subst.
    destruct (compact_head v Hpv) as (c & t & Ec & Hs & _ & H93 & _).
    assert (exists t', join "," (map compact (v :: l)) = c :: t') as [t' Et'].
    { cbn [map join]. rewrite Ec. destruct l; by eexists. }
    rewrite Et' at 1. cbn [app]. rewrite eat_miss by done.
    rewrite elements_back; [done | done | | lia].
    rewrite Forall_forall in *. intros w Hw. split; [by apply Hl | by apply IH, Hl].
  - inversion Hv as [| | | | | ? Hnd Ho]; subst. intros [| fuel] rest Hf He; [lia |].
    cbn [compact] in *. unfold braced in *. cbn [app parseValue length] in *.
    rewrite skipSpace_cons by done. cbn [N.eqb Pos.eqb]. rewrite <- app_assoc.
    rewrite length_app in Hf. cbn [length] in Hf.
    destruct o as [| [k v] o]; [done |].
    assert (exists t', join "," (map member (map (fun e => (e.1, compact e.2)) ((k, v) :: o)))
              = 34%N :: t') as [t' Et'].
    { cbn [map join]. unfold member at 1. destruct o; by eexists. }
    rewrite Et' at 1. cbn [app]. rewrite eat_miss by done.
    rewrite members_back; [| done | | lia].
    + cbn [mbind result_bind]. by rewrite fromEntries_nodup.
    + rewrite Forall_forall in *. intros e Hin. destruct (Ho e Hin).
      split; [done |]. split; [done |]. by apply IH.
Qed.

Lemma parse_compact v : printable_value v -> JSON_parse (compact v) = Ok v.
Proof.
  intros Hv. unfold JSON_parse. rewrite <- (app_nil_r (compact v)) at 2.
  rewrite compact_reads_back; [done | done | lia | done].
Qed.

(** The same for a file that ends in a line break. *)
Lemma parse_compact_line v : printable_value v -> JSON_parse (compact v ++ [10%N]) = Ok v.
Proof.
  intros Hv. unfold JSON_parse. rewrite compact_reads_back; [done | done | | done]. rewrite length_app. cbn. lia.
Qed.
End Roundtrip.

(** ** The canonical form

    [jsame a b]: equal but for the order of members. *)

Inductive jsame : jval -> jval -> Prop :=
| SNull : jsame JNull JNull
| SBool b : jsame (JBool b) (JBool b)
| SNum n : jsame (JNum n) (JNum n)
| SStr s : jsame (JStr s) (JStr s)
| SArr l l' : Forall2 jsame l l' -> jsame (JArr l) (JArr l')
| SObj o o' p :
    Forall2 (fun e e' => e.1 = e'.1 /\ jsame e.2 e'.2) o p -> p ≡ₚ o' ->
    jsame (JObj o) (JObj o').

Fixpoint sortKeys (v : jval) : jval :=
  match v with
  | JArr l => JArr (map sortKeys l)
  | JObj o => JObj (merge_sort byCodeUnit (map (fun e => (e.1, sortKeys e.2)) o))
  | _ => v
  end.

Lemma leUnits_total a b : leUnits a b = true \/ leUnits b a = true.
Proof.
  revert b. induction a as [| x a IH]; intros [| y b]; simpl; [auto .. |].
  destruct (N.lt_trichotomy x y) as [Hlt | [-> | Hlt]].
  - left. by rewrite (proj2 (N.ltb_lt _ _) Hlt).
  - rewrite N.ltb_irrefl, N.eqb_refl. simpl. apply IH.
  - right. by rewrite (proj2 (N.ltb_lt _ _) Hlt).
Qed.

Lemma leUnits_trans a b c : leUnits a b = true -> leUnits b c = true -> leUnits a c = true.
Proof.
  revert b c. induction a as [| x a IH]; intros [| y b] [| z c]; simpl; try done.
  rewrite !orb_true_iff, !andb_true_iff, !N.ltb_lt, !N.eqb_eq.
  intros [? | [-> ?]] [? | [-> ?]]; [left; lia | by left | by left | right; eauto].
Qed.

Lemma leUnits_antisym a b : leUnits a b = true -> leUnits b a = true -> a = b.
Proof.
  revert b. induction a as [| x a IH]; intros [| y b]; simpl; try done.
  rewrite !orb_true_iff, !andb_true_iff, !N.ltb_lt, !N.eqb_eq.
  intros [? | [-> ?]] [? | [? ?]]; try lia. f_equal. by apply IH.
Qed.

#[global] Instance byCodeUnit_total {A} : Total (@byCodeUnit A).
Proof. intros a b. apply leUnits_total. Qed.
#[global] Instance byCodeUnit_trans {A} : Transitive (@byCodeUnit A).
Proof. intros a b c. apply leUnits_trans. Qed.

(** Sorting by key looks at keys only. *)
Section SortMap.
Context {A B : Type} (f : A -> B).
Definition onValue (e : jstring * A) : jstring * B := (e.1, f e.2).

Lemma list_merge_map l1 l2 :
  list_merge byCodeUnit (map onValue l1) (map onValue l2)
    = map onValue (list_merge byCodeUnit l1 l2).
Proof.
  revert l2. induction l1 as [| x l1 IH1]; [by destruct l2 |].
  intros l2. induction l2 as [| y l2 IH2]; [done |]. simpl.
  assert (byCodeUnit (onValue x) (onValue y) <-> byCodeUnit x y) as Hd by done.
  destruct (decide (byCodeUnit x y)).
  - rewrite decide_True by done. simpl. f_equal. apply (IH1 (y :: l2)).
  - rewrite decide_False by done. simpl. f_equal. apply IH2.
Qed.

Lemma merge_sort_map l :
  merge_sort byCodeUnit (map onValue l) = map onValue (merge_sort byCodeUnit l).
Proof.
  unfold merge_sort.
  assert (forall st l1, merge_list_to_stack byCodeUnit (map (fmap (map onValue)) st)
      (map onValue l1)
    = map (fmap (map onValue)) (merge_list_to_stack byCodeUnit st l1)) as Hpush.
  { induction st as [| [l2 |] st IH]; intros l1; simpl; [done | | done].
    f_equal. by rewrite list_merge_map, IH. }
  assert (forall st, merge_stack byCodeUnit (map (fmap (map onValue)) st)
    = map onValue (merge_stack byCodeUnit st)) as Hpop.
  { induction st as [| [l2 |] st IH]; simpl; [done | | done]. by rewrite IH, list_merge_map. }
  enough (forall st, merge_sort_aux byCodeUnit (map (fmap (map onValue)) st) (map onValue l)
    = map onValue (merge_sort_aux byCodeUnit st l)) as HE by apply (HE []).
  induction l as [| x l IH]; intros st; simpl; [apply Hpop |].
  by rewrite <- IH, <- Hpush.
Qed.
End SortMap.

Lemma map_ext_forall {A B} (f g : A -> B) l :
  Forall (fun x => f x = g x) l -> map f l = map g l.
Proof. induction 1; simpl; congruence. Qed.

Lemma canonicalJson_compact `{JsTables} v : canonicalJson v = compact (sortKeys v).
Proof.
  induction v as [| | | | l IH | o IH] using jval_induction; try done; simpl; f_equal.
  - rewrite map_map. by apply map_ext_forall.
  - change (map (fun e => (e.1, sortKeys e.2)) o) with (map (onValue sortKeys) o).
    change (fun e : jstring * jval => (e.1, compact e.2)) with (onValue compact).
    rewrite <- merge_sort_map, map_map. f_equal. apply map_ext_forall.
    eapply Forall_impl; [exact IH |]. intros e He. unfold onValue. simpl. by rewrite He.
Qed.

(** *** [sortKeys] keeps a value but for the order of its members *)

Lemma jsame_sortKeys v : jsame v (sortKeys v).
Proof.
  induction v as [| | | | l IH | o IH] using jval_induction; simpl; try constructor.
  - induction IH; simpl; by constructor.
  - econstructor; [| symmetry; apply merge_sort_Permutation].
    induction IH; simpl; by repeat constructor.
Qed.

Lemma sortKeys_keys o :
  map fst (merge_sort byCodeUnit (map (fun e => (e.1, sortKeys e.2)) o)) ≡ₚ map fst o.
Proof.
  rewrite merge_sort_Permutation. by rewrite map_map.
Qed.

Lemma printable_sortKeys `{JsTables} v : printable_value v -> printable_value (sortKeys v).
Proof.
  induction v as [| | | | l IH | o IH] using jval_induction; intros Hv; simpl; try done.
  - inversion Hv as [| | | | ? Hl |]; subst. constructor.
    rewrite Forall_forall in *. intros w. rewrite list_elem_of_fmap. intros (x & -> & Hx). auto.
  - inversion Hv as [| | | | | ? Hnd Ho]; subst. constructor.
    + by rewrite sortKeys_keys.
    + rewrite merge_sort_Permutation. rewrite Forall_forall in *. intros e.
      rewrite list_elem_of_fmap. intros (x & -> & Hx). destruct (Ho x Hx). split; [done |].
      simpl. auto.
Qed.

Abbreviation same_entry := (fun e e' : jstring * jval => e.1 = e'.1 /\ jsame e.2 e'.2).

Lemma jsame_sym a : forall b, jsame a b -> jsame b a.
Proof.
  induction a as [| bit | num | str | l IH | o IH] using jval_induction; intros b Hab;
    inversion Hab as [| | | | ? l' Hl | ? o' p Ho Hp]; subst; try constructor.
  - clear Hab. revert l' Hl. induction IH as [| x l Hx _ IHl]; intros l' Hl;
      inversion Hl; subst; constructor; auto.
  - assert (Forall2 same_entry p o) as Hpo.
    { clear -IH Ho. revert IH. induction Ho as [| e e' o p [Hk He] Ho IHo]; intros IH;
        inversion IH; subst; constructor; auto. }
    destruct (Permutation_Forall2 Hp Hpo) as (q & Hq & Hf).
    by econstructor.
Qed.

Lemma jsame_trans a : forall b c, jsame a b -> jsame b c -> jsame a c.
Proof.
  induction a as [| bit | num | str | l IH | o IH] using jval_induction; intros b c Hab Hbc;
    inversion Hab as [| | | | ? l' Hl | ? o' p Ho Hp]; subst; try done;
    inversion Hbc as [| | | | ? l'' Hl' | ? o'' p' Ho' Hp']; subst.
  - constructor. clear Hab Hbc. revert l' l'' Hl Hl'.
    induction IH as [| x l Hx _ IHl]; intros l' l'' Hl Hl'; inversion Hl; subst;
      inversion Hl'; subst; constructor; eauto.
  - destruct (Permutation_Forall2 (symmetry Hp) Ho') as (q & Hq & Hf).
    apply (SObj _ _ q); [| by rewrite <- Hq].
    clear -IH Ho Hf. revert q IH Hf. induction Ho as [| e e' o p [Hk He] Ho IHo];
      intros q IH Hf; inversion Hf as [| ? e2 ? ? [? ?]]; subst; inversion IH; subst;
      constructor; [split; [congruence |] |]; eauto.
Qed.

Lemma NoDup_map_fst_unique {A} (l : list (jstring * A)) k x y :
  NoDup (map fst l) -> (k, x) ∈ l -> (k, y) ∈ l -> x = y.
Proof.
  induction l as [| [k' z] l IH]; simpl; intros Hnd; [by intros ?%not_elem_of_nil |].
  inversion Hnd as [| ? ? Hni Hnd']; subst.
  assert (forall w, (k', w) ∈ l -> False) as Hno.
  { intros w Hw. apply Hni. apply list_elem_of_fmap. by exists (k', w). }
  rewrite !elem_of_cons. intros [? | ?] [? | ?]; simplify_eq; [done | | | by apply IH];
    exfalso; eauto.
Qed.

Lemma sort_unique {A} (l l' : list (jstring * A)) :
  NoDup (map fst l) -> l ≡ₚ l' -> merge_sort byCodeUnit l = merge_sort byCodeUnit l'.
Proof.
  intros Hnd Hp. apply (Sorted_unique_strong byCodeUnit).
  - intros [k x] [k' y]. rewrite !merge_sort_Permutation, <- Hp. unfold byCodeUnit. simpl.
    intros Hx Hy H1 H2. assert (k = k') as <- by by apply leUnits_antisym.
    f_equal. eapply NoDup_map_fst_unique; eauto.
  - apply Sorted_merge_sort, _.
  - apply Sorted_merge_sort, _.
  - by rewrite !merge_sort_Permutation.
Qed.

Lemma sortKeys_jsame `{JsTables} a : forall b,
  printable_value a -> jsame a b -> sortKeys a = sortKeys b.
Proof.
  induction a as [| bit | num | str | l IH | o IH] using jval_induction; intros b Ha Hab;
    inversion Hab as [| | | | ? l' Hl | ? o' p Ho Hp]; subst; try done; simpl; f_equal.
  - inversion Ha as [| | | | ? Hpl |]; subst. clear Ha Hab. revert IH Hpl.
    induction Hl; intros IH Hpl; simpl; [done |]. inversion IH; inversion Hpl; subst.
    f_equal; auto.
  - inversion Ha as [| | | | | ? Hnd Hpo]; subst. change (fun e => _) with (onValue sortKeys).
    assert (map (onValue sortKeys) o = map (onValue sortKeys) p) as E.
    { clear -IH Ho Hpo. revert IH Hpo. induction Ho as [| e e' o p [Hk He] Ho IHo]; intros IH Hpo;
        simpl; [done |]. inversion IH; inversion Hpo as [| ? ? [? ?]]; subst. unfold onValue at 1 3.
      rewrite Hk. f_equal; [f_equal |]; auto. }
    apply sort_unique.
    + rewrite map_map. done.
    + rewrite E. by apply fmap_Permutation.
Qed.

(** RFC 8785: two values have one canonical text exactly when they differ in
    the order of members only. *)
Lemma canonicalJson_same `{JsTables} a b :
  printable_value a -> printable_value b ->
  canonicalJson a = canonicalJson b <-> jsame a b.
Proof.
  intros Ha Hb. rewrite !canonicalJson_compact. split; intros Hab.
  - assert (sortKeys a = sortKeys b) as E.
    { apply printable_sortKeys, parse_compact in Ha. apply printable_sortKeys, parse_compact in Hb.
      rewrite Hab, Hb in Ha. by apply Ok_inj in Ha. }
    apply (jsame_trans _ (sortKeys a)); [apply jsame_sortKeys |].
    rewrite E. apply jsame_sym, jsame_sortKeys.
  - by rewrite (sortKeys_jsame a b).
Qed.

(** *** Printed text is well-formed UTF-16 *)

Lemma well_formed_app a b :
  well_formed a = true -> well_formed b = true -> well_formed (a ++ b) = true.
Proof.
  intros Ha Hb. induction a as [a IH] using (induction_ltof1 _ (@length N)). unfold ltof in IH.
  destruct a as [| c a]; [done |]. cbn [well_formed app] in *.
  destruct (is_high c).
  - destruct a as [| d a]; [done |]. cbn [app]. bools. apply andb_true_iff. split; [done |].
    apply IH; [simpl; lia | done].
  - bools. rewrite !andb_true_iff. split_and!; [by apply negb_true_iff | by apply N.ltb_lt |].
    apply IH; [simpl; lia | done].
Qed.

Lemma well_formed_ascii s : is_ascii s = true -> well_formed s = true.
Proof.
  induction s as [| c s IH]; [done |]. cbn [is_ascii forallb]. intros [Hc Hs]%andb_true_iff.
  cbn [well_formed]. apply N.ltb_lt in Hc. unfold is_high, is_low.
  assert (forall lo hi, (128 <= lo)%N -> in_range lo hi c = false) as Hr.
  { intros lo hi ?. unfold in_range. apply andb_false_iff. left. apply N.leb_gt. lia. }
  rewrite !Hr by done. rewrite !andb_true_iff.
  split_and!; [done | apply N.ltb_lt; lia | by apply IH].
Qed.

Lemma well_formed_join sep l :
  well_formed sep = true -> Forall (fun s => well_formed s = true) l ->
  well_formed (join sep l) = true.
Proof.
  intros Hs Hl. induction Hl as [| s l Hw Hl IH]; [done |]. cbn [join].
  destruct l; [done |]. by repeat apply well_formed_app.
Qed.

Lemma unicodeEscape_ascii c : (c < 65536)%N -> is_ascii (unicodeEscape c) = true.
Proof.
  intros Hc. assert (forall n, (n < 16)%N -> (hexDigit n <? 128)%N = true) as Hx.
  { intros n Hn. unfold hexDigit. apply N.ltb_lt. destruct (n <? 10)%N; lia. }
  unfold unicodeEscape. cbn [is_ascii forallb].
  rewrite !Hx; [done | by apply N.mod_lt ..| apply N.Div0.div_lt_upper_bound; lia].
Qed.

Lemma well_formed_quoteUnits s : utf16 s -> well_formed (quoteUnits s) = true.
Proof.
  induction s as [s IH] using (induction_ltof1 _ (@length N)). unfold ltof in IH.
  destruct s as [| c s]; intros Hs; [done |]. inversion Hs as [| ? ? Hc Hs']; subst.
  assert (well_formed (quoteUnits s) = true) as Hrest by (apply IH; [simpl; lia | done]).
  pose proof (well_formed_ascii _ (unicodeEscape_ascii c Hc)) as Hesc.
  cbn [quoteUnits]. destruct (in_range 55296 56319 c) eqn:Hh.
  - destruct s as [| d s]; [done |].
    destruct (in_range 56320 57343 d) eqn:Hl; [| by apply well_formed_app].
    inversion Hs'; subst. cbn [well_formed]. unfold is_high, is_low. rewrite Hh, Hl.
    apply IH; [simpl; lia | done].
  - destruct (in_range 56320 57343 c) eqn:Hl; [by apply well_formed_app |].
    apply well_formed_app; [| done]. unfold quoteUnit.
    repeat match goal with |- context [ if (c =? ?k)%N then _ else _ ] =>
      destruct (c =? k)%N; [done |] end.
    destruct (c <? 32)%N; [done |]. cbn [well_formed]. unfold is_high, is_low.
    rewrite Hh, Hl. rewrite (proj2 (N.ltb_lt c 65536)) by done. done.
Qed.

Lemma well_formed_stringify s : utf16 s -> well_formed (stringifyString s) = true.
Proof.
  intros Hs. unfold stringifyString. change (34%N :: ?x) with ([34%N] ++ x).
  repeat apply well_formed_app; [done | by apply well_formed_quoteUnits | done].
Qed.

Lemma well_formed_braced l :
  Forall (fun e => utf16 e.1 /\ well_formed e.2 = true) l -> well_formed (braced l) = true.
Proof.
  intros Hl. unfold braced. change (123%N :: ?x) with ([123%N] ++ x).
  repeat apply well_formed_app; [done | | done]. apply well_formed_join; [done |].
  induction Hl as [| [k t] l [Hk Ht] Hl IH]; cbn [map]; constructor; [| done].
  unfold member. apply well_formed_app; [by apply well_formed_stringify |].
  change (58%N :: ?x) with ([58%N] ++ x). by apply well_formed_app.
Qed.

Lemma well_formed_compact `{JsTables} v :
  printable_value v -> well_formed (compact v) = true.
Proof.
  induction v as [| [] | n | s | l IH | o IH] using jval_induction; intros Hv; try done;
    inversion Hv as [| | ? Hn | ? Hs | ? Hl | ? Hnd Ho]; subst; cbn [compact].
  - destruct Hn as (Hf & Ha & _). cbn [printScalar]. rewrite Hf. by apply well_formed_ascii.
  - by apply well_formed_stringify.
  - unfold bracketed. change (91%N :: ?x) with ([91%N] ++ x).
    repeat apply well_formed_app; [done | | done]. apply well_formed_join; [done |].
    rewrite Forall_forall in IH, Hl. apply Forall_forall. intros t Ht.
    apply list_elem_of_fmap in Ht as (w & -> & Hw).
    apply IH; [done |]. by apply Hl.
  - apply well_formed_braced. rewrite Forall_forall in IH, Ho. apply Forall_forall. intros t Ht.
    apply list_elem_of_fmap in Ht as (e & -> & He). destruct (Ho e He). split; [done |].
    by apply IH.
Qed.

(** ** Whole numbers

    ECMAScript prints a whole number below [2^53] as its decimal digits. *)
Class WholeNumberText `{JsTables} : Prop :=
  whole_text z : (0 <= z < 2 ^ 53)%Z -> number_text (num_of_Z z) = decimalText (Z.to_N z).

Lemma integer_finite n z : integer_of n = Some z -> num_finite n = true.
Proof. by destruct n. Qed.

Lemma whole_number_ok `{WholeNumberText} z : (0 <= z < 2 ^ 53)%Z -> number_ok (num_of_Z z).
Proof.
  intros Hz. unfold number_ok. rewrite whole_text by done. split_and!.
  - apply (integer_finite _ z), num_of_Z_exact. lia.
  - apply decimalText_ascii.
  - destruct (decimalText_start (Z.to_N z)) as (c & t & E & Hc). exists c, t. by rewrite Hc.
  - intros rest Hr. rewrite scan_decimalText by done. rewrite Z2N.id by lia.
    unfold num_of_Z. rewrite (proj2 (Z.ltb_ge z 0)), Z.abs_eq by lia. done.
Qed.

(** A table that prints whole numbers, for examples. *)
Definition integerTables : JsTables := {|
  unicode_upper := id;
  number_text := fun n =>
    match safe_integer n with
    | Some z => if (z <? 0)%Z then 45%N :: decimalText (Z.to_N (- z)) else decimalText (Z.to_N z)
    | None => []
    end
|}.

#[global] Instance integerTables_whole : @WholeNumberText integerTables.
Proof.
  intros z Hz. cbn [number_text integerTables]. unfold safe_integer.
  rewrite num_of_Z_exact by lia. cbn [mbind option_bind].
  rewrite (proj2 (Z.leb_le (Z.abs z) (2 ^ 53 - 1))) by lia.
  by rewrite (proj2 (Z.ltb_ge z 0)) by lia.
Qed.

(** ** [JSON.stringify] reads back, members in enumeration order *)

Lemma insertIndexed_perm {A} (e : N * A) l : insertIndexed e l ≡ₚ e :: l.
Proof.
  induction l as [| e' l IH]; simpl; [done |]. case_match; [done |].
  rewrite IH. apply Permutation_swap.
Qed.

Lemma enumerate_perm {A} (o : list (jstring * A)) : enumerate o ≡ₚ o.
Proof.
  unfold enumerate. induction o as [| e o IH]; [done |]. cbn [omap list_omap].
  destruct (arrayIndex e.1) as [n |] eqn:E; cbn [fmap option_fmap option_map].
  - rewrite filter_cons_False by congruence. cbn [foldr].
    rewrite (fmap_Permutation snd _ _ (insertIndexed_perm (n, e) _)). cbn [fmap list_fmap snd app].
    by apply perm_skip.
  - rewrite filter_cons_True by done.
    rewrite <- Permutation_middle. by apply perm_skip.
Qed.

Section EnumerateMap.
Context {A B : Type} (f : A -> B).

Definition onIndexed (e : N * (jstring * A)) : N * (jstring * B) := (e.1, onValue f e.2).

Lemma insertIndexed_map e l :
  insertIndexed (onIndexed e) (map onIndexed l) = map onIndexed (insertIndexed e l).
Proof. induction l as [| e' l IH]; simpl; [done |]. case_match; [done |]. by rewrite IH. Qed.

Lemma enumerate_map o : enumerate (map (onValue f) o) = map (onValue f) (enumerate o).
Proof.
  unfold enumerate. rewrite map_app. f_equal.
  - assert (foldr insertIndexed [] (omap (fun e => (fun n => (n, e)) <$> arrayIndex e.1)
        (map (onValue f) o))
      = map onIndexed (foldr insertIndexed []
          (omap (fun e => (fun n => (n, e)) <$> arrayIndex e.1) o))) as ->.
    { induction o as [| e o IH]; [done |]. cbn [map omap list_omap]. cbn [onValue fst].
      destruct (arrayIndex e.1) as [n |]; cbn [fmap option_fmap option_map foldr]; [| done].
      by rewrite IH, <- insertIndexed_map. }
    by rewrite !map_map.
  - induction o as [| e o IH]; [done |]. cbn [map].
    destruct (decide (arrayIndex e.1 = None)).
    + rewrite !filter_cons_True by done. cbn [map]. by rewrite IH.
    + by rewrite !filter_cons_False.
Qed.
End EnumerateMap.

Fixpoint enumKeys (v : jval) : jval :=
  match v with
  | JArr l => JArr (map enumKeys l)
  | JObj o => JObj (enumerate (map (fun e => (e.1, enumKeys e.2)) o))
  | _ => v
  end.

Lemma stringify_compact `{JsTables} v : JSON_stringify v = compact (enumKeys v).
Proof.
  induction v as [| | | | l IH | o IH] using jval_induction; try done; simpl; f_equal.
  - rewrite map_map. by apply map_ext_forall.
  - change (map (fun e => (e.1, enumKeys e.2)) o) with (map (onValue enumKeys) o).
    change (fun e : jstring * jval => (e.1, compact e.2)) with (onValue compact).
    rewrite <- enumerate_map, map_map. f_equal. apply map_ext_forall.
    eapply Forall_impl; [exact IH |]. intros e He. unfold onValue. simpl. by rewrite He.
Qed.

Lemma printable_enumKeys `{JsTables} v : printable_value v -> printable_value (enumKeys v).
Proof.
  induction v as [| | | | l IH | o IH] using jval_induction; intros Hv; simpl; try done.
  - inversion Hv as [| | | | ? Hl |]; subst. constructor. rewrite Forall_forall in IH, Hl.
    apply Forall_forall. intros w. rewrite list_elem_of_fmap. intros (x & -> & Hx). auto.
  - inversion Hv as [| | | | | ? Hnd Ho]; subst. rewrite Forall_forall in IH, Ho. constructor.
    + rewrite (fmap_Permutation fst _ _ (enumerate_perm _)). by rewrite <- list_fmap_compose.
    + rewrite enumerate_perm. apply Forall_forall. intros e.
      rewrite list_elem_of_fmap. intros (x & -> & Hx). destruct (Ho x Hx). split; [done |].
      simpl. auto.
Qed.
