(* ===== verification/Base64.v ===== *)
(** * Unpadded base64url ([approval.ts]: [toBase64Url], [fromBase64Url])

    [btoa] and the forgiving decoder [atob] of the platform, and the two
    functions the verifier wraps around them. *)

From S2P Require Import Prelude Regex.

#[local] Open Scope N_scope.

(** ** The platform's [btoa] and [atob] *)

Definition sextetChar (n : N) : N :=
  if n <? 26 then 65 + n
  else if n <? 52 then 71 + n
  else if n <? 62 then n - 4
  else if n =? 62 then 43 else 47.

Definition sextetValue (c : N) : option N :=
  if is_upper c then Some (c - 65)
  else if is_lower c then Some (c - 71)
  else if is_digit c then Some (c + 4)
  else if c =? 43 then Some 62
  else if c =? 47 then Some 63
  else None.

(** The sextets of a byte string, a last partial group filled with zeros. *)
Fixpoint sextets (bs : bytes) : list N :=
  match bs with
  | [] => []
  | [a] => [a / 4; (a mod 4) * 16]
  | [a; b] => [a / 4; (a mod 4) * 16 + b / 16; (b mod 16) * 4]
  | a :: b :: c :: bs' =>
      a / 4 :: (a mod 4) * 16 + b / 16 :: (b mod 16) * 4 + c / 64 :: c mod 64 :: sextets bs'
  end.

Definition padding (n : nat) : jstring := repeat 61 ((4 - n mod 4) mod 4)%nat.

Definition btoa (binary : bytes) : jstring :=
  let text := map sextetChar (sextets binary) in text ++ padding (length text).

(** Bytes of whole groups; the spare bits of a partial group are dropped. *)
Fixpoint unsextets (vs : list N) : bytes :=
  match vs with
  | a :: b :: c :: d :: vs' =>
      a * 4 + b / 16 :: (b mod 16) * 16 + c / 4 :: (c mod 4) * 64 + d :: unsextets vs'
  | [a; b; c] => [a * 4 + b / 16; (b mod 16) * 16 + c / 4]
  | [a; b] => [a * 4 + b / 16]
  | _ => []
  end.

Definition is_ascii_space (c : N) : bool :=
  (c =? 9) || (c =? 10) || (c =? 12) || (c =? 13) || (c =? 32).

(** Up to two [=] at the end of a text whose length is a multiple of four. *)
Definition stripPadding (text : jstring) : jstring :=
  if (length text mod 4 =? 0)%nat then
    match rev text with
    | 61 :: 61 :: t => rev t
    | 61 :: t => rev t
    | _ => text
    end
  else text.

(** [None] is the [InvalidCharacterError]. *)
Definition atob (text : jstring) : option bytes :=
  let text := stripPadding (filter (fun c => is_ascii_space c = false) text) in
  if (length text mod 4 =? 1)%nat then None
  else unsextets <$> mapM sextetValue text.

(** ** [approval.ts] *)

Definition replaceAll (from to : N) (s : jstring) : jstring :=
  map (fun c => if c =? from then to else c) s.

Definition toBase64Url (bs : bytes) : jstring :=
  filter (fun c => c <> 61) (replaceAll 47 95 (replaceAll 43 45 (btoa bs))).

Definition url_char (c : N) : bool := is_alnum c || (c =? 95) || (c =? 45).

Definition fromBase64Url (text : jstring) : option bytes :=
  if negb (matches (RStar (RSet url_char)) text) then None
  else
    let padded := replaceAll 95 47 (replaceAll 45 43 text) ++ padding (length text) in
    atob padded.

(** ** Lemmas *)

Definition byte (b : N) : Prop := b < 256.

(** Every sextet in turn. *)
Ltac each_sextet n :=
  let H := fresh in
  assert (N.to_nat n < 64)%nat as H by lia;
  rewrite <- (N2Nat.id n); revert H; generalize (N.to_nat n);
  let m := fresh "m" in intros m H; do 64 (destruct m as [| m]; [done |]); lia.

Lemma sextetValue_char n : n < 64 -> sextetValue (sextetChar n) = Some n.
Proof. intros Hn. each_sextet n. Qed.

(** The URL-safe character of a sextet. *)
Definition urlChar (n : N) : N :=
  let c := sextetChar n in if c =? 43 then 45 else if c =? 47 then 95 else c.

Lemma urlChar_facts n : n < 64 ->
  url_char (urlChar n) = true /\ urlChar n <> 61 /\
  (fun c => if c =? 47 then 95 else c) ((fun c => if c =? 43 then 45 else c) (sextetChar n))
    = urlChar n /\
  (fun c => if c =? 95 then 47 else c) ((fun c => if c =? 45 then 43 else c) (urlChar n))
    = sextetChar n /\
  is_ascii_space (sextetChar n) = false /\ sextetChar n <> 61.
Proof. intros Hn. each_sextet n. Qed.

Lemma sextets_bound bs : Forall byte bs -> Forall (fun n => n < 64) (sextets bs).
Proof.
  induction bs as [bs IH] using (induction_ltof1 _ (@length N)). unfold ltof, byte in *.
  intros Hb. destruct bs as [| a [| b [| c bs]]]; simpl.
  - constructor.
  - inversion Hb; subst. repeat constructor; [apply N.Div0.div_lt_upper_bound; lia |].
    pose proof (N.mod_lt a 4 ltac:(done)). lia.
  - inversion Hb as [| ? ? Ha Hb']; inversion Hb'; subst.
    pose proof (N.mod_lt a 4 ltac:(done)). pose proof (N.mod_lt b 16 ltac:(done)).
    assert (b / 16 < 16) by (apply N.Div0.div_lt_upper_bound; lia).
    repeat constructor; [apply N.Div0.div_lt_upper_bound; lia | lia | lia].
  - inversion Hb as [| ? ? Ha Hb']; inversion Hb' as [| ? ? Hb2 Hb3]; inversion Hb3; subst.
    pose proof (N.mod_lt a 4 ltac:(done)). pose proof (N.mod_lt b 16 ltac:(done)).
    assert (b / 16 < 16) by (apply N.Div0.div_lt_upper_bound; lia).
    assert (c / 64 < 4) by (apply N.Div0.div_lt_upper_bound; lia).
    repeat constructor; [apply N.Div0.div_lt_upper_bound; lia | lia | lia | by apply N.mod_lt |].
    apply IH; [simpl; lia | done].
Qed.

Lemma join_bits a b k m : m < k -> k <> 0 -> (b = a * k + m) -> b / k = a /\ b mod k = m.
Proof.
  intros Hm Hk ->. rewrite N.add_comm, N.div_add, N.Div0.mod_add by done.
  rewrite N.div_small, N.mod_small by done. lia.
Qed.

Lemma unsextets_sextets bs : Forall byte bs -> unsextets (sextets bs) = bs.
Proof.
  induction bs as [bs IH] using (induction_ltof1 _ (@length N)). unfold ltof, byte in *.
  intros Hb.
  assert (forall x, x / 4 * 4 + x mod 4 = x) as H4
    by (intros x; pose proof (N.div_mod x 4 ltac:(done)); lia).
  assert (forall x, x / 16 * 16 + x mod 16 = x) as H16
    by (intros x; pose proof (N.div_mod x 16 ltac:(done)); lia).
  assert (forall x, x / 64 * 64 + x mod 64 = x) as H64
    by (intros x; pose proof (N.div_mod x 64 ltac:(done)); lia).
  assert (forall x m, m < 16 -> (x * 16 + m) / 16 = x /\ (x * 16 + m) mod 16 = m) as J16
    by (intros; by apply (join_bits _ _ 16)).
  assert (forall x m, m < 4 -> (x * 4 + m) / 4 = x /\ (x * 4 + m) mod 4 = m) as J4
    by (intros; by apply (join_bits _ _ 4)).
  destruct bs as [| a [| b [| c bs]]]; simpl; [done | | |].
  - destruct (J16 (a mod 4) 0) as [E _]; [done |]. rewrite N.add_0_r in E. by rewrite E, H4.
  - inversion Hb as [| ? ? Ha Hb']; inversion Hb'; subst.
    destruct (J16 (a mod 4) (b / 16)) as [-> ->]; [apply N.Div0.div_lt_upper_bound; lia |].
    destruct (J4 (b mod 16) 0) as [E _]; [done |]. rewrite N.add_0_r in E. by rewrite E, H4, H16.
  - inversion Hb as [| ? ? Ha Hb']; inversion Hb' as [| ? ? Hb2 Hb3]; inversion Hb3; subst.
    destruct (J16 (a mod 4) (b / 16)) as [-> ->]; [apply N.Div0.div_lt_upper_bound; lia |].
    destruct (J4 (b mod 16) (c / 64)) as [-> ->]; [apply N.Div0.div_lt_upper_bound; lia |].
    rewrite H4, H16, H64. f_equal. f_equal. f_equal. apply IH; [simpl; lia | done].
Qed.

Lemma sextets_length bs : (length (sextets bs) mod 4 <> 1)%nat.
Proof.
  induction bs as [bs IH] using (induction_ltof1 _ (@length N)). unfold ltof in IH.
  destruct bs as [| a [| b [| c bs]]]; try done. cbn [sextets length].
  specialize (IH bs ltac:(simpl; lia)).
  replace (S (S (S (S (length (sextets bs)))))) with (length (sextets bs) + 1 * 4)%nat by lia.
  by rewrite Nat.Div0.mod_add.
Qed.

Lemma toBase64Url_sextets bs : Forall byte bs -> toBase64Url bs = map urlChar (sextets bs).
Proof.
  intros Hb. apply sextets_bound in Hb. unfold toBase64Url, btoa, replaceAll, padding, jstring.
  rewrite !map_app, !map_map, filter_app.
  replace (filter _ (map _ (repeat 61 _))) with (@nil N).
  - rewrite app_nil_r. induction Hb as [| n ns Hn _ IH]; [done |]. cbn [map].
    destruct (urlChar_facts n Hn) as (_ & Hne & -> & _).
    rewrite filter_cons_True by done. by rewrite IH.
  - generalize ((4 - length (map sextetChar (sextets bs)) mod 4) mod 4)%nat. intros k.
    induction k as [| k IH]; [done |]. simpl. done.
Qed.

Lemma stripPadding_padded t :
  Forall (fun c => c <> 61) t -> (length t mod 4 <> 1)%nat ->
  stripPadding (t ++ padding (length t)) = t.
Proof.
  intros Ht Hm. unfold padding. pose proof (Nat.mod_upper_bound (length t) 4 ltac:(lia)) as Hu.
  assert (forall x, rev t = 61 :: x -> False) as Hno.
  { intros x Ex. rewrite Forall_forall in Ht. apply (Ht 61); [| done].
    rewrite <- (rev_involutive t), Ex. simpl. set_solver. }
  destruct (length t mod 4)%nat as [| [| [| [| k]]]] eqn:E; try lia; simpl; unfold stripPadding.
  - rewrite app_nil_r, E. simpl. destruct (rev t) as [| c r]; [done |].
    destruct (N.eq_dec c 61) as [-> | Hc]; [by destruct (Hno r) |].
    destruct c as [| p]; [done |]. repeat (destruct p as [p | p |]; try done).
  - rewrite length_app, Nat.Div0.add_mod, E. simpl. rewrite rev_app_distr. simpl.
    by rewrite rev_involutive.
  - rewrite length_app, Nat.Div0.add_mod, E. simpl. rewrite rev_app_distr. simpl.
    destruct (rev t) as [| c r] eqn:Er; [by apply (f_equal length) in Er; rewrite length_rev in Er; simpl in Er; rewrite Er in E |].
    destruct (N.eq_dec c 61) as [-> | Hc]; [by destruct (Hno r) |].
    replace t with (rev (c :: r)) by (rewrite <- Er; apply rev_involutive).
    destruct c as [| p]; [done |]. repeat (destruct p as [p | p |]; try done).
Qed.

Lemma base64url_back bs : Forall byte bs -> fromBase64Url (toBase64Url bs) = Some bs.
Proof.
  intros Hb. rewrite toBase64Url_sextets by done. unfold fromBase64Url.
  pose proof (sextets_bound bs Hb) as Hs. pose proof (sextets_length bs) as Hlen.
  replace (matches _ _) with true.
  2: { symmetry. apply matches_iff, lang_star_set_iff. apply Forall_map.
       eapply Forall_impl; [exact Hs |]. intros n Hn. by apply urlChar_facts. }
  cbn [negb]. unfold replaceAll. rewrite !map_map.
  replace (map _ (sextets bs)) with (map sextetChar (sextets bs)).
  2: { clear -Hs. induction Hs as [| n ns Hn _ IH]; [done |]. cbn [map]. rewrite IH. f_equal.
       symmetry. by apply urlChar_facts. }
  unfold atob, jstring. rewrite filter_all.
  - rewrite (length_map urlChar), <- (length_map sextetChar (sextets bs)), stripPadding_padded.
    + rewrite length_map. apply Nat.eqb_neq in Hlen. rewrite Hlen.
      replace (mapM sextetValue _) with (Some (sextets bs)); [cbn; by rewrite unsextets_sextets |].
      symmetry. apply mapM_Some. clear -Hs. induction Hs; simpl; constructor; auto.
      by apply sextetValue_char.
    + apply Forall_map. eapply Forall_impl; [exact Hs |]. intros n Hn. by apply urlChar_facts.
    + by rewrite length_map.
  - apply Forall_app. split.
    + apply Forall_map. eapply Forall_impl; [exact Hs |]. intros n Hn. by apply urlChar_facts.
    + unfold padding. apply Forall_forall. intros c Hc. apply list_elem_of_In, repeat_spec in Hc.
      by subst.
Qed.
