(* ===== verification/GateBody.v ===== *)
(** * The gate's strict body parser ([body.ts])

    Request bodies read the way the engine reads them: struct field names must
    be printable ASCII and must not repeat case-insensitively, and the ones the
    policy reads are rewritten to their canonical spelling; keys of Go maps are
    kept as sent. *)

From S2P Require Import Prelude Text Json.

(** [BodyError.reason]; [Fuel] is the model's own and is shown unreachable. *)
Inductive body_error :=
| Empty | InvalidUtf8 | InvalidJson | TooDeep | NonAsciiKey | DuplicateKey | Fuel.

Definition reason (e : body_error) : jstring :=
  match e with
  | Empty => "empty"
  | InvalidUtf8 => "invalid-utf8"
  | InvalidJson => "invalid-json"
  | TooDeep => "too-deep"
  | NonAsciiKey => "non-ascii-key"
  | DuplicateKey => "duplicate-key"
  | Fuel => "out-of-fuel"
  end.

Definition MAP_FIELDS : list jstring :=
  ["annotations"; "auxiliaryaddresses"; "config"; "driveropts"; "endpointsconfig";
   "exposedports"; "labels"; "options"; "portbindings"; "storageopt"; "sysctls";
   "tmpfs"; "volumes"].

Definition CANONICAL_FIELDS : list jstring :=
  ["Annotations"; "BindOptions"; "Binds"; "Capabilities"; "CapAdd"; "Cgroup";
   "CgroupParent"; "CgroupnsMode"; "Cmd"; "CpuRealtimePeriod"; "CpuRealtimeRuntime";
   "DeviceCgroupRules"; "DeviceRequests"; "Devices"; "Driver"; "DriverConfig";
   "DriverOpts"; "GroupAdd"; "HostConfig"; "IpcMode"; "Labels"; "Links"; "LogConfig";
   "MaskedPaths"; "Mounts"; "Name"; "NetworkMode"; "OomScoreAdj"; "Options"; "PidMode";
   "Privileged"; "Propagation"; "ReadOnly"; "ReadonlyPaths"; "Runtime"; "SecurityOpt";
   "Source"; "Subpath"; "Sysctls"; "TmpfsOptions"; "Type"; "UTSMode"; "UsernsMode";
   "VolumeDriver"; "VolumeOptions"; "VolumesFrom"].

(** [CANONICAL.get(folded)]: the map keeps the last field of a folded name. *)
Definition CANONICAL (folded : jstring) : option jstring :=
  list_find (fun f => toLowerCase f = folded) (rev CANONICAL_FIELDS) ≫= fun p => Some p.2.

Definition MAX_DEPTH : nat := 64.

(** [NOT_PRINTABLE_ASCII] does not match. *)
Definition printable (s : jstring) : bool := forallb (in_range 32 126) s.

Inductive context := Struct | Map.
#[global] Instance context_eq_dec : EqDecision context.
Proof. solve_decision. Defined.

Definition invalid {A} (o : option A) : result body_error A :=
  match o with Some a => Ok a | None => Throw InvalidJson end.

(** A struct field name: ASCII, not repeated case-insensitively, canonical. *)
Definition structKey (raw : jstring) (seen : list jstring)
    : result body_error (jstring * list jstring) :=
  if negb (printable raw) then Throw NonAsciiKey
  else
    let folded := toLowerCase raw in
    if memb folded seen then Throw DuplicateKey
    else Ok (default raw (CANONICAL folded), folded :: seen).

Definition childContext (ctx : context) (key : jstring) : context :=
  if bool_decide (ctx = Struct) && memb (toLowerCase key) MAP_FIELDS then Map else Struct.

(** [StrictJson]: [value], and the loops of [object] and [array].  The rest of
    the text stands for the private position. *)
Fixpoint value (fuel : nat) (ctx : context) (depth : nat) (s : jstring)
    : result body_error (jval * jstring) :=
  match fuel with
  | O => Throw Fuel
  | S fuel =>
      if MAX_DEPTH <? depth then Throw TooDeep
      else
        let s := skipSpace s in
        match s with
        | [] => Throw InvalidJson
        | c :: s' =>
            if (c =? 123)%N then
              match eat 125 s' with
              | Some rest => Ok (JObj [], rest)
              | None =>
                  '(es, rest) ← members fuel ctx (S depth) [] s';
                  Ok (JObj (fromEntries es), rest)
              end
            else if (c =? 91)%N then
              match eat 93 s' with
              | Some rest => Ok (JArr [], rest)
              | None => '(vs, rest) ← elements fuel (S depth) s'; Ok (JArr vs, rest)
              end
            else if (c =? 34)%N then
              '(t, rest) ← invalid (scanToken s); Ok (JStr t, rest)
            else invalid (scanScalar s)
        end
  end
with members (fuel : nat) (ctx : context) (depth : nat) (seen : list jstring) (s : jstring)
    : result body_error (entries * jstring) :=
  match fuel with
  | O => Throw Fuel
  | S fuel =>
      '(raw, s1) ← invalid (scanToken (skipSpace s));
      '(key, seen') ←
        match ctx with Struct => structKey raw seen | Map => Ok (raw, seen) end;
      s2 ← invalid (eat 58 s1);
      '(v, s3) ← value fuel (childContext ctx key) depth s2;
      match eat 44 s3 with
      | Some s4 =>
          '(es, rest) ← members fuel ctx depth seen' s4; Ok ((key, v) :: es, rest)
      | None => rest ← invalid (eat 125 s3); Ok ([(key, v)], rest)
      end
  end
with elements (fuel : nat) (depth : nat) (s : jstring)
    : result body_error (list jval * jstring) :=
  match fuel with
  | O => Throw Fuel
  | S fuel =>
      '(v, s1) ← value fuel Struct depth s;
      match eat 44 s1 with
      | Some s2 => '(vs, rest) ← elements fuel depth s2; Ok (v :: vs, rest)
      | None => rest ← invalid (eat 93 s1); Ok ([v], rest)
      end
  end.

(** [new StrictJson(text).parse()]. *)
Definition strictParse (text : jstring) : result body_error jval :=
  '(v, rest) ← value (S (2 * length text)) Struct 0 text;
  if bool_decide (skipSpace rest = []) then Ok v else Throw InvalidJson.

(** [parseRequestBody]: the parsed JSON, or why it is refused. *)
Definition parseRequestBody (body : bytes) : result body_error jval :=
  if bool_decide (body = []) then Throw Empty
  else match decode_fatal body with
       | None => Throw InvalidUtf8
       | Some text => strictParse text
       end.

(** ** The fuel is enough

    Every call leaves a shorter text behind, so a fuel of twice the length of
    the text is never used up. *)

Definition not_fuel (e : body_error) : Prop := e <> Fuel.

Lemma returns_invalid {A} (P : A -> Prop) (o : option A) :
  (forall a, o = Some a -> P a) -> returns P not_fuel (invalid o).
Proof. destruct o; simpl; [auto | done]. Qed.

Lemma structKey_safe raw seen : returns (fun _ => True) not_fuel (structKey raw seen).
Proof. unfold structKey. by repeat case_match. Qed.

Definition shorter {A} (s : jstring) (p : A * jstring) : Prop := length p.2 < length s.

Lemma strict_progress fuel :
  (forall ctx d s, 2 * length s < fuel ->
     returns (shorter s) not_fuel (value fuel ctx d s)) /\
  (forall ctx d seen s, 2 * length s + 1 < fuel ->
     returns (shorter s) not_fuel (members fuel ctx d seen s)) /\
  (forall d s, 2 * length s + 1 < fuel ->
     returns (shorter s) not_fuel (elements fuel d s)).
Proof.
  unfold shorter. induction fuel as [| fuel (IHv & IHm & IHe)]; [repeat split; intros; lia |].
  repeat split; intros; simpl.
  - case_match; [done |].
    destruct (skipSpace s) as [| c s'] eqn:Es; [done |]. lex_bounds. rewrite Es in *. simpl in *.
    destruct (c =? 123)%N; [| destruct (c =? 91)%N; [| destruct (c =? 34)%N]].
    + destruct (eat 125 s') eqn:Ee; lex_bounds; simpl; [lia |].
      apply returns_bind. eapply returns_mono; [apply IHm; lia |].
      intros [es r] ?; simpl in *; lia.
    + destruct (eat 93 s') eqn:Ee; lex_bounds; simpl; [lia |].
      apply returns_bind. eapply returns_mono; [apply IHe; lia |].
      intros [es r] ?; simpl in *; lia.
    + apply returns_bind, returns_invalid. intros [t r] Ht. lex_bounds. simpl in *. lia.
    + apply returns_invalid. intros [t r] Ht. lex_bounds. simpl in *. lia.
  - apply returns_bind, returns_invalid. intros [raw s1] H1.
    apply returns_bind. eapply (returns_mono (fun _ => True)).
    { destruct ctx; [apply structKey_safe | done]. }
    intros [key seen'] _. apply returns_bind, returns_invalid. intros s2 H2. lex_bounds.
    apply returns_bind. eapply returns_mono; [apply IHv; lia |]. intros [v s3] ?. simpl in *.
    destruct (eat 44 s3) eqn:E3; lex_bounds; apply returns_bind.
    + eapply returns_mono; [apply IHm; lia |]. intros [es r] ?; simpl in *; lia.
    + apply returns_invalid. intros r Hr. lex_bounds. simpl. lia.
  - apply returns_bind. eapply returns_mono; [apply IHv; lia |]. intros [v s1] ?. simpl in *.
    destruct (eat 44 s1) eqn:E1; lex_bounds; apply returns_bind.
    + eapply returns_mono; [apply IHe; lia |]. intros [es r] ?; simpl in *; lia.
    + apply returns_invalid. intros r Hr. lex_bounds. simpl. lia.
Qed.

(** ** What the strict reading keeps of the plain one

    [reads ctx p v]: [v] is [p] (what [JSON.parse] gives) with the struct field
    names rewritten.  In a struct, field names are printable, distinct after
    case folding and canonical where the policy knows them; in a map, keys are
    untouched. *)

Definition fieldName (raw : jstring) : jstring :=
  default raw (CANONICAL (toLowerCase raw)).

Definition folded (es : entries) : list jstring := map (fun e => toLowerCase e.1) es.

Inductive reads : context -> jval -> jval -> Prop :=
| reads_null ctx : reads ctx JNull JNull
| reads_bool ctx b : reads ctx (JBool b) (JBool b)
| reads_num ctx n : reads ctx (JNum n) (JNum n)
| reads_str ctx s : reads ctx (JStr s) (JStr s)
| reads_arr ctx ps vs : Forall2 (reads Struct) ps vs -> reads ctx (JArr ps) (JArr vs)
| reads_struct ps vs :
    Forall2 (fun p v => printable p.1 = true /\ v.1 = fieldName p.1 /\
                        reads (childContext Struct v.1) p.2 v.2) ps vs ->
    NoDup (folded ps) ->
    reads Struct (JObj ps) (JObj vs)
| reads_map ps vs :
    Forall2 (fun p v => p.1 = v.1 /\ reads Struct p.2 v.2) ps vs ->
    reads Map (JObj ps) (JObj vs).

(** Go's field selection: the entry whose name folds to the field's. *)
Definition goField (ps : entries) (field : jstring) : option jval :=
  snd ∘ snd <$> list_find (fun e => toLowerCase e.1 = toLowerCase field) ps.

(** *** Facts on [fromEntries] and the canonical names *)

Lemma setEntry_related (R : jval -> jval -> Prop) k v v' o o' :
  Forall2 (fun p q => p.1 = q.1 /\ R p.2 q.2) o o' -> R v v' ->
  Forall2 (fun p q => p.1 = q.1 /\ R p.2 q.2) (setEntry k v o) (setEntry k v' o').
Proof.
  intros H HR. induction H as [| [k1 v1] [k2 v2] o o' [Hk Hv] H IH]; simpl in *.
  - by repeat constructor.
  - subst. case_decide; constructor; auto.
Qed.

Lemma fromEntries_related (R : jval -> jval -> Prop) l l' :
  Forall2 (fun p q => p.1 = q.1 /\ R p.2 q.2) l l' ->
  Forall2 (fun p q => p.1 = q.1 /\ R p.2 q.2) (fromEntries l) (fromEntries l').
Proof.
  intros H. unfold fromEntries.
  enough (forall a a', Forall2 (fun p q => p.1 = q.1 /\ R p.2 q.2) a a' ->
    Forall2 (fun p q => p.1 = q.1 /\ R p.2 q.2)
      (foldl (fun o '(k, v) => setEntry k v o) a l)
      (foldl (fun o '(k, v) => setEntry k v o) a' l')) as HE by by apply HE.
  induction H as [| [k v] [k' v'] l l' [Hk Hv] H IH]; intros a a' Ha; simpl in *; [done |].
  subst. apply IH. by apply setEntry_related.
Qed.

Lemma CANONICAL_sound f F : CANONICAL f = Some F -> toLowerCase F = f.
Proof.
  unfold CANONICAL. intros ([i g] & Hf & ?)%bind_Some. simplify_eq.
  by apply list_find_Some in Hf as (_ & ? & _).
Qed.

Lemma CANONICAL_complete :
  Forall (fun F => CANONICAL (toLowerCase F) = Some F) CANONICAL_FIELDS.
Proof. apply (bool_decide_unpack _). vm_compute. exact I. Qed.

Lemma fieldName_lower raw : toLowerCase (fieldName raw) = toLowerCase raw.
Proof.
  unfold fieldName. destruct (CANONICAL _) eqn:E; simpl; [by apply CANONICAL_sound | done].
Qed.

Lemma fieldName_canonical raw F :
  F ∈ CANONICAL_FIELDS -> fieldName raw = F <-> toLowerCase raw = toLowerCase F.
Proof.
  intros HF. split; intros H.
  - by rewrite <- H, fieldName_lower.
  - unfold fieldName. rewrite H.
    pose proof CANONICAL_complete as HC. rewrite Forall_forall in HC. by rewrite HC.
Qed.

(** *** The strict parser refines [JSON.parse] *)

Definition struct_entry (p v : jstring * jval) : Prop :=
  printable p.1 = true /\ v.1 = fieldName p.1 /\ reads (childContext Struct v.1) p.2 v.2.
Definition map_entry (p v : jstring * jval) : Prop :=
  p.1 = v.1 /\ reads Struct p.2 v.2.

(** What [members] builds in each context, before [fromEntries]. *)
Definition members_spec (ctx : context) (seen : list jstring) (ps vs : entries) : Prop :=
  match ctx with
  | Struct => Forall2 struct_entry ps vs /\ NoDup (folded ps) /\
              Forall (fun f => f ∉ seen) (folded ps)
  | Map => Forall2 map_entry ps vs
  end.

Lemma struct_keys ps vs :
  Forall2 struct_entry ps vs -> map (fun e => toLowerCase e.1) vs = folded ps.
Proof.
  induction 1 as [| p v ps vs (_ & Hk & _) _ IH]; simpl; [done |].
  by rewrite IH, Hk, fieldName_lower.
Qed.

Lemma nodup_folded es : NoDup (folded es) -> NoDup (map fst es).
Proof.
  intros H. apply (NoDup_fmap_1 toLowerCase).
  change (NoDup (map toLowerCase (map fst es))). by rewrite map_map.
Qed.

Lemma members_object ctx ps vs :
  members_spec ctx [] ps vs -> reads ctx (JObj (fromEntries ps)) (JObj (fromEntries vs)).
Proof.
  destruct ctx; simpl.
  - intros (H & Hnd & _). rewrite !fromEntries_nodup.
    + by constructor.
    + apply nodup_folded. unfold folded. by rewrite (struct_keys _ _ H).
    + by apply nodup_folded.
  - intros H. apply reads_map. by apply fromEntries_related.
Qed.

Lemma members_spec_cons ctx raw key seen seen' p v ps vs :
  match ctx with Struct => structKey raw seen | Map => Ok (raw, seen) end = Ok (key, seen') ->
  reads (childContext ctx key) p v ->
  members_spec ctx seen' ps vs ->
  members_spec ctx seen ((raw, p) :: ps) ((key, v) :: vs).
Proof.
  destruct ctx; simpl.
  - unfold structKey. intros Hk Hr (HF & Hnd & Hseen).
    destruct (printable raw) eqn:Hp; [| done]. simpl in Hk.
    destruct (memb _ seen) eqn:Hm; [done |]. simplify_eq. apply memb_false in Hm.
    rewrite Forall_forall in Hseen. repeat split.
    + by constructor.
    + constructor; [| done]. intros Hin. apply (Hseen _ Hin). left.
    + constructor; [done |]. apply Forall_forall. intros f Hf Hin.
      apply (Hseen f Hf). by right.
  - intros Hk Hr HF. simplify_eq. constructor; [| done]. done.
Qed.

Lemma invalid_Ok {A} (o : option A) a : invalid o = Ok a -> o = Some a.
Proof. destruct o; [by intros [= ->] | done]. Qed.

Lemma scanScalar_reads s v r ctx : scanScalar s = Some (v, r) -> reads ctx v v.
Proof.
  unfold scanScalar. repeat (case_match; [intros; simplify_eq; constructor |]).
  intros ([n r'] & _ & ?)%bind_Some. simplify_eq. constructor.
Qed.

(** Turn the strict parser's successes into lexer equations. *)
Ltac strict_inv :=
  repeat match goal with
  | H : (_ ≫= _) = Ok _ |- _ =>
      let a := fresh "p" in let E := fresh "E" in
      apply bind_Ok in H as (a & E & H); try destruct a as [? ?]
  | H : invalid _ = Ok _ |- _ => apply invalid_Ok in H
  end.

Lemma strict_refines fuel :
  (forall ctx d s v r, value fuel ctx d s = Ok (v, r) ->
     exists p, parseValue fuel s = Ok (p, r) /\ reads ctx p v) /\
  (forall ctx d seen s vs r, members fuel ctx d seen s = Ok (vs, r) ->
     exists ps, parseMembers fuel s = Ok (ps, r) /\ members_spec ctx seen ps vs) /\
  (forall d s vs r, elements fuel d s = Ok (vs, r) ->
     exists ps, parseElements fuel s = Ok (ps, r) /\ Forall2 (reads Struct) ps vs).
Proof.
  induction fuel as [| fuel (IHv & IHm & IHe)]; [done |]. repeat split.
  - intros ctx d s v r H. simpl in *. destruct (MAX_DEPTH <? d); [done |].
    destruct (skipSpace s) as [| c s'] eqn:Es; [done |].
    destruct (c =? 123)%N; [| destruct (c =? 91)%N; [| destruct (c =? 34)%N]].
    + destruct (eat 125 s') eqn:Ee; simplify_eq.
      { exists (JObj []). split; [done |]. destruct ctx; constructor; [done | constructor | done]. }
      strict_inv. simplify_eq. apply IHm in E as (ps & -> & Hs). simpl.
      eexists; split; [done |]. by apply members_object.
    + destruct (eat 93 s') eqn:Ee; simplify_eq.
      { exists (JArr []). split; [done |]. by repeat constructor. }
      strict_inv. simplify_eq. apply IHe in E as (ps & -> & Hs). simpl.
      eexists; split; [done |]. by constructor.
    + strict_inv. simplify_eq. rewrite E. simpl. eexists; split; [done | constructor].
    + strict_inv. rewrite H. simpl. eexists; split; [done |]. by eapply scanScalar_reads.
  - intros ctx d seen s vs r H. simpl in *. strict_inv.
    rewrite E. simpl. rewrite E1. simpl. apply IHv in E2 as (pv & -> & Hp). simpl.
    destruct (eat 44 _) eqn:E4; strict_inv; simplify_eq.
    + apply IHm in E2 as (ps & -> & Hs). simpl. eexists; split; [done |].
      by eapply members_spec_cons.
    + rewrite E2. simpl. eexists; split; [done |]. eapply members_spec_cons; [done .. |].
      destruct ctx; simpl; repeat constructor.
  - intros d s vs r H. simpl in *. strict_inv.
    apply IHv in E as (pv & -> & Hp). simpl.
    destruct (eat 44 _) eqn:E4; strict_inv; simplify_eq.
    + apply IHe in E as (ps & -> & Hs). simpl. eexists; split; [done |]. by constructor.
    + rewrite E. simpl. eexists; split; [done |]. by repeat constructor.
Qed.

Lemma strictParse_refines text v :
  strictParse text = Ok v -> exists p, JSON_parse text = Ok p /\ reads Struct p v.
Proof.
  unfold strictParse, JSON_parse. intros H. strict_inv. case_bool_decide as Hr; simplify_eq.
  apply strict_refines in E as (p & -> & Hp). simpl.
  exists p. by rewrite bool_decide_eq_true_2.
Qed.

(** A body that starts with a byte-order mark is never accepted, so the
    plain decoder, which would drop the mark, sees the same text. *)
Lemma strictParse_bom t : strictParse (65279%N :: t) = Throw InvalidJson.
Proof. done. Qed.

Lemma accepted_text body v :
  parseRequestBody body = Ok v ->
  exists text, decode_text body = text /\ strictParse text = Ok v.
Proof.
  unfold parseRequestBody. case_bool_decide; [done |].
  destruct (decode_fatal body) as [text |] eqn:Hd; [| done]. intros Hv.
  exists text. split; [| done]. unfold decode_text, strip_bom. case_match eqn:Hb.
  - destruct (decode_fatal_bom _ _ Hb Hd) as [t' ->]. by rewrite strictParse_bom in Hv.
  - by apply decode_fatal_lenient.
Qed.

(** ** Properties *)

(** [parseRequestBody] always comes to an answer: its recursion is bounded
    by the text (and by [MAX_DEPTH]), so the parsed JSON or one of the six
    fixed reasons comes back for every sequence of bytes. *)
Theorem parse_body_total body :
  (exists v, parseRequestBody body = Ok v) \/
  (exists e, parseRequestBody body = Throw e /\
     e ∈ [Empty; InvalidUtf8; InvalidJson; TooDeep; NonAsciiKey; DuplicateKey]).
Proof.
  assert (forall e, e <> Fuel ->
    e ∈ [Empty; InvalidUtf8; InvalidJson; TooDeep; NonAsciiKey; DuplicateKey]) as He.
  { intros [] ?; set_solver. }
  unfold parseRequestBody. case_bool_decide; [right; eexists; by split; [| apply He] |].
  destruct (decode_fatal body) as [text |]; [| right; eexists; by split; [| apply He]].
  assert (returns (fun _ => True) not_fuel (strictParse text)) as Hs.
  { unfold strictParse. apply returns_bind.
    eapply returns_mono; [apply strict_progress; lia |].
    intros [v r] _. by case_bool_decide. }
  destruct (strictParse text) as [v | e]; [by left; eexists |].
  right. exists e. split; [done |]. by apply He.
Qed.

(** A body the strict parser accepts is one [JSON.parse] accepts too
    ([plainJson] never throws), and the strict value is the plain one with only
    the struct field names rewritten to their canonical spelling. *)
Theorem strict_body_refines_json body v :
  parseRequestBody body = Ok v ->
  exists p, JSON_parse (decode_text body) = Ok p /\ reads Struct p v.
Proof.
  intros (text & -> & H)%accepted_text. by apply strictParse_refines.
Qed.

Lemma strict_body_refines_json_witness :
  exists p, JSON_parse (decode_text (quoted "{'hostconfig':{'PRIVILEGED':true}}")) = Ok p /\
    reads Struct p (JObj [("HostConfig" : jstring,
                           JObj [("Privileged" : jstring, JBool true)])]).
Proof. apply strict_body_refines_json. vm_compute. reflexivity. Defined.

(** Looking a canonical name up in the strict object is Go's case-insensitive
    selection in the plain one. *)
Lemma goField_getEntry ps vs F :
  Forall2 struct_entry ps vs -> F ∈ CANONICAL_FIELDS ->
  option_Forall2 (reads (childContext Struct F)) (goField ps F) (getEntry vs F).
Proof.
  intros H HF. unfold goField.
  induction H as [| [raw p] [key v] ps vs (_ & Hk & Hr) _ IH]; simpl in *; [constructor |].
  subst key. pose proof (fieldName_canonical raw F HF) as Hc.
  destruct (decide (toLowerCase raw = toLowerCase F)) as [E | E].
  - rewrite decide_True by by apply Hc. simpl. constructor. apply Hc in E. by subst.
  - rewrite decide_False by naive_solver.
    destruct (list_find _ ps) as [[i e] |]; simpl in *; done.
Qed.

(** C7. Every struct field the policy reads is read as the engine reads it:
    for an accepted object body and each canonical field, the exact lookup in
    the strict value agrees with Go's case-insensitive selection among the
    fields as sent, and no two fields as sent fold to the same name (so the
    engine decodes each field once). *)
Theorem strict_lookup_is_go_lookup body vs :
  parseRequestBody body = Ok (JObj vs) ->
  exists ps, JSON_parse (decode_text body) = Ok (JObj ps) /\
    NoDup (folded ps) /\
    forall F, F ∈ CANONICAL_FIELDS ->
      option_Forall2 (reads (childContext Struct F)) (goField ps F) (getEntry vs F).
Proof.
  intros (text & -> & H)%accepted_text.
  apply strictParse_refines in H as (p & Hp & Hr). inversion Hr; subst.
  eexists; split; [done |]. split; [done |]. intros F HF. by apply goField_getEntry.
Qed.

Lemma strict_lookup_is_go_lookup_witness :
  exists ps, JSON_parse (decode_text (quoted "{'hostCONFIG':{'binds':null},'Image':'x'}"))
      = Ok (JObj ps) /\
    NoDup (folded ps) /\
    forall F, F ∈ CANONICAL_FIELDS ->
      option_Forall2 (reads (childContext Struct F)) (goField ps F)
        (getEntry [("HostConfig" : jstring, JObj [("Binds" : jstring, JNull)]);
                   ("Image" : jstring, JStr "x")] F).
Proof. apply strict_lookup_is_go_lookup. vm_compute. reflexivity. Defined.
