(* ===== verification/GateHttp.v ===== *)
(** * Strict HTTP/1.1 framing ([http.ts]): message heads

    Heads are split, parsed and checked exactly as the gate does; every
    ambiguity is an [HttpErr] with the status and text the client gets. *)

From S2P Require Import Prelude Regex Text Json.

#[local] Open Scope N_scope.

(** What an async function of the gate can reject with: an [HttpError], or any
    other error by its name and message. *)
Inductive gate_error :=
| HttpErr (status : N) (message : jstring)
| OtherErr (name message : jstring)
| NoFuel.

Abbreviation fallible := (result gate_error).

Definition MAX_HEAD_BYTES : N := 64 * 1024.
Definition MAX_LINE_BYTES : N := 4096.

Definition Header : Type := jstring * jstring.

Record RequestHead := {
  method : jstring;
  target : jstring;
  version : jstring;
  headers : list Header;
  raw : bytes
}.

Record ResponseHead := {
  rversion : jstring;
  status : N;
  rheaders : list Header;
  rraw : bytes
}.

Inductive Framing :=
| FNone
| FLength (length : N)
| FChunked
| FEof.

(** ** Regular expressions of the file *)

Definition token_char (c : N) : bool :=
  is_alnum c || memb c "!#$%&'*+.^_`|~-".
Definition TOKEN : regex := RPlus (RSet token_char).
Definition METHOD : regex := RPlus (RSet is_upper).
(** Visible ASCII but [#]. *)
Definition target_char (c : N) : bool := (c =? 33) || (c =? 34) || in_range 36 126 c.
Definition TARGET : regex := RCat (RChar 47) (RStar (RSet target_char)).
Definition VERSION : regex := RCat (RLit "HTTP/1.") (RSet (in_range 48 49)).
Definition STATUS_LINE : regex :=
  RCats [VERSION; RChar 32; RTimes 3 (RSet is_digit);
         ROpt (RCat (RChar 32) (RStar RDot))].

(** ** Head lines *)

(** [text.split("\r\n")]. *)
Fixpoint splitCRLF (s : jstring) : list jstring :=
  match s with
  | [] => [[]]
  | c :: s' =>
      let go rest :=
        match rest with [] => [[c]] | w :: ws => (c :: w) :: ws end in
      match s' with
      | d :: s'' =>
          if (c =? 13) && (d =? 10) then [] :: splitCRLF s'' else go (splitCRLF s')
      | [] => go (splitCRLF s')
      end
  end.

Definition splitHeadLines (raw : bytes) : fallible (list jstring) :=
  let text := take (length raw - 4) raw in
  if hasChar 0 text then Throw (HttpErr 400 "NUL in message head")
  else
    let lines := splitCRLF text in
    if existsb (fun line => hasChar 10 line || hasChar 13 line) lines
    then Throw (HttpErr 400 "bare CR or LF in message head")
    else Ok lines.

Definition isOws (c : N) : bool := (c =? 32) || (c =? 9).
Definition trimOws (s : jstring) : jstring := trimBy isOws s.

Definition parseHeaderLine (line : jstring) : fallible Header :=
  if startsWith " " line || startsWith [9] line
  then Throw (HttpErr 400 "obsolete header folding")
  else
    match indexOf 58 line with
    | None | Some O => Throw (HttpErr 400 "malformed header line")
    | Some colon =>
        let name := take colon line in
        if negb (matches TOKEN name) then Throw (HttpErr 400 "invalid header name")
        else Ok (name, trimOws (drop (S colon) line))
    end.

Fixpoint parseHeaders (lines : list jstring) : fallible (list Header) :=
  match lines with
  | [] => Ok []
  | line :: lines' =>
      h ← parseHeaderLine line; hs ← parseHeaders lines'; Ok (h :: hs)
  end.

Definition parseRequestHead (raw : bytes) : fallible RequestHead :=
  lines ← splitHeadLines raw;
  match lines with
  | [] => Throw (HttpErr 400 "malformed request line")
  | requestLine :: headerLines =>
      match split 32 requestLine with
      | [m; t; v] =>
          if negb (matches METHOD m) then Throw (HttpErr 400 "invalid method")
          else if negb (matches TARGET t) then Throw (HttpErr 400 "invalid request target")
          else if negb (matches VERSION v)
          then Throw (HttpErr 505 "only HTTP/1.0 and HTTP/1.1 are supported")
          else
            hs ← parseHeaders headerLines;
            Ok {| method := m; target := t; version := v; headers := hs; raw := raw |}
      | _ => Throw (HttpErr 400 "malformed request line")
      end
  end.

Definition digitsValue (ds : jstring) : N :=
  foldl (fun n d => 10 * n + (d - 48)) 0 ds.

Definition parseResponseHead (raw : bytes) : fallible ResponseHead :=
  lines ← splitHeadLines raw;
  match lines with
  | [] => Throw (HttpErr 502 "malformed status line")
  | statusLine :: headerLines =>
      if negb (matches STATUS_LINE statusLine)
      then Throw (HttpErr 502 "malformed status line")
      else
        hs ← parseHeaders headerLines;
        Ok {| rversion := take 8 statusLine;
              status := digitsValue (take 3 (drop 9 statusLine));
              rheaders := hs; rraw := raw |}
  end.

(** ** Header queries *)

(** Every value of a header, comma-split, lower-cased and trimmed. *)
Definition headerTokens (hs : list Header) (name : jstring) : list jstring :=
  let wanted := toLowerCase name in
  hs ≫= fun '(key, value) =>
    if decide (toLowerCase key = wanted)
    then filter (fun t => t <> []) (map (fun p => toLowerCase (trimOws p)) (split 44 value))
    else [].

Definition headerValue (hs : list Header) (name : jstring) : option jstring :=
  (fun p => p.2.2) <$>
    list_find (fun h : Header => toLowerCase h.1 = toLowerCase name) hs.

Definition countHeader (hs : list Header) (name : jstring) : nat :=
  length (filter (fun h : Header => toLowerCase h.1 = toLowerCase name) hs).

Definition parseContentLength (hs : list Header) : fallible (option N) :=
  match headerTokens hs "content-length" with
  | [] => Ok None
  | [v] =>
      if negb (countHeader hs "content-length" =? 1)%nat
      then Throw (HttpErr 400 "repeated Content-Length")
      else if negb (matches (RBetween 1 14 (RSet is_digit)) v)
      then Throw (HttpErr 400 "invalid Content-Length")
      else Ok (Some (digitsValue v))
  | _ => Throw (HttpErr 400 "repeated Content-Length")
  end.

(** [true] when [chunked] is the only transfer coding, [false] when absent. *)
Definition transferCoding (hs : list Header) : fallible bool :=
  match headerTokens hs "transfer-encoding" with
  | [] => Ok false
  | [c] => if decide (c = "chunked") then Ok true
           else Throw (HttpErr 400 "unsupported Transfer-Encoding")
  | _ => Throw (HttpErr 400 "unsupported Transfer-Encoding")
  end.

(** Reject the framing ambiguities, then say how the body is delimited. *)
Definition sharedFraming (hs : list Header) : fallible (option Framing) :=
  coding ← transferCoding hs;
  length ← parseContentLength hs;
  match coding, length with
  | true, Some _ => Throw (HttpErr 400 "both Content-Length and Transfer-Encoding")
  | true, None => Ok (Some FChunked)
  | false, Some n => Ok (Some (FLength n))
  | false, None => Ok None
  end.

Definition requestFraming (head : RequestHead) : fallible Framing :=
  if bool_decide (version head = "HTTP/1.0") &&
     negb (bool_decide (headerTokens (headers head) "transfer-encoding" = []))
  then Throw (HttpErr 400 "Transfer-Encoding on an HTTP/1.0 request")
  else default FNone <$> sharedFraming (headers head).

Definition FORM_CONTENT_TYPE : jstring := "application/x-www-form-urlencoded".

Definition carriesFormBody (head : RequestHead) (framing : Framing) : bool :=
  match framing with
  | FNone => false
  | FLength 0 => false
  | _ =>
      existsb (fun '(name, value) =>
        bool_decide (toLowerCase name = "content-type") &&
        startsWith FORM_CONTENT_TYPE (toLowerCase (trimOws value))) (headers head)
  end.

Definition responseFraming (meth : jstring) (head : ResponseHead) : fallible Framing :=
  if bool_decide (meth = "HEAD") || (status head =? 204) || (status head =? 304) ||
     (status head <? 200)
  then Ok FNone
  else default FEof <$> sharedFraming (rheaders head).

Definition wantsClose (hs : list Header) (ver : jstring) : bool :=
  let tokens := headerTokens hs "connection" in
  if memb ("close" : jstring) tokens then true
  else bool_decide (ver = "HTTP/1.0") && negb (memb ("keep-alive" : jstring) tokens).

(** ** Error responses *)

Definition STATUS_TEXT (code : N) : jstring :=
  if code =? 400 then "Bad Request"
  else if code =? 403 then "Forbidden"
  else if code =? 413 then "Content Too Large"
  else if code =? 417 then "Expectation Failed"
  else if code =? 431 then "Request Header Fields Too Large"
  else if code =? 502 then "Bad Gateway"
  else if code =? 505 then "HTTP Version Not Supported"
  else "Error".

Definition CRLF : jstring := [13; 10].

(** A canned error response for a refused or failed exchange. *)
Definition errorResponse (code : N) (message : jstring) : bytes :=
  let body := encode_text (("{" : jstring) ++ stringifyString "message" ++ (":" : jstring)
                ++ stringifyString message ++ ("}" : jstring)) in
  encode_text
    (("HTTP/1.1 " : jstring) ++ decimalText code ++ (" " : jstring) ++ STATUS_TEXT code ++ CRLF
     ++ ("Content-Type: application/json" : jstring) ++ CRLF
     ++ ("Content-Length: " : jstring) ++ decimalText (N.of_nat (length body)) ++ CRLF
     ++ ("Connection: close" : jstring) ++ CRLF ++ CRLF) ++ body.

(** ** Lemmas *)

Lemma splitCRLF_nonempty s : splitCRLF s <> [].
Proof. destruct s as [| c [| d s]]; simpl; [done .. |]. repeat case_match; done. Qed.

Lemma join_splitCRLF s : join CRLF (splitCRLF s) = s.
Proof.
  induction s as [s IH] using (induction_ltof1 _ (@length N)). unfold ltof in IH.
  destruct s as [| c [| d s]]; [done .. |].
  change (splitCRLF (c :: d :: s)) with
    (if (c =? 13) && (d =? 10) then [] :: splitCRLF s
     else match splitCRLF (d :: s) with [] => [[c]] | w :: ws => (c :: w) :: ws end).
  destruct ((c =? 13) && (d =? 10)) eqn:E.
  - bools. subst. pose proof (splitCRLF_nonempty s).
    assert (join CRLF (splitCRLF s) = s) as Hs by (apply IH; simpl; lia).
    destruct (splitCRLF s) eqn:Es; [done |]. by rewrite <- Hs.
  - pose proof (splitCRLF_nonempty (d :: s)).
    assert (join CRLF (splitCRLF (d :: s)) = d :: s) as Hs by (apply IH; simpl; lia).
    destruct (splitCRLF (d :: s)) as [| w ws]; [done |].
    destruct ws; simpl in *; by rewrite Hs.
Qed.

Lemma indexOf_spec c s i :
  indexOf c s = Some i -> s = take i s ++ c :: drop (S i) s /\ c ∉ take i s.
Proof.
  revert i. induction s as [| d s IH]; intros i H; simpl in *; [done |].
  destruct (N.eqb_spec d c) as [-> |].
  - simplify_eq/=. split; [by rewrite drop_0 | set_solver].
  - apply fmap_Some in H as (j & Hj & ->). destruct (IH j Hj) as [Hs Hn].
    simpl. split; [by f_equal | set_solver].
Qed.

Lemma parseHeaders_Forall2 lines hs :
  parseHeaders lines = Ok hs -> Forall2 (fun l h => parseHeaderLine l = Ok h) lines hs.
Proof.
  revert hs; induction lines as [| l lines IH]; intros hs H; simpl in *; ok_inv; subst;
    constructor; auto.
Qed.

(** A character that cannot end or split a head line. *)
Definition clean (s : jstring) : Prop := Forall (fun c => c <> 0 /\ c <> 10 /\ c <> 13) s.

(** [line] is the header [h] as sent: a token, a colon, and the value with
    optional white space around it. *)
Definition header_line (h : Header) (line : jstring) : Prop :=
  h.1 <> [] /\ Forall (fun c => token_char c = true) h.1 /\
  exists v, line = h.1 ++ 58 :: v /\ h.2 = trimOws v.

Lemma splitHeadLines_spec head_bytes lines :
  splitHeadLines head_bytes = Ok lines ->
  join CRLF lines = take (length head_bytes - 4) head_bytes /\ Forall clean lines.
Proof.
  unfold splitHeadLines. intros H. ok_inv. subst. rewrite join_splitCRLF. split; [done |].
  set (text := take _ head_bytes) in *.
  assert (forall w, w ∈ splitCRLF text -> forall c, c ∈ w -> c ∈ text) as Hsub.
  { intros w Hw c Hc. rewrite <- (join_splitCRLF text). revert Hw.
    generalize (splitCRLF text). induction l as [| x l IH]; [set_solver |].
    intros [-> | Hw]%elem_of_cons; destruct l; simpl in *; set_solver. }
  apply Forall_forall. intros w Hw. apply Forall_forall. intros c Hc.
  apply hasChar_false in E.
  assert ((hasChar 10 w || hasChar 13 w) = false) as [H10 H13]%orb_false_iff.
  { destruct (_ || _) eqn:Ew; [| done]. enough (existsb (fun line => hasChar 10 line
      || hasChar 13 line) (splitCRLF text) = true) by congruence.
    apply existsb_exists. exists w. by rewrite <- list_elem_of_In. }
  apply hasChar_false in H10. apply hasChar_false in H13.
  repeat split; intros ->; naive_solver.
Qed.

Lemma parseHeaderLine_spec line h : parseHeaderLine line = Ok h -> header_line h line.
Proof.
  unfold parseHeaderLine. intros H. ok_inv.
  destruct (indexOf 58 line) as [[| i] |] eqn:Ei; [done | | done]. ok_inv. subst.
  apply negb_false_iff, matches_iff, lang_plus_set_iff in E0 as [Hne Hf].
  apply indexOf_spec in Ei as [Hl _]. repeat split; [done .. |]. eauto.
Qed.

(** What the gate judges is what it relays: the bytes of an accepted
    request head are exactly the request line built from its method, target
    and version, followed by one line per header with that name and value; and
    no part of it holds a NUL, a CR or a LF, so no other parser can see a
    different line structure in the relayed bytes. *)
Theorem request_head_is_its_bytes head_bytes h :
  parseRequestHead head_bytes = Ok h ->
  raw h = head_bytes /\
  exists lines,
    take (length head_bytes - 4) head_bytes
      = join CRLF ((method h ++ 32 :: target h ++ 32 :: version h) :: lines) /\
    Forall2 header_line (headers h) lines /\
    Forall clean ((method h ++ 32 :: target h ++ 32 :: version h) :: lines) /\
    lang METHOD (method h) /\ lang TARGET (target h) /\ lang VERSION (version h).
Proof.
  unfold parseRequestHead. intros H. ok_inv.
  apply splitHeadLines_spec in E as [Hj Hc].
  destruct a as [| l lines]; [done |].
  pose proof (join_split 32 l) as Hl.
  destruct (split 32 l) as [| m [| t [| v [| ? ?]]]]; try done. ok_inv. subst. simpl in *.
  split; [done |]. exists lines. rewrite <- Hj. repeat split; try done.
  - apply parseHeaders_Forall2 in E2. apply Forall2_flip.
    eapply Forall2_impl; [done |]. intros ? ?. apply parseHeaderLine_spec.
  - by apply matches_iff, negb_false_iff.
  - by apply matches_iff, negb_false_iff.
  - by apply matches_iff, negb_false_iff.
Qed.

Definition sample_head : bytes :=
  join CRLF ["GET /v1.47/info HTTP/1.1"; "Host: docker"; "Content-Length:  0 "; ""; ""].

Lemma request_head_is_its_bytes_witness :
  exists h, parseRequestHead sample_head = Ok h /\ raw h = sample_head /\
  exists lines,
    take (length sample_head - 4) sample_head
      = join CRLF ((method h ++ 32 :: target h ++ 32 :: version h) :: lines) /\
    Forall2 header_line (headers h) lines.
Proof.
  eexists. split; [vm_compute; reflexivity |].
  destruct (request_head_is_its_bytes sample_head _ eq_refl) as (Hr & lines & Hj & Hh & _).
  split; [exact Hr |]. exists lines. split; [exact Hj | exact Hh].
Defined.

Lemma transferCoding_spec hs b :
  transferCoding hs = Ok b ->
  headerTokens hs "transfer-encoding" = if b then ["chunked"] else [].
Proof.
  unfold transferCoding. destruct (headerTokens hs _) as [| te [| ? ?]]; intros H;
    try case_decide; simplify_eq; done.
Qed.

Lemma parseContentLength_spec hs o :
  parseContentLength hs = Ok o ->
  match o with
  | None => headerTokens hs "content-length" = []
  | Some n =>
      countHeader hs "content-length" = 1%nat /\
      exists v, headerTokens hs "content-length" = [v] /\
        lang (RBetween 1 14 (RSet is_digit)) v /\ n = digitsValue v
  end.
Proof.
  unfold parseContentLength. destruct (headerTokens hs _) as [| v [| ? ?]]; intros H;
    [by simplify_eq | | done].
  ok_inv. subst. split; [by apply Nat.eqb_eq, negb_false_iff |].
  exists v. repeat split. by apply matches_iff, negb_false_iff.
Qed.

(** No request is framed two ways: a length comes from exactly one
    [Content-Length] header of one to fifteen digits with no transfer coding,
    [chunked] is the single transfer coding of an HTTP/1.1 request without a
    length, and a request without a body names neither; a request never runs
    to the end of the connection. *)
Theorem request_framing_unambiguous h f :
  requestFraming h = Ok f ->
  match f with
  | FLength n =>
      headerTokens (headers h) "transfer-encoding" = [] /\
      countHeader (headers h) "content-length" = 1%nat /\
      exists v, headerTokens (headers h) "content-length" = [v] /\
        lang (RBetween 1 14 (RSet is_digit)) v /\ n = digitsValue v
  | FChunked =>
      version h <> "HTTP/1.0" /\
      headerTokens (headers h) "transfer-encoding" = ["chunked"] /\
      headerTokens (headers h) "content-length" = []
  | FNone =>
      headerTokens (headers h) "transfer-encoding" = [] /\
      headerTokens (headers h) "content-length" = []
  | FEof => False
  end.
Proof.
  unfold requestFraming, sharedFraming. intros H. ok_inv.
  destruct (transferCoding (headers h)) as [c |] eqn:Hc; [| done].
  destruct (parseContentLength (headers h)) as [o |] eqn:Ho; [| done].
  apply transferCoding_spec in Hc. apply parseContentLength_spec in Ho.
  destruct c, o as [n |]; simpl in H; simplify_eq; rewrite Hc in *; [| naive_solver ..].
  simpl in E. rewrite andb_true_r in E. bools. naive_solver.
Qed.

Lemma request_framing_unambiguous_witness :
  exists h, parseRequestHead sample_head = Ok h /\
    headerTokens (headers h) "transfer-encoding" = [] /\
    countHeader (headers h) "content-length" = 1%nat /\
    exists v, headerTokens (headers h) "content-length" = [v] /\
      lang (RBetween 1 14 (RSet is_digit)) v /\ 0 = digitsValue v.
Proof.
  eexists. split; [vm_compute; reflexivity |].
  apply (request_framing_unambiguous _ (FLength 0)). vm_compute. reflexivity.
Defined.
