(* ===== verification/GateStream.v ===== *)
(** * Byte streams and bodies ([http.ts]): [BufferedReader] and the relays

    A source is the list of results its [read] calls will give; a sink is what
    it has accepted and how its next [write] calls will behave.  Loops that
    follow the source recurse on it; the chunked relay, which may take many
    turns per read, runs on fuel bounded by the bytes still to come
    ([relayChunked_spec]: the fuel never runs out). *)

From S2P Require Import Prelude Regex Json GateHttp.

#[local] Open Scope N_scope.

(** ** Sources and sinks *)

(** One [read]: a chunk ([Chunk []] is a read of 0 or [null]), or a rejection. *)
Inductive read_event := Chunk (data : bytes) | ReadFail (name message : jstring).

(** [BufferedReader]: [source = []] stands for [eof]. *)
Record reader := Reader { buffer : bytes; source : list read_event }.

(** One [write]: how many bytes are taken at most, or a rejection. *)
Inductive write_event := Accept (n : nat) | WriteFail (name message : jstring).

Record sink := Sink { out : bytes; plan : list write_event }.

(** Every byte a source will deliver before it ends or fails. *)
Fixpoint delivered (src : list read_event) : bytes :=
  match src with
  | Chunk (b :: c) :: src' => b :: c ++ delivered src'
  | _ => []
  end.
Definition stream (r : reader) : bytes := buffer r ++ delivered (source r).

(** [writeAll]: the loop on a sink that takes part of what it is given. *)
Fixpoint writeLoop (plan : list write_event) (out data : bytes) : fallible unit * sink :=
  match data with
  | [] => (Ok tt, Sink out plan)
  | _ =>
      match plan with
      | [] => (Ok tt, Sink (out ++ data) [])
      | Accept n :: plan' => writeLoop plan' (out ++ take n data) (drop n data)
      | WriteFail name message :: plan' => (Throw (OtherErr name message), Sink out plan')
      end
  end.
Definition writeAll (k : sink) (data : bytes) : fallible unit * sink :=
  writeLoop (plan k) (out k) data.

(** ** [BufferedReader] *)

Definition fill (r : reader) : fallible (bool * reader) :=
  match source r with
  | [] => Ok (false, r)
  | ReadFail name message :: _ => Throw (OtherErr name message)
  | Chunk [] :: _ => Ok (false, Reader (buffer r) [])
  | Chunk c :: src => Ok (true, Reader (buffer r ++ c) src)
  end.

Fixpoint indexOfSequence (needle haystack : bytes) (from : nat) : option nat :=
  match from, haystack with
  | O, _ =>
      if startsWith needle haystack then Some O
      else match haystack with
           | [] => None
           | _ :: h => S <$> indexOfSequence needle h O
           end
  | S f, _ :: h => S <$> indexOfSequence needle h f
  | S _, [] => None
  end.

(** [readThrough]: [None] on a clean end before any byte. *)
Fixpoint readThroughLoop (delim : bytes) (max : N) (tooLong : jstring)
    (searchFrom : nat) (buf : bytes) (src : list read_event)
    : fallible (option bytes * reader) :=
  match indexOfSequence delim buf searchFrom with
  | Some at_ =>
      let n := (at_ + length delim)%nat in
      Ok (Some (take n buf), Reader (drop n buf) src)
  | None =>
      if max <? N.of_nat (length buf) then Throw (HttpErr 431 tooLong)
      else
        let searchFrom' := (length buf + 1 - length delim)%nat in
        let ended :=
          if bool_decide (buf = []) then Ok (None, Reader [] [])
          else Throw (HttpErr 400 "connection closed inside a message head") in
        match src with
        | [] => ended
        | ReadFail name message :: _ => Throw (OtherErr name message)
        | Chunk [] :: _ => ended
        | Chunk c :: src' =>
            readThroughLoop delim max tooLong searchFrom' (buf ++ c) src'
        end
  end.
Definition readThrough (r : reader) (delim : bytes) (max : N) (tooLong : jstring)
    : fallible (option bytes * reader) :=
  readThroughLoop delim max tooLong 0 (buffer r) (source r).

Definition CRLF_CRLF : bytes := [13; 10; 13; 10].

Definition readHead (r : reader) : fallible (option bytes * reader) :=
  readThrough r CRLF_CRLF MAX_HEAD_BYTES "message head too large".

Definition readLine (r : reader) : fallible (bytes * reader) :=
  '(line, r') ← readThrough r CRLF MAX_LINE_BYTES "line too long";
  match line with
  | None => Throw (HttpErr 400 "connection closed in a body")
  | Some l => Ok (l, r')
  end.

Definition closedInBody : gate_error := HttpErr 400 "connection closed inside a body".

(** [readExact]. *)
Fixpoint readExactLoop (count : N) (buf : bytes) (src : list read_event)
    : fallible (bytes * reader) :=
  if count <=? N.of_nat (length buf) then
    let n := N.to_nat count in Ok (take n buf, Reader (drop n buf) src)
  else
    match src with
    | [] => Throw closedInBody
    | ReadFail name message :: _ => Throw (OtherErr name message)
    | Chunk [] :: _ => Throw closedInBody
    | Chunk c :: src' => readExactLoop count (buf ++ c) src'
    end.
Definition readExact (r : reader) (count : N) : fallible (bytes * reader) :=
  readExactLoop count (buffer r) (source r).

(** [copyExact]: one turn per buffered piece, nothing held beyond it. *)
Fixpoint copyExactLoop (remaining : N) (buf : bytes) (src : list read_event) (k : sink)
    : fallible reader * sink :=
  if remaining =? 0 then (Ok (Reader buf src), k)
  else
    let n := N.to_nat (N.min remaining (N.of_nat (length buf))) in
    match writeAll k (take n buf) with
    | (Throw e, k') => (Throw e, k')
    | (Ok _, k') =>
        let remaining' := remaining - N.of_nat n in
        if remaining' =? 0 then (Ok (Reader (drop n buf) src), k')
        else
          match src with
          | [] => (Throw closedInBody, k')
          | ReadFail name message :: _ => (Throw (OtherErr name message), k')
          | Chunk [] :: _ => (Throw closedInBody, k')
          | Chunk c :: src' => copyExactLoop remaining' c src' k'
          end
    end.
Definition copyExact (r : reader) (count : N) (k : sink) : fallible reader * sink :=
  copyExactLoop count (buffer r) (source r) k.

(** [copyToEnd]. *)
Fixpoint copyToEndLoop (buf : bytes) (src : list read_event) (k : sink)
    : fallible reader * sink :=
  match writeAll k buf with
  | (Throw e, k') => (Throw e, k')
  | (Ok _, k') =>
      match src with
      | [] => (Ok (Reader [] []), k')
      | ReadFail name message :: _ => (Throw (OtherErr name message), k')
      | Chunk [] :: _ => (Ok (Reader [] []), k')
      | Chunk c :: src' => copyToEndLoop c src' k'
      end
  end.
Definition copyToEnd (r : reader) (k : sink) : fallible reader * sink :=
  copyToEndLoop (buffer r) (source r) k.

(** ** Chunked bodies *)

(** A nonnegative integer as a JavaScript number holds it: exact to [2^53],
    rounded half to even above. *)
Definition toNumber (n : N) : N :=
  if n <? 2 ^ 53 then n
  else
    let e := N.log2 n - 52 in
    let q := n / 2 ^ e in
    let r := n mod 2 ^ e in
    let half := 2 ^ (e - 1) in
    if (r <? half) || ((r =? half) && N.even q) then q * 2 ^ e else (q + 1) * 2 ^ e.

Definition hexNumber (ds : jstring) : N :=
  foldl (fun n d => 16 * n + hexUnit d) 0 ds.

Definition parseChunkSize (line : bytes) : fallible N :=
  let text := take (length line - 2) line in
  let size := trimOws (hd [] (split 59 text)) in
  if negb (matches (RBetween 1 14 (RSet is_hex)) size)
  then Throw (HttpErr 400 "invalid chunk size")
  else Ok (toNumber (hexNumber size)).

(** [ChunkCapture]: the payload held so far (in arrival order), its total and
    the cap. *)
Record capture := Capture { chunks : list bytes; held : N; maxBytes : N }.

(** State threaded through a chunked relay. *)
Record relay := Relay { rd : reader; wr : sink; cap : option capture }.

Definition tooLarge : gate_error := HttpErr 413 "request body too large".

Definition relayCapturedChunk (st : relay) (size : N) (c : capture)
    : fallible unit * relay :=
  if maxBytes c <? held c + size then (Throw tooLarge, st)
  else
    match readExact (rd st) (toNumber (size + 2)) with
    | Throw e => (Throw e, st)
    | Ok (data, r') =>
        let c' := Capture (chunks c ++ [take (N.to_nat size) data]) (held c + size) (maxBytes c) in
        let '(res, k') := writeAll (wr st) data in
        (res, Relay r' k' (Some c'))
    end.

(** [relayTrailers], through the blank line. *)
Fixpoint relayTrailers (fuel : nat) (st : relay) : fallible unit * relay :=
  match fuel with
  | O => (Throw NoFuel, st)
  | S fuel =>
      match readLine (rd st) with
      | Throw e => (Throw e, st)
      | Ok (line, r') =>
          match writeAll (wr st) line with
          | (Throw e, k') => (Throw e, Relay r' k' (cap st))
          | (Ok _, k') =>
              let st' := Relay r' k' (cap st) in
              if (length line =? 2)%nat then (Ok tt, st') else relayTrailers fuel st'
          end
      end
  end.

Fixpoint relayChunks (fuel : nat) (st : relay) : fallible unit * relay :=
  match fuel with
  | O => (Throw NoFuel, st)
  | S fuel =>
      match readLine (rd st) with
      | Throw e => (Throw e, st)
      | Ok (sizeLine, r') =>
          match writeAll (wr st) sizeLine with
          | (Throw e, k') => (Throw e, Relay r' k' (cap st))
          | (Ok _, k') =>
              let st' := Relay r' k' (cap st) in
              match parseChunkSize sizeLine with
              | Throw e => (Throw e, st')
              | Ok size =>
                  if size =? 0 then (Ok tt, st')
                  else
                    let '(res, st'') :=
                      match cap st' with
                      | Some c => relayCapturedChunk st' size c
                      | None =>
                          let '(res, k'') := copyExact r' (toNumber (size + 2)) k' in
                          match res with
                          | Ok r'' => (Ok tt, Relay r'' k'' None)
                          | Throw e => (Throw e, Relay r' k'' None)
                          end
                      end in
                    match res with
                    | Throw e => (Throw e, st'')
                    | Ok _ => relayChunks fuel st''
                    end
              end
          end
      end
  end.

Definition relayFuel (st : relay) : nat := S (length (stream (rd st))).

Definition relayChunked (st : relay) : fallible unit * relay :=
  match relayChunks (relayFuel st) st with
  | (Throw e, st') => (Throw e, st')
  | (Ok _, st') => relayTrailers (relayFuel st') st'
  end.

(** [relayBody]: relay a body per its framing. *)
Definition relayBody (r : reader) (framing : Framing) (k : sink) : fallible reader * sink :=
  match framing with
  | FNone => (Ok r, k)
  | FLength n => copyExact r n k
  | FChunked =>
      let '(res, st) := relayChunked (Relay r k None) in
      (match res with Ok _ => Ok (rd st) | Throw e => Throw e end, wr st)
  | FEof => copyToEnd r k
  end.

(** ** Sinks receive what was written, in order *)

Lemma writeLoop_spec plan out0 data :
  match writeLoop plan out0 data with
  | (Ok _, k) => out k = out0 ++ data
  | (Throw e, k) => e <> NoFuel /\ exists pre, pre `prefix_of` data /\ out k = out0 ++ pre
  end.
Proof.
  revert out0 data. induction plan as [| [n | name message] plan IH]; intros out0 data.
  - destruct data; simpl; [by rewrite app_nil_r | done].
  - destruct data as [| b data]; [by rewrite app_nil_r |].
    change (writeLoop (Accept n :: plan) out0 (b :: data)) with
      (writeLoop plan (out0 ++ take n (b :: data)) (drop n (b :: data))).
    specialize (IH (out0 ++ take n (b :: data)) (drop n (b :: data))).
    destruct (writeLoop plan _ _) as [[] k].
    + by rewrite IH, <- app_assoc, take_drop.
    + destruct IH as (He & pre & Hp & ->). split; [done |].
      exists (take n (b :: data) ++ pre). rewrite <- app_assoc. split; [| done].
      rewrite <- (take_drop n (b :: data)) at 2. by apply prefix_app.
  - destruct data; simpl; [by rewrite app_nil_r |].
    split; [done |]. exists []. split; [apply prefix_nil | by rewrite app_nil_r].
Qed.

Lemma writeAll_spec k data :
  match writeAll k data with
  | (Ok _, k') => out k' = out k ++ data
  | (Throw e, k') => e <> NoFuel /\ exists pre, pre `prefix_of` data /\ out k' = out k ++ pre
  end.
Proof. apply writeLoop_spec. Qed.

(** ** Searching *)

Lemma indexOfSequence_0 n h :
  indexOfSequence n h 0 =
  if startsWith n h then Some O
  else match h with [] => None | _ :: h' => S <$> indexOfSequence n h' 0 end.
Proof. by destruct h. Qed.

Lemma indexOfSequence_None n h f :
  indexOfSequence n h f = None <->
  forall j, (f <= j <= length h)%nat -> startsWith n (drop j h) = false.
Proof.
  revert f. induction h as [| b h IH]; intros f.
  - destruct f; simpl.
    + destruct (startsWith n []) eqn:E; split; try done.
      * intros H. pose proof (H 0%nat ltac:(simpl; lia)). simpl in *. congruence.
      * intros _ j ?. by destruct j.
    + split; [| done]. intros _ j ?. lia.
  - destruct f as [| f].
    + rewrite indexOfSequence_0. destruct (startsWith n (b :: h)) eqn:E; split; try done.
      * intros H. pose proof (H 0%nat ltac:(simpl; lia)). simpl in *. congruence.
      * intros H [| j] ?; [done |]. apply fmap_None in H. rewrite IH in H. apply H. simpl in *. lia.
      * intros H. apply fmap_None, IH. intros j ?. apply (H (S j)). simpl; lia.
    + simpl. rewrite fmap_None, IH. split.
      * intros H [| j] ?; [lia |]. apply H. lia.
      * intros H j ?. apply (H (S j)). lia.
Qed.

Lemma indexOfSequence_Some n h f i :
  indexOfSequence n h f = Some i <->
  (f <= i <= length h)%nat /\ startsWith n (drop i h) = true /\
  forall j, (f <= j < i)%nat -> startsWith n (drop j h) = false.
Proof.
  revert f i. induction h as [| b h IH]; intros f i.
  - destruct f; simpl.
    + destruct (startsWith n []) eqn:E; split.
      * intros ?. simplify_eq. repeat split; [lia .. | done |]. intros; lia.
      * intros (? & ? & ?). f_equal. lia.
      * done.
      * intros (? & ? & ?). destruct i; simpl in *; congruence.
    + split; [done |]. intros (? & ? & ?). lia.
  - destruct f as [| f].
    + rewrite indexOfSequence_0. destruct (startsWith n (b :: h)) eqn:E; split.
      * intros ?. simplify_eq. repeat split; simpl; [lia .. | done |]. intros; lia.
      * intros (? & ? & H). destruct i; [done |].
        pose proof (H 0%nat ltac:(lia)). simpl in *. congruence.
      * intros (k & Hk & ->)%fmap_Some. apply IH in Hk as (? & ? & H).
        repeat split; simpl; [lia .. | done |]. intros [| j] ?; [done |]. apply H. lia.
      * intros (? & ? & H). destruct i as [| i]; [simpl in *; congruence |].
        apply fmap_Some. exists i. split; [| done]. apply IH. simpl in *.
        repeat split; [lia .. | done |]. intros j ?. apply (H (S j)). lia.
    + simpl. rewrite fmap_Some. split.
      * intros (k & Hk & ->). apply IH in Hk as (? & ? & H).
        repeat split; [lia .. | done |]. intros [| j] ?; [lia |]. apply H. lia.
      * intros (? & ? & H). destruct i as [| i]; [lia |]. exists i. split; [| done].
        apply IH. repeat split; [lia .. | done |]. intros j ?. apply (H (S j)). lia.
Qed.

Lemma startsWith_app_iff n h t j :
  (j + length n <= length h)%nat ->
  startsWith n (drop j (h ++ t)) = startsWith n (drop j h).
Proof.
  intros Hl. apply eq_true_iff_eq. rewrite !startsWith_spec. split; intros [u Hu].
  - rewrite drop_app_le in Hu by lia.
    exists (drop (length n) (drop j h)).
    rewrite <- (take_drop (length n) (drop j h)) at 1. f_equal.
    apply (f_equal (take (length n))) in Hu.
    rewrite take_app_length, take_app_le in Hu; [done |]. rewrite length_drop. lia.
  - rewrite drop_app_le by lia. exists (u ++ t). by rewrite Hu, <- app_assoc.
Qed.

Lemma startsWith_length n h : startsWith n h = true -> (length n <= length h)%nat.
Proof. intros [t ->]%startsWith_spec. rewrite length_app. lia. Qed.

(** ** Reading is independent of how the bytes arrive *)

(** The first occurrence in the buffer is the first one in the stream. *)
Lemma indexOf_stream delim buf rest i :
  (forall j, (j < i)%nat -> startsWith delim (drop j buf) = false) ->
  startsWith delim (drop i buf) = true -> (i <= length buf)%nat ->
  indexOfSequence delim (buf ++ rest) 0 = Some i /\ (i + length delim <= length buf)%nat.
Proof.
  intros Hbefore Hat Hi.
  assert (i + length delim <= length buf)%nat as Hl.
  { apply startsWith_length in Hat. rewrite length_drop in Hat. lia. }
  split; [| done]. apply indexOfSequence_Some. rewrite length_app. repeat split; [lia .. | |].
  - by rewrite startsWith_app_iff.
  - intros j Hj. rewrite startsWith_app_iff by lia. apply Hbefore. lia.
Qed.

(** An occurrence the buffer does not hold ends beyond it. *)
Lemma indexOf_beyond delim buf rest i :
  (forall j, (j <= length buf)%nat -> startsWith delim (drop j buf) = false) ->
  indexOfSequence delim (buf ++ rest) 0 = Some i -> (length buf < i + length delim)%nat.
Proof.
  intros Hno (_ & Hs & _)%indexOfSequence_Some.
  destruct (decide (i + length delim <= length buf)%nat) as [Hl |]; [| lia].
  rewrite startsWith_app_iff in Hs by done. rewrite Hno in Hs; [done | lia].
Qed.

Definition read_post (delim : bytes) (max : N) (s : bytes)
    (res : fallible (option bytes * reader)) : Prop :=
  match res with
  | Ok (Some x, r') => exists i, indexOfSequence delim s 0 = Some i /\
      x = take (i + length delim) s /\ stream r' = drop (i + length delim) s
  | Ok (None, r') => s = [] /\ stream r' = []
  | Throw e => e <> NoFuel /\
      forall i, indexOfSequence delim s 0 = Some i -> max + 1 < N.of_nat (i + length delim)
  end.

Lemma readThroughLoop_spec delim max msg from buf src :
  (forall j, (j < from)%nat -> startsWith delim (drop j buf) = false) ->
  read_post delim max (buf ++ delivered src) (readThroughLoop delim max msg from buf src).
Proof.
  assert (forall buf' e, e <> NoFuel ->
    (forall j, (j <= length buf')%nat -> startsWith delim (drop j buf') = false) ->
    forall m, read_post delim m (buf' ++ []) (Throw e)) as Hnone.
  { intros buf' e He Hno m. split; [done |]. intros i Hi.
    pose proof (indexOf_beyond _ _ _ _ Hno Hi) as Hb. rewrite app_nil_r in Hi.
    apply indexOfSequence_Some in Hi as (? & Hs & _). rewrite Hno in Hs; [done | lia]. }
  revert from buf. induction src as [| ev src IH]; intros from buf Hfrom; simpl.
  all: destruct (indexOfSequence delim buf from) as [i |] eqn:Ei.
  1,3: apply indexOfSequence_Some in Ei as (? & Hat & Hbefore);
    match goal with |- read_post _ _ (?b ++ ?rest) _ =>
      destruct (indexOf_stream delim b rest i) as [Hidx Hlen] end;
    [intros j Hj; destruct (decide (j < from)%nat); [by apply Hfrom | apply Hbefore; lia]
    | done | lia |];
    exists i; split; [done |]; unfold stream; simpl;
    by rewrite take_app_le, drop_app_le by lia.
  all: rewrite indexOfSequence_None in Ei.
  all: assert (forall j, (j <= length buf)%nat -> startsWith delim (drop j buf) = false) as Hno
    by (intros j Hj; destruct (decide (j < from)%nat); [by apply Hfrom | apply Ei; lia]).
  all: destruct (max <? _)%N eqn:Hmax;
    [bools; split; [done |]; intros i Hi;
     pose proof (indexOf_beyond _ _ _ _ Hno Hi); lia |].
  - case_bool_decide; [by subst | by apply Hnone].
  - destruct ev as [[| b c] | name message].
    + case_bool_decide; [by subst | by apply Hnone].
    + replace (buf ++ b :: c ++ delivered src) with ((buf ++ b :: c) ++ delivered src)
        by by rewrite <- app_assoc.
      apply IH. intros j Hj. rewrite startsWith_app_iff by lia. apply Hno. lia.
    + by apply Hnone.
Qed.

Lemma readThrough_spec r delim max msg :
  read_post delim max (stream r) (readThrough r delim max msg).
Proof. apply readThroughLoop_spec. lia. Qed.

Lemma readExactLoop_spec count buf src :
  match readExactLoop count buf src with
  | Ok (x, r') =>
      x = take (N.to_nat count) (buf ++ delivered src) /\
      stream r' = drop (N.to_nat count) (buf ++ delivered src) /\
      count <= N.of_nat (length (buf ++ delivered src))
  | Throw e => e <> NoFuel /\ N.of_nat (length (buf ++ delivered src)) < count
  end.
Proof.
  revert buf. induction src as [| ev src IH]; intros buf; simpl;
    destruct (count <=? _) eqn:Hc; bools.
  1,3: unfold stream; simpl; rewrite take_app_le, drop_app_le by lia;
       rewrite length_app; repeat split; lia.
  - rewrite app_nil_r. by split.
  - destruct ev as [[| b c] | name message]; simpl.
    + rewrite app_nil_r. by split.
    + specialize (IH (buf ++ b :: c)). by rewrite <- app_assoc in IH.
    + rewrite app_nil_r. by split.
Qed.

Lemma readExact_spec r count :
  match readExact r count with
  | Ok (x, r') =>
      x = take (N.to_nat count) (stream r) /\ stream r' = drop (N.to_nat count) (stream r) /\
      count <= N.of_nat (length (stream r))
  | Throw e => e <> NoFuel /\ N.of_nat (length (stream r)) < count
  end.
Proof. apply readExactLoop_spec. Qed.

(** A relay that succeeded moved exactly [x] from the source to the sink. *)
Definition moved (x : bytes) (s s' o o' : bytes) : Prop := s = x ++ s' /\ o' = o ++ x.

(** What a relay step comes to: on success the bytes that left the source are
    the bytes that reached the sink; on failure the sink got a prefix of what
    the source held. *)
Definition relay_post (P : bytes -> Prop) (s o : bytes) (res : fallible reader * sink) : Prop :=
  match res with
  | (Ok r', k') => exists x, P x /\ moved x s (stream r') o (out k')
  | (Throw e, k') => e <> NoFuel /\ exists x, x `prefix_of` s /\ out k' = o ++ x
  end.

Lemma relay_post_after (P Q : bytes -> Prop) x s o o' res :
  o' = o ++ x -> (forall y, P y -> Q (x ++ y)) ->
  relay_post P s o' res -> relay_post Q (x ++ s) o res.
Proof.
  intros -> HPQ. destruct res as [[r' | e] k']; simpl.
  - intros (y & Hy & -> & ->). exists (x ++ y). split; [by apply HPQ |].
    unfold moved. by rewrite !app_assoc.
  - intros (He & y & Hp & ->). split; [done |]. exists (x ++ y).
    split; [by apply prefix_app | by rewrite app_assoc].
Qed.

Lemma prefix_take_app (pre buf rest : bytes) n :
  pre `prefix_of` take n buf -> pre `prefix_of` buf ++ rest.
Proof.
  intros [t Ht]. exists (t ++ drop n buf ++ rest).
  by rewrite app_assoc, <- Ht, app_assoc, take_drop.
Qed.

Lemma copyExactLoop_spec remaining buf src k :
  relay_post (fun x => N.of_nat (length x) = remaining) (buf ++ delivered src) (out k)
    (copyExactLoop remaining buf src k).
Proof.
  revert remaining buf k. induction src as [| ev src IH]; intros remaining buf k; simpl.
  all: destruct (remaining =? 0) eqn:H0; bools;
    [subst; exists []; split; [done |]; split; [done | by rewrite app_nil_r] |].
  all: set (n := N.to_nat (N.min remaining (N.of_nat (length buf))));
    pose proof (writeAll_spec k (take n buf)) as Hw;
    destruct (writeAll k (take n buf)) as [[u | e] k'];
    [| destruct Hw as (? & pre & Hp & Ho); split; [done |]; exists pre; split; [| done];
       by eapply prefix_take_app].
  all: assert (length (take n buf) = n) as Hn by (rewrite length_take; lia).
  all: destruct (remaining - N.of_nat n =? 0) eqn:Hr; bools;
    [exists (take n buf); unfold moved, stream; simpl; rewrite Hn;
     split; [lia |]; split; [by rewrite app_assoc, take_drop | done] |].
  all: assert (take n buf = buf) as Hbuf by (apply take_ge; lia); rewrite Hbuf in *.
  all: assert (forall e, e <> NoFuel -> relay_post (fun x => N.of_nat (length x) = remaining)
      (buf ++ []) (out k) (Throw e, k')) as Hfail
    by (intros e He; split; [done |]; exists buf; rewrite app_nil_r; by split).
  - by apply Hfail.
  - destruct ev as [[| b c] | name message]; [by apply Hfail | | by apply Hfail].
    eapply (relay_post_after (fun x => N.of_nat (length x) = remaining - N.of_nat n));
      [done | | apply (IH _ (b :: c))].
    intros y Hy. rewrite length_app. lia.
Qed.

Lemma copyExact_spec r count k :
  relay_post (fun x => N.of_nat (length x) = count) (stream r) (out k) (copyExact r count k).
Proof. apply copyExactLoop_spec. Qed.

Lemma copyToEndLoop_spec buf src k :
  relay_post (fun _ => True) (buf ++ delivered src) (out k) (copyToEndLoop buf src k).
Proof.
  revert buf k. induction src as [| ev src IH]; intros buf k; simpl.
  all: pose proof (writeAll_spec k buf) as Hw; destruct (writeAll k buf) as [[u | e] k'];
    [| destruct Hw as (? & pre & Hp & Ho); split; [done |]; exists pre; split; [| done];
       by apply prefix_app_r].
  - exists buf. unfold moved, stream. simpl. by rewrite Hw.
  - destruct ev as [[| b c] | name message].
    + exists buf. unfold moved, stream. simpl. by rewrite Hw.
    + eapply (relay_post_after (fun _ => True)); [done | done | apply (IH (b :: c))].
    + split; [done |]. exists buf. rewrite Hw. split; [by apply prefix_app_r | done].
Qed.

Lemma copyToEnd_spec r k : relay_post (fun _ => True) (stream r) (out k) (copyToEnd r k).
Proof. apply copyToEndLoop_spec. Qed.

(** ** The chunked body on the wire *)

(** One CRLF-terminated line, with no CRLF before its end. *)
Definition is_line (l : bytes) : Prop :=
  exists n, indexOfSequence CRLF l 0 = Some n /\ length l = (n + 2)%nat.

(** [chunks_wire w ps]: [w] is a sequence of chunks closed by a zero size line,
    [ps] their payloads. *)
Inductive chunks_wire : bytes -> list bytes -> Prop :=
| wire_last l : is_line l -> parseChunkSize l = Ok 0 -> chunks_wire l []
| wire_chunk l size data w ps :
    is_line l -> parseChunkSize l = Ok size -> size <> 0 ->
    N.of_nat (length data) = toNumber (size + 2) ->
    chunks_wire w ps ->
    chunks_wire (l ++ data ++ w) (take (N.to_nat size) data :: ps).

Inductive trailers_wire : bytes -> Prop :=
| wire_blank l : is_line l -> length l = 2%nat -> trailers_wire l
| wire_trailer l w :
    is_line l -> length l <> 2%nat -> trailers_wire w -> trailers_wire (l ++ w).

Definition chunked_wire (w : bytes) (ps : list bytes) : Prop :=
  exists w1 w2, w = w1 ++ w2 /\ chunks_wire w1 ps /\ trailers_wire w2.

(** How a relay extends the capture, if there is one. *)
Definition captured (ps : list bytes) (c c' : option capture) : Prop :=
  match c, c' with
  | None, None => True
  | Some c, Some c' => chunks c' = chunks c ++ ps /\ maxBytes c' = maxBytes c
  | _, _ => False
  end.

Definition chunk_post (Q : bytes -> list bytes -> Prop) (st : relay)
    (res : fallible unit * relay) : Prop :=
  match res with
  | (Ok _, st') => exists x ps, Q x ps /\ captured ps (cap st) (cap st') /\
      moved x (stream (rd st)) (stream (rd st')) (out (wr st)) (out (wr st'))
  | (Throw e, st') => e <> NoFuel /\
      exists x, x `prefix_of` stream (rd st) /\ out (wr st') = out (wr st) ++ x
  end.

Lemma captured_refl c : captured [] c c.
Proof. destruct c; simpl; [by rewrite app_nil_r | done]. Qed.

Lemma captured_trans ps qs c1 c2 c3 :
  captured ps c1 c2 -> captured qs c2 c3 -> captured (ps ++ qs) c1 c3.
Proof.
  destruct c1, c2, c3; simpl; try done. intros [-> ->] [-> ->]. by rewrite app_assoc.
Qed.

Lemma readLine_spec r :
  match readLine r with
  | Ok (l, r') => is_line l /\ stream r = l ++ stream r' /\ (2 <= length l)%nat
  | Throw e => e <> NoFuel
  end.
Proof.
  unfold readLine. pose proof (readThrough_spec r CRLF MAX_LINE_BYTES "line too long") as H.
  destruct (readThrough _ _ _ _) as [[[l |] r'] | e]; simpl in *; [| done | by destruct H].
  destruct H as (i & Hi & -> & ->). rewrite take_drop.
  pose proof Hi as Hi'. apply indexOfSequence_Some in Hi as (? & Hs & Hb).
  pose proof (startsWith_length _ _ Hs) as Hl. rewrite length_drop in Hl. simpl in Hl.
  assert (length (take (i + 2) (stream r)) = (i + 2)%nat) as Hlen
    by (rewrite length_take; lia).
  split; [| split; [done | lia]]. exists i. split; [| done].
  apply indexOfSequence_Some. rewrite Hlen. repeat split; [lia .. | |].
  - rewrite <- (take_drop (i + 2) (stream r)), startsWith_app_iff in Hs; [done |].
    simpl. lia.
  - intros j Hj. specialize (Hb j Hj).
    rewrite <- (take_drop (i + 2) (stream r)), startsWith_app_iff in Hb; [done |].
    simpl. lia.
Qed.

(** Compose a step that moved [x] with what follows it. *)
Lemma chunk_post_after Q Q' x ps st st' res :
  captured ps (cap st) (cap st') ->
  moved x (stream (rd st)) (stream (rd st')) (out (wr st)) (out (wr st')) ->
  (forall y qs, Q y qs -> Q' (x ++ y) (ps ++ qs)) ->
  chunk_post Q st' res -> chunk_post Q' st res.
Proof.
  intros Hc [Hs Ho] HQ. destruct res as [[u | e] st'']; simpl.
  - intros (y & qs & Hy & Hc' & Hs' & Ho'). exists (x ++ y), (ps ++ qs).
    split; [by apply HQ |]. split; [by eapply captured_trans |].
    split; [by rewrite Hs, Hs', app_assoc | by rewrite Ho', Ho, app_assoc].
  - intros (He & y & Hp & Ho'). split; [done |]. exists (x ++ y).
    rewrite Hs. split; [by apply prefix_app | by rewrite Ho', Ho, app_assoc].
Qed.

(** A failed write after a read of [x]. *)
Lemma chunk_post_write_fail Q st x r' k' c e s' :
  stream (rd st) = x ++ s' -> e <> NoFuel ->
  (exists pre, pre `prefix_of` x /\ out k' = out (wr st) ++ pre) ->
  chunk_post Q st (Throw e, Relay r' k' c).
Proof.
  intros Hs He (pre & Hp & Ho). split; [done |]. exists pre. rewrite Hs.
  split; [by apply prefix_app_r | done].
Qed.

Lemma chunk_post_stop Q st st' e :
  e <> NoFuel -> out (wr st') = out (wr st) -> chunk_post Q st (Throw e, st').
Proof.
  intros He Ho. split; [done |]. exists []. rewrite app_nil_r. split; [apply prefix_nil | done].
Qed.

Lemma relayTrailers_spec fuel st :
  (length (stream (rd st)) < fuel)%nat ->
  chunk_post (fun w ps => trailers_wire w /\ ps = []) st (relayTrailers fuel st).
Proof.
  revert st. induction fuel as [| fuel IH]; intros st Hf; [lia |]. simpl.
  pose proof (readLine_spec (rd st)) as Hl.
  destruct (readLine (rd st)) as [[line r'] | e]; [| by apply chunk_post_stop].
  destruct Hl as (Hline & Hs & H2). pose proof (writeAll_spec (wr st) line) as Hw.
  destruct (writeAll (wr st) line) as [[u | e] k'];
    [| destruct Hw; by eapply chunk_post_write_fail].
  assert (moved line (stream (rd st)) (stream r') (out (wr st)) (out k')) as Hm by done.
  case_match eqn:Hb; bools.
  - apply Nat.eqb_eq in Hb. exists line, []. split; [by split; [constructor |] |].
    split; [apply captured_refl | done].
  - apply Nat.eqb_neq in Hb.
    eapply (chunk_post_after _ _ _ _ _ (Relay r' k' (cap st)));
      [apply captured_refl | exact Hm | | apply IH].
    + intros y qs [Hy ->]. split; [by constructor | done].
    + simpl. rewrite Hs, length_app in Hf. lia.
Qed.

(** One chunk's payload and its terminator, captured or not. *)
Definition chunk_step (st : relay) (size : N) : fallible unit * relay :=
  match cap st with
  | Some c => relayCapturedChunk st size c
  | None =>
      let '(res, k') := copyExact (rd st) (toNumber (size + 2)) (wr st) in
      match res with
      | Ok r' => (Ok tt, Relay r' k' None)
      | Throw e => (Throw e, Relay (rd st) k' None)
      end
  end.

Lemma chunk_step_spec st size :
  chunk_post (fun x ps => N.of_nat (length x) = toNumber (size + 2) /\
                ps = [take (N.to_nat size) x]) st (chunk_step st size).
Proof.
  unfold chunk_step, relayCapturedChunk. destruct (cap st) as [c |] eqn:Hc.
  - case_match; [by apply chunk_post_stop |].
    pose proof (readExact_spec (rd st) (toNumber (size + 2))) as Hr.
    destruct (readExact _ _) as [[data r'] | e]; [| destruct Hr; by apply chunk_post_stop].
    destruct Hr as (Hd & Hs & Hl).
    assert (stream (rd st) = data ++ stream r') as Hst by (by rewrite Hd, Hs, take_drop).
    pose proof (writeAll_spec (wr st) data) as Hw.
    destruct (writeAll _ _) as [[u | e] k']; [| destruct Hw; by eapply chunk_post_write_fail].
    exists data, [take (N.to_nat size) data]. rewrite Hc. repeat split; [| done ..].
    rewrite Hd, length_take. lia.
  - pose proof (copyExact_spec (rd st) (toNumber (size + 2)) (wr st)) as H.
    destruct (copyExact _ _ _) as [[r' | e] k']; simpl in *; [| done].
    destruct H as (x & Hx & Hm). exists x, [take (N.to_nat size) x]. by rewrite Hc.
Qed.

Lemma relayChunks_spec fuel st :
  (length (stream (rd st)) < fuel)%nat ->
  chunk_post chunks_wire st (relayChunks fuel st).
Proof.
  revert st. induction fuel as [| fuel IH]; intros st Hf; [lia |]. simpl.
  pose proof (readLine_spec (rd st)) as Hl.
  destruct (readLine (rd st)) as [[line r'] | e]; [| by apply chunk_post_stop].
  destruct Hl as (Hline & Hs & H2). pose proof (writeAll_spec (wr st) line) as Hw.
  destruct (writeAll (wr st) line) as [[u | e] k'];
    [| destruct Hw; by eapply chunk_post_write_fail].
  set (st' := Relay r' k' (cap st)).
  assert (moved line (stream (rd st)) (stream (rd st')) (out (wr st)) (out (wr st'))) as Hm
    by done.
  assert (length (stream (rd st')) < fuel)%nat as Hf'
    by (simpl; rewrite Hs, length_app in Hf; lia).
  destruct (parseChunkSize line) as [size | e] eqn:Hsize.
  2: { split; [by unfold parseChunkSize in Hsize; repeat case_match; simplify_eq |].
       exists line. rewrite Hs. split; [by apply prefix_app_r | done]. }
  destruct (size =? 0) eqn:H0; bools.
  - subst. exists line, []. split; [by constructor |]. split; [apply captured_refl | done].
  - eapply (chunk_post_after (fun y qs => chunks_wire (line ++ y) qs) _ line [] st st');
      [apply captured_refl | exact Hm | done |].
    pose proof (chunk_step_spec st' size) as Hstep. unfold chunk_step in Hstep. simpl in Hstep.
    destruct (match cap st with Some c => _ | None => _ end) as [[u' | e] st'']; [| done].
    destruct Hstep as (x & ps & [Hx ->] & Hcap & Hmv).
    eapply (chunk_post_after chunks_wire _ x _ st' st''); [exact Hcap | exact Hmv | |].
    + intros y qs Hy. simpl. by econstructor.
    + apply IH. destruct Hmv as [Hmv _]. rewrite Hmv, length_app in Hf'. lia.
Qed.

Lemma relayChunked_spec st : chunk_post chunked_wire st (relayChunked st).
Proof.
  unfold relayChunked, relayFuel.
  pose proof (relayChunks_spec (S (length (stream (rd st)))) st ltac:(lia)) as H.
  destruct (relayChunks _ st) as [[u | e] st']; [| done].
  destruct H as (x & ps & Hx & Hc & Hm).
  eapply chunk_post_after; [exact Hc | exact Hm | | by apply relayTrailers_spec; lia].
  intros y qs [Hy ->]. rewrite app_nil_r. by exists x, y.
Qed.

(** ** The cap on a captured body *)

Definition capture_ok (c : capture) : Prop :=
  held c = N.of_nat (length (concat (chunks c))) /\ held c <= maxBytes c.

Lemma toNumber_exact n : n < 2 ^ 53 -> toNumber n = n.
Proof. intros H. unfold toNumber. apply N.ltb_lt in H. by rewrite H. Qed.

Lemma chunk_step_capture st size st' c c' :
  cap st = Some c -> capture_ok c -> maxBytes c + 2 < 2 ^ 53 ->
  chunk_step st size = (Ok tt, st') -> cap st' = Some c' -> capture_ok c' /\ maxBytes c' = maxBytes c.
Proof.
  intros Hc [Hh Hle] Hmax Hstep Hc'. unfold chunk_step, relayCapturedChunk in Hstep.
  rewrite Hc in Hstep. case_match eqn:Hcap; [done |]. bools.
  pose proof (readExact_spec (rd st) (toNumber (size + 2))) as Hr.
  destruct (readExact _ _) as [[data r'] | e]; [| done].
  destruct (writeAll _ _) as [res k']. simplify_eq. simpl in *. simplify_eq.
  rewrite toNumber_exact in Hr by lia. destruct Hr as (Hd & _ & Hl).
  unfold capture_ok. simpl. split; [| done]. split; [| lia].
  rewrite concat_app, length_app, Hh. simpl. rewrite app_nil_r, Hd, !length_take. lia.
Qed.

Lemma relayChunks_capture fuel st st' c c' :
  cap st = Some c -> capture_ok c -> maxBytes c + 2 < 2 ^ 53 ->
  relayChunks fuel st = (Ok tt, st') -> cap st' = Some c' ->
  capture_ok c' /\ maxBytes c' = maxBytes c.
Proof.
  revert st c. induction fuel as [| fuel IH]; intros st c Hc Hok Hmax H Hc'; [done |].
  simpl in H. destruct (readLine (rd st)) as [[line r'] |]; [| done].
  destruct (writeAll (wr st) line) as [[] k']; [| done].
  destruct (parseChunkSize line) as [size |]; [| done].
  destruct (size =? 0); [by simplify_eq/= |]. rewrite Hc in H. simpl in H.
  destruct (relayCapturedChunk _ size c) as [[[] |] st''] eqn:Hstep; [| done].
  set (st1 := Relay r' k' (Some c)) in *.
  assert (chunk_step st1 size = (Ok tt, st'')) as Hs by done.
  pose proof (chunk_step_spec st1 size) as Hspec. rewrite Hs in Hspec.
  destruct Hspec as (x & ps & _ & Hcap & _). simpl in Hcap.
  destruct (cap st'') as [c1 |] eqn:Hc1; [| done].
  destruct (chunk_step_capture st1 size st'' c c1) as [Hok1 Hm1]; [done .. |].
  rewrite <- Hm1. eapply IH; [done | done | by rewrite Hm1 | done | done].
Qed.

Lemma relayTrailers_cap fuel st : cap (relayTrailers fuel st).2 = cap st.
Proof.
  revert st. induction fuel as [| fuel IH]; intros st; [done |]. simpl.
  destruct (readLine (rd st)) as [[line r'] |]; [| done].
  destruct (writeAll (wr st) line) as [[] k']; [| done].
  case_match; [done |]. by rewrite IH.
Qed.

(** ** Properties *)

(** The head the gate judges does not depend on how the client cuts its
    bytes into writes: for two readers with the same byte stream, a head read
    from one (within the size limit) is read from the other, and both go on
    with the same bytes; the head is the stream up to its first blank line. *)
Theorem head_independent_of_chunking r1 r2 head r1' :
  stream r1 = stream r2 ->
  readHead r1 = Ok (Some head, r1') ->
  N.of_nat (length head) <= MAX_HEAD_BYTES + 1 ->
  stream r1 = head ++ stream r1' /\
  (exists n, indexOfSequence CRLF_CRLF (stream r1) 0 = Some n /\ length head = (n + 4)%nat) /\
  exists r2', readHead r2 = Ok (Some head, r2') /\ stream r2' = stream r1'.
Proof.
  intros Hs Hr Hlen. unfold readHead in *.
  pose proof (readThrough_spec r1 CRLF_CRLF MAX_HEAD_BYTES "message head too large") as H1.
  pose proof (readThrough_spec r2 CRLF_CRLF MAX_HEAD_BYTES "message head too large") as H2.
  rewrite Hr in H1. destruct H1 as (i & Hi & Hh & Hs1). rewrite <- Hs in H2. simpl in *.
  assert (length head = (i + 4)%nat) as Hl.
  { rewrite Hh, length_take. apply indexOfSequence_Some in Hi as (? & Hw & _).
    apply startsWith_length in Hw. rewrite length_drop in Hw. simpl in Hw. lia. }
  split; [by rewrite Hh, Hs1, take_drop |]. split; [eauto |].
  destruct (readThrough r2 _ _ _) as [[[x |] r2'] | e]; simpl in H2.
  - destruct H2 as (j & Hj & -> & Hs2). assert (j = i) as -> by congruence.
    exists r2'. by rewrite Hh, Hs1, Hs2.
  - destruct H2 as [H2 _]. rewrite H2 in Hi. done.
  - destruct H2 as [_ H2]. specialize (H2 i Hi). lia.
Qed.

Definition two_reads : reader :=
  Reader [] [Chunk (take 30 sample_head); Chunk (drop 30 sample_head ++ [1; 2; 3])].
Definition one_read : reader := Reader [] [Chunk (sample_head ++ [1; 2; 3])].

Lemma head_independent_of_chunking_witness :
  exists r1', readHead one_read = Ok (Some sample_head, r1') /\
  exists r2', readHead two_reads = Ok (Some sample_head, r2') /\ stream r2' = stream r1'.
Proof.
  eexists. split; [vm_compute; reflexivity |].
  refine (proj2 (proj2 (head_independent_of_chunking one_read two_reads sample_head
    (Reader [1; 2; 3] []) _ _ _))); vm_compute; [reflexivity | reflexivity | discriminate].
Defined.

(** How a body of each framing looks on the wire. *)
Definition body_wire (framing : Framing) (x : bytes) : Prop :=
  match framing with
  | FNone => x = []
  | FLength n => N.of_nat (length x) = n
  | FChunked => exists ps, chunked_wire x ps
  | FEof => True
  end.

Lemma relayBody_spec r framing k :
  match relayBody r framing k with
  | (Ok r', k') => exists x, body_wire framing x /\
      stream r = x ++ stream r' /\ out k' = out k ++ x
  | (Throw e, k') => e <> NoFuel /\ exists x, x `prefix_of` stream r /\ out k' = out k ++ x
  end.
Proof.
  destruct framing as [| n | |]; simpl.
  - exists []. by rewrite app_nil_r.
  - pose proof (copyExact_spec r n k) as H.
    destruct (copyExact r n k) as [[r' |] k']; [| done].
    destruct H as (x & Hx & Hs & Ho). eauto.
  - pose proof (relayChunked_spec (Relay r k None)) as H.
    destruct (relayChunked _) as [[u |] st]; simpl in *; [| done].
    destruct H as (x & ps & Hx & _ & Hs & Ho). eauto.
  - pose proof (copyToEnd_spec r k) as H.
    destruct (copyToEnd r k) as [[r' |] k']; [| done].
    destruct H as (x & _ & Hs & Ho). eauto.
Qed.

(** A body is relayed byte for byte: when [relayBody] succeeds, the bytes
    it took from the source are one complete body of the framing and are
    exactly what the sink received; when it fails, the sink received a prefix
    of the source's bytes (never anything else), and the failure is a real one
    (the model's fuel is always enough). *)
Theorem relay_body_exact r framing k :
  match relayBody r framing k with
  | (Ok r', k') => exists x, body_wire framing x /\
      stream r = x ++ stream r' /\ out k' = out k ++ x
  | (Throw e, k') => e <> NoFuel /\ exists x, x `prefix_of` stream r /\ out k' = out k ++ x
  end.
Proof. apply relayBody_spec. Qed.

(** A body held for the policy never exceeds the cap: when a chunked body
    is captured, the raw bytes kept for relaying are its wire form, the payload
    kept for judging is the concatenation of its chunks, and that payload is at
    most [maxBytes] long. *)
Theorem captured_body_bounded r cap_bytes st' :
  cap_bytes + 2 < 2 ^ 53 ->
  relayChunked (Relay r (Sink [] []) (Some (Capture [] 0 cap_bytes))) = (Ok tt, st') ->
  exists x c, cap st' = Some c /\
    out (wr st') = x /\ stream r = x ++ stream (rd st') /\
    chunked_wire x (chunks c) /\
    N.of_nat (length (concat (chunks c))) <= cap_bytes.
Proof.
  intros Hmax H. set (st := Relay r (Sink [] []) (Some (Capture [] 0 cap_bytes))) in *.
  pose proof (relayChunked_spec st) as Hs. rewrite H in Hs.
  destruct Hs as (x & ps & Hx & Hc & Hm & Ho). simpl in Hc.
  destruct (cap st') as [c |] eqn:Hc'; [| done]. destruct Hc as [Hch Hmb].
  exists x, c. repeat split; [done .. | by rewrite Hch |].
  unfold relayChunked in H.
  destruct (relayChunks (relayFuel st) st) as [[[] |] st1] eqn:H1; [| done].
  pose proof (relayTrailers_cap (relayFuel st1) st1) as Ht. rewrite H in Ht. simpl in Ht.
  destruct (relayChunks_capture (relayFuel st) st st1 (Capture [] 0 cap_bytes) c)
    as [[Hh Hle] Hmc]; try done; [split; simpl; lia | congruence |].
  rewrite <- Hh. simpl in Hmc. lia.
Qed.

Definition sample_chunked : reader :=
  Reader [] [Chunk "3"; Chunk (CRLF ++ ("{}x" : jstring) ++ CRLF ++ ("0" : jstring) ++ CRLF ++ CRLF)].

Lemma captured_body_bounded_witness :
  exists x c, Some (Capture [("{}x" : jstring)] 3 16) = Some c /\
    stream sample_chunked = x ++ [] /\ chunked_wire x (chunks c) /\
    N.of_nat (length (concat (chunks c))) <= 16.
Proof.
  destruct (captured_body_bounded sample_chunked 16
    (Relay (Reader [] []) (Sink (stream sample_chunked) [])
       (Some (Capture [("{}x" : jstring)] 3 16))))
    as (x & c & Hc & Ho & Hs & Hw & Hb); [vm_compute; reflexivity .. |].
  exists x, c. exact (conj Hc (conj Hs (conj Hw Hb))).
Defined.
