(* ===== verification/GateResolve.v ===== *)
(** * Where a bind source really lands ([resolve.ts])

    The walk over one path component at a time.  The file system is a
    parameter, a [PathProbe]; the walk recurses on the symbolic links still
    allowed and, between two links, on the components still pending, so it is
    total without a bound on the length of link targets. *)

From S2P Require Import Prelude GateHttp.

#[local] Open Scope N_scope.

Inductive path_kind := Link | Other.
#[global] Instance path_kind_eq_dec : EqDecision path_kind.
Proof. solve_decision. Defined.

(** [PathProbe]: [None] when the path does not exist. *)
Record PathProbe := {
  kind : jstring -> fallible (option path_kind);
  readLink : jstring -> fallible jstring
}.

Definition MAX_SYMLINK_HOPS : nat := 40.

Definition SLASH : N := 47.

Definition parentOf (path : jstring) : jstring :=
  match lastIndexOf SLASH path with
  | None | Some O => "/"
  | Some cut => take cut path
  end.

Definition childOf (base name : jstring) : jstring :=
  if decide (base = "/") then ("/" : jstring) ++ name else base ++ ("/" : jstring) ++ name.

Definition segments (path : jstring) : list jstring :=
  filter (fun part => part <> [] /\ part <> ".") (split SLASH path).

Record Walk := {
  pending : list jstring;
  resolved : jstring;
  hops : nat;
  walked : option jstring   (** [done] *)
}.

(** [base] plus the rest of the path as written. *)
Definition appendRest (base : jstring) (rest : list jstring) : jstring :=
  foldl (fun out part => if decide (part = "..") then parentOf out else childOf out part)
    base rest.

Definition tooManyLinks : gate_error := OtherErr "Error" "too many symbolic links".

(** One component of the walk; sets [walked] when the path ends in something
    missing.  Called with a component pending. *)
Definition walkOne (probe : PathProbe) (walk : Walk) : fallible Walk :=
  match pending walk with
  | [] => Ok walk
  | name :: rest =>
      if decide (name = "..") then
        Ok {| pending := rest; resolved := parentOf (resolved walk);
              hops := hops walk; walked := walked walk |}
      else
        let next := childOf (resolved walk) name in
        k ← kind probe next;
        match k with
        | None =>
            Ok {| pending := rest; resolved := resolved walk; hops := hops walk;
                  walked := Some (appendRest next rest) |}
        | Some Other =>
            Ok {| pending := rest; resolved := next; hops := hops walk;
                  walked := walked walk |}
        | Some Link =>
            if (MAX_SYMLINK_HOPS <? S (hops walk))%nat then Throw tooManyLinks
            else
              tgt ← readLink probe next;
              Ok {| pending := segments tgt ++ rest;
                    resolved := if startsWith "/" tgt then "/" else resolved walk;
                    hops := S (hops walk); walked := walked walk |}
        end
  end.

Definition stopped (walk : Walk) : bool :=
  bool_decide (walked walk <> None \/ pending walk = []).

(** The [repeatSequential] loop: [turns] bounds the components before the next
    link, [linksLeft] the links. *)
Fixpoint walkLoop (probe : PathProbe) (linksLeft : nat) : nat -> Walk -> fallible Walk :=
  fix run (turns : nat) (walk : Walk) : fallible Walk :=
    if stopped walk then Ok walk
    else
      match turns with
      | O => Throw NoFuel
      | S turns' =>
          walk' ← walkOne probe walk;
          if (hops walk' =? hops walk)%nat then run turns' walk'
          else
            match linksLeft with
            | O => Throw NoFuel
            | S links => walkLoop probe links (length (pending walk')) walk'
            end
      end.

Definition startWalk (path : jstring) : Walk :=
  {| pending := segments path; resolved := "/"; hops := 0; walked := None |}.

Definition resolveBindPath (probe : PathProbe) (path : jstring) : fallible jstring :=
  let walk := startWalk path in
  final ← walkLoop probe MAX_SYMLINK_HOPS (length (pending walk)) walk;
  Ok (default (resolved final) (walked final)).

(** ** Normal paths *)

(** A component a normal path may hold. *)
Definition good_part (s : jstring) : Prop :=
  s <> [] /\ s <> "." /\ s <> ".." /\ SLASH ∉ s.
(** A component that may be pending: [..] as well. *)
Definition pending_part (s : jstring) : Prop := s <> [] /\ s <> "." /\ SLASH ∉ s.

Definition render (parts : list jstring) : jstring := SLASH :: join "/" parts.

Lemma join_snoc sep ps p :
  ps <> [] -> join sep (ps ++ [p]) = join sep ps ++ sep ++ p.
Proof.
  induction ps as [| x ps IH]; intros H; [done |].
  destruct ps as [| y ps]; [done |].
  change (join sep ((x :: y :: ps) ++ [p])) with (x ++ sep ++ join sep ((y :: ps) ++ [p])).
  rewrite IH by done. simpl. by rewrite <- !app_assoc.
Qed.

Lemma render_root : render [] = "/".
Proof. done. Qed.

Lemma render_not_root parts : Forall good_part parts -> parts <> [] -> render parts <> "/".
Proof.
  destruct parts as [| p parts]; [done |]. intros H _. inversion_clear H as [| ? ? (Hp & _) _].
  unfold render. intros E. injection E as E.
  destruct parts; simpl in E; [by subst |]. destruct p; [done | discriminate E].
Qed.

Lemma childOf_render parts name :
  Forall good_part parts -> childOf (render parts) name = render (parts ++ [name]).
Proof.
  intros H. unfold childOf. destruct (decide (parts = [])) as [-> |].
  - rewrite decide_True by done. done.
  - rewrite decide_False by by apply render_not_root.
    unfold render. by rewrite join_snoc.
Qed.

Lemma parentOf_render_snoc parts name :
  SLASH ∉ name -> parentOf (render (parts ++ [name])) = render parts.
Proof.
  intros Hn. unfold parentOf, render. destruct (decide (parts = [])) as [-> | Hp].
  - change (SLASH :: join "/" ([] ++ [name])) with ([] ++ SLASH :: name).
    by rewrite lastIndexOf_app.
  - rewrite join_snoc by done. change (js [47]) with [SLASH].
    change (SLASH :: join [SLASH] parts ++ [SLASH] ++ name) with
      ((SLASH :: join [SLASH] parts) ++ SLASH :: name).
    rewrite lastIndexOf_app by done.
    simpl. f_equal. apply take_app_length.
Qed.

Lemma parentOf_render parts :
  Forall good_part parts -> exists parts', parentOf (render parts) = render parts' /\
    Forall good_part parts' /\ parts' `prefix_of` parts.
Proof.
  intros H. destruct parts as [| p ps _] using rev_ind.
  - by exists [].
  - apply Forall_app in H as [Hps Hp]. inversion_clear Hp as [| ? ? (_ & _ & _ & Hs) _].
    exists ps. rewrite parentOf_render_snoc by done. repeat split; [done |]. by exists [p].
Qed.

Lemma Forall_snoc {A} (P : A -> Prop) l x : Forall P l -> P x -> Forall P (l ++ [x]).
Proof. intros Hl Hx. apply Forall_app. split; [done |]. constructor; [done | constructor]. Qed.

Lemma segments_parts path : Forall pending_part (segments path).
Proof.
  unfold segments, pending_part. pose proof (split_no_sep SLASH path) as H.
  rewrite !Forall_forall in *. intros x [[? ?] Hx]%list_elem_of_filter. eauto.
Qed.

(** ** The walk's invariant

    The resolved part is a normal path none of whose components is a link; the
    pending part holds no empty component; a finished walk ended below a
    missing component. *)

Section Walks.
Context (probe : PathProbe).

(** [render q] exists and is not a link, for every nonempty prefix [q]. *)
Definition link_free (parts : list jstring) : Prop :=
  forall q, q `prefix_of` parts -> q <> [] -> kind probe (render q) = Ok (Some Other).

(** [parts] exists without links up to a missing component, after which the
    path goes on as written. *)
Definition ends_missing (path : jstring) : Prop :=
  exists parts name rest,
    Forall good_part parts /\ link_free parts /\
    good_part name /\ kind probe (render (parts ++ [name])) = Ok None /\
    Forall pending_part rest /\ path = appendRest (render (parts ++ [name])) rest.

Definition walk_inv (walk : Walk) : Prop :=
  (exists parts, resolved walk = render parts /\ Forall good_part parts /\ link_free parts) /\
  Forall pending_part (pending walk) /\
  (hops walk <= MAX_SYMLINK_HOPS)%nat /\
  match walked walk with None => True | Some path => ends_missing path end.

Lemma link_free_prefix p q : link_free p -> q `prefix_of` p -> link_free q.
Proof. intros H Hq x Hx. apply H. by eapply transitivity. Qed.

Lemma link_free_snoc parts name :
  link_free parts -> kind probe (render (parts ++ [name])) = Ok (Some Other) ->
  link_free (parts ++ [name]).
Proof.
  intros H Hk q [t Ht] Hne. destruct t as [| x t _] using rev_ind.
  - rewrite app_nil_r in Ht. by rewrite <- Ht.
  - rewrite app_assoc in Ht. apply app_inj_tail in Ht as [Ht _].
    apply H; [by exists t | done].
Qed.

Lemma link_free_nil : link_free [].
Proof. intros q [t Ht] Hne. by destruct q. Qed.

Lemma startWalk_inv path : walk_inv (startWalk path).
Proof.
  split; [exists []; repeat split; [constructor | apply link_free_nil] |].
  split; [apply segments_parts |]. split; [unfold MAX_SYMLINK_HOPS; simpl; lia | done].
Qed.

(** One turn keeps the invariant and either shortens the pending part or
    spends a link; it never fails but with the probe's error or the link
    limit. *)
Lemma walkOne_inv walk walk' :
  walk_inv walk -> stopped walk = false -> walkOne probe walk = Ok walk' ->
  walk_inv walk' /\
  (hops walk' = hops walk /\ length (pending walk) = S (length (pending walk')) \/
   hops walk' = S (hops walk)).
Proof.
  intros ((parts & Hr & Hg & Hl) & Hp & Hh & Hw) Hs H. unfold walkOne in H.
  unfold stopped in Hs. apply bool_decide_eq_false in Hs.
  destruct (pending walk) as [| name rest] eqn:Hpend; [naive_solver |].
  inversion_clear Hp as [| ? ? Hname Hrest].
  destruct (decide (name = "..")) as [-> | Hdd].
  - simplify_eq. split; [| left; simpl; by split]. rewrite Hr.
    destruct (parentOf_render parts Hg) as (ps & -> & Hps & Hpre).
    split; [| done]. exists ps. repeat split; [done |]. by eapply link_free_prefix.
  - rewrite Hr, childOf_render in H by done. ok_inv.
    assert (good_part name) as Hgn by (by destruct Hname as (? & ? & ?)).
    destruct a as [[] |].
    + ok_inv. subst. split; [| by right].
      split; [| split; [| split]]; cbn [resolved pending hops walked]; [| | | done].
      * destruct (startsWith "/" a); [exists []; repeat split; [constructor | apply link_free_nil] | by exists parts].
      * apply Forall_app. split; [apply segments_parts | done].
      * apply Nat.ltb_ge in E0. lia.
    + simplify_eq. split; [| left; simpl; by split].
      split; [| done]. exists (parts ++ [name]). repeat split.
      * by apply Forall_snoc.
      * by apply link_free_snoc.
    + simplify_eq. split; [| left; simpl; by split].
      split; [by exists parts |]. split; [done |]. split; [done |].
      exists parts, name, rest. by split_and!.
Qed.

(** The loop never runs out of turns or links, and ends stopped. *)
Lemma walkLoop_spec links turns walk :
  walk_inv walk -> (MAX_SYMLINK_HOPS <= hops walk + links)%nat ->
  (length (pending walk) <= turns)%nat ->
  match walkLoop probe links turns walk with
  | Ok final => walk_inv final /\ stopped final = true
  | Throw e => e = tooManyLinks \/ (exists p, kind probe p = Throw e) \/
               (exists p, readLink probe p = Throw e)
  end.
Proof.
  revert turns walk. induction links as [| links IHl].
  all: induction turns as [| turns IHt]; intros walk Hinv Hlinks Hturns.
  all: cbn [walkLoop]; destruct (stopped walk) eqn:Hs; [done |].
  1,3: unfold stopped in Hs; apply bool_decide_eq_false in Hs;
    destruct (pending walk); simpl in *; [naive_solver | lia].
  all: destruct (walkOne probe walk) as [walk' | e] eqn:Hw; simpl.
  2,4: unfold walkOne in Hw; destruct (pending walk); [done |]; case_decide; [done |];
    destruct (kind probe _) as [[[] |] |] eqn:Hk; simpl in Hw; simplify_eq; eauto;
    case_match; simplify_eq; eauto;
    destruct (readLink probe _) eqn:Hrl; simpl in Hw; simplify_eq; eauto.
  all: destruct (walkOne_inv walk walk' Hinv Hs Hw) as [Hinv' [[Hh Hlen] | Hh]].
  1,3: rewrite Hh, Nat.eqb_refl; apply IHt; [done | lia | lia].
  - destruct Hinv' as (_ & _ & Hle & _). lia.
  - replace (hops walk' =? hops walk)%nat with false by (symmetry; apply Nat.eqb_neq; lia).
    apply IHl; [done | lia | lia].
Qed.
End Walks.

(** ** What the answer looks like *)

Lemma appendRest_cons base part rest :
  appendRest base (part :: rest) =
  appendRest (if decide (part = "..") then parentOf base else childOf base part) rest.
Proof. done. Qed.

Lemma appendRest_render parts rest :
  Forall good_part parts -> Forall pending_part rest ->
  exists out, appendRest (render parts) rest = render out /\ Forall good_part out.
Proof.
  intros Hg Hr. revert parts Hg. induction Hr as [| part rest Hp Hr IH]; intros parts Hg.
  - by exists parts.
  - rewrite appendRest_cons. destruct (decide (part = "..")) as [-> |].
    + destruct (parentOf_render parts Hg) as (ps & -> & Hps & _). by apply IH.
    + rewrite childOf_render by done. apply IH. apply Forall_app. split; [done |].
      constructor; [| done]. destruct Hp as (? & ? & ?). by repeat split.
Qed.

Lemma appendRest_plain parts rest :
  Forall good_part parts -> Forall good_part rest ->
  appendRest (render parts) rest = render (parts ++ rest).
Proof.
  intros Hg Hr. revert parts Hg. induction Hr as [| part rest Hp Hr IH]; intros parts Hg.
  - by rewrite app_nil_r.
  - rewrite appendRest_cons, decide_False by by destruct Hp as (_ & _ & ? & _).
    rewrite childOf_render, IH; [by rewrite <- app_assoc | | done].
    by apply Forall_snoc.
Qed.

(** ** Properties *)

(** The walk always comes to an answer within [MAX_SYMLINK_HOPS] links,
    whatever the links say (loops included): the only failures are the link
    limit and the probe's own errors. *)
Theorem resolve_total probe path :
  (exists r, resolveBindPath probe path = Ok r) \/
  exists e, resolveBindPath probe path = Throw e /\
    (e = tooManyLinks \/ (exists p, kind probe p = Throw e) \/
     (exists p, readLink probe p = Throw e)).
Proof.
  unfold resolveBindPath.
  pose proof (walkLoop_spec probe MAX_SYMLINK_HOPS (length (pending (startWalk path)))
    (startWalk path) (startWalk_inv probe path) ltac:(simpl; lia) ltac:(lia)) as H.
  destruct (walkLoop probe _ _ _) as [final | e]; simpl; eauto.
Qed.


(** A probe given by a table of links and of existing paths. *)
Definition tableProbe (links : list (jstring * jstring)) (others : list jstring) : PathProbe :=
  {| kind p := Ok (if memb p (map fst links) then Some Link
                   else if memb p others then Some Other else None);
     readLink p :=
       match list_find (fun l => l.1 = p) links with
       | Some (_, l) => Ok l.2
       | None => Throw (OtherErr "InvalidData" "not a symlink")
       end |}.

Definition tenantTree : list jstring :=
  ["/srv"; "/srv/users"; "/srv/users/u"; "/srv/users/u/data"; "/etc"].


(** The exception to [resolve_follows_every_link]: when a link's target
    steps out of a component that does not exist ([gone/../esc]), the rest is
    appended as written and the answer can itself be a symbolic link, here one
    that leads to [/etc] although the answer lies in the tenant's own tree. *)
Theorem resolve_dotdot_after_missing :
  let probe := tableProbe [("/srv/users/u/data/l" : jstring, "gone/../esc" : jstring);
                           ("/srv/users/u/data/esc" : jstring, "/etc" : jstring)] tenantTree in
  resolveBindPath probe "/srv/users/u/data/l" = Ok "/srv/users/u/data/esc" /\
  kind probe "/srv/users/u/data/esc" = Ok (Some Link) /\
  readLink probe "/srv/users/u/data/esc" = Ok "/etc".
Proof. vm_compute. by repeat split. Qed.
