(* ===== verification/GatePlatform.v ===== *)
(** * Who a container belongs to ([platform.ts])

    Ownership by labels, the bind allowance of the platform's own containers,
    and which requests address an owned object. *)

From S2P Require Import Prelude Json.

(** ** Labels *)

Definition Labels := list (jstring * jstring).

Fixpoint getLabel (labels : Labels) (key : jstring) : option jstring :=
  match labels with
  | [] => None
  | (k, v) :: labels' => if decide (k = key) then Some v else getLabel labels' key
  end.
(** [labels[key] ?? ""]. *)
Definition labelOr (labels : Labels) (key : jstring) : jstring := default [] (getLabel labels key).

(** Only string-valued entries of a [Labels] object.  Assigning a string to
    [__proto__] of the result object defines nothing. *)
Definition labelsOf (value : option jval) : Labels :=
  match value with
  | Some (JObj o) =>
      omap (fun '(key, item) =>
        match item with
        | JStr s => if decide (key = "__proto__") then None else Some (key, s)
        | _ => None
        end) (ownEntries o)
  | _ => []
  end.

Definition PLATFORM_ROLES : list jstring := ["turbopanel"; "ingress"].
Definition PLATFORM_COMPONENTS : list jstring :=
  ["hosting-ingress"; "managed-ingress"; "managed-ha"; "database"; "queue";
   "backup-copy"; "backup-restore"; "managed-files"; "volume-copy"].
Definition LABEL_ROLE : jstring := "turbopanel.role".
Definition LABEL_SYSTEM_COMPONENT : jstring := "com.turbopanel.system.component".
Definition LABEL_MANAGED_ENGINE : jstring := "tp.managed.engine".
Definition LABEL_COMPOSE_PROJECT : jstring := "com.docker.compose.project".

Inductive Owner := Platform | Tenant | Unlabeled.
#[global] Instance Owner_eq_dec : EqDecision Owner.
Proof. solve_decision. Defined.

Definition ownerName (o : Owner) : jstring :=
  match o with Platform => "platform" | Tenant => "tenant" | Unlabeled => "unlabeled" end.

(** ** Bind allowance *)

Record PlatformRoots := {
  roReadOnly : list jstring;
  roWritable : list jstring
}.

Definition BACKUP_ROOT : jstring := "/backup".

Definition DEFAULT_PLATFORM_ROOTS : PlatformRoots := {|
  roReadOnly := ["/etc/turbopanel/proxysql"; "/etc/turbopanel/orchestrator"; BACKUP_ROOT];
  roWritable := ["/var/lib/turbopanel/orchestrator"; "/var/lib/turbopanel/managed"]
|}.

Definition DEFAULT_INGRESS_SOCKET_DIR : jstring := "/run/turbopanel-gate/ro".

Definition isIngressContainer (labels : Labels) : bool :=
  bool_decide (getLabel labels LABEL_ROLE = Some ("ingress" : jstring)).

Definition isPlatformContainer (labels : Labels) : bool :=
  if decide (labelOr labels LABEL_MANAGED_ENGINE <> []) then true
  else memb (labelOr labels LABEL_ROLE) PLATFORM_ROLES &&
       memb (labelOr labels LABEL_SYSTEM_COMPONENT) PLATFORM_COMPONENTS.

Definition hasTurbopanelLabel (labels : Labels) : bool :=
  existsb (fun '(key, _) =>
    startsWith "com.turbopanel." key || bool_decide (key = LABEL_ROLE)) labels.

Definition ownerOf (labels : Labels) : Owner :=
  if isPlatformContainer labels then Platform
  else if bool_decide (labelOr labels LABEL_COMPOSE_PROJECT <> []) || hasTurbopanelLabel labels
  then Tenant else Unlabeled.

Module PlatformPath.
Definition within (path root : jstring) : bool :=
  bool_decide (path = root) || startsWith (root ++ ("/" : jstring)) path.
End PlatformPath.

Inductive PlatformBind := BindAllowed | ConfigWritable.

Definition platformBindVerdict (resolved : jstring) (readOnly : bool) (roots : PlatformRoots)
    : option PlatformBind :=
  if existsb (PlatformPath.within resolved) (roReadOnly roots)
  then Some (if readOnly then BindAllowed else ConfigWritable)
  else if existsb (PlatformPath.within resolved) (roWritable roots) then Some BindAllowed
  else None.

(** ** Owned targets *)

(** The path after a literal prefix, cut at its first slash: a nonempty first
    segment and what follows the slash, if there is one. *)
Definition segmentAfter (prefix path : jstring) : option (jstring * option jstring) :=
  if negb (startsWith prefix path) then None
  else
    let rest := drop (length prefix) path in
    let id := takeWhile (fun c => negb (c =? 47)%N) rest in
    if decide (id = []) then None
    else Some (id, match drop (length id) rest with [] => None | _ :: tail => Some tail end).

Definition OWNED_ACTIONS : list jstring :=
  ["start"; "stop"; "restart"; "kill"; "pause"; "unpause"; "rename"; "update"; "exec";
   "attach"; "archive"; "wait"; "resize"; "export"; "attach/ws"].

(** [OWNED_TARGET.exec(path)?.[1]]. *)
Definition ownedTargetMatch (path : jstring) : option jstring :=
  match segmentAfter "/containers/" path with
  | Some (id, Some tail) => if memb tail OWNED_ACTIONS then Some id else None
  | _ => None
  end.

(** [OWNED_REMOVE.exec(path)?.[1]]. *)
Definition ownedRemoveMatch (path : jstring) : option jstring :=
  match segmentAfter "/containers/" path with
  | Some (id, None) => Some id
  | _ => None
  end.

Definition ownedTarget (method path : jstring) : option jstring :=
  if decide (method = "DELETE") then ownedRemoveMatch path
  else if memb method ["POST"; "PUT"; "GET"; "HEAD"] then
    match ownedTargetMatch path with
    | Some id => if decide (id = "json") then None else Some id
    | None => None
    end
  else None.

(** ** Access to platform containers *)

Inductive allowance_target := AnyEngine | Component (name : jstring).
Record ExecAllowance := {
  allowTarget : allowance_target;
  allowCommands : option (list jstring)
}.

Definition PLATFORM_EXEC_ALLOWLIST : list ExecAllowance :=
  [ {| allowTarget := AnyEngine; allowCommands := None |};
    {| allowTarget := Component "managed-ingress"; allowCommands := Some ["mysql"] |} ].

Definition PLATFORM_ATTACH_ALLOWLIST : list jstring :=
  ["backup-copy"; "backup-restore"; "managed-files"; "volume-copy"].

Definition ACCESS_KINDS : list jstring := ["exec"; "attach"; "attach/ws"; "archive"; "export"].

(** [PLATFORM_ACCESS.exec(path)?.[1]]. *)
Definition platformAccess (path : jstring) : option jstring :=
  match segmentAfter "/containers/" path with
  | Some (_, Some tail) => if memb tail ACCESS_KINDS then Some tail else None
  | _ => None
  end.

Definition execCommand (body : option jval) : option jstring :=
  match body with
  | Some (JObj o) =>
      match getEntry o "Cmd" with
      | Some (JArr (JStr c :: _)) => last (split 47 c)
      | _ => None
      end
  | _ => None
  end.

Definition allowanceMatches (a : ExecAllowance) (labels : Labels) (command : option jstring)
    : bool :=
  match allowTarget a with
  | AnyEngine => bool_decide (labelOr labels LABEL_MANAGED_ENGINE <> [])
  | Component name => bool_decide (getLabel labels LABEL_SYSTEM_COMPONENT = Some name)
  end &&
  match allowCommands a with
  | None => true
  | Some cs => match command with Some c => memb c cs | None => false end
  end.

Definition platformAccessRule (path : jstring) (labels : Labels) (body : option jval)
    : option jstring :=
  match platformAccess path with
  | None => None
  | Some kind =>
      if negb (isPlatformContainer labels) then None
      else if decide (kind = "archive") then Some ("platform-archive" : jstring)
      else if decide (kind = "export") then Some ("platform-export" : jstring)
      else if decide (kind <> "exec") then
        if memb (labelOr labels LABEL_SYSTEM_COMPONENT) PLATFORM_ATTACH_ALLOWLIST
        then None else Some ("platform-attach" : jstring)
      else
        if existsb (fun a => allowanceMatches a labels (execCommand body))
             PLATFORM_EXEC_ALLOWLIST
        then None else Some ("platform-exec" : jstring)
  end.

(** ** Owned networks and volumes *)

Inductive InspectKind := KContainer | KVolume | KNetwork.
#[global] Instance InspectKind_eq_dec : EqDecision InspectKind.
Proof. solve_decision. Defined.

Definition kindName (k : InspectKind) : jstring :=
  match k with KContainer => "container" | KVolume => "volume" | KNetwork => "network" end.

Definition NOT_AN_OBJECT : list jstring := ["create"; "prune"].

Definition ownedObject (method path : jstring) : option (InspectKind * jstring) :=
  if decide (method = "DELETE") then
    match segmentAfter "/volumes/" path, segmentAfter "/networks/" path with
    | Some (name, None), _ => if memb name NOT_AN_OBJECT then None else Some (KVolume, name)
    | _, Some (name, None) => if memb name NOT_AN_OBJECT then None else Some (KNetwork, name)
    | _, _ => None
    end
  else if negb (bool_decide (method = "POST")) then None
  else
    match segmentAfter "/networks/" path with
    | Some (name, Some tail) =>
        if memb tail ["connect"; "disconnect"] then Some (KNetwork, name) else None
    | _ => None
    end.
