(* ===== verification/GateRoutes.v ===== *)
(** * Which engine route a request is ([policy.ts], first part)

    The version prefix the engine strips, the ordered route table, and the
    path checks. *)

From S2P Require Import Prelude Regex.

#[local] Open Scope N_scope.

(** ** Version prefix *)

Definition version_char (c : N) : bool := is_digit c || (c =? 46).

(** [ENGINE_VERSION_PREFIX]: a [/v], digits and dots, then a slash that is not
    consumed; the length of the match. *)
Definition engineVersionPrefix (path : jstring) : option nat :=
  if startsWith "/v" path then
    let v := takeWhile version_char (drop 2 path) in
    if bool_decide (v <> []) && startsWith "/" (drop (2 + length v) path)
    then Some (2 + length v)%nat else None
  else None.

Definition CANONICAL_VERSION_PREFIX : regex :=
  RCats [RLit "/v"; RPlus (RSet is_digit); RChar 46; RPlus (RSet is_digit); RChar 47; RAny].

(** Path as the engine routes it: without the API version prefix. *)
Definition routePath (rawPath : jstring) : jstring :=
  match engineVersionPrefix rawPath with
  | Some n => drop n rawPath
  | None => rawPath
  end.

Definition versionPrefixIsCanonical (rawPath : jstring) : bool :=
  match engineVersionPrefix rawPath with
  | None => true
  | Some _ =>
      if negb (matches CANONICAL_VERSION_PREFIX rawPath) then false
      else match engineVersionPrefix (routePath rawPath) with None => true | Some _ => false end
  end.

(** ** The route table *)

Inductive Route :=
| RestrictedGroup | ContainersCreate | ContainersExecCreate | NetworksCreate
| VolumesCreate | Build | Commit | Session | Grpc | ArchivePut | ArchiveGet | Attach
| ContainersAction | ExecStart | ContainersRemove | ObjectRemove | ImagesPull
| ImagesLoad | ImagesWrite | NetworksAttach | Prune | Auth | Read | Unclassified.
#[global] Instance Route_eq_dec : EqDecision Route.
Proof. solve_decision. Defined.

Definition routeName (r : Route) : jstring :=
  match r with
  | RestrictedGroup => "restricted-group" | ContainersCreate => "containers.create"
  | ContainersExecCreate => "containers.exec.create" | NetworksCreate => "networks.create"
  | VolumesCreate => "volumes.create" | Build => "build" | Commit => "commit"
  | Session => "session" | Grpc => "grpc" | ArchivePut => "containers.archive.put"
  | ArchiveGet => "containers.archive.get" | Attach => "containers.attach"
  | ContainersAction => "containers.action" | ExecStart => "exec.start"
  | ContainersRemove => "containers.remove" | ObjectRemove => "object.remove"
  | ImagesPull => "images.pull" | ImagesLoad => "images.load" | ImagesWrite => "images.write"
  | NetworksAttach => "networks.attach" | Prune => "prune" | Auth => "auth"
  | Read => "read" | Unclassified => "unclassified"
  end.

Record RouteRule := {
  rmethods : list jstring;
  rpattern : regex;
  rroute : Route;
  rneedsBody : bool
}.

(** [ID]: the engine's [{name:.*}], never across a line terminator. *)
Definition ID : regex := RPlus RDot.

Definition rule (methods : list jstring) (parts : list regex) (r : Route) : RouteRule :=
  {| rmethods := methods; rpattern := RCats parts; rroute := r; rneedsBody := false |}.
Definition bodyRule (methods : list jstring) (parts : list regex) (r : Route) : RouteRule :=
  {| rmethods := methods; rpattern := RCats parts; rroute := r; rneedsBody := true |}.

Definition ROUTES : list RouteRule :=
  [ rule ["GET"; "POST"; "DELETE"]
      [RLit "/"; ROpt (RCats [RLit "containers/"; ID; RLit "/"]); RLit "checkpoints";
       ROpt (RCat (RLit "/") (RStar RDot))] RestrictedGroup;
    bodyRule ["POST"] [RLit "/containers/create"] ContainersCreate;
    bodyRule ["POST"] [RLit "/containers/"; ID; RLit "/exec"] ContainersExecCreate;
    bodyRule ["POST"] [RLit "/networks/create"] NetworksCreate;
    bodyRule ["POST"] [RLit "/volumes/create"] VolumesCreate;
    rule ["POST"] [RLit "/build"] Build;
    rule ["POST"] [RLit "/commit"] Commit;
    rule ["POST"] [RLit "/session"] Session;
    rule ["POST"] [RLit "/grpc"] Grpc;
    rule ["PUT"] [RLit "/containers/"; ID; RLit "/archive"] ArchivePut;
    rule ["GET"; "HEAD"] [RLit "/containers/"; ID; RLit "/archive"] ArchiveGet;
    rule ["POST"] [RLit "/containers/"; ID; RLit "/attach"] Attach;
    rule ["POST"]
      [RLit "/containers/"; ID; RLit "/";
       RWords ["start"; "stop"; "restart"; "kill"; "pause"; "unpause"; "wait"; "resize";
               "rename"; "update"]] ContainersAction;
    rule ["POST"] [RLit "/exec/"; ID; RLit "/"; RWords ["start"; "resize"]] ExecStart;
    rule ["DELETE"] [RLit "/containers/"; ID] ContainersRemove;
    rule ["DELETE"] [RLit "/"; RWords ["networks"; "volumes"]; RLit "/"; ID] ObjectRemove;
    rule ["DELETE"] [RLit "/images/"; RPlus RDot] ObjectRemove;
    rule ["POST"] [RLit "/images/create"] ImagesPull;
    rule ["POST"] [RLit "/images/load"] ImagesLoad;
    rule ["POST"] [RLit "/images/"; RPlus RDot; RLit "/"; RWords ["push"; "tag"]] ImagesWrite;
    rule ["POST"] [RLit "/networks/"; ID; RLit "/"; RWords ["connect"; "disconnect"]]
      NetworksAttach;
    rule ["POST"]
      [RLit "/"; RWords ["containers"; "images"; "networks"; "volumes"; "build"];
       RLit "/prune"] Prune;
    rule ["POST"] [RLit "/auth"] Auth;
    rule ["PUT"] [RLit "/volumes/"; ID] RestrictedGroup ].

Definition MUTATING_GROUPS : regex :=
  RCats [RLit "/"; RWords ["plugins"; "swarm"; "nodes"; "services"; "tasks"; "secrets";
                           "configs"; "debug"]; ROpt (RCat (RLit "/") RAny)].

Definition READ_ROUTES : list regex :=
  [ RCats [RLit "/"; RWords ["_ping"; "version"; "info"; "events"; "networks"; "volumes";
                             "plugins"]];
    RLit "/system/df";
    RCats [RLit "/distribution/"; RPlus RDot];
    RLit "/containers/json";
    RCats [RLit "/containers/"; ID; RLit "/";
           RWords ["json"; "top"; "logs"; "changes"; "export"; "stats"; "attach/ws"]];
    RCats [RLit "/exec/"; ID; RLit "/json"];
    RCats [RLit "/images/"; RWords ["json"; "search"; "get"]];
    RCats [RLit "/images/"; RPlus RDot; RLit "/"; RWords ["json"; "history"; "get"]];
    RCats [RLit "/"; RWords ["networks"; "volumes"]; RLit "/"; ID];
    RCats [RLit "/plugins/"; ID; RLit "/json"] ].

Record RouteInfo := { route : Route; needsBody : bool }.

Definition ruleMatches (method path : jstring) (r : RouteRule) : bool :=
  memb method (rmethods r) && matches (rpattern r) path.

(** Which route a request is, and whether its body matters to the policy. *)
Definition classifyRoute (method rawPath : jstring) : RouteInfo :=
  let path := routePath rawPath in
  match find (ruleMatches method path) ROUTES with
  | Some r => {| route := rroute r; needsBody := rneedsBody r |}
  | None =>
      if memb method ["GET"; "HEAD"] && existsb (fun r => matches r path) READ_ROUTES
      then {| route := Read; needsBody := false |}
      else if matches MUTATING_GROUPS path
      then {| route := RestrictedGroup; needsBody := false |}
      else {| route := Unclassified; needsBody := false |}
  end.

(** ** Path checks *)

Definition pathIsCanonical (path : jstring) : bool :=
  if hasChar 0 path || hasChar 92 path || includes "//" path then false
  else negb (existsb (fun s => bool_decide (s = "..") || bool_decide (s = ".")) (split 47 path)).

Definition normalizeSegment (out : list jstring) (segment : jstring) : list jstring :=
  if bool_decide (segment = []) || bool_decide (segment = ".") then out
  else if bool_decide (segment = "..") then removelast out
  else out ++ [segment].
Definition normalizeAbsolute (path : jstring) : jstring :=
  47 :: join "/" (foldl normalizeSegment [] (split 47 path)).

Definition within (path root : jstring) : bool :=
  if decide (root = "/") then true
  else bool_decide (path = root) || startsWith (root ++ ("/" : jstring)) path.

Definition firstSegment (path : jstring) : jstring :=
  nth 1 (split 47 (routePath path)) [].
