(* ===== verification/GatePolicy.v ===== *)
(** * The strict profile ([policy.ts])

    Every rule a request would break, as a list of findings.  The engine's
    tables the code reaches through the language ([toUpperCase] outside ASCII,
    the text of a number) are the [JsTables] interface of [Json.v]; symbolic links are
    resolved by a [resolvePath] function that may reject. *)

From S2P Require Import Prelude Regex Text Json GateHttp GateResolve GatePlatform GateRoutes.

Record Violation := { vrule : jstring; vdetail : option jstring }.
#[global] Instance Violation_eq_dec : EqDecision Violation.
Proof. solve_decision. Defined.

Definition broke (r : jstring) : Violation := {| vrule := r; vdetail := None |}.
Definition brokeAt (r d : jstring) : Violation := {| vrule := r; vdetail := Some d |}.

Record PolicyConfig := {
  bindRoots : list jstring;
  principalRoots : list jstring;
  denyPrefixes : list jstring;
  dockerSockets : list jstring;
  capAllowlist : list jstring;
  platformRoots : PlatformRoots;
  ingressSocketDir : jstring
}.

Definition DEFAULT_POLICY_CONFIG : PolicyConfig := {|
  bindRoots := ["/srv/users"; "/var/lib/turbopanel/storage"];
  principalRoots := ["/srv/users"];
  denyPrefixes := ["/etc"; "/var/run"; "/run"; "/proc"; "/sys"; "/dev"; "/root"; "/boot";
                   "/opt/turbopanel"; BACKUP_ROOT];
  dockerSockets := ["/var/run/docker.sock"; "/run/docker.sock"];
  capAllowlist := [];
  platformRoots := DEFAULT_PLATFORM_ROOTS;
  ingressSocketDir := DEFAULT_INGRESS_SOCKET_DIR
|}.

Record RequestFacts := {
  fmethod : jstring;
  fpath : jstring;
  fquery : query;
  fbody : option jval;
  fplainBody : option jval;
  fformBody : bool;
  fbodyError : option jstring
}.

(** ** Reading unknown values *)

Definition field (o : entries) (name : jstring) : option jval := getEntry o name.

Definition stringList (value : option jval) : list jstring :=
  match value with
  | Some (JArr items) => omap (fun v => match v with JStr s => Some s | _ => None end) items
  | _ => []
  end.

Definition isPresent (value : option jval) : bool :=
  match value with
  | None | Some JNull => false
  | Some (JStr s) => bool_decide (s <> [])
  | Some (JArr l) => negb (match l with [] => true | _ => false end)
  | Some (JObj o) => negb (match o with [] => true | _ => false end)
  | Some _ => true
  end.

(** [typeof value === "string" ? value : ""]. *)
Definition textOf (value : option jval) : jstring :=
  match value with Some (JStr s) => s | _ => [] end.

Definition fieldDetail (key : jstring) : jstring :=
  if matches (RBetween 1 39 (RSet is_alpha)) key then key else "<odd>".

(** ** Bind sources *)

Definition PRINCIPAL_DATA_AREAS : list jstring := ["data"; "tmp"].
Definition PRINCIPAL_NOT_SCOPES : list jstring :=
  ["home"; "tmp"; "services"; "volumes"; "data"; "sites"; "backup"; "backups"; "logs";
   "cache"; "run"; "var"; "etc"; "bin"; "root"; "public"; "releases"; "current"; "shared";
   "lost-found"; "tmp-staging"; "base"].
Definition PRINCIPAL_SITE_AREAS : list jstring := ["shared"; "webroot"; "releases"].
Definition SCOPE_NAME : regex :=
  RCat (RSet (fun c => is_lower c || is_digit c))
       (RUpTo 31 (RSet (fun c => is_lower c || is_digit c || (c =? 95)%N || (c =? 45)%N))).

(** [allowed] of [principalViolation], on the path parts below the root.  A
    missing [area] reads as the empty string where the code writes [?? ""]. *)
Definition principalAllowed (parts : list jstring) : bool :=
  match parts with
  | [] => false
  | owner :: parts' =>
      let area := default [] (head parts') in
      let tail := tl parts' in
      negb (startsWith "." owner) &&
      (memb area PRINCIPAL_DATA_AREAS ||
       (bool_decide (head parts' = Some ("volumes" : jstring)) && (1 <=? length tail)) ||
       (bool_decide (head tail = Some ("volumes" : jstring)) && (2 <=? length tail) &&
        negb (memb area PRINCIPAL_NOT_SCOPES) && matches SCOPE_NAME area) ||
       (bool_decide (head parts' = Some ("sites" : jstring)) && (2 <=? length tail) &&
        memb (nth 1 tail []) PRINCIPAL_SITE_AREAS))
  end.

Definition pathParts (path : jstring) : list jstring :=
  filter (fun part => part <> []) (split 47 path).

Definition principalViolation (resolved : jstring) (config : PolicyConfig) : option Violation :=
  match find (within resolved) (principalRoots config) with
  | None => None
  | Some root =>
      if principalAllowed (pathParts (drop (length root) resolved)) then None
      else Some (brokeAt "bind-principal-path" resolved)
  end.

Definition bindViolation (resolved : jstring) (config : PolicyConfig) : option Violation :=
  if decide (resolved = "/") then Some (brokeAt "bind-host-root" resolved)
  else if memb resolved (dockerSockets config)
  then Some (brokeAt "bind-docker-socket" resolved)
  else if existsb (within resolved) (denyPrefixes config)
  then Some (brokeAt "bind-forbidden-path" resolved)
  else if negb (existsb (within resolved) (bindRoots config))
  then Some (brokeAt "bind-outside-roots" resolved)
  else principalViolation resolved config.

Record BindEntry := { bsource : jstring; breadOnly : bool }.
Record BindOutcome := { oviolation : option Violation; oallowance : option jstring }.
Definition noOutcome : BindOutcome := {| oviolation := None; oallowance := None |}.

Record BindContext := {
  bconfig : PolicyConfig;
  bresolve : jstring -> fallible jstring;
  bplatform : bool;
  bingress : bool
}.

Definition isIngressSocketBind (resolved : jstring) (entry : BindEntry) (ctx : BindContext) : bool :=
  bingress ctx && breadOnly entry && bool_decide (resolved = ingressSocketDir (bconfig ctx)).

Definition platformOutcome (resolved : jstring) (entry : BindEntry) (ctx : BindContext)
    : option BindOutcome :=
  if negb (bplatform ctx) then None
  else
    match platformBindVerdict resolved (breadOnly entry) (platformRoots (bconfig ctx)) with
    | Some BindAllowed =>
        Some {| oviolation := None; oallowance := Some ("platform-bind" : jstring) |}
    | Some ConfigWritable =>
        Some {| oviolation := Some (brokeAt "platform-config-writable" resolved);
                oallowance := None |}
    | None => None
    end.

(** A resolver that rejects leaves the source as written. *)
Definition resolvedSource (source : jstring) (resolve : jstring -> fallible jstring) : jstring :=
  match resolve source with
  | Ok p => normalizeAbsolute p
  | Throw _ => normalizeAbsolute source
  end.

Definition checkBindSource (entry : BindEntry) (ctx : BindContext) : BindOutcome :=
  let source := bsource entry in
  if negb (startsWith "/" source) then noOutcome
  else if negb (pathIsCanonical source) then
    {| oviolation := Some (brokeAt "bind-noncanonical-path" (normalizeAbsolute source));
       oallowance := None |}
  else
    let resolved := resolvedSource source (bresolve ctx) in
    if isIngressSocketBind resolved entry ctx then
      {| oviolation := None; oallowance := Some ("ingress-socket" : jstring) |}
    else
      match platformOutcome resolved entry ctx with
      | Some outcome => outcome
      | None => {| oviolation := bindViolation resolved (bconfig ctx); oallowance := None |}
      end.

(** The third [:] part of a bind string, split at commas. *)
Definition bindOptions (spec : jstring) : list jstring :=
  split 44 (nth 2 (split 58 spec) []).

Definition bindIsReadOnly (spec : jstring) : bool := memb ("ro" : jstring) (bindOptions spec).

Definition mountList (hostConfig : entries) : list jval :=
  match field hostConfig "Mounts" with Some (JArr l) => l | _ => [] end.

Definition isTrue (v : option jval) : bool :=
  match v with Some (JBool true) => true | _ => false end.
Definition isString (v : option jval) (s : jstring) : bool :=
  match v with Some (JStr t) => bool_decide (t = s) | _ => false end.

Definition mountBind (mount : jval) : option BindEntry :=
  match mount with
  | JObj m =>
      if isString (field m "Type") "bind" then
        Some {| bsource := textOf (field m "Source"); breadOnly := isTrue (field m "ReadOnly") |}
      else None
  | _ => None
  end.

(** Every bind the HostConfig asks for, as authored. *)
Definition bindEntries (hostConfig : entries) : list BindEntry :=
  map (fun bind => {| bsource := nth 0 (split 58 bind) []; breadOnly := bindIsReadOnly bind |})
    (stringList (field hostConfig "Binds")) ++
  omap mountBind (mountList hostConfig).

(** ** Volumes *)

Definition isLocalDriver (name : option jval) : bool :=
  match name with
  | None | Some JNull => true
  | Some (JStr s) => memb s [[]; "local"]
  | _ => false
  end.

Definition driverViolation (name : option jval) : option Violation :=
  if isLocalDriver name then None
  else Some (brokeAt "volume-driver" (match name with Some (JStr s) => s | _ => "<non-string>" end)).

Record VolumeMount := { mdevice : jstring; mtype : jstring; mbinds : bool; mpresent : bool }.

Definition volumeMountOptions (opts : option jval) : VolumeMount :=
  match opts with
  | Some (JObj o) =>
      let device := textOf (field o "device") in
      let type := textOf (field o "type") in
      let options := map trim (split 44 (textOf (field o "o"))) in
      {| mdevice := device; mtype := type;
         mbinds := existsb (fun x => memb x ["bind"; "rbind"]) options ||
                  bool_decide (type = "none");
         mpresent := bool_decide (device <> []) || bool_decide (type <> []) ||
                     existsb (fun x => bool_decide (x <> [])) options |}
  | _ => {| mdevice := []; mtype := []; mbinds := false; mpresent := false |}
  end.

Definition checkVolumeDevice (opts : option jval) (config : PolicyConfig)
    (resolve : jstring -> fallible jstring) : list Violation :=
  let mount := volumeMountOptions opts in
  if negb (mpresent mount) then []
  else if mbinds mount && startsWith "/" (mdevice mount) then
    let outcome :=
      checkBindSource {| bsource := mdevice mount; breadOnly := false |}
        {| bconfig := config; bresolve := resolve; bplatform := false; bingress := false |} in
    match oviolation outcome with
    | None => []
    | Some v => [{| vrule := ("volume-" : jstring) ++ vrule v; vdetail := vdetail v |}]
    end
  else if startsWith "/" (mdevice mount) then [brokeAt "volume-device" (mdevice mount)]
  else if mbinds mount || negb (bool_decide (mtype mount = "tmpfs")) then
    [brokeAt "volume-mount-type" (if decide (mtype mount = []) then "<none>" else mtype mount)]
  else [].

(** Every [Mounts] entry of type volume: its driver name and options. *)
Definition volumeMounts (hostConfig : entries) : list (option jval * option jval) :=
  omap (fun mount =>
    match mount with
    | JObj m =>
        if isString (field m "Type") "volume" then
          let config :=
            default [] (asRecord (asRecord (field m "VolumeOptions") ≫= fun o =>
                                  field o "DriverConfig")) in
          Some (field config "Name", field config "Options")
        else None
    | _ => None
    end) (mountList hostConfig).

(** ** Mount kinds and options *)

Definition SAFE_MOUNT_TYPES : list jstring := ["bind"; "volume"; "tmpfs"].
Definition SAFE_PROPAGATION : list jstring := [[]; "private"; "rprivate"].
Definition SHARED_PROPAGATION : list jstring := ["shared"; "rshared"; "slave"; "rslave"].

Definition checkBindStrings (hostConfig : entries) : list Violation :=
  map (fun _ => broke "bind-propagation")
    (filter (fun bind => existsb (fun o => memb o SHARED_PROPAGATION) (bindOptions bind))
       (stringList (field hostConfig "Binds"))).

Definition checkMountEntry (mount : entries) : list Violation :=
  match field mount "Type" with
  | Some (JStr type) =>
      if memb type SAFE_MOUNT_TYPES then [] else [brokeAt "mount-type" (fieldDetail type)]
  | _ => [brokeAt "mount-type" "<non-string>"]
  end ++
  let propagation :=
    match field mount "BindOptions" with
    | Some (JObj o) => orEmpty (field o "Propagation")
    | _ => JStr []
    end in
  match propagation with
  | JStr p => if memb p SAFE_PROPAGATION then [] else [broke "bind-propagation"]
  | _ => [broke "bind-propagation"]
  end.

Definition mountRecords (hostConfig : entries) : list entries :=
  omap (fun m => match m with JObj o => Some o | _ => None end) (mountList hostConfig).

Definition checkMountKinds (hostConfig : entries) : list Violation :=
  checkBindStrings hostConfig ++ (mountRecords hostConfig ≫= checkMountEntry).

Definition subpathViolation (mount : entries) : list Violation :=
  let subpath :=
    match field mount "VolumeOptions" with
    | Some (JObj o) => orEmpty (field o "Subpath")
    | _ => JStr []
    end in
  match subpath with
  | JStr s =>
      if decide (s = []) then []
      else if startsWith "/" s || memb (".." : jstring) (split 47 s)
      then [broke "volume-subpath"] else []
  | _ => [broke "volume-subpath"]
  end.

Definition SAFE_TMPFS_OPTIONS : list jstring :=
  ["noexec"; "exec"; "nosuid"; "nodev"; "ro"; "rw"].

Section Policy.
Context `{tables : !JsTables}.

(** [String(value)]: an object whose own [toString] is not a function cannot
    be converted. *)
Definition toStringError : gate_error :=
  OtherErr "TypeError" "Cannot convert object to primitive value".
Fixpoint jsText (v : jval) : fallible jstring :=
  match v with
  | JNull => Ok ("null" : jstring)
  | JBool true => Ok ("true" : jstring)
  | JBool false => Ok ("false" : jstring)
  | JNum n => Ok (number_text n)
  | JStr s => Ok s
  | JArr items =>
      let fix texts (l : list jval) : fallible (list jstring) :=
        match l with
        | [] => Ok []
        | v :: l' =>
            t ← (match v with JNull => Ok ("" : jstring) | _ => jsText v end);
            ts ← texts l'; Ok (t :: ts)
        end in
      join "," <$> texts items
  | JObj o =>
      match getEntry o "toString" with
      | Some _ => Throw toStringError
      | None => Ok ("[object Object]" : jstring)
      end
  end.

(** Whether one tmpfs option is a finding: [option[0]] of a missing first
    element reads [undefined]. *)
Definition tmpfsOptionUnsafe (option : jval) : fallible bool :=
  match option with
  | JArr [] => Ok true
  | JArr (first :: _) => t ← jsText first; Ok (negb (memb t SAFE_TMPFS_OPTIONS))
  | _ => Ok true
  end.

Fixpoint unsafeOptions (options : list jval) : fallible (list Violation) :=
  match options with
  | [] => Ok []
  | o :: os =>
      b ← tmpfsOptionUnsafe o; vs ← unsafeOptions os;
      Ok (if b : bool then broke "tmpfs-options" :: vs else vs)
  end.

Definition tmpfsOptionViolations (mount : entries) : fallible (list Violation) :=
  match field mount "TmpfsOptions" with
  | Some (JObj o) =>
      match field o "Options" with
      | None | Some JNull => Ok []
      | Some (JArr options) => unsafeOptions options
      | Some _ => Ok [broke "tmpfs-options"]
      end
  | _ => Ok []
  end.

Fixpoint mountOptionFindings (mounts : list entries) : fallible (list Violation) :=
  match mounts with
  | [] => Ok []
  | m :: ms =>
      tmpfs ← tmpfsOptionViolations m; rest ← mountOptionFindings ms;
      Ok (subpathViolation m ++ tmpfs ++ rest)
  end.

Definition checkMountOptions (hostConfig : entries) : fallible (list Violation) :=
  mountOptionFindings (mountRecords hostConfig).

Record Verdict := { violations : list Violation; allowances : list jstring }.

Definition checkMounts (hostConfig : entries) (ctx : BindContext) : fallible Verdict :=
  let outcomes := map (fun e => checkBindSource e ctx) (bindEntries hostConfig) in
  let mounts := volumeMounts hostConfig in
  options ← checkMountOptions hostConfig;
  Ok {| violations :=
          omap oviolation outcomes ++
          option_list (driverViolation (field hostConfig "VolumeDriver")) ++
          omap (fun m => driverViolation m.1) mounts ++
          (mounts ≫= fun m => checkVolumeDevice m.2 (bconfig ctx) (bresolve ctx)) ++
          options;
        allowances := omap oallowance outcomes |}.

(** ** Security options and namespaces *)

Definition SECURITY_OPT_WORDS : list jstring :=
  ["seccomp"; "apparmor"; "label"; "systempaths"; "no-new-privileges"].

(** [WEAKENING_SECURITY_OPTS]: one of the words, then a word boundary. *)
Definition weakensSecurity (option : jstring) : bool :=
  existsb (fun w => startsWith w option &&
    match drop (length w) option with [] => true | c :: _ => negb (is_word c) end)
    SECURITY_OPT_WORDS.

Definition is_opt_sep (c : N) : bool := (c =? 61)%N || (c =? 58)%N.

Definition securityOptDetail (option : jstring) : jstring :=
  let key := takeWhile (fun c => negb (is_opt_sep c)) option in
  let value := takeWhile (fun c => negb (is_opt_sep c)) (drop (S (length key)) option) in
  if memb value ["unconfined"; "disable"; "false"; "true"; "default"]
  then key ++ ("=" : jstring) ++ value else key ++ ("=<value>" : jstring).

Definition isSafeSecurityOpt (option : jstring) : bool :=
  memb option ["no-new-privileges"; "no-new-privileges=true"; "no-new-privileges:true"].

Definition checkSecurityOpt (hostConfig : entries) : list Violation :=
  map (fun option =>
    brokeAt (if weakensSecurity option then "security-opt-weakened" else "security-opt-unknown")
      (securityOptDetail option))
    (filter (fun option => isSafeSecurityOpt option = false)
      (stringList (field hostConfig "SecurityOpt"))).

Definition namespaceViolation (name : jstring) (mode : option jval) : option Violation :=
  match mode with
  | Some (JStr m) =>
      if decide (m = "host") then Some (brokeAt (name ++ ("-host" : jstring)) m)
      else if startsWith "container:" m
      then Some (brokeAt (name ++ ("-container" : jstring)) "container:<id>")
      else None
  | _ => None
  end.

Definition NAMESPACE_FIELDS : list (jstring * jstring) :=
  [("network-mode", "NetworkMode"); ("pid-mode", "PidMode"); ("ipc-mode", "IpcMode");
   ("userns-mode", "UsernsMode"); ("uts-mode", "UTSMode"); ("cgroupns-mode", "CgroupnsMode")]%js.

Definition checkNamespaces (hostConfig : entries) : list Violation :=
  omap (fun p => namespaceViolation p.1 (field hostConfig p.2)) NAMESPACE_FIELDS.

(** ** HostConfig fields *)

Definition BANNED_HOSTCONFIG_FIELDS : list (jstring * jstring) :=
  [("Devices", "devices"); ("DeviceCgroupRules", "device-cgroup-rules");
   ("DeviceRequests", "device-requests"); ("CgroupParent", "cgroup-parent");
   ("Sysctls", "sysctls"); ("VolumesFrom", "volumes-from"); ("Cgroup", "cgroup-join");
   ("Links", "links"); ("Annotations", "annotations")]%js.
Definition BANNED_IF_SENT : list (jstring * jstring) :=
  [("MaskedPaths", "masked-paths"); ("ReadonlyPaths", "readonly-paths")]%js.
Definition BANNED_IF_POSITIVE : list (jstring * jstring) :=
  [("CpuRealtimePeriod", "cpu-realtime"); ("CpuRealtimeRuntime", "cpu-realtime")]%js.

Definition BENIGN_HOSTCONFIG_FIELDS : list jstring :=
  ["AutoRemove"; "BlkioDeviceReadBps"; "BlkioDeviceReadIOps"; "BlkioDeviceWriteBps";
   "BlkioDeviceWriteIOps"; "BlkioWeight"; "BlkioWeightDevice"; "CapDrop"; "ConsoleSize";
   "ContainerIDFile"; "CpuCount"; "CpuPercent"; "CpuPeriod"; "CpuQuota"; "CpuShares";
   "CpusetCpus"; "CpusetMems"; "Dns"; "DnsOptions"; "DnsSearch"; "ExtraHosts";
   "IOMaximumBandwidth"; "IOMaximumIOps"; "Init"; "Isolation"; "KernelMemoryTCP"; "Memory";
   "MemoryReservation"; "MemorySwap"; "MemorySwappiness"; "NanoCpus"; "OomKillDisable";
   "PidsLimit"; "PortBindings"; "PublishAllPorts"; "ReadonlyRootfs"; "RestartPolicy";
   "ShmSize"; "StorageOpt"; "Tmpfs"; "Ulimits"].

Definition RULED_HOSTCONFIG_FIELDS : list jstring :=
  map fst BANNED_HOSTCONFIG_FIELDS ++ map fst BANNED_IF_SENT ++ map fst BANNED_IF_POSITIVE ++
  ["Binds"; "CapAdd"; "Capabilities"; "CgroupnsMode"; "GroupAdd"; "IpcMode"; "LogConfig";
   "Mounts"; "NetworkMode"; "OomScoreAdj"; "PidMode"; "Privileged"; "Runtime"; "SecurityOpt";
   "UTSMode"; "UsernsMode"; "VolumeDriver"].

Definition SAFE_LOG_DRIVERS : list jstring := [[]; "json-file"; "local"; "none"].

Definition checkLogConfig (hostConfig : entries) : list Violation :=
  match field hostConfig "LogConfig" with
  | Some (JObj logConfig) =>
      match orEmpty (field logConfig "Type") with
      | JStr type => if memb type SAFE_LOG_DRIVERS then [] else [brokeAt "log-driver" type]
      | _ => [brokeAt "log-driver" "<non-string>"]
      end
  | _ => []
  end.

Definition checkUnknownFields (hostConfig : entries) : list Violation :=
  map (fun key => brokeAt "hostconfig-unknown-field" (fieldDetail key))
    (filter (fun key => key ∉ BENIGN_HOSTCONFIG_FIELDS /\ key ∉ RULED_HOSTCONFIG_FIELDS)
      (ownKeys hostConfig)).

Definition isPositive (v : option jval) : bool :=
  match v with Some (JNum n) => num_positive n | _ => false end.
Definition isSent (v : option jval) : bool :=
  match v with None | Some JNull => false | _ => true end.

Definition checkPresentFields (hostConfig : entries) : list Violation :=
  omap (fun p => if isPresent (field hostConfig p.1) then Some (broke p.2) else None)
    BANNED_HOSTCONFIG_FIELDS ++
  omap (fun p => if isSent (field hostConfig p.1) then Some (broke p.2) else None)
    BANNED_IF_SENT ++
  omap (fun p => if isPositive (field hostConfig p.1) then Some (broke p.2) else None)
    BANNED_IF_POSITIVE.

Definition NUMERIC_GID : regex := RCat (RSet (in_range 49 57)) (RUpTo 9 (RSet is_digit)).

Definition checkGroupAdd (hostConfig : entries) (platform : bool) : list Violation :=
  match stringList (field hostConfig "GroupAdd") with
  | [] => []
  | groups => if platform && forallb (matches NUMERIC_GID) groups then [] else [broke "group-add"]
  end.

Definition checkScalarFields (hostConfig : entries) : list Violation :=
  (if isTrue (field hostConfig "Privileged") then [broke "privileged"] else []) ++
  (match field hostConfig "OomScoreAdj" with
   | Some (JNum n) => if num_negative n then [broke "oom-score-adj"] else []
   | _ => []
   end) ++
  (match field hostConfig "Runtime" with
   | Some (JStr r) => if memb r [[]; "runc"] then [] else [brokeAt "runtime" r]
   | _ => []
   end).

Definition capName (cap : jstring) : jstring :=
  let upper := toUpperCase unicode_upper cap in
  if startsWith "CAP_" upper then drop 4 upper else upper.

Definition checkCapabilities (hostConfig : entries) (config : PolicyConfig) : list Violation :=
  map (fun name => brokeAt "cap-add" name)
    (filter (fun name => name ∉ capAllowlist config)
      (map capName (stringList (field hostConfig "CapAdd") ++
                    stringList (field hostConfig "Capabilities")))).

Definition checkHostConfigFlags (hostConfig : entries) (config : PolicyConfig) (platform : bool)
    : list Violation :=
  checkScalarFields hostConfig ++ checkGroupAdd hostConfig platform ++
  checkPresentFields hostConfig ++ checkCapabilities hostConfig config ++
  checkLogConfig hostConfig ++ checkUnknownFields hostConfig.

(** ** Judging a request *)

Definition plain (vs : list Violation) : Verdict := {| violations := vs; allowances := [] |}.

Definition evaluateContainerCreate (body : option jval) (config : PolicyConfig)
    (resolve : jstring -> fallible jstring) : fallible Verdict :=
  match body with
  | Some (JObj b) =>
      let hostConfig := default [] (asRecord (field b "HostConfig")) in
      let labels := labelsOf (field b "Labels") in
      let platform := isPlatformContainer labels in
      mounts ← checkMounts hostConfig
        {| bconfig := config; bresolve := resolve; bplatform := platform;
           bingress := isIngressContainer labels |};
      Ok {| violations :=
              checkHostConfigFlags hostConfig config platform ++ checkNamespaces hostConfig ++
              checkSecurityOpt hostConfig ++ checkMountKinds hostConfig ++ violations mounts;
            allowances := allowances mounts |}
  | _ => Ok (plain [broke "body-unparseable"])
  end.

(** [StartDoc]: the pieces of an inspect answer the start check judges. *)
Record ContainerDoc := {
  dlabels : Labels;
  dhostConfig : entries;
  dmounts : list jval
}.

(** Findings renamed for the start check, each (rule, detail) once. *)
Fixpoint startRules (seen : list jstring) (vs : list Violation) : list Violation :=
  match vs with
  | [] => []
  | v :: vs' =>
      let key := vrule v ++ 0%N :: default [] (vdetail v) in
      if memb key seen then startRules seen vs'
      else {| vrule := ("start-" : jstring) ++ vrule v; vdetail := vdetail v |}
           :: startRules (key :: seen) vs'
  end.

Definition evaluateStartBinds (doc : ContainerDoc) (config : PolicyConfig)
    (resolve : jstring -> fallible jstring) : fallible Verdict :=
  let hostConfig :=
    setEntry "Mounts" (JArr (mountList (dhostConfig doc) ++ dmounts doc)) (dhostConfig doc) in
  result ← checkMounts hostConfig
    {| bconfig := config; bresolve := resolve;
       bplatform := isPlatformContainer (dlabels doc);
       bingress := isIngressContainer (dlabels doc) |};
  Ok {| violations := startRules [] (violations result); allowances := allowances result |}.

Definition evaluateExecCreate (body : option jval) : list Violation :=
  match body with
  | Some (JObj b) => if isTrue (field b "Privileged") then [broke "exec-privileged"] else []
  | _ => [broke "body-unparseable"]
  end.

Definition SAFE_NETWORK_DRIVERS : list jstring := [[]; "bridge"].

Definition evaluateNetworkCreate (body : option jval) : list Violation :=
  match body with
  | Some (JObj b) =>
      let driver := textOf (field b "Driver") in
      if memb driver SAFE_NETWORK_DRIVERS then [] else [brokeAt "network-driver" driver]
  | _ => [broke "body-unparseable"]
  end.

Definition evaluateVolumeCreate (body : option jval) (config : PolicyConfig)
    (resolve : jstring -> fallible jstring) : list Violation :=
  match body with
  | Some (JObj b) =>
      match driverViolation (field b "Driver") with
      | Some v => [v]
      | None => checkVolumeDevice (field b "DriverOpts") config resolve
      end
  | _ => [broke "body-unparseable"]
  end.

Definition evaluateBuild (q : query) : list Violation :=
  (if bool_decide (queryGet q "networkmode" = Some ("host" : jstring))
   then [broke "build-host-network"] else []) ++
  (if bool_decide (default [] (queryGet q "cgroupparent") <> [])
   then [broke "build-cgroup-parent"] else []).

Definition evaluateByRoute (r : Route) (facts : RequestFacts) (config : PolicyConfig)
    (resolve : jstring -> fallible jstring) : fallible Verdict :=
  match r with
  | ContainersCreate => evaluateContainerCreate (fbody facts) config resolve
  | ContainersExecCreate => Ok (plain (evaluateExecCreate (fbody facts)))
  | NetworksCreate => Ok (plain (evaluateNetworkCreate (fbody facts)))
  | VolumesCreate => Ok (plain (evaluateVolumeCreate (fbody facts) config resolve))
  | Build => Ok (plain (evaluateBuild (fquery facts)))
  | ArchivePut => Ok (plain [broke "archive-put"])
  | Unclassified => Ok (plain [broke "unclassified-route"])
  | RestrictedGroup =>
      Ok (plain [brokeAt "restricted-api-group" (firstSegment (fpath facts))])
  | _ => Ok (plain [])
  end.

(** Every strict-profile rule this request would break, and which platform
    allowances removed a finding. *)
Definition evaluateDetailed (facts : RequestFacts) (config : PolicyConfig)
    (resolve : jstring -> fallible jstring) : fallible Verdict :=
  let out :=
    (if pathIsCanonical (fpath facts) then [] else [broke "path-noncanonical"]) ++
    (if versionPrefixIsCanonical (fpath facts) then [] else [broke "path-version-prefix"]) ++
    (if fformBody facts then [broke "form-encoded-body"] else []) in
  match fbodyError facts with
  | Some e => Ok (plain (out ++ [brokeAt "body-unparseable" e]))
  | None =>
      found ← evaluateByRoute (route (classifyRoute (fmethod facts) (fpath facts)))
                facts config resolve;
      Ok {| violations := out ++ violations found; allowances := allowances found |}
  end.

Definition evaluateRequest (facts : RequestFacts) (config : PolicyConfig)
    (resolve : jstring -> fallible jstring) : fallible (list Violation) :=
  violations <$> evaluateDetailed facts config resolve.
End Policy.
