(* ===== verification/GateProfile.v ===== *)
(** * What a clean verdict means

    The strict profile stated as properties of the create body, independently
    of the checks, and the theorems that a request without findings has them. *)

From S2P Require Import Prelude Regex Text Json GateHttp GateBody GateResolve GatePlatform.
From S2P Require Import GateRoutes GatePolicy.

(** ** Paths *)

(** [path] is [root] or lies below it. *)
Definition under (path root : jstring) : Prop :=
  root = "/" \/ path = root \/ exists t, path = root ++ 47%N :: t.

Lemma within_under path root : within path root = true <-> under path root.
Proof.
  unfold within, under. case_decide; [naive_solver |].
  rewrite orb_true_iff, bool_decide_eq_true, startsWith_spec. split.
  - intros [-> | [t ->]]; [naive_solver |]. right. right. exists t. by rewrite <- app_assoc.
  - intros [? | [-> | [t ->]]]; [done | by left |]. right. exists t. by rewrite <- app_assoc.
Qed.

(** ** Safe binds *)

Section Binds.
Context (config : PolicyConfig) (resolve : jstring -> fallible jstring).

(** What the strict profile lets any container bind. *)
Definition tenant_path (p : jstring) : Prop :=
  p <> "/" /\ p ∉ dockerSockets config /\
  (forall d, d ∈ denyPrefixes config -> ~ under p d) /\
  (exists r, r ∈ bindRoots config /\ under p r) /\
  (forall r, find (within p) (principalRoots config) = Some r ->
     principalAllowed (pathParts (drop (length r) p)) = true).

(** What a platform container may bind besides: a config tree read-only, a
    state tree in any mode. *)
Definition platform_path (p : jstring) (readOnly : bool) : Prop :=
  (exists r, r ∈ roReadOnly (platformRoots config) /\ PlatformPath.within p r = true /\
     readOnly = true) \/
  (exists r, r ∈ roWritable (platformRoots config) /\ PlatformPath.within p r = true).

Definition safe_bind (platform ingress : bool) (e : BindEntry) : Prop :=
  startsWith "/" (bsource e) = false \/
  (pathIsCanonical (bsource e) = true /\
   let p := resolvedSource (bsource e) resolve in
   tenant_path p \/
   (platform = true /\ platform_path p (breadOnly e)) \/
   (ingress = true /\ breadOnly e = true /\ p = ingressSocketDir config)).

Lemma bindViolation_None p : bindViolation p config = None -> tenant_path p.
Proof.
  unfold bindViolation, tenant_path. case_decide; [done |].
  destruct (memb p (dockerSockets config)) eqn:Hs; [done |].
  destruct (existsb (within p) (denyPrefixes config)) eqn:Hd; [done |].
  destruct (existsb (within p) (bindRoots config)) eqn:Hb; [| done]. simpl. intros Hp.
  split_and!; [done | by apply memb_false | | |].
  - intros d Hin Hu. apply within_under in Hu. apply existsb_false_iff in Hd.
    rewrite Forall_forall in Hd. by rewrite Hd in Hu.
  - apply existsb_true_iff in Hb as (r & Hr & Hw). exists r. by rewrite <- within_under.
  - intros r Hr. unfold principalViolation in Hp. rewrite Hr in Hp. by case_match.
Qed.

Lemma platformBindVerdict_allowed p ro :
  platformBindVerdict p ro (platformRoots config) = Some BindAllowed -> platform_path p ro.
Proof.
  unfold platformBindVerdict, platform_path.
  destruct (existsb _ (roReadOnly _)) eqn:Hr.
  - destruct ro; [| done]. intros _. left.
    apply existsb_true_iff in Hr as (r & ? & ?). eauto.
  - destruct (existsb _ (roWritable _)) eqn:Hw; [| done]. intros _. right.
    apply existsb_true_iff in Hw as (r & ? & ?). eauto.
Qed.

Lemma checkBindSource_safe platform ingress e :
  oviolation (checkBindSource e {| bconfig := config; bresolve := resolve;
                                   bplatform := platform; bingress := ingress |}) = None ->
  safe_bind platform ingress e.
Proof.
  unfold checkBindSource, safe_bind. cbn [bconfig bresolve].
  destruct (startsWith "/" (bsource e)) eqn:Hs; [| by left]. cbn [negb].
  destruct (pathIsCanonical (bsource e)) eqn:Hc; [| done]. cbn [negb]. right.
  split; [done |]. cbv zeta. set (p := resolvedSource _ _) in *.
  unfold isIngressSocketBind, platformOutcome in *.
  cbn [bconfig bresolve bplatform bingress] in *.
  destruct (ingress && breadOnly e && bool_decide (p = ingressSocketDir config)) eqn:Hi.
  { bools. right. right. done. }
  destruct platform; cbn [negb] in *; [| intros; left; by apply bindViolation_None].
  destruct (platformBindVerdict p (breadOnly e) (platformRoots config)) as [[] |] eqn:Hv.
  - right. left. split; [done |]. by apply platformBindVerdict_allowed.
  - done.
  - intros. left. by apply bindViolation_None.
Qed.

(** ** Safe volume options *)

(** Driver options that mount nothing of the host's beyond what a bind may:
    no options, a tmpfs, or a bind of a path a tenant may bind. *)
Definition safe_volume_options (opts : option jval) : Prop :=
  let m := volumeMountOptions opts in
  mpresent m = false \/
  (mbinds m = false /\ startsWith "/" (mdevice m) = false /\ mtype m = "tmpfs") \/
  (mbinds m = true /\ startsWith "/" (mdevice m) = true /\
   pathIsCanonical (mdevice m) = true /\ tenant_path (resolvedSource (mdevice m) resolve)).

Lemma checkVolumeDevice_safe opts :
  checkVolumeDevice opts config resolve = [] -> safe_volume_options opts.
Proof.
  unfold checkVolumeDevice, safe_volume_options.
  set (m := volumeMountOptions opts). cbv zeta.
  destruct (mpresent m) eqn:Hp; [| by left]. cbn [negb]. intros H. right.
  destruct (mbinds m) eqn:Hb; destruct (startsWith "/" (mdevice m)) eqn:Hd; cbn [andb] in H.
  - right. destruct (oviolation _) eqn:Hv in H; [done |].
    apply checkBindSource_safe in Hv as [Hv | [Hc [Hv | [[? _] | [? _]]]]]; try done.
    simpl in Hv. simpl in Hd. congruence.
  - done.
  - done.
  - left. case_bool_decide; [done |]. done.
Qed.
End Binds.

(** ** The profile of a container *)

Lemma map_filter_nil {A B} (f : A -> B) (P : A -> Prop) `{!forall x, Decision (P x)} l :
  map f (filter P l) = [] <-> Forall (fun x => ~ P x) l.
Proof.
  induction l as [| x l IH]; simpl; [split; [constructor | done] |].
  rewrite Forall_cons, filter_cons. case_decide; [naive_solver |]. rewrite IH. naive_solver.
Qed.

(** Split an empty concatenation into its empty parts. *)
Ltac split_nil :=
  repeat match goal with
  | H : _ ++ _ = [] |- _ => apply app_nil in H as [? ?]
  end.

Section Profile.
Context `{tables : !JsTables} (config : PolicyConfig) (resolve : jstring -> fallible jstring).

(** The host-level reach a HostConfig does not have. *)
Record contained (platform ingress : bool) (hc : entries) : Prop := {
  (** flags *)
  not_privileged : field hc "Privileged" <> Some (JBool true);
  oom_not_protected : forall n, field hc "OomScoreAdj" = Some (JNum n) -> num_negative n = false;
  default_runtime : forall r, field hc "Runtime" = Some (JStr r) -> r = [] \/ r = "runc";
  groups_numeric : forall g, g ∈ stringList (field hc "GroupAdd") ->
    platform = true /\ matches NUMERIC_GID g = true;
  caps_allowed : forall c, c ∈ stringList (field hc "CapAdd") ++ stringList (field hc "Capabilities") ->
    capName c ∈ capAllowlist config;
  banned_absent : forall f, f ∈ map fst BANNED_HOSTCONFIG_FIELDS -> isPresent (field hc f) = false;
  paths_masked : forall f, f ∈ map fst BANNED_IF_SENT ->
    field hc f = None \/ field hc f = Some JNull;
  no_realtime : forall f n, f ∈ map fst BANNED_IF_POSITIVE -> field hc f = Some (JNum n) ->
    num_positive n = false;
  keys_known : forall k, k ∈ ownKeys hc ->
    k ∈ BENIGN_HOSTCONFIG_FIELDS \/ k ∈ RULED_HOSTCONFIG_FIELDS;
  log_local : forall lc, field hc "LogConfig" = Some (JObj lc) ->
    exists t, orEmpty (field lc "Type") = JStr t /\ t ∈ SAFE_LOG_DRIVERS;
  (** namespaces *)
  namespaces_own : forall r f m, (r, f) ∈ NAMESPACE_FIELDS -> field hc f = Some (JStr m) ->
    m <> "host" /\ startsWith "container:" m = false;
  security_kept : forall o, o ∈ stringList (field hc "SecurityOpt") -> isSafeSecurityOpt o = true;
  (** mounts *)
  binds_safe : forall e, e ∈ bindEntries hc -> safe_bind config resolve platform ingress e;
  no_shared_binds : forall b o, b ∈ stringList (field hc "Binds") -> o ∈ bindOptions b ->
    o ∉ SHARED_PROPAGATION;
  mounts_safe : forall m, m ∈ mountRecords hc -> checkMountEntry m = [] /\ subpathViolation m = [];
  default_driver_local : isLocalDriver (field hc "VolumeDriver") = true;
  volumes_local : forall d o, (d, o) ∈ volumeMounts hc ->
    isLocalDriver d = true /\ safe_volume_options config resolve o
}.

Lemma checkMounts_safe hc platform ingress v :
  checkMounts hc {| bconfig := config; bresolve := resolve; bplatform := platform;
                    bingress := ingress |} = Ok v ->
  violations v = [] ->
  (forall e, e ∈ bindEntries hc -> safe_bind config resolve platform ingress e) /\
  isLocalDriver (field hc "VolumeDriver") = true /\
  (forall d o, (d, o) ∈ volumeMounts hc ->
     isLocalDriver d = true /\ safe_volume_options config resolve o) /\
  (forall m, m ∈ mountRecords hc -> subpathViolation m = []).
Proof.
  assert (forall d, driverViolation d = None -> isLocalDriver d = true) as Hdrv.
  { intros d. unfold driverViolation. by case_match. }
  unfold checkMounts. cbv zeta. intros H Hv. ok_inv. subst v.
  cbn [violations bconfig bresolve] in Hv. split_nil. split_and!.
  - intros e He. apply omap_nil in H. rewrite Forall_forall in H.
    apply checkBindSource_safe, H, list_elem_of_fmap. eauto.
  - apply Hdrv. by destruct (driverViolation _).
  - intros d o Hdo. apply omap_nil in H1. apply bind_nil in H2. rewrite Forall_forall in *.
    split; [by apply Hdrv, (H1 _ Hdo) |]. apply checkVolumeDevice_safe, (H2 _ Hdo).
  - intros m Hm. unfold checkMountOptions in E. clear -E H3 Hm. subst a.
    revert E Hm. generalize (mountRecords hc). induction l as [| m' l IH]; [set_solver |].
    cbn. intros E Hm. ok_inv. split_nil. apply elem_of_cons in Hm as [-> | Hm]; [done |].
    apply IH; [| done]. congruence.
Qed.

Lemma checkGroupAdd_safe hc platform g :
  checkGroupAdd hc platform = [] -> g ∈ stringList (field hc "GroupAdd") ->
  platform = true /\ matches NUMERIC_GID g = true.
Proof.
  unfold checkGroupAdd. destruct (stringList _) as [| x xs] eqn:E; [set_solver |].
  destruct (platform && _) eqn:Hb; [| done]. intros _ Hg. bools. split; [done |].
  match goal with H : forallb _ _ = true |- _ => rewrite forallb_forall in H; apply H end.
  by apply list_elem_of_In.
Qed.

Lemma checkPresentFields_safe hc :
  checkPresentFields hc = [] ->
  (forall f, f ∈ map fst BANNED_HOSTCONFIG_FIELDS -> isPresent (field hc f) = false) /\
  (forall f, f ∈ map fst BANNED_IF_SENT -> isSent (field hc f) = false) /\
  (forall f, f ∈ map fst BANNED_IF_POSITIVE -> isPositive (field hc f) = false).
Proof.
  unfold checkPresentFields. intros H. split_nil.
  repeat match goal with H : omap _ _ = [] |- _ => apply omap_nil in H end.
  rewrite !Forall_forall in *.
  split_and!; intros f ([f' r] & -> & Hf)%list_elem_of_fmap;
    [specialize (H _ Hf) | specialize (H0 _ Hf) | specialize (H1 _ Hf)];
    cbn in *; by case_match.
Qed.

Lemma checkScalarFields_safe hc :
  checkScalarFields hc = [] ->
  field hc "Privileged" <> Some (JBool true) /\
  (forall n, field hc "OomScoreAdj" = Some (JNum n) -> num_negative n = false) /\
  (forall r, field hc "Runtime" = Some (JStr r) -> r = [] \/ r = "runc").
Proof.
  unfold checkScalarFields. intros Hn. split_nil. split_and!.
  - intros HP. by rewrite HP in *.
  - intros n HN. rewrite HN in *. by destruct (num_negative n).
  - intros r HR. rewrite HR in *. destruct (memb r _) eqn:Hm; [| done].
    apply memb_true in Hm. set_solver.
Qed.

Lemma checkNamespaces_safe hc r f m :
  checkNamespaces hc = [] -> (r, f) ∈ NAMESPACE_FIELDS -> field hc f = Some (JStr m) ->
  m <> "host" /\ startsWith "container:" m = false.
Proof.
  unfold checkNamespaces. rewrite omap_nil, Forall_forall. intros Hn Hin Hf.
  specialize (Hn _ Hin). cbn in Hn. rewrite Hf in Hn. unfold namespaceViolation in Hn.
  case_decide; [done |]. split; [done |]. by destruct (startsWith "container:" m).
Qed.

Lemma checkLogConfig_safe hc lc :
  checkLogConfig hc = [] -> field hc "LogConfig" = Some (JObj lc) ->
  exists t, orEmpty (field lc "Type") = JStr t /\ t ∈ SAFE_LOG_DRIVERS.
Proof.
  unfold checkLogConfig. intros Hn Hf. rewrite Hf in Hn.
  destruct (orEmpty _) as [| | | t | |]; try done.
  destruct (memb t SAFE_LOG_DRIVERS) eqn:Hm; [| done]. apply memb_true in Hm. eauto.
Qed.

Lemma checkMountKinds_safe hc :
  checkMountKinds hc = [] ->
  (forall b o, b ∈ stringList (field hc "Binds") -> o ∈ bindOptions b ->
     o ∉ SHARED_PROPAGATION) /\
  (forall m, m ∈ mountRecords hc -> checkMountEntry m = []).
Proof.
  unfold checkMountKinds, checkBindStrings. intros Hn. split_nil.
  rewrite map_filter_nil, bind_nil, !Forall_forall in *.
  split; [| done]. intros b o Hb Ho Hs. apply (H _ Hb).
  apply Is_true_true, existsb_true_iff. exists o. by rewrite memb_true.
Qed.

Lemma create_clean_contained b v :
  evaluateContainerCreate (Some (JObj b)) config resolve = Ok v ->
  violations v = [] ->
  contained (isPlatformContainer (labelsOf (field b "Labels")))
    (isIngressContainer (labelsOf (field b "Labels")))
    (default [] (asRecord (field b "HostConfig"))).
Proof.
  unfold evaluateContainerCreate. cbv zeta. intros Hv Hn. ok_inv. subst v.
  set (hc := default [] (asRecord (field b "HostConfig"))) in *.
  cbn [violations] in Hn. unfold checkHostConfigFlags in Hn. split_nil.
  destruct (checkMounts_safe _ _ _ _ E ltac:(assumption)) as (? & ? & ? & ?).
  destruct (checkMountKinds_safe hc ltac:(assumption)) as [? ?].
  destruct (checkPresentFields_safe hc ltac:(assumption)) as (? & Hsent & Hpos).
  destruct (checkScalarFields_safe hc ltac:(assumption)) as (? & ? & ?).
  constructor; try done.
  - intros g Hg. by eapply checkGroupAdd_safe.
  - unfold checkCapabilities in *. rewrite map_filter_nil, Forall_forall in *.
    intros c Hc. apply dec_stable.
    match goal with H : forall x, x ∈ map capName _ -> _ |- _ => apply H end.
    apply list_elem_of_fmap. eauto.
  - intros f Hf. specialize (Hsent f Hf). unfold isSent in Hsent.
    destruct (field hc f) as [[] |]; auto; done.
  - intros f n Hf Hn. specialize (Hpos f Hf). unfold isPositive in Hpos. by rewrite Hn in Hpos.
  - unfold checkUnknownFields in *. rewrite map_filter_nil, Forall_forall in *.
    intros k Hk. destruct (decide (k ∈ BENIGN_HOSTCONFIG_FIELDS)); [by left |]. right.
    apply dec_stable. intros ?. by match goal with H : forall x, x ∈ ownKeys _ -> _ |- _ => apply (H k Hk) end.
  - intros lc. by apply checkLogConfig_safe.
  - intros r f m. by apply checkNamespaces_safe.
  - unfold checkSecurityOpt in *. rewrite map_filter_nil, Forall_forall in *.
    intros o Ho. apply not_false_iff_true.
    by match goal with H : forall x, x ∈ stringList (field _ "SecurityOpt") -> _ |- _ => apply H end.
  - intros m Hm. split; auto.
Qed.
End Profile.

(** ** Requests *)

Section Requests.
Context `{tables : !JsTables} (config : PolicyConfig) (resolve : jstring -> fallible jstring).

(** A clean verdict went through every request-level check and the route's. *)
Lemma evaluateDetailed_clean facts v :
  evaluateDetailed facts config resolve = Ok v -> violations v = [] ->
  pathIsCanonical (fpath facts) = true /\ versionPrefixIsCanonical (fpath facts) = true /\
  fformBody facts = false /\ fbodyError facts = None /\
  exists v', evaluateByRoute (route (classifyRoute (fmethod facts) (fpath facts)))
               facts config resolve = Ok v' /\ violations v' = [].
Proof.
  unfold evaluateDetailed. intros H Hn. cbv zeta in H.
  destruct (fbodyError facts) eqn:He.
  { apply Ok_inj in H. subst v. cbn in Hn. split_nil. done. }
  ok_inv. subst v. cbn [violations] in Hn. split_nil.
  destruct (pathIsCanonical _); [| done]. destruct (versionPrefixIsCanonical _); [| done].
  destruct (fformBody facts); [done |]. split_and!; eauto.
Qed.

(** Routes a clean request can have. *)
Definition CLEAN_ROUTES : list Route :=
  [ContainersCreate; ContainersExecCreate; NetworksCreate; VolumesCreate; Build; Commit;
   Session; Grpc; ArchiveGet; Attach; ContainersAction; ExecStart; ContainersRemove;
   ObjectRemove; ImagesPull; ImagesLoad; ImagesWrite; NetworksAttach; Prune; Auth; Read].

(** Every rule of the table that asks for a body leads to a body check. *)
Lemma needsBody_routes method path :
  needsBody (classifyRoute method path) = true ->
  route (classifyRoute method path) ∈
    [ContainersCreate; ContainersExecCreate; NetworksCreate; VolumesCreate].
Proof.
  unfold classifyRoute. cbv zeta. destruct (find _ ROUTES) as [r |] eqn:Hf.
  - apply find_some in Hf as [Hin _]. cbn [needsBody route]. intros Hb.
    assert (Forall (fun r => rneedsBody r = true ->
      rroute r ∈ [ContainersCreate; ContainersExecCreate; NetworksCreate; VolumesCreate]) ROUTES)
      as HF.
    { unfold ROUTES. repeat constructor; cbn; intros; try done; set_solver. }
    rewrite Forall_forall in HF. apply HF; [by apply list_elem_of_In | done].
  - repeat case_match; done.
Qed.
End Requests.

(** ** Properties *)

(** C2. A container create without findings is contained: whatever the body
    says, a clean verdict means no privilege, no foreign namespace or cgroup,
    no capability outside the allowlist, no weakened security option, no
    unknown HostConfig key, only local volume drivers, and every bind source
    (from [Binds], from bind [Mounts] and from volume driver options) resolving
    to a place the strict profile allows that kind of container. *)
Theorem clean_create_is_contained `{JsTables} config resolve facts v :
  route (classifyRoute (fmethod facts) (fpath facts)) = ContainersCreate ->
  evaluateDetailed facts config resolve = Ok v -> violations v = [] ->
  exists b, fbody facts = Some (JObj b) /\
    contained config resolve
      (isPlatformContainer (labelsOf (field b "Labels")))
      (isIngressContainer (labelsOf (field b "Labels")))
      (default [] (asRecord (field b "HostConfig"))).
Proof.
  intros Hr He Hn. destruct (evaluateDetailed_clean _ _ _ _ He Hn) as (_ & _ & _ & _ & v' & Hv & Hn').
  rewrite Hr in Hv. cbn [evaluateByRoute] in Hv.
  destruct (fbody facts) as [[| | | | | b] |] eqn:Hb.
  6: { exists b. split; [done |]. by eapply create_clean_contained. }
  all: cbn in Hv; apply Ok_inj in Hv; by subst v'.
Qed.

Definition plainTables : JsTables := {| unicode_upper := id; number_text := fun _ => [] |}.

Definition factsOf (method path : jstring) (body : option jval) : RequestFacts :=
  {| fmethod := method; fpath := path; fquery := []; fbody := body; fplainBody := body;
     fformBody := false; fbodyError := None |}.

Definition parsedBody (text : jstring) : option jval :=
  match parseRequestBody (quoted text) with Ok v => Some v | Throw _ => None end.

Definition tenantCreate : RequestFacts :=
  factsOf "POST" "/v1.47/containers/create"
    (parsedBody "{'Image':'app','HostConfig':{'Binds':['/srv/users/u1/data:/d:ro'],'Memory':5}}").

Lemma clean_create_is_contained_witness :
  exists b, fbody tenantCreate = Some (JObj b) /\
    @contained plainTables DEFAULT_POLICY_CONFIG Ok
      (isPlatformContainer (labelsOf (field b "Labels")))
      (isIngressContainer (labelsOf (field b "Labels")))
      (default [] (asRecord (field b "HostConfig"))).
Proof.
  refine (@clean_create_is_contained plainTables DEFAULT_POLICY_CONFIG Ok tenantCreate
    (Build_Verdict [] []) _ _ _); vm_compute; reflexivity.
Defined.

(** Deny by default: a request without findings has a canonical path and
    version prefix, no form body and no body the parser refused; its route is
    one the table names (never an unknown path, a restricted API group or an
    archive upload); and where the route's body matters, the body was a JSON
    object. *)
Theorem clean_request_is_known `{JsTables} config resolve facts v :
  evaluateDetailed facts config resolve = Ok v -> violations v = [] ->
  pathIsCanonical (fpath facts) = true /\ versionPrefixIsCanonical (fpath facts) = true /\
  fformBody facts = false /\ fbodyError facts = None /\
  route (classifyRoute (fmethod facts) (fpath facts)) ∈ CLEAN_ROUTES /\
  (needsBody (classifyRoute (fmethod facts) (fpath facts)) = true ->
   exists b, fbody facts = Some (JObj b)).
Proof.
  intros He Hn.
  destruct (evaluateDetailed_clean _ _ _ _ He Hn) as (? & ? & ? & ? & v' & Hv & Hn').
  split_and!; [done .. | |].
  - destruct (route _); cbn in Hv;
      try (apply Ok_inj in Hv; subst v'; cbn in Hn'; done);
      apply (bool_decide_unpack _); vm_compute; exact I.
  - intros Hb. apply needsBody_routes in Hb.
    destruct (fbody facts) as [[| | | | | b] |] eqn:Hbody; [..| by eauto |];
      exfalso; clear -Hb Hv Hn' Hbody;
      repeat (apply elem_of_cons in Hb as [Hb | Hb];
        [rewrite Hb in Hv; cbn in Hv; rewrite ?Hbody in Hv; cbn in Hv;
         apply Ok_inj in Hv; subst v'; cbn in Hn'; done |]);
      by apply not_elem_of_nil in Hb.
Qed.

Lemma clean_request_is_known_witness :
  pathIsCanonical (fpath tenantCreate) = true /\
  versionPrefixIsCanonical (fpath tenantCreate) = true /\
  fformBody tenantCreate = false /\ fbodyError tenantCreate = None /\
  route (classifyRoute (fmethod tenantCreate) (fpath tenantCreate)) ∈ CLEAN_ROUTES /\
  (needsBody (classifyRoute (fmethod tenantCreate) (fpath tenantCreate)) = true ->
   exists b, fbody tenantCreate = Some (JObj b)).
Proof.
  refine (@clean_request_is_known plainTables DEFAULT_POLICY_CONFIG Ok tenantCreate
    (Build_Verdict [] []) _ _); vm_compute; reflexivity.
Defined.

(** The engine's endpoints whose body can reach the host, as its router
    matches them after stripping the version prefix; a container name may hold
    slashes but no line terminator. *)
Inductive body_endpoint : jstring -> Prop :=
| create_container : body_endpoint "/containers/create"
| create_network : body_endpoint "/networks/create"
| create_volume : body_endpoint "/volumes/create"
| create_exec name :
    name <> [] -> Forall (fun c => is_line_terminator c = false) name ->
    body_endpoint (("/containers/" : jstring) ++ name ++ ("/exec" : jstring)).

Lemma exec_pattern name :
  name <> [] -> Forall (fun c => is_line_terminator c = false) name ->
  lang (RCats [RLit "/containers/"; ID; RLit "/exec"])
    (("/containers/" : jstring) ++ name ++ ("/exec" : jstring)).
Proof.
  intros Hne Hl. constructor; [by apply lang_lit_iff |].
  constructor; [| rewrite <- (app_nil_r (js _)); constructor; [by apply lang_lit_iff | constructor]].
  apply lang_plus_set_iff. split; [done |]. rewrite Forall_forall in *. intros c Hc.
  by rewrite Hl.
Qed.

(** No body that matters escapes judgement: whatever version prefix a
    client writes, a [POST] the engine would route to a container, exec,
    network or volume create is classified as a route whose body is held and
    judged, or falls in the restricted group, which is always a finding. *)
Theorem body_endpoints_are_judged rawPath :
  body_endpoint (routePath rawPath) ->
  let info := classifyRoute "POST" rawPath in
  needsBody info = true \/ route info = RestrictedGroup.
Proof.
  intros Hep. unfold classifyRoute. cbv zeta. unfold ROUTES.
  set (p := routePath rawPath) in *.
  assert (forall r rs, ruleMatches "POST" p r = true -> find (ruleMatches "POST" p) (r :: rs) = Some r)
    as Hhit by (intros r rs Hr; cbn [find]; by rewrite Hr).
  match goal with |- context [ find _ (?r0 :: ?r1 :: ?r2 :: ?r3 :: ?r4 :: _) ] =>
    destruct (ruleMatches "POST" p r0) eqn:H0;
      [rewrite Hhit by done; by right |];
    assert (ruleMatches "POST" p r1 = true \/ ruleMatches "POST" p r2 = true \/
            ruleMatches "POST" p r3 = true \/ ruleMatches "POST" p r4 = true) as Hany
  end.
  { unfold ruleMatches. destruct Hep as [| | | name Hne Hl].
    - left. vm_compute. done.
    - right. right. left. vm_compute. done.
    - do 3 right. vm_compute. done.
    - right. left. apply andb_true_iff. split; [vm_compute; done |].
      apply matches_iff. by apply exec_pattern. }
  left. cbn [find]. rewrite H0.
  repeat (match goal with |- context [ if ruleMatches "POST" p ?r then _ else _ ] =>
    destruct (ruleMatches "POST" p r); [done |] end).
  naive_solver.
Qed.

Lemma body_endpoints_are_judged_witness :
  let info := classifyRoute "POST" "/v9.9/containers/web/1/exec" in
  needsBody info = true \/ route info = RestrictedGroup.
Proof.
  apply body_endpoints_are_judged.
  refine (create_exec "web/1" _ _); [discriminate |].
  repeat (constructor; [reflexivity |]). constructor.
Defined.

(** A volume create without findings uses the engine's own driver and
    mounts nothing of the host but, at most, a path a tenant container may
    bind. *)
Theorem clean_volume_is_local `{JsTables} config resolve facts v :
  route (classifyRoute (fmethod facts) (fpath facts)) = VolumesCreate ->
  evaluateDetailed facts config resolve = Ok v -> violations v = [] ->
  exists b, fbody facts = Some (JObj b) /\
    isLocalDriver (field b "Driver") = true /\
    safe_volume_options config resolve (field b "DriverOpts").
Proof.
  intros Hr He Hn. destruct (evaluateDetailed_clean _ _ _ _ He Hn) as (_ & _ & _ & _ & v' & Hv & Hn').
  rewrite Hr in Hv. cbn [evaluateByRoute] in Hv. apply Ok_inj in Hv. subst v'. cbn in Hn'.
  unfold evaluateVolumeCreate in Hn'.
  destruct (fbody facts) as [[| | | | | b] |]; try done. exists b. split; [done |].
  unfold driverViolation in Hn'. destruct (isLocalDriver _) eqn:Hd; [| done].
  split; [done |]. by apply checkVolumeDevice_safe.
Qed.

Definition bindVolume : RequestFacts :=
  factsOf "POST" "/volumes/create"
    (parsedBody "{'Name':'v','DriverOpts':{'type':'none','o':'bind','device':'/srv/users/u1/data'}}").

Lemma clean_volume_is_local_witness :
  exists b, fbody bindVolume = Some (JObj b) /\
    isLocalDriver (field b "Driver") = true /\
    safe_volume_options DEFAULT_POLICY_CONFIG Ok (field b "DriverOpts").
Proof.
  refine (@clean_volume_is_local plainTables DEFAULT_POLICY_CONFIG Ok bindVolume
    (Build_Verdict [] []) _ _ _); vm_compute; reflexivity.
Defined.
