(* ===== verification/GateReadonly.v ===== *)
(** * The read-only and the build listener ([readonly.ts], [build.ts])

    What Traefik's socket lets through, and which listener may open a
    BuildKit session. *)

From S2P Require Import Prelude Regex Text Json GateHttp GateRoutes GatePolicy.

#[local] Open Scope N_scope.

(** ** The read-only listener *)

Definition ref_start (c : N) : bool := is_alnum c.
Definition ref_char (c : N) : bool := is_alnum c || (c =? 95) || (c =? 46) || (c =? 45).
Definition CONTAINER_REF : regex := RCat (RSet ref_start) (RStar (RSet ref_char)).

Definition READ_ONLY_ROUTES : list regex :=
  [ RCats [RLit "/"; RWords ["_ping"; "version"; "events"]];
    RLit "/containers/json";
    RCats [RLit "/containers/"; CONTAINER_REF; RLit "/json"] ].

Definition READ_METHODS : list jstring := ["GET"; "HEAD"].

Definition rawPathOf (target : jstring) : jstring :=
  match indexOf 63 target with
  | None => target
  | Some question => take question target
  end.

Definition pathIsPlain (rawPath : jstring) : bool :=
  startsWith "/" rawPath && negb (hasChar 37 rawPath) && negb (includes ".." rawPath) &&
  negb (includes "//" rawPath) && negb (hasChar 92 rawPath) && negb (hasChar 35 rawPath).

Definition asksUpgrade (head : RequestHead) : bool :=
  negb (bool_decide (headerTokens (headers head) "upgrade" = [])) ||
  memb ("upgrade" : jstring) (headerTokens (headers head) "connection").

Definition hasBody (framing : Framing) : bool :=
  match framing with
  | FNone => false
  | FLength n => 0 <? n
  | _ => true
  end.

(** Why the read-only socket refuses a request; [None] lets it pass. *)
Definition readOnlyRefusal (head : RequestHead) : fallible (option jstring) :=
  if negb (memb (method head) READ_METHODS) then
    Ok (Some ("read-only socket: method not allowed" : jstring))
  else if asksUpgrade head then Ok (Some ("read-only socket: no upgrade" : jstring))
  else
    framing ← requestFraming head;
    if hasBody framing then Ok (Some ("read-only socket: no request body" : jstring))
    else
      let rawPath := rawPathOf (target head) in
      if negb (pathIsPlain rawPath) || negb (versionPrefixIsCanonical rawPath)
      then Ok (Some ("read-only socket: path not allowed" : jstring))
      else if negb (existsb (fun r => matches r (routePath rawPath)) READ_ONLY_ROUTES)
      then Ok (Some ("read-only socket: route not allowed" : jstring))
      else Ok None.

(** ** The build listener *)

Definition BUILD_SESSION_ROUTES : list Route := [Session; Grpc].

Definition buildSessionFindings (r : Route) (onBuildSocket : bool) : list Violation :=
  if negb (memb r BUILD_SESSION_ROUTES) || onBuildSocket then []
  else [brokeAt "build-session" "not-build-socket"].

(** ** Lemmas on the read-only routes *)

(** A container path the read-only socket knows. *)
Inductive read_only_route : jstring -> Prop :=
| ro_ping : read_only_route "/_ping"
| ro_version : read_only_route "/version"
| ro_events : read_only_route "/events"
| ro_list : read_only_route "/containers/json"
| ro_inspect c ref :
    is_alnum c = true -> Forall (fun c => ref_char c = true) ref ->
    read_only_route (("/containers/" : jstring) ++ (c :: ref) ++ ("/json" : jstring)).

Lemma read_only_routes_iff p :
  existsb (fun r => matches r p) READ_ONLY_ROUTES = true <-> read_only_route p.
Proof.
  unfold READ_ONLY_ROUTES. cbn [existsb]. rewrite orb_false_r, !orb_true_iff, !matches_iff.
  split.
  - intros [H | [H | H]].
    + apply lang_cat_iff in H as (s1 & s2 & -> & ->%lang_lit_iff & H).
      apply lang_cat_iff in H as (s3 & s4 & -> & H & ->%lang_eps_iff).
      unfold RWords in H. cbn [map RAlts] in H. rewrite !lang_alt_iff, !lang_lit_iff in H.
      destruct H as [-> | [-> | [-> | []%lang_nil_inv]]]; cbn [js app]; constructor.
    + apply lang_lit_iff in H as ->. constructor.
    + apply lang_cat_iff in H as (s1 & s2 & -> & ->%lang_lit_iff & H).
      apply lang_cat_iff in H as (s3 & s4 & -> & H & H4).
      apply lang_cat_iff in H4 as (s5 & s6 & -> & ->%lang_lit_iff & ->%lang_eps_iff).
      apply lang_cat_iff in H as (s7 & s8 & -> & H7 & H8%lang_star_set_iff).
      apply lang_set_iff in H7 as (c & -> & Hc). rewrite app_nil_r. by apply (ro_inspect c s8).
  - intros [| | | | c ref Hc Href].
    1-3: left; apply matches_iff; vm_compute; done.
    + right; left. by apply lang_lit_iff.
    + right; right. constructor; [by apply lang_lit_iff |].
      constructor; [| rewrite <- (app_nil_r (js _)); constructor;
                      [by apply lang_lit_iff | constructor]].
      change (c :: ref) with ([c] ++ ref).
      constructor; [by apply lang_set_iff; exists c | by apply lang_star_set_iff].
Qed.

Lemma takeWhile_prefix f s : s = takeWhile f s ++ drop (length (takeWhile f s)) s.
Proof. induction s as [| c s IH]; simpl; [done |]. destruct (f c); simpl; congruence. Qed.

(** What precedes the route: nothing, or [/v] and digits and dots. *)
Lemma routePath_prefix p :
  routePath p = p \/
  exists v, p = ("/v" : jstring) ++ v ++ routePath p /\ Forall (fun c => version_char c = true) v.
Proof.
  unfold routePath, engineVersionPrefix.
  destruct (startsWith "/v" p) eqn:Es; [| by left].
  apply startsWith_spec in Es as [t ->]. cbn [js app]. cbn [drop].
  case_match eqn:Em; [| by left]. right. exists (takeWhile version_char t).
  split; [| apply takeWhile_all]. f_equal. f_equal.
  case_match; simplify_eq. apply takeWhile_prefix.
Qed.

Lemma decodeURI_plain s : hasChar 37 s = false -> decodeURIComponent s = Some s.
Proof.
  unfold decodeURIComponent. induction s as [| c s IH]; [done |]. cbn [hasChar existsb].
  intros [Hc Hs]%orb_false_iff. cbn [decodeURI]. rewrite N.eqb_sym, Hc. cbn [need utf8_init].
  change (existsb (N.eqb 37) s) with (hasChar 37 s) in Hs. by rewrite (IH Hs).
Qed.

(** Two ways to cut a path at a slash agree when nothing else holds one. *)
Lemma cut_unique (w id rest t : jstring) :
  47 ∉ w -> 47 ∉ rest -> w ++ 47 :: rest = id ++ 47 :: t -> w = id /\ rest = t.
Proof.
  revert id. induction w as [| c w IH]; intros [| d id] Hw Hr E; simplify_eq/=; [done | | |].
  - set_solver.
  - set_solver.
  - destruct (IH id) as [-> ->]; [set_solver | done | done | done].
Qed.

Lemma ref_no_slash c ref :
  is_alnum c = true -> Forall (fun c => ref_char c = true) ref -> 47 ∉ c :: ref.
Proof.
  intros Hc Hr. rewrite elem_of_cons. intros [<- | Hin]; [done |].
  rewrite Forall_forall in Hr. by specialize (Hr _ Hin).
Qed.

(** The two [ROUTES] rules a [GET] or [HEAD] can match do not match a
    container inspect. *)
Lemma inspect_not_checkpoints c ref :
  47 ∉ c :: ref ->
  ~ lang (RCats [RLit "/"; ROpt (RCats [RLit "containers/"; ID; RLit "/"]); RLit "checkpoints";
                 ROpt (RCat (RLit "/") (RStar RDot))])
      (("/containers/" : jstring) ++ (c :: ref) ++ ("/json" : jstring)).
Proof.
  intros Hs H. apply lang_cat_iff in H as (s1 & s2 & E & ->%lang_lit_iff & H).
  apply lang_cat_iff in H as (s3 & s4 & -> & H3 & H4).
  apply lang_cat_iff in H4 as (s5 & s6 & -> & ->%lang_lit_iff & H6).
  apply lang_alt_iff in H3 as [->%lang_eps_iff | H3]; [done |].
  apply lang_cat_iff in H3 as (s7 & s8 & -> & ->%lang_lit_iff & H8).
  apply lang_cat_iff in H8 as (id & s9 & -> & _ & H9).
  apply lang_cat_iff in H9 as (s10 & s11 & -> & ->%lang_lit_iff & ->%lang_eps_iff).
  rewrite app_nil_r, <- !app_assoc in E.
  change (("/containers/" : jstring) ++ (c :: ref) ++ 47 :: ("json" : jstring)
          = ("/containers/" : jstring) ++ id ++ 47 :: ("checkpoints" : jstring) ++ s6) in E.
  apply app_inv_head in E. apply cut_unique in E as [_ E]; [done | done | cbn; set_solver].
Qed.

Lemma inspect_not_archive c ref :
  47 ∉ c :: ref ->
  ~ lang (RCats [RLit "/containers/"; ID; RLit "/archive"])
      (("/containers/" : jstring) ++ (c :: ref) ++ ("/json" : jstring)).
Proof.
  intros Hs H. apply lang_cat_iff in H as (s1 & s2 & E & ->%lang_lit_iff & H).
  apply lang_cat_iff in H as (id & s4 & -> & _ & H).
  apply lang_cat_iff in H as (s5 & s6 & -> & ->%lang_lit_iff & ->%lang_eps_iff).
  apply app_inv_head in E. rewrite app_nil_r in E. cbn [js] in E.
  apply cut_unique in E as [_ E]; [done | done | cbn; set_solver].
Qed.

Lemma find_skip {A} (f : A -> bool) r rs : f r = false -> find f (r :: rs) = find f rs.
Proof. intros Hr. cbn [find]. by rewrite Hr. Qed.

Lemma ruleMatches_method m p r : memb m (rmethods r) = false -> ruleMatches m p r = false.
Proof. unfold ruleMatches. by intros ->. Qed.

Lemma ruleMatches_pattern m p r : ~ lang (rpattern r) p -> ruleMatches m p r = false.
Proof.
  unfold ruleMatches. intros H. apply andb_false_iff. right.
  destruct (matches _ p) eqn:E; [| done]. by apply matches_iff in E.
Qed.

Lemma inspect_is_read m c ref :
  m ∈ READ_METHODS -> is_alnum c = true -> Forall (fun c => ref_char c = true) ref ->
  let p := ("/containers/" : jstring) ++ (c :: ref) ++ ("/json" : jstring) in
  find (ruleMatches m p) ROUTES = None /\ existsb (fun r => matches r p) READ_ROUTES = true.
Proof.
  intros Hm Hc Hr p. pose proof (ref_no_slash c ref Hc Hr) as Hs. split.
  - unfold ROUTES.
    repeat (rewrite find_skip;
      [| first
           [ apply ruleMatches_pattern; by apply inspect_not_checkpoints
           | apply ruleMatches_pattern; by apply inspect_not_archive
           | apply ruleMatches_method; apply memb_false; clear -Hm;
             unfold READ_METHODS in Hm; cbn; set_solver ]]).
    done.
  - apply existsb_exists. exists (RCats [RLit "/containers/"; ID; RLit "/";
      RWords ["json"; "top"; "logs"; "changes"; "export"; "stats"; "attach/ws"]]).
    split; [do 4 right; by left |]. apply matches_iff.
    constructor; [by apply lang_lit_iff |]. constructor.
    + apply lang_plus_set_iff. split; [done |]. constructor.
      * destruct (is_line_terminator c) eqn:E; [| done]. exfalso. clear -Hc E.
        unfold is_line_terminator in E.
        repeat (apply orb_true_iff in E as [E | E]); apply N.eqb_eq in E; by subst.
      * eapply Forall_impl; [exact Hr |]. intros d Hd. cbn beta in *.
        destruct (is_line_terminator d) eqn:E; [| done]. exfalso. clear -Hd E.
        unfold is_line_terminator in E.
        repeat (apply orb_true_iff in E as [E | E]); apply N.eqb_eq in E; by subst.
    + apply (LCat _ _ ("/" : jstring) ("json" : jstring)); [by apply lang_lit_iff |].
      rewrite <- (app_nil_r (js _)). constructor; [| constructor].
      apply matches_iff. vm_compute. done.
Qed.

Lemma classify_read_only m p :
  m ∈ READ_METHODS -> read_only_route (routePath p) ->
  classifyRoute m p = {| route := Read; needsBody := false |}.
Proof.
  intros Hm Hp. unfold classifyRoute. cbv zeta.
  assert (memb m ["GET"; "HEAD"] = true) as Hmm by by apply memb_true.
  destruct Hp as [| | | | c ref Hc Hr].
  1-4: unfold READ_METHODS in Hm; repeat (apply elem_of_cons in Hm as [-> | Hm]; [by vm_compute |]);
    by apply not_elem_of_nil in Hm.
  destruct (inspect_is_read m c ref Hm Hc Hr) as [-> ->]. by rewrite Hmm.
Qed.

Definition dotless (s : jstring) : Prop := s <> ("." : jstring) /\ s <> (".." : jstring).

Lemma read_only_segments r : read_only_route r ->
  exists rest, r = 47 :: rest /\ Forall dotless (split 47 rest) /\ 0 ∉ rest.
Proof.
  intros [| | | | c ref Hc Hr];
    [eexists; split; [reflexivity |]; split; [by repeat constructor | cbn; set_solver] .. |].
  pose proof (ref_no_slash c ref Hc Hr) as Hs.
  exists (("containers/" : jstring) ++ (c :: ref) ++ ("/json" : jstring)).
  split; [done |]. split.
  - change (("containers/" : jstring) ++ (c :: ref) ++ ("/json" : jstring)) with
      (("containers" : jstring) ++ 47 :: ((c :: ref) ++ 47 :: ("json" : jstring))).
    rewrite !split_app_sep by (done || (cbn; set_solver)). constructor; [done |].
    constructor; [split; intros [= -> _]; done |]. by repeat constructor.
  - rewrite !elem_of_app, elem_of_cons. intros [Hin | [[<- | Hin] | Hin]].
    + cbn in Hin; set_solver.
    + done.
    + rewrite Forall_forall in Hr. by specialize (Hr _ Hin).
    + cbn in Hin; set_solver.
Qed.

Lemma version_no c v : version_char c = false -> Forall (fun c => version_char c = true) v -> c ∉ v.
Proof. intros Hc Hv Hin. rewrite Forall_forall in Hv. specialize (Hv _ Hin). congruence. Qed.

Lemma plain_read_only_canonical p :
  pathIsPlain p = true -> read_only_route (routePath p) -> pathIsCanonical p = true.
Proof.
  unfold pathIsPlain. intros Hp Hr. bools.
  destruct (read_only_segments _ Hr) as (rest & Er & Hd & Hnul).
  assert (0 ∉ p /\ Forall dotless (split 47 p)) as [Hp0 Hpd].
  { destruct (routePath_prefix p) as [E | (v & E & Hv)]; rewrite Er in E.
    - rewrite <- E. split; [set_solver |]. change (47 :: rest) with ([] ++ 47 :: rest).
      rewrite split_app_sep by set_solver. by constructor.
    - rewrite E. split.
      + pose proof (version_no 0 v eq_refl Hv). cbn; set_solver.
      + change (("/v" : jstring) ++ v ++ 47 :: rest) with ([] ++ 47 :: ((118 :: v) ++ 47 :: rest)).
        pose proof (version_no 47 v eq_refl Hv).
        rewrite !split_app_sep by set_solver. by repeat constructor. }
  unfold pathIsCanonical. apply hasChar_false in Hp0. rewrite Hp0.
  repeat match goal with H : _ = false |- _ => rewrite H; clear H end. cbn [orb].
  apply negb_true_iff. destruct (existsb _ _) eqn:E; [| done].
  apply existsb_exists in E as (s & Hin & Hs). apply list_elem_of_In in Hin.
  rewrite Forall_forall in Hpd. destruct (Hpd s Hin).
  apply orb_true_iff in Hs as [Hs | Hs]; by apply bool_decide_eq_true in Hs.
Qed.

Lemma readOnly_passes h :
  readOnlyRefusal h = Ok None ->
  let p := rawPathOf (target h) in
  method h ∈ READ_METHODS /\
  headerTokens (headers h) "upgrade" = [] /\
  ("upgrade" : jstring) ∉ headerTokens (headers h) "connection" /\
  requestFraming h ∈ [Ok FNone; Ok (FLength 0)] /\
  decodeURIComponent p = Some p /\
  read_only_route (routePath p) /\
  classifyRoute (method h) p = {| route := Read; needsBody := false |}.
Proof.
  unfold readOnlyRefusal, asksUpgrade. intros H.
  destruct (memb (method h) READ_METHODS) eqn:Hm; [| done]. apply memb_true in Hm. cbn [negb] in H.
  destruct (_ || _) eqn:Hu in H; [done |]. apply orb_false_iff in Hu as [Hu1 Hu2].
  apply memb_false in Hu2. apply negb_false_iff, bool_decide_eq_true in Hu1.
  apply bind_Ok in H as (f & Hf & H). rewrite Hf.
  destruct (hasBody f) eqn:Hb; [done |]. destruct (_ || _) eqn:Hp in H; [done |].
  destruct (existsb _ _) eqn:Hr in H; [| done]. apply read_only_routes_iff in Hr.
  apply orb_false_iff in Hp as [Hp _]. apply negb_false_iff in Hp.
  cbv zeta. split_and!; try done.
  - destruct f as [| [| n] | |]; simplify_eq/=; set_solver.
  - apply decodeURI_plain. unfold pathIsPlain in Hp. by bools.
  - by apply classify_read_only.
Qed.

(** ** Properties *)

(** The read-only socket is what it says: a request it lets through is a
    [GET] or [HEAD] with no upgrade and no body, for one of the five listed
    routes; its path is already in decoded form, is the engine's route after
    an optional canonical version prefix, and classifies as a plain read. *)
Theorem read_only_passes_reads_only h :
  readOnlyRefusal h = Ok None ->
  let p := rawPathOf (target h) in
  method h ∈ READ_METHODS /\
  headerTokens (headers h) "upgrade" = [] /\
  ("upgrade" : jstring) ∉ headerTokens (headers h) "connection" /\
  requestFraming h ∈ [Ok FNone; Ok (FLength 0)] /\
  decodeURIComponent p = Some p /\
  read_only_route (routePath p) /\
  classifyRoute (method h) p = {| route := Read; needsBody := false |}.
Proof. apply readOnly_passes. Qed.

Definition ro_head : bytes :=
  join CRLF ["GET /v1.47/containers/web-1/json?size=0 HTTP/1.1"; "Host: docker"; ""; ""].

Definition ro_request : RequestHead :=
  {| method := "GET"; target := "/v1.47/containers/web-1/json?size=0"; version := "HTTP/1.1";
     headers := [("Host" : jstring, "docker" : jstring)]; raw := ro_head |}.

Lemma read_only_passes_reads_only_witness :
  parseRequestHead ro_head = Ok ro_request /\
  read_only_route (routePath (rawPathOf (target ro_request))) /\
  route (classifyRoute (method ro_request) (rawPathOf (target ro_request))) = Read.
Proof.
  split; [vm_compute; reflexivity |].
  assert (readOnlyRefusal ro_request = Ok None) as Hn by (vm_compute; reflexivity).
  destruct (read_only_passes_reads_only ro_request Hn) as (_ & _ & _ & _ & _ & Hr & Hc).
  split; [exact Hr |]. cbv zeta in Hc. by rewrite Hc.
Defined.

(** The read-only list lies inside the strict profile: whatever the
    read-only socket lets through has no finding under the policy, with any
    configuration and any resolver. *)
Theorem read_only_within_profile `{JsTables} h config resolve q :
  readOnlyRefusal h = Ok None ->
  evaluateDetailed
    {| fmethod := method h; fpath := rawPathOf (target h); fquery := q; fbody := None;
       fplainBody := None; fformBody := false; fbodyError := None |} config resolve
  = Ok {| violations := []; allowances := [] |}.
Proof.
  unfold readOnlyRefusal. intros Hr.
  destruct (memb (method h) READ_METHODS) eqn:Hm; [| done]. apply memb_true in Hm. cbn [negb] in Hr.
  destruct (asksUpgrade h); [done |]. apply bind_Ok in Hr as (f & Hf & Hr).
  destruct (hasBody f); [done |].
  destruct (_ || _) eqn:Hp in Hr; [done |]. bools.
  destruct (existsb _ _) eqn:Hx in Hr; [| done]. apply read_only_routes_iff in Hx.
  unfold evaluateDetailed. cbn [fpath fformBody fbodyError fmethod].
  rewrite plain_read_only_canonical by done.
  rewrite classify_read_only by done.
  match goal with E : versionPrefixIsCanonical _ = true |- _ => rewrite E end. done.
Qed.

Definition noTables : JsTables := {| unicode_upper := id; number_text := fun _ => [] |}.

Lemma read_only_within_profile_witness :
  @evaluateDetailed noTables
    {| fmethod := method ro_request; fpath := rawPathOf (target ro_request);
       fquery := parseQuery "size=0"; fbody := None;
       fplainBody := None; fformBody := false; fbodyError := None |} DEFAULT_POLICY_CONFIG Ok
  = Ok {| violations := []; allowances := [] |}.
Proof.
  apply (@read_only_within_profile noTables ro_request). vm_compute. reflexivity.
Defined.
