(* ===== verification/GateApproval.v ===== *)
(** * Signed approvals ([approval.ts])

    The verifier of the control plane's per-deploy approval.  WebCrypto is the
    [Crypto] interface: SHA-256, Ed25519 verification (which may reject) and
    the import of a raw public key.  Times are whole seconds: the payload's
    are safe integers, the clock is floored. *)

From S2P Require Import Prelude Regex Text Json Number JsonPrint Base64 GatePolicy GatePlatform.

(** What the verifier uses of WebCrypto. *)
Class Crypto := {
  CryptoKey : Type;
  sha256 : bytes -> bytes;
  (** [crypto.subtle.verify]: [None] is a rejection *)
  ed25519_verify : CryptoKey -> bytes -> bytes -> option bool;
  (** [crypto.subtle.importKey] of 32 raw bytes: [None] is a rejection *)
  importKey : bytes -> option CryptoKey
}.

Definition APPROVAL_LABEL : jstring := "com.turbopanel.approval".
Definition APPROVAL_VERSION : jstring := "v2".
Definition APPROVAL_DOMAIN : jstring :=
  ("turbopanel-docker-gate-approval-v2" : jstring) ++ [10%N].
Definition MAX_APPROVAL_TTL_SEC : Z := 900.
Definition APPROVAL_CLOCK_SKEW_SEC : Z := 60.
Definition MAX_APPROVAL_TOKEN_BYTES : nat := 4096.

(** [APPROVABLE_RULES[rule]]: a name inherited from [Object.prototype] reads
    as a function, which no feature list holds, so it is no feature here. *)
Definition APPROVABLE_RULES (r : jstring) : option jstring :=
  if decide (r = "privileged") then Some ("privileged" : jstring)
  else if decide (r = "bind-docker-socket") then Some ("docker-socket" : jstring)
  else if decide (r = "bind-outside-roots") then Some ("host-paths" : jstring)
  else if decide (r = "network-mode-host") then Some ("host-network" : jstring)
  else if decide (r = "cap-add") then Some ("cap-add" : jstring)
  else if decide (r = "devices") then Some ("devices" : jstring)
  else None.

Record ApprovalPayload := {
  deployId : jstring;
  project : jstring;
  composeDigest : jstring;
  bodyDigest : jstring;
  containerName : jstring;
  jti : jstring;
  features : list jstring;
  iat : Z;
  exp : Z
}.

Inductive ApprovalResult :=
| Approved (payload : ApprovalPayload)
| Rejected (reason : jstring) (who : option (jstring * jstring)).

(** ** The digest of a create body *)

Definition deleteEntry (k : jstring) (o : entries) : entries :=
  filter (fun e => e.1 <> k) o.

(** The clone of the body without its approval label. *)
Definition withoutApproval (body : jval) : jval :=
  match body with
  | JObj b =>
      match getEntry b "Labels" with
      | Some (JObj labels) =>
          JObj (setEntry "Labels" (JObj (deleteEntry APPROVAL_LABEL labels)) b)
      | _ => body
      end
  | _ => body
  end.

(** ** Payloads *)

Definition isShortString (value : option jval) (max : nat) : option jstring :=
  match value with
  | Some (JStr s) => if (0 <? length s) && (length s <=? max) then Some s else None
  | _ => None
  end.

Definition safeInteger (value : option jval) : option Z :=
  match value with Some (JNum n) => safe_integer n | _ => None end.

Definition DIGEST : regex := RTimes 43 (RSet url_char).

Definition featureList (value : option jval) : option (list jstring) :=
  match value with
  | Some (JArr l) =>
      if length l <=? 16 then mapM (fun f => isShortString (Some f) 32) l else None
  | _ => None
  end.

Definition anyString (value : option jval) : option jstring :=
  match value with Some (JStr s) => Some s | _ => None end.

Definition parsePayload (bs : bytes) : option ApprovalPayload :=
  match JSON_parse (decode_text bs) with
  | Ok (JObj p) =>
      fs ← featureList (getEntry p "features");
      issued ← safeInteger (getEntry p "iat");
      expires ← safeInteger (getEntry p "exp");
      deploy ← isShortString (getEntry p "deployId") 128;
      proj ← isShortString (getEntry p "project") 128;
      compose ← anyString (getEntry p "composeDigest");
      name ← isShortString (getEntry p "containerName") 255;
      digest ← anyString (getEntry p "bodyDigest");
      if negb (matches DIGEST digest) then None
      else
        id ← isShortString (getEntry p "jti") 128;
        Some {| deployId := deploy; project := proj; composeDigest := take 128 compose;
                bodyDigest := digest; containerName := name; jti := id; features := fs;
                iat := issued; exp := expires |}
  | _ => None
  end.

Definition claimsFailure (payload : ApprovalPayload) (proj digest name : jstring) (nowSec : Z)
    : option jstring :=
  if (exp payload <=? nowSec)%Z then Some ("expired" : jstring)
  else if (nowSec + APPROVAL_CLOCK_SKEW_SEC <? iat payload)%Z
  then Some ("not-yet-valid" : jstring)
  else if (MAX_APPROVAL_TTL_SEC <? exp payload - iat payload)%Z
  then Some ("ttl-too-long" : jstring)
  else if decide (project payload <> proj) then Some ("wrong-project" : jstring)
  else if decide (bodyDigest payload <> digest) then Some ("wrong-body" : jstring)
  else if decide (containerName payload <> name) then Some ("wrong-name" : jstring)
  else if decide (features payload = []) then Some ("no-features" : jstring)
  else None.

(** [token.length <= MAX ? token.split(".") : []]. *)
Definition tokenParts (token : jstring) : list jstring :=
  if length token <=? MAX_APPROVAL_TOKEN_BYTES then split 46 token else [].

(** ** Splitting findings *)

Record ApprovalSplit := { remaining : list Violation; approved : list Violation }.

Definition covered (fs : list jstring) (r : jstring) : bool :=
  match APPROVABLE_RULES r with Some feature => memb feature fs | None => false end.

Fixpoint splitApproved (vs : list Violation) (payload : ApprovalPayload) : ApprovalSplit :=
  match vs with
  | [] => {| remaining := []; approved := [] |}
  | v :: vs' =>
      let rest := splitApproved vs' payload in
      if covered (features payload) (vrule v)
      then {| remaining := remaining rest; approved := v :: approved rest |}
      else {| remaining := v :: remaining rest; approved := approved rest |}
  end.

(** ** Verification *)

Section Verify.
Context `{JsTables} `{Crypto}.

(** An absent body digests as [null]. *)
Definition approvalBodyDigest (body : option jval) : jstring :=
  toBase64Url (sha256 (encode_text (canonicalJson (withoutApproval (default JNull body))))).

Definition signatureValid (keys : list CryptoKey) (signature : bytes) (signed : jstring) : bool :=
  let data := encode_text (APPROVAL_DOMAIN ++ signed) in
  existsb (fun key => default false (ed25519_verify key signature data)) keys.

(** Trusted keys, one per line; [None] when a line is not a key. *)
Definition importApprovalKeys (text : jstring) : option (list CryptoKey) :=
  let lines := filter (fun line => line <> [] /\ startsWith "#" line = false)
                 (map trim (split 10 text)) in
  mapM (fun line =>
    raw ← fromBase64Url line;
    if decide (length raw = 32) then importKey raw else None) lines.

Definition startApprovalFeatures (token : jstring) (keys : list CryptoKey) (proj : jstring)
    : list jstring :=
  match tokenParts token with
  | [v; p; s] =>
      if bool_decide (keys = []) || negb (bool_decide (v = APPROVAL_VERSION)) then []
      else
        match fromBase64Url p, fromBase64Url s with
        | Some payloadBytes, Some signature =>
            if negb (signatureValid keys signature p) then []
            else
              match parsePayload payloadBytes with
              | Some payload => if decide (project payload = proj) then features payload else []
              | None => []
              end
        | _, _ => []
        end
  | _ => []
  end.

Definition verifyApproval (token : jstring) (keys : list CryptoKey)
    (proj digest name : jstring) (nowSec : Z) : ApprovalResult :=
  if decide (keys = []) then Rejected "approvals-off" None
  else
    match tokenParts token with
    | [v; p; s] =>
        if decide (v <> APPROVAL_VERSION) then Rejected "unsupported-version" None
        else
          match fromBase64Url p, fromBase64Url s with
          | Some payloadBytes, Some signature =>
              if negb (signatureValid keys signature p) then Rejected "bad-signature" None
              else
                match parsePayload payloadBytes with
                | None => Rejected "malformed" None
                | Some payload =>
                    match claimsFailure payload proj digest name nowSec with
                    | Some failure =>
                        Rejected failure (Some (deployId payload, project payload))
                    | None => Approved payload
                    end
                end
          | _, _ => Rejected "malformed" None
          end
    | _ => Rejected "malformed" None
    end.
End Verify.

(** ** Lemmas *)

Lemma splitApproved_filter vs payload :
  remaining (splitApproved vs payload)
    = filter (fun v => covered (features payload) (vrule v) = false) vs /\
  approved (splitApproved vs payload)
    = filter (fun v => covered (features payload) (vrule v) = true) vs.
Proof.
  induction vs as [| v vs [IH1 IH2]]; [done |]. cbn [splitApproved].
  destruct (covered _ (vrule v)) eqn:E; cbn [remaining approved].
  - rewrite filter_cons_False, filter_cons_True by congruence. split; congruence.
  - rewrite filter_cons_True, filter_cons_False by congruence. split; congruence.
Qed.

Lemma covered_approvable fs r :
  covered fs r = true -> exists f, APPROVABLE_RULES r = Some f /\ f ∈ fs.
Proof.
  unfold covered. destruct (APPROVABLE_RULES r) as [f |]; [| done].
  intros ?%memb_true. eauto.
Qed.

(** The token's three parts. *)
Lemma tokenParts_three token v p s :
  tokenParts token = [v; p; s] ->
  token = v ++ 46%N :: p ++ 46%N :: s /\ length token <= MAX_APPROVAL_TOKEN_BYTES.
Proof.
  unfold tokenParts. destruct (Nat.leb_spec (length token) MAX_APPROVAL_TOKEN_BYTES); [| done].
  intros E. split; [| done]. by rewrite <- (join_split 46%N token), E.
Qed.

Lemma claimsFailure_None payload proj digest name nowSec :
  claimsFailure payload proj digest name nowSec = None ->
  (nowSec < exp payload)%Z /\ (iat payload <= nowSec + APPROVAL_CLOCK_SKEW_SEC)%Z /\
  (exp payload - iat payload <= MAX_APPROVAL_TTL_SEC)%Z /\
  project payload = proj /\ bodyDigest payload = digest /\ containerName payload = name /\
  features payload <> [].
Proof.
  unfold claimsFailure.
  destruct (Z.leb_spec (exp payload) nowSec); [done |].
  destruct (Z.ltb_spec (nowSec + APPROVAL_CLOCK_SKEW_SEC) (iat payload)); [done |].
  destruct (Z.ltb_spec MAX_APPROVAL_TTL_SEC (exp payload - iat payload)); [done |].
  repeat (case_decide; [done |]). intros _. split_and!; try lia; try done; by apply dec_stable.
Qed.

Lemma setEntry_keys k v o w : getEntry o k = Some w -> map fst (setEntry k v o) = map fst o.
Proof.
  induction o as [| [k' v'] o IH]; [done |]. cbn [getEntry setEntry].
  case_decide as E; intros Hw; cbn [map fst]; [by rewrite E |]. by rewrite IH.
Qed.

Lemma getEntry_in o k v : getEntry o k = Some v -> (k, v) ∈ o.
Proof.
  induction o as [| [k' v'] o IH]; [done |]. cbn [getEntry].
  case_decide; intros Hv; [simplify_eq; left | right; auto].
Qed.

Lemma setEntry_in k v o e : e ∈ setEntry k v o -> e = (k, v) \/ e ∈ o.
Proof.
  induction o as [| [k' v'] o IH]; cbn [setEntry].
  - intros ?%list_elem_of_singleton. by left.
  - case_decide; rewrite !elem_of_cons; naive_solver.
Qed.

Lemma printable_withoutApproval `{JsTables} v :
  printable_value v -> printable_value (withoutApproval v).
Proof.
  intros Hv. destruct v as [| | | | | b]; try done. cbn [withoutApproval].
  destruct (getEntry b "Labels") as [[| | | | | l] |] eqn:El; try done.
  inversion Hv as [| | | | | ? Hnd Hb]; subst. rewrite Forall_forall in Hb.
  pose proof (Hb _ (getEntry_in _ _ _ El)) as [Hk Hl]. cbn [fst snd] in *.
  constructor; [by rewrite (setEntry_keys _ _ _ _ El) |]. apply Forall_forall.
  intros e [-> | He]%setEntry_in; [| by apply Hb]. split; [done |]. cbn [snd].
  inversion Hl as [| | | | | ? Hndl Hll]; subst. constructor.
  - apply (sublist_NoDup _ (map fst l)); [done |]. unfold deleteEntry.
    apply (fmap_sublist fst), sublist_filter.
  - rewrite Forall_forall in Hll. apply Forall_forall.
    intros x [_ Hx]%list_elem_of_filter. by apply Hll.
Qed.

(** ** Properties *)

(** C5. What an accepted token proves: it is [v2.<payload>.<signature>] of at
    most 4096 characters, a trusted key verifies the signature over the domain
    and the payload text, and the decoded payload is unexpired, at most 900 s
    long, not issued ahead of the clock's skew (so it expires within 960 s),
    names at least one feature, and names exactly this Compose project, this
    body digest and this container name. *)
Theorem approval_is_signed_and_bound `{JsTables} `{Crypto} token keys proj digest name now payload :
  verifyApproval token keys proj digest name now = Approved payload ->
  (exists p s payloadBytes signature key,
     token = APPROVAL_VERSION ++ 46%N :: p ++ 46%N :: s /\
     length token <= MAX_APPROVAL_TOKEN_BYTES /\
     fromBase64Url p = Some payloadBytes /\ fromBase64Url s = Some signature /\
     key ∈ keys /\
     ed25519_verify key signature (encode_text (APPROVAL_DOMAIN ++ p)) = Some true /\
     parsePayload payloadBytes = Some payload) /\
  (now < exp payload)%Z /\ (exp payload - iat payload <= 900)%Z /\
  (exp payload <= now + 960)%Z /\
  project payload = proj /\ bodyDigest payload = digest /\ containerName payload = name /\
  features payload <> [].
Proof.
  unfold verifyApproval. destruct (decide (keys = [])); [done |].
  destruct (tokenParts token) as [| v [| p [| s [| ? ?]]]] eqn:Et; try done.
  apply tokenParts_three in Et as [-> Hlen]. destruct (decide (v <> _)) as [| Hv]; [done |].
  apply dec_stable in Hv. subst v.
  destruct (fromBase64Url p) as [pb |] eqn:Hp; [| done].
  destruct (fromBase64Url s) as [sg |] eqn:Hs; [| done].
  destruct (signatureValid keys sg p) eqn:Hsig; cbn [negb]; [| done].
  destruct (parsePayload pb) as [pl |] eqn:Hpl; [| done].
  destruct (claimsFailure pl proj digest name now) eqn:Hc; [done |]. intros [= ->].
  apply claimsFailure_None in Hc as (He & Hi & Ht & Hrest).
  unfold MAX_APPROVAL_TTL_SEC, APPROVAL_CLOCK_SKEW_SEC in *.
  split; [| split_and!; try lia; naive_solver].
  apply existsb_exists in Hsig as (key & Hin & Hk). apply list_elem_of_In in Hin.
  exists p, s, pb, sg, key. split_and!; try done.
  destruct (ed25519_verify key sg _) as [[] |]; done.
Qed.

(** The body digest identifies the create body: two bodies have the same
    [approvalBodyDigest] exactly when, the approval label apart, they are the
    same JSON up to the order of members, provided SHA-256 tells their two
    canonical texts apart. *)
Theorem body_digest_identifies_body `{JsTables} `{Crypto} a b :
  let text v := encode_text (canonicalJson (withoutApproval v)) in
  printable_value a -> printable_value b ->
  (forall x, Forall byte (sha256 x)) ->
  (sha256 (text a) = sha256 (text b) -> text a = text b) ->
  approvalBodyDigest (Some a) = approvalBodyDigest (Some b) <->
  jsame (withoutApproval a) (withoutApproval b).
Proof.
  intros text Ha Hb Hbytes Hcoll. apply printable_withoutApproval in Ha, Hb.
  unfold approvalBodyDigest. cbn [from_option id]. rewrite <- canonicalJson_same by done.
  split; [| by intros ->]. intros E.
  apply (f_equal fromBase64Url) in E. rewrite !base64url_back in E by done.
  simplify_eq. apply encode_text_inj; [| | by apply Hcoll];
    rewrite canonicalJson_compact; by apply well_formed_compact, printable_sortKeys.
Qed.

(** An approval relaxes nothing else: the findings split into those a
    listed feature covers and the rest, in order, and a finding whose rule is
    not one of the six approvable ones always stands. *)
Theorem split_keeps_unapprovable vs payload :
  remaining (splitApproved vs payload)
    = filter (fun v => covered (features payload) (vrule v) = false) vs /\
  approved (splitApproved vs payload)
    = filter (fun v => covered (features payload) (vrule v) = true) vs /\
  forall v, v ∈ vs ->
    vrule v ∉ ["privileged"; "bind-docker-socket"; "bind-outside-roots"; "network-mode-host";
               "cap-add"; "devices"] ->
    v ∈ remaining (splitApproved vs payload).
Proof.
  destruct (splitApproved_filter vs payload) as [-> ->]. split_and!; [done .. |].
  intros v Hv Hr. apply list_elem_of_filter. split; [| done].
  unfold covered, APPROVABLE_RULES.
  repeat (case_decide as Hd; [exfalso; apply Hr; rewrite Hd; apply memb_true; by vm_compute | clear Hd]). done.
Qed.

(** ** Concrete instances for the examples *)

(** A toy scheme: the digest is the first 32 bytes, and key [k] signs with [k]
    and the length of the data. *)
Definition toyCrypto : Crypto := {|
  CryptoKey := N;
  sha256 := fun x => take 32 (map (fun b => (b mod 256)%N) x ++ repeat 0%N 32);
  ed25519_verify := fun key signature data =>
    Some (bool_decide (signature = [key; (N.of_nat (length data) mod 256)%N]));
  importKey := head
|}.

Definition sampleDigest : jstring := repeat 65%N 43.

Definition samplePayload : ApprovalPayload := {|
  deployId := "d1"; project := "shop"; composeDigest := "c"; bodyDigest := sampleDigest;
  containerName := "shop-web-1"; jti := "t1"; features := ["host-network"]; iat := 1000;
  exp := 1600
|}.

Definition samplePayloadText : jstring :=
  toBase64Url (encode_text (quoted
    (("{'deployId':'d1','project':'shop','composeDigest':'c','bodyDigest':'" : jstring)
     ++ sampleDigest
     ++ ("','containerName':'shop-web-1','jti':'t1','features':['host-network']," : jstring)
     ++ ("'iat':1000,'exp':1600}" : jstring)))).

Definition sampleToken : jstring :=
  ("v2." : jstring) ++ samplePayloadText ++ 46%N ::
  toBase64Url [7%N; (N.of_nat (length (encode_text (APPROVAL_DOMAIN ++ samplePayloadText)))
                     mod 256)%N].

Lemma approval_is_signed_and_bound_witness :
  (1200 < exp samplePayload)%Z /\ (exp samplePayload - iat samplePayload <= 900)%Z /\
  (exp samplePayload <= 1200 + 960)%Z /\ project samplePayload = "shop".
Proof.
  pose proof (@approval_is_signed_and_bound integerTables toyCrypto sampleToken [3%N; 7%N]
    "shop" sampleDigest "shop-web-1" 1200 samplePayload) as Hth.
  destruct Hth as (_ & H1 & H2 & H3 & H4 & _); [vm_compute; reflexivity |].
  split; [exact H1 |]. split; [exact H2 |]. split; [exact H3 | exact H4].
Defined.

Definition memoryBody (swapped : bool) : jval :=
  let image := ("Image" : jstring, JStr "nginx") in
  let host := ("HostConfig" : jstring,
               JObj [("Memory" : jstring, JNum (num_of_Z 512))]) in
  let labels := ("Labels" : jstring, JObj [(APPROVAL_LABEL, JStr "v2.x.y")]) in
  JObj (if swapped then [host; image; ("Labels" : jstring, JObj [])] else [image; host; labels]).

Lemma memoryBody_printable swapped : @printable_value integerTables (memoryBody swapped).
Proof.
  assert (forall s, forallb (fun c => (c <? 65536)%N) s = true -> utf16 s) as Hu.
  { intros s Hs. apply Forall_forall. intros c Hc. rewrite forallb_forall in Hs.
    apply N.ltb_lt, Hs. by apply list_elem_of_In. }
  pose proof (@whole_number_ok integerTables integerTables_whole 512 ltac:(lia)).
  unfold memoryBody. destruct swapped;
  repeat match goal with
  | |- printable_value (JNum _) => by constructor
  | |- printable_value _ => constructor
  | |- NoDup _ => apply (bool_decide_unpack _); vm_compute; exact I
  | |- utf16 _ => by apply Hu
  | |- Forall _ [] => apply Forall_nil_2
  | |- Forall _ (_ :: _) => apply Forall_cons_2
  | |- _ /\ _ => split; cbn [fst snd]
  end.
Qed.

Lemma body_digest_identifies_body_witness :
  @approvalBodyDigest integerTables toyCrypto (Some (memoryBody false))
    = @approvalBodyDigest integerTables toyCrypto (Some (memoryBody true)) <->
  jsame (withoutApproval (memoryBody false)) (withoutApproval (memoryBody true)).
Proof.
  apply (@body_digest_identifies_body integerTables toyCrypto).
  - apply memoryBody_printable.
  - apply memoryBody_printable.
  - intros x. apply Forall_take, Forall_app. split.
    + apply Forall_map, Forall_forall. intros c _. unfold byte. by apply N.mod_lt.
    + repeat constructor.
  - intros _. vm_compute. reflexivity.
Defined.
