(* ===== verification/GateReplay.v ===== *)
(** * Single-use approvals ([approval.ts]: [ReplayCache]; [replay.ts])

    What the review asks of a replay cache is the interface [ReplayStore] and
    its laws [ReplayLaws]; the in-memory cache and the persistent one are its
    two instances.  [token_single_use] is proved from the laws alone.  The
    persistent cache runs against a disk: the bytes of its state file and how
    the next attempts to write it will end. *)

From S2P Require Import Prelude Text Json Number JsonPrint GateApproval.

Definition MAX_REMEMBERED_APPROVALS : nat := Z.to_nat 10000.

(** ** The interface *)

(** [claim(jti, exp, nowSec)] on a cache. *)
Class ReplayStore (S : Type) := claim : S -> jstring -> Z -> Z -> bool * S.

(** An expiry a double holds exactly. *)
Definition safe_time (e : Z) : Prop := (Z.abs e < 2 ^ 53)%Z.

Class ReplayLaws (S : Type) `{ReplayStore S} := {
  (** reachable states *)
  store_ok : S -> Prop;
  (** [jti] will be refused before [e] *)
  holds : S -> jstring -> Z -> Prop;
  claim_ok s j e now : store_ok s -> safe_time e -> store_ok (claim s j e now).2;
  claim_holds s j e now s' :
    store_ok s -> safe_time e -> claim s j e now = (true, s') -> holds s' j e;
  holds_refuses s j e e' now :
    store_ok s -> holds s j e -> (now < e)%Z -> (claim s j e' now).1 = false;
  holds_kept s j e j' e' now :
    store_ok s -> holds s j e -> (now < e)%Z -> safe_time e' ->
    holds (claim s j' e' now).2 j e
}.

(** Claims one after the other. *)
Fixpoint claimAll {S} `{ReplayStore S} (s : S) (history : list (jstring * Z * Z)) : S :=
  match history with
  | [] => s
  | (j, e, now) :: history' => claimAll (claim s j e now).2 history'
  end.

(** ** [ReplayCache] *)

Definition ReplayCache := jsmap Z.

Definition claimMemory (seen : ReplayCache) (j : jstring) (e nowSec : Z) : bool * ReplayCache :=
  let live := filter (fun entry => ~ (entry.2 <= nowSec)%Z) seen in
  if mapHas live j then (false, live)
  else if MAX_REMEMBERED_APPROVALS <=? length live then (false, live)
  else (true, mapSet j e live).

#[global] Instance ReplayCache_store : ReplayStore ReplayCache := claimMemory.

(** ** [PersistentReplayCache] *)

(** An attempt to persist: a step before the rename fails, or the file is
    replaced by what the one write call took of the text. *)
Inductive persist_event := PersistFails | Written (n : nat).

(** What reading the state file at start gives. *)
Inductive read_outcome := NotFound | Unreadable | FileText (text : jstring).

Record disk := { stateFile : option bytes; attempts : list persist_event }.

Record PersistentReplayCache := {
  enforce : bool;
  ids : jsmap spec_float;
  broken : bool;
  drive : disk
}.

Inductive used_error := BadJson | BadVersion | NoIds | BadExpiry | TooManyIds.

(** [for (const [id, exp] of Object.entries(ids))]. *)
Fixpoint liveIds (o : entries) (nowSec ceiling : Z) (live : jsmap spec_float)
    : result used_error (jsmap spec_float) :=
  match o with
  | [] => Ok live
  | (id, JNum e) :: o' =>
      if negb (num_finite e) then Throw BadExpiry
      else if num_leb e nowSec then liveIds o' nowSec ceiling live
      else liveIds o' nowSec ceiling (mapSet id (num_min e ceiling) live)
  | _ => Throw BadExpiry
  end.

Definition parseUsedIds (text : jstring) (nowSec : Z) : result used_error (jsmap spec_float) :=
  match JSON_parse text with
  | Ok (JObj parsed) =>
      match getEntry parsed "v" with
      | Some (JNum v) =>
          if negb (SFeqb v (num_of_Z 1)) then Throw BadVersion
          else
            match getEntry parsed "ids" with
            | Some (JObj o) =>
                live ← liveIds (ownEntries o) nowSec
                  (nowSec + MAX_APPROVAL_TTL_SEC + APPROVAL_CLOCK_SKEW_SEC) [];
                if MAX_REMEMBERED_APPROVALS <? length live then Throw TooManyIds else Ok live
            | _ => Throw NoIds
            end
      | _ => Throw BadVersion
      end
  | Ok _ => Throw BadVersion
  | Throw _ => Throw BadJson
  end.

(** Reading the file of a disk ([Deno.readTextFileSync] of a readable file). *)
Definition readFile (d : disk) : read_outcome :=
  match stateFile d with
  | None => NotFound
  | Some bs => FileText (decode_lenient bs)
  end.

(** The constructor with [#load] and [#fault]. *)
Definition openCache (enf : bool) (outcome : read_outcome) (nowSec : Z) (d : disk)
    : PersistentReplayCache :=
  let fault := {| enforce := enf; ids := []; broken := enf; drive := d |} in
  match outcome with
  | NotFound => {| enforce := enf; ids := []; broken := false; drive := d |}
  | Unreadable => fault
  | FileText text =>
      match parseUsedIds text nowSec with
      | Ok live => {| enforce := enf; ids := live; broken := false; drive := d |}
      | Throw _ => fault
      end
  end.

Section Persistent.
Context `{JsTables}.

Definition stateText (m : jsmap spec_float) : jstring :=
  JSON_stringify (JObj [("v" : jstring, JNum (num_of_Z 1));
                        ("ids" : jstring, JObj (fromEntries (map (fun e => (e.1, JNum e.2)) m)))]).

(** [#persist]: whether it returned, and the disk after it.  With no event
    left every write completes. *)
Definition persist (m : jsmap spec_float) (d : disk) : bool * disk :=
  let body := encode_text (stateText m) in
  match attempts d with
  | PersistFails :: rest => (false, {| stateFile := stateFile d; attempts := rest |})
  | Written n :: rest => (true, {| stateFile := Some (take n body); attempts := rest |})
  | [] => (true, {| stateFile := Some body; attempts := [] |})
  end.

Definition claimPersistent (c : PersistentReplayCache) (j : jstring) (e nowSec : Z)
    : bool * PersistentReplayCache :=
  if broken c then (false, c)
  else
    let live := filter (fun entry => num_leb entry.2 nowSec = false) (ids c) in
    let pruned := {| enforce := enforce c; ids := live; broken := broken c; drive := drive c |} in
    if mapHas live j then (false, pruned)
    else if MAX_REMEMBERED_APPROVALS <=? length live then (false, pruned)
    else
      let ids' := mapSet j (num_of_Z e) live in
      let '(written, d') := persist ids' (drive c) in
      let c' := {| enforce := enforce c; ids := ids'; broken := broken c; drive := d' |} in
      if negb written && enforce c then (false, c') else (true, c').

#[global] Instance PersistentReplayCache_store : ReplayStore PersistentReplayCache :=
  claimPersistent.
End Persistent.

(** ** The laws, for both caches *)

Lemma mapHas_get {A} (m : jsmap A) k v : mapGet m k = Some v -> mapHas m k = true.
Proof. intros E. apply mapHas_true. eauto. Qed.

Lemma fresh_other {A} (m : jsmap A) k k' v :
  mapHas m k = false -> mapGet m k' = Some v -> k <> k'.
Proof. intros Hn Hg ->. by rewrite (mapHas_get _ _ _ Hg) in Hn. Qed.

#[global] Program Instance ReplayCache_laws : ReplayLaws ReplayCache := {|
  store_ok seen := NoDup (map fst seen);
  holds seen j e := exists until, mapGet seen j = Some until /\ (e <= until)%Z
|}.
Next Obligation.
  intros seen j e now Hok _. unfold claim, ReplayCache_store, claimMemory.
  pose proof (filter_keys_NoDup (fun entry => ~ (entry.2 <= now)%Z) seen Hok).
  destruct (mapHas _ j) eqn:Eh; [done |]. case_match; [done |]. by apply mapSet_NoDup.
Qed.
Next Obligation.
  intros seen j e now s' Hok _. unfold claim, ReplayCache_store, claimMemory.
  destruct (mapHas _ j); [done |]. case_match; [done |]. intros [= <-].
  exists e. by rewrite mapGet_set.
Qed.
Next Obligation.
  intros seen j e e' now Hok (u & Hg & Hu) Hnow. unfold claim, ReplayCache_store, claimMemory.
  rewrite (mapHas_get _ _ u); [done |].
  apply (mapGet_survives (fun until => ~ (until <= now)%Z)); [done | done | lia].
Qed.
Next Obligation.
  intros seen j e j' e' now Hok (u & Hg & Hu) Hnow _. unfold claim, ReplayCache_store, claimMemory.
  assert (mapGet (filter (fun entry => ~ (entry.2 <= now)%Z) seen) j = Some u) as Hl.
  { apply (mapGet_survives (fun until => ~ (until <= now)%Z)); [done | done | lia]. }
  destruct (mapHas _ j') eqn:Eh; [by exists u |]. case_match; [by exists u |].
  exists u. split; [| done]. cbn [snd]. rewrite mapGet_set_ne; [done |].
  by eapply fresh_other.
Qed.

(** A stored expiry that is at least [e]. *)
Definition not_before (e : Z) (n : spec_float) : Prop :=
  forall t, (t < e)%Z -> num_leb n t = false.

Lemma not_before_exact e : safe_time e -> not_before e (num_of_Z e).
Proof.
  intros He t Ht. rewrite (num_leb_integer _ e) by by apply num_of_Z_exact.
  apply Z.leb_gt. lia.
Qed.

#[global] Program Instance PersistentReplayCache_laws `{JsTables} :
    ReplayLaws PersistentReplayCache := {|
  store_ok c := NoDup (map fst (ids c));
  holds c j e := broken c = true \/ exists n, mapGet (ids c) j = Some n /\ not_before e n
|}.
Next Obligation.
  intros ? c j e now Hok _. unfold claim, PersistentReplayCache_store, claimPersistent.
  destruct (broken c); [done |].
  pose proof (filter_keys_NoDup (fun entry => num_leb entry.2 now = false) _ Hok).
  destruct (mapHas _ j) eqn:Eh; [done |]. case_match; [done |].
  destruct (persist _ _) as [w d']. destruct (negb w && _); by apply mapSet_NoDup.
Qed.
Next Obligation.
  intros ? c j e now s' Hok He. unfold claim, PersistentReplayCache_store, claimPersistent.
  destruct (broken c); [done |]. destruct (mapHas _ j); [done |]. case_match; [done |].
  destruct (persist _ _) as [w d']. destruct (negb w && _); [done |]. intros [= <-].
  right. exists (num_of_Z e). cbn [ids]. rewrite mapGet_set. split; [done |].
  by apply not_before_exact.
Qed.
Next Obligation.
  intros ? c j e e' now Hok Hh Hnow. unfold claim, PersistentReplayCache_store, claimPersistent.
  destruct (broken c) eqn:Eb; [done |]. destruct Hh as [? | (n & Hg & Hn)]; [congruence |].
  rewrite (mapHas_get _ _ n); [done |].
  apply (mapGet_survives (fun until => num_leb until now = false)); [done .. | by apply Hn].
Qed.
Next Obligation.
  intros ? c j e j' e' now Hok Hh Hnow _.
  unfold claim, PersistentReplayCache_store, claimPersistent.
  destruct (broken c) eqn:Eb; [by left |]. destruct Hh as [? | (n & Hg & Hn)]; [congruence |].
  assert (mapGet (filter (fun entry => num_leb entry.2 now = false) (ids c)) j = Some n) as Hl.
  { apply (mapGet_survives (fun until => num_leb until now = false)); [done .. | by apply Hn]. }
  right. exists n. split; [| done].
  destruct (mapHas _ j') eqn:Eh; [done |]. case_match; [done |].
  destruct (persist _ _) as [w d']. destruct (negb w && _); cbn [snd ids];
    (rewrite mapGet_set_ne; [done |]; by eapply fresh_other).
Qed.

Lemma claimAll_holds {S} `{ReplayLaws S} (s : S) history j e :
  store_ok s -> holds s j e ->
  Forall (fun '(_, e', t) => (t < e)%Z /\ safe_time e') history ->
  store_ok (claimAll s history) /\ holds (claimAll s history) j e.
Proof.
  revert s. induction history as [| [[j' e'] t] history IH]; intros s Hok Hh Hall; [done |].
  apply Forall_cons in Hall as [[Ht He'] Hall']. cbn [claimAll].
  apply IH; [by apply claim_ok | by apply holds_kept | done].
Qed.

(** ** Properties *)

(** An approval is used once: with either cache, a token accepted once is
    refused at every later claim made before it expires, whatever other claims
    were made in between. *)
Theorem token_single_use {S} `{ReplayLaws S} (s s1 : S) j e now history e' now' :
  store_ok s -> safe_time e -> claim s j e now = (true, s1) ->
  Forall (fun '(_, e2, t) => (t < e)%Z /\ safe_time e2) history ->
  (now' < e)%Z ->
  (claim (claimAll s1 history) j e' now').1 = false.
Proof.
  intros Hok He Hc Hall Hnow.
  assert (store_ok s1) as Hok1 by (replace s1 with (claim s j e now).2 by (by rewrite Hc);
                                   by apply claim_ok).
  destruct (claimAll_holds s1 history j e) as [Hok2 Hh]; [done | by apply (claim_holds s j e now) | done |].
  by apply (holds_refuses _ j e).
Qed.

Lemma token_single_use_witness :
  (claim (S := ReplayCache)
     (claimAll [("t1" : jstring, 1600%Z)] [("t2" : jstring, 1700%Z, 1300%Z)]) "t1" 1600 1500).1
  = false.
Proof.
  apply (token_single_use ([] : ReplayCache) _ "t1" 1600 1200).
  - constructor.
  - reflexivity.
  - vm_compute. reflexivity.
  - repeat constructor.
  - reflexivity.
Defined.

(** The memory is bounded: no claim takes either cache beyond
    [MAX_REMEMBERED_APPROVALS] ids; at the limit a new token is refused. *)
Theorem replay_memory_bounded `{JsTables} (seen : ReplayCache) (c : PersistentReplayCache) j e now :
  length seen <= MAX_REMEMBERED_APPROVALS -> length (ids c) <= MAX_REMEMBERED_APPROVALS ->
  length (claim seen j e now).2 <= MAX_REMEMBERED_APPROVALS /\
  length (ids (claim c j e now).2) <= MAX_REMEMBERED_APPROVALS.
Proof.
  intros Hs Hc.
  assert (forall A (m : jsmap A) k v, mapHas m k = false -> length (mapSet k v m) = S (length m)) as Hset.
  { intros A m k v Hn. unfold mapHas in Hn. destruct (mapGet m k) eqn:E; [done |].
    apply mapGet_None in E. rewrite mapSet_fresh, length_app by done. simpl. lia. }
  split.
  - unfold claim, ReplayCache_store, claimMemory, ReplayCache, jsmap in *.
    pose proof (length_filter (fun entry => ~ (entry.2 <= now)%Z) seen).
    destruct (mapHas _ j) eqn:Eh; [cbn [snd]; lia |].
    destruct (Nat.leb_spec MAX_REMEMBERED_APPROVALS
      (length (filter (fun entry => ~ (entry.2 <= now)%Z) seen))); cbn [snd]; [lia |].
    rewrite Hset by done. lia.
  - unfold claim, PersistentReplayCache_store, claimPersistent, jsmap in *.
    destruct (broken c); [done |]. pose proof (length_filter (fun entry => num_leb entry.2 now = false) (ids c)).
    destruct (mapHas _ j) eqn:Eh; [cbn [snd ids]; lia |].
    destruct (_ <=? _) eqn:El; cbn [snd ids]; [lia |]. apply Nat.leb_gt in El.
    destruct (persist _ _) as [w d']. destruct (negb w && _); cbn [snd ids];
      rewrite Hset by done; lia.
Qed.

Lemma replay_memory_bounded_witness :
  let seen : ReplayCache := [("t0" : jstring, 1500%Z)] in
  let stored := {| enforce := true; ids := [("t0" : jstring, num_of_Z 1500)]; broken := false;
                   drive := {| stateFile := None; attempts := [] |} |} in
  length (claim seen "t1" 1600 1200).2 <= MAX_REMEMBERED_APPROVALS /\
  length (ids (claim (ReplayStore := @PersistentReplayCache_store integerTables)
                 stored "t1" 1600 1200).2) <= MAX_REMEMBERED_APPROVALS.
Proof.
  apply (@replay_memory_bounded integerTables); apply Nat.leb_le; vm_compute; reflexivity.
Defined.

Lemma claim_broken `{JsTables} (c : PersistentReplayCache) j e now :
  broken c = true -> claim c j e now = (false, c).
Proof. unfold claim, PersistentReplayCache_store, claimPersistent. by intros ->. Qed.

(** The persistent cache fails closed in enforce mode: after a state file
    that could not be read or parsed, no sequence of claims ever accepts a
    token; and a claim it does accept has replaced the state file with the
    text of its ids (as far as the write went). *)
Theorem persistent_cache_fails_closed `{JsTables} outcome start d history j e now :
  (outcome = Unreadable \/
   exists text err, outcome = FileText text /\ parseUsedIds text start = Throw err) ->
  (claim (claimAll (openCache true outcome start d) history) j e now).1 = false /\
  forall (c c' : PersistentReplayCache) j' e' now',
    enforce c = true -> claim c j' e' now' = (true, c') ->
    exists n, stateFile (drive c') = Some (take n (encode_text (stateText (ids c')))).
Proof.
  intros Hout. split.
  - assert (broken (openCache true outcome start d) = true) as Hb.
    { destruct Hout as [-> | (text & err & -> & E)]; [done |]. cbn [openCache]. by rewrite E. }
    assert (forall c : PersistentReplayCache, broken c = true -> claimAll c history = c) as Hall.
    { intros c Hc. induction history as [| [[j1 e1] t1] history IH]; [done |]. cbn [claimAll].
      by rewrite claim_broken. }
    rewrite Hall by done. by rewrite claim_broken.
  - intros c c' j' e' now' He. unfold claim, PersistentReplayCache_store, claimPersistent.
    destruct (broken c); [done |]. destruct (mapHas _ j'); [done |]. case_match; [done |].
    unfold persist. rewrite He.
    destruct (attempts (drive c)) as [| [| n] rest]; cbn [negb andb]; intros [= <-];
      cbn [drive stateFile ids]; [| by exists n].
    exists (length (encode_text (stateText (mapSet j' (num_of_Z e')
      (filter (fun entry => num_leb entry.2 now' = false) (ids c)))))).
    by rewrite firstn_all.
Qed.

Lemma persistent_cache_fails_closed_witness :
  (claim (ReplayStore := @PersistentReplayCache_store integerTables)
     (claimAll (H := @PersistentReplayCache_store integerTables)
        (openCache true (FileText "{'v':2}") 1000 {| stateFile := None; attempts := [] |})
        [("t0" : jstring, 1500%Z, 1100%Z)]) "t1" 1600 1200).1 = false.
Proof.
  refine (proj1 (@persistent_cache_fails_closed integerTables (FileText "{'v':2}") 1000
    {| stateFile := None; attempts := [] |} [("t0" : jstring, 1500%Z, 1100%Z)] "t1" 1600 1200 _)).
  right. exists ("{'v':2}" : jstring), BadJson. split; vm_compute; reflexivity.
Defined.

(** *** A restart remembers *)

(** Expiries are whole numbers a double holds, keys are strings, within the
    limit: what claims of parsed payloads build. *)
Definition whole_ids (m : jsmap spec_float) : Prop :=
  NoDup (map fst m) /\ length m <= MAX_REMEMBERED_APPROVALS /\
  Forall (fun e => utf16 e.1 /\ exists u, (0 <= u < 2 ^ 53)%Z /\ e.2 = num_of_Z u) m.

Definition asEntries (m : jsmap spec_float) : entries := map (fun e => (e.1, JNum e.2)) m.

Lemma asEntries_keys m : map fst (asEntries m) = map fst m.
Proof. unfold asEntries. by rewrite map_map. Qed.

Section Restart.
Context `{WholeNumberText}.

Definition stateValue (m : jsmap spec_float) : jval :=
  JObj [("v" : jstring, JNum (num_of_Z 1)); ("ids" : jstring, JObj (asEntries m))].

Lemma stateValue_printable m : whole_ids m -> printable_value (stateValue m).
Proof.
  intros (Hnd & _ & Hm).
  assert (forall s, forallb (fun c => (c <? 65536)%N) s = true -> utf16 s) as Hu.
  { intros s Hs. apply Forall_forall. intros c Hc. rewrite forallb_forall in Hs.
    apply N.ltb_lt, Hs. by apply list_elem_of_In. }
  constructor; [apply (bool_decide_unpack _); vm_compute; exact I |].
  apply Forall_cons_2; [split; [by apply Hu | constructor; apply whole_number_ok; lia] |].
  apply Forall_cons_2; [split; [by apply Hu |] | apply Forall_nil_2].
  constructor; [by rewrite asEntries_keys |].
  unfold asEntries. apply Forall_map. eapply Forall_impl; [exact Hm |].
  intros [k n] (Hk & u & Hr & ->). split; [done |]. constructor. by apply whole_number_ok.
Qed.

Lemma stateText_reads m :
  whole_ids m ->
  well_formed (stateText m) = true /\
  JSON_parse (stateText m)
    = Ok (JObj [("v" : jstring, JNum (num_of_Z 1));
                ("ids" : jstring, JObj (enumerate (asEntries m)))]).
Proof.
  intros Hm. pose proof (stateValue_printable m Hm) as Hp.
  assert (stateText m = compact (enumKeys (stateValue m))) as ->.
  { rewrite <- stringify_compact. unfold stateText, stateValue.
    rewrite fromEntries_nodup; [done |]. destruct Hm as [Hnd _].
    change (NoDup (map fst (asEntries m))). by rewrite asEntries_keys. }
  apply printable_enumKeys in Hp. split; [by apply well_formed_compact |].
  rewrite parse_compact by done.
  assert (enumKeys (JObj (asEntries m)) = JObj (enumerate (asEntries m))) as E.
  { simpl. f_equal. f_equal. unfold asEntries. by rewrite map_map. }
  change (enumKeys (stateValue m)) with
    (JObj [("v" : jstring, JNum (num_of_Z 1));
           ("ids" : jstring, enumKeys (JObj (asEntries m)))]).
  by rewrite E.
Qed.

(** What [parseUsedIds] keeps of ids listed in any order. *)
Lemma liveIds_spec o nowSec ceiling live :
  NoDup (map fst (live ++ map (fun e => (e.1, e.2)) o)) ->
  Forall (fun e : jstring * spec_float => num_finite e.2 = true) o ->
  liveIds (asEntries o) nowSec ceiling live
    = Ok (live ++ map (fun e => (e.1, num_min e.2 ceiling))
                    (filter (fun e => num_leb e.2 nowSec = false) o)).
Proof.
  revert live. induction o as [| [k n] o IH]; intros live Hnd Hf; [by rewrite app_nil_r |].
  inversion Hf as [| ? ? Hn Hf']; subst. cbn [asEntries map liveIds fst snd] in *.
  rewrite Hn. cbn [negb].
  assert (k ∉ map fst live) as Hk.
  { rewrite map_app in Hnd. apply NoDup_app in Hnd as (_ & Hd & _). intros Hin.
    apply (Hd k Hin). simpl. left. }
  destruct (num_leb n nowSec) eqn:E.
  - rewrite filter_cons_False by (cbn; congruence). apply IH; [| done].
    rewrite map_app in *. simpl in Hnd. apply NoDup_app in Hnd as (? & Hd & Hnd').
    inversion Hnd'; subst. apply NoDup_app. split_and!; [done | | done].
    intros x Hx Hin. apply (Hd x Hx). by right.
  - rewrite filter_cons_True by done. rewrite mapSet_fresh by done.
    rewrite IH; [by rewrite <- app_assoc | | done].
    rewrite !map_app in *. simpl in *. by rewrite <- app_assoc.
Qed.
End Restart.

Lemma whole_ids_perm m m' : m ≡ₚ m' -> whole_ids m -> whole_ids m'.
Proof.
  intros Hp (Hnd & Hl & Hf). split_and!.
  - by rewrite <- (fmap_Permutation fst _ _ Hp).
  - by rewrite <- Hp.
  - by rewrite <- Hp.
Qed.

Lemma whole_finite m :
  whole_ids m -> Forall (fun e : jstring * spec_float => num_finite e.2 = true) m.
Proof.
  intros (_ & _ & Hm). eapply Forall_impl; [exact Hm |]. intros [k n] (_ & u & Hu & ->).
  apply (integer_finite _ u), num_of_Z_exact. lia.
Qed.

Lemma whole_ids_claim m j e now :
  whole_ids m -> utf16 j -> (0 <= e < 2 ^ 53)%Z ->
  let live := filter (fun entry => num_leb entry.2 now = false) m in
  mapHas live j = false -> length live < MAX_REMEMBERED_APPROVALS ->
  whole_ids (mapSet j (num_of_Z e) live).
Proof.
  intros (Hnd & Hl & Hf) Hj He live Hh Hlt. split_and!.
  - apply mapSet_NoDup; [done |]. by apply filter_keys_NoDup.
  - unfold mapHas in Hh. destruct (mapGet live j) eqn:E; [done |]. apply mapGet_None in E.
    rewrite mapSet_fresh, length_app by done. simpl. lia.
  - unfold mapHas in Hh. destruct (mapGet live j) eqn:E; [done |]. apply mapGet_None in E.
    rewrite mapSet_fresh by done. apply Forall_app. split.
    + rewrite Forall_forall in Hf. apply Forall_forall. intros x [_ Hx]%list_elem_of_filter.
      by apply Hf.
    + apply Forall_cons_2; [| apply Forall_nil_2]. eauto.
Qed.

(** The file written for [m] loads as [m] without what has expired. *)
Lemma parseUsedIds_state `{WholeNumberText} m j e nowSec :
  whole_ids m -> mapGet m j = Some (num_of_Z e) -> (0 <= e < 2 ^ 53)%Z ->
  (nowSec < e <= nowSec + MAX_APPROVAL_TTL_SEC + APPROVAL_CLOCK_SKEW_SEC)%Z ->
  exists live, parseUsedIds (stateText m) nowSec = Ok live /\
    NoDup (map fst live) /\ mapGet live j = Some (num_of_Z e).
Proof.
  intros Hm Hg Hr He. destruct (stateText_reads m Hm) as [_ Hparse].
  unfold parseUsedIds. rewrite Hparse. cbn [getEntry]. rewrite decide_True by done.
  change (negb (SFeqb (num_of_Z 1) (num_of_Z 1))) with false. cbn iota.
  rewrite decide_False by done. rewrite decide_True by done.
  change (ownEntries (enumerate (asEntries m))) with (enumerate (enumerate (asEntries m))).
  change (asEntries m) with (map (onValue JNum) m). rewrite !enumerate_map.
  set (m2 := enumerate (enumerate m)).
  assert (m2 ≡ₚ m) as Hp by (unfold m2; by rewrite !enumerate_perm).
  pose proof (whole_ids_perm _ _ (symmetry Hp) Hm) as Hm2.
  change (map (onValue JNum) m2) with (asEntries m2).
  set (ceiling := (nowSec + MAX_APPROVAL_TTL_SEC + APPROVAL_CLOCK_SKEW_SEC)%Z) in *.
  rewrite liveIds_spec.
  2: { simpl. rewrite map_map. apply Hm2. }
  2: { by apply whole_finite. }
  cbn [app mbind result_bind].
  set (kept := filter (fun e => num_leb e.2 nowSec = false) m2).
  assert (length kept <= MAX_REMEMBERED_APPROVALS) as Hlen.
  { unfold kept. destruct Hm2 as (_ & Hl & _).
    pose proof (length_filter (fun e => num_leb e.2 nowSec = false) m2). lia. }
  rewrite length_map, (proj2 (Nat.ltb_ge _ _) Hlen).
  eexists. split; [done |].
  assert (NoDup (map fst (map (fun e => (e.1, num_min e.2 ceiling)) kept))) as Hnd.
  { rewrite map_map. apply filter_keys_NoDup, Hm2. }
  split; [done |].
  apply mapGet_elem; [done |]. apply list_elem_of_fmap. exists (j, num_of_Z e). split.
  - cbn [fst snd]. unfold num_min.
    rewrite (num_leb_integer _ e) by (apply num_of_Z_exact; lia).
    by rewrite (proj2 (Z.leb_le e ceiling)) by lia.
  - apply list_elem_of_filter. split.
    + cbn [snd]. rewrite (num_leb_integer _ e) by (apply num_of_Z_exact; lia).
      apply Z.leb_gt. lia.
    + rewrite Hp. by apply mapGet_elem; [apply Hm |].
Qed.

(** The next write to the state file is a complete one. *)
Definition completes (d : disk) (body : bytes) : Prop :=
  match attempts d with
  | [] => True
  | Written n :: _ => length body <= n
  | PersistFails :: _ => False
  end.

(** A restart does not forget: an id the persistent cache accepted, with
    its write complete, is read back from the file by a gate started before
    the token expires, which then refuses the token at every claim before its
    expiry. *)
Theorem restart_remembers `{WholeNumberText} c c' j e now restart enf e' t :
  whole_ids (ids c) -> utf16 j -> (0 <= e < 2 ^ 53)%Z ->
  claim c j e now = (true, c') ->
  completes (drive c) (encode_text (stateText (ids c'))) ->
  (restart < e <= restart + MAX_APPROVAL_TTL_SEC + APPROVAL_CLOCK_SKEW_SEC)%Z ->
  (t < e)%Z ->
  let fresh := openCache enf (readFile (drive c')) restart (drive c') in
  broken fresh = false /\ (claim fresh j e' t).1 = false.
Proof.
  intros Hm Hj He Hc Hw Hr Ht.
  unfold claim, PersistentReplayCache_store, claimPersistent in Hc.
  destruct (broken c); [done |]. destruct (mapHas _ j) eqn:Eh; [done |].
  destruct (_ <=? _) eqn:El; [done |]. apply Nat.leb_gt in El.
  pose proof (whole_ids_claim _ _ _ now Hm Hj He Eh El) as Hm'.
  set (m' := mapSet j (num_of_Z e) _) in *.
  assert (mapGet m' j = Some (num_of_Z e)) as Hg by apply mapGet_set.
  assert (ids c' = m' /\ stateFile (drive c') = Some (encode_text (stateText m'))) as [Hids Hfile].
  { unfold persist in Hc. unfold completes in Hw.
    destruct (attempts (drive c)) as [| [| n] rest]; [| done |]; cbn [negb andb] in Hc;
      injection Hc as <-; cbn [drive stateFile ids] in *; split; [done .. |].
    by rewrite take_ge. }
  destruct (stateText_reads m' Hm') as [Hwf _].
  destruct (parseUsedIds_state m' j e restart) as (live & Hlive & Hnd & Hgl); [done .. |].
  unfold readFile. rewrite Hfile, decode_encode by done. cbn [openCache]. rewrite Hlive.
  cbn [broken]. split; [done |].
  apply (holds_refuses _ j e); [done | | done]. right. exists (num_of_Z e). split; [done |].
  apply not_before_exact. unfold safe_time. lia.
Qed.

Definition emptyCache : PersistentReplayCache :=
  {| enforce := true; ids := []; broken := false;
     drive := {| stateFile := None; attempts := [] |} |}.

Lemma restart_remembers_witness :
  let c' := (@claimPersistent integerTables emptyCache "t1" 1600 1200).2 in
  let fresh := openCache true (readFile (drive c')) 1300 (drive c') in
  broken fresh = false /\
  (claim (ReplayStore := @PersistentReplayCache_store integerTables) fresh "t1" 1600 1500).1 = false.
Proof.
  refine (@restart_remembers integerTables integerTables_whole emptyCache _ "t1" 1600 1200 1300
    true 1600 1500 _ _ _ _ _ _ _).
  - split; [constructor |]. split; [apply Nat.le_0_l | constructor].
  - repeat constructor.
  - split; [discriminate | reflexivity].
  - vm_compute. reflexivity.
  - exact I.
  - split; [reflexivity | discriminate].
  - reflexivity.
Defined.
