(* ===== verification/GateInspect.v ===== *)
(** * Asking the engine who owns an object ([inspect.ts])

    One lookup is a fresh connection: what it will read, how its writes will
    behave, and whether the timer wins.  Any failure is "could not tell"
    ([None]). *)

From S2P Require Import Prelude Regex Text Json GateHttp GateStream GatePlatform GatePolicy.

#[local] Open Scope N_scope.

Definition MAX_INSPECT_BYTES : N := 1024 * 1024.

(** ** The request *)

Definition unescaped (b : N) : bool := is_alnum b || memb b "-_.!~*'()".

Definition upperHex (n : N) : N := if n <? 10 then 48 + n else 55 + n.

Definition escapeByte (b : N) : jstring :=
  if unescaped b then [b] else [37; upperHex (b / 16); upperHex (b mod 16)].

(** [encodeURIComponent]; [None] is the [URIError] of a lone surrogate. *)
Definition encodeURIComponent (s : jstring) : option jstring :=
  if well_formed s then
    Some (encode_text s ≫= escapeByte)
  else None.

Definition inspectPath (kind : InspectKind) (target : jstring) : option jstring :=
  name ← encodeURIComponent target;
  Some (match kind with
        | KContainer => ("/containers/" : jstring) ++ name ++ ("/json" : jstring)
        | KVolume => ("/volumes/" : jstring) ++ name
        | KNetwork => ("/networks/" : jstring) ++ name
        end).

Definition inspectRequest (path : jstring) : bytes :=
  encode_text (("GET " : jstring) ++ path ++ (" HTTP/1.1" : jstring) ++ CRLF
    ++ ("Host: docker" : jstring) ++ CRLF ++ ("Connection: close" : jstring) ++ CRLF ++ CRLF).

(** ** The answer *)

(** [parseInspect]: a JSON object or array. *)
Definition parseInspect (bs : bytes) : option jval :=
  match JSON_parse (decode_text bs) with
  | Ok (JObj o) => Some (JObj o)
  | Ok (JArr l) => Some (JArr l)
  | _ => None
  end.

(** [v.name] of an [unknown] that is not a string method or array member. *)
Definition prop (v : option jval) (name : jstring) : option jval :=
  match v with Some (JObj o) => getEntry o name | _ => None end.

Definition labelsFromDoc (doc : option jval) (kind : InspectKind) : option Labels :=
  match doc with
  | None => None
  | Some _ =>
      Some (labelsOf (match kind with
                      | KContainer => prop (prop doc "Config") "Labels"
                      | _ => prop doc "Labels"
                      end))
  end.

(** One connection to the engine. *)
Inductive connection :=
| Unreachable (name message : jstring)
| Connected (reads : list read_event) (writes : list write_event).

(** [readInspect].  The chunked branch captures with a cap and writes
    nowhere; the other branch fails as soon as the sink has been given more
    than the cap, which is when the total exceeds it. *)
Definition readInspect (reads : list read_event) (writes : list write_event)
    (kind : InspectKind) (target : jstring) : fallible (option jval) :=
  match inspectPath kind target with
  | None => Throw (OtherErr "URIError" "URI malformed")
  | Some path =>
      '_ ← (writeAll (Sink [] writes) (inspectRequest path)).1;
      '(head, r) ← readHead (Reader [] reads);
      match head with
      | None => Ok None
      | Some raw =>
          h ← parseResponseHead raw;
          if negb (status h =? 200) then Ok None
          else
            framing ← responseFraming "GET" h;
            match framing with
            | FChunked =>
                let '(res, st) :=
                  relayChunked (Relay r (Sink [] []) (Some (Capture [] 0 MAX_INSPECT_BYTES))) in
                '_ ← res;
                Ok (parseInspect (concat (from_option chunks [] (cap st))))
            | _ =>
                let '(res, k) := relayBody r framing (Sink [] []) in
                if MAX_INSPECT_BYTES <? N.of_nat (length (out k))
                then Throw (OtherErr "Error" "inspect answer too large")
                else '_ ← res; Ok (parseInspect (out k))
            end
      end
  end.

(** The race of a lookup with its timer. *)
Record lookup := { engine : connection; expires : bool }.

Definition fetchInspect (l : lookup) (kind : InspectKind) (target : jstring) : option jval :=
  if expires l then None
  else
    match engine l with
    | Unreachable _ _ => None
    | Connected reads writes =>
        match readInspect reads writes kind target with
        | Ok doc => doc
        | Throw _ => None
        end
    end.

Definition fetchLabels (l : lookup) (kind : InspectKind) (target : jstring) : option Labels :=
  labelsFromDoc (fetchInspect l kind target) kind.

Definition isBindMount (mount : jval) : bool := isString (prop (Some mount) "Type") "bind".

(** A live bind mount as a [HostConfig.Mounts] spec. *)
Definition mountSpec (mount : jval) : jval :=
  JObj ([("Type" : jstring, JStr "bind")]
        ++ (match prop (Some mount) "Source" with
            | Some source => [("Source" : jstring, source)]
            | None => []
            end)
        ++ [("ReadOnly" : jstring,
             JBool (match prop (Some mount) "RW" with Some (JBool false) => true | _ => false end))]).

Definition fetchContainerDoc (l : lookup) (target : jstring) : option ContainerDoc :=
  let doc := fetchInspect l KContainer target in
  labels ← labelsFromDoc doc KContainer;
  let live := match prop doc "Mounts" with Some (JArr ms) => ms | _ => [] end in
  let hostConfig := match prop doc "HostConfig" with Some (JObj o) => o | _ => [] end in
  Some {| dlabels := labels; dhostConfig := hostConfig;
          dmounts := map mountSpec (filter (fun m => isBindMount m = true) live) |}.

(** ** The request cannot be steered by the name it carries *)

Lemma below16 n : n < 16 -> target_char (upperHex n) = true /\ upperHex n <> 47 /\ upperHex n <> 63.
Proof.
  intros Hn. rewrite <- (N2Nat.id n). assert (N.to_nat n < 16)%nat as Hn' by lia.
  revert Hn'. generalize (N.to_nat n). intros k Hk.
  do 16 (destruct k as [| k]; [done |]). lia.
Qed.

Lemma hex_back n : n < 16 -> is_hex (upperHex n) = true /\ hexValue (upperHex n) = n.
Proof.
  intros Hn. rewrite <- (N2Nat.id n). assert (N.to_nat n < 16)%nat as Hn' by lia.
  revert Hn'. generalize (N.to_nat n). intros k Hk.
  do 16 (destruct k as [| k]; [done |]). lia.
Qed.

Lemma unescaped_ascii b : unescaped b = true -> b < 128 /\ b <> 37.
Proof.
  unfold unescaped, is_alnum, is_alpha, is_upper, is_lower, is_digit, in_range.
  rewrite !orb_true_iff, !andb_true_iff, !N.leb_le, memb_true.
  intros [Hb | Hb]; [lia |]. cbn in Hb.
  repeat (apply elem_of_cons in Hb as [-> | Hb]; [lia |]). by apply not_elem_of_nil in Hb.
Qed.

Lemma nibbles b : b < 256 -> b / 16 < 16 /\ b mod 16 < 16 /\ 16 * (b / 16) + b mod 16 = b.
Proof.
  intros Hb. pose proof (N.div_mod b 16 ltac:(done)).
  split_and!; [apply N.Div0.div_lt_upper_bound; lia | by apply N.mod_lt | lia].
Qed.

(** States the machine reaches: a continuation byte is never ASCII. *)
Definition utf8_ok (st : utf8_state) : Prop :=
  st = utf8_init \/ (need st <> O /\ 128 <= lower st).

Lemma utf8_start_ok b : utf8_ok (utf8_start b).2.
Proof.
  unfold utf8_start, utf8_ok.
  repeat case_match; cbn [snd need lower]; (by left) || (right; split; [done | lia]).
Qed.

Lemma utf8_byte_ok st b : utf8_ok (utf8_byte st b).2.
Proof.
  unfold utf8_byte. destruct (need st) as [| more]; [apply utf8_start_ok |].
  destruct (in_range _ _ b).
  - destruct more; [by left |]. right. cbn [snd need lower]. split; [done | lia].
  - pose proof (utf8_start_ok b). by destruct (utf8_start b).
Qed.

Lemma mapM_id_app {A} (l k : list (option A)) :
  mapM id (l ++ k) = x ← mapM id l; y ← mapM id k; Some (x ++ y).
Proof.
  induction l as [| o l IH]; cbn [app mapM]; [by destruct (mapM id k) |].
  destruct o as [a |]; [| done]. cbn [id mbind option_bind]. rewrite IH.
  destruct (mapM id l); [| done]. by destruct (mapM id k).
Qed.

(** What the machine says of a run of bytes is what decoding their escapes
    gives. *)
Lemma decodeURI_escaped bs st :
  Forall (fun b => b < 256) bs -> utf8_ok st ->
  decodeURI st (bs ≫= escapeByte)
    = cps ← mapM id (utf8_events st bs); Some (cps ≫= units_of_cp).
Proof.
  intros Hbs. revert st. induction Hbs as [| b bs Hb _ IH]; intros st Hst.
  { simpl. destruct (need st); done. }
  rewrite bind_step. unfold escapeByte at 1. destruct (unescaped b) eqn:Eu.
  - apply unescaped_ascii in Eu as [Hlt H37]. cbn [app decodeURI].
    rewrite (proj2 (N.eqb_neq b 37)) by done.
    destruct Hst as [-> | [Hn Hlo]].
    + cbn [need utf8_init]. rewrite IH by by left. rewrite utf8_lead.
      unfold utf8_start. rewrite (proj2 (N.ltb_lt b 128)) by done.
      rewrite mapM_id_app. cbn [mapM id mbind option_bind].
      destruct (mapM id (utf8_events utf8_init bs)) as [cps |]; [| done].
      assert (units_of_cp b = [b]) as Hub
        by (unfold units_of_cp; by rewrite (proj2 (N.ltb_lt b 65536)) by lia).
      change (Some (b :: (cps ≫= units_of_cp)) = Some ((b :: cps) ≫= units_of_cp)).
      by rewrite bind_step, Hub.
    + destruct (need st) as [| k] eqn:Ek; [done |]. cbn [utf8_events]. unfold utf8_byte. rewrite Ek.
      replace (in_range (lower st) (upper st) b) with false.
      2: { symmetry. unfold in_range. apply andb_false_iff. left. apply N.leb_gt. lia. }
      destruct (utf8_start b). done.
  - destruct (nibbles b Hb) as (Hh & Hl & Hsum).
    destruct (hex_back _ Hh) as [Hh1 Hh2]. destruct (hex_back _ Hl) as [Hl1 Hl2].
    cbn [app decodeURI utf8_events N.eqb Pos.eqb]. rewrite Hh1, Hl1, Hh2, Hl2, Hsum. cbn [andb].
    pose proof (utf8_byte_ok st b) as Hok.
    destruct (utf8_byte st b) as [ev st'] eqn:Eb. rewrite IH by done.
    rewrite mapM_id_app. destruct (mapM id ev) as [cps |]; [| done]. cbn [mbind option_bind].
    destruct (mapM id (utf8_events st' bs)) as [cps' |]; [| done].
    change (Some ((cps ≫= units_of_cp) ++ (cps' ≫= units_of_cp))
            = Some ((cps ++ cps') ≫= units_of_cp)).
    by rewrite bind_app.
Qed.

Lemma bytes_of_cp_bound c : scalar c -> Forall (fun b => b < 256) (bytes_of_cp c).
Proof.
  intros Hs. unfold bytes_of_cp, scalar in *.
  destruct (N.ltb_spec c 128); [repeat constructor; lia |].
  destruct (N.ltb_spec c 2048); [| destruct (N.ltb_spec c 65536)].
  - split_cp c q r. repeat constructor; lia.
  - rewrite div_4096. split_cp c q r. split_cp q p s. repeat constructor; lia.
  - rewrite div_262144, div_4096. split_cp c q r. split_cp q p s. split_cp p o t.
    repeat constructor; lia.
Qed.

Lemma encode_text_bound s : well_formed s = true -> Forall (fun b => b < 256) (encode_text s).
Proof.
  intros [Hs _]%units_code_points. unfold encode_text. induction Hs as [| c cs Hc _ IH]; [constructor |].
  rewrite bind_step. apply Forall_app. split; [by apply bytes_of_cp_bound | done].
Qed.

Lemma utf8_events_text s : well_formed s = true ->
  mapM id (utf8_events utf8_init (encode_text s)) = Some (code_points s).
Proof.
  intros [Hs _]%units_code_points. unfold encode_text. induction Hs as [| c cs Hc _ IH]; [done |].
  rewrite bind_step, utf8_cp by done. cbn [mapM id mbind option_bind]. by rewrite IH.
Qed.

Lemma encodeURI_back t name :
  encodeURIComponent t = Some name -> decodeURIComponent name = Some t.
Proof.
  unfold encodeURIComponent. destruct (well_formed t) eqn:Hw; [| done]. intros [= <-].
  unfold decodeURIComponent.
  rewrite decodeURI_escaped; [| by apply encode_text_bound | by left].
  rewrite utf8_events_text by done.
  change (Some (code_points t ≫= units_of_cp) = Some t). f_equal. by apply units_code_points.
Qed.

(** A character of an escaped name. *)
Definition name_char (c : N) : bool := target_char c && negb (c =? 47) && negb (c =? 63).

Lemma encodeURI_chars t name :
  encodeURIComponent t = Some name -> Forall (fun c => name_char c = true) name.
Proof.
  unfold encodeURIComponent. destruct (well_formed t) eqn:Hw; [| done]. intros [= <-].
  pose proof (encode_text_bound t Hw) as Hb.
  assert (forall n, n < 16 -> name_char (upperHex n) = true) as Hx.
  { intros n Hn. destruct (below16 n Hn) as (H1 & H2 & H3). unfold name_char. rewrite H1.
    by rewrite (proj2 (N.eqb_neq _ _) H2), (proj2 (N.eqb_neq _ _) H3). }
  induction Hb as [| b bs Hb _ IH]; [constructor |]. rewrite bind_step. apply Forall_app.
  split; [| done]. unfold escapeByte. destruct (unescaped b) eqn:Eu.
  - repeat constructor. unfold unescaped in Eu. apply orb_true_iff in Eu as [Eu | Eu].
    + unfold is_alnum, is_alpha, is_upper, is_lower, is_digit, in_range in Eu.
      unfold name_char, target_char, in_range.
      rewrite !orb_true_iff, !andb_true_iff, !N.leb_le in Eu.
      rewrite !andb_true_iff, !orb_true_iff, !negb_true_iff, !N.eqb_neq, andb_true_iff, !N.leb_le.
      lia.
    + apply memb_true in Eu. cbn in Eu.
      repeat (apply elem_of_cons in Eu as [-> | Eu]; [done |]). by apply not_elem_of_nil in Eu.
  - destruct (nibbles b Hb) as (Hh & Hl & _).
    apply Forall_cons_2; [done |]. apply Forall_cons_2; [by apply Hx |].
    apply Forall_cons_2; [by apply Hx | apply Forall_nil_2].
Qed.

Lemma encode_text_ascii s : is_ascii s = true -> encode_text s = s.
Proof.
  intros Ha. assert (code_points s = s) as Hcp.
  { revert Ha. induction s as [| c s IH]; [done |]. cbn [is_ascii forallb].
    intros [Hc Hs]%andb_true_iff. cbn [code_points]. apply N.ltb_lt in Hc.
    assert (forall lo hi, 128 <= lo -> in_range lo hi c = false) as Hr.
    { intros lo hi ?. unfold in_range. apply andb_false_iff. left. apply N.leb_gt. lia. }
    unfold is_high, is_low. rewrite !Hr by done. by rewrite IH. }
  unfold encode_text. rewrite Hcp. clear Hcp. induction s as [| c s IH]; [done |].
  cbn [is_ascii forallb] in Ha. apply andb_true_iff in Ha as [Hc Hs]. rewrite bind_step, IH by done.
  unfold bytes_of_cp. by rewrite Hc.
Qed.

Lemma splitCRLF_line l rest :
  13 ∉ l -> splitCRLF (l ++ 13 :: 10 :: rest) = l :: splitCRLF rest.
Proof.
  induction l as [| c l IH]; intros Hl; [done |].
  assert (13 ∉ l /\ c <> 13) as [Hl' Hc] by set_solver. specialize (IH Hl').
  change ((c :: l) ++ ?x) with (c :: (l ++ x)).
  destruct (l ++ 13 :: 10 :: rest) as [| d s] eqn:E; [by destruct l |].
  change (splitCRLF (c :: d :: s)) with
    (if (c =? 13) && (d =? 10) then [] :: splitCRLF s
     else match splitCRLF (d :: s) with [] => [[c]] | w :: ws => (c :: w) :: ws end).
  rewrite (proj2 (N.eqb_neq c 13)) by done. cbn [andb]. by rewrite IH.
Qed.

Lemma inspectPath_chars kind t path :
  inspectPath kind t = Some path ->
  lang TARGET path /\ Forall (fun c => target_char c = true) path.
Proof.
  unfold inspectPath. intros (name & Hn & [= <-])%bind_Some. apply encodeURI_chars in Hn.
  assert (Forall (fun c => target_char c = true) name) as Ht.
  { eapply Forall_impl; [exact Hn |]. intros c Hc. unfold name_char in Hc. by bools. }
  assert (forall s, forallb target_char s = true -> Forall (fun c => target_char c = true) s) as Hl.
  { intros s Hs. apply Forall_forall. intros c Hc. rewrite forallb_forall in Hs.
    apply Hs. by apply list_elem_of_In. }
  assert (forall p, Forall (fun c => target_char c = true) (47 :: p) -> lang TARGET (47 :: p)) as HT.
  { intros p Hp. inversion Hp; subst. apply (LCat _ _ [47] p); [by apply lang_char_iff |].
    by apply lang_star_set_iff. }
  destruct kind; (split; [cbn [js app]; apply HT |]);
    repeat (apply Forall_cons_2; [done |]); rewrite ?Forall_app; split_and?; auto.
Qed.

(** The request line and the two headers of a lookup. *)
Definition lookupLine (path : jstring) : jstring :=
  ("GET " : jstring) ++ path ++ (" HTTP/1.1" : jstring).
Definition lookupHeaders : jstring :=
  ("Host: docker" : jstring) ++ CRLF ++ ("Connection: close" : jstring).

Lemma targets_ascii path : Forall (fun c => target_char c = true) path -> is_ascii path = true.
Proof.
  intros Hc. apply forallb_forall. intros c Hin. rewrite <- list_elem_of_In in Hin.
  rewrite Forall_forall in Hc. specialize (Hc c Hin). unfold target_char, in_range in Hc.
  apply N.ltb_lt. rewrite !orb_true_iff, andb_true_iff, !N.eqb_eq, !N.leb_le in Hc. lia.
Qed.

Lemma inspectRequest_lines path :
  Forall (fun c => target_char c = true) path ->
  inspectRequest path = (lookupLine path ++ 13 :: 10 :: lookupHeaders) ++ CRLF ++ CRLF.
Proof.
  intros Ha%targets_ascii. unfold inspectRequest. rewrite encode_text_ascii.
  - unfold lookupLine, lookupHeaders. rewrite <- !app_assoc. done.
  - unfold is_ascii in *. rewrite !forallb_app. by rewrite Ha.
Qed.

Lemma lookupLine_lacks path c :
  Forall (fun c => target_char c = true) path -> target_char c = false ->
  c ∉ ("GET HTTP/1.1" : jstring) -> c ∉ lookupLine path.
Proof.
  intros Hc Hf Hin. unfold lookupLine.
  assert (c ∉ path) by (intros Hp; rewrite Forall_forall in Hc; specialize (Hc c Hp); congruence).
  cbn in *. set_solver.
Qed.

Lemma inspectRequest_split path :
  Forall (fun c => target_char c = true) path ->
  splitHeadLines (inspectRequest path)
    = Ok [lookupLine path; ("Host: docker" : jstring); ("Connection: close" : jstring)].
Proof.
  intros Hc. rewrite inspectRequest_lines by done. unfold splitHeadLines.
  rewrite length_app. cbn [CRLF app length].
  assert (forall n, n + 4 - 4 = n)%nat as E4 by lia. rewrite E4, take_app_length.
  assert (forall c, target_char c = false -> c ∉ ("GET HTTP/1.1" : jstring) ->
    c ∉ lookupLine path) as Hline by (intros; by apply lookupLine_lacks).
  assert (hasChar 0 (lookupLine path ++ 13 :: 10 :: lookupHeaders) = false) as H0.
  { apply hasChar_false. rewrite elem_of_app. intros [Hin | Hin].
    - revert Hin. apply Hline; [done |]. cbn. set_solver.
    - unfold lookupHeaders in Hin. cbn in Hin. set_solver. }
  rewrite H0, splitCRLF_line by (apply Hline; [done | cbn; set_solver]).
  replace (splitCRLF lookupHeaders) with ["Host: docker"; "Connection: close"] by done.
  cbn [existsb].
  assert (hasChar 10 (lookupLine path) = false /\ hasChar 13 (lookupLine path) = false) as [-> ->].
  { split; apply hasChar_false, Hline; (done || (cbn; set_solver)). }
  match goal with |- (if ?b then _ else _) = _ => replace b with false by (vm_compute; reflexivity) end.
  done.
Qed.

Lemma inspectRequest_parses path :
  lang TARGET path -> Forall (fun c => target_char c = true) path ->
  parseRequestHead (inspectRequest path)
    = Ok {| method := "GET"; target := path; version := "HTTP/1.1";
            headers := [("Host" : jstring, "docker" : jstring);
                        ("Connection" : jstring, "close" : jstring)];
            raw := inspectRequest path |}.
Proof.
  intros HT Hc. unfold parseRequestHead. rewrite inspectRequest_split by done. rewrite Ok_bind.
  assert (split 32 (lookupLine path) = [("GET" : jstring); path; ("HTTP/1.1" : jstring)]) as ->.
  { change (lookupLine path) with (("GET" : jstring) ++ 32 :: (path ++ 32 :: ("HTTP/1.1" : jstring))).
    assert (32 ∉ path) by (intros Hp; rewrite Forall_forall in Hc; by specialize (Hc 32 Hp)).
    rewrite !split_app_sep by (done || (cbn; set_solver)). done. }
  assert (parseHeaders ["Host: docker"; "Connection: close"]
    = Ok [("Host" : jstring, "docker" : jstring); ("Connection" : jstring, "close" : jstring)])
    as Eh by (vm_compute; reflexivity).
  replace (matches METHOD "GET") with true by (vm_compute; reflexivity).
  rewrite (proj2 (matches_iff _ _) HT).
  replace (matches VERSION "HTTP/1.1") with true by (vm_compute; reflexivity).
  cbn [negb]. rewrite Eh. done.
Qed.

(** A lookup asks exactly one question: for any object name, the bytes the
    gate sends parse back as a single [GET] of the inspect path with the two
    fixed headers, whose escaped last segment decodes to the name itself and
    holds no slash or question mark. *)
Theorem inspect_request_carries_name kind t path :
  inspectPath kind t = Some path ->
  parseRequestHead (inspectRequest path)
    = Ok {| method := "GET"; target := path; version := "HTTP/1.1";
            headers := [("Host" : jstring, "docker" : jstring);
                        ("Connection" : jstring, "close" : jstring)];
            raw := inspectRequest path |} /\
  exists name,
    path = match kind with
           | KContainer => ("/containers/" : jstring) ++ name ++ ("/json" : jstring)
           | KVolume => ("/volumes/" : jstring) ++ name
           | KNetwork => ("/networks/" : jstring) ++ name
           end /\
    decodeURIComponent name = Some t /\ 47 ∉ name /\ 63 ∉ name.
Proof.
  intros Hp. split.
  - destruct (inspectPath_chars kind t path Hp) as [HT Hc]. by apply inspectRequest_parses.
  - unfold inspectPath in Hp. apply bind_Some in Hp as (name & Hn & [= <-]).
    exists name. pose proof (encodeURI_chars _ _ Hn) as Hc. split_and!.
    + by destruct kind.
    + by apply encodeURI_back.
    + intros Hin. rewrite Forall_forall in Hc. by specialize (Hc _ Hin).
    + intros Hin. rewrite Forall_forall in Hc. by specialize (Hc _ Hin).
Qed.

Lemma inspect_request_carries_name_witness :
  exists path name,
    inspectPath KVolume "a/../b c" = Some path /\
    path = ("/volumes/" : jstring) ++ name /\ decodeURIComponent name = Some ("a/../b c" : jstring)
    /\ 47 ∉ name /\ 63 ∉ name.
Proof.
  exists "/volumes/a%2F..%2Fb%20c".
  destruct (inspect_request_carries_name KVolume "a/../b c" "/volumes/a%2F..%2Fb%20c")
    as (_ & name & Hn); [vm_compute; reflexivity |].
  exists name. split; [vm_compute; reflexivity | exact Hn].
Defined.
