(* ===== verification/GateState.v ===== *)
(** * The state a gate keeps while it serves ([stats.ts]) and its effects

    Handlers run in a state-and-exception monad over the counters, the log,
    the replay cache and the lookups the engine will answer; a rejection keeps
    the state reached so far. *)

From S2P Require Import Prelude Json GateHttp GateInspect GateReplay.

(** ** Counters *)

Definition bump (m : jsmap N) (key : jstring) : jsmap N :=
  mapSet key (default 0 (mapGet m key) + 1)%N m.

Record GateStats := {
  requests : jsmap N;
  upgrades : jsmap N;
  wouldDeny : jsmap N;
  refusals : jsmap N;
  allowed : jsmap N;
  approvals : jsmap N;
  approvedRules : jsmap N;
  owners : jsmap N
}.

Definition emptyStats : GateStats :=
  {| requests := []; upgrades := []; wouldDeny := []; refusals := []; allowed := [];
     approvals := []; approvedRules := []; owners := [] |}.

(** One counting call. *)
Inductive counter :=
| CRequest (route method : jstring) (status : N)
| CUpgrade (route : jstring)
| CViolation (rule : jstring)
| CRefusal (status : N)
| CAllowance (name : jstring)
| CApproval (outcome : jstring)
| CApprovedRule (rule : jstring)
| COwner (owner : jstring).

Definition count (c : counter) (s : GateStats) : GateStats :=
  let '{| requests := rq; upgrades := up; wouldDeny := wd; refusals := rf; allowed := al;
          approvals := ap; approvedRules := ar; owners := ow |} := s in
  match c with
  | CRequest r m st =>
      {| requests := bump rq (r ++ 9%N :: m ++ 9%N :: decimalText st); upgrades := up;
         wouldDeny := wd; refusals := rf; allowed := al; approvals := ap; approvedRules := ar;
         owners := ow |}
  | CUpgrade r =>
      {| requests := rq; upgrades := bump up r; wouldDeny := wd; refusals := rf; allowed := al;
         approvals := ap; approvedRules := ar; owners := ow |}
  | CViolation r =>
      {| requests := rq; upgrades := up; wouldDeny := bump wd r; refusals := rf; allowed := al;
         approvals := ap; approvedRules := ar; owners := ow |}
  | CRefusal st =>
      {| requests := rq; upgrades := up; wouldDeny := wd; refusals := bump rf (decimalText st);
         allowed := al; approvals := ap; approvedRules := ar; owners := ow |}
  | CAllowance n =>
      {| requests := rq; upgrades := up; wouldDeny := wd; refusals := rf; allowed := bump al n;
         approvals := ap; approvedRules := ar; owners := ow |}
  | CApproval o =>
      {| requests := rq; upgrades := up; wouldDeny := wd; refusals := rf; allowed := al;
         approvals := bump ap o; approvedRules := ar; owners := ow |}
  | CApprovedRule r =>
      {| requests := rq; upgrades := up; wouldDeny := wd; refusals := rf; allowed := al;
         approvals := ap; approvedRules := bump ar r; owners := ow |}
  | COwner o =>
      {| requests := rq; upgrades := up; wouldDeny := wd; refusals := rf; allowed := al;
         approvals := ap; approvedRules := ar; owners := bump ow o |}
  end.

(** ** Log records *)

Inductive log_event :=
| WouldDeny (rule : jstring) (detail : option jstring) (method route path : jstring)
| AllowedBy (allowance route : jstring)
| ApprovalAccepted (deploy project compose : jstring) (features covered : list jstring)
| ApprovalRejected (reason : jstring) (who : option (jstring * jstring))
| Denied (method route : jstring) (rules : list jstring)
| RoRefused (method path reason : jstring)
| UpstreamUnreachable (error : jstring)
| BadRequest (status : N) (reason : jstring)
| PeerClosed (error : jstring)
| ConnectionError (error : jstring).

(** ** The monad *)

Record gate (S : Type) := Gate {
  stats : GateStats;
  log : list log_event;
  replay : S;
  lookups : list lookup
}.
Arguments Gate {S}.
Arguments stats {S}.
Arguments log {S}.
Arguments replay {S}.
Arguments lookups {S}.

Definition act (S A : Type) : Type := gate S -> fallible A * gate S.

#[global] Instance act_ret S : MRet (act S) := fun A a g => (Ok a, g).
#[global] Instance act_bind S : MBind (act S) := fun A B k m g =>
  match m g with
  | (Ok a, g') => k a g'
  | (Throw e, g') => (Throw e, g')
  end.

Definition throw {S A} (e : gate_error) : act S A := fun g => (Throw e, g).
Definition lift {S A} (r : fallible A) : act S A := fun g => (r, g).

Definition counting {S} (c : counter) : act S unit := fun g =>
  (Ok tt, Gate (count c (stats g)) (log g) (replay g) (lookups g)).
Definition logging {S} (e : log_event) : act S unit := fun g =>
  (Ok tt, Gate (stats g) (log g ++ [e]) (replay g) (lookups g)).
Definition claiming {S} `{ReplayStore S} (j : jstring) (e now : Z) : act S bool := fun g =>
  let '(ok, s) := claim (replay g) j e now in (Ok ok, Gate (stats g) (log g) s (lookups g)).
(** The next lookup; past the listed ones the engine does not answer. *)
Definition asking {S} : act S lookup := fun g =>
  match lookups g with
  | [] => (Ok {| engine := Unreachable "Error" "closed"; expires := true |}, g)
  | l :: ls => (Ok l, Gate (stats g) (log g) (replay g) ls)
  end.

Fixpoint each {S A} (f : A -> act S unit) (l : list A) : act S unit :=
  match l with
  | [] => mret tt
  | x :: l' => '_ ← f x; each f l'
  end.

(** ** Reasoning about effects *)


Lemma act_bind_Ok {S A B} (m : act S A) (k : A -> act S B) g b g' :
  (m ≫= k) g = (Ok b, g') -> exists a g1, m g = (Ok a, g1) /\ k a g1 = (Ok b, g').
Proof.
  unfold mbind, act_bind. destruct (m g) as [[a | e] g1]; [eauto | done].
Qed.

Lemma act_bind_step {S A B} (m : act S A) (k : A -> act S B) g a g1 :
  m g = (Ok a, g1) -> (m ≫= k) g = k a g1.
Proof. unfold mbind, act_bind. by intros ->. Qed.

(** A loop of effects that never rejects only moves the state. *)
Lemma each_total {S A} (f : A -> act S unit) l g :
  (forall x g, exists g', f x g = (Ok tt, g')) -> exists g', each f l g = (Ok tt, g').
Proof.
  intros Hf. revert g. induction l as [| x l IH]; intros g; [by exists g |]. cbn [each].
  destruct (Hf x g) as [g1 E]. rewrite (act_bind_step _ _ _ _ _ E). apply IH.
Qed.

(** What an effect leaves of the parts it does not touch. *)
Lemma each_keeps {S A T} (proj : gate S -> T) (f : A -> act S unit) l g g' :
  (forall x g g1, f x g = (Ok tt, g1) -> proj g1 = proj g) ->
  each f l g = (Ok tt, g') -> proj g' = proj g.
Proof.
  intros Hf. revert g. induction l as [| x l IH]; intros g H; [by inversion H |].
  cbn [each] in H. apply act_bind_Ok in H as ([] & g1 & H1 & H2).
  rewrite (IH _ H2). by apply (Hf x).
Qed.
