(* ===== verification/GateReview.v ===== *)
(** * What the gate concludes about one request ([review.ts])

    The findings of the strict profile, what a signed approval removes of
    them, and whether the object a request acts on carries anything the
    platform stamped. *)

From S2P Require Import Prelude Regex Text Json Number JsonPrint Base64 GateHttp GateStream.
From S2P Require Import GatePlatform GateRoutes GatePolicy GateProfile GateApproval GateReplay.
From S2P Require Import GateInspect GateState.

Section Review.
Context `{JsTables} `{Crypto} {S : Type} `{ReplayStore S}.

(** What a review needs of its gate.  [nowSec] is the reading of the clock
    this request sees. *)
Record ReviewDeps := {
  policy : PolicyConfig;
  resolvePath : jstring -> fallible jstring;
  approvalKeys : list CryptoKey;
  nowSec : Z
}.

Definition logViolations (facts : RequestFacts) (r : Route) (vs : list Violation) : act S unit :=
  each (fun v =>
    '_ ← counting (CViolation (vrule v));
    logging (WouldDeny (vrule v) (vdetail v) (fmethod facts) (routeName r)
               (routePath (fpath facts)))) vs.

Definition logApproval (result : ApprovalResult) (covered : list Violation) : act S unit :=
  match result with
  | Approved payload =>
      '_ ← counting (CApproval "accepted");
      logging (ApprovalAccepted (deployId payload) (project payload) (composeDigest payload)
                 (features payload) (map vrule covered))
  | Rejected reason who =>
      '_ ← counting (CApproval (("rejected:" : jstring) ++ reason));
      logging (ApprovalRejected reason who)
  end.

(** Findings left after the create's signed approval, if it carries one. *)
Definition applyApproval (facts : RequestFacts) (labels : Labels) (vs : list Violation)
    (deps : ReviewDeps) : act S (list Violation) :=
  match getLabel labels APPROVAL_LABEL with
  | None => mret vs
  | Some token =>
      let verified :=
        verifyApproval token (approvalKeys deps) (labelOr labels LABEL_COMPOSE_PROJECT)
          (approvalBodyDigest (fplainBody facts)) (default [] (queryGet (fquery facts) "name"))
          (nowSec deps) in
      result ←
        match verified with
        | Approved payload =>
            fresh ← claiming (jti payload) (exp payload) (nowSec deps);
            mret (if fresh : bool then verified
                  else Rejected "replayed" (Some (deployId payload, project payload)))
        | Rejected _ _ => mret verified
        end;
      match result with
      | Rejected _ _ => '_ ← logApproval result []; mret vs
      | Approved payload =>
          let split := splitApproved vs payload in
          '_ ← logApproval result (approved split);
          '_ ← each (fun v => counting (CApprovedRule (vrule v))) (approved split);
          mret (remaining split)
      end
  end.

Definition createFindings (facts : RequestFacts) (found : list Violation) (deps : ReviewDeps)
    : act S (list Violation) :=
  let labels := labelsOf (prop (fbody facts) "Labels") in
  let owner := ownerOf labels in
  '_ ← counting (COwner (ownerName owner));
  let withOwner :=
    if decide (owner = Unlabeled) then found ++ [broke "unlabeled-create"] else found in
  applyApproval facts labels withOwner deps.

(** The object a request acts on, when it must be one the platform stamped. *)
Definition ownedSubject (facts : RequestFacts) : option (InspectKind * jstring) :=
  let path := routePath (fpath facts) in
  match ownedTarget (fmethod facts) path with
  | Some container => Some (KContainer, container)
  | None => ownedObject (fmethod facts) path
  end.

(** The container a [start] or [restart] acts on. *)
Definition startTarget (facts : RequestFacts) : option jstring :=
  if decide (fmethod facts <> "POST") then None
  else
    match segmentAfter "/containers/" (routePath (fpath facts)) with
    | Some (id, Some tail) => if memb tail ["start"; "restart"] then Some id else None
    | _ => None
    end.

(** [rule.replace(/^start-/, "")]. *)
Definition withoutStart (r : jstring) : jstring :=
  if startsWith "start-" r then drop 6 r else r.

Definition applyStartApproval (doc : ContainerDoc) (found : list Violation) (deps : ReviewDeps)
    : list Violation :=
  match getLabel (dlabels doc) APPROVAL_LABEL with
  | None => found
  | Some token =>
      if decide (found = []) then found
      else
        let fs := startApprovalFeatures token (approvalKeys deps)
                    (labelOr (dlabels doc) LABEL_COMPOSE_PROJECT) in
        filter (fun v => covered fs (withoutStart (vrule v)) = false) found
  end.

Definition ownerUnknown (name : jstring) : Violation := brokeAt "owner-unknown" (take 64 name).

(** Start and restart: ownership and the binds the engine would mount now. *)
Definition startFindings (name : jstring) (deps : ReviewDeps) : act S (list Violation) :=
  l ← asking;
  match fetchContainerDoc l name with
  | None => mret [ownerUnknown name]
  | Some doc =>
      let owned :=
        if decide (ownerOf (dlabels doc) = Unlabeled)
        then [brokeAt "unowned-container" (take 64 name)] else [] in
      binds ← lift (evaluateStartBinds doc (policy deps) (resolvePath deps));
      '_ ← each (fun a => counting (CAllowance a)) (allowances binds);
      mret (owned ++ applyStartApproval doc (violations binds) deps)
  end.

Definition unownedFinding (facts : RequestFacts) (deps : ReviewDeps) : act S (list Violation) :=
  match startTarget facts with
  | Some name => startFindings name deps
  | None =>
      match ownedSubject facts with
      | None => mret []
      | Some (kind, name) =>
          l ← asking;
          match fetchLabels l kind name with
          | None => mret [ownerUnknown name]
          | Some labels =>
              let platformRule :=
                match kind with
                | KContainer =>
                    platformAccessRule (routePath (fpath facts)) labels (fbody facts)
                | _ => None
                end in
              match platformRule with
              | Some r => mret [brokeAt r (take 64 name)]
              | None =>
                  if decide (ownerOf labels <> Unlabeled) then mret []
                  else mret [brokeAt (("unowned-" : jstring) ++ kindName kind) (take 64 name)]
              end
          end
      end
  end.

(** Judge one request; [extra] holds findings judged outside the policy. *)
Definition review (facts : RequestFacts) (r : Route) (deps : ReviewDeps)
    (extra : list Violation) : act S (list Violation) :=
  detail ← lift (evaluateDetailed facts (policy deps) (resolvePath deps));
  '_ ← each (fun a =>
          '_ ← counting (CAllowance a); logging (AllowedBy a (routeName r))) (allowances detail);
  findings ←
    (if decide (r = ContainersCreate) then createFindings facts (violations detail) deps
     else mret (violations detail));
  unowned ← unownedFinding facts deps;
  let all := findings ++ unowned ++ extra in
  '_ ← logViolations facts r all;
  mret all.
End Review.

(** ** Lemmas *)

Lemma counting_run {S} c (g : gate S) :
  exists g', counting c g = (Ok tt, g') /\ replay g' = replay g /\ lookups g' = lookups g.
Proof. by eexists. Qed.
Lemma logging_run {S} e (g : gate S) :
  exists g', logging e g = (Ok tt, g') /\ replay g' = replay g /\ lookups g' = lookups g.
Proof. by eexists. Qed.

(** Effects that only count and log. *)
Definition quiet {S} (m : act S unit) : Prop :=
  forall g, exists g', m g = (Ok tt, g') /\ replay g' = replay g /\ lookups g' = lookups g.

Lemma quiet_bind {S A} (m : act S unit) (k : unit -> act S A) g
    (P : fallible A * gate S -> Prop) :
  quiet m -> (forall g1, replay g1 = replay g -> lookups g1 = lookups g -> P (k tt g1)) ->
  P ((m ≫= k) g).
Proof.
  intros Hm HP. destruct (Hm g) as (g1 & E & Hr & Hl). rewrite (act_bind_step _ _ _ _ _ E). auto.
Qed.

Lemma quiet_seq {S} (m k : act S unit) : quiet m -> quiet k -> quiet (m ≫= fun _ => k).
Proof.
  intros Hm Hk g. apply (quiet_bind m); [done |]. intros g1 Hr Hl.
  destruct (Hk g1) as (g2 & E & Hr2 & Hl2). exists g2. rewrite E. split_and!; [done | congruence ..].
Qed.

Lemma quiet_each {S A} (f : A -> act S unit) l : (forall x, quiet (f x)) -> quiet (each f l).
Proof.
  intros Hf. induction l as [| x l IH]; [intros g; by exists g |].
  cbn [each]. by apply quiet_seq.
Qed.

Lemma quiet_counting {S} c : quiet (@counting S c).
Proof. intros g. apply counting_run. Qed.
Lemma quiet_logging {S} e : quiet (@logging S e).
Proof. intros g. apply logging_run. Qed.
#[export] Hint Resolve quiet_seq quiet_each quiet_counting quiet_logging : turbo.

Lemma quiet_logApproval {S} result vs : quiet (@logApproval S result vs).
Proof. destruct result; cbn [logApproval]; auto with turbo. Qed.

Lemma quiet_logViolations {S} facts r vs : quiet (@logViolations S facts r vs).
Proof. apply quiet_each. auto with turbo. Qed.
#[export] Hint Resolve quiet_logApproval quiet_logViolations : turbo.

Lemma quiet_result {S} (m : act S unit) g g' :
  quiet m -> m g = (Ok tt, g') -> replay g' = replay g /\ lookups g' = lookups g.
Proof. intros Hm E. destruct (Hm g) as (gx & E' & ?). rewrite E' in E. by injection E as <-. Qed.

Section ReviewFacts.
Context `{JsTables} `{Crypto} {S : Type} `{ReplayStore S}.
Implicit Types (g : gate S) (deps : ReviewDeps).

(** What the verifier says of the token a create carries. *)
Definition verified (facts : RequestFacts) (labels : Labels) deps token : ApprovalResult :=
  verifyApproval token (approvalKeys deps) (labelOr labels LABEL_COMPOSE_PROJECT)
    (approvalBodyDigest (fplainBody facts)) (default [] (queryGet (fquery facts) "name"))
    (nowSec deps).

(** An accepted approval: verified and claimed for the first time. *)
Definition accepted facts labels deps g payload (s' : S) : Prop :=
  exists token, getLabel labels APPROVAL_LABEL = Some token /\
    verified facts labels deps token = Approved payload /\
    claim (replay g) (jti payload) (exp payload) (nowSec deps) = (true, s').

Lemma applyApproval_spec facts labels vs deps g :
  exists out g', applyApproval facts labels vs deps g = (Ok out, g') /\
    lookups g' = lookups g /\
    (out = vs \/
     exists payload, accepted facts labels deps g payload (replay g') /\
       out = remaining (splitApproved vs payload)).
Proof.
  unfold applyApproval, accepted. destruct (getLabel labels APPROVAL_LABEL) as [token |].
  2: { exists vs, g. auto. }
  fold (verified facts labels deps token).
  destruct (verified facts labels deps token) as [payload | reason who] eqn:Ev.
  - destruct (claim (replay g) (jti payload) (exp payload) (nowSec deps)) as [[] s'] eqn:Ec.
    + assert (claiming (jti payload) (exp payload) (nowSec deps) g
        = (Ok true, Gate (stats g) (log g) s' (lookups g))) as E1 by (unfold claiming; by rewrite Ec).
      rewrite (act_bind_step _ _ g (Approved payload) (Gate (stats g) (log g) s' (lookups g)))
        by (by rewrite (act_bind_step _ _ _ _ _ E1)).
      apply quiet_bind; [auto with turbo |]. intros g1 Hr1 Hl1.
      apply quiet_bind; [auto with turbo |]. intros g2 Hr2 Hl2.
      eexists _, g2. split; [done |]. split; [by rewrite Hl2, Hl1 |]. right. exists payload.
      split; [| done]. exists token. rewrite Hr2, Hr1. done.
    + assert (claiming (jti payload) (exp payload) (nowSec deps) g
        = (Ok false, Gate (stats g) (log g) s' (lookups g))) as E1 by (unfold claiming; by rewrite Ec).
      rewrite (act_bind_step _ _ g (Rejected "replayed" (Some (deployId payload, project payload)))
                 (Gate (stats g) (log g) s' (lookups g)))
        by (by rewrite (act_bind_step _ _ _ _ _ E1)).
      apply quiet_bind; [auto with turbo |]. intros g1 Hr1 Hl1.
      exists vs, g1. split; [done |]. split; [by rewrite Hl1 |]. by left.
  - rewrite (act_bind_step _ _ g (Rejected reason who) g) by done.
    apply quiet_bind; [auto with turbo |]. intros g1 Hr1 Hl1.
    exists vs, g1. split; [done |]. split; [done |]. by left.
Qed.

Definition bodyLabels (facts : RequestFacts) : Labels := labelsOf (prop (fbody facts) "Labels").

(** The findings of a create before any approval. *)
Definition ownerFindings (facts : RequestFacts) (found : list Violation) : list Violation :=
  if decide (ownerOf (bodyLabels facts) = Unlabeled) then found ++ [broke "unlabeled-create"]
  else found.

Lemma createFindings_spec facts found deps g :
  exists out g', createFindings facts found deps g = (Ok out, g') /\
    lookups g' = lookups g /\
    (out = ownerFindings facts found \/
     exists payload, accepted facts (bodyLabels facts) deps g payload (replay g') /\
       out = remaining (splitApproved (ownerFindings facts found) payload)).
Proof.
  unfold createFindings. apply quiet_bind; [auto with turbo |]. intros g1 Hr Hl.
  destruct (applyApproval_spec facts (bodyLabels facts) (ownerFindings facts found) deps g1)
    as (out & g' & E & Hl' & Hout).
  exists out, g'. split; [exact E |]. split; [congruence |].
  destruct Hout as [-> | (payload & Ha & ->)]; [by left |]. right. exists payload.
  split; [| done]. unfold accepted in *. by rewrite <- Hr.
Qed.

(** A review runs its three parts in order. *)
Lemma review_parts facts r deps extra g all g' :
  review facts r deps extra g = (Ok all, g') ->
  exists detail findings unowned g0 g1 g2,
    evaluateDetailed facts (policy deps) (resolvePath deps) = Ok detail /\
    replay g0 = replay g /\ lookups g0 = lookups g /\
    (if decide (r = ContainersCreate) then createFindings facts (violations detail) deps
     else mret (violations detail)) g0 = (Ok findings, g1) /\
    unownedFinding facts deps g1 = (Ok unowned, g2) /\
    lookups g1 = lookups g /\
    all = findings ++ unowned ++ extra.
Proof.
  unfold review. intros Hrun.
  apply act_bind_Ok in Hrun as (detail & ga & Hd & Hrun). injection Hd as Hd <-.
  apply act_bind_Ok in Hrun as ([] & g0 & Ha & Hrun).
  assert (replay g0 = replay g /\ lookups g0 = lookups g) as [Hr0 Hl0].
  { eapply quiet_result; [| exact Ha]. auto with turbo. }
  apply act_bind_Ok in Hrun as (findings & g1 & Hf & Hrun).
  apply act_bind_Ok in Hrun as (unowned & g2 & Hu & Hrun).
  apply act_bind_Ok in Hrun as ([] & g3 & Hl & Hrun). injection Hrun as <- <-.
  exists detail, findings, unowned, g0, g1, g2. split_and!; try done.
  rewrite <- Hl0. case_decide.
  - destruct (createFindings_spec facts (violations detail) deps g0) as (o & gx & E & ? & _).
    rewrite E in Hf. by injection Hf as _ <-.
  - by injection Hf as _ <-.
Qed.

Lemma asking_run g l ls : lookups g = l :: ls -> exists g1, asking g = (Ok l, g1).
Proof. unfold asking. intros ->. by eexists. Qed.

Lemma asking_any g : exists l g1, asking g = (Ok l, g1).
Proof. unfold asking. destruct (lookups g); by do 2 eexists. Qed.

Lemma startFindings_inv name deps g out g' :
  startFindings name deps g = (Ok out, g') ->
  exists l g1, asking g = (Ok l, g1) /\
    match fetchContainerDoc l name with
    | None => out = [ownerUnknown name]
    | Some doc =>
        exists binds, evaluateStartBinds doc (policy deps) (resolvePath deps) = Ok binds /\
          out = (if decide (ownerOf (dlabels doc) = Unlabeled)
                 then [brokeAt "unowned-container" (take 64 name)] else [])
                ++ applyStartApproval doc (violations binds) deps
    end.
Proof.
  unfold startFindings. intros Hrun. apply act_bind_Ok in Hrun as (l & g1 & Ha & Hrun).
  exists l, g1. split; [done |]. destruct (fetchContainerDoc l name) as [doc |].
  - apply act_bind_Ok in Hrun as (binds & g2 & Hb & Hrun). injection Hb as Hb <-.
    apply act_bind_Ok in Hrun as ([] & g3 & _ & Hrun). injection Hrun as <- _. eauto.
  - by injection Hrun as <- _.
Qed.
End ReviewFacts.

(** ** Properties *)

(** The ownership check fails closed: when a request starts a container, or
    acts on a container, volume or network that must be owned, and the engine
    cannot tell what the object is (no connection, no answer in time, any
    answer but a complete 200 with a JSON object or array), the request has an
    [owner-unknown] finding. *)
Theorem unknown_owner_is_a_finding `{JsTables} `{Crypto} {S} `{ReplayStore S}
    facts r deps extra (g g' : gate S) l ls kind name all :
  (startTarget facts = Some name /\ kind = KContainer) \/
  (startTarget facts = None /\ ownedSubject facts = Some (kind, name)) ->
  lookups g = l :: ls -> fetchInspect l kind name = None ->
  review facts r deps extra g = (Ok all, g') ->
  ownerUnknown name ∈ all.
Proof.
  intros Hs Hl Hn Hrun.
  destruct (review_parts _ _ _ _ _ _ _ Hrun) as (detail & fs & un & g0 & g1 & g2 & _ & _ & _ & _ & Hu & Hl1 & ->).
  enough (un = [ownerUnknown name]) as -> by set_solver.
  rewrite Hl in Hl1. destruct (asking_run g1 l ls Hl1) as [ga Hask].
  unfold unownedFinding in Hu. destruct Hs as [[Hst ->] | [Hst Hsub]].
  - rewrite Hst in Hu. apply startFindings_inv in Hu as (l' & gb & Hask' & Hout).
    rewrite Hask in Hask'. injection Hask' as <- <-.
    unfold fetchContainerDoc in Hout. by rewrite Hn in Hout.
  - rewrite Hst, Hsub, (act_bind_step _ _ _ _ _ Hask) in Hu.
    unfold fetchLabels in Hu. rewrite Hn in Hu. by injection Hu as <- _.
Qed.

(** C3. What an unrefused request has gone through (no finding left): the
    strict profile found nothing, or the request is a create whose every
    finding is one of the six approvable rules, covered by a feature of a
    verified token claimed here for the first time; a create carries a
    platform or tenant label; and nothing was found outside the policy. *)
Theorem clean_review_is_justified `{JsTables} `{Crypto} {S} `{ReplayStore S}
    facts r deps extra (g g' : gate S) :
  review facts r deps extra g = (Ok [], g') ->
  extra = [] /\
  exists detail, evaluateDetailed facts (policy deps) (resolvePath deps) = Ok detail /\
    (r <> ContainersCreate -> violations detail = []) /\
    (r = ContainersCreate ->
       ownerOf (bodyLabels facts) <> Unlabeled /\
       forall v, v ∈ violations detail ->
         exists payload s' feature,
           accepted facts (bodyLabels facts) deps g payload s' /\
           APPROVABLE_RULES (vrule v) = Some feature /\ feature ∈ features payload).
Proof.
  intros Hrun.
  destruct (review_parts _ _ _ _ _ _ _ Hrun)
    as (detail & fs & un & g0 & g1 & g2 & Hd & Hr0 & _ & Hf & _ & _ & Hall).
  symmetry in Hall. apply app_nil in Hall as [-> Hall]. apply app_nil in Hall as [_ ->].
  split; [done |]. exists detail. split; [done |]. split.
  - intros Hne. rewrite decide_False in Hf by done. by injection Hf as -> _.
  - intros ->. rewrite decide_True in Hf by done.
    destruct (createFindings_spec facts (violations detail) deps g0) as (out & gx & E & _ & Hout).
    rewrite E in Hf. injection Hf as -> <-.
    destruct Hout as [Hout | (payload & Ha & Hout)].
    + unfold ownerFindings in Hout. case_decide; [by destruct (violations detail) |].
      split; [done |]. rewrite <- Hout. by intros v ?%not_elem_of_nil.
    + pose proof (splitApproved_filter (ownerFindings facts (violations detail)) payload) as [Hrem _].
      rewrite <- Hout in Hrem. symmetry in Hrem.
      assert (forall v, v ∈ ownerFindings facts (violations detail) ->
        covered (features payload) (vrule v) = true) as Hcov.
      { intros v Hv. destruct (covered _ (vrule v)) eqn:Ec; [done |].
        assert (v ∈ @nil Violation) as Hin by (rewrite <- Hrem; by apply list_elem_of_filter).
        by apply not_elem_of_nil in Hin. }
      split.
      * intros Hown. unfold ownerFindings in Hcov. rewrite decide_True in Hcov by done.
        by specialize (Hcov (broke "unlabeled-create") ltac:(set_solver)).
      * intros v Hv. destruct (covered_approvable (features payload) (vrule v)) as (f & Hf & Hin).
        { apply Hcov. unfold ownerFindings. case_decide; [set_solver | done]. }
        exists payload, (replay gx), f. split; [| done].
        unfold accepted in *. by rewrite <- Hr0.
Qed.

(** C10. Nothing foreign is touched: a request with no finding left that starts
    a container or acts on an owned object got an answer from the engine for
    that very object, the object carries a platform or tenant label, access to
    a platform container is on the allowlist, and for a start every bind the
    profile would refuse is covered by a feature the container's own signed
    approval names. *)
Theorem clean_review_owns_subject `{JsTables} `{Crypto} {S} `{ReplayStore S}
    facts r deps extra (g g' : gate S) l ls :
  lookups g = l :: ls -> review facts r deps extra g = (Ok [], g') ->
  (forall name, startTarget facts = Some name ->
     exists doc binds, fetchContainerDoc l name = Some doc /\
       ownerOf (dlabels doc) <> Unlabeled /\
       evaluateStartBinds doc (policy deps) (resolvePath deps) = Ok binds /\
       forall v, v ∈ violations binds ->
         exists token f, getLabel (dlabels doc) APPROVAL_LABEL = Some token /\
           APPROVABLE_RULES (withoutStart (vrule v)) = Some f /\
           f ∈ startApprovalFeatures token (approvalKeys deps)
                 (labelOr (dlabels doc) LABEL_COMPOSE_PROJECT)) /\
  (forall kind name, startTarget facts = None -> ownedSubject facts = Some (kind, name) ->
     exists labels, fetchLabels l kind name = Some labels /\ ownerOf labels <> Unlabeled /\
       (kind = KContainer ->
        platformAccessRule (routePath (fpath facts)) labels (fbody facts) = None)).
Proof.
  intros Hl Hrun.
  destruct (review_parts _ _ _ _ _ _ _ Hrun)
    as (detail & fs & un & g0 & g1 & g2 & _ & _ & _ & _ & Hu & Hl1 & Hall).
  symmetry in Hall. apply app_nil in Hall as [_ Hall]. apply app_nil in Hall as [-> _].
  rewrite Hl in Hl1. destruct (asking_run g1 l ls Hl1) as [ga Hask].
  unfold unownedFinding in Hu. split.
  - intros name Hst. rewrite Hst in Hu. apply startFindings_inv in Hu as (l' & gb & Hask' & Hout).
    rewrite Hask in Hask'. injection Hask' as <- <-.
    destruct (fetchContainerDoc l name) as [doc |]; [| done].
    destruct Hout as (binds & Hb & Hout). exists doc, binds.
    symmetry in Hout. apply app_nil in Hout as [Hown Hout]. case_decide as Howner; [done |].
    split_and!; [done .. |]. intros v Hv. unfold applyStartApproval in Hout.
    destruct (getLabel (dlabels doc) APPROVAL_LABEL) as [token |].
    2: { rewrite Hout in Hv. by apply not_elem_of_nil in Hv. }
    case_decide as Hne; [rewrite Hne in Hv; by apply not_elem_of_nil in Hv |].
    destruct (covered (startApprovalFeatures token (approvalKeys deps)
      (labelOr (dlabels doc) LABEL_COMPOSE_PROJECT)) (withoutStart (vrule v))) eqn:Ec.
    + apply covered_approvable in Ec as (f & ? & ?). eauto.
    + exfalso. apply (not_elem_of_nil v). rewrite <- Hout. by apply list_elem_of_filter.
  - intros kind name Hst Hsub. rewrite Hst, Hsub, (act_bind_step _ _ _ _ _ Hask) in Hu.
    destruct (fetchLabels l kind name) as [labels |]; [| done].
    exists labels. split; [done |].
    destruct (match kind with KContainer => _ | _ => _ end) as [rule |] eqn:Ep in Hu; [done |].
    case_decide as Ho; [| done]. split; [done |]. by intros ->.
Qed.

Lemma safeInteger_safe v z : safeInteger v = Some z -> safe_time z.
Proof.
  unfold safeInteger, safe_integer, safe_time. destruct v as [[] |]; try done.
  intros (x & _ & Hx)%bind_Some. case_match eqn:E; [| done]. simplify_eq.
  apply Z.leb_le in E. lia.
Qed.

Lemma parsePayload_safe bs payload : parsePayload bs = Some payload -> safe_time (exp payload).
Proof.
  unfold parsePayload. destruct (JSON_parse _) as [[| | | | | p] |]; try done.
  intros (fs & _ & H)%bind_Some. apply bind_Some in H as (i & _ & H).
  apply bind_Some in H as (e & He & H).
  repeat (apply bind_Some in H as (? & _ & H)). case_match; [done |].
  apply bind_Some in H as (? & _ & H). simplify_eq. by eapply safeInteger_safe.
Qed.

Lemma verified_safe `{JsTables} `{Crypto} token keys p d n now payload :
  verifyApproval token keys p d n now = Approved payload -> safe_time (exp payload).
Proof.
  unfold verifyApproval. intros Hv. repeat case_match; simplify_eq; try done.
  by eapply parsePayload_safe.
Qed.

(** C6. An approval lifts findings once: after a create was approved, any later
    create that presents a token of the same id before the first one expires
    keeps all its findings, whatever was claimed in between, with either
    replay cache. *)
Theorem approval_lifts_once `{JsTables} `{Crypto} {S} `{ReplayLaws S}
    facts labels deps (g g2 : gate S) payload s' history
    facts2 labels2 vs2 deps2 token2 payload2 :
  store_ok (replay g) -> accepted facts labels deps g payload s' ->
  replay g2 = claimAll s' history ->
  Forall (fun '(_, e, t) => (t < exp payload)%Z /\ safe_time e) history ->
  getLabel labels2 APPROVAL_LABEL = Some token2 ->
  verified facts2 labels2 deps2 token2 = Approved payload2 ->
  jti payload2 = jti payload -> (nowSec deps2 < exp payload)%Z ->
  (applyApproval facts2 labels2 vs2 deps2 g2).1 = Ok vs2.
Proof.
  intros Hok (token & _ & Hv & Hc) Hg2 Hhist Ht2 Hv2 Hj Hnow.
  assert (safe_time (exp payload)) as Hsafe by by eapply verified_safe.
  assert (store_ok s') as Hok1.
  { replace s' with (claim (replay g) (jti payload) (exp payload) (nowSec deps)).2
      by by rewrite Hc. by apply claim_ok. }
  destruct (claimAll_holds s' history (jti payload) (exp payload)) as [Hok2 Hh];
    [done | by apply (claim_holds (replay g) _ _ (nowSec deps)) | done |].
  destruct (applyApproval_spec facts2 labels2 vs2 deps2 g2) as (out & g' & E & _ & Hout).
  rewrite E. cbn [fst]. destruct Hout as [-> | (p3 & (t3 & Ht3 & Hv3 & Hc3) & _)]; [done |].
  exfalso. rewrite Ht2 in Ht3. injection Ht3 as <-. rewrite Hv2 in Hv3. injection Hv3 as <-.
  rewrite Hg2, Hj in Hc3.
  pose proof (holds_refuses _ (jti payload) (exp payload) (exp payload2) (nowSec deps2) Hok2 Hh Hnow)
    as Hr. by rewrite Hc3 in Hr.
Qed.

(** ** Examples *)

Definition sampleDeps : @ReviewDeps toyCrypto :=
  @Build_ReviewDeps toyCrypto DEFAULT_POLICY_CONFIG Ok ([7%N] : list N) 1200.

(** An engine answer with a JSON body. *)
Definition jsonAnswer (text : jstring) : lookup :=
  let body := quoted text in
  {| engine := Connected
       [Chunk (("HTTP/1.1 200 OK" : jstring) ++ CRLF ++ ("Content-Length: " : jstring)
               ++ decimalText (N.of_nat (length body)) ++ CRLF ++ CRLF); Chunk body] [];
     expires := false |}.

Definition gateWith (ls : list lookup) : gate ReplayCache := Gate emptyStats [] [] ls.

Definition silentEngine : lookup := {| engine := Connected [] []; expires := true |}.

Definition killRequest : RequestFacts := factsOf "POST" "/containers/web/kill" None.
Definition startRequest : RequestFacts := factsOf "POST" "/containers/web/start" None.

Definition sampleReview (facts : RequestFacts) (ls : list lookup)
    : fallible (list Violation) * gate ReplayCache :=
  @review integerTables toyCrypto ReplayCache _ facts
    (route (classifyRoute (fmethod facts) (fpath facts))) sampleDeps [] (gateWith ls).

Lemma unknown_owner_is_a_finding_witness :
  exists all g', sampleReview killRequest [silentEngine] = (Ok all, g') /\
    ownerUnknown "web" ∈ all.
Proof.
  destruct (sampleReview killRequest [silentEngine]) as [[all | e] g'] eqn:E.
  - exists all, g'. split; [reflexivity |].
    refine (@unknown_owner_is_a_finding integerTables toyCrypto ReplayCache _ killRequest _
      sampleDeps [] (gateWith [silentEngine]) g' silentEngine [] KContainer "web" all _ _ _ E).
    + right. split; vm_compute; reflexivity.
    + reflexivity.
    + vm_compute. reflexivity.
  - exfalso. vm_compute in E. discriminate E.
Defined.

Definition tenantAnswer : lookup :=
  jsonAnswer "{'Config':{'Labels':{'com.docker.compose.project':'shop'}},'HostConfig':{'Binds':['/srv/users/u1/data:/d']}}".

Lemma clean_review_owns_subject_witness :
  exists doc binds, fetchContainerDoc tenantAnswer "web" = Some doc /\
    ownerOf (dlabels doc) <> Unlabeled /\
    @evaluateStartBinds integerTables doc (policy sampleDeps) (resolvePath sampleDeps) = Ok binds /\
    forall v, v ∈ violations binds ->
      exists token f, getLabel (dlabels doc) APPROVAL_LABEL = Some token /\
        APPROVABLE_RULES (withoutStart (vrule v)) = Some f /\
        f ∈ @startApprovalFeatures toyCrypto token (approvalKeys sampleDeps)
              (labelOr (dlabels doc) LABEL_COMPOSE_PROJECT).
Proof.
  assert (exists g', sampleReview startRequest [tenantAnswer] = (Ok [], g')) as [g' E]
    by (eexists; vm_compute; reflexivity).
  destruct (@clean_review_owns_subject integerTables toyCrypto ReplayCache _ startRequest _
    sampleDeps [] (gateWith [tenantAnswer]) g' tenantAnswer [] eq_refl E) as [Hstart _].
  apply Hstart. vm_compute. reflexivity.
Defined.

(** A create that asks for the host network, with a token signed for it. *)
Definition hostBody (labels : entries) : jval :=
  JObj [("Image" : jstring, JStr "nginx");
        ("HostConfig" : jstring, JObj [("NetworkMode" : jstring, JStr "host")]);
        ("Labels" : jstring, JObj ((LABEL_COMPOSE_PROJECT, JStr "shop") :: labels))].

Definition hostDigest : jstring :=
  @approvalBodyDigest integerTables toyCrypto (Some (hostBody [])).

Definition hostToken : jstring :=
  let p := toBase64Url (encode_text (quoted
    (("{'deployId':'d1','project':'shop','composeDigest':'c','bodyDigest':'" : jstring)
     ++ hostDigest
     ++ ("','containerName':'shop-web-1','jti':'t1','features':['host-network']," : jstring)
     ++ ("'iat':1000,'exp':1600}" : jstring)))) in
  ("v2." : jstring) ++ p ++ 46%N ::
  toBase64Url [7%N; (N.of_nat (length (encode_text (APPROVAL_DOMAIN ++ p))) mod 256)%N].

Definition hostCreate : RequestFacts :=
  let body := Some (hostBody [(APPROVAL_LABEL, JStr hostToken)]) in
  {| fmethod := "POST"; fpath := "/containers/create";
     fquery := [("name" : jstring, "shop-web-1" : jstring)]; fbody := body; fplainBody := body;
     fformBody := false; fbodyError := None |}.

Lemma clean_review_is_justified_witness :
  exists g', sampleReview hostCreate [] = (Ok [], g') /\
  exists detail,
    @evaluateDetailed integerTables hostCreate (policy sampleDeps) (resolvePath sampleDeps)
      = Ok detail /\
    forall v, v ∈ violations detail ->
      exists payload s' feature,
        @accepted integerTables toyCrypto ReplayCache _ hostCreate (bodyLabels hostCreate)
          sampleDeps (gateWith []) payload s' /\
        APPROVABLE_RULES (vrule v) = Some feature /\ feature ∈ features payload.
Proof.
  assert (exists g', sampleReview hostCreate [] = (Ok [], g')) as [g' E]
    by (eexists; vm_compute; reflexivity).
  exists g'. split; [exact E |].
  destruct (@clean_review_is_justified integerTables toyCrypto ReplayCache _ hostCreate
    _ sampleDeps [] (gateWith []) g' E) as (_ & detail & Hd & _ & Hcreate).
  exists detail. split; [exact Hd |]. destruct Hcreate as [_ Hv]; [vm_compute; reflexivity | exact Hv].
Defined.

Definition hostPayload : ApprovalPayload := {|
  deployId := "d1"; project := "shop"; composeDigest := "c"; bodyDigest := hostDigest;
  containerName := "shop-web-1"; jti := "t1"; features := ["host-network"]; iat := 1000;
  exp := 1600
|}.

Lemma approval_lifts_once_witness :
  (@applyApproval integerTables toyCrypto ReplayCache _ hostCreate (bodyLabels hostCreate)
     [broke "network-mode-host"] sampleDeps
     (Gate emptyStats [] [("t1" : jstring, 1600%Z); ("t9" : jstring, 1500%Z)] [])).1
  = Ok [broke "network-mode-host"].
Proof.
  refine (@approval_lifts_once integerTables toyCrypto ReplayCache _ _ hostCreate
    (bodyLabels hostCreate) sampleDeps (gateWith []) _ hostPayload
    ([("t1" : jstring, 1600%Z)] : ReplayCache) [("t9" : jstring, 1500%Z, 1300%Z)]
    hostCreate (bodyLabels hostCreate) _ sampleDeps hostToken hostPayload _ _ _ _ _ _ _ _).
  - constructor.
  - exists hostToken. split; [vm_compute; reflexivity |]. split; vm_compute; reflexivity.
  - vm_compute. reflexivity.
  - repeat constructor.
  - vm_compute. reflexivity.
  - vm_compute. reflexivity.
  - reflexivity.
  - reflexivity.
Defined.
