(* ===== verification/GateProxy.v ===== *)
(** * One client connection through the gate ([proxy.ts])

    A connection is what the client will send, what it has been sent, the
    gate's shared state, the engine connections that will be opened and the
    bytes each has received.  The request body of a request the policy does
    not hold is relayed alongside the response; when the gate does not wait
    for it, [bodyCut] says how much of it got through. *)

From S2P Require Import Prelude Regex Text Json JsonPrint GateBody GateHttp GateStream.
From S2P Require Import GateRoutes GatePolicy GateReadonly GateApproval GateReplay GateInspect.
From S2P Require Import GateState GateReview.

#[local] Open Scope N_scope.

Definition DEFAULT_MAX_BODY_BYTES : N := 4 * 1024 * 1024.

(** ** The request target *)

Definition parseTarget (target : jstring) : fallible (jstring * query) :=
  if hasChar 35 target then Throw (HttpErr 400 "invalid request target")
  else
    let '(rawPath, rawQuery) :=
      match indexOf 63 target with
      | None => (target, [])
      | Some question => (take question target, drop (S question) target)
      end in
    match decodeURIComponent rawPath with
    | None => Throw (HttpErr 400 "invalid percent-encoding in the request path")
    | Some path => Ok (path, parseQuery rawQuery)
    end.

(** ** Holding a body *)

Record BufferedBody := {
  braw : bytes;
  payload : bytes;
  parsed : result body_error jval
}.

(** Read a policy-relevant body fully: raw bytes to relay, payload to judge. *)
Definition bufferBody (r : reader) (framing : Framing) (maxBytes : N)
    : fallible (BufferedBody * reader) :=
  match framing with
  | FNone => Ok ({| braw := []; payload := []; parsed := parseRequestBody [] |}, r)
  | FLength n =>
      if maxBytes <? n then Throw (HttpErr 413 "request body too large")
      else
        '(raw, r') ← readExact r n;
        Ok ({| braw := raw; payload := raw; parsed := parseRequestBody raw |}, r')
  | FChunked =>
      let '(res, st) := relayChunked (Relay r (Sink [] []) (Some (Capture [] 0 maxBytes))) in
      '_ ← res;
      let held := concat (from_option chunks [] (cap st)) in
      Ok ({| braw := out (wr st); payload := held; parsed := parseRequestBody held |}, rd st)
  | FEof => Throw (HttpErr 400 "request body without framing")
  end.

(** The body as a plain [JSON.parse] reads it, when the strict parser accepted
    it. *)
Definition plainJson (b : BufferedBody) : fallible (option jval) :=
  match parsed b with
  | Throw _ => Ok None
  | Ok _ =>
      match JSON_parse (decode_text (payload b)) with
      | Ok v => Ok (Some v)
      | Throw _ => Throw (OtherErr "SyntaxError" "invalid JSON")
      end
  end.

(** ** Relaying a response *)

Record ResponseOutcome := { upgradedTo : bool; rkeepAlive : bool; rstatus : N }.

(** What a response relay leaves: its result, the engine's reader, the
    client's sink and whether anything was written to the client. *)
Record relayed := {
  outcome : fallible ResponseOutcome;
  engineRd : reader;
  clientWr : sink;
  started : bool
}.

Fixpoint relayResponseLoop (fuel : nat) (method : jstring) (up : reader) (client : sink)
    (begun : bool) : relayed :=
  match fuel with
  | O => {| outcome := Throw NoFuel; engineRd := up; clientWr := client; started := begun |}
  | S fuel =>
      match readHead up with
      | Throw e => {| outcome := Throw e; engineRd := up; clientWr := client; started := begun |}
      | Ok (None, up') =>
          {| outcome := Throw (HttpErr 502 "the engine closed the connection");
             engineRd := up'; clientWr := client; started := begun |}
      | Ok (Some raw, up') =>
          match parseResponseHead raw with
          | Throw e => {| outcome := Throw e; engineRd := up'; clientWr := client;
                          started := begun |}
          | Ok head =>
              match writeAll client raw with
              | (Throw e, client') =>
                  {| outcome := Throw e; engineRd := up'; clientWr := client'; started := true |}
              | (Ok _, client') =>
                  if status head =? 101 then
                    {| outcome := Ok {| upgradedTo := true; rkeepAlive := false; rstatus := 101 |};
                       engineRd := up'; clientWr := client'; started := true |}
                  else if status head <? 200 then
                    relayResponseLoop fuel method up' client' true
                  else
                    match responseFraming method head with
                    | Throw e => {| outcome := Throw e; engineRd := up'; clientWr := client';
                                    started := true |}
                    | Ok framing =>
                        let '(res, client'') := relayBody up' framing client' in
                        match res with
                        | Throw e => {| outcome := Throw e; engineRd := up';
                                        clientWr := client''; started := true |}
                        | Ok up'' =>
                            {| outcome := Ok {| upgradedTo := false;
                                 rkeepAlive :=
                                   match framing with FEof => false | _ => true end &&
                                   negb (wantsClose (rheaders head) (rversion head));
                                 rstatus := status head |};
                               engineRd := up''; clientWr := client''; started := true |}
                        end
                    end
              end
          end
      end
  end.
Definition relayResponse (method : jstring) (up : reader) (client : sink) : relayed :=
  relayResponseLoop (S (length (stream up))) method up client false.

Definition hasExpect (hs : list Header) : bool :=
  negb (bool_decide (headerTokens hs "expect" = [])).

(** ** Connections *)

(** One exchange's view of the outside: the engine connection it opens, the
    clock, and how much of an un-awaited request body got through. *)
Record exchange_env := { upstream : connection; clock : Z; bodyCut : nat }.

Definition noEngine : exchange_env :=
  {| upstream := Unreachable "NotFound" "no engine"; clock := 0; bodyCut := 0 |}.

Record conn (S : Type) := Conn {
  shared : gate S;
  client : reader;
  toClient : sink;
  engines : list exchange_env;
  sent : list bytes
}.
Arguments Conn {S}.
Arguments shared {S}.
Arguments client {S}.
Arguments toClient {S}.
Arguments engines {S}.
Arguments sent {S}.

(** [describeError] of an error that is not an [HttpError]. *)
Definition describeError (e : gate_error) : jstring :=
  match e with
  | OtherErr name message => name ++ (": " : jstring) ++ message
  | HttpErr _ message => ("HttpError: " : jstring) ++ message
  | NoFuel => []
  end.

Definition isPeerGone (e : gate_error) : bool :=
  match e with
  | OtherErr name _ => memb name ["BrokenPipe"; "ConnectionReset"; "ConnectionAborted"]
  | _ => false
  end.

(** [[...new Set(items)]]: first occurrences, in order. *)
Fixpoint unique (seen : list jstring) (l : list jstring) : list jstring :=
  match l with
  | [] => []
  | x :: l' => if memb x seen then unique seen l' else x :: unique (x :: seen) l'
  end.

Record Exchange := { keepAlive : bool; upgraded : bool }.

Section Proxy.
Context `{JsTables} `{Crypto} {S : Type} `{ReplayStore S}.

Record ProxyDeps := {
  gatePolicy : PolicyConfig;
  resolve : jstring -> fallible jstring;
  trustedKeys : list CryptoKey;
  maxBodyBytes : N;
  readOnly : bool;
  enforcing : bool;
  buildSocket : bool
}.

Definition reviewDeps (deps : ProxyDeps) (now : Z) : ReviewDeps :=
  {| policy := gatePolicy deps; resolvePath := resolve deps;
     approvalKeys := trustedKeys deps; nowSec := now |}.

(** Enforce mode: one [docker-gate.denied] line, then a 403. *)
Definition refuse {A} (findings : list Violation) (method : jstring) (r : Route) : act S A :=
  let rules := unique [] (map vrule findings) in
  '_ ← logging (Denied method (routeName r) rules);
  throw (HttpErr 403 (("refused by the Docker gate: " : jstring) ++ join ", " rules)).

(** Hold the body of a request the policy reads. *)
Definition holdBody (head : RequestHead) (r : reader) (framing : Framing) (deps : ProxyDeps)
    (path : jstring) (q : query) (needs : bool)
    : fallible (RequestFacts * option BufferedBody * reader) :=
  if needs then
    '(b, r') ← bufferBody r framing (maxBodyBytes deps);
    plain ← plainJson b;
    Ok ({| fmethod := method head; fpath := path; fquery := q;
           fbody := match parsed b with Ok v => Some v | Throw _ => None end;
           fplainBody := plain;
           fformBody := carriesFormBody head framing;
           fbodyError := match parsed b with Ok _ => None | Throw e => Some (reason e) end |},
        Some b, r')
  else
    Ok ({| fmethod := method head; fpath := path; fquery := q; fbody := None;
           fplainBody := None; fformBody := carriesFormBody head framing;
           fbodyError := None |}, None, r).

(** Hold and judge one request; in enforce mode refuse it on any finding. *)
Definition judge (head : RequestHead) (r : reader) (framing : Framing) (deps : ProxyDeps)
    (now : Z) : act S (Route * option BufferedBody * reader) :=
  '(path, q) ← lift (parseTarget (target head));
  let info := classifyRoute (method head) path in
  '(facts, buffered, r') ← lift (holdBody head r framing deps path q (needsBody info));
  let extra := buildSessionFindings (route info) (buildSocket deps) in
  findings ← review facts (route info) (reviewDeps deps now) extra;
  if enforcing deps && negb (bool_decide (findings = []))
  then refuse findings (method head) (route info)
  else mret (route info, buffered, r').

(** On the read-only listener: refuse (403) whatever is not on its list. *)
Definition refuseOutsideReadOnly (head : RequestHead) : act S unit :=
  refusal ← lift (readOnlyRefusal head);
  match refusal with
  | None => mret tt
  | Some why =>
      '(path, _) ← lift (parseTarget (target head));
      '_ ← logging (RoRefused (method head) path why);
      throw (HttpErr 403 why)
  end.

Definition withShared (c : conn S) (g : gate S) : conn S :=
  Conn g (client c) (toClient c) (engines c) (sent c).

(** Half a response already on the wire is not followed by an error page. *)
Definition abandoned (begun : bool) (e : gate_error) : gate_error :=
  match e with
  | HttpErr _ message =>
      if begun then OtherErr "Error" (("response abandoned: " : jstring) ++ message) else e
  | _ => e
  end.

(** [splice]: both directions to their end; a direction that fails ends, and
    what it does to the other (both sockets are closed) is among the reads and
    writes the other may meet. *)
Definition splice (r : reader) (k : sink) (up : reader) (toCl : sink) : sink * sink :=
  ((copyToEnd r k).2, (copyToEnd up toCl).2).

(** The part of [exchange] after the engine connection is open. *)
Definition forward (head : RequestHead) (framing : Framing) (r : Route)
    (buffered : option BufferedBody) (rd1 : reader) (reads : list read_event)
    (writes : list write_event) (cut : nat) (deps : ProxyDeps) (g : gate S) (c : conn S)
    : fallible Exchange * conn S :=
  let finish res g r' toCl k := (res, Conn g r' toCl (engines c) (sent c ++ [out k])) in
  match writeAll (Sink [] writes) (raw head) with
  | (Throw e, k) => finish (Throw e) g rd1 (toClient c) k
  | (Ok _, k) =>
      match match buffered with Some b => writeAll k (braw b) | None => (Ok tt, k) end with
      | (Throw e, k1) => finish (Throw e) g rd1 (toClient c) k1
      | (Ok _, k1) =>
          let '(side, k2) :=
            match buffered with Some _ => (Ok rd1, k1) | None => relayBody rd1 framing k1 end in
          let resp := relayResponse (method head) (Reader [] reads) (toClient c) in
          let partly := Sink (out k1 ++ take cut (drop (length (out k1)) (out k2))) (plan k2) in
          match outcome resp with
          | Throw e => finish (Throw (abandoned (started resp) e)) g rd1 (clientWr resp) partly
          | Ok answer =>
              let g1 := (counting (CRequest (routeName r) (method head) (rstatus answer)) g).2 in
              if negb (rkeepAlive answer || upgradedTo answer) then
                finish (Ok {| keepAlive := false; upgraded := upgradedTo answer |}) g1 rd1
                  (clientWr resp) partly
              else
                let complete := match side with Ok _ => true | Throw _ => false end in
                let rd2 := match side with Ok r2 => r2 | Throw _ => rd1 end in
                let keep := complete && rkeepAlive answer &&
                            negb (wantsClose (headers head) (version head)) in
                let result := Ok {| keepAlive := keep; upgraded := upgradedTo answer |} in
                if upgradedTo answer && complete && negb (readOnly deps) then
                  let g2 := (counting (CUpgrade (routeName r)) g1).2 in
                  let '(k3, toCl) := splice rd2 k2 (engineRd resp) (clientWr resp) in
                  finish result g2 rd2 toCl k3
                else finish result g1 rd2 (clientWr resp) k2
          end
      end
  end.

(** Judge one request, send it to a fresh engine connection and relay the
    response. *)
Definition exchange (head : RequestHead) (deps : ProxyDeps) (c : conn S)
    : fallible Exchange * conn S :=
  let env := hd noEngine (engines c) in
  let c := Conn (shared c) (client c) (toClient c) (tl (engines c)) (sent c) in
  if hasExpect (headers head)
  then (Throw (HttpErr 417 "Expect is not supported by the gate"), c)
  else
    match (if readOnly deps then refuseOutsideReadOnly head else mret tt) (shared c) with
    | (Throw e, g) => (Throw e, withShared c g)
    | (Ok _, g) =>
        match requestFraming head with
        | Throw e => (Throw e, withShared c g)
        | Ok framing =>
            match judge head (client c) framing deps (clock env) g with
            | (Throw e, g) => (Throw e, withShared c g)
            | (Ok (r, buffered, rd1), g) =>
                match upstream env with
                | Unreachable name message =>
                    let g := (logging (UpstreamUnreachable
                                (describeError (OtherErr name message))) g).2 in
                    (Throw (HttpErr 502 "the Docker engine socket is unreachable"),
                     withShared c g)
                | Connected reads writes =>
                    forward head framing r buffered rd1 reads writes (bodyCut env) deps g c
                end
            end
        end
    end.

(** Requests one at a time, until one ends the connection. *)
Fixpoint serveLoop (fuel : nat) (deps : ProxyDeps) (c : conn S) : fallible unit * conn S :=
  match fuel with
  | O => (Throw NoFuel, c)
  | Datatypes.S fuel =>
      match readHead (client c) with
      | Throw e => (Throw e, c)
      | Ok (None, r) => (Ok tt, Conn (shared c) r (toClient c) (engines c) (sent c))
      | Ok (Some raw, r) =>
          let c := Conn (shared c) r (toClient c) (engines c) (sent c) in
          match parseRequestHead raw with
          | Throw e => (Throw e, c)
          | Ok head =>
              match exchange head deps c with
              | (Throw e, c') => (Throw e, c')
              | (Ok x, c') => if keepAlive x then serveLoop fuel deps c' else (Ok tt, c')
              end
          end
      end
  end.

Definition answerFailure (c : conn S) (e : gate_error) : conn S :=
  match e with
  | HttpErr code message =>
      let g := (counting (CRefusal code) (shared c)).2 in
      let g := (logging (BadRequest code message) g).2 in
      Conn g (client c) (writeAll (toClient c) (errorResponse code message)).2 (engines c) (sent c)
  | _ =>
      let event := if isPeerGone e then PeerClosed (describeError e)
                   else ConnectionError (describeError e) in
      withShared c (logging event (shared c)).2
  end.

(** Serve one accepted client connection until it ends. *)
Definition handleConnection (deps : ProxyDeps) (c : conn S) : conn S :=
  match serveLoop (Datatypes.S (length (stream (client c)))) deps c with
  | (Ok _, c') => c'
  | (Throw e, c') => answerFailure c' e
  end.
End Proxy.

(** ** Lemmas *)

Section ProxyFacts.
Context `{JsTables} `{Crypto} {S : Type} `{ReplayStore S}.
Implicit Types (deps : ProxyDeps) (g : gate S) (c : conn S).

(** A judged request: the facts come from its target and its body, and in
    enforce mode the review left no finding. *)
Lemma judge_inv head r framing deps now g rt buffered r' g' :
  judge head r framing deps now g = (Ok (rt, buffered, r'), g') ->
  exists facts findings g1,
    parseTarget (target head) = Ok (fpath facts, fquery facts) /\
    rt = route (classifyRoute (method head) (fpath facts)) /\
    holdBody head r framing deps (fpath facts) (fquery facts)
      (needsBody (classifyRoute (method head) (fpath facts))) = Ok (facts, buffered, r') /\
    review facts rt (reviewDeps deps now) (buildSessionFindings rt (buildSocket deps)) g1
      = (Ok findings, g') /\
    (enforcing deps = true -> findings = []).
Proof.
  unfold judge. intros Hrun.
  apply act_bind_Ok in Hrun as ([path q] & ga & Ht & Hrun). injection Ht as Ht <-.
  apply act_bind_Ok in Hrun as ([[facts b] r1] & ga & Hh & Hrun). injection Hh as Hh <-.
  apply act_bind_Ok in Hrun as (findings & gb & Hr & Hrun).
  assert (fpath facts = path /\ fquery facts = q) as [<- <-].
  { unfold holdBody in Hh. destruct (needsBody _); [| by injection Hh as <- _ _].
    apply bind_Ok in Hh as ([b' r2] & _ & Hh). apply bind_Ok in Hh as (pl & _ & Hh).
    by injection Hh as <- _ _. }
  destruct (enforcing deps) eqn:He; simpl in Hrun.
  - case_bool_decide as Hf; simpl in Hrun.
    + injection Hrun as <- <- <- <-. exists facts, findings, g. by split_and!.
    + unfold refuse in Hrun. apply act_bind_Ok in Hrun as (? & ? & _ & Hrun). discriminate Hrun.
  - injection Hrun as <- <- <- <-. exists facts, findings, g. by split_and!.
Qed.

Lemma relayBody_out r framing k : exists x, out (relayBody r framing k).2 = out k ++ x.
Proof.
  pose proof (relayBody_spec r framing k) as Hs.
  destruct (relayBody r framing k) as [[r' | e] k']; [| destruct Hs as [_ Hs]]; naive_solver.
Qed.

Lemma copyToEnd_out r k : exists x, out (copyToEnd r k).2 = out k ++ x.
Proof.
  pose proof (copyToEnd_spec r k) as Hs.
  destruct (copyToEnd r k) as [[r' | e] k']; [| destruct Hs as [_ Hs]]; simpl in *;
    unfold moved in *; naive_solver.
Qed.

(** The bytes of the request the gate holds: its head and the body it judged. *)
Definition held_wire (head : RequestHead) (buffered : option BufferedBody) : bytes :=
  raw head ++ match buffered with Some b => braw b | None => [] end.

(** The engine gets the held bytes first, whatever follows. *)
Lemma forward_sent head framing rt buffered rd1 reads writes cut deps g c res c' :
  forward head framing rt buffered rd1 reads writes cut deps g c = (res, c') ->
  exists x, sent c' = sent c ++ [x] /\
    (x `prefix_of` held_wire head buffered \/ held_wire head buffered `prefix_of` x).
Proof.
  unfold forward, held_wire. intros Hrun.
  pose proof (writeAll_spec (Sink [] writes) (raw head)) as Hw.
  destruct (writeAll (Sink [] writes) (raw head)) as [[[] | e] k].
  2: { simplify_eq. destruct Hw as (_ & pre & Hp & Ho). exists (out k).
       split; [done |]. left. rewrite Ho. by apply prefix_app_r. }
  simpl in Hw.
  set (held := match buffered with Some b => braw b | None => [] end).
  set (w1 := match buffered with Some b => writeAll k (braw b) | None => (Ok tt, k) end) in *.
  assert (match w1.1 with
          | Ok _ => out w1.2 = raw head ++ held
          | Throw _ => out w1.2 `prefix_of` raw head ++ held
          end) as Hw1.
  { unfold w1, held. destruct buffered as [b |]; [| cbn [fst snd]; by rewrite app_nil_r].
    pose proof (writeAll_spec k (braw b)) as Hb.
    destruct (writeAll k (braw b)) as [[[] | e] k']; cbn [fst snd] in *; [by rewrite Hb, Hw |].
    destruct Hb as (_ & pre & Hp & ->). rewrite Hw. by apply prefix_app. }
  destruct w1 as [[[] | e] k1]; cbn [fst snd] in Hw1.
  2: { simplify_eq. exists (out k1). split; [done |]. by left. }
  set (s2 := match buffered with Some _ => (Ok rd1, k1) | None => relayBody rd1 framing k1 end) in *.
  assert (exists y, out s2.2 = (raw head ++ held) ++ y) as [y2 Hy2].
  { unfold s2. destruct buffered; [exists []; by rewrite app_nil_r |].
    destruct (relayBody_out rd1 framing k1) as [z ->]. rewrite Hw1. eauto. }
  destruct s2 as [side k2]. cbn [snd] in Hy2.
  assert (forall z, raw head ++ held `prefix_of` out k1 ++ z) as Hpre
    by (intros z; rewrite Hw1; by apply prefix_app_r).
  destruct (outcome _) as [answer | e]; [| simplify_eq; eexists; split; [done |]; right; apply Hpre].
  destruct (negb (rkeepAlive answer || upgradedTo answer));
    [simplify_eq; eexists; split; [done |]; right; apply Hpre |].
  destruct (_ && _) in Hrun; [unfold splice in Hrun |]; injection Hrun as _ <-;
    eexists; (split; [reflexivity |]); right; cbn [out].
  - match goal with |- context [ copyToEnd ?a ?b ] =>
      destruct (copyToEnd_out a b) as [z ->] end.
    rewrite Hy2, <- (app_assoc (raw head ++ held)). by apply prefix_app_r.
  - rewrite Hy2. by apply prefix_app_r.
Qed.

(** What was sent to the engine on one connection is justified: it starts
    with (or is cut short within) the head and the held body of a request;
    the facts of the review are that request's own (its method, its decoded
    target, the strict and the plain reading of the very body held), and the
    review, run with the gate's policy, keys and build-socket rule, left
    nothing. *)
Definition justified deps (x : bytes) : Prop :=
  exists head framing facts r r' held now g1 g2,
    parseRequestHead (raw head) = Ok head /\
    requestFraming head = Ok framing /\
    parseTarget (target head) = Ok (fpath facts, fquery facts) /\
    let info := classifyRoute (method head) (fpath facts) in
    holdBody head r framing deps (fpath facts) (fquery facts) (needsBody info)
      = Ok (facts, held, r') /\
    (x `prefix_of` held_wire head held \/ held_wire head held `prefix_of` x) /\
    review facts (route info) (reviewDeps deps now)
      (buildSessionFindings (route info) (buildSocket deps)) g1 = (Ok [], g2).

(** How an exchange touches the engine: not at all, or by [forward] after the
    request was judged. *)
Lemma exchange_cases head deps c res c' :
  exchange head deps c = (res, c') ->
  ((exists e, res = Throw e) /\ sent c' = sent c) \/
  exists framing rt b rd1 reads writes now cut g0 g1 g2 c1,
    requestFraming head = Ok framing /\
    (readOnly deps = true -> readOnlyRefusal head = Ok None) /\
    judge head (client c) framing deps now g0 = (Ok (rt, b, rd1), g1) /\
    client c1 = client c /\ toClient c1 = toClient c /\ sent c1 = sent c /\
    forward head framing rt b rd1 reads writes cut deps g2 c1 = (res, c').
Proof.
  unfold exchange. intros Hrun. destruct (hasExpect _); [simplify_eq; left; by eauto |].
  cbn [shared client] in Hrun.
  destruct ((if readOnly deps then refuseOutsideReadOnly head else mret tt) (shared c))
    as [[[] | e] g0] eqn:Hro; [| simplify_eq; left; by eauto].
  destruct (requestFraming head) as [framing | e] eqn:Hf; [| simplify_eq; left; by eauto].
  destruct (judge _ _ _ _ _ _) as [[[[rt b] rd1] | e] g1] eqn:Hj; [| simplify_eq; left; by eauto].
  destruct (upstream _) as [n m | reads writes]; [simplify_eq; left; by eauto |].
  right. exists framing, rt, b, rd1, reads, writes, (clock (hd noEngine (engines c))),
    (bodyCut (hd noEngine (engines c))), g0, g1, g1,
    (Conn (shared c) (client c) (toClient c) (tl (engines c)) (sent c)).
  split; [done |]. split; [| done].
  intros Hr. rewrite Hr in Hro. unfold refuseOutsideReadOnly in Hro.
  apply act_bind_Ok in Hro as (refusal & ga & Hl & Hro). injection Hl as Hl <-.
  destruct refusal; [| done].
  apply act_bind_Ok in Hro as ([p q] & gb & _ & Hro).
  apply act_bind_Ok in Hro as (? & gc & _ & Hro). discriminate Hro.
Qed.

Lemma exchange_justified head deps c res c' :
  enforcing deps = true -> parseRequestHead (raw head) = Ok head ->
  exchange head deps c = (res, c') ->
  exists new, sent c' = sent c ++ new /\ Forall (justified deps) new.
Proof.
  intros He Hraw Hrun. apply exchange_cases in Hrun as [[_ Hs] | Hrun].
  { exists []. by rewrite app_nil_r. }
  destruct Hrun as (fr & rt & b & rd1 & reads & writes & now & cut & g0 & g1 & g2 & c1 & Hfr & _ & Hj
    & Hcl & _ & Hs & Hfw).
  apply forward_sent in Hfw as (x & Hx & Hpre). rewrite Hs in Hx.
  exists [x]. split; [done |]. constructor; [| constructor].
  apply judge_inv in Hj as (facts & findings & g3 & Ht & -> & Hh & Hr & Hclean).
  rewrite (Hclean He) in Hr.
  exists head, fr, facts, (client c), rd1, b, now, g3, g1. cbv zeta. by split_and!.
Qed.

Lemma parseRequestHead_raw bs h : parseRequestHead bs = Ok h -> raw h = bs.
Proof.
  unfold parseRequestHead. intros Hp. apply bind_Ok in Hp as (lines & _ & Hp).
  destruct lines as [| l lines]; [done |].
  destruct (split 32 l) as [| m [| t [| v [| ? ?]]]]; try done. ok_inv. by subst.
Qed.

Lemma serveLoop_justified fuel deps c res c' :
  enforcing deps = true -> serveLoop fuel deps c = (res, c') ->
  exists new, sent c' = sent c ++ new /\ Forall (justified deps) new.
Proof.
  intros He. revert c res c'. induction fuel as [| fuel IH]; intros c res c' Hrun; cbn [serveLoop] in Hrun.
  { simplify_eq. exists []. by rewrite app_nil_r. }
  destruct (readHead (client c)) as [[[bs |] r] | e]; [| simplify_eq; exists []; by rewrite app_nil_r ..].
  destruct (parseRequestHead bs) as [head | e] eqn:Hp; [| simplify_eq; exists []; by rewrite app_nil_r].
  destruct (exchange head deps _) as [[x | e] c1] eqn:Hx;
    pose proof (parseRequestHead_raw _ _ Hp) as Hraw; rewrite <- Hraw in Hp;
    destruct (exchange_justified _ _ _ _ _ He Hp Hx) as (new & Hs & Hall); cbn [sent] in Hs.
  2: { simplify_eq. eauto. }
  destruct (keepAlive x); [| simplify_eq; eauto].
  destruct (IH _ _ _ Hrun) as (new' & Hs' & Hall'). exists (new ++ new').
  rewrite Hs', Hs, app_assoc. split; [done |]. by apply Forall_app.
Qed.

(** *** Exact relaying *)

Lemma bufferBody_spec r framing maxBytes b r' :
  bufferBody r framing maxBytes = Ok (b, r') ->
  body_wire framing (braw b) /\ stream r = braw b ++ stream r'.
Proof.
  destruct framing as [| n | |]; cbn [bufferBody]; intros Hb.
  - by injection Hb as <- <-.
  - ok_inv. pose proof (readExact_spec r n) as Hr. destruct a as [x r1]. rewrite E0 in Hr.
    injection Hb as <- <-. cbn [braw]. destruct Hr as (Hx & Hs & Hl). split.
    + cbn [body_wire]. rewrite Hx, length_take. lia.
    + by rewrite Hx, Hs, take_drop.
  - pose proof (relayChunked_spec (Relay r (Sink [] []) (Some (Capture [] 0 maxBytes)))) as Hs.
    destruct (relayChunked _) as [[[] | e] st]; [| done].
    rewrite Ok_bind in Hb. injection Hb as <- <-. cbn [braw].
    destruct Hs as (x & ps & Hx & _ & Hst & Ho). cbn [rd wr out app] in *. rewrite Ho. split; [| done].
    by exists ps.
  - done.
Qed.

Lemma holdBody_body head r framing deps path q needs facts b r' :
  holdBody head r framing deps path q needs = Ok (facts, b, r') ->
  match b with
  | Some b => needs = true /\ body_wire framing (braw b) /\ stream r = braw b ++ stream r'
  | None => needs = false /\ r' = r
  end.
Proof.
  unfold holdBody. destruct needs; [| by intros [= _ <- <-]]. intros Hh.
  apply bind_Ok in Hh as ([b' r2] & Hb & Hh). apply bind_Ok in Hh as (pl & _ & Hh).
  injection Hh as _ <- <-. split; [done |]. by eapply bufferBody_spec.
Qed.

(** An upgrade is never kept alive. *)
Lemma relayResponse_upgrade fuel m up toCl begun answer :
  outcome (relayResponseLoop fuel m up toCl begun) = Ok answer ->
  upgradedTo answer = true -> rkeepAlive answer = false.
Proof.
  revert up toCl begun. induction fuel as [| fuel IH]; intros up toCl begun; [done |].
  cbn [relayResponseLoop]. destruct (readHead up) as [[[bs |] up'] | e]; [| done ..].
  destruct (parseResponseHead bs) as [h | e]; [| done].
  destruct (writeAll toCl bs) as [[[] | e] toCl']; [| done].
  destruct (status h =? 101); [by intros [= <-] |].
  destruct (status h <? 200); [apply IH |].
  destruct (responseFraming m h) as [f | e]; [| done].
  destruct (relayBody up' f toCl') as [[up'' | e] toCl'']; [| done]. by intros [= <-].
Qed.

Lemma forward_kept head framing rt buffered rd1 reads writes cut deps g c x c' :
  forward head framing rt buffered rd1 reads writes cut deps g c = (Ok x, c') ->
  keepAlive x = true ->
  exists body, sent c' = sent c ++ [raw head ++ body] /\
    match buffered with
    | Some b => body = braw b /\ client c' = rd1
    | None => body_wire framing body /\ stream rd1 = body ++ stream (client c')
    end.
Proof.
  unfold forward. intros Hrun Hk.
  pose proof (writeAll_spec (Sink [] writes) (raw head)) as Hw.
  destruct (writeAll (Sink [] writes) (raw head)) as [[[] | e] k]; [| done]. cbn [out app] in Hw.
  destruct buffered as [b |].
  - pose proof (writeAll_spec k (braw b)) as Hb.
    destruct (writeAll k (braw b)) as [[[] | e] k1]; [| done].
    destruct (outcome _) as [answer | e] eqn:Ho; [| done].
    destruct (negb _) eqn:Hn; [by simplify_eq |].
    destruct (upgradedTo answer) eqn:Hup.
    + rewrite (relayResponse_upgrade _ _ _ _ _ _ Ho Hup) in Hrun. cbn [andb] in Hrun.
      destruct (negb (readOnly deps)); injection Hrun as <- _; done.
    + cbn [andb] in Hrun. injection Hrun as <- <-. exists (braw b). cbn [sent client].
      split; [| done]. by rewrite Hb, Hw.
  - pose proof (relayBody_spec rd1 framing k) as Hb.
    destruct (relayBody rd1 framing k) as [side k2].
    destruct (outcome _) as [answer | e] eqn:Ho; [| done].
    destruct (negb _) eqn:Hn; [by simplify_eq |].
    destruct side as [r2 | e]; [| destruct (upgradedTo answer); cbn [andb] in Hrun;
                                  injection Hrun as <- _; done].
    destruct (upgradedTo answer) eqn:Hup.
    + rewrite (relayResponse_upgrade _ _ _ _ _ _ Ho Hup) in Hrun. cbn [andb] in Hrun.
      destruct (negb (readOnly deps)); injection Hrun as <- _; done.
    + cbn [andb] in Hrun. injection Hrun as <- <-. destruct Hb as (y & Hy & Hs & Hout).
      exists y. cbn [sent client]. split; [by rewrite Hout, Hw | done].
Qed.

Lemma exchange_kept head deps c x c' :
  exchange head deps c = (Ok x, c') -> keepAlive x = true ->
  exists framing body, requestFraming head = Ok framing /\ body_wire framing body /\
    stream (client c) = body ++ stream (client c') /\
    sent c' = sent c ++ [raw head ++ body].
Proof.
  intros Hrun Hk.
  apply exchange_cases in Hrun as [[[e He] _] | (fr & rt & b & rd1 & reads & writes & now & cut & g0 & g1
    & g2 & c1 & Hfr & _ & Hj & Hcl & _ & Hs & Hfw)].
  { discriminate He. }
  apply forward_kept in Hfw as (body & Hsent & Hb); [| done]. rewrite Hs in Hsent.
  apply judge_inv in Hj as (facts & fs & g3 & _ & _ & Hh & _). apply holdBody_body in Hh.
  exists fr, body. destruct b as [b |].
  - destruct Hb as [-> ->]. destruct Hh as (_ & Hw & Hst). by split_and!.
  - destruct Hh as [_ ->]. destruct Hb as [Hw Hst]. by split_and!.
Qed.
End ProxyFacts.

(** ** Properties *)

(** C1. Enforce mode refuses before the engine is reached: whatever a client
    sends over a connection, every byte string the gate sends to the engine for
    it begins with the head and the held body of a request that parses, whose
    target decodes to the judged path, whose held body is the one judged, and
    whose complete review (profile, approval, ownership, build credential) left
    no finding. *)
Theorem enforce_mode_is_complete `{JsTables} `{Crypto} {S} `{ReplayStore S}
    (deps : ProxyDeps) (c : conn S) :
  enforcing deps = true ->
  exists new, sent (handleConnection deps c) = sent c ++ new /\ Forall (justified (S := S) deps) new.
Proof.
  intros He. unfold handleConnection.
  destruct (serveLoop _ deps c) as [[[] | e] c'] eqn:Hrun;
    destruct (serveLoop_justified _ _ _ _ _ He Hrun) as (new & Hs & Hall); exists new;
    (split; [| done]); [done |].
  by destruct e.
Qed.

(** C8. Requests keep their boundaries: when a connection goes on after an
    exchange, the engine received exactly the request head followed by one
    complete body of the head's framing, that body is exactly what was taken
    from the client after the head, and the next request starts at the byte
    that follows it. *)
Theorem kept_connection_is_exact `{JsTables} `{Crypto} {S} `{ReplayStore S}
    head (deps : ProxyDeps) (c c' : conn S) x :
  exchange head deps c = (Ok x, c') -> keepAlive x = true ->
  exists framing body, requestFraming head = Ok framing /\ body_wire framing body /\
    stream (client c) = body ++ stream (client c') /\
    sent c' = sent c ++ [raw head ++ body].
Proof. apply exchange_kept. Qed.

(** ** Concrete connections *)

Definition sampleProxy : @ProxyDeps toyCrypto :=
  @Build_ProxyDeps toyCrypto DEFAULT_POLICY_CONFIG Ok ([7%N] : list N) DEFAULT_MAX_BODY_BYTES
    false true false.

(** An engine that answers one request with an empty 204. *)
Definition answering : exchange_env :=
  {| upstream := Connected
       [Chunk (join CRLF ["HTTP/1.1 204 No Content"; "Server: Docker"; ""; ""])] [];
     clock := 1200; bodyCut := 0 |}.

Definition pingHead : bytes := join CRLF ["GET /_ping HTTP/1.1"; "Host: docker"; ""; ""].

Definition pingRequest : RequestHead :=
  {| method := "GET"; target := "/_ping"; version := "HTTP/1.1";
     headers := [("Host" : jstring, "docker" : jstring)]; raw := pingHead |}.

(** A create that asks for the host's PID name space. *)
Definition pidBody : bytes :=
  encode_text (quoted "{'Image':'a','HostConfig':{'PidMode':'host'}}").
Definition pidHead : bytes :=
  join CRLF ["POST /containers/create HTTP/1.1"; "Host: docker"; "Content-Type: application/json";
             ("Content-Length: " : jstring) ++ decimalText (N.of_nat (length pidBody)); ""; ""].

Definition openWith (requests : bytes) (es : list exchange_env) : conn ReplayCache :=
  Conn (gateWith []) (Reader [] [Chunk requests]) (Sink [] []) es [].

Lemma enforce_mode_is_complete_witness :
  let c := openWith (pingHead ++ pidHead ++ pidBody) [answering; answering] in
  sent (@handleConnection integerTables toyCrypto ReplayCache _ sampleProxy c) = [pingHead] /\
  @justified integerTables toyCrypto ReplayCache _ sampleProxy pingHead.
Proof.
  cbv zeta.
  destruct (@enforce_mode_is_complete integerTables toyCrypto ReplayCache _ sampleProxy
    (openWith (pingHead ++ pidHead ++ pidBody) [answering; answering]) eq_refl)
    as (new & Hs & Hall).
  assert (sent (@handleConnection integerTables toyCrypto ReplayCache _ sampleProxy
    (openWith (pingHead ++ pidHead ++ pidBody) [answering; answering])) = [pingHead]) as E
    by (vm_compute; reflexivity).
  split; [exact E |]. rewrite E in Hs. cbn [openWith sent app] in Hs. subst new.
  by apply Forall_cons_1 in Hall as [Hall _].
Defined.

Lemma kept_connection_is_exact_witness :
  exists x c', @exchange integerTables toyCrypto ReplayCache _ pingRequest sampleProxy
      (openWith pidHead [answering]) = (Ok x, c') /\
    stream (client c') = pidHead /\ sent c' = [pingHead].
Proof.
  destruct (@exchange integerTables toyCrypto ReplayCache _ pingRequest sampleProxy
      (openWith pidHead [answering])) as [[x | e] c'] eqn:E.
  2: { exfalso. vm_compute in E. discriminate E. }
  exists x, c'. split; [reflexivity |].
  assert (keepAlive x = true) as Hk by (vm_compute in E; by injection E as <- _).
  destruct (@kept_connection_is_exact integerTables toyCrypto ReplayCache _ pingRequest sampleProxy
    _ c' x E Hk) as (framing & body & Hf & Hb & Hst & Hs).
  assert (framing = FNone) as -> by (vm_compute in Hf; by injection Hf as <-).
  cbn [body_wire] in Hb. subst body. rewrite app_nil_r in Hs. by split.
Defined.
