(* ===== verification/GateServe.v ===== *)
(** * Serving to the end ([proxy.ts], continued)

    Every connection is served to an end (the fuel of the model never decides
    anything), and what the read-only listener can let through. *)

From S2P Require Import Prelude Regex Text Json JsonPrint GateBody GateHttp GateStream.
From S2P Require Import GatePlatform GateRoutes GatePolicy GateReadonly GateApproval GateReplay.
From S2P Require Import GateInspect GateState GateReview GateProxy.

#[local] Open Scope N_scope.

(** ** Computations that do not run out of fuel *)

Definition sane {A} (m : fallible A) : Prop := m <> Throw NoFuel.
Definition saneAct {S A} (m : act S A) : Prop := forall g, sane (m g).1.

Lemma sane_Ok {A} (a : A) : sane (Ok a).
Proof. done. Qed.
Lemma sane_http {A} code msg : sane (@Throw gate_error A (HttpErr code msg)).
Proof. done. Qed.
Lemma sane_other {A} name msg : sane (@Throw gate_error A (OtherErr name msg)).
Proof. done. Qed.
Lemma sane_bind {A B} (m : fallible A) (k : A -> fallible B) :
  sane m -> (forall a, sane (k a)) -> sane (m ≫= k).
Proof. destruct m as [a | []]; intros Hm Hk; [apply Hk | done ..]. Qed.
Lemma sane_fmap {A B} (f : A -> B) (m : fallible A) : sane m -> sane (f <$> m).
Proof. by destruct m as [a | []]. Qed.
#[export] Hint Resolve sane_Ok sane_http sane_other sane_bind sane_fmap : turbo.

Lemma saneAct_bind {S A B} (m : act S A) (k : A -> act S B) :
  saneAct m -> (forall a, saneAct (k a)) -> saneAct (m ≫= k).
Proof.
  intros Hm Hk g. specialize (Hm g). cbv [mbind act_bind].
  destruct (m g) as [[a | e] g']; [apply (Hk a g') | by destruct e].
Qed.
Lemma saneAct_ret {S A} (a : A) : @saneAct S A (mret a).
Proof. done. Qed.
Lemma saneAct_lift {S A} (m : fallible A) : sane m -> @saneAct S A (lift m).
Proof. by intros Hm g. Qed.
Lemma saneAct_quiet {S} (m : act S unit) : quiet m -> saneAct m.
Proof. intros Hm g. destruct (Hm g) as (g' & -> & _). done. Qed.
Lemma saneAct_throw {S A} code msg : @saneAct S A (throw (HttpErr code msg)).
Proof. done. Qed.
Lemma saneAct_asking {S} : @saneAct S lookup asking.
Proof. intros g. unfold asking. by destruct (lookups g). Qed.
Lemma saneAct_claiming {S} `{ReplayStore S} j e now : @saneAct S bool (claiming j e now).
Proof. intros g. unfold claiming. by destruct (claim _ _ _ _). Qed.
#[export] Hint Resolve saneAct_ret saneAct_lift saneAct_quiet saneAct_throw saneAct_asking
  saneAct_claiming : turbo.

(** One step of a proof that a computation is sane. *)
Ltac sane_step :=
  match goal with
  | |- sane (_ ≫= _) => apply sane_bind; [| intros ?]
  | |- saneAct (_ ≫= _) => apply saneAct_bind; [| intros ?]
  | |- sane (match ?x with _ => _ end) => destruct x
  | |- saneAct (match ?x with _ => _ end) => destruct x
  | |- saneAct (let '(_, _) := ?x in _) => destruct x
  | |- sane (_ <$> _) => apply sane_fmap
  end.
Ltac sane := repeat sane_step; auto with turbo.

Section Policy.
Context `{JsTables}.

Lemma sane_jsText v : sane (jsText v).
Proof.
  induction v as [| [] | n | s | l IH | o IH] using jval_induction; cbn [jsText]; try done.
  - apply sane_fmap. induction IH as [| v l Hv _ IHl]; [done |].
    apply sane_bind; [by destruct v |]. intros t. apply sane_bind; [done |]. done.
  - destruct (getEntry o "toString"); done.
Qed.

Lemma sane_unsafeOptions l : sane (unsafeOptions l).
Proof.
  induction l as [| o l IH]; cbn [unsafeOptions]; [done |].
  apply sane_bind; [| intros; by apply sane_bind].
  unfold tmpfsOptionUnsafe. destruct o as [| | | | [| first rest] |]; try done.
  apply sane_bind; [apply sane_jsText | done].
Qed.

Lemma sane_checkMounts hc ctx : sane (checkMounts hc ctx).
Proof.
  unfold checkMounts, checkMountOptions. apply sane_bind; [| done].
  induction (mountRecords hc) as [| m ms IH]; cbn [mountOptionFindings]; [done |].
  apply sane_bind; [| intros; by apply sane_bind]. unfold tmpfsOptionViolations.
  destruct (field m "TmpfsOptions") as [[| | | | | o] |]; try done.
  destruct (field o "Options") as [[| | | | l |] |]; try done. apply sane_unsafeOptions.
Qed.

Lemma sane_evaluateDetailed facts config resolve : sane (evaluateDetailed facts config resolve).
Proof.
  unfold evaluateDetailed. destruct (fbodyError facts); [done |]. apply sane_bind; [| done].
  destruct (route _); cbn [evaluateByRoute]; try done. unfold evaluateContainerCreate.
  destruct (fbody facts) as [[| | | | | b] |]; try done.
  apply sane_bind; [apply sane_checkMounts | done].
Qed.

Lemma sane_evaluateStartBinds doc config resolve : sane (evaluateStartBinds doc config resolve).
Proof. unfold evaluateStartBinds. apply sane_bind; [apply sane_checkMounts | done]. Qed.
End Policy.

Section Serve.
Context `{JsTables} `{Crypto} {S : Type} `{ReplayStore S}.
Implicit Types (deps : ProxyDeps) (c : conn S) (head : RequestHead).

Lemma sane_applyApproval facts labels vs (deps : ReviewDeps) : @saneAct S _ (applyApproval facts labels vs deps).
Proof.
  intros g. destruct (applyApproval_spec facts labels vs deps g) as (out & g' & -> & _). done.
Qed.

Lemma sane_review facts r (deps : ReviewDeps) extra : @saneAct S _ (review facts r deps extra).
Proof.
  unfold review. apply saneAct_bind; [apply saneAct_lift, sane_evaluateDetailed |]. intros detail.
  apply saneAct_bind; [auto with turbo |]. intros _. apply saneAct_bind.
  { case_decide; [| done]. unfold createFindings.
    apply saneAct_bind; [auto with turbo |]. intros _. apply sane_applyApproval. }
  intros findings. apply saneAct_bind.
  { unfold unownedFinding. destruct (startTarget facts) as [name |].
    - unfold startFindings. apply saneAct_bind; [auto with turbo |]. intros l.
      destruct (fetchContainerDoc l name); [| done].
      apply saneAct_bind; [apply saneAct_lift, sane_evaluateStartBinds |]. intros binds.
      apply saneAct_bind; [auto with turbo |]. done.
    - destruct (ownedSubject facts) as [[kind name] |]; [| done].
      apply saneAct_bind; [auto with turbo |]. intros l. destruct (fetchLabels l kind name); [| done].
      repeat case_match; done. }
  intros unowned. apply saneAct_bind; [auto with turbo | done].
Qed.

Lemma sane_parseTarget t : sane (parseTarget t).
Proof. unfold parseTarget. by repeat case_match. Qed.

Lemma sane_requestFraming head : sane (requestFraming head).
Proof.
  unfold requestFraming, sharedFraming, transferCoding, parseContentLength.
  sane; repeat case_match; done.
Qed.

Lemma sane_readExact r n : sane (readExact r n).
Proof.
  pose proof (readExact_spec r n) as Hr. destruct (readExact r n) as [[] | e]; [done |].
  destruct Hr as [He _]. by destruct e.
Qed.

Lemma sane_bufferBody r framing m : sane (bufferBody r framing m).
Proof.
  destruct framing as [| n | |]; cbn [bufferBody]; [done | | | done].
  - destruct (m <? n); [done |]. apply sane_bind; [apply sane_readExact |]. by intros [].
  - pose proof (relayChunked_spec (Relay r (Sink [] []) (Some (Capture [] 0 m)))) as Hs.
    destruct (relayChunked _) as [[[] | e] st]; [done |]. destruct Hs as [He _]. by destruct e.
Qed.

Lemma sane_judge head r framing deps now : @saneAct S _ (judge head r framing deps now).
Proof.
  unfold judge. apply saneAct_bind; [apply saneAct_lift, sane_parseTarget |]. intros [path q].
  apply saneAct_bind.
  { apply saneAct_lift. unfold holdBody. destruct (needsBody _); [| done].
    apply sane_bind; [apply sane_bufferBody |]. intros [b r']. apply sane_bind; [| done].
    unfold plainJson. by repeat case_match. }
  intros [[facts b] r']. apply saneAct_bind; [apply sane_review |]. intros findings.
  destruct (_ && _); [| done]. unfold refuse. apply saneAct_bind; [auto with turbo |]. done.
Qed.

Lemma sane_refuseOutsideReadOnly head : @saneAct S _ (refuseOutsideReadOnly head).
Proof.
  unfold refuseOutsideReadOnly. apply saneAct_bind.
  { apply saneAct_lift. unfold readOnlyRefusal. repeat (case_match; [done |]).
    apply sane_bind; [apply sane_requestFraming |]. intros f. by repeat case_match. }
  intros [why |]; [| done]. apply saneAct_bind; [apply saneAct_lift, sane_parseTarget |].
  intros [path q]. apply saneAct_bind; [auto with turbo |]. done.
Qed.

(** *** Responses *)

Lemma sane_parseHeaders lines : sane (parseHeaders lines).
Proof. induction lines; cbn [parseHeaders]; unfold parseHeaderLine; sane; by repeat case_match. Qed.

Lemma sane_splitHeadLines bs : sane (splitHeadLines bs).
Proof. unfold splitHeadLines. sane; by repeat case_match. Qed.

Lemma sane_parseRequestHead bs : sane (parseRequestHead bs).
Proof.
  unfold parseRequestHead. apply sane_bind; [apply sane_splitHeadLines |].
  intros [| l lines]; [done |]. repeat case_match; try done.
  apply sane_bind; [apply sane_parseHeaders | done].
Qed.

Lemma sane_parseResponseHead bs : sane (parseResponseHead bs).
Proof.
  unfold parseResponseHead. apply sane_bind; [apply sane_splitHeadLines |].
  intros [| l lines]; [done |]. case_match; [done |].
  apply sane_bind; [apply sane_parseHeaders | done].
Qed.

Lemma sane_responseFraming m h : sane (responseFraming m h).
Proof.
  unfold responseFraming, sharedFraming, transferCoding, parseContentLength.
  sane; repeat case_match; done.
Qed.

(** Reading a head fails for a reason of its own, or takes at least the
    blank line that ends it. *)
Lemma readHead_shrinks r :
  match readHead r with
  | Throw e => e <> NoFuel
  | Ok (None, _) => True
  | Ok (Some _, r') => (length (stream r') < length (stream r))%nat
  end.
Proof.
  unfold readHead.
  pose proof (readThrough_spec r CRLF_CRLF MAX_HEAD_BYTES "message head too large") as Hr.
  destruct (readThrough _ _ _ _) as [[[x |] r'] | e]; [| done | by destruct Hr].
  destruct Hr as (i & Hi & _ & Hs). apply indexOfSequence_Some in Hi as (_ & Hi & _).
  apply startsWith_length in Hi. rewrite length_drop in Hi. rewrite Hs, length_drop.
  cbn [length CRLF_CRLF] in *. lia.
Qed.

Lemma sane_writeAll k data : sane (writeAll k data).1.
Proof.
  pose proof (writeAll_spec k data) as Hw. destruct (writeAll k data) as [[[] | e] k']; [done |].
  destruct Hw as [He _]. by destruct e.
Qed.

Lemma sane_relayBody r framing k : sane (relayBody r framing k).1.
Proof.
  pose proof (relayBody_spec r framing k) as Hw.
  destruct (relayBody r framing k) as [[r' | e] k']; [done |]. destruct Hw as [He _]. by destruct e.
Qed.

Lemma relayResponse_sane fuel m up toCl begun :
  (length (stream up) < fuel)%nat -> sane (outcome (relayResponseLoop fuel m up toCl begun)).
Proof.
  revert up toCl begun. induction fuel as [| fuel IH]; intros up toCl begun Hf; [lia |].
  cbn [relayResponseLoop]. pose proof (readHead_shrinks up) as Hr.
  destruct (readHead up) as [[[bs |] up'] | e]; [| done | by destruct e].
  pose proof (sane_parseResponseHead bs) as Hp.
  destruct (parseResponseHead bs) as [h | e]; [| by destruct e].
  pose proof (sane_writeAll toCl bs) as Hw.
  destruct (writeAll toCl bs) as [[[] | e] toCl']; [| by destruct e].
  destruct (status h =? 101); [done |]. destruct (status h <? 200); [apply IH; lia |].
  pose proof (sane_responseFraming m h) as Hrf.
  destruct (responseFraming m h) as [f | e]; [| by destruct e].
  pose proof (sane_relayBody up' f toCl') as Hb.
  destruct (relayBody up' f toCl') as [[up'' | e] toCl'']; [done | by destruct e].
Qed.

(** *** Exchanges *)

Lemma forward_sane head framing rt buffered rd1 reads writes cut deps (g : gate S) c :
  sane (forward head framing rt buffered rd1 reads writes cut deps g c).1.
Proof.
  unfold forward. pose proof (sane_writeAll (Sink [] writes) (raw head)) as Hw.
  destruct (writeAll (Sink [] writes) (raw head)) as [[[] | e] k]; [| by destruct e].
  set (w := match buffered with Some b => _ | None => _ end).
  assert (sane w.1) as Hb by (unfold w; destruct buffered; [apply sane_writeAll | done]).
  destruct w as [[[] | e] k1]; [| by destruct e].
  destruct (match buffered with Some _ => _ | None => _ end) as [side k2].
  assert (sane (outcome (relayResponse (method head) (Reader [] reads) (toClient c)))) as Ho
    by (apply relayResponse_sane; lia).
  destruct (outcome _) as [answer | e]; [| destruct e; try done; cbn; by destruct (started _)].
  by repeat case_match.
Qed.

Lemma exchange_sane head deps c : sane (exchange head deps c).1.
Proof.
  unfold exchange. destruct (hasExpect _); [done |]. cbn [shared client].
  assert (saneAct (S := S) (if readOnly deps then refuseOutsideReadOnly head else mret tt)) as Hro
    by (destruct (readOnly deps); [apply sane_refuseOutsideReadOnly | done]).
  specialize (Hro (shared c)).
  destruct ((if readOnly deps then refuseOutsideReadOnly head else mret tt) (shared c)) as [[[] | e] g0]; [| by destruct e].
  pose proof (sane_requestFraming head) as Hf.
  destruct (requestFraming head) as [framing | e]; [| by destruct e].
  pose proof (sane_judge head (client c) framing deps (clock (hd noEngine (engines c))) g0) as Hj.
  destruct (judge _ _ _ _ _ _) as [[[[rt b] rd1] | e] g1]; [| by destruct e].
  destruct (upstream _); [done | apply forward_sane].
Qed.

(** The loop ends by itself: each kept exchange used at least one head. *)
Lemma serveLoop_ends fuel deps c :
  (length (stream (client c)) < fuel)%nat ->
  (serveLoop fuel deps c).1 <> Throw NoFuel /\
  forall more, (length (stream (client c)) < more)%nat ->
    serveLoop more deps c = serveLoop fuel deps c.
Proof.
  revert c. induction fuel as [| fuel IH]; intros c Hf; [lia |].
  cbn [serveLoop]. pose proof (readHead_shrinks (client c)) as Hr.
  destruct (readHead (client c)) as [[[bs |] r] | e] eqn:Hrd.
  2,3: split; [by try destruct e |]; intros [| more] Hm; [lia |]; cbn [serveLoop]; by rewrite Hrd.
  pose proof (sane_parseRequestHead bs) as Hp.
  destruct (parseRequestHead bs) as [head | e] eqn:Hpr.
  2: { split; [by destruct e |]. intros [| more] Hm; [lia |]. cbn [serveLoop]. by rewrite Hrd, Hpr. }
  set (c0 := Conn _ _ _ _ _). pose proof (exchange_sane head deps c0) as Hx.
  destruct (exchange head deps c0) as [[x | e] c1] eqn:He.
  2: { split; [by destruct e |]. intros [| more] Hm; [lia |]. cbn [serveLoop].
       rewrite Hrd, Hpr. fold c0. by rewrite He. }
  destruct (keepAlive x) eqn:Hk.
  2: { split; [done |]. intros [| more] Hm; [lia |]. cbn [serveLoop]. rewrite Hrd, Hpr. fold c0.
       by rewrite He, Hk. }
  destruct (exchange_kept _ _ _ _ _ He Hk) as (fr & body & _ & _ & Hs & _).
  assert (length (stream (client c1)) < length (stream (client c)))%nat as Hl.
  { cbn [client c0] in Hs. rewrite Hs, length_app in Hr. lia. }
  destruct (IH c1) as [Hend Hmore]; [lia |]. split; [done |]. intros [| more] Hm; [lia |].
  cbn [serveLoop]. rewrite Hrd, Hpr. fold c0. rewrite He, Hk. apply Hmore. lia.
Qed.

(** *** The read-only listener *)

Lemma parseTarget_path t p q : parseTarget t = Ok (p, q) -> decodeURIComponent (rawPathOf t) = Some p.
Proof.
  unfold parseTarget, rawPathOf. destruct (hasChar 35 t); [done |].
  destruct (indexOf 63 t); destruct (decodeURIComponent _); by intros [= -> _].
Qed.

(** A bodiless request forwards its head and nothing else, unless the engine
    switches protocols and the listener allows it. *)
Lemma forward_bodiless head framing rt rd1 reads writes cut deps (g : gate S) c res c' :
  framing ∈ [FNone; FLength 0] -> readOnly deps = true ->
  forward head framing rt None rd1 reads writes cut deps g c = (res, c') ->
  exists x, sent c' = sent c ++ [x] /\ x `prefix_of` raw head.
Proof.
  intros Hf Hro. unfold forward. rewrite Hro.
  pose proof (writeAll_spec (Sink [] writes) (raw head)) as Hw.
  destruct (writeAll (Sink [] writes) (raw head)) as [[[] | e] k]; cbn [out app] in Hw.
  2: { intros Hrun. simplify_eq. destruct Hw as (_ & pre & Hp & Ho). exists (out k).
       split; [done |]. by rewrite Ho. }
  assert ((relayBody rd1 framing k).2 = k) as Hk.
  { rewrite !elem_of_cons in Hf. destruct Hf as [-> | [-> | Hf]]; [done | | by apply not_elem_of_nil in Hf].
    unfold relayBody, copyExact. by destruct (source rd1). }
  destruct (relayBody rd1 framing k) as [side k2]. cbn [snd] in Hk. subst k2.
  cbn [out] in *. rewrite drop_all, take_nil, app_nil_r.
  destruct (outcome _) as [answer | e].
  - rewrite andb_false_r. destruct (negb _); intros Hrun; simplify_eq;
      (eexists; split; [done |]); cbn [out]; by rewrite Hw.
  - intros Hrun. simplify_eq. eexists. split; [done |]. cbn [out]. by rewrite Hw.
Qed.

Lemma exchange_read_only head deps c res c' :
  readOnly deps = true -> exchange head deps c = (res, c') ->
  sent c' = sent c \/
  readOnlyRefusal head = Ok None /\
  exists x, sent c' = sent c ++ [x] /\ x `prefix_of` raw head.
Proof.
  intros Hro Hrun. apply exchange_cases in Hrun as [[_ Hs] | Hrun]; [by left | right].
  destruct Hrun as (fr & rt & b & rd1 & reads & writes & now & cut & g0 & g1 & g2 & c1 & Hfr & Hpass
    & Hj & _ & _ & Hs & Hfw).
  specialize (Hpass Hro). split; [done |].
  destruct (readOnly_passes _ Hpass) as (_ & _ & _ & Hf & Hd & _ & Hc).
  apply judge_inv in Hj as (facts & fs & g3 & Ht & _ & Hh & _).
  apply parseTarget_path in Ht. rewrite Hd in Ht. injection Ht as Ht.
  rewrite <- Ht, Hc in Hh. cbn [needsBody] in Hh. apply holdBody_body in Hh.
  destruct b as [b |]; [by destruct Hh |].
  rewrite Hfr in Hf. apply forward_bodiless in Hfw; [by rewrite Hs in Hfw | | done]. set_solver.
Qed.

(** What the read-only listener may send to the engine: (the start of) the
    head of a request that is on its list. *)
Definition read_request (x : bytes) : Prop :=
  exists head, parseRequestHead (raw head) = Ok head /\
    method head ∈ READ_METHODS /\ read_only_route (routePath (rawPathOf (target head))) /\
    x `prefix_of` raw head.

Lemma serveLoop_read_only fuel deps c res c' :
  readOnly deps = true -> serveLoop fuel deps c = (res, c') ->
  exists new, sent c' = sent c ++ new /\ Forall read_request new.
Proof.
  intros Hro. revert c res c'. induction fuel as [| fuel IH]; intros c res c' Hrun; cbn [serveLoop] in Hrun.
  { simplify_eq. exists []. by rewrite app_nil_r. }
  destruct (readHead (client c)) as [[[bs |] r] | e]; [| simplify_eq; exists []; by rewrite app_nil_r ..].
  destruct (parseRequestHead bs) as [head | e] eqn:Hp; [| simplify_eq; exists []; by rewrite app_nil_r].
  destruct (exchange head deps _) as [out1 c1] eqn:Hx.
  pose proof (parseRequestHead_raw _ _ Hp) as Hraw. rewrite <- Hraw in Hp.
  assert (exists new, sent c1 = sent c ++ new /\ Forall read_request new) as (new & Hs & Hall).
  { apply exchange_read_only in Hx as [Hs | (Hpass & x & Hs & Hpre)]; [| | done].
    - exists []. by rewrite app_nil_r.
    - exists [x]. split; [done |]. constructor; [| constructor]. exists head.
      destruct (readOnly_passes _ Hpass) as (Hm & _ & _ & _ & _ & Hroute & _). by split_and!. }
  destruct out1 as [x | e]; [| simplify_eq; eauto].
  destruct (keepAlive x); [| simplify_eq; eauto].
  destruct (IH _ _ _ Hrun) as (new' & Hs' & Hall'). exists (new ++ new').
  rewrite Hs', Hs, app_assoc. split; [done |]. by apply Forall_app.
Qed.
End Serve.

(** ** Properties *)

(** C9. Every connection is served to an end: with one step per byte the client
    will send, the request loop ends for a reason of its own (end of stream, a
    request that closes, an error the program raises), and more steps change
    nothing. *)
Theorem connection_is_served `{JsTables} `{Crypto} {S} `{ReplayStore S}
    (deps : ProxyDeps) (c : conn S) :
  let n := Datatypes.S (length (stream (client c))) in
  sane (serveLoop n deps c).1 /\
  forall more, (n <= more)%nat -> serveLoop more deps c = serveLoop n deps c.
Proof.
  destruct (serveLoop_ends (Datatypes.S (length (stream (client c)))) deps c) as [Hend Hmore]; [lia |].
  split; [done |]. intros more Hm. apply Hmore. lia.
Qed.

(** C4. The read-only socket is read-only end to end: whatever a client sends
    over a whole connection, everything the engine receives for it is (the
    start of) the head of a GET or HEAD request on one of the listed routes;
    no body byte, no upgraded stream and no other request ever reaches the
    engine. *)
Theorem read_only_connection `{JsTables} `{Crypto} {S} `{ReplayStore S}
    (deps : ProxyDeps) (c : conn S) :
  readOnly deps = true ->
  exists new, sent (handleConnection deps c) = sent c ++ new /\ Forall read_request new.
Proof.
  intros Hro. unfold handleConnection. destruct (serveLoop _ deps c) as [[[] | e] c'] eqn:Hrun;
    destruct (serveLoop_read_only _ _ _ _ _ Hro Hrun) as (new & Hs & Hall); exists new;
    (split; [| done]); [done |].
  by destruct e.
Qed.

Lemma read_only_connection_witness :
  let deps := @Build_ProxyDeps toyCrypto DEFAULT_POLICY_CONFIG Ok ([7%N] : list N)
                DEFAULT_MAX_BODY_BYTES true false false in
  let c := openWith (ro_head ++ pidHead ++ pidBody) [answering; answering] in
  sent (@handleConnection integerTables toyCrypto ReplayCache _ deps c) = [ro_head] /\
  read_request ro_head.
Proof.
  cbv zeta.
  set (deps := @Build_ProxyDeps toyCrypto _ _ _ _ _ _ _).
  destruct (@read_only_connection integerTables toyCrypto ReplayCache _ deps
    (openWith (ro_head ++ pidHead ++ pidBody) [answering; answering]) eq_refl) as (new & Hs & Hall).
  assert (sent (@handleConnection integerTables toyCrypto ReplayCache _ deps
    (openWith (ro_head ++ pidHead ++ pidBody) [answering; answering])) = [ro_head]) as E
    by (vm_compute; reflexivity).
  split; [exact E |]. rewrite E in Hs. cbn [openWith sent app] in Hs. subst new.
  by apply Forall_cons_1 in Hall as [Hall _].
Defined.
