(* ===== verification/GateConfig.v ===== *)
(** * The gate's settings ([main.ts], [loadConfig])

    The environment the unit hands the gate, and the configuration read from
    it: the mode, the sockets and the policy the listeners run with. *)

From S2P Require Import Prelude Json Number GateHttp GatePlatform GatePolicy.

#[local] Open Scope N_scope.

(** ** [Number(text)] *)

Definition NaN : spec_float := S754_nan.

(** The digits of a [0x], [0o] or [0b] literal, all of them below the radix. *)
Fixpoint radixValue (radix acc : N) (s : jstring) : option N :=
  match s with
  | [] => Some acc
  | c :: s' =>
      if is_hex c && (hexUnit c <? radix) then radixValue radix (acc * radix + hexUnit c) s'
      else None
  end.
Definition radixLiteral (radix : N) (ds : jstring) : spec_float :=
  match ds, radixValue radix 0 ds with
  | _ :: _, Some n => of_decimal false (Z.of_N n) 0
  | _, _ => NaN
  end.

(** [StrDecimalLiteral]. *)
Definition decimalLiteral (s : jstring) : spec_float :=
  let '(neg, s1) :=
    match s with
    | c :: s' => if c =? 45 then (true, s') else if c =? 43 then (false, s') else (false, s)
    | [] => (false, s)
    end in
  if decide (s1 = "Infinity") then S754_infinity neg
  else
    let '(ip, s2) := digits s1 in
    let '(fp, s3) :=
      match s2 with
      | c :: s' => if c =? 46 then digits s' else ([], s2)
      | [] => ([], s2)
      end in
    let '(ex, s4) := expPart s3 in
    if decide (ip ++ fp = [] \/ s4 <> []) then NaN
    else of_decimal neg (decimalValue (ip ++ fp)) (ex - Z.of_nat (length fp)).

Definition numberOfText (text : jstring) : spec_float :=
  match trim text with
  | [] => S754_zero false
  | 48 :: x :: ds =>
      if memb x [120; 88] then radixLiteral 16 ds
      else if memb x [111; 79] then radixLiteral 8 ds
      else if memb x [98; 66] then radixLiteral 2 ds
      else decimalLiteral (48 :: x :: ds)
  | s => decimalLiteral s
  end.

(** [Number(value)] of an optional text, when it is a positive integer. *)
Definition positiveIdOrUndefined (value : option jstring) : option Z :=
  text ← value;
  parsed ← integer_of (numberOfText text);
  if (0 <? parsed)%Z then Some parsed else None.

Definition positiveInt (value : option jstring) (fallback : Z) : Z :=
  default fallback (positiveIdOrUndefined value).

(** ** Paths *)

(** [/a/b//] becomes [/a/b]; a lone [/] stays. *)
Fixpoint trimEnd (fuel : nat) (path : jstring) : jstring :=
  match fuel with
  | O => path
  | S fuel =>
      if (1 <? N.of_nat (length path)) && bool_decide (last path = Some 47)
      then trimEnd fuel (take (length path - 1) path) else path
  end.
Definition trimTrailingSlashes (path : jstring) : jstring := trimEnd (length path) path.

Definition pathList (value : option jstring) : list jstring :=
  map trimTrailingSlashes
    (filter (fun item => startsWith "/" item = true) (map trim (split 58 (default [] value)))).

Definition ingressSocketDirOf (roSocket : option jstring) : jstring :=
  match head (pathList roSocket) with
  | None => ingressSocketDir DEFAULT_POLICY_CONFIG
  | Some path =>
      match lastIndexOf 47 path with
      | Some (S slash) => take (S slash) path
      | _ => ingressSocketDir DEFAULT_POLICY_CONFIG
      end
  end.

(** ** The configuration *)

Inductive GateMode := Observe | Enforce.

Definition modeOf (mode : option jstring) : fallible GateMode :=
  let m := default "observe" mode in
  if decide (m = "observe") then Ok Observe
  else if decide (m = "enforce") then Ok Enforce
  else Throw (OtherErr "Error" (("TP_DOCKER_GATE_MODE=" : jstring) ++ m
                ++ (" is not supported: use observe or enforce" : jstring))).

Record GateConfig := {
  mode : GateMode;
  socket : jstring;
  roSocket : option jstring;
  ingressSwitchFile : option jstring;
  upstreamSocket : jstring;
  socketGid : option Z;
  configPolicy : PolicyConfig;
  summarySeconds : Z;
  approvalKeyFile : option jstring;
  approvalStateFile : option jstring;
  buildSocketPath : option jstring;
  buildGid : option Z
}.

Definition DEFAULT_GATE_SOCKET : jstring := "/run/turbopanel-gate/docker.sock".
Definition DEFAULT_UPSTREAM_SOCKET : jstring := "/var/run/docker.sock".
Definition DEFAULT_SUMMARY_SECONDS : Z := 300.

(** [value || fallback] of an optional text. *)
Definition orElse (value : option jstring) (fallback : jstring) : jstring :=
  match value with
  | Some (c :: s) => c :: s
  | _ => fallback
  end.

Definition env : Type := jstring -> option jstring.

Section Load.
Context `{JsTables}.

Definition capNames (value : option jstring) : list jstring :=
  filter (fun c => c <> [])
    (map (fun cap =>
            let upper := toUpperCase unicode_upper (trim cap) in
            if startsWith "CAP_" upper then drop 4 upper else upper)
         (split 44 (default [] value))).

(** [list.length > 0 ? list : fallback]. *)
Definition orDefault (l fallback : list jstring) : list jstring :=
  match l with [] => fallback | _ => l end.

Definition loadConfig (e : env) : fallible GateConfig :=
  m ← modeOf (e "TP_DOCKER_GATE_MODE");
  Ok {| mode := m;
        socket := orElse (e "TP_DOCKER_GATE_SOCKET") DEFAULT_GATE_SOCKET;
        buildSocketPath := head (pathList (e "TP_DOCKER_GATE_BUILD_SOCKET"));
        buildGid := positiveIdOrUndefined (e "TP_DOCKER_GATE_BUILD_GID");
        roSocket := head (pathList (e "TP_DOCKER_GATE_RO_SOCKET"));
        ingressSwitchFile := head (pathList (e "TP_DOCKER_GATE_INGRESS_SWITCH"));
        upstreamSocket := orElse (e "TP_DOCKER_GATE_UPSTREAM") DEFAULT_UPSTREAM_SOCKET;
        socketGid := positiveIdOrUndefined (e "TP_DOCKER_GATE_SOCKET_GID");
        approvalKeyFile := head (pathList (e "TP_DOCKER_GATE_APPROVAL_PUBKEY"));
        approvalStateFile := head (pathList (e "TP_DOCKER_GATE_APPROVAL_STATE"));
        summarySeconds := positiveInt (e "TP_DOCKER_GATE_SUMMARY_SEC") DEFAULT_SUMMARY_SECONDS;
        configPolicy :=
          {| bindRoots := orDefault (pathList (e "TP_DOCKER_GATE_BIND_ROOTS"))
                            (bindRoots DEFAULT_POLICY_CONFIG);
             principalRoots := principalRoots DEFAULT_POLICY_CONFIG;
             denyPrefixes := denyPrefixes DEFAULT_POLICY_CONFIG
                             ++ pathList (e "TP_DOCKER_GATE_DENY_PREFIXES");
             dockerSockets := dockerSockets DEFAULT_POLICY_CONFIG;
             capAllowlist := capNames (e "TP_DOCKER_GATE_CAP_ALLOW");
             ingressSocketDir := ingressSocketDirOf (e "TP_DOCKER_GATE_RO_SOCKET");
             platformRoots :=
               {| roReadOnly := orDefault (pathList (e "TP_DOCKER_GATE_PLATFORM_RO_ROOTS"))
                                  (roReadOnly DEFAULT_PLATFORM_ROOTS);
                  roWritable := orDefault (pathList (e "TP_DOCKER_GATE_PLATFORM_RW_ROOTS"))
                                  (roWritable DEFAULT_PLATFORM_ROOTS) |} |} |}.
End Load.

(** ** Lemmas *)

(** A path as the settings hold it: absolute, and without a trailing slash
    unless it is the root. *)
Definition settled (p : jstring) : Prop :=
  startsWith "/" p = true /\ (p = "/" \/ last p <> Some 47).

Lemma trimEnd_settled fuel p :
  (length p <= fuel)%nat -> startsWith "/" p = true -> settled (trimEnd fuel p).
Proof.
  revert p. induction fuel as [| fuel IH]; intros p Hl Hp;
    [destruct p; [done | simpl in Hl; lia] |].
  cbn [trimEnd]. destruct (N.ltb_spec 1 (N.of_nat (length p))) as [Hlen | Hlen]; cbn [andb].
  - case_bool_decide as Hlast; [| split; [done | by right]].
    apply IH; [rewrite length_take; lia |].
    apply startsWith_spec in Hp as [t ->]. cbn [length app] in *.
    destruct t; [simpl in Hlen; lia |]. done.
  - apply startsWith_spec in Hp as [t ->]. cbn [length app] in *.
    destruct t; [| simpl in Hlen; lia]. split; [done | by left].
Qed.

Lemma pathList_settled value : Forall settled (pathList value).
Proof.
  unfold pathList. apply Forall_map, Forall_forall. intros x Hx.
  apply list_elem_of_filter in Hx as [Hs _]. by apply trimEnd_settled.
Qed.

Lemma orDefault_forall (P : jstring -> Prop) l d :
  Forall P l -> Forall P d -> Forall P (orDefault l d).
Proof. by destruct l. Qed.
Lemma orDefault_nonempty l d : d <> [] -> orDefault l d <> [].
Proof. by destruct l. Qed.

Lemma ingressSocketDir_absolute value : startsWith "/" (ingressSocketDirOf value) = true.
Proof.
  unfold ingressSocketDirOf. pose proof (pathList_settled value) as Hp.
  destruct (pathList value) as [| p ps]; [done |]. cbn [head].
  apply Forall_cons in Hp as [[Hp _] _].
  destruct (lastIndexOf 47 p) as [[| i] |]; [done | | done].
  apply startsWith_spec in Hp as [t ->]. done.
Qed.

(** ** Properties *)

(** No setting weakens what the profile always protects: a gate that starts
    has an explicitly supported mode (unset means observe; anything else than
    the two names fails the start), keeps every built-in denied prefix, engine
    socket and principal root, has at least one bind root, and every
    configured root and prefix is absolute and ends in no slash (unless it is
    the root itself). *)
Theorem settings_keep_the_profile `{JsTables} (e : env) config :
  loadConfig e = Ok config ->
  (mode config = Enforce <-> e "TP_DOCKER_GATE_MODE" = Some ("enforce" : jstring)) /\
  (mode config = Observe <->
     e "TP_DOCKER_GATE_MODE" = None \/ e "TP_DOCKER_GATE_MODE" = Some ("observe" : jstring)) /\
  let p := configPolicy config in
  (forall d, d ∈ denyPrefixes DEFAULT_POLICY_CONFIG -> d ∈ denyPrefixes p) /\
  dockerSockets p = dockerSockets DEFAULT_POLICY_CONFIG /\
  principalRoots p = principalRoots DEFAULT_POLICY_CONFIG /\
  bindRoots p <> [] /\
  Forall settled (bindRoots p ++ denyPrefixes p ++ roReadOnly (platformRoots p)
                  ++ roWritable (platformRoots p)) /\
  startsWith "/" (ingressSocketDir p) = true.
Proof.
  intros Hc. apply bind_Ok in Hc as (m & Hm & Hc). injection Hc as <-.
  assert (Forall settled (bindRoots DEFAULT_POLICY_CONFIG) /\
          Forall settled (denyPrefixes DEFAULT_POLICY_CONFIG) /\
          Forall settled (roReadOnly DEFAULT_PLATFORM_ROOTS) /\
          Forall settled (roWritable DEFAULT_PLATFORM_ROOTS)) as (H1 & H2 & H3 & H4).
  { repeat split; apply Forall_forall; intros x Hx; cbn in Hx;
      repeat (apply elem_of_cons in Hx as [-> | Hx]); try (by apply not_elem_of_nil in Hx);
      (split; [done | right; by vm_compute]). }
  unfold modeOf in Hm. cbn [mode configPolicy].
  split_and!.
  1,2: destruct (e "TP_DOCKER_GATE_MODE") as [x |]; cbn [default] in Hm;
       repeat case_decide; simplify_eq; naive_solver.
  - intros d Hd. apply (elem_of_app (denyPrefixes DEFAULT_POLICY_CONFIG)). by left.
  - done.
  - done.
  - by apply orDefault_nonempty.
  - repeat apply Forall_app_2; [| by apply (Forall_app_2 _ _ _ H2 (pathList_settled _)) | |];
      (apply orDefault_forall; [apply pathList_settled | done]).
  - apply ingressSocketDir_absolute.
Qed.

Definition sampleEnv : env := fun key =>
  if decide (key = "TP_DOCKER_GATE_MODE") then Some ("enforce" : jstring)
  else if decide (key = "TP_DOCKER_GATE_BIND_ROOTS") then Some ("/srv/users//: relative :/data/" : jstring)
  else if decide (key = "TP_DOCKER_GATE_SOCKET_GID") then Some (" 0x3e8 " : jstring)
  else if decide (key = "TP_DOCKER_GATE_CAP_ALLOW") then Some ("cap_chown, net_raw," : jstring)
  else if decide (key = "TP_DOCKER_GATE_RO_SOCKET") then Some ("/run/ro/docker.sock" : jstring)
  else None.

Definition sampleConfig : GateConfig := {|
  mode := Enforce; socket := DEFAULT_GATE_SOCKET; roSocket := Some ("/run/ro/docker.sock" : jstring);
  ingressSwitchFile := None; upstreamSocket := DEFAULT_UPSTREAM_SOCKET; socketGid := Some 1000%Z;
  summarySeconds := 300; approvalKeyFile := None; approvalStateFile := None;
  buildSocketPath := None; buildGid := None;
  configPolicy := {|
    bindRoots := ["/srv/users"; "/data"];
    principalRoots := principalRoots DEFAULT_POLICY_CONFIG;
    denyPrefixes := denyPrefixes DEFAULT_POLICY_CONFIG;
    dockerSockets := dockerSockets DEFAULT_POLICY_CONFIG;
    capAllowlist := ["CHOWN"; "NET_RAW"]; platformRoots := DEFAULT_PLATFORM_ROOTS;
    ingressSocketDir := "/run/ro" |}
|}.

Lemma settings_keep_the_profile_witness :
  @loadConfig {| unicode_upper := id; number_text := fun _ => [] |} sampleEnv = Ok sampleConfig /\
  bindRoots (configPolicy sampleConfig) <> [] /\
  dockerSockets (configPolicy sampleConfig) = dockerSockets DEFAULT_POLICY_CONFIG.
Proof.
  assert (@loadConfig {| unicode_upper := id; number_text := fun _ => [] |} sampleEnv
          = Ok sampleConfig) as E by (vm_compute; reflexivity).
  split; [exact E |].
  destruct (@settings_keep_the_profile _ sampleEnv sampleConfig E) as (_ & _ & _ & Hd & _ & Hb & _).
  by split.
Defined.
