(* ===== verification/GateMain.v ===== *)
(** * Starting and stopping the gate ([main.ts], [build.ts])

    The sockets the gate opens on the host, who may reach them while they are
    being made, which listener runs with which dependencies, and the cap on
    concurrent connections.  Every system call may fail: the world carries the
    failures to come, and records each state of the file system it goes
    through. *)

From stdpp Require Import relations.
From S2P Require Import Prelude Json Number GateHttp GateResolve GatePolicy GateApproval GateReplay.
From S2P Require Import JsonPrint GateProxy GateConfig.

#[local] Open Scope N_scope.

(** ** The host *)

(** What a path holds: a directory, a socket (each with its mode) or any other
    file. *)
Inductive node := NDir (perm : N) | NSock (perm : N) (group : Z) | NOther.

Inductive start_event :=
| RoSocketUnavailable (path : jstring) (fatal : bool) (error : jstring)
| BuildSocketUnavailable (path : jstring) (error : jstring)
| ApprovalKeysUnusable (file : jstring)
| Started (m : GateMode) (path : jstring) (build ro : option jstring) (keys : nat)
| FinalSummary.

Record world := World {
  nodes : gmap jstring node;
  listening : gset jstring;
  faults : list (option (jstring * jstring));
  visited : list (gmap jstring node);
  events : list start_event
}.

(** What the gate only reads of its host. *)
Record host := {
  freshPerm : N;
  freshGroup : Z;
  isRegularFile : jstring -> bool;
  readText : jstring -> fallible jstring;
  paths : PathProbe;
  stateFileOf : jstring -> read_outcome * disk;
  startSec : Z
}.

Definition sys (A : Type) : Type := world -> fallible A * world.

#[global] Instance sys_ret : MRet sys := fun A a w => (Ok a, w).
#[global] Instance sys_bind : MBind sys := fun A B k m w =>
  match m w with
  | (Ok a, w') => k a w'
  | (Throw e, w') => (Throw e, w')
  end.

Definition raise {A} (e : gate_error) : sys A := fun w => (Throw e, w).
Definition attempt {A} (m : sys A) (handler : gate_error -> sys A) : sys A := fun w =>
  match m w with
  | (Throw e, w') => handler e w'
  | done => done
  end.
Definition report (e : start_event) : sys unit := fun w =>
  (Ok tt, World (nodes w) (listening w) (faults w) (visited w) (events w ++ [e])).

(** One system call: the failure that is due, or its effect. *)
Definition systemCall {A} (f : world -> fallible (A * world)) : sys A := fun w =>
  let rest := World (nodes w) (listening w) (tl (faults w)) (visited w) (events w) in
  match faults w with
  | Some (name, message) :: _ => (Throw (OtherErr name message), rest)
  | _ =>
      match f rest with
      | Ok (a, w') => (Ok a, w')
      | Throw e => (Throw e, rest)
      end
  end.

Definition notFound : gate_error := OtherErr "NotFound" "no such file or directory".

Definition setNodes (w : world) (m : gmap jstring node) : world :=
  World m (listening w) (faults w) (visited w ++ [m]) (events w).

Definition lstat (path : jstring) : sys node :=
  systemCall (fun w => match nodes w !! path with Some n => Ok (n, w) | None => Throw notFound end).
Definition remove (path : jstring) : sys unit :=
  systemCall (fun w =>
    match nodes w !! path with
    | Some _ => Ok (tt, setNodes w (base.delete path (nodes w)))
    | None => Throw notFound
    end).
Definition chmod (path : jstring) (perm : N) : sys unit :=
  systemCall (fun w =>
    match nodes w !! path with
    | Some (NDir _) => Ok (tt, setNodes w (<[path := NDir perm]> (nodes w)))
    | Some (NSock _ g) => Ok (tt, setNodes w (<[path := NSock perm g]> (nodes w)))
    | Some NOther => Ok (tt, w)
    | None => Throw notFound
    end).
Definition chown (path : jstring) (gid : Z) : sys unit :=
  systemCall (fun w =>
    match nodes w !! path with
    | Some (NSock perm _) => Ok (tt, setNodes w (<[path := NSock perm gid]> (nodes w)))
    | Some _ => Ok (tt, w)
    | None => Throw notFound
    end).
Definition closeListener (path : jstring) : sys unit := fun w =>
  (Ok tt, World (nodes w) (listening w ∖ {[path]}) (faults w) (visited w) (events w)).

Definition SOCKET_PERM : N := 432.    (** [0o660] *)
Definition DIR_CLOSED : N := 448.     (** [0o700] *)
Definition DIR_OPEN : N := 488.       (** [0o750] *)

Definition isNotFound (e : gate_error) : bool :=
  match e with OtherErr name _ => bool_decide (name = "NotFound") | _ => false end.

Definition removeStaleSocket (path : jstring) : sys unit :=
  info ← attempt (n ← lstat path; mret (Some n)) (fun e => if isNotFound e then mret None else raise e);
  match info with
  | None => mret tt
  | Some (NDir _) =>
      raise (OtherErr "Error" (path ++ (" is a directory; refusing to replace it" : jstring)))
  | Some _ => remove path
  end.

Definition parentOf (path : jstring) : jstring :=
  match lastIndexOf 47 path with
  | Some (S slash) => take (S slash) path
  | _ => "/"
  end.

Section Main.
Context (h : host).

Definition listen (path : jstring) : sys unit :=
  systemCall (fun w =>
    match nodes w !! path with
    | Some _ => Throw (OtherErr "AddrInUse" "address already in use")
    | None =>
        let m := <[path := NSock (freshPerm h) (freshGroup h)]> (nodes w) in
        Ok (tt, World m ({[path]} ∪ listening w) (faults w) (visited w ++ [m]) (events w))
    end).

Definition openListener (path : jstring) (gid : option Z) : sys unit :=
  '_ ← removeStaleSocket path;
  '_ ← listen path;
  '_ ← chmod path SOCKET_PERM;
  match gid with
  | Some g => chown path g
  | None => mret tt
  end.

Definition ingressSwitchOn (file : option jstring) : bool :=
  match file with
  | None => false
  | Some f => isRegularFile h f
  end.

(** Whether the read-only listener runs. *)
Definition openReadOnlyListener (path : option jstring) (required : bool) : sys bool :=
  match path with
  | None => mret false
  | Some p =>
      attempt ('_ ← openListener p None; mret true)
        (fun err =>
           '_ ← report (RoSocketUnavailable p required (describeError err));
           if negb required then mret false
           else raise (OtherErr "Error"
                  (("the read-only socket " : jstring) ++ p
                   ++ (" could not open while Traefik's switch is on: " : jstring)
                   ++ describeError err)))
  end.

(** [build.ts]: open, restrict to the build group, then open the directory. *)
Definition listenBuildSocket (path : jstring) (gid : Z) (open : jstring -> sys unit) : sys unit :=
  let dir := parentOf path in
  '_ ← chmod dir DIR_CLOSED;
  '_ ← open path;
  '_ ← attempt ('_ ← chown path gid; chmod path SOCKET_PERM)
        (fun err =>
           '_ ← closeListener path;
           '_ ← attempt (remove path) (fun _ => mret tt);
           raise err);
  chmod dir DIR_OPEN.

Definition noBuildGroup : gate_error :=
  OtherErr "Error" "TP_DOCKER_GATE_BUILD_GID is not set: no group may open the build socket".

(** Whether the build listener runs. *)
Definition openBuildListener (config : GateConfig) : sys bool :=
  match buildSocketPath config with
  | None => mret false
  | Some path =>
      attempt
        match buildGid config with
        | None => raise noBuildGroup
        | Some gid =>
            '_ ← listenBuildSocket path gid (fun p => openListener p None); mret true
        end
        (fun err => '_ ← report (BuildSocketUnavailable path (describeError err)); mret false)
  end.

(** ** Starting *)

Context `{JsTables} `{Crypto}.

Definition loadApprovalKeys (file : option jstring) : sys (list CryptoKey) :=
  match file with
  | None => mret []
  | Some f =>
      match readText h f with
      | Ok text =>
          match importApprovalKeys text with
          | Some (k :: ks) => mret (k :: ks)
          | _ => '_ ← report (ApprovalKeysUnusable f); mret []
          end
      | Throw _ => '_ ← report (ApprovalKeysUnusable f); mret []
      end
  end.

(** The memory or the state file. *)
Definition GateReplayCache : Type := ReplayCache + PersistentReplayCache.

Definition approvalReplayOf (config : GateConfig) : GateReplayCache :=
  match approvalStateFile config with
  | None => inl []
  | Some f =>
      let '(outcome, d) := stateFileOf h f in
      inr (openCache (match mode config with Enforce => true | Observe => false end)
             outcome (startSec h) d)
  end.

Record RunningGate := {
  mainDeps : ProxyDeps;
  roDeps : option ProxyDeps;
  buildDeps : option ProxyDeps;
  approvalReplay : GateReplayCache
}.

(** The dependencies of a listener; [ro] and [build] say which one it is. *)
Definition proxyDeps (config : GateConfig) (keys : list CryptoKey) (ro build : bool) : ProxyDeps :=
  {| gatePolicy := configPolicy config; resolve := resolveBindPath (paths h);
     trustedKeys := keys; maxBodyBytes := DEFAULT_MAX_BODY_BYTES;
     readOnly := ro;
     enforcing := match mode config with Enforce => true | Observe => false end;
     buildSocket := build |}.

Definition onlyIf {A} (b : bool) (a : A) : option A := if b then Some a else None.

Definition startGate (config : GateConfig) : sys RunningGate :=
  keys ← loadApprovalKeys (approvalKeyFile config);
  let replay := approvalReplayOf config in
  '_ ← openListener (socket config) (socketGid config);
  ro ← attempt (openReadOnlyListener (roSocket config) (ingressSwitchOn (ingressSwitchFile config)))
         (fun err =>
            '_ ← closeListener (socket config);
            '_ ← removeStaleSocket (socket config);
            raise err);
  build ← openBuildListener config;
  '_ ← report (Started (mode config) (socket config)
                 (if build : bool then buildSocketPath config else None)
                 (if ro : bool then roSocket config else None) (length keys));
  mret {| mainDeps := proxyDeps config keys false false;
          buildDeps := onlyIf build (proxyDeps config keys false true);
          roDeps := onlyIf ro (proxyDeps config keys true false);
          approvalReplay := replay |}.

(** A socket of a listener that runs. *)
Definition forRunning (deps : option ProxyDeps) (path : option jstring) (f : jstring -> sys unit)
    : sys unit :=
  match deps, path with
  | Some _, Some p => f p
  | _, _ => mret tt
  end.

Definition stop (config : GateConfig) (run : RunningGate) : sys unit :=
  '_ ← report FinalSummary;
  '_ ← closeListener (socket config);
  '_ ← forRunning (roDeps run) (roSocket config) closeListener;
  '_ ← forRunning (buildDeps run) (buildSocketPath config) closeListener;
  '_ ← removeStaleSocket (socket config);
  '_ ← forRunning (roDeps run) (roSocket config) removeStaleSocket;
  forRunning (buildDeps run) (buildSocketPath config) removeStaleSocket.
End Main.

(** ** Accepting connections *)

Definition MAX_CONNECTIONS : nat := 512.

Record server := { active : nat; running : gset nat; refusedConns : gset nat }.

Definition idle : server := {| active := 0; running := ∅; refusedConns := ∅ |}.

(** One turn of the accept loop, or one [finished] callback. *)
Inductive server_step : server -> server -> Prop :=
| accepts s id :
    id ∉ running s -> id ∉ refusedConns s -> (active s < MAX_CONNECTIONS)%nat ->
    server_step s {| active := S (active s); running := {[id]} ∪ running s;
                     refusedConns := refusedConns s |}
| turns_away s id :
    id ∉ running s -> id ∉ refusedConns s -> (MAX_CONNECTIONS <= active s)%nat ->
    server_step s {| active := active s; running := running s;
                     refusedConns := {[id]} ∪ refusedConns s |}
| finishes s id :
    id ∈ running s ->
    server_step s {| active := active s - 1; running := running s ∖ {[id]};
                     refusedConns := refusedConns s |}.

Definition server_ok (s : server) : Prop :=
  active s = size (running s) /\ (active s <= MAX_CONNECTIONS)%nat /\ running s ## refusedConns s.

Lemma server_step_ok s s' : server_step s s' -> server_ok s -> server_ok s'.
Proof.
  intros Hstep Hinv. destruct Hstep as [s id Hr Hf Hlt | s id Hr Hf Hge | s id Hr];
    destruct Hinv as (Ha & Hm & Hd); unfold server_ok; cbn [active running refusedConns].
  - rewrite size_union, size_singleton by set_solver. split_and!; [lia | lia | set_solver].
  - split_and!; [done | done | set_solver].
  - rewrite size_difference, size_singleton by set_solver. split_and!; [lia | lia | set_solver].
Qed.

(** ** Reasoning about system calls *)

(** A run from [w]: every state it goes through satisfies [I], and its result
    satisfies [Q]. *)
Definition run_post {A : Type} (I : gmap jstring node -> Prop) (w : world) (r : fallible A * world)
    (Q : A -> world -> Prop) : Prop :=
  (exists new, visited r.2 = visited w ++ new /\ Forall I new) /\ I (nodes r.2) /\
  match r.1 with Ok a => Q a r.2 | Throw _ => True end.

Lemma run_post_ret {A : Type} (I : gmap jstring node -> Prop) w (a : A) (Q : A -> world -> Prop) :
  I (nodes w) -> Q a w -> run_post I w ((mret a : sys A) w) Q.
Proof. intros HI HQ. split; [| done]. exists []. by rewrite app_nil_r. Qed.

Lemma run_post_raise {A : Type} (I : gmap jstring node -> Prop) w e (Q : A -> world -> Prop) :
  I (nodes w) -> run_post I w (raise e w) Q.
Proof. intros HI. split; [| done]. exists []. by rewrite app_nil_r. Qed.

Lemma run_post_bind {A B : Type} I w (m : sys A) (k : A -> sys B) (P : A -> world -> Prop) Q :
  run_post I w (m w) P ->
  (forall a w1, I (nodes w1) -> P a w1 -> run_post I w1 (k a w1) Q) ->
  run_post I w ((m ≫= k) w) Q.
Proof.
  intros ((new & Hv & Hn) & HI & HP) Hk. unfold mbind, sys_bind.
  destruct (m w) as [[a | e] w1]; cbn [fst snd] in *; [| by split; [exists new |]].
  destruct (Hk a w1 HI HP) as ((new' & Hv' & Hn') & HI' & HQ). split; [| done].
  exists (new ++ new'). rewrite Hv', Hv, app_assoc. split; [done |]. by apply Forall_app.
Qed.

Lemma run_post_attempt {A : Type} I w (m : sys A) (handler : gate_error -> sys A) Q :
  run_post I w (m w) Q -> (forall e w1, I (nodes w1) -> run_post I w1 (handler e w1) Q) ->
  run_post I w (attempt m handler w) Q.
Proof.
  intros Hm Hh. pose proof Hm as ((new & Hv & Hn) & HI & HP). unfold attempt.
  destruct (m w) as [[a | e] w1]; cbn [fst snd] in *; [done |].
  destruct (Hh e w1 HI) as ((new' & Hv' & Hn') & HI' & HQ). split; [| done].
  exists (new ++ new'). rewrite Hv', Hv, app_assoc. split; [done |]. by apply Forall_app.
Qed.

Lemma run_post_mono {A : Type} I w (r : fallible A * world) (Q Q' : A -> world -> Prop) :
  (forall a w1, Q a w1 -> Q' a w1) -> run_post I w r Q -> run_post I w r Q'.
Proof. intros HQ (Hv & HI & H). split; [done |]. split; [done |]. destruct r.1; auto. Qed.

(** A system call that changes the file system at most once. *)
Lemma run_post_call {A : Type} I w (f : world -> fallible (A * world)) Q :
  I (nodes w) ->
  (forall w0, nodes w0 = nodes w -> listening w0 = listening w -> visited w0 = visited w ->
    match f w0 with
    | Ok (a, w1) => Q a w1 /\ I (nodes w1) /\
        (visited w1 = visited w0 \/ visited w1 = visited w0 ++ [nodes w1])
    | Throw _ => True
    end) ->
  run_post I w (systemCall f w) Q.
Proof.
  intros HI Hf. unfold systemCall.
  set (w0 := World (nodes w) (listening w) (tl (faults w)) (visited w) (events w)).
  specialize (Hf w0 eq_refl eq_refl eq_refl).
  assert (run_post I w (match f w0 with Ok (a, w') => (Ok a, w') | Throw e => (Throw e, w0) end) Q) as Hr.
  { destruct (f w0) as [[a w1] | e].
    - destruct Hf as (HQ & HI1 & Hv). split; [| done].
      destruct Hv as [Hv | Hv]; [exists [] | exists [nodes w1]]; cbn [snd]; rewrite Hv;
        [by rewrite app_nil_r |]. split; [done |]. by constructor.
    - split; [| done]. exists []. by rewrite app_nil_r. }
  destruct (faults w) as [| [[name message] |] fs]; [exact Hr | | exact Hr].
  split; [| done]. exists []. by rewrite app_nil_r.
Qed.

Section Sockets.
Context (h : host) (dir path : jstring) (Hne : path <> dir).

Definition dirIs (perm : N) (m : gmap jstring node) : Prop := m !! dir = Some (NDir perm).

Lemma keep_lstat perm w Q :
  dirIs perm (nodes w) -> (forall n w1, Q n w1) -> run_post (dirIs perm) w (lstat path w) Q.
Proof.
  intros HI HQ. apply run_post_call; [done |]. intros w0 Hn _ _.
  destruct (nodes w0 !! path); [| done]. rewrite Hn. eauto.
Qed.

Lemma keep_remove perm w :
  dirIs perm (nodes w) -> run_post (dirIs perm) w (remove path w) (fun _ _ => True).
Proof.
  intros HI. apply run_post_call; [done |]. intros w0 Hn _ _.
  destruct (nodes w0 !! path); [| done]. split; [done |]. split; [| by right].
  unfold dirIs. cbn [setNodes nodes]. by rewrite lookup_delete_ne, Hn.
Qed.

Lemma keep_removeStale perm w :
  dirIs perm (nodes w) -> run_post (dirIs perm) w (removeStaleSocket path w) (fun _ _ => True).
Proof.
  intros HI. eapply run_post_bind with (P := fun _ _ => True).
  - apply run_post_attempt.
    + eapply run_post_bind; [by apply (keep_lstat perm w (fun _ _ => True)) |].
      intros n w1 HI1 _. by apply run_post_ret.
    + intros e w1 HI1. destruct (isNotFound e); [by apply run_post_ret | by apply run_post_raise].
  - intros [[| |] |] w1 HI1 _; [by apply run_post_raise | by apply keep_remove ..
                               | by apply run_post_ret].
Qed.

(** [path] holds a socket of this mode and group. *)
Definition sockIs (perm : N) (P : Z -> Prop) (w : world) : Prop :=
  (exists g, nodes w !! path = Some (NSock perm g) /\ P g) /\ path ∈ listening w.

Lemma keep_open perm w :
  dirIs perm (nodes w) ->
  run_post (dirIs perm) w (openListener h path None w)
    (fun _ => sockIs SOCKET_PERM (fun _ => True)).
Proof.
  intros HI. eapply run_post_bind; [by apply keep_removeStale |]. intros [] w1 HI1 _.
  eapply run_post_bind with (P := fun _ => sockIs (freshPerm h) (fun _ => True)).
  - apply run_post_call; [done |]. intros w0 Hn _ _. destruct (nodes w0 !! path); [done |].
    split; [| split; [| by right]].
    + split; [| set_solver]. eexists. cbn [nodes]. by rewrite lookup_insert_eq.
    + unfold dirIs. cbn [nodes]. by rewrite lookup_insert_ne, Hn.
  - intros [] w2 HI2 [[g [Hg _]] Hlis]. eapply run_post_bind with
      (P := fun _ => sockIs SOCKET_PERM (fun _ => True)).
    + apply run_post_call; [done |]. intros w0 Hn Hl _. rewrite Hn, Hg.
      split; [| split; [| by right]].
      * split; [| cbn [listening setNodes]; by rewrite Hl]. eexists. cbn [nodes setNodes]. by rewrite lookup_insert_eq.
      * unfold dirIs. cbn [setNodes nodes]. by rewrite lookup_insert_ne.
    + intros [] w3 HI3 Hs. by apply run_post_ret.
Qed.

Lemma keep_restrict gid w :
  dirIs DIR_CLOSED (nodes w) -> sockIs SOCKET_PERM (fun _ => True) w ->
  run_post (dirIs DIR_CLOSED) w
    (attempt ('_ ← chown path gid; chmod path SOCKET_PERM)
       (fun err => '_ ← closeListener path;
                   '_ ← attempt (remove path) (fun _ => mret tt); raise err) w)
    (fun _ => sockIs SOCKET_PERM (eq gid)).
Proof.
  intros HI [[g [Hg _]] Hlis]. apply run_post_attempt.
  - eapply run_post_bind with (P := fun _ => sockIs SOCKET_PERM (eq gid)).
    + apply run_post_call; [done |]. intros w0 Hn Hl _. rewrite Hn, Hg.
      split; [| split; [| by right]].
      * split; [| cbn [listening setNodes]; by rewrite Hl]. exists gid. cbn [nodes setNodes]. by rewrite lookup_insert_eq.
      * unfold dirIs. cbn [setNodes nodes]. by rewrite lookup_insert_ne.
    + intros [] w1 HI1 [[g1 [Hg1 <-]] Hl1]. apply run_post_call; [done |]. intros w0 Hn Hl _.
      rewrite Hn, Hg1. split; [| split; [| by right]].
      * split; [| cbn [listening setNodes]; by rewrite Hl]. exists gid. cbn [nodes setNodes]. by rewrite lookup_insert_eq.
      * unfold dirIs. cbn [setNodes nodes]. by rewrite lookup_insert_ne.
  - intros e w1 HI1. eapply run_post_bind with (P := fun _ _ => True).
    { split; [| done]. exists []. by rewrite app_nil_r. }
    intros [] w2 HI2 _. eapply run_post_bind with (P := fun _ _ => True).
    + apply run_post_attempt; [by apply keep_remove |]. intros. by apply run_post_ret.
    + intros [] w3 HI3 _. by apply run_post_raise.
Qed.
End Sockets.

Lemma parentOf_ne path : path <> "/" -> path <> parentOf path.
Proof.
  intros Hp. unfold parentOf. destruct (lastIndexOf 47 path) as [[| i] |] eqn:E; try done.
  apply lastIndexOf_le in E. intros Heq. apply (f_equal length) in Heq.
  rewrite length_take in Heq. lia.
Qed.

(** *** Which listeners start *)

Lemma sys_bind_Ok {A B : Type} (m : sys A) (k : A -> sys B) w b w' :
  (m ≫= k) w = (Ok b, w') -> exists a w1, m w = (Ok a, w1) /\ k a w1 = (Ok b, w').
Proof. unfold mbind, sys_bind. destruct (m w) as [[a | e] w1]; [eauto | done]. Qed.

Lemma sys_bind_Throw {A B : Type} (m : sys A) (k : A -> sys B) w e w' :
  (m ≫= k) w = (Throw e, w') ->
  m w = (Throw e, w') \/ exists a w1, m w = (Ok a, w1) /\ k a w1 = (Throw e, w').
Proof. unfold mbind, sys_bind. destruct (m w) as [[a | e1] w1]; intros; simplify_eq; eauto. Qed.

Section Start.
Context (h : host) `{JsTables} `{Crypto}.

Lemma openReadOnly_required path required w w' :
  openReadOnlyListener h path required w = (Ok false, w') -> path = None \/ required = false.
Proof.
  destruct path as [p |]; [| by left]. right. unfold openReadOnlyListener, attempt in H1.
  destruct ((openListener h p None ≫= _) w) as [[b | e] w1] eqn:E in H1.
  - apply sys_bind_Ok in E as ([] & w2 & _ & E). by simplify_eq.
  - destruct required; [| done]. by apply sys_bind_Ok in H1 as ([] & w2 & _ & H1).
Qed.

Lemma openReadOnly_path path required w w' :
  openReadOnlyListener h path required w = (Ok true, w') -> exists p, path = Some p.
Proof. destruct path; [eauto | done]. Qed.

Lemma openBuild_total config w : exists b w', openBuildListener h config w = (Ok b, w').
Proof.
  unfold openBuildListener. destruct (buildSocketPath config); [| by eexists _, _].
  unfold attempt. match goal with |- context [ match ?m with _ => _ end = (Ok _, _) ] =>
    destruct m as [[b | e] w1] end; by eexists _, _.
Qed.

Lemma openBuild_group config w w' :
  openBuildListener h config w = (Ok true, w') ->
  exists path gid, buildSocketPath config = Some path /\ buildGid config = Some gid.
Proof.
  unfold openBuildListener. destruct (buildSocketPath config) as [p |]; [| done].
  destruct (buildGid config) as [g |]; [by eauto | done].
Qed.
End Start.

(** *** Listeners that stay *)

(** A run that opens no listener outside [P]. *)
Definition opens {A : Type} (P : gset jstring) (m : sys A) : Prop :=
  forall w, listening (m w).2 ⊆ P ∪ listening w.

Lemma opens_bind {A B : Type} P (m : sys A) (k : A -> sys B) :
  opens P m -> (forall a, opens P (k a)) -> opens P (m ≫= k).
Proof.
  intros Hm Hk w. specialize (Hm w). unfold mbind, sys_bind.
  destruct (m w) as [[a | e] w1]; [| done]. specialize (Hk a w1). set_solver.
Qed.
Lemma opens_attempt {A : Type} P (m : sys A) handler :
  opens P m -> (forall e, opens P (handler e)) -> opens P (attempt m handler).
Proof.
  intros Hm Hh w. specialize (Hm w). unfold attempt.
  destruct (m w) as [[a | e] w1]; [done |]. specialize (Hh e w1). set_solver.
Qed.
Lemma opens_ret {A : Type} P (a : A) : opens P (mret a : sys A).
Proof. intros w. simpl. set_solver. Qed.
Lemma opens_raise {A : Type} P e : opens P (raise e : sys A).
Proof. intros w. simpl. set_solver. Qed.
Lemma opens_call {A : Type} P (f : world -> fallible (A * world)) :
  (forall w a w', f w = Ok (a, w') -> listening w' ⊆ P ∪ listening w) -> opens P (systemCall f).
Proof.
  intros Hf w. unfold systemCall. set (w0 := World _ _ _ _ _).
  assert (listening w0 = listening w) as Hl by done.
  assert (listening (match f w0 with Ok (a, w') => (Ok a, w') | Throw e => (Throw e, w0) end).2
          ⊆ P ∪ listening w).
  { destruct (f w0) as [[a w1] | e] eqn:E; [by apply Hf in E | set_solver]. }
  destruct (faults w) as [| [[] |]]; [done | set_solver | done].
Qed.
Lemma opens_close P p : opens P (closeListener p).
Proof. intros w. simpl. set_solver. Qed.
Lemma opens_report P e : opens P (report e).
Proof. intros w. simpl. set_solver. Qed.
#[export] Hint Resolve opens_ret opens_raise opens_close opens_report : turbo.

Lemma opens_removeStale P p : opens P (removeStaleSocket p).
Proof.
  apply opens_bind; [apply opens_attempt; [apply opens_bind; [| auto with turbo] |] |].
  - apply opens_call. intros w a w'. case_match; [| done]. intros [= _ <-]. set_solver.
  - intros e. destruct (isNotFound e); auto with turbo.
  - intros [[| |] |]; auto with turbo;
      (apply opens_call; intros w a w'; case_match; [intros [= _ <-]; set_solver | done]).
Qed.
#[export] Hint Resolve opens_removeStale : turbo.

(** A listener that was closed is not reopened by what follows. *)
Lemma closed_stays {A : Type} p (m : sys A) w :
  opens ∅ m -> p ∉ listening w -> p ∉ listening (m w).2.
Proof. intros Hm. specialize (Hm w). set_solver. Qed.

(** *** The gate's replay cache *)

#[global] Instance GateReplayCache_store `{JsTables} : ReplayStore GateReplayCache :=
  fun s j e now =>
    match s with
    | inl c => let '(fresh, c') := claim c j e now in (fresh, inl c')
    | inr c => let '(fresh, c') := claim c j e now in (fresh, inr c')
    end.

#[global] Program Instance GateReplayCache_laws `{JsTables} : ReplayLaws GateReplayCache := {|
  store_ok s := match s with inl c => store_ok c | inr c => store_ok c end;
  holds s j e := match s with inl c => holds c j e | inr c => holds c j e end
|}.
Next Obligation.
  intros ? [c | c] j e now Hok He; unfold claim, GateReplayCache_store;
    pose proof (claim_ok c j e now Hok He); by destruct (claim c j e now).
Qed.
Next Obligation.
  intros ? [c | c] j e now s' Hok He; unfold claim, GateReplayCache_store;
    destruct (claim c j e now) as [fresh c'] eqn:E; intros [= -> <-];
    by apply (claim_holds c j e now).
Qed.
Next Obligation.
  intros ? [c | c] j e e' now Hok Hh Hn; unfold claim, GateReplayCache_store;
    pose proof (holds_refuses c j e e' now Hok Hh Hn); by destruct (claim c j e' now).
Qed.
Next Obligation.
  intros ? [c | c] j e j' e' now Hok Hh Hn He; unfold claim, GateReplayCache_store;
    pose proof (holds_kept c j e j' e' now Hok Hh Hn He); by destruct (claim c j' e' now).
Qed.

Lemma claimAll_ok {S : Type} `{ReplayLaws S} (s : S) history :
  store_ok s -> Forall (fun '(_, e2, _) => safe_time e2) history -> store_ok (claimAll s history).
Proof.
  revert s. induction history as [| [[j e] t] history IH]; intros s Hok Hall; [done |].
  apply Forall_cons in Hall as [He Hall]. cbn [claimAll]. apply IH; [by apply claim_ok | done].
Qed.

Lemma liveIds_NoDup o now ceiling live m :
  liveIds o now ceiling live = Ok m -> NoDup (map fst live) -> NoDup (map fst m).
Proof.
  revert live. induction o as [| [k v] o IH]; intros live; cbn [liveIds]; [by intros [= <-] |].
  destruct v; try done. destruct (negb _); [done |]. destruct (num_leb _ _); [by apply IH |].
  intros Hl Hnd. apply (IH _ Hl). by apply mapSet_keys_NoDup.
Qed.

Lemma openCache_ok enf outcome now d : NoDup (map fst (ids (openCache enf outcome now d))).
Proof.
  destruct outcome as [| | text]; try apply NoDup_nil_2. cbn [openCache].
  destruct (parseUsedIds text now) as [m |] eqn:E; [| apply NoDup_nil_2]. cbn [ids].
  unfold parseUsedIds in E. repeat case_match; try done.
  apply bind_Ok in E as (m' & Hm & E). case_match; simplify_eq.
  eapply liveIds_NoDup; [exact Hm | apply NoDup_nil_2].
Qed.

Lemma approvalReplay_ok h `{JsTables} config : store_ok (approvalReplayOf h config).
Proof.
  unfold approvalReplayOf. destruct (approvalStateFile config) as [f |]; [| apply NoDup_nil_2].
  destruct (stateFileOf h f) as [outcome d]. apply openCache_ok.
Qed.

Lemma chmod_dir dir perm0 perm w :
  nodes w !! dir = Some (NDir perm0) ->
  (exists e w1, chmod dir perm w = (Throw e, w1) /\ visited w1 = visited w /\ nodes w1 = nodes w) \/
  (exists w1, chmod dir perm w = (Ok tt, w1) /\ nodes w1 = <[dir := NDir perm]> (nodes w) /\
     visited w1 = visited w ++ [nodes w1] /\ listening w1 = listening w).
Proof.
  intros Hd. unfold chmod, systemCall. cbn [nodes]. rewrite Hd.
  destruct (faults w) as [| [[name message] |] fs]; [right | left | right]; eauto 10.
Qed.

(** ** Properties *)

(** The build socket is never reachable half-made: whichever system calls
    fail, in every state [listenBuildSocket] goes through either the socket's
    directory is closed to everyone but root, or the socket is [0660] of the
    build group; and when it returns a listener the socket is restricted and
    its directory open to the group. *)
Theorem build_socket_never_exposed h path gid w perm :
  path <> "/" -> nodes w !! parentOf path = Some (NDir perm) ->
  let '(res, w') := listenBuildSocket path gid (fun p => openListener h p None) w in
  exists new, visited w' = visited w ++ new /\
    Forall (fun m => m !! parentOf path = Some (NDir DIR_CLOSED) \/
                     m !! path = Some (NSock SOCKET_PERM gid)) new /\
    (res = Ok tt ->
       nodes w' !! path = Some (NSock SOCKET_PERM gid) /\
       nodes w' !! parentOf path = Some (NDir DIR_OPEN) /\ path ∈ listening w').
Proof.
  intros Hp Hd. pose proof (parentOf_ne path Hp) as Hne. unfold listenBuildSocket.
  set (dir := parentOf path) in *. unfold mbind at 1, sys_bind at 1.
  destruct (chmod_dir dir perm DIR_CLOSED w Hd)
    as [(e & w1 & -> & Hv1 & _) | (w1 & -> & Hn1 & Hv1 & _)].
  { exists []. by rewrite app_nil_r. }
  assert (dirIs dir DIR_CLOSED (nodes w1)) as Hdir1
    by (unfold dirIs; rewrite Hn1; apply lookup_insert_eq).
  set (safe := fun m : gmap jstring node =>
    m !! dir = Some (NDir DIR_CLOSED) \/ m !! path = Some (NSock SOCKET_PERM gid)).
  assert (forall l, Forall (dirIs dir DIR_CLOSED) l -> Forall safe l) as Hsafe
    by (intros l Hl; eapply Forall_impl; [exact Hl | intros m Hm; by left]).
  unfold mbind at 1, sys_bind at 1.
  destruct (keep_open h dir path Hne DIR_CLOSED w1 Hdir1) as ((n2 & Hv2 & Hf2) & Hdir2 & Hs2).
  destruct (openListener h path None w1) as [[[] | e] w2]; cbn [fst snd] in *.
  2: { exists ([nodes w1] ++ n2). rewrite Hv2, Hv1, app_assoc. split_and!; [done | | done].
       apply Hsafe. by constructor. }
  unfold mbind at 1, sys_bind at 1.
  destruct (keep_restrict dir path Hne gid w2 Hdir2 Hs2) as ((n3 & Hv3 & Hf3) & Hdir3 & Hs3).
  destruct (attempt _ _ w2) as [[[] | e] w3]; cbn [fst snd] in *.
  2: { exists ([nodes w1] ++ n2 ++ n3). rewrite Hv3, Hv2, Hv1, !app_assoc.
       split_and!; [done | | done]. apply Hsafe. rewrite !Forall_app. by repeat constructor. }
  destruct Hs3 as [[g [Hg <-]] Hl3].
  destruct (chmod_dir dir DIR_CLOSED DIR_OPEN w3 Hdir3)
    as [(e & w4 & -> & Hv4 & _) | (w4 & -> & Hn4 & Hv4 & Hl4)].
  - exists ([nodes w1] ++ n2 ++ n3). rewrite Hv4, Hv3, Hv2, Hv1, !app_assoc.
    split_and!; [done | | done]. apply Hsafe. rewrite !Forall_app. by repeat constructor.
  - assert (nodes w4 !! path = Some (NSock SOCKET_PERM gid)) as Hp4
      by (rewrite Hn4; by rewrite lookup_insert_ne).
    exists ([nodes w1] ++ n2 ++ n3 ++ [nodes w4]). rewrite Hv4, Hv3, Hv2, Hv1, !app_assoc.
    split_and!; [done | | intros _; rewrite Hl4; split_and!; try done].
    + rewrite !Forall_app. split_and!; [apply Hsafe; by repeat constructor | by apply Hsafe ..|].
      apply Forall_singleton. by right.
    + rewrite Hn4. apply lookup_insert_eq.
Qed.

Definition sampleHost : host := {|
  freshPerm := 511; freshGroup := 0; isRegularFile := fun _ => false;
  readText := fun _ => Throw notFound;
  paths := {| kind := fun _ => Ok None; readLink := fun _ => Ok [] |};
  stateFileOf := fun _ => (NotFound, {| stateFile := None; attempts := [] |}); startSec := 1000
|}.

(** A stale socket in an open directory; the third call fails. *)
Definition staleWorld : world :=
  World {[ ("/run/b" : jstring) := NDir 493; ("/run/b/s" : jstring) := NSock 511 7 ]} ∅
    [] [] [].

Lemma build_socket_never_exposed_witness :
  let '(res, w') := listenBuildSocket "/run/b/s" 42 (fun p => openListener sampleHost p None) staleWorld in
  res = Ok tt /\ nodes w' !! ("/run/b/s" : jstring) = Some (NSock SOCKET_PERM 42).
Proof.
  pose proof (build_socket_never_exposed sampleHost "/run/b/s" 42 staleWorld 493) as Hb.
  assert ((listenBuildSocket "/run/b/s" 42 (fun p => openListener sampleHost p None) staleWorld).1
          = Ok tt) as E by (vm_compute; reflexivity).
  destruct (listenBuildSocket _ _ _ _) as [res w']. cbn [fst] in E.
  destruct Hb as (new & _ & _ & Hok); [by vm_compute | vm_compute; reflexivity |].
  split; [exact E |]. by destruct (Hok E).
Defined.

(** Every listener runs with the dependencies of its kind: the main one is
    neither read-only nor a build socket, the read-only one is read-only, the
    build one only exists with a build group and is the only one that may open
    build sessions; all judge with the configured policy and mode and hold
    bodies to the same cap.  While Traefik's switch is on, a gate that starts
    has the read-only listener. *)
Theorem started_listeners h `{Crypto} config w run w' :
  startGate h config w = (Ok run, w') ->
  let governed (d : ProxyDeps) :=
    gatePolicy d = configPolicy config /\ maxBodyBytes d = DEFAULT_MAX_BODY_BYTES /\
    (enforcing d = true <-> mode config = Enforce) /\ trustedKeys d = trustedKeys (mainDeps run) in
  governed (mainDeps run) /\ readOnly (mainDeps run) = false /\ buildSocket (mainDeps run) = false /\
  (forall d, roDeps run = Some d ->
     governed d /\ readOnly d = true /\ buildSocket d = false /\ exists p, roSocket config = Some p) /\
  (forall d, buildDeps run = Some d ->
     governed d /\ readOnly d = false /\ buildSocket d = true /\
     exists p gid, buildSocketPath config = Some p /\ buildGid config = Some gid) /\
  (ingressSwitchOn h (ingressSwitchFile config) = true -> roSocket config <> None ->
     roDeps run <> None) /\
  (approvalKeyFile config = None -> trustedKeys (mainDeps run) = []).
Proof.
  unfold startGate. intros Hrun.
  apply sys_bind_Ok in Hrun as (keys & w1 & Hk & Hrun).
  apply sys_bind_Ok in Hrun as ([] & w2 & _ & Hrun).
  apply sys_bind_Ok in Hrun as (ro & w3 & Hro & Hrun).
  apply sys_bind_Ok in Hrun as (build & w4 & Hb & Hrun).
  apply sys_bind_Ok in Hrun as ([] & w5 & _ & Hrun). injection Hrun as <- _.
  assert (openReadOnlyListener h (roSocket config) (ingressSwitchOn h (ingressSwitchFile config)) w2
          = (Ok ro, w3)) as Hro'.
  { unfold attempt in Hro. destruct (openReadOnlyListener _ _ _ w2) as [[b | e] w6]; [done |].
    apply sys_bind_Ok in Hro as ([] & ? & _ & Hro). by apply sys_bind_Ok in Hro as ([] & ? & _ & Hro). }
  assert (forall ro build, enforcing (proxyDeps h config keys ro build) = true <-> mode config = Enforce)
    as Hen by (intros; unfold proxyDeps; cbn [enforcing]; by destruct (mode config)).
  cbv zeta. cbn [mainDeps roDeps buildDeps]. split_and!; try done.
  - intros d Hd. destruct ro; [| done]. injection Hd as <-.
    apply openReadOnly_path in Hro'. by split_and!.
  - intros d Hd. destruct build; [| done]. injection Hd as <-.
    apply openBuild_group in Hb. by split_and!.
  - intros Hsw Hpath. destruct ro; [done |]. apply openReadOnly_required in Hro' as [? | ?]; congruence.
  - intros Hnone. rewrite Hnone in Hk. by injection Hk as <- _.
Qed.

Lemma started_listeners_witness :
  let '(res, _) := @startGate sampleHost toyCrypto sampleConfig staleWorld in
  exists run d, res = Ok run /\ roDeps run = Some d /\ readOnly d = true /\ enforcing d = true.
Proof.
  assert (match @startGate sampleHost toyCrypto sampleConfig staleWorld with
          | (Ok run, _) => match roDeps run with Some _ => true | None => false end
          | _ => false
          end = true) as Hs by (vm_compute; reflexivity).
  destruct (startGate sampleHost sampleConfig staleWorld) as [[run | e] w'] eqn:E; [| discriminate Hs].
  exists run. destruct (roDeps run) as [d |] eqn:Hd; [| discriminate Hs].
  exists d. split; [reflexivity |]. split; [reflexivity |].
  destruct (@started_listeners sampleHost toyCrypto sampleConfig staleWorld run w' E)
    as (_ & _ & _ & Hro & _).
  destruct (Hro d Hd) as ((_ & _ & Hen & _) & Hr & _). split; [exact Hr |]. by apply Hen.
Defined.

(** A start that fails leaves no main listener behind: either the main
    socket never opened, or it was closed again before the failure was
    reported (listeners are identified by their path). *)
Theorem failed_start_closes_main h `{Crypto} config w e w' :
  startGate h config w = (Throw e, w') ->
  (exists w1, openListener h (socket config) (socketGid config) w1 = (Throw e, w')) \/
  socket config ∉ listening w'.
Proof.
  unfold startGate. intros Hrun.
  apply sys_bind_Throw in Hrun as [Hrun | (keys & w1 & _ & Hrun)].
  { exfalso. unfold loadApprovalKeys in Hrun. by repeat case_match. }
  apply sys_bind_Throw in Hrun as [Hrun | ([] & w2 & _ & Hrun)]; [by left; exists w1 | right].
  apply sys_bind_Throw in Hrun as [Hrun | (ro & w3 & _ & Hrun)].
  2: { exfalso. apply sys_bind_Throw in Hrun as [Hrun | (b & w4 & _ & Hrun)].
       - destruct (openBuild_total h config w3) as (b & w4 & E). congruence.
       - by apply sys_bind_Throw in Hrun as [Hrun | ([] & w5 & _ & Hrun)]. }
  unfold attempt in Hrun. destruct (openReadOnlyListener _ _ _ w2) as [[b | e1] w3]; [done |].
  apply sys_bind_Throw in Hrun as [Hrun | ([] & w4 & Hc & Hrun)]; [done |].
  injection Hc as <-.
  match type of Hrun with ?m ?w0 = _ => assert (opens ∅ m) as Ho
    by (apply opens_bind; auto with turbo);
    pose proof (closed_stays (socket config) m w0 Ho) as Hcl end.
  rewrite Hrun in Hcl. apply Hcl. cbn [listening snd]. set_solver.
Qed.

(** The read-only socket is required and its listen call fails. *)
Lemma failed_start_closes_main_witness :
  let config := {|
    mode := Enforce; socket := DEFAULT_GATE_SOCKET; roSocket := Some ("/run/ro/docker.sock" : jstring);
    ingressSwitchFile := Some ("/run/switch" : jstring); upstreamSocket := DEFAULT_UPSTREAM_SOCKET;
    socketGid := None; summarySeconds := 300; approvalKeyFile := None; approvalStateFile := None;
    buildSocketPath := None; buildGid := None; configPolicy := DEFAULT_POLICY_CONFIG |} in
  let theHost := {|
    freshPerm := 511; freshGroup := 0; isRegularFile := fun _ => true;
    readText := fun _ => Throw notFound; paths := paths sampleHost;
    stateFileOf := stateFileOf sampleHost; startSec := 1000 |} in
  let w := World ∅ ∅ [None; None; None; None; Some ("PermissionDenied" : jstring, [])] [] [] in
  exists e, (@startGate theHost toyCrypto config w).1 = Throw e /\
    socket config ∉ listening (@startGate theHost toyCrypto config w).2.
Proof.
  cbv zeta. match goal with |- exists e, (startGate ?h ?c ?w).1 = _ /\ _ =>
    set (theHost := h); set (config := c); set (w0 := w) end.
  assert (match @startGate theHost toyCrypto config w0 with
          | (Throw _, w') => bool_decide (socket config ∈ listening w')
          | _ => true
          end = false) as Hs by (vm_compute; reflexivity).
  destruct (startGate theHost config w0) as [[run | e] w'] eqn:E; [discriminate Hs |].
  exists e. split; [reflexivity |]. cbn [snd].
  destruct (@failed_start_closes_main theHost toyCrypto config w0 e w' E) as [[w1 Ho] | Hn];
    [| exact Hn].
  by apply bool_decide_eq_false in Hs.
Defined.

(** The listener serves at most [MAX_CONNECTIONS] at a time, and its counter
    is exact: in every reachable state [active] is the number of connections
    being served, no connection is both served and turned away, and a
    connection is only turned away while that many are running. *)
Theorem connections_are_capped s :
  rtc server_step idle s ->
  active s = size (running s) /\ (active s <= MAX_CONNECTIONS)%nat /\ running s ## refusedConns s /\
  forall s', server_step s s' -> refusedConns s' <> refusedConns s ->
    size (running s) = MAX_CONNECTIONS.
Proof.
  intros Hreach.
  assert (server_ok s) as (Ha & Hm & Hd).
  { revert s Hreach. apply rtc_ind_r.
    - split_and!; [done | apply Nat.le_0_l | set_solver].
    - intros s1 s2 _ Hstep. by apply server_step_ok. }
  split_and!; try done. intros s' Hstep Hne. destruct Hstep; simpl in *; [done | lia | done].
Qed.

Lemma connections_are_capped_witness :
  active {| active := 1; running := {[7%nat]} ∪ ∅; refusedConns := ∅ |} = 1%nat.
Proof.
  destruct (connections_are_capped {| active := 1; running := {[7%nat]} ∪ ∅; refusedConns := ∅ |})
    as [Ha _]; [| exact Ha].
  apply rtc_once. apply (accepts idle 7%nat); [set_solver | set_solver | cbn; unfold MAX_CONNECTIONS; lia].
Defined.

(** In a gate's life a token lifts findings once: from the cache a gate
    starts with (memory or state file, readable or not), once a claim is
    accepted every later claim of the same id before its expiry is refused,
    whatever is claimed in between. *)
Theorem gate_life_single_use h `{JsTables} config before j e now s1 history e' now' :
  Forall (fun '(_, e2, _) => safe_time e2) before -> safe_time e ->
  claim (claimAll (approvalReplayOf h config) before) j e now = (true, s1) ->
  Forall (fun '(_, e2, t) => (t < e)%Z /\ safe_time e2) history -> (now' < e)%Z ->
  (claim (claimAll s1 history) j e' now').1 = false.
Proof.
  intros Hb He Hc Hall Hnow.
  assert (store_ok (claimAll (approvalReplayOf h config) before)) as Hok
    by (apply claimAll_ok; [apply approvalReplay_ok | done]).
  assert (store_ok s1) as Hok1 by (replace s1 with
    (claim (claimAll (approvalReplayOf h config) before) j e now).2 by (by rewrite Hc);
    by apply claim_ok).
  destruct (claimAll_holds s1 history j e) as [Hok2 Hh]; [done | | done |].
  { by apply (claim_holds (claimAll (approvalReplayOf h config) before) j e now). }
  by apply (holds_refuses _ j e).
Qed.

Lemma gate_life_single_use_witness :
  let s1 : GateReplayCache := inl [("t0" : jstring, 1700%Z); ("t1" : jstring, 1600%Z)] in
  (claim (ReplayStore := @GateReplayCache_store integerTables) s1 "t1" 1600 1300).1 = false.
Proof.
  refine (@gate_life_single_use sampleHost integerTables sampleConfig
    [("t0" : jstring, 1700%Z, 1100%Z)] "t1" 1600 1200
    (inl [("t0" : jstring, 1700%Z); ("t1" : jstring, 1600%Z)]) [] 1600 1300 _ _ _ _ _).
  - apply Forall_singleton. reflexivity.
  - reflexivity.
  - vm_compute. reflexivity.
  - constructor.
  - reflexivity.
Defined.
