(* ===== verification/Dates.v ===== *)
(** * Instants as text ([Date.prototype.toISOString] and [Date.parse])

    A time value is a whole number of milliseconds since the epoch.  The text
    of an instant is read back as that instant ([parse_toISOString]).  Forms
    other than the one [toISOString] writes are read by [otherDate], which
    ECMAScript leaves to the engine. *)

From S2P Require Import Prelude Json Number GateHttp.

#[local] Open Scope Z_scope.

(** ** Days and civil dates (proleptic Gregorian calendar) *)

Definition MS_PER_DAY : Z := 86400000.

(** Eras of 400 years starting in March: the era, the year and the day of it. *)
Definition civilFromDays (day : Z) : Z * Z * Z :=
  let z := day + 719468 in
  let era := z / 146097 in
  let doe := z mod 146097 in
  let yoe := (doe - doe / 1460 + doe / 36524 - doe / 146096) / 365 in
  let doy := doe - (365 * yoe + yoe / 4 - yoe / 100) in
  let mp := (5 * doy + 2) / 153 in
  let d := doy - (153 * mp + 2) / 5 + 1 in
  let m := if mp <? 10 then mp + 3 else mp - 9 in
  (yoe + era * 400 + (if m <=? 2 then 1 else 0), m, d).

Definition daysFromCivil (year month day : Z) : Z :=
  let y := if month <=? 2 then year - 1 else year in
  let era := y / 400 in
  let yoe := y mod 400 in
  let mp := if month <=? 2 then month + 9 else month - 3 in
  let doy := (153 * mp + 2) / 5 + day - 1 in
  era * 146097 + (yoe * 365 + yoe / 4 - yoe / 100 + doy) - 719468.

Definition leap (year : Z) : bool :=
  (year mod 4 =? 0) && negb (year mod 100 =? 0) || (year mod 400 =? 0).
Definition daysInMonth (year month : Z) : Z :=
  if month =? 2 then (if leap year then 29 else 28)
  else if (month =? 4) || (month =? 6) || (month =? 9) || (month =? 11) then 30 else 31.

(** ** Fixed-width numbers *)

(** The last [width] decimal digits of [n]. *)
Fixpoint padded (width : nat) (n : Z) : jstring :=
  match width with
  | O => []
  | S w => padded w (n / 10) ++ [Z.to_N (48 + n mod 10)]
  end.

(** ** The text of an instant *)

Definition yearText (year : Z) : jstring :=
  if (0 <=? year) && (year <=? 9999) then padded 4 year
  else (if year <? 0 then 45%N else 43%N) :: padded 6 (Z.abs year).

Definition toISOString (t : Z) : jstring :=
  let '(y, m, d) := civilFromDays (t / MS_PER_DAY) in
  let ms := t mod MS_PER_DAY in
  yearText y ++ 45%N :: padded 2 m ++ 45%N :: padded 2 d ++ 84%N ::
  padded 2 (ms / 3600000) ++ 58%N :: padded 2 (ms / 60000 mod 60) ++ 58%N ::
  padded 2 (ms / 1000 mod 60) ++ 46%N :: padded 3 (ms mod 1000) ++ [90%N].

(** What an engine makes of the other forms. *)
Class JsDates := { otherDate : jstring -> option Z }.

(** [YYYY-MM-DDTHH:mm:ss.sssZ]: [None] stands for a digit. *)
Definition ISO_FORM : list (option N) :=
  let two := [None; None] in
  two ++ two ++ [Some 45%N] ++ two ++ [Some 45%N] ++ two ++ [Some 84%N] ++ two ++ [Some 58%N]
  ++ two ++ [Some 58%N] ++ two ++ [Some 46%N] ++ None :: two ++ [Some 90%N].

Fixpoint hasForm (form : list (option N)) (s : jstring) : bool :=
  match form, s with
  | [], [] => true
  | Some c :: form', d :: s' => (c =? d)%N && hasForm form' s'
  | None :: form', d :: s' => is_digit d && hasForm form' s'
  | _, _ => false
  end.

Definition numberAt (from width : nat) (s : jstring) : Z := decimalValue (take width (drop from s)).

(** [Date.parse]; [None] is [NaN]. *)
Definition Date_parse `{JsDates} (s : jstring) : option Z :=
  let y := numberAt 0 4 s in
  let m := numberAt 5 2 s in
  let d := numberAt 8 2 s in
  let hh := numberAt 11 2 s in
  let mm := numberAt 14 2 s in
  let ss := numberAt 17 2 s in
  if hasForm ISO_FORM s && (1 <=? m) && (m <=? 12) && (1 <=? d) && (d <=? daysInMonth y m)
     && (hh <=? 23) && (mm <=? 59) && (ss <=? 59)
  then Some (daysFromCivil y m d * MS_PER_DAY + hh * 3600000 + mm * 60000 + ss * 1000
             + numberAt 20 3 s)
  else otherDate s.

(** ** Reading back *)

(** Year and day of an era. *)
Lemma era_year doe :
  0 <= doe < 146097 ->
  let yoe := (doe - doe / 1460 + doe / 36524 - doe / 146096) / 365 in
  let doy := doe - (365 * yoe + yoe / 4 - yoe / 100) in
  0 <= yoe < 400 /\ 0 <= doy <= 365 /\
  (doy = 365 -> yoe mod 4 = 3 /\ (yoe mod 100 <> 99 \/ yoe = 399)).
Proof.
  intros H. cbv zeta.
  Z.to_euclidean_division_equations. lia.
Qed.

(** The month of a day of a March year. *)
Lemma march_month doy :
  0 <= doy <= 365 ->
  let mp := (5 * doy + 2) / 153 in
  let d := doy - (153 * mp + 2) / 5 + 1 in
  0 <= mp <= 11 /\ 1 <= d <= 31 /\
  ((mp = 1 \/ mp = 3 \/ mp = 6 \/ mp = 8) -> d <= 30) /\
  (mp = 11 -> d <= 29 /\ (doy < 365 -> d <= 28)).
Proof. intros H. cbv zeta. Z.to_euclidean_division_equations. lia. Qed.

Lemma leap_february yoe era :
  0 <= yoe < 400 -> yoe mod 4 = 3 -> yoe mod 100 <> 99 \/ yoe = 399 ->
  leap (yoe + era * 400 + 1) = true.
Proof.
  intros H H4 H100. unfold leap. apply orb_true_iff.
  destruct (decide (yoe = 399)) as [-> |].
  - right. apply Z.eqb_eq. Z.to_euclidean_division_equations. lia.
  - left. apply andb_true_iff. split; [apply Z.eqb_eq | apply negb_true_iff, Z.eqb_neq];
      Z.to_euclidean_division_equations; lia.
Qed.

(** A day's civil date is a date, and names that day. *)
Lemma civil_round_trip day y m d :
  civilFromDays day = (y, m, d) ->
  daysFromCivil y m d = day /\ 1 <= m <= 12 /\ 1 <= d <= daysInMonth y m.
Proof.
  unfold civilFromDays. set (z := day + 719468). set (doe := z mod 146097). set (era := z / 146097).
  assert (0 <= doe < 146097) as Hdoe by (apply Z.mod_pos_bound; lia).
  assert (z = era * 146097 + doe) as Hz by (pose proof (Z.div_mod z 146097); unfold era, doe; lia).
  pose proof (era_year doe Hdoe) as Hy. cbv zeta in Hy.
  set (yoe := (_ / 365)) in *. destruct Hy as (Hyoe & Hdoy & Hlast). set (doy := doe - (365 * yoe + yoe / 4 - yoe / 100)) in *.
  pose proof (march_month doy Hdoy) as Hm. cbv zeta in Hm.
  set (mp := (_ / 153)) in *. destruct Hm as (Hmp & Hd & H30 & H2).
  set (dd := doy - (153 * mp + 2) / 5 + 1) in *.
  intros [= <- <- <-].
  assert ((yoe + era * 400) / 400 = era) as Hera
    by (rewrite Z.div_add, Z.div_small by lia; lia).
  assert ((yoe + era * 400) mod 400 = yoe) as Hym
    by (rewrite Z.mod_add, Z.mod_small by lia; lia).
  assert (forall k, k = yoe + era * 400 ->
    k / 400 * 146097 + (k mod 400 * 365 + k mod 400 / 4 - k mod 400 / 100
      + ((153 * mp + 2) / 5 + dd - 1)) - 719468 = day) as Hback.
  { intros k ->. rewrite Hera, Hym. unfold dd, doy, z in *. lia. }
  unfold daysFromCivil. destruct (Z.ltb_spec mp 10) as [Hlt | Hge].
  - rewrite (proj2 (Z.leb_gt (mp + 3) 2)) by lia.
    replace (mp + 3 - 3) with mp by lia. rewrite Z.add_0_r. split_and!; [by apply Hback | lia.. |].
    unfold daysInMonth. rewrite (proj2 (Z.eqb_neq (mp + 3) 2)) by lia.
    repeat match goal with |- context [Z.eqb ?a ?b] => destruct (Z.eqb_spec a b) end; cbn; lia.
  - rewrite (proj2 (Z.leb_le (mp - 9) 2)) by lia.
    replace (mp - 9 + 9) with mp by lia. split_and!; [apply Hback; lia | lia.. |].
    unfold daysInMonth. destruct (Z.eqb_spec (mp - 9) 2) as [E | E].
    + destruct (decide (doy = 365)) as [E' |]; [| destruct (leap _); lia].
      rewrite leap_february by tauto. lia.
    + repeat match goal with |- context [Z.eqb ?a ?b] => destruct (Z.eqb_spec a b) end; cbn; lia.
Qed.

(** The days of the years 0 to 9999. *)
Lemma civil_year day y m d :
  -719528 <= day <= 2932896 -> civilFromDays day = (y, m, d) -> 0 <= y <= 9999.
Proof.
  intros Hday. unfold civilFromDays. set (z := day + 719468).
  set (doe := z mod 146097). set (era := z / 146097).
  assert (0 <= doe < 146097) as Hdoe by (apply Z.mod_pos_bound; lia).
  assert (z = era * 146097 + doe) as Hz by (pose proof (Z.div_mod z 146097); unfold era, doe; lia).
  clearbody doe era. unfold z in Hz. clear z.
  pose proof (era_year doe Hdoe) as Hy. cbv zeta in Hy.
  set (yoe := (_ / 365)) in *. destruct Hy as (Hyoe & Hdoy & Hlast). set (doy := doe - (365 * yoe + yoe / 4 - yoe / 100)) in *.
  set (mp := (_ / 153)). intros [= <- _ _].
  assert (0 <= mp <= 11) as Hmp by (apply march_month; lia).
  assert (era < 0 -> yoe = 399 /\ 10 <= mp) as Hlow.
  { intros. assert (146037 <= doe) as Hd by lia.
    unfold mp, doy, yoe. clear - Hd Hdoe. Z.to_euclidean_division_equations. lia. }
  assert (era >= 24 -> yoe < 399 \/ mp < 10) as Hhigh.
  { intros. assert (era <= 24) by lia. assert (doe <= 146036) as Hd by lia.
    unfold mp, doy, yoe. clear - Hd Hdoe. Z.to_euclidean_division_equations. lia. }
  destruct (Z.ltb_spec mp 10).
  - rewrite (proj2 (Z.leb_gt (mp + 3) 2)) by lia. lia.
  - rewrite (proj2 (Z.leb_le (mp - 9) 2)) by lia. lia.
Qed.

Lemma padded_length w n : length (padded w n) = w.
Proof. revert n. induction w as [| w IH]; intros n; cbn; [done |]. rewrite length_app, IH. cbn. lia. Qed.

Lemma padded_digits w n : all_digits (padded w n).
Proof.
  revert n. induction w as [| w IH]; intros n; cbn; [by constructor |].
  apply Forall_app. split; [apply IH |]. constructor; [| by constructor].
  pose proof (Z.mod_pos_bound n 10). replace (Z.to_N (48 + n mod 10)) with (48 + Z.to_N (n mod 10))%N by lia.
  apply digit_unit. lia.
Qed.

Lemma padded_value w n : 0 <= n < 10 ^ Z.of_nat w -> decimalValue (padded w n) = n.
Proof.
  revert n. induction w as [| w IH]; intros n Hn; cbn [padded]; [cbn in *; lia |].
  rewrite decimalValue_snoc, IH.
  - pose proof (Z.mod_pos_bound n 10). pose proof (Z.div_mod n 10). lia.
  - rewrite Nat2Z.inj_succ, Z.pow_succ_r in Hn by lia.
    split; [apply Z.div_pos; lia | apply Z.div_lt_upper_bound; lia].
Qed.

Lemma hasForm_digits w form ds s :
  all_digits ds -> length ds = w -> hasForm (repeat None w ++ form) (ds ++ s) = hasForm form s.
Proof.
  revert w. induction ds as [| d ds IH]; intros w Hd <-; [done |].
  apply Forall_cons in Hd as [Hd Hds]. cbn. rewrite Hd. by apply IH.
Qed.

Lemma numberAt_here w ds s : length ds = w -> numberAt 0 w (ds ++ s) = decimalValue ds.
Proof. intros <-. unfold numberAt. by rewrite drop_0, take_app_length. Qed.
Lemma numberAt_later from w ds s :
  numberAt (length ds + from) w (ds ++ s) = numberAt from w s.
Proof. unfold numberAt. by rewrite drop_app_add. Qed.

(** One more field of a text whose first field is [ds], then [c]. *)
Lemma numberAt_field k from w (ds : jstring) c s :
  (S (length ds) + from = k)%nat -> numberAt k w (ds ++ c :: s) = numberAt from w s.
Proof.
  intros <-. change (c :: s) with ([c] ++ s). rewrite app_assoc.
  replace (S (length ds) + from)%nat with (length (ds ++ [c]) + from)%nat
    by (rewrite length_app; cbn; lia).
  apply numberAt_later.
Qed.
Lemma hasForm_field w form (ds : jstring) c s :
  all_digits ds -> length ds = w ->
  hasForm (repeat None w ++ Some c :: form) (ds ++ c :: s) = hasForm form s.
Proof. intros Hd Hl. rewrite hasForm_digits by done. cbn. by rewrite N.eqb_refl. Qed.

(** Skip the fields before the one read. *)
Ltac read_fields :=
  repeat match goal with
  | |- context [numberAt (S ?k) ?w (padded ?n ?x ++ ?c :: ?s)] =>
      rewrite (numberAt_field (S k) (k - n) w (padded n x) c s) by (by rewrite padded_length);
      cbn [Nat.sub]
  end.

(** The instants whose year has four digits. *)
Definition ordinary (t : Z) : Prop := -62167219200000 <= t <= 253402300799999.

(** [Date.parse(date.toISOString())] is the instant. *)
Lemma parse_toISOString `{JsDates} t : ordinary t -> Date_parse (toISOString t) = Some t.
Proof.
  unfold ordinary. intros Ht. unfold toISOString.
  destruct (civilFromDays (t / MS_PER_DAY)) as [[y m] d] eqn:E.
  destruct (civil_round_trip _ _ _ _ E) as (Hdays & Hm & Hd).
  assert (daysInMonth y m <= 31) as Hd31
    by (unfold daysInMonth; repeat case_match; lia).
  assert (0 <= y <= 9999) as Hy.
  { eapply civil_year; [| exact E]. unfold MS_PER_DAY. Z.to_euclidean_division_equations. lia. }
  assert (0 <= t mod MS_PER_DAY < 86400000) as Hms by (apply Z.mod_pos_bound; unfold MS_PER_DAY; lia).
  assert (t = (t / MS_PER_DAY) * MS_PER_DAY + t mod MS_PER_DAY) as Hsplit
    by (rewrite (Z.div_mod t MS_PER_DAY) at 1 by (unfold MS_PER_DAY; lia); lia).
  set (ms := t mod MS_PER_DAY) in *. set (day := t / MS_PER_DAY) in *. clearbody ms day.
  unfold yearText. rewrite (proj2 (Z.leb_le 0 y)), (proj2 (Z.leb_le y 9999)) by lia. cbn [andb].
  assert (0 <= ms / 3600000 <= 23) as Hh by (Z.to_euclidean_division_equations; lia).
  pose proof (Z.mod_pos_bound (ms / 60000) 60 ltac:(lia)) as Hmin.
  pose proof (Z.mod_pos_bound (ms / 1000) 60 ltac:(lia)) as Hsec.
  pose proof (Z.mod_pos_bound ms 1000 ltac:(lia)) as Hfrac.
  assert (ms = ms / 3600000 * 3600000 + ms / 60000 mod 60 * 60000 + ms / 1000 mod 60 * 1000
               + ms mod 1000) as Hsum by (Z.to_euclidean_division_equations; lia).
  set (hh := ms / 3600000) in *. set (mm := ms / 60000 mod 60) in *.
  set (ss := ms / 1000 mod 60) in *. set (f := ms mod 1000) in *. clearbody hh mm ss f.
  unfold Date_parse.
  rewrite (numberAt_here 4) by apply padded_length.
  read_fields.
  rewrite !(numberAt_here 2), (numberAt_here 3) by apply padded_length.
  rewrite !padded_value by (cbn; lia).
  assert (hasForm ISO_FORM (padded 4 y ++ 45%N :: padded 2 m ++ 45%N :: padded 2 d ++ 84%N ::
    padded 2 hh ++ 58%N :: padded 2 mm ++ 58%N :: padded 2 ss ++ 46%N :: padded 3 f ++ [90%N]) = true)
    as ->.
  { change ISO_FORM with (repeat (@None N) 4 ++ Some 45%N :: repeat None 2 ++ Some 45%N ::
      repeat None 2 ++ Some 84%N :: repeat None 2 ++ Some 58%N :: repeat None 2 ++ Some 58%N ::
      repeat None 2 ++ Some 46%N :: repeat None 3 ++ Some 90%N :: []).
    rewrite !hasForm_field by (apply padded_digits || apply padded_length). done. }
  rewrite !(proj2 (Z.leb_le _ _)) by lia. cbn [andb]. f_equal. unfold MS_PER_DAY in *. lia.
Qed.

Example epoch_text : toISOString 1772323200123 = "2026-03-01T00:00:00.123Z".
Proof. vm_compute. reflexivity. Qed.
