(* ===== verification/Log.v ===== *)
(** * Log lines ([util/logger.ts])

    Text that reaches a log line is stripped of terminal escape sequences and
    control characters first.  The scanners take the text from the index on
    and give the text past it.  Code units stand for code points: every range
    they are compared with lies below the surrogates.  Lines an install's
    presenter takes over are not modelled. *)

From S2P Require Import Prelude Json GateHttp Dates.

#[local] Open Scope N_scope.

Definition ESC : N := 27.
Definition BEL : N := 7.

(** [t]: the text after [ESC \[]. *)
Definition endOfCsi (t : jstring) : jstring :=
  let rest := dropWhile (in_range 32 47) (dropWhile (in_range 48 63) t) in
  match rest with
  | final :: rest' => if in_range 64 126 final then rest' else rest
  | [] => rest
  end.

(** [t]: the text after the introducer of an OSC, DCS, SOS, PM or APC string. *)
Fixpoint endOfString (t : jstring) : jstring :=
  match t with
  | [] => []
  | c :: t' =>
      if c =? BEL then t'
      else if c =? ESC then
        match t' with
        | b :: t'' => if b =? 92 then t'' else t
        | [] => t
        end
      else endOfString t'
  end.

(** [t]: the text after the [ESC]. *)
Definition endOfEscape (t : jstring) : jstring :=
  match t with
  | [] => []
  | next :: t' =>
      if next =? 91 then endOfCsi t'
      else if (next =? 93) || (next =? 80) || (next =? 88) || (next =? 94) || (next =? 95)
      then endOfString t'
      else if in_range 64 95 next then t' else t
  end.

Definition isLoneControl (c : N) : bool :=
  if (c =? 9) || (c =? 10) || (c =? 13) then false else (c <? 32) || in_range 127 159 c.

(** The loop; each turn moves forward, so the length bounds the turns. *)
Fixpoint stripFrom (turns : nat) (text : jstring) : jstring :=
  match turns, text with
  | S n, c :: rest =>
      if c =? ESC then stripFrom n (endOfEscape rest)
      else (if isLoneControl c then 95 else c) :: stripFrom n rest
  | _, _ => []
  end.
Definition stripTerminalControls (text : jstring) : jstring := stripFrom (length text) text.

Definition replaceUnit (a b : N) (s : jstring) : jstring := map (fun c => if c =? a then b else c) s.

Definition stripLogInjection (text : jstring) : jstring :=
  replaceUnit 9 95 (replaceUnit 13 95 (replaceUnit 10 95 (stripTerminalControls text))).

(** [errorText] of a string or an [Error]'s message. *)
Definition sanitizeForLog (text : jstring) : jstring := stripLogInjection text.

Definition formatParts (parts : list jstring) : jstring := join [32] (map sanitizeForLog parts).

(** [replaceAll("\r\n", "\n")], then the lone carriage returns. *)
Fixpoint normalizeBreaks (s : jstring) : jstring :=
  match s with
  | [] => []
  | c :: s' =>
      if c =? 13 then
        match s' with
        | d :: s'' => if d =? 10 then 10 :: normalizeBreaks s'' else 10 :: normalizeBreaks s'
        | [] => [10]
        end
      else c :: normalizeBreaks s'
  end.

Definition splitMessageLines (message : jstring) : list jstring :=
  let lines := split 10 (normalizeBreaks message) in
  let lines' := match last lines with
                | Some [] => take (length lines - 1) lines
                | _ => lines
                end in
  match lines' with [] => [[]] | _ => lines' end.

Inductive LogLevel := DEBUG | INFO | WARN | ERROR.
Definition levelName (l : LogLevel) : jstring :=
  match l with DEBUG => "DEBUG" | INFO => "INFO" | WARN => "WARN" | ERROR => "ERROR" end.

Definition formatStructuredLine (now : Z) (level : LogLevel) (component message : jstring) : jstring :=
  toISOString now ++ 32 :: levelName level ++ 32 :: component ++ 32 :: 32 :: message ++ [10].

(** The texts one call writes; each line takes the time anew ([now i]). *)
Definition log (now : nat -> Z) (level : LogLevel) (component : jstring) (parts : list jstring)
    : list jstring :=
  imap (fun i line => formatStructuredLine (now i) level component line)
    (splitMessageLines (formatParts parts)).

(** ** What comes out *)

(** Tab, line feed, carriage return and every other control. *)
Definition is_control (c : N) : bool := (c <? 32) || in_range 127 159 c.

Lemma endOfString_length t : (length (endOfString t) <= length t)%nat.
Proof.
  induction t as [| c t IH]; cbn; [lia |]. repeat case_match; cbn in *; lia.
Qed.
Lemma endOfEscape_length t : (length (endOfEscape t) <= length t)%nat.
Proof.
  unfold endOfEscape. destruct t as [| c t]; [done |].
  destruct (c =? 91).
  { unfold endOfCsi. pose proof (dropWhile_length (in_range 32 47) (dropWhile (in_range 48 63) t)).
    pose proof (dropWhile_length (in_range 48 63) t). repeat case_match; cbn in *; lia. }
  case_match; [pose proof (endOfString_length t); cbn; lia |]. case_match; cbn; lia.
Qed.

(** More turns change nothing. *)
Lemma strip_turns n m text :
  (length text <= n)%nat -> (length text <= m)%nat -> stripFrom n text = stripFrom m text.
Proof.
  revert m text. induction n as [| n IH]; intros m text Hn Hm.
  { destruct text; [by destruct m | cbn in Hn; lia]. }
  destruct text as [| c rest]; [by destruct m |]. destruct m as [| m]; [cbn in Hm; lia |].
  cbn [stripFrom]. cbn in Hn, Hm. pose proof (endOfEscape_length rest).
  case_match; [apply IH; lia |]. f_equal. apply IH; lia.
Qed.

(** The loop's equation. *)
Lemma strip_equation c rest :
  stripTerminalControls (c :: rest) =
  if c =? ESC then stripTerminalControls (endOfEscape rest)
  else (if isLoneControl c then 95 else c) :: stripTerminalControls rest.
Proof.
  unfold stripTerminalControls. cbn [length stripFrom]. pose proof (endOfEscape_length rest).
  case_match; [| done]. apply strip_turns; lia.
Qed.

Definition cleaned (c : N) : N := if (c =? 9) || (c =? 10) || (c =? 13) then 95 else c.
Lemma strip_log text : stripLogInjection text = map cleaned (stripTerminalControls text).
Proof.
  unfold stripLogInjection, replaceUnit. rewrite !map_map. apply map_ext. intros c. unfold cleaned.
  destruct (N.eqb_spec c 10) as [-> |]; [done |]. destruct (N.eqb_spec c 13) as [-> |]; [done |].
  by destruct (N.eqb_spec c 9) as [-> |].
Qed.

Lemma strip_clean text :
  Forall (fun c => is_control c = false) (stripLogInjection text).
Proof.
  rewrite strip_log. unfold stripTerminalControls. generalize (length text) at 1. intros n.
  revert text. induction n as [| n IH]; intros [| c rest]; cbn [stripFrom]; [constructor.. |].
  case_match; [apply IH |]. constructor; [| apply IH]. unfold cleaned, is_control, isLoneControl.
  destruct ((c =? 9) || (c =? 10) || (c =? 13)) eqn:E; [by rewrite E |].
  destruct ((c <? 32) || in_range 127 159 c) eqn:Ec; [done |]. by rewrite E.
Qed.

Lemma strip_id text :
  Forall (fun c => is_control c = false) text -> stripLogInjection text = text.
Proof.
  rewrite strip_log. induction 1 as [| c rest Hc _ IH]; [done |]. rewrite strip_equation.
  assert (c =? ESC = false) as ->. { apply N.eqb_neq. by intros ->. }
  assert (isLoneControl c = false) as ->.
  { unfold isLoneControl. unfold is_control in Hc. rewrite Hc. by case_match. }
  cbn [map]. rewrite IH. f_equal. unfold cleaned. case_match eqn:E; [| done].
  rewrite !orb_true_iff, !N.eqb_eq in E. destruct E as [[-> | ->] | ->]; done.
Qed.

(** What sanitizing gives to a log line: no control character is left, no
    escape, line break or tab, whatever the text; and text without control
    characters comes through unchanged (so sanitizing twice is sanitizing
    once). *)
Theorem sanitized_has_no_controls text :
  Forall (fun c => is_control c = false) (sanitizeForLog text) /\
  (Forall (fun c => is_control c = false) text -> sanitizeForLog text = text).
Proof. split; [apply strip_clean | apply strip_id]. Qed.

Lemma parts_clean parts : Forall (fun c => is_control c = false) (formatParts parts).
Proof.
  unfold formatParts. induction parts as [| p parts IH]; cbn; [constructor |].
  destruct parts as [| q parts]; [apply strip_clean |]. cbn in *.
  apply Forall_app. split; [apply strip_clean |]. by constructor.
Qed.

Lemma normalize_id s : 13 ∉ s -> normalizeBreaks s = s.
Proof.
  induction s as [| c s IH]; intros H; [done |]. cbn. destruct (N.eqb_spec c 13) as [-> |]; [set_solver |].
  rewrite IH; set_solver.
Qed.

(** One log call writes one line.  Whatever the parts say, the daemon's log
    gets a single record: the time, the level and the component it was called
    with, the parts' sanitized text, and one line feed at the end. *)
Theorem log_writes_one_line now level component parts :
  log now level component parts =
  [formatStructuredLine (now 0%nat) level component (formatParts parts)] /\
  10 ∉ formatParts parts.
Proof.
  pose proof (parts_clean parts) as Hp. rewrite Forall_forall in Hp.
  assert (forall c, is_control c = true -> c ∉ formatParts parts) as Hn.
  { intros c Hc Hin. specialize (Hp c Hin). congruence. }
  split; [| by apply Hn]. unfold log, splitMessageLines.
  rewrite normalize_id, split_word by (by apply Hn). cbn [last].
  by destruct (formatParts parts).
Qed.
