(* ===== verification/CtParse.v ===== *)
(** * Reading command payloads ([contracts/commands-contracts.ts])

    The vocabulary the payload parsers share: an unknown value is a JSON value
    or [undefined] ([None]), refusals are [Error]s and [TypeError]s with their
    messages. *)

From S2P Require Import Prelude Regex Json GateHttp.

Definition refuse {A} (message : jstring) : fallible A := Throw (OtherErr "Error" message).
Definition refuseType {A} (message : jstring) : fallible A := Throw (OtherErr "TypeError" message).

(** [if (!condition) throw e]. *)
Definition require (condition : bool) (e : fallible unit) : fallible unit :=
  if condition then Ok tt else e.
(** The value, when it is there. *)
Definition given {A} (o : option A) (e : fallible A) : fallible A :=
  match o with Some a => Ok a | None => e end.

Definition asString (v : option jval) : option jstring :=
  match v with Some (JStr s) => Some s | _ => None end.
Definition asNumber (v : option jval) : option spec_float :=
  match v with Some (JNum n) => Some n | _ => None end.
Definition asBoolean (v : option jval) : option bool :=
  match v with Some (JBool b) => Some b | _ => None end.
(** [typeof value === "number" && Number.isInteger(value)]. *)
Definition asInteger (v : option jval) : option Z := n ← asNumber v; integer_of n.

(** [typeof value === "string" && re.test(value)]. *)
Definition stringMatching (re : regex) (v : option jval) : option jstring :=
  s ← asString v; if matches re s then Some s else None.

Definition typeofName (v : jval) : jstring :=
  match v with
  | JStr _ => "string" | JNum _ => "number" | JBool _ => "boolean"
  | JNull | JArr _ | JObj _ => "object"
  end.

(** A string of a closed set ([set.has(value)]). *)
Fixpoint oneOf {A} (names : list (jstring * A)) (v : option jval) : option A :=
  match names with
  | [] => None
  | (name, a) :: names' => if decide (asString v = Some name) then Some a else oneOf names' v
  end.

(** [value === undefined ? undefined : parse(value)]. *)
Definition optionally {A} (parse : jval -> fallible A) (v : option jval) : fallible (option A) :=
  match v with None => Ok None | Some x => Some <$> parse x end.

(** [array.map((entry, index) => parse(entry, index))]. *)
Fixpoint parseEach {A} (parse : jval -> nat -> fallible A) (index : nat) (l : list jval)
    : fallible (list A) :=
  match l with
  | [] => Ok []
  | v :: l' => a ← parse v index; rest ← parseEach parse (S index) l'; Ok (a :: rest)
  end.

(** The first name that was there before. *)
Fixpoint firstRepeat (seen names : list jstring) : option jstring :=
  match names with
  | [] => None
  | n :: names' => if memb n seen then Some n else firstRepeat (seen ++ [n]) names'
  end.

(** [`${name}[${index}]${field}`]. *)
Definition indexed (name : jstring) (index : nat) (field : jstring) : jstring :=
  name ++ 91%N :: decimalText (N.of_nat index) ++ 93%N :: field.

(** ** Lemmas *)

Lemma given_Ok {A} (o : option A) e a :
  (forall b, e <> Ok b) -> given o e = Ok a -> o = Some a.
Proof. destruct o; [by intros _ [= ->] |]. intros He H. by destruct (He a). Qed.

Lemma oneOf_spec {A} (names : list (jstring * A)) v a :
  oneOf names v = Some a -> exists name, (name, a) ∈ names /\ v = Some (JStr name).
Proof.
  induction names as [| [n b] names IH]; cbn; [done |]. case_decide as E.
  - intros [= ->]. exists n. split; [by left |]. by destruct v as [[] |]; simplify_eq/=.
  - intros (name & ? & ?)%IH. exists name. split; [by right | done].
Qed.

Lemma firstRepeat_None seen names :
  firstRepeat seen names = None <-> NoDup names /\ Forall (fun n => n ∉ seen) names.
Proof.
  revert seen. induction names as [| n names IH]; intros seen; cbn.
  { split; [by repeat constructor | done]. }
  destruct (memb n seen) eqn:E.
  - apply memb_true in E. split; [done |]. by intros [_ [? _]%Forall_cons].
  - apply memb_false in E. rewrite IH, NoDup_cons, Forall_cons, !Forall_forall. set_solver.
Qed.

Lemma parseEach_forall {A} (parse : jval -> nat -> fallible A) (P : A -> Prop) i l out :
  (forall v k a, parse v k = Ok a -> P a) -> parseEach parse i l = Ok out -> Forall P out /\ length out = length l.
Proof.
  intros HP. revert i out. induction l as [| v l IH]; intros i out; cbn.
  { intros [= <-]. by split; [constructor |]. }
  intros H. ok_inv. subst out. match goal with H : parseEach _ _ _ = Ok _ |- _ => apply IH in H as [? ?] end.
  cbn. split; [constructor; eauto | lia].
Qed.

Lemma parseEach_map {A} (parse : jval -> nat -> fallible A) (print : A -> jval) i l :
  (forall a k, a ∈ l -> parse (print a) k = Ok a) -> parseEach parse i (map print l) = Ok l.
Proof.
  revert i. induction l as [| a l IH]; intros i H; cbn; [done |].
  rewrite H by set_solver. cbn. rewrite IH by set_solver. done.
Qed.
