(* ===== verification/CtNet.v ===== *)
(** * Names and addresses of the command contracts ([contracts/commands-contracts.ts])

    The validators a payload's host names, time zones, time servers, IP
    literals, CIDRs and WireGuard fields go through, and the arithmetic on
    CIDR ranges.  A value of another type than a string is refused by each of
    them; the definitions are on strings. *)

From S2P Require Import Prelude Regex Text Json GateHttp.

#[local] Open Scope N_scope.

Definition longerThan (n : N) (s : jstring) : bool := n <? N.of_nat (length s).

(** ** Host names *)

Definition is_lowalnum (c : N) : bool := is_lower c || is_digit c.

(** [[a-z0-9]([a-z0-9-]{0,61}[a-z0-9])?]. *)
Definition HOSTNAME_LABEL : regex :=
  RCat (RSet is_lowalnum)
    (ROpt (RCat (RUpTo 61 (RSet (fun c => is_lowalnum c || (c =? 45)))) (RSet is_lowalnum))).
Definition HOSTNAME_RE : regex := RSepBy 46 HOSTNAME_LABEL.
Definition HOSTNAME_MAX_LENGTH : N := 253.
Definition HOSTING_FALLBACK_HOSTNAME : jstring := "unconfigured.invalid".

(** [SHELL_METACHAR_RE]: semicolon, bar, ampersand, dollar, back quote, the brackets,
    backslash, both quotes, [!], [*], [?] and the braces. *)
Definition SHELL_METACHARS : list N :=
  [59; 124; 38; 36; 96; 40; 41; 60; 62; 92; 34; 39; 33; 42; 63; 123; 125].
Definition shellMeta (c : N) : bool := existsb (N.eqb c) SHELL_METACHARS.

(** Not empty, not longer than [max], no white space, no shell character. *)
Definition tame (max : N) (value : jstring) : bool :=
  negb (longerThan max value) && negb (existsb is_js_space value) && negb (existsb shellMeta value)
  && negb (bool_decide (value = [])).

Definition isValidHostname (value : jstring) : bool :=
  tame HOSTNAME_MAX_LENGTH value && negb (existsb is_upper value) && matches HOSTNAME_RE value.

Definition WWW_PREFIX : jstring := "www.".

Definition isAllDigits (label : jstring) : bool :=
  negb (bool_decide (label = [])) && forallb is_digit label.

Definition wwwSiblingHostname (hostname : jstring) : option jstring :=
  let typedIsWww := startsWith WWW_PREFIX hostname in
  let sibling := if typedIsWww then drop (length WWW_PREFIX) hostname else WWW_PREFIX ++ hostname in
  let bare := if typedIsWww then sibling else hostname in
  match lastIndexOf 46 bare with
  | None => None
  | Some lastDot =>
      if isAllDigits (drop (S lastDot) bare) then None
      else if isValidHostname sibling then Some sibling else None
  end.

Inductive HostingWwwMode := WwwOff | WwwBoth | WwwToRoot | RootToWww.

Record HostingWwwNames := {
  serve : list jstring;
  redirect : option (jstring * jstring) (** from, to *)
}.

Definition hostingWwwNames (hostname : jstring) (mode : HostingWwwMode) : option HostingWwwNames :=
  match mode with
  | WwwOff => Some {| serve := [hostname]; redirect := None |}
  | _ =>
      sibling ← wwwSiblingHostname hostname;
      let typedIsWww := startsWith WWW_PREFIX hostname in
      let root := if typedIsWww then sibling else hostname in
      let www := if typedIsWww then hostname else sibling in
      Some match mode with
           | WwwToRoot => {| serve := [root]; redirect := Some (www, root) |}
           | RootToWww => {| serve := [www]; redirect := Some (root, www) |}
           | _ => {| serve := [hostname; sibling]; redirect := None |}
           end
  end.

(** [hosting.hostnames], and [hosting.www] with its default. *)
Definition hostingServedNames (hostnames : list jstring) (www : HostingWwwMode) : list jstring :=
  hostnames ≫= fun hostname =>
    match hostingWwwNames hostname www with Some n => serve n | None => [hostname] end.
Definition hostingWwwRedirects (hostnames : list jstring) (www : HostingWwwMode)
    : list (jstring * jstring) :=
  hostnames ≫= fun hostname =>
    match hostingWwwNames hostname www with
    | Some n => match redirect n with Some r => [r] | None => [] end
    | None => []
    end.

(** ** Time zones *)

Definition is_zone_char (c : N) : bool := is_alnum c || (c =? 95) || (c =? 43) || (c =? 45).
Definition TIMEZONE_RE : regex :=
  RCats [RSet is_alpha; RStar (RSet is_zone_char);
         RStar (RCat (RChar 47) (RPlus (RSet is_zone_char)))].
Definition TIMEZONE_MAX_LENGTH : N := 64.

Definition isValidTimezone (value : jstring) : bool :=
  tame TIMEZONE_MAX_LENGTH value && matches TIMEZONE_RE value.

(** ** IP literals *)

Definition octet (s : jstring) : bool :=
  forallb is_digit s && (1 <=? N.of_nat (length s)) && (N.of_nat (length s) <=? 3) &&
  (bool_decide (s = "0") || negb (bool_decide (head s = Some 48))) && (digitsValue s <=? 255).
Definition isValidIpv4Literal (value : jstring) : bool :=
  let octets := split 46 value in
  (N.of_nat (length octets) =? 4) && forallb octet octets.

(** [^(?:\d{1,3}\.){3}\d{1,3}$]. *)
Definition IPV4_SHAPE_RE : regex :=
  let group := RBetween 1 2 (RSet is_digit) in
  RCat (RTimes 3 (RCat group (RChar 46))) group.

(** [s.split("::")] for [c] a colon. *)
Fixpoint splitPair (c : N) (s : jstring) : list jstring :=
  match s with
  | [] => [[]]
  | a :: ((b :: s') as t) =>
      if (a =? c) && (b =? c) then [] :: splitPair c s'
      else match splitPair c t with [] => [[a]] | w :: ws => (a :: w) :: ws end
  | [a] => [[a]]
  end.

Definition HEXTET : regex := RBetween 1 3 (RSet is_hex).

(** [parseSide]: the 16-bit groups of one side, [None] for [null]. *)
Fixpoint countHextets (parts : list jstring) : option N :=
  match parts with
  | [] => Some 0
  | part :: parts' =>
      if hasChar 46 part then
        if decide (parts' <> []) then None
        else if isValidIpv4Literal part then Some 2 else None
      else if matches HEXTET part then (fun n => n + 1) <$> countHextets parts'
      else None
  end.
Definition parseSide (side : jstring) : option N :=
  match side with [] => Some 0 | _ => countHextets (split 58 side) end.

Definition isValidIpv6Literal (value : jstring) : bool :=
  hasChar 58 value && negb (hasChar 37 value) && negb (includes ":::" value) &&
  match splitPair 58 value with
  | [side] => bool_decide (parseSide side = Some 8)
  | [l; r] =>
      match parseSide l, parseSide r with
      | Some nl, Some nr => nl + nr <? 8
      | _, _ => false
      end
  | _ => false
  end.

(** ** Time servers *)

Definition isValidNtpServer (value : jstring) : bool :=
  tame HOSTNAME_MAX_LENGTH value &&
  (if matches IPV4_SHAPE_RE value then isValidIpv4Literal value
   else if hasChar 58 value then isValidIpv6Literal value
   else isValidHostname value).

(** ** CIDRs *)

(** [^\d+$], then [Number.parseInt]. *)
Definition digitsOnly (s : jstring) : bool := negb (bool_decide (s = [])) && forallb is_digit s.

(** What [lastIndexOf("/")] separates: the address and the prefix text. *)
Definition splitPrefix (value : jstring) : option (jstring * jstring) :=
  match lastIndexOf 47 value with
  | None | Some O => None
  | Some slash =>
      let prefix := drop (S slash) value in
      if decide (prefix = []) then None else Some (take slash value, prefix)
  end.

Definition isValidWireguardAllowedIp (value : jstring) : bool :=
  match splitPrefix (trim value) with
  | None => false
  | Some (addressPart, prefixPart) =>
      if negb (digitsOnly prefixPart) then false
      else
        let prefix := digitsValue prefixPart in
        if isValidIpv4Literal addressPart then prefix <=? 32
        else if isValidIpv6Literal addressPart then prefix <=? 128
        else false
  end.

Definition ipv4ToBigInt (value : jstring) : option N :=
  if isValidIpv4Literal value
  then Some (foldl (fun out o => N.shiftl out 8 + digitsValue o) 0 (split 46 value)) else None.

(** [Number.parseInt(part, 16)] of a group that was validated. *)
Definition hextetValue (part : jstring) : N := foldl (fun n c => 16 * n + hexValue c) 0 part.

Fixpoint expandParts (parts : list jstring) : option (list N) :=
  match parts with
  | [] => Some []
  | part :: parts' =>
      here ← (if hasChar 46 part then
                v4 ← ipv4ToBigInt part; Some [N.shiftr v4 16; N.land v4 65535]
              else Some [hextetValue part]);
      rest ← expandParts parts';
      Some (here ++ rest)
  end.
Definition expandSide (side : jstring) : option (list N) :=
  match side with [] => Some [] | _ => expandParts (split 58 side) end.

Definition ipv6Hextets (value : jstring) : option (list N) :=
  match splitPair 58 value with
  | [side] => hs ← expandSide side; if decide (length hs = 8%nat) then Some hs else None
  | l :: r :: more =>
      ls ← expandSide l;
      rs ← match more with [] => expandSide r | _ => Some [] end;
      if (8 <=? N.of_nat (length ls) + N.of_nat (length rs)) then None
      else Some (ls ++ repeat 0 (8 - length ls - length rs) ++ rs)
  | [] => None
  end.

Definition ipLiteralToBigInt (value : jstring) : option N :=
  if isValidIpv4Literal value then ipv4ToBigInt value
  else if negb (isValidIpv6Literal value) then None
  else hextets ← ipv6Hextets value;
       Some (foldl (fun out h => N.shiftl out 16 + h) 0 hextets).

Inductive ip_version := Ip4 | Ip6.
#[global] Instance ip_version_eq_dec : EqDecision ip_version.
Proof. solve_decision. Defined.
Definition versionOf (address : jstring) : ip_version :=
  if isValidIpv4Literal address then Ip4 else Ip6.
Definition widthOf (v : ip_version) : N := match v with Ip4 => 32 | Ip6 => 128 end.

Record ParsedCidrLiteral := {
  cidrVersion : ip_version;
  cidrPrefix : N;
  cidrBase : N;
  cidrLast : N
}.

Definition parseCidrLiteral (value : jstring) : option ParsedCidrLiteral :=
  let trimmed := trim value in
  if negb (isValidWireguardAllowedIp trimmed) then None
  else
    '(address, prefixPart) ← splitPrefix trimmed;
    let p := digitsValue prefixPart in
    let v := versionOf address in
    raw ← ipLiteralToBigInt address;
    let hostBits := widthOf v - p in
    let b := N.shiftl (N.shiftr raw hostBits) hostBits in
    Some {| cidrVersion := v; cidrPrefix := p; cidrBase := b; cidrLast := b + N.shiftl 1 hostBits - 1 |}.

Definition cidrLiteralContains (parent child : jstring) : bool :=
  match parseCidrLiteral parent, parseCidrLiteral child with
  | Some outer, Some inner =>
      bool_decide (cidrVersion outer = cidrVersion inner) &&
      (cidrBase outer <=? cidrBase inner) && (cidrLast inner <=? cidrLast outer)
  | _, _ => false
  end.

Definition addressInCidrLiteral (address cidr : jstring) : bool :=
  match parseCidrLiteral cidr, ipLiteralToBigInt address with
  | Some range, Some value =>
      bool_decide (versionOf address = cidrVersion range) &&
      (cidrBase range <=? value) && (value <=? cidrLast range)
  | _, _ => false
  end.

(** ** WireGuard fields *)

Definition WIREGUARD_PUBLIC_KEY_RE : regex :=
  RCat (RTimes 43 (RSet (fun c => is_alnum c || (c =? 43) || (c =? 47)))) (RChar 61).
Definition isValidWireguardPublicKey (value : jstring) : bool :=
  negb (existsb is_js_space value) && negb (existsb shellMeta value)
  && matches WIREGUARD_PUBLIC_KEY_RE value.

Definition isValidWireguardListenPort (port : Z) : bool := (1 <=? port)%Z && (port <=? 65535)%Z.

Definition isValidInterfaceName (value : jstring) : bool :=
  matches (RCat (RSet is_alnum)
             (RUpTo 14 (RSet (fun c => is_alnum c || existsb (N.eqb c) [95; 46; 58; 64; 45])))) value.

Definition isValidWireguardEndpoint (value : jstring) : bool :=
  if negb (tame 255 value) then false
  else
    match lastIndexOf 58 value with
    | None | Some O => false
    | Some colon =>
        let host := take colon value in
        let portPart := drop (S colon) value in
        if negb (digitsOnly portPart) then false
        else
          let port := digitsValue portPart in
          if (port <? 1) || (65535 <? port) then false
          else if bool_decide (head host = Some 91) && bool_decide (last host = Some 93) then
            isValidIpv6Literal (take (length host - 2) (drop 1 host))
          else isValidIpv4Literal host || isValidHostname host
    end.

(** ** What a host name is *)

(** A label of RFC 1123: letters, digits and inner hyphens, at most 63. *)
Definition goodLabel (w : jstring) : Prop :=
  (1 <= length w <= 63)%nat /\ Forall (fun c => is_lowalnum c || (c =? 45) = true) w /\
  head w <> Some 45 /\ last w <> Some 45.

Lemma lowalnum_hyphen c : is_lowalnum c || (c =? 45) = true -> c <> 45 -> is_lowalnum c = true.
Proof. intros [H | ?%N.eqb_eq]%orb_true_iff; done. Qed.
Lemma lowalnum_not_hyphen c : is_lowalnum c = true -> c <> 45.
Proof. by intros H ->. Qed.

Lemma label_iff w : lang HOSTNAME_LABEL w <-> goodLabel w.
Proof.
  unfold HOSTNAME_LABEL, goodLabel. rewrite lang_cat_iff. setoid_rewrite lang_opt_iff.
  setoid_rewrite lang_cat_iff. setoid_rewrite lang_set_iff. setoid_rewrite lang_upto_set_iff. split.
  - intros (? & t & -> & (c & -> & Hc) & [-> | (m & ? & -> & [Hl Hm] & d & -> & Hd)]).
    + cbn. split_and!; [lia.. | by constructor; [rewrite Hc | ] | |];
        intros [= ->]; done.
    + change ([c] ++ m ++ [d]) with (c :: m ++ [d]). rewrite length_cons, length_app. cbn [length].
      rewrite app_comm_cons, last_snoc. cbn [head]. split_and!; [lia.. | | |].
      * cbn. constructor; [by rewrite Hc |]. apply Forall_app. split; [done |].
        constructor; [by rewrite Hd | constructor].
      * intros [= ->]; done.
      * intros [= ->]; done.
  - intros ([Hl1 Hl2] & Hf & Hh & Hla). destruct w as [| c w]; [cbn in Hl1; lia |].
    apply Forall_cons in Hf as [Hc Hf]. exists [c], w. split; [done |]. split.
    { exists c. split; [done |]. apply lowalnum_hyphen; [done |]. intros ->. by apply Hh. }
    destruct w as [| x w' _] using rev_ind; [by left | right].
    apply Forall_app in Hf as [Hw Hx]. apply Forall_cons in Hx as [Hx _].
    exists w', [x]. split; [done |]. split.
    { split; [| done]. rewrite length_cons, length_app in Hl2. cbn in Hl2. lia. }
    exists x. split; [done |]. apply lowalnum_hyphen; [done |]. intros ->. apply Hla.
    by rewrite app_comm_cons, last_snoc.
Qed.

Lemma label_no_dot w : lang HOSTNAME_LABEL w -> 46 ∉ w.
Proof.
  intros (_ & Hf & _)%label_iff Hin. rewrite Forall_forall in Hf. specialize (Hf _ Hin). done.
Qed.

Lemma forall_join {P : N -> Prop} sep parts :
  Forall P sep -> Forall (Forall P) parts -> Forall P (join sep parts).
Proof.
  intros Hs Hp. induction Hp as [| p ps Hp Hps IH]; [constructor |]. cbn. destruct ps; [done |].
  by rewrite !Forall_app.
Qed.
Lemma forall_split {P : N -> Prop} c s : P c -> Forall (Forall P) (split c s) -> Forall P s.
Proof. intros Hc Hs. rewrite <- (join_split c s). apply forall_join; [by constructor | done]. Qed.

(** No character of a class that excludes them is white space, a shell
    character or a capital. *)
Definition is_host_char (c : N) : bool := is_lowalnum c || (c =? 45) || (c =? 46).

Ltac unit_cases H :=
  unfold is_host_char, is_lowalnum, is_hex, is_alnum, is_alpha, is_lower, is_upper, is_digit, in_range in H;
  rewrite ?orb_true_iff, ?andb_true_iff, ?N.leb_le, ?N.eqb_eq in H.

(** A class of printable ASCII characters that misses the shell characters. *)
Definition plainClass (f : N -> bool) : bool :=
  forallb (fun n => implb (f (N.of_nat n)) (negb (is_js_space (N.of_nat n)) && negb (shellMeta (N.of_nat n))))
    (seq 0 128).
Lemma plainClass_spec f s :
  plainClass f = true -> (forall c, f c = true -> c < 128) -> Forall (fun c => f c = true) s ->
  existsb is_js_space s = false /\ existsb shellMeta s = false.
Proof.
  intros Hp Hr Hs. unfold plainClass in Hp. rewrite forallb_forall in Hp.
  assert (forall c, f c = true -> is_js_space c = false /\ shellMeta c = false) as Hc.
  { intros c Hc. specialize (Hp (N.to_nat c)). rewrite N2Nat.id, Hc in Hp. cbn [implb] in Hp.
    assert (In (N.to_nat c) (seq 0 128)) as Hin. { apply in_seq. specialize (Hr _ Hc). lia. }
    specialize (Hp Hin). by bools. }
  induction Hs as [| c s Hh _ [IH1 IH2]]; [done |]. cbn [existsb].
  destruct (Hc c Hh) as [-> ->]. done.
Qed.

Lemma hostname_chars s :
  Forall goodLabel (split 46 s) -> Forall (fun c => is_host_char c = true) s.
Proof.
  intros Hf. apply (forall_split 46); [done |]. eapply Forall_impl; [exact Hf |].
  intros w (_ & Hw & _). eapply Forall_impl; [exact Hw |]. intros c Hc.
  unfold is_host_char. by rewrite Hc.
Qed.

Lemma host_char_tame s : Forall (fun c => is_host_char c = true) s ->
  existsb is_js_space s = false /\ existsb shellMeta s = false /\ existsb is_upper s = false.
Proof.
  intros Hs. destruct (plainClass_spec is_host_char s) as [H1 H2]; [by vm_compute | | done |].
  { intros c Hc. unit_cases Hc. lia. }
  split_and!; [done.. |]. clear H1 H2. induction Hs as [| c s Hc _ IH]; [done |]. cbn.
  rewrite IH, orb_false_r. unit_cases Hc. unfold is_upper, in_range. apply andb_false_iff.
  rewrite !N.leb_gt. lia.
Qed.

Lemma hostname_iff s :
  isValidHostname s = true <-> (length s <= 253)%nat /\ Forall goodLabel (split 46 s).
Proof.
  assert (matches HOSTNAME_RE s = true <-> Forall goodLabel (split 46 s)) as Hre.
  { rewrite matches_iff. unfold HOSTNAME_RE. rewrite lang_sepBy_iff by apply label_no_dot.
    split; intros H; (eapply Forall_impl; [exact H | intros w; apply label_iff]). }
  unfold isValidHostname, tame, longerThan, HOSTNAME_MAX_LENGTH. split.
  - intros Hv. bools. split; [lia |]. by apply Hre.
  - intros [Hl Hf]. pose proof (host_char_tame s (hostname_chars s Hf)) as (-> & -> & ->).
    apply Hre in Hf as Hm. rewrite Hm, !andb_true_r. cbn [negb andb].
    apply andb_true_iff. split; [| apply negb_true_iff, bool_decide_eq_false].
    + apply negb_true_iff, N.ltb_ge. lia.
    + intros ->. apply Forall_cons in Hf as [((? & _) & _) _]. cbn in *. lia.
Qed.

(** A host name is accepted exactly when it is at most 253 characters of
    dot-separated labels, each of 1 to 63 lower-case letters, digits and
    hyphens, with no hyphen at either end: the separate refusals of capitals,
    white space and shell characters never decide. *)
Theorem hostname_is_rfc1123 s :
  isValidHostname s = true <-> (length s <= 253)%nat /\ Forall goodLabel (split 46 s).
Proof. apply hostname_iff. Qed.

(** ** Addresses as numbers *)

Lemma fold_shift k l a :
  Forall (fun h => h < 2 ^ k) l ->
  foldl (fun out h => N.shiftl out k + h) a l < (a + 1) * 2 ^ (k * N.of_nat (length l)).
Proof.
  intros Hl. revert a. induction Hl as [| h l Hh Hl IH]; intros a; cbn [foldl length].
  { rewrite N.mul_0_r, N.pow_0_r. lia. }
  eapply N.lt_le_trans; [apply IH |]. rewrite N.shiftl_mul_pow2.
  replace (k * N.of_nat (S (length l))) with (k + k * N.of_nat (length l)) by lia.
  rewrite N.pow_add_r, N.mul_assoc. apply N.mul_le_mono_r. nia.
Qed.

Lemma octet_le s : octet s = true -> digitsValue s < 2 ^ 8 /\ Forall (fun c => is_digit c = true) s.
Proof.
  unfold octet. intros H. bools. split; [change (2 ^ 8) with 256; lia |].
  apply Forall_forall. intros c Hc. rewrite forallb_forall in *.
  match goal with H : forall x, In x s -> _ |- _ => apply H end. by apply list_elem_of_In.
Qed.

Lemma ipv4_octets v : isValidIpv4Literal v = true ->
  length (split 46 v) = 4%nat /\ Forall (fun w => octet w = true) (split 46 v).
Proof.
  unfold isValidIpv4Literal. intros H. bools. split; [lia |].
  apply Forall_forall. intros w Hw. rewrite forallb_forall in *.
  match goal with H : forall x, In x _ -> _ |- _ => apply H end. by apply list_elem_of_In.
Qed.

Definition is_ipv4_char (c : N) : bool := is_digit c || (c =? 46).
Lemma ipv4_chars v : isValidIpv4Literal v = true -> Forall (fun c => is_ipv4_char c = true) v.
Proof.
  intros [_ Hf]%ipv4_octets. apply (forall_split 46); [done |]. eapply Forall_impl; [exact Hf |].
  intros w [_ Hw]%octet_le. eapply Forall_impl; [exact Hw |]. intros c Hc.
  unfold is_ipv4_char. by rewrite Hc.
Qed.

Lemma ipv4_value v n : ipv4ToBigInt v = Some n -> n < 2 ^ 32.
Proof.
  unfold ipv4ToBigInt. case_match eqn:E; [| done]. intros [= <-].
  apply ipv4_octets in E as [El Hf].
  assert (foldl (fun out o => N.shiftl out 8 + digitsValue o) 0 (split 46 v)
    = foldl (fun out h => N.shiftl out 8 + h) 0 (map digitsValue (split 46 v))) as ->.
  { generalize 0 at 1 2. clear El Hf. induction (split 46 v) as [| w ws IH]; intros a; [done |].
    cbn. apply IH. }
  eapply N.lt_le_trans; [apply fold_shift |].
  - apply Forall_forall. intros h (w & -> & Hw)%list_elem_of_fmap.
    rewrite Forall_forall in Hf. by apply octet_le, Hf.
  - rewrite length_map, El. done.
Qed.

Lemma hexValue_lt c : is_hex c = true -> hexValue c < 16.
Proof.
  intros H. unit_cases H. unfold hexValue, is_digit, in_range.
  destruct ((48 <=? c) && (c <=? 57)) eqn:E1; [bools; lia |].
  destruct ((65 <=? c) && (c <=? 70)) eqn:E2; [bools; lia |].
  rewrite andb_false_iff, !N.leb_gt in E1, E2. lia.
Qed.
Lemma hextet_lt p : lang HEXTET p -> hextetValue p < 2 ^ 16.
Proof.
  intros [[_ Hl] Hf]%lang_between_set_iff. unfold hextetValue.
  assert (forall l a, Forall (fun c => is_hex c = true) l ->
    foldl (fun n c => 16 * n + hexValue c) a l < (a + 1) * 16 ^ N.of_nat (length l)) as Hb.
  { clear. intros l a Hf. revert a. induction Hf as [| c l Hc _ IH]; intros a; cbn [foldl length].
    { rewrite N.pow_0_r. lia. }
    eapply N.lt_le_trans; [apply IH |]. rewrite Nat2N.inj_succ, N.pow_succ_r'. apply hexValue_lt in Hc.
    rewrite N.mul_assoc. apply N.mul_le_mono_r. lia. }
  eapply N.lt_le_trans; [by apply Hb |]. change (2 ^ 16) with (16 ^ 4). rewrite N.add_0_l, N.mul_1_l.
  apply N.pow_le_mono_r; lia.
Qed.

(** The groups that were counted are there, each of 16 bits. *)
Lemma expand_counts parts n :
  countHextets parts = Some n ->
  exists hs, expandParts parts = Some hs /\ N.of_nat (length hs) = n /\ Forall (fun h => h < 2 ^ 16) hs.
Proof.
  revert n. induction parts as [| part parts IH]; intros n; cbn [countHextets expandParts].
  { intros [= <-]. by exists []. }
  destruct (hasChar 46 part) eqn:Ed.
  - case_decide as Hp; [done |]. subst parts.
    destruct (isValidIpv4Literal part) eqn:E4; [| done]. intros [= <-].
    unfold ipv4ToBigInt. rewrite E4. cbn [mbind option_bind expandParts].
    eexists. split; [done |]. split; [done |].
    assert (ipv4ToBigInt part = Some (foldl (fun out o => N.shiftl out 8 + digitsValue o) 0 (split 46 part)))
      as E by (unfold ipv4ToBigInt; by rewrite E4).
    apply ipv4_value in E. revert E. generalize (foldl (fun out o => N.shiftl out 8 + digitsValue o) 0 (split 46 part)).
    intros m Hm. repeat constructor.
    + rewrite N.shiftr_div_pow2. apply N.Div0.div_lt_upper_bound. change (2 ^ 16 * 2 ^ 16) with (2 ^ 32). done.
    + change 65535 with (N.ones 16). rewrite N.land_ones. apply N.mod_lt. done.
  - destruct (matches HEXTET part) eqn:Em; [| done].
    destruct (countHextets parts) as [k |]; [| done]. intros [= <-].
    destruct (IH k eq_refl) as (hs & -> & Hl & Hf). cbn [mbind option_bind].
    eexists. split; [done |]. cbn [app length]. split; [lia |]. constructor; [| done].
    by apply hextet_lt, matches_iff.
Qed.
Lemma expandSide_counts side n :
  parseSide side = Some n ->
  exists hs, expandSide side = Some hs /\ N.of_nat (length hs) = n /\ Forall (fun h => h < 2 ^ 16) hs.
Proof. destruct side; [intros [= <-]; by exists [] | apply expand_counts]. Qed.

(** An accepted IPv6 literal is eight groups of 16 bits. *)
Lemma ipv6_hextets v :
  isValidIpv6Literal v = true ->
  exists hs, ipv6Hextets v = Some hs /\ length hs = 8%nat /\ Forall (fun h => h < 2 ^ 16) hs.
Proof.
  unfold isValidIpv6Literal, ipv6Hextets. intros H. bools.
  destruct (splitPair 58 v) as [| a [| b [| ? ?]]]; [done | | | done].
  - bools. match goal with H : parseSide a = Some _ |- _ => apply expandSide_counts in H as (hs & -> & Hl & Hf) end.
    cbn [mbind option_bind]. rewrite decide_True by lia. exists hs. split_and!; [done | lia | done].
  - destruct (parseSide a) as [na |] eqn:Ea; [| done]. destruct (parseSide b) as [nb |] eqn:Eb; [| done].
    bools. apply expandSide_counts in Ea as (ha & -> & La & Fa). apply expandSide_counts in Eb as (hb & -> & Lb & Fb).
    cbn [mbind option_bind]. rewrite La, Lb. destruct (N.leb_spec 8 (na + nb)); [lia |].
    eexists. split; [done |]. rewrite !length_app, repeat_length. split; [lia |].
    rewrite !Forall_app. split_and!; [done | | done]. apply Forall_forall.
    intros x Hx%list_elem_of_In%repeat_spec. by subst.
Qed.

(** Every accepted literal has a number, within the width of its version. *)
Lemma literal_number v :
  isValidIpv4Literal v || isValidIpv6Literal v = true ->
  exists n, ipLiteralToBigInt v = Some n /\ n < 2 ^ widthOf (versionOf v).
Proof.
  intros H. unfold ipLiteralToBigInt, versionOf. destruct (isValidIpv4Literal v) eqn:E4.
  - assert (exists n, ipv4ToBigInt v = Some n) as (n & En) by (unfold ipv4ToBigInt; rewrite E4; eauto).
    exists n. split; [done |]. by apply ipv4_value in En.
  - cbn in H. rewrite H. cbn [negb]. apply ipv6_hextets in H as (hs & -> & Hl & Hf).
    cbn [mbind option_bind]. eexists. split; [done |]. eapply N.lt_le_trans; [by apply fold_shift |].
    by rewrite Hl.
Qed.
Lemma literal_number_inv v n : ipLiteralToBigInt v = Some n ->
  isValidIpv4Literal v || isValidIpv6Literal v = true /\ n < 2 ^ widthOf (versionOf v).
Proof.
  intros E. assert (isValidIpv4Literal v || isValidIpv6Literal v = true) as Hv.
  { revert E. unfold ipLiteralToBigInt. case_match; [done |].
    by destruct (isValidIpv6Literal v). }
  split; [done |]. destruct (literal_number v Hv) as (m & E' & Hm). congruence.
Qed.

(** ** The characters of a literal *)

Definition is_ip_char (c : N) : bool := is_hex c || (c =? 46) || (c =? 58).

Lemma splitPair_step c a b s :
  splitPair c (a :: b :: s) =
  if (a =? c) && (b =? c) then [] :: splitPair c s
  else match splitPair c (b :: s) with [] => [[a]] | w :: ws => (a :: w) :: ws end.
Proof. done. Qed.

Lemma forall_splitPair {P : N -> Prop} c s : P c -> Forall (Forall P) (splitPair c s) -> Forall P s.
Proof.
  intros Hc. remember (length s) as n eqn:Hn. assert (length s <= n)%nat as Hl by lia. clear Hn.
  revert s Hl. induction n as [| n IH]; intros s Hl Hs; [by destruct s; [constructor | cbn in Hl; lia] |].
  destruct s as [| a [| b s]]; [constructor | by apply Forall_cons in Hs as [? _] |].
  cbn [length] in Hl. rewrite splitPair_step in Hs. destruct ((a =? c) && (b =? c)) eqn:E.
  - bools. subst. apply Forall_cons in Hs as [_ Hs]. do 2 (constructor; [done |]). apply IH; [lia | done].
  - destruct (splitPair c (b :: s)) as [| w ws] eqn:Es.
    { exfalso. destruct s; [done |]. rewrite splitPair_step in Es. repeat case_match; done. }
    apply Forall_cons in Hs as [Hw Hs]. apply Forall_cons in Hw as [Ha Hw]. constructor; [done |].
    apply IH; [cbn; lia |]. rewrite Es. by constructor.
Qed.

Lemma ipv4_ip_chars v : isValidIpv4Literal v = true -> Forall (fun c => is_ip_char c = true) v.
Proof.
  intros H%ipv4_chars. eapply Forall_impl; [exact H |]. intros c Hc. unfold is_ipv4_char in Hc.
  unfold is_ip_char, is_hex. destruct (is_digit c); [done |]. cbn in Hc. by rewrite Hc, !orb_true_r.
Qed.

Lemma counted_chars parts n : countHextets parts = Some n ->
  Forall (Forall (fun c => is_ip_char c = true)) parts.
Proof.
  revert n. induction parts as [| part parts IH]; intros n; cbn [countHextets]; [constructor |].
  destruct (hasChar 46 part).
  - case_decide as Hp; [done |]. subst parts. destruct (isValidIpv4Literal part) eqn:E; [| done]. intros _.
    constructor; [by apply ipv4_ip_chars | constructor].
  - destruct (matches HEXTET part) eqn:Em; [| done]. destruct (countHextets parts); [| done]. intros _.
    constructor; [| by eapply IH]. apply matches_iff, lang_between_set_iff in Em as [_ Hf].
    eapply Forall_impl; [exact Hf |]. intros c Hc. unfold is_ip_char. by rewrite Hc.
Qed.
Lemma side_chars side n : parseSide side = Some n -> Forall (fun c => is_ip_char c = true) side.
Proof.
  destruct side; [constructor |]. intros H%counted_chars. by apply (forall_split 58).
Qed.

Lemma ipv6_ip_chars v : isValidIpv6Literal v = true -> Forall (fun c => is_ip_char c = true) v /\ v <> [].
Proof.
  unfold isValidIpv6Literal. intros H. bools. split; [| by intros ->].
  apply (forall_splitPair 58); [done |].
  destruct (splitPair 58 v) as [| a [| b [| ? ?]]]; [done | | | done].
  - bools. constructor; [by eapply side_chars | constructor].
  - destruct (parseSide a) eqn:Ea; [| done]. destruct (parseSide b) eqn:Eb; [| done].
    repeat constructor; by eapply side_chars.
Qed.

Lemma literal_chars v : isValidIpv4Literal v || isValidIpv6Literal v = true ->
  Forall (fun c => is_ip_char c = true) v /\ v <> [].
Proof.
  intros [H | H]%orb_true_iff; [| by apply ipv6_ip_chars]. split; [by apply ipv4_ip_chars |]. by intros ->.
Qed.

Lemma ip_char_space c : is_ip_char c = true -> is_js_space c = false /\ c <> 47 /\ c <> 45.
Proof.
  intros H. unfold is_ip_char in H. unit_cases H.
  split_and!; [| lia..]. unfold is_js_space, in_range. rewrite !orb_false_iff, !andb_false_iff, !N.leb_gt, !N.eqb_neq.
  lia.
Qed.

(** ** Prefixes *)

Lemma splitPrefix_app address p :
  address <> [] -> p <> [] -> 47 ∉ p -> splitPrefix (address ++ 47 :: p) = Some (address, p).
Proof.
  intros Ha Hp Hn. unfold splitPrefix. rewrite lastIndexOf_app by done.
  destruct address as [| a address]; [done |]. cbn [length].
  rewrite drop_app_ge by (cbn; lia). cbn [length]. rewrite Nat.sub_succ_l, Nat.sub_diag by lia. cbn [drop].
  rewrite drop_0, decide_False by done. do 2 f_equal.
  change (a :: address) with ([a] ++ address). by rewrite take_app_length'.
Qed.

Lemma splitPrefix_inv value address p :
  splitPrefix value = Some (address, p) ->
  value = address ++ 47 :: p /\ address <> [] /\ p <> [] /\ 47 ∉ p.
Proof.
  unfold splitPrefix. destruct (lastIndexOf 47 value) as [[| i] |] eqn:E; [done | | done].
  apply lastIndexOf_inv in E as [Ev Hn]. case_decide as Hp; [done |]. intros [= <- <-].
  split_and!; [done | | done | done]. rewrite Ev. destruct value; [| done]. cbn in Ev. done.
Qed.

Lemma digit_not_slash s : Forall (fun c => is_digit c = true) s -> 47 ∉ s.
Proof. intros H Hin. rewrite Forall_forall in H. by specialize (H _ Hin). Qed.
Lemma digitsOnly_iff s : digitsOnly s = true <-> s <> [] /\ Forall (fun c => is_digit c = true) s.
Proof.
  unfold digitsOnly. rewrite andb_true_iff, negb_true_iff, bool_decide_eq_false, Forall_forall, forallb_forall.
  by setoid_rewrite list_elem_of_In.
Qed.

(** [address/prefix] with nothing to trim. *)
Definition isCidr (address p : jstring) : Prop :=
  isValidIpv4Literal address || isValidIpv6Literal address = true /\
  digitsOnly p = true /\ digitsValue p <= widthOf (versionOf address).

Lemma cidr_trimmed address p : isCidr address p -> trim (address ++ 47 :: p) = address ++ 47 :: p.
Proof.
  intros (Hv & Hd & _). apply trimBy_none, Forall_app. split.
  - apply literal_chars in Hv as [Hf _]. eapply Forall_impl; [exact Hf |]. by intros c [? _]%ip_char_space.
  - constructor; [done |]. apply digitsOnly_iff in Hd as [_ Hf]. eapply Forall_impl; [exact Hf |].
    intros c Hc. apply ip_char_space. unfold is_ip_char, is_hex. by rewrite Hc.
Qed.

Lemma allowedIp_iff value :
  isValidWireguardAllowedIp value = true <->
  exists address p, trim value = address ++ 47 :: p /\ isCidr address p.
Proof.
  unfold isValidWireguardAllowedIp, isCidr, versionOf. split.
  - destruct (splitPrefix (trim value)) as [[address p] |] eqn:E; [| done].
    apply splitPrefix_inv in E as (E & _). destruct (digitsOnly p) eqn:Ed; [| done]. cbn [negb].
    intros H. exists address, p. split; [done |].
    destruct (isValidIpv4Literal address); [by bools |].
    destruct (isValidIpv6Literal address); [by bools | done].
  - intros (address & p & -> & Hv & Hd & Hle). apply literal_chars in Hv as Hc. destruct Hc as [_ Hne].
    apply digitsOnly_iff in Hd as Hf. destruct Hf as [Hp Hf].
    rewrite splitPrefix_app by (auto using digit_not_slash). rewrite Hd. cbn [negb].
    destruct (isValidIpv4Literal address); [by apply N.leb_le |]. cbn in Hv. rewrite Hv. by apply N.leb_le.
Qed.

(** The range of a CIDR: the addresses that share its first [prefix] bits. *)
Lemma cidr_parses address p :
  isCidr address p -> exists n, ipLiteralToBigInt address = Some n /\
  let v := versionOf address in
  let host := widthOf v - digitsValue p in
  parseCidrLiteral (address ++ 47 :: p) =
    Some {| cidrVersion := v; cidrPrefix := digitsValue p; cidrBase := n / 2 ^ host * 2 ^ host;
            cidrLast := n / 2 ^ host * 2 ^ host + 2 ^ host - 1 |}.
Proof.
  intros Hc. pose proof Hc as (Hv & Hd & Hle). destruct (literal_number _ Hv) as (n & En & Hn).
  exists n. split; [done |]. cbv zeta. unfold parseCidrLiteral. rewrite cidr_trimmed by done.
  assert (isValidWireguardAllowedIp (address ++ 47 :: p) = true) as ->.
  { apply allowedIp_iff. exists address, p. by rewrite cidr_trimmed. }
  cbn [negb]. apply literal_chars in Hv as [_ Hne]. apply digitsOnly_iff in Hd as [Hp Hf].
  rewrite splitPrefix_app by (auto using digit_not_slash). cbn [mbind option_bind]. rewrite En. cbn [option_bind].
  cbv zeta. cbn [mbind option_bind]. by rewrite !N.shiftl_mul_pow2, N.shiftr_div_pow2, N.mul_1_l.
Qed.

Lemma parseCidr_inv value r :
  parseCidrLiteral value = Some r -> exists address p, trim value = address ++ 47 :: p /\ isCidr address p.
Proof.
  unfold parseCidrLiteral. destruct (isValidWireguardAllowedIp (trim value)) eqn:E; [| done]. intros _.
  apply allowedIp_iff in E as (address & p & E & Hc). exists address, p. by rewrite trim_idem in E.
Qed.
Lemma parseCidr_trim value : parseCidrLiteral (trim value) = parseCidrLiteral value.
Proof. unfold parseCidrLiteral. by rewrite trim_idem. Qed.

Lemma share_prefix n a k : n / 2 ^ k * 2 ^ k <= a <= n / 2 ^ k * 2 ^ k + 2 ^ k - 1 <-> a / 2 ^ k = n / 2 ^ k.
Proof.
  assert (2 ^ k <> 0) as Hk by (by apply N.pow_nonzero).
  set (d := 2 ^ k) in *. clearbody d. pose proof (N.div_mod a d Hk) as Ha. pose proof (N.mod_lt a d Hk).
  set (q := n / d) in *. clearbody q. split.
  - intros [H1 H2]. symmetry. apply (N.div_unique a d q (a - q * d)); nia.
  - intros E. rewrite E in Ha. clear E. set (r := a mod d) in *. clearbody r. rewrite (N.mul_comm q d). lia.
Qed.

Lemma cidr_range_nonempty value r : parseCidrLiteral value = Some r -> cidrBase r <= cidrLast r.
Proof.
  intros H. rewrite <- parseCidr_trim in H. destruct (parseCidr_inv value r) as (address & p & E & Hc).
  { by rewrite parseCidr_trim in H. }
  rewrite E in H. destruct (cidr_parses address p Hc) as (n & _ & Ep). cbv zeta in Ep. rewrite Ep in H.
  injection H as <-. cbn. pose proof (N.pow_nonzero 2 (widthOf (versionOf address) - digitsValue p)). lia.
Qed.

(** CIDR containment is inclusion of address sets: [child] is inside
    [parent] exactly when both parse, are of one family, and every address of
    the child's range is in the parent's. *)
Theorem cidr_contains_is_inclusion parent child :
  cidrLiteralContains parent child = true <->
  exists outer inner, parseCidrLiteral parent = Some outer /\ parseCidrLiteral child = Some inner /\
    cidrVersion outer = cidrVersion inner /\
    forall a, cidrBase inner <= a <= cidrLast inner -> cidrBase outer <= a <= cidrLast outer.
Proof.
  unfold cidrLiteralContains. split.
  - destruct (parseCidrLiteral parent) as [o |]; [| done]. destruct (parseCidrLiteral child) as [i |]; [| done].
    intros H. bools. exists o, i. split_and!; [done.. |]. lia.
  - intros (o & i & -> & Ei & Hv & Hin). rewrite Ei. rewrite bool_decide_true by done.
    apply cidr_range_nonempty in Ei. cbn [andb]. rewrite andb_true_iff, !N.leb_le.
    pose proof (Hin (cidrBase i) ltac:(lia)). pose proof (Hin (cidrLast i) ltac:(lia)). lia.
Qed.

(** An address is in [network/prefix] exactly when it is of the same family
    and agrees with the network address on the first [prefix] bits, for every
    accepted network and prefix; whatever host bits the network spells, and for
    prefixes from 0 to the family's width. *)
Theorem address_in_cidr_is_prefix address network p n m :
  isCidr network p -> ipLiteralToBigInt address = Some n -> ipLiteralToBigInt network = Some m ->
  addressInCidrLiteral address (network ++ 47 :: p) = true <->
  versionOf address = versionOf network /\
  let host := widthOf (versionOf network) - digitsValue p in N.shiftr n host = N.shiftr m host.
Proof.
  intros Hc En Em. destruct (cidr_parses network p Hc) as (m' & Em' & Ep).
  assert (m' = m) as -> by congruence. cbv zeta in Ep. unfold addressInCidrLiteral. rewrite Ep, En.
  cbn [cidrVersion cidrBase cidrLast]. cbv zeta.
  rewrite !andb_true_iff, bool_decide_eq_true, !N.leb_le, !N.shiftr_div_pow2, <- share_prefix. tauto.
Qed.

Lemma address_in_cidr_is_prefix_witness :
  addressInCidrLiteral "2001:db8::7" (("2001:db8:0:1::" : jstring) ++ 47 :: ("32" : jstring)) = true.
Proof.
  apply (address_in_cidr_is_prefix "2001:db8::7" "2001:db8:0:1::" "32"
    42540766411282592856903984951653826567 42540766411282592875350729025363378176).
  - split_and!; by vm_compute.
  - by vm_compute.
  - by vm_compute.
  - by split; vm_compute.
Defined.

(** ** The www spelling of a name *)

Definition bareOf (hostname : jstring) : jstring :=
  if startsWith WWW_PREFIX hostname then drop (length WWW_PREFIX) hostname else hostname.
(** A name that has a last label which is not a number. *)
Definition dotted (bare : jstring) : bool :=
  match lastIndexOf 46 bare with
  | None => false
  | Some i => negb (isAllDigits (drop (S i) bare))
  end.
Definition hasBothSpellings (root : jstring) : bool :=
  dotted root && isValidHostname root && isValidHostname (WWW_PREFIX ++ root).

Lemma www_split h : startsWith WWW_PREFIX h = true -> h = WWW_PREFIX ++ bareOf h.
Proof. intros E. unfold bareOf. rewrite E. apply startsWith_spec in E as (t & ->). done. Qed.

(** The other spelling depends on the bare name only. *)
Lemma sibling_by_root h :
  isValidHostname h = true ->
  wwwSiblingHostname h =
    if hasBothSpellings (bareOf h)
    then Some (if startsWith WWW_PREFIX h then bareOf h else WWW_PREFIX ++ bareOf h) else None.
Proof.
  intros Hv. unfold wwwSiblingHostname, hasBothSpellings, dotted.
  destruct (startsWith WWW_PREFIX h) eqn:E.
  - apply www_split in E as Es. rewrite <- Es, Hv. unfold bareOf. rewrite E, andb_true_r.
    destruct (lastIndexOf 46 (drop (length WWW_PREFIX) h)); [| done].
    by destruct (isAllDigits _), (isValidHostname _).
  - unfold bareOf. rewrite E, Hv, andb_true_r. destruct (lastIndexOf 46 h); [| done].
    by destruct (isAllDigits _), (isValidHostname _).
Qed.

Lemma bareOf_www root : bareOf (WWW_PREFIX ++ root) = root.
Proof. unfold bareOf. by rewrite startsWith_app, drop_app_length. Qed.
Lemma bareOf_bare root : startsWith WWW_PREFIX root = false -> bareOf root = root.
Proof. intros E. unfold bareOf. by rewrite E. Qed.

(** Taking the other spelling twice gives the name back, for every valid name
    whose bare spelling does not itself begin with [www.]. *)
Theorem www_sibling_involution h s :
  isValidHostname h = true -> startsWith WWW_PREFIX (bareOf h) = false ->
  wwwSiblingHostname h = Some s -> wwwSiblingHostname s = Some h.
Proof.
  intros Hv Hb. rewrite sibling_by_root by done.
  destruct (hasBothSpellings (bareOf h)) eqn:Es; [| done]. intros <-%(inj Some).
  pose proof Es as Es'. unfold hasBothSpellings in Es'. bools. destruct (startsWith WWW_PREFIX h) eqn:E.
  - rewrite sibling_by_root, (bareOf_bare (bareOf h)), Es, Hb by done. by rewrite <- www_split.
  - rewrite sibling_by_root, bareOf_www, Es, startsWith_app by done. unfold bareOf. by rewrite E.
Qed.
Lemma www_sibling_involution_witness :
  wwwSiblingHostname "www.example.com" = Some ("example.com" : jstring).
Proof. by apply (www_sibling_involution "example.com"); vm_compute. Defined.

(** The names of one host name under a mode, by its bare spelling. *)
Lemma names_by_root h mode :
  isValidHostname h = true ->
  hostingWwwNames h mode =
    let root := bareOf h in
    let www := WWW_PREFIX ++ root in
    match mode with
    | WwwOff => Some {| serve := [h]; redirect := None |}
    | _ =>
        if hasBothSpellings root then
          Some match mode with
               | WwwToRoot => {| serve := [root]; redirect := Some (www, root) |}
               | RootToWww => {| serve := [www]; redirect := Some (root, www) |}
               | _ => {| serve := if startsWith WWW_PREFIX h then [h; root] else [h; www];
                         redirect := None |}
               end
        else None
    end.
Proof.
  intros Hv. unfold hostingWwwNames. rewrite sibling_by_root by done. cbv zeta.
  destruct mode; [done | ..]; destruct (hasBothSpellings (bareOf h)); try done; cbn [mbind option_bind];
    destruct (startsWith WWW_PREFIX h) eqn:E; try done;
    first [ by rewrite <- (www_split h) | by rewrite (bareOf_bare h) ].
Qed.

Lemma served_by_root hostnames mode name :
  Forall (fun h => isValidHostname h = true) hostnames ->
  name ∈ hostingServedNames hostnames mode ->
  exists h, h ∈ hostnames /\
    (if hasBothSpellings (bareOf h) then
       match mode with
       | WwwToRoot => name = bareOf h
       | RootToWww => name = WWW_PREFIX ++ bareOf h
       | WwwOff => name = h
       | WwwBoth => name = bareOf h \/ name = WWW_PREFIX ++ bareOf h
       end
     else name = h).
Proof.
  intros Hv (h & Hn & Hh)%list_elem_of_bind. exists h. split; [done |].
  rewrite Forall_forall in Hv. rewrite names_by_root in Hn by auto. cbv zeta in Hn.
  destruct mode, (hasBothSpellings (bareOf h)); try (by apply list_elem_of_singleton in Hn).
  destruct (startsWith WWW_PREFIX h) eqn:E; cbn [serve] in Hn;
    rewrite !elem_of_cons, elem_of_nil in Hn; destruct Hn as [-> | [-> | []]]; auto.
  - right. by apply www_split.
  - left. unfold bareOf. by rewrite E.
Qed.

(** A hosting's www redirects land: every redirect goes to a name the same
    hosting serves, and no redirected name is served (so no visitor is sent
    round in a loop), for valid names whose bare spelling does not begin with
    [www.]. *)
Theorem hosting_redirects_land hostnames mode from to :
  Forall (fun h => isValidHostname h = true /\ startsWith WWW_PREFIX (bareOf h) = false) hostnames ->
  (from, to) ∈ hostingWwwRedirects hostnames mode ->
  to ∈ hostingServedNames hostnames mode /\ from ∉ hostingServedNames hostnames mode.
Proof.
  intros Hall (h & Hr & Hh)%list_elem_of_bind.
  assert (Forall (fun h => isValidHostname h = true) hostnames) as Hv
    by (eapply Forall_impl; [exact Hall | by intros x []]).
  rewrite Forall_forall in Hall. destruct (Hall h Hh) as [Hvh Hb].
  pose proof (names_by_root h mode Hvh) as En. cbv zeta in En. rewrite En in Hr.
  destruct mode; [set_solver | by destruct (hasBothSpellings (bareOf h)); set_solver | |];
    destruct (hasBothSpellings (bareOf h)) eqn:Es; try (by apply elem_of_nil in Hr);
    apply list_elem_of_singleton, pair_equal_spec in Hr as [-> ->]; (split;
    [ apply list_elem_of_bind; exists h; rewrite En; split; [by apply list_elem_of_singleton | done] |]);
    intros (h' & Hh' & Hn)%served_by_root; [| done | | done];
    destruct (Hall h' Hh') as [_ Hb']; destruct (hasBothSpellings (bareOf h')) eqn:Es'.
  - rewrite <- Hn, startsWith_app in Hb'. done.
  - rewrite <- Hn, bareOf_www, Es in Es'. done.
  - rewrite Hn, startsWith_app in Hb. done.
  - rewrite <- Hn, bareOf_bare, Es in Es' by done. done.
Qed.
Lemma hosting_redirects_land_witness :
  ("example.com" : jstring) ∈ hostingServedNames ["www.example.com"; "example.com"] WwwToRoot /\
  ("www.example.com" : jstring) ∉ hostingServedNames ["www.example.com"; "example.com"] WwwToRoot.
Proof.
  apply hosting_redirects_land.
  - repeat constructor; by vm_compute.
  - apply (bool_decide_unpack _). by vm_compute.
Defined.

(** ** Accepted text as an argument *)

(** One word for a command line or a configuration line, and not an option. *)
Definition plainArgument (s : jstring) : Prop :=
  s <> [] /\ head s <> Some 45 /\ existsb is_js_space s = false /\ existsb shellMeta s = false.

Lemma tame_spec n s : tame n s = true ->
  s <> [] /\ existsb is_js_space s = false /\ existsb shellMeta s = false.
Proof. unfold tame. intros H. by bools. Qed.

Lemma head_class (f : N -> bool) r s :
  lang (RCat (RSet f) r) s -> f 45 = false -> s <> [] /\ head s <> Some 45.
Proof.
  intros (? & t & -> & (c & -> & Hc)%lang_set_iff & _)%lang_cat_iff Hf. split; [done |].
  intros [= ->]. congruence.
Qed.

Lemma hostname_head s : isValidHostname s = true -> head s <> Some 45.
Proof.
  intros [_ Hf]%hostname_iff. destruct s as [| c s]; [done |]. intros [= ->].
  cbn [split] in Hf. destruct (N.eqb_spec 45 46); [done |].
  destruct (split 46 s) as [| w ws]; apply Forall_cons in Hf as [(_ & _ & Hh & _) _]; done.
Qed.
Lemma literal_head s : isValidIpv4Literal s || isValidIpv6Literal s = true -> head s <> Some 45.
Proof.
  intros [Hf Hne]%literal_chars. destruct s as [| c s]; [done |]. intros [= ->].
  by apply Forall_cons in Hf as [? _].
Qed.

Lemma head_take n (s : jstring) : take n s <> [] -> head s = head (take n s).
Proof. by destruct n, s. Qed.

Lemma endpoint_head s : isValidWireguardEndpoint s = true -> head s <> Some 45.
Proof.
  unfold isValidWireguardEndpoint. destruct (negb (tame 255 s)); [done |].
  destruct (lastIndexOf 58 s) as [[| i] |] eqn:E; [done | | done]. apply lastIndexOf_le in E.
  assert (head s = head (take (S i) s)) as ->. { apply head_take. by destruct s; [cbn in E; lia |]. }
  destruct (negb _); [done |]. destruct (_ || _); [done |].
  destruct (bool_decide (head (take (S i) s) = Some 91)) eqn:Eb.
  { intros _ Hh. apply bool_decide_eq_true in Eb. congruence. }
  cbn [andb]. intros [H | H]%orb_true_iff; [| by apply hostname_head].
  apply literal_head. by rewrite H.
Qed.

Lemma class_plain f r s (g : N -> bool) :
  lang (RCat (RSet f) r) s -> f 45 = false -> plainClass g = true -> (forall c, g c = true -> c < 128) ->
  Forall (fun c => g c = true) s -> plainArgument s.
Proof.
  intros Hl Hf Hp Hg Hs. destruct (head_class _ _ _ Hl Hf). destruct (plainClass_spec g s) as [? ?]; done.
Qed.

(** Text a validator accepts is one plain word: no white space or line break,
    no shell character, not empty and never an option ([-...]).  It holds for
    host names, time zones, time servers, WireGuard endpoints, public keys and
    interface names, which the daemon passes to programs and writes into
    configuration files. *)
Theorem accepted_text_is_plain s :
  isValidHostname s || isValidTimezone s || isValidNtpServer s || isValidWireguardEndpoint s
  || isValidWireguardPublicKey s || isValidInterfaceName s = true ->
  plainArgument s.
Proof.
  unfold plainArgument. rewrite !orb_true_iff. intros [[[[[H | H] | H] | H] | H] | H].
  - apply hostname_head in H as Hh. unfold isValidHostname in H. bools.
    by match goal with H : tame _ _ = true |- _ => apply tame_spec in H as (? & ? & ?) end.
  - unfold isValidTimezone in H. bools.
    match goal with H : tame _ _ = true |- _ => apply tame_spec in H as (? & ? & ?) end.
    match goal with H : matches _ _ = true |- _ =>
      apply matches_iff in H; destruct (head_class _ _ _ H eq_refl) end. done.
  - unfold isValidNtpServer in H. bools.
    match goal with H : tame _ _ = true |- _ => apply tame_spec in H as (? & ? & ?) end.
    split_and!; [done | | done..].
    destruct (matches IPV4_SHAPE_RE s); [apply literal_head; by apply orb_true_iff; left |].
    destruct (hasChar 58 s); [apply literal_head; by apply orb_true_iff; right | by apply hostname_head].
  - apply endpoint_head in H as Hh. unfold isValidWireguardEndpoint in H.
    destruct (tame 255 s) eqn:E; [| done]. by apply tame_spec in E as (? & ? & ?).
  - unfold isValidWireguardPublicKey in H. bools.
    match goal with H : matches _ _ = true |- _ => apply matches_iff in H; rename H into Hm end.
    apply lang_cat_iff in Hm as (t & ? & -> & Ht & ->%lang_char_iff).
    apply lang_times_set_iff in Ht as [Hl Hf]. destruct t as [| c t]; [done |].
    split_and!; [done | | done..]. intros [= ->]. by apply Forall_cons in Hf as [? _].
  - unfold isValidInterfaceName in H. apply matches_iff in H.
    eapply (class_plain _ _ _ (fun c => is_alnum c || existsb (N.eqb c) [95; 46; 58; 64; 45])); [exact H | done | done | |].
    + intros c Hc. apply orb_true_iff in Hc as [Hc | Hc]; [unit_cases Hc; lia |].
      apply existsb_exists in Hc as (x & Hx & ->%N.eqb_eq). cbn in Hx. intuition lia.
    + apply lang_cat_iff in H as (? & t & -> & (c & -> & Hc)%lang_set_iff & [_ Hf]%lang_upto_set_iff).
      constructor; [by rewrite Hc | done].
Qed.
Lemma accepted_text_is_plain_witness : plainArgument "[2001:db8::1]:51820".
Proof. apply accepted_text_is_plain. by vm_compute. Defined.
