(* ===== verification/FwRender.v ===== *)
(** * Rendering the host firewall ([firewall/render.ts])

    A reconcile payload becomes an [iptables-restore] document per family.  The
    renderers build text, as the code does; beside them stands the rule list
    the text spells out, with what the kernel does with it: the first rule
    whose every match holds decides.  How a literal such as [10.0.0.0/8]
    matches an address is a parameter. *)

From S2P Require Import Prelude Regex Text Json GateHttp GateApproval CtNet.

#[local] Open Scope N_scope.

(** ** The payload ([contracts/commands-contracts.ts]) *)

Inductive FirewallRuleScope := HostScope | PublishedScope.
Inductive FirewallRuleAction := ActAccept | ActDrop | ActReject.
Inductive FirewallRuleProto := Tcp | Udp | AnyProto.
Inductive FirewallRuleOrigin := OriginSystem | OriginDerived | OriginUser.
Inductive FirewallFamily := V4 | V6.

#[global] Instance Action_eq_dec : EqDecision FirewallRuleAction.
Proof. solve_decision. Defined.
#[global] Instance Scope_eq_dec : EqDecision FirewallRuleScope.
Proof. solve_decision. Defined.
#[global] Instance Family_eq_dec : EqDecision FirewallFamily.
Proof. solve_decision. Defined.

Record FirewallRule := {
  id : jstring;
  scope : FirewallRuleScope;
  action : FirewallRuleAction;
  proto : FirewallRuleProto;
  ports : option jstring;
  sources : list jstring;
  destinations : option (list jstring);
  origin : FirewallRuleOrigin;
  comment : option jstring
}.

Inductive FirewallMode := Managed | Observe | Off.
#[global] Instance Mode_eq_dec : EqDecision FirewallMode.
Proof. solve_decision. Defined.

(** [policy.inputDefault === "drop"], [policy.ipv6 === "mirror"]. *)
Record FirewallReconcilePayload := {
  generation : Z;
  mode : FirewallMode;
  inputDropsByDefault : bool;
  mirrorsIpv6 : bool;
  rules : list FirewallRule;
  controlPlane : option (list N);
  payloadSshPorts : option (list N)
}.
(** [payload.controlPlane?.tcpPorts ?? []]. *)
Definition controlPlanePorts (p : FirewallReconcilePayload) : list N := default [] (controlPlane p).

(** [\d{1,5}]. *)
Definition portDigits (s : jstring) : bool :=
  forallb is_digit s && (1 <=? N.of_nat (length s)) && (N.of_nat (length s) <=? 5).
Definition isValidFirewallPort (n : N) : bool := (1 <=? n) && (n <=? 65535).

Definition parseFirewallPortRange (value : jstring) : option (N * N) :=
  let range from to :=
    if isValidFirewallPort from && isValidFirewallPort to && (from <=? to)
    then Some (from, to) else None in
  match split 45 (trim value) with
  | [a] => if portDigits a then range (digitsValue a) (digitsValue a) else None
  | [a; b] =>
      if portDigits a && portDigits b then range (digitsValue a) (digitsValue b) else None
  | _ => None
  end.

(** ** The text of one rule *)

Definition FIREWALL_INPUT_CHAIN : jstring := "TP-INPUT".
Definition FIREWALL_FORWARD_CHAIN : jstring := "TP-FWD".
Definition CONTAINER_INGRESS_INTERFACES : list jstring := ["docker0"; "br-+"; "tp0"].

Definition originName (o : FirewallRuleOrigin) : jstring :=
  match o with OriginSystem => "system" | OriginDerived => "derived" | OriginUser => "user" end.

Definition inQuotes (s : jstring) : jstring := 34 :: s ++ [34].
Definition COMMENT : jstring := "-m comment --comment ".

Definition commentFor (rule : FirewallRule) : jstring :=
  let label := match comment rule with
               | Some (c :: cs) => 32 :: c :: cs
               | _ => []
               end in
  COMMENT ++ inQuotes (("tp:" : jstring) ++ originName (origin rule) ++ (":" : jstring) ++ id rule
                       ++ label).
Definition systemComment (label : jstring) : jstring :=
  COMMENT ++ inQuotes (("tp:system:" : jstring) ++ label).

Definition familyOf (literal : jstring) : FirewallFamily :=
  let address := match lastIndexOf 47 literal with
                 | None => literal
                 | Some slash => take slash literal
                 end in
  if isValidIpv4Literal address then V4 else V6.

(** [None] stands for [null]: no [-s]. *)
Definition sourcesFor (rule : FirewallRule) (family : FirewallFamily) : list (option jstring) :=
  if memb ("any" : jstring) (sources rule) then [None]
  else map Some (filter (fun s => familyOf s = family) (sources rule)).

Definition destinationsFor (rule : FirewallRule) (family : FirewallFamily)
    : list (option jstring) :=
  match destinations rule with
  | None | Some [] => [None]
  | Some ds => map Some (filter (fun d => familyOf d = family) ds)
  end.

Definition protoName (p : FirewallRuleProto) : jstring :=
  match p with Tcp => "tcp" | Udp => "udp" | AnyProto => "any" end.
Definition protoArgs (rule : FirewallRule) : jstring :=
  match proto rule with
  | AnyProto => []
  | p => ("-p " : jstring) ++ protoName p
  end.

(** [80] or [80:90]. *)
Definition rangeText (range : N * N) : jstring :=
  if range.1 =? range.2 then decimalText range.1
  else decimalText range.1 ++ 58 :: decimalText range.2.

(** The range of a rule that names ports: [parseFirewallPortRange(ports)!], whose
    fields are then read ([null] has none). *)
Definition portsOf (rule : FirewallRule) : fallible (option (N * N)) :=
  match ports rule with
  | Some (c :: cs) =>
      match parseFirewallPortRange (c :: cs) with
      | Some range => Ok (Some range)
      | None => Throw (OtherErr "TypeError" "cannot read properties of null")
      end
  | _ => Ok None
  end.

Definition hostPortArgs (rule : FirewallRule) : fallible jstring :=
  range ← portsOf rule;
  Ok match range with
     | None => []
     | Some r => ("--dport " : jstring) ++ rangeText r
     end.

Definition publishedMatchArgs (rule : FirewallRule) (dest : option jstring) : fallible jstring :=
  range ← portsOf rule;
  let parts :=
    match range with
    | Some r => [("--ctorigdstport " : jstring) ++ rangeText r]
    | None => []
    end ++
    match dest with Some d => [("--ctorigdst " : jstring) ++ d] | None => [] end in
  Ok match parts with
     | [] => []
     | _ => ("-m conntrack " : jstring) ++ join " " parts
     end.

Definition targetFor (rule : FirewallRule) (family : FirewallFamily) : jstring :=
  match action rule with
  | ActAccept => "ACCEPT"
  | ActDrop => "DROP"
  | ActReject =>
      match proto rule, family with
      | Tcp, _ => "REJECT --reject-with tcp-reset"
      | _, V4 => "REJECT --reject-with icmp-port-unreachable"
      | _, V6 => "REJECT --reject-with icmp6-port-unreachable"
      end
  end.

Definition joinArgs (parts : list jstring) : jstring := join " " (filter (fun p => p <> []) parts).

(** [value === null ? null : `flag value`]. *)
Definition flagged (flag : jstring) (value : option jstring) : jstring :=
  match value with Some v => flag ++ 32 :: v | None => [] end.

Definition appendTo (chain : jstring) : jstring := ("-A " : jstring) ++ chain.

Definition renderHostRule (rule : FirewallRule) (family : FirewallFamily)
    : fallible (list jstring) :=
  mapM (fun '(dest, source) =>
    portArgs ← hostPortArgs rule;
    Ok (joinArgs [appendTo FIREWALL_INPUT_CHAIN; flagged "-s" source; flagged "-d" dest;
                  protoArgs rule; portArgs; commentFor rule;
                  ("-j " : jstring) ++ targetFor rule family]))
    (destinationsFor rule family ≫= fun dest =>
       map (fun source => (dest, source)) (sourcesFor rule family)).

Definition forwardLine (rule : FirewallRule) (source dest : option jstring) (jump : jstring)
    : fallible jstring :=
  matchArgs ← publishedMatchArgs rule dest;
  Ok (joinArgs [appendTo FIREWALL_FORWARD_CHAIN; flagged "-s" source; protoArgs rule;
                matchArgs; commentFor rule; ("-j " : jstring) ++ jump]).

Definition renderPublishedRule (rule : FirewallRule) (family : FirewallFamily)
    : fallible (list jstring) :=
  match action rule with
  | ActAccept =>
      if memb ("any" : jstring) (sources rule) then Ok []
      else
        mapM (fun '(dest, source, jump) => forwardLine rule source dest jump)
          (destinationsFor rule family ≫= fun dest =>
             map (fun source => (dest, source, ("RETURN" : jstring))) (sourcesFor rule family)
             ++ [(dest, None, ("DROP" : jstring))])
  | _ =>
      mapM (fun '(dest, source) => forwardLine rule source dest (targetFor rule family))
        (destinationsFor rule family ≫= fun dest =>
           map (fun source => (dest, source)) (sourcesFor rule family))
  end.

(** ** The documents *)

Definition inputInvariants (family : FirewallFamily) (guaranteed : list N) : list jstring :=
  let line (args label : jstring) :=
    appendTo FIREWALL_INPUT_CHAIN ++ 32 :: args ++ 32 :: systemComment label
    ++ (" -j ACCEPT" : jstring) in
  [line "-i lo" "loopback"; line "-m conntrack --ctstate ESTABLISHED,RELATED" "established"] ++
  match family with
  | V4 => [line "-p icmp" "icmp"; line "-p udp --sport 67 --dport 68" "dhcp"]
  | V6 => [line "-p ipv6-icmp" "icmpv6"; line "-p udp --sport 547 --dport 546" "dhcpv6"]
  end ++
  map (fun port => line (("-p tcp --dport " : jstring) ++ decimalText port)
                        (("tcp-" : jstring) ++ decimalText port)) guaranteed.

Definition forwardPrefix : list jstring :=
  let line (args label : jstring) :=
    appendTo FIREWALL_FORWARD_CHAIN ++ 32 :: args ++ 32 :: systemComment label
    ++ (" -j RETURN" : jstring) in
  line "-m conntrack --ctstate ESTABLISHED,RELATED" "established" ::
  map (fun iface => line (("-i " : jstring) ++ iface) "container-egress")
    CONTAINER_INGRESS_INTERFACES.

(** Blocks first, then accepts. *)
Definition orderedRules (rs : list FirewallRule) : list FirewallRule :=
  filter (fun r => action r <> ActAccept) rs ++ filter (fun r => action r = ActAccept) rs.

(** Render each rule in turn, noting the ids that gave a line. *)
Fixpoint renderEach (render : FirewallRule -> fallible (list jstring)) (rs : list FirewallRule)
    (rendered : list jstring) : fallible (list jstring * list jstring) :=
  match rs with
  | [] => Ok ([], rendered)
  | rule :: rs' =>
      ruleLines ← render rule;
      let rendered' :=
        if decide (ruleLines <> [] /\ id rule ∉ rendered) then rendered ++ [id rule] else rendered in
      '(rest, all) ← renderEach render rs' rendered';
      Ok (ruleLines ++ rest, all)
  end.

Record RenderFirewallInput := {
  payload : FirewallReconcilePayload;
  inputSshPorts : list N;
  includeForward : FirewallFamily -> bool
}.

Definition renderFamily (input : RenderFirewallInput) (family : FirewallFamily)
    (guaranteed : list N) (rendered : list jstring) : fallible (jstring * list jstring) :=
  let p := payload input in
  let forward := includeForward input family in
  '(hostLines, rendered1) ←
    renderEach (fun r => renderHostRule r family)
      (orderedRules (filter (fun r => scope r = HostScope) (rules p))) rendered;
  '(forwardLines, rendered2) ←
    (if forward then
       renderEach (fun r => renderPublishedRule r family)
         (orderedRules (filter (fun r => scope r = PublishedScope) (rules p))) rendered1
     else Ok ([], rendered1));
  let lines :=
    [("*filter" : jstring); 58 :: FIREWALL_INPUT_CHAIN ++ (" - [0:0]" : jstring)]
    ++ (if forward then [58 :: FIREWALL_FORWARD_CHAIN ++ (" - [0:0]" : jstring)] else [])
    ++ inputInvariants family guaranteed ++ hostLines
    ++ (if inputDropsByDefault p
        then [appendTo FIREWALL_INPUT_CHAIN ++ 32 :: systemComment "default" ++ (" -j DROP" : jstring)]
        else [])
    ++ (if forward then forwardPrefix ++ forwardLines else [])
    ++ [("COMMIT" : jstring)] in
  Ok (join [10] lines ++ [10], rendered2).

(** Insertion into an ascending list without repeats: [new Set] and [sort]. *)
Fixpoint insertPort (n : N) (l : list N) : list N :=
  match l with
  | [] => [n]
  | m :: l' => if n =? m then l else if n <? m then n :: l else m :: insertPort n l'
  end.
Definition ascending (l : list N) : list N := foldr insertPort [] l.

Definition encodeHex (bs : bytes) : jstring :=
  bs ≫= fun b => [hexDigit (b / 16); hexDigit (b mod 16)].

Inductive render_warning :=
| NoSshPort
| ForwardAbsent (rule : jstring)
| NothingRendered (rule : jstring).

Record RenderedFirewall := {
  v4 : jstring;
  v6 : option jstring;
  digest : jstring;
  ruleCount : nat;
  guaranteedTcpPorts : list N;
  sshPorts : list N;
  warnings : list render_warning
}.

Definition ruleWarning (input : RenderFirewallInput) (rendered : list jstring)
    (rule : FirewallRule) : option render_warning :=
  if memb (id rule) rendered then None
  else
    match scope rule with
    | PublishedScope =>
        if negb (includeForward input V4) then Some (ForwardAbsent (id rule))
        else if bool_decide (action rule = ActAccept) && memb ("any" : jstring) (sources rule)
        then None else Some (NothingRendered (id rule))
    | HostScope => Some (NothingRendered (id rule))
    end.

Definition renderFirewall `{Crypto} (input : RenderFirewallInput) : fallible RenderedFirewall :=
  let p := payload input in
  let known := ascending (inputSshPorts input) in
  let ssh := match known with [] => [22] | _ => known end in
  let guaranteed := ascending (ssh ++ controlPlanePorts p) in
  '(doc4, rendered4) ← renderFamily input V4 guaranteed [];
  '(doc6, rendered) ←
    (if mirrorsIpv6 p then
       '(d, r) ← renderFamily input V6 guaranteed rendered4; Ok (Some d, r)
     else Ok (None, rendered4));
  Ok {| v4 := doc4; v6 := doc6;
        digest := encodeHex (sha256 (encode_text (doc4 ++ 10 :: default [] doc6)));
        ruleCount := length rendered;
        guaranteedTcpPorts := guaranteed; sshPorts := ssh;
        warnings := (match known with [] => [NoSshPort] | _ => [] end)
                    ++ omap (ruleWarning input rendered) (rules p) |}.

(** ** The rules the text spells out *)

(** One match of a rule. *)
Inductive marg :=
| MSrc (literal : jstring)
| MDst (literal : jstring)
| MProto (name : jstring)
| MSport (port : N)
| MDport (range : N * N)
| MOrig (range : option (N * N)) (dest : option jstring)
| MEstablished
| MIface (name : jstring).

Definition origParts (range : option (N * N)) (dest : option jstring) : list jstring :=
  match range with Some r => [("--ctorigdstport " : jstring) ++ rangeText r] | None => [] end ++
  match dest with Some d => [("--ctorigdst " : jstring) ++ d] | None => [] end.

Definition argText (a : marg) : jstring :=
  match a with
  | MSrc l => ("-s " : jstring) ++ l
  | MDst l => ("-d " : jstring) ++ l
  | MProto n => ("-p " : jstring) ++ n
  | MSport n => ("--sport " : jstring) ++ decimalText n
  | MDport r => ("--dport " : jstring) ++ rangeText r
  | MOrig r d => ("-m conntrack " : jstring) ++ join " " (origParts r d)
  | MEstablished => "-m conntrack --ctstate ESTABLISHED,RELATED"
  | MIface n => ("-i " : jstring) ++ n
  end.

Record irule := IRule { ichain : jstring; imatch : list marg; icomment : jstring; ijump : jstring }.

Definition lineText (r : irule) : jstring :=
  join " " (appendTo (ichain r) :: map argText (imatch r) ++
            [icomment r; ("-j " : jstring) ++ ijump r]).

Definition optMatch {B} (f : B -> marg) (o : option B) : list marg :=
  match o with Some b => [f b] | None => [] end.
Definition protoMatch (rule : FirewallRule) : list marg :=
  match proto rule with AnyProto => [] | p => [MProto (protoName p)] end.
Definition origMatch (range : option (N * N)) (dest : option jstring) : list marg :=
  match range, dest with None, None => [] | _, _ => [MOrig range dest] end.

Definition rangeOf (rule : FirewallRule) : option (N * N) :=
  match portsOf rule with Ok r => r | Throw _ => None end.

Definition hostRules (rule : FirewallRule) (family : FirewallFamily) : list irule :=
  destinationsFor rule family ≫= fun dest =>
    map (fun source =>
      IRule FIREWALL_INPUT_CHAIN
        (optMatch MSrc source ++ optMatch MDst dest ++ protoMatch rule
         ++ optMatch MDport (rangeOf rule))
        (commentFor rule) (targetFor rule family)) (sourcesFor rule family).

Definition forwardRule (rule : FirewallRule) (source dest : option jstring) (jump : jstring) : irule :=
  IRule FIREWALL_FORWARD_CHAIN
    (optMatch MSrc source ++ protoMatch rule ++ origMatch (rangeOf rule) dest)
    (commentFor rule) jump.

Definition publishedRules (rule : FirewallRule) (family : FirewallFamily) : list irule :=
  match action rule with
  | ActAccept =>
      if memb ("any" : jstring) (sources rule) then []
      else destinationsFor rule family ≫= fun dest =>
        map (fun source => forwardRule rule source dest "RETURN") (sourcesFor rule family)
        ++ [forwardRule rule None dest "DROP"]
  | _ =>
      destinationsFor rule family ≫= fun dest =>
        map (fun source => forwardRule rule source dest (targetFor rule family))
          (sourcesFor rule family)
  end.

Definition invariantRules (family : FirewallFamily) (guaranteed : list N) : list irule :=
  let rule ms label := IRule FIREWALL_INPUT_CHAIN ms (systemComment label) "ACCEPT" in
  [rule [MIface "lo"] "loopback"; rule [MEstablished] "established"] ++
  match family with
  | V4 => [rule [MProto "icmp"] "icmp"; rule [MProto "udp"; MSport 67; MDport (68, 68)] "dhcp"]
  | V6 => [rule [MProto "ipv6-icmp"] "icmpv6";
           rule [MProto "udp"; MSport 547; MDport (546, 546)] "dhcpv6"]
  end ++
  map (fun port => rule [MProto "tcp"; MDport (port, port)] (("tcp-" : jstring) ++ decimalText port))
    guaranteed.

Definition scoped (p : FirewallReconcilePayload) (s : FirewallRuleScope) : list FirewallRule :=
  orderedRules (filter (fun r => scope r = s) (rules p)).

Definition inputChain (p : FirewallReconcilePayload) (family : FirewallFamily) (guaranteed : list N)
    : list irule :=
  invariantRules family guaranteed
  ++ (scoped p HostScope ≫= fun r => hostRules r family)
  ++ (if inputDropsByDefault p
      then [IRule FIREWALL_INPUT_CHAIN [] (systemComment "default") "DROP"] else []).

Definition forwardChain (p : FirewallReconcilePayload) (family : FirewallFamily) : list irule :=
  IRule FIREWALL_FORWARD_CHAIN [MEstablished] (systemComment "established") "RETURN" ::
  map (fun i => IRule FIREWALL_FORWARD_CHAIN [MIface i] (systemComment "container-egress") "RETURN")
    CONTAINER_INGRESS_INTERFACES
  ++ (scoped p PublishedScope ≫= fun r => publishedRules r family).

(** [doc] is the document of these two chains. *)
Definition spells (doc : jstring) (input : RenderFirewallInput) (family : FirewallFamily)
    (guaranteed : list N) : Prop :=
  let forward := includeForward input family in
  doc = join [10]
    ([("*filter" : jstring); (":TP-INPUT - [0:0]" : jstring)]
     ++ (if forward then [(":TP-FWD - [0:0]" : jstring)] else [])
     ++ map lineText (inputChain (payload input) family guaranteed)
     ++ (if forward then map lineText (forwardChain (payload input) family) else [])
     ++ [("COMMIT" : jstring)]) ++ [10].

(** ** The text is the rules *)

Lemma mapM_Ok {E B C : Type} (f : B -> result E C) (g : B -> C) l out :
  (forall x y, x ∈ l -> f x = Ok y -> y = g x) -> mapM f l = Ok out -> out = map g l.
Proof.
  revert out. induction l as [| x l IH]; intros out Hf Hm; [by injection Hm as <- |].
  cbn [mapM] in Hm. apply bind_Ok in Hm as (y & Hy & Hm). apply bind_Ok in Hm as (ys & Hys & Hm).
  injection Hm as <-. cbn [map]. f_equal; [apply Hf; [left | done] |].
  apply IH; [| done]. intros z w Hz. apply Hf. by right.
Qed.

Lemma hostLine_text rule family source dest portArgs :
  hostPortArgs rule = Ok portArgs ->
  joinArgs [appendTo FIREWALL_INPUT_CHAIN; flagged "-s" source; flagged "-d" dest;
            protoArgs rule; portArgs; commentFor rule; ("-j " : jstring) ++ targetFor rule family]
  = lineText (IRule FIREWALL_INPUT_CHAIN
      (optMatch MSrc source ++ optMatch MDst dest ++ protoMatch rule
       ++ optMatch MDport (rangeOf rule)) (commentFor rule) (targetFor rule family)).
Proof.
  unfold hostPortArgs, rangeOf. intros Hp. apply bind_Ok in Hp as (r & -> & Hp). injection Hp as <-.
  unfold protoArgs, protoMatch.
  destruct source, dest, (proto rule), r; reflexivity.
Qed.

Lemma forwardLine_text rule source dest jump line :
  forwardLine rule source dest jump = Ok line -> line = lineText (forwardRule rule source dest jump).
Proof.
  unfold forwardLine, publishedMatchArgs, forwardRule, rangeOf. intros Hl.
  apply bind_Ok in Hl as (margs & Hm & Hl). apply bind_Ok in Hm as (r & -> & Hm).
  injection Hm as <-. injection Hl as <-. unfold protoArgs, protoMatch.
  destruct source, dest, (proto rule), r; reflexivity.
Qed.

Lemma map_bind_list {B C D : Type} (g : C -> D) (f : B -> list C) l :
  map g (l ≫= f) = l ≫= fun x => map g (f x).
Proof. induction l as [| x l IH]; [done |]. cbn. by rewrite map_app, IH. Qed.

Lemma bind_map_ext {B C : Type} (f g : B -> list C) l :
  (forall x, f x = g x) -> l ≫= f = l ≫= g.
Proof. intros Hfg. induction l as [| x l IH]; [done |]. cbn. by rewrite Hfg, IH. Qed.

Lemma renderHostRule_text rule family ls :
  renderHostRule rule family = Ok ls -> ls = map lineText (hostRules rule family).
Proof.
  intros Hr. apply (mapM_Ok _ (fun '(dest, source) => lineText (IRule FIREWALL_INPUT_CHAIN
      (optMatch MSrc source ++ optMatch MDst dest ++ protoMatch rule
       ++ optMatch MDport (rangeOf rule)) (commentFor rule) (targetFor rule family)))) in Hr as ->.
  - unfold hostRules. rewrite !map_bind_list. apply bind_map_ext. intros dest. by rewrite !map_map.
  - intros [dest source] y _ Hy. apply bind_Ok in Hy as (pa & Hp & Hy). injection Hy as <-.
    by apply hostLine_text.
Qed.

Lemma renderPublishedRule_text rule family ls :
  renderPublishedRule rule family = Ok ls -> ls = map lineText (publishedRules rule family).
Proof.
  unfold renderPublishedRule, publishedRules. intros Hr.
  assert (forall jump, mapM (fun '(dest, source) => forwardLine rule source dest jump)
      (destinationsFor rule family ≫= fun dest =>
         map (fun source => (dest, source)) (sourcesFor rule family)) = Ok ls ->
    ls = map lineText (destinationsFor rule family ≫= fun dest =>
      map (fun source => forwardRule rule source dest jump) (sourcesFor rule family))) as Hblock.
  { intros jump Hm.
    apply (mapM_Ok _ (fun '(dest, source) => lineText (forwardRule rule source dest jump))) in Hm.
    - subst ls. rewrite !map_bind_list. apply bind_map_ext. intros dest. by rewrite !map_map.
    - intros [dest source] y _. apply forwardLine_text. }
  destruct (action rule); [| by apply Hblock ..].
  destruct (memb _ _); [by injection Hr as <- |].
  apply (mapM_Ok _ (fun '(dest, source, jump) => lineText (forwardRule rule source dest jump))) in Hr
    as ->.
  - rewrite !map_bind_list. apply bind_map_ext. intros dest. by rewrite !map_app, !map_map.
  - intros [[dest source] jump] y _. apply forwardLine_text.
Qed.

Lemma renderEach_text render (structured : FirewallRule -> list irule) rs rendered ls all :
  (forall r l, render r = Ok l -> l = map lineText (structured r)) ->
  renderEach render rs rendered = Ok (ls, all) -> ls = map lineText (rs ≫= structured).
Proof.
  intros Hr. revert rendered ls all. induction rs as [| r rs IH]; intros rendered ls all;
    cbn [renderEach]; [by intros [= <- _] |].
  intros He. apply bind_Ok in He as (l & Hl & He). apply bind_Ok in He as ([rest all'] & Hrest & He).
  injection He as <- _. cbn. rewrite map_app. f_equal; [by apply Hr | by eapply IH].
Qed.

Lemma invariants_text family guaranteed :
  inputInvariants family guaranteed = map lineText (invariantRules family guaranteed).
Proof.
  unfold inputInvariants, invariantRules. rewrite !map_app, map_map.
  apply (f_equal2 app); [done |]. apply (f_equal2 app); [by destruct family |]. apply map_ext. intros n. unfold lineText, argText, rangeText.
  cbn [imatch map ichain icomment ijump fst snd]. rewrite N.eqb_refl.
  cbn [join app]. rewrite <- ?app_assoc. by cbn.
Qed.

Lemma renderFamily_spells input family guaranteed rendered doc all :
  renderFamily input family guaranteed rendered = Ok (doc, all) -> spells doc input family guaranteed.
Proof.
  unfold renderFamily, spells. intros Hr.
  apply bind_Ok in Hr as ([hl r1] & Hh & Hr). apply bind_Ok in Hr as ([fl r2] & Hf & Hr).
  apply Ok_inj, (f_equal fst) in Hr. cbn [fst] in Hr. subst doc.
  apply (renderEach_text _ (fun r => hostRules r family)) in Hh as ->;
    [| intros; by apply renderHostRule_text].
  apply (f_equal2 app); [| done]. apply f_equal. do 2 (apply (f_equal2 app); [done |]).
  unfold inputChain. rewrite !map_app, invariants_text, <- !app_assoc.
  do 2 (apply (f_equal2 app); [done |]). apply (f_equal2 app); [by destruct (inputDropsByDefault _) |].
  apply (f_equal2 app); [| done].
  destruct (includeForward input family); [| by injection Hf as <- _].
  apply (renderEach_text _ (fun r => publishedRules r family)) in Hf as ->;
    [| intros; by apply renderPublishedRule_text].
  unfold forwardChain. cbn [map]. rewrite map_app, map_map. done.
Qed.

(** ** What the kernel does with a chain *)

Section Packets.
Context {A : Type} (inside : jstring -> A -> bool).

(** A packet as the two chains see it; [porigdst] and [porigport] are its
    destination before translation. *)
Record packet := Packet {
  psrc : A; pdst : A; pproto : jstring; psport : N; pdport : N;
  porigdst : A; porigport : N; pestablished : bool; piface : jstring
}.

Definition inRange (range : N * N) (n : N) : bool := (range.1 <=? n) && (n <=? range.2).

(** [br-+] matches every interface whose name starts with [br-]. *)
Definition ifaceMatches (pattern name : jstring) : bool :=
  if bool_decide (last pattern = Some 43) then startsWith (take (length pattern - 1) pattern) name
  else bool_decide (pattern = name).

Definition holdsOpt {B} (f : B -> bool) (o : option B) : bool :=
  match o with Some b => f b | None => true end.

Definition argMatches (a : marg) (p : packet) : bool :=
  match a with
  | MSrc l => inside l (psrc p)
  | MDst l => inside l (pdst p)
  | MProto n => bool_decide (pproto p = n)
  | MSport n => psport p =? n
  | MDport r => inRange r (pdport p)
  | MOrig r d => holdsOpt (fun r => inRange r (porigport p)) r &&
                 holdsOpt (fun d => inside d (porigdst p)) d
  | MEstablished => pestablished p
  | MIface i => ifaceMatches i (piface p)
  end.

Definition lineMatches (p : packet) (r : irule) : bool :=
  forallb (fun a => argMatches a p) (imatch r).

Inductive verdict := VAccept | VDrop | VReject | VReturn.

Definition verdictOf (jump : jstring) : verdict :=
  if decide (jump = "ACCEPT") then VAccept
  else if decide (jump = "DROP") then VDrop
  else if decide (jump = "RETURN") then VReturn
  else VReject.

(** The first rule that matches decides; past the end the chain returns. *)
Fixpoint decideBy (rs : list irule) (p : packet) : verdict :=
  match rs with
  | [] => VReturn
  | r :: rs' => if lineMatches p r then verdictOf (ijump r) else decideBy rs' p
  end.

(** ** The reading of a payload *)

Definition verdictFor (r : FirewallRule) : verdict :=
  match action r with ActAccept => VAccept | ActDrop => VDrop | ActReject => VReject end.

Definition fromSource (r : FirewallRule) (family : FirewallFamily) (p : packet) : bool :=
  existsb (holdsOpt (fun s => inside s (psrc p))) (sourcesFor r family).
Definition protoHolds (r : FirewallRule) (p : packet) : bool :=
  match proto r with AnyProto => true | q => bool_decide (pproto p = protoName q) end.

(** A host rule speaks about a packet to one of its addresses and ports. *)
Definition hostApplies (r : FirewallRule) (family : FirewallFamily) (p : packet) : bool :=
  fromSource r family p && protoHolds r p &&
  existsb (holdsOpt (fun d => inside d (pdst p))) (destinationsFor r family) &&
  holdsOpt (fun range => inRange range (pdport p)) (rangeOf r).

(** A published rule speaks about a packet first sent to one of its addresses
    and ports. *)
Definition publishedCovers (r : FirewallRule) (family : FirewallFamily) (p : packet) : bool :=
  protoHolds r p &&
  existsb (holdsOpt (fun d => inside d (porigdst p))) (destinationsFor r family) &&
  holdsOpt (fun range => inRange range (porigport p)) (rangeOf r).

Definition isBlock (r : FirewallRule) : bool := bool_decide (action r <> ActAccept).

Definition invariantHolds (family : FirewallFamily) (guaranteed : list N) (p : packet) : bool :=
  ifaceMatches "lo" (piface p) || pestablished p ||
  match family with
  | V4 => bool_decide (pproto p = "icmp") ||
          (bool_decide (pproto p = "udp") && (psport p =? 67) && (pdport p =? 68))
  | V6 => bool_decide (pproto p = "ipv6-icmp") ||
          (bool_decide (pproto p = "udp") && (psport p =? 547) && (pdport p =? 546))
  end ||
  (bool_decide (pproto p = "tcp") && memb (pdport p) guaranteed).

(** Host packets: invariants, then the blocks, then the accepts, then the
    default. *)
Definition inputReading (pl : FirewallReconcilePayload) (family : FirewallFamily)
    (guaranteed : list N) (p : packet) : verdict :=
  if invariantHolds family guaranteed p then VAccept
  else
    let host := filter (fun r => scope r = HostScope) (rules pl) in
    match find (fun r => isBlock r && hostApplies r family p) host with
    | Some r => verdictFor r
    | None =>
        if existsb (fun r => negb (isBlock r) && hostApplies r family p) host then VAccept
        else if inputDropsByDefault pl then VDrop else VReturn
    end.

(** An accept row that restricts its port. *)
Definition narrows (r : FirewallRule) : bool :=
  negb (isBlock r) && negb (memb ("any" : jstring) (sources r)).

(** Published ports: replies and container traffic are left to Docker; a block
    that names the source decides; then the first narrowing row that covers
    the port passes its own sources and drops the rest. *)
Definition forwardReading (pl : FirewallReconcilePayload) (family : FirewallFamily) (p : packet)
    : verdict :=
  if pestablished p || existsb (fun i => ifaceMatches i (piface p)) CONTAINER_INGRESS_INTERFACES
  then VReturn
  else
    let published := filter (fun r => scope r = PublishedScope) (rules pl) in
    match find (fun r => isBlock r && publishedCovers r family p && fromSource r family p) published with
    | Some r => verdictFor r
    | None =>
        match find (fun r => narrows r && publishedCovers r family p) published with
        | Some r => if fromSource r family p then VReturn else VDrop
        | None => VReturn
        end
    end.
End Packets.

(** ** Deciding by rows *)

Lemma existsb_bind {B C : Type} (f : C -> bool) (g : B -> list C) l :
  existsb f (l ≫= g) = existsb (fun x => existsb f (g x)) l.
Proof. induction l as [| x l IH]; [done |]. cbn. by rewrite existsb_app, IH. Qed.

Lemma existsb_map {B C : Type} (f : C -> bool) (g : B -> C) l :
  existsb f (map g l) = existsb (fun x => f (g x)) l.
Proof. induction l as [| x l IH]; [done |]. cbn. by rewrite IH. Qed.

Lemma existsb_andb {B : Type} (f : B -> bool) (c : bool) l :
  existsb (fun x => f x && c) l = existsb f l && c.
Proof. induction l as [| x l IH]; cbn; [by destruct c |]. rewrite IH. by destruct (f x), c, (existsb f l). Qed.

Lemma existsb_ext {B : Type} (f g : B -> bool) l :
  (forall x, f x = g x) -> existsb f l = existsb g l.
Proof. intros Hfg. induction l as [| x l IH]; cbn; [done |]. by rewrite Hfg, IH. Qed.

Lemma find_app {B : Type} (f : B -> bool) l1 l2 :
  find f (l1 ++ l2) = match find f l1 with Some x => Some x | None => find f l2 end.
Proof. induction l1 as [| x l IH]; cbn; [done |]. by destruct (f x). Qed.

Lemma find_filter {B : Type} (P : B -> Prop) `{forall x, Decision (P x)} (f : B -> bool) l :
  find f (filter P l) = find (fun x => bool_decide (P x) && f x) l.
Proof.
  induction l as [| x l IH]; [done |]. cbn [find]. destruct (decide (P x)).
  - rewrite filter_cons_True, bool_decide_true by done. cbn. by rewrite IH.
  - rewrite filter_cons_False, bool_decide_false by done. done.
Qed.

Lemma find_ext {B : Type} (f g : B -> bool) l : (forall x, f x = g x) -> find f l = find g l.
Proof. intros Hfg. induction l as [| x l IH]; cbn; [done |]. by rewrite Hfg, IH. Qed.

Lemma find_existsb {B : Type} (f : B -> bool) l :
  existsb f l = match find f l with Some _ => true | None => false end.
Proof. induction l as [| x l IH]; cbn; [done |]. rewrite IH. by destruct (f x). Qed.

Section Deciding.
Context {A : Type} (inside : jstring -> A -> bool) (p : @packet A).

Notation meets := (lineMatches inside p).

Lemma decideBy_app rs rs' :
  decideBy inside (rs ++ rs') p
  = if existsb meets rs then decideBy inside rs p else decideBy inside rs' p.
Proof. induction rs as [| r rs IH]; cbn; [done |]. by destruct (meets r). Qed.

Lemma decideBy_same v rs :
  Forall (fun r => verdictOf (ijump r) = v) rs -> existsb meets rs = true ->
  decideBy inside rs p = v.
Proof.
  induction 1 as [| r rs Hr _ IH]; cbn; [done |]. by destruct (meets r).
Qed.

(** A chain built row by row is decided by the first row that speaks. *)
Lemma decideBy_rows (g : FirewallRule -> list irule) (applies : FirewallRule -> bool)
    (v : FirewallRule -> verdict) rows tail :
  (forall r, r ∈ rows -> existsb meets (g r) = applies r) ->
  (forall r, r ∈ rows -> applies r = true -> decideBy inside (g r) p = v r) ->
  decideBy inside ((rows ≫= g) ++ tail) p
  = match find applies rows with Some r => v r | None => decideBy inside tail p end.
Proof.
  intros Ha Hv. induction rows as [| r rows IH]; [done |].
  cbn [mbind list_bind find]. rewrite <- app_assoc, decideBy_app, Ha by left.
  destruct (applies r) eqn:E; [apply Hv; [left | done] |].
  apply IH; intros r' Hr'; [apply Ha | apply Hv]; by right.
Qed.

Lemma protoMatch_holds r :
  forallb (fun a => argMatches inside a p) (protoMatch r) = protoHolds r p.
Proof. unfold protoMatch, protoHolds. destruct (proto r); cbn; by rewrite ?andb_true_r. Qed.

Lemma optMatch_holds {B : Type} (f : B -> marg) o :
  forallb (fun a => argMatches inside a p) (optMatch f o)
  = holdsOpt (fun b => argMatches inside (f b) p) o.
Proof. destruct o; cbn; [apply andb_true_r | done]. Qed.

Lemma origMatch_holds range dest :
  forallb (fun a => argMatches inside a p) (origMatch range dest)
  = holdsOpt (fun d => inside d (porigdst p)) dest &&
    holdsOpt (fun r => inRange r (porigport p)) range.
Proof. destruct range, dest; cbn; rewrite ?andb_true_r; try done. apply andb_comm. Qed.

Lemma hostRules_applies r family :
  existsb meets (hostRules r family) = hostApplies inside r family p.
Proof.
  unfold hostRules, hostApplies, fromSource. rewrite existsb_bind.
  rewrite (existsb_ext _ (fun dest => holdsOpt (fun d => inside d (pdst p)) dest &&
    (existsb (holdsOpt (fun s => inside s (psrc p))) (sourcesFor r family) && protoHolds r p &&
     holdsOpt (fun range => inRange range (pdport p)) (rangeOf r)))).
  - rewrite existsb_andb. by destruct (existsb _ (sourcesFor r family)), (protoHolds r p),
      (existsb _ (destinationsFor r family)), (holdsOpt _ (rangeOf r)).
  - intros dest. rewrite existsb_map.
    rewrite (existsb_ext _ (fun source => holdsOpt (fun s => inside s (psrc p)) source &&
      (holdsOpt (fun d => inside d (pdst p)) dest && protoHolds r p &&
       holdsOpt (fun range => inRange range (pdport p)) (rangeOf r)))).
    + rewrite existsb_andb. by destruct (existsb _ (sourcesFor r family)), (protoHolds r p),
        (holdsOpt _ dest), (holdsOpt _ (rangeOf r)).
    + intros source. unfold lineMatches. cbn [imatch].
      rewrite !forallb_app, protoMatch_holds, !optMatch_holds. cbn [argMatches].
      by rewrite !andb_assoc.
Qed.

Lemma targetFor_verdict r family : verdictOf (targetFor r family) = verdictFor r.
Proof. unfold targetFor, verdictFor. destruct (action r), (proto r), family; reflexivity. Qed.

Lemma hostRules_decides r family :
  hostApplies inside r family p = true -> decideBy inside (hostRules r family) p = verdictFor r.
Proof.
  intros Ha. apply decideBy_same; [| by rewrite hostRules_applies].
  unfold hostRules. apply Forall_forall. intros l Hl. apply list_elem_of_bind in Hl as (dest & Hl & _).
  apply list_elem_of_fmap in Hl as (source & -> & _). apply targetFor_verdict.
Qed.

Lemma find_ordered (f : FirewallRule -> bool) rs :
  find f (orderedRules rs)
  = match find (fun r => isBlock r && f r) rs with
    | Some r => Some r
    | None => find (fun r => negb (isBlock r) && f r) rs
    end.
Proof.
  unfold orderedRules. rewrite find_app, !find_filter.
  rewrite (find_ext (fun x => bool_decide (action x = ActAccept) && f x)
                    (fun r => negb (isBlock r) && f r)); [done |].
  intros r. unfold isBlock. by destruct (action r).
Qed.

Lemma invariants_hold family guaranteed :
  existsb meets (invariantRules family guaranteed) = invariantHolds family guaranteed p.
Proof.
  unfold invariantRules, invariantHolds. rewrite !existsb_app, existsb_map.
  assert (existsb (fun n => meets (IRule FIREWALL_INPUT_CHAIN [MProto "tcp"; MDport (n, n)]
      (systemComment (("tcp-" : jstring) ++ decimalText n)) "ACCEPT")) guaranteed
    = bool_decide (pproto p = "tcp") && memb (pdport p) guaranteed) as ->.
  { induction guaranteed as [| n ns IH]; cbn [existsb]; [by rewrite andb_false_r |]. rewrite IH.
    unfold lineMatches. cbn [imatch forallb argMatches]. rewrite andb_true_r.
    destruct (bool_decide (pproto p = "tcp")); [| done]. cbn [andb].
    unfold inRange, memb. cbn [fst snd]. apply Bool.eq_iff_eq_true.
    rewrite orb_true_iff, andb_true_iff, !N.leb_le, !bool_decide_eq_true, elem_of_cons.
    split; [intros [? | ?]; [left; lia | by right] | intros [-> | ?]; [left; lia | by right]]. }
  rewrite <- orb_assoc. f_equal; [cbn; by rewrite ?andb_true_r, ?orb_false_r |].
  f_equal. destruct family; cbn; unfold inRange; cbn [fst snd];
    rewrite ?andb_true_r, ?orb_false_r; f_equal; rewrite <- ?andb_assoc; f_equal; f_equal;
    apply Bool.eq_iff_eq_true; rewrite andb_true_iff, !N.leb_le, N.eqb_eq; lia.
Qed.

Lemma invariants_decide family guaranteed :
  invariantHolds family guaranteed p = true ->
  decideBy inside (invariantRules family guaranteed) p = VAccept.
Proof.
  intros Hi. apply decideBy_same; [| by rewrite invariants_hold].
  unfold invariantRules. rewrite !Forall_app, Forall_map. split_and!;
    [by repeat constructor | by destruct family; repeat constructor | by apply Forall_true].
Qed.

Lemma forwardRule_meets r source dest jump :
  meets (forwardRule r source dest jump)
  = holdsOpt (fun s => inside s (psrc p)) source &&
    (protoHolds r p && holdsOpt (fun d => inside d (porigdst p)) dest &&
     holdsOpt (fun range => inRange range (porigport p)) (rangeOf r)).
Proof.
  unfold lineMatches, forwardRule. cbn [imatch].
  rewrite !forallb_app, protoMatch_holds, optMatch_holds, origMatch_holds. cbn [argMatches].
  by rewrite !andb_assoc.
Qed.

(** The lines of one original destination, for every source of a row. *)
Lemma forwardSources_meet r family dest jump :
  existsb meets (map (fun source => forwardRule r source dest jump) (sourcesFor r family))
  = fromSource inside r family p &&
    (protoHolds r p && holdsOpt (fun d => inside d (porigdst p)) dest &&
     holdsOpt (fun range => inRange range (porigport p)) (rangeOf r)).
Proof.
  rewrite existsb_map. unfold fromSource. rewrite <- existsb_andb. apply existsb_ext.
  intros source. apply forwardRule_meets.
Qed.

Lemma covers_dest r family (c : bool) :
  existsb (fun dest => c && (protoHolds r p && holdsOpt (fun d => inside d (porigdst p)) dest &&
     holdsOpt (fun range => inRange range (porigport p)) (rangeOf r))) (destinationsFor r family)
  = publishedCovers inside r family p && c.
Proof.
  unfold publishedCovers.
  rewrite (existsb_ext _ (fun dest => holdsOpt (fun d => inside d (porigdst p)) dest &&
    (protoHolds r p && holdsOpt (fun range => inRange range (porigport p)) (rangeOf r) && c))).
  - rewrite existsb_andb. by destruct (protoHolds r p), (existsb _ _), (holdsOpt _ (rangeOf r)), c.
  - intros dest. by destruct (protoHolds r p), (holdsOpt _ dest), (holdsOpt _ (rangeOf r)), c.
Qed.

Lemma blockRules_meet r family :
  action r <> ActAccept ->
  existsb meets (publishedRules r family)
  = publishedCovers inside r family p && fromSource inside r family p.
Proof.
  intros Ha. unfold publishedRules.
  assert (existsb meets (destinationsFor r family ≫= fun dest =>
      map (fun source => forwardRule r source dest (targetFor r family)) (sourcesFor r family))
    = publishedCovers inside r family p && fromSource inside r family p) as Hb.
  { rewrite existsb_bind, <- covers_dest. apply existsb_ext. intros dest.
    apply forwardSources_meet. }
  by destruct (action r).
Qed.

Lemma blockRules_decide r family :
  action r <> ActAccept -> existsb meets (publishedRules r family) = true ->
  decideBy inside (publishedRules r family) p = verdictFor r.
Proof.
  intros Ha Hm. apply decideBy_same; [| done]. unfold publishedRules.
  assert (Forall (fun l => verdictOf (ijump l) = verdictFor r)
    (destinationsFor r family ≫= fun dest =>
      map (fun source => forwardRule r source dest (targetFor r family)) (sourcesFor r family))) as Hb.
  { apply Forall_forall. intros l Hl. apply list_elem_of_bind in Hl as (dest & Hl & _).
    apply list_elem_of_fmap in Hl as (source & -> & _). apply targetFor_verdict. }
  by destruct (action r).
Qed.

Lemma acceptRules_meet r family :
  action r = ActAccept ->
  existsb meets (publishedRules r family) = narrows r && publishedCovers inside r family p.
Proof.
  intros Ha. unfold publishedRules, narrows, isBlock. rewrite Ha. cbn [bool_decide decide].
  destruct (memb _ (sources r)); [done |]. cbn [negb andb].
  rewrite <- (andb_true_r (publishedCovers _ _ _ _)), <- covers_dest, existsb_bind.
  apply existsb_ext. intros dest. rewrite existsb_app, forwardSources_meet. cbn [existsb].
  rewrite orb_false_r, forwardRule_meets. cbn [holdsOpt].
  destruct (fromSource inside r family p); cbn [andb orb]; [apply orb_diag | done].
Qed.

Lemma acceptRules_decide r family :
  action r = ActAccept -> narrows r && publishedCovers inside r family p = true ->
  decideBy inside (publishedRules r family) p
  = if fromSource inside r family p then VReturn else VDrop.
Proof.
  intros Ha [Hn Hc]%andb_true_iff. unfold publishedRules. unfold narrows, isBlock in Hn. rewrite Ha in *.
  destruct (memb _ (sources r)); [done |]. unfold publishedCovers in Hc.
  apply andb_true_iff in Hc as [[Hp Hd]%andb_true_iff Hr].
  revert Hd. induction (destinationsFor r family) as [| dest ds IH]; [done |].
  cbn [existsb mbind list_bind]. rewrite decideBy_app, existsb_app, forwardSources_meet, decideBy_app,
    forwardSources_meet. cbn [existsb]. rewrite forwardRule_meets, Hp, Hr. cbn [holdsOpt andb].
  rewrite !andb_true_r, orb_false_r. destruct (holdsOpt _ dest) eqn:Ed.
  - intros _. rewrite andb_true_r, orb_true_r. destruct (fromSource inside r family p) eqn:Es.
    + apply decideBy_same; [| by rewrite forwardSources_meet, Es, Hp, Hr, Ed].
      apply Forall_map, Forall_true. done.
    + cbn [decideBy]. rewrite forwardRule_meets, Hp, Hr, Ed. done.
  - rewrite andb_false_r. cbn [orb]. exact IH.
Qed.

Lemma inputChain_decides pl family guaranteed :
  decideBy inside (inputChain pl family guaranteed) p = inputReading inside pl family guaranteed p.
Proof.
  unfold inputChain, inputReading. rewrite decideBy_app, invariants_hold.
  destruct (invariantHolds family guaranteed p) eqn:Hi; [by apply invariants_decide |].
  rewrite (decideBy_rows _ (fun r => hostApplies inside r family p) verdictFor).
  2: intros; apply hostRules_applies.
  2: intros; by apply hostRules_decides.
  unfold scoped. rewrite find_ordered. destruct (find _ _) as [r |]; [done |].
  rewrite find_existsb.
  destruct (find (fun r => negb (isBlock r) && _) _) as [r |] eqn:Ef.
  - apply find_some in Ef as [_ [Hb _]%andb_true_iff]. unfold isBlock in Hb. unfold verdictFor.
    by destruct (action r).
  - by destruct (inputDropsByDefault pl).
Qed.

(** A published row that says something about the packet. *)
Definition speaks family (r : FirewallRule) : bool :=
  if isBlock r then publishedCovers inside r family p && fromSource inside r family p
  else narrows r && publishedCovers inside r family p.
Definition says family (r : FirewallRule) : verdict :=
  if isBlock r then verdictFor r else if fromSource inside r family p then VReturn else VDrop.

Lemma publishedRules_meet r family : existsb meets (publishedRules r family) = speaks family r.
Proof.
  unfold speaks. destruct (decide (action r = ActAccept)) as [Ha | Ha].
  - rewrite acceptRules_meet by done. unfold isBlock. by rewrite bool_decide_false by tauto.
  - rewrite blockRules_meet by done. unfold isBlock. by rewrite bool_decide_true by done.
Qed.

Lemma publishedRules_decide r family :
  speaks family r = true -> decideBy inside (publishedRules r family) p = says family r.
Proof.
  intros Hs. unfold says. destruct (decide (action r = ActAccept)) as [Ha | Ha].
  - unfold speaks, isBlock in *. rewrite bool_decide_false in * by tauto.
    by apply acceptRules_decide.
  - rewrite blockRules_decide; [| done | by rewrite publishedRules_meet].
    unfold isBlock. by rewrite bool_decide_true by done.
Qed.

Lemma forwardChain_decides pl family :
  decideBy inside (forwardChain pl family) p = forwardReading inside pl family p.
Proof.
  unfold forwardChain, forwardReading.
  set (prefix := map _ CONTAINER_INGRESS_INTERFACES).
  assert (existsb meets prefix
    = existsb (fun i => ifaceMatches i (piface p)) CONTAINER_INGRESS_INTERFACES) as Hpre.
  { unfold prefix. rewrite existsb_map. apply existsb_ext. intros i. cbn. apply andb_true_r. }
  cbn [decideBy]. unfold lineMatches at 1. cbn [imatch forallb argMatches]. rewrite andb_true_r.
  destruct (pestablished p); [done |]. cbn [orb]. rewrite decideBy_app, Hpre.
  destruct (existsb _ CONTAINER_INGRESS_INTERFACES) eqn:Ei.
  { apply decideBy_same; [| by rewrite Hpre]. unfold prefix. by apply Forall_map, Forall_true. }
  rewrite <- (app_nil_r (scoped _ _ ≫= _)), (decideBy_rows _ (speaks family) (says family)).
  2: intros; apply publishedRules_meet.
  2: intros; by apply publishedRules_decide.
  unfold scoped. rewrite find_ordered.
  rewrite (find_ext (fun r => isBlock r && speaks family r)
    (fun r => isBlock r && publishedCovers inside r family p && fromSource inside r family p)).
  2: { intros r. unfold speaks. by destruct (isBlock r). }
  destruct (find _ _) as [r |] eqn:Ef.
  { apply find_some in Ef as [_ [[Hb _]%andb_true_iff _]%andb_true_iff]. unfold says. by rewrite Hb. }
  rewrite (find_ext (fun r => negb (isBlock r) && speaks family r)
    (fun r => narrows r && publishedCovers inside r family p)).
  2: { intros r. unfold speaks, narrows. by destruct (isBlock r). }
  destruct (find (fun r => narrows r && _) _) as [r |] eqn:En; [| done].
  apply find_some in En as [_ [Hn _]%andb_true_iff]. unfold narrows in Hn. unfold says.
  by destruct (isBlock r).
Qed.
End Deciding.

Lemma insertPort_elem n m l : m ∈ insertPort n l <-> m = n \/ m ∈ l.
Proof.
  induction l as [| k l IH]; cbn [insertPort]; [set_solver |].
  destruct (N.eqb_spec n k) as [-> |]; [set_solver |]. destruct (n <? k); set_solver.
Qed.
Lemma ascending_elem m l : m ∈ ascending l <-> m ∈ l.
Proof.
  unfold ascending. induction l as [| n l IH]; cbn [foldr]; [done |].
  rewrite insertPort_elem, IH. set_solver.
Qed.

(** A rendered firewall's documents and the ports it keeps open. *)
Lemma renderFirewall_spells `{Crypto} input out :
  renderFirewall input = Ok out ->
  spells (v4 out) input V4 (guaranteedTcpPorts out) /\
  (forall doc, v6 out = Some doc -> spells doc input V6 (guaranteedTcpPorts out)) /\
  sshPorts out <> [] /\
  (forall n, n ∈ guaranteedTcpPorts out <-> n ∈ sshPorts out \/ n ∈ controlPlanePorts (payload input)) /\
  (forall n, n ∈ inputSshPorts input -> n ∈ sshPorts out).
Proof.
  unfold renderFirewall. intros Hr.
  apply bind_Ok in Hr as ([doc4 r4] & H4 & Hr). apply bind_Ok in Hr as ([doc6 r6] & H6 & Hr).
  apply Ok_inj in Hr. subst out. cbn [v4 v6 guaranteedTcpPorts sshPorts].
  split_and!.
  - by eapply renderFamily_spells.
  - intros doc ->. destruct (mirrorsIpv6 _); [| done].
    apply bind_Ok in H6 as ([d r] & H6 & E). apply Ok_inj in E. injection E as <- _.
    by eapply renderFamily_spells.
  - by destruct (ascending (inputSshPorts input)).
  - intros n. by rewrite ascending_elem, elem_of_app.
  - intros n Hn. apply ascending_elem in Hn. destruct (ascending (inputSshPorts input)); [set_solver | done].
Qed.

(** The invariants decide first. *)
Lemma guaranteed_accept {A} (inside : jstring -> A -> bool) `{Crypto} input out :
  renderFirewall input = Ok out ->
  forall family (p : packet),
    pestablished p = true \/ piface p = "lo" \/
    (pproto p = "tcp" /\ (pdport p ∈ sshPorts out \/ pdport p ∈ controlPlanePorts (payload input))) ->
    decideBy inside (inputChain (payload input) family (guaranteedTcpPorts out)) p = VAccept.
Proof.
  intros Hr. destruct (renderFirewall_spells _ _ Hr) as (_ & _ & Hne & Hg & Hs).
  intros family p Hp. rewrite inputChain_decides.
  unfold inputReading. assert (invariantHolds family (guaranteedTcpPorts out) p = true) as ->; [| done].
  unfold invariantHolds. destruct Hp as [-> | [Hlo | [Htcp Hport]]].
  - by rewrite orb_true_r.
  - unfold ifaceMatches. rewrite Hlo. done.
  - apply Hg in Hport. rewrite (bool_decide_true _ Htcp), (proj2 (memb_true _ _) Hport).
    apply orb_true_r.
Qed.

(** ** Properties *)

(** C33. The document means the payload: whatever renders is, byte for byte, the
    text of a [TP-INPUT] and (where Docker's hook exists) a [TP-FWD] chain, and
    for every packet and every way literals match addresses those chains decide
    as the payload reads: host packets by the invariants, then the first block,
    then the accepts, then the default; published ports by the first block that
    names the source, then by the first narrowing row that covers the port,
    which passes its own sources and drops everyone else. *)
Theorem document_means_payload {A} (inside : jstring -> A -> bool) `{Crypto} input out :
  renderFirewall input = Ok out ->
  let pl := payload input in
  let ports := guaranteedTcpPorts out in
  spells (v4 out) input V4 ports /\
  (forall doc, v6 out = Some doc -> spells doc input V6 ports) /\
  forall family (p : packet),
    decideBy inside (inputChain pl family ports) p = inputReading inside pl family ports p /\
    decideBy inside (forwardChain pl family) p = forwardReading inside pl family p.
Proof.
  intros Hr. destruct (renderFirewall_spells _ _ Hr) as (H4 & H6 & _).
  cbv zeta. split; [exact H4 |]. split; [exact H6 |]. intros family p.
  split; [apply inputChain_decides | apply forwardChain_decides].
Qed.

(** No payload can lock the operator out: in both families every TCP packet
    to a detected or supplied sshd port (port 22 when none is known) and to the
    control plane's ports is accepted, and so is loopback and reply traffic,
    whatever rules and default the payload carries. *)
Theorem guaranteed_ports_stay_open {A} (inside : jstring -> A -> bool) `{Crypto} input out :
  renderFirewall input = Ok out ->
  sshPorts out <> [] /\ (forall n, n ∈ inputSshPorts input -> n ∈ sshPorts out) /\
  forall family (p : packet),
    pestablished p = true \/ piface p = "lo" \/
    (pproto p = "tcp" /\ (pdport p ∈ sshPorts out \/ pdport p ∈ controlPlanePorts (payload input))) ->
    decideBy inside (inputChain (payload input) family (guaranteedTcpPorts out)) p = VAccept.
Proof.
  intros Hr. destruct (renderFirewall_spells _ _ Hr) as (_ & _ & Hne & _ & Hs).
  split; [done |]. split; [done |]. exact (guaranteed_accept inside input out Hr).
Qed.

(** ** A concrete payload *)

Definition dbRule : FirewallRule := {|
  id := "r1"; scope := PublishedScope; action := ActAccept; proto := Tcp;
  ports := Some ("3306" : jstring); sources := ["10.0.0.0/8"];
  destinations := Some ["192.0.2.1/32"]; origin := OriginDerived; comment := None
|}.
Definition blockAll : FirewallRule := {|
  id := "r2"; scope := HostScope; action := ActDrop; proto := AnyProto; ports := None;
  sources := ["any"]; destinations := None; origin := OriginUser;
  comment := Some ("everything" : jstring)
|}.
Definition sampleInput : RenderFirewallInput := {|
  payload := {| generation := 7; mode := Managed; inputDropsByDefault := true; mirrorsIpv6 := true;
                rules := [dbRule; blockAll]; controlPlane := Some [8443];
                payloadSshPorts := Some [2222] |};
  inputSshPorts := [2222; 22]; includeForward := fun _ => true
|}.

(** Addresses as text, matched exactly. *)
Definition exactly (literal address : jstring) : bool := bool_decide (literal = address).
Definition tcpTo (port : N) (src : jstring) : @packet jstring :=
  Packet src "192.0.2.1/32" "tcp" 40000 port "192.0.2.1/32" port false "eth0".

Lemma document_means_payload_witness :
  exists out, @renderFirewall toyCrypto sampleInput = Ok out /\
    decideBy exactly (forwardChain (payload sampleInput) V4) (tcpTo 3306 "198.51.100.7") = VDrop /\
    spells (v4 out) sampleInput V4 [22; 2222; 8443].
Proof.
  destruct (@renderFirewall toyCrypto sampleInput) as [out | e] eqn:E;
    [| exfalso; vm_compute in E; discriminate E].
  exists out. split; [reflexivity |].
  destruct (document_means_payload exactly sampleInput out E) as (H4 & _ & Hd).
  destruct (Hd V4 (tcpTo 3306 "198.51.100.7")) as [_ ->]. split; [vm_compute; reflexivity |].
  assert (guaranteedTcpPorts out = [22; 2222; 8443]) as <-; [| exact H4].
  assert (guaranteedTcpPorts <$> @renderFirewall toyCrypto sampleInput = Ok [22; 2222; 8443]) as Eg
    by (vm_compute; reflexivity).
  rewrite E in Eg. by injection Eg.
Defined.

Lemma guaranteed_ports_stay_open_witness :
  exists out, @renderFirewall toyCrypto sampleInput = Ok out /\
    decideBy exactly (inputChain (payload sampleInput) V6 (guaranteedTcpPorts out))
      (tcpTo 8443 "198.51.100.7") = VAccept.
Proof.
  destruct (@renderFirewall toyCrypto sampleInput) as [out | e] eqn:E;
    [| exfalso; vm_compute in E; discriminate E].
  exists out. split; [reflexivity |].
  destruct (guaranteed_ports_stay_open exactly sampleInput out E) as (_ & _ & Hp).
  apply Hp. right. right. split; [reflexivity |]. right. left.
Defined.
