(* ===== verification/FwContract.v ===== *)
(** * The firewall commands' payloads and results ([contracts/commands-contracts.ts])

    What [server.firewall.reconcile] and [server.firewall.confirm] accept, and
    the results the control plane reads back. *)

From Stdlib Require Import Sorting.Sorted.
From S2P Require Import Prelude Regex Text Json Number GateHttp GateApproval Dates CtParse CtNet FwRender.

#[local] Open Scope N_scope.

Definition FIREWALL_RULE_ID_RE : regex :=
  RBetween 1 63 (RSet (fun c => is_alnum c || existsb (N.eqb c) [95; 46; 58; 45])).
Definition is_comment_char (c : N) : bool := is_alnum c || existsb (N.eqb c) [32; 46; 95; 58; 47; 45].
Definition FIREWALL_COMMENT_RE : regex := RBetween 1 47 (RSet is_comment_char).
Definition FIREWALL_MAX_RULES : N := 1024.
Definition FIREWALL_MAX_SOURCES : N := 256.
Definition FIREWALL_RENDERED_MAX_BYTES : N := 65536.

Definition FIREWALL_SCOPES : list (jstring * FirewallRuleScope) :=
  [("host" : jstring, HostScope); ("published" : jstring, PublishedScope)].
Definition FIREWALL_ACTIONS : list (jstring * FirewallRuleAction) :=
  [("accept" : jstring, ActAccept); ("drop" : jstring, ActDrop); ("reject" : jstring, ActReject)].
Definition FIREWALL_PROTOS : list (jstring * FirewallRuleProto) :=
  [("tcp" : jstring, Tcp); ("udp" : jstring, Udp); ("any" : jstring, AnyProto)].
Definition FIREWALL_ORIGINS : list (jstring * FirewallRuleOrigin) :=
  [("system" : jstring, OriginSystem); ("derived" : jstring, OriginDerived);
   ("user" : jstring, OriginUser)].
Definition FIREWALL_MODES : list (jstring * FirewallMode) :=
  [("managed" : jstring, Managed); ("observe" : jstring, Observe); ("off" : jstring, Off)].

(** ** A rule *)

Definition parseFirewallAddress (value : jval) : option jstring :=
  text ← asString (Some value);
  let trimmed := trim text in
  if decide (trimmed = "any") then Some ("any" : jstring)
  else if isValidIpv4Literal trimmed then Some (trimmed ++ ("/32" : jstring))
  else if isValidIpv6Literal trimmed then Some (trimmed ++ ("/128" : jstring))
  else match parseCidrLiteral trimmed with Some _ => Some trimmed | None => None end.

Fixpoint addAddresses (field : jstring) (l : list jval) (out : list jstring)
    : fallible (list jstring) :=
  match l with
  | [] => Ok out
  | entry :: l' =>
      match parseFirewallAddress entry with
      | None => refuse (field ++ (" entry must be " : jstring) ++ inQuotes "any"
                        ++ (", an IP literal or a CIDR: " : jstring)
                        ++ match entry with JStr s => s | _ => typeofName entry end)
      | Some parsed => addAddresses field l' (if memb parsed out then out else out ++ [parsed])
      end
  end.

Definition parseFirewallAddressList (value : option jval) (field : jstring) (allowEmpty : bool)
    : fallible (list jstring) :=
  l ← given (asArray value) (refuseType (field ++ (" must be an array" : jstring)));
  _ ← require (allowEmpty || negb (bool_decide (l = [])))
        (refuse (field ++ (" must name at least one address or " : jstring) ++ inQuotes "any"));
  _ ← require (N.of_nat (length l) <=? FIREWALL_MAX_SOURCES)
        (refuse (field ++ (" exceeds " : jstring) ++ decimalText FIREWALL_MAX_SOURCES
                 ++ (" entries" : jstring)));
  addAddresses field l [].

Record rule_head := {
  headId : jstring; headScope : FirewallRuleScope; headAction : FirewallRuleAction;
  headProto : FirewallRuleProto; headOrigin : FirewallRuleOrigin
}.

Definition ruleField (index : nat) (field : jstring) : jstring := indexed "rules" index field.

Definition mustBe {A} (index : nat) (field rest : jstring) : fallible A :=
  refuse (ruleField index (46 :: field ++ (" must " : jstring) ++ rest)).

Definition parseFirewallRuleHead (value : entries) (index : nat) : fallible rule_head :=
  let get k := getEntry value k in
  i ← given (stringMatching FIREWALL_RULE_ID_RE (get "id"))
        (mustBe index "id" "match /^[A-Za-z0-9_.:-]{1,64}$/");
  s ← given (oneOf FIREWALL_SCOPES (get "scope")) (mustBe index "scope" "be host or published");
  a ← given (oneOf FIREWALL_ACTIONS (get "action")) (mustBe index "action" "be accept, drop or reject");
  p ← given (oneOf FIREWALL_PROTOS (get "proto")) (mustBe index "proto" "be tcp, udp or any");
  o ← given (oneOf FIREWALL_ORIGINS (get "origin")) (mustBe index "origin" "be system, derived or user");
  Ok {| headId := i; headScope := s; headAction := a; headProto := p; headOrigin := o |}.

(** [8443] or [5432-5440]. *)
Definition normalRange (range : N * N) : jstring :=
  if range.1 =? range.2 then decimalText range.1
  else decimalText range.1 ++ 45 :: decimalText range.2.

Definition parseFirewallRulePorts (value : option jval) (rule : rule_head) (index : nat)
    : fallible (option jstring) :=
  match value with
  | None =>
      if decide (headAction rule = ActAccept)
      then refuse (ruleField index ".ports is required on an accept rule")
      else Ok None
  | Some v =>
      text ← given (asString (Some v)) (refuseType (ruleField index ".ports must be a string"));
      match parseFirewallPortRange text with
      | None => refuse (ruleField index ".ports must be a port or an ascending range 1-65535")
      | Some range =>
          match headProto rule with
          | AnyProto => refuse (ruleField index ".ports requires proto tcp or udp")
          | _ => Ok (Some (normalRange range))
          end
      end
  end.

Definition parseFirewallRuleDestinations (value : option jval) (index : nat)
    : fallible (option (list jstring)) :=
  match value with
  | None => Ok None
  | Some _ =>
      ds ← parseFirewallAddressList value (ruleField index ".destinations") true;
      if memb ("any" : jstring) ds
      then refuse (ruleField index (".destinations lists addresses, not " : jstring)
                   ++ inQuotes "any" ++ (" (omit it instead)" : jstring))
      else Ok (match ds with [] => None | _ => Some ds end)
  end.

Definition parseFirewallRuleComment (value : option jval) (index : nat)
    : fallible (option jstring) :=
  match value with
  | None => Ok None
  | Some _ =>
      Some <$> given (stringMatching FIREWALL_COMMENT_RE value)
        (mustBe index "comment" "be 1-48 chars of letters, digits, space . _ : / -")
  end.

Definition parseFirewallRule (value : jval) (index : nat) : fallible FirewallRule :=
  o ← given (asRecord (Some value)) (refuse (ruleField index " must be an object"));
  head ← parseFirewallRuleHead o index;
  srcs ← parseFirewallAddressList (getEntry o "sources") (ruleField index ".sources") false;
  ps ← parseFirewallRulePorts (getEntry o "ports") head index;
  ds ← parseFirewallRuleDestinations (getEntry o "destinations") index;
  c ← parseFirewallRuleComment (getEntry o "comment") index;
  Ok {| id := headId head; scope := headScope head; action := headAction head;
        proto := headProto head; ports := ps; sources := srcs; destinations := ds;
        origin := headOrigin head; comment := c |}.

(** ** The payload *)

Definition portNumber (v : jval) : option N :=
  z ← asInteger (Some v);
  if (1 <=? z)%Z && (z <=? 65535)%Z then Some (Z.to_N z) else None.

(** Each port once, sorted. *)
Definition parseFirewallPortList (value : option jval) (field : jstring) : fallible (list N) :=
  l ← given (asArray value) (refuseType (field ++ (" must be an array of ports" : jstring)));
  ps ← mapM (fun entry => given (portNumber entry)
          (refuse (field ++ (" entries must be integers 1-65535" : jstring)))) l;
  Ok (ascending ps).

(** [inputDefault === "drop"], [ipv6 === "mirror"]. *)
Definition parseFirewallPolicy (value : option jval) : fallible (bool * bool) :=
  o ← given (asRecord value) (refuse "policy must be an object");
  d ← given (oneOf [("accept" : jstring, false); ("drop" : jstring, true)] (getEntry o "inputDefault"))
        (refuse "policy.inputDefault must be accept or drop");
  m ← given (oneOf [("mirror" : jstring, true); ("skip" : jstring, false)] (getEntry o "ipv6"))
        (refuse "policy.ipv6 must be mirror or skip");
  Ok (d, m).

Definition parseFirewallRules (value : option jval) : fallible (list FirewallRule) :=
  l ← given (asArray value) (refuseType "rules must be an array");
  _ ← require (N.of_nat (length l) <=? FIREWALL_MAX_RULES)
        (refuse (("rules exceeds " : jstring) ++ decimalText FIREWALL_MAX_RULES
                 ++ (" entries" : jstring)));
  rs ← parseEach parseFirewallRule 0 l;
  match firstRepeat [] (map id rs) with
  | Some i => refuse (("rules contains id " : jstring) ++ i ++ (" more than once" : jstring))
  | None => Ok rs
  end.

Definition parseFirewallReconcilePayload (value : option jval) : fallible FirewallReconcilePayload :=
  o ← given (asRecord value) (refuse "Invalid firewall reconcile payload");
  g ← given (asInteger (getEntry o "generation"))
        (refuse "generation must be a non-negative integer");
  _ ← require (0 <=? g)%Z (refuse "generation must be a non-negative integer");
  m ← given (oneOf FIREWALL_MODES (getEntry o "mode"))
        (refuse "mode must be managed, observe or off");
  '(dropsByDefault, mirrors) ← parseFirewallPolicy (getEntry o "policy");
  rs ← parseFirewallRules (getEntry o "rules");
  cp ← match getEntry o "controlPlane" with
       | None => Ok None
       | Some v =>
           c ← given (asRecord (Some v)) (refuse "controlPlane must be an object");
           Some <$> parseFirewallPortList (getEntry c "tcpPorts") "controlPlane.tcpPorts"
       end;
  ssh ← match getEntry o "sshPorts" with
        | None => Ok None
        | Some v => Some <$> parseFirewallPortList (Some v) "sshPorts"
        end;
  Ok {| generation := g; mode := m; inputDropsByDefault := dropsByDefault; mirrorsIpv6 := mirrors;
        rules := rs; controlPlane := cp; payloadSshPorts := ssh |}.

(** ** Confirming *)

Definition FIREWALL_DIGEST_RE : regex :=
  RTimes 64 (RSet (fun c => is_digit c || in_range 97 102 c)).

Definition parseFirewallConfirmPayload (value : option jval) : fallible jstring :=
  o ← given (asRecord value) (refuse "Invalid firewall confirm payload");
  given (stringMatching FIREWALL_DIGEST_RE (getEntry o "digest"))
    (refuse "digest must be a lower-case sha256 hex string").

(** ** Decimal text *)

Lemma digitsValue_fold ds a :
  all_digits ds -> Z.of_N (foldl (fun n d => 10 * n + (d - 48)) a ds)
    = foldl (fun n d => (10 * n + (Z.of_N d - 48))%Z) (Z.of_N a) ds.
Proof.
  intros Hd. revert a. induction Hd as [| d ds Hd _ IH]; intros a; [done |]. cbn. rewrite IH.
  f_equal. unfold is_digit, in_range in Hd. bools. lia.
Qed.
Lemma fold_digits_ge ds a :
  a * 10 ^ N.of_nat (length ds) <= foldl (fun n d => 10 * n + (d - 48)) a ds.
Proof.
  revert a. induction ds as [| d ds IH]; intros a; cbn [foldl length].
  - rewrite N.pow_0_r. lia.
  - etransitivity; [| apply IH]. rewrite Nat2N.inj_succ, N.pow_succ_r', N.mul_assoc.
    apply N.mul_le_mono_r. lia.
Qed.

Lemma decimalText_spec n :
  digitsOnly (decimalText n) = true /\ digitsValue (decimalText n) = n /\
  (forall k, n < 10 ^ N.of_nat (S k) -> (length (decimalText n) <= S k)%nat).
Proof.
  destruct (decimalDigits_spec (N.size_nat n) n [] (size_nat_bound n)) as (c & ds & E & Had & Hv & Hz).
  unfold decimalText. rewrite E, app_nil_r.
  assert (digitsValue (c :: ds) = n) as Hn.
  { apply N2Z.inj. unfold digitsValue. rewrite digitsValue_fold by done. exact Hv. }
  split_and!; [by apply digitsOnly_iff | done |]. intros k Hk.
  destruct (decide (c = 48)) as [-> | Hc]; [destruct Hz as [-> _]; [done | cbn; lia] |].
  destruct (le_lt_dec (length ds) k) as [| Hl]; [cbn; lia | exfalso].
  inversion Had as [| ? ? Hd _]; subst. unfold is_digit, in_range in Hd. bools.
  pose proof (fold_digits_ge ds (c - 48)) as Hge. unfold digitsValue in Hk. cbn [foldl] in Hk.
  rewrite N.mul_0_r, N.add_0_l in Hk.
  assert (10 ^ N.of_nat (S k) <= 10 ^ N.of_nat (length ds)) as Hp by (apply N.pow_le_mono_r; lia).
  nia.
Qed.

Lemma decimalText_portDigits n : n <= 65535 -> portDigits (decimalText n) = true.
Proof.
  intros Hn. destruct (decimalText_spec n) as (Hd & _ & Hl). specialize (Hl 4%nat ltac:(cbn; lia)).
  apply digitsOnly_iff in Hd as [Hne Hf]. unfold portDigits. rewrite !andb_true_iff, !N.leb_le.
  split_and!; [| destruct (decimalText n); [done | cbn; lia] | lia].
  apply forallb_forall. intros c Hc. rewrite Forall_forall in Hf. by apply Hf, list_elem_of_In.
Qed.

Lemma decimalText_no c n : is_digit c = false -> c ∉ decimalText n.
Proof.
  intros Hc Hin. destruct (decimalText_spec n) as ((_ & Hf)%digitsOnly_iff & _).
  rewrite Forall_forall in Hf. rewrite (Hf c Hin) in Hc. done.
Qed.

Definition goodRange (r : N * N) : Prop := 1 <= r.1 /\ r.1 <= r.2 /\ r.2 <= 65535.

(** The normal spelling of a range reads back. *)
Lemma parse_normalRange r : goodRange r -> parseFirewallPortRange (normalRange r) = Some r.
Proof.
  destruct r as [a b]. unfold goodRange, normalRange, parseFirewallPortRange. cbn [fst snd]. intros (H1 & H2 & H3).
  assert (forall n, trimBy is_js_space (decimalText n) = decimalText n /\
                    Forall (fun c => is_js_space c = false) (decimalText n)) as Ht.
  { intros n. destruct (decimalText_spec n) as ((_ & Hf)%digitsOnly_iff & _).
    assert (Forall (fun c => is_js_space c = false) (decimalText n)) as Hs.
    { eapply Forall_impl; [exact Hf |]. intros c Hc. apply ip_char_space. unfold is_ip_char, is_hex. by rewrite Hc. }
    split; [by apply trimBy_none | done]. }
  assert (forall n, 1 <= n -> n <= 65535 -> isValidFirewallPort n = true) as Hvp.
  { intros n ? ?. unfold isValidFirewallPort. apply andb_true_iff. rewrite !N.leb_le. lia. }
  destruct (N.eqb_spec a b) as [-> | Hab].
  - unfold trim. rewrite (proj1 (Ht b)), split_word by (by apply decimalText_no).
    rewrite decimalText_portDigits by lia. destruct (decimalText_spec b) as (_ & -> & _).
    rewrite Hvp, N.leb_refl by lia. done.
  - unfold trim. rewrite trimBy_none.
    2: { apply Forall_app. split; [apply Ht |]. constructor; [done | apply Ht]. }
    rewrite split_app_sep, split_word by (by apply decimalText_no).
    rewrite !decimalText_portDigits by lia. destruct (decimalText_spec a) as (_ & -> & _).
    destruct (decimalText_spec b) as (_ & -> & _). rewrite !Hvp by lia. cbn [andb].
    by rewrite (proj2 (N.leb_le a b)) by lia.
Qed.

Lemma parseRange_good text r : parseFirewallPortRange text = Some r -> goodRange r.
Proof.
  unfold parseFirewallPortRange, isValidFirewallPort, goodRange. intros H.
  repeat case_match; simplify_eq; bools; cbn; lia.
Qed.

(** ** What the parser accepts *)

Definition goodAddress (s : jstring) : Prop :=
  s = "any" \/ exists address p, s = address ++ 47 :: p /\ isCidr address p.

Lemma address_good v s : parseFirewallAddress v = Some s -> goodAddress s.
Proof.
  unfold parseFirewallAddress. destruct (asString (Some v)) as [text |]; [| done]. cbn [mbind option_bind].
  case_decide as Hany; [intros [= <-]; by left |]. intros H. right.
  destruct (isValidIpv4Literal (trim text)) eqn:E4.
  { injection H as <-. exists (trim text), ("32" : jstring). split; [done |].
    unfold isCidr, versionOf. rewrite E4. by vm_compute. }
  destruct (isValidIpv6Literal (trim text)) eqn:E6.
  { injection H as <-. exists (trim text), ("128" : jstring). split; [done |].
    unfold isCidr, versionOf. rewrite E4, E6. by vm_compute. }
  destruct (parseCidrLiteral (trim text)) as [cidr |] eqn:Ec; [| done]. injection H as <-.
  apply parseCidr_inv in Ec as (a & p & E & Hc). rewrite trim_idem in E. eauto.
Qed.

Lemma not_a_literal v : 47 ∈ v -> isValidIpv4Literal v || isValidIpv6Literal v = false.
Proof.
  intros Hin. destruct (isValidIpv4Literal v || isValidIpv6Literal v) eqn:E; [| done].
  apply literal_chars in E as [Hf _]. rewrite Forall_forall in Hf. by specialize (Hf _ Hin).
Qed.

Lemma good_address_reads s : goodAddress s -> parseFirewallAddress (JStr s) = Some s.
Proof.
  intros [-> | (a & p & -> & Hc)]; [by vm_compute |]. unfold parseFirewallAddress. cbn [asString mbind option_bind].
  rewrite cidr_trimmed by done. rewrite decide_False.
  2: { intros E. assert (47 ∈ (a ++ 47 :: p)) as Hin by set_solver. rewrite E in Hin.
       by apply (bool_decide_eq_false_1 (47 ∈ ("any" : jstring))) in Hin. }
  pose proof (not_a_literal (a ++ 47 :: p) ltac:(set_solver)) as [-> ->]%orb_false_iff.
  destruct (cidr_parses a p Hc) as (n & _ & ->). done.
Qed.

Definition goodAddresses (l : list jstring) : Prop :=
  l <> [] /\ (length l <= 256)%nat /\ NoDup l /\ Forall goodAddress l.

(** A rule as the parser leaves it: every field in its normal form. *)
Record goodRule (r : FirewallRule) : Prop := GoodRule {
  good_id : lang FIREWALL_RULE_ID_RE (id r);
  good_sources : goodAddresses (sources r);
  good_ports : match ports r with
               | None => action r <> ActAccept
               | Some t => proto r <> AnyProto /\ exists range, goodRange range /\ t = normalRange range
               end;
  good_destinations : match destinations r with
                      | None => True
                      | Some ds => goodAddresses ds /\ ("any" : jstring) ∉ ds
                      end;
  good_comment : match comment r with None => True | Some c => lang FIREWALL_COMMENT_RE c end
}.

Definition goodPorts (ps : option (list N)) : Prop :=
  match ps with
  | None => True
  | Some l => ascending l = l /\ Forall (fun n => 1 <= n <= 65535) l
  end.

Record goodPayload (p : FirewallReconcilePayload) : Prop := GoodPayload {
  good_generation : (0 <= generation p)%Z;
  good_rules : (length (rules p) <= 1024)%nat /\ Forall goodRule (rules p) /\ NoDup (map id (rules p));
  good_controlPlane : goodPorts (controlPlane p);
  good_sshPorts : goodPorts (payloadSshPorts p)
}.

Lemma given_refuse {A} (o : option A) m a : given o (refuse m) = Ok a -> o = Some a.
Proof. by apply given_Ok. Qed.
Lemma given_refuseType {A} (o : option A) m a : given o (refuseType m) = Ok a -> o = Some a.
Proof. by apply given_Ok. Qed.
Lemma given_mustBe {A} (o : option A) i f r a : given o (mustBe i f r) = Ok a -> o = Some a.
Proof. by apply given_Ok. Qed.
Lemma require_refuse b m u : require b (refuse m) = Ok u -> b = true.
Proof. by destruct b. Qed.

(** Invert a parser that gave a value. *)
Ltac parsed :=
  repeat (ok_inv; match goal with
  | H : given _ (refuse _) = Ok _ |- _ => apply given_refuse in H
  | H : given _ (refuseType _) = Ok _ |- _ => apply given_refuseType in H
  | H : given _ (mustBe _ _ _) = Ok _ |- _ => apply given_mustBe in H
  | H : require _ (refuse _) = Ok _ |- _ => apply require_refuse in H
  | H : refuse _ = Ok _ |- _ => discriminate H
  | H : mustBe _ _ _ = Ok _ |- _ => discriminate H
  end); ok_inv.

Lemma stringMatching_inv re v s : stringMatching re v = Some s -> v = Some (JStr s) /\ lang re s.
Proof.
  unfold stringMatching. destruct v as [[] |]; cbn; try done. case_match eqn:E; [| done]. intros [= <-].
  split; [done | by apply matches_iff].
Qed.

Lemma addAddresses_good field l out res :
  addAddresses field l out = Ok res -> NoDup out -> Forall goodAddress out ->
  NoDup res /\ Forall goodAddress res /\ (length res <= length out + length l)%nat /\
  (l <> [] \/ out <> [] -> res <> []).
Proof.
  revert out. induction l as [| v l IH]; intros out; cbn [addAddresses].
  { intros [= <-] ? ?. split_and!; [done.. | lia | by intros [|]]. }
  destruct (parseFirewallAddress v) as [s |] eqn:E; [| done]. intros H Hn Hf. apply address_good in E.
  destruct (memb s out) eqn:Em.
  - apply memb_true in Em. apply IH in H as (? & ? & ? & Hne); [| done..]. cbn [length]. split_and!; [done.. | lia |].
    intros _. apply Hne. right. intros ->. set_solver.
  - apply memb_false in Em. apply IH in H as (? & ? & Hl & Hne).
    + rewrite length_app in Hl. cbn [length] in *. split_and!; [done.. | lia |]. intros _. apply Hne. right. by destruct out.
    + apply NoDup_app. split_and!; [done | set_solver | apply NoDup_singleton].
    + apply Forall_app. split; [done |]. by apply Forall_singleton.
Qed.

Lemma addressList_good v field allowEmpty l :
  parseFirewallAddressList v field allowEmpty = Ok l ->
  NoDup l /\ Forall goodAddress l /\ (length l <= 256)%nat /\ (allowEmpty = false -> l <> []).
Proof.
  unfold parseFirewallAddressList, FIREWALL_MAX_SOURCES. intros H. parsed.
  match goal with H : addAddresses _ _ _ = Ok _ |- _ =>
    apply addAddresses_good in H as (? & ? & ? & Hne); [| constructor..] end.
  bools. cbn [length] in *. split_and!; [done | done | lia |]. intros ->. apply Hne. left. cbn in *. by bools.
Qed.

Lemma rule_good v i r : parseFirewallRule v i = Ok r -> goodRule r.
Proof.
  unfold parseFirewallRule. intros H. parsed. subst r.
  match goal with H : parseFirewallRuleHead _ _ = Ok _ |- _ => unfold parseFirewallRuleHead in H; parsed; rename H into Hh end.
  subst. constructor; cbn.
  - match goal with H : stringMatching FIREWALL_RULE_ID_RE _ = Some _ |- _ => by apply stringMatching_inv in H as [_ ?] end.
  - match goal with H : parseFirewallAddressList _ _ false = Ok _ |- _ =>
      apply addressList_good in H as (? & ? & ? & Hne) end.
    by split_and!; [apply Hne | ..].
  - match goal with H : parseFirewallRulePorts _ _ _ = Ok _ |- _ => unfold parseFirewallRulePorts in H; rename H into Hp end.
    destruct (getEntry _ "ports").
    + parsed. destruct (parseFirewallPortRange _) as [range |] eqn:Er; [| done]. apply parseRange_good in Er.
      cbn in Hp. case_match; try done; injection Hp as <-; (split; [done | eauto]).
    + case_decide; [done |]. by injection Hp as <-.
  - match goal with H : parseFirewallRuleDestinations _ _ = Ok _ |- _ =>
      unfold parseFirewallRuleDestinations in H; rename H into Hp end.
    destruct (getEntry _ "destinations"); [| by injection Hp as <-]. parsed.
    match goal with H : parseFirewallAddressList _ _ true = Ok _ |- _ =>
      apply addressList_good in H as (? & ? & ? & _) end.
    destruct (memb _ _) eqn:Em; [done |]. apply memb_false in Em. ok_inv. subst.
    match goal with H : NoDup ?d |- _ => destruct d; [done |] end. by split_and!.
  - match goal with H : parseFirewallRuleComment _ _ = Ok _ |- _ =>
      unfold parseFirewallRuleComment in H; rename H into Hp end.
    destruct (getEntry _ "comment") as [j |]; [| by injection Hp as <-].
    destruct (given (stringMatching _ _) _) eqn:Eg; [| done]. injection Hp as <-. parsed.
    by apply stringMatching_inv in Eg as [_ ?].
Qed.

(** Inserting keeps a strictly ascending list strictly ascending. *)
Definition ascends (l : list N) : Prop := StronglySorted N.lt l.
Lemma insertPort_ascends n l : ascends l -> ascends (insertPort n l).
Proof.
  induction 1 as [| m l Hs IH Hf]; cbn; [by repeat constructor |].
  destruct (N.eqb_spec n m) as [-> |]; [by constructor |]. destruct (N.ltb_spec n m).
  - constructor; [by constructor |]. constructor; [done |]. eapply Forall_impl; [exact Hf |]. cbn. lia.
  - constructor; [done |]. apply Forall_forall. intros x [-> | Hx]%insertPort_elem; [lia |].
    rewrite Forall_forall in Hf. by apply Hf.
Qed.
Lemma ascending_ascends l : ascends (ascending l).
Proof. induction l as [| n l IH]; cbn; [constructor | by apply insertPort_ascends]. Qed.
Lemma ascending_id l : ascends l -> ascending l = l.
Proof.
  induction 1 as [| n l Hs IH Hf]; [done |]. cbn. fold (ascending l). rewrite IH.
  destruct l as [| m l]; [done |]. cbn. apply Forall_cons in Hf as [Hlt _].
  destruct (N.eqb_spec n m); [lia |]. by destruct (N.ltb_spec n m); [| lia].
Qed.

Lemma portNumber_good v n : portNumber v = Some n -> 1 <= n <= 65535.
Proof.
  unfold portNumber. destruct (asInteger (Some v)) as [z |]; cbn; [| done].
  case_match eqn:E; [| done]. intros [= <-]. lia.
Qed.

Lemma portNumbers_good m l ps :
  mapM (fun entry => given (portNumber entry) (refuse m)) l = Ok ps -> Forall (fun n => 1 <= n <= 65535) ps.
Proof.
  revert ps. induction l as [| v l IH]; intros ps; cbn [mapM]; unfold mret, result_ret.
  { intros [= <-]. constructor. }
  intros H. parsed. subst ps. constructor; [| eauto].
  by match goal with H : portNumber _ = Some _ |- _ => apply portNumber_good in H end.
Qed.

Lemma portList_good v field l : parseFirewallPortList v field = Ok l -> goodPorts (Some l).
Proof.
  unfold parseFirewallPortList. intros H. parsed. subst l. cbn. split.
  { apply ascending_id, ascending_ascends. }
  match goal with H : mapM _ _ = Ok _ |- _ => apply portNumbers_good in H; rename H into Hf end.
  rewrite Forall_forall in Hf. apply Forall_forall. intros n Hn. rewrite ascending_elem in Hn. auto.
Qed.

Lemma payload_good v p : parseFirewallReconcilePayload v = Ok p -> goodPayload p.
Proof.
  unfold parseFirewallReconcilePayload, parseFirewallRules, FIREWALL_MAX_RULES. intros H. parsed.
  match goal with x : bool * bool |- _ => destruct x end. parsed. subst p. constructor; cbn.
  - match goal with H : (0 <=? _)%Z = true |- _ => by apply Z.leb_le in H end.
  - match goal with H : match firstRepeat _ _ with _ => _ end = Ok _ |- _ => rename H into Hr end.
    destruct (firstRepeat _ _) eqn:Ef; [done |]. injection Hr as <-. apply firstRepeat_None in Ef as [? _].
    match goal with H : parseEach _ _ _ = Ok _ |- _ =>
      apply (parseEach_forall _ goodRule) in H as [? ?]; [| intros ? ? ?; apply rule_good] end.
    bools. split_and!; [lia | done..].
  - match goal with H : match getEntry _ "controlPlane" with _ => _ end = Ok _ |- _ => rename H into Hc end.
    destruct (getEntry _ "controlPlane"); [| by injection Hc as <-].
    apply bind_Ok in Hc as (c & _ & Hc). destruct (parseFirewallPortList _ _) eqn:Ep; [| done].
    injection Hc as <-. by apply portList_good in Ep.
  - match goal with H : match getEntry _ "sshPorts" with _ => _ end = Ok _ |- _ => rename H into Hc end.
    destruct (getEntry _ "sshPorts"); [| by injection Hc as <-].
    destruct (parseFirewallPortList _ _) eqn:Ep; [| done]. injection Hc as <-. by apply portList_good in Ep.
Qed.

(** ** The payload as JSON, and back *)

Definition scopeName (s : FirewallRuleScope) : jstring :=
  match s with HostScope => "host" | PublishedScope => "published" end.
Definition actionName (a : FirewallRuleAction) : jstring :=
  match a with ActAccept => "accept" | ActDrop => "drop" | ActReject => "reject" end.
Definition modeName (m : FirewallMode) : jstring :=
  match m with Managed => "managed" | Observe => "observe" | Off => "off" end.

(** A member that is absent when the field is. *)
Definition optEntry (k : jstring) (v : option jval) : entries :=
  match v with Some x => [(k, x)] | None => [] end.
Definition strings (l : list jstring) : jval := JArr (map JStr l).
Definition portsJson (l : list N) : jval := JArr (map (fun n => JNum (num_of_Z (Z.of_N n))) l).

Definition ruleJson (r : FirewallRule) : jval :=
  JObj ([("id" : jstring, JStr (id r)); ("scope" : jstring, JStr (scopeName (scope r)));
         ("action" : jstring, JStr (actionName (action r)));
         ("proto" : jstring, JStr (protoName (proto r)))]
        ++ optEntry "ports" (JStr <$> ports r)
        ++ [("sources" : jstring, strings (sources r))]
        ++ optEntry "destinations" (strings <$> destinations r)
        ++ [("origin" : jstring, JStr (originName (origin r)))]
        ++ optEntry "comment" (JStr <$> comment r)).

Definition payloadJson (p : FirewallReconcilePayload) : jval :=
  JObj ([("generation" : jstring, JNum (num_of_Z (generation p)));
         ("mode" : jstring, JStr (modeName (mode p)));
         ("policy" : jstring,
            JObj [("inputDefault" : jstring, JStr (if inputDropsByDefault p then "drop" else "accept" : jstring));
                  ("ipv6" : jstring, JStr (if mirrorsIpv6 p then "mirror" else "skip" : jstring))]);
         ("rules" : jstring, JArr (map ruleJson (rules p)))]
        ++ optEntry "controlPlane" ((fun l => JObj [("tcpPorts" : jstring, portsJson l)]) <$> controlPlane p)
        ++ optEntry "sshPorts" (portsJson <$> payloadSshPorts p)).

Lemma rule_members (a b c d e f : jval) (p q r : option jval) :
  let o : entries :=
    [("id" : jstring, a); ("scope" : jstring, b); ("action" : jstring, c); ("proto" : jstring, d)]
    ++ optEntry "ports" p ++ [("sources" : jstring, e)] ++ optEntry "destinations" q
    ++ [("origin" : jstring, f)] ++ optEntry "comment" r in
  getEntry o "id" = Some a /\ getEntry o "scope" = Some b /\ getEntry o "action" = Some c /\
  getEntry o "proto" = Some d /\ getEntry o "sources" = Some e /\ getEntry o "origin" = Some f /\
  getEntry o "ports" = p /\ getEntry o "destinations" = q /\ getEntry o "comment" = r.
Proof. destruct p, q, r; vm_compute; by split_and!. Qed.

Lemma payload_members (a b c d : jval) (p q : option jval) :
  let o : entries :=
    [("generation" : jstring, a); ("mode" : jstring, b); ("policy" : jstring, c); ("rules" : jstring, d)]
    ++ optEntry "controlPlane" p ++ optEntry "sshPorts" q in
  getEntry o "generation" = Some a /\ getEntry o "mode" = Some b /\ getEntry o "policy" = Some c /\
  getEntry o "rules" = Some d /\ getEntry o "controlPlane" = p /\ getEntry o "sshPorts" = q.
Proof. destruct p, q; vm_compute; by split_and!. Qed.

Lemma addAddresses_id field l out :
  NoDup (out ++ l) -> Forall goodAddress l -> addAddresses field (map JStr l) out = Ok (out ++ l).
Proof.
  intros Hn Hf. revert out Hn. induction Hf as [| s l Hs Hl IH]; intros out Hn; cbn [map addAddresses].
  { by rewrite app_nil_r. }
  rewrite good_address_reads by done.
  assert (memb s out = false) as ->.
  { apply memb_false. apply NoDup_app in Hn as (_ & Hd & _). intros Hin. specialize (Hd s Hin). set_solver. }
  rewrite IH by (by rewrite <- app_assoc). by rewrite <- app_assoc.
Qed.

Lemma addressList_id l field allowEmpty :
  goodAddresses l -> parseFirewallAddressList (Some (strings l)) field allowEmpty = Ok l.
Proof.
  intros (Hne & Hl & Hn & Hf). unfold parseFirewallAddressList, strings, FIREWALL_MAX_SOURCES.
  cbn [asArray given mbind result_bind]. destruct l as [| s l]; [done |].
  rewrite bool_decide_false by done. rewrite orb_true_r. cbn [require mbind result_bind].
  rewrite length_map. rewrite (proj2 (N.leb_le _ _)) by lia. cbn [require mbind result_bind].
  by rewrite addAddresses_id.
Qed.

Lemma stringMatching_id re s : lang re s -> stringMatching re (Some (JStr s)) = Some s.
Proof. intros H%matches_iff. unfold stringMatching. cbn. by rewrite H. Qed.

Lemma rule_reads r i : goodRule r -> parseFirewallRule (ruleJson r) i = Ok r.
Proof.
  intros [Hid Hs Hp Hd Hc]. destruct r as [rid rsc ra rp rports rsrc rds ro rc]. cbn in Hid, Hs, Hp, Hd, Hc.
  destruct (rule_members (JStr rid) (JStr (scopeName rsc)) (JStr (actionName ra)) (JStr (protoName rp))
      (strings rsrc) (JStr (originName ro)) (JStr <$> rports) (strings <$> rds) (JStr <$> rc))
      as (G1 & G2 & G3 & G4 & G5 & G6 & G7 & G8 & G9).
  match type of G1 with getEntry ?o _ = _ =>
    change (ruleJson _) with (JObj o); generalize dependent o end.
  intros o G1 G2 G3 G4 G5 G6 G7 G8 G9.
  unfold parseFirewallRule. cbn [asRecord given mbind result_bind].
  assert (parseFirewallRuleHead o i = Ok {| headId := rid; headScope := rsc; headAction := ra;
      headProto := rp; headOrigin := ro |}) as ->.
  { unfold parseFirewallRuleHead. rewrite G1, G2, G3, G4, G6, stringMatching_id by done.
    by destruct rsc, ra, rp, ro. }
  cbn [mbind result_bind]. rewrite G5, G7, G8, G9, addressList_id by done. cbn [mbind result_bind].
  assert (parseFirewallRulePorts (JStr <$> rports) {| headId := rid; headScope := rsc; headAction := ra;
      headProto := rp; headOrigin := ro |} i = Ok rports) as ->.
  { destruct rports as [t |]; cbn.
    - destruct Hp as [Hany (range & Hr & ->)]. rewrite parse_normalRange by done. by destruct rp.
    - by rewrite decide_False. }
  cbn [mbind result_bind].
  assert (parseFirewallRuleDestinations (strings <$> rds) i = Ok rds) as ->.
  { destruct rds as [ds |]; [| done]. destruct Hd as [Hds Hany]. cbn [fmap option_fmap option_map parseFirewallRuleDestinations].
    rewrite addressList_id by done. cbn [mbind result_bind]. 
    assert (memb ("any" : jstring) ds = false) as -> by (by apply memb_false).
    by destruct ds as [| d ds]; [destruct Hds |]. }
  cbn [mbind result_bind].
  assert (parseFirewallRuleComment (JStr <$> rc) i = Ok rc) as ->.
  { destruct rc as [c |]; [| done]. cbn [fmap option_fmap option_map parseFirewallRuleComment].
    by rewrite stringMatching_id. }
  done.
Qed.

Lemma portList_reads l field :
  goodPorts (Some l) -> parseFirewallPortList (Some (portsJson l)) field = Ok l.
Proof.
  intros [Ha Hf]. unfold parseFirewallPortList, portsJson. cbn [asArray given mbind result_bind].
  match goal with |- context [refuse ?m] => generalize m; intros msg end.
  assert (mapM (fun entry => given (portNumber entry) (refuse msg))
            (map (fun n => JNum (num_of_Z (Z.of_N n))) l) = Ok l) as ->.
  { clear Ha. induction Hf as [| n l Hn _ IH]; [done |]. cbn [map mapM].
    assert (portNumber (JNum (num_of_Z (Z.of_N n))) = Some n) as ->.
    { unfold portNumber, asInteger. cbn [asNumber mbind option_bind].
      rewrite num_of_Z_exact by lia. cbn [mbind option_bind].
      rewrite (proj2 (Z.leb_le 1 _)), (proj2 (Z.leb_le _ 65535)) by lia. cbn. by rewrite N2Z.id. }
    cbn [given mbind result_bind]. rewrite IH. done. }
  cbn [mbind result_bind]. by rewrite Ha.
Qed.

(** The payload in its normal form reads as itself. *)
Lemma payload_reads p :
  goodPayload p -> (generation p < 2 ^ 53)%Z -> parseFirewallReconcilePayload (Some (payloadJson p)) = Ok p.
Proof.
  intros [Hg (Hl & Hr & Hn) Hc Hs] Hb. destruct p as [g m d v6 rs cp ssh]. cbn in Hg, Hl, Hr, Hn, Hc, Hs, Hb.
  destruct (payload_members (JNum (num_of_Z g)) (JStr (modeName m))
    (JObj [("inputDefault" : jstring, JStr (if d then "drop" else "accept" : jstring));
           ("ipv6" : jstring, JStr (if v6 then "mirror" else "skip" : jstring))])
    (JArr (map ruleJson rs)) ((fun l => JObj [("tcpPorts" : jstring, portsJson l)]) <$> cp)
    (portsJson <$> ssh)) as (G1 & G2 & G3 & G4 & G5 & G6).
  match type of G1 with getEntry ?o _ = _ =>
    change (payloadJson _) with (JObj o); generalize dependent o end.
  intros o G1 G2 G3 G4 G5 G6. unfold parseFirewallReconcilePayload. cbn [asRecord given mbind result_bind].
  rewrite G1, G2, G3, G4, G5, G6. unfold asInteger. cbn [asNumber mbind option_bind].
  rewrite num_of_Z_exact by lia. cbn [given mbind result_bind option_bind].
  rewrite (proj2 (Z.leb_le 0 g)) by done. cbn [require mbind result_bind].
  assert (oneOf FIREWALL_MODES (Some (JStr (modeName m))) = Some m) as -> by (by destruct m).
  cbn [given mbind result_bind].
  assert (parseFirewallPolicy (Some (JObj [("inputDefault" : jstring, JStr (if d then "drop" else "accept" : jstring));
           ("ipv6" : jstring, JStr (if v6 then "mirror" else "skip" : jstring))])) = Ok (d, v6)) as ->
    by (by destruct d, v6).
  cbn [mbind result_bind].
  assert (parseFirewallRules (Some (JArr (map ruleJson rs))) = Ok rs) as ->.
  { unfold parseFirewallRules, FIREWALL_MAX_RULES. cbn [asArray given mbind result_bind].
    rewrite length_map, (proj2 (N.leb_le _ _)) by lia. cbn [require mbind result_bind].
    rewrite parseEach_map.
    2: { intros r k Hin. apply rule_reads. rewrite Forall_forall in Hr. auto. }
    cbn [mbind result_bind]. assert (firstRepeat [] (map id rs) = None) as ->; [| done].
    apply firstRepeat_None. split; [done |]. apply Forall_forall. intros; apply not_elem_of_nil. }
  cbn [mbind result_bind]. destruct cp as [l |]; cbn [fmap option_fmap option_map asRecord given mbind result_bind].
  - assert (getEntry [("tcpPorts" : jstring, portsJson l)] "tcpPorts" = Some (portsJson l)) as -> by done.
    rewrite portList_reads by done. cbn [mbind result_bind fmap result_fmap].
    destruct ssh as [l' |]; cbn [fmap option_fmap option_map]; [rewrite portList_reads by done |]; done.
  - destruct ssh as [l' |]; cbn [fmap option_fmap option_map]; [rewrite portList_reads by done |]; done.
Qed.

(** C39. Reading a firewall payload gives it its normal form: what the parser
    returns for any accepted value has unique rule ids, every address as [any]
    or a CIDR that parses, every port text a range within 1-65535 in its one
    spelling, ports on every accept, at most 1024 rules of 1 to 256 sources;
    and the returned payload, written as JSON, reads as itself (the generation
    being a safe integer). *)
Theorem payload_normal_form v p :
  parseFirewallReconcilePayload v = Ok p ->
  goodPayload p /\
  ((generation p < 2 ^ 53)%Z -> parseFirewallReconcilePayload (Some (payloadJson p)) = Ok p).
Proof. intros H%payload_good. split; [done | by apply payload_reads]. Qed.

Lemma payload_normal_form_witness :
  goodPayload (payload sampleInput) /\
  parseFirewallReconcilePayload (Some (payloadJson (payload sampleInput))) = Ok (payload sampleInput).
Proof.
  destruct (payload_normal_form (Some (payloadJson (payload sampleInput))) (payload sampleInput)) as [Hg Hr].
  - by vm_compute.
  - split; [exact Hg |]. by apply Hr.
Defined.

(** ** An accepted payload renders *)

Lemma portsOf_good r : goodRule r -> exists range, portsOf r = Ok range.
Proof.
  intros [_ _ Hp _ _]. unfold portsOf. destruct (ports r) as [[| c t] |]; [eauto | | eauto].
  destruct Hp as [_ (range & Hr & Et)]. rewrite Et, parse_normalRange by done. eauto.
Qed.

Lemma mapM_total {B C} (f : B -> fallible C) l :
  (forall x, x ∈ l -> exists y, f x = Ok y) -> exists ys, mapM f l = Ok ys.
Proof.
  induction l as [| x l IH]; intros H; cbn [mapM]; [by eexists |].
  destruct (H x) as [y ->]; [set_solver |]. cbn [mbind result_bind].
  destruct IH as [ys ->]; [set_solver |]. by eexists.
Qed.

Lemma renderHostRule_total r family : goodRule r -> exists ls, renderHostRule r family = Ok ls.
Proof.
  intros [range Hr]%portsOf_good. apply mapM_total. intros [dest source] _. unfold hostPortArgs.
  rewrite Hr. cbn. eauto.
Qed.
Lemma forwardLine_total r source dest jump : goodRule r -> exists l, forwardLine r source dest jump = Ok l.
Proof.
  intros [range Hr]%portsOf_good. unfold forwardLine, publishedMatchArgs. rewrite Hr. cbn. eauto.
Qed.
Lemma renderPublishedRule_total r family : goodRule r -> exists ls, renderPublishedRule r family = Ok ls.
Proof.
  intros Hr. unfold renderPublishedRule. case_match; [case_match; [eauto |] | ..]; apply mapM_total.
  - intros [[dest source] jump] _. by apply forwardLine_total.
  - intros [dest source] _. by apply forwardLine_total.
  - intros [dest source] _. by apply forwardLine_total.
Qed.
Lemma renderEach_total render rs rendered :
  (forall r, r ∈ rs -> exists ls, render r = Ok ls) -> exists out, renderEach render rs rendered = Ok out.
Proof.
  revert rendered. induction rs as [| r rs IH]; intros rendered H; cbn [renderEach]; [eauto |].
  destruct (H r) as [ls ->]; [set_solver |]. cbn [mbind result_bind].
  match goal with |- context [renderEach render rs ?x] => destruct (IH x) as [[rest all] ->]; [set_solver |] end.
  cbn. eauto.
Qed.
Lemma orderedRules_elem r rs : r ∈ orderedRules rs -> r ∈ rs.
Proof.
  unfold orderedRules. rewrite elem_of_app. intros [H | H]; by apply list_elem_of_filter in H as [_ ?].
Qed.
Lemma renderFamily_total input family guaranteed rendered :
  Forall goodRule (rules (payload input)) ->
  exists out, renderFamily input family guaranteed rendered = Ok out.
Proof.
  intros Hg. rewrite Forall_forall in Hg. unfold renderFamily.
  edestruct (renderEach_total (fun r => renderHostRule r family)) as [[h1 r1] ->].
  { intros r [_ Hr]%orderedRules_elem%list_elem_of_filter. apply renderHostRule_total, Hg, Hr. }
  cbn [mbind result_bind]. case_match; [| cbn; eauto].
  edestruct (renderEach_total (fun r => renderPublishedRule r family)) as [[h2 r2] ->].
  { intros r [_ Hr]%orderedRules_elem%list_elem_of_filter. apply renderPublishedRule_total, Hg, Hr. }
  cbn. eauto.
Qed.

Lemma good_payload_renders `{Crypto} input :
  Forall goodRule (rules (payload input)) -> exists out, renderFirewall input = Ok out.
Proof.
  intros Hg. unfold renderFirewall.
  match goal with |- context [renderFamily input V4 ?g ?r] =>
    destruct (renderFamily_total input V4 g r Hg) as [[d4 r4] ->] end. cbn [mbind result_bind].
  destruct (mirrorsIpv6 (payload input)); [| by eexists].
  match goal with |- context [renderFamily input V6 ?g ?r] =>
    destruct (renderFamily_total input V6 g r Hg) as [[d6 r6] ->] end. by eexists.
Qed.

(** C40. The renderer never throws on a payload the parser accepted, whatever
    sshd ports the host reports and whichever families have Docker's chain. *)
Theorem accepted_payload_renders `{Crypto} v p ssh forward :
  parseFirewallReconcilePayload v = Ok p ->
  exists out, renderFirewall {| payload := p; inputSshPorts := ssh; includeForward := forward |} = Ok out.
Proof. intros Hp%payload_good. apply good_payload_renders. by apply Hp. Qed.

Lemma accepted_payload_renders_witness :
  exists out, @renderFirewall toyCrypto {| payload := payload sampleInput; inputSshPorts := [];
                                           includeForward := fun _ => false |} = Ok out.
Proof.
  apply (accepted_payload_renders (Some (payloadJson (payload sampleInput)))). by vm_compute.
Defined.
