(* ===== verification/FwGuard.v ===== *)
(** * The root guard's check of a document ([orchestration/scripts/tp-firewall-guard])

    At boot and on a rollback the guard loads the durable document, but only
    after its own check ([tp_validate_document], an awk program over lines).
    What the renderer writes for an accepted payload passes that check unless
    a rule's comment holds a word the check takes for a jump. *)

From S2P Require Import Prelude Regex Text Json Number GateHttp GateApproval CtParse CtNet FwRender FwContract.

#[local] Open Scope N_scope.

(** [split($0, parts, " ")]: runs of blanks separate. *)
Definition awkWords (s : jstring) : list jstring := filter (fun w => w <> []) (split 32 s).

(** The script's [safe]: letters, digits, blanks and [- . _ : , / +], and the quote. *)
Definition safeChar (c : N) : bool :=
  is_alnum c || existsb (N.eqb c) [45; 32; 46; 95; 58; 44; 47; 43; 34].

Definition FOREIGN_JUMPS : list jstring := ["-g"; "--goto"; "--jump"].
Definition GUARD_TARGETS : list jstring := ["ACCEPT"; "DROP"; "REJECT"; "RETURN"; "TP-INPUT"; "TP-FWD"].

(** The loop over the words of a rule line; past the end a word is empty. *)
Fixpoint wordsAllowed (ws : list jstring) : bool :=
  match ws with
  | [] => true
  | w :: ws' =>
      negb (memb w FOREIGN_JUMPS) &&
      (if decide (w = "-j") then memb (default [] (head ws')) GUARD_TARGETS else true) &&
      wordsAllowed ws'
  end.

Definition lineAllowed (line : jstring) : bool :=
  if forallb (fun c => (c =? 32) || (c =? 9)) line then true
  else if startsWith "#" line then true
  else if memb line ["*filter"; "COMMIT"; ":TP-INPUT - [0:0]"; ":TP-FWD - [0:0]"] then true
  else if startsWith "-A TP-INPUT " line || startsWith "-A TP-FWD " line then
    forallb safeChar line && wordsAllowed (awkWords line)
  else false.

(** The records of a text: its lines, a last line feed ending the last. *)
Definition records (text : jstring) : list jstring :=
  let lines := split 10 text in
  match last lines with Some [] => take (length lines - 1) lines | _ => lines end.

Definition tp_validate_document (text : jstring) : bool := forallb lineAllowed (records text).

(** ** Words *)

Definition JUMP_WORDS : list jstring := "-j" :: FOREIGN_JUMPS.
(** No word the check acts on. *)
Definition quiet (s : jstring) : Prop := Forall (fun w => w ∉ JUMP_WORDS) (awkWords s).
Definition safe (s : jstring) : Prop := Forall (fun c => safeChar c = true) s.

Lemma words_app a b : awkWords (a ++ 32 :: b) = awkWords a ++ awkWords b.
Proof.
  unfold awkWords. assert (split 32 (a ++ 32 :: b) = split 32 a ++ split 32 b) as ->.
  { induction a as [| c a IH]; [done |]. cbn [app split]. rewrite IH.
    destruct (N.eqb_spec c 32); [done |]. destruct (split_cons_inv 32 a) as (w & ws & ->). done. }
  by rewrite filter_app.
Qed.
Lemma words_join parts : parts <> [] -> awkWords (join [32] parts) = parts ≫= awkWords.
Proof.
  induction parts as [| p [| q parts] IH]; [done | |]; intros _.
  - cbn. by rewrite app_nil_r.
  - change (join [32] (p :: q :: parts)) with (p ++ 32 :: join [32] (q :: parts)).
    rewrite words_app, IH by done. done.
Qed.

Lemma words_elem w s : w ∈ awkWords s -> w <> [] /\ forall c, c ∈ w -> c ∈ s.
Proof.
  unfold awkWords. intros [Hne Hw]%list_elem_of_filter. split; [done |]. intros c Hc.
  rewrite <- (join_split 32 s). clear Hne. induction (split 32 s) as [| v vs IH]; [set_solver |].
  apply elem_of_cons in Hw as [<- | Hw]; destruct vs as [| u vs]; cbn in *; set_solver.
Qed.

(** A text none of whose words can begin with a hyphen. *)
Lemma quiet_no_hyphen s : 45 ∉ s -> quiet s.
Proof.
  intros Hn. apply Forall_forall. intros w [_ Hc]%words_elem Hj.
  assert (45 ∈ w) as Hin; [| by apply Hn, Hc].
  revert Hj. unfold JUMP_WORDS, FOREIGN_JUMPS. rewrite !elem_of_cons, elem_of_nil.
  intros [-> | [-> | [-> | [-> | []]]]]; apply (bool_decide_unpack _); by vm_compute.
Qed.
(** A single word that is not one of them. *)
Lemma quiet_word s : 32 ∉ s -> s ∉ JUMP_WORDS -> quiet s.
Proof.
  intros Hn Hj. unfold quiet, awkWords. rewrite split_word by done. cbn. case_decide; by repeat constructor.
Qed.
Lemma quiet_app a b : quiet a -> quiet b -> quiet (a ++ 32 :: b).
Proof. unfold quiet. rewrite words_app. by intros; apply Forall_app. Qed.
Lemma quiet_join parts : Forall quiet parts -> parts <> [] -> quiet (join [32] parts).
Proof.
  intros Hq Hne. unfold quiet. rewrite words_join by done. apply Forall_forall. intros w (p & Hw & Hp)%list_elem_of_bind.
  rewrite Forall_forall in Hq. specialize (Hq p Hp). unfold quiet in Hq. rewrite Forall_forall in Hq. auto.
Qed.

Lemma quiet_dec s : bool_decide (Forall (fun w => w ∉ JUMP_WORDS) (awkWords s)) = true -> quiet s.
Proof. by intros ?%bool_decide_eq_true. Qed.
Lemma safe_dec s : forallb safeChar s = true -> safe s.
Proof. intros H. apply Forall_forall. intros c Hc. rewrite forallb_forall in H. by apply H, list_elem_of_In. Qed.
Lemma safe_app a b : safe (a ++ b) <-> safe a /\ safe b.
Proof. apply Forall_app. Qed.

(** Quiet words, then a jump to a target of the guard's, then quiet words. *)
Lemma wordsAllowed_jump ws target rest :
  Forall (fun w => w ∉ JUMP_WORDS) ws -> target ∈ GUARD_TARGETS -> Forall (fun w => w ∉ JUMP_WORDS) rest ->
  wordsAllowed (ws ++ ("-j" : jstring) :: target :: rest) = true.
Proof.
  intros Hws Ht Hr.
  assert (forall l tail, Forall (fun w => w ∉ JUMP_WORDS) l -> wordsAllowed tail = true ->
    wordsAllowed (l ++ tail) = true) as Happ.
  { intros l tail Hl Htail. induction Hl as [| w l Hw _ IH]; [done |]. cbn [app wordsAllowed].
    unfold JUMP_WORDS in Hw. apply not_elem_of_cons in Hw as [Hj Hf].
    rewrite decide_False by done. rewrite (proj2 (memb_false _ _) Hf), IH. done. }
  apply Happ; [done |]. cbn [wordsAllowed head default].
  assert (memb ("-j" : jstring) FOREIGN_JUMPS = false) as -> by done. rewrite decide_True by done.
  rewrite (proj2 (memb_true _ _) Ht). cbn [negb andb].
  assert (target ∉ JUMP_WORDS) as Htj.
  { revert Ht. unfold GUARD_TARGETS. rewrite !elem_of_cons, elem_of_nil.
    intros [-> | [-> | [-> | [-> | [-> | [-> | []]]]]]]; apply (bool_decide_unpack _); by vm_compute. }
  change (wordsAllowed ([target] ++ rest) = true). apply Happ; [by apply Forall_singleton |].
  rewrite <- (app_nil_r rest). by apply Happ.
Qed.

(** ** The rule lines *)

Definition fine (s : jstring) : Prop := safe s /\ quiet s.

Lemma fine_app a b : fine a -> fine b -> fine (a ++ 32 :: b).
Proof.
  intros [Sa Qa] [Sb Qb]. split; [| by apply quiet_app]. apply safe_app. split; [done |]. by constructor.
Qed.
Lemma fine_join parts : Forall fine parts -> parts <> [] -> fine (join [32] parts).
Proof.
  intros Hf Hne. split.
  - apply forall_join; [by repeat constructor |]. eapply Forall_impl; [exact Hf |]. by intros p [? _].
  - apply quiet_join; [| done]. eapply Forall_impl; [exact Hf |]. by intros p [_ ?].
Qed.
Lemma fine_class (f : N -> bool) s :
  Forall (fun c => f c = true) s -> (forall c, f c = true -> safeChar c = true /\ c <> 45) -> fine s.
Proof.
  intros Hs Hf. split.
  - eapply Forall_impl; [exact Hs |]. intros c Hc. by apply Hf.
  - apply quiet_no_hyphen. intros Hin. rewrite Forall_forall in Hs. by destruct (Hf _ (Hs _ Hin)).
Qed.
Lemma fine_dec s :
  forallb safeChar s && bool_decide (Forall (fun w => w ∉ JUMP_WORDS) (awkWords s)) = true -> fine s.
Proof. intros [H1 H2]%andb_true_iff. split; [by apply safe_dec | by apply quiet_dec]. Qed.

(** A target, perhaps with options of its own. *)
Definition fineJump (j : jstring) : Prop :=
  safe j /\ exists target rest, awkWords j = target :: rest /\ target ∈ GUARD_TARGETS /\
    Forall (fun w => w ∉ JUMP_WORDS) rest.

Record fineRule (r : irule) : Prop := FineRule {
  fine_chain : ichain r ∈ [FIREWALL_INPUT_CHAIN; FIREWALL_FORWARD_CHAIN];
  fine_matches : Forall (fun a => fine (argText a)) (imatch r);
  fine_comment : fine (icomment r);
  fine_target : fineJump (ijump r)
}.

Lemma join_cons sep p ps : ps <> [] -> join sep (p :: ps) = p ++ sep ++ join sep ps.
Proof. by destruct ps. Qed.
Lemma join_snoc2 sep ps p : ps <> [] -> join sep (ps ++ [p]) = join sep ps ++ sep ++ p.
Proof.
  induction ps as [| q [| r ps] IH]; [done | done |]; intros _.
  change ((q :: r :: ps) ++ [p]) with (q :: ((r :: ps) ++ [p])). rewrite join_cons by done.
  rewrite IH, (join_cons sep q (r :: ps)) by done. by rewrite <- !app_assoc.
Qed.

Lemma line_allowed r : fineRule r -> safe (lineText r) /\ lineAllowed (lineText r) = true.
Proof.
  intros [Hc Hm Hco [Hjs (target & rest & Hj & Ht & Hr)]]. unfold lineText.
  set (body := map argText (imatch r) ++ [icomment r]).
  replace (appendTo (ichain r) :: map argText (imatch r) ++ [icomment r; ("-j " : jstring) ++ ijump r])
    with ((appendTo (ichain r) :: body) ++ [("-j " : jstring) ++ ijump r]) by (unfold body; cbn; by rewrite <- app_assoc).
  assert (Forall fine (appendTo (ichain r) :: body)) as Hf.
  { constructor; [| apply Forall_app; split].
    - rewrite !elem_of_cons, elem_of_nil in Hc. destruct Hc as [-> | [-> | []]]; apply fine_dec; by vm_compute.
    - by apply Forall_map.
    - by apply Forall_singleton. }
  assert (body <> []) as Hb by (unfold body; by destruct (map argText (imatch r))).
  change (join " " ) with (join [32]). set (line := join [32] _).
  assert (startsWith "-A TP-INPUT " line || startsWith "-A TP-FWD " line = true) as Hs.
  { subst line. rewrite join_snoc2, join_cons by done.
    rewrite !elem_of_cons, elem_of_nil in Hc. destruct Hc as [-> | [-> | []]]; done. }
  assert (safe line /\ wordsAllowed (awkWords line) = true) as [Hsafe Hw].
  { subst line. rewrite join_snoc2 by done. apply fine_join in Hf as [Hfs Hfq]; [| done]. split.
    - apply safe_app. split; [done |]. repeat (apply Forall_cons; split; [done |]). done.
    - change ([32] ++ ("-j " : jstring) ++ ijump r) with (32 :: ("-j " : jstring) ++ ijump r).
      rewrite words_app. change (awkWords (("-j " : jstring) ++ ijump r)) with (awkWords (("-j" : jstring) ++ 32 :: ijump r)).
      rewrite words_app, Hj. change (awkWords ("-j" : jstring)) with [("-j" : jstring)]. by apply wordsAllowed_jump. }
  split; [done |]. unfold lineAllowed. rewrite Hs, Hw, andb_true_r.
  assert (forallb safeChar line = true) as ->; [| by repeat case_match].
  apply forallb_forall. intros c Hc'. unfold safe in Hsafe. rewrite Forall_forall in Hsafe. by apply Hsafe, list_elem_of_In.
Qed.

(** *** The parts of a rule *)

Definition is_number_char (c : N) : bool := is_digit c || (c =? 58).
Definition is_cidr_char (c : N) : bool := is_ip_char c || (c =? 47).

Lemma class_safe (f : N -> bool) :
  forallb (fun n => implb (f (N.of_nat n)) (safeChar (N.of_nat n) && negb (N.of_nat n =? 45))) (seq 0 128) = true ->
  (forall c, f c = true -> c < 128) -> forall c, f c = true -> safeChar c = true /\ c <> 45.
Proof.
  intros Hp Hr c Hc. rewrite forallb_forall in Hp. specialize (Hp (N.to_nat c)).
  rewrite N2Nat.id, Hc in Hp. cbn [implb] in Hp.
  assert (In (N.to_nat c) (seq 0 128)) as Hin. { apply in_seq. specialize (Hr _ Hc). lia. }
  specialize (Hp Hin). by bools.
Qed.

Lemma fine_digits s : Forall (fun c => is_digit c = true) s -> fine s.
Proof.
  intros H. eapply fine_class; [exact H |]. apply class_safe; [by vm_compute |].
  intros c Hc. unit_cases Hc. lia.
Qed.
Lemma fine_decimal n : fine (decimalText n).
Proof. apply fine_digits. by destruct (decimalText_spec n) as ((_ & Hf)%digitsOnly_iff & _). Qed.
Lemma fine_range range : fine (rangeText range).
Proof.
  assert (forall n, Forall (fun c => is_number_char c = true) (decimalText n)) as Hd.
  { intros n. destruct (decimalText_spec n) as ((_ & Hf)%digitsOnly_iff & _).
    eapply Forall_impl; [exact Hf |]. intros c Hc. unfold is_number_char. by rewrite Hc. }
  unfold rangeText. case_match; [apply fine_decimal |].
  apply (fine_class is_number_char).
  - apply Forall_app. split; [apply Hd |]. constructor; [done | apply Hd].
  - apply class_safe; [by vm_compute |]. intros c Hc. unfold is_number_char in Hc. unit_cases Hc. lia.
Qed.
Lemma fine_address s : goodAddress s -> fine s.
Proof.
  intros [-> | (a & p & -> & (Hv & Hd & _))]; [apply fine_dec; by vm_compute |].
  apply (fine_class is_cidr_char).
  - apply Forall_app. split.
    + apply literal_chars in Hv as [Hf _]. eapply Forall_impl; [exact Hf |]. intros c Hc.
      unfold is_cidr_char. by rewrite Hc.
    + constructor; [done |]. apply digitsOnly_iff in Hd as [_ Hf]. eapply Forall_impl; [exact Hf |].
      intros c Hc. unfold is_cidr_char, is_ip_char, is_hex. by rewrite Hc.
  - apply class_safe; [by vm_compute |]. intros c Hc. unfold is_cidr_char, is_ip_char in Hc. unit_cases Hc. lia.
Qed.

(** A closing quote makes no new jump word. *)
Lemma quiet_quote s : quiet s -> quiet (s ++ [34]).
Proof.
  assert (exists ws w, split 32 s = ws ++ [w] /\ split 32 (s ++ [34]) = ws ++ [w ++ [34]]) as (ws & w & E1 & E2).
  { induction s as [| c s IH]; [by exists [], [] |]. destruct IH as (ws & w & E1 & E2). cbn [app split].
    rewrite E1, E2. destruct (N.eqb_spec c 32) as [-> |]; [by exists ([] :: ws), w |].
    destruct ws as [| v ws]; [by exists [], (c :: w) | by exists ((c :: v) :: ws), w]. }
  unfold quiet, awkWords. rewrite E1, E2, !filter_app, !Forall_app. intros [H1 H2]. split; [done |].
  cbn. rewrite decide_True by (by destruct w). constructor; [| constructor].
  unfold JUMP_WORDS, FOREIGN_JUMPS. rewrite !elem_of_cons, elem_of_nil. intros Hw.
  assert (last (w ++ [34]) = Some 34) as Hl by apply last_snoc.
  destruct Hw as [E | [E | [E | [E | []]]]]; rewrite E in Hl; vm_compute in Hl; done.
Qed.

Definition is_id_char (c : N) : bool := is_alnum c || existsb (N.eqb c) [95; 46; 58; 45].
Lemma alnum_small c : is_alnum c = true -> c < 128.
Proof. intros Hc. unit_cases Hc. lia. Qed.
Lemma id_chars s : lang FIREWALL_RULE_ID_RE s -> safe s /\ 32 ∉ s.
Proof.
  intros [_ Hf]%lang_between_set_iff. rewrite Forall_forall in Hf. split.
  - apply Forall_forall. intros c Hc. specialize (Hf c Hc). unfold safeChar. apply orb_true_iff in Hf as [-> | Hf]; [done |].
    cbn [existsb] in Hf |- *. rewrite !orb_true_iff in Hf. rewrite !orb_true_iff. tauto.
  - intros Hin. by specialize (Hf _ Hin).
Qed.
Lemma comment_chars s : lang FIREWALL_COMMENT_RE s -> safe s.
Proof.
  intros [_ Hf]%lang_between_set_iff. eapply Forall_impl; [exact Hf |]. intros c Hc.
  unfold safeChar, is_comment_char in *. apply orb_true_iff in Hc as [-> | Hc]; [done |].
  cbn [existsb] in Hc |- *. rewrite !orb_true_iff in Hc. rewrite !orb_true_iff. tauto.
Qed.

Lemma quoted_word s : safe s -> 32 ∉ s -> fine (34 :: s).
Proof.
  intros Hs Hn. split; [by constructor |]. apply quiet_word; [set_solver |].
  unfold JUMP_WORDS, FOREIGN_JUMPS. rewrite !elem_of_cons, elem_of_nil.
  intros [E | [E | [E | [E | []]]]]; apply (f_equal head) in E; vm_compute in E; done.
Qed.

Lemma fine_commentFor r :
  goodRule r -> match comment r with Some c => quiet c | None => True end -> fine (commentFor r).
Proof.
  intros [Hid _ _ _ Hc] Hq. unfold commentFor.
  set (tag := ("tp:" : jstring) ++ originName (origin r) ++ (":" : jstring) ++ id r).
  assert (safe tag /\ 32 ∉ tag) as [Hs Hn].
  { apply id_chars in Hid as [Hs Hn]. unfold tag. split.
    - repeat (apply safe_app; split); [by apply safe_dec | destruct (origin r); by apply safe_dec | by apply safe_dec | done].
    - rewrite !not_elem_of_app. split_and!; [| destruct (origin r) | |]; try done;
        apply (bool_decide_unpack _); by vm_compute. }
  assert (fine ("-m comment --comment" : jstring)) as Hpre by (apply fine_dec; by vm_compute).
  change (COMMENT ++ ?x) with (("-m comment --comment" : jstring) ++ 32 :: x). apply fine_app; [done |].
  unfold inQuotes. destruct (comment r) as [[| c cs] |].
  - replace (_ ++ [34]) with (tag ++ [34]) by (unfold tag; by rewrite <- ?app_assoc).
    apply quoted_word; [apply safe_app; split; [done | by apply safe_dec] | set_solver].
  - replace (34 :: _ ++ [34]) with ((34 :: tag) ++ 32 :: ((c :: cs) ++ [34])).
    2: { unfold tag. cbn [app]. rewrite <- ?app_assoc. done. }
    apply fine_app; [by apply quoted_word |]. split; [| by apply quiet_quote].
    apply safe_app. split; [by apply comment_chars | by apply safe_dec].
  - replace (_ ++ [34]) with (tag ++ [34]) by (unfold tag; by rewrite <- ?app_assoc).
    apply quoted_word; [apply safe_app; split; [done | by apply safe_dec] | set_solver].
Qed.

Lemma fineJump_dec j :
  forallb safeChar j && memb (default [] (head (awkWords j))) GUARD_TARGETS
  && bool_decide (Forall (fun w => w ∉ JUMP_WORDS) (tail (awkWords j))) = true -> fineJump j.
Proof.
  intros H. bools. split; [by apply safe_dec |].
  match goal with H : memb _ _ = true |- _ => apply memb_true in H; rename H into Ht end.
  destruct (awkWords j) as [| target rest].
  { exfalso. revert Ht. unfold GUARD_TARGETS. cbn. rewrite !elem_of_cons, elem_of_nil.
    intros [E | [E | [E | [E | [E | [E | []]]]]]]; vm_compute in E; done. }
  exists target, rest. split_and!; [done | exact Ht |].
  by match goal with H : Forall _ (tail _) |- _ => exact H end.
Qed.
Lemma fineJump_target r family : fineJump (targetFor r family).
Proof. unfold targetFor. destruct (action r), (proto r), family; apply fineJump_dec; by vm_compute. Qed.
Lemma fineJump_return : fineJump "RETURN". Proof. apply fineJump_dec. by vm_compute. Qed.
Lemma fineJump_drop : fineJump "DROP". Proof. apply fineJump_dec. by vm_compute. Qed.
Lemma fineJump_accept : fineJump "ACCEPT". Proof. apply fineJump_dec. by vm_compute. Qed.
#[local] Hint Resolve fineJump_target fineJump_return fineJump_drop fineJump_accept : fine.

(** An argument of a flag. *)
Lemma fine_flag flag s : fine flag -> fine s -> fine (flag ++ 32 :: s).
Proof. apply fine_app. Qed.

Definition goodArg (a : marg) : Prop :=
  match a with
  | MSrc l | MDst l => goodAddress l
  | MProto n => n ∈ (["tcp"; "udp"; "icmp"; "ipv6-icmp"] : list jstring)
  | MOrig r d => (r <> None \/ d <> None) /\ match d with Some l => goodAddress l | None => True end
  | MIface n => n ∈ ("lo" :: CONTAINER_INGRESS_INTERFACES : list jstring)
  | MSport _ | MDport _ | MEstablished => True
  end.

Lemma fine_arg a : goodArg a -> fine (argText a).
Proof.
  assert (forall (flag s : jstring), fine flag -> fine s -> fine (flag ++ (" " : jstring) ++ s)) as Hflag
    by (intros; by apply fine_app).
  destruct a as [l | l | n | n | r | r d | | n]; cbn [goodArg argText]; intros H.
  - apply (Hflag "-s" l); [by apply fine_dec; vm_compute | by apply fine_address].
  - apply (Hflag "-d" l); [by apply fine_dec; vm_compute | by apply fine_address].
  - rewrite !elem_of_cons, elem_of_nil in H. destruct H as [-> | [-> | [-> | [-> | []]]]]; apply fine_dec; by vm_compute.
  - apply (Hflag "--sport" (decimalText n)); [by apply fine_dec; vm_compute | apply fine_decimal].
  - apply (Hflag "--dport" (rangeText r)); [by apply fine_dec; vm_compute | apply fine_range].
  - destruct H as [Hne Hd]. apply (Hflag "-m conntrack" (join " " (origParts r d))); [by apply fine_dec; vm_compute |].
    apply fine_join; [| by destruct r, d, Hne]. unfold origParts. apply Forall_app. split.
    + destruct r as [r |]; [| constructor]. apply Forall_singleton.
      apply (Hflag "--ctorigdstport" (rangeText r)); [by apply fine_dec; vm_compute | apply fine_range].
    + destruct d as [d |]; [| constructor]. apply Forall_singleton.
      apply (Hflag "--ctorigdst" d); [by apply fine_dec; vm_compute | by apply fine_address].
  - apply fine_dec; by vm_compute.
  - unfold CONTAINER_INGRESS_INTERFACES in H. rewrite !elem_of_cons, elem_of_nil in H.
    destruct H as [-> | [-> | [-> | [-> | []]]]]; apply fine_dec; by vm_compute.
Qed.

Lemma fine_system label : safe label -> 32 ∉ label -> fine (systemComment label).
Proof.
  intros Hs Hn. unfold systemComment, inQuotes.
  change (COMMENT ++ ?x) with (("-m comment --comment" : jstring) ++ 32 :: x).
  apply fine_app; [apply fine_dec; by vm_compute |]. apply quoted_word.
  - apply safe_app. split; [| by apply safe_dec]. apply safe_app. split; [by apply safe_dec | done].
  - rewrite !not_elem_of_app. split_and!; [apply (bool_decide_unpack _); by vm_compute | done | set_solver].
Qed.

(** ** The document *)

Section Payload.
Context (pl : FirewallReconcilePayload).
Context (Hgood : Forall goodRule (rules pl)).
Context (Hquiet : Forall (fun r => match comment r with Some c => quiet c | None => True end) (rules pl)).

Lemma sources_good r family : goodRule r ->
  Forall (fun o => match o with Some l => goodAddress l | None => True end) (sourcesFor r family).
Proof.
  intros [_ (_ & _ & _ & Hf) _ _ _]. unfold sourcesFor. case_match; [by repeat constructor |].
  apply Forall_map, Forall_forall. intros l [_ Hl]%list_elem_of_filter. rewrite Forall_forall in Hf. auto.
Qed.
Lemma destinations_good r family : goodRule r ->
  Forall (fun o => match o with Some l => goodAddress l | None => True end) (destinationsFor r family).
Proof.
  intros [_ _ _ Hd _]. unfold destinationsFor. destruct (destinations r) as [[| d ds] |]; [by repeat constructor | | by repeat constructor].
  destruct Hd as [(_ & _ & _ & Hf) _].
  apply Forall_map, Forall_forall. intros l [_ Hl]%list_elem_of_filter. rewrite Forall_forall in Hf. auto.
Qed.

Lemma scoped_rule r s : r ∈ scoped pl s ->
  goodRule r /\ match comment r with Some c => quiet c | None => True end.
Proof.
  intros [_ Hr]%orderedRules_elem%list_elem_of_filter. rewrite Forall_forall in Hgood, Hquiet.
  split; [by apply Hgood | exact (Hquiet r Hr)].
Qed.

Lemma protoMatch_good r : Forall goodArg (protoMatch r).
Proof. unfold protoMatch. destruct (proto r); repeat constructor; cbn; set_solver. Qed.

Lemma optMatch_good {B} (f : B -> marg) o :
  match o with Some b => goodArg (f b) | None => True end -> Forall goodArg (optMatch f o).
Proof. destruct o; intros; [by apply Forall_singleton | constructor]. Qed.

Lemma hostRules_fine r family : r ∈ scoped pl HostScope -> Forall fineRule (hostRules r family).
Proof.
  intros Hin. apply scoped_rule in Hin as [Hg Hq]. unfold hostRules. apply Forall_forall.
  intros x (dest & Hx & Hd)%list_elem_of_bind. apply list_elem_of_fmap in Hx as (source & -> & Hs).
  pose proof (sources_good r family Hg) as Hss. rewrite Forall_forall in Hss. specialize (Hss _ Hs).
  pose proof (destinations_good r family Hg) as Hds. rewrite Forall_forall in Hds. specialize (Hds _ Hd).
  constructor; cbn; [set_solver | | by apply fine_commentFor | auto with fine].
  eapply Forall_impl; [| apply fine_arg]. rewrite !Forall_app. split_and!.
  - by apply optMatch_good.
  - by apply optMatch_good.
  - apply protoMatch_good.
  - apply optMatch_good. destruct (rangeOf r); exact I.
Qed.

Lemma forwardRule_fine r source dest jump :
  goodRule r -> match comment r with Some c => quiet c | None => True end ->
  match source with Some l => goodAddress l | None => True end ->
  match dest with Some l => goodAddress l | None => True end -> fineJump jump ->
  fineRule (forwardRule r source dest jump).
Proof.
  intros Hg Hq Hs Hd Hj. constructor; cbn; [set_solver | | by apply fine_commentFor | done].
  eapply Forall_impl; [| apply fine_arg]. rewrite !Forall_app. split_and!.
  - by apply optMatch_good.
  - apply protoMatch_good.
  - unfold origMatch. destruct (rangeOf r), dest; try apply Forall_singleton; cbn; auto.
Qed.

Lemma publishedRules_fine r family : r ∈ scoped pl PublishedScope -> Forall fineRule (publishedRules r family).
Proof.
  intros Hin. apply scoped_rule in Hin as [Hg Hq].
  pose proof (sources_good r family Hg) as Hss. rewrite Forall_forall in Hss.
  pose proof (destinations_good r family Hg) as Hds. rewrite Forall_forall in Hds.
  assert (forall dest jump, dest ∈ destinationsFor r family -> fineJump jump ->
    Forall fineRule (map (fun source => forwardRule r source dest jump) (sourcesFor r family))) as Hmap.
  { intros dest jump Hd Hj. apply Forall_map, Forall_forall. intros source Hs.
    apply forwardRule_fine; auto; [by apply Hss | by apply Hds]. }
  unfold publishedRules. destruct (action r); [destruct (memb _ _); [constructor |] | ..];
    apply Forall_forall; intros x (dest & Hx & Hd)%list_elem_of_bind; revert x Hx; apply Forall_forall;
    try (apply Hmap; auto with fine).
  apply Forall_app. split; [apply Hmap; auto with fine |]. apply Forall_singleton.
  apply forwardRule_fine; auto with fine. by apply Hds.
Qed.

Lemma inputChain_fine family guaranteed : Forall fineRule (inputChain pl family guaranteed).
Proof.
  assert (forall ms label, Forall goodArg ms -> safe label -> 32 ∉ label ->
    fineRule (IRule FIREWALL_INPUT_CHAIN ms (systemComment label) "ACCEPT")) as Hsys.
  { intros ms label Hm Hs Hn. constructor; cbn; [set_solver | | by apply fine_system | auto with fine].
    eapply Forall_impl; [exact Hm | apply fine_arg]. }
  assert (forall s, forallb safeChar s && negb (hasChar 32 s) = true -> safe s /\ 32 ∉ s) as Hlabel.
  { intros s [H1 H2]%andb_true_iff. split; [by apply safe_dec |]. apply hasChar_false. by apply negb_true_iff. }
  unfold inputChain. rewrite !Forall_app. split_and!.
  - unfold invariantRules. rewrite !Forall_app. split_and!.
    + repeat (apply Forall_cons; split; [apply Hsys; try (by apply Hlabel); repeat constructor; cbn; set_solver |]). constructor.
    + destruct family; repeat (apply Forall_cons; split; [apply Hsys; try (by apply Hlabel); repeat constructor; cbn; set_solver |]); constructor.
    + apply Forall_map, Forall_forall. intros n _. apply Hsys.
      * repeat constructor.
      * apply safe_app. split; [by apply safe_dec | apply fine_decimal].
      * rewrite not_elem_of_app. split; [apply (bool_decide_unpack _); by vm_compute | by apply decimalText_no].
  - apply Forall_forall. intros x (r & Hx & Hr)%list_elem_of_bind. revert x Hx. apply Forall_forall.
    by apply hostRules_fine.
  - case_match; [| constructor]. apply Forall_singleton.
    constructor; cbn; [set_solver | constructor | by apply fine_system; apply Hlabel | auto with fine].
Qed.

Lemma forwardChain_fine family : Forall fineRule (forwardChain pl family).
Proof.
  assert (forall ms label, Forall goodArg ms -> safe label -> 32 ∉ label ->
    fineRule (IRule FIREWALL_FORWARD_CHAIN ms (systemComment label) "RETURN")) as Hsys.
  { intros ms label Hm Hs Hn. constructor; cbn; [set_solver | | by apply fine_system | auto with fine].
    eapply Forall_impl; [exact Hm | apply fine_arg]. }
  assert (forall s, forallb safeChar s && negb (hasChar 32 s) = true -> safe s /\ 32 ∉ s) as Hlabel.
  { intros s [H1 H2]%andb_true_iff. split; [by apply safe_dec |]. apply hasChar_false. by apply negb_true_iff. }
  unfold forwardChain. constructor; [by apply Hsys; try (by apply Hlabel); repeat constructor |].
  apply Forall_app. split.
  - apply Forall_map, Forall_forall. intros i Hi. apply Hsys; try (by apply Hlabel).
    apply Forall_singleton. cbn [goodArg]. by right.
  - apply Forall_forall. intros x (r & Hx & Hr)%list_elem_of_bind. revert x Hx. apply Forall_forall.
    by apply publishedRules_fine.
Qed.
End Payload.

Lemma records_join lines :
  lines <> [] -> Forall (fun l => 10 ∉ l) lines -> records (join [10] lines ++ [10]) = lines.
Proof.
  intros Hne Hl. unfold records.
  assert (split 10 (join [10] lines ++ [10]) = lines ++ [[]]) as ->.
  { replace (join [10] lines ++ [10]) with (join [10] (lines ++ [[]])) by (by rewrite join_snoc2).
    apply split_join; [by destruct lines |].
    apply Forall_app. split; [done |]. apply Forall_singleton. set_solver. }
  rewrite last_snoc, length_app. cbn [length]. by rewrite Nat.add_sub, take_app_length.
Qed.

Lemma safe_no_break s : safe s -> 10 ∉ s.
Proof. intros Hs Hin. unfold safe in Hs. rewrite Forall_forall in Hs. by specialize (Hs _ Hin). Qed.

Lemma chain_lines chain : Forall fineRule chain ->
  Forall (fun l => 10 ∉ l /\ lineAllowed l = true) (map lineText chain).
Proof.
  intros Hc. apply Forall_map. eapply Forall_impl; [exact Hc |]. intros r [Hs Ha]%line_allowed.
  split; [by apply safe_no_break | done].
Qed.

Lemma spelled_passes doc input family guaranteed :
  Forall goodRule (rules (payload input)) ->
  Forall (fun r => match comment r with Some c => quiet c | None => True end) (rules (payload input)) ->
  spells doc input family guaranteed -> tp_validate_document doc = true.
Proof.
  intros Hg Hq ->. cbv zeta.
  match goal with |- context [join [10] ?ls] => set (lines := ls) end.
  assert (forall s : jstring, negb (hasChar 10 s) && lineAllowed s = true -> 10 ∉ s /\ lineAllowed s = true) as Hfix.
  { intros s H. bools. split; [by apply hasChar_false | done]. }
  assert (Forall (fun l => 10 ∉ l /\ lineAllowed l = true) lines) as Hl.
  { subst lines. rewrite !Forall_app. split_and!.
    - repeat constructor; by apply Hfix.
    - case_match; [| constructor]. apply Forall_singleton. by apply Hfix.
    - by apply chain_lines, inputChain_fine.
    - case_match; [| constructor]. by apply chain_lines, forwardChain_fine.
    - apply Forall_singleton. by apply Hfix. }
  unfold tp_validate_document. rewrite records_join; [| done |].
  - apply forallb_forall. intros l Hin%list_elem_of_In. rewrite Forall_forall in Hl. by apply Hl.
  - eapply Forall_impl; [exact Hl |]. by intros l [? _].
Qed.

(** What an accepted payload renders to passes the root guard's own check, in
    both families, provided no rule comment holds one of the words [-j], [-g],
    [--goto], [--jump]: so a confirmed ruleset is one the guard will load at
    boot and on a rollback. *)
Theorem rendered_document_passes_guard `{Crypto} v p ssh forward out :
  parseFirewallReconcilePayload v = Ok p ->
  Forall (fun r => match comment r with Some c => quiet c | None => True end) (rules p) ->
  renderFirewall {| payload := p; inputSshPorts := ssh; includeForward := forward |} = Ok out ->
  tp_validate_document (v4 out) = true /\
  (forall doc, v6 out = Some doc -> tp_validate_document doc = true).
Proof.
  intros Hp%payload_good Hq Hr. destruct (renderFirewall_spells _ _ Hr) as (H4 & H6 & _).
  assert (Forall goodRule (rules p)) as Hg by apply Hp.
  set (input := {| payload := p; inputSshPorts := ssh; includeForward := forward |}) in *.
  split; [exact (spelled_passes _ input _ _ Hg Hq H4) | intros doc Hd].
  exact (spelled_passes _ input _ _ Hg Hq (H6 doc Hd)).
Qed.

Lemma rendered_document_passes_guard_witness :
  exists out, @renderFirewall toyCrypto {| payload := payload sampleInput; inputSshPorts := [2222];
                                           includeForward := fun _ => true |} = Ok out /\
    tp_validate_document (v4 out) = true.
Proof.
  destruct (@renderFirewall toyCrypto {| payload := payload sampleInput; inputSshPorts := [2222];
    includeForward := fun _ => true |}) as [out | e] eqn:E; [| exfalso; vm_compute in E; discriminate E].
  exists out. split; [reflexivity |].
  refine (proj1 (rendered_document_passes_guard (Some (payloadJson (payload sampleInput))) (payload sampleInput)
    [2222] (fun _ => true) out _ _ _)).
  - by vm_compute.
  - apply Forall_cons. split; [exact I |]. apply Forall_singleton. apply quiet_dec. by vm_compute.
  - exact E.
Defined.

(** A comment with such a word: [FIREWALL_COMMENT_RE] lets it in. *)
Definition jumpyRule : FirewallRule := {|
  id := "r3"; scope := HostScope; action := ActDrop; proto := Tcp; ports := Some ("25" : jstring);
  sources := ["any"]; destinations := None; origin := OriginUser;
  comment := Some ("mail -j tmp" : jstring)
|}.
Definition jumpyPayload : FirewallReconcilePayload := {|
  generation := 8; mode := Managed; inputDropsByDefault := false; mirrorsIpv6 := false;
  rules := [jumpyRule]; controlPlane := None; payloadSshPorts := None
|}.

(** A rule comment the parser accepts makes the guard refuse the whole
    document: the ruleset loads and confirms, but at the next boot or rollback
    the guard finds the durable document invalid and leaves the host without
    TurboPanel's rules. *)
Theorem comment_word_fails_guard :
  exists out,
    parseFirewallReconcilePayload (Some (payloadJson jumpyPayload)) = Ok jumpyPayload /\
    @renderFirewall toyCrypto {| payload := jumpyPayload; inputSshPorts := [22];
                                 includeForward := fun _ => true |} = Ok out /\
    tp_validate_document (v4 out) = false.
Proof.
  eexists. split; [by vm_compute |]. split; [vm_compute; reflexivity |]. by vm_compute.
Qed.
