(* ===== verification/FwHost.v ===== *)
(** * The host the firewall module acts on ([firewall/run.ts], [permissions/daemon-files.ts])

    Firewall code changes a host in two ways: it starts programs ([iptables],
    [systemctl], ...) and it replaces a handful of files.  A [host] holds those
    files and the trace of what was done to it; how programs end and which
    file system calls fail are inputs, listed in the order they will happen.
    Operator log lines are left out. *)

From S2P Require Import Prelude Json GateHttp FwRender.

#[local] Open Scope N_scope.

(** ** Programs ([run.ts]) *)

Record FirewallRunResult := RunResult {
  success : bool; code : Z; stdout : jstring; stderr : jstring
}.

Definition saysAny (needles : list jstring) (text : jstring) : bool :=
  existsb (fun n => includes n text) needles.
Definition lowered (r : FirewallRunResult) : jstring := toLowerCase (stderr r ++ 32 :: stdout r).

Definition isPermissionDeniedText (r : FirewallRunResult) : bool :=
  saysAny ["permission denied"; "operation not permitted"; "access denied";
           "interactive authentication required"; "no hostkeys available"] (lowered r).
Definition isMissingRuleText (r : FirewallRunResult) : bool :=
  saysAny ["no such chain"; "no chain/target/match"; "does not exist"; "bad rule";
           "rule doesn't exist"; "can't find"] (lowered r).
Definition isMissingBinaryText (r : FirewallRunResult) : bool :=
  (code r =? 127)%Z && saysAny ["no such file"; "not found"; "spawn failed"] (lowered r).

Definition XTABLES_BINARIES : list jstring :=
  ["iptables"; "ip6tables"; "iptables-restore"; "ip6tables-restore"; "iptables-save";
   "ip6tables-save"].
Definition XTABLES_LOCK_WAIT_SECONDS : N := 5.

(** How a started program ends: its exit and its output, or the start fails. *)
Inductive program_end :=
| Exited (ok : bool) (exit : Z) (out err : jstring)
| SpawnFails (message : jstring).

Definition resultOf (e : program_end) : FirewallRunResult :=
  match e with
  | Exited ok c out err => RunResult ok c (trim out) (trim err)
  | SpawnFails m => RunResult false 127 [] (("spawn failed: " : jstring) ++ m)
  end.

(** ** [sudo] ([permissions/host-sudo.ts]) *)

Definition HOST_PROGRAM_VERBS : list jstring :=
  ["install"; "mkdir"; "cp"; "mv"; "rm"; "ln"; "readlink"; "test"; "cat"; "cmp"; "ls"; "find";
   "chown"; "chmod"; "setfacl"; "tee"; "systemctl"; "journalctl"; "sshd"; "ss"; "sysctl";
   "iptables"; "ip6tables"; "iptables-restore"; "ip6tables-restore"; "iptables-save";
   "ip6tables-save"; "ip"; "wg"; "groupadd"; "groupmod"; "useradd"; "usermod"; "gpasswd";
   "chpasswd"; "getent"; "modprobe"].
Definition TP_HOST_ONLY_VERBS : list jstring :=
  ["sftp-chroot"; "sshd-config"; "principal-remove"; "build-run"; "build-return"; "php-test";
   "cert-dates"; "cert-export"; "site-usage"; "folder-list"; "site-caddy-mounts"; "publish-open";
   "publish"; "publish-keep"; "php-loopback-sync"; "app-env-install"; "app-env-remove";
   "tunnel-env-install"; "tunnel-env-remove"; "panel-identity-write"; "instance-cert-install";
   "instance-cert-prune"].
Definition TP_HOST_VERBS : list jstring := HOST_PROGRAM_VERBS ++ TP_HOST_ONLY_VERBS.

(** What the install says: [playbooksNeedRootHelper()], the mode, and where
    [tp-host] is. *)
Record sudo_setting := {
  needsRootHelper : bool;
  development : bool;
  tpHostPath : jstring;
  devTpHostPath : jstring
}.

Definition hostSudoArgs (s : sudo_setting) (args : list jstring) : list jstring :=
  match args with
  | n :: rest =>
      if decide (n <> "-n") then args
      else
        let words := match rest with
                     | dashes :: rest' => if decide (dashes = "--") then rest' else rest
                     | [] => rest
                     end in
        match words with
        | [] => args
        | verb :: _ =>
            if negb (memb verb TP_HOST_VERBS) then args
            else if needsRootHelper s then "-n" :: "--" :: tpHostPath s :: words
            else if development s && memb verb TP_HOST_ONLY_VERBS
            then "-n" :: "--" :: devTpHostPath s :: words
            else args
        end
  | [] => args
  end.

(** ** Files ([pending.ts] names them) *)

Inductive fpath := PendingMarker | PendingDoc (f : FirewallFamily) | DurableDoc (f : FirewallFamily)
  | RollbackRecord.
#[global] Instance fpath_eq_dec : EqDecision fpath.
Proof. solve_decision. Defined.

Record file_set := Files {
  markerFile : option jstring;
  pending4 : option jstring; pending6 : option jstring;
  durable4 : option jstring; durable6 : option jstring;
  rollbackFile : option jstring
}.

Definition fileAt (fs : file_set) (p : fpath) : option jstring :=
  match p with
  | PendingMarker => markerFile fs
  | PendingDoc V4 => pending4 fs
  | PendingDoc V6 => pending6 fs
  | DurableDoc V4 => durable4 fs
  | DurableDoc V6 => durable6 fs
  | RollbackRecord => rollbackFile fs
  end.
Definition setFile (p : fpath) (t : option jstring) (fs : file_set) : file_set :=
  let '(Files m p4 p6 d4 d6 r) := fs in
  match p with
  | PendingMarker => Files t p4 p6 d4 d6 r
  | PendingDoc V4 => Files m t p6 d4 d6 r
  | PendingDoc V6 => Files m p4 t d4 d6 r
  | DurableDoc V4 => Files m p4 p6 t d6 r
  | DurableDoc V6 => Files m p4 p6 d4 t r
  | RollbackRecord => Files m p4 p6 d4 d6 t
  end.

(** What can go wrong besides [NotFound], which is the file's absence. *)
Inductive os_error := PermissionDenied | NotCapable | OtherOs (message : jstring).
#[global] Instance os_error_eq_dec : EqDecision os_error.
Proof. solve_decision. Defined.

(** ** The host and its monad *)

Inductive event :=
| Spawned (argv : list jstring) (stdin : option jstring) (r : FirewallRunResult)
| Wrote (p : fpath) (text : jstring)
| Removed (p : fpath).

(** [faults]: how the coming file system calls end ([None]: they succeed), all
    well past the list; [answers]: how the coming programs end. *)
Record host := Host {
  files : file_set;
  faults : list (option os_error);
  answers : list program_end;
  sudo : sudo_setting;
  trace : list event
}.

Definition hostM (A : Type) : Type := host -> fallible A * host.
#[global] Instance hostM_ret : MRet hostM := fun A a h => (Ok a, h).
#[global] Instance hostM_bind : MBind hostM := fun A B k m h =>
  match m h with
  | (Ok a, h') => k a h'
  | (Throw e, h') => (Throw e, h')
  end.

Definition raise {A} (e : gate_error) : hostM A := fun h => (Throw e, h).
Definition lifted {A} (r : fallible A) : hostM A := fun h => (r, h).
(** [try { m } catch (err) { k(err) }]. *)
Definition catching {A} (m : hostM A) (k : gate_error -> hostM A) : hostM A := fun h =>
  match m h with
  | (Ok a, h') => (Ok a, h')
  | (Throw e, h') => k e h'
  end.

(** [forEachSequential] and [mapSequential]. *)
Fixpoint forEachSequential {A B} (step : A -> hostM B) (items : list A) : hostM unit :=
  match items with
  | [] => mret tt
  | x :: items' => '_ ← step x; forEachSequential step items'
  end.
Fixpoint mapSequential {A B} (step : A -> hostM B) (items : list A) : hostM (list B) :=
  match items with
  | [] => mret []
  | x :: items' => b ← step x; bs ← mapSequential step items'; mret (b :: bs)
  end.

(** ** Starting programs *)

Definition emit (e : event) : hostM unit := fun h =>
  (Ok tt, Host (files h) (faults h) (answers h) (sudo h) (trace h ++ [e])).

(** The input a program reads ends in a line feed. *)
Definition stdinText (stdin : option jstring) : option jstring :=
  (fun t => if decide (last t = Some 10) then t else t ++ [10]) <$> stdin.

Definition nextEnd : hostM program_end := fun h =>
  match answers h with
  | [] => (Ok (SpawnFails []), h)
  | e :: es => (Ok e, Host (files h) (faults h) es (sudo h) (trace h))
  end.

Definition spawnCommand (cmd : jstring) (args : list jstring) (stdin : option jstring)
    : hostM FirewallRunResult :=
  e ← nextEnd;
  '_ ← emit (Spawned (cmd :: args) (stdinText stdin) (resultOf e));
  mret (resultOf e).

Definition sudoSetting : hostM sudo_setting := fun h => (Ok (sudo h), h).

(** The arguments a program is started with: [-w 5] for the xtables tools. *)
Definition finalArgs (cmd : jstring) (args : list jstring) : list jstring :=
  if memb cmd XTABLES_BINARIES
  then "-w" :: decimalText XTABLES_LOCK_WAIT_SECONDS :: args else args.

Definition runInput (cmd : jstring) (args : list jstring) (stdin : option jstring)
    : hostM FirewallRunResult :=
  direct ← spawnCommand cmd (finalArgs cmd args) stdin;
  if success direct || negb (isPermissionDeniedText direct) then mret direct
  else
    s ← sudoSetting;
    spawnCommand "sudo" (hostSudoArgs s ("-n" :: cmd :: finalArgs cmd args)) stdin.
Definition runFirewallHost (cmd : jstring) (args : list jstring) : hostM FirewallRunResult :=
  runInput cmd args None.

(** ** Files of the daemon ([daemon-files.ts]) *)

Definition needsRoot (e : os_error) : bool :=
  bool_decide (e = PermissionDenied) || bool_decide (e = NotCapable).

Definition osError (e : os_error) : gate_error :=
  match e with
  | PermissionDenied => OtherErr "PermissionDenied" []
  | NotCapable => OtherErr "NotCapable" []
  | OtherOs m => OtherErr "Error" m
  end.

(** One file system call: how it ends. *)
Definition fsCall : hostM (option os_error) := fun h =>
  match faults h with
  | [] => (Ok None, h)
  | f :: fs => (Ok f, Host (files h) fs (answers h) (sudo h) (trace h))
  end.

Definition putFile (p : fpath) (text : jstring) : hostM unit := fun h =>
  (Ok tt, Host (setFile p (Some text) (files h)) (faults h) (answers h) (sudo h)
            (trace h ++ [Wrote p text])).
Definition dropFile (p : fpath) : hostM unit := fun h =>
  (Ok tt, Host (setFile p None (files h)) (faults h) (answers h) (sudo h)
            (trace h ++ [Removed p])).
Definition lookFile (p : fpath) : hostM (option jstring) := fun h => (Ok (fileAt (files h) p), h).

(** A step that must succeed. *)
Definition must : hostM unit :=
  r ← fsCall; match r with None => mret tt | Some e => raise (osError e) end.

Fixpoint musts (n : nat) : hostM unit :=
  match n with O => mret tt | S n' => '_ ← must; musts n' end.

(** Stage beside the file and rename it in; through [tp-host install] (stage,
    write, install) where the directory is root's.  The file is replaced by the
    last call or not at all. *)
Definition writeDaemonFile (p : fpath) (text : jstring) : hostM unit :=
  staged ← fsCall;
  renamed ← match staged with None => fsCall | Some e => mret (Some e) end;
  match renamed with
  | None => putFile p text
  | Some e =>
      if negb (needsRoot e) then raise (osError e)
      else '_ ← musts 3; putFile p text
  end.

Definition removeDaemonFile (p : fpath) : hostM unit :=
  r ← fsCall;
  here ← lookFile p;
  match r, here with
  | None, Some _ => dropFile p
  | None, None => mret tt
  | Some e, _ => if negb (needsRoot e) then raise (osError e) else '_ ← must; dropFile p
  end.

(** A root-owned directory that exists is fine. *)
Definition ensureDaemonDir : hostM unit :=
  r ← fsCall;
  match r with
  | None => mret tt
  | Some e => if negb (needsRoot e) then raise (osError e) else must
  end.

(** [Deno.readTextFile]; [Ok None] is [NotFound]. *)
Definition readTextFile (p : fpath) : hostM (result os_error (option jstring)) :=
  r ← fsCall;
  here ← lookFile p;
  mret match r with None => Ok here | Some e => Throw e end.

Definition readTextIfPresent (p : fpath) : hostM (option jstring) :=
  r ← readTextFile p;
  match r with
  | Ok here => mret here
  | Throw e => raise (osError e)
  end.

(** ** What was done to a host

    Every operation extends the trace, and the files are what the trace's
    writes and removals make of the files before. *)

Definition applied (fs : file_set) (e : event) : file_set :=
  match e with
  | Wrote p t => setFile p (Some t) fs
  | Removed p => setFile p None fs
  | Spawned _ _ _ => fs
  end.
Definition replayed (new : list event) (fs : file_set) : file_set := foldl applied fs new.

(** [h'] is [h] after the events [new]. *)
Record after (h : host) (new : list event) (h' : host) : Prop := After {
  after_trace : trace h' = trace h ++ new;
  after_files : files h' = replayed new (files h);
  after_sudo : sudo h' = sudo h
}.

(** [h'] is [h] after events that all satisfy [P]. *)
Definition does (P : event -> Prop) (h h' : host) : Prop :=
  exists new, after h new h' /\ Forall P new.

Lemma after_refl h : after h [] h.
Proof. split; [by rewrite app_nil_r | done..]. Qed.
Lemma after_app h1 h2 h3 a b : after h1 a h2 -> after h2 b h3 -> after h1 (a ++ b) h3.
Proof.
  intros [T1 F1 S1] [T2 F2 S2]. split.
  - by rewrite T2, T1, app_assoc.
  - rewrite F2, F1. unfold replayed. by rewrite foldl_app.
  - congruence.
Qed.

#[global] Instance does_preorder P : PreOrder (does P).
Proof.
  split.
  - intros h. exists []. split; [apply after_refl | constructor].
  - intros h1 h2 h3 (a & Ha & HPa) (b & Hb & HPb). exists (a ++ b).
    split; [by eapply after_app | by apply Forall_app].
Qed.

Lemma does_mono (P Q : event -> Prop) h h' : (forall e, P e -> Q e) -> does P h h' -> does Q h h'.
Proof. intros HPQ (new & Ha & HP). exists new. split; [done |]. by eapply Forall_impl. Qed.

(** An operation moves every host along [R], however it ends. *)
Definition moves {A} (R : host -> host -> Prop) (m : hostM A) : Prop := forall h, R h (m h).2.

Section Moves.
Context (R : host -> host -> Prop) {pre : PreOrder R}.

Lemma moves_ret {A} (a : A) : moves R (mret a).
Proof. intros h. reflexivity. Qed.
Lemma moves_raise {A} e : moves R (@raise A e).
Proof. intros h. reflexivity. Qed.
Lemma moves_lifted {A} (r : fallible A) : moves R (lifted r).
Proof. intros h. reflexivity. Qed.
Lemma moves_bind {A B} (m : hostM A) (k : A -> hostM B) :
  moves R m -> (forall a, moves R (k a)) -> moves R (m ≫= k).
Proof.
  intros Hm Hk h. unfold mbind, hostM_bind. specialize (Hm h).
  destruct (m h) as [[a | e] h']; cbn in *; [| done]. etransitivity; [exact Hm | apply Hk].
Qed.
Lemma moves_catching {A} (m : hostM A) k :
  moves R m -> (forall e, moves R (k e)) -> moves R (catching m k).
Proof.
  intros Hm Hk h. unfold catching. specialize (Hm h).
  destruct (m h) as [[a | e] h']; cbn in *; [done |]. etransitivity; [exact Hm | apply Hk].
Qed.
Lemma moves_forEach {A B} (step : A -> hostM B) l :
  (forall x, x ∈ l -> moves R (step x)) -> moves R (forEachSequential step l).
Proof.
  induction l as [| x l IH]; intros Hs; [apply moves_ret |]. cbn.
  apply moves_bind; [apply Hs; set_solver |]. intros _. apply IH. set_solver.
Qed.
Lemma moves_mapSequential {A B} (step : A -> hostM B) l :
  (forall x, x ∈ l -> moves R (step x)) -> moves R (mapSequential step l).
Proof.
  induction l as [| x l IH]; intros Hs; [apply moves_ret |]. cbn.
  apply moves_bind; [apply Hs; set_solver |]. intros b.
  apply moves_bind; [apply IH; set_solver |]. intros; apply moves_ret.
Qed.
End Moves.

Lemma moves_mono {A} (R S : host -> host -> Prop) (m : hostM A) :
  (forall h h', R h h' -> S h h') -> moves R m -> moves S m.
Proof. intros HRS Hm h. apply HRS, Hm. Qed.
Lemma moves_does {A} (P Q : event -> Prop) (m : hostM A) :
  moves (does P) m -> (forall e, P e -> Q e) -> moves (does Q) m.
Proof. intros Hm HPQ. eapply moves_mono; [| exact Hm]. intros. by eapply does_mono. Qed.

Create HintDb host.
#[export] Hint Resolve moves_ret moves_raise moves_lifted : host.
#[export] Hint Extern 2 (PreOrder (does _)) => apply does_preorder : host.

(** Walk through an operation's binds and branches. *)
Ltac walk :=
  repeat first
    [ progress intros
    | solve [eauto with host]
    | apply moves_ret; [typeclasses eauto]
    | apply moves_raise; [typeclasses eauto]
    | apply moves_lifted; [typeclasses eauto]
    | apply moves_bind; [typeclasses eauto | |]
    | apply moves_catching; [typeclasses eauto | |]
    | case_match ].

(** *** Programs *)

(** The command line a started program runs, [sudo] and [tp-host] aside. *)
Definition commandOf (argv : list jstring) : list jstring :=
  match argv with
  | s :: _ :: rest =>
      if decide (s <> "sudo") then argv
      else match rest with
           | w :: rest' => if decide (w = "--") then tail rest' else rest
           | [] => []
           end
  | _ => argv
  end.

Definition plainCommand (cmd : jstring) : bool :=
  negb (memb cmd ["sudo"; "--"]).

(** The program's event: [cmd args], reading [stdin]. *)
Definition issues (cmd : jstring) (args : list jstring) (stdin : option jstring) (e : event) : Prop :=
  exists argv r, e = Spawned argv (stdinText stdin) r /\ commandOf argv = cmd :: finalArgs cmd args.

Lemma commandOf_direct cmd args : plainCommand cmd = true -> commandOf (cmd :: args) = cmd :: args.
Proof.
  unfold plainCommand. intros [Hc _]%negb_true_iff%memb_false%not_elem_of_cons.
  destruct args as [| a args]; [done |]. cbn. by rewrite decide_True.
Qed.

Lemma commandOf_sudo s cmd args :
  plainCommand cmd = true -> commandOf ("sudo" :: hostSudoArgs s ("-n" :: cmd :: args)) = cmd :: args.
Proof.
  unfold plainCommand. intros [_ [Hc _]%not_elem_of_cons]%negb_true_iff%memb_false%not_elem_of_cons.
  assert (commandOf ("sudo" :: "-n" :: cmd :: args) = cmd :: args) as Hplain.
  { cbn [commandOf]. rewrite decide_False by tauto. by rewrite decide_False. }
  unfold hostSudoArgs. rewrite decide_False by tauto. rewrite decide_False by done.
  repeat case_match; try done.
Qed.

(** Programs are started as asked; the last one's result is the answer. *)
Lemma runInput_spec cmd args stdin h :
  plainCommand cmd = true ->
  exists pre argv r h', runInput cmd args stdin h = (Ok r, h') /\
    after h (pre ++ [Spawned argv (stdinText stdin) r]) h' /\
    Forall (issues cmd args stdin) (pre ++ [Spawned argv (stdinText stdin) r]) /\
    Forall (fun e => exists argv r', e = Spawned argv (stdinText stdin) r' /\ success r' = false) pre.
Proof.
  intros Hc.
  assert (forall c a h, exists r h', spawnCommand c a stdin h = (Ok r, h') /\
    after h [Spawned (c :: a) (stdinText stdin) r] h') as Hspawn.
  { intros c a h0. unfold spawnCommand, mbind, hostM_bind, nextEnd.
    destruct (answers h0) as [| e es]; cbn; do 2 eexists; (split; [reflexivity | by split]). }
  unfold runInput. destruct (Hspawn cmd (finalArgs cmd args) h) as (r & h1 & E1 & A1).
  assert (issues cmd args stdin (Spawned (cmd :: finalArgs cmd args) (stdinText stdin) r)) as I1
    by (do 2 eexists; split; [done | by apply commandOf_direct]).
  unfold mbind, hostM_bind. rewrite E1.
  destruct (success r) eqn:Es; cbn [orb].
  { exists [], (cmd :: finalArgs cmd args), r, h1. split; [done |]. split; [done |].
    split; [by repeat constructor | constructor]. }
  destruct (isPermissionDeniedText r); cbn [negb].
  2: { exists [], (cmd :: finalArgs cmd args), r, h1. split; [done |]. split; [done |].
       split; [by repeat constructor | constructor]. }
  cbn [sudoSetting].
  destruct (Hspawn "sudo" (hostSudoArgs (sudo h1) ("-n" :: cmd :: finalArgs cmd args)) h1)
    as (r2 & h2 & E2 & A2).
  rewrite E2. do 4 eexists. split; [reflexivity |].
  split; [exact (after_app _ _ _ _ _ A1 A2) |]. split.
  - constructor; [done |]. constructor; [| constructor].
    do 2 eexists. split; [done | by apply commandOf_sudo].
  - constructor; [| constructor]. eauto.
Qed.

Lemma runInput_does cmd args stdin :
  plainCommand cmd = true -> moves (does (issues cmd args stdin)) (runInput cmd args stdin).
Proof.
  intros Hc h. destruct (runInput_spec cmd args stdin h Hc) as (pre & argv & r & h' & E & A & HI & _).
  rewrite E. by eexists.
Qed.

(** *** Files *)

Lemma fileAt_set p q t fs :
  fileAt (setFile p t fs) q = if decide (p = q) then t else fileAt fs q.
Proof. destruct fs. by destruct p as [| [] | [] |], q as [| [] | [] |]. Qed.

(** The event leaves the file [p] alone. *)
Definition spares (p : fpath) (e : event) : bool :=
  match e with
  | Wrote q _ | Removed q => negb (bool_decide (q = p))
  | Spawned _ _ _ => true
  end.

Lemma replayed_spares p new fs :
  Forall (fun e => spares p e = true) new -> fileAt (replayed new fs) p = fileAt fs p.
Proof.
  unfold replayed. revert fs. induction new as [| e new IH]; intros fs Hs; [done |].
  apply Forall_cons in Hs as [He Hs]. cbn [foldl]. rewrite IH by done.
  destruct e as [| q t | q]; cbn in *; [done | |]; bools; rewrite fileAt_set, decide_False; done.
Qed.

(** How a file operation ends: [Q] on success; a failure changes nothing and
    needs a fault. *)
Definition endsIn {A} (h : host) (out : fallible A * host) (Q : A -> list event -> Prop) : Prop :=
  exists new, after h new out.2 /\ answers out.2 = answers h /\
    (faults h = [] -> faults out.2 = []) /\
    match out.1 with Ok a => Q a new | Throw _ => new = [] /\ faults h <> [] end.
Definition fileOp {A} (m : hostM A) (Q : host -> A -> list event -> Prop) : Prop :=
  forall h, endsIn h (m h) (Q h).

(** Faults and nothing else. *)
Definition quiet (h h' : host) : Prop :=
  after h [] h' /\ answers h' = answers h /\ (faults h = [] -> faults h' = []).
#[global] Instance quiet_preorder : PreOrder quiet.
Proof.
  split; [intros h; split_and!; [apply after_refl | done..] |].
  intros a b c (A1 & B1 & C1) (A2 & B2 & C2).
  split_and!; [exact (after_app _ _ _ _ _ A1 A2) | congruence | auto].
Qed.

Lemma fsCall_quiet h : exists r h', fsCall h = (Ok r, h') /\ quiet h h' /\ (faults h = [] -> r = None).
Proof.
  unfold fsCall. destruct (faults h) as [| f fs] eqn:E; do 2 eexists; (split; [done |]).
  - split; [reflexivity | done].
  - split; [| done]. split_and!; [| done | by rewrite E]. split; [by rewrite app_nil_r | done..].
Qed.
Lemma must_quiet h : exists r h', must h = (r, h') /\ quiet h h' /\ (faults h = [] -> r = Ok tt).
Proof.
  unfold must, mbind, hostM_bind. destruct (fsCall_quiet h) as (r & h' & -> & Hq & Hr).
  destruct r as [e |]; do 2 eexists; (split; [done |]); split; try done.
  intros [=]%Hr.
Qed.

Lemma quiet_after h h1 h' new : quiet h h1 -> after h1 new h' -> after h new h'.
Proof. intros (A1 & _) A2. exact (after_app _ _ _ _ _ A1 A2). Qed.

Lemma putFile_ends p t h1 h (Q : unit -> list event -> Prop) :
  quiet h h1 -> Q tt [Wrote p t] -> endsIn h (putFile p t h1) Q.
Proof.
  intros Hq HQ. exists [Wrote p t].
  split; [eapply quiet_after; [exact Hq | by split] | by destruct Hq as (_ & ? & ?)].
Qed.
Lemma dropFile_ends p h1 h (Q : unit -> list event -> Prop) :
  quiet h h1 -> Q tt [Removed p] -> endsIn h (dropFile p h1) Q.
Proof.
  intros Hq HQ. exists [Removed p].
  split; [eapply quiet_after; [exact Hq | by split] | by destruct Hq as (_ & ? & ?)].
Qed.

(** A quiet end. *)
Lemma quiet_failure {A} (Q : A -> list event -> Prop) h h1 e :
  quiet h h1 -> faults h <> [] -> endsIn h (Throw e, h1) Q.
Proof. intros (? & ? & ?) Hf. by exists []. Qed.
Lemma quiet_success {A} (Q : A -> list event -> Prop) h h1 a :
  quiet h h1 -> Q a [] -> endsIn h (Ok a, h1) Q.
Proof. intros (? & ? & ?) HQ. by exists []. Qed.

(** A computation that reports to [h] and never touches a file. *)
Lemma musts_quiet (n : nat) h :
  exists r h', musts n h = (r, h') /\
    quiet h h' /\ (faults h = [] -> r = Ok tt).
Proof.
  revert h. induction n as [| n IH]; intros h; [by do 2 eexists |].
  cbn [musts]. unfold mbind, hostM_bind. destruct (must_quiet h) as (r & h1 & -> & Q1 & Hr).
  destruct r as [[] | e].
  - destruct (IH h1) as (r2 & h2 & E & Q2 & Hr2). rewrite E. do 2 eexists. split; [done |].
    split; [by etransitivity | intros Hf; by apply Hr2, Q1].
  - do 2 eexists. split; [done |]. split; [done |]. intros Hf. by specialize (Hr Hf).
Qed.

Lemma writeDaemonFile_ends p t : fileOp (writeDaemonFile p t) (fun _ _ new => new = [Wrote p t]).
Proof.
  intros h. unfold writeDaemonFile, mbind, hostM_bind.
  destruct (fsCall_quiet h) as (r1 & h1 & -> & Q1 & Hr1).
  assert (exists r h2, (match r1 with None => fsCall | Some e => mret (Some e) end) h1 = (Ok r, h2) /\
    quiet h h2 /\ (faults h = [] -> r = None)) as (r2 & h2 & -> & Q2 & Hr2).
  { destruct r1 as [e |].
    - do 2 eexists. split; [done |]. split; [done |]. intros Hf. by specialize (Hr1 Hf).
    - destruct (fsCall_quiet h1) as (r & h2 & -> & Q2 & Hr). do 2 eexists. split; [done |].
      split; [by etransitivity |]. intros Hf. by apply Hr, Q1. }
  destruct r2 as [e |].
  - assert (faults h <> []) as Hf by (intros Hf; by specialize (Hr2 Hf)).
    destruct (negb _); [by apply quiet_failure |].
    destruct (musts_quiet 3 h2) as (r3 & h3 & -> & Q3 & _).
    assert (quiet h h3) as Q by (by etransitivity). destruct r3 as [[] | e']; [by apply putFile_ends | by apply quiet_failure].
  - by apply putFile_ends.
Qed.

Lemma removeDaemonFile_ends p :
  fileOp (removeDaemonFile p) (fun h _ new =>
    new = [Removed p] \/ (new = [] /\ fileAt (files h) p = None)).
Proof.
  intros h. unfold removeDaemonFile, mbind, hostM_bind, lookFile.
  destruct (fsCall_quiet h) as (r1 & h1 & -> & Q1 & Hr1).
  assert (fileAt (files h1) p = fileAt (files h) p) as Hp by (by destruct Q1 as ([_ -> _] & _)).
  destruct r1 as [e |].
  - assert (faults h <> []) as Hf by (intros Hf; by specialize (Hr1 Hf)).
    destruct (negb _); [by apply quiet_failure |].
    destruct (must_quiet h1) as (r2 & h2 & -> & Q2 & _).
    assert (quiet h h2) as Q by (by etransitivity). destruct r2 as [[] | e']; [| by apply quiet_failure].
    apply dropFile_ends; [done | by left].
  - destruct (fileAt (files h1) p) eqn:E; [apply dropFile_ends; [done | by left] |].
    apply quiet_success; [done | by right].
Qed.

Lemma ensureDaemonDir_ends : fileOp ensureDaemonDir (fun _ _ new => new = []).
Proof.
  intros h. unfold ensureDaemonDir, mbind, hostM_bind.
  destruct (fsCall_quiet h) as (r1 & h1 & -> & Q1 & Hr1). destruct r1 as [e |].
  - assert (faults h <> []) as Hf by (intros Hf; by specialize (Hr1 Hf)).
    destruct (negb _); [by apply quiet_failure |].
    destruct (must_quiet h1) as (r2 & h2 & -> & Q2 & _).
    assert (quiet h h2) as Q by (by etransitivity). destruct r2 as [[] | e']; [by apply quiet_success | by apply quiet_failure].
  - by apply quiet_success.
Qed.

Lemma readTextIfPresent_ends p :
  fileOp (readTextIfPresent p) (fun h a new => new = [] /\ a = fileAt (files h) p).
Proof.
  intros h. unfold readTextIfPresent, readTextFile, mbind, hostM_bind, lookFile.
  destruct (fsCall_quiet h) as (r1 & h1 & -> & Q1 & Hr1).
  assert (fileAt (files h1) p = fileAt (files h) p) as Hp by (by destruct Q1 as ([_ -> _] & _)).
  destruct r1 as [e |]; cbn.
  - apply quiet_failure; [done |]. intros Hf. by specialize (Hr1 Hf).
  - by apply quiet_success.
Qed.

(** A file operation as a move. *)
Lemma fileOp_moves {A} (m : hostM A) Q (P : event -> Prop) :
  fileOp m Q -> (forall h a new, Q h a new -> Forall P new) -> moves (does P) m.
Proof.
  intros Hm HQ h. destruct (Hm h) as (new & Ha & _ & _ & Hr). exists new. split; [done |].
  destruct (m h).1; [by eapply HQ | by destruct Hr as [-> _]].
Qed.

Lemma write_moves (P : event -> Prop) p t : P (Wrote p t) -> moves (does P) (writeDaemonFile p t).
Proof.
  intros HP. eapply fileOp_moves; [apply writeDaemonFile_ends |]. intros ? ? ? ->. by repeat constructor.
Qed.
Lemma remove_moves (P : event -> Prop) p : P (Removed p) -> moves (does P) (removeDaemonFile p).
Proof.
  intros HP. eapply fileOp_moves; [apply removeDaemonFile_ends |].
  intros ? ? ? [-> | [-> _]]; by repeat constructor.
Qed.
Lemma ensure_moves (P : event -> Prop) : moves (does P) ensureDaemonDir.
Proof. eapply fileOp_moves; [apply ensureDaemonDir_ends |]. intros ? ? ? ->. constructor. Qed.
Lemma read_moves (P : event -> Prop) p : moves (does P) (readTextIfPresent p).
Proof. eapply fileOp_moves; [apply readTextIfPresent_ends |]. intros ? ? ? [-> _]. constructor. Qed.
Lemma must_moves (P : event -> Prop) : moves (does P) must.
Proof.
  intros h. destruct (must_quiet h) as (r & h' & E & (Ha & _) & _). rewrite E.
  exists []. split; [exact Ha | constructor].
Qed.
Lemma run_moves (P : event -> Prop) cmd args stdin :
  plainCommand cmd = true -> (forall e, issues cmd args stdin e -> P e) ->
  moves (does P) (runInput cmd args stdin).
Proof. intros Hc HP. eapply moves_does; [by apply runInput_does | exact HP]. Qed.
#[export] Hint Resolve write_moves remove_moves ensure_moves read_moves must_moves run_moves : host.
#[export] Hint Extern 1 (plainCommand _ = true) => reflexivity : host.

(** A program's command line, and its success. *)
Definition words (e : event) : list jstring :=
  match e with Spawned argv _ _ => commandOf argv | _ => [] end.
Definition worked (e : event) : bool :=
  match e with Spawned _ _ r => success r | _ => false end.
Definition fed (e : event) : option jstring :=
  match e with Spawned _ stdin _ => stdin | _ => None end.

Lemma issues_words cmd args stdin e :
  issues cmd args stdin e ->
  words e = cmd :: finalArgs cmd args /\ fed e = stdinText stdin /\ forall p, spares p e = true.
Proof. by intros (argv & r & -> & Hw). Qed.

Definition restores : list jstring := ["iptables-restore"; "ip6tables-restore"].
Definition editors : list jstring := ["iptables"; "ip6tables"].

(** The program loads a document into the kernel. *)
Definition loads (e : event) : bool :=
  match words e with
  | bin :: args => memb bin restores && negb (memb ("--test" : jstring) args)
  | [] => false
  end.
(** The program changes a chain or a jump. *)
Definition rewires (e : event) : bool :=
  match words e with
  | bin :: args => memb bin editors && existsb (fun f => memb f args)
                     (["-A"; "-I"; "-D"; "-F"; "-X"; "-N"; "-R"; "-P"] : list jstring)
  | [] => false
  end.

Lemma replayed_keeps p new fs :
  Forall (fun e => e <> Removed p) new -> is_Some (fileAt fs p) -> is_Some (fileAt (replayed new fs) p).
Proof.
  unfold replayed. revert fs. induction new as [| e new IH]; intros fs Hn Hs; [done |].
  apply Forall_cons in Hn as [He Hn]. cbn [foldl]. apply IH; [done |].
  destruct e as [| q t | q]; cbn; [done | |]; rewrite fileAt_set; case_decide; by subst.
Qed.

Lemma replayed_app a b fs : replayed (a ++ b) fs = replayed b (replayed a fs).
Proof. apply foldl_app. Qed.

(** An operation's events, and how it ended. *)
Lemma moves_run {A} (P : event -> Prop) (m : hostM A) h r h' :
  moves (does P) m -> m h = (r, h') -> exists new, after h new h' /\ Forall P new.
Proof. intros Hm E. specialize (Hm h). by rewrite E in Hm. Qed.

Lemma bind_run {A B} (m : hostM A) (k : A -> hostM B) h r h' :
  (m ≫= k) h = (r, h') ->
  (exists a h1, m h = (Ok a, h1) /\ k a h1 = (r, h')) \/ (exists e, m h = (Throw e, h') /\ r = Throw e).
Proof.
  unfold mbind, hostM_bind. destruct (m h) as [[a | e] h1]; [eauto |]. intros [= <- <-]. eauto.
Qed.
Lemma catch_run {A} (m : hostM A) k h r h' :
  catching m k h = (r, h') ->
  (exists a, m h = (Ok a, h') /\ r = Ok a) \/ (exists e h1, m h = (Throw e, h1) /\ k e h1 = (r, h')).
Proof.
  unfold catching. destruct (m h) as [[a | e] h1]; [| eauto]. intros [= <- <-]. eauto.
Qed.

Lemma fileOp_run {A} (m : hostM A) Q h a h' :
  fileOp m Q -> m h = (Ok a, h') -> exists new, after h new h' /\ Q h a new.
Proof. intros Hm E. destruct (Hm h) as (new & Ha & _ & _ & HQ). rewrite E in *. eauto. Qed.

(** What a removed file's events make of it. *)
Lemma remove_run p h a h' :
  removeDaemonFile p h = (Ok a, h') ->
  exists new, after h new h' /\ Forall (fun e => e = Removed p) new /\ fileAt (files h') p = None.
Proof.
  intros E. destruct (fileOp_run _ _ _ _ _ (removeDaemonFile_ends p) E) as (new & Ha & Hn).
  exists new. split; [done |]. rewrite (after_files _ _ _ Ha).
  destruct Hn as [-> | [-> Hn]]; [| done]. split; [by repeat constructor |].
  cbn. by rewrite fileAt_set, decide_True.
Qed.
Lemma write_run p t h a h' :
  writeDaemonFile p t h = (Ok a, h') -> after h [Wrote p t] h' /\ fileAt (files h') p = Some t.
Proof.
  intros E. destruct (fileOp_run _ _ _ _ _ (writeDaemonFile_ends p t) E) as (new & Ha & ->).
  split; [done |]. rewrite (after_files _ _ _ Ha). cbn. by rewrite fileAt_set, decide_True.
Qed.
Lemma read_run p h a h' :
  readTextIfPresent p h = (Ok a, h') -> after h [] h' /\ a = fileAt (files h) p.
Proof.
  intros E. destruct (fileOp_run _ _ _ _ _ (readTextIfPresent_ends p) E) as (new & Ha & -> & ->). done.
Qed.
Lemma ensure_run h a h' : ensureDaemonDir h = (Ok a, h') -> after h [] h'.
Proof. intros E. by destruct (fileOp_run _ _ _ _ _ ensureDaemonDir_ends E) as (new & Ha & ->). Qed.
Lemma must_run h a h' : must h = (Ok a, h') -> after h [] h'.
Proof. intros E. destruct (must_quiet h) as (r & h1 & E1 & (Ha & _) & _). rewrite E in E1. by injection E1 as _ <-. Qed.

Lemma after_same h h' p : after h [] h' -> fileAt (files h') p = fileAt (files h) p.
Proof. by intros [_ -> _]. Qed.
Lemma after_spares p h new h' :
  after h new h' -> Forall (fun e => spares p e = true) new -> fileAt (files h') p = fileAt (files h) p.
Proof. intros [_ -> _] Hs. by apply replayed_spares. Qed.

(** A run that ended in a value ran every step to one. *)
Ltac run_inv :=
  repeat match goal with
  | E : (_ ≫= _) _ = (Ok _, _) |- _ =>
      let a := fresh "a" in let h := fresh "h" in let E1 := fresh "E" in
      apply bind_run in E as [(a & h & E1 & E) | (? & _ & [=])]
  | E : mret _ _ = (_, _) |- _ => injection E as <- ->
  | E : raise _ _ = (Ok _, _) |- _ => discriminate E
  end.

(** *** Hosts without faults *)

Definition calm (h : host) : Prop := faults h = [].
Definition steady (h h' : host) : Prop := calm h -> calm h'.
#[global] Instance steady_preorder : PreOrder steady.
Proof. split; [by intros h Hc | intros a b c H1 H2 Hc; auto]. Qed.

Lemma fileOp_steady {A} (m : hostM A) Q : fileOp m Q -> moves steady m.
Proof. intros Hm h. by destruct (Hm h) as (_ & _ & _ & Hf & _). Qed.
Lemma run_faults cmd args stdin h : faults (runInput cmd args stdin h).2 = faults h.
Proof.
  assert (forall c a h, faults (spawnCommand c a stdin h).2 = faults h /\
    exists r, (spawnCommand c a stdin h).1 = Ok r) as Hs.
  { intros c a h0. unfold spawnCommand, mbind, hostM_bind, nextEnd. destruct (answers h0); cbn; eauto. }
  unfold runInput, mbind, hostM_bind.
  destruct (Hs cmd (finalArgs cmd args) h) as [Hf [r Hr]].
  destruct (spawnCommand cmd (finalArgs cmd args) stdin h) as [r1 h1]. cbn in *. subst r1.
  destruct (_ || _); [done |]. cbn.
  match goal with |- faults (spawnCommand ?c ?a _ ?h).2 = _ => destruct (Hs c a h) as [-> _] end. done.
Qed.
Lemma run_steady cmd args stdin : moves steady (runInput cmd args stdin).
Proof. intros h Hc. unfold calm. by rewrite run_faults. Qed.
Lemma must_steady : moves steady must.
Proof. intros h. destruct (must_quiet h) as (r & h' & E & (_ & _ & Hf) & _). by rewrite E. Qed.
#[export] Hint Resolve run_steady must_steady : host.
#[export] Hint Extern 1 (moves steady (writeDaemonFile _ _)) => (eapply fileOp_steady, writeDaemonFile_ends) : host.
#[export] Hint Extern 1 (moves steady (removeDaemonFile _)) => (eapply fileOp_steady, removeDaemonFile_ends) : host.
#[export] Hint Extern 1 (moves steady ensureDaemonDir) => (eapply fileOp_steady, ensureDaemonDir_ends) : host.
#[export] Hint Extern 1 (moves steady (readTextIfPresent _)) => (eapply fileOp_steady, readTextIfPresent_ends) : host.

Lemma fileOp_calm {A} (m : hostM A) Q h :
  fileOp m Q -> calm h -> exists a h' new, m h = (Ok a, h') /\ calm h' /\ after h new h' /\ Q h a new.
Proof.
  intros Hm Hc. destruct (Hm h) as (new & A1 & _ & Hf & HQ). destruct (m h) as [[a | e] h'].
  - exists a, h', new. split_and!; [done | by apply Hf | done | done].
  - destruct HQ as [_ HQ]. by contradiction HQ.
Qed.

Lemma setFile_same p fs : fileAt fs p = None -> setFile p None fs = fs.
Proof. destruct fs. destruct p as [| [] | [] |]; cbn; by intros ->. Qed.

Lemma write_calm p t h : calm h ->
  exists h', writeDaemonFile p t h = (Ok tt, h') /\ calm h' /\ files h' = setFile p (Some t) (files h).
Proof.
  intros Hc. destruct (fileOp_calm _ _ h (writeDaemonFile_ends p t) Hc) as ([] & h' & new & E & Hc' & A & ->).
  exists h'. split_and!; [done | done |]. by rewrite (after_files _ _ _ A).
Qed.
Lemma remove_calm p h : calm h ->
  exists h', removeDaemonFile p h = (Ok tt, h') /\ calm h' /\ files h' = setFile p None (files h).
Proof.
  intros Hc. destruct (fileOp_calm _ _ h (removeDaemonFile_ends p) Hc) as ([] & h' & new & E & Hc' & A & HQ).
  exists h'. split_and!; [done | done |]. rewrite (after_files _ _ _ A).
  destruct HQ as [-> | [-> Hn]]; [done |]. by rewrite setFile_same.
Qed.
Lemma ensure_calm h : calm h -> exists h', ensureDaemonDir h = (Ok tt, h') /\ calm h' /\ files h' = files h.
Proof.
  intros Hc. destruct (fileOp_calm _ _ h ensureDaemonDir_ends Hc) as ([] & h' & new & E & Hc' & A & ->).
  exists h'. split_and!; [done | done |]. by rewrite (after_files _ _ _ A).
Qed.
Lemma must_calm h : calm h -> exists h', must h = (Ok tt, h') /\ calm h' /\ files h' = files h.
Proof.
  intros Hc. destruct (must_quiet h) as (r & h' & E & (A & _ & Hf) & Hr). rewrite (Hr Hc) in E.
  exists h'. split_and!; [done | by apply Hf |]. by rewrite (after_files _ _ _ A).
Qed.
Lemma read_calm p h : calm h ->
  exists h', readTextIfPresent p h = (Ok (fileAt (files h) p), h') /\ calm h' /\ files h' = files h.
Proof.
  intros Hc. destruct (fileOp_calm _ _ h (readTextIfPresent_ends p) Hc) as (a & h' & new & E & Hc' & A & -> & ->).
  exists h'. split_and!; [done | done |]. by rewrite (after_files _ _ _ A).
Qed.
Lemma run_calm cmd args stdin h : plainCommand cmd = true -> calm h ->
  exists r h', runInput cmd args stdin h = (Ok r, h') /\ calm h' /\ files h' = files h.
Proof.
  intros Hp Hc. destruct (runInput_spec cmd args stdin h Hp) as (pre & argv & r & h' & E & A & I & _).
  exists r, h'. split; [done |]. split.
  - pose proof (run_faults cmd args stdin h) as Hf. rewrite E in Hf. cbn in Hf. unfold calm in *. congruence.
  - rewrite (after_files _ _ _ A). unfold replayed. clear - I.
    generalize (files h). induction I as [| e l (argv' & r' & -> & _) I IH]; [done |]. intros fs. apply IH.
Qed.

(** Run the next step of a calm host. *)
Ltac calm_step :=
  unfold mbind at 1, hostM_bind at 1;
  let h' := fresh "h" in let E := fresh "E" in let F := fresh "F" in let r := fresh "r" in
  match goal with
  | Hc : calm ?h |- context [writeDaemonFile ?p ?t ?h] =>
      destruct (write_calm p t h Hc) as (h' & E & ? & F)
  | Hc : calm ?h |- context [removeDaemonFile ?p ?h] =>
      destruct (remove_calm p h Hc) as (h' & E & ? & F)
  | Hc : calm ?h |- context [ensureDaemonDir ?h] => destruct (ensure_calm h Hc) as (h' & E & ? & F)
  | Hc : calm ?h |- context [must ?h] => destruct (must_calm h Hc) as (h' & E & ? & F)
  | Hc : calm ?h |- context [readTextIfPresent ?p ?h] =>
      destruct (read_calm p h Hc) as (h' & E & ? & F)
  | Hc : calm ?h |- context [runInput ?c ?a ?s ?h] =>
      destruct (run_calm c a s h eq_refl Hc) as (r & h' & E & ? & F)
  end;
  rewrite E; clear E.

(** Rewrite the files of later hosts back to the first one's. *)
Ltac chase := repeat match goal with F : files ?a = _ |- context [files ?a] => rewrite F end.

(** An invariant, as a relation operations move along. *)
Definition holds (J : host -> Prop) (h h' : host) : Prop := J h -> J h'.
#[global] Instance holds_preorder J : PreOrder (holds J).
Proof. split; [by intros h Hc | intros a b c H1 H2 Hc; auto]. Qed.

(** An invariant of the files of calm hosts survives programs. *)
Lemma run_holds (I : file_set -> Prop) cmd args stdin :
  plainCommand cmd = true -> moves (holds (fun h => calm h /\ I (files h))) (runInput cmd args stdin).
Proof.
  intros Hp h [Hc HI]. destruct (run_calm cmd args stdin h Hp Hc) as (r & h' & -> & Hc' & F).
  cbn. by rewrite F.
Qed.
#[export] Hint Resolve run_holds : host.
