(* ===== verification/FwPending.v ===== *)
(** * Staging a ruleset ([firewall/pending.ts])

    A ruleset that is loaded but not confirmed has a marker file (JSON) and
    pending documents; a root timer undoes it unless the marker is gone in
    time.  The marker is written and read as text. *)

From S2P Require Import Prelude Text Json Number JsonPrint GateHttp Dates Log CtParse FwRender FwHost.

#[local] Open Scope Z_scope.

Definition FIREWALL_CONFIRM_WINDOW_SECONDS : Z := 120.
Definition FIREWALL_GUARD_TIMER : jstring := "turbopanel-firewall-guard.timer".
Definition FIREWALL_GUARD_SERVICE : jstring := "turbopanel-firewall-guard.service".

(** ** The marker *)

Inductive PendingV6Intent := Replace | Forget | Keep.

Definition intentName (i : PendingV6Intent) : jstring :=
  match i with Replace => "replace" | Forget => "forget" | Keep => "keep" end.
Definition intentOf (v : option jval) : option PendingV6Intent :=
  match v with
  | Some (JStr s) =>
      if decide (s = "replace") then Some Replace
      else if decide (s = "forget") then Some Forget
      else if decide (s = "keep") then Some Keep
      else None
  | _ => None
  end.

(** The parsed object, with the members the code reads. *)
Record PendingFirewallMarker := {
  members : entries;
  markerDigest : jstring;
  deadlineAt : jstring;
  deadline : Z;
  v6Intent : PendingV6Intent
}.

Definition isMarker `{JsDates} (v : jval) : option PendingFirewallMarker :=
  o ← asRecord (Some v);
  version ← asNumber (getEntry o "version");
  _ ← (if decide (integer_of version = Some 1) then Some tt else None);
  d ← asString (getEntry o "digest");
  _ ← asNumber (getEntry o "generation");
  _ ← asString (getEntry o "armedAt");
  text ← asString (getEntry o "deadlineAt");
  t ← Date_parse text;
  _ ← asNumber (getEntry o "windowSeconds");
  i ← intentOf (getEntry o "v6");
  Some {| members := o; markerDigest := d; deadlineAt := text; deadline := t; v6Intent := i |}.

(** The marker in a file's text, if it is one. *)
Definition markerOf `{JsDates} (text : option jstring) : option PendingFirewallMarker :=
  t ← text;
  match JSON_parse t with Ok v => isMarker v | Throw _ => None end.

Definition readPendingMarker `{JsDates} : hostM (option PendingFirewallMarker) :=
  text ← readTextIfPresent PendingMarker;
  mret (markerOf text).

(** ** The rollback record *)

Inductive restored := Durable | NoRules | Opened.
Record FirewallRollbackRecord := { rbDigest : jstring; rbAt : jstring; rbRestored : restored }.

Definition restoredOf (v : option jval) : option restored :=
  match v with
  | Some (JStr s) =>
      if decide (s = "durable") then Some Durable
      else if decide (s = "none") then Some NoRules
      else if decide (s = "open") then Some Opened
      else None
  | _ => None
  end.
(** A parsed value's member; [null] has none ([TypeError], caught). *)
Definition rollbackOf (text : option jstring) : option FirewallRollbackRecord :=
  t ← text;
  match JSON_parse t with
  | Ok v =>
      o ← asRecord (Some v);
      d ← asString (getEntry o "digest");
      a ← asString (getEntry o "at");
      r ← restoredOf (getEntry o "restored");
      Some {| rbDigest := d; rbAt := a; rbRestored := r |}
  | Throw _ => None
  end.

Definition readRollbackRecord : hostM (option FirewallRollbackRecord) :=
  catching (text ← readTextIfPresent RollbackRecord; mret (rollbackOf text)) (fun _ => mret None).

(** ** The guard's timer *)

(** [stderr || stdout || `exit ${code}`]; an exit code is not negative. *)
Definition failureText (r : FirewallRunResult) : jstring :=
  match stderr r, stdout r with
  | [], [] => ("exit " : jstring) ++ decimalText (Z.to_N (code r))
  | [], out => out
  | err, _ => err
  end.

Definition FirewallGuardUnavailableError (detail : jstring) : gate_error :=
  OtherErr "FirewallGuardUnavailableError"
    (("firewall rollback guard could not be armed, so no rules were loaded: " : jstring) ++ detail).

Definition armGuardTimer : hostM unit :=
  r ← runFirewallHost "systemctl" ["restart"; FIREWALL_GUARD_TIMER];
  if success r then mret tt else raise (FirewallGuardUnavailableError (sanitizeForLog (failureText r))).

Definition disarmGuardTimer : hostM unit :=
  '_ ← runFirewallHost "systemctl" ["stop"; FIREWALL_GUARD_TIMER]; mret tt.

(** ** Staging *)

Definition clearPendingFirewall : hostM unit :=
  '_ ← removeDaemonFile PendingMarker;
  '_ ← removeDaemonFile (PendingDoc V4);
  removeDaemonFile (PendingDoc V6).

(** The object written when a ruleset is staged at [now] (a valid time); what a
    confirm does to the durable v6 document is filled in later. *)
Definition newMarker (d : jstring) (gen : Z) (now : Z) (i : PendingV6Intent) : entries :=
  [("version" : jstring, JNum (num_of_Z 1)); ("digest" : jstring, JStr d);
   ("generation" : jstring, JNum (num_of_Z gen));
   ("armedAt" : jstring, JStr (toISOString now));
   ("deadlineAt" : jstring, JStr (toISOString (now + FIREWALL_CONFIRM_WINDOW_SECONDS * 1000)));
   ("windowSeconds" : jstring, JNum (num_of_Z FIREWALL_CONFIRM_WINDOW_SECONDS));
   ("v6" : jstring, JStr (intentName i))].

Record ArmedPendingFirewall := { armedDeadline : jstring; armedWindow : Z }.

Definition armPendingFirewall `{JsTables} (d : jstring) (gen : Z) (doc : jstring) (now : Z)
    : hostM ArmedPendingFirewall :=
  '_ ← ensureDaemonDir;
  '_ ← must;
  '_ ← removeDaemonFile RollbackRecord;
  '_ ← removeDaemonFile (PendingDoc V6);
  '_ ← writeDaemonFile (PendingDoc V4) doc;
  '_ ← writeDaemonFile PendingMarker (JSON_stringify (JObj (newMarker d gen now Keep)));
  '_ ← catching armGuardTimer (fun e => '_ ← clearPendingFirewall; raise e);
  mret {| armedDeadline := toISOString (now + FIREWALL_CONFIRM_WINDOW_SECONDS * 1000);
          armedWindow := FIREWALL_CONFIRM_WINDOW_SECONDS |}.

Definition recordPendingV6 `{JsTables} `{JsDates} (intent : PendingV6Intent) (doc : option jstring)
    : hostM unit :=
  marker ← readPendingMarker;
  match marker with
  | None => mret tt
  | Some m =>
      '_ ← match intent, doc with
           | Replace, Some text => writeDaemonFile (PendingDoc V6) text
           | _, _ => removeDaemonFile (PendingDoc V6)
           end;
      writeDaemonFile PendingMarker
        (JSON_stringify (JObj (setEntry "v6" (JStr (intentName intent)) (members m))))
  end.

Definition readPendingDocument (family : FirewallFamily) : hostM (option jstring) :=
  readTextIfPresent (PendingDoc family).

(** ** The marker reads back *)

Lemma toISOString_utf16 t : utf16 (toISOString t).
Proof.
  assert (forall w n, utf16 (padded w n)) as Hp.
  { intros w n. eapply Forall_impl; [apply padded_digits |]. intros c Hc.
    unfold is_digit, in_range in Hc. bools. lia. }
  unfold toISOString. destruct (civilFromDays _) as [[y m] d].
  unfold utf16. assert (utf16 (yearText y)) as Hy.
  { unfold yearText. case_match; [apply Hp |]. apply Forall_cons. split; [by case_match | apply Hp]. }
  repeat first [apply Hp | apply Hy | apply Forall_nil_2 | apply Forall_app; split
               | apply Forall_cons; split; [lia |]].
Qed.

Lemma newMarker_printable `{WholeNumberText} d gen now i :
  utf16 d -> 0 <= gen < 2 ^ 53 -> printable_value (JObj (newMarker d gen now i)).
Proof.
  intros Hd Hg.
  assert (forall s, forallb (fun c => (c <? 65536)%N) s = true -> utf16 s) as Hu.
  { intros s Hs. apply Forall_forall. intros c Hc. rewrite forallb_forall in Hs.
    apply N.ltb_lt, Hs. by apply list_elem_of_In. }
  constructor; [apply (bool_decide_unpack _); vm_compute; exact I |]. unfold newMarker.
  repeat (apply Forall_cons_2; [split; [by apply Hu |]; constructor |]); [..| apply Forall_nil_2].
  all: try (apply whole_number_ok; (lia || unfold FIREWALL_CONFIRM_WINDOW_SECONDS; lia)).
  all: try apply toISOString_utf16.
  - done.
  - destruct i; by apply Hu.
Qed.

(** The members of a marker, by name; none of them is an array index. *)
Lemma seven_members (a b c d e f g : jval) :
  let o : entries := [("version" : jstring, a); ("digest" : jstring, b); ("generation" : jstring, c);
                      ("armedAt" : jstring, d); ("deadlineAt" : jstring, e);
                      ("windowSeconds" : jstring, f); ("v6" : jstring, g)] in
  getEntry o "version" = Some a /\ getEntry o "digest" = Some b /\
  getEntry o "generation" = Some c /\ getEntry o "armedAt" = Some d /\
  getEntry o "deadlineAt" = Some e /\ getEntry o "windowSeconds" = Some f /\
  getEntry o "v6" = Some g /\ enumerate o = o.
Proof. vm_compute. by split_and!. Qed.

Lemma newMarker_get d gen now i :
  let o := newMarker d gen now i in
  getEntry o "version" = Some (JNum (num_of_Z 1)) /\ getEntry o "digest" = Some (JStr d) /\
  getEntry o "generation" = Some (JNum (num_of_Z gen)) /\
  getEntry o "armedAt" = Some (JStr (toISOString now)) /\
  getEntry o "deadlineAt"
    = Some (JStr (toISOString (now + FIREWALL_CONFIRM_WINDOW_SECONDS * 1000))) /\
  getEntry o "windowSeconds" = Some (JNum (num_of_Z FIREWALL_CONFIRM_WINDOW_SECONDS)) /\
  getEntry o "v6" = Some (JStr (intentName i)) /\ enumerate o = o.
Proof. apply seven_members. Qed.

Lemma newMarker_order d gen now i : enumKeys (JObj (newMarker d gen now i)) = JObj (newMarker d gen now i).
Proof.
  transitivity (JObj (enumerate (newMarker d gen now i))); [done |].
  destruct (newMarker_get d gen now i) as (_ & _ & _ & _ & _ & _ & _ & E). by rewrite E.
Qed.

Lemma isMarker_intro `{JsDates} o one d g a text t w i :
  getEntry o "version" = Some (JNum one) -> integer_of one = Some 1 ->
  getEntry o "digest" = Some (JStr d) -> getEntry o "generation" = Some (JNum g) ->
  getEntry o "armedAt" = Some (JStr a) -> getEntry o "deadlineAt" = Some (JStr text) ->
  Date_parse text = Some t -> getEntry o "windowSeconds" = Some (JNum w) ->
  getEntry o "v6" = Some (JStr (intentName i)) ->
  isMarker (JObj o) = Some {| members := o; markerDigest := d; deadlineAt := text; deadline := t;
                              v6Intent := i |}.
Proof.
  intros E1 Hone E2 E3 E4 E5 Ht E6 E7. unfold isMarker. cbn [asRecord mbind option_bind].
  rewrite E1, E2, E3, E4, E5, E6, E7. cbn [asNumber asString option_bind mbind].
  rewrite decide_True by done. rewrite Ht. by destruct i.
Qed.

Lemma marker_reads `{WholeNumberText} `{JsDates} d gen now i :
  utf16 d -> 0 <= gen < 2 ^ 53 -> ordinary (now + FIREWALL_CONFIRM_WINDOW_SECONDS * 1000) ->
  markerOf (Some (JSON_stringify (JObj (newMarker d gen now i)))) =
  Some {| members := newMarker d gen now i; markerDigest := d;
          deadlineAt := toISOString (now + FIREWALL_CONFIRM_WINDOW_SECONDS * 1000);
          deadline := now + FIREWALL_CONFIRM_WINDOW_SECONDS * 1000; v6Intent := i |}.
Proof.
  intros Hd Hg Ht. unfold markerOf. cbn [mbind option_bind].
  rewrite stringify_compact, parse_compact by (by apply printable_enumKeys, newMarker_printable).
  rewrite newMarker_order. destruct (newMarker_get d gen now i) as (E1 & E2 & E3 & E4 & E5 & E6 & E7 & _).
  pose proof (parse_toISOString _ Ht). pose proof (num_of_Z_exact 1 ltac:(lia)).
  eapply isMarker_intro; eassumption.
Qed.

(** ** What staging does *)

(** The guard's timer is started, or stopped. *)
Definition armsGuard (e : event) : bool :=
  bool_decide (words e = ["systemctl"; "restart"; FIREWALL_GUARD_TIMER]) && worked e.
Definition stopsGuard (e : event) : bool :=
  bool_decide (words e = ["systemctl"; "stop"; FIREWALL_GUARD_TIMER]).

Lemma armTimer_moves (P : event -> Prop) :
  (forall e, issues "systemctl" ["restart"; FIREWALL_GUARD_TIMER] None e -> P e) ->
  moves (does P) armGuardTimer.
Proof. intros HP. unfold armGuardTimer, runFirewallHost. walk. Qed.
Lemma disarm_moves (P : event -> Prop) :
  (forall e, issues "systemctl" ["stop"; FIREWALL_GUARD_TIMER] None e -> P e) ->
  moves (does P) disarmGuardTimer.
Proof. intros HP. unfold disarmGuardTimer, runFirewallHost. walk. Qed.
Lemma clear_moves (P : event -> Prop) :
  P (Removed PendingMarker) -> (forall f, P (Removed (PendingDoc f))) ->
  moves (does P) clearPendingFirewall.
Proof. intros Hm Hd. unfold clearPendingFirewall. walk. Qed.
#[export] Hint Resolve armTimer_moves disarm_moves clear_moves : host.

Definition sparesDurable (e : event) : Prop := forall f, spares (DurableDoc f) e = true.

Lemma systemctl_words verb unit stdin e :
  issues "systemctl" [verb; unit] stdin e -> words e = ["systemctl"; verb; unit] /\ sparesDurable e.
Proof. intros (Hw & _ & Hs)%issues_words. split; [done | intros f; apply Hs]. Qed.

(** Nothing of the kernel, the guard's stop or the durable files. *)
Definition stagingEvent (e : event) : Prop :=
  loads e = false /\ rewires e = false /\ stopsGuard e = false /\ sparesDurable e.

Lemma restart_stages e :
  issues "systemctl" ["restart"; FIREWALL_GUARD_TIMER] None e -> stagingEvent e.
Proof.
  intros (Hw & Hs)%systemctl_words. unfold stagingEvent, loads, rewires, stopsGuard. rewrite Hw.
  by split_and!.
Qed.
#[export] Hint Resolve restart_stages : host.
#[export] Hint Extern 1 (stagingEvent (Removed _)) => (by repeat split) : host.
#[export] Hint Extern 1 (stagingEvent (Wrote _ _)) => (by repeat split) : host.

Lemma arm_moves `{JsTables} d gen doc now : moves (does stagingEvent) (armPendingFirewall d gen doc now).
Proof. unfold armPendingFirewall. walk. Qed.

Lemma armTimer_run h a h' :
  armGuardTimer h = (Ok a, h') ->
  exists new, after h new h' /\ Exists (fun e => armsGuard e = true) new /\
    Forall (issues "systemctl" ["restart"; FIREWALL_GUARD_TIMER] None) new.
Proof.
  unfold armGuardTimer, runFirewallHost. intros E. run_inv.
  destruct (runInput_spec "systemctl" ["restart"; FIREWALL_GUARD_TIMER] None h) as
    (pre & argv & r & h1 & E1 & Ha & Hi & _); [done |].
  rewrite E1 in E0. injection E0 as <- <-. destruct (success r) eqn:Es; [| discriminate E].
  injection E as _ <-. exists (pre ++ [Spawned argv (stdinText None) r]). split; [done |]. split; [| done].
  apply Exists_app. right. constructor. unfold armsGuard.
  apply Forall_app in Hi as [_ Hi]. apply Forall_cons in Hi as [Hi _].
  destruct (systemctl_words _ _ _ _ Hi) as [-> _]. by rewrite bool_decide_true.
Qed.

Lemma arm_run `{JsTables} d gen doc now h a h' :
  armPendingFirewall d gen doc now h = (Ok a, h') ->
  let marker := JSON_stringify (JObj (newMarker d gen now Keep)) in
  a = {| armedDeadline := toISOString (now + FIREWALL_CONFIRM_WINDOW_SECONDS * 1000);
         armedWindow := FIREWALL_CONFIRM_WINDOW_SECONDS |} /\
  (exists pre arm, after h (pre ++ Wrote (PendingDoc V4) doc :: Wrote PendingMarker marker :: arm) h' /\
    Exists (fun e => armsGuard e = true) arm /\
    Forall (issues "systemctl" ["restart"; FIREWALL_GUARD_TIMER] None) arm) /\
  fileAt (files h') PendingMarker = Some marker /\
  fileAt (files h') (PendingDoc V4) = Some doc /\
  fileAt (files h') (PendingDoc V6) = None /\ fileAt (files h') RollbackRecord = None.
Proof.
  cbv zeta. unfold armPendingFirewall. generalize (JSON_stringify (JObj (newMarker d gen now Keep))).
  intros marker E. run_inv. apply ensure_run in E0. apply must_run in E1.
  apply remove_run in E2 as (r1 & A2 & F2 & N2). apply remove_run in E3 as (r2 & A3 & F3 & N3).
  apply write_run in E4 as [A4 N4]. apply write_run in E5 as [A5 N5].
  apply catch_run in E6 as [(a' & E6 & _) | (e & hx & _ & E6)].
  2: { apply bind_run in E6 as [(? & ? & _ & E6) | (? & _ & E6)]; discriminate E6. }
  apply armTimer_run in E6 as (arm & A6 & X6 & I6).
  split; [done |].
  assert (forall p, fileAt (files h') p = fileAt (files h5) p) as H6.
  { intros p. eapply after_spares; [exact A6 |]. eapply Forall_impl; [exact I6 |].
    intros e (_ & _ & Hs)%issues_words. apply Hs. }
  split.
  - exists (r1 ++ r2), arm. split; [| done].
    replace ((r1 ++ r2) ++ _) with ([] ++ [] ++ r1 ++ r2 ++ [Wrote (PendingDoc V4) doc] ++
      [Wrote PendingMarker marker] ++ arm)
      by (cbn; by rewrite <- app_assoc).
    do 6 (eapply after_app; [eassumption |]). exact A6.
  - rewrite !H6.
    rewrite N5, !(after_spares _ _ _ _ A5), N4, !(after_spares _ _ _ _ A4) by (by repeat constructor).
    rewrite N3, (after_spares RollbackRecord _ _ _ A3), N2; [done |].
    eapply Forall_impl; [exact F3 |]. by intros ? ->.
Qed.

(** ** Recording the v6 outcome *)

Lemma newMarker_set d gen now i j :
  setEntry "v6" (JStr (intentName j)) (newMarker d gen now i) = newMarker d gen now j.
Proof.
  assert (forall a b c d e f g g' : jval,
    setEntry "v6" g' [("version" : jstring, a); ("digest" : jstring, b); ("generation" : jstring, c);
      ("armedAt" : jstring, d); ("deadlineAt" : jstring, e); ("windowSeconds" : jstring, f);
      ("v6" : jstring, g)] =
    [("version" : jstring, a); ("digest" : jstring, b); ("generation" : jstring, c);
      ("armedAt" : jstring, d); ("deadlineAt" : jstring, e); ("windowSeconds" : jstring, f);
      ("v6" : jstring, g')]) as E by (intros; vm_compute; reflexivity).
  apply E.
Qed.

Lemma readMarker_run `{JsDates} h m h' :
  readPendingMarker h = (Ok m, h') -> after h [] h' /\ m = markerOf (fileAt (files h) PendingMarker).
Proof.
  unfold readPendingMarker. intros E. run_inv. by apply read_run in E0 as [A ->].
Qed.

(** The marker of a stage is rewritten with the outcome, and the v6 document is
    there exactly when a confirm will promote it. *)
Lemma recordV6_run `{WholeNumberText} `{JsDates} d gen now i intent doc h a h' :
  utf16 d -> 0 <= gen < 2 ^ 53 -> ordinary (now + FIREWALL_CONFIRM_WINDOW_SECONDS * 1000) ->
  fileAt (files h) PendingMarker = Some (JSON_stringify (JObj (newMarker d gen now i))) ->
  recordPendingV6 intent doc h = (Ok a, h') ->
  fileAt (files h') PendingMarker = Some (JSON_stringify (JObj (newMarker d gen now intent))) /\
  fileAt (files h') (PendingDoc V6) = match intent with Replace => doc | _ => None end /\
  (forall p, p <> PendingMarker -> p <> PendingDoc V6 -> fileAt (files h') p = fileAt (files h) p).
Proof.
  intros Hd Hg Ht Hm. pose proof (marker_reads d gen now i Hd Hg Ht) as Hread.
  unfold recordPendingV6. intros E. run_inv. apply readMarker_run in E0 as [A0 ->].
  rewrite Hm, Hread in E. cbn [members] in E. rewrite newMarker_set in E. run_inv.
  apply write_run in E as [A2 F2].
  assert (exists new, after h0 new h1 /\
    Forall (fun e => forall p, p <> PendingDoc V6 -> spares p e = true) new /\
    fileAt (files h1) (PendingDoc V6) = match intent with Replace => doc | _ => None end)
    as (new & A1 & S1 & F1).
  { destruct intent, doc as [t |];
      (apply write_run in E0 as [A1 F1] || apply remove_run in E0 as (new & A1 & R1 & F1));
      eexists; (split; [exact A1 |]); (split; [| exact F1]).
    all: try (eapply Forall_impl; [exact R1 |]; intros e ->; intros p Hp; cbn;
              rewrite bool_decide_false; done).
    repeat constructor. intros p Hp. cbn. by rewrite bool_decide_false. }
  split; [done |].
  split; [by rewrite (after_spares _ _ _ _ A2) by (by repeat constructor) |].
  intros p Hp1 Hp2. rewrite (after_spares _ _ _ _ A2).
  2: { repeat constructor. cbn. by rewrite bool_decide_false. }
  rewrite (after_spares p _ _ _ A1).
  2: { eapply Forall_impl; [exact S1 |]. intros e He. by apply He. }
  by apply after_same.
Qed.
