(* ===== verification/FwApply.v ===== *)
(** * Applying a rendered firewall ([firewall/apply.ts])

    Probing the tools, loading documents, hanging the jumps, staging under the
    rollback guard, turning the firewall off, and putting the forward chain
    back when Docker returns. *)

From S2P Require Import Prelude Json JsonPrint GateHttp Dates Log FwRender FwHost FwPending.

#[local] Open Scope Z_scope.

Definition CONTROL_PLANE_UNIT : jstring := "turbopanel-instance.service".
Definition INPUT_BUILTIN : jstring := "INPUT".
Definition DOCKER_USER_CHAIN : jstring := "DOCKER-USER".

(** [iptables] or [ip6tables], and their [-restore] and [-save] twins. *)
Definition binaryFor (family : FirewallFamily) (tool : jstring) : jstring :=
  match family with V4 => ("iptables" : jstring) | V6 => ("ip6tables" : jstring) end ++ tool.

(** ** Probes *)

Inductive probe_warning :=
| IptablesMissing
| IptablesFails (detail : jstring)
| LegacyBackend (version : jstring).

Record XtablesProbe := {
  probeOk : bool; probeVersion : jstring; probeIpv6 : bool; probeWarning : option probe_warning
}.

Definition probeXtables : hostM XtablesProbe :=
  v4 ← runFirewallHost "iptables" ["-V"];
  if success v4 then
    v6 ← runFirewallHost "ip6tables" ["-V"];
    mret {| probeOk := true; probeVersion := stdout v4; probeIpv6 := success v6;
            probeWarning := if includes "nf_tables" (stdout v4) then None
                            else Some (LegacyBackend (stdout v4)) |}
  else
    mret {| probeOk := false; probeVersion := []; probeIpv6 := false;
            probeWarning := Some (if isMissingBinaryText v4 then IptablesMissing
                                  else IptablesFails (failureText v4)) |}.

Definition hasDockerUserChain (family : FirewallFamily) : hostM bool :=
  r ← runFirewallHost (binaryFor family []) ["-S"; DOCKER_USER_CHAIN]; mret (success r).

Definition isControlPlaneColocated : hostM bool :=
  r ← runFirewallHost "systemctl" ["is-active"; CONTROL_PLANE_UNIT];
  mret (bool_decide (trim (stdout r) = "active")).

(** ** Jumps and documents *)

Definition failed (what : jstring) (r : FirewallRunResult) : gate_error :=
  OtherErr "Error" (what ++ (" failed: " : jstring) ++ failureText r).

Definition ensureJump (family : FirewallFamily) (parent child : jstring) : hostM unit :=
  let bin := binaryFor family [] in
  present ← runFirewallHost bin ["-C"; parent; "-j"; child];
  if success present then mret tt
  else
    added ← runFirewallHost bin ["-I"; parent; "1"; "-j"; child];
    if success added then mret tt
    else raise (failed (join " " [bin; "-I"; parent; "1"; "-j"; child]) added).

(** At most [attempts] removals; stops at the first that fails. *)
Fixpoint removeJumps (attempts : nat) (family : FirewallFamily) (parent child : jstring) : hostM unit :=
  match attempts with
  | O => mret tt
  | S n =>
      removed ← runFirewallHost (binaryFor family []) ["-D"; parent; "-j"; child];
      if success removed then removeJumps n family parent child else mret tt
  end.
Definition removeJumpBestEffort (family : FirewallFamily) (parent child : jstring) : hostM unit :=
  removeJumps 8 family parent child.

Definition FirewallRulesetRefusedError (message : jstring) : gate_error :=
  OtherErr "FirewallRulesetRefusedError" message.

Definition refusalText (bin : jstring) (r : FirewallRunResult) : jstring :=
  bin ++ (" --test refused the ruleset: " : jstring) ++ failureText r.

Definition restoreDocument (family : FirewallFamily) (document : jstring) : hostM unit :=
  let bin := binaryFor family "-restore" in
  tested ← runInput bin ["--noflush"; "--test"] (Some document);
  if success tested then
    loaded ← runInput bin ["--noflush"] (Some document);
    if success loaded then mret tt else raise (failed bin loaded)
  else raise (FirewallRulesetRefusedError (refusalText bin tested)).

(** [--test] each document; the errors, cut to 500 units. *)
Definition validateRenderedFirewall (rendered : RenderedFirewall) (probe : XtablesProbe)
    : hostM (list jstring) :=
  let documents :=
    (V4, v4 rendered) ::
    match v6 rendered with
    | Some d => if probeIpv6 probe then [(V6, d)] else []
    | None => []
    end in
  verdicts ← mapSequential (fun '(family, document) =>
    let bin := binaryFor family "-restore" in
    tested ← runInput bin ["--noflush"; "--test"] (Some document);
    mret (if success tested then None else Some (take 500 (sanitizeForLog (refusalText bin tested))))) documents;
  mret (omap (fun v => v) verdicts).

(** ** The guarded apply *)

Definition FirewallIpv6ApplyError (cause : gate_error) : gate_error :=
  OtherErr "FirewallIpv6ApplyError"
    (("ipv6_unfiltered: IPv6 ruleset was not applied (IPv4 is applied; IPv6 left unchanged): "
        : jstring)
     ++ match cause with HttpErr _ m | OtherErr _ m => m | NoFuel => [] end).

Inductive apply_warning := DockerUserAbsent | Ipv6Unfiltered.
Inductive FirewallIpv6Status := Applied6 | Skipped6 | Unfiltered6.

Record FirewallApplyOutcome := {
  ipv6Applied : bool;
  ipv6Status : FirewallIpv6Status;
  forwardApplied : bool;
  applyWarnings : list apply_warning;
  confirmation : ArmedPendingFirewall
}.

Section Apply.
Context `{JsTables} `{JsDates}.

Definition applyIpv6 (document : jstring) (includeForward : bool) : hostM unit :=
  '_ ← restoreDocument V6 document;
  '_ ← ensureJump V6 INPUT_BUILTIN FIREWALL_INPUT_CHAIN;
  if includeForward then ensureJump V6 DOCKER_USER_CHAIN FIREWALL_FORWARD_CHAIN else mret tt.

(** [None]: no failure. *)
Definition attemptIpv6 (rendered : RenderedFirewall) (includeForward : FirewallFamily -> bool)
    (probe : XtablesProbe) : hostM (option gate_error * bool) :=
  match v6 rendered with
  | Some document =>
      if probeIpv6 probe then
        catching ('_ ← applyIpv6 document (includeForward V6); mret (None, true))
                 (fun e => mret (Some e, false))
      else mret (None, false)
  | None => mret (None, false)
  end.

(** [loadStagedRuleset] from the point where the v4 document is loaded
    ([progress.v4Loaded]). *)
Definition loadAfterV4 (rendered : RenderedFirewall) (includeForward : FirewallFamily -> bool)
    (probe : XtablesProbe) (armed : ArmedPendingFirewall) : hostM FirewallApplyOutcome :=
  '_ ← ensureJump V4 INPUT_BUILTIN FIREWALL_INPUT_CHAIN;
  '_ ← (if includeForward V4 then ensureJump V4 DOCKER_USER_CHAIN FIREWALL_FORWARD_CHAIN else mret tt);
  '(failure, loaded6) ← attemptIpv6 rendered includeForward probe;
  match failure with
  | Some cause => '_ ← recordPendingV6 Keep None; raise (FirewallIpv6ApplyError cause)
  | None =>
      '_ ← (if loaded6 : bool then recordPendingV6 Replace (v6 rendered) else recordPendingV6 Forget None);
      mret {| ipv6Applied := loaded6;
              ipv6Status := if loaded6 then Applied6
                            else match v6 rendered with Some _ => Unfiltered6 | None => Skipped6 end;
              forwardApplied := includeForward V4;
              applyWarnings :=
                (if includeForward V4 then [] else [DockerUserAbsent]) ++
                match v6 rendered with
                | Some _ => if probeIpv6 probe then [] else [Ipv6Unfiltered]
                | None => []
                end;
              confirmation := armed |}
  end.

(** Stage, load the v4 document (forgetting the stage when that fails), then
    the rest. *)
Definition applyRenderedFirewall (rendered : RenderedFirewall)
    (includeForward : FirewallFamily -> bool) (probe : XtablesProbe) (gen now : Z)
    : hostM FirewallApplyOutcome :=
  armed ← armPendingFirewall (digest rendered) gen (v4 rendered) now;
  '_ ← catching (restoreDocument V4 (v4 rendered))
         (fun e => '_ ← clearPendingFirewall; '_ ← disarmGuardTimer; raise e);
  loadAfterV4 rendered includeForward probe armed.

(** ** Off *)

Definition removeFamilyChains (family : FirewallFamily) : hostM unit :=
  let bin := binaryFor family [] in
  '_ ← removeJumpBestEffort family INPUT_BUILTIN FIREWALL_INPUT_CHAIN;
  '_ ← removeJumpBestEffort family DOCKER_USER_CHAIN FIREWALL_FORWARD_CHAIN;
  forEachSequential (fun '(chain, flag) => runFirewallHost bin [flag; chain])
    [(FIREWALL_INPUT_CHAIN, "-F" : jstring); (FIREWALL_INPUT_CHAIN, "-X" : jstring);
     (FIREWALL_FORWARD_CHAIN, "-F" : jstring); (FIREWALL_FORWARD_CHAIN, "-X" : jstring)].

Definition removeFirewall : hostM unit :=
  '_ ← forEachSequential removeFamilyChains [V4; V6];
  '_ ← removeDaemonFile (DurableDoc V4);
  '_ ← removeDaemonFile (DurableDoc V6);
  '_ ← clearPendingFirewall;
  '_ ← removeDaemonFile RollbackRecord;
  disarmGuardTimer.

(** ** The chains as they are, and after Docker came back *)

Definition snapshotFirewallChains (family : FirewallFamily) : hostM (option jstring) :=
  r ← runFirewallHost (binaryFor family "-save") ["-t"; "filter"];
  mret (if success r then
          Some (join [10%N] (List.filter (fun line =>
            startsWith ":TP-" line || startsWith "-A TP-" line || includes "-j TP-" line)
            (split 10 (stdout r))))
        else None).

Definition forwardDocumentFilename (family : FirewallFamily) (pending : option PendingFirewallMarker)
    : option fpath :=
  match pending, family with
  | None, _ => Some (DurableDoc family)
  | Some _, V4 => Some (PendingDoc V4)
  | Some m, V6 => match v6Intent m with Replace => Some (PendingDoc V6) | _ => None end
  end.

Definition rehangForwardChain (family : FirewallFamily) (filename : option fpath) : hostM unit :=
  match filename with
  | None => mret tt
  | Some path =>
      read ← readTextFile path;
      match read with
      | Throw _ | Ok None => mret tt
      | Ok (Some document) =>
          if includes (58%N :: FIREWALL_FORWARD_CHAIN ++ [32%N]) document then
            catching
              (here ← hasDockerUserChain family;
               if here : bool then
                 '_ ← restoreDocument family document;
                 ensureJump family DOCKER_USER_CHAIN FIREWALL_FORWARD_CHAIN
               else mret tt)
              (fun _ => mret tt)
          else mret tt
      end
  end.

(** [None]: the marker could not be read. *)
Definition reinstallFirewallForwardingIfEnabled : hostM unit :=
  read ← catching (m ← readPendingMarker; mret (Some m)) (fun _ => mret None);
  match read with
  | None => mret tt
  | Some pending =>
      forEachSequential (fun family => rehangForwardChain family (forwardDocumentFilename family pending))
        [V4; V6]
  end.
End Apply.

(** ** What applying does *)

Lemma binaryFor_plain family tool : tool ∈ ([[]; "-restore"; "-save"] : list jstring) ->
  plainCommand (binaryFor family tool) = true.
Proof. rewrite !elem_of_cons. intros [-> | [-> | [-> | []%elem_of_nil]]]; by destruct family. Qed.
#[export] Hint Extern 1 (plainCommand (binaryFor _ _) = true) =>
  (apply binaryFor_plain; set_solver) : host.

(** Not the guard, not the durable files, not the stage. *)
Definition loadingEvent (e : event) : Prop :=
  stopsGuard e = false /\ sparesDurable e /\ spares (PendingDoc V4) e = true /\
  e <> Removed PendingMarker.

Lemma xtables_event family tool args stdin e :
  issues (binaryFor family tool) args stdin e ->
  stopsGuard e = false /\ sparesDurable e /\ (forall p, spares p e = true) /\ e <> Removed PendingMarker.
Proof.
  intros Hi. pose proof (issues_words _ _ _ _ Hi) as (Hw & _ & Hs). destruct Hi as (argv & r & -> & _).
  split_and!; [| intros f; apply Hs | exact Hs | done].
  unfold stopsGuard. rewrite Hw. apply bool_decide_eq_false. destruct family; intros [=].
Qed.

(** A restore's events: the check, then the load. *)
Definition restoring (family : FirewallFamily) (document : jstring) (e : event) : Prop :=
  issues (binaryFor family "-restore") ["--noflush"; "--test"] (Some document) e \/
  issues (binaryFor family "-restore") ["--noflush"] (Some document) e.

Lemma restoring_fed family document e :
  restoring family document e -> fed e = stdinText (Some document) /\ rewires e = false.
Proof.
  intros [(Hw & Hf & _)%issues_words | (Hw & Hf & _)%issues_words]; (split; [done |]);
    unfold rewires; rewrite Hw; by destruct family.
Qed.

Lemma testing_loads family document e :
  issues (binaryFor family "-restore") ["--noflush"; "--test"] (Some document) e -> loads e = false.
Proof. intros (Hw & _ & _)%issues_words. unfold loads. rewrite Hw. by destruct family. Qed.

Lemma restore_moves (P : event -> Prop) family document :
  (forall e, restoring family document e -> P e) -> moves (does P) (restoreDocument family document).
Proof.
  intros HP. unfold restoreDocument.
  assert (plainCommand (binaryFor family "-restore") = true) as Hp by (by destruct family).
  apply moves_bind; [apply does_preorder | apply run_moves; [done | intros; apply HP; by left] |].
  intros r. case_match; [| walk].
  apply moves_bind; [apply does_preorder | apply run_moves; [done | intros; apply HP; by right] |].
  walk.
Qed.

(** A restore that fails loaded nothing. *)
Lemma restore_fails family document h e h' :
  restoreDocument family document h = (Throw e, h') ->
  exists new, after h new h' /\ Forall (restoring family document) new /\
    Forall (fun e => loads e = true -> worked e = false) new.
Proof.
  assert (plainCommand (binaryFor family "-restore") = true) as Hp by (by destruct family).
  unfold restoreDocument. intros E. apply bind_run in E as [(r1 & h1 & E1 & E) | (e1 & E1 & _)].
  - destruct (runInput_spec _ ["--noflush"; "--test"] (Some document) h Hp)
      as (pre & argv & r & h1' & E1' & A1 & I1 & _).
    rewrite E1' in E1. injection E1 as -> ->.
    assert (Forall (fun e => loads e = true -> worked e = false)
      (pre ++ [Spawned argv (stdinText (Some document)) r1])) as L1.
    { eapply Forall_impl; [exact I1 |]. intros x Hx%testing_loads. congruence. }
    assert (Forall (restoring family document) (pre ++ [Spawned argv (stdinText (Some document)) r1]))
      as R1 by (eapply Forall_impl; [exact I1 | intros; by left]).
    destruct (success r1); [| injection E as _ <-; eauto].
    apply bind_run in E as [(r2 & h2 & E2 & E) | (e1 & E2 & _)].
    + destruct (runInput_spec _ ["--noflush"] (Some document) h1 Hp)
        as (pre2 & argv2 & r & h2' & E2' & A2 & I2 & W2).
      rewrite E2' in E2. injection E2 as -> ->.
      destruct (success r2) eqn:Es; [discriminate E |]. injection E as _ <-.
      exists ((pre ++ [Spawned argv (stdinText (Some document)) r1]) ++
              (pre2 ++ [Spawned argv2 (stdinText (Some document)) r2])).
      split; [by eapply after_app |]. split; apply Forall_app; (split; [done |]).
      * eapply Forall_impl; [exact I2 | intros; by right].
      * apply Forall_app. split; [| by constructor].
        eapply Forall_impl; [exact W2 |]. by intros x (? & ? & -> & ?) _.
    + destruct (runInput_spec _ ["--noflush"] (Some document) h1 Hp) as (? & ? & ? & ? & E' & _).
      congruence.
  - destruct (runInput_spec _ ["--noflush"; "--test"] (Some document) h Hp) as (? & ? & ? & ? & E' & _).
    congruence.
Qed.

Lemma ensureJump_moves (P : event -> Prop) family parent child :
  (forall args e, issues (binaryFor family []) args None e -> P e) ->
  moves (does P) (ensureJump family parent child).
Proof. intros HP. unfold ensureJump, runFirewallHost. walk. Qed.
#[export] Hint Resolve restore_moves ensureJump_moves : host.

Section Effects.
Context `{JsTables} `{JsDates}.

Lemma readMarker_moves (P : event -> Prop) : moves (does P) readPendingMarker.
Proof. unfold readPendingMarker. walk. Qed.
#[local] Hint Resolve readMarker_moves : host.

Lemma recordV6_moves (P : event -> Prop) intent doc :
  (forall t, P (Wrote (PendingDoc V6) t)) -> P (Removed (PendingDoc V6)) ->
  (forall t, P (Wrote PendingMarker t)) -> moves (does P) (recordPendingV6 intent doc).
Proof. intros Hw Hr Hm. unfold recordPendingV6. walk. Qed.
#[local] Hint Resolve recordV6_moves : host.

(** What a ruleset may load. *)
Definition rendersTo (rendered : RenderedFirewall) (doc : option jstring) : Prop :=
  doc = stdinText (Some (v4 rendered)) \/ exists d, v6 rendered = Some d /\ doc = stdinText (Some d).

Definition laterEvent (rendered : RenderedFirewall) (e : event) : Prop :=
  loadingEvent e /\ (loads e = true -> rendersTo rendered (fed e)).

Lemma xtables_later rendered family args e :
  issues (binaryFor family []) args None e -> laterEvent rendered e.
Proof.
  intros Hi. destruct (xtables_event _ _ _ _ _ Hi) as (? & ? & ? & ?). split; [by split_and! |].
  destruct (issues_words _ _ _ _ Hi) as (Hw & _ & _). unfold loads. rewrite Hw. by destruct family.
Qed.
Lemma restoring_later rendered family document e :
  rendersTo rendered (stdinText (Some document)) -> restoring family document e -> laterEvent rendered e.
Proof.
  intros Hd Hr. destruct (restoring_fed _ _ _ Hr) as [Hf _]. split; [| by rewrite Hf].
  destruct Hr as [Hi | Hi]; destruct (xtables_event _ _ _ _ _ Hi) as (? & ? & ? & ?); by split_and!.
Qed.

Lemma loadAfterV4_moves rendered fwd probe armed :
  moves (does (laterEvent rendered)) (loadAfterV4 rendered fwd probe armed).
Proof.
  assert (forall f args e, issues (binaryFor f []) args None e -> laterEvent rendered e) as Hx
    by (intros; by eapply xtables_later).
  assert (forall intent doc, moves (does (laterEvent rendered)) (recordPendingV6 intent doc)) as Hrec
    by (intros; apply recordV6_moves; intros; by repeat split).
  assert (forall d, v6 rendered = Some d -> moves (does (laterEvent rendered)) (restoreDocument V6 d))
    as Hres by (intros d Hd; apply restore_moves; intros e; apply restoring_later; right; eauto).
  unfold loadAfterV4, attemptIpv6, applyIpv6. walk.
Qed.

(** The stage a ruleset is loaded under: its document and its marker are
    written, then the guard's timer is running. *)
Definition underGuard (rendered : RenderedFirewall) (gen now : Z) (stage : list event) : Prop :=
  exists pre arm, stage = pre ++ Wrote (PendingDoc V4) (v4 rendered) ::
      Wrote PendingMarker (JSON_stringify (JObj (newMarker (digest rendered) gen now Keep))) :: arm /\
    Exists (fun e => armsGuard e = true) arm.

Lemma cleared_events h a h' e1 :
  (('_ ← clearPendingFirewall; '_ ← disarmGuardTimer; raise e1) : hostM unit) h = (a, h') ->
  exists new, after h new h' /\ Forall (fun e => loads e = false /\ sparesDurable e) new.
Proof.
  set (P := fun e => loads e = false /\ sparesDurable e).
  assert (moves (does P) clearPendingFirewall) as Hc by (apply clear_moves; intros; by repeat split).
  assert (moves (does P) disarmGuardTimer) as Hd.
  { apply disarm_moves. intros e (Hw & Hs)%systemctl_words. split; [| done]. unfold loads. by rewrite Hw. }
  intros E. eapply moves_run; [| exact E]. walk.
Qed.
End Effects.

(** ** Properties *)

(** C34. Rules are only ever loaded under the rollback guard.  However commands
    and file system calls end, an apply first stages: nothing is loaded, no
    chain is touched and the guard is not stopped until the v4 document and the
    marker are written and the guard's timer was started.  What is loaded is the
    rendered documents; the durable documents are never written; and once a
    document is loaded the guard is not stopped again and the marker and the
    pending v4 document are still there at the end. *)
Theorem apply_loads_under_guard `{JsTables} `{JsDates} rendered fwd probe gen now h r h' :
  applyRenderedFirewall rendered fwd probe gen now h = (r, h') ->
  exists stage load, after h (stage ++ load) h' /\
    Forall stagingEvent stage /\
    (load <> [] -> underGuard rendered gen now stage) /\
    Forall (fun e => sparesDurable e /\ (loads e = true -> rendersTo rendered (fed e))) load /\
    (Exists (fun e => loads e && worked e = true) load ->
      Forall (fun e => stopsGuard e = false) load /\
      is_Some (fileAt (files h') PendingMarker) /\
      fileAt (files h') (PendingDoc V4) = Some (v4 rendered)).
Proof.
  unfold applyRenderedFirewall. intros E.
  apply bind_run in E as [(armed & h1 & E1 & E) | (e & E1 & ->)].
  2: { destruct (moves_run _ _ _ _ _ (arm_moves _ _ _ _) E1) as (stage & A1 & S1).
       exists stage, []. rewrite app_nil_r. split_and!; try done. by intros ?%Exists_nil. }
  destruct (moves_run _ _ _ _ _ (arm_moves _ _ _ _) E1) as (stage & A1 & S1).
  destruct (arm_run _ _ _ _ _ _ _ E1) as (-> & (pre & arm & A1' & X1 & _) & Fm & F4 & _ & _).
  assert (stage = pre ++ Wrote (PendingDoc V4) (v4 rendered) ::
    Wrote PendingMarker (JSON_stringify (JObj (newMarker (digest rendered) gen now Keep))) :: arm) as Est.
  { destruct A1 as [T1 _ _], A1' as [T1' _ _]. rewrite T1 in T1'. by eapply app_inv_head. }
  assert (underGuard rendered gen now stage) as HG by (exists pre, arm; done).
  exists stage.
  apply bind_run in E as [(u & h2 & E2 & E) | (e & E2 & ->)].
  - apply catch_run in E2 as [([] & E2 & _) | (e & hx & _ & E2)].
    2: { apply bind_run in E2 as [(? & ? & _ & E2) | (? & _ & E2)]; [| discriminate E2].
         apply bind_run in E2 as [(? & ? & _ & E2) | (? & _ & E2)]; discriminate E2. }
    assert (moves (does (laterEvent rendered)) (restoreDocument V4 (v4 rendered))) as Hr
      by (apply restore_moves; intros e; apply restoring_later; by left).
    destruct (moves_run _ _ _ _ _ Hr E2) as (n2 & A2 & L2).
    destruct (moves_run _ _ _ _ _ (loadAfterV4_moves _ _ _ _) E) as (n3 & A3 & L3).
    assert (Forall (laterEvent rendered) (n2 ++ n3)) as L by (by apply Forall_app).
    exists (n2 ++ n3). split; [by eauto using after_app |]. split; [done |]. split; [done |].
    split; [eapply Forall_impl; [exact L |]; by intros e [(_ & ? & _) ?] |].
    intros _. split; [eapply Forall_impl; [exact L |]; by intros e [(? & _) _] |].
    rewrite (after_files _ _ _ (after_app _ _ _ _ _ A2 A3)). split.
    + apply replayed_keeps; [| by rewrite Fm]. eapply Forall_impl; [exact L |]. by intros e [(_ & _ & _ & ?) _].
    + rewrite replayed_spares, F4; [done |]. eapply Forall_impl; [exact L |]. by intros e [(_ & _ & ? & _) _].
  - apply catch_run in E2 as [(? & _ & [=]) | (e2 & h2 & E2 & E3)].
    destruct (restore_fails _ _ _ _ _ E2) as (n2 & A2 & R2 & L2).
    destruct (cleared_events _ _ _ _ E3) as (n3 & A3 & L3).
    exists (n2 ++ n3). split; [by eauto using after_app |]. split; [done |]. split; [done |]. split.
    + apply Forall_app. split.
      * eapply Forall_impl; [exact R2 |]. intros x Hx.
        destruct (restoring_later rendered _ _ _ (or_introl eq_refl) Hx) as [(_ & ? & _) ?]. done.
      * eapply Forall_impl; [exact L3 |]. intros x [Hx ?]. split; [done |]. congruence.
    + intros Hex. exfalso. apply Exists_app in Hex as [Hex | Hex];
        apply Exists_exists in Hex as (x & Hin & [Hl Hw]%andb_true_iff).
      * rewrite Forall_forall in L2. specialize (L2 x Hin Hl). congruence.
      * rewrite Forall_forall in L3. destruct (L3 x Hin). congruence.
Qed.

(** ** The state an apply leaves *)

(** Programs only. *)
Definition sparesAll (e : event) : Prop := forall p, spares p e = true.
Lemma issues_sparesAll cmd args stdin e : issues cmd args stdin e -> sparesAll e.
Proof. by intros (_ & _ & Hs)%issues_words. Qed.
#[export] Hint Resolve issues_sparesAll : host.

Lemma moves_sparesAll {A} (m : hostM A) h r h' p :
  moves (does sparesAll) m -> m h = (r, h') -> fileAt (files h') p = fileAt (files h) p.
Proof.
  intros Hm E. destruct (moves_run _ _ _ _ _ Hm E) as (new & A1 & S). eapply after_spares; [exact A1 |].
  eapply Forall_impl; [exact S |]. intros e He. apply He.
Qed.

Lemma restore_sparesAll family document : moves (does sparesAll) (restoreDocument family document).
Proof. apply restore_moves. intros e [He | He]; by eapply issues_sparesAll. Qed.
#[export] Hint Resolve restore_sparesAll : host.

Lemma applied_files `{WholeNumberText} `{JsDates} rendered fwd probe gen now h o h' :
  utf16 (digest rendered) -> 0 <= gen < 2 ^ 53 ->
  ordinary (now + FIREWALL_CONFIRM_WINDOW_SECONDS * 1000) ->
  applyRenderedFirewall rendered fwd probe gen now h = (Ok o, h') ->
  let intent := if ipv6Applied o then Replace else Forget in
  fileAt (files h') PendingMarker
    = Some (JSON_stringify (JObj (newMarker (digest rendered) gen now intent))) /\
  fileAt (files h') (PendingDoc V4) = Some (v4 rendered) /\
  fileAt (files h') (PendingDoc V6) = (if ipv6Applied o then v6 rendered else None) /\
  (ipv6Applied o = true -> v6 rendered <> None) /\
  fileAt (files h') RollbackRecord = None /\
  forall f, fileAt (files h') (DurableDoc f) = fileAt (files h) (DurableDoc f).
Proof.
  intros Hd Hg Ht. unfold applyRenderedFirewall, loadAfterV4. intros E. run_inv.
  destruct (moves_run _ _ _ _ _ (arm_moves _ _ _ _) E0) as (stage & A0 & S0).
  destruct (arm_run _ _ _ _ _ _ _ E0) as (-> & _ & Fm & F4 & _ & Fr).
  assert (forall f, fileAt (files h0) (DurableDoc f) = fileAt (files h) (DurableDoc f)) as Fd.
  { intros f. eapply after_spares; [exact A0 |]. eapply Forall_impl; [exact S0 |].
    intros e (_ & _ & _ & Hs). apply Hs. }
  apply catch_run in E1 as [([] & E1 & _) | (e & hx & _ & E1)].
  2: { apply bind_run in E1 as [(? & ? & _ & E1) | (? & _ & E1)]; [| discriminate E1].
       apply bind_run in E1 as [(? & ? & _ & E1) | (? & _ & E1)]; discriminate E1. }
  assert (moves (does sparesAll) (attemptIpv6 rendered fwd probe)) as Ha
    by (unfold attemptIpv6, applyIpv6; walk).
  assert (forall p, fileAt (files h4) p = fileAt (files h0) p) as Fs.
  { intros p. rewrite (moves_sparesAll _ _ _ _ p Ha E4).
    eapply moves_sparesAll with (p := p) in E1; [| walk]. eapply moves_sparesAll with (p := p) in E2; [| walk].
    eapply moves_sparesAll with (p := p) in E3; [congruence | walk]. }
  destruct a3 as [[cause |] loaded6]; run_inv.
  assert (loaded6 = true -> v6 rendered <> None) as H6.
  { unfold attemptIpv6 in E4. destruct (v6 rendered); [done |]. by injection E4 as <-. }
  assert (exists u, recordPendingV6 (if loaded6 then Replace else Forget)
    (if loaded6 then v6 rendered else None) h4 = (Ok u, h')) as [u E6] by (destruct loaded6; eauto).
  destruct (recordV6_run (digest rendered) gen now Keep _ _ _ _ _ Hd Hg Ht ltac:(by rewrite Fs) E6)
    as (Fm' & F6' & Fo).
  cbn [ipv6Applied]. split; [done |]. rewrite F6', !Fo, !Fs by done.
  split_and!; [done | by destruct loaded6 | done | done |]. intros f. by rewrite Fo, Fs by done.
Qed.
