(* ===== verification/FwFold.v ===== *)
(** * Folding the legacy listener chains ([firewall/fold.ts])

    The older [TP-MANAGED-PUB] chain is removed once the live [TP-FWD] chain
    covers every listener it restricts.  The code decides from the text
    [iptables -S] prints; so does the model, and it says what the decision
    means for addresses and ports. *)

From S2P Require Import Prelude Regex Json Number GateHttp GateConfig Dates FwRender FwHost FwPending FwApply.

#[local] Open Scope N_scope.

Definition LEGACY_MANAGED_PARENT_CHAIN : jstring := "TP-MANAGED-PUB".
(** [/^TP-MGD-[a-z0-9]{1,20}$/]. *)
Definition LEGACY_CHILD_CHAIN_RE : regex :=
  RCat (RLit "TP-MGD-") (RBetween 1 19 (RSet (fun c => is_lower c || is_digit c))).
Definition MAX_JUMP_REMOVALS : nat := 8.

Record LegacyListener := {
  listenerDest : option jstring;
  listenerPort : jstring;
  hasDrop : bool;
  listenerSources : list jstring
}.

Record ParsedRule := {
  ruleChain : jstring;
  ruleSource : option jstring;
  ruleDest : option jstring;
  rulePort : option jstring;
  ruleTarget : jstring
}.

Inductive FoldState := NothingToFold | Folded | KeptLegacy | Deferred | Partial.

(** Why the legacy chain was kept, or what failed to go. *)
Inductive fold_reason :=
| PendingConfirmation
| ForwardNotLive
| NoDropFor (dest : option jstring) (port : jstring)
| SourceNotAllowed (dest : option jstring) (port source : jstring)
| RemovalFailed (args : list jstring) (detail : jstring).

Record FoldOutcome := { foldState : FoldState; foldListeners : nat; foldReasons : list fold_reason }.

(** ** Reading rules *)

(** [flag] and a space here, then a non-empty run of non-spaces. *)
Definition valueHere (flag s : jstring) : option jstring :=
  if startsWith (flag ++ [32]) s then
    match takeWhile (fun c => negb (is_js_space c)) (drop (S (length flag)) s) with
    | [] => None
    | v => Some v
    end
  else None.

(** The same after the first space that has it. *)
Fixpoint valueLater (flag s : jstring) : option jstring :=
  match s with
  | [] => None
  | c :: s' =>
      match (if c =? 32 then valueHere flag s' else None) with
      | Some v => Some v
      | None => valueLater flag s'
      end
  end.

(** [(?:^| )flag (\S+)], the leftmost match. *)
Definition field (line flag : jstring) : option jstring :=
  match valueHere flag line with
  | Some v => Some v
  | None => valueLater flag line
  end.

Definition parseRuleLine (line : jstring) : option ParsedRule :=
  chain ← valueHere "-A" (trim line);
  target ← field line "-j";
  Some {| ruleChain := chain; ruleSource := field line "-s"; ruleDest := field line "--ctorigdst";
          rulePort := field line "--ctorigdstport"; ruleTarget := target |}.

Definition parseRules (stdout : jstring) : list ParsedRule := omap parseRuleLine (split 10 stdout).

(** ** Addresses and ports *)

Definition ipv4ToInt (address : jstring) : option N :=
  let octet n part :=
    value ← n;
    if forallb is_digit part && (1 <=? N.of_nat (length part)) && (N.of_nat (length part) <=? 3)
       && (digitsValue part <=? 255)
    then Some (value * 256 + digitsValue part) else None in
  let parts := split 46 address in
  if N.of_nat (length parts) =? 4 then foldl octet (Some 0) parts else None.

(** Base and prefix length. *)
Definition splitCidr (value : jstring) : option (N * N) :=
  let parts := split 47 value in
  base ← ipv4ToInt (default [] (parts !! 0%nat));
  bits ← match parts !! 1%nat with
         | None => Some 32%Z
         | Some len => integer_of (numberOfText len)
         end;
  if (0 <=? bits)%Z && (bits <=? 32)%Z then Some (base, Z.to_N bits) else None.

Definition cidrContains (outer inner : jstring) : bool :=
  match splitCidr outer, splitCidr inner with
  | Some (ob, obits), Some (ib, ibits) =>
      if ibits <? obits then false
      else let size := 2 ^ (32 - obits) in ob / size =? ib / size
  | _, _ => false
  end.

Definition portBounds (port : jstring) : option (Z * Z) :=
  let parts := split 58 port in
  lo ← integer_of (numberOfText (default [] (parts !! 0%nat)));
  hi ← match parts !! 1%nat with
       | None => Some lo
       | Some to => integer_of (numberOfText to)
       end;
  if (hi <? lo)%Z then None else Some (lo, hi).

Definition portContains (outer inner : jstring) : bool :=
  match portBounds outer, portBounds inner with
  | Some (olo, ohi), Some (ilo, ihi) => (olo <=? ilo)%Z && (ihi <=? ohi)%Z
  | _, _ => false
  end.

Definition sameDest (newDest legacyDest : option jstring) : bool :=
  match newDest, legacyDest with
  | None, _ => true
  | Some _, None => false
  | Some n, Some l => cidrContains n l
  end.

(** ** Coverage *)

Definition targetsPort (rule : ParsedRule) (l : LegacyListener) : bool :=
  match rulePort rule with
  | None => false
  | Some p => portContains p (listenerPort l) && sameDest (ruleDest rule) (listenerDest l)
  end.

Definition isDrop (rule : ParsedRule) : bool :=
  bool_decide (ruleSource rule = None) &&
  (bool_decide (ruleTarget rule = "DROP") || bool_decide (ruleTarget rule = "REJECT")).
Definition isReturn (rule : ParsedRule) : bool :=
  negb (bool_decide (ruleSource rule = None)) && bool_decide (ruleTarget rule = "RETURN").

Definition uncoveredReasons (l : LegacyListener) (forward : list ParsedRule) : list fold_reason :=
  let scoped := List.filter (fun rule => targetsPort rule l) forward in
  let drops := List.filter isDrop scoped in
  let returns := List.filter isReturn scoped in
  (if hasDrop l && bool_decide (drops = []) then [NoDropFor (listenerDest l) (listenerPort l)] else [])
  ++ omap (fun source =>
       if existsb (fun rule => cidrContains (default [] (ruleSource rule)) source) returns then None
       else Some (SourceNotAllowed (listenerDest l) (listenerPort l) source)) (listenerSources l).

Definition listenerKey (rule : ParsedRule) (port : jstring) : jstring :=
  default [] (ruleDest rule) ++ 124 :: port.

(** One rule of a legacy chain, into the listeners so far. *)
Definition addRule (byKey : jsmap LegacyListener) (rule : ParsedRule) : jsmap LegacyListener :=
  match rulePort rule with
  | None => byKey
  | Some port =>
      let key := listenerKey rule port in
      let entry := default {| listenerDest := ruleDest rule; listenerPort := port; hasDrop := false;
                              listenerSources := [] |} (mapGet byKey key) in
      let sources := match ruleSource rule with
                     | Some s => if decide (ruleTarget rule = "ACCEPT") then listenerSources entry ++ [s]
                                 else listenerSources entry
                     | None => listenerSources entry
                     end in
      let drop := hasDrop entry ||
                  (bool_decide (ruleTarget rule = "DROP") && bool_decide (ruleSource rule = None)) in
      mapSet key {| listenerDest := listenerDest entry; listenerPort := listenerPort entry;
                    hasDrop := drop; listenerSources := sources |} byKey
  end.
Definition legacyListeners (rules : list ParsedRule) : list LegacyListener :=
  map snd (foldl addRule [] rules).

(** ** The fold *)

Section Fold.
Context `{JsDates}.

Definition pendingNow : hostM bool :=
  m ← readPendingMarker; mret match m with Some _ => true | None => false end.

Definition liveForwardRules : hostM (option (list ParsedRule)) :=
  pending ← pendingNow;
  if pending : bool then mret None
  else
    hung ← runFirewallHost "iptables" ["-C"; DOCKER_USER_CHAIN; "-j"; FIREWALL_FORWARD_CHAIN];
    if success hung then
      listed ← runFirewallHost "iptables" ["-S"; FIREWALL_FORWARD_CHAIN];
      mret (if success listed then Some (parseRules (stdout listed)) else None)
    else mret None.

Definition isManagedListenerCovered (l : LegacyListener) : hostM bool :=
  catching
    (forward ← liveForwardRules;
     mret match forward with Some rules => bool_decide (length (uncoveredReasons l rules) = 0%nat)
                           | None => false end)
    (fun _ => mret false).

(** The child chains the parent jumps to. *)
Definition childrenOf (parent : FirewallRunResult) : option (list jstring) :=
  if success parent && includes (("-N " : jstring) ++ LEGACY_MANAGED_PARENT_CHAIN) (stdout parent) then
    Some (List.filter (matches LEGACY_CHILD_CHAIN_RE)
      (map ruleTarget (List.filter (fun r => bool_decide (ruleChain r = LEGACY_MANAGED_PARENT_CHAIN))
        (parseRules (stdout parent)))))
  else None.
Definition legacyChildren : hostM (option (list jstring)) :=
  parent ← runFirewallHost "iptables" ["-S"; LEGACY_MANAGED_PARENT_CHAIN];
  mret (childrenOf parent).

(** The listeners a chain's listing shows; none when it could not be read. *)
Definition listenersIn (listed : FirewallRunResult) : list LegacyListener :=
  if success listed then legacyListeners (parseRules (stdout listed)) else [].
Definition readLegacyListeners (children : list jstring) : hostM (list LegacyListener) :=
  perChild ← mapSequential (fun child =>
    listed ← runFirewallHost "iptables" ["-S"; child]; mret (listenersIn listed)) children;
  mret (perChild ≫= fun l => l).

(** One removal: did it work, and what to report. *)
Definition attempt (args : list jstring) : hostM (bool * list fold_reason) :=
  r ← runFirewallHost "iptables" args;
  mret (success r, if success r || isMissingRuleText r then []
                   else [RemovalFailed args (failureText r)]).

Fixpoint removeJumpsOut (left : nat) : hostM (list fold_reason) :=
  '(removed, failure) ← attempt ["-D"; DOCKER_USER_CHAIN; "-j"; LEGACY_MANAGED_PARENT_CHAIN];
  match left with
  | S n => if removed : bool then more ← removeJumpsOut n; mret (failure ++ more) else mret failure
  | O => mret failure
  end.

Definition removeLegacy (children : list jstring) : hostM (list fold_reason) :=
  jumps ← removeJumpsOut (MAX_JUMP_REMOVALS - 1);
  parents ← mapSequential attempt [["-F"; LEGACY_MANAGED_PARENT_CHAIN];
                                   ["-X"; LEGACY_MANAGED_PARENT_CHAIN]];
  chains ← mapSequential attempt (children ≫= fun chain => [["-F"; chain]; ["-X"; chain]]);
  mret (jumps ++ ((parents ++ chains) ≫= snd)).

Definition foldManagedPublicChain : hostM FoldOutcome :=
  pending ← pendingNow;
  if pending : bool then
    mret {| foldState := Deferred; foldListeners := 0; foldReasons := [PendingConfirmation] |}
  else
    known ← legacyChildren;
    match known with
    | None => mret {| foldState := NothingToFold; foldListeners := 0; foldReasons := [] |}
    | Some children =>
        listeners ← readLegacyListeners children;
        live ← liveForwardRules;
        match live with
        | None => mret {| foldState := KeptLegacy; foldListeners := length listeners;
                          foldReasons := [ForwardNotLive] |}
        | Some forward =>
            match listeners ≫= fun l => uncoveredReasons l forward with
            | [] =>
                failures ← removeLegacy children;
                mret {| foldState := match failures with [] => Folded | _ => Partial end;
                        foldListeners := length listeners; foldReasons := failures |}
            | reasons => mret {| foldState := KeptLegacy; foldListeners := length listeners;
                                 foldReasons := reasons |}
            end
        end
    end.

Definition foldManagedPublicChainBestEffort : hostM unit :=
  catching ('_ ← foldManagedPublicChain; mret tt) (fun _ => mret tt).
End Fold.

(** ** What containment means *)

(** The address [a] (32 bits) is in the block a literal names. *)
Definition inBlock (literal : jstring) (a : N) : Prop :=
  match splitCidr literal with
  | Some (base, bits) => a / 2 ^ (32 - bits) = base / 2 ^ (32 - bits)
  | None => False
  end.
Definition isBlock4 (literal : jstring) : Prop := is_Some (splitCidr literal).

Lemma splitCidr_bits literal base bits : splitCidr literal = Some (base, bits) -> bits <= 32.
Proof.
  unfold splitCidr. intros E.
  destruct (ipv4ToInt _); [| done]. cbn [mbind option_bind] in E.
  destruct (match _ with None => _ | Some _ => _ end) as [z |]; [| done]. cbn [mbind option_bind] in E.
  destruct (Z.leb_spec 0 z), (Z.leb_spec z 32); cbn in E; try done. injection E as <- <-. lia.
Qed.

(** Halving the precision further keeps equal quotients equal. *)
Lemma coarser a b fine coarse :
  fine <= coarse -> a / 2 ^ fine = b / 2 ^ fine -> a / 2 ^ coarse = b / 2 ^ coarse.
Proof.
  intros Hle E. replace coarse with (fine + (coarse - fine)) by lia.
  rewrite N.pow_add_r, <- !N.Div0.div_div. by rewrite E.
Qed.

Lemma cidrContains_sound outer inner a :
  cidrContains outer inner = true -> inBlock inner a -> inBlock outer a.
Proof.
  unfold cidrContains, inBlock. destruct (splitCidr outer) as [[ob obits] |] eqn:Eo; [| done].
  destruct (splitCidr inner) as [[ib ibits] |] eqn:Ei; [| done].
  destruct (N.ltb_spec ibits obits); [done |]. intros Hq%N.eqb_eq Ha.
  rewrite Hq. by apply (coarser _ _ (32 - ibits)); [lia |].
Qed.

(** Two addresses of a block that a finer block tells apart. *)
Lemma cidrContains_complete outer inner :
  isBlock4 outer -> isBlock4 inner ->
  (forall a, inBlock inner a -> inBlock outer a) -> cidrContains outer inner = true.
Proof.
  unfold isBlock4, cidrContains, inBlock. intros [[ob obits] Eo] [[ib ibits] Ei].
  rewrite Eo, Ei. apply splitCidr_bits in Eo, Ei. intros Hin.
  destruct (N.ltb_spec ibits obits) as [Hlt |]; [| apply N.eqb_eq; by rewrite <- (Hin ib)].
  exfalso. set (so := 2 ^ (32 - obits)) in *. set (si := 2 ^ (32 - ibits)) in *.
  assert (exists k, si = so * k /\ 2 <= k) as (k & Hk & Hk2).
  { exists (2 ^ (obits - ibits)). unfold si, so. rewrite <- N.pow_add_r. split; [f_equal; lia |].
    change 2 with (2 ^ 1) at 1. apply N.pow_le_mono_r; lia. }
  assert (so <> 0) as Hso by (apply N.pow_nonzero; lia).
  assert (si <> 0) as Hsi by nia.
  set (first := ib / si * si).
  assert (forall d, d < si -> (first + d) / si = ib / si) as Hsame.
  { intros d Hd. unfold first. rewrite N.add_comm, N.div_add by done. rewrite N.div_small by done. lia. }
  pose proof (Hin first) as H1. pose proof (Hin (first + so)) as H2.
  rewrite Hsame in H2 by nia. rewrite <- (N.add_0_r first), Hsame in H1 by lia.
  specialize (H1 eq_refl). specialize (H2 eq_refl).
  rewrite N.add_0_r in H1. rewrite <- (N.mul_1_l so) in H2 at 1.
  rewrite N.div_add in H2 by done. lia.
Qed.

(** ** What coverage means *)

Definition portIn (text : jstring) (port : Z) : Prop :=
  match portBounds text with Some (lo, hi) => (lo <= port <= hi)%Z | None => False end.
Definition destIn (dest : option jstring) (a : N) : Prop :=
  match dest with None => True | Some literal => inBlock literal a end.

(** The rule applies to a connection from [src] whose original destination is
    [dst] and [port]. *)
Definition ruleMatches (rule : ParsedRule) (src dst : N) (port : Z) : Prop :=
  destIn (ruleSource rule) src /\ destIn (ruleDest rule) dst /\
  match rulePort rule with None => True | Some p => portIn p port end.
Definition listenerCovers (l : LegacyListener) (dst : N) (port : Z) : Prop :=
  destIn (listenerDest l) dst /\ portIn (listenerPort l) port.

Lemma targetsPort_sound rule l dst port :
  targetsPort rule l = true -> listenerCovers l dst port ->
  destIn (ruleDest rule) dst /\ match rulePort rule with None => True | Some p => portIn p port end.
Proof.
  unfold targetsPort, listenerCovers. destruct (rulePort rule) as [p |]; [| done].
  intros [Hp Hd]%andb_true_iff [Hld Hlp]. split.
  - unfold sameDest in Hd. destruct (ruleDest rule) as [n |]; [| done].
    destruct (listenerDest l) as [d |]; [| done]. by eapply cidrContains_sound.
  - unfold portContains, portIn in *. destruct (portBounds p) as [[olo ohi] |]; [| done].
    destruct (portBounds (listenerPort l)) as [[ilo ihi] |]; [| done]. lia.
Qed.

(** A listener without reasons: each of its sources is let through, and others
    are dropped when the legacy chain dropped them. *)
Lemma uncoveredReasons_nil l forward :
  uncoveredReasons l forward = [] ->
  (hasDrop l = true -> exists rule, rule ∈ forward /\ targetsPort rule l = true /\ isDrop rule = true) /\
  (forall s, s ∈ listenerSources l -> exists rule t, rule ∈ forward /\ targetsPort rule l = true /\
    ruleTarget rule = "RETURN" /\ ruleSource rule = Some t /\ cidrContains t s = true).
Proof.
  unfold uncoveredReasons. intros [Hdrop Hsrc]%app_nil. split.
  - intros Hd. rewrite Hd in Hdrop. cbn [andb] in Hdrop.
    destruct (List.filter isDrop _) as [| rule rest] eqn:E; [discriminate Hdrop |].
    assert (In rule (List.filter isDrop (List.filter (fun rule => targetsPort rule l) forward))) as Hin
      by (rewrite E; by left).
    apply filter_In in Hin as [Hin Hb]. apply filter_In in Hin as [Hin Ht].
    exists rule. by rewrite list_elem_of_In.
  - intros s Hs.
    destruct (existsb (fun rule => cidrContains (default [] (ruleSource rule)) s)
      (List.filter isReturn (List.filter (fun rule => targetsPort rule l) forward))) eqn:E.
    + apply existsb_exists in E as (rule & Hin & Hc).
      apply filter_In in Hin as [Hin Hr]. apply filter_In in Hin as [Hin Ht].
      unfold isReturn in Hr. bools. destruct (ruleSource rule) as [t |] eqn:Es; [| done].
      exists rule, t. by rewrite list_elem_of_In.
    + exfalso. assert (SourceNotAllowed (listenerDest l) (listenerPort l) s ∈ ([] : list fold_reason)) as Hin.
      { rewrite <- Hsrc. apply list_elem_of_omap. exists s. by rewrite E. }
      by apply elem_of_nil in Hin.
Qed.

(** *** Every rule of a legacy chain is in its listeners *)

(** Keys tell listeners apart when ports hold no bar. *)
Lemma listenerKey_inj r1 r2 p1 p2 :
  124 ∉ p1 -> 124 ∉ p2 -> ruleDest r1 <> Some [] -> ruleDest r2 <> Some [] ->
  listenerKey r1 p1 = listenerKey r2 p2 -> ruleDest r1 = ruleDest r2 /\ p1 = p2.
Proof.
  intros H1 H2 Hd1 Hd2 E. unfold listenerKey in E.
  assert (forall a b p q : jstring, 124 ∉ p -> 124 ∉ q -> a ++ 124 :: p = b ++ 124 :: q -> a = b /\ p = q)
    as Hinj.
  { clear. induction a as [| x a IH]; intros [| y b] p q Hp Hq E; cbn in E; simplify_eq.
    - done.
    - exfalso. apply Hp. set_solver.
    - exfalso. apply Hq. set_solver.
    - destruct (IH b p q) as [-> ->]; done. }
  destruct (Hinj _ _ _ _ H1 H2 E) as [Ed ->]. split; [| done].
  destruct (ruleDest r1) as [[|] |], (ruleDest r2) as [[|] |]; naive_solver.
Qed.

(** A rule as the parser can give it, with a port of its own. *)
Definition plainRule (r : ParsedRule) (p : jstring) : Prop :=
  rulePort r = Some p /\ 124 ∉ p /\ ruleDest r <> Some [].

(** The listener under a rule's key keeps the rule's address and port, and
    everything noted so far. *)
Definition noted (r : ParsedRule) (p : jstring) (m : jsmap LegacyListener) : Prop :=
  exists l, mapGet m (listenerKey r p) = Some l /\ listenerDest l = ruleDest r /\ listenerPort l = p /\
    (ruleTarget r = "ACCEPT" -> forall s, ruleSource r = Some s -> s ∈ listenerSources l) /\
    (ruleTarget r = "DROP" -> ruleSource r = None -> hasDrop l = true).

(** Every entry is under the key of its own address and port. *)
Definition keyed (m : jsmap LegacyListener) : Prop :=
  forall k l, mapGet m k = Some l ->
    k = default [] (listenerDest l) ++ 124 :: listenerPort l /\ listenerDest l <> Some [] /\
    124 ∉ listenerPort l.

Lemma keyed_get m r p l :
  keyed m -> plainRule r p -> mapGet m (listenerKey r p) = Some l ->
  listenerDest l = ruleDest r /\ listenerPort l = p.
Proof.
  intros Hk (Hp & Hbar & Hd) E. destruct (Hk _ _ E) as (Ek & Hd' & Hbar').
  assert (listenerKey {| ruleChain := []; ruleSource := None; ruleDest := listenerDest l; rulePort := None;
    ruleTarget := [] |} (listenerPort l) = listenerKey r p) as Ek' by done.
  apply listenerKey_inj in Ek'; [done | done | done | done | done].
Qed.

(** What [addRule] makes of the entry of its key. *)
Definition updated (r : ParsedRule) (entry : LegacyListener) : LegacyListener :=
  {| listenerDest := listenerDest entry; listenerPort := listenerPort entry;
     hasDrop := hasDrop entry ||
       (bool_decide (ruleTarget r = "DROP") && bool_decide (ruleSource r = None));
     listenerSources := match ruleSource r with
                        | Some s => if decide (ruleTarget r = "ACCEPT") then listenerSources entry ++ [s]
                                    else listenerSources entry
                        | None => listenerSources entry
                        end |}.
Definition fresh (r : ParsedRule) (p : jstring) : LegacyListener :=
  {| listenerDest := ruleDest r; listenerPort := p; hasDrop := false; listenerSources := [] |}.

Lemma addRule_plain m r p :
  plainRule r p -> addRule m r = mapSet (listenerKey r p)
    (updated r (default (fresh r p) (mapGet m (listenerKey r p)))) m.
Proof. intros (Hp & _). unfold addRule. by rewrite Hp. Qed.

Lemma updated_keeps r l :
  (forall s, s ∈ listenerSources l -> s ∈ listenerSources (updated r l)) /\
  (hasDrop l = true -> hasDrop (updated r l) = true).
Proof.
  split; cbn; [| by intros ->].
  intros s Hs. destruct (ruleSource r); [| done]. case_decide; [| done]. set_solver.
Qed.

Lemma keyed_add m r p : plainRule r p -> keyed m -> keyed (addRule m r).
Proof.
  intros Hr Hk k l. rewrite (addRule_plain _ _ _ Hr).
  destruct (decide (listenerKey r p = k)) as [<- | Hne].
  - rewrite mapGet_set. intros [= <-]. cbn [listenerDest listenerPort updated].
    destruct (mapGet m (listenerKey r p)) as [e |] eqn:E; cbn [default].
    + exact (Hk _ _ E).
    + by destruct Hr as (_ & ? & ?).
  - rewrite mapGet_set_ne by done. apply Hk.
Qed.

Lemma noted_now m r p : plainRule r p -> keyed m -> noted r p (addRule m r).
Proof.
  intros Hr Hk. rewrite (addRule_plain _ _ _ Hr). unfold noted. rewrite mapGet_set.
  eexists. split; [reflexivity |]. cbn [listenerDest listenerPort listenerSources hasDrop updated].
  assert (listenerDest (default (fresh r p) (mapGet m (listenerKey r p))) = ruleDest r /\
    listenerPort (default (fresh r p) (mapGet m (listenerKey r p))) = p) as [-> ->].
  { destruct (mapGet m _) as [e |] eqn:E; [by eapply keyed_get | done]. }
  split_and!; [done | done | |].
  - intros Ht s ->. rewrite decide_True by done. set_solver.
  - intros Ht ->. rewrite !bool_decide_true by done. apply orb_true_r.
Qed.

Lemma noted_later m r p r' p' :
  plainRule r' p' -> noted r p m -> noted r p (addRule m r').
Proof.
  intros Hr (l & E & Hd & Hp & Ha & Hdr). rewrite (addRule_plain _ _ _ Hr). unfold noted.
  destruct (decide (listenerKey r' p' = listenerKey r p)) as [Ek | Hne].
  - rewrite Ek, mapGet_set, E. cbn [default]. eexists. split; [reflexivity |].
    destruct (updated_keeps r' l) as [Hs Hh]. split_and!; [done | done | |]; auto.
  - rewrite mapGet_set_ne by done. eauto 10.
Qed.

Definition barless (r : ParsedRule) : Prop :=
  ruleDest r <> Some [] /\ forall p, rulePort r = Some p -> 124 ∉ p.

Lemma foldl_keyed rules : forall m,
  Forall barless rules -> keyed m ->
  (forall r p, noted r p m -> noted r p (foldl addRule m rules)) /\
  (forall r p, r ∈ rules -> rulePort r = Some p -> noted r p (foldl addRule m rules)).
Proof.
  induction rules as [| r0 rules IH]; intros m Hb Hk; [split; [done | intros ? ? ?%elem_of_nil; done] |].
  apply Forall_cons in Hb as [[Hd0 Hp0] Hb]. cbn [foldl].
  destruct (rulePort r0) as [p0 |] eqn:E0.
  - assert (plainRule r0 p0) as H0 by (split_and!; auto).
    destruct (IH (addRule m r0) Hb (keyed_add _ _ _ H0 Hk)) as [Hkeep Hall]. split.
    + intros r p Hn. by eapply Hkeep, noted_later.
    + intros r p [-> | Hin]%elem_of_cons Hp; [| by apply Hall].
      rewrite E0 in Hp. injection Hp as ->. by apply Hkeep, noted_now.
  - assert (addRule m r0 = m) as -> by (unfold addRule; by rewrite E0).
    destruct (IH m Hb Hk) as [Hkeep Hall]. split; [exact Hkeep |].
    intros r p [-> | Hin]%elem_of_cons Hp; [congruence | by apply Hall].
Qed.

(** Each rule with a port has its listener. *)
Lemma legacyListeners_complete rules r p :
  Forall barless rules -> r ∈ rules -> rulePort r = Some p ->
  exists l, l ∈ legacyListeners rules /\ listenerDest l = ruleDest r /\ listenerPort l = p /\
    (ruleTarget r = "ACCEPT" -> forall s, ruleSource r = Some s -> s ∈ listenerSources l) /\
    (ruleTarget r = "DROP" -> ruleSource r = None -> hasDrop l = true).
Proof.
  intros Hb Hin Hp. destruct (foldl_keyed rules [] Hb ltac:(intros ? ? [=])) as [_ Hall].
  destruct (Hall r p Hin Hp) as (l & E & ?). exists l. split; [| done].
  unfold legacyListeners. apply list_elem_of_fmap. exists (listenerKey r p, l). split; [done |].
  revert E. generalize (foldl addRule [] rules). clear. intros m.
  induction m as [| [k v] m IH]; cbn; [done |]. case_decide; [intros [= ->]; set_solver |].
  intros E%IH. set_solver.
Qed.

Lemma valueHere_nonempty flag s : valueHere flag s <> Some [].
Proof. unfold valueHere. by repeat case_match. Qed.
Lemma field_nonempty line flag : field line flag <> Some [].
Proof.
  unfold field. destruct (valueHere flag line) as [v |] eqn:E; [intros [= ->]; by apply valueHere_nonempty in E |].
  clear E. induction line as [| c line IH]; [done |]. cbn [valueLater].
  destruct (if c =? 32 then _ else _) as [v |] eqn:E; [| done]. intros [= ->].
  destruct (c =? 32); [| done]. by apply valueHere_nonempty in E.
Qed.
Lemma parseRules_dest text r : r ∈ parseRules text -> ruleDest r <> Some [].
Proof.
  unfold parseRules. intros (line & _ & E)%list_elem_of_omap. unfold parseRuleLine in E.
  destruct (valueHere _ _); [| done]. cbn [mbind option_bind] in E.
  destruct (field line "-j"); [| done]. injection E as <-. apply field_nonempty.
Qed.

(** ** What the fold did *)

(** The program [iptables args] ran and answered [r]. *)
Definition answered (new : list event) (args : list jstring) (r : FirewallRunResult) : Prop :=
  exists argv, Spawned argv None r ∈ new /\ commandOf argv = "iptables" :: finalArgs "iptables" args.

Lemma answered_app_l a b args r : answered a args r -> answered (a ++ b) args r.
Proof. intros (argv & Hin & Hc). exists argv. set_solver. Qed.
Lemma answered_app_r a b args r : answered b args r -> answered (a ++ b) args r.
Proof. intros (argv & Hin & Hc). exists argv. set_solver. Qed.

Lemma run_answers args h :
  exists r h' new, runFirewallHost "iptables" args h = (Ok r, h') /\ after h new h' /\
    answered new args r /\ Forall (issues "iptables" args None) new.
Proof.
  destruct (runInput_spec "iptables" args None h eq_refl) as (pre & argv & r & h' & E & A & I & _).
  exists r, h', (pre ++ [Spawned argv (stdinText None) r]). split_and!; try done.
  apply Forall_app in I as [_ I]. apply Forall_cons in I as [(argv' & r' & E' & Hc) _].
  injection E' as <- <-. exists argv. split; [set_solver | done].
Qed.

(** Looking changes nothing. *)
Definition looks (e : event) : Prop := rewires e = false /\ sparesAll e.
Lemma query_looks flag rest e :
  flag ∈ (["-S"; "-C"] : list jstring) ->
  Forall (fun w => w ∉ (["-A"; "-I"; "-D"; "-F"; "-X"; "-N"; "-R"; "-P"] : list jstring)) rest ->
  issues "iptables" (flag :: rest) None e -> looks e.
Proof.
  intros Hf Hr Hi. split; [| by eapply issues_sparesAll].
  destruct (issues_words _ _ _ _ Hi) as (Hw & _ & _). unfold rewires. rewrite Hw.
  apply andb_false_iff. right. apply not_true_iff_false. intros (w & Hin & Hm)%existsb_exists.
  apply list_elem_of_In in Hin. apply memb_true in Hm.
  change (finalArgs "iptables" (flag :: rest)) with
    ("-w" :: decimalText XTABLES_LOCK_WAIT_SECONDS :: flag :: rest) in Hm.
  rewrite !elem_of_cons in Hm. destruct Hm as [-> | [-> | [-> | Hm]]].
  - vm_compute in Hin. set_solver.
  - revert Hin. apply (bool_decide_unpack _). vm_compute. exact I.
  - revert Hf Hin. rewrite !elem_of_cons, !elem_of_nil. intuition subst; discriminate.
  - rewrite Forall_forall in Hr. by apply (Hr w Hm).
Qed.

Section FoldRuns.
Context `{JsDates}.

Lemma pendingNow_moves (P : event -> Prop) : moves (does P) pendingNow.
Proof. unfold pendingNow, readPendingMarker. walk. Qed.
Lemma pendingNow_run h b h' :
  pendingNow h = (Ok b, h') ->
  after h [] h' /\ (b = false -> markerOf (fileAt (files h) PendingMarker) = None).
Proof.
  unfold pendingNow. intros E. run_inv. apply readMarker_run in E0 as [A ->]. split; [done |].
  by destruct (markerOf _).
Qed.

Lemma liveForward_run h live h' :
  liveForwardRules h = (Ok live, h') ->
  exists new, after h new h' /\ Forall looks new /\
    forall forward, live = Some forward -> exists hung listed,
      answered new ["-C"; DOCKER_USER_CHAIN; "-j"; FIREWALL_FORWARD_CHAIN] hung /\ success hung = true /\
      answered new ["-S"; FIREWALL_FORWARD_CHAIN] listed /\ success listed = true /\
      forward = parseRules (stdout listed).
Proof.
  unfold liveForwardRules. intros E. run_inv. apply pendingNow_run in E0 as [A0 _].
  destruct a; [injection E as <- <-; exists []; split_and!; [done | constructor | done] |].
  destruct (run_answers ["-C"; DOCKER_USER_CHAIN; "-j"; FIREWALL_FORWARD_CHAIN] h0)
    as (hung & h1 & n1 & E1 & A1 & W1 & I1).
  run_inv. rewrite E1 in E0. injection E0 as <- <-.
  assert (Forall looks n1) as L1.
  { eapply Forall_impl; [exact I1 |]. intros e. apply query_looks; [set_solver |].
    repeat constructor; vm_compute; set_solver. }
  destruct (success hung) eqn:Eh.
  2: { injection E as <- <-. exists n1. split_and!; [exact (after_app _ _ _ _ _ A0 A1) | done | done]. }
  destruct (run_answers ["-S"; FIREWALL_FORWARD_CHAIN] h1) as (listed & h2 & n2 & E2 & A2 & W2 & I2).
  run_inv. rewrite E2 in E0. injection E0 as <- ->.
  assert (Forall looks n2) as L2.
  { eapply Forall_impl; [exact I2 |]. intros e. apply query_looks; [set_solver |].
    repeat constructor; vm_compute; set_solver. }
  exists (n1 ++ n2).
  split; [exact (after_app _ _ _ _ _ A0 (after_app _ _ _ _ _ A1 A2)) |].
  split; [by apply Forall_app |]. intros forward. destruct (success listed) eqn:El; [| done].
  intros [= <-]. exists hung, listed. split_and!; try done; [by apply answered_app_l | by apply answered_app_r].
Qed.

Lemma child_name child :
  matches LEGACY_CHILD_CHAIN_RE child = true ->
  child ∉ (["-A"; "-I"; "-D"; "-F"; "-X"; "-N"; "-R"; "-P"] : list jstring).
Proof.
  intros (s & t & -> & Hs & _)%matches_iff%lang_cat_iff. apply lang_lit_iff in Hs as ->.
  rewrite !elem_of_cons, elem_of_nil. naive_solver.
Qed.

Lemma readLegacy_run children : forall h r h',
  Forall (fun c => matches LEGACY_CHILD_CHAIN_RE c = true) children ->
  mapSequential (fun child =>
    listed ← runFirewallHost "iptables" ["-S"; child]; mret (listenersIn listed)) children h = (r, h') ->
  exists new listed, after h new h' /\ Forall looks new /\ r = Ok (map listenersIn listed) /\
    Forall2 (fun child l => answered new ["-S"; child] l) children listed.
Proof.
  induction children as [| child children IH]; intros h r h' Hc E; cbn [mapSequential] in E.
  { injection E as <- <-. exists [], []. split_and!; [apply after_refl | constructor | done | constructor]. }
  apply Forall_cons in Hc as [Hc Hcs].
  destruct (run_answers ["-S"; child] h) as (l & h1 & n1 & E1 & A1 & W1 & I1).
  unfold mbind, hostM_bind in E. rewrite E1 in E. cbn [mret hostM_ret] in E.
  destruct (mapSequential _ children h1) as [r2 h2] eqn:E2.
  destruct (IH _ _ _ Hcs E2) as (n2 & listed & A2 & L2 & -> & F2).
  injection E as <- <-. exists (n1 ++ n2), (l :: listed).
  split; [by eapply after_app |]. split; [| split; [done |]].
  - apply Forall_app. split; [| done]. eapply Forall_impl; [exact I1 |].
    intros e. apply query_looks; [set_solver |]. by constructor; [apply child_name |].
  - constructor; [by apply answered_app_l |]. eapply Forall2_impl; [exact F2 |].
    intros. by apply answered_app_r.
Qed.

(** What the decision to remove rested on: no ruleset pending, the parent's
    children each listed, [TP-FWD] hung and listed, no listener uncovered. *)
Definition justified (h : host) (new : list event) (listed : list FirewallRunResult)
    (forward : FirewallRunResult) : Prop :=
  markerOf (fileAt (files h) PendingMarker) = None /\
  (exists parent children, answered new ["-S"; LEGACY_MANAGED_PARENT_CHAIN] parent /\
    childrenOf parent = Some children /\
    Forall2 (fun child l => answered new ["-S"; child] l) children listed) /\
  (exists hung, answered new ["-C"; DOCKER_USER_CHAIN; "-j"; FIREWALL_FORWARD_CHAIN] hung /\
    success hung = true) /\
  answered new ["-S"; FIREWALL_FORWARD_CHAIN] forward /\ success forward = true /\
  forall l x, l ∈ listed -> x ∈ listenersIn l -> uncoveredReasons x (parseRules (stdout forward)) = [].

Lemma justified_app h a b listed forward :
  justified h a listed forward -> justified h (a ++ b) listed forward.
Proof.
  intros (Hp & (parent & children & W1 & Hc & F) & (hung & W2 & Hh) & W3 & Hs & Hu).
  split_and!; eauto using answered_app_l.
  exists parent, children. split_and!; eauto using answered_app_l.
  eapply Forall2_impl; [exact F |]. intros. by apply answered_app_l.
Qed.

Lemma attempt_moves (P : event -> Prop) args :
  (forall e, issues "iptables" args None e -> P e) -> moves (does P) (attempt args).
Proof. intros HP. unfold attempt, runFirewallHost. walk. Qed.

Lemma removeJumpsOut_moves left : moves (does sparesAll) (removeJumpsOut left).
Proof.
  pose proof (fun args => attempt_moves sparesAll args (issues_sparesAll _ _ _)) as Ha.
  induction left as [| left IH]; cbn [removeJumpsOut]; walk.
Qed.
Lemma removeLegacy_moves children : moves (does sparesAll) (removeLegacy children).
Proof.
  pose proof (fun args => attempt_moves sparesAll args (issues_sparesAll _ _ _)) as Ha.
  pose proof removeJumpsOut_moves as Hj. unfold removeLegacy.
  apply moves_bind; [apply does_preorder | apply Hj |]. intros.
  apply moves_bind; [apply does_preorder | apply moves_mapSequential; [apply does_preorder | auto] |]. intros.
  apply moves_bind; [apply does_preorder | apply moves_mapSequential; [apply does_preorder | auto] |]. walk.
Qed.

Lemma childrenOf_names parent children :
  childrenOf parent = Some children -> Forall (fun c => matches LEGACY_CHILD_CHAIN_RE c = true) children.
Proof.
  unfold childrenOf. case_match; [| done]. intros [= <-]. apply Forall_forall.
  intros c Hc%list_elem_of_In%filter_In. by destruct Hc.
Qed.

Lemma legacyChildren_run h :
  exists parent h' new, legacyChildren h = (Ok (childrenOf parent), h') /\ after h new h' /\
    answered new ["-S"; LEGACY_MANAGED_PARENT_CHAIN] parent /\ Forall looks new.
Proof.
  destruct (run_answers ["-S"; LEGACY_MANAGED_PARENT_CHAIN] h) as (parent & h1 & n1 & E1 & A1 & W1 & I1).
  exists parent, h1, n1. unfold legacyChildren, mbind, hostM_bind. rewrite E1. split_and!; try done.
  eapply Forall_impl; [exact I1 |]. intros e. apply query_looks; [set_solver |].
  repeat constructor; vm_compute; set_solver.
Qed.

Lemma readLegacyListeners_run parent children h :
  childrenOf parent = Some children ->
  exists new listed h', readLegacyListeners children h = (Ok (listed ≫= listenersIn), h') /\
    after h new h' /\ Forall looks new /\
    Forall2 (fun child l => answered new ["-S"; child] l) children listed.
Proof.
  intros Hc%childrenOf_names. unfold readLegacyListeners, mbind at 1, hostM_bind.
  destruct (mapSequential _ children h) as [r h'] eqn:E.
  destruct (readLegacy_run _ _ _ _ Hc E) as (new & listed & A & L & -> & F).
  exists new, listed, h'. split_and!; try done.
  assert ((map listenersIn listed ≫= fun l => l) = listed ≫= listenersIn) as E2; [| by rewrite <- E2].
  clear. induction listed as [| l listed IH]; [done |]. cbn [map]. by rewrite !bind_cons, IH.
Qed.

Lemma liveForward_moves : moves (does looks) liveForwardRules.
Proof.
  intros h. destruct (liveForwardRules h) as [[live | e] h1] eqn:E.
  { destruct (liveForward_run _ _ _ E) as (new & A & L & _). by exists new. }
  unfold liveForwardRules in E. apply bind_run in E as [(b & h2 & E0 & E) | (e' & E0 & _)].
  2: { cbn. eapply moves_run in E0; [exact E0 | apply pendingNow_moves]. }
  exfalso. destruct b; [discriminate E |].
  destruct (run_answers ["-C"; DOCKER_USER_CHAIN; "-j"; FIREWALL_FORWARD_CHAIN] h2)
    as (hung & h3 & n1 & E1 & _). unfold mbind, hostM_bind in E. rewrite E1 in E.
  destruct (success hung); [| discriminate E].
  destruct (run_answers ["-S"; FIREWALL_FORWARD_CHAIN] h3) as (listed & h4 & n2 & E2 & _).
  rewrite E2 in E. discriminate E.
Qed.

(** All listeners covered. *)
Lemma no_reasons listed forward l x :
  (listed ≫= listenersIn) ≫= (fun l => uncoveredReasons l forward) = [] ->
  l ∈ listed -> x ∈ listenersIn l -> uncoveredReasons x forward = [].
Proof.
  intros E Hl Hx. destruct (uncoveredReasons x forward) as [| y ys] eqn:Ey; [done |]. exfalso.
  assert (y ∈ ([] : list fold_reason)) as []%elem_of_nil. rewrite <- E.
  apply list_elem_of_bind. exists x. split; [rewrite Ey; set_solver |].
  apply list_elem_of_bind. eauto.
Qed.

(** The fold looks; it removes only what it may. *)
Lemma fold_run h r h' :
  foldManagedPublicChain h = (r, h') ->
  exists new, after h new h' /\ Forall sparesAll new /\
    (Forall looks new \/ exists listed forward, justified h new listed forward).
Proof.
  assert (forall new, after h new h' -> Forall looks new -> exists new, after h new h' /\
    Forall sparesAll new /\ (Forall looks new \/ exists listed forward, justified h new listed forward))
    as Hlook.
  { intros new A L. exists new. split_and!; [done | | by left].
    eapply Forall_impl; [exact L | by intros e []]. }
  unfold foldManagedPublicChain. intros E.
  apply bind_run in E as [(pending & h0 & E0 & E) | (e & E0 & ->)].
  2: { eapply moves_run in E0 as (new & A & L); [| apply pendingNow_moves]. eauto. }
  apply pendingNow_run in E0 as [A0 Hp].
  destruct pending; [injection E as <- <-; by apply (Hlook []) |]. specialize (Hp eq_refl).
  destruct (legacyChildren_run h0) as (parent & h1 & n1 & E1 & A1 & W1 & L1).
  apply bind_run in E as [(known & h1' & E1' & E) | (e & E1' & _)]; rewrite E1 in E1'; [| done].
  injection E1' as <- <-. pose proof (after_app _ _ _ _ _ A0 A1) as A01.
  destruct (childrenOf parent) as [children |] eqn:Ec; [| injection E as <- <-; by apply (Hlook n1)].
  destruct (readLegacyListeners_run parent children h1 Ec) as (n2 & listed & h2 & E2 & A2 & L2 & F2).
  apply bind_run in E as [(ls & h2' & E2' & E) | (e & E2' & _)]; rewrite E2 in E2'; [| done].
  injection E2' as <- <-. pose proof (after_app _ _ _ _ _ A01 A2) as A12.
  apply bind_run in E as [(live & h3 & E3 & E) | (e & E3 & ->)].
  2: { eapply moves_run in E3 as (n3 & A3 & L3); [| exact liveForward_moves].
       apply (Hlook (([] ++ n1) ++ n2 ++ n3)); [rewrite app_assoc; by eapply after_app |].
       by repeat (apply Forall_app; split). }
  destruct (liveForward_run _ _ _ E3) as (n3 & A3 & L3 & Hf).
  pose proof (after_app _ _ _ _ _ A12 A3) as A13.
  assert (Forall looks ((n1 ++ n2) ++ n3)) as L13 by (by repeat (apply Forall_app; split)).
  destruct live as [forward |]; [| injection E as <- <-; eauto].
  destruct (Hf _ eq_refl) as (hung & fwd & W2 & Hh & W3 & Hs & ->).
  destruct (_ ≫= _) as [| reason reasons] eqn:Eu; [| injection E as <- <-; eauto].
  assert (justified h ((n1 ++ n2) ++ n3) listed fwd) as HJ.
  { split_and!; [done | | eauto using answered_app_r | eauto using answered_app_r | done |].
    - exists parent, children. split_and!; [eauto using answered_app_l | done |].
      eapply Forall2_impl; [exact F2 |]. intros. by apply answered_app_l, answered_app_r.
    - intros l x. by apply no_reasons. }
  assert (exists n4, after h3 n4 h' /\ Forall sparesAll n4) as (n4 & A4 & S4).
  { eapply moves_run; [| exact E].
    apply moves_bind; [apply does_preorder | apply removeLegacy_moves | walk]. }
  exists (((n1 ++ n2) ++ n3) ++ n4). split_and!; [by eapply after_app | |].
  - apply Forall_app. split; [eapply Forall_impl; [exact L13 | by intros e []] | done].
  - right. eauto using justified_app.
Qed.
End FoldRuns.

Lemma replayed_programs new fs : Forall sparesAll new -> replayed new fs = fs.
Proof.
  unfold replayed. intros Hs. induction Hs as [| e new He Hs IH]; [done |]. cbn [foldl].
  destruct e as [| q t | q]; [exact IH | |]; specialize (He q); cbn in He;
    by rewrite bool_decide_true in He.
Qed.

(** No port of the listing holds a bar ([iptables] prints numbers). *)
Definition barlessPorts (text : jstring) : Prop :=
  forall r p, r ∈ parseRules text -> rulePort r = Some p -> 124 ∉ p.

(** The rules of [forward] do for a connection what the legacy rule [r] did. *)
Definition coversRule (forward : list ParsedRule) (r : ParsedRule) (src dst : N) (port : Z) : Prop :=
  (ruleTarget r = "ACCEPT" -> is_Some (ruleSource r) ->
    exists q, q ∈ forward /\ ruleTarget q = "RETURN" /\ ruleMatches q src dst port) /\
  (ruleTarget r = "DROP" -> ruleSource r = None ->
    exists q, q ∈ forward /\ ruleTarget q ∈ (["DROP"; "REJECT"] : list jstring) /\
      ruleMatches q src dst port).

Lemma covered_rule text forward r src dst port :
  barlessPorts text ->
  (forall x, x ∈ legacyListeners (parseRules text) -> uncoveredReasons x forward = []) ->
  r ∈ parseRules text -> is_Some (rulePort r) -> ruleMatches r src dst port ->
  coversRule forward r src dst port.
Proof.
  intros Hbar Hall Hin [p Hp] (Hsrc & Hdst & Hport). rewrite Hp in Hport.
  assert (Forall barless (parseRules text)) as Hb.
  { apply Forall_forall. intros x Hx. split; [by eapply parseRules_dest | intros q; by apply Hbar]. }
  destruct (legacyListeners_complete _ _ _ Hb Hin Hp) as (l & Hl & Hd & Hlp & Ha & Hdr).
  destruct (uncoveredReasons_nil _ _ (Hall l Hl)) as [Hdrop Hret].
  assert (listenerCovers l dst port) as Hc by (split; [by rewrite Hd | by rewrite Hlp]).
  split.
  - intros Ht [s Hs]. destruct (Hret s (Ha Ht s Hs)) as (q & t & Hq & Htq & Hqr & Hqs & Hcc).
    exists q. split_and!; [done | done |]. unfold ruleMatches. rewrite Hqs. rewrite Hs in Hsrc.
    split; [by eapply cidrContains_sound | by eapply targetsPort_sound].
  - intros Ht Hs. destruct (Hdrop (Hdr Ht Hs)) as (q & Hq & Htq & Hqd).
    unfold isDrop in Hqd. bools. exists q. split; [done |]. split.
    + match goal with Ho : (_ || _)%bool = true |- _ =>
        apply orb_true_iff in Ho as [->%bool_decide_eq_true | ->%bool_decide_eq_true]; set_solver end.
    + unfold ruleMatches. match goal with Hn : ruleSource q = None |- _ => rewrite Hn end.
      split; [done |]. by eapply targetsPort_sound.
Qed.

(** ** Properties *)

(** Containment of literals is inclusion of blocks: for two well-formed
    address or CIDR literals [cidrContains] answers yes exactly when every
    address of the inner block lies in the outer one. *)
Theorem containment_is_inclusion outer inner :
  isBlock4 outer -> isBlock4 inner ->
  (cidrContains outer inner = true <-> forall a, inBlock inner a -> inBlock outer a).
Proof.
  intros Ho Hi. split; [intros Hc a; by apply cidrContains_sound | by apply cidrContains_complete].
Qed.


(** ** Examples *)

Definition noDates : JsDates := {| otherDate := fun _ => None |}.

Definition emptyFiles : file_set := Files None None None None None None.
Definition quietSudo : sudo_setting :=
  {| needsRootHelper := false; development := false; tpHostPath := []; devTpHostPath := [] |}.
Definition ok (out : jstring) : program_end := Exited true 0 out [].
Definition notOk (err : jstring) : program_end := Exited false 1 [] err.

Definition parentListing : jstring :=
  join [10] ["-N TP-MANAGED-PUB"; "-A TP-MANAGED-PUB -j TP-MGD-ab12"].
Definition childListing : jstring :=
  join [10] ["-N TP-MGD-ab12";
    "-A TP-MGD-ab12 -s 10.0.0.7/32 -p tcp -m conntrack --ctorigdst 192.0.2.1/32 --ctorigdstport 3306 -j ACCEPT";
    "-A TP-MGD-ab12 -p tcp -m conntrack --ctorigdst 192.0.2.1/32 --ctorigdstport 3306 -j DROP"].
Definition forwardListing (proto : jstring) : jstring :=
  join [10] ["-N TP-FWD";
    ("-A TP-FWD -s 10.0.0.0/24 -p " : jstring) ++ proto ++
      (" -m conntrack --ctorigdst 192.0.2.1/32 --ctorigdstport 3306 -j RETURN" : jstring);
    ("-A TP-FWD -p " : jstring) ++ proto ++
      (" -m conntrack --ctorigdst 192.0.2.1/32 --ctorigdstport 3306 -j DROP" : jstring)].

(** A host whose programs will answer [ends], nothing pending. *)
Definition answeringHost (ends : list program_end) : host := Host emptyFiles [] ends quietSudo [].
Definition removals : list program_end := [ok []; notOk "iptables: Bad rule"; ok []; ok []; ok []; ok []].

Definition foldedHost (proto : jstring) : host :=
  answeringHost ([ok parentListing; ok childListing; ok []; ok (forwardListing proto)] ++ removals).

Lemma containment_is_inclusion_witness :
  cidrContains "10.0.0.0/24" "10.0.0.7/32" = true /\ inBlock "10.0.0.0/24" 167772167.
Proof.
  split; [vm_compute; reflexivity |].
  assert (isBlock4 "10.0.0.0/24" /\ isBlock4 "10.0.0.7/32") as [Ho Hi]
    by (split; eexists; vm_compute; reflexivity).
  apply (proj1 (containment_is_inclusion _ _ Ho Hi) ltac:(vm_compute; reflexivity)).
  vm_compute. reflexivity.
Defined.


(** A listener's protocol is not compared: rules for [udp] count as covering a
    [tcp] listener, whose chain is then removed. *)
Theorem fold_ignores_protocol :
  match (@foldManagedPublicChain noDates (foldedHost "udp")).1 with
  | Ok o => foldState o = Folded /\ foldListeners o = 1%nat
  | Throw _ => False
  end.
Proof. vm_compute. split; reflexivity. Qed.

(** A child chain that could not be listed counts as restricting nothing: it is
    removed although nothing is known to cover it. *)
Theorem fold_removes_unread_chain :
  let h := answeringHost ([ok parentListing; notOk "iptables: Resource temporarily unavailable"; ok [];
                           ok "-N TP-FWD"] ++ removals) in
  match (@foldManagedPublicChain noDates h).1 with
  | Ok o => foldState o = Folded /\ foldListeners o = 0%nat
  | Throw _ => False
  end /\
  Exists (fun e => words e = "iptables" :: finalArgs "iptables" ["-X"; "TP-MGD-ab12"])
    (trace (@foldManagedPublicChain noDates h).2).
Proof.
  split; [vm_compute; split; reflexivity |].
  apply Exists_exists. eexists. split; [vm_compute; do 9 right; left; reflexivity | vm_compute; reflexivity].
Qed.
