(* ===== verification/FwConfirm.v ===== *)
(** * Confirming a pending ruleset ([firewall/confirm.ts], [firewall/auto-confirm.ts])

    Promotion of the pending documents to the durable ones, by a command or by
    the daemon itself; and the whole commit-confirm system as a step relation:
    applies, confirms, the root guard's rollback, reboots. *)

From S2P Require Import Prelude Text Json Number JsonPrint GateHttp Dates FwRender FwHost FwPending FwApply FwFold.

#[local] Open Scope Z_scope.

Inductive FirewallConfirmOutcome :=
| Confirmed
| NothingPending
| DigestMismatch (pendingDigest : jstring)
| Expired (deadlineAt : jstring)
| RolledBack (at_ : jstring).

Definition missing (family : jstring) : gate_error :=
  OtherErr "Error" (("pending " : jstring) ++ family ++ (" document is missing; not promoting" : jstring)).

Section Confirm.
Context `{JsDates}.

Definition promoteDurable (intent : PendingV6Intent) (v4Document : jstring) : hostM unit :=
  '_ ← ensureDaemonDir;
  '_ ← writeDaemonFile (DurableDoc V4) v4Document;
  match intent with
  | Keep => mret tt
  | Forget => removeDaemonFile (DurableDoc V6)
  | Replace =>
      v6Document ← readPendingDocument V6;
      match v6Document with
      | None => raise (missing "IPv6")
      | Some text => writeDaemonFile (DurableDoc V6) text
      end
  end.

Definition noPendingOutcome (d : jstring) : hostM FirewallConfirmOutcome :=
  rollback ← readRollbackRecord;
  mret match rollback with
       | Some record => if decide (rbDigest record = d) then RolledBack (rbAt record) else NothingPending
       | None => NothingPending
       end.

Definition confirmPendingFirewall (d : jstring) (now : Z) : hostM FirewallConfirmOutcome :=
  marker ← readPendingMarker;
  match marker with
  | None => noPendingOutcome d
  | Some m =>
      if decide (markerDigest m <> d) then mret (DigestMismatch (markerDigest m))
      else if deadline m <=? now then
        '_ ← runFirewallHost "systemctl" ["start"; "--no-block"; FIREWALL_GUARD_SERVICE];
        mret (Expired (deadlineAt m))
      else
        v4Document ← readPendingDocument V4;
        match v4Document with
        | None => raise (missing "IPv4")
        | Some text =>
            '_ ← promoteDurable (v6Intent m) text;
            '_ ← clearPendingFirewall;
            '_ ← disarmGuardTimer;
            '_ ← removeDaemonFile RollbackRecord;
            '_ ← foldManagedPublicChainBestEffort;
            mret Confirmed
        end
  end.

(** ** The daemon's own confirm *)

(** The round trip to the control plane: not possible, answered in time, or
    failed (or timed out) with this text. *)
Inductive check := NoClient | Reached | Unreachable (detail : jstring).

Inductive auto_reason :=
| NoControlPlane
| CheckFailed (detail : jstring)
| ConfirmedItself
| ConfirmAnswered (outcome : FirewallConfirmOutcome)
| ConfirmFailed (e : gate_error).
Record FirewallAutoConfirmResult := { autoConfirmed : bool; autoReason : auto_reason }.

Definition autoConfirmFirewall (d : jstring) (verify : check) (now : Z)
    : hostM FirewallAutoConfirmResult :=
  match verify with
  | NoClient => mret {| autoConfirmed := false; autoReason := NoControlPlane |}
  | Unreachable detail => mret {| autoConfirmed := false; autoReason := CheckFailed detail |}
  | Reached =>
      catching
        (outcome ← confirmPendingFirewall d now;
         mret match outcome with
              | Confirmed => {| autoConfirmed := true; autoReason := ConfirmedItself |}
              | other => {| autoConfirmed := false; autoReason := ConfirmAnswered other |}
              end)
        (fun e => mret {| autoConfirmed := false; autoReason := ConfirmFailed e |})
  end.
End Confirm.

(** ** What a confirm does to the files *)

Section ConfirmSpec.
Context `{JsDates}.

(** The outcome ([None]: an exception) and the files of a confirm on a host
    whose file system works. *)
Definition confirmSpec (fs : file_set) (d : jstring) (now : Z)
    : option FirewallConfirmOutcome * file_set :=
  match markerOf (markerFile fs) with
  | None =>
      (Some match rollbackOf (rollbackFile fs) with
            | Some record => if decide (rbDigest record = d) then RolledBack (rbAt record) else NothingPending
            | None => NothingPending
            end, fs)
  | Some m =>
      if decide (markerDigest m <> d) then (Some (DigestMismatch (markerDigest m)), fs)
      else if deadline m <=? now then (Some (Expired (deadlineAt m)), fs)
      else
        match pending4 fs with
        | None => (None, fs)
        | Some text =>
            let promoted d6 := (Some Confirmed, Files None None None (Some text) d6 None) in
            match v6Intent m, pending6 fs with
            | Keep, _ => promoted (durable6 fs)
            | Forget, _ => promoted None
            | Replace, Some text6 => promoted (Some text6)
            | Replace, None => (None, setFile (DurableDoc V4) (Some text) fs)
            end
        end
  end.

Lemma readMarker_calm h : calm h -> exists h', readPendingMarker h
  = (Ok (markerOf (fileAt (files h) PendingMarker)), h') /\ calm h' /\ files h' = files h.
Proof.
  intros Hc. unfold readPendingMarker, mbind, hostM_bind.
  destruct (read_calm PendingMarker h Hc) as (h' & -> & Hc' & F). eauto.
Qed.

Lemma readRollback_calm h : calm h -> exists h', readRollbackRecord h
  = (Ok (rollbackOf (fileAt (files h) RollbackRecord)), h') /\ calm h' /\ files h' = files h.
Proof.
  intros Hc. unfold readRollbackRecord, catching, mbind, hostM_bind.
  destruct (read_calm RollbackRecord h Hc) as (h' & -> & Hc' & F). eauto.
Qed.

Lemma clear_calm h : calm h -> exists h', clearPendingFirewall h = (Ok tt, h') /\ calm h' /\
  files h' = setFile (PendingDoc V6) None (setFile (PendingDoc V4) None (setFile PendingMarker None (files h))).
Proof.
  intros Hc. unfold clearPendingFirewall. calm_step. calm_step.
  destruct (remove_calm (PendingDoc V6) h1) as (h2 & -> & Hc2 & F2); [done |].
  exists h2. split_and!; [done | done | congruence].
Qed.

Lemma disarm_calm h : calm h -> exists h', disarmGuardTimer h = (Ok tt, h') /\ calm h' /\ files h' = files h.
Proof. intros Hc. unfold disarmGuardTimer, runFirewallHost. calm_step. eauto. Qed.

Lemma fold_steady : moves steady foldManagedPublicChainBestEffort.
Proof.
  assert (forall args, moves steady (attempt args)) as Ha by (intros; unfold attempt, runFirewallHost; walk).
  assert (forall n, moves steady (removeJumpsOut n)) as Hj
    by (intros n; induction n as [| n IH]; cbn [removeJumpsOut]; walk).
  assert (moves steady pendingNow) as Hp by (unfold pendingNow, readPendingMarker; walk).
  assert (moves steady liveForwardRules) as Hl by (unfold liveForwardRules, runFirewallHost; walk).
  assert (moves steady legacyChildren) as Hc by (unfold legacyChildren, runFirewallHost; walk).
  assert (forall cs, moves steady (readLegacyListeners cs)) as Hr.
  { intros cs. unfold readLegacyListeners. apply moves_bind; [typeclasses eauto | | walk].
    apply moves_mapSequential; [typeclasses eauto |]. unfold runFirewallHost. walk. }
  assert (forall cs, moves steady (removeLegacy cs)) as Hm.
  { intros cs. unfold removeLegacy. apply moves_bind; [typeclasses eauto | apply Hj |]. intros.
    apply moves_bind; [typeclasses eauto | apply moves_mapSequential; [typeclasses eauto | auto] |]. intros.
    apply moves_bind; [typeclasses eauto | apply moves_mapSequential; [typeclasses eauto | auto] |]. walk. }
  unfold foldManagedPublicChainBestEffort, foldManagedPublicChain. walk.
Qed.

Lemma fold_spares : moves (does sparesAll) foldManagedPublicChainBestEffort.
Proof.
  assert (moves (does sparesAll) foldManagedPublicChain) as Hf.
  { intros h. destruct (foldManagedPublicChain h) as [r h'] eqn:E.
    destruct (fold_run _ _ _ E) as (new & A & S & _). by exists new. }
  unfold foldManagedPublicChainBestEffort. walk.
Qed.

Lemma fold_calm h : calm h -> exists h', foldManagedPublicChainBestEffort h = (Ok tt, h') /\ calm h' /\
  files h' = files h.
Proof.
  intros Hc. destruct (foldManagedPublicChainBestEffort h) as [r h'] eqn:E.
  assert (r = Ok tt) as ->.
  { unfold foldManagedPublicChainBestEffort in E. apply catch_run in E as [([] & _ & ->) | (e & h1 & _ & E)].
    - done.
    - by injection E as <- _. }
  exists h'. split; [done |]. split.
  - pose proof (fold_steady h Hc) as Hs. by rewrite E in Hs.
  - destruct (moves_run _ _ _ _ _ fold_spares E) as (new & A & S).
    rewrite (after_files _ _ _ A). by apply replayed_programs.
Qed.
End ConfirmSpec.

Lemma confirm_calm `{JsDates} h d now :
  calm h -> exists r h', confirmPendingFirewall d now h = (r, h') /\ calm h' /\
    files h' = (confirmSpec (files h) d now).2 /\
    match (confirmSpec (files h) d now).1 with Some o => r = Ok o | None => exists e, r = Throw e end.
Proof.
  intros Hc. unfold confirmPendingFirewall, confirmSpec, mbind at 1, hostM_bind at 1.
  destruct (readMarker_calm h Hc) as (h1 & -> & Hc1 & F1). change (fileAt (files h) PendingMarker) with (markerFile (files h)).
  destruct (markerOf (markerFile (files h))) as [m |].
  2: { unfold noPendingOutcome, mbind, hostM_bind.
       destruct (readRollback_calm h1 Hc1) as (h2 & -> & Hc2 & F2). rewrite F1.
       do 2 eexists. split_and!; [done | done | cbn; congruence | done]. }
  case_decide; [by do 2 eexists |].
  destruct (deadline m <=? now).
  { unfold runFirewallHost. calm_step. do 2 eexists. split_and!; [done | done | cbn; congruence | done]. }
  unfold readPendingDocument. calm_step. rewrite F1. change (fileAt (files h) (PendingDoc V4)) with (pending4 (files h)).
  destruct (pending4 (files h)) as [text |]; [| do 2 eexists; split_and!; [done | done | cbn; congruence | by eexists]].
  rewrite F1 in F.
  unfold mbind at 1, hostM_bind at 1.
  assert (exists r h3, promoteDurable (v6Intent m) text h0 = (r, h3) /\ calm h3 /\
    match r with
    | Ok _ => files h3 = setFile (DurableDoc V6) match v6Intent m with
                           | Keep => durable6 (files h) | Forget => None | Replace => pending6 (files h) end
                         (setFile (DurableDoc V4) (Some text) (files h)) /\
              (v6Intent m = Replace -> pending6 (files h) <> None)
    | Throw _ => v6Intent m = Replace /\ pending6 (files h) = None /\
                 files h3 = setFile (DurableDoc V4) (Some text) (files h)
    end) as (r & h3 & -> & Hc3 & Hr).
  { unfold promoteDurable. calm_step. calm_step. destruct (v6Intent m).
    - unfold readPendingDocument. calm_step. chase.
      rewrite fileAt_set, decide_False by done. cbn [fileAt].
      destruct (pending6 (files h)) as [text6 |] eqn:E6.
      + match goal with Hx : calm ?x |- context [writeDaemonFile _ _ ?x] =>
          destruct (write_calm (DurableDoc V6) text6 x Hx) as (h5 & E & Hc5 & F5) end.
        rewrite E. do 2 eexists. split; [reflexivity |]. split_and!; [done | by chase | done].
      + do 2 eexists. split; [reflexivity |]. split_and!; [done | done | done | by chase].
    - match goal with Hx : calm ?x |- context [removeDaemonFile _ ?x] =>
          destruct (remove_calm (DurableDoc V6) x Hx) as (h5 & E & Hc5 & F5) end.
      rewrite E. do 2 eexists. split; [reflexivity |]. split_and!; [done | by chase | done].
    - do 2 eexists. split; [reflexivity |]. split_and!; [done | | done]. chase. by destruct (files h). }
  destruct r as [[] | e].
  - destruct Hr as [F3 H6].
    unfold mbind at 1, hostM_bind at 1. destruct (clear_calm h3 Hc3) as (h4 & -> & Hc4 & F4).
    unfold mbind at 1, hostM_bind at 1. destruct (disarm_calm h4 Hc4) as (h5 & -> & Hc5 & F5). calm_step.
    unfold mbind at 1, hostM_bind at 1.
    match goal with Hx : calm ?x |- context [foldManagedPublicChainBestEffort ?x] =>
      destruct (fold_calm x Hx) as (h7 & -> & Hc7 & F7) end.
    do 2 eexists. split; [done |]. split; [done |].
    assert (files h7 = Files None None None (Some text) match v6Intent m with
      | Keep => durable6 (files h) | Forget => None | Replace => pending6 (files h) end None) as Ff.
    { chase. by destruct (files h). }
    rewrite Ff. destruct (v6Intent m); [| done..].
    destruct (pending6 (files h)); [done | by contradiction H6].
  - destruct Hr as (Hi & H6 & F3). rewrite Hi, H6. do 2 eexists. split_and!; [done | done | done | by eexists].
Qed.

(** A confirm implements its specification.  On a host whose file system
    works, whatever programs answer: with no marker it reports a rollback of
    that digest or that nothing is pending; with another digest pending, or
    after the deadline, it changes no file; otherwise the pending v4 document
    becomes the durable one, the durable v6 document is replaced, forgotten or
    kept as recorded, and marker, pending documents and rollback record are
    gone.  A missing pending document is an exception. *)
Theorem confirm_refines_spec `{JsDates} h d now :
  calm h ->
  let out := confirmPendingFirewall d now h in
  let spec := confirmSpec (files h) d now in
  calm out.2 /\ files out.2 = spec.2 /\
  match spec.1 with Some o => out.1 = Ok o | None => exists e, out.1 = Throw e end.
Proof.
  intros Hc. cbv zeta. destruct (confirm_calm h d now Hc) as (r & h' & E & Hc' & F & Hr). by rewrite E.
Qed.

(** ** A confirm on any host *)

(** What may happen to the durable files when the marker [m] is confirmed over
    the files [fs]. *)
Definition promotion (fs : file_set) (m : PendingFirewallMarker) (e : event) : Prop :=
  match e with
  | Wrote (DurableDoc V4) t => pending4 fs = Some t
  | Wrote (DurableDoc V6) t => v6Intent m = Replace /\ pending6 fs = Some t
  | Removed (DurableDoc V6) => v6Intent m = Forget
  | Removed (DurableDoc V4) => False
  | _ => True
  end.

Lemma sparesAll_promotion fs m e : sparesAll e -> promotion fs m e.
Proof.
  intros Hs. destruct e as [| q t | q]; [done | |]; specialize (Hs q); cbn in Hs;
    by rewrite bool_decide_true in Hs.
Qed.

Section AnyHost.
Context `{JsDates}.

Lemma promote_events m text h r h' :
  pending4 (files h) = Some text ->
  promoteDurable (v6Intent m) text h = (r, h') ->
  exists new, after h new h' /\ Forall (promotion (files h) m) new.
Proof.
  intros H4 E. unfold promoteDurable in E.
  apply bind_run in E as [([] & h1 & E1 & E) | (e & E1 & _)].
  2: { eapply moves_run in E1; [exact E1 | apply ensure_moves]. }
  apply ensure_run in E1.
  apply bind_run in E as [([] & h2 & E2 & E) | (e & E2 & _)].
  2: { eapply moves_run in E2 as (new & A & P); [| apply (write_moves (promotion (files h) m))]; [| done].
       exists ([] ++ new). split; [by eapply after_app | done]. }
  apply write_run in E2 as [A2 _]. pose proof (after_app _ _ _ _ _ E1 A2) as A12.
  assert (forall r h', (match v6Intent m with
      | Keep => mret tt
      | Forget => removeDaemonFile (DurableDoc V6)
      | Replace => v6Document ← readPendingDocument V6;
          match v6Document with None => raise (missing "IPv6") | Some text => writeDaemonFile (DurableDoc V6) text end
      end : hostM unit) h2 = (r, h') -> exists new, after h2 new h' /\ Forall (promotion (files h) m) new) as Hrest.
  { clear E. intros r0 h0 E. destruct (v6Intent m) eqn:Ei.
    - apply bind_run in E as [(doc & h3 & E3 & E) | (e & E3 & _)].
      2: { eapply moves_run in E3; [exact E3 | apply read_moves]. }
      apply read_run in E3 as [A3 ->].
      rewrite (after_spares (PendingDoc V6) _ _ _ A12) in E by (by repeat constructor).
      destruct (fileAt (files h) (PendingDoc V6)) as [text6 |] eqn:E6.
      + eapply moves_run in E as (new & A & P); [| apply (write_moves (promotion (files h) m))]; [| done].
        exists ([] ++ new). split; [by eapply after_app | done].
      + injection E as _ <-. by exists [].
    - eapply moves_run in E as (new & A & P); [| apply (remove_moves (promotion (files h) m))]; [| done].
      by exists new.
    - injection E as _ <-. exists []. split; [apply after_refl | constructor]. }
  destruct (Hrest _ _ E) as (new & A3 & P3). exists (([] ++ [Wrote (DurableDoc V4) text]) ++ new).
  split; [by eapply after_app |]. by repeat constructor.
Qed.

Lemma afterPromotion_moves (fs : file_set) m :
  moves (does (promotion fs m))
    ('_ ← clearPendingFirewall; '_ ← disarmGuardTimer; '_ ← removeDaemonFile RollbackRecord;
     '_ ← foldManagedPublicChainBestEffort; mret Confirmed).
Proof.
  assert (moves (does (promotion fs m)) clearPendingFirewall) as Hc by (apply clear_moves; by intros).
  assert (moves (does (promotion fs m)) disarmGuardTimer) as Hd.
  { apply disarm_moves. intros e He. eapply sparesAll_promotion, issues_sparesAll, He. }
  assert (moves (does (promotion fs m)) (removeDaemonFile RollbackRecord)) as Hr by (by apply remove_moves).
  assert (moves (does (promotion fs m)) foldManagedPublicChainBestEffort) as Hf
    by (eapply moves_does; [apply fold_spares | apply sparesAll_promotion]).
  walk.
Qed.
End AnyHost.

(** Only a confirmed ruleset becomes durable.  However programs and file
    system calls end, a confirm leaves both durable documents alone unless the
    marker on disk carries the digest it was given and the deadline is still to
    come; and then the only thing ever written as the durable v4 document is
    the pending v4 document, and the v6 document is replaced by the pending one
    or removed exactly as the marker records. *)
Theorem confirm_promotes_pending `{JsDates} h d now r h' :
  confirmPendingFirewall d now h = (r, h') ->
  exists new, after h new h' /\
    (Forall sparesDurable new \/
     exists m, markerOf (fileAt (files h) PendingMarker) = Some m /\ markerDigest m = d /\
       now < deadline m /\ Forall (promotion (files h) m) new).
Proof.
  unfold confirmPendingFirewall. intros E.
  apply bind_run in E as [(marker & h1 & E1 & E) | (e & E1 & _)].
  2: { eapply moves_run in E1 as (new & A & S); [| apply readMarker_moves]. exists new. split; [done |]. by left. }
  apply readMarker_run in E1 as [A1 ->].
  destruct (markerOf (fileAt (files h) PendingMarker)) as [m |] eqn:Em.
  2: { assert (moves (does sparesDurable) (noPendingOutcome d)) as Hn
         by (unfold noPendingOutcome, readRollbackRecord; walk).
       eapply moves_run in E as (new & A & S); [| exact Hn]. exists ([] ++ new).
       split; [by eapply after_app | by left]. }
  case_decide; [injection E as _ <-; exists []; split; [done | left; constructor] |].
  destruct (Z.leb_spec (deadline m) now).
  { assert (moves (does sparesDurable) (runFirewallHost "systemctl"
      ["start"; "--no-block"; FIREWALL_GUARD_SERVICE])) as Hr.
    { apply run_moves; [done |]. intros e He f. by eapply issues_sparesAll. }
    eapply moves_run in E as (new & A & S); [| walk]. exists ([] ++ new).
    split; [by eapply after_app | by left]. }
  assert (exists new, after h new h' /\ Forall (promotion (files h) m) new) as (new & A & P).
  2: { exists new. split; [done |]. right. exists m. split_and!; [done | done | done | done]. }
  unfold readPendingDocument in E.
  apply bind_run in E as [(doc & h2 & E2 & E) | (e & E2 & _)].
  2: { eapply moves_run in E2 as (new & A & S); [| apply read_moves].
       exists ([] ++ new). split; [by eapply after_app | exact S]. }
  apply read_run in E2 as [A2 ->]. pose proof (after_app _ _ _ _ _ A1 A2) as A12.
  rewrite (after_same _ _ _ A1) in E. cbn [fileAt] in E.
  destruct (pending4 (files h)) as [text |] eqn:E4; [| injection E as _ <-; by exists []].
  assert (files h2 = files h) as F2 by (by rewrite (after_files _ _ _ A12)).
  apply bind_run in E as [([] & h3 & E3 & E) | (e & E3 & _)];
    (eapply promote_events in E3 as (n3 & A3 & P3); [| by rewrite F2]); rewrite F2 in P3.
  - eapply moves_run in E as (n4 & A4 & P4); [| apply (afterPromotion_moves (files h) m)].
    exists (([] ++ []) ++ n3 ++ n4). split; [eauto using after_app | cbn; by apply Forall_app].
  - exists (([] ++ []) ++ n3). split; [by eapply after_app | done].
Qed.

(** ** The commit-confirm system *)

Section System.
Context `{WholeNumberText} `{JsDates}.

(** The stage of [rendered], whatever its v6 outcome. *)
Definition stageOf (rendered : RenderedFirewall) (gen now : Z) (fs : file_set) : Prop :=
  exists i, markerFile fs = Some (JSON_stringify (JObj (newMarker (digest rendered) gen now i))) /\
    pending4 fs = Some (v4 rendered).

(** A ruleset whose marker can be written and read back. *)
Definition stageable (rendered : RenderedFirewall) (gen now : Z) : Prop :=
  utf16 (digest rendered) /\ 0 <= gen < 2 ^ 53 /\
  ordinary (now + FIREWALL_CONFIRM_WINDOW_SECONDS * 1000).

Lemma stageOf_marker rendered gen now fs :
  stageable rendered gen now -> stageOf rendered gen now fs ->
  exists m, markerOf (markerFile fs) = Some m /\ markerDigest m = digest rendered /\
    deadline m = now + FIREWALL_CONFIRM_WINDOW_SECONDS * 1000 /\ pending4 fs = Some (v4 rendered).
Proof.
  intros (Hd & Hg & Ht) (i & -> & H4). rewrite marker_reads by done. eexists. by split_and!.
Qed.

Lemma recordV6_holds rendered gen now intent doc :
  stageable rendered gen now ->
  moves (holds (fun h => calm h /\ stageOf rendered gen now (files h))) (recordPendingV6 intent doc).
Proof.
  intros Hst h [Hc (i & Hm & H4)]. destruct (recordPendingV6 intent doc h) as [r h'] eqn:E.
  assert (calm h') as Hc'.
  { assert (moves steady (recordPendingV6 intent doc)) as Hs
      by (unfold recordPendingV6, readPendingMarker; walk).
    specialize (Hs h Hc). by rewrite E in Hs. }
  split; [done |]. cbn [snd].
  assert (exists u, r = Ok u) as [[] ->].
  { unfold recordPendingV6, mbind at 1, hostM_bind at 1 in E.
    destruct (readMarker_calm h Hc) as (h1 & E1 & Hc1 & _). rewrite E1 in E.
    destruct (markerOf _); [| injection E as <- _; eauto].
    assert (exists h2, (match intent, doc with
      | Replace, Some text => writeDaemonFile (PendingDoc V6) text
      | _, _ => removeDaemonFile (PendingDoc V6) end : hostM unit) h1 = (Ok tt, h2) /\ calm h2)
      as (h2 & E2 & Hc2).
    { destruct intent, doc as [t |];
        first [destruct (remove_calm (PendingDoc V6) h1 Hc1) as (h2 & -> & Hc2 & _)
              | destruct (write_calm (PendingDoc V6) t h1 Hc1) as (h2 & -> & Hc2 & _)]; eauto. }
    unfold mbind, hostM_bind in E. rewrite E2 in E.
    match type of E with writeDaemonFile ?p ?t ?x = _ =>
      destruct (write_calm p t x Hc2) as (h3 & E3 & _) end. rewrite E3 in E. injection E as <- _. eauto. }
  destruct Hst as (Hd & Hg & Ht).
  destruct (recordV6_run _ _ _ _ _ _ _ _ _ Hd Hg Ht Hm E) as (Hm' & _ & Ho).
  exists intent. split; [exact Hm' |].
  specialize (Ho (PendingDoc V4) ltac:(done) ltac:(done)). cbn [fileAt] in Ho. by rewrite Ho.
Qed.

Lemma loadAfterV4_holds rendered fwd probe armed gen now :
  stageable rendered gen now ->
  moves (holds (fun h => calm h /\ stageOf rendered gen now (files h))) (loadAfterV4 rendered fwd probe armed).
Proof.
  intros Hst. set (J := fun h => calm h /\ stageOf rendered gen now (files h)).
  pose proof (fun i d => recordV6_holds rendered gen now i d Hst) as Hrec.
  assert (forall f args stdin tool, tool ∈ ([[]; "-restore"; "-save"] : list jstring) ->
    moves (holds J) (runInput (binaryFor f tool) args stdin)) as Hx
    by (intros; apply run_holds; by apply binaryFor_plain).
  assert (forall f p c, moves (holds J) (ensureJump f p c)) as Hj.
  { intros. unfold ensureJump, runFirewallHost.
    apply moves_bind; [typeclasses eauto | apply Hx; set_solver |]. intros. case_match; [walk |].
    apply moves_bind; [typeclasses eauto | apply Hx; set_solver | walk]. }
  assert (forall f d, moves (holds J) (restoreDocument f d)) as Hr.
  { intros. unfold restoreDocument.
    apply moves_bind; [typeclasses eauto | apply Hx; set_solver |]. intros. case_match; [| walk].
    apply moves_bind; [typeclasses eauto | apply Hx; set_solver | walk]. }
  unfold loadAfterV4, attemptIpv6, applyIpv6. walk.
Qed.

(** An apply on a calm host leaves no stage, or its own. *)
Lemma apply_calm rendered fwd probe gen now h r h' :
  stageable rendered gen now -> calm h ->
  applyRenderedFirewall rendered fwd probe gen now h = (r, h') ->
  calm h' /\ (markerFile (files h') = None \/ stageOf rendered gen now (files h')).
Proof.
  intros Hst Hc E. unfold applyRenderedFirewall in E.
  assert (exists r1 h1, armPendingFirewall (digest rendered) gen (v4 rendered) now h = (r1, h1) /\ calm h1 /\
    match r1 with
    | Ok _ => stageOf rendered gen now (files h1)
    | Throw _ => markerFile (files h1) = None
    end) as (r1 & h1 & E1 & Hc1 & Hs1).
  { unfold armPendingFirewall. do 6 calm_step. unfold mbind at 1, hostM_bind at 1, catching, armGuardTimer,
      runFirewallHost.
    calm_step. destruct (success r0).
    - do 2 eexists. split; [reflexivity |]. split; [done |]. exists Keep. chase. by destruct (files h).
    - cbn [raise]. unfold mbind at 1, hostM_bind at 1.
      match goal with Hx : calm ?x |- context [clearPendingFirewall ?x] =>
        destruct (clear_calm x Hx) as (hx & -> & Hcx & Fx) end.
      do 2 eexists. split; [reflexivity |]. split; [done |]. chase. by destruct (files h). }
  unfold mbind at 1, hostM_bind at 1 in E. rewrite E1 in E. destruct r1 as [armed | e].
  2: { injection E as <- <-. split; [done | by left]. }
  unfold mbind at 1, hostM_bind at 1, catching in E.
  destruct (restoreDocument V4 (v4 rendered) h1) as [r2 h2] eqn:E2.
  assert (calm h2 /\ files h2 = files h1) as [Hc2 F2].
  { split.
    - assert (moves steady (restoreDocument V4 (v4 rendered))) as Hs by (unfold restoreDocument; walk).
      specialize (Hs h1 Hc1). by rewrite E2 in Hs.
    - destruct (moves_run _ _ _ _ _ (restore_sparesAll _ _) E2) as (new & A & S).
      rewrite (after_files _ _ _ A). by apply replayed_programs. }
  destruct r2 as [[] | e].
  - destruct (loadAfterV4_holds rendered fwd probe armed gen now Hst h2) as [Hc3 H3]; [by rewrite F2 |].
    rewrite E in Hc3, H3. auto.
  - unfold mbind, hostM_bind in E. destruct (clear_calm h2 Hc2) as (h3 & E3 & Hc3 & F3). rewrite E3 in E.
    destruct (disarm_calm h3 Hc3) as (h4 & E4 & Hc4 & F4). rewrite E4 in E. injection E as <- <-.
    split; [done |]. left. chase. by destruct (files h1).
Qed.
(** *** Steps

    The root guard ([tp-firewall-guard], a shell script) restores from the
    durable documents, writes its record if it can, and removes the stage; a
    reboot loses the marker, which is in a tmpfs, and the boot run of the script
    removes the pending documents. *)
Definition withFiles (h : host) (fs : file_set) : host :=
  Host fs (faults h) (answers h) (sudo h) (trace h).
Definition guardRollsBack (record : option jstring) (h : host) : host :=
  let fs := files h in
  withFiles h (Files None None None (durable4 fs) (durable6 fs)
    match record with Some _ => record | None => rollbackFile fs end).
Definition reboots (h : host) : host :=
  let fs := files h in withFiles h (Files None None None (durable4 fs) (durable6 fs) (rollbackFile fs)).
Definition withPrograms (h : host) (ends : list program_end) : host :=
  Host (files h) (faults h) ends (sudo h) (trace h).

(** The rulesets applied so far, and the host. *)
Inductive commit_step : list RenderedFirewall * host -> list RenderedFirewall * host -> Prop :=
| step_apply seen h rendered fwd probe gen now :
    stageable rendered gen now ->
    commit_step (seen, h) (rendered :: seen, (applyRenderedFirewall rendered fwd probe gen now h).2)
| step_confirm seen h d now : commit_step (seen, h) (seen, (confirmPendingFirewall d now h).2)
| step_off seen h : commit_step (seen, h) (seen, (removeFirewall h).2)
| step_rehang seen h : commit_step (seen, h) (seen, (reinstallFirewallForwardingIfEnabled h).2)
| step_guard seen h record : commit_step (seen, h) (seen, guardRollsBack record h)
| step_boot seen h : commit_step (seen, h) (seen, reboots h)
| step_programs seen h ends : commit_step (seen, h) (seen, withPrograms h ends).

(** A marker names a ruleset that was applied, and its document is the pending
    one; the durable v4 document is the one at the start, none, or one that was
    applied. *)
Definition known (start : option jstring) (seen : list RenderedFirewall) (fs : file_set) : Prop :=
  (forall m, markerOf (markerFile fs) = Some m ->
    exists rendered, rendered ∈ seen /\ markerDigest m = digest rendered /\
      pending4 fs = Some (v4 rendered)) /\
  (durable4 fs = start \/ durable4 fs = None \/
   exists rendered, rendered ∈ seen /\ durable4 fs = Some (v4 rendered)).

Lemma known_more start seen fs x : known start seen fs -> known start (x :: seen) fs.
Proof.
  intros [Hm Hd]. split.
  - intros m Em. destruct (Hm m Em) as (r & Hr & ?). exists r. set_solver.
  - destruct Hd as [? | [? | (r & Hr & ?)]]; [by left | by right; left |]. right. right. exists r. set_solver.
Qed.

Lemma known_unstaged start seen fs d4 d6 rb :
  known start seen fs -> d4 = durable4 fs \/ d4 = None -> known start seen (Files None None None d4 d6 rb).
Proof. intros [_ Hd] Hd4. split; [by intros m [=] |]. destruct Hd4 as [-> | ->]; [exact Hd | by right; left]. Qed.

Lemma known_confirm start seen fs d now :
  known start seen fs -> known start seen (confirmSpec fs d now).2 /\
  ((confirmSpec fs d now).1 = Some Confirmed -> exists rendered, rendered ∈ seen /\
    digest rendered = d /\ durable4 (confirmSpec fs d now).2 = Some (v4 rendered)).
Proof.
  intros Hk. pose proof Hk as [Hm Hd]. unfold confirmSpec.
  destruct (markerOf (markerFile fs)) as [m |] eqn:Em.
  2: { split; [done |]. cbn [fst]. by repeat case_match. }
  destruct (Hm m eq_refl) as (rendered & Hin & Hdig & H4). rewrite H4.
  case_decide; [done |]. destruct (deadline m <=? now); [done |].
  assert (forall d6, known start seen (Files None None None (Some (v4 rendered)) d6 None)) as Hpro.
  { intros d6. split; [by intros ? [=] |]. right. right. eauto. }
  assert (digest rendered = d) as Hdd by (subst; by rewrite <- Hdig).
  destruct (v6Intent m), (pending6 fs); cbn [fst snd]; (split; [try apply Hpro | first [by intros [=] | intros _; by exists rendered]]).
  destruct fs as [mf p4 p6 d4 d6 rb]. cbn [markerFile pending4 durable4 setFile] in *.
  split; [cbn [markerFile pending4]; rewrite Em; intros ? [= <-]; eauto |]. right. right. eauto.
Qed.

Lemma apply_durable rendered fwd probe gen now :
  moves (does sparesDurable) (applyRenderedFirewall rendered fwd probe gen now).
Proof.
  assert (moves (does sparesDurable) (armPendingFirewall (digest rendered) gen (v4 rendered) now)) as Ha
    by (eapply moves_does; [apply arm_moves | by intros e (_ & _ & _ & ?)]).
  assert (forall armed, moves (does sparesDurable) (loadAfterV4 rendered fwd probe armed)) as Hl.
  { intros armed. eapply moves_does; [apply loadAfterV4_moves |]. by intros e [(_ & ? & _) _]. }
  assert (forall f d, moves (does sparesDurable) (restoreDocument f d)) as Hr.
  { intros. eapply moves_does; [apply restore_sparesAll |]. intros e He f'. apply He. }
  assert (moves (does sparesDurable) clearPendingFirewall) as Hc by (apply clear_moves; by intros).
  assert (moves (does sparesDurable) disarmGuardTimer) as Hd.
  { apply disarm_moves. intros e He f. by eapply issues_sparesAll. }
  unfold applyRenderedFirewall. walk.
Qed.

(** Turning the firewall off keeps what is known. *)
Lemma off_holds start seen : moves (holds (fun h => calm h /\ known start seen (files h))) removeFirewall.
Proof.
  set (J := fun h => calm h /\ known start seen (files h)).
  assert (forall f tool args, tool ∈ ([[]; "-restore"; "-save"] : list jstring) ->
    moves (holds J) (runInput (binaryFor f tool) args None)) as Hx
    by (intros; apply run_holds; by apply binaryFor_plain).
  assert (forall n f p c, moves (holds J) (removeJumps n f p c)) as Hj.
  { intros n f p c. induction n as [| n IH]; cbn [removeJumps]; [walk |]. unfold runFirewallHost.
    apply moves_bind; [typeclasses eauto | apply Hx; set_solver | walk]. }
  assert (forall f, moves (holds J) (removeFamilyChains f)) as Hf.
  { intros f. unfold removeFamilyChains, removeJumpBestEffort.
    apply moves_bind; [typeclasses eauto | apply Hj |]. intros.
    apply moves_bind; [typeclasses eauto | apply Hj |]. intros.
    apply moves_forEach; [typeclasses eauto |]. intros [chain flag] _. unfold runFirewallHost.
    apply Hx. set_solver. }
  assert (forall p, p <> PendingDoc V4 -> moves (holds J) (removeDaemonFile p)) as Hrm.
  { intros p Hp h [Hc [Hm Hd]]. destruct (remove_calm p h Hc) as (h' & -> & Hc' & F). split; [done |].
    cbn [snd]. rewrite F. destruct (files h). destruct p as [| [] | [] |]; try done.
    all: split; [first [exact Hm | by intros ? [=]] | first [exact Hd | by right; left]]. }
  assert (moves (holds J) clearPendingFirewall) as Hcl.
  { intros h [Hc [Hm Hd]]. destruct (clear_calm h Hc) as (h' & -> & Hc' & F). split; [done |].
    cbn [snd]. rewrite F. destruct (files h). split; [by intros ? [=] | exact Hd]. }
  assert (moves (holds J) disarmGuardTimer) as Hdis.
  { unfold disarmGuardTimer, runFirewallHost. apply moves_bind; [typeclasses eauto | by apply run_holds | walk]. }
  unfold removeFirewall. apply moves_bind; [typeclasses eauto | apply moves_forEach; [typeclasses eauto | auto] |].
  intros. repeat (apply moves_bind; [typeclasses eauto | first [apply Hrm; done | apply Hcl] |]; intros).
  apply Hdis.
Qed.

Lemma rehang_holds (I : file_set -> Prop) :
  moves (holds (fun h => calm h /\ I (files h))) reinstallFirewallForwardingIfEnabled.
Proof.
  set (J := fun h => calm h /\ I (files h)).
  assert (forall f tool args stdin, tool ∈ ([[]; "-restore"; "-save"] : list jstring) ->
    moves (holds J) (runInput (binaryFor f tool) args stdin)) as Hx
    by (intros; apply run_holds; by apply binaryFor_plain).
  assert (forall p, moves (holds J) (readTextFile p)) as Hrd.
  { intros p h [Hc HI]. unfold readTextFile, mbind, hostM_bind, lookFile.
    destruct (fsCall_quiet h) as (r & h' & -> & (A & _ & Hf) & _). split; [by apply Hf |].
    cbn [snd mret hostM_ret]. by rewrite (after_files _ _ _ A). }
  assert (moves (holds J) readPendingMarker) as Hm.
  { intros h [Hc HI]. destruct (readMarker_calm h Hc) as (h' & -> & Hc' & F). split; [done |]. cbn [snd]. by rewrite F. }
  assert (forall f p c, moves (holds J) (ensureJump f p c)) as Hj.
  { intros. unfold ensureJump, runFirewallHost.
    apply moves_bind; [typeclasses eauto | apply Hx; set_solver |]. intros. case_match; [walk |].
    apply moves_bind; [typeclasses eauto | apply Hx; set_solver | walk]. }
  assert (forall f d, moves (holds J) (restoreDocument f d)) as Hr.
  { intros. unfold restoreDocument.
    apply moves_bind; [typeclasses eauto | apply Hx; set_solver |]. intros. case_match; [| walk].
    apply moves_bind; [typeclasses eauto | apply Hx; set_solver | walk]. }
  assert (forall f, moves (holds J) (hasDockerUserChain f)) as Hh.
  { intros f. unfold hasDockerUserChain, runFirewallHost.
    apply moves_bind; [typeclasses eauto | apply Hx; set_solver | walk]. }
  assert (forall f o, moves (holds J) (rehangForwardChain f o)) as Hre
    by (intros; unfold rehangForwardChain; walk).
  unfold reinstallFirewallForwardingIfEnabled. walk.
Qed.

Lemma commit_step_known start s s' :
  commit_step s s' -> calm s.2 -> known start s.1 (files s.2) ->
  calm s'.2 /\ known start s'.1 (files s'.2).
Proof.
  intros Hs Hc Hk.
  destruct Hs as [seen h rendered fwd probe gen now Hst | seen h d now | seen h | seen h | seen h record
                 | seen h | seen h ends]; cbn [fst snd] in *.
  - destruct (applyRenderedFirewall rendered fwd probe gen now h) as [r h'] eqn:E. cbn [snd].
    destruct (apply_calm _ _ _ _ _ _ _ _ Hst Hc E) as [Hc' Hm]. split; [done |].
    destruct (moves_run _ _ _ _ _ (apply_durable _ _ _ _ _) E) as (new & A & S).
    assert (durable4 (files h') = durable4 (files h)) as Hd.
    { apply (after_spares (DurableDoc V4) _ _ _ A). eapply Forall_impl; [exact S |]. intros e He. apply He. }
    destruct (known_more _ _ _ rendered Hk) as [_ Hk']. split; [| by rewrite Hd].
    intros m Em. destruct Hm as [Hn | Hm]; [by rewrite Hn in Em |].
    destruct (stageOf_marker _ _ _ _ Hst Hm) as (m' & Em' & Hdig & _ & H4).
    rewrite Em in Em'. injection Em' as <-. exists rendered. split_and!; [set_solver | done | done].
  - destruct (confirm_calm h d now Hc) as (r & h' & E & Hc' & F & _). rewrite E. cbn [snd].
    split; [done |]. rewrite F. by apply known_confirm.
  - apply (off_holds start seen h (conj Hc Hk)).
  - apply (rehang_holds (known start seen) h (conj Hc Hk)).
  - split; [done |]. eapply known_unstaged; [exact Hk | by left].
  - split; [done |]. eapply known_unstaged; [exact Hk | by left].
  - done.
Qed.

Lemma commit_reach_known h0 s :
  calm h0 -> markerOf (markerFile (files h0)) = None -> rtc commit_step ([], h0) s ->
  calm s.2 /\ known (durable4 (files h0)) s.1 (files s.2).
Proof.
  intros Hc Hm Hr. eapply rtc_ind_l with (P := fun s0 => calm s0.2 -> known (durable4 (files h0)) s0.1 (files s0.2) ->
    calm s.2 /\ known (durable4 (files h0)) s.1 (files s.2)) in Hr; [apply Hr; [done |] | |].
  - split; [| by left]. intros m. cbn [fst snd]. by rewrite Hm.
  - auto.
  - intros x y Hxy _ IH Hcx Hkx. destruct (commit_step_known _ _ _ Hxy Hcx Hkx). auto.
Qed.
End System.


(** An apply that succeeded, confirmed before or after its deadline. *)
Lemma applied_outcome `{WholeNumberText} `{JsDates} rendered fwd probe gen now h o h1 now' :
  stageable rendered gen now -> calm h1 ->
  applyRenderedFirewall rendered fwd probe gen now h = (Ok o, h1) ->
  let out := confirmPendingFirewall (digest rendered) now' h1 in
  if now' <? now + 120000
  then out.1 = Ok Confirmed /\
       files out.2 = Files None None None (Some (v4 rendered)) (if ipv6Applied o then v6 rendered else None) None
  else out.1 = Ok (Expired (toISOString (now + 120000))) /\ files out.2 = files h1.
Proof.
  intros (Hd & Hg & Ht) Hc E.
  destruct (applied_files _ _ _ _ _ _ _ _ Hd Hg Ht E) as (Fm & F4 & F6 & H6 & _ & _).
  cbn [fileAt] in *.
  destruct (confirm_calm h1 (digest rendered) now' Hc) as (r & h2 & -> & _ & F & Hout). cbn [fst snd].
  unfold confirmSpec in F, Hout. rewrite Fm, marker_reads, F4, F6 in * by done.
  cbn [markerDigest deadline deadlineAt v6Intent] in *. rewrite decide_False in * by tauto.
  change (FIREWALL_CONFIRM_WINDOW_SECONDS * 1000) with 120000 in *.
  rewrite Z.leb_antisym in F, Hout.
  destruct (now' <? now + 120000); cbn [negb] in F, Hout; [| by split].
  destruct (ipv6Applied o); [| by split].
  destruct (v6 rendered); [by split | by contradiction H6].
Qed.
Lemma applied_confirmed `{WholeNumberText} `{JsDates} rendered fwd probe gen now h o h1 now' :
  stageable rendered gen now -> calm h1 ->
  applyRenderedFirewall rendered fwd probe gen now h = (Ok o, h1) -> now' < now + 120000 ->
  (confirmPendingFirewall (digest rendered) now' h1).1 = Ok Confirmed /\
  files (confirmPendingFirewall (digest rendered) now' h1).2
    = Files None None None (Some (v4 rendered)) (if ipv6Applied o then v6 rendered else None) None.
Proof.
  intros Hst Hc E Hlt. pose proof (applied_outcome _ _ _ _ _ _ _ _ now' Hst Hc E) as Ho. cbv zeta in Ho.
  by rewrite (proj2 (Z.ltb_lt _ _) Hlt) in Ho.
Qed.

(** Apply, then confirm in time.  When an apply succeeded and a confirm of
    its digest follows on a working file system, before the window of 120
    seconds is over the outcome is [confirmed]: the rendered v4 document is
    durable, the v6 document is the rendered one when it was loaded and none
    otherwise, and nothing is pending; from the deadline on the outcome is
    [expired] and no file changes. *)
Theorem applied_then_confirmed `{WholeNumberText} `{JsDates} rendered fwd probe gen now h o h1 now' :
  stageable rendered gen now -> calm h1 ->
  applyRenderedFirewall rendered fwd probe gen now h = (Ok o, h1) ->
  let out := confirmPendingFirewall (digest rendered) now' h1 in
  if now' <? now + 120000
  then out.1 = Ok Confirmed /\
       files out.2 = Files None None None (Some (v4 rendered)) (if ipv6Applied o then v6 rendered else None) None
  else out.1 = Ok (Expired (toISOString (now + 120000))) /\ files out.2 = files h1.
Proof. apply applied_outcome. Qed.

(** ** Examples *)

Definition ruleset (d doc : jstring) (six : option jstring) : RenderedFirewall := {|
  v4 := doc; v6 := six; digest := d; ruleCount := 0; guaranteedTcpPorts := [22%N]; sshPorts := [22%N];
  warnings := [] |}.
Definition workingProbe : XtablesProbe :=
  {| probeOk := true; probeVersion := "iptables v1.8.11 (nf_tables)"; probeIpv6 := true;
     probeWarning := None |}.
Definition noForward (f : FirewallFamily) : bool := false.
Definition march : Z := 1772323200000.

Definition rulesA := ruleset "aa" ("A" ++ [10%N]) None.
Definition rulesB := ruleset "bb" ("B" ++ [10%N]) None.

Abbreviation applyAt := (@applyRenderedFirewall integerTables noDates).
Abbreviation confirmAt := (@confirmPendingFirewall noDates).

(** Timer, check, load, jump: all well. *)
Definition fine : list program_end := [ok []; ok []; ok []; ok []].
Definition bareHost (fs : list (option os_error)) (ends : list program_end) : host :=
  Host emptyFiles fs ends quietSudo [].

Lemma sample_stageable d doc six gen :
  forallb (fun c => (c <? 65536)%N) d = true -> 0 <= gen < 2 ^ 53 -> stageable (ruleset d doc six) gen march.
Proof.
  intros Hd Hg. split_and!; [| lia..| unfold ordinary, march, FIREWALL_CONFIRM_WINDOW_SECONDS; lia].
  apply Forall_forall. intros c Hc. rewrite forallb_forall in Hd. apply N.ltb_lt, Hd. by apply list_elem_of_In.
Qed.

Lemma apply_loads_under_guard_witness :
  exists r h' stage load, applyAt rulesA noForward workingProbe 1 march (bareHost [] fine) = (r, h') /\
    after (bareHost [] fine) (stage ++ load) h' /\
    @underGuard integerTables rulesA 1 march stage /\ Exists (fun e => loads e && worked e = true) load.
Proof.
  destruct (applyAt rulesA noForward workingProbe 1 march (bareHost [] fine)) as [r h'] eqn:E.
  destruct (apply_loads_under_guard _ _ _ _ _ _ _ _ E) as (stage & load & A & S & G & _ & _).
  exists r, h', stage, load. split; [reflexivity |]. split; [exact A |].
  assert (Exists (fun e => loads e && worked e = true) load) as Hex.
  { assert (existsb (fun e => loads e && worked e)
      (trace (applyAt rulesA noForward workingProbe 1 march (bareHost [] fine)).2) = true) as Hb
      by (vm_compute; reflexivity).
    rewrite E in Hb. cbn [snd] in Hb. rewrite (after_trace _ _ _ A) in Hb. cbn [trace bareHost app] in Hb.
    rewrite existsb_app in Hb. apply orb_true_iff in Hb as [Hb | Hb].
    - exfalso. apply existsb_exists in Hb as (e & Hin & [He _]%andb_true_iff).
      rewrite Forall_forall in S. destruct (S e) as [Hl _]; [by apply list_elem_of_In |]. congruence.
    - apply existsb_exists in Hb as (e & Hin & He). apply Exists_exists. exists e.
      split; [by apply list_elem_of_In | done]. }
  split; [| exact Hex]. apply G. intros ->. by apply Exists_nil in Hex.
Defined.

Definition stagedHost : host :=
  (applyAt rulesA noForward workingProbe 1 march (bareHost [] (fine ++ fine))).2.

Lemma confirm_refines_spec_witness :
  calm stagedHost /\ (confirmAt "aa" march stagedHost).1 = Ok Confirmed.
Proof.
  assert (calm stagedHost) as Hc by (vm_compute; reflexivity). split; [exact Hc |].
  destruct (@confirm_refines_spec noDates stagedHost "aa" march Hc) as (_ & _ & Hout).
  assert ((@confirmSpec noDates (files stagedHost) "aa" march).1 = Some Confirmed) as Es
    by (vm_compute; reflexivity).
  rewrite Es in Hout. exact Hout.
Defined.

Lemma confirm_promotes_pending_witness :
  exists r h' new, confirmAt "aa" march stagedHost = (r, h') /\ after stagedHost new h' /\
    exists m, @markerOf noDates (fileAt (files stagedHost) PendingMarker) = Some m /\
      markerDigest m = "aa" /\ march < deadline m.
Proof.
  destruct (confirmAt "aa" march stagedHost) as [r h'] eqn:E.
  destruct (@confirm_promotes_pending noDates _ _ _ _ _ E) as (new & A & Hd).
  exists r, h', new. split; [reflexivity |]. split; [exact A |].
  destruct Hd as [S | (m & Hm & Hdig & Hnow & _)]; [| exists m; exact (conj Hm (conj Hdig Hnow))].
  exfalso. assert (fileAt (files h') (DurableDoc V4) = fileAt (files stagedHost) (DurableDoc V4)) as Hsame.
  { eapply after_spares; [exact A |]. eapply Forall_impl; [exact S |]. intros e He. apply He. }
  assert (fileAt (files (confirmAt "aa" march stagedHost).2) (DurableDoc V4) = Some (v4 rulesA)) as Hv
    by (vm_compute; reflexivity).
  rewrite E in Hv. cbn [snd] in Hv. rewrite Hsame in Hv. vm_compute in Hv. discriminate Hv.
Defined.

Lemma applied_then_confirmed_witness :
  exists o h1, applyAt rulesA noForward workingProbe 1 march (bareHost [] (fine ++ fine)) = (Ok o, h1) /\
    (confirmAt "aa" (march + 119999) h1).1 = Ok Confirmed /\
    (confirmAt "aa" (march + 120000) h1).1 = Ok (Expired (toISOString (march + 120000))).
Proof.
  destruct (applyAt rulesA noForward workingProbe 1 march (bareHost [] (fine ++ fine))) as [[o | e] h1] eqn:E.
  2: { exfalso. assert (match (applyAt rulesA noForward workingProbe 1 march (bareHost [] (fine ++ fine))).1
         with Ok _ => true | Throw _ => false end = true) as Hb by (vm_compute; reflexivity).
       rewrite E in Hb. discriminate Hb. }
  exists o, h1. split; [reflexivity |].
  assert (stageable rulesA 1 march) as Hst by (apply sample_stageable; [reflexivity | lia]).
  assert (calm h1) as Hc.
  { assert (calm (applyAt rulesA noForward workingProbe 1 march (bareHost [] (fine ++ fine))).2) as Hx
      by (vm_compute; reflexivity). by rewrite E in Hx. }
  pose proof (@applied_then_confirmed integerTables integerTables_whole noDates rulesA noForward workingProbe
    1 march (bareHost [] (fine ++ fine)) o h1 (march + 119999) Hst Hc E) as Hin.
  pose proof (@applied_then_confirmed integerTables integerTables_whole noDates rulesA noForward workingProbe
    1 march (bareHost [] (fine ++ fine)) o h1 (march + 120000) Hst Hc E) as Hout.
  cbv zeta in Hin, Hout. destruct Hin as [Hin _]. destruct Hout as [Hout _]. split; [exact Hin | exact Hout].
Defined.


(** ** Where the guard does not hold *)

(** A second apply that the kernel refuses stops the guard of the first one:
    the first ruleset stays loaded, unconfirmed, with no marker, no timer and
    nothing durable. *)
Theorem refused_apply_orphans_ruleset :
  let first := applyAt rulesA noForward workingProbe 1 march
    (bareHost [] (fine ++ [ok []; notOk "line 2 failed"; ok []])) in
  let second := applyAt rulesB noForward workingProbe 2 (march + 1000) first.2 in
  (exists o, first.1 = Ok o) /\ (exists e, second.1 = Throw e) /\
  files second.2 = emptyFiles /\
  existsb (fun e => loads e && worked e && bool_decide (fed e = Some (v4 rulesA))) (trace second.2) = true /\
  existsb stopsGuard (trace second.2) = true.
Proof. vm_compute. split_and!; eauto. Qed.

(** When the marker of a second apply cannot be written, the first one's marker
    stays beside the second one's document: confirming the first digest makes
    the second document durable. *)
Theorem stale_marker_promotes_other_document :
  let first := applyAt rulesA noForward workingProbe 1 march (bareHost [] fine) in
  let faulty := Host (files first.2)
    [None; None; None; None; None; None; Some (OtherOs "no space left on device")] [] quietSudo [] in
  let second := applyAt rulesB noForward workingProbe 2 (march + 1000) faulty in
  let confirmed := confirmAt "aa" (march + 2000) second.2 in
  (exists e, second.1 = Throw e) /\ confirmed.1 = Ok Confirmed /\
  durable4 (files confirmed.2) = Some (v4 rulesB).
Proof. vm_compute. split_and!; eauto. Qed.

(** A confirm that refuses to promote because the v6 document is missing has
    already made the v4 document durable. *)
Theorem failed_confirm_promotes_v4 :
  let h := Host (setFile (PendingDoc V6) None (files
    (applyAt (ruleset "cc" ("C" ++ [10%N]) (Some ("C6" ++ [10%N]))) noForward workingProbe 1 march
      (bareHost [] (fine ++ fine))).2)) [] [] quietSudo [] in
  let confirmed := confirmAt "cc" march h in
  (exists e, confirmed.1 = Throw e) /\ durable4 (files h) = None /\
  durable4 (files confirmed.2) = Some ("C" ++ [10%N]).
Proof. vm_compute. split_and!; eauto. Qed.

(** The guard's script compares whole seconds ([date +%s]). *)
Definition guardIsDue (deadlineMs nowMs : Z) : bool := negb (nowMs / 1000 <? deadlineMs / 1000).

(** In the deadline's last second the guard already rolls back while a confirm
    is still honoured. *)
Theorem guard_due_while_confirm_honoured :
  exists h nowMs, guardIsDue (march + 500 + 120000) nowMs = true /\
    (confirmAt "aa" nowMs h).1 = Ok Confirmed /\
    h = (applyAt rulesA noForward workingProbe 1 (march + 500) (bareHost [] (fine ++ fine))).2.
Proof.
  exists (applyAt rulesA noForward workingProbe 1 (march + 500) (bareHost [] (fine ++ fine))).2,
    (march + 120000 + 100).
  split; [vm_compute; reflexivity |]. split; [vm_compute; reflexivity | reflexivity].
Qed.
