(* ===== verification/FwReconcile.v ===== *)
(** * The firewall commands ([commands/firewall-reconcile.ts], [commands/firewall-confirm.ts],
    [firewall/sshd-port.ts])

    [server.firewall.reconcile] end to end: read the host's sshd ports, render,
    then preview, refuse, or apply and confirm; and the result it reports, with
    every text the control plane sees. *)

From S2P Require Import Prelude Regex Text Json Number JsonPrint GateHttp GateApproval Dates Log CtParse CtNet FwRender FwContract FwHost FwPending FwApply FwFold FwConfirm.

#[local] Open Scope N_scope.

(** ** The sshd ports ([sshd-port.ts]) *)

Record SshdPortsResult := { detectedPorts : list N; sshdWarning : option jstring }.

(** What follows [keyword\s+], if the line is of that form. *)
Definition afterKeyword (keyword line : jstring) : option jstring :=
  if startsWith keyword line then
    match drop (length keyword) line with
    | c :: rest => if is_js_space c then Some (dropWhile is_js_space rest) else None
    | [] => None
    end
  else None.

(** [\[[^\]]+\]] or [[^:\s]+]. *)
Definition listenHost (host : jstring) : bool :=
  match host with
  | 91 :: rest =>
      match last rest with
      | Some 93 => (2 <=? N.of_nat (length rest)) && negb (hasChar 93 (take (length rest - 1) rest))
      | _ => false
      end
  | _ => false
  end
  || (negb (bool_decide (host = [])) && negb (hasChar 58 host) && negb (existsb is_js_space host)).

(** The port a line of [sshd -T] names. *)
Definition sshdLinePort (raw : jstring) : option N :=
  let line := toLowerCase (trim raw) in
  let digits :=
    match afterKeyword "port" line with
    | Some d => if portDigits d then Some d else None
    | None => None
    end in
  match digits with
  | Some d => let port := digitsValue d in if isValidFirewallPort port then Some port else None
  | None =>
      rest ← afterKeyword "listenaddress" line;
      colon ← lastIndexOf 58 rest;
      let d := drop (S colon) rest in
      if portDigits d && listenHost (take colon rest) then
        let port := digitsValue d in if isValidFirewallPort port then Some port else None
      else None
  end.

Definition parseSshdEffectivePorts (output : jstring) : list N :=
  ascending (omap sshdLinePort (split 10 output)).

Definition noHostkeys (stderr : jstring) : bool := includes "no hostkeys available" (toLowerCase stderr).

Definition readSshdEffectivePorts : hostM SshdPortsResult :=
  r ← runFirewallHost "sshd" ["-T"];
  mret (if negb (success r) || noHostkeys (stderr r) then
          {| detectedPorts := [];
             sshdWarning := Some (("sshd -T failed (" : jstring) ++ failureText r
               ++ ("); the sshd port could not be detected" : jstring)) |}
        else
          let ports := parseSshdEffectivePorts (stdout r) in
          {| detectedPorts := ports;
             sshdWarning := match ports with
                            | [] => Some ("sshd -T printed no port line; the sshd port could not be detected" : jstring)
                            | _ => None
                            end |}).

(** ** Texts of warnings and outcomes *)

Definition renderWarningText (w : render_warning) : jstring :=
  match w with
  | NoSshPort => "no sshd port was detected or supplied; port 22 is kept open as the invariant"
  | ForwardAbsent r =>
      ("rule " : jstring) ++ r
      ++ (" targets a published port but DOCKER-USER is absent; deferred until dockerd creates it" : jstring)
  | NothingRendered r =>
      ("rule " : jstring) ++ r
      ++ (" rendered no line (every source or destination is of a family this ruleset does not cover)" : jstring)
  end.

Definition probeWarningText (w : probe_warning) : jstring :=
  match w with
  | IptablesMissing => "iptables is not installed on this host (apt-get install iptables)"
  | IptablesFails detail => ("iptables -V failed: " : jstring) ++ detail
  | LegacyBackend v =>
      ("iptables reports a legacy backend (" : jstring) ++ v
      ++ ("); rules apply but do not share a table with nftables tooling" : jstring)
  end.

Definition applyWarningText (w : apply_warning) : jstring :=
  match w with
  | DockerUserAbsent =>
      "DOCKER-USER is absent (Docker not running yet); published-port rules are deferred until dockerd creates it"
  | Ipv6Unfiltered =>
      "ipv6_unfiltered: ip6tables is not available; IPv4 is enforced but IPv6 is NOT filtered (left unchanged)"
  end.

(** [outcome.state] and [outcome.summary]. *)
Definition confirmState (o : FirewallConfirmOutcome) : jstring :=
  match o with
  | Confirmed => "confirmed" | NothingPending => "nothing_pending"
  | DigestMismatch _ => "digest_mismatch" | Expired _ => "expired" | RolledBack _ => "rolled_back"
  end.
Definition confirmSummary (o : FirewallConfirmOutcome) : jstring :=
  match o with
  | Confirmed => "the pending ruleset is now durable and survives a reboot"
  | NothingPending => "no unconfirmed ruleset is pending on this host"
  | DigestMismatch _ => "a different ruleset is pending on this host; it was not confirmed"
  | Expired at_ => ("the confirm window ended at " : jstring) ++ at_
      ++ ("; the host is restoring its last confirmed rules" : jstring)
  | RolledBack at_ =>
      ("the ruleset was not confirmed in time and the host restored its last confirmed rules at " : jstring)
      ++ at_
  end.

Definition errorMessage (e : gate_error) : jstring :=
  match e with HttpErr _ m | OtherErr _ m => m | NoFuel => [] end.

Definition autoReasonText (r : auto_reason) : jstring :=
  match r with
  | NoControlPlane =>
      "the daemon has no control-plane connection to check with; the ruleset rolls back unless confirmed"
  | CheckFailed detail =>
      ("the daemon could not reach the control plane after the change (" : jstring)
      ++ sanitizeForLog detail ++ ("); the host rolls back at the deadline" : jstring)
  | ConfirmedItself =>
      "the daemon reached the control plane after the rules went live and confirmed the change itself"
  | ConfirmAnswered o =>
      ("the control-plane check passed but the confirm answered " : jstring) ++ confirmState o
      ++ (": " : jstring) ++ confirmSummary o
  | ConfirmFailed e =>
      ("the control-plane check passed but the confirm failed (" : jstring)
      ++ sanitizeForLog (errorMessage e) ++ ("); the host rolls back at the deadline" : jstring)
  end.

(** ** The result *)

Record FirewallValidation := { validationOk : bool; validationErrors : list jstring }.
Record FirewallAutoConfirm := { autoOk : bool; autoWhy : jstring }.
Record FirewallPendingConfirmation := {
  stateConfirmed : bool; (** [state === "confirmed"] *)
  confirmDeadlineAt : jstring;
  windowSeconds : Z;
  autoConfirm : option FirewallAutoConfirm
}.
Record FirewallReconcileResult := {
  resGeneration : Z;
  resMode : FirewallMode;
  resApplied : bool;
  resDigest : jstring;
  resRuleCount : nat;
  resIpv6Applied : bool;
  resIpv6Status : option FirewallIpv6Status;
  resForwardApplied : bool;
  resSshPorts : list N;
  resWarnings : list jstring;
  resConfirmation : option FirewallPendingConfirmation;
  resLastRollback : option FirewallRollbackRecord;
  resValidation : option FirewallValidation;
  resRendered : option (jstring * option jstring);
  resSummary : jstring
}.

(** ** Reconciling ([firewall-reconcile.ts]) *)

Definition DEFAULT_DROP_HELD_WARNING : jstring :=
  "policy.inputDefault drop is held until the commit-confirm rollback is proven on a real host (fw-proof); rendered, not applied".
Definition CONTROL_PLANE_PORTS_MISSING_WARNING : jstring :=
  "turbopanel-instance.service is active on this host but the payload names no controlPlane.tcpPorts; a default-drop apply would close the control plane and is refused".

Definition union (a b : list N) : list N := ascending (a ++ b).

Definition tooLong (s : jstring) : bool := longerThan FIREWALL_RENDERED_MAX_BYTES s.
(** The documents, and the warning pushed when they are left out. *)
Definition renderedForResult (rendered : RenderedFirewall)
    : option (jstring * option jstring) * list jstring :=
  if tooLong (v4 rendered) || match v6 rendered with Some d => tooLong d | None => false end
  then (None, [("the rendered ruleset is larger than " : jstring) ++ decimalText FIREWALL_RENDERED_MAX_BYTES
               ++ (" characters and is not included; the digest and rule count still describe it" : jstring)])
  else (Some (v4 rendered, v6 rendered), []).

Definition generationText (p : FirewallReconcilePayload) : jstring :=
  ("firewall generation " : jstring) ++ decimalText (Z.to_N (generation p)).

(** Observe and refused applies. *)
Definition renderOnlyResult (p : FirewallReconcilePayload) (rendered : RenderedFirewall)
    (probe : XtablesProbe) (warnings refusals : list jstring) : hostM FirewallReconcileResult :=
  errors ← validateRenderedFirewall rendered probe;
  let validation := {| validationOk := bool_decide (errors = []); validationErrors := errors |} in
  let refusedByKernel :=
    if validationOk validation then []
    else [("the kernel would refuse this ruleset (iptables-restore --test failed); see validation" : jstring)] in
  let '(text, oversize) := renderedForResult rendered in
  mret {| resGeneration := generation p; resMode := mode p; resApplied := false;
          resDigest := digest rendered; resRuleCount := ruleCount rendered;
          resIpv6Applied := false; resIpv6Status := None; resForwardApplied := false;
          resSshPorts := sshPorts rendered;
          resWarnings := warnings ++ refusals ++ refusedByKernel ++ oversize;
          resConfirmation := None; resLastRollback := None;
          resValidation := Some validation; resRendered := text;
          resSummary :=
            match mode p with
            | Observe => generationText p ++ (" observed: " : jstring)
                         ++ decimalText (N.of_nat (ruleCount rendered)) ++ (" rules would render" : jstring)
            | _ => generationText p ++ (" refused: " : jstring)
                   ++ decimalText (N.of_nat (length refusals))
                   ++ (" condition(s) block a default-drop apply" : jstring)
            end |}.

Section Reconcile.
Context `{Crypto} `{JsTables} `{JsDates}.

Definition lastRollbackField : hostM (option FirewallRollbackRecord) :=
  pending ← readPendingMarker;
  match pending with
  | Some _ => mret None
  | None => readRollbackRecord
  end.

Definition selfConfirm (d : jstring) (armed : ArmedPendingFirewall) (verify : check) (now : Z)
    : hostM FirewallPendingConfirmation :=
  outcome ← autoConfirmFirewall d verify now;
  mret {| stateConfirmed := autoConfirmed outcome; confirmDeadlineAt := armedDeadline armed;
          windowSeconds := armedWindow armed;
          autoConfirm := Some {| autoOk := autoConfirmed outcome;
                                 autoWhy := autoReasonText (autoReason outcome) |} |}.

Definition offResult (p : FirewallReconcilePayload) : FirewallReconcileResult :=
  {| resGeneration := generation p; resMode := Off; resApplied := true; resDigest := [];
     resRuleCount := 0; resIpv6Applied := false; resIpv6Status := None; resForwardApplied := false;
     resSshPorts := []; resWarnings := []; resConfirmation := None; resLastRollback := None;
     resValidation := None; resRendered := None;
     resSummary := generationText p ++ (": TurboPanel chains removed" : jstring) |}.

(** What is known when a payload can be rendered. *)
Record survey := {
  theProbe : XtablesProbe;
  theForward : FirewallFamily -> bool;
  theInput : RenderFirewallInput;
  surveyWarnings : list jstring
}.

(** From [probeXtables] to the renderer's input. *)
Definition surveyHost (p : FirewallReconcilePayload) : hostM survey :=
  probe ← probeXtables;
  if negb (probeOk probe) then
    raise (OtherErr "Error" match probeWarning probe with
                            | Some w => probeWarningText w
                            | None => "iptables is not available"
                            end)
  else
    sshd ← readSshdEffectivePorts;
    let ports := union (detectedPorts sshd) (default [] (payloadSshPorts p)) in
    forward4 ← hasDockerUserChain V4;
    forward6 ← (if mirrorsIpv6 p && probeIpv6 probe then hasDockerUserChain V6 else mret false);
    let forward f := match f with V4 => forward4 | V6 => forward6 end in
    mret {| theProbe := probe; theForward := forward;
            theInput := {| payload := p; inputSshPorts := ports; includeForward := forward |};
            surveyWarnings := option_list (probeWarningText <$> probeWarning probe)
                              ++ option_list (sshdWarning sshd) |}.

Definition refusalsFor (p : FirewallReconcilePayload) : hostM (list jstring) :=
  if inputDropsByDefault p then
    colocated ← isControlPlaneColocated;
    mret ((if colocated && bool_decide (controlPlanePorts p = [])
           then [CONTROL_PLANE_PORTS_MISSING_WARNING] else []) ++ [DEFAULT_DROP_HELD_WARNING])
  else mret [].

Definition ipv6StatusName (s : FirewallIpv6Status) : jstring :=
  match s with Applied6 => "applied" | Skipped6 => "skipped" | Unfiltered6 => "ipv6_unfiltered" end.

(** The managed apply: [armed] at [now], confirmed at [later]. *)
Definition applyAndConfirm (p : FirewallReconcilePayload) (s : survey) (rendered : RenderedFirewall)
    (warnings : list jstring) (verify : check) (now later : Z) : hostM FirewallReconcileResult :=
  outcome ← applyRenderedFirewall rendered (theForward s) (theProbe s) (generation p) now;
  conf ← selfConfirm (digest rendered) (FwApply.confirmation outcome) verify later;
  mret {| resGeneration := generation p; resMode := mode p; resApplied := true;
          resDigest := digest rendered; resRuleCount := ruleCount rendered;
          resIpv6Applied := ipv6Applied outcome; resIpv6Status := Some (ipv6Status outcome);
          resForwardApplied := forwardApplied outcome; resSshPorts := sshPorts rendered;
          resWarnings := warnings ++ map applyWarningText (applyWarnings outcome);
          resConfirmation := Some conf; resLastRollback := None; resValidation := None;
          resRendered := None;
          resSummary :=
            if stateConfirmed conf then
              generationText p ++ (" applied and confirmed by the daemon: " : jstring)
              ++ decimalText (N.of_nat (ruleCount rendered)) ++ (" rules, " : jstring)
              ++ probeVersion (theProbe s)
            else
              generationText p ++ (" applied, pending confirmation until " : jstring)
              ++ confirmDeadlineAt conf ++ (" (" : jstring)
              ++ match autoConfirm conf with Some a => autoWhy a | None => "undefined" end
              ++ ("): " : jstring) ++ decimalText (N.of_nat (ruleCount rendered))
              ++ (" rules, " : jstring) ++ probeVersion (theProbe s) |}.

(** [{ ...preview, ...await lastRollbackField(layout) }]. *)
Definition previewResult (p : FirewallReconcilePayload) (rendered : RenderedFirewall)
    (probe : XtablesProbe) (warns refusals : list jstring) : hostM FirewallReconcileResult :=
  preview ← renderOnlyResult p rendered probe warns refusals;
  rollback ← lastRollbackField;
  mret {| resGeneration := resGeneration preview; resMode := resMode preview;
          resApplied := resApplied preview; resDigest := resDigest preview;
          resRuleCount := resRuleCount preview; resIpv6Applied := resIpv6Applied preview;
          resIpv6Status := resIpv6Status preview; resForwardApplied := resForwardApplied preview;
          resSshPorts := resSshPorts preview; resWarnings := resWarnings preview;
          resConfirmation := resConfirmation preview; resLastRollback := rollback;
          resValidation := resValidation preview; resRendered := resRendered preview;
          resSummary := resSummary preview |}.

Definition handleFirewallReconcile (p : FirewallReconcilePayload) (verify : check) (now later : Z)
    : hostM FirewallReconcileResult :=
  match mode p with
  | Off => '_ ← removeFirewall; mret (offResult p)
  | _ =>
      s ← surveyHost p;
      rendered ← lifted (renderFirewall (theInput s));
      let warns := surveyWarnings s ++ map renderWarningText (warnings rendered) in
      refusals ← refusalsFor p;
      if bool_decide (mode p = Observe) || negb (bool_decide (refusals = [])) then
        previewResult p rendered (theProbe s) warns refusals
      else applyAndConfirm p s rendered warns verify now later
  end.

(** ** Confirming ([firewall-confirm.ts]) *)

Definition handleFirewallConfirm (d : jstring) (now : Z) : hostM FirewallConfirmOutcome :=
  confirmPendingFirewall d now.
End Reconcile.

(** ** Observing changes nothing *)

(** A program that loads no document and edits no chain; no file is touched. *)
Definition looksOnly (e : event) : Prop := loads e = false /\ rewires e = false /\ sparesAll e.

(** As [looksOnly], and not a question to sshd. *)
Definition silent (e : event) : Prop := looksOnly e /\ head (words e) <> Some ("sshd" : jstring).

Lemma looks_issued cmd args stdin e :
  issues cmd args stdin e ->
  memb cmd restores && negb (memb ("--test" : jstring) (finalArgs cmd args)) = false ->
  memb cmd editors && existsb (fun f => memb f (finalArgs cmd args))
    (["-A"; "-I"; "-D"; "-F"; "-X"; "-N"; "-R"; "-P"] : list jstring) = false ->
  looksOnly e /\ words e = cmd :: finalArgs cmd args.
Proof.
  intros Hi Hl Hr. destruct (issues_words _ _ _ _ Hi) as (Hw & _ & Hs).
  split; [| done]. split_and!; [unfold loads | unfold rewires | exact Hs]; by rewrite Hw.
Qed.

Lemma sshd_looks e : issues "sshd" ["-T"] None e -> looksOnly e.
Proof. intros Hi. by destruct (looks_issued _ _ _ _ Hi). Qed.
Lemma active_looks e : issues "systemctl" ["is-active"; CONTROL_PLANE_UNIT] None e -> looksOnly e.
Proof. intros Hi. by destruct (looks_issued _ _ _ _ Hi). Qed.
Lemma question_silent f args e :
  args ∈ [["-V" : jstring]; ["-S" : jstring; DOCKER_USER_CHAIN]] -> issues (binaryFor f []) args None e -> silent e.
Proof.
  rewrite !elem_of_cons, elem_of_nil. intros Ha Hi.
  destruct (looks_issued _ _ _ _ Hi) as [Hl Hw]; [by destruct f; destruct Ha as [-> | [-> | []]].. |].
  split; [done |]. rewrite Hw. by destruct f.
Qed.
Lemma testing_looks f document e :
  issues (binaryFor f "-restore") ["--noflush"; "--test"] (Some document) e -> looksOnly e.
Proof.
  intros Hi. destruct (issues_words _ _ _ _ Hi) as (Hw & _ & Hs).
  split_and!; [by eapply testing_loads | unfold rewires; rewrite Hw; by destruct f | exact Hs].
Qed.

Lemma probe_silent : moves (does silent) probeXtables.
Proof.
  assert (forall f, moves (does silent) (runFirewallHost (binaryFor f []) ["-V"])) as Hv.
  { intros f. apply run_moves; [by destruct f |]. intros e. apply question_silent. set_solver. }
  pose proof (Hv V4) as H4. pose proof (Hv V6) as H6. cbn [binaryFor] in H4, H6.
  unfold probeXtables. walk.
Qed.
Lemma dockerChain_silent f : moves (does silent) (hasDockerUserChain f).
Proof.
  assert (moves (does silent) (runFirewallHost (binaryFor f []) ["-S"; DOCKER_USER_CHAIN])).
  { apply run_moves; [by destruct f |]. intros e. apply question_silent. set_solver. }
  unfold hasDockerUserChain. walk.
Qed.
Lemma silent_looks {A} (m : hostM A) : moves (does silent) m -> moves (does looksOnly) m.
Proof. intros Hm. eapply moves_does; [exact Hm | by intros e [? _]]. Qed.
Lemma sshdPorts_look : moves (does looksOnly) readSshdEffectivePorts.
Proof.
  assert (moves (does looksOnly) (runFirewallHost "sshd" ["-T"])) by (by apply run_moves; [| apply sshd_looks]).
  unfold readSshdEffectivePorts. walk.
Qed.
Lemma survey_looks p : moves (does looksOnly) (surveyHost p).
Proof.
  pose proof (silent_looks _ probe_silent). pose proof sshdPorts_look.
  pose proof (fun f => silent_looks _ (dockerChain_silent f)).
  unfold surveyHost. walk.
Qed.
Lemma refusals_look p : moves (does looksOnly) (refusalsFor p).
Proof.
  assert (moves (does looksOnly) isControlPlaneColocated) as Hc.
  { assert (moves (does looksOnly) (runFirewallHost "systemctl" ["is-active"; CONTROL_PLANE_UNIT]))
      by (by apply run_moves; [| apply active_looks]).
    unfold isControlPlaneColocated. walk. }
  unfold refusalsFor. walk.
Qed.
Lemma validate_looks rendered probe : moves (does looksOnly) (validateRenderedFirewall rendered probe).
Proof.
  unfold validateRenderedFirewall. apply moves_bind; [typeclasses eauto | | walk].
  apply moves_mapSequential; [typeclasses eauto |]. intros [f doc] _.
  assert (moves (does looksOnly) (runInput (binaryFor f "-restore") ["--noflush"; "--test"] (Some doc)))
    by (apply run_moves; [by destruct f | apply testing_looks]).
  walk.
Qed.
Lemma renderOnly_looks p rendered probe w r : moves (does looksOnly) (renderOnlyResult p rendered probe w r).
Proof.
  pose proof (validate_looks rendered probe). unfold renderOnlyResult. walk.
Qed.
Lemma lastRollback_looks `{JsDates} : moves (does looksOnly) lastRollbackField.
Proof. unfold lastRollbackField, readRollbackRecord, readPendingMarker. walk. Qed.

(** [m] only looks, and does not report an apply. *)
Definition unapplied (m : hostM FirewallReconcileResult) (h : host) : Prop :=
  does looksOnly h (m h).2 /\ forall res, (m h).1 = Ok res -> resApplied res = false.

Lemma unapplied_bind {A} (m : hostM A) k h :
  moves (does looksOnly) m -> (forall a h', m h = (Ok a, h') -> unapplied (k a) h') ->
  unapplied (m ≫= k) h.
Proof.
  intros Hm Hk. unfold unapplied, mbind, hostM_bind. specialize (Hm h).
  destruct (m h) as [[a | e] h1]; cbn in *; [| done].
  destruct (Hk a h1 eq_refl) as [Hd Hr]. split; [by etransitivity | done].
Qed.

Lemma renderOnly_unapplied p rendered probe w r h : unapplied (renderOnlyResult p rendered probe w r) h.
Proof.
  unfold renderOnlyResult. apply unapplied_bind; [apply validate_looks |]. intros errors h' _.
  destruct (renderedForResult rendered). split; [reflexivity |]. by intros res [= <-].
Qed.

Lemma preview_unapplied `{JsDates} p rendered probe w r h : unapplied (previewResult p rendered probe w r) h.
Proof.
  unfold previewResult. apply unapplied_bind; [apply renderOnly_looks |]. intros pre h' E.
  apply unapplied_bind; [apply lastRollback_looks |]. intros rb h2 _. split; [reflexivity |].
  intros res [= <-]. cbn [resApplied]. apply (renderOnly_unapplied p rendered probe w r h). by rewrite E.
Qed.

Lemma drop_is_refused p refusals h h' :
  inputDropsByDefault p = true -> refusalsFor p h = (Ok refusals, h') -> refusals <> [].
Proof.
  intros Hd. unfold refusalsFor, mbind, hostM_bind. rewrite Hd.
  destruct (isControlPlaneColocated h) as [[c | e] h1]; [| done]. intros E Hn. rewrite Hn in E.
  injection E as E _. by apply app_eq_nil in E as [_ [=]].
Qed.

Lemma observe_unapplied `{Crypto} `{JsTables} `{JsDates} p verify now later h :
  mode p = Observe \/ (mode p = Managed /\ inputDropsByDefault p = true) ->
  unapplied (handleFirewallReconcile p verify now later) h.
Proof.
  intros Hm.
  assert (unapplied (s ← surveyHost p; rendered ← lifted (renderFirewall (theInput s));
    refusals ← refusalsFor p;
    if bool_decide (mode p = Observe) || negb (bool_decide (refusals = [])) then
      previewResult p rendered (theProbe s) (surveyWarnings s ++ map renderWarningText (warnings rendered)) refusals
    else applyAndConfirm p s rendered (surveyWarnings s ++ map renderWarningText (warnings rendered)) verify now later) h) as Hu.
  { apply unapplied_bind; [apply survey_looks |]. intros s h1 _.
    apply unapplied_bind; [walk |]. intros rendered h2 _.
    apply unapplied_bind; [apply refusals_look |]. intros refusals h3 Er.
    assert (bool_decide (mode p = Observe) || negb (bool_decide (refusals = [])) = true) as ->;
      [| apply preview_unapplied].
    destruct Hm as [Ho | [_ Hd]]; [by rewrite bool_decide_true |].
    rewrite (bool_decide_false (refusals = [])) by (by eapply drop_is_refused). apply orb_true_r. }
  unfold handleFirewallReconcile. destruct Hm as [Hm | [Hm _]]; rewrite Hm in Hu |- *; exact Hu.
Qed.

(** A preview is a preview: a payload in observe mode, and every payload
    whose default is drop, loads no document, edits no chain and touches no
    file, on any host and however programs end; and the result says it was not
    applied. *)
Theorem observe_changes_nothing `{Crypto} `{JsTables} `{JsDates} p verify now later h r h' :
  mode p = Observe \/ (mode p = Managed /\ inputDropsByDefault p = true) ->
  handleFirewallReconcile p verify now later h = (r, h') ->
  files h' = files h /\
  (exists new, after h new h' /\ Forall (fun e => loads e = false /\ rewires e = false) new) /\
  forall res, r = Ok res -> resApplied res = false.
Proof.
  intros Hm E. pose proof (observe_unapplied p verify now later h Hm) as [(new & A & L) Hr].
  rewrite E in A, Hr. cbn [fst snd] in A, Hr. split; [| split; [exists new; split; [done |] | done]].
  - rewrite (after_files _ _ _ A). apply replayed_programs. eapply Forall_impl; [exact L |]. by intros e (_ & _ & ?).
  - eapply Forall_impl; [exact L |]. by intros e (? & ? & _).
Qed.

(** ** What a reconcile loads *)

(** The host's sshd answered that it listens on [n]. *)
Definition saysPort (n : N) (e : event) : Prop :=
  match e with
  | Spawned argv _ r =>
      commandOf argv = ["sshd"; "-T"] /\ success r = true /\ noHostkeys (stderr r) = false /\
      n ∈ parseSshdEffectivePorts (stdout r)
  | _ => False
  end.
Lemma silent_says n e : silent e -> saysPort n e -> False.
Proof. intros [_ Hw]. destruct e; cbn in *; [| done..]. intros (Hc & _). by rewrite Hc in Hw. Qed.

Lemma sshdPorts_run h s h' :
  readSshdEffectivePorts h = (Ok s, h') ->
  exists new, after h new h' /\ Forall looksOnly new /\
    forall n, Exists (saysPort n) new -> n ∈ detectedPorts s.
Proof.
  unfold readSshdEffectivePorts, runFirewallHost. intros E. run_inv.
  destruct (runInput_spec "sshd" ["-T"] None h eq_refl) as (pre & argv & r & h1 & E1 & A & I & W).
  rewrite E1 in E0. injection E0 as <- <-. exists (pre ++ [Spawned argv (stdinText None) r]).
  split; [done |]. split; [eapply Forall_impl; [exact I | apply sshd_looks] |].
  intros n [Hp | Hr]%Exists_app.
  - apply Exists_exists in Hp as (e & Hin & Hs). rewrite Forall_forall in W.
    destruct (W e Hin) as (argv' & r' & -> & Hf). destruct Hs as (_ & Hs & _). congruence.
  - apply Exists_cons in Hr as [(_ & Hs & Hk & Hn) | []%Exists_nil]. by rewrite Hs, Hk.
Qed.

Lemma survey_run p h s h' :
  surveyHost p h = (Ok s, h') ->
  exists new, after h new h' /\ Forall looksOnly new /\ payload (theInput s) = p /\
    forall n, n ∈ default [] (payloadSshPorts p) \/ Exists (saysPort n) new -> n ∈ inputSshPorts (theInput s).
Proof.
  unfold surveyHost. intros E. apply bind_run in E as [(probe & h1 & E1 & E) | (? & _ & [=])].
  destruct (negb (probeOk probe)); [done |].
  apply bind_run in E as [(sshd & h2 & E2 & E) | (? & _ & [=])].
  apply bind_run in E as [(f4 & h3 & E3 & E) | (? & _ & [=])].
  apply bind_run in E as [(f6 & h4 & E4 & E) | (? & _ & [=])]. injection E as <- <-. cbn [theInput payload inputSshPorts].
  destruct (moves_run _ _ _ _ _ probe_silent E1) as (n1 & A1 & S1).
  destruct (sshdPorts_run _ _ _ E2) as (n2 & A2 & S2 & P2).
  destruct (moves_run _ _ _ _ _ (dockerChain_silent V4) E3) as (n3 & A3 & S3).
  assert (moves (does silent) (if mirrorsIpv6 p && probeIpv6 probe then hasDockerUserChain V6 else mret false)) as Hf6
    by (pose proof (dockerChain_silent V6); walk).
  destruct (moves_run _ _ _ _ _ Hf6 E4) as (n4 & A4 & S4).
  assert (forall l, Forall silent l -> Forall looksOnly l) as Hsl
    by (intros l Hl; eapply Forall_impl; [exact Hl | by intros e [? _]]).
  assert (forall l n, Forall silent l -> ~ Exists (saysPort n) l) as Hns.
  { intros l n Hl (e & Hin & Hs)%Exists_exists. rewrite Forall_forall in Hl. by eapply silent_says; [apply Hl |]. }
  exists (n1 ++ n2 ++ n3 ++ n4). split; [eauto using after_app |].
  split; [rewrite !Forall_app; split_and!; auto |]. split; [done |]. intros n Hn. unfold union.
  rewrite ascending_elem, elem_of_app. destruct Hn as [Hn | Hn]; [by right | left].
  rewrite !Exists_app in Hn. destruct Hn as [Hn | [Hn | [Hn | Hn]]]; [by apply Hns in Hn | auto | by apply Hns in Hn..].
Qed.

Definition loadsOf (rendered : RenderedFirewall) (e : event) : Prop := loads e = true -> rendersTo rendered (fed e).

Lemma xtables_loads f args e : issues (binaryFor f []) args None e -> loads e = false.
Proof. intros (Hw & _ & _)%issues_words. unfold loads. rewrite Hw. by destruct f. Qed.
Lemma systemctl_loads verb e args : issues "systemctl" (verb :: args) None e -> loads e = false.
Proof. intros (Hw & _ & _)%issues_words. unfold loads. by rewrite Hw. Qed.

Lemma apply_loads `{JsTables} `{JsDates} rendered fwd probe gen now :
  moves (does (loadsOf rendered)) (applyRenderedFirewall rendered fwd probe gen now).
Proof.
  assert (moves (does (loadsOf rendered)) (armPendingFirewall (digest rendered) gen (v4 rendered) now)) as Ha
    by (eapply moves_does; [apply arm_moves |]; intros e (Hl & _); unfold loadsOf; congruence).
  assert (forall armed, moves (does (loadsOf rendered)) (loadAfterV4 rendered fwd probe armed)) as Hl
    by (intros armed; eapply moves_does; [apply loadAfterV4_moves |]; by intros e [_ ?]).
  assert (moves (does (loadsOf rendered)) (restoreDocument V4 (v4 rendered))) as Hr.
  { apply restore_moves. intros e He. destruct (restoring_later rendered _ _ _ (or_introl eq_refl) He) as [_ ?]. done. }
  assert (moves (does (loadsOf rendered)) clearPendingFirewall) as Hc by (apply clear_moves; by intros).
  assert (moves (does (loadsOf rendered)) disarmGuardTimer) as Hd.
  { apply disarm_moves. intros e He%systemctl_loads. unfold loadsOf. congruence. }
  unfold applyRenderedFirewall. walk.
Qed.

Definition loadsNone (e : event) : Prop := loads e = false.
#[local] Hint Extern 1 (loadsNone (Wrote _ _)) => reflexivity : host.
#[local] Hint Extern 1 (loadsNone (Removed _)) => reflexivity : host.

Lemma fold_loads `{JsDates} : moves (does loadsNone) foldManagedPublicChainBestEffort.
Proof.
  assert (forall args, moves (does loadsNone) (runFirewallHost "iptables" args)) as Hi
    by (intros; apply run_moves; [done |]; intros e; apply (xtables_loads V4)).
  assert (forall args, moves (does loadsNone) (attempt args)) as Ha by (intros; unfold attempt; walk).
  assert (forall n, moves (does loadsNone) (removeJumpsOut n)) as Hj
    by (intros n; induction n as [| n IH]; cbn [removeJumpsOut]; walk).
  assert (moves (does loadsNone) pendingNow) as Hp by (unfold pendingNow, readPendingMarker; walk).
  assert (moves (does loadsNone) liveForwardRules) as Hl by (unfold liveForwardRules; walk).
  assert (moves (does loadsNone) legacyChildren) as Hc by (unfold legacyChildren; walk).
  assert (forall cs, moves (does loadsNone) (readLegacyListeners cs)) as Hr.
  { intros cs. unfold readLegacyListeners. apply moves_bind; [typeclasses eauto | | walk].
    apply moves_mapSequential; [typeclasses eauto |]. walk. }
  assert (forall cs, moves (does loadsNone) (removeLegacy cs)) as Hm.
  { intros cs. unfold removeLegacy. apply moves_bind; [typeclasses eauto | apply Hj |]. intros.
    apply moves_bind; [typeclasses eauto | apply moves_mapSequential; [typeclasses eauto | auto] |]. intros.
    apply moves_bind; [typeclasses eauto | apply moves_mapSequential; [typeclasses eauto | auto] |]. walk. }
  unfold foldManagedPublicChainBestEffort, foldManagedPublicChain. walk.
Qed.

Lemma confirm_loads `{JsDates} d verify now : moves (does loadsNone) (autoConfirmFirewall d verify now).
Proof.
  pose proof fold_loads as Hf.
  assert (moves (does loadsNone) (runFirewallHost "systemctl" ["start"; "--no-block"; FIREWALL_GUARD_SERVICE])) as Hs
    by (apply run_moves; [done |]; intros e; apply systemctl_loads).
  assert (moves (does loadsNone) disarmGuardTimer) as Hd by (apply disarm_moves; intros e; apply systemctl_loads).
  assert (moves (does loadsNone) clearPendingFirewall) as Hc by (apply clear_moves; by intros).
  assert (forall i t, moves (does loadsNone) (promoteDurable i t)) as Hp
    by (intros; unfold promoteDurable, readPendingDocument; walk).
  unfold autoConfirmFirewall, confirmPendingFirewall, noPendingOutcome, readPendingMarker, readRollbackRecord, readPendingDocument.
  walk.
Qed.

Lemma off_loads : moves (does loadsNone) removeFirewall.
Proof.
  assert (forall f args, moves (does loadsNone) (runFirewallHost (binaryFor f []) args)) as Hx.
  { intros f args. apply run_moves; [by destruct f |]. intros e. apply xtables_loads. }
  assert (forall n f p c, moves (does loadsNone) (removeJumps n f p c)) as Hj
    by (intros n f p c; induction n as [| n IH]; cbn [removeJumps]; walk).
  assert (forall f, moves (does loadsNone) (removeFamilyChains f)) as Hf.
  { intros f. unfold removeFamilyChains, removeJumpBestEffort.
    apply moves_bind; [typeclasses eauto | apply Hj |]. intros.
    apply moves_bind; [typeclasses eauto | apply Hj |]. intros.
    apply moves_forEach; [typeclasses eauto |]. by intros [chain flag] _. }
  assert (moves (does loadsNone) clearPendingFirewall) as Hc by (apply clear_moves; by intros).
  assert (moves (does loadsNone) disarmGuardTimer) as Hd by (apply disarm_moves; intros e; apply systemctl_loads).
  unfold removeFirewall. apply moves_bind; [typeclasses eauto | apply moves_forEach; [typeclasses eauto | auto] |].
  walk.
Qed.

(** A loaded document spells out chains of this payload that accept TCP to the
    ports in [open]. *)
Definition keepsOpen {A} (inside : jstring -> A -> bool) (p : FirewallReconcilePayload) (open : N -> Prop)
    (e : event) : Prop :=
  mode p = Managed /\ inputDropsByDefault p = false /\
  exists family doc input guaranteed,
    payload input = p /\ fed e = stdinText (Some doc) /\ spells doc input family guaranteed /\
    forall pkt : packet, pproto pkt = "tcp" -> open (pdport pkt) ->
      decideBy inside (inputChain p family guaranteed) pkt = VAccept.

Lemma rendered_keeps_open {A} (inside : jstring -> A -> bool) `{Crypto} input out (open : N -> Prop) e :
  mode (payload input) = Managed -> inputDropsByDefault (payload input) = false ->
  renderFirewall input = Ok out ->
  (forall n, open n -> n ∈ inputSshPorts input \/ n ∈ controlPlanePorts (payload input)) ->
  rendersTo out (fed e) -> keepsOpen inside (payload input) open e.
Proof.
  intros Hm Hd Hr Ho Hf. split; [done |]. split; [done |].
  destruct (renderFirewall_spells _ _ Hr) as (H4 & H6 & _ & _ & Hs).
  assert (forall family (pkt : packet), pproto pkt = "tcp" -> open (pdport pkt) ->
    decideBy inside (inputChain (payload input) family (guaranteedTcpPorts out)) pkt = VAccept) as Hacc.
  { intros family pkt Ht Hop. apply (guaranteed_accept inside input out Hr). right. right. split; [done |].
    destruct (Ho _ Hop); auto. }
  destruct Hf as [Hf | (doc & Hv & Hf)].
  - exists V4, (v4 out), input, (guaranteedTcpPorts out). split_and!; [done | done | done | apply Hacc].
  - exists V6, doc, input, (guaranteedTcpPorts out). split_and!; [done | done | by apply H6 | apply Hacc].
Qed.

(** The ports that must stay reachable: the payload's, the control plane's, and
    those the host's sshd named. *)
Definition mustStayOpen (p : FirewallReconcilePayload) (looked : list event) (n : N) : Prop :=
  n ∈ default [] (payloadSshPorts p) \/ n ∈ controlPlanePorts p \/ Exists (saysPort n) looked.

Section Loads.
Context {A : Type} (inside : jstring -> A -> bool) `{Crypto} `{JsTables} `{JsDates}.

Lemma loadsNone_keeps p open l :
  Forall loadsNone l -> Forall (fun e => loads e = true -> keepsOpen inside p open e) l.
Proof. intros Hl. eapply Forall_impl; [exact Hl |]. unfold loadsNone. cbn. congruence. Qed.
Lemma looks_loadsNone l : Forall looksOnly l -> Forall loadsNone l.
Proof. intros Hl. eapply Forall_impl; [exact Hl |]. by intros e (? & _). Qed.

Lemma applyAndConfirm_loads p s rendered warns verify now later :
  moves (does (loadsOf rendered)) (applyAndConfirm p s rendered warns verify now later).
Proof.
  unfold applyAndConfirm, selfConfirm.
  apply moves_bind; [typeclasses eauto | apply apply_loads |]. intros outcome.
  apply moves_bind; [typeclasses eauto | | walk].
  apply moves_bind; [typeclasses eauto | | walk].
  eapply moves_does; [apply confirm_loads |]. unfold loadsNone, loadsOf. congruence.
Qed.

Lemma active_run p verify now later s h1 r h' :
  mode p <> Off -> payload (theInput s) = p ->
  (rendered ← lifted (renderFirewall (theInput s));
   refusals ← refusalsFor p;
   if bool_decide (mode p = Observe) || negb (bool_decide (refusals = [])) then
     previewResult p rendered (theProbe s) (surveyWarnings s ++ map renderWarningText (warnings rendered)) refusals
   else applyAndConfirm p s rendered (surveyWarnings s ++ map renderWarningText (warnings rendered)) verify now later) h1
    = (r, h') ->
  exists acted, after h1 acted h' /\
    forall open : N -> Prop,
    (forall n, open n -> n ∈ inputSshPorts (theInput s) \/ n ∈ controlPlanePorts p) ->
    Forall (fun e => loads e = true -> keepsOpen inside p open e) acted.
Proof.
  intros Hm Hp E. apply bind_run in E as [(rendered & h2 & E2 & E) | (e & E2 & ->)].
  2: { injection E2 as _ <-. exists []. split; [apply after_refl | by constructor]. }
  injection E2 as E2 <-.
  apply bind_run in E as [(refusals & h3 & E3 & E) | (e & E3 & ->)];
    destruct (moves_run _ _ _ _ _ (refusals_look p) E3) as (n1 & A1 & L1%looks_loadsNone).
  2: { exists n1. split; [done |]. intros open _. by apply loadsNone_keeps. }
  destruct (bool_decide (mode p = Observe) || negb (bool_decide (refusals = []))) eqn:Ec.
  - destruct (preview_unapplied p rendered (theProbe s) (surveyWarnings s ++ map renderWarningText (warnings rendered)) refusals h3)
      as [(n2 & A2 & L2%looks_loadsNone) _]. rewrite E in A2. exists (n1 ++ n2). split; [by eapply after_app |].
    intros open _. apply loadsNone_keeps, Forall_app. done.
  - apply orb_false_iff in Ec as [Eo Er]. apply bool_decide_eq_false in Eo.
    apply negb_false_iff, bool_decide_eq_true in Er.
    destruct (moves_run _ _ _ _ _ (applyAndConfirm_loads p s rendered _ verify now later) E) as (n2 & A2 & L2).
    exists (n1 ++ n2). split; [by eapply after_app |]. intros open Ho. apply Forall_app. split; [by apply loadsNone_keeps |].
    assert (inputDropsByDefault p = false) as Hd.
    { destruct (inputDropsByDefault p) eqn:Ed; [| done]. by destruct (drop_is_refused _ _ _ _ Ed E3). }
    eapply Forall_impl; [exact L2 |]. intros e He Hl. rewrite <- Hp. apply (rendered_keeps_open inside _ rendered); rewrite ?Hp; auto.
    by destruct (mode p).
Qed.
End Loads.

(** C12. A reconcile cannot cut off the operator.  On any host and however programs
    end: it first only looks; and every document it then loads comes from a
    managed payload whose default is accept and is the text of chains that, in
    its family and whatever the rules say, accept TCP to every port the
    payload names as sshd's, every control-plane port, and every port the
    host's own [sshd -T] named during the run. *)
Theorem reconcile_keeps_ssh_open {A} (inside : jstring -> A -> bool) `{Crypto} `{JsTables} `{JsDates}
    p verify now later h r h' :
  handleFirewallReconcile p verify now later h = (r, h') ->
  exists looked acted, after h (looked ++ acted) h' /\ Forall looksOnly looked /\
    Forall (fun e => loads e = true -> keepsOpen inside p (mustStayOpen p looked) e) acted.
Proof.
  intros E. destruct (decide (mode p = Off)) as [Eo | Eo].
  { unfold handleFirewallReconcile in E. rewrite Eo in E. exists [].
    assert (moves (does loadsNone) ('_ ← removeFirewall; mret (offResult p))) as Hm by (pose proof off_loads; walk).
    destruct (moves_run _ _ _ _ _ Hm E) as (acted & A1 & L). exists acted. split_and!; [done | constructor |].
    by apply loadsNone_keeps. }
  assert ((s ← surveyHost p; rendered ← lifted (renderFirewall (theInput s));
    refusals ← refusalsFor p;
    if bool_decide (mode p = Observe) || negb (bool_decide (refusals = [])) then
      previewResult p rendered (theProbe s) (surveyWarnings s ++ map renderWarningText (warnings rendered)) refusals
    else applyAndConfirm p s rendered (surveyWarnings s ++ map renderWarningText (warnings rendered)) verify now later) h
      = (r, h')) as E'.
  { revert E Eo. unfold handleFirewallReconcile. by destruct (mode p). }
  clear E. apply bind_run in E' as [(s & h1 & E1 & E) | (e & E1 & ->)].
  2: { destruct (moves_run _ _ _ _ _ (survey_looks p) E1) as (looked & A1 & L). exists looked, [].
       rewrite app_nil_r. split_and!; [done | done | constructor]. }
  destruct (survey_run _ _ _ _ E1) as (looked & A1 & L & Hp & Hn).
  destruct (active_run inside p verify now later s h1 r h' Eo Hp E) as (acted & A2 & Hk).
  exists looked, acted. split; [by eapply after_app |]. split; [done |]. apply Hk.
  intros n [Hn' | [Hn' | Hn']]; [left; apply Hn; by left | by right | left; apply Hn; by right].
Qed.

(** ** A reported ruleset can be confirmed *)

(** SHA-256 gives 32 bytes. *)
Class Sha256Bytes `{Crypto} : Prop :=
  sha256_bytes (x : bytes) : length (sha256 x) = 32%nat /\ Forall (fun b => b < 256) (sha256 x).

Lemma hexDigit_class n : n < 16 -> is_digit (hexDigit n) || in_range 97 102 (hexDigit n) = true.
Proof.
  intros Hn. unfold hexDigit, is_digit, in_range. destruct (N.ltb_spec n 10);
    rewrite orb_true_iff, !andb_true_iff, !N.leb_le; lia.
Qed.
Lemma encodeHex_digest x :
  length x = 32%nat -> Forall (fun b => b < 256) x -> lang FIREWALL_DIGEST_RE (encodeHex x).
Proof.
  intros Hl Hx. apply lang_times_set_iff. split.
  - assert (length (encodeHex x) = 2 * length x)%nat as ->; [| by rewrite Hl].
    clear. induction x as [| b x IH]; [done |]. unfold encodeHex in *. cbn. rewrite IH. lia.
  - clear Hl. induction Hx as [| b x Hb _ IH]; [constructor |]. unfold encodeHex in *. cbn.
    constructor; [apply hexDigit_class; apply N.Div0.div_lt_upper_bound; lia |].
    constructor; [apply hexDigit_class, N.mod_lt; done | exact IH].
Qed.

Lemma rendered_digest `{Crypto} {sb : Sha256Bytes} input out :
  renderFirewall input = Ok out -> lang FIREWALL_DIGEST_RE (digest out).
Proof.
  unfold renderFirewall. intros E.
  apply bind_Ok in E as ([d4 r4] & _ & E). apply bind_Ok in E as ([d6 r6] & _ & E). injection E as <-.
  cbn [digest]. destruct (sha256_bytes (encode_text (d4 ++ 10 :: default [] d6))). by apply encodeHex_digest.
Qed.
Lemma digest_utf16 d : lang FIREWALL_DIGEST_RE d -> utf16 d.
Proof.
  intros [_ Hf]%lang_times_set_iff. eapply Forall_impl; [exact Hf |]. intros c Hc.
  unfold is_digit, in_range in Hc. rewrite orb_true_iff, !andb_true_iff, !N.leb_le in Hc. lia.
Qed.

Lemma survey_steady p : moves steady (surveyHost p).
Proof.
  assert (forall cmd args, moves steady (runFirewallHost cmd args)) as Hr by (intros; unfold runFirewallHost; walk).
  assert (moves steady probeXtables) by (unfold probeXtables; walk).
  assert (moves steady readSshdEffectivePorts) by (unfold readSshdEffectivePorts; walk).
  assert (forall f, moves steady (hasDockerUserChain f)) by (intros; unfold hasDockerUserChain; walk).
  unfold surveyHost. walk.
Qed.
Lemma refusals_steady p : moves steady (refusalsFor p).
Proof.
  assert (forall cmd args, moves steady (runFirewallHost cmd args)) as Hr by (intros; unfold runFirewallHost; walk).
  unfold refusalsFor, isControlPlaneColocated. walk.
Qed.

Lemma steady_run {A} (m : hostM A) h r h' : moves steady m -> m h = (r, h') -> calm h -> calm h'.
Proof. intros Hm E Hc. specialize (Hm h Hc). by rewrite E in Hm. Qed.

(** The window an apply armed. *)
Lemma applied_arms `{JsTables} `{JsDates} rendered fwd probe gen now h o h' :
  applyRenderedFirewall rendered fwd probe gen now h = (Ok o, h') ->
  FwApply.confirmation o = {| armedDeadline := toISOString (now + 120000);
                              armedWindow := FIREWALL_CONFIRM_WINDOW_SECONDS |}.
Proof.
  unfold applyRenderedFirewall. intros E. apply bind_run in E as [(armed & h1 & E1 & E) | (? & _ & [=])].
  apply arm_run in E1 as (-> & _). unfold loadAfterV4 in E. run_inv. destruct a2 as [[] ?]; run_inv. done.
Qed.

(** What a reconcile that reports an apply did. *)
Lemma applied_run `{Crypto} `{JsTables} `{JsDates} p verify now later h res h' :
  mode p = Managed -> calm h -> handleFirewallReconcile p verify now later h = (Ok res, h') ->
  resApplied res = true ->
  exists s h1 out outcome h2 conf,
    calm h1 /\ payload (theInput s) = p /\ renderFirewall (theInput s) = Ok out /\
    applyRenderedFirewall out (theForward s) (theProbe s) (generation p) now h1 = (Ok outcome, h2) /\
    selfConfirm (digest out) (FwApply.confirmation outcome) verify later h2 = (Ok conf, h') /\
    resDigest res = digest out /\ resConfirmation res = Some conf.
Proof.
  intros Hm Hc E Happ. unfold handleFirewallReconcile in E. rewrite Hm in E.
  apply bind_run in E as [(s & h1 & E1 & E) | (? & _ & [=])].
  apply bind_run in E as [(out & h2 & E2 & E) | (? & _ & [=])]. injection E2 as E2 <-.
  apply bind_run in E as [(refusals & h3 & E3 & E) | (? & _ & [=])].
  pose proof (steady_run _ _ _ _ (survey_steady p) E1 Hc) as Hc1.
  pose proof (steady_run _ _ _ _ (refusals_steady p) E3 Hc1) as Hc3.
  destruct (survey_run _ _ _ _ E1) as (_ & _ & _ & Hp & _).
  destruct (bool_decide (Managed = Observe) || negb (bool_decide (refusals = []))).
  - exfalso. destruct (preview_unapplied p out (theProbe s)
      (surveyWarnings s ++ map renderWarningText (warnings out)) refusals h3) as [_ Hu].
    rewrite E in Hu. specialize (Hu res eq_refl). congruence.
  - unfold applyAndConfirm in E. apply bind_run in E as [(outcome & h4 & E4 & E) | (? & _ & [=])].
    apply bind_run in E as [(conf & h5 & E5 & E) | (? & _ & [=])]. injection E as <- <-.
    exists s, h3, out, outcome, h4, conf. split_and!; done.
Qed.

