(* ===== verification/FwResult.v ===== *)
(** * The firewall results' contract ([contracts/commands-contracts.ts])

    The parsers the control plane's side of the contract applies to what a
    reconcile and a confirm report, the reports as JSON, and that every report
    of the handlers passes. *)

From S2P Require Import Prelude Regex Text Json Number JsonPrint GateHttp GateApproval Dates Log CtParse CtNet FwRender FwContract FwHost FwPending FwApply FwFold FwConfirm FwReconcile.

#[local] Open Scope N_scope.

Definition FIREWALL_VALIDATION_MAX_ERRORS : N := 8.
Definition FIREWALL_VALIDATION_MAX_ERROR_LENGTH : N := 500.

(** [value.every((entry) => typeof entry === "string")]. *)
Definition asStrings (v : option jval) : option (list jstring) :=
  l ← asArray v; mapM (fun e => asString (Some e)) l.

Definition parseIpv6Status (value : jval) : fallible FirewallIpv6Status :=
  given (oneOf [("applied" : jstring, Applied6); ("skipped" : jstring, Skipped6);
                ("ipv6_unfiltered" : jstring, Unfiltered6)] (Some value))
    (refuseType "ipv6Status must be applied, skipped or ipv6_unfiltered").

Definition parseFirewallValidation (value : jval) : fallible FirewallValidation :=
  o ← given (asRecord (Some value)) (refuseType "validation must carry a boolean ok");
  okay ← given (asBoolean (getEntry o "ok")) (refuseType "validation must carry a boolean ok");
  errors ← given (l ← asStrings (getEntry o "errors");
                  if (N.of_nat (length l) <=? FIREWALL_VALIDATION_MAX_ERRORS)
                     && forallb (fun e => negb (longerThan FIREWALL_VALIDATION_MAX_ERROR_LENGTH e)) l
                  then Some l else None)
             (refuseType "validation.errors must be a short list of short strings");
  Ok {| validationOk := okay; validationErrors := errors |}.

Definition parseFirewallRenderedDocument (value : option jval) (field : jstring) : fallible jstring :=
  given (s ← asString value; if longerThan FIREWALL_RENDERED_MAX_BYTES s then None else Some s)
    (refuseType (("rendered." : jstring) ++ field ++ (" must be a string of at most " : jstring)
                 ++ decimalText FIREWALL_RENDERED_MAX_BYTES ++ (" characters" : jstring))).

Definition parseFirewallRendered (value : jval) : fallible (jstring * option jstring) :=
  o ← given (asRecord (Some value)) (refuse "rendered must be an object");
  d4 ← parseFirewallRenderedDocument (getEntry o "v4") "v4";
  d6 ← match getEntry o "v6" with
       | None => Ok None
       | Some v => Some <$> parseFirewallRenderedDocument (Some v) "v6"
       end;
  Ok (d4, d6).

Section Parsers.
Context `{JsDates}.

(** A string that is a date. *)
Definition dateString (v : option jval) : option jstring :=
  s ← asString v; '_ ← Date_parse s; Some s.

Definition parseFirewallLastRollback (value : jval) : fallible FirewallRollbackRecord :=
  given (o ← asRecord (Some value);
         d ← stringMatching FIREWALL_DIGEST_RE (getEntry o "digest");
         a ← dateString (getEntry o "at");
         r ← restoredOf (getEntry o "restored");
         Some {| rbDigest := d; rbAt := a; rbRestored := r |})
    (refuse "lastRollback must be a rollback record").

Definition parseFirewallAutoConfirm (value : jval) : fallible FirewallAutoConfirm :=
  given (o ← asRecord (Some value);
         b ← asBoolean (getEntry o "ok");
         r ← asString (getEntry o "reason");
         Some {| autoOk := b; autoWhy := r |})
    (refuse "confirmation.autoConfirm must be { ok, reason }").

Definition parseFirewallPendingConfirmation (value : jval) : fallible FirewallPendingConfirmation :=
  '(o, confirmed) ← given (o ← asRecord (Some value);
             c ← oneOf [("pending" : jstring, false); ("confirmed" : jstring, true)] (getEntry o "state");
             Some (o, c))
        (refuse "confirmation must be a pending or confirmed confirmation");
  at_ ← given (dateString (getEntry o "deadlineAt"))
          (refuseType "confirmation.deadlineAt must be an ISO time");
  w ← given (z ← asInteger (getEntry o "windowSeconds");
             if (1 <=? z)%Z && (z <=? 3600)%Z then Some z else None)
        (refuse "confirmation.windowSeconds must be an integer from 1 to 3600");
  auto ← optionally parseFirewallAutoConfirm (getEntry o "autoConfirm");
  Ok {| stateConfirmed := confirmed; confirmDeadlineAt := at_; windowSeconds := w; autoConfirm := auto |}.

Definition booleanField (o : entries) (k : jstring) : fallible bool :=
  given (asBoolean (getEntry o k)) (refuseType (k ++ (" must be a boolean" : jstring))).

Definition parseFirewallReconcileResult (value : option jval) : fallible FirewallReconcileResult :=
  o ← given (asRecord value) (refuse "Invalid firewall reconcile result");
  g ← given (asInteger (getEntry o "generation")) (refuseType "generation must be an integer");
  m ← given (oneOf FIREWALL_MODES (getEntry o "mode")) (refuse "mode must be managed, observe or off");
  applied ← booleanField o "applied";
  six ← booleanField o "ipv6Applied";
  fwd ← booleanField o "forwardApplied";
  d ← given (asString (getEntry o "digest")) (refuseType "digest must be a string");
  count ← given (z ← asInteger (getEntry o "ruleCount");
                 if (0 <=? z)%Z then Some (Z.to_nat z) else None)
            (refuse "ruleCount must be a non-negative integer");
  warns ← given (asStrings (getEntry o "warnings")) (refuseType "warnings must be an array of strings");
  text ← given (asString (getEntry o "summary")) (refuseType "summary must be a string");
  status ← optionally parseIpv6Status (getEntry o "ipv6Status");
  ssh ← parseFirewallPortList (getEntry o "sshPorts") "sshPorts";
  conf ← optionally parseFirewallPendingConfirmation (getEntry o "confirmation");
  rollback ← optionally parseFirewallLastRollback (getEntry o "lastRollback");
  valid ← optionally parseFirewallValidation (getEntry o "validation");
  rendered ← optionally parseFirewallRendered (getEntry o "rendered");
  Ok {| resGeneration := g; resMode := m; resApplied := applied; resDigest := d;
        resRuleCount := count; resIpv6Applied := six; resIpv6Status := status;
        resForwardApplied := fwd; resSshPorts := ssh; resWarnings := warns;
        resConfirmation := conf; resLastRollback := rollback; resValidation := valid;
        resRendered := rendered; resSummary := text |}.
End Parsers.

(** ** Confirm results *)

Inductive FirewallConfirmState := CConfirmed | CNothingPending | CDigestMismatch | CExpired | CRolledBack.
Definition FIREWALL_CONFIRM_STATES : list (jstring * FirewallConfirmState) :=
  [("confirmed" : jstring, CConfirmed); ("nothing_pending" : jstring, CNothingPending);
   ("digest_mismatch" : jstring, CDigestMismatch); ("expired" : jstring, CExpired);
   ("rolled_back" : jstring, CRolledBack)].
Record FirewallConfirmResult := {
  crState : FirewallConfirmState; crDigest : jstring; crSummary : jstring;
  crPendingDigest : option jstring
}.

Definition parseFirewallConfirmResult (value : option jval) : fallible FirewallConfirmResult :=
  o ← given (asRecord value) (refuse "Invalid firewall confirm result");
  s ← given (oneOf FIREWALL_CONFIRM_STATES (getEntry o "state"))
        (refuse "state must be confirmed, nothing_pending, digest_mismatch, expired or rolled_back");
  d ← given (stringMatching FIREWALL_DIGEST_RE (getEntry o "digest"))
        (refuse "digest must be a lower-case sha256 hex string");
  text ← given (asString (getEntry o "summary")) (refuseType "summary must be a string");
  pending ← match getEntry o "pendingDigest" with
            | None => Ok None
            | Some v => Some <$> given (stringMatching FIREWALL_DIGEST_RE (Some v))
                          (refuse "pendingDigest must be a lower-case sha256 hex string")
            end;
  Ok {| crState := s; crDigest := d; crSummary := text; crPendingDigest := pending |}.

(** ** The reports as JSON *)

Definition restoredName (r : restored) : jstring :=
  match r with Durable => "durable" | NoRules => "none" | Opened => "open" end.
Definition rollbackJson (r : FirewallRollbackRecord) : jval :=
  JObj [("digest" : jstring, JStr (rbDigest r)); ("at" : jstring, JStr (rbAt r));
        ("restored" : jstring, JStr (restoredName (rbRestored r)))].
Definition autoJson (a : FirewallAutoConfirm) : jval :=
  JObj [("ok" : jstring, JBool (autoOk a)); ("reason" : jstring, JStr (autoWhy a))].
Definition confirmationJson (c : FirewallPendingConfirmation) : jval :=
  JObj ([("state" : jstring, JStr (if stateConfirmed c then "confirmed" else "pending" : jstring));
         ("deadlineAt" : jstring, JStr (confirmDeadlineAt c));
         ("windowSeconds" : jstring, JNum (num_of_Z (windowSeconds c)))]
        ++ optEntry "autoConfirm" (autoJson <$> autoConfirm c)).
Definition validationJson (v : FirewallValidation) : jval :=
  JObj [("ok" : jstring, JBool (validationOk v)); ("errors" : jstring, strings (validationErrors v))].
Definition renderedJson (r : jstring * option jstring) : jval :=
  JObj (("v4" : jstring, JStr r.1) :: optEntry "v6" (JStr <$> r.2)).

Definition resultJson (r : FirewallReconcileResult) : jval :=
  JObj ([("generation" : jstring, JNum (num_of_Z (resGeneration r)));
         ("mode" : jstring, JStr (modeName (resMode r)));
         ("digest" : jstring, JStr (resDigest r));
         ("ruleCount" : jstring, JNum (num_of_Z (Z.of_nat (resRuleCount r))));
         ("sshPorts" : jstring, portsJson (resSshPorts r));
         ("applied" : jstring, JBool (resApplied r));
         ("ipv6Applied" : jstring, JBool (resIpv6Applied r))]
        ++ optEntry "ipv6Status" ((fun s => JStr (ipv6StatusName s)) <$> resIpv6Status r)
        ++ [("forwardApplied" : jstring, JBool (resForwardApplied r));
            ("warnings" : jstring, strings (resWarnings r))]
        ++ optEntry "confirmation" (confirmationJson <$> resConfirmation r)
        ++ optEntry "validation" (validationJson <$> resValidation r)
        ++ optEntry "rendered" (renderedJson <$> resRendered r)
        ++ [("summary" : jstring, JStr (resSummary r))]
        ++ optEntry "lastRollback" (rollbackJson <$> resLastRollback r)).

Definition stateOf (o : FirewallConfirmOutcome) : FirewallConfirmState :=
  match o with
  | Confirmed => CConfirmed | NothingPending => CNothingPending | DigestMismatch _ => CDigestMismatch
  | Expired _ => CExpired | RolledBack _ => CRolledBack
  end.
(** The outcome object [confirmPendingFirewall] returns for the digest [d]. *)
Definition confirmResult (d : jstring) (o : FirewallConfirmOutcome) : FirewallConfirmResult := {|
  crState := stateOf o; crDigest := d; crSummary := confirmSummary o;
  crPendingDigest := match o with DigestMismatch p => Some p | _ => None end
|}.
Definition confirmResultJson (r : FirewallConfirmResult) : jval :=
  JObj ([("state" : jstring, JStr match crState r with
            | CConfirmed => ("confirmed" : jstring) | CNothingPending => "nothing_pending"
            | CDigestMismatch => "digest_mismatch" | CExpired => "expired" | CRolledBack => "rolled_back"
            end);
         ("digest" : jstring, JStr (crDigest r))]
        ++ optEntry "pendingDigest" (JStr <$> crPendingDigest r)
        ++ [("summary" : jstring, JStr (crSummary r))]).

(** ** What the parsers accept *)

Definition goodRollback `{JsDates} (r : FirewallRollbackRecord) : Prop :=
  lang FIREWALL_DIGEST_RE (rbDigest r) /\ is_Some (Date_parse (rbAt r)).
Definition short (n : N) (s : jstring) : Prop := longerThan n s = false.

Record reportable `{JsDates} (r : FirewallReconcileResult) : Prop := Reportable {
  rep_generation : (Z.abs (resGeneration r) < 2 ^ 53)%Z;
  rep_count : (Z.of_nat (resRuleCount r) < 2 ^ 53)%Z;
  rep_ports : goodPorts (Some (resSshPorts r));
  rep_confirmation : forall c, resConfirmation r = Some c ->
    is_Some (Date_parse (confirmDeadlineAt c)) /\ (1 <= windowSeconds c <= 3600)%Z;
  rep_rollback : forall rb, resLastRollback r = Some rb -> goodRollback rb;
  rep_validation : forall v, resValidation r = Some v ->
    (length (validationErrors v) <= 8)%nat /\ Forall (short 500) (validationErrors v);
  rep_rendered : forall d, resRendered r = Some d ->
    short FIREWALL_RENDERED_MAX_BYTES d.1 /\ forall d6, d.2 = Some d6 -> short FIREWALL_RENDERED_MAX_BYTES d6
}.

Lemma result_members (a b c d e f g i j s : jval) (q1 q2 q3 q4 q5 : option jval) :
  let o : entries :=
    [("generation" : jstring, a); ("mode" : jstring, b); ("digest" : jstring, c);
     ("ruleCount" : jstring, d); ("sshPorts" : jstring, e); ("applied" : jstring, f);
     ("ipv6Applied" : jstring, g)]
    ++ optEntry "ipv6Status" q1 ++ [("forwardApplied" : jstring, i); ("warnings" : jstring, j)]
    ++ optEntry "confirmation" q2 ++ optEntry "validation" q3 ++ optEntry "rendered" q4
    ++ [("summary" : jstring, s)] ++ optEntry "lastRollback" q5 in
  getEntry o "generation" = Some a /\ getEntry o "mode" = Some b /\ getEntry o "digest" = Some c /\
  getEntry o "ruleCount" = Some d /\ getEntry o "sshPorts" = Some e /\ getEntry o "applied" = Some f /\
  getEntry o "ipv6Applied" = Some g /\ getEntry o "forwardApplied" = Some i /\
  getEntry o "warnings" = Some j /\ getEntry o "summary" = Some s /\ getEntry o "ipv6Status" = q1 /\
  getEntry o "confirmation" = q2 /\ getEntry o "validation" = q3 /\ getEntry o "rendered" = q4 /\
  getEntry o "lastRollback" = q5.
Proof. destruct q1, q2, q3, q4, q5; vm_compute; by split_and!. Qed.

Lemma asStrings_strings l : asStrings (Some (strings l)) = Some l.
Proof.
  unfold asStrings, strings. cbn [asArray mbind option_bind].
  set (f := fun e => asString (Some e)). induction l as [| s l IH]; [done |].
  change (mapM f (map JStr (s :: l))) with (Some s ≫= fun y => mapM f (map JStr l) ≫= fun k => Some (y :: k)).
  rewrite IH. done.
Qed.

Lemma optionally_reads {A} (parse : jval -> fallible A) (print : A -> jval) o :
  (forall a, o = Some a -> parse (print a) = Ok a) -> optionally parse (print <$> o) = Ok o.
Proof. destruct o as [a |]; cbn; [| done]. intros H. by rewrite H. Qed.

Section Reads.
Context `{JsDates}.

Lemma dateString_reads s : is_Some (Date_parse s) -> dateString (Some (JStr s)) = Some s.
Proof. intros [t Ht]. unfold dateString. cbn [asString mbind option_bind]. by rewrite Ht. Qed.

Lemma rollback_reads r : goodRollback r -> parseFirewallLastRollback (rollbackJson r) = Ok r.
Proof.
  intros [Hd Ha]. destruct r as [d a rs]. cbn in Hd, Ha. unfold parseFirewallLastRollback, rollbackJson.
  cbn [asRecord mbind option_bind rbDigest rbAt rbRestored].
  assert (forall x y z : jval, let o : entries := [("digest" : jstring, x); ("at" : jstring, y); ("restored" : jstring, z)] in
    getEntry o "digest" = Some x /\ getEntry o "at" = Some y /\ getEntry o "restored" = Some z) as Hg by (by vm_compute).
  destruct (Hg (JStr d) (JStr a) (JStr (restoredName rs))) as (-> & -> & ->).
  rewrite stringMatching_id, dateString_reads by done. cbn [mbind option_bind]. by destruct rs.
Qed.

Lemma autoConfirm_reads a : parseFirewallAutoConfirm (autoJson a) = Ok a.
Proof. by destruct a. Qed.

Lemma confirmation_reads c :
  is_Some (Date_parse (confirmDeadlineAt c)) -> (1 <= windowSeconds c <= 3600)%Z ->
  parseFirewallPendingConfirmation (confirmationJson c) = Ok c.
Proof.
  destruct c as [b at_ w auto]. cbn [confirmDeadlineAt windowSeconds]. intros Hd Hw.
  assert (forall (x y z : jval) q, let o : entries := [("state" : jstring, x); ("deadlineAt" : jstring, y); ("windowSeconds" : jstring, z)]
      ++ optEntry "autoConfirm" q in
    getEntry o "state" = Some x /\ getEntry o "deadlineAt" = Some y /\ getEntry o "windowSeconds" = Some z /\
    getEntry o "autoConfirm" = q) as Hg by (intros ? ? ? [q |]; by vm_compute).
  destruct (Hg (JStr (if b then "confirmed" else "pending" : jstring)) (JStr at_) (JNum (num_of_Z w)) (autoJson <$> auto)) as (G1 & G2 & G3 & G4).
  match type of G1 with getEntry ?o _ = _ => change (confirmationJson _) with (JObj o); generalize dependent o end.
  intros o G1 G2 G3 G4. unfold parseFirewallPendingConfirmation. cbn [asRecord mbind option_bind]. rewrite G1.
  assert (oneOf [("pending" : jstring, false); ("confirmed" : jstring, true)]
    (Some (JStr (if b then "confirmed" else "pending" : jstring))) = Some b) as -> by (by destruct b).
  cbn [option_bind given mbind result_bind]. rewrite G2, G3, G4, dateString_reads by done. cbn [given mbind result_bind].
  unfold asInteger. cbn [asNumber mbind option_bind]. rewrite num_of_Z_exact by lia. cbn [mbind option_bind].
  rewrite (proj2 (Z.leb_le 1 w)), (proj2 (Z.leb_le w 3600)) by lia. cbn [andb given mbind result_bind].
  rewrite optionally_reads by (intros; apply autoConfirm_reads). done.
Qed.

Lemma validation_reads v :
  (length (validationErrors v) <= 8)%nat -> Forall (short 500) (validationErrors v) ->
  parseFirewallValidation (validationJson v) = Ok v.
Proof.
  destruct v as [b es]. cbn [validationErrors]. intros Hl Hs.
  unfold parseFirewallValidation, validationJson, FIREWALL_VALIDATION_MAX_ERRORS, FIREWALL_VALIDATION_MAX_ERROR_LENGTH.
  cbn [asRecord given mbind result_bind validationOk validationErrors].
  assert (forall x y : jval, let o : entries := [("ok" : jstring, x); ("errors" : jstring, y)] in
    getEntry o "ok" = Some x /\ getEntry o "errors" = Some y) as Hg by (by vm_compute).
  destruct (Hg (JBool b) (strings es)) as (-> & ->). cbn [asBoolean given mbind result_bind].
  rewrite asStrings_strings. cbn [mbind option_bind]. rewrite (proj2 (N.leb_le _ _)) by lia.
  assert (forallb (fun e => negb (longerThan 500 e)) es = true) as ->; [| done].
  apply forallb_forall. intros e He%list_elem_of_In. rewrite Forall_forall in Hs. by rewrite (Hs e He).
Qed.

Lemma renderedDocument_reads s field :
  short FIREWALL_RENDERED_MAX_BYTES s -> parseFirewallRenderedDocument (Some (JStr s)) field = Ok s.
Proof. intros Hs. unfold parseFirewallRenderedDocument. cbn [asString mbind option_bind]. by rewrite Hs. Qed.
Lemma rendered_reads d :
  short FIREWALL_RENDERED_MAX_BYTES d.1 -> (forall d6, d.2 = Some d6 -> short FIREWALL_RENDERED_MAX_BYTES d6) ->
  parseFirewallRendered (renderedJson d) = Ok d.
Proof.
  destruct d as [d4 d6]. cbn [fst snd]. intros H4 H6.
  unfold parseFirewallRendered, renderedJson. cbn [asRecord given mbind result_bind fst snd].
  assert (forall (x : jval) q, let o : entries := ("v4" : jstring, x) :: optEntry "v6" q in
    getEntry o "v4" = Some x /\ getEntry o "v6" = q) as Hg by (intros ? [q |]; by vm_compute).
  destruct (Hg (JStr d4) (JStr <$> d6)) as (-> & ->). rewrite renderedDocument_reads by done. cbn [mbind result_bind].
  destruct d6 as [d6 |]; cbn [fmap option_fmap option_map]; [| done]. by rewrite renderedDocument_reads by auto.
Qed.

Lemma result_reads r : reportable r -> parseFirewallReconcileResult (Some (resultJson r)) = Ok r.
Proof.
  intros [Hg Hcnt Hp Hc Hrb Hv Hrd]. destruct r as [g m app d cnt six st fwd ssh ws conf rb val rend sm].
  cbn in Hg, Hcnt, Hp, Hc, Hrb, Hv, Hrd.
  destruct (result_members (JNum (num_of_Z g)) (JStr (modeName m)) (JStr d) (JNum (num_of_Z (Z.of_nat cnt)))
    (portsJson ssh) (JBool app) (JBool six) (JBool fwd) (strings ws) (JStr sm)
    ((fun s => JStr (ipv6StatusName s)) <$> st) (confirmationJson <$> conf) (validationJson <$> val)
    (renderedJson <$> rend) (rollbackJson <$> rb))
    as (G1 & G2 & G3 & G4 & G5 & G6 & G7 & G8 & G9 & G10 & G11 & G12 & G13 & G14 & G15).
  match type of G1 with getEntry ?o _ = _ => change (resultJson _) with (JObj o); generalize dependent o end.
  intros o G1 G2 G3 G4 G5 G6 G7 G8 G9 G10 G11 G12 G13 G14 G15.
  unfold parseFirewallReconcileResult, booleanField. cbn [asRecord given mbind result_bind].
  rewrite G1, G2, G3, G4, G5, G6, G7, G8, G9, G10, G11, G12, G13, G14, G15.
  unfold asInteger. cbn [asNumber mbind option_bind]. rewrite !num_of_Z_exact by lia. cbn [given mbind result_bind].
  assert (oneOf FIREWALL_MODES (Some (JStr (modeName m))) = Some m) as -> by (by destruct m).
  cbn [given asBoolean asString mbind result_bind option_bind].
  rewrite (proj2 (Z.leb_le 0 (Z.of_nat cnt))) by lia. cbn [given mbind result_bind].
  rewrite asStrings_strings. cbn [given mbind result_bind].
  rewrite (optionally_reads parseIpv6Status (fun s => JStr (ipv6StatusName s))) by (by intros []).
  cbn [mbind result_bind]. rewrite portList_reads by done. cbn [mbind result_bind].
  rewrite (optionally_reads parseFirewallPendingConfirmation) by (intros c ->; destruct (Hc c eq_refl); by apply confirmation_reads).
  cbn [mbind result_bind].
  rewrite (optionally_reads parseFirewallLastRollback) by (intros c ->; apply rollback_reads; auto).
  cbn [mbind result_bind].
  rewrite (optionally_reads parseFirewallValidation) by (intros c ->; destruct (Hv c eq_refl); by apply validation_reads).
  cbn [mbind result_bind].
  rewrite (optionally_reads parseFirewallRendered) by (intros c ->; destruct (Hrd c eq_refl); by apply rendered_reads).
  cbn [mbind result_bind]. by rewrite Nat2Z.id.
Qed.
End Reads.

(** ** What the handlers report *)

Lemma renderEach_ids render rs rendered ls all (ids : list jstring) :
  renderEach render rs rendered = Ok (ls, all) -> NoDup rendered -> rendered ⊆ ids ->
  (forall r, r ∈ rs -> id r ∈ ids) -> NoDup all /\ all ⊆ ids.
Proof.
  revert rendered ls all. induction rs as [| r rs IH]; intros rendered ls all; cbn [renderEach].
  { by intros [= _ <-]. }
  intros E Hn Hs Hr. apply bind_Ok in E as (l & _ & E). apply bind_Ok in E as ([rest all'] & E & Eo).
  injection Eo as _ <-. apply IH in E; [done | | | set_solver].
  - case_decide as Hd; [| done]. apply NoDup_app. split_and!; [done | set_solver | apply NoDup_singleton].
  - case_decide; [| done]. set_solver.
Qed.

Lemma renderFamily_ids input family guaranteed rendered doc all :
  renderFamily input family guaranteed rendered = Ok (doc, all) -> NoDup rendered ->
  rendered ⊆ map id (rules (payload input)) -> NoDup all /\ all ⊆ map id (rules (payload input)).
Proof.
  assert (forall s r, r ∈ scoped (payload input) s -> id r ∈ map id (rules (payload input))) as Hin.
  { intros s r [_ Hr]%orderedRules_elem%list_elem_of_filter. apply list_elem_of_fmap. eauto. }
  unfold renderFamily. intros E Hn Hs. apply bind_Ok in E as ([h1 r1] & E1 & E).
  apply bind_Ok in E as ([h2 r2] & E2 & E). injection E as _ <-.
  eapply (renderEach_ids _ _ _ _ _ (map id (rules (payload input)))) in E1 as [Hn1 Hs1]; [| done | done | apply (Hin HostScope)].
  destruct (includeForward input family); [| by injection E2 as _ <-].
  eapply (renderEach_ids _ _ _ _ _ (map id (rules (payload input)))) in E2; [done | done | done | apply (Hin PublishedScope)].
Qed.

(** What a rendered firewall reports of itself. *)
Lemma rendered_report `{Crypto} input out :
  renderFirewall input = Ok out -> Forall (fun n => 1 <= n <= 65535) (inputSshPorts input) ->
  (ruleCount out <= length (rules (payload input)))%nat /\ goodPorts (Some (sshPorts out)).
Proof.
  unfold renderFirewall. intros E Hp.
  apply bind_Ok in E as ([d4 r4] & E4 & E). apply bind_Ok in E as ([d6 r6] & E6 & E). injection E as <-.
  cbn [ruleCount sshPorts]. split.
  - apply renderFamily_ids in E4 as [Hn4 Hs4]; [| constructor | set_solver].
    assert (NoDup r6 /\ r6 ⊆ map id (rules (payload input))) as [Hn6 Hs6].
    { destruct (mirrorsIpv6 (payload input)); [| by injection E6 as _ <-].
      apply bind_Ok in E6 as ([d r] & E6 & Eo). injection Eo as _ <-. by apply renderFamily_ids in E6. }
    rewrite <- (length_map id). apply NoDup_incl_length; [by apply NoDup_ListNoDup |].
    intros x Hx%list_elem_of_In. by apply list_elem_of_In, Hs6.
  - destruct (ascending (inputSshPorts input)) as [| n l] eqn:Ea; [by split; repeat constructor |].
    rewrite <- Ea. split; [apply ascending_id, ascending_ascends |].
    rewrite Forall_forall in Hp. apply Forall_forall. intros m Hm. rewrite ascending_elem in Hm. auto.
Qed.

Lemma sshd_ports_valid output : Forall (fun n => 1 <= n <= 65535) (parseSshdEffectivePorts output).
Proof.
  unfold parseSshdEffectivePorts. apply Forall_forall. intros n Hn. rewrite ascending_elem in Hn.
  apply list_elem_of_omap in Hn as (line & _ & Hl). unfold sshdLinePort in Hl.
  assert (forall k, (if isValidFirewallPort k then Some k else None) = Some n -> 1 <= n <= 65535) as Hv.
  { intros k. destruct (isValidFirewallPort k) eqn:E; [| done]. intros [= ->]. unfold isValidFirewallPort in E. bools. lia. }
  revert Hl. cbv zeta. destruct (match afterKeyword "port" _ with Some _ => _ | None => _ end) as [d |]; [apply Hv |].
  destruct (afterKeyword "listenaddress" _) as [rest |]; cbn [mbind option_bind]; [| done].
  destruct (lastIndexOf 58 rest) as [colon |]; cbn [mbind option_bind]; [| done].
  destruct (_ && _); [apply Hv | done].
Qed.

Lemma survey_ports p h s h' :
  goodPorts (payloadSshPorts p) -> surveyHost p h = (Ok s, h') ->
  payload (theInput s) = p /\ Forall (fun n => 1 <= n <= 65535) (inputSshPorts (theInput s)).
Proof.
  intros Hp. unfold surveyHost. intros E. apply bind_run in E as [(probe & h1 & E1 & E) | (? & _ & [=])].
  destruct (negb (probeOk probe)); [done |].
  apply bind_run in E as [(sshd & h2 & E2 & E) | (? & _ & [=])].
  apply bind_run in E as [(f4 & h3 & E3 & E) | (? & _ & [=])].
  apply bind_run in E as [(f6 & h4 & E4 & E) | (? & _ & [=])]. injection E as <- <-. cbn [theInput payload inputSshPorts].
  split; [done |]. unfold union. apply Forall_forall. intros n Hn. rewrite ascending_elem, elem_of_app in Hn.
  destruct Hn as [Hn | Hn].
  - unfold readSshdEffectivePorts in E2. run_inv. revert Hn. destruct (_ || _); cbn [detectedPorts]; [set_solver |].
    pose proof (sshd_ports_valid (stdout a)) as Hv. rewrite Forall_forall in Hv. auto.
  - destruct (payloadSshPorts p) as [l |]; cbn in Hn; [| set_solver]. destruct Hp as [_ Hf].
    rewrite Forall_forall in Hf. auto.
Qed.

Lemma validation_short rendered probe h es h' :
  validateRenderedFirewall rendered probe h = (Ok es, h') -> (length es <= 8)%nat /\ Forall (short 500) es.
Proof.
  unfold validateRenderedFirewall.
  set (documents := (V4, v4 rendered) :: _). set (step := fun '(family, document) => _).
  intros E. apply bind_run in E as [(verdicts & h1 & E1 & E) | (? & _ & [=])]. injection E as <- <-.
  assert (forall ds h0 vs h2, mapSequential step ds h0 = (Ok vs, h2) ->
    length vs = length ds /\ forall e, Some e ∈ vs -> short 500 e) as Hm.
  { induction ds as [| [f d] ds IH]; intros h0 vs h2; cbn [mapSequential].
    - intros [= <- <-]. split; [done | set_solver].
    - intros Ev. apply bind_run in Ev as [(b & h3 & Eb & Ev) | (? & _ & [=])].
      apply bind_run in Ev as [(bs & h4 & Ebs & Ev) | (? & _ & [=])]. injection Ev as <- <-.
      apply IH in Ebs as [Hl Hs]. split; [cbn; lia |]. intros e [He | He]%elem_of_cons; [| auto].
      unfold step in Eb. apply bind_run in Eb as [(tested & h5 & _ & Eb) | (? & _ & [=])]. injection Eb as Eb _.
      rewrite <- He in Eb. destruct (success tested); [done |]. injection Eb as <-.
      unfold short, longerThan. apply N.ltb_ge. rewrite length_take. lia. }
  destruct (Hm _ _ _ _ E1) as [Hl Hs]. split.
  - assert (length (omap (fun v : option jstring => v) verdicts) <= length verdicts)%nat as Ho.
    { clear. induction verdicts as [| [v |] vs IH]; cbn; lia. }
    assert (length documents <= 2)%nat by (subst documents; destruct (v6 rendered); [destruct (probeIpv6 probe) |]; cbn; lia). eapply Nat.le_trans; [exact Ho |]. rewrite Hl. lia.
  - apply Forall_forall. intros e (v & Hv & Hx)%list_elem_of_omap. apply Hs. by rewrite <- Hx.
Qed.

Lemma preview_reportable `{Crypto} `{JsDates} p s rendered warns refusals h res h' :
  goodPayload p -> (generation p < 2 ^ 53)%Z -> payload (theInput s) = p ->
  Forall (fun n => 1 <= n <= 65535) (inputSshPorts (theInput s)) ->
  renderFirewall (theInput s) = Ok rendered ->
  (forall rb, rollbackOf (rollbackFile (files h)) = Some rb -> goodRollback rb) ->
  previewResult p rendered (theProbe s) warns refusals h = (Ok res, h') -> reportable res.
Proof.
  intros Hg Hb Hp Hs Er Hrb E. destruct (rendered_report _ _ Er Hs) as [Hcnt Hports].
  rewrite Hp in Hcnt. destruct Hg as [Hgen (Hl & _) _ _].
  unfold previewResult in E. apply bind_run in E as [(pre & h1 & E1 & E) | (? & _ & [=])].
  apply bind_run in E as [(rb & h2 & E2 & E) | (? & _ & [=])]. injection E as <- <-.
  destruct (renderOnly_looks p rendered (theProbe s) warns refusals h) as (new & A & L).
  rewrite E1 in A. cbn [snd] in A.
  assert (files h1 = files h) as Fh.
  { rewrite (after_files _ _ _ A). apply replayed_programs. eapply Forall_impl; [exact L |]. by intros e (_ & _ & ?). }
  unfold renderOnlyResult in E1. apply bind_run in E1 as [(es & h3 & Ev & E1) | (? & _ & [=])].
  apply validation_short in Ev as [He1 He2].
  destruct (renderedForResult rendered) as [text over] eqn:Et. injection E1 as <- <-.
  constructor; cbn; [lia | lia | done | done | | | ].
  - intros r ->. unfold lastRollbackField in E2. apply bind_run in E2 as [(m & h4 & Em & E2) | (? & _ & [=])].
    apply readMarker_run in Em as [Am _]. destruct m as [m |]; [done |].
    unfold readRollbackRecord in E2. apply catch_run in E2 as [(a & E2 & Ea) | (e & hx & _ & E2)]; [| done].
    injection Ea as <-. apply bind_run in E2 as [(t & h5 & Et' & E2) | (? & _ & [=])]. injection E2 as E2 _.
    apply read_run in Et' as [_ ->]. apply Hrb. rewrite <- Fh, <- E2, (after_same _ _ _ Am). done.
  - by intros v [= <-].
  - intros d ->. unfold renderedForResult in Et. unfold tooLong in Et.
    destruct (longerThan _ (v4 rendered) || _) eqn:El; [discriminate Et |]. injection Et as <- _. cbn [fst snd].
    apply orb_false_iff in El as [El1 El2]. split; [done |]. intros d6 Hd. by rewrite Hd in El2.
Qed.

Lemma applied_reportable `{Crypto} `{JsTables} `{JsDates} p s rendered warns verify now later h res h' :
  goodPayload p -> (generation p < 2 ^ 53)%Z -> payload (theInput s) = p ->
  Forall (fun n => 1 <= n <= 65535) (inputSshPorts (theInput s)) ->
  renderFirewall (theInput s) = Ok rendered -> ordinary (now + 120000) ->
  applyAndConfirm p s rendered warns verify now later h = (Ok res, h') -> reportable res.
Proof.
  intros Hg Hb Hp Hs Er Ht E. destruct (rendered_report _ _ Er Hs) as [Hcnt Hports].
  rewrite Hp in Hcnt. destruct Hg as [Hgen (Hl & _) _ _].
  unfold applyAndConfirm in E. apply bind_run in E as [(o & h1 & Ea & E) | (? & _ & [=])].
  apply bind_run in E as [(c & h2 & Es & E) | (? & _ & [=])]. injection E as <- <-.
  constructor; cbn; [lia | lia | done | | done | done | done].
  intros c' [= <-]. apply applied_arms in Ea. unfold selfConfirm in Es. run_inv. cbn [confirmDeadlineAt windowSeconds].
  rewrite Ea. cbn [armedDeadline armedWindow]. unfold FIREWALL_CONFIRM_WINDOW_SECONDS. split; [| lia].
  rewrite parse_toISOString by done. by eexists.
Qed.


(** ** Examples *)

Definition blockSmtp : FirewallRule := {|
  id := "smtp"; scope := HostScope; action := ActDrop; proto := Tcp; ports := Some ("25" : jstring);
  sources := ["any"]; destinations := None; origin := OriginUser; comment := Some ("no mail" : jstring)
|}.
Definition managedPayload : FirewallReconcilePayload := {|
  generation := 9; mode := Managed; inputDropsByDefault := false; mirrorsIpv6 := false;
  rules := [blockSmtp]; controlPlane := Some [8443]; payloadSshPorts := Some [2222]
|}.
Definition observedPayload : FirewallReconcilePayload := {|
  generation := 9; mode := Observe; inputDropsByDefault := false; mirrorsIpv6 := false;
  rules := [blockSmtp]; controlPlane := None; payloadSshPorts := None
|}.
(** iptables, ip6tables, sshd and Docker's chain; then all well. *)
Definition surveyed : list program_end :=
  [ok "iptables v1.8.11 (nf_tables)"; ok []; ok (("port 22" : jstring) ++ 10 :: ("port 2200" : jstring)); ok []].
Definition liveHost : host := bareHost [] (surveyed ++ repeat (ok []) 8).

#[global] Instance toyCrypto_bytes : @Sha256Bytes toyCrypto.
Proof.
  intros x. cbn [sha256 toyCrypto]. split.
  - rewrite length_take, length_app, repeat_length. lia.
  - apply Forall_take, Forall_app. split.
    + apply Forall_map, Forall_forall. intros c _. by apply N.mod_lt.
    + apply Forall_forall. intros c Hc%list_elem_of_In%repeat_spec. by subst.
Qed.

Abbreviation reconcileAt := (@handleFirewallReconcile toyCrypto integerTables noDates).

(** The outcome of a run that ends well. *)
Lemma run_ok {A} (m : hostM A) h :
  (match (m h).1 with Ok _ => true | Throw _ => false end) = true -> exists a h', m h = (Ok a, h').
Proof. destruct (m h) as [[a | e] h']; [eauto | done]. Qed.

Lemma observe_changes_nothing_witness :
  mode observedPayload = Observe /\
  files (reconcileAt observedPayload NoClient march march liveHost).2 = emptyFiles.
Proof.
  split; [reflexivity |].
  destruct (reconcileAt observedPayload NoClient march march liveHost) as [r h'] eqn:E.
  destruct (@observe_changes_nothing toyCrypto integerTables noDates observedPayload NoClient march march liveHost r h'
    (or_introl eq_refl) E) as [F _]. exact F.
Defined.

Lemma reconcile_keeps_ssh_open_witness :
  exists looked acted,
    after liveHost (looked ++ acted) (reconcileAt managedPayload NoClient march march liveHost).2 /\
    Forall (fun e => loads e = true ->
      keepsOpen exactly managedPayload (mustStayOpen managedPayload looked) e) acted /\
    existsb loads (looked ++ acted) = true.
Proof.
  destruct (reconcileAt managedPayload NoClient march march liveHost) as [r h'] eqn:E.
  destruct (@reconcile_keeps_ssh_open jstring exactly toyCrypto integerTables noDates managedPayload NoClient march march
    liveHost r h' E) as (looked & acted & A & _ & K).
  exists looked, acted. split; [exact A |]. split; [exact K |].
  assert (existsb loads (trace (reconcileAt managedPayload NoClient march march liveHost).2) = true) as Hb
    by (vm_compute; reflexivity).
  rewrite E in Hb. cbn [snd] in Hb. rewrite (after_trace _ _ _ A) in Hb. exact Hb.
Defined.



(** ** Where the parts disagree *)

(** What [sshd -T] answers an unprivileged caller, as [run.ts] describes it:
    exit 0, nothing but this line on stderr. *)
Definition unprivilegedSshd : program_end :=
  Exited true 0 [] "sshd: no hostkeys available -- exiting.".

(** That answer is never retried under [sudo]: the exit code makes it a success,
    so the ports stay undetected, whatever the next program would have said. *)
Theorem unprivileged_sshd_is_not_retried h rest :
  answers h = unprivilegedSshd :: rest ->
  exists w r h', readSshdEffectivePorts h = (Ok {| detectedPorts := []; sshdWarning := Some w |}, h') /\
    answers h' = rest /\ trace h' = trace h ++ [Spawned ["sshd"; "-T"] None r].
Proof.
  intros Ea. destruct h as [fs ft an su tr]. cbn in Ea. subst an.
  do 3 eexists. split; [vm_compute; reflexivity |]. done.
Qed.

(** The record the guard writes when it could not read the marker's digest. *)
Definition unknownRollback : jstring :=
  @JSON_stringify integerTables (rollbackJson
    {| rbDigest := "unknown"; rbAt := "2026-03-01T00:00:00Z"; rbRestored := Opened |}).

(** That record reaches the result as [lastRollback], and the result parser then
    refuses the whole result. *)
Theorem unknown_rollback_breaks_result (dates : JsDates) :
  let h := Host (Files None None None None None (Some unknownRollback)) [] (surveyed ++ repeat (ok []) 8)
             quietSudo [] in
  exists res e,
    (@handleFirewallReconcile toyCrypto integerTables dates observedPayload NoClient march march h).1 = Ok res /\
    @parseFirewallReconcileResult dates (Some (resultJson res)) = Throw e.
Proof.
  intros h.
  assert (match (@handleFirewallReconcile toyCrypto integerTables dates observedPayload NoClient march march h).1 with
    | Ok res => match @parseFirewallReconcileResult dates (Some (resultJson res)) with Throw _ => true | Ok _ => false end
    | Throw _ => false end = true) as Hb by (vm_compute; reflexivity).
  destruct (@handleFirewallReconcile toyCrypto integerTables dates observedPayload NoClient march march h) as [[res | e] h'];
    [| discriminate Hb]. cbn [fst] in *.
  destruct (@parseFirewallReconcileResult dates (Some (resultJson res))) as [| e] eqn:Ep; [discriminate Hb |].
  exists res, e. split; [reflexivity | exact Ep].
Qed.
