(* ===== verification/LogRedact.v ===== *)
(** * Redaction ([logs/redactor.ts], [util/redact-url-secrets.ts])

    Command output and error summaries are scrubbed of the plaintexts the
    daemon decrypted, and of what URLs carry beside host and path.  The caches
    of derived encodings only save work and are left out; the process-wide
    registry is a value passed in and out. *)

From stdpp Require Import list sorting.
From S2P Require Import Prelude Text Json JsonPrint Base64 GateInspect FwRender Log.

#[local] Open Scope N_scope.

(** ** [String.replaceAll] with a text *)

(** [skip] counts the units of the current match still to be passed over. *)
Fixpoint replaceFrom (skip : nat) (p r s : jstring) : jstring :=
  match s with
  | [] => []
  | c :: s' =>
      match skip with
      | S k => replaceFrom k p r s'
      | O => if startsWith p s then r ++ replaceFrom (length p - 1) p r s' else c :: replaceFrom 0 p r s'
      end
  end.
(** For a [p] that is not empty. *)
Definition replaceText (p r s : jstring) : jstring := replaceFrom 0 p r s.

(** ** Deny-sets *)

Definition REDACTED : jstring := "***".
Definition MIN_ENCODED_SECRET_LENGTH : nat := 8.
Definition MIN_SECRET_LENGTH : nat := 2.

Definition hexOf (value : jstring) : jstring := encodeHex (encode_text value).
Definition base64Of (value : jstring) : jstring := btoa (encode_text value).
Definition unpadded (s : jstring) : jstring := filter (fun c => c <> 61) s.
(** [JSON.stringify(secret).slice(1, -1)] *)
Definition jsonBody (secret : jstring) : jstring := quoteUnits secret.

(** Nothing is the [URIError] of [encodeURIComponent]. *)
Definition deriveEncodings (secret : jstring) : option (list jstring) :=
  let b64 := base64Of secret in
  let b64url := replaceAll 47 95 (replaceAll 43 45 b64) in
  url ← encodeURIComponent secret;
  let hex := hexOf secret in
  Some (filter (fun c => c <> secret /\ (MIN_ENCODED_SECRET_LENGTH <= length c)%nat)
    [b64; unpadded b64; b64url; unpadded b64url; url; replaceText "%20" "+" url; jsonBody secret;
     hex; map asciiUpperUnit hex]).

Definition encodingsOf (secret : jstring) : option (list jstring) :=
  if decide (length secret < MIN_ENCODED_SECRET_LENGTH)%nat then Some [] else deriveEncodings secret.

(** Longer texts first, ties by code unit. *)
Definition longerFirst (a b : jstring) : Prop :=
  (length b < length a)%nat \/ (length a = length b /\ leUnits a b = true).
#[global] Instance longerFirst_dec a b : Decision (longerFirst a b).
Proof. unfold longerFirst. apply _. Defined.
Definition longestFirst (l : list jstring) : list jstring := merge_sort longerFirst l.

Fixpoint withEncodings (plaintexts : list jstring) : option (list jstring) :=
  match plaintexts with
  | [] => Some []
  | secret :: rest =>
      match secret with
      | [] => withEncodings rest
      | _ => encoded ← encodingsOf secret; later ← withEncodings rest; Some (secret :: encoded ++ later)
      end
  end.
Definition expandedDenySet (plaintexts : list jstring) : option (list jstring) :=
  all ← withEncodings plaintexts; Some (longestFirst (distinct all)).

Definition redactSecretValues (text : jstring) (plaintexts : list jstring) : option jstring :=
  secrets ← expandedDenySet plaintexts;
  Some (foldl (fun out secret => replaceText secret REDACTED out) text secrets).

(** [value.split(/\r?\n/)]: all but the last piece lose a final CR. *)
Fixpoint stripReturns (pieces : list jstring) : list jstring :=
  match pieces with
  | [] | [_] => pieces
  | p :: rest =>
      (match last p with Some 13 => take (length p - 1) p | _ => p end) :: stripReturns rest
  end.
Definition linesOf (value : jstring) : list jstring := stripReturns (split 10 value).

Definition addDenyCandidate (into : list jstring) (value : jstring) : list jstring :=
  let trimmed := trim value in
  if decide (length trimmed < MIN_SECRET_LENGTH)%nat then into
  else let into := setAdd into value in
       if decide (trimmed = value) then into else setAdd into trimmed.

(** A value that is not a string is passed over; a value without a line break is
    its only line. *)
Definition addDenyValue (into : list jstring) (value : option jstring) : list jstring :=
  match value with
  | None => into
  | Some v =>
      let into := addDenyCandidate into v in
      if hasChar 10 v then foldl addDenyCandidate into (linesOf v) else into
  end.
Definition normalizeDenySet (values : list (option jstring)) : list jstring :=
  longestFirst (foldl addDenyValue [] values).

Definition redactPlaintexts (text : jstring) (plaintexts : list (option jstring)) : option jstring :=
  redactSecretValues text (normalizeDenySet plaintexts).

Definition createTranscriptRedactor (secrets : list jstring) (line : jstring) : option jstring :=
  stripLogInjection <$> redactSecretValues line (normalizeDenySet (Some <$> secrets)).

(** The growing deny-set of a redactor, the process-wide one included. *)
Definition addSecrets (denySet : list jstring) (values : list (option jstring)) : list jstring :=
  let merged := normalizeDenySet ((Some <$> denySet) ++ values) in
  if decide (length merged = length denySet) then denySet else merged.
Definition rememberSecretPlaintexts (shared : list jstring) (values : list (option jstring)) : list jstring :=
  addSecrets shared values.

Definition redactCommandSummary (shared : list jstring) (text : jstring) (locals : list jstring) : option jstring :=
  out ← redactSecretValues text locals; redactSecretValues out shared.

(** ** URLs *)

(** A unit of the URL pattern's body. *)
Definition is_url_unit (c : N) : bool :=
  negb (is_js_space c || memb c [34; 39; 60; 62; 96; 41; 93]).

Definition lowerAscii (c : N) : N := if is_upper c then c + 32 else c.
Definition saysNoCase (word s : jstring) : bool := startsWith word (map lowerAscii s).

(** The length of [http://] or [https://] (in any case) at the start. *)
Definition schemeLength (s : jstring) : option nat :=
  if saysNoCase "http://" s then Some 7%nat
  else if saysNoCase "https://" s then Some 8%nat
  else None.

(** The last units of the body are [?[redacted] and a closing bracket follows. *)
Definition markerFollows (body rest : jstring) : bool :=
  startsWith (rev ("?[redacted" : jstring)) (map lowerAscii (rev body)) && startsWith [93] rest.

(** A match of [URL_WITH_SECRETS] at the start of [s], past a word boundary. *)
Definition urlMatch (s : jstring) : option (jstring * jstring) :=
  n ← schemeLength s;
  let scheme := take n s in
  let body := takeWhile is_url_unit (drop n s) in
  let rest := dropWhile is_url_unit (drop n s) in
  match body with
  | [] => None
  | _ => Some (if markerFollows body rest then (scheme ++ body ++ [93], drop 1 rest) else (scheme ++ body, rest))
  end.

Definition is_cut (c : N) : bool := (c =? 63) || (c =? 35).

Definition hostStart (rest : jstring) : nat :=
  let authority := takeWhile (fun c => negb (c =? 47)) rest in
  match lastIndexOf 64 authority with
  | None => 0%nat
  | Some at_ =>
      let before := take at_ authority in
      let head := takeWhile (fun c => negb (is_cut c)) before in
      if decide (head = before) then S at_
      else if hasChar 58 head then S at_
      else match lastIndexOf 64 head with Some i => S i | None => 0%nat end
  end.

Definition MARKER : jstring := "?[redacted]".

(** The scheme ends at the first [//]. *)
Fixpoint schemeEnd (s : jstring) : nat :=
  match s with
  | 47 :: 47 :: _ => 2%nat
  | _ :: s' => S (schemeEnd s')
  | [] => 0%nat
  end.
Definition redactTarget (target : jstring) : jstring :=
  if existsb is_cut target then takeWhile (fun c => negb (is_cut c)) target ++ MARKER else target.
Definition redactOne (m : jstring) : jstring :=
  let n := schemeEnd m in
  let rest := drop n m in
  take n m ++ redactTarget (drop (hostStart rest) rest).

(** [afterWord]: the unit before is a word unit, so no URL begins here. *)
Fixpoint redactFrom (fuel : nat) (afterWord : bool) (s : jstring) : jstring :=
  match fuel, s with
  | S f, c :: s' =>
      match (if afterWord then None else urlMatch s) with
      | Some (m, rest) => redactOne m ++ redactFrom f (match last m with Some d => is_word d | None => false end) rest
      | None => c :: redactFrom f (is_word c) s'
      end
  | _, _ => []
  end.
Definition redactUrlSecrets (text : jstring) : jstring := redactFrom (length text) false text.

(** ** What a replacement leaves *)

(** Replacing [p], piece by piece. *)
Inductive replaced (p r : jstring) : jstring -> jstring -> Prop :=
| replaced_nil : replaced p r [] []
| replaced_hit s out : replaced p r s out -> replaced p r (p ++ s) (r ++ out)
| replaced_skip c s out :
    startsWith p (c :: s) = false -> replaced p r s out -> replaced p r (c :: s) (c :: out).

Lemma replaceFrom_skip p r k s : replaceFrom k p r s = replaceFrom 0 p r (drop k s).
Proof. revert s. induction k as [| k IH]; intros [| c s]; try done. apply IH. Qed.

Lemma replaceText_replaced p r s : p <> [] -> replaced p r s (replaceText p r s).
Proof.
  intros Hp. unfold replaceText. induction s as [s IH] using (induction_ltof1 _ (@length N)). unfold ltof in IH.
  destruct s as [| c s]; [constructor |]. cbn [replaceFrom]. destruct (startsWith p (c :: s)) eqn:E.
  - apply startsWith_spec in E as [t Et]. destruct p as [| d p]; [done |]. cbn in Et. simplify_eq.
    replace (length (d :: p) - 1)%nat with (length p) by (cbn; lia). rewrite replaceFrom_skip, drop_app_length.
    change (d :: p ++ t) with ((d :: p) ++ t). apply replaced_hit, IH. cbn. rewrite length_app. lia.
  - constructor; [done |]. apply IH. cbn. lia.
Qed.

(** A text without the mark. *)
Definition markFree (d : jstring) : Prop := d <> [] /\ 42 ∉ d.

Section marks.
Context (p : jstring).

Lemma starts_before d s out : 42 ∉ d -> replaced p REDACTED s out -> startsWith d out = true -> startsWith d s = true.
Proof.
  intros Hd Hr. revert d Hd. induction Hr as [| s out _ IH | c s out _ _ IH]; intros d Hd.
  - done.
  - destruct d as [| x d]; [intros _; apply startsWith_nil |]. intros Hs. exfalso. apply Hd.
    apply startsWith_spec in Hs as [t Ht]. cbn in Ht. simplify_eq. by left.
  - destruct d as [| x d]; [done |]. apply not_elem_of_cons in Hd as [_ Hd]. cbn.
    destruct (x =? c); [cbn; by apply IH | done].
Qed.

Lemma includes_stars d out : markFree d -> includes d (REDACTED ++ out) = true -> includes d out = true.
Proof.
  intros [Hne Hd]. destruct d as [| x d]; [done |].
  assert (x <> 42) as Hx by (apply not_elem_of_cons in Hd; naive_solver). clear Hne.
  assert (forall t, startsWith (x :: d) (42 :: t) = false) as Hs.
  { intros t. cbn. destruct (N.eqb_spec x 42); [done | reflexivity]. }
  change (REDACTED ++ out) with (42 :: 42 :: 42 :: out). cbn [includes]. by rewrite !Hs.
Qed.

(** A replacement brings in no text without the mark. *)
Lemma includes_before d s out : markFree d -> replaced p REDACTED s out -> includes d out = true -> includes d s = true.
Proof.
  intros Hd Hr. induction Hr as [| s out _ IH | c s out Hc Hr IH].
  - done.
  - intros Hi%includes_stars; [| done]. apply IH in Hi. apply includes_spec in Hi as (a & b & ->).
    apply includes_spec. exists (p ++ a), b. by rewrite app_assoc.
  - cbn [includes]. rewrite !orb_true_iff. intros [Hs | Hi]; [| right; auto]. left.
    apply (starts_before d (c :: s) (c :: out)); [apply Hd | by constructor | done].
Qed.

(** ... and leaves none of what it replaced. *)
Lemma includes_gone s out : markFree p -> replaced p REDACTED s out -> includes p out = false.
Proof.
  intros Hp Hr. apply not_true_iff_false. induction Hr as [| s out _ IH | c s out Hc Hr IH]; intros Hi.
  - destruct p; [by destruct Hp | done].
  - by apply includes_stars in Hi.
  - cbn [includes] in Hi. apply orb_true_iff in Hi as [Hs | Hi]; [| done].
    apply (starts_before p (c :: s) (c :: out)) in Hs; [congruence | apply Hp | by constructor].
Qed.
End marks.

Lemma redact_all secrets text d :
  Forall (fun p => p <> []) secrets -> markFree d ->
  (d ∈ secrets \/ includes d text = false) ->
  includes d (foldl (fun out secret => replaceText secret REDACTED out) text secrets) = false.
Proof.
  intros Hne Hd. revert text. induction Hne as [| p secrets Hp _ IH]; intros text Hin; cbn [foldl].
  - destruct Hin as [Hin | ?]; [by inversion Hin | done].
  - pose proof (replaceText_replaced p REDACTED text Hp) as Hr. apply IH.
    destruct (decide (p = d)) as [-> | n]; [right; by eapply includes_gone |].
    destruct Hin as [Hin | Ht]; [left; set_solver |]. right. apply not_true_iff_false. intros Hi.
    eapply includes_before in Hi; [| done | exact Hr]. congruence.
Qed.

(** ** Deny-sets *)

Lemma elem_of_setAdd x y l : x ∈ setAdd l y <-> x ∈ l \/ x = y.
Proof.
  unfold setAdd, memb. case_bool_decide; [naive_solver |]. rewrite elem_of_app, list_elem_of_singleton. done.
Qed.
Lemma elem_of_distinct x l : x ∈ distinct l <-> x ∈ l.
Proof.
  unfold distinct. cut (forall acc, x ∈ foldl setAdd acc l <-> x ∈ acc \/ x ∈ l).
  - intros Hc. rewrite Hc. set_solver.
  - induction l as [| y l IH]; intros acc; cbn; [set_solver |]. rewrite IH, elem_of_setAdd. set_solver.
Qed.
Lemma elem_of_longest x l : x ∈ longestFirst l <-> x ∈ l.
Proof. unfold longestFirst. by rewrite merge_sort_Permutation. Qed.

Lemma withEncodings_elem plaintexts all d :
  withEncodings plaintexts = Some all ->
  (d ∈ all <-> exists s, s ∈ plaintexts /\ s <> [] /\ (d = s \/ exists l, encodingsOf s = Some l /\ d ∈ l)).
Proof.
  revert all. induction plaintexts as [| s rest IH]; intros all; cbn [withEncodings].
  - intros [= <-]. set_solver.
  - destruct s as [| c s]; [intros E; rewrite (IH _ E); set_solver |].
    destruct (encodingsOf (c :: s)) as [l |] eqn:El; [| done]. cbn.
    destruct (withEncodings rest) as [later |]; [| done]. cbn. intros [= <-].
    rewrite elem_of_cons, elem_of_app, (IH later) by done. setoid_rewrite elem_of_cons.
    split; [naive_solver |]. intros (x & [-> | Hx] & Hne & Hd); [| naive_solver].
    destruct Hd as [-> | (l' & El' & Hd)]; [by left |]. right. left. rewrite El in El'. by simplify_eq.
Qed.

Lemma encodings_long s l : encodingsOf s = Some l -> Forall (fun d => d <> []) l.
Proof.
  unfold encodingsOf, deriveEncodings. case_decide; [by intros [= <-] |].
  destruct (encodeURIComponent s); [| done]. cbn [mbind option_bind]. intros [= <-]. apply Forall_forall.
  intros d [[_ Hd] _]%list_elem_of_filter. intros ->. cbn in Hd. unfold MIN_ENCODED_SECRET_LENGTH in Hd. lia.
Qed.

Lemma expanded_elem plaintexts secrets d :
  expandedDenySet plaintexts = Some secrets ->
  (d ∈ secrets <-> exists s, s ∈ plaintexts /\ s <> [] /\ (d = s \/ exists l, encodingsOf s = Some l /\ d ∈ l)).
Proof.
  unfold expandedDenySet. destruct (withEncodings plaintexts) as [all |] eqn:E; [| done]. cbn. intros [= <-].
  rewrite elem_of_longest, elem_of_distinct. by apply withEncodings_elem.
Qed.

Lemma expanded_nonempty plaintexts secrets :
  expandedDenySet plaintexts = Some secrets -> Forall (fun d => d <> []) secrets.
Proof.
  intros E. apply Forall_forall. intros d Hd. apply (expanded_elem _ _ _ E) in Hd as (s & _ & Hs & [-> | (l & El & Hl)]); [done |].
  apply encodings_long in El. by eapply Forall_forall in El.
Qed.

(** A text is denied by a list: it is one of its entries or an encoding of one. *)
Definition denied (plaintexts : list jstring) (d : jstring) : Prop :=
  exists s, s ∈ plaintexts /\ s <> [] /\ (d = s \/ exists l, encodingsOf s = Some l /\ d ∈ l).

Lemma redacted_free text plaintexts out d :
  redactSecretValues text plaintexts = Some out -> markFree d ->
  (denied plaintexts d \/ includes d text = false) -> includes d out = false.
Proof.
  unfold redactSecretValues. destruct (expandedDenySet plaintexts) as [secrets |] eqn:E; [| done].
  cbn. intros [= <-] Hd Hden. apply redact_all; [by eapply expanded_nonempty | done |].
  destruct Hden as [Hden | ?]; [left | by right]. by apply (expanded_elem _ _ _ E).
Qed.

(** A candidate for the deny-set has at least two units beside white space. *)
Definition weighty (d : jstring) : Prop := (MIN_SECRET_LENGTH <= length (trim d))%nat.

Lemma addCandidate_elem into c d :
  d ∈ addDenyCandidate into c <-> d ∈ into \/ (weighty c /\ (d = c \/ d = trim c)).
Proof.
  unfold addDenyCandidate, weighty. case_decide; [split; [by left |]; intros [? | [? _]]; [done | lia] |].
  assert (MIN_SECRET_LENGTH <= length (trim c))%nat as Hw by lia.
  case_decide as E; rewrite !elem_of_setAdd; [rewrite E in *; tauto | tauto].
Qed.

Lemma addCandidates_elem l into d :
  d ∈ foldl addDenyCandidate into l <-> d ∈ into \/ exists c, c ∈ l /\ weighty c /\ (d = c \/ d = trim c).
Proof.
  revert into. induction l as [| c l IH]; intros into; cbn; [set_solver |].
  rewrite IH, addCandidate_elem. setoid_rewrite elem_of_cons. naive_solver.
Qed.

(** The texts a decrypted value is recognised by: itself and each of its lines,
    as they are and without the white space around them. *)
Definition spelled (v d : jstring) : Prop :=
  exists c, (c = v \/ (hasChar 10 v = true /\ c ∈ linesOf v)) /\ weighty c /\ (d = c \/ d = trim c).

Lemma addText_elem into v d : d ∈ addDenyValue into (Some v) <-> d ∈ into \/ spelled v d.
Proof.
  cbn [addDenyValue]. unfold spelled. destruct (hasChar 10 v) eqn:E.
  - rewrite addCandidates_elem, addCandidate_elem. split.
    + intros [[? | ?] | (c & ? & ?)]; [by left | right; exists v; tauto | right; exists c; tauto].
    + intros [? | (c & [-> | [_ ?]] & ?)]; [tauto | tauto | right; by exists c].
  - rewrite addCandidate_elem. split.
    + intros [? | ?]; [by left | right; exists v; tauto].
    + intros [? | (c & [-> | [? _]] & ?)]; [tauto | tauto | done].
Qed.
Lemma addValue_elem into v d :
  d ∈ addDenyValue into v <-> d ∈ into \/ exists w, v = Some w /\ spelled w d.
Proof. destruct v as [v |]; [rewrite addText_elem; naive_solver | cbn; naive_solver]. Qed.

Lemma normalize_elem values d :
  d ∈ normalizeDenySet values <-> exists v, Some v ∈ values /\ spelled v d.
Proof.
  unfold normalizeDenySet. rewrite elem_of_longest.
  cut (forall into, d ∈ foldl addDenyValue into values <-> d ∈ into \/ exists v, Some v ∈ values /\ spelled v d).
  { intros Hc. rewrite Hc. set_solver. }
  induction values as [| w values IH]; intros into; cbn; [set_solver |].
  rewrite IH, addValue_elem. setoid_rewrite elem_of_cons. naive_solver.
Qed.

Lemma setAdd_NoDup l x : NoDup l -> NoDup (setAdd l x).
Proof.
  intros Hl. unfold setAdd, memb. case_bool_decide as E; [done |]. apply NoDup_app. split; [done |].
  split; [set_solver |]. apply NoDup_singleton.
Qed.
Lemma addCandidate_NoDup into c : NoDup into -> NoDup (addDenyCandidate into c).
Proof. intros Hn. unfold addDenyCandidate. repeat case_decide; auto using setAdd_NoDup. Qed.
Lemma fold_NoDup {A} (f : list jstring -> A -> list jstring) l into :
  (forall into x, NoDup into -> NoDup (f into x)) -> NoDup into -> NoDup (foldl f into l).
Proof. intros Hf. revert into. induction l as [| x l IH]; cbn; auto. Qed.
Lemma normalize_NoDup values : NoDup (normalizeDenySet values).
Proof.
  unfold normalizeDenySet, longestFirst. rewrite merge_sort_Permutation. apply fold_NoDup; [| constructor].
  intros into [v |] Hn; cbn; [| done]. case_match; [apply fold_NoDup |]; auto using addCandidate_NoDup.
Qed.

(** A deny-set as this module builds them. *)
Definition normal (l : list jstring) : Prop := NoDup l /\ Forall weighty l.

Lemma trim_weighty d : weighty d -> weighty (trim d).
Proof. unfold weighty. by rewrite trim_idem. Qed.

Lemma normalize_normal values : normal (normalizeDenySet values).
Proof.
  split; [apply normalize_NoDup |]. apply Forall_forall. intros d Hd.
  apply normalize_elem in Hd as (v & _ & c & _ & Hw & [-> | ->]); [done | by apply trim_weighty].
Qed.

Lemma normalize_keeps l values d : normal l -> d ∈ l -> d ∈ normalizeDenySet ((Some <$> l) ++ values).
Proof.
  intros [_ Hw] Hd. apply normalize_elem. exists d. split; [apply elem_of_app; left; apply list_elem_of_fmap; eauto |].
  exists d. split; [by left |]. split; [by eapply Forall_forall in Hw | by left].
Qed.

(** Adding values never forgets one, and takes in the new ones. *)
Lemma addSecrets_elem l values d :
  normal l -> normal (addSecrets l values) /\
  (d ∈ l -> d ∈ addSecrets l values) /\ (forall v, Some v ∈ values -> spelled v d -> d ∈ addSecrets l values).
Proof.
  intros Hl. unfold addSecrets. case_decide as E.
  - split; [done |]. split; [done |]. intros v Hv Hs.
    assert (d ∈ normalizeDenySet ((Some <$> l) ++ values)) as Hd.
    { apply normalize_elem. exists v. split; [set_solver | done]. }
    assert (l ≡ₚ normalizeDenySet ((Some <$> l) ++ values)) as Hp; [| by rewrite Hp].
    apply submseteq_length_Permutation; [| lia]. apply NoDup_submseteq; [apply Hl |].
    intros x Hx. by apply normalize_keeps.
  - split; [apply normalize_normal |]. split; [by apply normalize_keeps |].
    intros v Hv Hs. apply normalize_elem. exists v. split; [set_solver | done].
Qed.

Lemma remembered batches shared d :
  normal shared ->
  let all := foldl rememberSecretPlaintexts shared batches in
  normal all /\ (d ∈ shared -> d ∈ all) /\
  (forall batch v, batch ∈ batches -> Some v ∈ batch -> spelled v d -> d ∈ all).
Proof.
  revert shared. induction batches as [| b batches IH]; intros shared Hn; cbn; [set_solver |].
  destruct (addSecrets_elem shared b d Hn) as (Hn' & Hk & Ha). destruct (IH _ Hn') as (Hn'' & Hk' & Ha').
  split; [done |]. split; [auto |]. intros batch v [-> | Hb]%elem_of_cons Hv Hs; eauto.
Qed.

Lemma redacted_units (P : N -> Prop) text plaintexts out :
  redactSecretValues text plaintexts = Some out -> P 42 -> Forall P text -> Forall P out.
Proof.
  unfold redactSecretValues. destruct (expandedDenySet plaintexts) as [secrets |] eqn:E; [| done]. cbn.
  intros [= <-] Hs. pose proof (expanded_nonempty _ _ E) as Hne. clear E. revert text.
  induction Hne as [| p secrets Hp _ IH]; intros text Ht; [done |]. cbn. apply IH.
  pose proof (replaceText_replaced p REDACTED text Hp) as Hr. revert Ht.
  induction Hr as [| s o _ IHr | c s o _ _ IHr]; intros Ht; [done | |].
  - apply Forall_app in Ht as [_ Ht]. apply Forall_app. split; [repeat constructor; done | auto].
  - apply Forall_cons in Ht as [? ?]. constructor; auto.
Qed.



(** A terminal escape inside a secret hides it from the deny-set, and stripping
    the escape afterwards puts the secret together again. *)
Theorem escape_uncovers_secret :
  createTranscriptRedactor ["hunter22" : jstring] (("pw=hunt" : jstring) ++ [27; 91; 48; 109] ++ ("er22" : jstring))
  = Some ("pw=hunter22" : jstring).
Proof. vm_compute. reflexivity. Qed.

(** ** Redacting URLs twice *)

Section urls.

Lemma schemeLength_inv s n :
  schemeLength s = Some n ->
  (n = 7%nat /\ map lowerAscii (take n s) = "http://") \/ (n = 8%nat /\ map lowerAscii (take n s) = "https://").
Proof.
  unfold schemeLength, saysNoCase. intros E.
  assert (forall w : jstring, startsWith w (map lowerAscii s) = true -> map lowerAscii (take (length w) s) = w) as Hw.
  { intros w [t Ht]%startsWith_spec. rewrite <- firstn_map, Ht. by rewrite take_app_length. }
  destruct (startsWith "http://" _) eqn:E1; [left; simplify_eq; split; [done | by apply (Hw "http://")] |].
  destruct (startsWith "https://" _) eqn:E2; [right; simplify_eq; split; [done | by apply (Hw "https://")] | done].
Qed.

Lemma urlMatch_inv s m rest :
  urlMatch s = Some (m, rest) ->
  exists n body, schemeLength s = Some n /\ s = take n s ++ body ++ dropWhile is_url_unit (drop n s) /\
    body = takeWhile is_url_unit (drop n s) /\ body <> [] /\
    let tail := dropWhile is_url_unit (drop n s) in
    ((m = take n s ++ body ++ [93] /\ tail = 93 :: rest /\ markerFollows body tail = true) \/
     (m = take n s ++ body /\ rest = tail /\ markerFollows body tail = false)).
Proof.
  unfold urlMatch. destruct (schemeLength s) as [n |] eqn:En; [| done]. cbn [mbind option_bind].
  destruct (takeWhile is_url_unit (drop n s)) as [| b bs] eqn:Eb; [done |]. intros Hm. exists n, (b :: bs). split; [done |].
  split. { by rewrite <- Eb, takeWhile_dropWhile, take_drop. }
  split; [done |]. split; [done |]. cbn zeta. destruct (markerFollows (b :: bs) _) eqn:Ek.
  - left. pose proof Ek as Ek'. unfold markerFollows in Ek'. apply andb_true_iff in Ek' as [_ Ek'].
    apply startsWith_spec in Ek' as [t Et]. rewrite Et in *. cbn in Hm. simplify_eq. done.
  - right. by simplify_eq.
Qed.

Lemma match_shorter s m rest : urlMatch s = Some (m, rest) -> (length rest < length s)%nat.
Proof.
  intros (n & body & Hn & Hs & _ & Hb & Hc)%urlMatch_inv. cbn zeta in Hc. rewrite Hs, !length_app.
  destruct body; [done |]. cbn. destruct Hc as [(_ & -> & _) | (_ & -> & _)]; cbn; lia.
Qed.

(** Enough turns. *)
Definition scan (aw : bool) (s : jstring) : jstring := redactFrom (length s) aw s.

Lemma scan_fuel n aw s : (length s <= n)%nat -> redactFrom n aw s = scan aw s.
Proof.
  unfold scan. revert n aw. induction s as [s IH] using (induction_ltof1 _ (@length N)). unfold ltof in IH.
  intros n aw Hn. destruct s as [| c s]; [by destruct n |]. destruct n as [| n]; [cbn in Hn; lia |]. cbn [redactFrom length].
  destruct (if aw then None else urlMatch (c :: s)) as [[m rest] |] eqn:E.
  - assert (length rest <= length s)%nat as Hr.
    { destruct aw; [done |]. apply match_shorter in E. cbn in E. lia. }
    cbn in Hn. f_equal. rewrite (IH rest) by (cbn; lia). symmetry. apply IH; cbn; lia.
  - cbn in Hn. f_equal. rewrite (IH s) by (cbn; lia). symmetry. apply IH; cbn; lia.
Qed.

Lemma scan_step aw c s :
  scan aw (c :: s) =
  match (if aw then None else urlMatch (c :: s)) with
  | Some (m, rest) => redactOne m ++ scan (match last m with Some d => is_word d | None => false end) rest
  | None => c :: scan (is_word c) s
  end.
Proof.
  unfold scan at 1. cbn [redactFrom length].
  destruct (if aw then None else urlMatch (c :: s)) as [[m rest] |] eqn:E; [| done].
  f_equal. apply scan_fuel. destruct aw; [done |]. apply match_shorter in E. cbn in E. lia.
Qed.

(** *** The scheme *)

Definition is_scheme (w : jstring) : Prop := map lowerAscii w = "http://" \/ map lowerAscii w = "https://".

Lemma lower_fixed c d : lowerAscii c = d -> is_lower d = false -> c = d.
Proof.
  unfold lowerAscii, is_upper, is_lower, in_range. destruct ((65 <=? c) && (c <=? 90)) eqn:E; [| done].
  intros <-. apply andb_true_iff in E as [E1%N.leb_le E2%N.leb_le]. intros Hl. exfalso.
  apply andb_false_iff in Hl as [Hl%N.leb_gt | Hl%N.leb_gt]; lia.
Qed.

(** The units of a scheme: an [h], units that are neither [h] nor a slash, two
    slashes. *)
Lemma scheme_units w :
  is_scheme w -> exists h mid, w = h :: mid ++ [47; 47] /\ lowerAscii h = 104 /\
    Forall (fun c => lowerAscii c <> 104 /\ c <> 47) mid.
Proof.
  assert (forall c d, lowerAscii c = d -> d <> 47 -> c <> 47) as Hn by (intros c d <- Hd ->; by apply Hd).
  intros [E | E].
  - destruct w as [| a [| b [| c [| d [| f [| g [| k [| ]]]]]]]]; try discriminate E. cbn in E. injection E as Ea Eb Ec Ed Ef Eg Ek.
    apply lower_fixed in Eg as ->; [| done]. apply lower_fixed in Ek as ->; [| done].
    exists a, [b; c; d; f]. split; [done |]. split; [done |].
    repeat constructor; try congruence; by eapply Hn.
  - destruct w as [| a [| b [| c [| d [| e [| f [| g [| k [| ]]]]]]]]]; try discriminate E. cbn in E. injection E as Ea Eb Ec Ed Ee Ef Eg Ek.
    apply lower_fixed in Eg as ->; [| done]. apply lower_fixed in Ek as ->; [| done].
    exists a, [b; c; d; e; f]. split; [done |]. split; [done |].
    repeat constructor; try congruence; by eapply Hn.
Qed.

Lemma schemeEnd_skip mid x : Forall (fun c => c <> 47) mid -> schemeEnd (mid ++ 47 :: 47 :: x) = (length mid + 2)%nat.
Proof.
  induction 1 as [| c mid Hc _ IH]; [done |]. cbn [app length Nat.add]. rewrite <- IH.
  destruct c as [| q]; [done |]. cbn [schemeEnd].
  repeat (destruct q as [q | q |]; try done).
Qed.

Lemma redactOne_scheme w x : is_scheme w -> redactOne (w ++ x) = w ++ redactTarget (drop (hostStart x) x).
Proof.
  intros (h & mid & -> & Hh & Hm)%scheme_units. unfold redactOne.
  assert (schemeEnd ((h :: mid ++ [47; 47]) ++ x) = length (h :: mid ++ [47; 47])) as ->.
  { replace ((h :: mid ++ [47; 47]) ++ x) with ((h :: mid) ++ 47 :: 47 :: x) by (cbn; by rewrite <- app_assoc).
    rewrite schemeEnd_skip; [cbn; rewrite length_app; cbn; lia |].
    constructor; [intros ->; discriminate Hh | eapply Forall_impl; [exact Hm | naive_solver]]. }
  by rewrite take_app_length, drop_app_length.
Qed.

Lemma schemeLength_scheme s n : schemeLength s = Some n -> is_scheme (take n s) /\ s = take n s ++ drop n s /\ length (take n s) = n.
Proof.
  intros E. apply schemeLength_inv in E as [[-> E] | [-> E]].
  all: split; [by (left + right) |]; split; [by rewrite take_drop |].
  all: apply (f_equal length) in E; by rewrite length_map in E.
Qed.

Lemma schemeLength_app w x : is_scheme w -> schemeLength (w ++ x) = Some (length w).
Proof.
  intros [E | E]; pose proof (f_equal length E) as El; rewrite length_map in El.
  - unfold schemeLength, saysNoCase. by rewrite map_app, E, startsWith_app, El.
  - unfold schemeLength, saysNoCase. rewrite map_app, E, El.
    assert (startsWith "http://" (("https://" : jstring) ++ map lowerAscii x) = false) as -> by reflexivity.
    by rewrite startsWith_app.
Qed.

(** No URL begins where the scheme does not. *)
Lemma no_match c s : lowerAscii c <> 104 -> urlMatch (c :: s) = None.
Proof.
  intros Hc. unfold urlMatch. destruct (schemeLength (c :: s)) as [n |] eqn:E; [| done].
  apply schemeLength_scheme in E as ((h & mid & Ew & Hh & _)%scheme_units & Es & _). rewrite Ew in Es. by simplify_eq/=.
Qed.

Lemma scan_copies aw c s : lowerAscii c <> 104 -> scan aw (c :: s) = c :: scan (is_word c) s.
Proof. intros Hc. rewrite scan_step, no_match by done. by destruct aw. Qed.

Lemma scan_head aw c s : exists out, scan aw (c :: s) = c :: out.
Proof.
  rewrite scan_step. destruct (if aw then None else urlMatch (c :: s)) as [[m rest] |] eqn:E; [| eauto].
  destruct aw; [done |]. apply urlMatch_inv in E as (n & body & Hn & Hs & _ & _ & Hc).
  apply schemeLength_scheme in Hn as [Hw _].
  assert (exists x, m = take n (c :: s) ++ x) as [x ->] by (destruct Hc as [(-> & _) | (-> & _)]; eauto).
  rewrite redactOne_scheme by done. destruct (scheme_units _ Hw) as (h & mid & Ew & _). rewrite Ew in Hs |- *.
  cbn in Hs. simplify_eq. cbn. eauto.
Qed.
Lemma scan_nil aw : scan aw [] = [].
Proof. done. Qed.

(** Units that begin no URL come from the text itself. *)
Lemma scan_prefix w aw s y :
  Forall (fun c => lowerAscii c <> 104) w -> scan aw s = w ++ y -> exists aw' s', s = w ++ s' /\ y = scan aw' s'.
Proof.
  intros Hw. revert aw s. induction Hw as [| c w Hc _ IH]; intros aw s Hs; [by exists aw, s |].
  destruct s as [| d s]; [done |]. destruct (scan_head aw d s) as [out Eo]. rewrite Eo in Hs. cbn in Hs.
  injection Hs as -> Hs. rewrite (scan_copies aw c s) in Eo by done. injection Eo as Eo. rewrite <- Eo in Hs.
  destruct (IH _ _ Hs) as (aw' & s' & -> & ->). by exists aw', s'.
Qed.

(** *** The host *)

Definition stops (f : N -> bool) (s : jstring) : Prop := match s with [] => True | c :: _ => f c = false end.

Lemma takeWhile_stop f a b :
  Forall (fun c => f c = true) a -> stops f b -> takeWhile f (a ++ b) = a /\ dropWhile f (a ++ b) = b.
Proof.
  intros Ha Hb. induction Ha as [| c a Hc _ [IH1 IH2]]; cbn.
  - destruct b as [| c b]; [done |]. cbn in Hb |- *. by rewrite Hb.
  - by rewrite Hc, IH1, IH2.
Qed.
Lemma takeWhile_mono f g (s : jstring) x :
  (forall c, f c = true -> g c = true) -> x ∈ takeWhile f s -> x ∈ takeWhile g s.
Proof.
  intros Hfg. induction s as [| c s IH]; cbn; [done |]. destruct (f c) eqn:E; [| by inversion 1].
  rewrite (Hfg c E). rewrite !elem_of_cons. naive_solver.
Qed.
Lemma dropWhile_stops' f (s : jstring) : stops f (dropWhile f s).
Proof. unfold stops. destruct (dropWhile f s) eqn:E; [done |]. by eapply dropWhile_head. Qed.
Lemma lastIndexOf_notin c s : lastIndexOf c s = None -> c ∉ s.
Proof.
  induction s as [| d s IH]; cbn [lastIndexOf]; [set_solver |]. destruct (lastIndexOf c s); [done |].
  destruct (N.eqb_spec d c); [done |]. intros _. apply not_elem_of_cons. split; [congruence | auto].
Qed.

Definition beforeCut (c : N) : bool := negb (is_cut c).
Definition hostUnit (c : N) : bool := negb (c =? 47) && beforeCut c.

Lemma host_without_at rest : 64 ∉ takeWhile hostUnit (drop (hostStart rest) rest).
Proof.
  unfold hostStart. set (slash := fun c => negb (c =? 47)).
  pose proof (takeWhile_dropWhile slash rest) as Hrest.
  assert (forall x s, x ∈ takeWhile hostUnit s -> x ∈ takeWhile slash s) as Hsl.
  { intros x s. apply takeWhile_mono. intros c. unfold hostUnit. by intros [? _]%andb_true_iff. }
  assert (forall x s, x ∈ takeWhile hostUnit s -> x ∈ takeWhile beforeCut s) as Hcut.
  { intros x s. apply takeWhile_mono. intros c. unfold hostUnit. by intros [_ ?]%andb_true_iff. }
  destruct (lastIndexOf 64 (takeWhile slash rest)) as [i |] eqn:Ei.
  2: { cbn [drop]. intros Hin%Hsl. by apply lastIndexOf_notin in Ei. }
  pose proof (takeWhile_all slash rest) as Hall. pose proof (dropWhile_stops' slash rest) as Hstop.
  apply lastIndexOf_inv in Ei as [Ea Hno]. set (auth := takeWhile slash rest) in *. set (more := dropWhile slash rest) in *.
  assert (64 ∉ takeWhile hostUnit (drop (S i) rest)) as Hafter.
  { intros Hin%Hsl. rewrite <- Hrest in Hin.
    assert (drop (S i) (auth ++ more) = drop (S i) auth ++ more) as E.
    { apply drop_app_le. apply (f_equal length) in Ea. rewrite length_app in Ea. cbn in Ea. rewrite length_take in Ea. lia. }
    rewrite E in Hin. destruct (takeWhile_stop slash (drop (S i) auth) more) as [E' _]; [by apply Forall_drop | done |].
    rewrite E' in Hin. done. }
  set (before := take i auth) in *. set (head := takeWhile (fun c => negb (is_cut c)) before) in *.
  case_decide as Eh; [done |]. destruct (hasChar 58 head); [done |].
  assert (exists c t, rest = head ++ c :: t /\ is_cut c = true) as (c & t & Er & Hc).
  { pose proof (takeWhile_dropWhile beforeCut before) as Hb. pose proof (dropWhile_stops' beforeCut before) as Hs.
    change (takeWhile beforeCut before) with head in Hb. destruct (dropWhile beforeCut before) as [| c t] eqn:Ed.
    - rewrite app_nil_r in Hb. done.
    - exists c, (t ++ 64 :: drop (S i) auth ++ more). split; [| by apply negb_false_iff in Hs].
      transitivity (auth ++ more); [done |]. rewrite Ea at 1. rewrite <- Hb. by rewrite <- !app_assoc. }
  assert (Forall (fun c => beforeCut c = true) head) as Hh by apply (takeWhile_all beforeCut).
  destruct (lastIndexOf 64 head) as [j |] eqn:Ej.
  - apply lastIndexOf_inv in Ej as [Ej Hj]. intros Hin%Hcut. rewrite Er in Hin.
    rewrite drop_app_le in Hin by (apply (f_equal length) in Ej; rewrite length_app in Ej; cbn in Ej; rewrite length_take in Ej; lia).
    destruct (takeWhile_stop beforeCut (drop (S j) head) (c :: t)) as [E' _]; [by apply Forall_drop | cbn; unfold beforeCut; by rewrite Hc |].
    rewrite E' in Hin. done.
  - rewrite drop_0. intros Hin%Hcut. rewrite Er in Hin.
    destruct (takeWhile_stop beforeCut head (c :: t)) as [E' _]; [done | cbn; unfold beforeCut; by rewrite Hc |].
    rewrite E' in Hin. by apply lastIndexOf_notin in Ej.
Qed.

Lemma hostStart_at (rest : list N) : hostStart rest = 0%nat \/ exists i, hostStart rest = S i /\ rest !! i = Some 64.
Proof.
  unfold hostStart. set (auth := takeWhile _ rest).
  assert (forall (l k : list N) i, l `prefix_of` k -> lastIndexOf 64 l = Some i -> k !! i = Some 64) as Hl.
  { intros l k i [x ->] Hi. pose proof (lastIndexOf_le _ _ _ Hi) as Hlt. apply lastIndexOf_inv in Hi as [E _].
    rewrite lookup_app_l by done. rewrite E. rewrite lookup_app_r by (rewrite length_take; lia).
    rewrite length_take, Nat.min_l, Nat.sub_diag by lia. done. }
  assert (auth `prefix_of` rest) as Ha by (exists (dropWhile (fun c => negb (c =? 47)) rest); subst auth; by rewrite takeWhile_dropWhile).
  destruct (lastIndexOf 64 auth) as [i |] eqn:Ei; [| by left].
  assert (rest !! i = Some 64) as Hi by (by eapply Hl).
  repeat case_match; try (by right; eauto); try by left.
  right. eexists. split; [done |]. eapply Hl; [| eassumption].
  etransitivity; [| exact Ha]. etransitivity; [eexists; symmetry; apply takeWhile_dropWhile |].
  exists (drop i auth). by rewrite take_drop.
Qed.

(** *** One URL *)

Definition MARK_BODY : jstring := "?[redacted".

Lemma redactTarget_host t : 64 ∉ takeWhile hostUnit t -> 64 ∉ takeWhile (fun c => negb (c =? 47)) (redactTarget t).
Proof.
  intros Ht. unfold redactTarget. destruct (existsb is_cut t) eqn:E.
  - change (takeWhile (fun c => negb (is_cut c)) t) with (takeWhile beforeCut t). intros Hin. clear E.
    induction t as [| c t IH]; [by vm_compute in Hin; set_solver |].
    cbn [takeWhile] in Hin. cbn [takeWhile] in Ht. unfold hostUnit at 1 in Ht. destruct (beforeCut c) eqn:Ec.
    + cbn [app takeWhile] in Hin. destruct (negb (c =? 47)); cbn [andb] in Ht; [| by inversion Hin].
      apply not_elem_of_cons in Ht as [Hc Ht]. apply elem_of_cons in Hin as [? | Hin]; [done | by apply IH].
    + clear - Hin. vm_compute in Hin. set_solver.
  - intros Hin. apply Ht. clear Ht. induction t as [| c t IH]; [done |]. cbn [existsb] in E. apply orb_false_iff in E as [Ec E].
    cbn [takeWhile] in *. unfold hostUnit at 1, beforeCut. rewrite Ec. destruct (negb (c =? 47)); cbn [andb negb] in *; [| done].
    apply elem_of_cons in Hin as [-> | Hin]; [by left | right; auto].
Qed.

Lemma redactTarget_twice t : redactTarget (redactTarget t) = redactTarget t.
Proof.
  unfold redactTarget at 2 3. destruct (existsb is_cut t) eqn:E; [| by unfold redactTarget; rewrite E].
  change (fun c => negb (is_cut c)) with beforeCut. unfold redactTarget. rewrite existsb_app. cbn [existsb MARKER].
  rewrite orb_true_r. change (fun c => negb (is_cut c)) with beforeCut.
  by destruct (takeWhile_stop beforeCut (takeWhile beforeCut t) MARKER) as [-> _]; [apply takeWhile_all | |].
Qed.

(** What a URL's target becomes is not touched again. *)
Lemma redactOne_twice w x : is_scheme w -> redactOne (redactOne (w ++ x)) = redactOne (w ++ x).
Proof.
  intros Hw. rewrite redactOne_scheme by done. set (t := redactTarget (drop (hostStart x) x)).
  rewrite redactOne_scheme by done. f_equal.
  assert (hostStart t = 0%nat) as ->.
  { unfold hostStart. rewrite lastIndexOf_None; [done |]. apply redactTarget_host, host_without_at. }
  rewrite drop_0. apply redactTarget_twice.
Qed.

Lemma marker_body body tail : markerFollows body tail = true -> exists b m, body = b ++ 63 :: m /\ 64 ∉ m /\ length m = 9%nat.
Proof.
  unfold markerFollows. intros [[t Ht]%startsWith_spec _]%andb_true_iff.
  assert (map lowerAscii body = rev t ++ MARK_BODY) as E.
  { apply (f_equal (@rev N)) in Ht. rewrite <- map_rev, !rev_involutive, rev_app_distr, rev_involutive in Ht. exact Ht. }
  apply map_eq_app in E as (b & m & -> & _ & Em).
  destruct m as [| q m]; [discriminate Em |]. cbn in Em. injection Em as Eq Em. apply lower_fixed in Eq as ->; [| done].
  exists b, m. split; [done |]. pose proof (f_equal length Em) as El. rewrite length_map in El. split; [| exact El].
  intros Hin. apply (list_elem_of_In) in Hin. apply (in_map lowerAscii) in Hin. rewrite Em in Hin. cbn in Hin.
  repeat (destruct Hin as [Hin | Hin]; [discriminate Hin |]). done.
Qed.

(** The pieces of a match: a scheme, the target kept, and either a marker closed
    it or the rest cannot go on with it. *)
Lemma match_pieces s m rest :
  urlMatch s = Some (m, rest) ->
  exists w x, is_scheme w /\ m = w ++ x /\ s = m ++ rest /\
    let t := drop (hostStart x) x in
    if existsb is_cut t
    then Forall (fun c => is_url_unit c = true) (takeWhile beforeCut t) /\
         (stops is_url_unit rest \/ last m = Some 93)
    else Forall (fun c => is_url_unit c = true) t /\ stops is_url_unit rest.
Proof.
  intros (n & body & Hn & Hs & Hb & _ & Hc)%urlMatch_inv. cbn zeta in Hc.
  pose proof (schemeLength_scheme _ _ Hn) as (Hw & _ & _).
  pose proof (takeWhile_all is_url_unit (drop n s)) as Hurl. rewrite <- Hb in Hurl.
  pose proof (dropWhile_stops' is_url_unit (drop n s)) as Hstop.
  assert (forall f k l, Forall (fun c => is_url_unit c = true) l -> Forall (fun c => is_url_unit c = true) (takeWhile f (drop k l))) as Hsub.
  { intros f k l Hl. apply (Forall_drop _ k) in Hl. rewrite <- (takeWhile_dropWhile f (drop k l)) in Hl.
    by apply Forall_app in Hl as [? _]. }
  destruct Hc as [(-> & Et & Hm) | (-> & -> & _)].
  - exists (take n s), (body ++ [93]). split; [done |]. split; [done |]. rewrite Et in Hs.
    split; [rewrite Hs at 1; by rewrite <- !app_assoc |].
    destruct (marker_body _ _ Hm) as (b & mk & Eb & Hat & _).
    assert (hostStart (body ++ [93%N]) <= length b)%nat as Hle.
    { destruct (hostStart_at (body ++ [93])) as [-> | (i & -> & Hi)]; [lia |]. rewrite Eb in Hi.
      destruct (decide (i < length b)%nat); [lia |]. exfalso. rewrite <- app_assoc, lookup_app_r in Hi by lia.
      apply list_elem_of_lookup_2 in Hi. cbn in Hi. apply elem_of_cons in Hi as [? | Hi]; [done |].
      apply elem_of_app in Hi as [? | Hi%list_elem_of_singleton]; done. }
    assert (drop (hostStart (body ++ [93])) (body ++ [93]) = drop (hostStart (body ++ [93])) b ++ 63 :: mk ++ [93]) as Ed.
    { rewrite Eb at 2. rewrite <- app_assoc. by rewrite drop_app_le. }
    cbn zeta. rewrite Ed. assert (existsb is_cut (drop (hostStart (body ++ [93])) b ++ 63 :: mk ++ [93]) = true) as ->
      by (rewrite existsb_app; cbn; by rewrite orb_true_r).
    split; [| right; by rewrite app_assoc, last_snoc].
    rewrite Eb in Hurl. apply Forall_app in Hurl as [Hub _]. apply (Forall_drop _ (hostStart (body ++ [93]))) in Hub.
    revert Hub. generalize (drop (hostStart (body ++ [93])) b). intros k Hk.
    induction Hk as [| c k Hc _ IH]; [constructor |]. cbn [app takeWhile]. destruct (beforeCut c); [by constructor | constructor].
  - exists (take n s), body. split; [done |]. split; [done |]. split; [rewrite Hs at 1; by rewrite <- app_assoc |].
    cbn zeta. case_match; [split; [by apply Hsub | by left] |]. split; [by apply Forall_drop | done].
Qed.

Lemma urlMatch_app w z :
  is_scheme w ->
  urlMatch (w ++ z) =
  let body := takeWhile is_url_unit z in
  let rest := dropWhile is_url_unit z in
  match body with
  | [] => None
  | _ => Some (if markerFollows body rest then (w ++ body ++ [93], drop 1 rest) else (w ++ body, rest))
  end.
Proof. intros Hw. unfold urlMatch. rewrite schemeLength_app by done. cbn [mbind option_bind]. by rewrite take_app_length, drop_app_length. Qed.

Lemma rematch_marked w t0 y :
  is_scheme w -> Forall (fun c => is_url_unit c = true) t0 ->
  urlMatch (w ++ (t0 ++ MARKER) ++ y) = Some (w ++ t0 ++ MARKER, y).
Proof.
  intros Hw Ht. rewrite urlMatch_app by done. cbn zeta.
  replace ((t0 ++ MARKER) ++ y) with ((t0 ++ MARK_BODY) ++ 93 :: y) by (rewrite <- !app_assoc; done).
  destruct (takeWhile_stop is_url_unit (t0 ++ MARK_BODY) (93 :: y)) as [E1 E2].
  { apply Forall_app. split; [done |]. repeat constructor. }
  { reflexivity. }
  rewrite E1, E2. assert (markerFollows (t0 ++ MARK_BODY) (93 :: y) = true) as ->.
  { unfold markerFollows. rewrite rev_app_distr, map_app. change (map lowerAscii (rev MARK_BODY)) with (rev ("?[redacted" : jstring)).
    by rewrite startsWith_app. }
  destruct (t0 ++ MARK_BODY) as [| c z] eqn:E; [by destruct t0 |]. rewrite <- E. rewrite <- app_assoc. done.
Qed.

Lemma rematch_plain w t y :
  is_scheme w -> t <> [] -> Forall (fun c => is_url_unit c = true) t -> existsb is_cut t = false ->
  stops is_url_unit y -> urlMatch (w ++ t ++ y) = Some (w ++ t, y).
Proof.
  intros Hw Hne Ht Hcut Hy. rewrite urlMatch_app by done. cbn zeta.
  destruct (takeWhile_stop is_url_unit t y Ht Hy) as [-> ->].
  assert (markerFollows t y = false) as ->; [| by destruct t].
  apply not_true_iff_false. intros (b & m & -> & _)%marker_body. rewrite existsb_app in Hcut. cbn in Hcut. by rewrite orb_true_r in Hcut.
Qed.

Lemma unmatched w y : is_scheme w -> stops is_url_unit y -> urlMatch (w ++ y) = None.
Proof.
  intros Hw Hy. rewrite urlMatch_app by done. cbn zeta.
  destruct (takeWhile_stop is_url_unit [] y ltac:(constructor) Hy) as [E _]. cbn [app] in E. by rewrite E.
Qed.

Lemma not_url_not_h c : is_url_unit c = false -> lowerAscii c <> 104.
Proof.
  intros Hc E. unfold lowerAscii in E. destruct (is_upper c) eqn:Eu; [| by subst].
  assert (c = 72) as -> by lia. done.
Qed.

(** The flag does not matter where no URL can begin. *)
Lemma scan_flag aw aw' y : stops is_url_unit y -> scan aw y = scan aw' y.
Proof. destruct y as [| c y]; [done |]. intros Hc%not_url_not_h. by rewrite !scan_copies. Qed.
Lemma scan_stops aw y : stops is_url_unit y -> stops is_url_unit (scan aw y).
Proof. destruct y as [| c y]; [done |]. intros Hc. destruct (scan_head aw c y) as [out ->]. done. Qed.

Lemma scan_word w aw y :
  Forall (fun c => lowerAscii c <> 104) w -> exists aw', scan aw (w ++ y) = w ++ scan aw' y.
Proof.
  intros Hw. revert aw. induction Hw as [| c w Hc _ IH]; intros aw; [by exists aw |].
  cbn [app]. rewrite scan_copies by done. destruct (IH (is_word c)) as [aw' ->]. by exists aw'.
Qed.

Lemma scan_bare_scheme w y :
  is_scheme w -> stops is_url_unit y -> (forall aw, scan aw y = y) -> scan false (w ++ y) = w ++ y.
Proof.
  intros Hw Hy Hsame. pose proof (unmatched w y Hw Hy) as Hu.
  destruct (scheme_units w Hw) as (h & mid & -> & _ & Hmid). cbn [app] in *. rewrite scan_step, Hu. f_equal.
  destruct (scan_word (mid ++ [47; 47]) (is_word h) y) as [aw' ->].
  - apply Forall_app. split; [eapply Forall_impl; [exact Hmid | by intros ? []] |]. repeat constructor; discriminate.
  - by rewrite Hsame.
Qed.

(** A match is redacted to something the next pass leaves alone. *)
Lemma rescan s m rest out aw :
  urlMatch s = Some (m, rest) -> out = scan aw rest -> aw = (match last m with Some d => is_word d | None => false end) ->
  scan aw out = out -> scan false (redactOne m ++ out) = redactOne m ++ out.
Proof.
  intros (w & x & Hw & -> & _ & Hp)%match_pieces Hout Haw Hsame. rewrite (redactOne_scheme w x Hw).
  pose proof (redactOne_twice w x Hw) as Htwice. rewrite (redactOne_scheme w x Hw) in Htwice.
  set (t := drop (hostStart x) x) in *. cbn zeta in Hp.
  assert (stops is_url_unit rest -> forall a, scan a out = out) as Hany.
  { intros Hst a. rewrite (scan_flag a aw); [done |]. rewrite Hout. by apply scan_stops. }
  assert (forall z, z <> [] -> scan false (z ++ out) =
    match urlMatch (z ++ out) with
    | Some (m', r') => redactOne m' ++ scan (match last m' with Some d => is_word d | None => false end) r'
    | None => scan false (z ++ out) end) as Hstep.
  { intros [| c z] Hz; [done |]. cbn [app]. destruct (urlMatch (c :: z ++ out)) as [[m' r'] |] eqn:E; [| done].
    by rewrite scan_step, E. }
  assert (w <> []) as Hwne by (destruct (scheme_units w Hw) as (? & ? & -> & _); done).
  unfold redactTarget in Htwice |- *. destruct (existsb is_cut t) eqn:Ecut.
  - destruct Hp as [Ht0 Hend]. rewrite Hstep by (by destruct w). rewrite <- app_assoc, rematch_marked by done.
    rewrite Htwice, !app_assoc. f_equal. destruct Hend as [Hst | Hlast]; [by apply Hany |].
    rewrite Hlast in Haw. rewrite last_app. cbn. by subst aw.
  - destruct Hp as [Ht Hst]. destruct (decide (t = [])) as [-> | Hne].
    + rewrite app_nil_r. apply scan_bare_scheme; [done | rewrite Hout; by apply scan_stops | by apply Hany].
    + rewrite Hstep by (by destruct w). rewrite <- app_assoc, rematch_plain; [| done | done | done | done | rewrite Hout; by apply scan_stops].
      rewrite Htwice, !app_assoc. f_equal. by apply Hany.
Qed.

Lemma scan_twice aw s : scan aw (scan aw s) = scan aw s.
Proof.
  revert aw. induction s as [s IH] using (induction_ltof1 _ (@length N)). unfold ltof in IH. intros aw.
  destruct s as [| c s]; [done |]. rewrite (scan_step aw c s).
  destruct (if aw then None else urlMatch (c :: s)) as [[m rest] |] eqn:E.
  - destruct aw; [done |]. eapply rescan; [exact E | reflexivity | reflexivity |].
    apply IH. by apply match_shorter in E.
  - rewrite (scan_step aw c). assert ((if aw then None else urlMatch (c :: scan (is_word c) s)) = None) as ->.
    2: { f_equal. apply IH. cbn. lia. }
    destruct aw; [done |]. destruct (urlMatch (c :: scan (is_word c) s)) as [[m rest] |] eqn:E'; [| done]. exfalso.
    apply urlMatch_inv in E' as (n & body & Hn & Hs & Hb & Hbne & _).
    apply schemeLength_scheme in Hn as (Hw & Hsplit & _).
    destruct (scheme_units _ Hw) as (h & mid & Ew & _ & Hmid). rewrite Ew in Hsplit. cbn [app] in Hsplit.
    injection Hsplit as <- Hsplit.
    destruct (scan_prefix (mid ++ [47; 47]) (is_word c) s (drop n (c :: scan (is_word c) s))) as (aw' & s' & -> & Ey).
    { apply Forall_app. split; [eapply Forall_impl; [exact Hmid | by intros ? []] |]. repeat constructor; discriminate. }
    { exact Hsplit. }
    rewrite Ew in Hw. change (c :: (mid ++ [47; 47]) ++ s') with ((c :: mid ++ [47; 47]) ++ s') in E.
    rewrite urlMatch_app in E by done. cbn zeta in E. destruct (takeWhile is_url_unit s') eqn:Et; [| done].
    apply Hbne. rewrite Hb, Ey. destruct s' as [| d s']; [done |]. cbn in Et. destruct (is_url_unit d) eqn:Ed; [done |].
    destruct (scan_head aw' d s') as [o ->]. cbn. by rewrite Ed.
Qed.
End urls.

(** Redacting URLs is done once and for all: text that went through it (user
    info, query strings and fragments of every http and https URL are gone)
    comes out of a second pass unchanged, whatever it says, so the daemon's and
    the control plane's passes agree and no URL in the result has anything left
    to redact. *)
Theorem redacted_urls_stay text : redactUrlSecrets (redactUrlSecrets text) = redactUrlSecrets text.
Proof. apply (scan_twice false). Qed.
