(* ===== verification/LogLines.v ===== *)
(** * Command output by lines ([logs/line-stream.ts])

    A child's output arrives decoded, in chunks cut anywhere.  The splitter
    hands on complete lines as they arrive; the keeper holds the text, or its
    tail, for the caller. *)

From stdpp Require Import list.
From S2P Require Import Prelude.

#[local] Open Scope N_scope.

Definition stripCarriageReturn (line : jstring) : jstring :=
  match last line with Some 13 => take (length line - 1) line | _ => line end.

(** The lines handed on, in order. *)
Definition emit (raw : jstring) : list jstring :=
  match stripCarriageReturn raw with [] => [] | line => [line] end.

(** [splitLongPending]: pieces of [max] units while more than [max] are remainder; a
    [max] of 0 would not end. *)
Fixpoint splitLong (turns max : nat) (pending : jstring) : list jstring * jstring :=
  match turns with
  | O => ([], pending)
  | S t =>
      if decide (max < length pending)%nat
      then let '(pieces, remainder) := splitLong t max (drop max pending) in
           (emit (take max pending) ++ pieces, remainder)
      else ([], pending)
  end.
Definition splitLongPending (maxLineChars : option nat) (pending : jstring) : list jstring * jstring :=
  match maxLineChars with
  | None => ([], pending)
  | Some max => splitLong (length pending) max pending
  end.

(** [push]: the lines the newlines of [value] complete, and what is remainder. *)
Fixpoint completed (pending : jstring) (pieces : list jstring) : list jstring * jstring :=
  match pieces with
  | [] => ([], pending)
  | [p] => ([], pending ++ p)
  | p :: rest => let '(lines, remainder) := completed [] rest in (emit (pending ++ p) ++ lines, remainder)
  end.
Definition push (maxLineChars : option nat) (pending value : jstring) : list jstring * jstring :=
  let '(lines, remainder) := completed pending (split 10 value) in
  let '(pieces, remainder) := splitLongPending maxLineChars remainder in
  (lines ++ pieces, remainder).
Definition finish (pending : jstring) : list jstring :=
  match trim pending with [] => [] | _ => emit pending end.

(** [text.slice(-n)]; [-0] is [0]. *)
Definition sliceEnd (n : nat) (s : jstring) : jstring :=
  match n with O => s | _ => drop (length s - n) s end.

(** The kept text (the joined parts) and its length. *)
Definition keep (tailChars : option nat) (kept value : jstring) : jstring :=
  let joined := kept ++ value in
  match tailChars with
  | Some n => if decide (2 * n < length joined)%nat then sliceEnd n joined else joined
  | None => joined
  end.
Definition keptText (tailChars : option nat) (kept : jstring) : jstring :=
  match tailChars with Some n => sliceEnd n kept | None => kept end.

Record PumpLimits := { tailChars : option nat; maxLineChars : option nat; maxTotalChars : option nat }.

Record pump := Pump {
  pumpLinesOut : list jstring; pumpPending : jstring; pumpKept : jstring; pumpTotal : nat; limitHit : bool
}.

(** One chunk read. *)
Definition pumpChunk (l : PumpLimits) (s : pump) (value : jstring) : pump :=
  match value with
  | [] => s
  | _ =>
      if limitHit s then s
      else
        let total := (pumpTotal s + length value)%nat in
        if match maxTotalChars l with Some m => bool_decide (m < total)%nat | None => false end
        then Pump (pumpLinesOut s) (pumpPending s) (pumpKept s) total true
        else let '(lines, remainder) := push (maxLineChars l) (pumpPending s) value in
             Pump (pumpLinesOut s ++ lines) remainder (keep (tailChars l) (pumpKept s) value) total false
  end.

(** The lines handed on and the text returned. *)
Definition pumpLines (l : PumpLimits) (chunks : list jstring) : list jstring * jstring :=
  let s := foldl (pumpChunk l) (Pump [] [] [] 0 false) chunks in
  (pumpLinesOut s ++ finish (pumpPending s), keptText (tailChars l) (pumpKept s)).

Definition emitBufferedLines (text : jstring) : list jstring :=
  match text with [] => [] | _ => split 10 text ≫= emit end.

(** ** Chunks do not show *)

Lemma split_app c s t :
  exists (ws : list jstring) (w x : jstring) (xs : list jstring),
    split c s = ws ++ [w] /\ split c t = x :: xs /\ split c (s ++ t) = ws ++ @cons jstring (w ++ x) xs.
Proof.
  induction s as [| d s IH].
  - destruct (split_cons_inv c t) as (x & xs & E). exists [], [], x, xs. done.
  - destruct IH as (ws & w & x & xs & Es & Et & Ea). cbn. destruct (d =? c).
    + exists ([] :: ws), w, x, xs. by rewrite Es, Ea.
    + rewrite Es, Ea. destruct ws as [| v ws]; [by exists [], (d :: w), x, xs | by exists ((d :: v) :: ws), w, x, xs].
Qed.

Lemma completed_app pending ws w rest :
  completed pending (ws ++ w :: rest) =
  let '(lines, remainder) := completed pending (ws ++ [w]) in
  match rest with
  | [] => (lines, remainder)
  | _ => let '(more, last) := completed [] rest in (lines ++ emit remainder ++ more, last)
  end.
Proof.
  revert pending. induction ws as [| v ws IH]; intros pending.
  - cbn. destruct rest as [| r rest]; [done |]. by destruct (completed [] (r :: rest)).
  - cbn [app completed]. rewrite IH. destruct (ws ++ w :: rest) eqn:E1; [by destruct ws |].
    destruct (ws ++ [w]) as [| y ys] eqn:E2; [by destruct ws |]. destruct (completed [] (y :: ys)) as [lines remainder].
    destruct rest as [| r rest]; [done |]. destruct (completed [] (r :: rest)). by rewrite <- !app_assoc.
Qed.

Lemma completed_pending pending w rest :
  completed pending (w :: rest) = completed [] ((pending ++ w) :: rest).
Proof. destruct rest; done. Qed.

(** Pushing two chunks is pushing them joined. *)
Lemma push_push pending a b :
  let '(l1, p1) := push None pending a in
  let '(l2, p2) := push None p1 b in
  push None pending (a ++ b) = (l1 ++ l2, p2).
Proof.
  unfold push. cbn [splitLongPending]. destruct (split_app 10 a b) as (ws & w & x & xs & Ea & Eb & Eab).
  rewrite Ea, Eab. rewrite (completed_app pending ws (w ++ x) xs).
  assert (forall y, completed pending (ws ++ [w ++ y]) = let '(lines, remainder) := completed pending (ws ++ [w]) in (lines, remainder ++ y)) as Hlast.
  { intros y. clear. revert pending. induction ws as [| v ws IH]; intros pending; cbn [app completed].
    - by rewrite app_assoc.
    - rewrite IH. destruct (ws ++ [w ++ y]) eqn:E1; [by destruct ws |]. destruct (ws ++ [w]) eqn:E2; [by destruct ws |].
      by destruct (completed [] _). }
  rewrite Hlast. destruct (completed pending (ws ++ [w])) as [l1 p1]. rewrite ?app_nil_r, Eb.
  rewrite completed_pending. destruct xs as [| y ys].
  - cbn. by rewrite ?app_nil_r.
  - change (completed [] ((p1 ++ x) :: y :: ys))
      with (let '(lines, r) := completed [] (y :: ys) in (emit ([] ++ (p1 ++ x)) ++ lines, r)).
    destruct (completed [] (y :: ys)) as [more remainder]. by rewrite ?app_nil_r, <- ?app_assoc.
Qed.

Lemma sliceEnd_length n s : (0 < n)%nat -> length (sliceEnd n s) = Nat.min n (length s).
Proof. destruct n; [lia |]. intros _. unfold sliceEnd. rewrite length_drop. lia. Qed.

Lemma sliceEnd_again n a b : sliceEnd n (sliceEnd n a ++ b) = sliceEnd n (a ++ b).
Proof.
  destruct n as [| n]; [done |]. unfold sliceEnd. rewrite <- drop_app_le by lia.
  rewrite drop_drop, !length_drop, !length_app. f_equal. lia.
Qed.

Lemma keep_text t kept value : keptText t (keep t kept value) = keptText t (kept ++ value).
Proof.
  destruct t as [n |]; [| done]. cbn. case_decide; [| done].
  pose proof (sliceEnd_again n (kept ++ value) []) as E. by rewrite !app_nil_r in E.
Qed.
Lemma keep_more t a a' b : keptText t a = keptText t a' -> keptText t (a ++ b) = keptText t (a' ++ b).
Proof.
  destruct t as [n |]; cbn; [| by intros ->]. intros E. rewrite <- sliceEnd_again, E. apply sliceEnd_again.
Qed.

(** The chunks before the total passes the limit. *)
Fixpoint within (limit : option nat) (total : nat) (chunks : list jstring) : list jstring :=
  match chunks with
  | [] => []
  | [] :: rest => within limit total rest
  | c :: rest =>
      let total := (total + length c)%nat in
      if match limit with Some m => bool_decide (m < total)%nat | None => false end then []
      else c :: within limit total rest
  end.

Lemma push_nil pending : push None pending [] = ([], pending).
Proof. cbn. by rewrite app_nil_r. Qed.

Definition unlimitedLines (l : PumpLimits) : Prop := maxLineChars l = None.

Lemma pump_ended l s chunks : limitHit s = true -> foldl (pumpChunk l) s chunks = s.
Proof. intros Hs. induction chunks as [| c chunks IH]; [done |]. cbn. destruct c; [done |]. unfold pumpChunk at 2. by rewrite Hs. Qed.

(** After some chunks the pump holds what their text, pushed at once, gives. *)
Record holds (l : PumpLimits) (text : jstring) (s : pump) : Prop := {
  holds_lines : push None [] text = (pumpLinesOut s, pumpPending s);
  holds_kept : keptText (tailChars l) (pumpKept s) = keptText (tailChars l) text
}.

Lemma pump_holds l chunks text s :
  unlimitedLines l -> limitHit s = false -> holds l text s ->
  holds l (text ++ concat (within (maxTotalChars l) (pumpTotal s) chunks)) (foldl (pumpChunk l) s chunks).
Proof.
  intros Hl. revert text s. induction chunks as [| c chunks IH]; intros text s Hhit [Hlines Hkept].
  { cbn. by rewrite app_nil_r. }
  cbn [foldl within]. destruct c as [| u c].
  { by apply IH. }
  unfold pumpChunk at 2. rewrite Hhit. destruct (match maxTotalChars l with Some m => _ | None => false end).
  { rewrite pump_ended by done. rewrite app_nil_r. by constructor. }
  rewrite Hl. pose proof (push_push [] text (u :: c)) as Hp. rewrite Hlines in Hp.
  destruct (push None (pumpPending s) (u :: c)) as [lines rem] eqn:Ep. cbn [concat]. rewrite app_assoc.
  apply (IH (text ++ u :: c) (Pump _ _ _ _ false)); [done |]. constructor; cbn; [exact Hp |].
  rewrite keep_text. by apply keep_more.
Qed.

(** How output is cut into chunks does not show: with no bound on a line's
    length, the lines handed on and the text returned are those of the whole
    text at once (up to the chunk that passes the total), and the returned tail
    is exactly the last [tailChars] units, although the keeper only ever holds
    twice as many. *)
Theorem output_independent_of_chunks l chunks :
  maxLineChars l = None ->
  let text := concat (within (maxTotalChars l) 0 chunks) in
  let '(lines, pending) := push None [] text in
  pumpLines l chunks = (lines ++ finish pending, keptText (tailChars l) text).
Proof.
  intros Hl text. destruct (pump_holds l chunks [] (Pump [] [] [] 0 false) Hl eq_refl) as [H1 H2]; [by constructor |].
  cbn [app pumpTotal] in H1, H2. fold text in H1, H2. rewrite H1. unfold pumpLines. by rewrite H2.
Qed.

Lemma output_independent_of_chunks_witness :
  let l := {| tailChars := Some 4%nat; maxLineChars := None; maxTotalChars := None |} in
  pumpLines l [("on" : jstring); ("e" : jstring) ++ [13]; [10] ++ ("two" : jstring) ++ [10; 10] ++ ("thr" : jstring); "ee"]
  = ([("one" : jstring); "two"; "three"], "hree" : jstring).
Proof.
  pose proof (output_independent_of_chunks {| tailChars := Some 4%nat; maxLineChars := None; maxTotalChars := None |}
    [("on" : jstring); ("e" : jstring) ++ [13]; [10] ++ ("two" : jstring) ++ [10; 10] ++ ("thr" : jstring); "ee"] eq_refl) as E.
  vm_compute in E. exact E.
Defined.

(** A line longer than the bound is handed on whole when it arrives complete. *)
Theorem complete_line_is_not_split :
  pumpLines {| tailChars := None; maxLineChars := Some 2%nat; maxTotalChars := None |} [("abcdef" : jstring) ++ [10]]
  = (["abcdef" : jstring], ("abcdef" : jstring) ++ [10]) /\
  pumpLines {| tailChars := None; maxLineChars := Some 2%nat; maxTotalChars := None |} [("abcdef" : jstring); [10]]
  = (["ab" : jstring; "cd"; "ef"], ("abcdef" : jstring) ++ [10]).
Proof. vm_compute. split; reflexivity. Qed.
