(* ===== verification/CmdOutbox.v ===== *)
(** * The command outbox ([commands/command-outbox.ts])

    The daemon answers every command it accepted, across dropped sockets and
    restarts.  This file holds the module's variables as one record, the
    journal directory beside them, and one definition per function.

    An [async] function is cut at its [await]s: what runs before the first one
    is a definition on the state, and the rest is a task that waits in the
    state.  A task resumes in any order relative to the others, except that the
    writes of one chain run one after another and a continuation waits for the
    tasks it awaits; [act] performs one synchronous stretch.  The environment
    of a stretch says the time, which sockets are open, which sends throw and
    what the attached control plane supports; file system calls succeed or fail
    as the resumption says.  Files of the journal directory are entries this
    module wrote, or unreadable. *)

From stdpp Require Import list.
From S2P Require Import Prelude Json Number JsonPrint Dates.

#[local] Open Scope Z_scope.

(** ** [Map.delete] and [Array.sort] *)

Definition mapDelete {A} (k : jstring) (m : jsmap A) : jsmap A := filter (fun e => e.1 <> k) m.

Section sorting.
Context {A} (key : A -> option Z).

(** Nothing sorts before any number. *)
Definition keyLe (a b : option Z) : bool :=
  match a, b with None, _ => true | Some _, None => false | Some x, Some y => x <=? y end.
Fixpoint insertByKey (x : A) (l : list A) : list A :=
  match l with
  | [] => [x]
  | y :: l' => if keyLe (key x) (key y) then x :: l else y :: insertByKey x l'
  end.
(** The stable ascending sort. *)
Definition sortByKey (l : list A) : list A := foldr insertByKey [] l.
End sorting.

(** ** Messages *)

(** The members beside [type] and [id]. *)
Record OutcomeMessage := { outcomeId : jstring; outcomeMembers : entries }.

Definition outcomeJson (o : OutcomeMessage) : jval :=
  JObj (("type" : jstring, JStr "command-outcome") :: ("id" : jstring, JStr (outcomeId o))
        :: outcomeMembers o).
Definition stamped (now : Z) (o : OutcomeMessage) : OutcomeMessage := {|
  outcomeId := outcomeId o;
  outcomeMembers := setEntry "at" (JStr (toISOString now)) (outcomeMembers o)
|}.

Inductive CommandProgressStepState :=
| ReadyStep | PendingStep | RunningStep | DoneStep | FailedStep | SkippedStep.
#[global] Instance CommandProgressStepState_dec : EqDecision CommandProgressStepState.
Proof. solve_decision. Defined.

Definition stepStateName (x : CommandProgressStepState) : jstring :=
  match x with
  | ReadyStep => "ready" | PendingStep => "pending" | RunningStep => "running"
  | DoneStep => "done" | FailedStep => "failed" | SkippedStep => "skipped"
  end.

(** The times and the detail text are further members. *)
Record CommandProgressStep := {
  stepId : jstring; stepLabel : jstring; stepState : CommandProgressStepState; stepMembers : entries
}.
(** [runningSince] is absent, [null] or a time. *)
Record CommandProgress := {
  steps : list CommandProgressStep;
  current : option jstring;
  updatedAt : jstring;
  runningSince : option (option jstring)
}.

Definition orNull (s : option jstring) : jval := match s with Some t => JStr t | None => JNull end.
Definition stepJson (x : CommandProgressStep) : jval :=
  JObj (("id" : jstring, JStr (stepId x)) :: ("label" : jstring, JStr (stepLabel x))
        :: ("state" : jstring, JStr (stepStateName (stepState x))) :: stepMembers x).
Definition progressJson (p : CommandProgress) : jval :=
  JObj ([("version" : jstring, JNum (num_of_Z 1)); ("steps" : jstring, JArr (map stepJson (steps p)));
         ("current" : jstring, orNull (current p)); ("updatedAt" : jstring, JStr (updatedAt p))]
        ++ match runningSince p with Some r => [("runningSince" : jstring, orNull r)] | None => [] end).

(** ** The journal *)

Record JournalEntry := {
  entryId : jstring;
  entryAcceptedAt : jstring;
  entryProgress : option CommandProgress;
  entryOutcome : option OutcomeMessage;
  entryJournaledAt : option jstring
}.

Definition UNSAFE_ID (id : jstring) : bool :=
  existsb (fun c => negb (is_word c || (c =? 45)%N)) id.

(** The journal file of an id is named by the id itself. *)
Definition journalFile (id : jstring) : option jstring := if UNSAFE_ID id then None else Some id.

(** What a queued write will write, decided when its turn comes. *)
Inductive journal_write :=
| WriteAccepted
| WriteProgress (p : CommandProgress)
| WriteFinal (entry : JournalEntry)
| WriteReply (reply : OutcomeMessage).

(** ** Suspended work *)

Definition socket := nat.
Bind Scope nat_scope with socket.

Inductive continuation :=
| Delivered (ws : socket) (o : OutcomeMessage)
| HeldFlushed (ws : socket)
| ListJournal
| ReadEntries (ids : list jstring) (seen : jsmap (option JournalEntry))
| OrphansAnswered
| Pruned.

(** A write of a chain waiting for its turn, a write under way, a removal under
    way, and the rest of a function that waits for the tasks of a group. *)
Inductive work :=
| Queued (chain : nat) (id : jstring) (w : journal_write)
| Writing (chain : nat) (id : jstring) (entry : JournalEntry)
| Removing (id : jstring)
| Then (group : nat) (k : continuation).

Record task := Task { ofGroup : option nat; toDo : work }.

(** ** The module's variables *)

Record TrackedProgress := { trackedProgress : CommandProgress; signature : jstring; writtenAt : Z }.

Inductive frame_kind := LiveFrame | KeptFrame | ProgressFrame.
Record frame := Frame { frameSocket : socket; frameAt : Z; frameKind : frame_kind; frameJson : jval }.

(** The maps and variables of the module, then the journal directory (in the
    order a listing gives), the suspended work, the next unused group or chain
    number and the frames sent so far. [burstWindow] is [(start, used)]. *)
Record outbox := Outbox {
  held : jsmap OutcomeMessage;
  unacked : jsmap OutcomeMessage;
  running : list jstring;
  acceptedAt : jsmap jstring;
  lastProgress : jsmap TrackedProgress;
  writeChains : jsmap nat;
  currentSocket : option socket;
  currentPeer : bool;
  resendTimer : bool;
  sentOnSocket : jsmap Z;
  burstWindow : Z * Z;
  keptSince : jsmap Z;
  journal : jsmap (option JournalEntry);
  tasks : list task;
  serial : nat;
  frames : list frame
}.

Definition onHeld (f : jsmap OutcomeMessage -> jsmap OutcomeMessage) (s : outbox) : outbox :=
  Outbox (f (held s)) (unacked s) (running s) (acceptedAt s) (lastProgress s) (writeChains s) (currentSocket s) (currentPeer s) (resendTimer s) (sentOnSocket s) (burstWindow s) (keptSince s) (journal s) (tasks s) (serial s) (frames s).
Definition onUnacked (f : jsmap OutcomeMessage -> jsmap OutcomeMessage) (s : outbox) : outbox :=
  Outbox (held s) (f (unacked s)) (running s) (acceptedAt s) (lastProgress s) (writeChains s) (currentSocket s) (currentPeer s) (resendTimer s) (sentOnSocket s) (burstWindow s) (keptSince s) (journal s) (tasks s) (serial s) (frames s).
Definition onRunning (f : list jstring -> list jstring) (s : outbox) : outbox :=
  Outbox (held s) (unacked s) (f (running s)) (acceptedAt s) (lastProgress s) (writeChains s) (currentSocket s) (currentPeer s) (resendTimer s) (sentOnSocket s) (burstWindow s) (keptSince s) (journal s) (tasks s) (serial s) (frames s).
Definition onAcceptedAt (f : jsmap jstring -> jsmap jstring) (s : outbox) : outbox :=
  Outbox (held s) (unacked s) (running s) (f (acceptedAt s)) (lastProgress s) (writeChains s) (currentSocket s) (currentPeer s) (resendTimer s) (sentOnSocket s) (burstWindow s) (keptSince s) (journal s) (tasks s) (serial s) (frames s).
Definition onLastProgress (f : jsmap TrackedProgress -> jsmap TrackedProgress) (s : outbox) : outbox :=
  Outbox (held s) (unacked s) (running s) (acceptedAt s) (f (lastProgress s)) (writeChains s) (currentSocket s) (currentPeer s) (resendTimer s) (sentOnSocket s) (burstWindow s) (keptSince s) (journal s) (tasks s) (serial s) (frames s).
Definition onWriteChains (f : jsmap nat -> jsmap nat) (s : outbox) : outbox :=
  Outbox (held s) (unacked s) (running s) (acceptedAt s) (lastProgress s) (f (writeChains s)) (currentSocket s) (currentPeer s) (resendTimer s) (sentOnSocket s) (burstWindow s) (keptSince s) (journal s) (tasks s) (serial s) (frames s).
Definition onCurrentSocket (f : option socket -> option socket) (s : outbox) : outbox :=
  Outbox (held s) (unacked s) (running s) (acceptedAt s) (lastProgress s) (writeChains s) (f (currentSocket s)) (currentPeer s) (resendTimer s) (sentOnSocket s) (burstWindow s) (keptSince s) (journal s) (tasks s) (serial s) (frames s).
Definition onCurrentPeer (f : bool -> bool) (s : outbox) : outbox :=
  Outbox (held s) (unacked s) (running s) (acceptedAt s) (lastProgress s) (writeChains s) (currentSocket s) (f (currentPeer s)) (resendTimer s) (sentOnSocket s) (burstWindow s) (keptSince s) (journal s) (tasks s) (serial s) (frames s).
Definition onResendTimer (f : bool -> bool) (s : outbox) : outbox :=
  Outbox (held s) (unacked s) (running s) (acceptedAt s) (lastProgress s) (writeChains s) (currentSocket s) (currentPeer s) (f (resendTimer s)) (sentOnSocket s) (burstWindow s) (keptSince s) (journal s) (tasks s) (serial s) (frames s).
Definition onSentOnSocket (f : jsmap Z -> jsmap Z) (s : outbox) : outbox :=
  Outbox (held s) (unacked s) (running s) (acceptedAt s) (lastProgress s) (writeChains s) (currentSocket s) (currentPeer s) (resendTimer s) (f (sentOnSocket s)) (burstWindow s) (keptSince s) (journal s) (tasks s) (serial s) (frames s).
Definition onBurstWindow (f : (Z * Z) -> (Z * Z)) (s : outbox) : outbox :=
  Outbox (held s) (unacked s) (running s) (acceptedAt s) (lastProgress s) (writeChains s) (currentSocket s) (currentPeer s) (resendTimer s) (sentOnSocket s) (f (burstWindow s)) (keptSince s) (journal s) (tasks s) (serial s) (frames s).
Definition onKeptSince (f : jsmap Z -> jsmap Z) (s : outbox) : outbox :=
  Outbox (held s) (unacked s) (running s) (acceptedAt s) (lastProgress s) (writeChains s) (currentSocket s) (currentPeer s) (resendTimer s) (sentOnSocket s) (burstWindow s) (f (keptSince s)) (journal s) (tasks s) (serial s) (frames s).
Definition onJournal (f : jsmap (option JournalEntry) -> jsmap (option JournalEntry)) (s : outbox) : outbox :=
  Outbox (held s) (unacked s) (running s) (acceptedAt s) (lastProgress s) (writeChains s) (currentSocket s) (currentPeer s) (resendTimer s) (sentOnSocket s) (burstWindow s) (keptSince s) (f (journal s)) (tasks s) (serial s) (frames s).
Definition onTasks (f : list task -> list task) (s : outbox) : outbox :=
  Outbox (held s) (unacked s) (running s) (acceptedAt s) (lastProgress s) (writeChains s) (currentSocket s) (currentPeer s) (resendTimer s) (sentOnSocket s) (burstWindow s) (keptSince s) (journal s) (f (tasks s)) (serial s) (frames s).
Definition onSerial (f : nat -> nat) (s : outbox) : outbox :=
  Outbox (held s) (unacked s) (running s) (acceptedAt s) (lastProgress s) (writeChains s) (currentSocket s) (currentPeer s) (resendTimer s) (sentOnSocket s) (burstWindow s) (keptSince s) (journal s) (tasks s) (f (serial s)) (frames s).
Definition onFrames (f : list frame -> list frame) (s : outbox) : outbox :=
  Outbox (held s) (unacked s) (running s) (acceptedAt s) (lastProgress s) (writeChains s) (currentSocket s) (currentPeer s) (resendTimer s) (sentOnSocket s) (burstWindow s) (keptSince s) (journal s) (tasks s) (serial s) (f (frames s)).

Definition emptyOutbox (files : jsmap (option JournalEntry)) : outbox :=
  Outbox [] [] [] [] [] [] None false false [] (0, 0) [] files [] 0 [].

(** ** Constants *)

Definition RESEND_INTERVAL_MS : Z := 30000.
Definition PROGRESS_JOURNAL_INTERVAL_MS : Z := 30000.
Definition UNACKED_RETENTION_MS : Z := 7 * 24 * 60 * 60 * 1000.
Definition UNACKED_MAX_ENTRIES : nat := 64.
Definition OUTCOME_BURST_MAX : Z := 20.
Definition REPORT_MAX_IDS : nat := 64.
Definition REPORT_MAX_ID_CHARS : nat := 64.
Definition PROMOTE_STEP_ID : jstring := "start".
Definition SWITCH_STEP_ID : jstring := "switch".
Definition STOP_OLD_STEP_ID : jstring := "stop-old".
Definition HEALTH_STEP_ID : jstring := "health".

(** ** The environment of one synchronous stretch *)

(** [peerKnown] is [known?.()]: nothing when the peer has no such method. *)
Record env := {
  now : Z;
  isOpen : socket -> bool;
  sendThrows : socket -> jval -> bool;
  peerSupports : bool;
  peerKnown : option bool
}.

(** ** Interrupted commands *)

Definition findStep (id : jstring) (p : CommandProgress) : option CommandProgressStep :=
  find (fun x => bool_decide (stepId x = id)) (steps p).
Definition inState (x : option CommandProgressStep) (st : CommandProgressStepState) : bool :=
  match x with Some y => bool_decide (stepState y = st) | None => false end.
Definition begun (x : option CommandProgressStep) : bool :=
  match x with Some y => bool_decide (stepState y <> PendingStep) | None => false end.

Definition trafficSwitched (p : CommandProgress) (switchStep : CommandProgressStep) : option bool :=
  let stopOld := findStep STOP_OLD_STEP_ID p in
  let start := findStep PROMOTE_STEP_ID p in
  let health := findStep HEALTH_STEP_ID p in
  let switched := inState (Some switchStep) DoneStep || begun stopOld in
  let nextAppUnderWay := inState start RunningStep || inState health RunningStep in
  if switched then (if nextAppUnderWay then None else Some true)
  else if begun (Some switchStep) then None
  else if inState start PendingStep then Some false else None.

Definition releasePromoted (p : CommandProgress) : option bool :=
  match findStep SWITCH_STEP_ID p with
  | Some switchStep => trafficSwitched p switchStep
  | None =>
      match findStep PROMOTE_STEP_ID p with
      | None => None
      | Some start =>
          if inState (Some start) DoneStep || begun (findStep HEALTH_STEP_ID p) then Some true
          else if inState (Some start) PendingStep then Some false else None
      end
  end.

Record InterruptedFacts := { lastStep : option jstring; promoted : option bool }.

(** [findLast] over the steps that began. *)
Definition lastBegun (p : CommandProgress) : option CommandProgressStep :=
  last (filter (fun x => stepState x = RunningStep \/ stepState x = DoneStep \/ stepState x = FailedStep)
         (steps p)).

Definition interruptedFacts (progress : option CommandProgress) : InterruptedFacts :=
  match progress with
  | None => {| lastStep := None; promoted := None |}
  | Some p =>
      let named := match current p with Some id => findStep id p | None => None end in
      let found := match named with Some x => Some x | None => lastBegun p end in
      {| lastStep := stepLabel <$> found; promoted := releasePromoted p |}
  end.

Definition releaseNote (p : option bool) : jstring :=
  match p with
  | None => []
  | Some true => "; the new release had been made live"
  | Some false => "; the new release had not been made live"
  end.

(** An empty label counts as no step. *)
Definition interruptedMessage (f : InterruptedFacts) : jstring :=
  let step : jstring :=
    match lastStep f with
    | Some (c :: l) => ("last step: " : jstring) ++ c :: l
    | _ => "no step reported"
    end in
  ("The daemon restarted while this command was running (" : jstring) ++ step ++ releaseNote (promoted f)
  ++ "). The host may be partly changed; check it before running again.".

Definition journaledOutcome (entry : option JournalEntry) (id : jstring) : option OutcomeMessage :=
  e ← entry;
  o ← entryOutcome e;
  if decide (outcomeId o = id) then Some o else None.

Definition interruptedReply (t : Z) (id : jstring) (f : InterruptedFacts) : OutcomeMessage := {|
  outcomeId := id;
  outcomeMembers :=
    [("ok" : jstring, JBool false); ("error" : jstring, JStr (interruptedMessage f));
     ("result" : jstring, JObj (("interrupted" : jstring, JBool true)
        :: match lastStep f with Some l => [("lastStep" : jstring, JStr l)] | None => [] end
        ++ match promoted f with Some b => [("releasePromoted" : jstring, JBool b)] | None => [] end));
     ("at" : jstring, JStr (toISOString t)); ("daemonRespondedAt" : jstring, JStr (toISOString t))]
|}.

Definition orphanReply (e : env) (id : jstring) (entry : option JournalEntry) : OutcomeMessage :=
  match journaledOutcome entry id with
  | Some o => stamped (now e) o
  | None => interruptedReply (now e) id (interruptedFacts (entry ≫= entryProgress))
  end.

(** ** Sockets and sending *)

Definition useSocket (e : env) (ws : socket) (s : outbox) : outbox :=
  if decide (currentSocket s = Some ws) then s
  else onBurstWindow (fun _ => (now e, 0)) (onSentOnSocket (fun _ => []) (onCurrentSocket (fun _ => Some ws) s)).

(** [burstLeft()]: the refreshed window, and what it still allows. *)
Definition refreshed (e : env) (w : Z * Z) : Z * Z :=
  if RESEND_INTERVAL_MS <=? now e - w.1 then (now e, 0) else w.
Definition burstLeft (e : env) (s : outbox) : Z * outbox :=
  let s := onBurstWindow (refreshed e) s in
  (OUTCOME_BURST_MAX - (burstWindow s).2, s).

Definition noteSent (e : env) (id : jstring) (s : outbox) : outbox :=
  onBurstWindow (fun w => (w.1, w.2 + 1)) (onSentOnSocket (mapSet id (now e)) s).

Definition recovers (e : env) (s : outbox) : bool := currentPeer s && peerSupports e.
Definition keepsUntilAck (e : env) (s : outbox) : bool :=
  recovers e s || (currentPeer s && bool_decide (peerKnown e = Some false)).
Definition recoveryEnabled (e : env) (s : outbox) : bool := recovers e s.

Definition trySend (e : env) (ws : option socket) (kind : frame_kind) (message : jval) (s : outbox)
    : bool * outbox :=
  match ws with
  | None => (false, s)
  | Some w =>
      if isOpen e w && negb (sendThrows e w message)
      then (true, onFrames (fun l => l ++ [Frame w (now e) kind message]) s)
      else (false, s)
  end.

Definition sendCommandFrame (e : env) (ws : socket) (message : jval) (s : outbox) : bool * outbox :=
  let '(sent, s) := trySend e (currentSocket s) ProgressFrame message s in
  if sent then (true, s) else trySend e (Some ws) ProgressFrame message s.

Definition sendLive (e : env) (ws : socket) (o : OutcomeMessage) (s : outbox) : bool * outbox :=
  let '(sent, s) := trySend e (currentSocket s) LiveFrame (outcomeJson o) s in
  if sent then (true, noteSent e (outcomeId o) s) else trySend e (Some ws) LiveFrame (outcomeJson o) s.

Definition sendOutcome (e : env) (ws : socket) (o : OutcomeMessage) (s : outbox) : bool * outbox :=
  sendLive e ws (stamped (now e) o) s.

Definition sendKept (e : env) (o : OutcomeMessage) (s : outbox) : bool * outbox :=
  let '(room, s) := burstLeft e s in
  if room <=? 0 then (false, s)
  else
    let '(sent, s) := trySend e (currentSocket s) KeptFrame (outcomeJson (stamped (now e) o)) s in
    if sent then (true, noteSent e (outcomeId o) s) else (false, s).

(** [for (const outcome of l) if (!sendKept(outcome)) break;] *)
Fixpoint sendEach (e : env) (l : list OutcomeMessage) (s : outbox) : outbox :=
  match l with
  | [] => s
  | o :: l' => let '(sent, s) := sendKept e o s in if sent then sendEach e l' s else s
  end.

(** ** Journal writes *)

Definition spawn (group : option nat) (w : work) (s : outbox) : outbox :=
  onTasks (fun l => l ++ [Task group w]) s.
Definition freshNumber (s : outbox) : nat * outbox := (serial s, onSerial S s).

Definition entryFor (e : env) (s : outbox) (id : jstring) (progress : option CommandProgress)
    (outcome : option OutcomeMessage) (journaledAt : option jstring) : JournalEntry := {|
  entryId := id;
  entryAcceptedAt := default (toISOString (now e)) (mapGet (acceptedAt s) id);
  entryProgress := progress; entryOutcome := outcome; entryJournaledAt := journaledAt
|}.

Definition removeJournal (group : option nat) (id : jstring) (s : outbox) : outbox :=
  match journalFile id with
  | None => s
  | Some file => spawn group (Removing file) s
  end.

(** A chain is numbered when it begins; an id without one begins a new one. *)
Definition queueWrite (group : option nat) (id : jstring) (w : journal_write) (s : outbox) : outbox :=
  let '(chain, s) := match mapGet (writeChains s) id with
                     | Some c => (c, s)
                     | None => freshNumber s
                     end in
  onWriteChains (mapSet id chain) (spawn group (Queued chain id w) s).

Definition markCommandInFlight (e : env) (id : jstring) (s : outbox) : outbox :=
  let s := onRunning (fun l => setAdd l id) s in
  let s := onAcceptedAt (mapSet id (toISOString (now e))) s in
  queueWrite None id WriteAccepted s.

Definition progressFrame (e : env) (id commandId : jstring) (p : CommandProgress) : jval :=
  JObj [("type" : jstring, JStr "command-progress"); ("id" : jstring, JStr id);
        ("commandId" : jstring, JStr commandId); ("at" : jstring, JStr (toISOString (now e)));
        ("progress" : jstring, progressJson p)].

Definition answerRepeatedDispatch (e : env) (ws : socket) (id commandId : jstring) (s : outbox)
    : bool * outbox :=
  let s := if isOpen e ws then useSocket e ws s else s in
  if memb id (running s) then
    match mapGet (lastProgress s) id with
    | Some latest => (true, (sendCommandFrame e ws (progressFrame e id commandId (trackedProgress latest)) s).2)
    | None => (true, s)
    end
  else
    match mapGet (held s) id, mapGet (unacked s) id with
    | Some kept, _ | None, Some kept => (true, (sendOutcome e ws kept s).2)
    | None, None => (false, s)
    end.

Section texts.
Context `{JsTables} `{JsDates}.

Definition planSignature (p : CommandProgress) : jstring :=
  JSON_stringify (JArr [JArr (map (fun x => JStr (stepId x ++ 58%N :: stepStateName (stepState x))) (steps p));
                        orNull (current p); orNull (default None (runningSince p))]).

Definition noteCommandProgress (e : env) (id : jstring) (p : CommandProgress) (s : outbox) : outbox :=
  if memb id (running s) then
    let sign := planSignature p in
    let track := {| trackedProgress := p; signature := sign; writtenAt := now e |} in
    let journaling := queueWrite None id (WriteProgress p) (onLastProgress (mapSet id track) s) in
    match mapGet (lastProgress s) id with
    | Some previous =>
        if bool_decide (signature previous <> sign)
           || (PROGRESS_JOURNAL_INTERVAL_MS <=? now e - writtenAt previous)
        then journaling
        else onLastProgress (mapSet id {| trackedProgress := p; signature := signature previous;
                                          writtenAt := writtenAt previous |}) s
    | None => journaling
    end
  else s.

(** ** Keeping, sending again, forgetting *)

Definition scheduleResend (s : outbox) : outbox :=
  if resendTimer s || (bool_decide (unacked s = []) && bool_decide (held s = [])) then s
  else onResendTimer (fun _ => true) s.

(** [deliverCommandOutcome] up to its journal write. *)
Definition deliverCommandOutcome (e : env) (ws : socket) (o : OutcomeMessage) (s : outbox) : outbox :=
  let id := outcomeId o in
  let s := onLastProgress (mapDelete id) (onRunning (filter (fun x => x <> id)) s) in
  let entry := entryFor e s id None (Some o) (Some (toISOString (now e))) in
  let '(group, s) := freshNumber s in
  spawn None (Then group (Delivered ws o)) (queueWrite (Some group) id (WriteFinal entry) s).

(** ... and after it. *)
Definition deliveredOutcome (e : env) (ws : socket) (o : OutcomeMessage) (s : outbox) : outbox :=
  let id := outcomeId o in
  let s := onAcceptedAt (mapDelete id) s in
  let '(sent, s) := sendLive e ws o s in
  if keepsUntilAck e s then scheduleResend (onUnacked (mapSet id o) s)
  else if sent then removeJournal None id s
  else onHeld (mapSet id o) s.

Definition forgetOutcome (group : option nat) (id : jstring) (s : outbox) : outbox :=
  if memb id (running s) then s
  else removeJournal group id
    (onWriteChains (mapDelete id) (onKeptSince (mapDelete id) (onHeld (mapDelete id) (onUnacked (mapDelete id) s)))).
Definition acknowledgeCommandOutcome (id : jstring) (s : outbox) : outbox := forgetOutcome None id s.

(** An infinite [minAgeMs] is no age. *)
Definition dueAgain (e : env) (minAgeMs : option Z) (s : outbox) (o : OutcomeMessage) : bool :=
  match mapGet (sentOnSocket s) (outcomeId o) with
  | None => true
  | Some t => match minAgeMs with Some age => age <=? now e - t | None => false end
  end.
Definition lastSent (s : outbox) (o : OutcomeMessage) : option Z :=
  Some (default (-1) (mapGet (sentOnSocket s) (outcomeId o))).

Definition resendUnacked (e : env) (minAgeMs : option Z) (s : outbox) : outbox :=
  match currentSocket s with
  | Some ws =>
      if isOpen e ws
      then sendEach e (sortByKey (lastSent s) (filter (fun o => dueAgain e minAgeMs s o = true)
                                                 (map snd (unacked s)))) s
      else s
  | None => s
  end.

(** The loop of [flushHeld] for a control plane that does not confirm: what
    went out, in order. *)
Fixpoint flushEach (e : env) (l : jsmap OutcomeMessage) (s : outbox) : list jstring * outbox :=
  match l with
  | [] => ([], s)
  | (id, o) :: l' =>
      let '(sent, s) := if mapHas (sentOnSocket s) id then (true, s) else sendKept e o s in
      if sent
      then let '(ids, s) := flushEach e l' (onHeld (mapDelete id) s) in (id :: ids, s)
      else ([], s)
  end.

Definition flushHeld (e : env) (group : option nat) (s : outbox) : outbox :=
  if recovers e s
  then onHeld (fun _ => []) (onUnacked (fun m => foldl (fun m x => mapSet x.1 x.2 m) m (held s)) s)
  else let '(ids, s) := flushEach e (held s) s in foldl (fun s id => removeJournal group id s) s ids.

Definition releaseForOlderPeer (e : env) (s : outbox) : outbox :=
  if recovers e s then s
  else onUnacked (fun _ => []) (onHeld (fun m => foldl (fun m x => mapSet x.1 x.2 m) m (unacked s)) s).

(** The timer's callback. *)
Definition resendFires (e : env) (s : outbox) : outbox :=
  if resendTimer s then
    let s := resendUnacked e (Some RESEND_INTERVAL_MS) (onResendTimer (fun _ => false) s) in
    scheduleResend (if keepsUntilAck e s then s else flushHeld e None s)
  else s.

(** ** After a restart *)

Definition outcomeTime (o : option OutcomeMessage) : option Z :=
  x ← o; match getEntry (outcomeMembers x) "at" with Some (JStr t) => Date_parse t | _ => None end.
Definition outcomeTimeIso (o : option OutcomeMessage) : option jstring :=
  x ← o;
  match getEntry (outcomeMembers x) "at" with
  | Some (JStr t) => match Date_parse t with Some _ => Some t | None => None end
  | _ => None
  end.

Definition entryRecordedMs (entry : option JournalEntry) : option Z :=
  e ← entry;
  match entryJournaledAt e ≫= Date_parse with
  | Some t => Some t
  | None => match outcomeTime (entryOutcome e) with
            | Some t => Some t
            | None => Date_parse (entryAcceptedAt e)
            end
  end.

(** The ids of a listing this process is neither running nor holding. *)
Definition orphanedIds (s : outbox) : list jstring :=
  filter (fun id => memb id (running s) || mapHas (held s) id || mapHas (unacked s) id = false)
    (map fst (journal s)).

Definition readJournalEntry (ok : bool) (id : jstring) (s : outbox) : option JournalEntry :=
  match journalFile id with
  | None => None
  | Some file => if ok then default None (mapGet (journal s) file) else None
  end.

Definition noteOrphan (e : env) (keep : bool) (s : outbox) (x : jstring * option JournalEntry) : outbox :=
  let s := match entryRecordedMs x.2 with Some t => onKeptSince (mapSet x.1 t) s | None => s end in
  let reply := orphanReply e x.1 x.2 in
  if keep then onUnacked (mapSet x.1 reply) s else onHeld (mapSet x.1 reply) s.

Definition journalReply (group : nat) (s : outbox) (x : jstring * option JournalEntry) : outbox :=
  match mapGet (unacked s) x.1, journaledOutcome x.2 x.1 with
  | Some reply, None => queueWrite (Some group) x.1 (WriteReply reply) s
  | _, _ => s
  end.

(** [answerOrphans] from the read entries on. *)
Definition answerOrphans (e : env) (found : list (jstring * option JournalEntry)) (s : outbox) : outbox :=
  let keep := recovers e s in
  let s := foldl (noteOrphan e keep) s found in
  let '(group, s) := freshNumber s in
  let s := if keep then foldl (journalReply group) s found else flushHeld e (Some group) s in
  spawn None (Then group OrphansAnswered) s.

Definition recordedAtMs (s : outbox) (id : jstring) : option Z :=
  match mapGet (keptSince s) id with
  | Some t => Some t
  | None => outcomeTime (mapGet (unacked s) id)
  end.

Definition tooOld (e : env) (s : outbox) (id : jstring) : bool :=
  match recordedAtMs s id with Some t => t <? now e - UNACKED_RETENTION_MS | None => false end.
Definition beyondRetention (e : env) (s : outbox) : list jstring :=
  let ids := map fst (unacked s) in
  let stale := filter (fun id => tooOld e s id = true) ids in
  let overflow := take (length ids - length stale - UNACKED_MAX_ENTRIES)
                    (sortByKey (recordedAtMs s) (filter (fun id => id ∉ stale) ids)) in
  stale ++ overflow.

Definition pruneUnacked (e : env) (s : outbox) : outbox :=
  let '(group, s) := freshNumber s in
  spawn None (Then group Pruned) (foldl (fun s id => forgetOutcome (Some group) id s) s (beyondRetention e s)).

(** ** Sessions *)

Definition noteSessionOpen (e : env) (ws : socket) (peer : bool) (s : outbox) : outbox :=
  let s := onCurrentPeer (orb peer) s in
  if isOpen e ws then
    let s := useSocket e ws s in
    scheduleResend (sendEach e (map snd (unacked s) ++ map snd (held s)) s)
  else s.

(** [flushCommandOutcomes] up to its first wait. *)
Definition flushCommandOutcomes (e : env) (ws : socket) (peer : bool) (s : outbox) : outbox :=
  let s := releaseForOlderPeer e (onCurrentPeer (orb peer) (useSocket e ws s)) in
  let '(group, s) := freshNumber s in
  spawn None (Then group (HeldFlushed ws)) (flushHeld e (Some group) s).

Definition boundedIds (ids : list jstring) : list jstring :=
  take REPORT_MAX_IDS
    (filter (fun id => (0 < length id)%nat /\ (length id <= REPORT_MAX_ID_CHARS)%nat) ids).

Record CommandRecoveryReport := { reportRunning : list jstring; reportUnacked : list jstring }.

Definition commandRecoveryReport (s : outbox) : option CommandRecoveryReport :=
  let runningIds := boundedIds (running s) in
  let unackedIds := boundedIds (distinct (map fst (unacked s) ++ map fst (held s))) in
  match runningIds, unackedIds with
  | [], [] => None
  | _, _ => Some {| reportRunning := runningIds; reportUnacked := unackedIds |}
  end.

(** ** One stretch at a time *)

(** What a write whose turn has come writes; nothing when the command is over. *)
Definition entryToWrite (e : env) (id : jstring) (w : journal_write) (s : outbox) : option JournalEntry :=
  match w with
  | WriteAccepted => Some (entryFor e s id None None None)
  | WriteProgress p => if memb id (running s) then Some (entryFor e s id (Some p) None None) else None
  | WriteFinal entry => Some entry
  | WriteReply reply =>
      Some (entryFor e s id None (Some reply)
              (Some (default (toISOString (now e)) (outcomeTimeIso (Some reply)))))
  end.

Definition chainOf (w : work) : option nat :=
  match w with Queued c _ _ | Writing c _ _ => Some c | _ => None end.

(** A write waits for the earlier ones of its chain, a continuation for the
    tasks of its group. *)
Definition enabled (l : list task) (i : nat) (w : work) : bool :=
  match w with
  | Queued c _ _ => negb (existsb (fun t => bool_decide (chainOf (toDo t) = Some c)) (take i l))
  | Then g _ => negb (existsb (fun t => bool_decide (ofGroup t = Some g)) l)
  | _ => true
  end.

Definition goesOn (e : env) (k : continuation) (s : outbox) : outbox :=
  match k with
  | Delivered ws o => deliveredOutcome e ws o s
  | HeldFlushed ws =>
      if isOpen e ws
      then let '(group, s) := freshNumber s in spawn None (Then group ListJournal) s
      else s
  | ListJournal => s
  | ReadEntries ids seen => answerOrphans e (map (fun id => (id, default None (mapGet seen id))) ids) s
  | OrphansAnswered => pruneUnacked e s
  | Pruned => scheduleResend (resendUnacked e None s)
  end.

(** How a file system call ends; [pick] says which of the reads of
    [answerOrphans] under way ends. *)
Record io := { succeeds : bool; pick : nat }.

Definition replace (i : nat) (t : task) (s : outbox) : outbox := onTasks (fun l => <[i := t]> l) s.
Definition drops (i : nat) (s : outbox) : outbox := onTasks (delete i) s.

Definition resume (e : env) (i : nat) (x : io) (s : outbox) : outbox :=
  match tasks s !! i with
  | None => s
  | Some (Task group w) =>
      if enabled (tasks s) i w then
        match w with
        | Queued c id wr =>
            match entryToWrite e id wr s, journalFile id with
            | Some entry, Some _ => replace i (Task group (Writing c id entry)) s
            | _, _ => drops i s
            end
        | Writing _ id entry =>
            let s := drops i s in if succeeds x then onJournal (mapSet id (Some entry)) s else s
        | Removing id =>
            let s := drops i s in if succeeds x then onJournal (mapDelete id) s else s
        | Then g ListJournal =>
            replace i (Task group (Then g (ReadEntries (if succeeds x then orphanedIds s else []) []))) s
        | Then g (ReadEntries ids seen) =>
            match filter (fun id => mapHas seen id = false) ids !! pick x with
            | Some id =>
                replace i (Task group (Then g (ReadEntries ids
                  (mapSet id (readJournalEntry (succeeds x) id s) seen)))) s
            | None => if forallb (mapHas seen) ids then goesOn e (ReadEntries ids seen) (drops i s) else s
            end
        | Then _ k => goesOn e k (drops i s)
        end
      else s
  end.

Inductive action :=
| Mark (id : jstring)
| Dispatch (ws : socket) (id commandId : jstring)
| Progress (id : jstring) (p : CommandProgress)
| Deliver (ws : socket) (o : OutcomeMessage)
| Ack (id : jstring)
| SessionOpen (ws : socket) (peer : bool)
| SessionAttach (ws : socket) (peer : bool)
| SendFrame (ws : socket) (message : jval)
| Timer
| Resume (i : nat) (x : io)
| Restart.

Definition act (e : env) (a : action) (s : outbox) : outbox :=
  match a with
  | Mark id => markCommandInFlight e id s
  | Dispatch ws id commandId => (answerRepeatedDispatch e ws id commandId s).2
  | Progress id p => noteCommandProgress e id p s
  | Deliver ws o => deliverCommandOutcome e ws o s
  | Ack id => acknowledgeCommandOutcome id s
  | SessionOpen ws peer => noteSessionOpen e ws peer s
  | SessionAttach ws peer => flushCommandOutcomes e ws peer s
  | SendFrame ws message => (sendCommandFrame e ws message s).2
  | Timer => resendFires e s
  | Resume i x => resume e i x s
  | Restart => onFrames (fun _ => frames s) (emptyOutbox (journal s))
  end.

Definition acts (l : list (env * action)) (s : outbox) : outbox :=
  foldl (fun s x => act x.1 x.2 s) s l.
End texts.
