(* ===== verification/CmdKeeping.v ===== *)
(** * No outcome is lost ([commands/command-outbox.ts])

    What the outbox promises, over every interleaving of calls, resumed tasks
    and failing file system calls and sends: an outcome it was given stays in
    memory, and a command it journaled stays in the journal, until the control
    plane confirmed it, an older control plane was sent it, or the retention
    bound dropped it. *)

From stdpp Require Import list sorting.
From S2P Require Import Prelude Json Number JsonPrint Dates CmdOutbox.

#[local] Open Scope Z_scope.

(** ** Maps *)

Lemma mapHas_elem {A} (m : jsmap A) k : mapHas m k = true <-> k ∈ map fst m.
Proof.
  unfold mapHas. pose proof (mapGet_None m k) as HN. destruct (mapGet m k) as [v |] eqn:E.
  - split; [intros _ | done]. destruct (decide (k ∈ map fst m)) as [? | n]; [done |].
    apply HN in n. congruence.
  - split; [done |]. intros Hin. exfalso. apply HN in Hin; done.
Qed.

Lemma mapHas_set {A} k k' (v : A) m : mapHas (mapSet k v m) k' = true <-> k' = k \/ mapHas m k' = true.
Proof.
  unfold mapHas. destruct (decide (k' = k)) as [-> | n].
  - rewrite mapGet_set. naive_solver.
  - rewrite mapGet_set_ne by congruence. naive_solver.
Qed.

Lemma mapGet_delete {A} k k' (m : jsmap A) :
  mapGet (mapDelete k m) k' = if decide (k' = k) then None else mapGet m k'.
Proof.
  unfold mapDelete, jsmap in *. induction m as [| [k0 v] m IH]; [by case_decide |].
  rewrite filter_cons. cbn. repeat case_decide; cbn; repeat case_decide; naive_solver.
Qed.

Lemma mapHas_delete {A} k k' (m : jsmap A) :
  mapHas (mapDelete k m) k' = true <-> k' <> k /\ mapHas m k' = true.
Proof. unfold mapHas. rewrite mapGet_delete. case_decide; naive_solver. Qed.

Lemma mapSet_Forall {A} (P : jstring * A -> Prop) k v m :
  P (k, v) -> Forall P m -> Forall P (mapSet k v m).
Proof.
  intros Hk. induction 1 as [| [k' v'] m Hm Hr IH]; cbn; [by repeat constructor |].
  case_decide; subst; constructor; done.
Qed.

Lemma mapDelete_Forall {A} (P : jstring * A -> Prop) k m : Forall P m -> Forall P (mapDelete k m).
Proof. unfold mapDelete. intros HP. apply Forall_forall. intros x Hx. apply list_elem_of_filter in Hx as [_ Hx]. by eapply Forall_forall in HP. Qed.

Lemma mapSets_Forall {A} (P : jstring * A -> Prop) l m :
  Forall P l -> Forall P m -> Forall P (foldl (fun m x => mapSet x.1 x.2 m) m l).
Proof.
  intros Hl. revert m. induction Hl as [| [k v] l Hk _ IH]; intros m Hm; [done |].
  cbn. apply IH. by apply mapSet_Forall.
Qed.

Lemma mapSets_has {A} (l m : jsmap A) k :
  mapHas (foldl (fun m x => mapSet x.1 x.2 m) m l) k = true <-> mapHas l k = true \/ mapHas m k = true.
Proof.
  revert m. induction l as [| [k' v] l IH]; intros m; [naive_solver |]. cbn [foldl]. rewrite IH, mapHas_set.
  rewrite (mapHas_elem ((k', v) :: l)), (mapHas_elem l). cbn. rewrite elem_of_cons. naive_solver.
Qed.

#[local] Arguments mapDelete : simpl never.
#[local] Arguments mapSet : simpl never.

(** ** What the parts of a stretch leave alone *)

(** Only sockets, the sending window and the frames change. *)
Definition talks (s s' : outbox) : Prop :=
  held s' = held s /\ unacked s' = unacked s /\ running s' = running s /\
  currentPeer s' = currentPeer s /\ journal s' = journal s /\ tasks s' = tasks s /\
  frames s `prefix_of` frames s'.

(** The kept outcomes, the peer and the journal are as before; tasks and frames
    are only added. *)
Definition adds (s s' : outbox) : Prop :=
  held s' = held s /\ unacked s' = unacked s /\ currentPeer s' = currentPeer s /\
  journal s' = journal s /\ tasks s `prefix_of` tasks s' /\ frames s `prefix_of` frames s'.

#[global] Instance talks_preorder : PreOrder talks.
Proof.
  split; [intros s; by repeat split |].
  intros a b c (? & ? & ? & ? & ? & ? & ?) (? & ? & ? & ? & ? & ? & ?). repeat split; try congruence.
  by etransitivity.
Qed.
#[global] Instance adds_preorder : PreOrder adds.
Proof.
  split; [intros s; by repeat split |].
  intros a b c (? & ? & ? & ? & ? & ?) (? & ? & ? & ? & ? & ?). repeat split; try congruence; by etransitivity.
Qed.
Lemma talks_adds s s' : talks s s' -> adds s s'.
Proof. intros (? & ? & ? & ? & ? & Ht & ?). repeat split; try congruence. by rewrite Ht. Qed.

(** A frame that answers a command. *)
Definition answers (id : jstring) (f : frame) : Prop :=
  exists o, outcomeId o = id /\ frameJson f = outcomeJson o.
Definition answered (id : jstring) (s : outbox) : Prop := Exists (answers id) (frames s).

(** Outcomes are filed under their own id, and what was noted as sent was. *)
Definition filed (m : jsmap OutcomeMessage) : Prop := Forall (fun x => outcomeId x.2 = x.1) m.
Definition noted (s : outbox) : Prop :=
  forall id, mapHas (sentOnSocket s) id = true -> answered id s.
Definition wf (s : outbox) : Prop := filed (held s) /\ filed (unacked s) /\ noted s.

Lemma answered_grows id s s' : frames s `prefix_of` frames s' -> answered id s -> answered id s'.
Proof. intros [l Hl]. unfold answered. rewrite Hl, Exists_app. by left. Qed.

Ltac shallow := repeat split; cbn; try done; try apply prefix_app_r; try done.

Lemma spawn_adds g w s : adds s (spawn g w s).
Proof. shallow. Qed.
Lemma removeJournal_adds g id s : adds s (removeJournal g id s).
Proof. unfold removeJournal. destruct (journalFile id); [apply spawn_adds | done]. Qed.
Lemma queueWrite_adds g id w s : adds s (queueWrite g id w s).
Proof. unfold queueWrite. destruct (mapGet (writeChains s) id); shallow. Qed.
Lemma removals_adds g ids s : adds s (foldl (fun s id => removeJournal g id s) s ids).
Proof.
  revert s. induction ids as [| id ids IH]; intros s; [done |]. cbn. etransitivity; [apply (removeJournal_adds g id) | apply IH].
Qed.
Lemma scheduleResend_talks s : talks s (scheduleResend s).
Proof. unfold scheduleResend. case_match; shallow. Qed.
Lemma useSocket_talks e ws s : talks s (useSocket e ws s).
Proof. unfold useSocket. case_decide; shallow. Qed.
Lemma trySend_talks e ws k m s : talks s (trySend e ws k m s).2.
Proof. unfold trySend. repeat case_match; shallow. Qed.
Lemma noteSent_talks e id s : talks s (noteSent e id s).
Proof. shallow. Qed.
Lemma burstLeft_talks e s : talks s (burstLeft e s).2.
Proof. shallow. Qed.

(** A sent message is the last frame. *)
Lemma trySend_sent e ws k m s s' : trySend e ws k m s = (true, s') ->
  exists w, ws = Some w /\ s' = onFrames (fun l => l ++ [Frame w (now e) k m]) s.
Proof. unfold trySend. repeat case_match; intros; simplify_eq. eauto. Qed.
Lemma trySend_unsent e ws k m s s' : trySend e ws k m s = (false, s') -> s' = s.
Proof. unfold trySend. repeat case_match; intros; by simplify_eq. Qed.

(** ** Sending *)

(** Sending talks, keeps the notes true, and what it says it sent is answered. *)
Definition speaks (id : jstring) (s : outbox) (r : bool * outbox) : Prop :=
  talks s r.2 /\ (noted s -> noted r.2) /\ (r.1 = true -> answered id r.2).

Lemma answers_outcome w t k o : answers (outcomeId o) (Frame w t k (outcomeJson o)).
Proof. by exists o. Qed.

Lemma noted_same s s' : sentOnSocket s' = sentOnSocket s -> frames s `prefix_of` frames s' -> noted s -> noted s'.
Proof. intros E Hf Hn id. rewrite E. intros H%Hn. by eapply answered_grows. Qed.

Lemma trySend_speaks e ws k o s : speaks (outcomeId o) s (trySend e ws k (outcomeJson o) s).
Proof.
  split; [apply trySend_talks |].
  destruct (trySend e ws k (outcomeJson o) s) as [[|] s'] eqn:E; cbn.
  - apply trySend_sent in E as (w & -> & ->). split.
    + apply noted_same; [done | by apply prefix_app_r].
    + intros _. apply Exists_app. right. constructor. apply answers_outcome.
  - apply trySend_unsent in E as ->. done.
Qed.

Lemma noted_noteSent e id s : answered id s -> noted s -> noted (noteSent e id s).
Proof. intros Ha Hn id'. cbn. rewrite mapHas_set. intros [-> | H]; [done | by apply Hn]. Qed.

Lemma sendLive_speaks e ws o s : speaks (outcomeId o) s (sendLive e ws o s).
Proof.
  unfold sendLive. pose proof (trySend_speaks e (currentSocket s) LiveFrame o s) as (Ht & Hn & Ha).
  destruct (trySend e (currentSocket s) LiveFrame (outcomeJson o) s) as [[|] s1]; cbn in *.
  - split; [etransitivity; [done | apply noteSent_talks] |]. split; [| intros _; by apply Ha].
    intros H. apply noted_noteSent; auto.
  - destruct (trySend_speaks e (Some ws) LiveFrame o s1) as (Ht' & Hn' & Ha').
    split; [by etransitivity | auto].
Qed.

Lemma sendKept_speaks e o s : speaks (outcomeId o) s (sendKept e o s).
Proof.
  unfold sendKept, burstLeft. set (s0 := onBurstWindow _ s).
  assert (talks s s0 /\ (noted s -> noted s0)) as [Ht0 Hn0] by shallow.
  case_match; [by repeat split |].
  pose proof (trySend_speaks e (currentSocket s0) KeptFrame (stamped (now e) o) s0) as (Ht & Hn & Ha).
  destruct (trySend e (currentSocket s0) KeptFrame _ s0) as [[|] s1]; cbn in *.
  - split; [do 2 (etransitivity; [done |]); apply noteSent_talks |]. split; [| intros _; by apply Ha].
    intros Hs. apply noted_noteSent; auto.
  - split; [by etransitivity | split; [auto | done]].
Qed.

Lemma sendEach_talks e l s : talks s (sendEach e l s) /\ (noted s -> noted (sendEach e l s)).
Proof.
  revert s. induction l as [| o l IH]; intros s; [done |]. cbn [sendEach].
  pose proof (sendKept_speaks e o s) as (Ht & Hn & _). destruct (sendKept e o s) as [[|] s1]; cbn in *; [| by split].
  destruct (IH s1). split; [by etransitivity | auto].
Qed.

Lemma resendUnacked_talks e age s : talks s (resendUnacked e age s) /\ (noted s -> noted (resendUnacked e age s)).
Proof. unfold resendUnacked. repeat case_match; try done. apply sendEach_talks. Qed.

Lemma useSocket_noted e ws s : noted s -> noted (useSocket e ws s).
Proof. unfold useSocket. case_decide; [done |]. intros _ id. done. Qed.

Lemma sendFrame_talks e ws m s :
  talks s (sendCommandFrame e ws m s).2 /\ (noted s -> noted (sendCommandFrame e ws m s).2).
Proof.
  assert (forall w, talks s (trySend e w ProgressFrame m s).2 /\ (noted s -> noted (trySend e w ProgressFrame m s).2)) as Hone.
  { intros w. split; [apply trySend_talks |]. destruct (trySend e w ProgressFrame m s) as [[|] s'] eqn:E; cbn.
    - apply trySend_sent in E as (? & -> & ->). apply noted_same; [done | by apply prefix_app_r].
    - by apply trySend_unsent in E as ->. }
  unfold sendCommandFrame. pose proof (Hone (currentSocket s)) as H1.
  destruct (trySend e (currentSocket s) ProgressFrame m s) as [[|] s1] eqn:E; [done |].
  apply trySend_unsent in E as ->. apply Hone.
Qed.

(** ** Letting go *)

(** The loop of [flushHeld]: it lets go of outcomes the other side was sent,
    and of nothing else. *)
Lemma flushEach_sound e l s ids s' :
  flushEach e l s = (ids, s') -> noted s -> filed l ->
  noted s' /\ frames s `prefix_of` frames s' /\ unacked s' = unacked s /\ tasks s' = tasks s /\
  journal s' = journal s /\ currentPeer s' = currentPeer s /\ running s' = running s /\
  (filed (held s) -> filed (held s')) /\
  (forall id, mapHas (held s) id = true -> mapHas (held s') id = true \/ id ∈ ids) /\
  Forall (fun id => answered id s') ids.
Proof.
  intros E Hn Hf. revert s ids s' E Hn. induction Hf as [| [id o] l Ho _ IH]; cbn [flushEach]; intros s ids s' E Hn.
  { simplify_eq. repeat split; auto. }
  cbn in Ho. set (r := if mapHas (sentOnSocket s) id then (true, s) else sendKept e o s) in E.
  assert (speaks id s r) as (Ht & Hn1 & Ha).
  { subst r. destruct (mapHas _ id) eqn:Em; [split; [done |]; split; [done | intros _; by apply Hn] |].
    rewrite <- Ho. apply sendKept_speaks. }
  destruct r as [[|] s1]; cbn in *.
  - destruct (flushEach e l (onHeld (mapDelete id) s1)) as [ids' s2] eqn:E2. simplify_eq.
    destruct (IH _ _ _ E2) as (N & F & U & T & J & P & R & Fi & Hh & A); [by apply Hn1 |].
    destruct Ht as (t1 & t2 & t3 & t4 & t5 & t6 & t7). cbn in *.
    repeat split; try congruence; try done.
    + by etransitivity.
    + intros Hfs. apply Fi, mapDelete_Forall. by rewrite t1.
    + intros id' H'. destruct (decide (id' = outcomeId o)) as [-> | n]; [right; left |].
      rewrite <- t1 in H'. destruct (Hh id') as [? | ?]; [by apply mapHas_delete | by left | by right; right].
    + constructor; [| done]. eapply answered_grows; [exact F |]. by apply Ha.
  - simplify_eq. destruct Ht as (t1 & t2 & t3 & t4 & t5 & t6 & t7). repeat split; try congruence; auto.
    + intros id' ?. left. by rewrite t1.
Qed.

(** ** Keeping, stretch by stretch *)

Definition inMemory (id : jstring) (s : outbox) : Prop :=
  mapHas (held s) id = true \/ mapHas (unacked s) id = true.

(** The rest of a delivery of [id] waits for its journal write. *)
Definition delivers (id : jstring) (t : task) : Prop :=
  exists g ws o, toDo t = Then g (Delivered ws o) /\ outcomeId o = id.
Definition removes (id : jstring) (t : task) : Prop := toDo t = Removing id.
Definition kept (id : jstring) (s : outbox) : Prop := inMemory id s \/ Exists (delivers id) (tasks s).
Definition removing (id : jstring) (s : outbox) : Prop := Exists (removes id) (tasks s).

(** [id] was sent, to a control plane that does not confirm. *)
Definition gaveUp (e : env) (id : jstring) (s : outbox) : Prop := recovers e s = false /\ answered id s.

(** What a part of a stretch may do about [id]: memory loses it and a removal of
    its journal file starts only when it was given up. *)
Record minded (e : env) (id : jstring) (s s' : outbox) : Prop := {
  minded_wf : wf s';
  minded_frames : frames s `prefix_of` frames s';
  minded_journal : journal s' = journal s;
  minded_peer : currentPeer s' = currentPeer s;
  minded_memory : inMemory id s -> inMemory id s' \/ gaveUp e id s';
  minded_tasks : exists extra, tasks s' = tasks s ++ extra /\ (Exists (removes id) extra -> gaveUp e id s')
}.
Definition minds (e : env) (id : jstring) (s s' : outbox) : Prop := wf s -> minded e id s s'.

Lemma gaveUp_grows e id s s' :
  frames s `prefix_of` frames s' -> currentPeer s' = currentPeer s -> gaveUp e id s -> gaveUp e id s'.
Proof. intros Hf Hp [Hr Ha]. split; [unfold recovers in *; by rewrite Hp | by eapply answered_grows]. Qed.

Section minding.
Context (e : env) (id : jstring).

Lemma same_tasks s s' : tasks s' = tasks s ->
  exists extra, tasks s' = tasks s ++ extra /\ (Exists (removes id) extra -> gaveUp e id s').
Proof. intros ->. exists []. rewrite app_nil_r. split; [done |]. by inversion 1. Qed.

#[local] Hint Resolve same_tasks : core.

#[global] Instance minds_preorder : PreOrder (minds e id).
Proof.
  split; [intros s Hw; constructor; auto; by left |].
  intros a b c H1 H2 Hw. destruct (H1 Hw) as [W1 F1 J1 P1 M1 (x1 & T1 & R1)].
  destruct (H2 W1) as [W2 F2 J2 P2 M2 (x2 & T2 & R2)]. constructor; try congruence; try done.
  - by etransitivity.
  - intros [Hm | Hg]%M1; [by apply M2 | right; by eapply gaveUp_grows].
  - exists (x1 ++ x2). rewrite T2, T1, app_assoc. split; [done |]. rewrite Exists_app.
    intros [Hx%R1 | Hx%R2]; [by eapply gaveUp_grows | done].
Qed.

Lemma minds_talks s s' : talks s s' -> (noted s -> noted s') -> minds e id s s'.
Proof.
  intros (Eh & Eu & _ & Ep & Ej & Et & Hf) Hn (Hh & Hu & Hs). constructor; auto.
  - unfold wf. rewrite Eh, Eu. auto.
  - unfold inMemory. rewrite Eh, Eu. by left.
Qed.

(** A change of the bookkeeping variables. *)
Lemma minds_same s s' :
  held s' = held s -> unacked s' = unacked s -> tasks s' = tasks s -> frames s' = frames s ->
  journal s' = journal s -> currentPeer s' = currentPeer s -> sentOnSocket s' = sentOnSocket s ->
  minds e id s s'.
Proof.
  intros Eh Eu Et Ef Ej Ep Es (Hh & Hu & Hs). constructor; auto.
  - unfold wf, filed, noted, answered in *. rewrite Eh, Eu, Es, Ef. auto.
  - by rewrite Ef.
  - unfold inMemory. rewrite Eh, Eu. by left.
Qed.

Lemma minds_spawn g w s : w <> Removing id \/ gaveUp e id s -> minds e id s (spawn g w s).
Proof.
  intros Hw Hs. constructor; cbn; auto. exists [Task g w]. split; [done |].
  intros [x [->%list_elem_of_singleton Hx]]%Exists_exists. by destruct Hw as [Hw | Hw].
Qed.

Lemma minds_removeJournal g i s : i <> id \/ gaveUp e id s -> minds e id s (removeJournal g i s).
Proof.
  intros Hi. unfold removeJournal, journalFile. destruct (UNSAFE_ID i); [done |]. apply minds_spawn. naive_solver.
Qed.

Lemma minds_queueWrite g i w s : minds e id s (queueWrite g i w s).
Proof.
  unfold queueWrite. destruct (mapGet (writeChains s) i) as [c |].
  - etransitivity; [apply (minds_spawn g (Queued c i w)); by left | by apply minds_same].
  - etransitivity; [by apply (minds_same s (onSerial S s)) |].
    etransitivity; [apply (minds_spawn g (Queued (serial s) i w)); by left | by apply minds_same].
Qed.

Lemma minds_unacked i o s : outcomeId o = i -> minds e id s (onUnacked (mapSet i o) s).
Proof.
  intros Ho (Hh & Hu & Hn). constructor; auto.
  - split; [done |]. split; [by apply mapSet_Forall | done].
  - unfold inMemory. cbn. rewrite mapHas_set. naive_solver.
Qed.

Lemma minds_held i o s : outcomeId o = i -> minds e id s (onHeld (mapSet i o) s).
Proof.
  intros Ho (Hh & Hu & Hn). constructor; auto.
  - split; [by apply mapSet_Forall | done].
  - unfold inMemory. cbn. rewrite mapHas_set. naive_solver.
Qed.

Lemma minds_scheduleResend s : minds e id s (scheduleResend s).
Proof. unfold scheduleResend. case_match; [done | by apply minds_same]. Qed.

Lemma minds_useSocket ws s : minds e id s (useSocket e ws s).
Proof. apply minds_talks; [apply useSocket_talks | apply useSocket_noted]. Qed.

Lemma minds_resend age s : minds e id s (resendUnacked e age s).
Proof. apply minds_talks; apply resendUnacked_talks. Qed.

Lemma minds_removals g ids s :
  Forall (fun i => i = id -> gaveUp e id s) ids -> minds e id s (foldl (fun s i => removeJournal g i s) s ids).
Proof.
  revert s. induction ids as [| i ids IH]; intros s Hall Hw; [by apply minds_preorder |].
  apply Forall_cons in Hall as [Hi Hall]. cbn.
  assert (minds e id s (removeJournal g i s)) as Hm.
  { apply minds_removeJournal. destruct (decide (i = id)); [right; auto | by left]. }
  pose proof (Hm Hw) as [_ Hf _ Hp _ _]. revert Hw. change (minds e id s (foldl (fun s i => removeJournal g i s) (removeJournal g i s) ids)).
  etransitivity; [exact Hm |]. apply IH.
  eapply Forall_impl; [exact Hall |]. cbn. intros j Hj Hid. eapply gaveUp_grows; eauto.
Qed.

Lemma minds_flushEach s ids s1 :
  recovers e s = false -> flushEach e (held s) s = (ids, s1) -> wf s ->
  minded e id s s1 /\ Forall (fun i => i = id -> gaveUp e id s1) ids.
Proof.
  intros Er E (Hh & Hu & Hn).
  destruct (flushEach_sound _ _ _ _ _ E Hn Hh) as (N & F & U & T & J & P & R & Fi & Ha & A).
  assert (Forall (fun i => i = id -> gaveUp e id s1) ids) as Hall.
  { eapply Forall_impl; [exact A |]. cbn. intros i Hi <-. split; [unfold recovers in *; by rewrite P | done]. }
  split; [| done]. constructor; auto.
  - unfold wf. rewrite U. auto.
  - unfold inMemory. rewrite U. intros [[Hx | Hx]%Ha | Hx]; auto.
    eapply Forall_forall in Hall; [right; by apply Hall | done].
Qed.

Lemma minds_flushHeld g s : minds e id s (flushHeld e g s).
Proof.
  intros Hw. unfold flushHeld. destruct (recovers e s) eqn:Er.
  - destruct Hw as (Hh & Hu & Hn). constructor; auto.
    + split; [constructor |]. split; [by apply mapSets_Forall | done].
    + unfold inMemory. cbn. rewrite mapSets_has. naive_solver.
  - destruct (flushEach e (held s) s) as [ids s1] eqn:E.
    destruct (minds_flushEach _ _ _ Er E Hw) as [Hm Hall].
    refine (transitivity (R := minds e id) (y := s1) _ _ Hw); [by intros _ | by apply minds_removals].
Qed.

Lemma minds_release s : minds e id s (releaseForOlderPeer e s).
Proof.
  unfold releaseForOlderPeer. destruct (recovers e s); [done |]. intros (Hh & Hu & Hn). constructor; auto.
  - split; [by apply mapSets_Forall |]. split; [constructor | done].
  - unfold inMemory. cbn. rewrite mapSets_has. naive_solver.
Qed.

Lemma minds_fold {A} (f : outbox -> A -> outbox) l s :
  (forall s x, minds e id s (f s x)) -> minds e id s (foldl f s l).
Proof.
  intros Hf. revert s. induction l as [| x l IH]; intros s; [done |]. etransitivity; [apply Hf | apply IH].
Qed.
End minding.

(** ** The calls *)

Section calls.
Context `{JsTables} `{JsDates} (e : env) (id : jstring).

Lemma minds_mark i s : minds e id s (markCommandInFlight e i s).
Proof.
  unfold markCommandInFlight. etransitivity; [| apply minds_queueWrite]. by apply minds_same.
Qed.

Lemma minds_dispatch ws i c s : minds e id s (answerRepeatedDispatch e ws i c s).2.
Proof.
  unfold answerRepeatedDispatch. set (s1 := if isOpen e ws then _ else s).
  assert (minds e id s s1) as Hm by (subst s1; case_match; [apply minds_useSocket | done]).
  etransitivity; [exact Hm |]. repeat case_match; try done.
  - apply minds_talks; apply sendFrame_talks.
  - apply minds_talks; apply (sendLive_speaks e ws (stamped (now e) _)).
  - apply minds_talks; apply (sendLive_speaks e ws (stamped (now e) _)).
Qed.

Lemma minds_progress i p s : minds e id s (noteCommandProgress e i p s).
Proof.
  unfold noteCommandProgress. repeat case_match; try done; try by apply minds_same.
  all: etransitivity; [| apply minds_queueWrite]; by apply minds_same.
Qed.

Lemma minds_deliver ws o s : minds e id s (deliverCommandOutcome e ws o s).
Proof.
  unfold deliverCommandOutcome. cbn [freshNumber].
  etransitivity; [| apply minds_spawn; by left]. etransitivity; [| apply minds_queueWrite]. by apply minds_same.
Qed.

Lemma delivered_minded ws o s : wf s ->
  minded e id s (deliveredOutcome e ws o s) /\
  (outcomeId o = id -> inMemory id (deliveredOutcome e ws o s) \/ gaveUp e id (deliveredOutcome e ws o s)).
Proof.
  intros Hw. unfold deliveredOutcome. set (s1 := onAcceptedAt _ s).
  pose proof (sendLive_speaks e ws o s1) as (Ht & Hn & Ha). destruct (sendLive e ws o s1) as [sent s2]. cbn [fst snd] in *.
  assert (minds e id s s2) as H2.
  { etransitivity; [by apply (minds_same e id s s1) | by apply minds_talks]. }
  destruct (keepsUntilAck e s2) eqn:Ek; [| destruct sent].
  - split; [refine (transitivity (R := minds e id) H2 _ Hw) |].
    + etransitivity; [by apply minds_unacked | apply minds_scheduleResend].
    + intros <-. left. unfold inMemory. destruct (scheduleResend_talks (onUnacked (mapSet (outcomeId o) o) s2)) as (_ & -> & _).
      right. apply mapHas_set. by left.
  - assert (outcomeId o = id -> gaveUp e id s2) as Hg.
    { intros <-. split; [by apply orb_false_iff in Ek as [? _] | auto]. }
    split; [refine (transitivity (R := minds e id) H2 _ Hw) |].
    + apply minds_removeJournal. destruct (decide (outcomeId o = id)); [right; auto | by left].
    + intros Ho. right. destruct (removeJournal_adds None (outcomeId o) s2) as (_ & _ & P & _ & _ & F).
      eapply gaveUp_grows; eauto.
  - split; [refine (transitivity (R := minds e id) H2 _ Hw); by apply minds_held |].
    intros <-. left. left. apply mapHas_set. by left.
Qed.

Lemma minds_fires s : minds e id s (resendFires e s).
Proof.
  unfold resendFires. case_match; [| done].
  etransitivity; [| apply minds_scheduleResend].
  etransitivity; [by apply (minds_same e id s (onResendTimer (fun _ => false) s)) |].
  etransitivity; [apply minds_resend |]. case_match; [done | apply minds_flushHeld].
Qed.

Lemma orphanReply_id i entry : outcomeId (orphanReply e i entry) = i.
Proof.
  unfold orphanReply, journaledOutcome. destruct entry as [en |]; [| done]. cbn.
  destruct (entryOutcome en) as [o |]; [| done]. cbn. by case_decide.
Qed.

Lemma minds_orphans found s : minds e id s (answerOrphans e found s).
Proof.
  unfold answerOrphans. cbn [freshNumber]. set (s1 := foldl _ s found).
  assert (minds e id s s1) as H1.
  { apply minds_fold. intros s0 [i entry]. unfold noteOrphan. cbn [fst snd].
    destruct (recovers e s).
    all: etransitivity; [| first [apply minds_unacked | apply minds_held]; apply orphanReply_id].
    all: destruct (entryRecordedMs entry); [by apply minds_same | done]. }
  etransitivity; [exact H1 |]. etransitivity; [by apply (minds_same e id s1 (onSerial S s1)) |].
  etransitivity; [| apply minds_spawn; by left]. case_match; [| apply minds_flushHeld].
  apply minds_fold. intros s0 [i entry]. unfold journalReply. cbn. repeat case_match; try done. apply minds_queueWrite.
Qed.

Lemma minds_forget g i s : i <> id -> minds e id s (forgetOutcome g i s).
Proof.
  intros Hi. unfold forgetOutcome. case_match; [done |]. etransitivity; [| apply minds_removeJournal; by left].
  intros (Hh & Hu & Hn). constructor; cbn; auto.
  - split; [by apply mapDelete_Forall |]. split; [by apply mapDelete_Forall | done].
  - unfold inMemory. cbn. rewrite !mapHas_delete. intros [Hx | Hx]; left; [left | right]; split; congruence.
  - exists []. rewrite app_nil_r. split; [done |]. by inversion 1.
Qed.

Lemma minds_prune s : id ∉ beyondRetention e s -> minds e id s (pruneUnacked e s).
Proof.
  intros Hid. unfold pruneUnacked. cbn [freshNumber]. change (beyondRetention e (onSerial S s)) with (beyondRetention e s).
  etransitivity; [| apply minds_spawn; by left].
  etransitivity; [by apply (minds_same e id s (onSerial S s)) |].
  generalize (onSerial S s). induction (beyondRetention e s) as [| i l IH]; intros s0; [done |].
  apply not_elem_of_cons in Hid as [Hne Hid]. cbn. etransitivity; [by apply minds_forget, not_eq_sym | by apply IH].
Qed.

Lemma minds_open ws s : minds e id s (scheduleResend (sendEach e (map snd (unacked (useSocket e ws s)) ++ map snd (held (useSocket e ws s))) (useSocket e ws s))).
Proof.
  etransitivity; [apply minds_useSocket |]. etransitivity; [| apply minds_scheduleResend].
  apply minds_talks; apply sendEach_talks.
Qed.
End calls.

(** ** Every stretch *)

#[global] Instance delivers_dec id t : Decision (delivers id t).
Proof.
  destruct t as [g w]. unfold delivers. cbn.
  destruct w as [| | | g' k]; try (right; by intros (? & ? & ? & ? & ?)).
  destruct k as [ws o | | | | |]; try (right; by intros (? & ? & ? & ? & ?)).
  destruct (decide (outcomeId o = id)); [left; eauto 10 | right; intros (? & ? & ? & ? & ?); by simplify_eq].
Defined.
#[global] Instance removes_dec id t : Decision (removes id t).
Proof.
  destruct t as [g w]. unfold removes. cbn. destruct w as [| | i |]; try (by right).
  destruct (decide (i = id)); [left; congruence | right; congruence].
Defined.
#[global] Instance kept_dec id s : Decision (kept id s).
Proof. unfold kept, inMemory. apply _. Defined.
#[global] Instance removing_dec id s : Decision (removing id s).
Proof. unfold removing. apply _. Defined.

Lemma Exists_delete {A} (P : A -> Prop) l i x : l !! i = Some x -> ~ P x -> Exists P l -> Exists P (delete i l).
Proof.
  revert i. induction l as [| y l IH]; intros [| i] Hi Hx Hl; simplify_eq/=; apply Exists_cons in Hl as [Hy | Hl]; try done.
  - by left.
  - right. by eapply IH.
Qed.
Lemma Exists_delete_inv {A} (P : A -> Prop) l i : Exists P (delete i l) -> Exists P l.
Proof.
  revert i. induction l as [| y l IH]; intros [| i] Hl; cbn in *; [done | done | by right |].
  apply Exists_cons in Hl as [? | ?]; [by left | right; by eapply IH].
Qed.
Lemma Exists_replace {A} (P : A -> Prop) l i x y :
  l !! i = Some x -> ~ P x -> Exists P l -> Exists P (<[i := y]> l).
Proof.
  revert i. induction l as [| z l IH]; intros [| i] Hi Hx Hl; simplify_eq/=; apply Exists_cons in Hl as [Hz | Hl]; try done.
  - by right.
  - by left.
  - right. by eapply IH.
Qed.
Lemma Exists_replace_inv {A} (P : A -> Prop) l i y : Exists P (<[i := y]> l) -> ~ P y -> Exists P l.
Proof.
  intros [x [Hx Px]]%Exists_exists Hy. apply list_elem_of_lookup in Hx as [j Hj]. apply Exists_exists.
  apply list_lookup_insert_Some in Hj as [(-> & <- & _) | [_ Hj]]; [done |].
  exists x. split; [by eapply list_elem_of_lookup_2 | done].
Qed.

(** What a stretch does about [id]. *)
Record steps_ok (e : env) (id : jstring) (s s' : outbox) : Prop := {
  ok_wf : wf s';
  ok_kept : kept id s -> kept id s' \/ gaveUp e id s';
  ok_removing : removing id s' -> removing id s \/ gaveUp e id s';
  ok_journal : mapHas (journal s) id = true -> mapHas (journal s') id = true \/ removing id s
}.

Lemma minded_ok e id s s0 s' :
  minded e id s s' -> journal s0 = journal s ->
  (kept id s0 -> kept id s \/ gaveUp e id s') -> (removing id s -> removing id s0) -> steps_ok e id s0 s'.
Proof.
  intros [W F J P M (x & T & R)] Ej Hk Hr. constructor.
  - done.
  - intros [[Hm | Hd] | Hg]%Hk; [| | by right].
    + apply M in Hm as [? | ?]; [by left; left | by right].
    + left. right. rewrite T. apply Exists_app. by left.
  - unfold removing. rewrite T, Exists_app. intros [Hx | Hx]; [left; by apply Hr | right; by apply R].
  - rewrite J, Ej. by left.
Qed.

Section steps.
Context `{JsTables} `{JsDates}.

(** Resuming: the task at [i] goes on without touching the rest of the list. *)
Lemma ok_goesOn e id i t s s' :
  tasks s !! i = Some t -> ~ delivers id t -> wf s -> minds e id (drops i s) s' -> steps_ok e id s s'.
Proof.
  intros Hi Hd Hw Hm. eapply minded_ok; [by apply Hm | done | | apply Exists_delete_inv].
  intros [Hx | Hx]; [by left; left |]. left. right. by eapply Exists_delete.
Qed.

Lemma ok_replace e id i t t' s :
  tasks s !! i = Some t -> ~ delivers id t -> ~ removes id t' -> wf s -> steps_ok e id s (replace i t' s).
Proof.
  intros Hi Hd Hr Hw. constructor; [exact Hw | | | by left].
  - intros [Hx | Hx]; [by left; left |]. left. right. by eapply Exists_replace.
  - intros Hx. left. exact (Exists_replace_inv _ _ _ _ Hx Hr).
Qed.

(** A file system call ends. *)
Lemma ok_file e id i t s f :
  tasks s !! i = Some t -> ~ delivers id t ->
  (forall k, mapHas (journal s) k = true -> mapHas (f (journal s)) k = true \/ removes k t) ->
  wf s -> steps_ok e id s (onJournal f (drops i s)).
Proof.
  intros Hi Hd Hf Hw. constructor; [exact Hw | | |].
  - intros [Hx | Hx]; [by left; left |]. left. right. by eapply Exists_delete.
  - intros Hx. left. exact (Exists_delete_inv _ _ _ Hx).
  - intros [Hx | Hx]%Hf; [by left |]. right. apply Exists_exists. exists t. split; [by eapply list_elem_of_lookup_2 | done].
Qed.

(** The rest of a delivery. *)
Lemma ok_delivered e id i grp g ws o s :
  tasks s !! i = Some (Task grp (Then g (Delivered ws o))) -> wf s ->
  steps_ok e id s (deliveredOutcome e ws o (drops i s)).
Proof.
  intros Hi Hw. destruct (delivered_minded e id ws o (drops i s) Hw) as [Hm Hf].
  destruct (decide (outcomeId o = id)) as [Ho | n].
  - destruct Hm as [W F J P M (x & T & R)]. constructor; [done | | |].
    + intros _. destruct (Hf Ho) as [? | ?]; [by left; left | by right].
    + unfold removing. rewrite T, Exists_app. intros [Hx | Hx]; [left; exact (Exists_delete_inv _ _ _ Hx) | right; auto].
    + rewrite J. by left.
  - eapply ok_goesOn; [done | | done | by intros _]. intros (? & ? & ? & ? & ?). by simplify_eq/=.
Qed.

(** The retention bound drops [id]. *)
Definition prunes (e : env) (a : action) (s : outbox) (id : jstring) : Prop :=
  exists i x g grp, a = Resume i x /\ tasks s !! i = Some (Task grp (Then g OrphansAnswered)) /\
    id ∈ beyondRetention e s.

Lemma resume_ok e id i x s : wf s -> ~ prunes e (Resume i x) s id -> steps_ok e id s (resume e i x s).
Proof.
  intros Hw Hp. assert (steps_ok e id s s) as Hid by (constructor; auto).
  unfold resume. destruct (tasks s !! i) as [[grp w] |] eqn:Hi; [| done].
  destruct (enabled (tasks s) i w); [| done].
  assert ((forall ws o g, w <> Then g (Delivered ws o)) -> ~ delivers id (Task grp w)) as Hd.
  { intros Hn (? & ? & ? & ? & ?). naive_solver. }
  destruct w as [c j wr | c j en | j | g k].
  - repeat case_match; first [eapply ok_replace; eauto; done | by eapply ok_goesOn; eauto].
  - destruct (succeeds x); [| by eapply ok_goesOn; eauto].
    eapply ok_file; eauto. intros k Hk. left. apply mapHas_set. by right.
  - destruct (succeeds x); [| by eapply ok_goesOn; eauto].
    eapply ok_file; eauto. intros k Hk. destruct (decide (j = k)) as [-> | n]; [by right |].
    left. apply mapHas_delete. split; congruence.
  - destruct k as [ws o | ws | | ids seen | |].
    + by eapply ok_delivered.
    + eapply ok_goesOn; eauto. cbn. case_match; [| done].
      etransitivity; [by apply (minds_same e id (drops i s) (onSerial S (drops i s))) | apply minds_spawn; by left].
    + by eapply ok_replace; eauto.
    + case_match; [by eapply ok_replace; eauto |]. case_match; [| done].
      eapply ok_goesOn; eauto. apply minds_orphans.
    + eapply ok_goesOn; eauto. apply minds_prune. intros Hin. apply Hp. exists i, x, g, grp. auto.
    + eapply ok_goesOn; eauto. etransitivity; [apply minds_resend | apply minds_scheduleResend].
Qed.

Lemma onPeer_wf f s : wf s -> wf (onCurrentPeer f s).
Proof. done. Qed.

Lemma act_ok e id a s :
  wf s -> a <> Restart -> a <> Ack id -> ~ prunes e a s id -> steps_ok e id s (act e a s).
Proof.
  intros Hw Hr Ha Hp.
  assert (forall s', minds e id s s' -> steps_ok e id s s') as Hm.
  { intros s' Hs. eapply minded_ok; [by apply Hs | done | by left | done]. }
  assert (forall f s', minds e id (onCurrentPeer f s) s' -> steps_ok e id s s') as Hp'.
  { intros f s' Hs. eapply minded_ok; [by apply Hs | done | by left | done]. }
  destruct a as [i | ws i c | i p | ws o | i | ws peer | ws peer | ws m | | i x |]; cbn [act]; try done.
  - apply Hm, minds_mark.
  - apply Hm, minds_dispatch.
  - apply Hm, minds_progress.
  - apply Hm, minds_deliver.
  - apply Hm, minds_forget. congruence.
  - unfold noteSessionOpen. case_match; [| by apply (Hp' (orb peer))]. apply (Hp' (orb peer)), minds_open.
  - apply (Hp' (orb peer)). unfold flushCommandOutcomes.
    assert (onCurrentPeer (orb peer) (useSocket e ws s) = useSocket e ws (onCurrentPeer (orb peer) s)) as ->.
    { unfold useSocket. cbn. by case_decide. }
    etransitivity; [apply (minds_useSocket e id ws) |]. etransitivity; [apply minds_release |]. cbn [freshNumber].
    set (s1 := releaseForOlderPeer e _). etransitivity; [by apply (minds_same e id s1 (onSerial S s1)) |].
    etransitivity; [apply minds_flushHeld | apply minds_spawn; by left].
  - apply Hm, minds_talks; apply sendFrame_talks.
  - apply Hm, minds_fires.
  - by apply resume_ok.
Qed.

Lemma forget_wf g i s : wf s -> wf (forgetOutcome g i s).
Proof.
  intros Hw. unfold forgetOutcome. case_match; [done |]. set (s1 := onWriteChains _ _).
  assert (wf s1) as Hs1.
  { destruct Hw as (Hh & Hu & Hn). split; [by apply mapDelete_Forall |]. split; [by apply mapDelete_Forall | done]. }
  destruct (removeJournal_adds g i s1) as (A1 & A2 & _ & _ & _ & A6).
  unfold removeJournal in *. case_match; [| done]. exact Hs1.
Qed.

Lemma prune_wf e s : wf s -> wf (pruneUnacked e s).
Proof.
  intros Hw. unfold pruneUnacked. cbn [freshNumber].
  cut (forall g l s, wf s -> wf (foldl (fun s id => forgetOutcome (Some g) id s) s l)).
  - intros Hf. by apply Hf.
  - intros g l. induction l as [| i l IH]; intros s0 Hs0; [done |]. cbn. by apply IH, forget_wf.
Qed.

Lemma act_wf e a s : wf s -> wf (act e a s).
Proof.
  intros Hw.
  assert (forall a, a <> Restart -> a <> Ack [] -> ~ prunes e a s [] -> wf (act e a s)) as Hok.
  { intros b Hb1 Hb2 Hb3. by eapply ok_wf, (act_ok e []). }
  destruct a as [i | ws i c | i p | ws o | i | ws peer | ws peer | ws m | | i x |];
    try (apply Hok; [done | done |]; by intros (? & ? & ? & ? & ? & ?)).
  - by apply forget_wf.
  - destruct (tasks s !! i) as [[grp w] |] eqn:Hi.
    2: { cbn. unfold resume. by rewrite Hi. }
    assert ((forall g, w <> Then g OrphansAnswered) -> wf (act e (Resume i x) s)) as Hother.
    { intros Hn. apply Hok; [done | done |]. intros (? & ? & ? & ? & ? & ? & ?). naive_solver. }
    destruct w as [| | | g k]; try by apply Hother. destruct k; try by apply Hother.
    cbn. unfold resume. rewrite Hi. case_match; [by apply prune_wf | done].
  - repeat split; try constructor. done.
Qed.

Lemma acts_wf l s : wf s -> wf (acts l s).
Proof. revert s. induction l as [| [e a] l IH]; intros s Hs; [done |]. cbn. by apply IH, act_wf. Qed.

(** ** What ends the keeping *)

(** A stretch settles [id]: the control plane confirmed it; the retention bound
    dropped it; or it was sent to a control plane that does not confirm, and now
    leaves memory or has its journal file removed. *)
Definition settled (e : env) (a : action) (s : outbox) (id : jstring) : Prop :=
  a = Ack id \/ prunes e a s id \/
  (gaveUp e id (act e a s) /\
   (~ kept id (act e a s) \/ (removing id (act e a s) /\ ~ removing id s))).

Definition settles (l : list (env * action)) (s : outbox) (id : jstring) : Prop :=
  exists l1 e a l2, l = l1 ++ (e, a) :: l2 /\ settled e a (acts l1 s) id.

Lemma prunes_dec e a s id : prunes e a s id \/ ~ prunes e a s id.
Proof.
  destruct (decide (id ∈ beyondRetention e s)) as [Hin | Hn].
  2: { right. by intros (? & ? & ? & ? & _ & _ & ?). }
  destruct a as [| | | | | | | | | i x |]; try (right; by intros (? & ? & ? & ? & ? & _)).
  destruct (tasks s !! i) as [[grp [| | | g []]] |] eqn:Hi;
    try (right; intros (? & ? & ? & ? & ? & ? & _); by simplify_eq).
  left. by exists i, x, g, grp.
Qed.

Lemma action_cases a id : a = Restart \/ a = Ack id \/ (a <> Restart /\ a <> Ack id).
Proof.
  destruct a as [| | | | i | | | | | |]; auto; try (right; right; done).
  destruct (decide (i = id)) as [-> |]; auto. right. right. split; congruence.
Qed.

Lemma act_keeps e a s id :
  wf s -> ~ removing id s ->
  settled e a s id \/
  (~ removing id (act e a s) /\
   (mapHas (journal s) id = true -> mapHas (journal (act e a s)) id = true) /\
   (a <> Restart -> kept id s -> kept id (act e a s))).
Proof.
  intros Hw Hr. destruct (action_cases a id) as [-> | [-> | [Hn Ha]]].
  - right. split; [by intros ?%Exists_nil |]. split; [done | done].
  - left. by left.
  - destruct (prunes_dec e a s id) as [Hp | Hp]; [by left; right; left |].
    destruct (act_ok e id a s Hw Hn Ha Hp) as [_ Hk Hrm Hj].
    destruct (decide (removing id (act e a s))) as [Hr' | Hr'].
    { left. right. right. split; [| by right]. by apply Hrm in Hr' as [? | ?]. }
    destruct (decide (kept id s)) as [Hks |]; [destruct (decide (kept id (act e a s))) as [Hks' | Hks'] |].
    2: { left. right. right. split; [| by left]. by apply Hk in Hks as [? | ?]. }
    all: right; split; [done |]; split; [by intros [? | ?]%Hj | done].
Qed.

Lemma acts_keep l s id :
  wf s -> ~ removing id s ->
  settles l s id \/
  (~ removing id (acts l s) /\
   (mapHas (journal s) id = true -> mapHas (journal (acts l s)) id = true) /\
   (Restart ∉ map snd l -> kept id s -> kept id (acts l s))).
Proof.
  revert s. induction l as [| [e a] l IH]; intros s Hw Hr; [by right |].
  destruct (act_keeps e a s id Hw Hr) as [Hs | (H1 & H2 & H3)].
  { left. by exists [], e, a, l. }
  destruct (IH (act e a s)) as [(l1 & e' & a' & l2 & -> & Hs) | (G1 & G2 & G3)]; [by apply act_wf | done | |].
  - left. by exists ((e, a) :: l1), e', a', l2.
  - right. split; [done |]. split; [auto |]. cbn. rewrite not_elem_of_cons. intros [? ?] ?. apply G3; auto.
Qed.

Lemma empty_wf files : wf (emptyOutbox files).
Proof. repeat split; try constructor. done. Qed.

Lemma deliver_kept e ws o s : kept (outcomeId o) (act e (Deliver ws o) s).
Proof. right. apply Exists_app. right. constructor. by exists (serial s), ws, o. Qed.

End steps.
