(* ===== verification/CmdSessions.v ===== *)
(** * Sessions and restarts of the command outbox

    How fast kept outcomes are sent again, and what a daemon that died leaves
    to its successor. *)

From stdpp Require Import list sorting.
From S2P Require Import Prelude Json Number JsonPrint Dates CmdOutbox CmdKeeping.

#[local] Open Scope Z_scope.

(** ** Pacing *)

#[global] Instance frame_kind_dec : EqDecision frame_kind.
Proof. solve_decision. Defined.

(** When kept outcomes were sent, in order. *)
Definition timesOf (l : list frame) : list Z := frameAt <$> filter (fun f => frameKind f = KeptFrame) l.
Definition keptTimes (s : outbox) : list Z := timesOf (frames s).

#[local] Arguments timesOf : simpl never.
#[local] Arguments keptTimes : simpl never.

(** A sending window: its start and the kept outcomes sent in it. *)
#[local] Notation window := (Z * list Z)%type.
Definition window_ok (w : window) : Prop :=
  Z.of_nat (length w.2) <= OUTCOME_BURST_MAX /\ Forall (fun x => w.1 <= x < w.1 + RESEND_INTERVAL_MS) w.2.
Definition apart (a b : Z) : Prop := b + RESEND_INTERVAL_MS <= a.

(** The kept outcomes sent after the first [base] fall into windows (newest
    first) that start at least an interval apart; the newest one is current. *)
Record paced (base : list Z) (t : Z) (ws : socket) (s : outbox) : Prop := Paced {
  paced_socket : currentSocket s = Some ws;
  paced_windows : exists start ts older,
    keptTimes s = base ++ concat (map snd (reverse ((start, ts) :: older))) /\
    Forall window_ok ((start, ts) :: older) /\ StronglySorted apart (start :: map fst older) /\
    (burstWindow s).1 = start /\ Z.of_nat (length ts) <= (burstWindow s).2 /\ start <= t
}.

(** At most three windows meet any minute. *)
Lemma windows_in_minute t starts :
  StronglySorted apart starts -> Forall (fun x => t - RESEND_INTERVAL_MS < x < t + 60000) starts ->
  (length starts <= 3)%nat.
Proof.
  unfold apart, RESEND_INTERVAL_MS. intros Hs Hf.
  destruct starts as [| a [| b [| c [| d l]]]]; cbn; try lia. exfalso.
  repeat match goal with
         | H : StronglySorted _ (_ :: _) |- _ => apply StronglySorted_inv in H as [? ?]
         | H : Forall _ (_ :: _) |- _ => apply Forall_cons in H as [? ?]
         end. lia.
Qed.

Definition inMinute (t : Z) (l : list Z) : list Z := filter (fun x => t <= x < t + 60000) l.

Lemma inMinute_app t l k : inMinute t (l ++ k) = inMinute t l ++ inMinute t k.
Proof. apply filter_app. Qed.

Definition meets (t : Z) (w : window) : Prop := t - RESEND_INTERVAL_MS < w.1 < t + 60000.
#[global] Instance meets_dec t w : Decision (meets t w).
Proof. unfold meets. apply _. Defined.

Lemma minute_windows t (ws : list window) :
  Forall window_ok ws ->
  Z.of_nat (length (inMinute t (concat (map snd ws)))) <= OUTCOME_BURST_MAX * Z.of_nat (length (filter (meets t) ws)).
Proof.
  induction 1 as [| [start ts] ws [Hlen Hts] _ IH]; [done |]. cbn [map concat].
  rewrite inMinute_app, length_app, filter_cons. cbn [snd fst] in *.
  unfold meets at 1. cbn [fst]. case_decide as Hm.
  - cbn [length]. assert (length (inMinute t ts) <= length ts)%nat by apply length_filter. lia.
  - assert (inMinute t ts = []) as ->; [| cbn; lia].
    clear Hlen IH. induction Hts as [| x ts Hx _ IHt]; [done |]. unfold inMinute. rewrite filter_cons.
    case_decide; [exfalso; apply Hm; lia | done].
Qed.

Lemma paced_bound t base s now ws :
  paced base now ws s -> exists new, keptTimes s = base ++ new /\ (length (inMinute t new) <= 60)%nat.
Proof.
  intros [_ (start & ts & older & Hk & Hw & Hs & _)]. eexists. split; [exact Hk |].
  pose proof (minute_windows t (reverse ((start, ts) :: older))) as Hm.
  rewrite Forall_reverse in Hm. specialize (Hm Hw).
  assert (length (filter (meets t) ((start, ts) :: older)) <= 3)%nat as H3.
  { rewrite <- (length_map fst). apply (windows_in_minute t).
    - change (start :: map fst older) with (map fst ((start, ts) :: older)) in Hs.
      clear - Hs. induction ((start, ts) :: older) as [| w l IH]; [constructor |]. cbn in Hs.
      apply StronglySorted_inv in Hs as [Hs Hx]. rewrite filter_cons. case_decide; [| auto].
      cbn. constructor; [auto |]. apply Forall_forall. intros y [z [-> Hz]]%list_elem_of_fmap.
      apply list_elem_of_filter in Hz as [_ Hz]. eapply Forall_forall in Hx; [exact Hx |].
      apply list_elem_of_fmap. eauto.
    - apply Forall_forall. intros y [z [-> Hz]]%list_elem_of_fmap. by apply list_elem_of_filter in Hz as [Hz _]. }
  assert (length (filter (meets t) (reverse ((start, ts) :: older))) = length (filter (meets t) ((start, ts) :: older))) as E.
  { apply Permutation_length, filter_Permutation. by rewrite reverse_Permutation. }
  rewrite E in Hm. unfold OUTCOME_BURST_MAX in Hm. lia.
Qed.

(** A part of a stretch that sends no kept outcome and leaves the socket and the
    window's start. *)
Record idle (s s' : outbox) : Prop := Idle {
  idle_times : keptTimes s' = keptTimes s;
  idle_socket : currentSocket s' = currentSocket s;
  idle_start : (burstWindow s').1 = (burstWindow s).1;
  idle_used : (burstWindow s).2 <= (burstWindow s').2
}.
#[global] Instance idle_preorder : PreOrder idle.
Proof. split; [done |]. intros a b c [? ? ? ?] [? ? ? ?]. constructor; try congruence. lia. Qed.

Definition paces (e : env) (s s' : outbox) : Prop :=
  forall base ws, paced base (now e) ws s -> paced base (now e) ws s'.
#[global] Instance paces_preorder e : PreOrder (paces e).
Proof. split; [by intros s base ws |]. intros a b c H1 H2 base ws Hp. by apply H2, H1. Qed.

Lemma idle_paces e s s' : idle s s' -> paces e s s'.
Proof.
  intros [Ht Hs Hb Hu] base ws [Hw (start & ts & older & Hk & Hok & Hsort & Hst & Hl & Hn)].
  constructor; [congruence |]. exists start, ts, older.
  split; [congruence |]. split; [done |]. split; [done |]. split; [congruence |]. split; [lia | done].
Qed.

Lemma spawn_idle g w s : idle s (spawn g w s).
Proof. done. Qed.
Lemma removeJournal_idle g id s : idle s (removeJournal g id s).
Proof. unfold removeJournal. case_match; by split. Qed.
Lemma queueWrite_idle g id w s : idle s (queueWrite g id w s).
Proof. unfold queueWrite. destruct (mapGet (writeChains s) id); by split. Qed.
Lemma scheduleResend_idle s : idle s (scheduleResend s).
Proof. unfold scheduleResend. case_match; by split. Qed.
Lemma forget_idle g id s : idle s (forgetOutcome g id s).
Proof. unfold forgetOutcome. case_match; [done |]. etransitivity; [| apply removeJournal_idle]. by split. Qed.
Lemma fold_idle {A} (f : outbox -> A -> outbox) l s : (forall s x, idle s (f s x)) -> idle s (foldl f s l).
Proof. intros Hf. revert s. induction l as [| x l IH]; intros s; [done |]. etransitivity; [apply Hf | apply IH]. Qed.

Lemma timesOf_other l f : frameKind f <> KeptFrame -> timesOf (l ++ [f]) = timesOf l.
Proof. intros Hf. unfold timesOf. rewrite filter_app, filter_cons_False by done. by rewrite filter_nil, app_nil_r. Qed.
Lemma timesOf_kept l f : frameKind f = KeptFrame -> timesOf (l ++ [f]) = timesOf l ++ [frameAt f].
Proof. intros Hf. unfold timesOf. rewrite filter_app, filter_cons_True by done. by rewrite filter_nil, fmap_app. Qed.

Lemma trySend_idle e ws k m s : k <> KeptFrame -> idle s (trySend e ws k m s).2.
Proof. intros Hk. unfold trySend. repeat case_match; try done. split; [by apply timesOf_other | done | done | done]. Qed.
Lemma noteSent_idle e id s : idle s (noteSent e id s).
Proof. split; try done. cbn. lia. Qed.

Lemma sendFrame_idle e ws m s : idle s (sendCommandFrame e ws m s).2.
Proof.
  unfold sendCommandFrame. pose proof (trySend_idle e (currentSocket s) ProgressFrame m s ltac:(done)) as H1.
  destruct (trySend e (currentSocket s) ProgressFrame m s) as [[|] s1]; [done |].
  etransitivity; [exact H1 | by apply trySend_idle].
Qed.
Lemma sendLive_idle e ws o s : idle s (sendLive e ws o s).2.
Proof.
  unfold sendLive. pose proof (trySend_idle e (currentSocket s) LiveFrame (outcomeJson o) s ltac:(done)) as H1.
  destruct (trySend e (currentSocket s) LiveFrame (outcomeJson o) s) as [[|] s1].
  - etransitivity; [exact H1 | apply noteSent_idle].
  - etransitivity; [exact H1 | by apply trySend_idle].
Qed.

(** Refreshing the window: an old one is closed, a new one begins now. *)
Lemma burstLeft_paces e s : paces e s (burstLeft e s).2.
Proof.
  intros base ws [Hw (start & ts & older & Hk & Hok & Hsort & Hst & Hl & Hn)]. unfold burstLeft. cbn [snd].
  constructor; [done |]. change (burstWindow (onBurstWindow (refreshed e) s)) with (refreshed e (burstWindow s)).
  unfold refreshed. destruct (Z.leb_spec RESEND_INTERVAL_MS (now e - (burstWindow s).1)) as [Hle | Hlt].
  - exists (now e), [], ((start, ts) :: older). split.
    { etransitivity; [exact Hk |]. f_equal. rewrite (reverse_cons ((start, ts) :: older)), map_app, concat_app. cbn. by rewrite app_nil_r. }
    split; [constructor; [| done]; split; [done | constructor] |].
    split; [| cbn; split; [done | split; [done | lia]]].
    constructor; [done |]. cbn in Hsort. apply StronglySorted_inv in Hsort as [Hs' Hx].
    constructor; [unfold apart; cbn; lia |]. eapply Forall_impl; [exact Hx |]. unfold apart. cbn. intros y Hy.
    unfold RESEND_INTERVAL_MS in *. lia.
  - exists start, ts, older. split; [exact Hk |]. auto 10.
Qed.

Lemma sendKept_paces e o s : paces e s (sendKept e o s).2.
Proof.
  unfold sendKept. pose proof (burstLeft_paces e s) as H1. unfold burstLeft in *. cbn [snd] in H1.
  etransitivity; [exact H1 |]. set (s1 := onBurstWindow (refreshed e) s).
  assert ((burstWindow s1).1 + RESEND_INTERVAL_MS > now e) as Hfresh.
  { subst s1. cbn. unfold refreshed. destruct (Z.leb_spec RESEND_INTERVAL_MS (now e - (burstWindow s).1)); cbn;
      unfold RESEND_INTERVAL_MS in *; lia. }
  destruct (Z.leb_spec (OUTCOME_BURST_MAX - (burstWindow s1).2) 0) as [Hle | Hlt]; [done |].
  destruct (trySend e (currentSocket s1) KeptFrame _ s1) as [[|] s2] eqn:E; [| by apply trySend_unsent in E as ->].
  apply trySend_sent in E as (w & Hc & ->). intros base ws [Hw (start & ts & older & Hk & Hok & Hsort & Hst & Hl & Hn)].
  constructor; [done |]. exists start, (ts ++ [now e]), older. split.
  { unfold keptTimes in *.
    etransitivity; [by apply (timesOf_kept (frames s1) (Frame w (now e) KeptFrame (outcomeJson (stamped (now e) o)))) |].
    rewrite Hk. rewrite !reverse_cons, !map_app, !concat_app. cbn [map concat snd]. rewrite !app_nil_r, <- !app_assoc. done. }
  apply Forall_cons in Hok as [[Hlen Hts] Hok]. cbn in Hlen, Hts.
  split; [constructor; [| done]; split; cbn; [rewrite length_app; cbn; lia |] |].
  { apply Forall_app. split; [done |]. constructor; [lia | done]. }
  split; [done |]. split; [exact Hst |]. split; [| done]. rewrite length_app.
  change (Z.of_nat (length ts + 1) <= (burstWindow s1).2 + 1). lia.
Qed.

Lemma sendEach_paces e l s : paces e s (sendEach e l s).
Proof.
  revert s. induction l as [| o l IH]; intros s; [done |]. cbn [sendEach].
  pose proof (sendKept_paces e o s) as H1. destruct (sendKept e o s) as [[|] s1]; [| done].
  etransitivity; [exact H1 | apply IH].
Qed.

Lemma resend_paces e age s : paces e s (resendUnacked e age s).
Proof. unfold resendUnacked. repeat case_match; try done. apply sendEach_paces. Qed.

Lemma flushEach_paces e l s : paces e s (flushEach e l s).2.
Proof.
  revert s. induction l as [| [id o] l IH]; intros s; [done |]. cbn [flushEach].
  set (r := if mapHas (sentOnSocket s) id then (true, s) else sendKept e o s).
  assert (paces e s r.2) as H1 by (subst r; case_match; [done | apply sendKept_paces]).
  destruct r as [[|] s1]; [| done]. cbn [snd] in H1. specialize (IH (onHeld (mapDelete id) s1)).
  destruct (flushEach e l _) as [ids s2]. etransitivity; [exact H1 |].
  etransitivity; [| exact IH]. apply idle_paces. by split.
Qed.

Lemma flushHeld_paces e g s : paces e s (flushHeld e g s).
Proof.
  unfold flushHeld. case_match; [apply idle_paces; by split |].
  pose proof (flushEach_paces e (held s) s) as H1. destruct (flushEach e (held s) s) as [ids s1].
  etransitivity; [exact H1 |]. apply idle_paces, fold_idle. intros. apply removeJournal_idle.
Qed.

(** The session socket an action names. *)
Definition names (a : action) : option socket :=
  match a with Dispatch ws _ _ | SessionOpen ws _ | SessionAttach ws _ => Some ws | _ => None end.
Definition sameSession (ws : socket) (a : action) : Prop :=
  a <> Restart /\ (names a = None \/ names a = Some ws).

Lemma useSocket_same e ws s : currentSocket s = Some ws -> useSocket e ws s = s.
Proof. intros Hs. unfold useSocket. by case_decide. Qed.

Section pacing.
Context `{JsTables} `{JsDates}.

Lemma delivered_paces e ws o s : paces e s (deliveredOutcome e ws o s).
Proof.
  apply idle_paces. unfold deliveredOutcome. set (s1 := onAcceptedAt _ s).
  assert (idle s s1) as H1 by (by split). pose proof (sendLive_idle e ws o s1) as H2.
  destruct (sendLive e ws o s1) as [sent s2]. etransitivity; [exact H1 |]. etransitivity; [exact H2 |].
  repeat case_match; [| apply removeJournal_idle | by split].
  etransitivity; [| apply scheduleResend_idle]. by split.
Qed.

Lemma orphans_paces e found s : paces e s (answerOrphans e found s).
Proof.
  unfold answerOrphans. cbn [freshNumber]. set (s1 := foldl _ s found).
  assert (idle s s1) as Hi.
  { apply fold_idle. intros s0 [i entry]. unfold noteOrphan. cbn [fst snd]. repeat case_match; by split. }
  etransitivity; [apply idle_paces; exact Hi |].
  transitivity (onSerial S s1); [apply idle_paces; by split |].
  match goal with |- paces e _ (spawn _ _ ?x) => transitivity x; [| apply idle_paces; by split] end.
  case_match; [| apply flushHeld_paces].
  apply idle_paces, fold_idle. intros s0 [i entry]. unfold journalReply. repeat case_match; try done. apply queueWrite_idle.
Qed.

Lemma prune_idle e s : idle s (pruneUnacked e s).
Proof.
  unfold pruneUnacked. cbn [freshNumber]. etransitivity; [| apply spawn_idle].
  transitivity (onSerial S s); [by split |]. apply fold_idle. intros. apply forget_idle.
Qed.

Lemma resume_paces e i x s : paces e s (resume e i x s).
Proof.
  unfold resume. destruct (tasks s !! i) as [[grp w] |]; [| done]. destruct (enabled _ _ _); [| done].
  assert (forall s', paces e (drops i s) s' -> paces e s s') as Hd.
  { intros s' Hs. etransitivity; [| exact Hs]. apply idle_paces. by split. }
  destruct w as [c j wr | c j en | j | g k]; [| | | destruct k as [ws o | ws | | ids seen | |]].
  all: repeat case_match; try done; try (apply idle_paces; by split); apply Hd; cbn [goesOn].
  - apply delivered_paces.
  - apply idle_paces. case_match; by split.
  - apply orphans_paces.
  - apply idle_paces, prune_idle.
  - etransitivity; [apply resend_paces | apply idle_paces, scheduleResend_idle].
Qed.

Lemma act_paces e ws a s base t :
  sameSession ws a -> t <= now e -> paced base t ws s -> paced base (now e) ws (act e a s).
Proof.
  intros [Hr Hn] Ht Hp.
  assert (paced base (now e) ws s) as Hnow.
  { destruct Hp as [Hc (start & ts & older & Hk & Hok & Hsort & Hst & Hl & Hs)].
    split; [done |]. exists start, ts, older. split; [exact Hk |]. split; [done |]. split; [done |]. split; [done |].
    split; [done | lia]. }
  pose proof (paced_socket _ _ _ _ Hp) as Hc.
  assert (forall s', paces e s s' -> paced base (now e) ws s') as Hgo by (intros s' Hs; by apply Hs).
  assert (forall s', idle s s' -> paced base (now e) ws s') as Hidle by (intros; by apply Hgo, idle_paces).
  destruct a as [i | w i c | i p | w o | i | w peer | w peer | w m | | i x |]; cbn [act names] in *; try done.
  - apply Hidle. unfold markCommandInFlight. etransitivity; [| apply queueWrite_idle]. by split.
  - destruct Hn as [? | [= ->]]; [done |]. apply Hidle. unfold answerRepeatedDispatch.
    rewrite useSocket_same by done. set (s1 := if isOpen e ws then s else s).
    assert (s1 = s) as -> by (subst s1; by case_match).
    repeat case_match; try done; [apply sendFrame_idle | apply sendLive_idle | apply sendLive_idle].
  - apply Hidle. unfold noteCommandProgress. repeat case_match; try done; try by split.
    all: etransitivity; [| apply queueWrite_idle]; by split.
  - apply Hidle. unfold deliverCommandOutcome. cbn [freshNumber]. etransitivity; [| apply spawn_idle].
    etransitivity; [| apply queueWrite_idle]. by split.
  - apply Hidle, forget_idle.
  - destruct Hn as [? | [= ->]]; [done |]. apply Hgo. unfold noteSessionOpen.
    transitivity (onCurrentPeer (orb peer) s); [apply idle_paces; by split |]. case_match; [| done].
    rewrite useSocket_same by done. etransitivity; [apply sendEach_paces | apply idle_paces, scheduleResend_idle].
  - destruct Hn as [? | [= ->]]; [done |]. apply Hgo. unfold flushCommandOutcomes. rewrite useSocket_same by done.
    set (s1 := releaseForOlderPeer e _).
    assert (idle s s1) as H1 by (subst s1; unfold releaseForOlderPeer; case_match; by split).
    etransitivity; [apply idle_paces, H1 |]. cbn [freshNumber].
    transitivity (onSerial S s1); [apply idle_paces; by split |].
    etransitivity; [apply flushHeld_paces | apply idle_paces, spawn_idle].
  - apply Hidle, sendFrame_idle.
  - apply Hgo. unfold resendFires. case_match; [| done].
    transitivity (onResendTimer (fun _ => false) s); [apply idle_paces; by split |].
    etransitivity; [apply resend_paces |]. etransitivity; [| apply idle_paces, scheduleResend_idle].
    case_match; [done | apply flushHeld_paces].
  - apply Hgo, resume_paces.
Qed.

(** Resends leave room.  While one socket is the session's, whatever happens
    on it (acknowledgements, repeated dispatches, attaches, timers, deliveries,
    failing sends) and as long as the clock does not run backwards, at most 60
    kept outcomes are sent in any 60 seconds, half of what the control plane
    allows before it closes the socket. *)
Theorem resends_are_paced ws l s t :
  currentSocket s = Some ws -> (burstWindow s).2 >= 0 ->
  Sorted Z.le ((burstWindow s).1 :: map (fun x => now x.1) l) ->
  Forall (fun x => sameSession ws x.2) l ->
  exists new, keptTimes (acts l s) = keptTimes s ++ new /\ (length (inMinute t new) <= 60)%nat.
Proof.
  intros Hs Hu Hsort Hf. set (base := keptTimes s).
  assert (paced base (burstWindow s).1 ws s) as Hp.
  { split; [done |]. exists (burstWindow s).1, [], []. split; [by rewrite app_nil_r |].
    split; [repeat constructor; done |]. split; [repeat constructor |]. cbn. lia. }
  revert Hsort Hp. generalize (burstWindow s).1 as t0. clearbody base. clear Hs Hu.
  revert s. induction Hf as [| [e a] l Ha _ IH]; intros s t0 Hsort Hp; [by eapply paced_bound |].
  cbn. apply Sorted_inv in Hsort as [Hsort Hhd]. inversion Hhd; subst. cbn in *.
  eapply IH; [exact Hsort |]. by eapply act_paces.
Qed.
End pacing.

(** ** After a restart *)

(** Every file system call succeeds, and reads end in order. *)
Definition good : io := {| succeeds := true; pick := 0 |}.

Lemma map_lookup {A B} (f : A -> B) (l : list A) k x : l !! k = Some x -> map f l !! k = Some (f x).
Proof. intros Hx. change (map f l) with (f <$> l). by rewrite list_lookup_fmap, Hx. Qed.

(** What a successor reads of a journal file. *)
Definition readable (x : jstring * option JournalEntry) : option JournalEntry :=
  if UNSAFE_ID x.1 then None else x.2.

Section restart.
Context `{JsTables} `{JsDates} (e : env) (ws : socket) (files : jsmap (option JournalEntry)).

Definition resumed (n : nat) (s : outbox) : outbox := acts (replicate n (e, Resume 0 good)) s.

Lemma resumed_S n s : resumed (S n) s = resumed n (resume e 0 good s).
Proof. done. Qed.
Lemma resumed_app n m s : resumed (n + m) s = resumed m (resumed n s).
Proof. unfold resumed, acts. by rewrite replicate_add, foldl_app. Qed.

Definition found : jsmap (option JournalEntry) := map (fun x => (x.1, readable x)) files.
Definition replyTo (x : jstring * option JournalEntry) : OutcomeMessage := orphanReply e x.1 (readable x).
Definition replies : jsmap OutcomeMessage := map (fun x => (x.1, replyTo x)) files.

(** The state of the successor between its waits. *)
Definition session (kept : jsmap OutcomeMessage) (since : jsmap Z) (chains : jsmap nat)
    (onDisk : jsmap (option JournalEntry)) (todo : list task) (n : nat) : outbox :=
  Outbox [] kept [] [] [] chains (Some ws) true false [] (now e, 0) since onDisk todo n [].
#[local] Notation reading todo n := (session [] [] [] files todo n).

Context (Hnodup : NoDup (map fst files)) (Hopen : isOpen e ws = true) (Hpeer : peerSupports e = true).

Lemma attach_session :
  act e (SessionAttach ws true) (emptyOutbox files) = reading [Task None (Then 0 (HeldFlushed ws))] 1.
Proof. cbn. unfold flushCommandOutcomes, releaseForOlderPeer, flushHeld, recovers. cbn. by rewrite Hpeer. Qed.

Lemma only_enabled g k : enabled [Task None (Then g k)] 0 (Then g k) = true.
Proof. cbn. by rewrite bool_decide_eq_false_2. Qed.

Lemma resume_only g k s :
  tasks s = [Task None (Then g k)] ->
  resume e 0 good s =
  match k with
  | ListJournal => replace 0 (Task None (Then g (ReadEntries (orphanedIds s) []))) s
  | ReadEntries ids seen =>
      match filter (fun id => mapHas seen id = false) ids !! 0%nat with
      | Some id => replace 0 (Task None (Then g (ReadEntries ids (mapSet id (readJournalEntry true id s) seen)))) s
      | None => if forallb (mapHas seen) ids then goesOn e k (drops 0 s) else s
      end
  | _ => goesOn e k (drops 0 s)
  end.
Proof. intros Ht. unfold resume. rewrite Ht. cbn [lookup list_lookup]. rewrite only_enabled. by destruct k. Qed.

Lemma list_session :
  resumed 2 (reading [Task None (Then 0 (HeldFlushed ws))] 1)
  = reading [Task None (Then 1 (ReadEntries (map fst files) []))] 2.
Proof.
  rewrite !resumed_S, (resume_only 0 (HeldFlushed ws) (session _ _ _ _ _ _)) by done. cbn [goesOn]. rewrite Hopen. cbn [freshNumber].
  rewrite (resume_only 1 ListJournal) by done. unfold resumed, replace, session, onTasks. cbn. do 5 f_equal.
  apply filter_all, Forall_forall. by intros.
Qed.

(** The reads of the journal, one after another. *)
Lemma unread_ids k :
  (k <= length files)%nat ->
  filter (fun id => mapHas (take k found) id = false) (map fst files) = drop k (map fst files).
Proof.
  intros Hk. rewrite <- (take_drop k (map fst files)) at 1. rewrite filter_app.
  assert (map fst (take k found) = take k (map fst files)) as Ek.
  { unfold found. rewrite <- firstn_map, map_map. done. }
  rewrite filter_none, filter_all; [done | |].
  - apply Forall_forall. intros id Hid. apply not_true_is_false. rewrite mapHas_elem, Ek. intros Hin.
    rewrite <- (take_drop k (map fst files)) in Hnodup. apply NoDup_app in Hnodup as (_ & Hdis & _). by eapply Hdis.
  - apply Forall_forall. intros id Hid. rewrite not_false_iff_true. by rewrite mapHas_elem, Ek.
Qed.

Lemma read_one k x n :
  files !! k = Some x ->
  resume e 0 good (reading [Task None (Then 1 (ReadEntries (map fst files) (take k found)))] n)
  = reading [Task None (Then 1 (ReadEntries (map fst files) (take (S k) found)))] n.
Proof.
  intros Hx. assert (k < length files)%nat as Hlt by (by eapply lookup_lt_Some).
  rewrite (resume_only 1 (ReadEntries (map fst files) (take k found))) by done.
  rewrite unread_ids by lia. rewrite lookup_drop, Nat.add_0_r. assert (map fst files !! k = Some x.1) as -> by (by apply map_lookup).
  unfold replace, session, onTasks. cbn. do 5 f_equal.
  rewrite (take_S_r found k (x.1, readable x)) by (by apply (map_lookup (fun x => (x.1, readable x)))).
  assert (map fst (take k found) = take k (map fst files)) as Ek.
  { unfold found. rewrite <- firstn_map, map_map. done. }
  rewrite mapSet_fresh.
  - do 3 f_equal. unfold readJournalEntry, readable, journalFile. destruct (UNSAFE_ID x.1); [done |]. cbn.
    destruct x as [id en]. cbn. assert (mapGet files id = Some en) as ->; [| done].
    apply mapGet_elem; [done |]. by eapply list_elem_of_lookup_2.
  - rewrite Ek. intros Hin. rewrite <- (take_drop k (map fst files)) in Hnodup.
    apply NoDup_app in Hnodup as (_ & Hdis & _). eapply Hdis; [exact Hin |].
    apply list_elem_of_lookup. exists 0%nat. rewrite lookup_drop, Nat.add_0_r. by apply map_lookup.
Qed.

Lemma read_all n :
  resumed (length files) (reading [Task None (Then 1 (ReadEntries (map fst files) []))] n)
  = reading [Task None (Then 1 (ReadEntries (map fst files) found))] n.
Proof.
  assert (forall k, (k <= length files)%nat ->
    resumed k (reading [Task None (Then 1 (ReadEntries (map fst files) []))] n)
    = reading [Task None (Then 1 (ReadEntries (map fst files) (take k found)))] n) as Hk.
  { intros k. induction k as [| k IH]; intros Hle; [done |].
    replace (S k) with (k + 1)%nat at 1 by lia. rewrite resumed_app, IH by lia. rewrite resumed_S.
    destruct (lookup_lt_is_Some_2 files k ltac:(lia)) as [x Hx]. by rewrite (read_one k x) by done. }
  rewrite Hk by done. rewrite take_ge; [done |]. unfold found. by rewrite length_map.
Qed.

Lemma found_keys : map fst found = map fst files.
Proof. unfold found. by rewrite map_map. Qed.

Lemma found_again : map (fun id => (id, default None (mapGet found id))) (map fst files) = found.
Proof.
  rewrite <- found_keys, map_map. transitivity (map (fun x => x) found); [| apply map_id]. apply map_ext_in. intros [id en] Hin.
  apply list_elem_of_In in Hin. cbn. assert (mapGet found id = Some en) as ->; [| done].
  apply mapGet_elem; [by rewrite found_keys | done].
Qed.

Lemma answer_session n :
  resume e 0 good (reading [Task None (Then 1 (ReadEntries (map fst files) found))] n)
  = answerOrphans e found (reading [] n).
Proof.
  rewrite (resume_only 1 (ReadEntries (map fst files) found)) by done.
  assert (take (length files) found = found) as Et.
  { rewrite take_ge; [done |]. unfold found. by rewrite length_map. }
  pose proof (unread_ids (length files) ltac:(done)) as Hu. rewrite Et in Hu. rewrite Hu, drop_ge by (by rewrite length_map).
  cbn [lookup list_lookup].
  assert (forallb (mapHas found) (map fst files) = true) as ->.
  { apply forallb_forall. intros id Hid. apply mapHas_elem. rewrite found_keys. by apply list_elem_of_In. }
  cbn [goesOn]. by rewrite found_again.
Qed.

(** When the answered entries were recorded. *)
Definition sinceOf (l : jsmap (option JournalEntry)) (m : jsmap Z) : jsmap Z :=
  foldl (fun m x => match entryRecordedMs x.2 with Some t => mapSet x.1 t m | None => m end) m l.

Lemma notes_session l K S n :
  NoDup (map fst K ++ map fst l) ->
  foldl (noteOrphan e true) (session K S [] files [] n) l
  = session (K ++ map (fun x => (x.1, orphanReply e x.1 x.2)) l) (sinceOf l S) [] files [] n.
Proof.
  revert K S. induction l as [| [id en] l IH]; intros K S Hnd; [by rewrite app_nil_r |]. cbn [foldl].
  assert (noteOrphan e true (session K S [] files [] n) (id, en)
    = session (K ++ [(id, orphanReply e id en)]) (sinceOf [(id, en)] S) [] files [] n) as ->.
  { unfold noteOrphan. cbn [fst snd]. unfold session, sinceOf, onUnacked, onKeptSince. cbn [foldl fst snd].
    assert (id ∉ map fst K) as Hid.
    { apply NoDup_app in Hnd as (_ & Hdis & _). intros Hin. apply (Hdis id Hin). cbn. by left. }
    destruct (entryRecordedMs en); cbn; by rewrite mapSet_fresh. }
  rewrite IH; [by rewrite <- app_assoc |]. rewrite map_app, <- app_assoc. done.
Qed.

(** The replies that still have to be journaled, and their writes. *)
Definition unrecorded (l : list (jstring * option JournalEntry)) : list (jstring * option JournalEntry) :=
  filter (fun x => journaledOutcome x.2 x.1 = None) l.
Definition writesReply (g : nat) (x : jstring * option JournalEntry) (t : task) : Prop :=
  exists c, t = Task (Some g) (Queued c x.1 (WriteReply (orphanReply e x.1 x.2))).

Lemma journal_session g l K S chains todo n :
  (forall x, x ∈ l -> mapGet K x.1 = Some (orphanReply e x.1 x.2)) ->
  exists chains' writes n', Forall2 (writesReply g) (unrecorded l) writes /\
    foldl (journalReply g) (session K S chains files todo n) l
    = session K S chains' files (todo ++ writes) n'.
Proof.
  revert chains todo n. induction l as [| [id en] l IH]; intros chains todo n HK.
  { exists chains, [], n. split; [constructor |]. by rewrite app_nil_r. }
  assert (mapGet K id = Some (orphanReply e id en)) as Hid by (apply (HK (id, en)); by left).
  assert (forall x, x ∈ l -> mapGet K x.1 = Some (orphanReply e x.1 x.2)) as HK' by (intros; apply HK; by right).
  cbn [foldl]. unfold unrecorded. rewrite filter_cons. cbn [fst snd].
  unfold journalReply at 2. cbn [fst snd session unacked]. rewrite Hid. case_decide as Hj.
  - rewrite Hj. unfold queueWrite. cbn [writeChains session].
    destruct (mapGet chains id) as [c |]; cbn [freshNumber].
    + destruct (IH (mapSet id c chains) (todo ++ [Task (Some g) (Queued c id (WriteReply (orphanReply e id en)))]) n HK')
        as (ch & ws' & n' & Hw & E).
      exists ch, (Task (Some g) (Queued c id (WriteReply (orphanReply e id en))) :: ws'), n'.
      split; [constructor; [by exists c | done] |]. etransitivity; [exact E |]. by rewrite <- app_assoc.
    + destruct (IH (mapSet id n chains) (todo ++ [Task (Some g) (Queued n id (WriteReply (orphanReply e id en)))]) (Datatypes.S n) HK')
        as (ch & ws' & n' & Hw & E).
      exists ch, (Task (Some g) (Queued n id (WriteReply (orphanReply e id en))) :: ws'), n'.
      split; [constructor; [by exists n | done] |]. etransitivity; [exact E |]. by rewrite <- app_assoc.
  - destruct (journaledOutcome en id) eqn:Ej; [| done]. by apply IH.
Qed.

(** The entry a reply is journaled as. *)
Definition replyEntry (id : jstring) (r : OutcomeMessage) : JournalEntry := {|
  entryId := id; entryAcceptedAt := toISOString (now e); entryProgress := None; entryOutcome := Some r;
  entryJournaledAt := Some (default (toISOString (now e)) (outcomeTimeIso (Some r)))
|}.
Definition landed (jr : jsmap (option JournalEntry)) (x : jstring * option JournalEntry) :=
  if UNSAFE_ID x.1 then jr else mapSet x.1 (Some (replyEntry x.1 (orphanReply e x.1 x.2))) jr.

Lemma write_session g x t todo K S chains jr n :
  writesReply g x t ->
  exists m, resumed m (session K S chains jr (t :: todo) n) = session K S chains (landed jr x) todo n.
Proof.
  intros [c ->]. unfold landed. destruct (UNSAFE_ID x.1) eqn:Eu.
  - exists 1%nat. unfold resumed, acts. cbn [replicate foldl act fst snd]. unfold resume.
    cbn [tasks session lookup list_lookup enabled take existsb negb entryToWrite]. unfold journalFile. by rewrite Eu.
  - exists 2%nat. unfold resumed, acts. cbn [replicate foldl act fst snd]. unfold resume at 2.
    cbn [tasks session lookup list_lookup enabled take existsb negb entryToWrite]. unfold journalFile. rewrite Eu.
    done.
Qed.

Lemma writes_session g l writes todo K S chains jr n :
  Forall2 (writesReply g) l writes ->
  exists m, resumed m (session K S chains jr (writes ++ todo) n)
            = session K S chains (foldl landed jr l) todo n.
Proof.
  intros Hw. revert jr. induction Hw as [| x t l writes Ht _ IH]; intros jr; [by exists 0%nat |].
  destruct (write_session g x t (writes ++ todo) K S chains jr n Ht) as [m1 E1].
  destruct (IH (landed jr x)) as [m2 E2]. exists (m1 + m2)%nat. rewrite resumed_app. cbn [app]. by rewrite E1.
Qed.

Lemma landed_get jr l id :
  NoDup (map fst l) ->
  mapGet (foldl landed jr l) id =
  match mapGet l id with
  | Some en => if UNSAFE_ID id then mapGet jr id else Some (Some (replyEntry id (orphanReply e id en)))
  | None => mapGet jr id
  end.
Proof.
  revert jr. induction l as [| [i en] l IH]; intros jr Hnd; [done |]. cbn [foldl map fst] in *.
  apply NoDup_cons in Hnd as [Hi Hnd]. rewrite IH by done. cbn [mapGet]. case_decide as E.
  - subst i. apply mapGet_None in Hi. rewrite Hi. unfold landed. cbn [fst snd].
    destruct (UNSAFE_ID id); [done | by rewrite mapGet_set].
  - unfold landed. cbn [fst snd]. destruct (UNSAFE_ID i); [done |]. by rewrite mapGet_set_ne.
Qed.

(** The stamp of a reply is the time it was made. *)
Lemma setEntry_twice k v o : setEntry k v (setEntry k v o) = setEntry k v o.
Proof.
  induction o as [| [k' v'] o IH]; cbn; [by rewrite decide_True |].
  case_decide; cbn; [by rewrite decide_True | by rewrite decide_False, IH].
Qed.

Lemma reply_time id en : ordinary (now e) -> outcomeTime (Some (orphanReply e id en)) = Some (now e).
Proof.
  intros Ho. assert (getEntry (outcomeMembers (orphanReply e id en)) "at" = Some (JStr (toISOString (now e)))) as E.
  { unfold orphanReply. case_match; [apply getEntry_set | done]. }
  unfold outcomeTime. cbn [mbind option_bind]. rewrite E. by apply parse_toISOString.
Qed.

Lemma reply_stamped id en : stamped (now e) (orphanReply e id en) = orphanReply e id en.
Proof.
  unfold orphanReply. case_match; unfold stamped; cbn [outcomeId outcomeMembers]; [by rewrite setEntry_twice |].
  reflexivity.
Qed.

Lemma since_get l m id :
  NoDup (map fst l) ->
  mapGet (sinceOf l m) id =
  match mapGet l id with
  | Some en => match entryRecordedMs en with Some t => Some t | None => mapGet m id end
  | None => mapGet m id
  end.
Proof.
  unfold sinceOf. revert m. induction l as [| [i en] l IH]; intros m Hnd; [done |]. cbn [foldl map fst snd] in *.
  apply NoDup_cons in Hnd as [Hi Hnd]. rewrite IH by done. cbn [mapGet]. case_decide as E.
  - subst i. apply mapGet_None in Hi. rewrite Hi. destruct (entryRecordedMs en); [by rewrite mapGet_set | done].
  - destruct (entryRecordedMs en); [by rewrite mapGet_set_ne | done].
Qed.

Lemma replies_found : map (fun x => (x.1, orphanReply e x.1 x.2)) found = replies.
Proof. unfold found, replies. by rewrite map_map. Qed.
Lemma replies_keys : map fst replies = map fst files.
Proof. unfold replies. by rewrite map_map. Qed.

(** No entry is older than the retention bound and there are few enough. *)
Context (Hnow : ordinary (now e)) (Hfew : (length files <= UNACKED_MAX_ENTRIES)%nat)
  (Hrecent : forall x t, x ∈ files -> entryRecordedMs (readable x) = Some t -> now e - UNACKED_RETENTION_MS <= t).

Lemma nothing_dropped chains jr todo n :
  beyondRetention e (session replies (sinceOf found []) chains jr todo n) = [].
Proof.
  unfold beyondRetention. cbn [unacked session]. rewrite replies_keys.
  rewrite (filter_none _ (map fst files)).
  - cbn [length app]. rewrite length_map. replace (_ - _ - _)%nat with 0%nat by lia. done.
  - apply Forall_forall. intros id [x [-> Hx]]%list_elem_of_fmap. unfold tooOld, recordedAtMs. cbn [keptSince session unacked].
    rewrite since_get by (by rewrite found_keys).
    assert (mapGet found x.1 = Some (readable x)) as ->.
    { apply mapGet_elem; [by rewrite found_keys |]. apply list_elem_of_fmap. by exists x. }
    assert (mapGet replies x.1 = Some (orphanReply e x.1 (readable x))) as ->.
    { apply mapGet_elem; [by rewrite replies_keys |]. apply list_elem_of_fmap. by exists x. }
    cbn [mapGet]. destruct (entryRecordedMs (readable x)) as [t |] eqn:Er.
    + specialize (Hrecent x t Hx Er). rewrite not_true_iff_false. apply Z.ltb_ge. lia.
    + rewrite reply_time by done. rewrite not_true_iff_false. apply Z.ltb_ge. unfold UNACKED_RETENTION_MS. lia.
Qed.

Lemma prune_session chains jr n :
  pruneUnacked e (session replies (sinceOf found []) chains jr [] n)
  = session replies (sinceOf found []) chains jr [Task None (Then n Pruned)] (S n).
Proof.
  unfold pruneUnacked. cbn [freshNumber].
  change (onSerial S (session replies (sinceOf found []) chains jr [] n))
    with (session replies (sinceOf found []) chains jr [] (S n)).
  by rewrite nothing_dropped.
Qed.

Context (Hsend : forall m, sendThrows e ws m = false).

Definition keptFrame (o : OutcomeMessage) : frame := Frame ws (now e) KeptFrame (outcomeJson (stamped (now e) o)).

Lemma sendEach_burst l s u :
  currentSocket s = Some ws -> burstWindow s = (now e, u) -> 0 <= u <= OUTCOME_BURST_MAX ->
  frames (sendEach e l s) = frames s ++ map keptFrame (take (Z.to_nat (OUTCOME_BURST_MAX - u)) l) /\
  unacked (sendEach e l s) = unacked s /\ tasks (sendEach e l s) = tasks s /\ journal (sendEach e l s) = journal s.
Proof.
  revert s u. induction l as [| o l IH]; intros s u Hc Hb Hu.
  { rewrite take_nil, app_nil_r. done. }
  assert (refreshed e (burstWindow s) = (now e, u)) as Hr.
  { rewrite Hb. unfold refreshed. cbn. by rewrite Z.sub_diag. }
  cbn [sendEach]. unfold sendKept, burstLeft. cbn [burstWindow onBurstWindow]. rewrite Hr. cbn [fst snd].
  destruct (Z.leb_spec (OUTCOME_BURST_MAX - u) 0) as [Hfull | Hroom].
  { replace (OUTCOME_BURST_MAX - u) with 0 by lia. rewrite take_0, app_nil_r. done. }
  unfold trySend. cbn [currentSocket onBurstWindow]. rewrite Hc, Hopen, Hsend. cbn [andb negb].
  edestruct IH as (F & U & T & J); [| | | rewrite F, U, T, J].
  - exact Hc.
  - cbn [burstWindow noteSent onBurstWindow onSentOnSocket onFrames]. rewrite Hr. reflexivity.
  - cbn [snd]. unfold OUTCOME_BURST_MAX in *. lia.
  - replace (Z.to_nat (OUTCOME_BURST_MAX - u)) with (S (Z.to_nat (OUTCOME_BURST_MAX - (u + 1)))) by lia.
    cbn. by rewrite <- app_assoc.
Qed.

Lemma sort_equal {A} (key : A -> option Z) v l : Forall (fun x => key x = v) l -> sortByKey key l = l.
Proof.
  unfold sortByKey. induction 1 as [| x l Hx Hl IH]; [done |]. cbn [foldr]. rewrite IH.
  destruct l as [| y l]; [done |]. apply Forall_cons in Hl as [Hy _]. cbn. rewrite Hx, Hy.
  destruct v; cbn; [by rewrite Z.leb_refl | done].
Qed.

Lemma resend_session chains jr n :
  let s := goesOn e Pruned (session replies (sinceOf found []) chains jr [] n) in
  tasks s = [] /\ unacked s = replies /\ journal s = jr /\
  frames s = map keptFrame (take 20 (map snd replies)).
Proof.
  cbn [goesOn]. set (s0 := session replies (sinceOf found []) chains jr [] n).
  destruct (scheduleResend_talks (resendUnacked e None s0)) as (_ & U & _ & _ & J & T & _).
  assert (frames (scheduleResend (resendUnacked e None s0)) = frames (resendUnacked e None s0)) as ->
    by (unfold scheduleResend; by case_match).
  cbn zeta. rewrite U, J, T. unfold resendUnacked. cbn [currentSocket s0 session]. rewrite Hopen.
  rewrite filter_all by (apply Forall_forall; by intros).
  rewrite (sort_equal _ (Some (-1))) by (apply Forall_forall; by intros).
  destruct (sendEach_burst (map snd (unacked s0)) s0 0) as (F & U' & T' & J'); [done | done | done |].
  rewrite F, U', T', J'. done.
Qed.

Lemma attach_resumed n :
  acts ((e, SessionAttach ws true) :: replicate n (e, Resume 0 good)) (emptyOutbox files)
  = resumed n (reading [Task None (Then 0 (HeldFlushed ws))] 1).
Proof. rewrite <- attach_session. reflexivity. Qed.

Lemma journal_after x :
  x ∈ files -> UNSAFE_ID x.1 = false ->
  exists entry o, mapGet (foldl landed files (unrecorded found)) x.1 = Some (Some entry) /\
    journaledOutcome (Some entry) x.1 = Some o /\ stamped (now e) o = orphanReply e x.1 (readable x).
Proof.
  intros Hx Hsafe. assert (NoDup (map fst (unrecorded found))) as Hnd
    by (apply (filter_keys_NoDup _ found); by rewrite found_keys).
  assert ((x.1, readable x) ∈ found) as Hf by (apply list_elem_of_fmap; by exists x).
  rewrite landed_get by done. destruct (journaledOutcome (readable x) x.1) as [o |] eqn:Ej.
  - assert (mapGet (unrecorded found) x.1 = None) as ->.
    { apply mapGet_None. intros [y [Ey Hy]]%list_elem_of_fmap. apply list_elem_of_filter in Hy as [Hn Hy].
      destruct y as [i en]. cbn [fst snd] in *. subst i. assert (en = readable x) as ->; [| congruence].
      eapply NoDup_map_fst_unique; [| exact Hy | exact Hf]. by rewrite found_keys. }
    unfold readable in *. rewrite Hsafe in *.
    assert (mapGet files x.1 = Some x.2) as -> by (apply mapGet_elem; [done |]; by destruct x).
    unfold orphanReply. rewrite Ej. destruct (x.2) as [entry |]; [| done]. by exists entry, o.
  - assert (mapGet (unrecorded found) x.1 = Some (readable x)) as ->.
    { apply mapGet_elem; [done |]. apply list_elem_of_filter. done. }
    rewrite Hsafe. eexists _, (orphanReply e x.1 (readable x)). split; [reflexivity |].
    split; [| apply reply_stamped]. unfold journaledOutcome. cbn. by rewrite decide_True by apply orphanReply_id.
Qed.

End restart.

(** ** Examples *)

#[local] Instance plainDates : JsDates := {| otherDate := fun _ => None |}.
#[local] Existing Instance integerTables.

Definition march : Z := 1772323200000.
Definition healthy (t : Z) : env := {|
  now := t; isOpen := fun _ => true; sendThrows := fun _ _ => false; peerSupports := true; peerKnown := Some true
|}.
Definition succeeded (id : jstring) : OutcomeMessage := {|
  outcomeId := id;
  outcomeMembers := [("ok" : jstring, JBool true); ("at" : jstring, JStr (toISOString march))]
|}.
Definition calls (l : list action) : list (env * action) := map (pair (healthy march)) l.

(** A command ran, its outcome was journaled, sent and is waiting. *)
Definition oneCommand : list (env * action) :=
  calls [SessionOpen 1 true; Mark "c1"; Resume 0 good; Resume 0 good; Deliver 1 (succeeded "c1");
         Resume 0 good; Resume 0 good; Resume 0 good].
Definition laterCalls : list (env * action) :=
  calls [SessionOpen 2 true; SessionAttach 2 true; Timer; Mark "c2"; Resume 0 good; Resume 0 good; Ack "c2"].


Lemma resends_are_paced_witness :
  exists new, keptTimes (acts (calls [SessionOpen 1 true; Timer; SessionAttach 1 true]) (acts oneCommand (emptyOutbox [])))
    = keptTimes (acts oneCommand (emptyOutbox [])) ++ new /\ (length (inMinute march new) <= 60)%nat.
Proof.
  apply (resends_are_paced 1).
  - vm_compute. reflexivity.
  - vm_compute. discriminate.
  - assert ((burstWindow (acts oneCommand (emptyOutbox []))).1 = march) as -> by (vm_compute; reflexivity).
    repeat constructor; cbn; lia.
  - repeat constructor; try done; cbn; by right.
Defined.

Definition leftBehind : jsmap (option JournalEntry) :=
  [("c1" : jstring, Some {| entryId := "c1"; entryAcceptedAt := toISOString march; entryProgress := None;
                            entryOutcome := Some (succeeded "c1"); entryJournaledAt := Some (toISOString march) |});
   ("c2" : jstring, Some {| entryId := "c2"; entryAcceptedAt := toISOString march; entryProgress := None;
                            entryOutcome := None; entryJournaledAt := None |});
   ("c3" : jstring, None)].


(** ** A completed command reported as interrupted *)

(** While an outcome's journal write is under way the command is neither running
    nor kept.  A session that attaches just then takes the command for one of a
    dead daemon: it reads the entry of the running command, and although the
    real outcome is sent and kept meanwhile, the answer "interrupted" replaces
    it, in memory and in the journal, and is what will be sent again. *)
Definition attachWhileDelivering : list (env * action) :=
  calls [Mark "c1"; Resume 0 good; Resume 0 good; SessionAttach 1 true; Resume 0 good; Deliver 1 (succeeded "c1");
         Resume 0 good; Resume 0 good; Resume 1 good; Resume 1 good; Resume 1 good; Resume 0 good;
         Resume 0 good; Resume 0 good].

Theorem interrupted_replaces_outcome :
  let s := acts attachWhileDelivering (emptyOutbox []) in
  existsb (fun f => bool_decide (frameAt f = march)) (frames s) = true /\
  (frameJson <$> frames s) = [outcomeJson (succeeded "c1")] /\
  (o ← mapGet (unacked s) "c1"; getEntry (outcomeMembers o) "ok") = Some (JBool false) /\
  (x ← mapGet (journal s) "c1"; en ← x; o ← entryOutcome en; getEntry (outcomeMembers o) "ok") = Some (JBool false).
Proof. vm_compute. repeat split. Qed.
