(* ===== verification/CmdRouter.v ===== *)
(** * Command dispatch ([commands/command-router.ts])

    A dispatch is acknowledged, checked against what is already known, marked
    in flight, run, and answered.  What a handler does is not modelled here:
    it returns a value or throws a message, and everything below holds for
    every such end.  The transcript sink contributes its deny-set. *)

From stdpp Require Import list.
From S2P Require Import Prelude Text Json Number JsonPrint Dates Log LogRedact CmdOutbox.

#[local] Open Scope Z_scope.

Definition MAX_OUTCOME_ERROR_CHARS : nat := 4000.
Definition TRUNCATED_MARKER : jstring := "[...truncated] ".
Definition MAX_OUTCOME_RESULT_BYTES : Z := 64 * 1024.

(** The command types the switch has a case for. *)
Definition COMMAND_TYPES : list jstring :=
  ["daemon.ping"; "server.hostname.set"; "server.timezone.set"; "server.ntp.set"; "server.fabric.reconcile";
   "server.tls.trust.reconcile"; "server.principals.reconcile"; "server.firewall.reconcile";
   "server.firewall.confirm"; "server.backups.reconcile"; "server.backups.test-target"; "server.folders.remove";
   "server.tunnel.routes"; "server.tunnel.connectors"; "server.tunnel.status"; "server.reboot";
   "environment.deploy"; "environment.lifecycle"; "environment.stop"; "managed.apply"; "managed.lifecycle";
   "managed.destroy"; "managed.promote"; "managed.backup"; "managed.restore"; "managed.ingress.reconcile";
   "managed.ha.reconcile"; "managed.ha.failover"; "storage.backup"; "storage.restore"; "system.reconcile"].

Record CommandDispatchMessage := {
  messageId : jstring; messageCommandId : jstring; commandType : jstring
}.

Record OutcomeFields := { fieldOk : bool; fieldResult : option jval; fieldError : option jstring }.

Section router.
Context `{JsTables}.

Definition resultBytes (v : jval) : Z := Z.of_nat (length (encode_text (JSON_stringify v))).

Definition tooLargeError (bytes : Z) : jstring :=
  ("The server's report was too large to store (" : jstring) ++ decimalText (Z.to_N ((bytes + 1023) / 1024))
  ++ (" KB; limit " : jstring) ++ decimalText (Z.to_N (MAX_OUTCOME_RESULT_BYTES / 1024)) ++ " KB).".

Definition capOutcomeResult (f : OutcomeFields) : OutcomeFields :=
  match fieldOk f, fieldResult f with
  | true, Some v =>
      if resultBytes v <=? MAX_OUTCOME_RESULT_BYTES then f
      else {| fieldOk := false; fieldResult := None; fieldError := Some (tooLargeError (resultBytes v)) |}
  | _, _ => f
  end.

Definition sizedOutcomeFields (ok : bool) (r : option jval) (error : option jstring) : OutcomeFields :=
  capOutcomeResult {| fieldOk := ok; fieldResult := if ok then r else None; fieldError := error |}.

(** The tail is kept. *)
Definition sanitizeError (text : jstring) : jstring :=
  let text := sanitizeForLog text in
  if decide (length text <= MAX_OUTCOME_ERROR_CHARS)%nat then text
  else TRUNCATED_MARKER ++ drop (length text - MAX_OUTCOME_ERROR_CHARS) text.

(** The deny-sets are the process-wide one and the sink's; nothing is a throw of
    the redaction itself. *)
Definition sanitizeOutcomeError (shared sink : list jstring) (text : jstring) : option jstring :=
  redacted ← redactCommandSummary shared text sink;
  Some (sanitizeError (redactUrlSecrets redacted)).

(** How a handler (or the parser in front of it) ends. *)
Inductive handled := Returned (value : option jval) | Threw (message : jstring).

Definition unknownType (t : jstring) : jstring := ("Unknown command type: " : jstring) ++ t.

(** The fields of the outcome. *)
Definition outcomeFields (shared sink : list jstring) (t : jstring) (h : handled) : option OutcomeFields :=
  if memb t COMMAND_TYPES then
    match h with
    | Returned v => Some (sizedOutcomeFields true v None)
    | Threw message =>
        error ← sanitizeOutcomeError shared sink message;
        Some {| fieldOk := false; fieldResult := None; fieldError := Some error |}
    end
  else
    error ← sanitizeOutcomeError shared sink (unknownType t);
    Some (sizedOutcomeFields false None (Some error)).

Definition outcomeMessage (id : jstring) (f : OutcomeFields) (received responded : jstring) : OutcomeMessage := {|
  outcomeId := id;
  outcomeMembers :=
    ("ok" : jstring, JBool (fieldOk f))
    :: match fieldResult f with Some v => [("result" : jstring, v)] | None => [] end
    ++ match fieldError f with Some e => [("error" : jstring, JStr e)] | None => [] end
    ++ [("at" : jstring, JStr responded); ("daemonReceivedAt" : jstring, JStr received);
        ("daemonRespondedAt" : jstring, JStr responded)]
|}.

Definition ackMessage (id received : jstring) (at_ : jstring) : jval :=
  JObj [("type" : jstring, JStr "command-ack"); ("id" : jstring, JStr id); ("at" : jstring, JStr at_);
        ("daemonReceivedAt" : jstring, JStr received)].

(** How [handleCommandDispatch] begins: sending the acknowledgement threw, the
    command is known, or it is marked running. *)
Inductive dispatch_start := AckThrew | Repeated (s : outbox) | Started (s : outbox).

Definition acknowledged (e : env) (ws : socket) (ack : jval) (s : outbox) : outbox :=
  if isOpen e ws then onFrames (fun l => l ++ [Frame ws (now e) ProgressFrame ack]) s else s.

(** Up to the journal write. *)
Definition beginDispatch (e : env) (ws : socket) (m : CommandDispatchMessage) (s : outbox) : dispatch_start :=
  let received := toISOString (now e) in
  let ack := ackMessage (messageId m) received received in
  if isOpen e ws && sendThrows e ws ack then AckThrew
  else
    let '(known, s) := answerRepeatedDispatch e ws (messageId m) (messageCommandId m) (acknowledged e ws ack s) in
    if known then Repeated s else Started (markCommandInFlight e (messageId m) s).

(** ... and after the handler, with the instant the handler responded. *)
Definition endDispatch (e : env) (ws : socket) (m : CommandDispatchMessage) (received responded : jstring)
    (shared sink : list jstring) (h : handled) (s : outbox) : option outbox :=
  f ← outcomeFields shared sink (commandType m) h;
  Some (deliverCommandOutcome e ws (outcomeMessage (messageId m) f received responded) s).

(** ** What the control plane accepts *)

Definition MAX_DAEMON_WS_ERROR_CHARS : nat := 4096.

Definition fits (f : OutcomeFields) : Prop :=
  (forall v, fieldResult f = Some v -> fieldOk f = true /\ resultBytes v <= 64 * 1024) /\
  (forall e, fieldError f = Some e -> fieldOk f = false /\ (length e <= MAX_DAEMON_WS_ERROR_CHARS)%nat /\
     Forall (fun c => is_control c = false) e) /\
  (fieldOk f = false -> is_Some (fieldError f)).

Lemma decimalDigits_length fuel n acc : (length (decimalDigits fuel n acc) <= fuel + length acc)%nat.
Proof.
  revert n acc. induction fuel as [| fuel IH]; intros n acc; cbn [decimalDigits]; [lia |].
  case_match; cbn [length]; [lia |]. etransitivity; [apply IH | cbn; lia].
Qed.

Lemma decimalText_length n k : (n < 2 ^ N.of_nat k)%N -> (length (decimalText n) <= S k)%nat.
Proof.
  intros Hn. unfold decimalText. etransitivity; [apply decimalDigits_length |]. cbn [length]. rewrite Nat.add_0_r.
  apply le_n_S. destruct (decide (n = 0)%N) as [-> | Hz]; [cbn; lia |].
  assert (N.size n <= N.of_nat k)%N as Hs.
  { rewrite N.size_log2 by done. apply N.le_succ_l. apply N.log2_lt_pow2; lia. }
  rewrite <- (Nat2N.id (N.size_nat n)). assert (N.of_nat (N.size_nat n) = N.size n) as ->; [| lia].
  destruct n as [| q]; [done |]. cbn. clear. induction q; cbn; lia.
Qed.

Lemma sanitizeError_fits t :
  (length (sanitizeError t) <= MAX_DAEMON_WS_ERROR_CHARS)%nat /\ Forall (fun c => is_control c = false) (sanitizeError t).
Proof.
  unfold sanitizeError. pose proof (strip_clean t : Forall _ (sanitizeForLog t)) as Hc.
  unfold MAX_DAEMON_WS_ERROR_CHARS, MAX_OUTCOME_ERROR_CHARS. case_decide; [split; [lia | done] |]. split.
  - rewrite length_app, length_drop. cbn [length TRUNCATED_MARKER]. 
    assert (length TRUNCATED_MARKER = 15%nat) as -> by reflexivity. lia.
  - apply Forall_app. split; [repeat constructor | by apply Forall_drop].
Qed.

Lemma tooLarge_fits bytes :
  0 <= bytes < 2 ^ 53 ->
  (length (tooLargeError bytes) <= MAX_DAEMON_WS_ERROR_CHARS)%nat /\
  Forall (fun c => is_control c = false) (tooLargeError bytes).
Proof.
  intros Hb. assert (forall n, Forall (fun c => is_control c = false) (decimalText n)) as Hd.
  { intros n. unfold decimalText. cut (forall fuel n acc, Forall (fun c => is_control c = false) acc ->
      Forall (fun c => is_control c = false) (decimalDigits fuel n acc)); [intros Hc; by apply Hc |].
    intros fuel. induction fuel as [| fuel IH]; intros m acc Ha; cbn [decimalDigits]; [done |].
    assert (is_control (48 + m mod 10) = false) as Hm.
    { assert (m mod 10 < 10)%N as Hlt by (by apply N.mod_lt). revert Hlt. generalize (m mod 10)%N. intros d Hlt.
      unfold is_control, in_range.
      apply orb_false_iff. split; [apply N.ltb_ge; lia |]. apply andb_false_iff. left. apply N.leb_gt. lia. }
    case_match; [by constructor | apply IH; by constructor]. }
  unfold tooLargeError. split.
  - rewrite !length_app.
    assert (length (decimalText (Z.to_N ((bytes + 1023) / 1024))) <= 54)%nat as Hlen.
    { apply decimalText_length. change (2 ^ 53) with 9007199254740992 in Hb.
      assert ((bytes + 1023) / 1024 < 9007199254740992) by (apply Z.div_lt_upper_bound; lia).
      assert (0 <= (bytes + 1023) / 1024) by (apply Z.div_pos; lia). apply N2Z.inj_lt. rewrite Z2N.id by done. cbn. lia. }
    unfold MAX_DAEMON_WS_ERROR_CHARS.
    assert (length (decimalText (Z.to_N (MAX_OUTCOME_RESULT_BYTES / 1024))) = 2%nat) as -> by reflexivity.
    assert (length ("The server's report was too large to store (" : jstring) = 44%nat) as -> by reflexivity.
    assert (length (" KB; limit " : jstring) = 11%nat) as -> by reflexivity.
    assert (length (" KB)." : jstring) = 5%nat) as -> by reflexivity. lia.
  - repeat (apply Forall_app; split); try apply Hd; repeat constructor.
Qed.

(** Every outcome fits the wire.  However a handler ends, on a known or an
    unknown command type and under any deny-sets: a result is only sent with a
    success and is at most 64 KB of UTF-8 JSON; an error is only sent with a
    failure, is at most 4096 units (the control plane's bound) and has no
    control character, escape or line break; and every failure says why.  A
    result that is too large becomes such a failure instead. *)
Theorem outcome_fits_wire shared sink t h f :
  (forall v, h = Returned (Some v) -> resultBytes v < 2 ^ 53) ->
  outcomeFields shared sink t h = Some f -> fits f.
Proof.
  intros Hbig. unfold outcomeFields.
  assert (forall text error, sanitizeOutcomeError shared sink text = Some error ->
    fits {| fieldOk := false; fieldResult := None; fieldError := Some error |}) as Herr.
  { intros text error. unfold sanitizeOutcomeError.
    destruct (redactCommandSummary shared text sink) as [r |]; [| done]. cbn [mbind option_bind]. intros [= <-].
    split; [done |]. split; [| by eexists]. cbn. intros e [= <-]. split; [done | apply sanitizeError_fits]. }
  destruct (memb t COMMAND_TYPES).
  2: { destruct (sanitizeOutcomeError shared sink (unknownType t)) as [error |] eqn:E; [| done].
       cbn [mbind option_bind]. intros [= <-]. by eapply Herr. }
  destruct h as [v | message].
  - intros [= <-]. unfold sizedOutcomeFields, capOutcomeResult. cbn [fieldOk fieldResult].
    destruct v as [v |]; [| split; [done | split; done]].
    destruct (Z.leb_spec (resultBytes v) MAX_OUTCOME_RESULT_BYTES) as [Hle | Hgt].
    + split; [| split; done]. cbn. intros w [= <-]. done.
    + split; [done |]. split; [| by eexists]. cbn. intros e [= <-]. split; [done |].
      apply tooLarge_fits. split; [unfold resultBytes; lia | by apply Hbig].
  - destruct (sanitizeOutcomeError shared sink message) as [error |] eqn:E; [| done].
    cbn [mbind option_bind]. intros [= <-]. by eapply Herr.
Qed.
End router.

Lemma outcome_fits_wire_witness :
  exists f, outcomeFields (H := integerTables) ["hunter22" : jstring] [] "server.reboot" (Threw "login hunter22 refused") = Some f /\
    fieldError f = Some ("login *** refused" : jstring) /\ fits (H := integerTables) f.
Proof.
  eexists. split; [vm_compute; reflexivity |]. split; [reflexivity |].
  eapply (outcome_fits_wire (H := integerTables) ["hunter22" : jstring] [] "server.reboot" (Threw "login hunter22 refused")).
  - intros v [=].
  - vm_compute. reflexivity.
Defined.
