(* ===== verification/CmdOnce.v ===== *)
(** * A command runs once ([commands/command-router.ts] over the outbox)

    A control plane that lost its link sends a command again.  The dispatch
    handler asks the outbox whether it knows the command and runs it only when
    it does not.  Shown here: over every history without a restart, a command
    that was started is not started again while it runs or its outcome is kept,
    except while the journal write of its own outcome is under way. *)

From stdpp Require Import list.
From S2P Require Import Prelude Text Json Number JsonPrint Dates LogRedact CmdOutbox CmdKeeping CmdSessions CmdRouter.

#[local] Open Scope Z_scope.

(** ** Commands under way *)

Lemma mark_running e id s : running (markCommandInFlight e id s) = setAdd (running s) id.
Proof. unfold markCommandInFlight, queueWrite. destruct (mapGet _ id); reflexivity. Qed.
Lemma queue_running g id w s : running (queueWrite g id w s) = running s.
Proof. unfold queueWrite. destruct (mapGet _ id); reflexivity. Qed.
Lemma remove_running g id s : running (removeJournal g id s) = running s.
Proof. unfold removeJournal. by destruct (journalFile id). Qed.
Lemma talks_running s s' : talks s s' -> running s' = running s.
Proof. by intros (_ & _ & ? & _). Qed.
Lemma fold_running {A} (f : outbox -> A -> outbox) l s :
  (forall s x, running (f s x) = running s) -> running (foldl f s l) = running s.
Proof. intros Hf. revert s. induction l as [| x l IH]; intros s; [done |]. cbn. by rewrite IH. Qed.
Lemma flushEach_running e l s : running (flushEach e l s).2 = running s.
Proof.
  revert s. induction l as [| [id o] l IH]; intros s; [done |]. cbn [flushEach].
  set (r := if mapHas (sentOnSocket s) id then (true, s) else sendKept e o s).
  assert (running r.2 = running s) as <- by (subst r; case_match; [done | apply talks_running, sendKept_speaks]).
  destruct r as [[|] s1]; [| done]. cbn [snd].
  rewrite <- (IH (onHeld (mapDelete id) s1) : _ = running s1). by destruct (flushEach e l _).
Qed.
Lemma flushHeld_running e g s : running (flushHeld e g s) = running s.
Proof.
  unfold flushHeld. case_match; [done |]. rewrite <- (flushEach_running e (held s) s).
  destruct (flushEach e (held s) s) as [ids s1]. apply fold_running. intros. apply remove_running.
Qed.
Lemma release_running e s : running (releaseForOlderPeer e s) = running s.
Proof. unfold releaseForOlderPeer. by case_match. Qed.
Lemma useSocket_running e ws s : running (useSocket e ws s) = running s.
Proof. apply talks_running, useSocket_talks. Qed.
Lemma schedule_running s : running (scheduleResend s) = running s.
Proof. apply talks_running, scheduleResend_talks. Qed.
Lemma sendEach_running e l s : running (sendEach e l s) = running s.
Proof. apply talks_running, sendEach_talks. Qed.
Lemma forget_running g id s : running (forgetOutcome g id s) = running s.
Proof. unfold forgetOutcome. case_match; [done |]. by rewrite remove_running. Qed.

#[local] Hint Rewrite queue_running remove_running flushHeld_running release_running useSocket_running
  schedule_running sendEach_running forget_running : running.

Section once.
Context `{JsTables} `{JsDates}.

Lemma resend_running e age s : running (resendUnacked e age s) = running s.
Proof. apply talks_running, resendUnacked_talks. Qed.
Lemma dispatch_running e ws id c s : running (answerRepeatedDispatch e ws id c s).2 = running s.
Proof.
  unfold answerRepeatedDispatch. set (s1 := if isOpen e ws then _ else s).
  assert (running s1 = running s) as <- by (subst s1; case_match; [apply useSocket_running | done]).
  repeat case_match; try done; cbn [snd]; apply talks_running; [apply sendFrame_talks | |]; apply sendLive_speaks.
Qed.
Lemma progress_running e id p s : running (noteCommandProgress e id p s) = running s.
Proof. unfold noteCommandProgress. repeat case_match; by autorewrite with running. Qed.
Lemma delivered_running e ws o s : running (deliveredOutcome e ws o s) = running s.
Proof.
  unfold deliveredOutcome. set (s1 := onAcceptedAt _ s).
  assert (running (sendLive e ws o s1).2 = running s) as <- by exact (talks_running s1 _ (proj1 (sendLive_speaks e ws o s1))).
  destruct (sendLive e ws o s1) as [sent s2]. repeat case_match; by autorewrite with running.
Qed.
Lemma orphans_running e found s : running (answerOrphans e found s) = running s.
Proof.
  unfold answerOrphans. cbn [freshNumber]. set (s1 := foldl _ s found).
  assert (running s1 = running s) as <-.
  { apply fold_running. intros. unfold noteOrphan. by repeat case_match. }
  case_match; cbn; [| by rewrite flushHeld_running].
  rewrite fold_running; [done |]. intros. unfold journalReply. repeat case_match; by autorewrite with running.
Qed.
Lemma resume_running e i x s : running (resume e i x s) = running s.
Proof.
  unfold resume. repeat case_match; try done; cbn [goesOn].
  - by rewrite delivered_running.
  - by case_match.
  - by rewrite orphans_running.
  - unfold pruneUnacked. cbn. rewrite fold_running; [done |]. intros. apply forget_running.
  - by rewrite schedule_running, resend_running.
Qed.

(** A running command runs until its outcome is delivered, or a restart. *)
Lemma act_running e a s id :
  id ∈ running s -> a <> Restart -> (forall ws o, a = Deliver ws o -> outcomeId o <> id) -> id ∈ running (act e a s).
Proof.
  intros Hid Hr Hd. destruct a as [i | ws i c | i p | ws o | i | ws peer | ws peer | ws m | | i x |]; cbn [act].
  - rewrite mark_running. apply elem_of_setAdd. by left.
  - by rewrite dispatch_running.
  - by rewrite progress_running.
  - unfold deliverCommandOutcome. cbn. rewrite queue_running. cbn. apply list_elem_of_filter.
    split; [| done]. intros ->. by eapply Hd.
  - unfold acknowledgeCommandOutcome. by rewrite forget_running.
  - unfold noteSessionOpen. case_match; [| exact Hid]. autorewrite with running. exact Hid.
  - unfold flushCommandOutcomes. cbn. autorewrite with running. cbn. autorewrite with running.
    change (id ∈ running (useSocket e ws s)). by rewrite useSocket_running.
  - by rewrite (talks_running _ _ (proj1 (sendFrame_talks e ws m s))).
  - unfold resendFires. case_match; [| done]. rewrite schedule_running.
    case_match; rewrite ?flushHeld_running, resend_running; exact Hid.
  - by rewrite resume_running.
  - done.
Qed.

(** ** Claims *)

Definition claimed (id : jstring) (s : outbox) : Prop := id ∈ running s \/ kept id s.

(** What lets go of a command that is over: the control plane's confirmation,
    the retention bound, or a send to a control plane that does not confirm. *)
Definition released (l : list (env * action)) (s : outbox) (id : jstring) : Prop :=
  exists l1 e a l2, l = l1 ++ (e, a) :: l2 /\ id ∉ running (acts l1 s) /\ settled e a (acts l1 s) id.

Lemma act_claimed e a s id :
  wf s -> a <> Restart -> claimed id s -> claimed id (act e a s) \/ (id ∉ running s /\ settled e a s id).
Proof.
  intros Hw Hr Hc. destruct (decide (id ∈ running s)) as [Hrun | Hrun].
  - left. destruct a as [i | ws i c | i p | ws o | i | ws peer | ws peer | ws m | | i x |];
      try (left; apply act_running; [done | done | congruence]).
    destruct (decide (outcomeId o = id)) as [<- | n]; [right; apply deliver_kept |].
    left. apply act_running; [done | done |]. intros ? ? [= <- <-]. done.
  - destruct Hc as [Hc | Hk]; [done |].
    destruct (action_cases a id) as [-> | [-> | [_ Ha]]]; [done | right; split; [done | by left] |].
    destruct (prunes_dec e a s id) as [Hp | Hp]; [right; split; [done | right; by left] |].
    destruct (decide (kept id (act e a s))) as [Hk' | Hk']; [left; by right |].
    destruct (ok_kept _ _ _ _ (act_ok e id a s Hw Hr Ha Hp) Hk) as [? | Hg]; [done |].
    right. split; [done |]. right. right. split; [done | by left].
Qed.

Lemma acts_claimed l s id :
  wf s -> Restart ∉ map snd l -> claimed id s -> claimed id (acts l s) \/ released l s id.
Proof.
  revert s. induction l as [| [e a] l IH]; intros s Hw Hn Hc; [by left |].
  cbn in Hn. apply not_elem_of_cons in Hn as [Ha Hn].
  destruct (act_claimed e a s id Hw (not_eq_sym Ha) Hc) as [Hc' | [Hrun Hs]]; [| right; by exists [], e, a, l].
  destruct (IH (act e a s) (act_wf e a s Hw) Hn Hc') as [? | (l1 & e' & a' & l2 & -> & Hr & Hs)]; [by left |].
  right. by exists ((e, a) :: l1), e', a', l2.
Qed.

Lemma acknowledged_wf e ws ack s : wf s -> wf (acknowledged e ws ack s).
Proof.
  unfold acknowledged. case_match; [| done]. intros (Hh & Hu & Hn). split; [done |]. split; [done |].
  revert Hn. apply noted_same; [done | by apply prefix_app_r].
Qed.

(** A dispatch that starts a command found it neither running nor in memory,
    and marks it running. *)
Lemma begin_started e ws m s s' :
  beginDispatch e ws m s = Started s' ->
  messageId m ∉ running s /\ ~ inMemory (messageId m) s /\ messageId m ∈ running s' /\ (wf s -> wf s').
Proof.
  unfold beginDispatch. case_match; [done |]. set (ack := ackMessage _ _ _). set (s1 := acknowledged e ws ack s).
  intros E. assert (running s1 = running s /\ held s1 = held s /\ unacked s1 = unacked s) as (<- & Eh & Eu)
    by (subst s1; unfold acknowledged; destruct (isOpen e ws); repeat split).
  unfold inMemory. rewrite <- Eh, <- Eu.
  pose proof (act_wf e (Dispatch ws (messageId m) (messageCommandId m)) s1) as Hwf. cbn [act] in Hwf.
  destruct (answerRepeatedDispatch e ws (messageId m) (messageCommandId m) s1) as [known s2] eqn:Ea. cbn [snd] in Hwf.
  destruct known; [done |]. injection E as <-. unfold answerRepeatedDispatch in Ea.
  set (s3 := if isOpen e ws then useSocket e ws s1 else s1) in Ea.
  assert (running s3 = running s1 /\ held s3 = held s1 /\ unacked s3 = unacked s1) as (<- & <- & <-).
  { subst s3. destruct (isOpen e ws); [| repeat split]. destruct (useSocket_talks e ws s1) as (? & ? & ? & _). done. }
  destruct (memb (messageId m) (running s3)) eqn:Em; [by repeat case_match |]. split; [by apply memb_false |].
  unfold mapHas. destruct (mapGet (held s3) (messageId m)); [done |].
  destruct (mapGet (unacked s3) (messageId m)); [done |]. split; [naive_solver |].
  split; [rewrite mark_running; apply elem_of_setAdd; by right |].
  intros Hs. apply (act_wf e (Mark (messageId m))), Hwf. by apply acknowledged_wf.
Qed.

(** C28. A command sent again is not run again.  Once a dispatch started a
    command, then over any history of the outbox without a restart (other
    commands, sockets, failing sends, timers, journal writes and removals that
    end late), a further dispatch of the same id only starts it when the command
    had ended and its outcome was then confirmed, dropped by the retention bound
    or handed to a control plane that does not confirm; or when the journal
    write of its own outcome is under way at that moment. *)
Theorem command_runs_once files before later e ws m s e' ws' m' s' :
  beginDispatch e ws m (acts before (emptyOutbox files)) = Started s ->
  Restart ∉ map snd later ->
  messageId m' = messageId m ->
  beginDispatch e' ws' m' (acts later s) = Started s' ->
  released later s (messageId m) \/ Exists (delivers (messageId m)) (tasks (acts later s)).
Proof.
  intros H1 Hr Em H2. destruct (begin_started _ _ _ _ _ H1) as (_ & _ & Hrun & Hwf).
  destruct (begin_started _ _ _ _ _ H2) as (Hn & Hm & _ & _). rewrite Em in Hn, Hm.
  assert (wf s) as Hs by apply Hwf, acts_wf, empty_wf.
  destruct (acts_claimed later s (messageId m) Hs Hr (or_introl Hrun)) as [[Hx | [Hx | Hx]] | Hx].
  - contradiction.
  - contradiction.
  - by right.
  - by left.
Qed.
End once.

(** ** Concrete histories *)

#[local] Existing Instance plainDates.
#[local] Existing Instance integerTables.

Definition again : CommandDispatchMessage :=
  {| messageId := "c1"; messageCommandId := "c1"; commandType := "server.reboot" |}.
Definition startedState (r : dispatch_start) : outbox :=
  match r with AckThrew => emptyOutbox [] | Repeated s | Started s => s end.
Definition firstRun : outbox := startedState (beginDispatch (healthy march) 1 again (emptyOutbox [])).

(** The command ran, its outcome was confirmed, and it is sent again. *)
Definition runAndConfirmed : list (env * action) :=
  calls [SessionAttach 1 true; Resume 0 good; Resume 0 good; Deliver 1 (succeeded "c1"); Resume 0 good;
         Resume 0 good; Resume 0 good; Ack "c1"].

Lemma command_runs_once_witness :
  released runAndConfirmed firstRun "c1" \/ Exists (delivers "c1") (tasks (acts runAndConfirmed firstRun)).
Proof.
  apply (command_runs_once [] [] runAndConfirmed (healthy march) 1 again firstRun (healthy march) 1 again
           (startedState (beginDispatch (healthy march) 1 again (acts runAndConfirmed firstRun)))).
  - vm_compute. reflexivity.
  - vm_compute. intros Hin. repeat (apply elem_of_cons in Hin as [? | Hin]; [discriminate |]). by inversion Hin.
  - reflexivity.
  - vm_compute. reflexivity.
Defined.

(** While the journal write of its outcome is under way a command is neither
    running nor kept, and a dispatch of the same id starts it a second time;
    before and after that write it is only answered. *)
Definition runsAgain (l : list action) : bool :=
  match beginDispatch (healthy march) 1 again (acts (calls l) firstRun) with Started _ => true | _ => false end.

Theorem second_run_while_delivering :
  let ending := [SessionOpen 1 true; Resume 0 good; Resume 0 good; Deliver 1 (succeeded "c1")] in
  runsAgain [SessionOpen 1 true; Resume 0 good; Resume 0 good] = false /\
  runsAgain ending = true /\
  runsAgain (ending ++ [Resume 0 good]) = true /\
  runsAgain (ending ++ [Resume 0 good; Resume 0 good; Resume 0 good]) = false.
Proof. vm_compute. repeat split. Qed.
