(* ===== verification/UpdVersion.v ===== *)
(** * Versions and freshness ([instance/version-wire.ts], [update/freshness.ts])

    A daemon compares versions to decide what the control plane supports and
    whether a signed build is older than the one it runs.  Version numbers are
    JavaScript numbers, so a long run of digits is rounded or infinite; a
    comparison that would be [NaN] is [None]. *)

From Stdlib Require Import Floats.SpecFloat.
From S2P Require Import Prelude Regex Text Json Number JsonPrint GateHttp Dates CtParse.

#[local] Open Scope Z_scope.

(** ** Semantic versions ([version-wire.ts]) *)

Definition MIN_SUPPORTED_INSTANCE_VERSION : jstring := "0.1.22".
Definition DAEMON_FEATURE_MIN_VERSIONS : list (jstring * jstring) :=
  [("instance-cert-sources-per-hostname" : jstring, "0.1.1" : jstring)].
Definition INSTANCE_FEATURE_MIN_VERSIONS : list (jstring * jstring) := [].

Record ParsedSemver := {
  major : spec_float; minor : spec_float; patch : spec_float; prerelease : list jstring
}.

Definition is_label (c : N) : bool := is_alnum c || (c =? 46)%N || (c =? 45)%N.
Definition DIGITS_RE : regex := RPlus (RSet is_digit).
Definition LABEL_RE : regex := RPlus (RSet is_label).
Definition SEMVER_RE : regex :=
  RCats [DIGITS_RE; RChar 46; DIGITS_RE; RChar 46; DIGITS_RE;
         ROpt (RCat (RChar 45) LABEL_RE); ROpt (RCat (RChar 43) LABEL_RE)].

(** [Number(text)] of a run of digits. *)
Definition numberOf (ds : jstring) : spec_float := of_decimal false (decimalValue ds) 0.

(** One capture [(\d+)] of the expression, and what follows it. *)
Definition captureNumber (s : jstring) : option (spec_float * jstring) :=
  let '(ds, rest) := digits s in if decide (ds = []) then None else Some (numberOf ds, rest).
Definition skipUnit (c : N) (s : jstring) : option jstring :=
  match s with x :: rest => if (x =? c)%N then Some rest else None | [] => None end.

(** [([0-9A-Za-z.-]+)] behind [c], which may be missing. *)
Definition captureLabel (c : N) (s : jstring) : option (jstring * jstring) :=
  match skipUnit c s with
  | None => Some ([], s)
  | Some rest =>
      let label := takeWhile is_label rest in
      if decide (label = []) then None else Some (label, dropWhile is_label rest)
  end.

(** [SEMVER_RE.exec]. *)
Definition semverExec (s : jstring) : option ParsedSemver :=
  '(ma, s) ← captureNumber s;
  s ← skipUnit 46 s;
  '(mi, s) ← captureNumber s;
  s ← skipUnit 46 s;
  '(pa, s) ← captureNumber s;
  '(label, s) ← captureLabel 45 s;
  '(_, s) ← captureLabel 43 s;
  if decide (s = []) then
    Some {| major := ma; minor := mi; patch := pa;
            prerelease := if decide (label = []) then [] else split 46 label |}
  else None.

Definition parseSemver (value : option jstring) : option ParsedSemver :=
  v ← value;
  let trimmed := trim v in
  if decide (trimmed = []) then None
  else semverExec (if startsWith "v" trimmed then drop 1 trimmed else trimmed).

(** The sign of [x - y]; nothing is [NaN]. *)
Definition minus (x y : spec_float) : option comparison :=
  match x, y with
  | S754_infinity a, S754_infinity b => if Bool.eqb a b then None else SFcompare x y
  | _, _ => SFcompare x y
  end.

Definition isNumeric (a : jstring) : bool := matches DIGITS_RE a.

Definition compareText (a b : jstring) : comparison :=
  if decide (a = b) then Eq else if leUnits a b then Lt else Gt.

Definition compareIdentifiers (a b : jstring) : option comparison :=
  if isNumeric a && isNumeric b then minus (numberOf a) (numberOf b)
  else if isNumeric a then Some Lt
  else if isNumeric b then Some Gt
  else Some (compareText a b).

(** The loop over the common length, then the lengths. *)
Fixpoint comparePrerelease (a b : list jstring) : option comparison :=
  match a, b with
  | x :: a', y :: b' =>
      match compareIdentifiers x y with
      | Some Eq => comparePrerelease a' b'
      | c => c
      end
  | [], [] => Some Eq
  | [], _ => Some Lt
  | _, [] => Some Gt
  end.

Definition compareSemver (a b : ParsedSemver) : option comparison :=
  if negb (SFeqb (major a) (major b)) then minus (major a) (major b)
  else if negb (SFeqb (minor a) (minor b)) then minus (minor a) (minor b)
  else if negb (SFeqb (patch a) (patch b)) then minus (patch a) (patch b)
  else match prerelease a, prerelease b with
       | [], [] => Some Eq
       | [], _ => Some Gt
       | _, [] => Some Lt
       | l, m => comparePrerelease l m
       end.

Inductive InstanceSupportStatus := Supported | Unsupported | UnknownSupport.
#[global] Instance InstanceSupportStatus_dec : EqDecision InstanceSupportStatus.
Proof. solve_decision. Defined.
Record InstanceSupport := {
  supportStatus : InstanceSupportStatus; supportVersion : option jstring; minVersion : jstring
}.

Definition resolveInstanceSupport (reported : option jstring) (floorText : jstring) : InstanceSupport :=
  let said := trim <$> reported in
  match parseSemver reported, parseSemver (Some floorText) with
  | Some p, Some f => {|
      supportStatus := if decide (compareSemver p f = Some Lt) then Unsupported else Supported;
      supportVersion := said; minVersion := floorText |}
  | p, _ => {|
      supportStatus := UnknownSupport;
      supportVersion := match p with Some _ => said | None => None end; minVersion := floorText |}
  end.

Definition instanceUnsupportedReason (s : InstanceSupport) : jstring :=
  ("instance-version: control plane version " : jstring) ++ default ("unknown" : jstring) (supportVersion s)
  ++ (" is below the supported minimum " : jstring) ++ minVersion s
  ++ [59; 32]%N ++ ("flagged " : jstring) ++ [8212]%N
  ++ " the daemon keeps reconnecting (update the control plane)".

Definition peerSupportsFeature (parsed : option ParsedSemver) (floorText : jstring) : bool :=
  match parsed, parseSemver (Some floorText) with
  | Some p, Some f => match compareSemver p f with Some Eq | Some Gt => true | _ => false end
  | _, _ => false
  end.

Definition resolvePeerCapabilities (reported : option jstring) (floors : list (jstring * jstring))
    : list (jstring * bool) :=
  let parsed := parseSemver reported in
  map (fun f => (f.1, peerSupportsFeature parsed f.2)) floors.
Definition resolveDaemonCapabilities (reported : option jstring) : list (jstring * bool) :=
  resolvePeerCapabilities reported DAEMON_FEATURE_MIN_VERSIONS.
Definition resolveInstanceCapabilities (reported : option jstring) : list (jstring * bool) :=
  resolvePeerCapabilities reported INSTANCE_FEATURE_MIN_VERSIONS.

(** ** Freshness ([freshness.ts]) *)

Definition ALLOW_DOWNGRADE_ENV : jstring := "TURBOPANEL_ALLOW_DOWNGRADE".

(** [InstalledBuild]; a [TargetBuild] always has a build time. *)
Record InstalledBuild := { commit : jstring; version : option jstring; builtAt : option jstring }.
Record TargetBuild := { targetCommit : jstring; targetVersion : option jstring; targetBuiltAt : jstring }.

(** The environment of a process. *)
Definition Env := jstring -> option jstring.

Section freshness.
Context `{JsDates}.

Definition baseOnly (version : option jstring) : option ParsedSemver :=
  p ← parseSemver version;
  Some {| major := major p; minor := minor p; patch := patch p; prerelease := [] |}.

Definition builtAtOlder (installedBuiltAt : option jstring) (targetAt : jstring) : bool :=
  match Date_parse (default [] installedBuiltAt), Date_parse targetAt with
  | Some i, Some t => t <? i
  | _, _ => false
  end.

Definition isRollback (installed : InstalledBuild) (target : TargetBuild) : bool :=
  if decide (commit installed = targetCommit target) then false
  else
    match baseOnly (version installed), baseOnly (targetVersion target) with
    | Some have, Some want =>
        match compareSemver want have with
        | Some Eq => builtAtOlder (builtAt installed) (targetBuiltAt target)
        | c => bool_decide (c = Some Lt)
        end
    | _, _ => builtAtOlder (builtAt installed) (targetBuiltAt target)
    end.

Definition rollbackMessage (installed : InstalledBuild) (target : TargetBuild) : jstring :=
  ("signed manifest is older than the installed build (" : jstring)
  ++ default (targetCommit target) (targetVersion target) ++ (" built " : jstring) ++ targetBuiltAt target
  ++ (" vs " : jstring) ++ default (commit installed) (version installed) ++ (" built " : jstring)
  ++ default ("unknown" : jstring) (builtAt installed) ++ ("); refusing to roll back" : jstring)
  ++ (" (set " : jstring) ++ ALLOW_DOWNGRADE_ENV ++ "=1 on the host to override)".

Definition brokeGlass (env : Env) : bool := bool_decide (trim <$> env ALLOW_DOWNGRADE_ENV = Some ("1" : jstring)).

Definition assertNotRollback (installed : InstalledBuild) (target : TargetBuild) (env : Env) : fallible unit :=
  if brokeGlass env then Ok tt
  else if negb (isRollback installed target) then Ok tt
  else Throw (OtherErr "RollbackRefusedError" (rollbackMessage installed target)).
End freshness.

(** ** Lexicographic orders *)

(** A three-way comparison that orders: reversing the arguments reverses the
    answer, and [<=] is transitive. *)
Record lawful {A} (cmp : A -> A -> comparison) : Prop := {
  lawful_opp : forall a b, cmp b a = CompOpp (cmp a b);
  lawful_trans : forall a b c, cmp a b <> Gt -> cmp b c <> Gt -> cmp a c <> Gt
}.

Definition lex (c d : comparison) : comparison := match c with Eq => d | _ => c end.
Definition cmpPair {A B} (f : A -> A -> comparison) (g : B -> B -> comparison) (a b : A * B) : comparison :=
  lex (f a.1 b.1) (g a.2 b.2).
Definition cmpSum {A B} (f : A -> A -> comparison) (g : B -> B -> comparison) (a b : A + B) : comparison :=
  match a, b with
  | inl x, inl y => f x y
  | inl _, inr _ => Lt
  | inr _, inl _ => Gt
  | inr x, inr y => g x y
  end.
Fixpoint cmpList {A} (f : A -> A -> comparison) (a b : list A) : comparison :=
  match a, b with
  | x :: a', y :: b' => lex (f x y) (cmpList f a' b')
  | [], [] => Eq
  | [], _ => Lt
  | _, [] => Gt
  end.

Lemma lawful_Z : lawful Z.compare.
Proof. split; [intros; by rewrite Z.compare_antisym | intros a b c; rewrite !Z.compare_le_iff; lia]. Qed.
Lemma lawful_N : lawful N.compare.
Proof. split; [intros; by rewrite N.compare_antisym | intros a b c; rewrite !N.compare_le_iff; lia]. Qed.

Lemma lex_trans {A} (f : A -> A -> comparison) x y z d1 d2 d3 :
  lawful f -> (d1 <> Gt -> d2 <> Gt -> d3 <> Gt) ->
  lex (f x y) d1 <> Gt -> lex (f y z) d2 <> Gt -> lex (f x z) d3 <> Gt.
Proof.
  intros [Ho Ht] Hd H1 H2. pose proof (Ht x y z) as A1. pose proof (Ht z x y) as A2. pose proof (Ht y z x) as A3.
  rewrite (Ho x z) in A2, A3. rewrite (Ho y z) in A2. rewrite (Ho x y) in A3.
  destruct (f x y) eqn:E1, (f y z) eqn:E2, (f x z) eqn:E3; cbn in *; try done; auto;
    try (exfalso; by apply A1); try (exfalso; by apply A2); try (exfalso; by apply A3).
Qed.

Lemma lex_opp c d d' : d' = CompOpp d -> lex (CompOpp c) d' = CompOpp (lex c d).
Proof. intros ->. by destruct c. Qed.

Lemma lawful_pair {A B} (f : A -> A -> comparison) (g : B -> B -> comparison) :
  lawful f -> lawful g -> lawful (cmpPair f g).
Proof.
  intros Hf Hg. split; unfold cmpPair.
  - intros a b. rewrite (lawful_opp f Hf a.1 b.1). apply lex_opp, (lawful_opp g Hg).
  - intros a b c. apply lex_trans; [done |]. apply (lawful_trans g Hg).
Qed.
Lemma lawful_sum {A B} (f : A -> A -> comparison) (g : B -> B -> comparison) :
  lawful f -> lawful g -> lawful (cmpSum f g).
Proof.
  intros [Ff Ft] [Gf Gt']. split; intros [] []; cbn; auto; intros []; cbn; eauto; done.
Qed.
Lemma lawful_list {A} (f : A -> A -> comparison) : lawful f -> lawful (cmpList f).
Proof.
  intros Hf. split.
  - intros a. induction a as [| x a IH]; intros [| y b]; cbn; try done.
    rewrite (lawful_opp f Hf x y). by apply lex_opp.
  - intros a. induction a as [| x a IH]; intros [| y b] [| z c]; cbn; try done.
    apply lex_trans; [done | apply IH].
Qed.
#[local] Hint Resolve lawful_Z lawful_N lawful_pair lawful_sum lawful_list : turbo.

Lemma compareText_list a b : compareText a b = cmpList N.compare a b.
Proof.
  unfold compareText. revert b. induction a as [| x a IH]; intros [| y b]; try done. cbn [cmpList leUnits].
  specialize (IH b). destruct (N.compare_spec x y) as [-> | Hlt | Hgt]; cbn [lex].
  - rewrite N.ltb_irrefl, N.eqb_refl. cbn [orb andb]. rewrite <- IH. repeat case_decide; congruence.
  - rewrite decide_False by (intros [=]; lia). by rewrite (proj2 (N.ltb_lt x y)).
  - rewrite decide_False by (intros [=]; lia).
    by rewrite (proj2 (N.ltb_ge x y)), (proj2 (N.eqb_neq x y)) by lia.
Qed.

(** ** The order of versions *)

(** A number of a version: zero, finite or infinite, never negative. *)
Definition natural (x : spec_float) : Prop :=
  match x with S754_zero _ => True | S754_finite s _ _ | S754_infinity s => s = false | S754_nan => False end.

Definition numKey (x : spec_float) : Z * (Z * Z) :=
  match x with
  | S754_finite _ m e => (1, (e, Zpos m))
  | S754_infinity _ => (2, (0, 0))
  | _ => (0, (0, 0))
  end.
Definition cmpNum : Z * (Z * Z) -> Z * (Z * Z) -> comparison := cmpPair Z.compare (cmpPair Z.compare Z.compare).

Lemma compare_key x y : natural x -> natural y -> SFcompare x y = Some (cmpNum (numKey x) (numKey y)).
Proof.
  destruct x as [| | | ? m e], y as [| | | ? m' e']; cbn; intros; subst; try done.
  unfold cmpNum, cmpPair. cbn. by destruct (e ?= e').
Qed.

Lemma iter_shr m p : 0 <= shr_m m -> 0 <= shr_m (iter_pos shr_1 p m).
Proof.
  revert m. assert (forall m, 0 <= shr_m m -> 0 <= shr_m (shr_1 m)) as H1.
  { intros [[| [] |] r s]; cbn; lia. }
  induction p as [p IH | p IH |]; intros m Hm; cbn; auto.
Qed.
Lemma shr_fexp_nonneg m e l : 0 <= m -> 0 <= shr_m (shr_fexp 53 1024 m e l).1.
Proof.
  intros Hm. unfold shr_fexp, shr.
  assert (0 <= shr_m (shr_record_of_loc m l)) as Hr by (by destruct l as [| []]).
  case_match; [done | by apply iter_shr | done].
Qed.
Lemma round_natural m e : natural (binary_round_aux 53 1024 false (Zpos m) e loc_Exact).
Proof.
  unfold binary_round_aux. pose proof (shr_fexp_nonneg (Zpos m) e loc_Exact ltac:(lia)) as H1.
  destruct (shr_fexp 53 1024 (Zpos m) e loc_Exact) as [r1 e1]. cbn in H1.
  set (mx := round_nearest_even _ _).
  assert (0 <= mx) as Hx by (subst mx; unfold round_nearest_even; repeat case_match; lia).
  pose proof (shr_fexp_nonneg mx e1 loc_Exact Hx) as H2.
  destruct (shr_fexp 53 1024 mx e1 loc_Exact) as [r2 e2]. cbn in H2.
  destruct (shr_m r2); [done | by case_match | lia].
Qed.
Lemma numberOf_natural ds : natural (numberOf ds).
Proof.
  unfold numberOf, of_decimal. destruct (decimalValue ds) as [| p | p]; try done. cbn [Z.leb Z.compare].
  rewrite Z.pow_0_r, Z.mul_1_r. cbn [binary_normalize]. unfold binary_round. case_match. apply round_natural.
Qed.

Definition baseKey (p : ParsedSemver) := (numKey (major p), (numKey (minor p), numKey (patch p))).
Definition cmpBase := cmpPair cmpNum (cmpPair cmpNum cmpNum).

Lemma lawful_num : lawful cmpNum.
Proof. unfold cmpNum. auto with turbo. Qed.
Lemma lawful_base : lawful cmpBase.
Proof. unfold cmpBase. pose proof lawful_num. auto with turbo. Qed.

Definition naturals (p : ParsedSemver) : Prop := natural (major p) /\ natural (minor p) /\ natural (patch p).

Lemma captureNumber_natural s x rest : captureNumber s = Some (x, rest) -> natural x.
Proof. unfold captureNumber. destruct (digits s). case_decide; intros; simplify_eq. apply numberOf_natural. Qed.
Lemma parse_naturals v p : parseSemver v = Some p -> naturals p.
Proof.
  unfold parseSemver. destruct v as [v |]; [| done]. cbn [mbind option_bind]. case_decide; [done |].
  match goal with |- semverExec ?t = _ -> _ => generalize t end. intros s. unfold semverExec.
  destruct (captureNumber s) as [[ma s1] |] eqn:E1; [| done]. cbn [mbind option_bind].
  destruct (skipUnit 46 s1) as [s2 |]; [| done]. cbn [mbind option_bind].
  destruct (captureNumber s2) as [[mi s3] |] eqn:E2; [| done]. cbn [mbind option_bind].
  destruct (skipUnit 46 s3) as [s4 |]; [| done]. cbn [mbind option_bind].
  destruct (captureNumber s4) as [[pa s5] |] eqn:E3; [| done]. cbn [mbind option_bind].
  destruct (captureLabel 45 s5) as [[l s6] |]; [| done]. cbn [mbind option_bind].
  destruct (captureLabel 43 s6) as [[l' s7] |]; [| done]. cbn [mbind option_bind].
  case_decide; [| done]. intros [= <-]. split_and!; cbn; by eapply captureNumber_natural.
Qed.

(** One step of [compareSemver]. *)
Lemma compare_step x y r : natural x -> natural y ->
  (if negb (SFeqb x y) then minus x y else Some r) = Some (lex (cmpNum (numKey x) (numKey y)) r).
Proof.
  intros Hx Hy. unfold SFeqb. assert (minus x y = SFcompare x y \/ SFcompare x y = Some Eq) as Hm.
  { destruct x as [| s | |], y as [| s' | |]; cbn in *; subst; auto. }
  rewrite (compare_key x y Hx Hy) in *. destruct (cmpNum (numKey x) (numKey y)); cbn; [done | |];
    by destruct Hm as [-> | ?].
Qed.

Definition identKey (a : jstring) : (Z * (Z * Z)) + jstring :=
  if isNumeric a then inl (numKey (numberOf a)) else inr a.
Definition cmpIdent := cmpSum cmpNum (cmpList N.compare).
Definition versionKey (p : ParsedSemver) :=
  (baseKey p, match prerelease p with [] => inr tt | l => inl (map identKey l) end).
Definition cmpVersion := cmpPair cmpBase (cmpSum (cmpList cmpIdent) (fun _ _ : unit => Eq)).

Lemma lawful_version : lawful cmpVersion.
Proof.
  unfold cmpVersion, cmpIdent. pose proof lawful_base. pose proof lawful_num.
  assert (lawful (fun _ _ : unit => Eq)) by done. auto 10 with turbo.
Qed.

(** No numeric label is so long that its number is infinite. *)
Definition finiteLabels (p : ParsedSemver) : Prop :=
  Forall (fun a => isNumeric a = true -> num_finite (numberOf a) = true) (prerelease p).

Lemma compareIdentifiers_key a b :
  (isNumeric a = true -> num_finite (numberOf a) = true) ->
  compareIdentifiers a b = Some (cmpIdent (identKey a) (identKey b)).
Proof.
  intros Ha. unfold compareIdentifiers, identKey, cmpIdent.
  destruct (isNumeric a), (isNumeric b); cbn [andb cmpSum]; try done; [| by rewrite compareText_list].
  specialize (Ha eq_refl). rewrite <- compare_key by apply numberOf_natural. unfold minus.
  by destruct (numberOf a).
Qed.

Lemma comparePrerelease_key a b :
  Forall (fun a => isNumeric a = true -> num_finite (numberOf a) = true) a ->
  comparePrerelease a b = Some (cmpList cmpIdent (map identKey a) (map identKey b)).
Proof.
  intros Ha. revert b. induction Ha as [| x a Hx _ IH]; intros [| y b]; try done. cbn [comparePrerelease map cmpList].
  rewrite compareIdentifiers_key, IH by done. by destruct (cmpIdent _ _).
Qed.

Lemma compareSemver_key p q :
  naturals p -> naturals q -> finiteLabels p ->
  compareSemver p q = Some (cmpVersion (versionKey p) (versionKey q)).
Proof.
  intros (P1 & P2 & P3) (Q1 & Q2 & Q3) Hp. unfold compareSemver, cmpVersion, versionKey, cmpBase, baseKey, cmpPair.
  cbn [fst snd]. set (r := cmpSum _ _ _ _).
  assert (match prerelease p, prerelease q with
          | [], [] => Some Eq | [], _ => Some Gt | _, [] => Some Lt | l, m => comparePrerelease l m
          end = Some r) as ->.
  { subst r. destruct (prerelease p) eqn:Ep, (prerelease q) eqn:Eq'; try done. cbn [cmpSum].
    apply comparePrerelease_key. by rewrite <- Ep. }
  rewrite !compare_step by done. f_equal. by destruct (cmpNum (numKey (major p)) _), (cmpNum (numKey (minor p)) _).
Qed.

(** Support only grows with the version.  Of two version texts, where the
    second is not older than the first, the second supports every feature the
    first supports; and a control plane that is at the floor stays at it. *)
Theorem newer_version_keeps_features older newer floors p q :
  parseSemver (Some older) = Some p -> parseSemver (Some newer) = Some q ->
  finiteLabels p -> finiteLabels q ->
  compareSemver q p = Some Eq \/ compareSemver q p = Some Gt ->
  (forall f, (f, true) ∈ resolvePeerCapabilities (Some older) floors ->
    (f, true) ∈ resolvePeerCapabilities (Some newer) floors) /\
  (forall floor, supportStatus (resolveInstanceSupport (Some older) floor) = Supported ->
    supportStatus (resolveInstanceSupport (Some newer) floor) = Supported).
Proof.
  intros Hp Hq Fp Fq Hle. pose proof (parse_naturals _ _ Hp) as Np. pose proof (parse_naturals _ _ Hq) as Nq.
  assert (forall f, naturals f -> compareSemver p f <> Some Lt -> compareSemver q f <> Some Lt) as Hmono.
  { intros f Nf. rewrite compareSemver_key in Hle by done. rewrite !compareSemver_key by done.
    set (kp := versionKey p) in *. set (kq := versionKey q) in *. set (kf := versionKey f).
    intros H1 H2. destruct lawful_version as [Ho Ht]. injection H2 as H2.
    assert (cmpVersion kf kq = Gt) as H3 by (rewrite Ho, H2; done). revert H3. apply (Ht kf kp kq).
    - rewrite Ho. intros H4. apply H1. by destruct (cmpVersion kp kf).
    - rewrite Ho. destruct Hle as [[= ->] | [= ->]]; done. }
  unfold resolvePeerCapabilities, resolveInstanceSupport, peerSupportsFeature. rewrite Hp, Hq. split.
  - intros f (x & E & Hx)%list_elem_of_fmap. apply list_elem_of_fmap. exists x. split; [| done].
    destruct (parseSemver (Some x.2)) as [fl |] eqn:Ef; [| by simplify_eq].
    pose proof (parse_naturals _ _ Ef) as Nf. specialize (Hmono fl Nf). revert E Hmono.
    rewrite !compareSemver_key by done. destruct (cmpVersion (versionKey p) _), (cmpVersion (versionKey q) _); naive_solver.
  - intros floor. destruct (parseSemver (Some floor)) as [fl |] eqn:Ef; [| done]. cbn [supportStatus].
    specialize (Hmono fl (parse_naturals _ _ Ef)). repeat case_decide; naive_solver.
Qed.

Section chain.
Context `{JsDates}.

(** ** Updates in a row *)

Definition installedBy (t : TargetBuild) : InstalledBuild :=
  {| commit := targetCommit t; version := targetVersion t; builtAt := Some (targetBuiltAt t) |}.

(** Each target is accepted by the build before it, with no operator override. *)
Fixpoint accepted (b : InstalledBuild) (l : list (TargetBuild * Env)) : Prop :=
  match l with
  | [] => True
  | (t, env) :: l' =>
      brokeGlass env = false /\ assertNotRollback b t env = Ok tt /\ accepted (installedBy t) l'
  end.

(** A build with a version and a build time the code can read. *)
Definition stamp (b : InstalledBuild) : option (ParsedSemver * Z) :=
  p ← parseSemver (version b); t ← Date_parse (default [] (builtAt b)); Some (p, t).
Definition cmpStamp := cmpPair cmpBase Z.compare.
Definition stampKey (x : ParsedSemver * Z) := (baseKey x.1, x.2).

Lemma rollback_stamps b t x y :
  stamp b = Some x -> stamp (installedBy t) = Some y -> commit b <> targetCommit t ->
  isRollback b t = true <-> cmpStamp (stampKey y) (stampKey x) = Lt.
Proof.
  unfold stamp, isRollback, baseOnly, builtAtOlder. cbn [installedBy version builtAt default].
  destruct (parseSemver (version b)) as [p |] eqn:Ep; [| done]. cbn [mbind option_bind].
  destruct (Date_parse (default [] (builtAt b))) as [i |]; [| done].
  destruct (parseSemver (targetVersion t)) as [q |] eqn:Eq'; [| done]. cbn [mbind option_bind from_option id].
  destruct (Date_parse (targetBuiltAt t)) as [j |]; [| done]. cbn [mbind option_bind]. intros [= <-] [= <-] Hne.
  rewrite decide_False by done. rewrite compareSemver_key.
  2: exact (parse_naturals _ _ Eq'). 2: exact (parse_naturals _ _ Ep). 2: constructor.
  unfold cmpVersion, cmpStamp, stampKey, cmpPair at 1. cbn [fst snd versionKey prerelease cmpSum].
  change (baseKey _) with (baseKey q) at 1. change (baseKey {| major := major p |}) with (baseKey p).
  unfold cmpPair. cbn [fst snd]. destruct (cmpBase (baseKey q) (baseKey p)); cbn [lex]; try done.
  by rewrite Z.ltb_lt.
Qed.

Lemma lawful_stamp : lawful cmpStamp.
Proof. unfold cmpStamp. pose proof lawful_base. auto with turbo. Qed.

Lemma accepted_ordered l b x :
  accepted b l -> stamp b = Some x ->
  Forall (fun t => is_Some (stamp (installedBy t))) (map fst l) ->
  (forall c d, c ∈ b :: map installedBy (map fst l) -> d ∈ b :: map installedBy (map fst l) ->
     commit c = commit d -> stamp c = stamp d) ->
  forall t y, last (map fst l) = Some t -> stamp (installedBy t) = Some y -> cmpStamp (stampKey y) (stampKey x) <> Lt.
Proof.
  revert b x. induction l as [| [t env] l IH]; intros b x; [done |]. cbn [accepted map fst].
  intros (Hg & Ha & Hl) Hb [[z Hz] Hs]%Forall_cons Hc t' y Hlast Hy.
  assert (cmpStamp (stampKey z) (stampKey x) <> Lt) as Hstep.
  { unfold assertNotRollback in Ha. rewrite Hg in Ha. destruct (isRollback b t) eqn:Er; [done |].
    destruct (decide (commit b = targetCommit t)) as [E | n].
    - assert (stamp b = stamp (installedBy t)) as Es by (apply Hc; [left | right; left | done]).
      rewrite Hb, Hz in Es. injection Es as ->. pose proof (lawful_opp _ lawful_stamp (stampKey z) (stampKey z)) as Ho.
      by destruct (cmpStamp (stampKey z) (stampKey z)).
    - intros HL. apply (rollback_stamps b t x z) in HL; [congruence | done | done | done]. }
  destruct l as [| u l]; [cbn in Hlast; by simplify_eq |].
  assert (cmpStamp (stampKey y) (stampKey z) <> Lt) as Hrest.
  { apply (IH (installedBy t) z Hl Hz Hs) with (t := t'); [| exact Hlast | exact Hy].
    intros c d Hc' Hd'. apply Hc; by right. }
  destruct lawful_stamp as [Ho Ht]. specialize (Ht (stampKey x) (stampKey z) (stampKey y)).
  rewrite (Ho (stampKey z) (stampKey x)), (Ho (stampKey y) (stampKey z)), (Ho (stampKey y) (stampKey x)) in Ht.
  destruct (cmpStamp (stampKey z) (stampKey x)), (cmpStamp (stampKey y) (stampKey z)), (cmpStamp (stampKey y) (stampKey x));
    try done; exfalso; by apply Ht.
Qed.

(** Updates never lead back.  When every build of a row of updates was
    accepted from the one before it, without the operator's override, and each
    has a readable version and build time (the same commit always the same
    ones), the last build is not a rollback from the first: replaying old signed
    manifests, in any number of steps, never gets a host to an older build. *)
Theorem accepted_updates_never_go_back b l t :
  accepted b l -> last (map fst l) = Some t -> is_Some (stamp b) ->
  Forall (fun t => is_Some (stamp (installedBy t))) (map fst l) ->
  (forall c d, c ∈ b :: map installedBy (map fst l) -> d ∈ b :: map installedBy (map fst l) ->
     commit c = commit d -> stamp c = stamp d) ->
  isRollback b t = false.
Proof.
  intros Ha Hl [x Hb] Hs Hc. destruct (decide (commit b = targetCommit t)) as [E | n].
  { unfold isRollback. by rewrite decide_True. }
  assert (is_Some (stamp (installedBy t))) as [y Hy].
  { rewrite Forall_forall in Hs. apply Hs. by apply last_Some_elem_of. }
  apply Bool.not_true_iff_false. rewrite (rollback_stamps b t x y) by done.
  by eapply accepted_ordered.
Qed.
End chain.

(** ** Concrete versions *)

#[local] Instance noDates : JsDates := {| otherDate := fun _ => None |}.

Lemma newer_version_keeps_features_witness :
  (("f" : jstring), true) ∈ resolvePeerCapabilities (Some ("v1.2.0" : jstring)) [("f" : jstring, "1.2.0-rc.9" : jstring)].
Proof.
  eapply (newer_version_keeps_features "1.2.0-rc.10+build" "v1.2.0").
  - vm_compute. reflexivity.
  - vm_compute. reflexivity.
  - repeat constructor; vm_compute; auto.
  - constructor.
  - right. vm_compute. reflexivity.
  - vm_compute. left.
Defined.

Definition build (c v t : jstring) : TargetBuild :=
  {| targetCommit := c; targetVersion := Some v; targetBuiltAt := t |}.
Definition rowOfUpdates : list (TargetBuild * Env) :=
  [(build "b" "0.2.0-canary.3" "2025-01-02T00:00:00.000Z", fun _ => None);
   (build "c" "0.10.0" "2025-01-01T00:00:00.000Z", fun _ => None)].
Definition firstBuild : InstalledBuild := installedBy (build "a" "0.2.0" "2025-01-01T00:00:00.000Z").

Lemma accepted_updates_never_go_back_witness :
  isRollback firstBuild (build "c" "0.10.0" "2025-01-01T00:00:00.000Z") = false.
Proof.
  apply (accepted_updates_never_go_back firstBuild rowOfUpdates).
  - vm_compute. repeat split.
  - reflexivity.
  - vm_compute. eauto.
  - repeat constructor; vm_compute; eauto.
  - intros c d Hc Hd. cbn [rowOfUpdates map fst] in Hc, Hd.
    repeat (apply elem_of_cons in Hc as [-> | Hc]); [| | | by inversion Hc];
      repeat (apply elem_of_cons in Hd as [-> | Hd]); try (by inversion Hd); try done;
      intros E; vm_compute in E; discriminate.
Defined.
