(* ===== verification/UpdUrls.v ===== *)
(** * Where manifests are read from ([update/urls.ts], [update/config.ts], [update/types.ts])

    The channels, the release rail, host pins and overlay catalogs.  Parsing a
    URL is the platform's ([JsUrl]): the protocol of a text, and the absolute
    form of a text against a base.  The rule of the release rail is checked on
    the text itself. *)

From S2P Require Import Prelude Regex Text Json GateHttp UpdVersion.

#[local] Open Scope N_scope.

(** [new URL(text).protocol], nothing when it throws; [new URL(value, base).href]. *)
Class JsUrl := {
  urlProtocol : jstring -> option jstring;
  urlHref : jstring -> jstring -> fallible jstring
}.

(** ** Channels ([config.ts]) *)

Inductive UpdateChannel := Trunk | Edge | Canary | Rc | Release.
Definition channelName (c : UpdateChannel) : jstring :=
  match c with Trunk => "trunk" | Edge => "edge" | Canary => "canary" | Rc => "rc" | Release => "release" end.
Definition VALID_CHANNELS : list UpdateChannel := [Trunk; Edge; Canary; Rc; Release].

Definition isUpdateChannel (value : jstring) : option UpdateChannel :=
  find (fun c => bool_decide (channelName c = value)) VALID_CHANNELS.

Definition resolveUpdateChannelConfig (env : Env) : fallible UpdateChannel :=
  let raw := default [] (trim <$> env "TURBOPANEL_UPDATE_CHANNEL") in
  let value : jstring := if decide (raw = []) then "release" else raw in
  match isUpdateChannel value with
  | Some c => Ok c
  | None => Throw (OtherErr "Error" (("Invalid TURBOPANEL_UPDATE_CHANNEL: " : jstring) ++ 34 :: value ++ [34]
                     ++ (". Valid values: " : jstring) ++ join ", " (map channelName VALID_CHANNELS)))
  end.

(** ** The built-in rail ([urls.ts]) *)

Definition GITHUB_RELEASES_REPO : jstring := "TurboPanel/turbopaneld".
Definition INSTANCE_GITHUB_RELEASES_REPO : jstring := "TurboPanel/turbopanel".
Definition UI_GITHUB_RELEASES_REPO : jstring := "TurboPanel/ui".

Inductive ReleaseArtifactKind := DaemonKind | InstanceKind | UiKind.
Definition RELEASE_ARTIFACT_KINDS : list (jstring * ReleaseArtifactKind) :=
  [("daemon" : jstring, DaemonKind); ("instance" : jstring, InstanceKind); ("ui" : jstring, UiKind)].
Definition kindNamed (kind : jstring) : option ReleaseArtifactKind := mapGet RELEASE_ARTIFACT_KINDS kind.
Definition kindName (k : ReleaseArtifactKind) : jstring :=
  match k with DaemonKind => "daemon" | InstanceKind => "instance" | UiKind => "ui" end.

Definition githubReleasesRepo (k : ReleaseArtifactKind) : jstring :=
  match k with
  | InstanceKind => INSTANCE_GITHUB_RELEASES_REPO
  | UiKind => UI_GITHUB_RELEASES_REPO
  | DaemonKind => GITHUB_RELEASES_REPO
  end.

(** [https://github.com/<repo>/releases/] *)
Definition releasesOf (k : ReleaseArtifactKind) : jstring :=
  ("https://github.com/" : jstring) ++ githubReleasesRepo k ++ "/releases/".

Definition builtinChannelManifestUrl (c : UpdateChannel) (k : ReleaseArtifactKind) : option jstring :=
  match c with
  | Canary => Some (releasesOf k ++ "download/canary/manifest.json")
  | Rc => Some (releasesOf k ++ "download/rc/manifest.json")
  | Release => Some (releasesOf k ++ "latest/download/manifest.json")
  | Trunk | Edge => None
  end.

Definition describeMissingBuiltinChannel (c : UpdateChannel) : jstring :=
  match c with
  | Trunk => "The trunk update channel was retired and nothing is published to it any more. Set TURBOPANEL_UPDATE_CHANNEL to canary, rc or release."
  | _ => ("Channel has no built-in manifest location: " : jstring) ++ channelName c
  end.

Definition is_version_char (c : N) : bool := is_alnum c || existsb (N.eqb c) [46; 95; 43; 45].
Definition VERSION_TOKEN : regex := RCat (RSet is_digit) (RStar (RSet is_version_char)).
Definition PINNED_VERSION_RE : regex := VERSION_TOKEN.

Definition pinnedChannelManifestUrl (k : ReleaseArtifactKind) (c : UpdateChannel) (version : jstring) : option jstring :=
  if matches PINNED_VERSION_RE version then
    match c with
    | Canary => Some (releasesOf k ++ ("download/canary/manifest-" : jstring) ++ version ++ ".json")
    | Rc | Release => Some (releasesOf k ++ ("download/v" : jstring) ++ version ++ "/manifest.json")
    | Trunk | Edge => None
    end
  else None.

Definition is_rail_char (c : N) : bool := is_alnum c || existsb (N.eqb c) [46; 95; 126; 43; 45].
Definition RELEASE_MANIFEST_URL_CHARS : regex := RPlus (RSet (fun c => is_rail_char c || (c =? 47))).
Definition RELEASE_MANIFEST_FILE : regex :=
  RCats [RLit "manifest"; ROpt (RCat (RChar 45) (RPlus (RSet is_rail_char))); RLit ".json"].

Definition badSegment (s : jstring) : bool := bool_decide (s = [] \/ s = "." \/ s = "..").

Definition HTTPS : jstring := "https://".

Definition releaseManifestUrlAllowed (kind url : jstring) : bool :=
  match kindNamed kind with
  | None => false
  | Some k =>
      let rest := drop (length HTTPS) url in
      startsWith HTTPS url && matches RELEASE_MANIFEST_URL_CHARS rest &&
      match indexOf 47 rest with
      | None | Some O => false
      | Some slash =>
          let segments := split 47 (drop (S slash) rest) in
          negb (existsb badSegment segments)
          && matches RELEASE_MANIFEST_FILE (default [] (last segments))
          && bool_decide (take slash rest = ("github.com" : jstring))
          && match segments, split 47 (githubReleasesRepo k) with
             | [s0; s1; s2; s3; s4; _], owner :: repo :: _ =>
                 bool_decide (s0 = owner) && bool_decide (s1 = repo) && bool_decide (s2 = ("releases" : jstring))
                 && (bool_decide (s3 = ("download" : jstring))
                     || bool_decide (s3 = ("latest" : jstring)) && bool_decide (s4 = ("download" : jstring)))
             | _, _ => false
             end
      end
  end.

Definition pinnedManifestEnvName (k : ReleaseArtifactKind) : jstring :=
  match k with
  | InstanceKind => "TURBOPANEL_INSTANCE_MANIFEST_URL"
  | UiKind => "TURBOPANEL_UI_MANIFEST_URL"
  | DaemonKind => "TURBOPANEL_MANIFEST_URL"
  end.

Definition stripTrailingSlashes (path : jstring) : jstring := rev (dropWhile (N.eqb 47) (rev path)).

Definition joinPath (base path : jstring) : jstring :=
  stripTrailingSlashes base ++ (if startsWith "/" path then path else 47 :: path).

Definition resolvePinnedManifestUrl (env : Env) (k : ReleaseArtifactKind) : option jstring :=
  let pinned := default [] (trim <$> env (pinnedManifestEnvName k)) in
  if decide (pinned = []) then None
  else if releaseManifestUrlAllowed (kindName k) pinned then Some pinned else None.

Definition RELEASE_TAG_RE : regex := RCat (RChar 118) VERSION_TOKEN.
Definition PER_BUILD_MANIFEST_FILE_RE : regex := RCats [RLit "manifest-"; VERSION_TOKEN; RLit ".json"].

Definition isExactBuildManifestUrl (kind url : jstring) : bool :=
  releaseManifestUrlAllowed kind url &&
  match split 47 (drop (length HTTPS) url) with
  | [s0; _; _; _; s4; tag; file] =>
      bool_decide (s0 = ("github.com" : jstring)) && bool_decide (s4 = ("download" : jstring)) &&
      (if decide (tag = ("canary" : jstring)) then matches PER_BUILD_MANIFEST_FILE_RE file
       else matches RELEASE_TAG_RE tag && bool_decide (file = ("manifest.json" : jstring)))
  | _ => false
  end.

Definition selectUpdateManifestUrl (k : ReleaseArtifactKind) (env : Env) (messageUrl : option jstring) : option jstring :=
  let requested := t ← trim <$> messageUrl; if decide (t = []) then None else Some t in
  match requested with
  | Some url => if isExactBuildManifestUrl (kindName k) url then Some url
                else match resolvePinnedManifestUrl env k with Some p => Some p | None => requested end
  | None => resolvePinnedManifestUrl env k
  end.

Section overlay.
Context `{JsUrl}.

Definition INSECURE_OVERLAY : jstring :=
  "TURBOPANEL_DL_BASE must be an https URL (configured value is not https). Daemon updates will not use the public catalog.".

Definition resolveOverlayDlBase (env : Env) : fallible (option jstring) :=
  let override := default [] (trim <$> env "TURBOPANEL_DL_BASE") in
  if decide (override = []) then Ok None
  else
    let base := stripTrailingSlashes override in
    if decide (default [] (urlProtocol base) = ("https:" : jstring)) then Ok (Some base)
    else Throw (OtherErr "InsecureOverlayBaseError" INSECURE_OVERLAY).

Definition rootCatalogUrl (base : jstring) : jstring := joinPath base "/channels.json".

Definition resolveMaybeRelativeUrl (baseUrl value : jstring) : fallible jstring := urlHref value baseUrl.

(** [{ ...entry, [key]: href }] of an entry whose [key] is a string; other
    entries are kept as they are. *)
Definition absolutizeField (key baseUrl : jstring) (entry : jval) : fallible jval :=
  match entry with
  | JObj o =>
      match getEntry o key with
      | Some (JStr value) =>
          href ← resolveMaybeRelativeUrl baseUrl value;
          Ok (JObj (setEntry key (JStr href) o))
      | _ => Ok entry
      end
  | _ => Ok entry
  end.

(** [channels[name] = entry] on a plain object: the name [__proto__] sets the
    prototype (to an object) and defines no member. *)
Record channel_object := { ownChannels : entries; inherited : entries }.
Definition assignChannel (name : jstring) (entry : jval) (c : channel_object) : channel_object :=
  if decide (name = ("__proto__" : jstring)) then
    match entry with
    | JObj o => {| ownChannels := ownChannels c; inherited := o |}
    | _ => c
    end
  else {| ownChannels := setEntry name entry (ownChannels c); inherited := inherited c |}.

(** The loop over [Object.entries(raw.channels)]. *)
Fixpoint absolutizeChannels (catalogUrl : jstring) (l : entries) (channels : channel_object) : fallible channel_object :=
  match l with
  | [] => Ok channels
  | (name, entry) :: l' =>
      e ← absolutizeField "manifestUrl" catalogUrl entry;
      absolutizeChannels catalogUrl l' (assignChannel name e channels)
  end.

(** The catalog, and what its [channels] object inherits. *)
Definition absolutizeRootCatalogJson (raw : jval) (catalogUrl : jstring) : fallible (jval * entries) :=
  match raw with
  | JObj o =>
      match getEntry o "channels" with
      | Some (JObj c) =>
          channels ← absolutizeChannels catalogUrl (ownEntries c) {| ownChannels := []; inherited := [] |};
          Ok (JObj (setEntry "channels" (JObj (ownChannels channels)) o), inherited channels)
      | _ => Ok (raw, [])
      end
  | _ => Ok (raw, [])
  end.

Definition rewriteArtifactEntry (entry : option jval) (baseUrl : jstring) : fallible (option jval) :=
  match entry with
  | Some e => v ← absolutizeField "url" baseUrl e; Ok (Some v)
  | None => Ok None
  end.

(** [{ ...o, key: v }]; an [undefined] member reads as an absent one. *)
Definition putEntry (key : jstring) (v : option jval) (o : entries) : entries :=
  match v with Some x => setEntry key x o | None => o end.

Definition absolutizeBinary (b : entries) (manifestUrl : jstring) : fallible entries :=
  amd ← rewriteArtifactEntry (getEntry b "linux-amd64") manifestUrl;
  arm ← rewriteArtifactEntry (getEntry b "linux-arm64") manifestUrl;
  Ok (putEntry "linux-arm64" arm (putEntry "linux-amd64" amd b)).

Definition absolutizeChannelManifestJson (raw : jval) (manifestUrl : jstring) : fallible jval :=
  match raw with
  | JObj o =>
      o1 ← match getEntry o "binaryArtifacts" with
           | Some (JObj b) => b' ← absolutizeBinary b manifestUrl; Ok (setEntry "binaryArtifacts" (JObj b') o)
           | _ => Ok o
           end;
      js ← rewriteArtifactEntry (getEntry o "jsFallbackArtifact") manifestUrl;
      orch ← rewriteArtifactEntry (getEntry o "orchestrationArtifact") manifestUrl;
      Ok (JObj (putEntry "orchestrationArtifact" orch (putEntry "jsFallbackArtifact" js o1)))
  | _ => Ok raw
  end.
End overlay.

(** ** The release rail *)

(** A path segment of the rail. *)
Definition railSegment (s : jstring) : Prop :=
  Forall (fun c => is_rail_char c = true) s /\ s <> [] /\ s <> "." /\ s <> "..".

Lemma rail_no_slash s : Forall (fun c => is_rail_char c = true) s -> 47 ∉ s.
Proof. intros Hs Hin. rewrite Forall_forall in Hs. by specialize (Hs _ Hin). Qed.

Lemma url_chars s : matches RELEASE_MANIFEST_URL_CHARS s = true <->
  s <> [] /\ Forall (fun c => is_rail_char c || (c =? 47) = true) s.
Proof. rewrite matches_iff. unfold RELEASE_MANIFEST_URL_CHARS. rewrite lang_plus_set_iff. done. Qed.

Lemma badSegment_false s : badSegment s = false <-> s <> [] /\ s <> "." /\ s <> "..".
Proof. unfold badSegment. rewrite bool_decide_eq_false. naive_solver. Qed.

Lemma repo_parts k : exists owner repo, split 47 (githubReleasesRepo k) = [owner; repo] /\
  githubReleasesRepo k = owner ++ 47 :: repo /\ railSegment owner /\ railSegment repo.
Proof.
  exists "TurboPanel", (match k with DaemonKind => "turbopaneld" | InstanceKind => "turbopanel" | UiKind => "ui" end).
  destruct k; repeat split; try done; repeat constructor.
Qed.

Definition HOST : jstring := "github.com".
Definition RELEASES : jstring := "releases".

Lemma rail_text k (owner repo a b file : jstring) :
  githubReleasesRepo k = owner ++ 47 :: repo ->
  HTTPS ++ HOST ++ 47 :: join [47] [owner; repo; RELEASES; a; b; file] = releasesOf k ++ a ++ 47 :: b ++ 47 :: file.
Proof.
  intros E. unfold releasesOf. rewrite E. change ("https://github.com/" : jstring) with (HTTPS ++ HOST ++ [47]).
  change ("/releases/" : jstring) with (47 :: RELEASES ++ [47]). cbn [join]. by rewrite <- !app_assoc.
Qed.

(** The parts of [rest] behind the host. *)
Lemma rest_segments (segments : list jstring) :
  segments <> [] -> Forall (fun s => 47 ∉ s) segments ->
  let rest := HOST ++ 47 :: join [47] segments in
  indexOf 47 rest = Some 10%nat /\ take 10 rest = HOST /\ split 47 (drop 11 rest) = segments.
Proof. intros Hn Hs. split; [done |]. split; [done |]. by apply split_join. Qed.

Lemma join_chars (f : N -> bool) segments :
  f 47 = true -> Forall (fun c => f c = true) (join [47] segments) <-> Forall (Forall (fun c => f c = true)) segments.
Proof.
  intros Hf. induction segments as [| s [| s' l] IH]; cbn [join]; [by rewrite !Forall_nil | |].
  - rewrite Forall_cons, Forall_nil. naive_solver.
  - rewrite !Forall_app, !Forall_cons in *. rewrite IH. rewrite Forall_nil. naive_solver.
Qed.

Lemma allowed_iff kind k url :
  kindNamed kind = Some k ->
  releaseManifestUrlAllowed kind url = true <->
  exists a b file, url = releasesOf k ++ a ++ 47 :: b ++ 47 :: file /\
    railSegment a /\ railSegment b /\ railSegment file /\ matches RELEASE_MANIFEST_FILE file = true /\
    (a = "download" \/ (a = "latest" /\ b = "download")).
Proof.
  intros Hk. unfold releaseManifestUrlAllowed. rewrite Hk.
  destruct (repo_parts k) as (owner & repo & -> & Er & Ho & Hr). split.
  - rewrite !andb_true_iff. intros [[Hs Hc] Hm]. apply startsWith_spec in Hs as (rest & ->).
    rewrite drop_app_length in *. destruct (indexOf 47 rest) as [[| slash] |] eqn:Ei; try done.
    apply indexOf_spec in Ei as [El _]. set (tail := drop (S (S slash)) rest) in *.
    rewrite !andb_true_iff in Hm. destruct Hm as [[[Hb Hf] Hh] Hseg]. apply bool_decide_eq_true in Hh.
    rewrite Hh in El. pose proof (join_split 47 tail) as Hj. pose proof (split_no_sep 47 tail) as Hsep.
    destruct (split 47 tail) as [| s0 [| s1 [| s2 [| a [| b [| file []]]]]]]; try done.
    rewrite !andb_true_iff in Hseg. destruct Hseg as [[[H0 H1] H2] H3].
    apply bool_decide_eq_true in H0, H1, H2. subst s0 s1 s2. exists a, b, file.
    rewrite El, <- Hj, (rail_text k) by done. split; [done |].
    apply url_chars in Hc as [_ Hc]. rewrite El, Forall_app, Forall_cons, <- Hj in Hc. destruct Hc as (_ & _ & Hc).
    apply (join_chars (fun c => is_rail_char c || (c =? 47))) in Hc; [| done].
    apply negb_true_iff in Hb. rewrite existsb_false_iff, Forall_forall in Hb.
    assert (forall s, s ∈ [owner; repo; RELEASES; a; b; file] -> railSegment s) as Hrail.
    { intros s Hs. rewrite !Forall_forall in Hc, Hsep. split; [| by apply badSegment_false, Hb].
      apply Forall_forall. intros c Hin. specialize (Hc s Hs). rewrite Forall_forall in Hc. specialize (Hc c Hin).
      apply orb_true_iff in Hc as [? | ->%N.eqb_eq]; [done |]. by destruct (Hsep s Hs). }
    split_and!; try (apply Hrail; set_solver); [done |].
    rewrite orb_true_iff, andb_true_iff, !bool_decide_eq_true in H3. done.
  - intros (a & b & file & -> & Ha & Hb & Hf & Hm & Hd). rewrite <- (rail_text k owner repo) by done.
    rewrite drop_app_length, startsWith_app.
    assert (railSegment RELEASES) as HR by (split; [repeat constructor | done]).
    assert (Forall railSegment [owner; repo; RELEASES; a; b; file]) as Hall by auto 10 using Forall_cons_2, Forall_nil_2.
    pose proof (rest_segments [owner; repo; RELEASES; a; b; file]) as Hseg. cbv zeta in Hseg.
    destruct Hseg as (Hi & Ht & Hsp); [done | |].
    { eapply Forall_impl; [exact Hall |]. intros s [Hs _]. by apply rail_no_slash. }
    set (rest := HOST ++ _) in *. rewrite Hi, Ht, Hsp.
    assert (existsb badSegment [owner; repo; RELEASES; a; b; file] = false) as ->.
    { apply existsb_false_iff. eapply Forall_impl; [exact Hall |]. intros s [_ Hs]. by apply badSegment_false. }
    change (last [owner; repo; RELEASES; a; b; file]) with (Some file). cbn [default from_option id]. rewrite Hm.
    rewrite (proj2 (url_chars _)).
    2: { split; [done |]. apply Forall_app. split; [repeat constructor |]. constructor; [done |].
         apply (join_chars (fun c => is_rail_char c || (c =? 47))); [done |].
         eapply Forall_impl; [exact Hall |]. intros s [Hs _]. eapply Forall_impl; [exact Hs |]. by intros c ->. }
    rewrite !bool_decide_eq_true_2 by done. cbn [negb andb].
    rewrite orb_true_iff, andb_true_iff, !bool_decide_eq_true. done.
Qed.

(** C18. The release rail, exactly.  The check of a manifest URL accepts the texts
    [https://github.com/TurboPanel/<repo>/releases/<a>/<b>/<file>] with the
    repository of the kind, [download/<tag>] or [latest/download] for [a/b],
    every segment non-empty, not a dot segment and of the closed character set,
    and a manifest's file name; and no other text. *)
Theorem release_rail_exact kind url :
  releaseManifestUrlAllowed kind url = true <->
  exists k a b file, kindNamed kind = Some k /\
    url = ("https://github.com/" : jstring) ++ githubReleasesRepo k ++ ("/releases/" : jstring)
          ++ a ++ 47 :: b ++ 47 :: file /\
    railSegment a /\ railSegment b /\ railSegment file /\ matches RELEASE_MANIFEST_FILE file = true /\
    (a = "download" \/ (a = "latest" /\ b = "download")).
Proof.
  destruct (kindNamed kind) as [k |] eqn:Hk.
  - rewrite (allowed_iff kind k url Hk). split.
    + intros (a & b & file & -> & Hr). exists k, a, b, file. split; [done |]. split; [| done].
      unfold releasesOf. by rewrite <- !app_assoc.
    + intros (k' & a & b & file & [= <-] & -> & Hr). exists a, b, file. split; [| done].
      unfold releasesOf. by rewrite <- !app_assoc.
  - unfold releaseManifestUrlAllowed. rewrite Hk. split; [done |]. by intros (? & ? & ? & ? & ? & _).
Qed.

(** ** One exact build *)

Lemma kindNamed_name k : kindNamed (kindName k) = Some k.
Proof. by destruct k. Qed.

Lemma version_token v : matches VERSION_TOKEN v = true <->
  exists d t, v = d :: t /\ is_digit d = true /\ Forall (fun c => is_version_char c = true) t.
Proof.
  rewrite matches_iff. unfold VERSION_TOKEN. rewrite lang_cat_iff. setoid_rewrite lang_set_iff.
  setoid_rewrite lang_star_set_iff. split.
  - intros (s1 & s2 & -> & (d & -> & Hd) & Ht). by exists d, s2.
  - intros (d & t & -> & Hd & Ht). exists [d], t. split; [done |]. split; [by exists d | done].
Qed.

Lemma version_rail c : is_version_char c = true -> is_rail_char c = true.
Proof. unfold is_version_char, is_rail_char. cbn [existsb]. rewrite !orb_true_iff. tauto. Qed.

Lemma token_rail v : matches VERSION_TOKEN v = true -> Forall (fun c => is_rail_char c = true) v /\ v <> [].
Proof.
  intros (d & t & -> & Hd & Ht)%version_token. split; [| done]. constructor.
  - unfold is_rail_char, is_alnum. by rewrite Hd, orb_true_r.
  - eapply Forall_impl; [exact Ht |]. apply version_rail.
Qed.

Lemma manifest_file_plain : matches RELEASE_MANIFEST_FILE "manifest.json" = true.
Proof. reflexivity. Qed.
Lemma manifest_file_token v : matches VERSION_TOKEN v = true ->
  matches RELEASE_MANIFEST_FILE (("manifest-" : jstring) ++ v ++ ".json") = true.
Proof.
  intros [Hv Hn]%token_rail. rewrite matches_iff. unfold RELEASE_MANIFEST_FILE. cbn [RCats].
  apply lang_lit_cat_iff. exists (45 :: v ++ ".json"). split; [done |].
  apply lang_cat_iff. exists (45 :: v), (".json" : jstring). split; [done |].
  split; [| by apply lang_cat_iff; exists (".json" : jstring), []; rewrite app_nil_r, lang_lit_iff, lang_eps_iff].
  apply lang_opt_iff. right. apply lang_cat_iff. exists [45], v. split; [done |].
  split; [by apply lang_char_iff | by apply lang_plus_set_iff].
Qed.

Definition DOWNLOAD : jstring := "download".

Lemma exact_url k (tag file : jstring) :
  railSegment tag -> railSegment file -> matches RELEASE_MANIFEST_FILE file = true ->
  isExactBuildManifestUrl (kindName k) (releasesOf k ++ DOWNLOAD ++ 47 :: tag ++ 47 :: file) =
  if decide (tag = ("canary" : jstring)) then matches PER_BUILD_MANIFEST_FILE_RE file
  else matches RELEASE_TAG_RE tag && bool_decide (file = ("manifest.json" : jstring)).
Proof.
  intros Ht Hf Hm. unfold isExactBuildManifestUrl.
  assert (railSegment DOWNLOAD) as HD by (split; [repeat constructor | done]).
  rewrite (proj2 (allowed_iff _ k _ (kindNamed_name k))) by (exists DOWNLOAD, tag, file; auto 10).
  destruct (repo_parts k) as (owner & repo & _ & Er & Ho & Hr).
  rewrite <- (rail_text k owner repo) by done. rewrite drop_app_length.
  change (HOST ++ 47 :: join [47] [owner; repo; RELEASES; DOWNLOAD; tag; file])
    with (join [47] [HOST; owner; repo; RELEASES; DOWNLOAD; tag; file]).
  assert (railSegment RELEASES) as HR by (split; [repeat constructor | done]).
  assert (railSegment HOST) as HH by (split; [repeat constructor | done]).
  assert (Forall railSegment [HOST; owner; repo; RELEASES; DOWNLOAD; tag; file]) as Hall
    by auto 10 using Forall_cons_2, Forall_nil_2.
  rewrite split_join; [reflexivity | done |].
  eapply Forall_impl; [exact Hall |]. intros s [Hs _]. by apply rail_no_slash.
Qed.

Lemma rail_space url kind : releaseManifestUrlAllowed kind url = true -> trim url = url.
Proof.
  intros Ha. apply trimBy_none. unfold releaseManifestUrlAllowed in Ha.
  destruct (kindNamed kind); [| done]. rewrite !andb_true_iff in Ha. destruct Ha as [[Hs Hc] _].
  apply startsWith_spec in Hs as (rest & ->). rewrite drop_app_length in Hc. apply url_chars in Hc as [_ Hc].
  apply Forall_app. split; [repeat constructor |]. eapply Forall_impl; [exact Hc |]. clear. intros c Hc.
  apply orb_true_iff in Hc as [Hc | ->%N.eqb_eq]; [| done].
  assert (c < 128 /\ 32 < c) as [? ?].
  { revert Hc. unfold is_rail_char, is_alnum, is_alpha, is_upper, is_lower, is_digit, in_range. cbn [existsb].
    rewrite !orb_true_iff, !andb_true_iff, !N.leb_le, !N.eqb_eq. lia. }
  unfold is_js_space, in_range. cbn [existsb]. rewrite !orb_false_iff, ?andb_false_iff, ?N.leb_gt, ?N.eqb_neq. lia.
Qed.

Lemma token_tag v : matches VERSION_TOKEN v = true -> matches RELEASE_TAG_RE (118 :: v) = true.
Proof.
  intros Hv. apply matches_iff, lang_cat_iff. exists [118], v. split; [done |].
  split; [by apply lang_char_iff | by apply matches_iff].
Qed.
Lemma token_file v : matches VERSION_TOKEN v = true ->
  matches PER_BUILD_MANIFEST_FILE_RE (("manifest-" : jstring) ++ v ++ ".json") = true.
Proof.
  intros Hv%matches_iff. apply matches_iff. unfold PER_BUILD_MANIFEST_FILE_RE. cbn [RCats].
  apply lang_lit_cat_iff. eexists. split; [done |]. apply lang_cat_iff. exists v, (".json" : jstring).
  split; [done |]. split; [done |]. apply lang_cat_iff. exists (".json" : jstring), [].
  by rewrite app_nil_r, lang_lit_iff, lang_eps_iff.
Qed.

(** The two shapes of [pinnedChannelManifestUrl]. *)
Lemma pinned_shape k c v url :
  pinnedChannelManifestUrl k c v = Some url ->
  exists tag file, url = releasesOf k ++ DOWNLOAD ++ 47 :: tag ++ 47 :: file /\
    railSegment tag /\ railSegment file /\ matches RELEASE_MANIFEST_FILE file = true /\
    (tag = "canary" /\ file = ("manifest-" : jstring) ++ v ++ ".json" \/ tag = 118 :: v /\ file = "manifest.json") /\
    matches VERSION_TOKEN v = true.
Proof.
  unfold pinnedChannelManifestUrl, PINNED_VERSION_RE. destruct (matches VERSION_TOKEN v) eqn:Hv; [| done].
  destruct (token_rail v Hv) as [Hr Hn].
  assert (railSegment (("manifest-" : jstring) ++ v ++ ".json")) as Hfile.
  { split; [| done]. apply Forall_app; split; [repeat constructor |]. apply Forall_app. split; [done | repeat constructor]. }
  assert (railSegment (118 :: v)) as Htag.
  { split; [by constructor |]. split; [done |]. split; intros [=]; done. }
  assert (railSegment "canary" /\ railSegment "manifest.json") as [Hc Hm]
    by (split; (split; [repeat constructor | done])).
  destruct c; intros [= <-].
  - exists "canary", (("manifest-" : jstring) ++ v ++ ".json"). split; [reflexivity |].
    split_and!; try done; [by apply manifest_file_token | by left].
  - exists (118 :: v), "manifest.json". split; [reflexivity |]. split_and!; try done. by right.
  - exists (118 :: v), "manifest.json". split; [reflexivity |]. split_and!; try done. by right.
Qed.

(** An update that names one build installs that build.  The URL the daemon
    makes for a published version is one exact build on the release rail, and a
    request for it is followed whatever pin the host has; a request that names
    anything else never replaces a host's pin; and a pin that is followed is on
    the rail of its kind. *)
Theorem exact_request_wins k c v url env :
  pinnedChannelManifestUrl k c v = Some url ->
  isExactBuildManifestUrl (kindName k) url = true /\
  selectUpdateManifestUrl k env (Some url) = Some url /\
  (forall message pin, (forall m, message = Some m -> isExactBuildManifestUrl (kindName k) (trim m) = false) ->
    resolvePinnedManifestUrl env k = Some pin ->
    selectUpdateManifestUrl k env message = Some pin /\ releaseManifestUrlAllowed (kindName k) pin = true).
Proof.
  intros Hp. destruct (pinned_shape k c v url Hp) as (tag & file & -> & Ht & Hf & Hm & Hshape & Hv).
  assert (isExactBuildManifestUrl (kindName k) (releasesOf k ++ DOWNLOAD ++ 47 :: tag ++ 47 :: file) = true) as Hex.
  { rewrite exact_url by done. destruct Hshape as [[-> ->] | [-> ->]].
    - rewrite decide_True by done. by apply token_file.
    - rewrite decide_False by done. rewrite token_tag by done. done. }
  split; [done |]. split.
  - unfold selectUpdateManifestUrl. cbn [fmap option_fmap option_map mbind option_bind].
    rewrite (rail_space _ (kindName k)) by (unfold isExactBuildManifestUrl in Hex; by apply andb_true_iff in Hex as [? _]).
    rewrite decide_False by done. by rewrite Hex.
  - intros message pin Hmsg Hpin. split.
    + unfold selectUpdateManifestUrl. destruct message as [m |]; cbn [fmap option_fmap option_map mbind option_bind]; [| done].
      case_decide; [done |]. by rewrite (Hmsg m), Hpin.
    + unfold resolvePinnedManifestUrl in Hpin. case_decide; [done |]. case_match; [| done]. by simplify_eq.
Qed.

Lemma exact_request_wins_witness :
  let url := ("https://github.com/TurboPanel/turbopaneld/releases/download/v0.2.1/manifest.json" : jstring) in
  let env := fun _ => Some ("https://github.com/TurboPanel/turbopaneld/releases/download/v0.1.0/manifest.json" : jstring) in
  isExactBuildManifestUrl "daemon" url = true /\ selectUpdateManifestUrl DaemonKind env (Some url) = Some url.
Proof.
  intros url env. destruct (exact_request_wins DaemonKind Release "0.2.1" url env) as (H1 & H2 & _).
  - reflexivity.
  - split; [exact H1 | exact H2].
Defined.
