(* ===== verification/UpdManifest.v ===== *)
(** * Release manifests ([update/validate.ts], [update/signing.ts], [update/checksum.ts])

    A manifest names what a daemon downloads and runs as root.  Its signature is
    made over the canonical JSON of everything but the signature; the parser
    that follows only reads fields.  Ed25519 and SHA-256 are the platform's
    ([Crypto]); base64 and hex decoding are the standard library's
    ([StdEncoding]), nothing standing for a throw. *)

From S2P Require Import Prelude Regex Text Json Number JsonPrint Base64 GateHttp GateApproval CtParse FwRender UpdVersion UpdUrls.

#[local] Open Scope N_scope.

Class StdEncoding := {
  encodeBase64 : bytes -> jstring;
  decodeBase64 : jstring -> option bytes;
  decodeHex : jstring -> option bytes
}.

Definition malformed {A} (message : jstring) : fallible A := Throw (OtherErr "MalformedManifestError" message).
Definition unsupportedSchema {A} (message : jstring) : fallible A :=
  Throw (OtherErr "UnsupportedSchemaVersionError" message).
Definition signatureError {A} (message : jstring) : fallible A := Throw (OtherErr "ManifestSignatureError" message).

(** [`${n}`]. *)
Definition numberWords `{JsTables} (n : spec_float) : jstring :=
  match n with
  | S754_infinity true => "-Infinity"
  | S754_infinity false => "Infinity"
  | S754_nan => "NaN"
  | _ => number_text n
  end.

(** ** Checksums ([checksum.ts]) *)

Definition verifyChecksumSha256 `{Crypto} (data : bytes) (expectedHex : jstring) : fallible unit :=
  let actual := encodeHex (sha256 data) in
  if decide (toLowerCase actual = toLowerCase expectedHex) then Ok tt
  else Throw (OtherErr "ChecksumMismatchError"
         (("SHA-256 checksum mismatch: expected " : jstring) ++ expectedHex ++ (", got " : jstring) ++ actual)).

(** ** Parsing ([validate.ts]) *)

Definition SHA256_HEX_RE : regex := RTimes 64 (RSet is_hex).
Definition is_base64_char (c : N) : bool := is_alnum c || (c =? 43) || (c =? 47).
Definition BASE64_RE : regex := RCat (RPlus (RSet is_base64_char)) (RUpTo 2 (RChar 61)).

Definition MANIFEST_SIGNATURE_ALG : jstring := "ed25519".

(** [alg] is always the one algorithm. *)
Record ManifestSignature := { keyId : jstring; signatureValue : jstring }.

(** An [ArtifactEntry] is the object itself, read at these fields. *)
Record ArtifactEntry := { entryUrl : jstring; entrySha256 : jstring; entrySize : spec_float; entryMembers : entries }.

Record BinaryArtifacts := { linuxAmd64 : ArtifactEntry; linuxArm64 : ArtifactEntry }.

(** [version] is not checked, so it may be any value. *)
Record ChannelManifest := {
  manifestChannel : jstring; manifestCommit : jstring; manifestBuildId : jstring; manifestBuiltAt : jstring;
  manifestVersion : option jval; binaryArtifacts : BinaryArtifacts; jsFallbackArtifact : ArtifactEntry;
  orchestrationArtifact : ArtifactEntry; manifestSignature : option ManifestSignature
}.

Section validate.
Context `{JsTables} `{JsUrl}.

Definition requireHttpsUrl (url fieldName : jstring) : fallible unit :=
  match urlProtocol url with
  | None => malformed (fieldName ++ " must be a valid absolute URL")
  | Some protocol =>
      if decide (protocol = ("https:" : jstring)) then Ok tt else malformed (fieldName ++ " must use HTTPS")
  end.

(** A member of an object; other values have none of these. *)
Definition memberOf (v : jval) (name : jstring) : option jval :=
  match v with JObj o => getEntry o name | _ => None end.

Definition badField (fieldName field : jstring) : jstring :=
  fieldName ++ (" missing or invalid field: " : jstring) ++ field.

Definition nonBlank (v : option jval) : option jstring :=
  s ← asString v; if decide (trim s = []) then None else Some s.

Definition validateArtifactEntry (entry : option jval) (fieldName : jstring) : fallible ArtifactEntry :=
  o ← given (asRecord entry) (malformed (fieldName ++ " must be an object"));
  url ← given (nonBlank (getEntry o "url")) (malformed (badField fieldName "url"));
  _ ← requireHttpsUrl url (fieldName ++ ".url");
  sha ← given (stringMatching SHA256_HEX_RE (getEntry o "sha256")) (malformed (badField fieldName "sha256"));
  size ← given (n ← asNumber (getEntry o "size"); if num_finite n && num_positive n then Some n else None)
           (malformed (badField fieldName "size"));
  Ok {| entryUrl := url; entrySha256 := sha; entrySize := size; entryMembers := o |}.

Definition validateBinaryArtifacts (entry : option jval) : fallible BinaryArtifacts :=
  o ← given (asRecord entry) (malformed "channel.json binaryArtifacts must be an object");
  amd ← validateArtifactEntry (getEntry o "linux-amd64") "channel.json binaryArtifacts.linux-amd64";
  arm ← validateArtifactEntry (getEntry o "linux-arm64") "channel.json binaryArtifacts.linux-arm64";
  Ok {| linuxAmd64 := amd; linuxArm64 := arm |}.

(** The schema check both parsers begin with. *)
Definition checkSchema (document : jstring) (o : entries) : fallible unit :=
  schema ← given (asNumber (getEntry o "schema")) (malformed (badField document "schema"));
  if SFeqb schema (num_of_Z 1) then Ok tt
  else unsupportedSchema (("Unsupported " : jstring) ++ document ++ (" schema: " : jstring) ++ numberWords schema).

(** [for (const [name, entry] of Object.entries(catalog.channels))] *)
Fixpoint checkChannels (l : entries) : fallible unit :=
  match l with
  | [] => Ok tt
  | (_, JNull) :: _ =>
      Throw (OtherErr "TypeError" "Cannot read properties of null (reading 'manifestUrl')")
  | (name, entry) :: l' =>
      let channel := ("channels.json channel " : jstring) ++ name in
      url ← given (nonBlank (memberOf entry "manifestUrl")) (malformed (channel ++ " missing or invalid manifestUrl"));
      _ ← requireHttpsUrl url (channel ++ ".manifestUrl");
      checkChannels l'
  end.

(** The catalog's channels. *)
Definition parseRootCatalog (raw : jval) : fallible entries :=
  o ← given (asRecord (Some raw)) (malformed "channels.json root must be an object");
  _ ← checkSchema "channels.json" o;
  _ ← given (asString (getEntry o "defaultChannel")) (malformed (badField "channels.json" "defaultChannel"));
  channels ← given (asRecord (getEntry o "channels")) (malformed (badField "channels.json" "channels"));
  _ ← checkChannels (ownEntries channels);
  Ok channels.

Definition validateManifestSignature (raw : jval) : fallible ManifestSignature :=
  o ← given (asRecord (Some raw)) (malformed "channel.json signature must be an object");
  _ ← require (bool_decide (asString (getEntry o "alg") = Some MANIFEST_SIGNATURE_ALG))
        (malformed (("channel.json signature.alg must be " : jstring) ++ MANIFEST_SIGNATURE_ALG));
  key ← given (nonBlank (getEntry o "keyId")) (malformed (badField "channel.json signature" "keyId"));
  value ← given (s ← asString (getEntry o "value"); if matches BASE64_RE (trim s) then Some s else None)
            (malformed (badField "channel.json signature" "value"));
  Ok {| keyId := key; signatureValue := value |}.

Definition parseChannelManifest (raw : jval) : fallible ChannelManifest :=
  o ← given (asRecord (Some raw)) (malformed "channel.json root must be an object");
  _ ← checkSchema "channel.json" o;
  channel ← given (asString (getEntry o "channel")) (malformed (badField "channel.json" "channel"));
  commit ← given (asString (getEntry o "commit")) (malformed (badField "channel.json" "commit"));
  buildId ← given (asString (getEntry o "buildId")) (malformed (badField "channel.json" "buildId"));
  builtAt ← given (asString (getEntry o "builtAt")) (malformed (badField "channel.json" "builtAt"));
  binary ← validateBinaryArtifacts (getEntry o "binaryArtifacts");
  jsFallback ← validateArtifactEntry (getEntry o "jsFallbackArtifact") "channel.json jsFallbackArtifact";
  orchestration ← validateArtifactEntry (getEntry o "orchestrationArtifact") "channel.json orchestrationArtifact";
  signature ← match getEntry o "signature" with
              | None => Ok None
              | Some s => v ← validateManifestSignature s; Ok (Some v)
              end;
  Ok {| manifestChannel := channel; manifestCommit := commit; manifestBuildId := buildId;
        manifestBuiltAt := builtAt; manifestVersion := getEntry o "version"; binaryArtifacts := binary;
        jsFallbackArtifact := jsFallback; orchestrationArtifact := orchestration; manifestSignature := signature |}.
End validate.

(** ** Signatures ([signing.ts]) *)

Definition RELEASE_SIGNING_PUBLIC_KEY_HEX : jstring :=
  "e854267676c6700a79ff19b89211b76d609af142f4c2c1cb011339346d1cea0a".
Definition DEV_UNSIGNED_MANIFEST_ENV : jstring := "TURBOPANEL_DEV_ALLOW_UNSIGNED_MANIFEST".
Definition SIGNATURE_BYTES : nat := 64.
Definition PUBLIC_KEY_BYTES : nat := 32.

Section signing.
Context `{JsTables} `{Crypto} `{StdEncoding}.

(** The same canonical form as the gate's ([canonicalJson]): a parsed document
    has no [undefined] member, so nothing is left out. *)
Definition canonicalize (v : jval) : jstring := canonicalJson v.

Definition unsigned (manifest : list (jstring * jval)) : list (jstring * jval) :=
  filter (fun e => e.1 <> ("signature" : jstring)) manifest.
Definition canonicalManifestBytes (manifest : entries) : bytes :=
  encode_text (canonicalize (JObj (unsigned manifest))).

Definition signingKeyId (publicKey : bytes) : jstring := take 8 (encodeHex (sha256 publicKey)).

Definition decodeRawPublicKey (hex : jstring) : fallible bytes :=
  raw ← given (decodeHex (trim hex)) (signatureError "release public key is not valid hex");
  if decide (length raw = PUBLIC_KEY_BYTES) then Ok raw
  else signatureError (("release public key must be " : jstring) ++ decimalText 32 ++ (" bytes, got " : jstring)
                       ++ decimalText (N.of_nat (length raw))).

(** The platform's own error, when it refuses a key or a signature. *)
Definition platformError {A} : fallible A := Throw (OtherErr "DataError" []).

Definition importVerifyKey (publicKeyHex : jstring) : fallible CryptoKey :=
  raw ← decodeRawPublicKey publicKeyHex;
  given (importKey raw) platformError.

Definition parseSignatureField (raw : option jval) : fallible ManifestSignature :=
  match raw with
  | None | Some JNull => signatureError "channel manifest is unsigned (missing signature)"
  | Some v =>
      o ← given (asRecord (Some v)) (signatureError "channel manifest signature must be an object");
      _ ← require (bool_decide (asString (getEntry o "alg") = Some MANIFEST_SIGNATURE_ALG))
            (signatureError (("channel manifest signature.alg must be " : jstring) ++ MANIFEST_SIGNATURE_ALG));
      key ← given (nonBlank (getEntry o "keyId")) (signatureError "channel manifest signature missing keyId");
      value ← given (nonBlank (getEntry o "value")) (signatureError "channel manifest signature missing value");
      Ok {| keyId := key; signatureValue := value |}
  end.

Definition decodeSignatureValue (value : jstring) : fallible bytes :=
  sig ← given (decodeBase64 (trim value)) (signatureError "channel manifest signature value is not base64");
  if decide (length sig = SIGNATURE_BYTES) then Ok sig
  else signatureError (("channel manifest signature must be " : jstring) ++ decimalText 64 ++ (" bytes, got " : jstring)
                       ++ decimalText (N.of_nat (length sig))).

Definition verifyManifestSignature (manifest : entries) (publicKeyHex : jstring) : fallible unit :=
  signature ← parseSignatureField (getEntry manifest "signature");
  sig ← decodeSignatureValue (signatureValue signature);
  key ← importVerifyKey publicKeyHex;
  ok ← given (ed25519_verify key sig (canonicalManifestBytes manifest)) platformError;
  if ok : bool then Ok tt
  else signatureError (("channel manifest signature is invalid (keyId " : jstring) ++ keyId signature ++ ")").

(** Signing a finished manifest with a key whose raw public half is known. *)
Definition signManifest (sign : bytes -> bytes) (publicKey : bytes) (manifest : entries) : entries :=
  setEntry "signature"
    (JObj [("alg" : jstring, JStr MANIFEST_SIGNATURE_ALG); ("keyId" : jstring, JStr (signingKeyId publicKey));
           ("value" : jstring, JStr (encodeBase64 (sign (canonicalManifestBytes manifest))))])
    manifest.

Inductive InstallMode := Development | Production.

Definition unsignedManifestBypass (mode : InstallMode) (overlay : bool) (env : Env) (pinned : bool) : bool :=
  if pinned then false
  else match mode with
       | Development => true
       | Production => overlay && bool_decide (trim <$> env DEV_UNSIGNED_MANIFEST_ENV = Some ("1" : jstring))
       end.
End signing.

(** ** Signing and verifying *)

Lemma unsigned_set v m : unsigned (setEntry "signature" v m) = unsigned m.
Proof.
  unfold unsigned. induction m as [| [k w] m IH]; [done |]. cbn [setEntry].
  destruct (decide (k = ("signature" : jstring))) as [-> | n].
  - by rewrite !filter_cons_False by (intros Hx; by apply Hx).
  - by rewrite !filter_cons_True, IH by done.
Qed.

Section roundtrip.
Context `{JsTables} `{Crypto} `{StdEncoding}.

(** A signed release verifies.  When a key pair signs and verifies its own
    messages with signatures of 64 bytes, and their base64 text reads back, a manifest
    signed by the release job passes the daemon's check against the public half,
    whatever else the manifest holds (an old signature included), and its
    signature has the shape the manifest parser accepts. *)
Theorem signed_manifest_verifies sign publicKey hex key m :
  importVerifyKey hex = Ok key ->
  (forall data, ed25519_verify key (sign data) data = Some true /\ length (sign data) = 64%nat) ->
  (forall data, decodeBase64 (encodeBase64 (sign data)) = Some (sign data) /\
     trim (encodeBase64 (sign data)) = encodeBase64 (sign data) /\ matches BASE64_RE (encodeBase64 (sign data)) = true) ->
  trim (signingKeyId publicKey) <> [] ->
  verifyManifestSignature (signManifest sign publicKey m) hex = Ok tt /\
  exists s, getEntry (signManifest sign publicKey m) "signature" = Some s /\
    exists sig, validateManifestSignature s = Ok sig.
Proof.
  intros Hkey Hsign Htext Hid. set (value := encodeBase64 (sign (canonicalManifestBytes m))).
  destruct (Hsign (canonicalManifestBytes m)) as [Hv Hl]. destruct (Htext (canonicalManifestBytes m)) as (Hb64 & Ht & Hre).
  assert (trim value <> []) as Hne by (subst value; rewrite Ht; intros E; by rewrite E in Hre).
  unfold verifyManifestSignature, signManifest. fold value. rewrite getEntry_set.
  unfold canonicalManifestBytes at 1. rewrite unsigned_set. fold (canonicalManifestBytes m).
  set (so := [("alg" : jstring, JStr MANIFEST_SIGNATURE_ALG); ("keyId" : jstring, JStr (signingKeyId publicKey));
              ("value" : jstring, JStr value)]).
  assert (getEntry so "alg" = Some (JStr MANIFEST_SIGNATURE_ALG) /\ getEntry so "keyId" = Some (JStr (signingKeyId publicKey)) /\
          getEntry so "value" = Some (JStr value)) as (Ga & Gk & Gv) by done.
  clearbody so. split.
  - assert (parseSignatureField (Some (JObj so)) = Ok {| keyId := signingKeyId publicKey; signatureValue := value |}) as ->.
    { unfold parseSignatureField. cbn [asRecord given]. rewrite Ok_bind. rewrite Ga, Gk, Gv. unfold nonBlank. cbn [asString mbind option_bind].
      rewrite bool_decide_eq_true_2 by done. rewrite !decide_False by done. done. }
    rewrite Ok_bind. cbn [signatureValue].
    assert (decodeSignatureValue value = Ok (sign (canonicalManifestBytes m))) as ->.
    { unfold decodeSignatureValue. subst value. rewrite Ht, Hb64. cbn [given]. rewrite Ok_bind. by rewrite decide_True. }
    rewrite Ok_bind, Hkey, Ok_bind, Hv. done.
  - eexists. split; [reflexivity |]. eexists. unfold validateManifestSignature. cbn [asRecord given]. rewrite Ok_bind.
    rewrite Ga, Gk, Gv. unfold nonBlank. cbn [asString mbind option_bind].
    rewrite bool_decide_eq_true_2 by done. rewrite decide_False by done. subst value. rewrite Ht, Hre. reflexivity.
Qed.
End roundtrip.

(** ** A toy key pair for the examples *)

Definition toySignature : bytes := repeat 7 64.
Definition toySigning : Crypto := {|
  CryptoKey := N;
  sha256 := fun x => take 32 (map (fun b => b mod 256) x ++ repeat 0 32);
  ed25519_verify := fun key signature _ => Some (bool_decide (key = 9 /\ signature = toySignature));
  importKey := head
|}.
Definition toyEncoding : StdEncoding := {|
  encodeBase64 := btoa; decodeBase64 := atob; decodeHex := fun _ => Some (repeat 9 32)
|}.
Definition plainUrls : JsUrl := {|
  urlProtocol := fun u => if startsWith "https:" u then Some ("https:" : jstring)
                          else if startsWith "http:" u then Some ("http:" : jstring) else None;
  urlHref := fun value _ => Ok value
|}.

Definition artifactJson (url : jstring) : jval :=
  JObj [("url" : jstring, JStr url); ("sha256" : jstring, JStr (repeat 97 64)); ("size" : jstring, JNum (num_of_Z 5))].
Definition releaseManifest : entries :=
  [("schema" : jstring, JNum (num_of_Z 1)); ("channel" : jstring, JStr "release"); ("commit" : jstring, JStr "c2");
   ("buildId" : jstring, JStr "b2"); ("builtAt" : jstring, JStr "2025-02-01T00:00:00.000Z");
   ("version" : jstring, JStr "0.2.0");
   ("binaryArtifacts" : jstring, JObj [("linux-amd64" : jstring, artifactJson "https://dl/amd64");
                                       ("linux-arm64" : jstring, artifactJson "https://dl/arm64")]);
   ("jsFallbackArtifact" : jstring, artifactJson "https://dl/js");
   ("orchestrationArtifact" : jstring, artifactJson "https://dl/orchestration")].
Definition signedRelease : entries :=
  signManifest (H := integerTables) (H0 := toySigning) (H1 := toyEncoding) (fun _ => toySignature) (repeat 9 32) releaseManifest.

Lemma signed_manifest_verifies_witness :
  verifyManifestSignature (H := integerTables) (H0 := toySigning) (H1 := toyEncoding) signedRelease "09" = Ok tt.
Proof.
  apply (signed_manifest_verifies (H := integerTables) (H0 := toySigning) (H1 := toyEncoding)
           (fun _ => toySignature) (repeat 9 32) "09" 9 releaseManifest).
  - vm_compute. reflexivity.
  - intros data. split; vm_compute; reflexivity.
  - intros data. vm_compute. auto.
  - vm_compute. discriminate.
Defined.
