(* ===== verification/UpdResolve.v ===== *)
(** * Finding the update to install ([update/resolver.ts], [util/retry-fetch.ts])

    The network is an input: request number [k] for a URL ends as [answers url k]
    says, with a response or an exception.  A run returns what it returns and the
    number of requests it made; waits are listed in milliseconds. *)

From S2P Require Import Prelude Regex Text Json Number JsonPrint Base64 GateHttp GateApproval Dates LogRedact.
From S2P Require Import CtParse FwRender UpdVersion UpdUrls UpdManifest.

#[local] Open Scope Z_scope.

(** ** Bounded retries ([retry-fetch.ts]) *)

(** What a fetch throws; another value by the text [errorText] gives it. *)
Inductive thrown :=
| ThrownError (name message : jstring) (cause : thrown)
| ThrownText (text : jstring)
| ThrownOther (text : jstring).

Fixpoint errorChainText (e : thrown) : jstring :=
  match e with
  | ThrownError name message cause => name ++ 32%N :: message ++ 32%N :: errorChainText cause
  | ThrownText text => text
  | ThrownOther _ => []
  end.

(** [TRANSIENT_NETWORK_RE], in lower case. *)
Definition TRANSIENT_NETWORK : list jstring :=
  ["econnreset"; "etimedout"; "eai_again"; "econnrefused"; "connection refused"; "epipe"; "connection reset";
   "connection closed"; "timeout"; "timedout"; "time out"; "timed out"; "broken pipe";
   "temporary failure in name resolution"; "dns error"].

Definition isTransientNetworkError (e : thrown) : bool :=
  existsb (fun word => includes word (map lowerAscii (errorChainText e))) TRANSIENT_NETWORK.

(** A response, as far as the update path reads it; reading its body may throw. *)
Record Response := { status : Z; retryAfter : option jstring; body : fallible jstring }.

Inductive fetched := Responded (r : Response) | FetchThrew (e : thrown).

Record RetryFetchOptions := {
  attempts : nat; delayMs : Z -> Z; maxRetryAfterMs : Z; retryAfterOnlyExtends : bool;
  statuses : list Z; networkErrors : bool
}.

Definition defaultDelayMs (retry : Z) : Z := 2000 * 2 ^ (retry - 1).
Definition defaultRetry : RetryFetchOptions := {|
  attempts := 4; delayMs := defaultDelayMs; maxRetryAfterMs := 10000; retryAfterOnlyExtends := false;
  statuses := [429; 502; 503; 504]; networkErrors := true
|}.

Section update.
Context `{JsTables} `{JsDates} `{JsUrl} `{Crypto} `{StdEncoding}.

(** Whole seconds (a number too large to hold is over every cap). *)
Definition parseRetryAfterMs (header : option jstring) (now : Z) : option Z :=
  let value := default [] (trim <$> header) in
  if decide (value = []) then None
  else if forallb is_digit value then Some (decimalValue value * 1000)
  else (fun when => Z.max 0 (when - now)) <$> Date_parse value.

Definition waitBeforeRetry (failed : option Response) (now retry : Z) (o : RetryFetchOptions) : Z :=
  let base := delayMs o retry in
  match failed with
  | Some r =>
      if decide (status r = 429) then
        match parseRetryAfterMs (retryAfter r) now with
        | Some asked =>
            let capped := Z.min asked (maxRetryAfterMs o) in
            if retryAfterOnlyExtends o then Z.max base capped else capped
        | None => base
        end
      else base
  | None => base
  end.

(** [attempt(n)] with [left] attempts after this one: what came back, the waits
    and the requests made.  [clock k] is the time after request [k]. *)
Fixpoint attempt (o : RetryFetchOptions) (clock : nat -> Z) (answers : nat -> fetched) (left : nat) (n : Z) (k : nat)
    : fetched * list Z * nat :=
  let stop := (answers k, [], S k) in
  match left with
  | O => stop
  | S left' =>
      let again failed :=
        let '(r, waits, k') := attempt o clock answers left' (n + 1) (S k) in
        (r, waitBeforeRetry failed (clock k) n o :: waits, k') in
      match answers k with
      | FetchThrew e => if networkErrors o && isTransientNetworkError e then again None else stop
      | Responded r => if memb (status r) (statuses o) then again (Some r) else stop
      end
  end.

Definition retryTransient (o : RetryFetchOptions) (clock : nat -> Z) (answers : nat -> fetched) (k : nat)
    : fetched * list Z * nat :=
  attempt o clock answers (pred (attempts o)) 1 k.

(** ** The resolver ([resolver.ts]) *)

Definition formatFetchErrorCause (cause : thrown) : jstring :=
  match cause with ThrownError _ message _ => message | ThrownText text => text | ThrownOther _ => [] end.

Definition fetchDetail (e : thrown) : jstring :=
  match e with
  | ThrownError _ message cause =>
      let c := formatFetchErrorCause cause in
      if decide (message = ("fetch failed" : jstring) /\ c <> []) then message ++ (" (" : jstring) ++ c ++ ")" else message
  | ThrownText text | ThrownOther text => text
  end.

Definition describeFetchError (context : jstring) (e : thrown) : gate_error :=
  OtherErr "MalformedManifestError" (redactUrlSecrets (context ++ (": " : jstring) ++ fetchDetail e)).

Record network := { answersTo : jstring -> nat -> fetched; clockAt : nat -> Z; retryWith : RetryFetchOptions }.

Definition trustedFetch (net : network) (url context : jstring) (k : nat) : fallible Response * nat :=
  let '(r, _, k') := retryTransient (retryWith net) (clockAt net) (answersTo net url) k in
  (match r with Responded x => Ok x | FetchThrew e => Throw (describeFetchError context e) end, k').

(** [Deno.build.arch]. *)
Inductive LinuxArch := Amd64 | Arm64.
Definition resolveLinuxArch (arch : jstring) : fallible LinuxArch :=
  if decide (arch = "x86_64") then Ok Amd64
  else if decide (arch = "aarch64") then Ok Arm64
  else malformed (("Unsupported CPU architecture for daemon updates: " : jstring) ++ arch).
Definition artifactFor (b : BinaryArtifacts) (a : LinuxArch) : ArtifactEntry :=
  match a with Amd64 => linuxAmd64 b | Arm64 => linuxArm64 b end.

Record location := { manifestUrl : jstring; overlay : bool; pinned : bool }.

(** [response.ok] *)
Definition responseOk (r : Response) : bool := (200 <=? status r) && (status r <=? 299).

(** A decimal integer in a message. *)
Definition statusText (z : Z) : jstring := decimalText (Z.to_N z).

Definition readBody (what : jstring) (r : fallible Response) : fallible jstring :=
  response ← r;
  if responseOk response then body response
  else malformed (what ++ (": HTTP " : jstring) ++ statusText (status response)).

(** [response.json()] of a text. *)
Definition jsonOf (text : jstring) : fallible jval :=
  match JSON_parse text with Ok v => Ok v | Throw _ => Throw (OtherErr "SyntaxError" []) end.

(** [catalog.channels[channel]]: an own member, or one it inherits. *)
Definition catalogChannel (channels inherited : entries) (name : jstring) : option jval :=
  match getEntry channels name with Some v => Some v | None => getEntry inherited name end.

Definition manifestInCatalog (catalogUrl text : jstring) (c : UpdateChannel) : fallible jstring :=
  raw ← jsonOf text;
  '(catalog, inherited) ← absolutizeRootCatalogJson raw catalogUrl;
  channels ← parseRootCatalog catalog;
  let missing := Throw (OtherErr "MissingChannelError" (("Channel not found in catalog: " : jstring) ++ channelName c)) in
  match catalogChannel channels inherited (channelName c) with
  | Some JNull => Throw (OtherErr "TypeError" "Cannot read properties of null (reading 'manifestUrl')")
  | Some entry => given (nonBlank (memberOf entry "manifestUrl")) missing
  | None => missing
  end.

Definition resolveManifestLocation (net : network) (c : UpdateChannel) (env : Env) (k : nat)
    : fallible location * nat :=
  match resolveOverlayDlBase env with
  | Throw e => (Throw e, k)
  | Ok None =>
      match resolvePinnedManifestUrl env DaemonKind with
      | Some url => (Ok {| manifestUrl := url; overlay := false; pinned := true |}, k)
      | None =>
          match builtinChannelManifestUrl c DaemonKind with
          | Some url => (Ok {| manifestUrl := url; overlay := false; pinned := false |}, k)
          | None => (Throw (OtherErr "MissingChannelError" (describeMissingBuiltinChannel c)), k)
          end
      end
  | Ok (Some base) =>
      let catalogUrl := rootCatalogUrl base in
      let '(r, k) := trustedFetch net catalogUrl "Failed to fetch channels.json" k in
      (text ← readBody "Failed to fetch channels.json" r;
       url ← manifestInCatalog catalogUrl text c;
       Ok {| manifestUrl := url; overlay := true; pinned := false |}, k)
  end.

Record UpdateInfo := {
  infoChannel : jstring; infoBuildId : jstring; infoCommit : jstring; infoBuiltAt : jstring; infoVersion : option jval;
  binaryArtifact : ArtifactEntry; infoJsFallback : ArtifactEntry; infoOrchestration : ArtifactEntry;
  downloadUrl : jstring; infoManifestUrl : jstring
}.

(** The host's side: where it runs, what it runs, and the key it pins. *)
Record update_host := {
  installMode : InstallMode; publicKeyHex : jstring; installed : InstalledBuild; buildArch : jstring
}.

Definition parseSignedManifestBody (text : jstring) (h : update_host) (env : Env) (l : location) : fallible entries :=
  raw ← match JSON_parse text with Ok v => Ok v | Throw _ => malformed "channel manifest is not valid JSON" end;
  o ← given (asRecord (Some raw)) (malformed "channel.json root must be an object");
  _ ← (if unsignedManifestBypass (installMode h) (overlay l) env (pinned l) then Ok tt
       else verifyManifestSignature o (publicKeyHex h));
  Ok o.

(** [value?.trim()] of the manifest's version: another value than a string has
    no such method. *)
Definition versionOf (v : option jval) : fallible (option jstring) :=
  match v with
  | None | Some JNull => Ok None
  | Some (JStr s) => Ok (Some s)
  | Some _ => Throw (OtherErr "TypeError" "value?.trim is not a function")
  end.

Definition checkFresh (b : InstalledBuild) (m : ChannelManifest) (env : Env) : fallible unit :=
  if brokeGlass env then Ok tt
  else if decide (commit b = manifestCommit m) then Ok tt
  else
    v ← versionOf (manifestVersion m);
    assertNotRollback b {| targetCommit := manifestCommit m; targetVersion := v; targetBuiltAt := manifestBuiltAt m |} env.

(** From the manifest's text on. *)
Definition updateFrom (text : jstring) (h : update_host) (env : Env) (l : location) : fallible UpdateInfo :=
  verified ← parseSignedManifestBody text h env l;
  absolute ← absolutizeChannelManifestJson (JObj verified) (manifestUrl l);
  manifest ← parseChannelManifest absolute;
  _ ← checkFresh (installed h) manifest env;
  arch ← resolveLinuxArch (buildArch h);
  let binary := artifactFor (binaryArtifacts manifest) arch in
  Ok {| infoChannel := manifestChannel manifest; infoBuildId := manifestBuildId manifest;
        infoCommit := manifestCommit manifest; infoBuiltAt := manifestBuiltAt manifest;
        infoVersion := manifestVersion manifest; binaryArtifact := binary;
        infoJsFallback := jsFallbackArtifact manifest; infoOrchestration := orchestrationArtifact manifest;
        downloadUrl := entryUrl binary; infoManifestUrl := manifestUrl l |}.

Definition resolveUpdate (net : network) (c : UpdateChannel) (env : Env) (h : update_host) : fallible UpdateInfo * nat :=
  match resolveManifestLocation net c env 0 with
  | (Throw e, k) => (Throw e, k)
  | (Ok l, k) =>
      let '(r, k) := trustedFetch net (manifestUrl l) "Failed to fetch channel manifest" k in
      (text ← readBody "Failed to fetch channel manifest" r; updateFrom text h env l, k)
  end.

(** ** Retries end *)

(** Worth another try. *)
Definition transient (o : RetryFetchOptions) (r : fetched) : bool :=
  match r with
  | FetchThrew e => networkErrors o && isTransientNetworkError e
  | Responded x => memb (status x) (statuses o)
  end.

Definition failedResponse (r : fetched) : option Response :=
  match r with Responded x => Some x | FetchThrew _ => None end.

Lemma attempt_S o clock answers left n k :
  attempt o clock answers (S left) n k =
  if transient o (answers k) then
    let '(r, waits, k') := attempt o clock answers left (n + 1) (S k) in
    (r, waitBeforeRetry (failedResponse (answers k)) (clock k) n o :: waits, k')
  else (answers k, [], S k).
Proof. cbn [attempt]. unfold transient. by destruct (answers k). Qed.

Lemma attempt_spec o clock answers left n k r waits k' :
  attempt o clock answers left n k = (r, waits, k') ->
  (k < k' <= k + S left)%nat /\ length waits = (k' - k - 1)%nat /\ r = answers (pred k') /\
  (forall j, (k <= j < pred k')%nat -> transient o (answers j) = true) /\
  ((k' < k + S left)%nat -> transient o (answers (pred k')) = false).
Proof.
  revert n k r waits k'. induction left as [| left IH]; intros n k r waits k' E.
  { cbn in E. simplify_eq. cbn. repeat split; try lia. }
  rewrite attempt_S in E. destruct (transient o (answers k)) eqn:Ht.
  - destruct (attempt o clock answers left (n + 1) (S k)) as [[r1 ws] k1] eqn:Ea. injection E as <- <- <-.
    destruct (IH _ _ _ _ _ Ea) as (Hk & Hl & Hr & Hj & Hs). repeat split; try lia; try done.
    + cbn [length]. lia.
    + intros j Hj'. destruct (decide (j = k)) as [-> |]; [done | apply Hj; lia].
    + intros. apply Hs. lia.
  - injection E as <- <- <-. cbn. repeat split; try lia. done.
Qed.

Lemma attempt_waits o clock answers left n k r waits k' :
  attempt o clock answers left n k = (r, waits, k') ->
  forall i w, waits !! i = Some w ->
    w <= Z.max (delayMs o (n + Z.of_nat i)) (maxRetryAfterMs o).
Proof.
  revert n k r waits k'. induction left as [| left IH]; intros n k r waits k' E i w Hi.
  { cbn in E. by simplify_eq. }
  rewrite attempt_S in E. destruct (transient o (answers k)).
  2: by injection E as <- <- <-.
  destruct (attempt o clock answers left (n + 1) (S k)) as [[r1 ws] k1] eqn:Ea. injection E as <- <- <-.
  destruct i as [| i]; cbn [lookup list_lookup] in Hi.
  - injection Hi as <-. rewrite Z.add_0_r. unfold waitBeforeRetry.
      destruct (failedResponse _) as [x |]; [| lia]. case_decide; [| lia].
      destruct (parseRetryAfterMs _ _); [| lia]. cbv zeta. destruct (retryAfterOnlyExtends o); lia.
  - specialize (IH _ _ _ _ _ Ea i w Hi). replace (n + Z.of_nat (S i)) with (n + 1 + Z.of_nat i) by lia. done.
Qed.

(** Retries are bounded and honest.  However the network answers, a fetch
    with retries makes at least one and at most [attempts] requests and returns
    the answer of the last one as it was; every earlier answer was transient,
    and it stops at the first answer that is not.  With the options the update
    path uses it waits at most 30 seconds in all. *)
Theorem retries_are_bounded o clock answers k r waits k' :
  retryTransient o clock answers k = (r, waits, k') ->
  (k < k' <= k + Nat.max 1 (attempts o))%nat /\ length waits = (k' - k - 1)%nat /\
  r = answers (pred k') /\
  (forall j, (k <= j < pred k')%nat -> transient o (answers j) = true) /\
  ((k' < k + attempts o)%nat -> transient o (answers (pred k')) = false) /\
  (o = defaultRetry -> foldr Z.add 0 waits <= 30000).
Proof.
  intros E. destruct (attempt_spec _ _ _ _ _ _ _ _ _ E) as (Hk & Hl & Hr & Hj & Hs).
  split_and!; try done; try lia.
  - intros ?. apply Hs. lia.
  - intros ->. pose proof (attempt_waits _ _ _ _ _ _ _ _ _ E) as Hw.
    assert (length waits <= 3)%nat as Hlen by (cbn in Hk; lia).
    assert (forall i w, waits !! i = Some w -> w <= 10000) as Hbound.
    { intros i w Hi. pose proof (Hw i w Hi) as Hx. apply lookup_lt_Some in Hi.
      destruct i as [| [| [| i]]]; [exact Hx .. | lia]. }
    destruct waits as [| w0 [| w1 [| w2 [| ? ?]]]]; cbn [length foldr] in *; try lia.
    + pose proof (Hbound 0%nat w0 eq_refl). lia.
    + pose proof (Hbound 0%nat w0 eq_refl). pose proof (Hbound 1%nat w1 eq_refl). lia.
    + pose proof (Hbound 0%nat w0 eq_refl). pose proof (Hbound 1%nat w1 eq_refl). pose proof (Hbound 2%nat w2 eq_refl). lia.
Qed.

Lemma trustedFetch_answer net url context k x k' :
  trustedFetch net url context k = (Ok x, k') -> exists j, answersTo net url j = Responded x.
Proof.
  unfold trustedFetch, retryTransient. destruct (attempt _ _ _ _ _ _) as [[r ws] k1] eqn:E.
  apply attempt_spec in E as (_ & _ & Hr & _). destruct r; intros; simplify_eq. by eexists.
Qed.

(** ** What a resolved update rests on *)

(** The manifest is signed by the key of that hex. *)
Definition signedBy (hex : jstring) (o : entries) : Prop :=
  exists key sig, importVerifyKey hex = Ok key /\ ed25519_verify key sig (canonicalManifestBytes o) = Some true.

Lemma verify_signed o hex : verifyManifestSignature o hex = Ok tt -> signedBy hex o.
Proof.
  unfold verifyManifestSignature. intros Hv. ok_inv. destruct a2; [| done].
  exists a1, a0. split; [done |]. unfold given in *. destruct (ed25519_verify _ _ _); simplify_eq. done.
Qed.

(** What the host itself must say for an unsigned manifest: it runs from a
    source checkout and follows no pin, or it was installed against an overlay
    catalog with unsigned manifests switched on. *)
Definition unsignedAllowed (h : update_host) (env : Env) : Prop :=
  (installMode h = Development /\
   (resolveOverlayDlBase env <> Ok None \/ resolvePinnedManifestUrl env DaemonKind = None)) \/
  ((exists base, resolveOverlayDlBase env = Ok (Some base)) /\
   trim <$> env DEV_UNSIGNED_MANIFEST_ENV = Some ("1" : jstring)).

(** A member of a member. *)
Definition inside (e : option jval) (f : jstring) : option jval := v ← e; memberOf v f.

(** An artifact as the manifest describes it, wherever it is downloaded from. *)
Definition describes (e : option jval) (a : ArtifactEntry) : Prop :=
  inside e "sha256" = Some (JStr (entrySha256 a)) /\ inside e "size" = Some (JNum (entrySize a)).
Definition securely (a : ArtifactEntry) : Prop :=
  urlProtocol (entryUrl a) = Some ("https:" : jstring) /\ matches SHA256_HEX_RE (entrySha256 a) = true.

Lemma absolutizeField_inside key base v v' f :
  absolutizeField key base v = Ok v' -> f <> key -> memberOf v' f = memberOf v f.
Proof.
  unfold absolutizeField. destruct v as [| | | | | o]; intros E Hf; try by simplify_eq.
  destruct (getEntry o key) as [[| | | s | |] |]; try by simplify_eq.
  ok_inv. subst v'. cbn [memberOf]. apply getEntry_set_ne. congruence.
Qed.

Lemma rewrite_inside entry base entry' f :
  rewriteArtifactEntry entry base = Ok entry' -> f <> "url" -> inside entry' f = inside entry f.
Proof.
  unfold rewriteArtifactEntry. destruct entry as [e |]; intros E Hf; [| by simplify_eq].
  ok_inv. subst. cbn [inside mbind option_bind]. by eapply absolutizeField_inside.
Qed.

Lemma describes_same e e' a :
  (forall f, f <> "url" -> inside e' f = inside e f) -> describes e' a -> describes e a.
Proof. intros Hs [H1' H2']. split; by rewrite <- Hs. Qed.

Lemma validate_sound entry name a :
  validateArtifactEntry entry name = Ok a -> describes entry a /\ securely a.
Proof.
  unfold validateArtifactEntry. destruct entry as [[| | | | | o] |]; try done. cbn [asRecord given]. intros E. ok_inv. subst.
  unfold describes, securely, inside. cbn [mbind option_bind memberOf entrySha256 entrySize entryUrl].
  unfold requireHttpsUrl in *. unfold stringMatching, asString, asNumber in *.
  destruct (getEntry a0 "sha256") as [[| | | s | |] |]; cbn [mbind option_bind given] in *; try done.
  destruct (matches SHA256_HEX_RE s) eqn:Es; [| done]. cbn [given] in *. simplify_eq.
  destruct (getEntry a0 "size") as [[| | n | | |] |]; cbn [mbind option_bind given] in *; try done.
  destruct (num_finite n && num_positive n); [| done]. cbn [given] in *. simplify_eq.
  destruct (urlProtocol a1) as [p |]; [| done]. case_decide; [| done]. by subst.
Qed.

Lemma putEntry_get key v o f :
  getEntry (putEntry key v o) f = if decide (f = key) then match v with Some x => Some x | None => getEntry o f end else getEntry o f.
Proof.
  unfold putEntry. destruct v as [x |]; [| by case_decide].
  case_decide as E; [subst; apply getEntry_set | by apply getEntry_set_ne].
Qed.

Lemma rewrite_present entry base entry' :
  rewriteArtifactEntry entry base = Ok entry' -> match entry' with Some x => Some x | None => entry end = entry'.
Proof.
  unfold rewriteArtifactEntry. destruct entry; intros E; [| by simplify_eq].
  apply bind_Ok in E as (? & _ & E). by simplify_eq.
Qed.

Lemma binary_sound b base b' a f :
  absolutizeBinary b base = Ok b' -> f <> "url" -> inside (getEntry b' a) f = inside (getEntry b a) f.
Proof.
  unfold absolutizeBinary. intros E Hf. apply bind_Ok in E as (amd & E1 & E). apply bind_Ok in E as (arm & E2 & E).
  apply Ok_inj in E as <-. rewrite !putEntry_get. repeat case_decide; subst; try done.
  - rewrite (rewrite_present _ _ _ E2). by eapply rewrite_inside.
  - rewrite (rewrite_present _ _ _ E1). by eapply rewrite_inside.
Qed.

(** Making the URLs absolute changes no other field, and of an artifact only
    its URL. *)
Lemma absolutize_sound o base v :
  absolutizeChannelManifestJson (JObj o) base = Ok v ->
  exists o', v = JObj o' /\
    (forall f, f ∉ ["binaryArtifacts"; "jsFallbackArtifact"; "orchestrationArtifact" : jstring] ->
       getEntry o' f = getEntry o f) /\
    (forall a f, f <> "url" -> inside (inside (getEntry o' "binaryArtifacts") a) f = inside (inside (getEntry o "binaryArtifacts") a) f) /\
    (forall f, f <> "url" -> inside (getEntry o' "jsFallbackArtifact") f = inside (getEntry o "jsFallbackArtifact") f) /\
    (forall f, f <> "url" -> inside (getEntry o' "orchestrationArtifact") f = inside (getEntry o "orchestrationArtifact") f).
Proof.
  unfold absolutizeChannelManifestJson. intros E. apply bind_Ok in E as (o1 & E1 & E).
  apply bind_Ok in E as (js & Ejs & E). apply bind_Ok in E as (orch & Eorch & E). apply Ok_inj in E as <-.
  assert (forall f, f <> "binaryArtifacts" -> getEntry o1 f = getEntry o f) as Ho1.
  { intros f Hf. destruct (getEntry o "binaryArtifacts") as [[| | | | | b] |]; try by simplify_eq.
    ok_inv. subst. by apply getEntry_set_ne. }
  assert (forall a f, f <> "url" -> inside (inside (getEntry o1 "binaryArtifacts") a) f = inside (inside (getEntry o "binaryArtifacts") a) f) as Hb1.
  { intros a f Hf. destruct (getEntry o "binaryArtifacts") as [[| | | | | b] |] eqn:Eb; simplify_eq; rewrite ?Eb; try done.
    apply bind_Ok in E1 as (b' & Eb' & E1). apply Ok_inj in E1 as <-. rewrite getEntry_set.
    exact (binary_sound b base b' a f Eb' Hf). }
  eexists. split; [reflexivity |].
  split; [| split; [| split]].
  - intros f Hf. rewrite !putEntry_get. rewrite !decide_False by set_solver. apply Ho1. set_solver.
  - intros a f Hf. rewrite !putEntry_get. rewrite !decide_False by done. by apply Hb1.
  - intros f Hf. rewrite !putEntry_get. rewrite decide_False by done. rewrite decide_True by done.
    rewrite Ho1 by done. rewrite (rewrite_present _ _ _ Ejs). by eapply rewrite_inside.
  - intros f Hf. rewrite !putEntry_get. rewrite decide_True by done. rewrite decide_False by done.
    rewrite Ho1 by done. rewrite (rewrite_present _ _ _ Eorch). by eapply rewrite_inside.
Qed.

Lemma asString_Some v s : asString v = Some s -> v = Some (JStr s).
Proof. destruct v as [[| | | x | |] |]; cbn; intros; by simplify_eq. Qed.
Lemma given_string v message s : given (asString v) (malformed message) = Ok s -> v = Some (JStr s).
Proof. intros E. eapply asString_Some, given_Ok; [| exact E]. done. Qed.

Lemma binary_parsed entry b :
  validateBinaryArtifacts entry = Ok b ->
  describes (inside entry "linux-amd64") (linuxAmd64 b) /\ securely (linuxAmd64 b) /\
  describes (inside entry "linux-arm64") (linuxArm64 b) /\ securely (linuxArm64 b).
Proof.
  unfold validateBinaryArtifacts. destruct entry as [[| | | | | o] |]; try done. cbn [asRecord given]. intros E.
  apply bind_Ok in E as (o1 & Eo & E). apply Ok_inj in Eo as <-. apply bind_Ok in E as (amd & E1 & E).
  apply bind_Ok in E as (arm & E2 & E). apply Ok_inj in E as <-. cbn [linuxAmd64 linuxArm64].
  apply validate_sound in E1 as [D1 S1], E2 as [D2 S2].
  split; [exact D1 |]. split; [exact S1 |]. split; [exact D2 | exact S2].
Qed.

Lemma parse_sound o m :
  parseChannelManifest (JObj o) = Ok m ->
  getEntry o "channel" = Some (JStr (manifestChannel m)) /\ getEntry o "commit" = Some (JStr (manifestCommit m)) /\
  getEntry o "buildId" = Some (JStr (manifestBuildId m)) /\ getEntry o "builtAt" = Some (JStr (manifestBuiltAt m)) /\
  getEntry o "version" = manifestVersion m /\
  validateBinaryArtifacts (getEntry o "binaryArtifacts") = Ok (binaryArtifacts m) /\
  describes (getEntry o "jsFallbackArtifact") (jsFallbackArtifact m) /\ securely (jsFallbackArtifact m) /\
  describes (getEntry o "orchestrationArtifact") (orchestrationArtifact m) /\ securely (orchestrationArtifact m).
Proof.
  unfold parseChannelManifest. cbn [asRecord given]. intros E.
  apply bind_Ok in E as (o1 & Eo & E). apply Ok_inj in Eo as <-.
  apply bind_Ok in E as (? & _ & E). apply bind_Ok in E as (ch & Ech & E). apply bind_Ok in E as (co & Eco & E).
  apply bind_Ok in E as (bi & Ebi & E). apply bind_Ok in E as (bu & Ebu & E). apply bind_Ok in E as (b & Eb & E).
  apply bind_Ok in E as (j & Ej & E). apply bind_Ok in E as (r & Er & E). apply bind_Ok in E as (s & _ & E).
  apply Ok_inj in E as <-. cbn. apply given_string in Ech, Eco, Ebi, Ebu. apply validate_sound in Ej as [Dj Sj], Er as [Dr Sr].
  by split_and!.
Qed.

Lemma location_cases net c env k l k' :
  resolveManifestLocation net c env k = (Ok l, k') ->
  (overlay l = true /\ pinned l = false /\ exists base, resolveOverlayDlBase env = Ok (Some base)) \/
  (overlay l = false /\ resolveOverlayDlBase env = Ok None /\
   (pinned l = true /\ resolvePinnedManifestUrl env DaemonKind = Some (manifestUrl l) \/
    pinned l = false /\ resolvePinnedManifestUrl env DaemonKind = None /\
    builtinChannelManifestUrl c DaemonKind = Some (manifestUrl l))).
Proof.
  unfold resolveManifestLocation. destruct (resolveOverlayDlBase env) as [[base |] | e] eqn:Eo; [| | done].
  - destruct (trustedFetch _ _ _ _) as [r k1]. intros [= E _]. left.
    apply bind_Ok in E as (text & _ & E). apply bind_Ok in E as (found & _ & E). apply Ok_inj in E as <-. eauto.
  - destruct (resolvePinnedManifestUrl env DaemonKind) as [pin |] eqn:Ep; [intros [= <- _]; right; auto 10 |].
    destruct (builtinChannelManifestUrl c DaemonKind) as [builtin |] eqn:Eb; [| done].
    intros [= <- _]. right. auto 10.
Qed.

(** C17. Only a signed, newer build is installed.  Whatever the network answers,
    an update the daemon resolves comes from a manifest it fetched whose JSON
    was signed by the pinned release key over its canonical form, unless the
    host's own installation allows unsigned manifests (a source checkout that
    follows no pin, or an overlay host with the switch on).  Commit, build time,
    version and channel are those of the signed document, each artifact's digest
    and size are the signed ones, and its URL is https; the binary is the one of
    the host's architecture.  And unless the operator overrode it on the host,
    the build is the installed one or not older. *)
Theorem update_is_release_signed net c env h info k :
  resolveUpdate net c env h = (Ok info, k) ->
  exists j r text o,
    answersTo net (infoManifestUrl info) j = Responded r /\ body r = Ok text /\ JSON_parse text = Ok (JObj o) /\
    (signedBy (publicKeyHex h) o \/ unsignedAllowed h env) /\
    (getEntry o "commit" = Some (JStr (infoCommit info)) /\ getEntry o "builtAt" = Some (JStr (infoBuiltAt info)) /\
     getEntry o "channel" = Some (JStr (infoChannel info)) /\ getEntry o "version" = infoVersion info) /\
    (buildArch h = "x86_64" /\ describes (inside (getEntry o "binaryArtifacts") "linux-amd64") (binaryArtifact info) \/
     buildArch h = "aarch64" /\ describes (inside (getEntry o "binaryArtifacts") "linux-arm64") (binaryArtifact info)) /\
    describes (getEntry o "jsFallbackArtifact") (infoJsFallback info) /\
    describes (getEntry o "orchestrationArtifact") (infoOrchestration info) /\
    securely (binaryArtifact info) /\ securely (infoJsFallback info) /\ securely (infoOrchestration info) /\
    (brokeGlass env = true \/ commit (installed h) = infoCommit info \/
     exists v, versionOf (infoVersion info) = Ok v /\
       isRollback (installed h) {| targetCommit := infoCommit info; targetVersion := v; targetBuiltAt := infoBuiltAt info |} = false).
Proof.
  unfold resolveUpdate. destruct (resolveManifestLocation net c env 0) as [[l | e] k0] eqn:El; [| done].
  destruct (trustedFetch net (manifestUrl l) _ k0) as [r k1] eqn:Ef. intros [= E _].
  apply bind_Ok in E as (text & Et & E). unfold readBody in Et. apply bind_Ok in Et as (x & -> & Et).
  destruct (responseOk x); [| done]. apply trustedFetch_answer in Ef as [j Hj].
  unfold updateFrom in E. apply bind_Ok in E as (o & Eo & E). apply bind_Ok in E as (v & Ev & E).
  apply bind_Ok in E as (m & Em & E). apply bind_Ok in E as ([] & Efresh & E). apply bind_Ok in E as (arch & Earch & E).
  apply Ok_inj in E as <-. cbn [infoManifestUrl infoCommit infoBuiltAt infoChannel infoVersion binaryArtifact infoJsFallback infoOrchestration].
  exists j, x, text, o. split; [done |]. split; [done |].
  unfold parseSignedManifestBody in Eo. apply bind_Ok in Eo as (raw & Eraw & Eo). apply bind_Ok in Eo as (o1 & Eo1 & Eo).
  apply bind_Ok in Eo as ([] & Esig & Eo). apply Ok_inj in Eo as ->.
  destruct (JSON_parse text) as [raw' |]; [| done]. apply Ok_inj in Eraw as ->.
  destruct raw as [| | | | | o2]; try done. cbn in Eo1. apply Ok_inj in Eo1 as ->.
  destruct (absolutize_sound _ _ _ Ev) as (o' & -> & Hsame & Hbin & Hjs & Horch).
  destruct (parse_sound _ _ Em) as (F1 & F2 & _ & F4 & F5 & Fb & Dj & Sj & Dr & Sr).
  rewrite Hsame in F1, F2, F4, F5 by set_solver.
  destruct (binary_parsed _ _ Fb) as (Da & Sa & Db & Sb).
  split; [done |]. split; [| split; [by split_and! |]].
  { destruct (unsignedManifestBypass (installMode h) (overlay l) env (pinned l)) eqn:Eby; [| left; by apply verify_signed].
    right. unfold unsignedManifestBypass in Eby. destruct (pinned l) eqn:Ep; [done |].
    destruct (location_cases _ _ _ _ _ _ El) as [(Ho & _ & Hb) | (Ho & Hb & Hc)].
    - destruct (installMode h) eqn:Ei.
      + left. split; [done |]. left. destruct Hb as [base ->]. done.
      + right. split; [done |]. rewrite Ho in Eby. by apply bool_decide_eq_true in Eby.
    - destruct (installMode h) eqn:Ei; [| by rewrite Ho in Eby].
      left. split; [done |]. right. destruct Hc as [[? _] | (_ & ? & _)]; congruence. }
  split; [| split; [| split; [| split; [| split; [done | split; [done |]]]]]].
  - unfold resolveLinuxArch in Earch. repeat case_decide; try done; apply Ok_inj in Earch as <-; [left | right];
      (split; [done |]); cbn [artifactFor]; (eapply describes_same; [| done]); intros f Hf; by apply Hbin.
  - by eapply describes_same.
  - by eapply describes_same.
  - unfold resolveLinuxArch in Earch. repeat case_decide; try done; apply Ok_inj in Earch as <-; done.
  - unfold checkFresh in Efresh. destruct (brokeGlass env) eqn:Eg; [by left |].
    case_decide; [right; by left |]. apply bind_Ok in Efresh as (ver & Ever & Efresh). right. right.
    exists ver. split; [done |]. unfold assertNotRollback in Efresh. rewrite Eg in Efresh.
    by destruct (isRollback _ _).
Qed.
End update.

(** ** Concrete runs *)

#[local] Existing Instance integerTables.
#[local] Existing Instance noDates.
#[local] Existing Instance plainUrls.
#[local] Existing Instance toySigning.
#[local] Existing Instance toyEncoding.

Definition answering (text : jstring) : fetched := Responded {| status := 200; retryAfter := None; body := Ok text |}.
Definition busy (header : option jstring) : fetched := Responded {| status := 429; retryAfter := header; body := Ok [] |}.
Definition releaseNetwork : network := {|
  answersTo := fun _ _ => answering (JSON_stringify (JObj signedRelease)); clockAt := fun _ => 0;
  retryWith := defaultRetry
|}.
Definition productionHost : update_host := {|
  installMode := Production; publicKeyHex := "09"; buildArch := "x86_64";
  installed := {| commit := "c1"; version := Some ("0.1.9" : jstring); builtAt := None |}
|}.
Definition noEnv : Env := fun _ => None.

Definition resolved : fallible UpdateInfo * nat := resolveUpdate releaseNetwork Release noEnv productionHost.
Definition resolvedInfo : option UpdateInfo := match resolved.1 with Ok i => Some i | Throw _ => None end.

Lemma update_is_release_signed_witness :
  exists info, resolved = (Ok info, 1%nat) /\ infoCommit info = "c2" /\
    exists j r text o, answersTo releaseNetwork (infoManifestUrl info) j = Responded r /\ body r = Ok text /\
      JSON_parse text = Ok (JObj o) /\ (signedBy (publicKeyHex productionHost) o \/ unsignedAllowed productionHost noEnv).
Proof.
  destruct resolvedInfo as [info |] eqn:E; [| vm_compute in E; discriminate].
  assert (resolved = (Ok info, 1%nat)) as Er.
  { revert E. unfold resolvedInfo. assert (resolved.2 = 1%nat) as Hk by (vm_compute; reflexivity).
    destruct resolved as [[i | e] n]; cbn in *; intros; simplify_eq. reflexivity. }
  exists info. split; [exact Er |]. split.
  - assert (infoCommit <$> resolvedInfo = Some ("c2" : jstring)) as Hc by (vm_compute; reflexivity).
    rewrite E in Hc. by injection Hc.
  - destruct (update_is_release_signed releaseNetwork Release noEnv productionHost info 1 Er)
      as (j & r & text & o & H1 & H2 & H3 & H4 & _).
    exists j, r, text, o. split; [exact H1 |]. split; [exact H2 |]. split; [exact H3 | exact H4].
Defined.

Lemma retries_are_bounded_witness :
  let answers k := match k with O => busy (Some ("3600" : jstring)) | S O => FetchThrew (ThrownError "TypeError" "dns error" (ThrownOther []))
                   | _ => answering "ok" end in
  retryTransient defaultRetry (fun _ => 0) answers 0 = (answering "ok", [10000; 4000], 3%nat) /\
  (foldr Z.add 0 [10000; 4000] <= 30000).
Proof.
  intros answers. assert (retryTransient defaultRetry (fun _ => 0) answers 0 = (answering "ok", [10000; 4000], 3%nat)) as E
    by (vm_compute; reflexivity).
  split; [exact E |]. exact (proj2 (proj2 (proj2 (proj2 (proj2 (retries_are_bounded _ _ _ _ _ _ _ E))))) eq_refl).
Defined.

(** A catalog whose [channels] hold a member named [__proto__]: rebuilding the
    object turns it into the prototype, which the https check of every channel
    does not visit and the lookup of the channel does; the manifest is then read
    over plain http. *)
Definition protoCatalog : jval :=
  JObj [("schema" : jstring, JNum (num_of_Z 1)); ("defaultChannel" : jstring, JStr "release");
        ("channels" : jstring, JObj [("__proto__" : jstring,
           JObj [("release" : jstring, JObj [("manifestUrl" : jstring, JStr "http://mirror/manifest.json")])])])].
Definition overlayNetwork : network := {|
  answersTo := fun _ _ => answering (JSON_stringify protoCatalog); clockAt := fun _ => 0; retryWith := defaultRetry
|}.
Definition overlayEnv : Env := fun name =>
  if decide (name = ("TURBOPANEL_DL_BASE" : jstring)) then Some ("https://mirror" : jstring) else None.

Theorem inherited_channel_skips_https :
  (resolveManifestLocation overlayNetwork Release overlayEnv 0).1 =
  Ok {| manifestUrl := "http://mirror/manifest.json"; overlay := true; pinned := false |}.
Proof. vm_compute. reflexivity. Qed.
