(* ===== verification/MonState.v ===== *)
(** * Containers and services as the daemon sees them ([monitor/normalize.ts], [monitor/service-run-state.ts])

    What Docker says about a container becomes a monitored resource and the run
    state of its service.  The engine's answers are records with the fields the
    code reads; an absent member is [None].  Ordering services for a report is
    the platform's collation ([Collation]). *)

From stdpp Require Import list sorting.
From S2P Require Import Prelude Json Number JsonPrint Dates Log.

#[local] Open Scope Z_scope.

(** ** What the engine reports ([docker/client.ts]) *)

Record PortBinding := { HostIp : option jstring; HostPort : option jstring }.
Record SummaryPort := { IP : option jstring; PrivatePort : Z; PublicPort : option Z; Type_ : jstring }.

Record ContainerSummary := {
  summaryId : jstring; Names : list jstring; summaryImage : jstring; summaryState : jstring;
  summaryLabels : option (jsmap jstring); summaryPorts : list SummaryPort
}.

Record container_state := {
  Status : jstring; ExitCode : Z; StartedAt : option jstring; FinishedAt : option jstring; Health : option jstring
}.

Record ContainerInspect := {
  inspectId : jstring; inspectName : jstring; inspectImage : jstring; RestartCount : option Z;
  State : container_state; configImage : option jstring; configLabels : option (jsmap jstring);
  networkPorts : option (jsmap (option (list PortBinding)))
}.

Record DockerEvent := { Action : option jstring; time : option Z; actorId : option jstring }.

(** ** Monitored resources ([protocol.ts], [normalize.ts]) *)

Inductive MonitorResourceStatus := Unknown | Starting | Healthy | Degraded | Unhealthy | Stopped | Failed | Offline.
#[global] Instance MonitorResourceStatus_dec : EqDecision MonitorResourceStatus.
Proof. solve_decision. Defined.
Definition statusName (s : MonitorResourceStatus) : jstring :=
  match s with
  | Unknown => "unknown" | Starting => "starting" | Healthy => "healthy" | Degraded => "degraded"
  | Unhealthy => "unhealthy" | Stopped => "stopped" | Failed => "failed" | Offline => "offline"
  end.

Inductive MonitorResourceKind := InstanceResource | ProjectResource | ServiceResource | ContainerResource.
Definition resourceKindName (k : MonitorResourceKind) : jstring :=
  match k with
  | InstanceResource => "instance" | ProjectResource => "project" | ServiceResource => "service"
  | ContainerResource => "container"
  end.

Record MonitorResourceState := {
  resourceKey : jstring; kind : MonitorResourceKind; resourceStatus : MonitorResourceStatus;
  name : option jstring; image : option jstring; healthStatus : option jstring; restartCount : option Z;
  ports : option (list jstring); labels : option (jsmap jstring); projectId : option jstring;
  resourceServiceId : option jstring; containerId : option jstring; updatedAt : option jstring
}.

Definition PROJECT_LABEL : jstring := "com.turbopanel.project".
Definition SERVICE_LABEL : jstring := "com.turbopanel.service".

Record NormalizeContainerInput := {
  inspect : option ContainerInspect; summary : option ContainerSummary; event : option DockerEvent
}.

(** [text || undefined] *)
Definition truthy (s : option jstring) : option jstring := t ← s; if decide (t = []) then None else Some t.

Definition stripSlashes (id : jstring) : jstring := dropWhile (N.eqb 47) id.
Definition shortContainerId (id : jstring) : jstring := take 12 (stripSlashes id).
Definition stripLeadingSlash (s : jstring) : jstring := if startsWith "/" s then drop 1 s else s.

Definition resolveContainerName (i : NormalizeContainerInput) : option jstring :=
  match truthy (inspectName <$> inspect i) with
  | Some n => Some (stripLeadingSlash n)
  | None => stripLeadingSlash <$> (s ← summary i; head (Names s))
  end.

(** Labels, when there are any. *)
Definition someLabels (l : option (jsmap jstring)) : option (jsmap jstring) :=
  m ← l; match m with [] => None | _ => Some m end.
Definition resolveLabels (i : NormalizeContainerInput) : option (jsmap jstring) :=
  match someLabels (x ← inspect i; configLabels x) with
  | Some m => Some m
  | None => someLabels (x ← summary i; summaryLabels x)
  end.

Definition mapHealthStatus (status : jstring) : option MonitorResourceStatus :=
  let s := toLowerCase status in
  if decide (s = "healthy") then Some Healthy
  else if decide (s = "unhealthy") then Some Unhealthy
  else if decide (s = "starting") then Some Starting
  else None.

Definition mapDockerStateStatus (status : jstring) (exitCode : option Z) : MonitorResourceStatus :=
  let s := toLowerCase status in
  if decide (s = "running") then Healthy
  else if decide (s = "restarting" \/ s = "created") then Starting
  else if decide (s = "paused") then Degraded
  else if decide (s = "exited") then (if decide (exitCode = Some 0) then Stopped else Failed)
  else if decide (s = "dead") then Failed
  else Unknown.

Definition deriveStatusFromEventAction (action : jstring) : option MonitorResourceStatus :=
  colon ← indexOf 58 action;
  if decide (toLowerCase (trim (take colon action)) = "health_status")
  then mapHealthStatus (trim (drop (S colon) action)) else None.

Definition deriveContainerStatus (i : NormalizeContainerInput) : MonitorResourceStatus :=
  match truthy (e ← event i; Action e) ≫= deriveStatusFromEventAction with
  | Some s => s
  | None =>
      match truthy (x ← inspect i; Health (State x)) ≫= mapHealthStatus with
      | Some s => s
      | None =>
          let status := match inspect i with Some x => Some (Status (State x)) | None => summaryState <$> summary i end in
          match truthy status with
          | Some s => mapDockerStateStatus s ((fun x => ExitCode (State x)) <$> inspect i)
          | None => Unknown
          end
      end
  end.

Definition resolvePublishedHost (ip : option jstring) : jstring := default ("0.0.0.0" : jstring) (truthy ip).

Definition integerText (z : Z) : jstring := if z <? 0 then 45%N :: decimalText (Z.to_N (- z)) else decimalText (Z.to_N z).

Definition formatInspectPortBinding (privatePort : jstring) (b : PortBinding) : jstring :=
  resolvePublishedHost (HostIp b) ++ 58%N :: default ("?" : jstring) (HostPort b) ++ ("->" : jstring) ++ privatePort.
(** Port keys such as [80/tcp] are enumerated in their order. *)
Definition formatInspectPorts (ports : jsmap (option (list PortBinding))) : option (list jstring) :=
  match ports ≫= (fun p => map (formatInspectPortBinding p.1) (default [] p.2)) with
  | [] => None
  | l => Some l
  end.
Definition formatSummaryPort (p : SummaryPort) : jstring :=
  resolvePublishedHost (IP p) ++ 58%N :: default ("?" : jstring) (integerText <$> PublicPort p) ++ ("->" : jstring)
  ++ integerText (PrivatePort p) ++ 47%N :: Type_ p.
Definition formatPorts (i : NormalizeContainerInput) : option (list jstring) :=
  match (x ← inspect i; networkPorts x) ≫= formatInspectPorts with
  | Some l => Some l
  | None => match summaryPorts <$> summary i with Some (p :: l) => Some (map formatSummaryPort (p :: l)) | _ => None end
  end.

Definition resolveImage (i : NormalizeContainerInput) : option jstring :=
  match inspect i with
  | Some x => Some (default (inspectImage x) (configImage x))
  | None => summaryImage <$> summary i
  end.

Definition DOCKER_ZERO_TIME : jstring := "0001-01-01T00:00:00Z".
Definition meaningfulTimestamp (v : option jstring) : option jstring :=
  t ← v; if decide (t = [] \/ t = DOCKER_ZERO_TIME) then None else Some t.

Definition resolveUpdatedAt (i : NormalizeContainerInput) : option jstring :=
  match e ← event i; time e with
  | Some t => Some (toISOString (t * 1000))
  | None =>
      match meaningfulTimestamp (x ← inspect i; FinishedAt (State x)) with
      | Some t => Some t
      | None => meaningfulTimestamp (x ← inspect i; StartedAt (State x))
      end
  end.

Definition fullIdOf (i : NormalizeContainerInput) : jstring :=
  match inspect i, summary i with
  | Some x, _ => inspectId x
  | None, Some s => summaryId s
  | None, None => default [] (e ← event i; actorId e)
  end.

Definition normalizeContainer (i : NormalizeContainerInput) : MonitorResourceState :=
  let fullId := stripSlashes (fullIdOf i) in
  let l := resolveLabels i in
  {| resourceKey := ("container:" : jstring) ++ shortContainerId fullId; kind := ContainerResource;
     resourceStatus := deriveContainerStatus i; name := truthy (resolveContainerName i);
     image := truthy (resolveImage i); healthStatus := truthy (x ← inspect i; Health (State x));
     restartCount := (x ← inspect i; RestartCount x); ports := formatPorts i; labels := l;
     projectId := truthy (m ← l; mapGet m PROJECT_LABEL); resourceServiceId := truthy (m ← l; mapGet m SERVICE_LABEL);
     containerId := Some fullId; updatedAt := truthy (resolveUpdatedAt i) |}.

(** ** Run states of services ([service-run-state.ts]) *)

Definition SERVICE_CRASH_LIMIT : Z := 10.
Definition SERVICE_SETTLE_MS : Z := 60000.
Definition MAX_SERVICE_RUN_STATES : nat := 200.
Definition MAX_SERVICE_LAST_ERROR_CHARS : nat := 400.
Definition LABEL_ROLE : jstring := "turbopanel.role".
Definition LABEL_ROLE_INGRESS : jstring := "ingress".
Definition LABEL_ROLE_SYSTEM : jstring := "turbopanel".

Inductive ServiceRunStateName :=
| SvStarting | SvRunning | SvUnhealthy | SvCrashing | SvStopped | SvStoppedAfterCrashes | SvUnknown.
#[global] Instance ServiceRunStateName_dec : EqDecision ServiceRunStateName.
Proof. solve_decision. Defined.
Definition runStateName (s : ServiceRunStateName) : jstring :=
  match s with
  | SvStarting => "starting" | SvRunning => "running" | SvUnhealthy => "unhealthy" | SvCrashing => "crashing"
  | SvStopped => "stopped" | SvStoppedAfterCrashes => "stopped_after_crashes" | SvUnknown => "unknown"
  end.

Record ServiceContainerObservation := {
  serviceId : jstring; obsContainerId : jstring; obsSummary : option ContainerSummary;
  obsInspect : option ContainerInspect; lastLogLine : option jstring; crashStreak : option Z; crashStopped : option bool
}.

Record DerivedServiceRunState := {
  derivedService : jstring; state : ServiceRunStateName; derivedRestarts : Z; lastError : option jstring
}.
Record ServiceRunState := { derived : DerivedServiceRunState; asOf : jstring }.

Definition STATE_SEVERITY (s : ServiceRunStateName) : Z :=
  match s with
  | SvStoppedAfterCrashes => 6 | SvCrashing => 5 | SvUnhealthy => 4 | SvStopped => 3 | SvUnknown => 2
  | SvStarting => 1 | SvRunning => 0
  end.

Definition dockerStatusOf (o : ServiceContainerObservation) : jstring :=
  toLowerCase (match obsInspect o with
               | Some x => Status (State x)
               | None => default [] (summaryState <$> obsSummary o)
               end).

Section runstates.
Context `{JsDates}.

Definition upForMs (x : option ContainerInspect) (nowMs : Z) : option Z :=
  startedAt ← truthy (i ← x; StartedAt (State i));
  startedMs ← Date_parse startedAt;
  Some (nowMs - startedMs).

Definition runningState (o : ServiceContainerObservation) (nowMs : Z) : ServiceRunStateName :=
  let health := toLowerCase <$> (x ← obsInspect o; Health (State x)) in
  if decide (health = Some ("unhealthy" : jstring)) then SvUnhealthy
  else if decide (health = Some ("starting" : jstring)) then SvStarting
  else match upForMs (obsInspect o) nowMs with
       | Some upMs => if upMs <? SERVICE_SETTLE_MS then SvStarting else SvRunning
       | None => SvStarting
       end.

Definition exitCodeOf (o : ServiceContainerObservation) : Z := default 0 ((fun x => ExitCode (State x)) <$> obsInspect o).
Definition restartsOf (o : ServiceContainerObservation) : Z := default 0 (x ← obsInspect o; RestartCount x).

Definition downState (o : ServiceContainerObservation) : ServiceRunStateName :=
  if decide (crashStopped o = Some true) then SvStoppedAfterCrashes
  else
    let failed := negb (exitCodeOf o =? 0) || bool_decide (dockerStatusOf o = "dead") in
    let restarts := default (restartsOf o) (crashStreak o) in
    if failed && (SERVICE_CRASH_LIMIT <=? restarts) then SvStoppedAfterCrashes else SvStopped.

Definition containerRunState (o : ServiceContainerObservation) (nowMs : Z) : ServiceRunStateName :=
  let s := dockerStatusOf o in
  if decide (s = "running") then runningState o nowMs
  else if decide (s = "restarting") then SvCrashing
  else if decide (s = "created") then SvStarting
  else if decide (s = "exited" \/ s = "dead" \/ s = "paused") then downState o
  else SvUnknown.

Definition wantsLastLogLine (o : ServiceContainerObservation) : bool :=
  let s := dockerStatusOf o in
  bool_decide (s = "restarting" \/ s = "dead" \/ crashStopped o = Some true)
  || (bool_decide (s = "exited") && negb (exitCodeOf o =? 0)).

Definition errorLineFor (o : ServiceContainerObservation) : option jstring :=
  match truthy (lastLogLine o) with
  | Some l => Some l
  | None =>
      if bool_decide (dockerStatusOf o = "exited") && negb (exitCodeOf o =? 0)
      then Some (("Exited with code " : jstring) ++ integerText (exitCodeOf o)) else None
  end.

Definition worseOf (current : option DerivedServiceRunState) (next : DerivedServiceRunState) : DerivedServiceRunState :=
  match current with
  | None => next
  | Some c =>
      let '(worse, other) := if STATE_SEVERITY (state c) <? STATE_SEVERITY (state next) then (next, c) else (c, next) in
      {| derivedService := derivedService worse; state := state worse;
         derivedRestarts := Z.max (derivedRestarts worse) (derivedRestarts other);
         lastError := truthy (match lastError worse with Some e => Some e | None => lastError other end) |}
  end.

(** One container's contribution. *)
Definition derivedOf (nowMs : Z) (o : ServiceContainerObservation) : DerivedServiceRunState :=
  let s := containerRunState o nowMs in
  let error := if decide (s = SvRunning \/ s = SvStarting) then None else truthy (errorLineFor o) in
  {| derivedService := serviceId o; state := s; derivedRestarts := restartsOf o;
     lastError := take MAX_SERVICE_LAST_ERROR_CHARS <$> error |}.

Definition byService (observations : list ServiceContainerObservation) (nowMs : Z) : jsmap DerivedServiceRunState :=
  foldl (fun m o => mapSet (serviceId o) (worseOf (mapGet m (serviceId o)) (derivedOf nowMs o)) m) [] observations.

(** [a.localeCompare(b) <= 0] *)
Class Collation := { localeLe : jstring -> jstring -> bool }.
Context `{Collation}.

(** A stable sort by [serviceId]. *)
Fixpoint insertService (x : DerivedServiceRunState) (l : list DerivedServiceRunState) : list DerivedServiceRunState :=
  match l with
  | [] => [x]
  | y :: l' => if localeLe (derivedService x) (derivedService y) then x :: l else y :: insertService x l'
  end.
Definition sortServices (l : list DerivedServiceRunState) : list DerivedServiceRunState := foldr insertService [] l.

Definition deriveServiceRunStates (observations : list ServiceContainerObservation) (nowMs : Z)
    : list DerivedServiceRunState :=
  take MAX_SERVICE_RUN_STATES (sortServices (map snd (byService observations nowMs))).
End runstates.

Definition serviceIdForContainer (l : option (jsmap jstring)) : option jstring :=
  id ← truthy (m ← l; mapGet m SERVICE_LABEL);
  let role := m ← l; mapGet m LABEL_ROLE in
  if decide (role = Some LABEL_ROLE_INGRESS \/ role = Some LABEL_ROLE_SYSTEM) then None else Some id.

(** ** Stamping ([ServiceRunStateStamper]) *)

Definition fingerprint (d : DerivedServiceRunState) : jstring :=
  runStateName (state d) ++ 124%N :: integerText (derivedRestarts d) ++ 124%N :: default [] (lastError d).

Record seen := { print : jstring; seenSince : jstring }.

Definition stampOne (nowIso : jstring) (acc : jsmap seen * list ServiceRunState) (d : DerivedServiceRunState)
    : jsmap seen * list ServiceRunState :=
  let '(m, out) := acc in
  let p := fingerprint d in
  let since := match mapGet m (derivedService d) with
               | Some x => if decide (print x = p) then seenSince x else nowIso
               | None => nowIso
               end in
  (mapSet (derivedService d) {| print := p; seenSince := since |} m, out ++ [{| derived := d; asOf := since |}]).

Definition stampStates (m : jsmap seen) (l : list DerivedServiceRunState) (now : Z) : jsmap seen * list ServiceRunState :=
  let '(m, out) := foldl (stampOne (toISOString now)) (m, []) l in
  (filter (fun x : jstring * seen => x.1 ∈ map derivedService l) m, out).

(** ** Last log lines ([managed/container-stability.ts]) *)

Definition MAX_REASON_CHARS : nat := 400.
Definition lastLogReason (logs : jstring) : jstring :=
  let lines := filter (fun l => l <> []) (map trim (split 10 logs)) in
  take MAX_REASON_CHARS (sanitizeForLog (default [] (last lines))).

(** ** What a run state says *)

Section worst.
Context `{JsDates} `{Collation}.
Variable nowMs : Z.

Notation containers obs k := (filter (fun o => serviceId o = k) obs).

(** [d] is the worst of the containers seen, with the most restarts of them. *)
Definition worst (obs : list ServiceContainerObservation) (d : DerivedServiceRunState) : Prop :=
  (exists o, o ∈ containers obs (derivedService d) /\ containerRunState o nowMs = state d) /\
  (exists o, o ∈ containers obs (derivedService d) /\ restartsOf o = derivedRestarts d) /\
  forall o, o ∈ containers obs (derivedService d) ->
    STATE_SEVERITY (containerRunState o nowMs) <= STATE_SEVERITY (state d) /\ restartsOf o <= derivedRestarts d.

Lemma worst_next obs o c :
  match c with Some d => derivedService d = serviceId o /\ worst obs d | None => containers obs (serviceId o) = [] end ->
  worst (obs ++ [o]) (worseOf c (derivedOf nowMs o)) /\ derivedService (worseOf c (derivedOf nowMs o)) = serviceId o.
Proof.
  assert (Ho : o ∈ containers (obs ++ [o]) (serviceId o))
    by (apply list_elem_of_filter; split; [done | apply elem_of_app; right; by left]).
  assert (Hold : forall o' k, o' ∈ containers obs k -> o' ∈ containers (obs ++ [o]) k)
    by (intros o' k; rewrite !list_elem_of_filter, elem_of_app; naive_solver).
  assert (Hnew : forall o' k, o' ∈ containers (obs ++ [o]) k -> o' = o \/ o' ∈ containers obs k)
    by (intros o' k; rewrite !list_elem_of_filter, elem_of_app, list_elem_of_singleton; naive_solver).
  destruct c as [d |]; cbn [worseOf].
  - intros [Hd ((o1 & H1 & E1) & (o2 & H2 & E2) & Hall)]. rewrite Hd in *.
    set (n := derivedOf nowMs o). assert (En : derivedService n = serviceId o) by done.
    assert (Es : state n = containerRunState o nowMs) by done. assert (Er : derivedRestarts n = restartsOf o) by done.
    unfold worst. destruct (Z.ltb_spec (STATE_SEVERITY (state d)) (STATE_SEVERITY (state n)));
      cbn [derivedService state derivedRestarts]; rewrite ?Hd, ?En; (split; [| done]); split_and!;
      [by exists o | | | by exists o1; split; [apply Hold |] | |].
    all: try (destruct (Z.max_spec (derivedRestarts n) (derivedRestarts d)) as [[_ Em] | [_ Em]];
      destruct (Z.max_spec (derivedRestarts d) (derivedRestarts n)) as [[? Em'] | [? Em']];
      first [exists o; split; [done | lia] | exists o2; split; [by apply Hold | lia]]).
    all: intros o' [-> | Ho']%Hnew; [rewrite <- Es; lia |]; specialize (Hall o' Ho'); lia.
  - intros Hnone. split; [| done]. unfold worst. cbn [derivedService state derivedRestarts derivedOf].
    split_and!; [by exists o | by exists o |]. intros o' [-> | Ho']%Hnew; [lia |]. rewrite Hnone in Ho'. by apply not_elem_of_nil in Ho'.
Qed.

Lemma worst_other obs o d : derivedService d <> serviceId o -> worst obs d -> worst (obs ++ [o]) d.
Proof.
  intros Hne. unfold worst. rewrite filter_app, filter_cons_False, filter_nil, app_nil_r by congruence. done.
Qed.

Lemma byService_snoc obs o :
  byService (obs ++ [o]) nowMs
  = mapSet (serviceId o) (worseOf (mapGet (byService obs nowMs) (serviceId o)) (derivedOf nowMs o)) (byService obs nowMs).
Proof. unfold byService. by rewrite foldl_app. Qed.

Lemma byService_ok obs :
  NoDup (map fst (byService obs nowMs)) /\
  forall k, match mapGet (byService obs nowMs) k with
       | Some d => derivedService d = k /\ worst obs d
       | None => containers obs k = []
       end.
Proof.
  induction obs as [| o obs [Hnd Hall]] using rev_ind; [split; [constructor | done] |].
  rewrite byService_snoc. split; [by apply mapSet_keys_NoDup |]. intros k.
  destruct (decide (serviceId o = k)) as [<- | Hne].
  - rewrite mapGet_set. pose proof (Hall (serviceId o)) as Ho. destruct (worst_next obs o _ Ho) as [Hw Hs]. done.
  - rewrite mapGet_set_ne by done. specialize (Hall k). case_match.
    + destruct Hall as [<- Hw]. split; [done |]. apply worst_other; [done |]. done.
    + by rewrite filter_app, Hall, filter_cons_False.
Qed.

Lemma insertService_perm x l : insertService x l ≡ₚ x :: l.
Proof.
  induction l as [| y l IH]; [done |]. cbn [insertService]. destruct (localeLe _ _); [done |].
  rewrite IH. constructor.
Qed.
Lemma sortServices_perm l : sortServices l ≡ₚ l.
Proof. induction l as [| x l IH]; [done |]. cbn. by rewrite insertService_perm, IH. Qed.

Lemma running_settled o :
  containerRunState o nowMs = SvRunning ->
  dockerStatusOf o = "running" /\
  (exists up, upForMs (obsInspect o) nowMs = Some up /\ SERVICE_SETTLE_MS <= up) /\
  forall h, (x ← obsInspect o; Health (State x)) = Some h -> toLowerCase h <> "unhealthy" /\ toLowerCase h <> "starting".
Proof.
  unfold containerRunState, runningState, downState. intros Hs.
  repeat case_decide; try done; try (by destruct (_ && _)).
  destruct (upForMs _ _) as [up |]; [| done]. destruct (Z.ltb_spec up SERVICE_SETTLE_MS); [done |].
  split; [done |]. split; [eauto |]. intros h Eh. rewrite Eh in *. cbn in *. split; congruence.
Qed.

Lemma severity_zero s : STATE_SEVERITY s <= STATE_SEVERITY SvRunning -> s = SvRunning.
Proof. by destruct s. Qed.
End worst.

Section reports.
Context `{JsDates} `{Collation}.

Lemma sorted_keys obs nowMs :
  map derivedService (sortServices (map snd (byService obs nowMs))) ≡ₚ map fst (byService obs nowMs).
Proof.
  destruct (byService_ok nowMs obs) as [Hnd Hall]. rewrite sortServices_perm, map_map.
  enough (Em : map (fun x => derivedService x.2) (byService obs nowMs) = map fst (byService obs nowMs)) by (by rewrite Em).
  apply map_ext_in. intros [k x] Hx%list_elem_of_In. apply mapGet_elem in Hx; [| done]. specialize (Hall k). rewrite Hx in Hall. by destruct Hall.
Qed.

Lemma derive_worst obs nowMs d : d ∈ deriveServiceRunStates obs nowMs -> worst nowMs obs d.
Proof.
  destruct (byService_ok nowMs obs) as [Hnd Hall]. intros Hd. apply subseteq_take in Hd. rewrite sortServices_perm in Hd.
  apply list_elem_of_In, in_map_iff in Hd as ([k x] & <- & Hx%list_elem_of_In).
  apply mapGet_elem in Hx; [| done]. specialize (Hall k). rewrite Hx in Hall. by destruct Hall.
Qed.

Lemma derive_unique obs nowMs : NoDup (map derivedService (deriveServiceRunStates obs nowMs)).
Proof.
  destruct (byService_ok nowMs obs) as [Hnd _]. eapply sublist_NoDup; [| apply (fmap_sublist derivedService), sublist_take].
  change (derivedService <$> ?l) with (map derivedService l). by rewrite sorted_keys.
Qed.

Lemma derive_complete obs nowMs o :
  (length (deriveServiceRunStates obs nowMs) < MAX_SERVICE_RUN_STATES)%nat -> o ∈ obs ->
  serviceId o ∈ map derivedService (deriveServiceRunStates obs nowMs).
Proof.
  destruct (byService_ok nowMs obs) as [Hnd Hall]. unfold deriveServiceRunStates. intros Hlen Ho.
  rewrite length_take in Hlen. rewrite take_ge by lia. rewrite sorted_keys.
  specialize (Hall (serviceId o)). destruct (mapGet (byService obs nowMs) (serviceId o)) as [x |] eqn:E.
  - apply mapGet_elem in E; [| done]. apply list_elem_of_In, in_map_iff. exists (serviceId o, x).
    split; [done |]. by apply list_elem_of_In.
  - exfalso. assert (Hin : o ∈ filter (fun o' => serviceId o' = serviceId o) obs) by (by apply list_elem_of_filter).
    rewrite Hall in Hin. by apply not_elem_of_nil in Hin.
Qed.

(** A reported service shows the worst state of its containers and the most
    restarts of them, and is shown once; it is only shown as running when every
    container of it runs, has run for the settling minute and is not reported
    unhealthy or starting.  No service is left out of a report that is not full. *)
Theorem services_show_their_worst obs nowMs d (Hd : d ∈ deriveServiceRunStates obs nowMs) :
  worst nowMs obs d /\
  NoDup (map derivedService (deriveServiceRunStates obs nowMs)) /\
  (state d = SvRunning -> forall o, o ∈ obs -> serviceId o = derivedService d ->
     dockerStatusOf o = "running" /\
     (exists up, upForMs (obsInspect o) nowMs = Some up /\ SERVICE_SETTLE_MS <= up) /\
     forall h, (x ← obsInspect o; Health (State x)) = Some h ->
       toLowerCase h <> "unhealthy" /\ toLowerCase h <> "starting") /\
  ((length (deriveServiceRunStates obs nowMs) < MAX_SERVICE_RUN_STATES)%nat ->
     forall o, o ∈ obs -> serviceId o ∈ map derivedService (deriveServiceRunStates obs nowMs)).
Proof.
  pose proof (derive_worst _ _ _ Hd) as Hw. split; [done |]. split; [apply derive_unique |]. split.
  - intros Hr o Ho Es. apply running_settled. destruct Hw as (_ & _ & Hle). rewrite Hr in Hle.
    apply severity_zero, Hle. by apply list_elem_of_filter.
  - intros Hlen o Ho. by apply derive_complete.
Qed.
End reports.

(** ** Since when *)

(** The stamper over its life, reports newest first. *)
Fixpoint stampAll (history : list (list DerivedServiceRunState * Z)) : jsmap seen :=
  match history with
  | [] => []
  | (l, now) :: older => (stampStates (stampAll older) l now).1
  end.

Definition shown (id p : jstring) (l : list DerivedServiceRunState) : bool :=
  existsb (fun d => bool_decide (derivedService d = id /\ fingerprint d = p)) l.

(** When the reports began to show [p] for a service, without a break up to the newest one. *)
Fixpoint shownSince (id p : jstring) (history : list (list DerivedServiceRunState * Z)) : option Z :=
  match history with
  | (l, now) :: older => if shown id p l then Some (default now (shownSince id p older)) else None
  | [] => None
  end.

Definition find_service (id : jstring) (l : list DerivedServiceRunState) : option DerivedServiceRunState :=
  head (filter (fun d => derivedService d = id) l).

Definition sinceIn (m : jsmap seen) (nowIso : jstring) (d : DerivedServiceRunState) : jstring :=
  match mapGet m (derivedService d) with
  | Some x => if decide (print x = fingerprint d) then seenSince x else nowIso
  | None => nowIso
  end.

Lemma stampOne_sinceIn nowIso m out d :
  stampOne nowIso (m, out) d
  = (mapSet (derivedService d) {| print := fingerprint d; seenSince := sinceIn m nowIso d |} m,
     out ++ [{| derived := d; asOf := sinceIn m nowIso d |}]).
Proof. done. Qed.

Lemma find_service_none id l : id ∉ map derivedService l -> find_service id l = None.
Proof.
  intros Hn. unfold find_service. rewrite filter_none; [done |]. apply Forall_forall. intros d Hd <-.
  apply Hn, list_elem_of_In, in_map, list_elem_of_In, Hd.
Qed.

Lemma find_service_elem d l : NoDup (map derivedService l) -> d ∈ l -> find_service (derivedService d) l = Some d.
Proof.
  induction l as [| x l IH]; [by intros _ ?%not_elem_of_nil |]. cbn [map]. intros [Hx Hnd]%NoDup_cons [-> | Hd]%elem_of_cons.
  - unfold find_service. by rewrite filter_cons_True.
  - unfold find_service. rewrite filter_cons_False; [by apply IH |]. intros E. apply Hx. rewrite E.
    apply list_elem_of_In, in_map, list_elem_of_In, Hd.
Qed.

Lemma stamp_fold nowIso l m out :
  NoDup (map derivedService l) ->
  (foldl (stampOne nowIso) (m, out) l).2 = out ++ map (fun d => {| derived := d; asOf := sinceIn m nowIso d |}) l /\
  forall id, mapGet (foldl (stampOne nowIso) (m, out) l).1 id
        = match find_service id l with
          | Some d => Some {| print := fingerprint d; seenSince := sinceIn m nowIso d |}
          | None => mapGet m id
          end.
Proof.
  revert m out. induction l as [| d l IH]; intros m out; [intros _; split; [by rewrite app_nil_r | done] |].
  cbn [map]. intros [Hd Hnd]%NoDup_cons. cbn [foldl]. rewrite stampOne_sinceIn.
  set (x := {| print := fingerprint d; seenSince := sinceIn m nowIso d |}).
  destruct (IH (mapSet (derivedService d) x m) (out ++ [{| derived := d; asOf := sinceIn m nowIso d |}]) Hnd) as [-> Hget].
  assert (Hsame : forall y, y ∈ l -> sinceIn (mapSet (derivedService d) x m) nowIso y = sinceIn m nowIso y).
  { intros y Hy. unfold sinceIn. rewrite mapGet_set_ne; [done |]. intros E. apply Hd. rewrite E.
    apply list_elem_of_In, in_map, list_elem_of_In, Hy. }
  split.
  - rewrite <- app_assoc. cbn [app]. do 2 f_equal. apply map_ext_in. intros y Hy%list_elem_of_In. by rewrite Hsame.
  - intros id. rewrite Hget. destruct (decide (derivedService d = id)) as [<- | Hne].
    + rewrite (find_service_none _ l Hd), mapGet_set. unfold find_service. by rewrite filter_cons_True.
    + rewrite mapGet_set_ne by done. replace (find_service id (d :: l)) with (find_service id l)
        by (unfold find_service; by rewrite filter_cons_False).
      destruct (find_service id l) as [y |] eqn:Ey; [| done]. rewrite Hsame; [done |].
      apply head_Some_elem_of, list_elem_of_filter in Ey. by destruct Ey.
Qed.

(** The member the stamper keeps after a history of reports. *)
Definition kept (history : list (list DerivedServiceRunState * Z)) (id : jstring) : option seen :=
  '(l, now) ← head history;
  d ← find_service id l;
  since ← shownSince id (fingerprint d) history;
  Some {| print := fingerprint d; seenSince := toISOString since |}.

Lemma shown_find id p l :
  NoDup (map derivedService l) ->
  shown id p l = match find_service id l with Some d => bool_decide (fingerprint d = p) | None => false end.
Proof.
  intros Hnd. apply eq_true_iff_eq. unfold shown. rewrite existsb_true_iff. split.
  - intros (d & Hd & [<- <-]%bool_decide_eq_true). rewrite find_service_elem by done. by apply bool_decide_eq_true.
  - destruct (find_service id l) as [d |] eqn:E; [| done]. intros <-%bool_decide_eq_true. exists d.
    apply head_Some_elem_of, list_elem_of_filter in E as [<- Hd]. split; [done |]. by apply bool_decide_eq_true.
Qed.

Lemma sinceIn_kept m older l now d :
  NoDup (map derivedService l) -> Forall (fun '(l', _) => NoDup (map derivedService l')) older ->
  mapGet m (derivedService d) = kept older (derivedService d) -> d ∈ l ->
  Some (sinceIn m (toISOString now) d) = toISOString <$> shownSince (derivedService d) (fingerprint d) ((l, now) :: older).
Proof.
  intros Hnd Hold Hm Hd. cbn [shownSince]. rewrite shown_find, find_service_elem, bool_decide_true by done.
  unfold sinceIn. rewrite Hm. unfold kept. destruct older as [| [l' now'] older]; [done |].
  cbn [head mbind option_bind shownSince]. apply Forall_cons in Hold as [Hnd' _].
  rewrite (shown_find (derivedService d) (fingerprint d) l') by done.
  destruct (find_service (derivedService d) l') as [d' |] eqn:Ef; cbn [mbind option_bind]; [| done].
  rewrite shown_find, Ef, bool_decide_true by done. cbn [mbind option_bind print seenSince].
  destruct (decide (fingerprint d' = fingerprint d)) as [E |]; [| by rewrite bool_decide_false].
  by rewrite E, bool_decide_true.
Qed.

Lemma stampAll_kept history :
  Forall (fun '(l, _) => NoDup (map derivedService l)) history -> forall id, mapGet (stampAll history) id = kept history id.
Proof.
  induction history as [| [l now] older IH]; [done |]. intros [Hnd Hold]%Forall_cons id. specialize (IH Hold).
  cbn [stampAll]. unfold stampStates. destruct (stamp_fold (toISOString now) l (stampAll older) [] Hnd) as [_ Hget].
  destruct (foldl _ _ l) as [m out]. cbn [fst] in *.
  etrans; [exact (mapGet_filter_keys (fun k => k ∈ map derivedService l) m id) |]. rewrite Hget. unfold kept. cbn [head mbind option_bind].
  case_decide as Hin; [| by rewrite find_service_none].
  apply list_elem_of_In, in_map_iff in Hin as (d & <- & Hd%list_elem_of_In).
  rewrite find_service_elem by done. cbn [mbind option_bind].
  pose proof (sinceIn_kept (stampAll older) older l now d Hnd Hold (IH _) Hd) as Hs.
  destruct (shownSince _ _ _) as [since |]; [| done]. cbn in Hs |- *. congruence.
Qed.

(** The time shown with a service's state is the time of the first report of
    the unbroken row of reports, up to now, that showed the service in exactly
    this state, with these restarts and this error. *)
Theorem stamped_since_first_seen older l now r
    (Hnd : NoDup (map derivedService l)) (Hold : Forall (fun '(l', _) => NoDup (map derivedService l')) older)
    (Hr : r ∈ (stampStates (stampAll older) l now).2) :
  derived r ∈ l /\
  Some (asOf r) = toISOString <$> shownSince (derivedService (derived r)) (fingerprint (derived r)) ((l, now) :: older).
Proof.
  unfold stampStates in Hr. destruct (stamp_fold (toISOString now) l (stampAll older) [] Hnd) as [Ho _].
  destruct (foldl _ _ l) as [m out]. cbn [snd] in *. subst out. cbn [app] in Hr.
  apply list_elem_of_In, in_map_iff in Hr as (d & <- & Hd%list_elem_of_In). cbn [derived asOf]. split; [done |].
  apply (sinceIn_kept (stampAll older)); try done. by apply stampAll_kept.
Qed.

(** ** Witnesses *)

#[local] Instance isoDates : JsDates := {| otherDate := fun _ => None |}.
#[local] Instance anyOrder : Collation := {| localeLe := fun _ _ => true |}.

Definition containerUp (restarts : Z) (started : jstring) : ContainerInspect :=
  {| inspectId := "c1"; inspectName := "/web"; inspectImage := "sha256:1"; RestartCount := Some restarts;
     State := {| Status := "running"; ExitCode := 0; StartedAt := Some started; FinishedAt := None; Health := None |};
     configImage := None; configLabels := None; networkPorts := None |}.
Definition observed (restarts : Z) (started : jstring) : ServiceContainerObservation :=
  {| serviceId := "svc"; obsContainerId := "c1"; obsSummary := None; obsInspect := Some (containerUp restarts started);
     lastLogLine := None; crashStreak := None; crashStopped := None |}.
Definition twoReplicas : list ServiceContainerObservation :=
  [observed 2 "1970-01-01T00:00:00.000Z"; observed 5 "1970-01-01T00:00:30.000Z"].

Lemma services_show_their_worst_witness :
  worst 100000 twoReplicas {| derivedService := "svc"; state := SvRunning; derivedRestarts := 5; lastError := None |}.
Proof. apply (services_show_their_worst twoReplicas 100000 _). vm_compute. by left. Defined.

Definition crashingNow : DerivedServiceRunState :=
  {| derivedService := "svc"; state := SvCrashing; derivedRestarts := 3; lastError := None |}.
Definition runningThen : DerivedServiceRunState :=
  {| derivedService := "svc"; state := SvRunning; derivedRestarts := 0; lastError := None |}.

Lemma stamped_since_first_seen_witness :
  Some (toISOString 2000)
  = toISOString <$> shownSince "svc" (fingerprint crashingNow)
      [([crashingNow], 4000); ([crashingNow], 3000); ([crashingNow], 2000); ([runningThen], 1000)].
Proof.
  apply (stamped_since_first_seen [([crashingNow], 3000); ([crashingNow], 2000); ([runningThen], 1000)] [crashingNow] 4000
    {| derived := crashingNow; asOf := toISOString 2000 |}).
  - repeat constructor. apply not_elem_of_nil.
  - repeat constructor; apply not_elem_of_nil.
  - vm_compute. by left.
Defined.
