(* ===== verification/MonCrash.v ===== *)
(** * The crash-loop guard ([monitor/crash-loop-guard.ts])

    The guard keeps one mutable entry per listed container and stops a container
    that restarted too often since it last proved stable.  A stop runs in the
    background and its completion writes to the entry it was started for, which
    may have left the map by then: entries live in a store and the map and the
    stops refer to them. *)

From stdpp Require Import list.
From S2P Require Import Prelude Json Dates Log MonState.

#[local] Open Scope Z_scope.

(** ** Entries and stops *)

Record Tracked := { baseline : Z; stopped : bool; stoppedRun : option jstring; stopping : bool }.

(** A stop under way: the [docker stop] of a container, or what is left after its promise settled. *)
Record stop := { stopEntry : nat; stopId : jstring; stopRun : option jstring; stopCount : Z; settled : bool }.

Record CrashLoopGuard := {
  tracked : jsmap nat; entries : list Tracked; stops : list stop;
  issued : list jstring; logged : list (LogLevel * list jstring)
}.
Definition newGuard : CrashLoopGuard := {| tracked := []; entries := []; stops := []; issued := []; logged := [] |}.

(** ** Stopping a container *)

Record DockerCliResult := { success : bool; stdout : jstring; stderr : jstring }.

Definition stopArgs (containerId : jstring) : list jstring := ["stop" : jstring; "--time" : jstring; "10" : jstring; containerId].
(** What the promise settles to; [run] is the Docker CLI. *)
Definition stopCrashLoopingContainer (run : list jstring -> result jstring DockerCliResult) (containerId : jstring)
    : result jstring unit :=
  r ← run (stopArgs containerId);
  if success r then Ok tt
  else Throw (("docker stop failed: " : jstring) ++ trim (if decide (stderr r = []) then stdout r else stderr r)).

(** ** Reviewing containers *)

Section guard.
Context `{JsDates}.
Variable limit : Z.

Definition provedStable (o : ServiceContainerObservation) (status : jstring) (nowMs : Z) : bool :=
  if decide (status = "running") then
    match upForMs (obsInspect o) nowMs with Some upMs => SERVICE_SETTLE_MS <=? upMs | None => false end
  else if decide (status <> "restarting" /\ status <> "exited") then false
  else match Date_parse (default [] (x ← obsInspect o; StartedAt (State x))),
             Date_parse (default [] (x ← obsInspect o; FinishedAt (State x))) with
       | Some started, Some finished => SERVICE_SETTLE_MS <=? finished - started
       | _, _ => false
       end.

Definition startedAtOf (o : ServiceContainerObservation) : option jstring := x ← obsInspect o; StartedAt (State x).

(** Assignments to the fields of an entry. *)
Definition setBaseline (b : Z) (e : Tracked) : Tracked :=
  {| baseline := b; stopped := stopped e; stoppedRun := stoppedRun e; stopping := stopping e |}.
Definition setStopped (b : bool) (r : option jstring) (e : Tracked) : Tracked :=
  {| baseline := baseline e; stopped := b; stoppedRun := r; stopping := stopping e |}.
Definition setStopping (b : bool) (e : Tracked) : Tracked :=
  {| baseline := baseline e; stopped := stopped e; stoppedRun := stoppedRun e; stopping := b |}.
Definition onEntry (r : nat) (f : Tracked -> Tracked) (g : CrashLoopGuard) : CrashLoopGuard :=
  {| tracked := tracked g; entries := alter f r (entries g); stops := stops g; issued := issued g; logged := logged g |}.
Definition logLine (level : LogLevel) (parts : list jstring) (g : CrashLoopGuard) : CrashLoopGuard :=
  {| tracked := tracked g; entries := entries g; stops := stops g; issued := issued g; logged := logged g ++ [(level, parts)] |}.

Definition entryFor (containerId status : jstring) (count : Z) (g : CrashLoopGuard) : nat * CrashLoopGuard :=
  match mapGet (tracked g) containerId with
  | Some r => (r, g)
  | None =>
      let e := {| baseline := if decide (status = "running") then count else 0;
                  stopped := false; stoppedRun := None; stopping := false |} in
      (length (entries g),
       {| tracked := mapSet containerId (length (entries g)) (tracked g); entries := entries g ++ [e];
          stops := stops g; issued := issued g; logged := logged g |})
  end.

Definition clearIfStartedAgain (o : ServiceContainerObservation) (e : Tracked) : Tracked :=
  if negb (stopped e) || stopping e then e
  else if decide (startedAtOf o = stoppedRun e) then e else setStopped false None e.

Definition stopInBackground (o : ServiceContainerObservation) (r : nat) (count : Z) (g : CrashLoopGuard) : CrashLoopGuard :=
  let g := onEntry r (setStopping true) g in
  {| tracked := tracked g; entries := entries g;
     stops := stops g ++ [{| stopEntry := r; stopId := obsContainerId o; stopRun := startedAtOf o; stopCount := count; settled := false |}];
     issued := issued g ++ [obsContainerId o]; logged := logged g |}.

(** What a review does to the entry before the limit is looked at. *)
Definition refresh (o : ServiceContainerObservation) (nowMs : Z) (e : Tracked) : Tracked :=
  let status := dockerStatusOf o in
  let count := restartsOf o in
  let e := if count <? baseline e then setBaseline 0 e else e in
  let e := if decide (status = "running" \/ status = "restarting") then clearIfStartedAgain o e else e in
  if provedStable o status nowMs && negb (stopped e) then setBaseline count e else e.

Definition withStreak (streak : Z) (isStopped : bool) (o : ServiceContainerObservation) : ServiceContainerObservation :=
  {| serviceId := serviceId o; obsContainerId := obsContainerId o; obsSummary := obsSummary o; obsInspect := obsInspect o;
     lastLogLine := lastLogLine o; crashStreak := Some streak; crashStopped := Some isStopped |}.

Definition overLimit (o : ServiceContainerObservation) (e : Tracked) : bool :=
  (limit <=? restartsOf o - baseline e)
  && bool_decide (dockerStatusOf o = "restarting" \/ dockerStatusOf o = "running")
  && negb (stopped e) && negb (stopping e).

Definition reviewOne (nowMs : Z) (o : ServiceContainerObservation) (g : CrashLoopGuard)
    : ServiceContainerObservation * CrashLoopGuard :=
  let '(r, g) := entryFor (obsContainerId o) (dockerStatusOf o) (restartsOf o) g in
  let g := onEntry r (refresh o nowMs) g in
  match entries g !! r with
  | None => (o, g)
  | Some e =>
      (withStreak (restartsOf o - baseline e) (stopped e) o,
       if overLimit o e then stopInBackground o r (restartsOf o) g else g)
  end.

Fixpoint reviewAll (nowMs : Z) (obs : list ServiceContainerObservation) (g : CrashLoopGuard)
    : list ServiceContainerObservation * CrashLoopGuard :=
  match obs with
  | [] => ([], g)
  | o :: obs' =>
      let '(o', g) := reviewOne nowMs o g in
      let '(rest, g) := reviewAll nowMs obs' g in
      (o' :: rest, g)
  end.

(** The containers that are not listed any more are forgotten. *)
Definition forget (obs : list ServiceContainerObservation) (g : CrashLoopGuard) : CrashLoopGuard :=
  {| tracked := filter (fun x : jstring * nat => x.1 ∈ map obsContainerId obs) (tracked g); entries := entries g;
     stops := stops g; issued := issued g; logged := logged g |}.

Definition review (obs : list ServiceContainerObservation) (nowMs : Z) (g : CrashLoopGuard)
    : list ServiceContainerObservation * CrashLoopGuard := reviewAll nowMs obs (forget obs g).

(** *** The end of a stop *)

Definition setStops (l : list stop) (g : CrashLoopGuard) : CrashLoopGuard :=
  {| tracked := tracked g; entries := entries g; stops := l; issued := issued g; logged := logged g |}.
Definition settle (s : stop) : stop :=
  {| stopEntry := stopEntry s; stopId := stopId s; stopRun := stopRun s; stopCount := stopCount s; settled := true |}.

(** The promise of the [i]-th stop settles. *)
Definition stopSettles (i : nat) (r : result jstring unit) (g : CrashLoopGuard) : CrashLoopGuard :=
  match stops g !! i with
  | Some s =>
      if settled s then g
      else
        let g := setStops (<[i := settle s]> (stops g)) g in
        match r with
        | Ok _ =>
            logLine INFO [("stopped crash-looping container " : jstring) ++ take 12 (stopId s)
                          ++ (" after " : jstring) ++ integerText (stopCount s) ++ (" restarts" : jstring)]
              (onEntry (stopEntry s) (setStopped true (stopRun s)) g)
        | Throw message => logLine WARN ["crash-loop stop failed:" : jstring; message] g
        end
  | None => g
  end.

(** Its [finally] callback runs. *)
Definition stopEnds (i : nat) (g : CrashLoopGuard) : CrashLoopGuard :=
  match stops g !! i with
  | Some s => if settled s then onEntry (stopEntry s) (setStopping false) (setStops (delete i (stops g)) g) else g
  | None => g
  end.

(** ** The guard over time *)

Inductive guardEvent :=
| Reviews (obs : list ServiceContainerObservation) (nowMs : Z)
| Settles (i : nat) (r : result jstring unit)
| Ends (i : nat).

Definition guardStep (g : CrashLoopGuard) (e : guardEvent) : CrashLoopGuard :=
  match e with
  | Reviews obs nowMs => (review obs nowMs g).2
  | Settles i r => stopSettles i r g
  | Ends i => stopEnds i g
  end.
Definition guardAfter (events : list guardEvent) : CrashLoopGuard := foldl guardStep newGuard events.
End guard.

(** ** The invariant *)

Section sound.
Context `{JsDates}.
Variables (limit : Z) (based : jstring -> Z -> Prop) (listed : jstring -> Prop).
Hypothesis limit_pos : 0 < limit.
Hypothesis based_zero : forall id, based id 0.

(** Entry [r] was made for the container [owners !! r]; an entry is stopping
    while one stop holds it; baselines come from observations; a container that
    was always listed has one entry. *)
Record sound (owners : list jstring) (g : CrashLoopGuard) : Prop := {
  s_len : length owners = length (entries g);
  s_owned : forall id r, mapGet (tracked g) id = Some r -> owners !! r = Some id;
  s_flag : forall r e, entries g !! r = Some e -> stopping e = true <-> r ∈ map stopEntry (stops g);
  s_one : NoDup (map stopEntry (stops g));
  s_ids : Forall (fun s => owners !! stopEntry s = Some (stopId s)) (stops g);
  s_base : forall r e id, entries g !! r = Some e -> owners !! r = Some id -> based id (baseline e);
  s_single : forall id r, listed id -> owners !! r = Some id -> mapGet (tracked g) id = Some r
}.

Definition deserved (nowMs : Z) (o : ServiceContainerObservation) : Prop :=
  (dockerStatusOf o = "running" \/ dockerStatusOf o = "restarting") /\
  provedStable o (dockerStatusOf o) nowMs = false /\
  exists b, based (obsContainerId o) b /\ limit <= restartsOf o - b.

Lemma new_sound : sound [] newGuard.
Proof. by constructor; try constructor; cbn. Qed.

Lemma onEntry_sound owners r f g :
  (forall e, entries g !! r = Some e -> stopping (f e) = stopping e /\
     forall id, owners !! r = Some id -> based id (baseline e) -> based id (baseline (f e))) ->
  sound owners g -> sound owners (onEntry r f g).
Proof.
  intros Hf []. constructor; cbn; try done; [by rewrite length_alter | |].
  - intros r' e'. rewrite list_lookup_alter. destruct (decide (r = r')) as [<- |]; [| by apply s_flag0].
    intros (e & Ee & ->)%fmap_Some. destruct (Hf e Ee) as [-> _]. by apply s_flag0.
  - intros r' e' id. rewrite list_lookup_alter. destruct (decide (r = r')) as [<- |]; [| by apply s_base0].
    intros (e & Ee & ->)%fmap_Some Hid. destruct (Hf e Ee) as [_ Hb]. eauto.
Qed.

Lemma entryFor_sound owners id status count g r g' :
  (status = "running" -> based id count) -> entryFor id status count g = (r, g') -> sound owners g ->
  exists owners', sound owners' g' /\ owners' !! r = Some id /\ mapGet (tracked g') id = Some r /\
    stops g' = stops g /\ issued g' = issued g /\ is_Some (entries g' !! r).
Proof.
  intros Hb. unfold entryFor. destruct (mapGet (tracked g) id) as [r0 |] eqn:E; intros [= <- <-] [].
  { exists owners. pose proof (s_owned0 _ _ E) as Ho. split_and!; try done. apply lookup_lt_is_Some.
    rewrite <- s_len0. by apply lookup_lt_Some in Ho. }
  assert (Hlt : forall x y, owners !! x = Some y -> (owners ++ [id]) !! x = Some y)
    by (intros x y Hx; by apply lookup_app_l_Some).
  assert (Hmid : (owners ++ [id]) !! length (entries g) = Some id) by (rewrite <- s_len0; by apply list_lookup_middle).
  assert (Hinv : forall x y, (owners ++ [id]) !! x = Some y -> owners !! x = Some y \/ x = length (entries g) /\ y = id).
  { intros x y [? | [Hge Hx]]%lookup_app_Some; [by left |]. right. rewrite s_len0 in *.
    apply list_lookup_singleton_Some in Hx as [? <-]. split; [lia | done]. }
  exists (owners ++ [id]). cbn [tracked entries stops issued]. rewrite mapGet_set.
  split; [| split_and!; try done; rewrite list_lookup_middle by done; eauto].
  constructor; cbn [tracked entries stops issued].
  - rewrite !length_app. cbn. lia.
  - intros id' r'. destruct (decide (id = id')) as [<- |]; [rewrite mapGet_set; by intros [= <-] |].
    rewrite mapGet_set_ne by done. intros Hr'. apply Hlt. by apply s_owned0.
  - intros r' e [He | [Hge He]]%lookup_app_Some; [by apply s_flag0 |].
    apply list_lookup_singleton_Some in He as [Hz <-]. cbn. split; [done |]. intros Hin.
    apply list_elem_of_In, in_map_iff in Hin as (s & <- & Hs%list_elem_of_In).
    rewrite Forall_forall in s_ids0. apply s_ids0, lookup_lt_Some in Hs. lia.
  - done.
  - eapply Forall_impl; [exact s_ids0 |]. intros s Hs. by apply Hlt.
  - intros r' e id' [He | [Hge He]]%lookup_app_Some Hid'.
    + apply Hinv in Hid' as [Hid' | [-> _]]; [eauto |]. apply lookup_lt_Some in He. lia.
    + apply list_lookup_singleton_Some in He as [Hz <-]. cbn.
      apply Hinv in Hid' as [Hid' | [_ ->]]; [apply lookup_lt_Some in Hid'; lia |]. case_decide; auto.
  - intros id' r' Hl [Hr' | [-> ->]]%Hinv; [| by rewrite mapGet_set].
    specialize (s_single0 _ _ Hl Hr'). rewrite mapGet_set_ne; [done |]. by intros ->; rewrite E in s_single0.
Qed.

Lemma refresh_baseline o nowMs e :
  baseline (refresh o nowMs e) = 0 \/ baseline (refresh o nowMs e) = baseline e \/
  baseline (refresh o nowMs e) = restartsOf o /\ provedStable o (dockerStatusOf o) nowMs = true.
Proof.
  unfold refresh, clearIfStartedAgain. destruct (provedStable o (dockerStatusOf o) nowMs);
    repeat case_match; cbn; auto.
Qed.

Lemma refresh_stopping o nowMs e : stopping (refresh o nowMs e) = stopping e.
Proof. unfold refresh, clearIfStartedAgain. repeat case_match; done. Qed.

Lemma refresh_stable o nowMs e :
  provedStable o (dockerStatusOf o) nowMs = true -> stopped (refresh o nowMs e) = false ->
  baseline (refresh o nowMs e) = restartsOf o.
Proof.
  unfold refresh. cbv zeta. intros ->. set (e' := if decide _ then _ else _). destruct (stopped e') eqn:E; cbn; [by rewrite E | done].
Qed.

Lemma stopInBackground_sound owners o r count e g :
  entries g !! r = Some e -> stopping e = false -> owners !! r = Some (obsContainerId o) ->
  sound owners g -> sound owners (stopInBackground o r count g).
Proof.
  intros He Hs Ho []. constructor; cbn; rewrite ?map_app, ?length_alter; try done.
  - intros r' e'. rewrite list_lookup_alter, elem_of_app. cbn [map stopEntry]. rewrite list_elem_of_singleton.
    destruct (decide (r = r')) as [<- | Hne]; [intros (e0 & E0 & ->)%fmap_Some; naive_solver |].
    intros E'. rewrite (s_flag0 _ _ E'). naive_solver.
  - apply NoDup_app. split_and!; [done | | apply NoDup_singleton]. intros x Hx ->%list_elem_of_singleton.
    cbn in Hx. apply (s_flag0 _ _ He) in Hx. congruence.
  - apply Forall_app. split; [done |]. by apply Forall_singleton.
  - intros r' e' id. rewrite list_lookup_alter. destruct (decide (r = r')) as [<- |]; [| by apply s_base0].
    intros (e0 & E0 & ->)%fmap_Some. cbn. eauto.
Qed.

(** *** A review *)

Lemma reviewOne_sound owners nowMs o g :
  (dockerStatusOf o = "running" \/ provedStable o (dockerStatusOf o) nowMs = true -> based (obsContainerId o) (restartsOf o)) ->
  sound owners g ->
  exists owners', sound owners' (reviewOne limit nowMs o g).2 /\
    (issued (reviewOne limit nowMs o g).2 = issued g \/
     issued (reviewOne limit nowMs o g).2 = issued g ++ [obsContainerId o] /\ deserved nowMs o).
Proof.
  intros Hb Hs. unfold reviewOne. destruct (entryFor _ _ _ g) as [r g1] eqn:E1.
  apply (entryFor_sound owners) in E1 as (owners' & Hs1 & Ho & Hr & Est & Eis & [e Ee]); auto.
  exists owners'. cbn [entries onEntry]. rewrite list_lookup_alter_eq, Ee. cbn [fmap option_fmap option_map snd].
  assert (Hbe : based (obsContainerId o) (baseline (refresh o nowMs e))).
  { destruct (refresh_baseline o nowMs e) as [-> | [-> | [-> ?]]]; auto. by apply (s_base _ _ Hs1 r). }
  assert (Hs2 : sound owners' (onEntry r (refresh o nowMs) g1)).
  { apply onEntry_sound; [| done]. intros e0 E0. simplify_eq. rewrite refresh_stopping. naive_solver. }
  destruct (overLimit limit o (refresh o nowMs e)) eqn:El; [| split; [done | by left; cbn; rewrite Eis]].
  unfold overLimit in El. apply andb_prop in El as [[[Hlim Hfail]%andb_prop Hst]%andb_prop Hsg].
  apply negb_true_iff in Hst, Hsg. split.
  - apply (stopInBackground_sound _ _ _ _ (refresh o nowMs e)); try done. cbn. by rewrite list_lookup_alter_eq, Ee.
  - right. cbn. rewrite Eis. split; [done |]. apply bool_decide_eq_true in Hfail. apply Z.leb_le in Hlim.
    split; [naive_solver |]. split; [| eauto]. apply not_true_iff_false. intros Hp.
    rewrite (refresh_stable o nowMs e Hp Hst) in Hlim. lia.
Qed.

Lemma reviewAll_sound nowMs obs owners g :
  (forall o, o ∈ obs -> dockerStatusOf o = "running" \/ provedStable o (dockerStatusOf o) nowMs = true ->
     based (obsContainerId o) (restartsOf o)) ->
  sound owners g ->
  exists owners' new, sound owners' (reviewAll limit nowMs obs g).2 /\ issued (reviewAll limit nowMs obs g).2 = issued g ++ new /\
    Forall (fun id => exists o, o ∈ obs /\ obsContainerId o = id /\ deserved nowMs o) new.
Proof.
  revert owners g. induction obs as [| o obs IH]; intros owners g Hb Hs; cbn [reviewAll].
  { exists owners, []. rewrite app_nil_r. split_and!; [done | done | constructor]. }
  destruct (reviewOne_sound owners nowMs o g) as (o1 & Hs1 & Hi1); [apply Hb; left | done |].
  destruct (reviewOne limit nowMs o g) as [o' g1]. cbn [snd] in Hs1, Hi1.
  destruct (IH o1 g1) as (o2 & new & Hs2 & Hi2 & Hn); [intros o0 Ho; apply Hb; by right | done |].
  destruct (reviewAll limit nowMs obs g1) as [rest g2]. cbn [snd] in *.
  assert (Hw : Forall (fun id => exists o0, o0 ∈ o :: obs /\ obsContainerId o0 = id /\ deserved nowMs o0) new).
  { eapply Forall_impl; [exact Hn |]. intros id (o0 & Ho0 & ? & ?). exists o0. split_and!; [by right | done | done]. }
  exists o2. destruct Hi1 as [Hi1 | [Hi1 Hd]]; [exists new | exists (obsContainerId o :: new)]; (split; [done |]);
    rewrite Hi2, Hi1, <- ?app_assoc; (split; [done |]); [done |].
  constructor; [| done]. exists o. split_and!; [by left | done | done].
Qed.

Lemma forget_sound obs owners g :
  (forall id, listed id -> id ∈ map obsContainerId obs) -> sound owners g -> sound owners (forget obs g).
Proof.
  intros Hl [].
  assert (Hget : forall id, mapGet (tracked (forget obs g)) id
                      = if decide (id ∈ map obsContainerId obs) then mapGet (tracked g) id else None).
  { intros id. exact (mapGet_filter_keys (fun k => k ∈ map obsContainerId obs) (tracked g) id). }
  constructor; try done; intros id r; rewrite Hget; [case_decide; naive_solver |].
  intros Hlid Ho. rewrite decide_True by auto. auto.
Qed.

Lemma stopSettles_sound i r owners g : sound owners g -> sound owners (stopSettles i r g).
Proof.
  intros Hs. unfold stopSettles. destruct (stops g !! i) as [s |] eqn:Es; [| done]. destruct (settled s); [done |].
  assert (Em : map stopEntry (<[i := settle s]> (stops g)) = map stopEntry (stops g)).
  { change (map stopEntry ?l) with (stopEntry <$> l). rewrite list_fmap_insert. apply list_insert_id.
    by rewrite list_lookup_fmap, Es. }
  assert (Hi : sound owners (setStops (<[i := settle s]> (stops g)) g)).
  { destruct Hs. constructor; cbn; rewrite ?Em; try done. apply Forall_insert; [done |].
    exact (Forall_lookup_1 _ _ _ _ s_ids0 Es). }
  destruct r as [[] | message].
  - assert (Hj : sound owners (onEntry (stopEntry s) (setStopped true (stopRun s)) (setStops (<[i:=settle s]> (stops g)) g)))
      by (apply onEntry_sound; done).
    by destruct Hj.
  - by destruct Hi.
Qed.

Lemma stopEnds_sound i owners g : sound owners g -> sound owners (stopEnds i g).
Proof.
  intros []. unfold stopEnds. destruct (stops g !! i) as [s |] eqn:Es; [| done]. destruct (settled s); [| done].
  apply list_elem_of_split_length in Es as (l1 & l2 & El & ->).
  assert (Ed : delete (length l1) (stops g) = l1 ++ l2) by (rewrite El; apply delete_middle).
  rewrite El, map_app in *. cbn [map] in *. apply NoDup_app in s_one0 as (N1 & N2 & [N3 N4]%NoDup_cons).
  constructor; cbn; rewrite ?Ed, ?map_app, ?length_alter; try done.
  - intros r e. rewrite list_lookup_alter. destruct (decide (stopEntry s = r)) as [<- | Hne].
    + intros (e0 & E0 & ->)%fmap_Some. cbn. split; [done |]. rewrite elem_of_app. intros [Hin | Hin]; [| done].
      exfalso. apply (N2 _ Hin). by left.
    + intros Er. rewrite (s_flag0 _ _ Er). rewrite !elem_of_app, elem_of_cons. naive_solver.
  - apply NoDup_app. split_and!; [done | | done]. intros x Hx Hx2. apply (N2 _ Hx). by right.
  - apply Forall_app in s_ids0 as [? [_ ?]%Forall_cons]. by apply Forall_app.
  - intros r e id. rewrite list_lookup_alter. destruct (decide (stopEntry s = r)) as [<- |]; [| by apply s_base0].
    intros (e0 & E0 & ->)%fmap_Some. cbn. eauto.
Qed.
End sound.

(** ** Histories *)

Section histories.
Context `{JsDates}.
Variable limit : Z.

(** A restart count a streak may be counted from: none, or one observed when the
    container ran or had just stayed up for the settling time. *)
Definition basedOn (events : list guardEvent) (id : jstring) (b : Z) : Prop :=
  b = 0 \/ exists obs nowMs o, Reviews obs nowMs ∈ events /\ o ∈ obs /\ obsContainerId o = id /\ restartsOf o = b /\
    (dockerStatusOf o = "running" \/ provedStable o (dockerStatusOf o) nowMs = true).

Definition alwaysListed (events : list guardEvent) (id : jstring) : Prop :=
  forall obs nowMs, Reviews obs nowMs ∈ events -> id ∈ map obsContainerId obs.

Lemma guardAfter_sound all events :
  0 < limit -> events ⊆ all ->
  exists owners, sound (basedOn all) (alwaysListed all) owners (guardAfter limit events).
Proof.
  intros Hpos. induction events as [| e events IH] using rev_ind; intros Hsub; [exists []; apply new_sound |].
  destruct IH as [owners Hs]; [intros x Hx; apply Hsub, elem_of_app; by left |].
  unfold guardAfter. rewrite foldl_app. cbn [foldl]. fold (guardAfter limit events).
  assert (Hin : e ∈ all) by (apply Hsub, elem_of_app; right; by left).
  destruct e as [obs nowMs | i r | i]; cbn [guardStep];
    [| exists owners; by apply stopSettles_sound | exists owners; by apply stopEnds_sound].
  apply (forget_sound _ _ obs) in Hs; [| intros id Hl; by apply (Hl obs nowMs)].
  unfold review. eapply (reviewAll_sound limit (basedOn all)) in Hs as (owners' & _ & Hs' & _); [by exists owners' | | |]; try done.
  - intros id. by left.
  - intros o Ho Hst. right. exists obs, nowMs, o. done.
Qed.

End histories.

(** ** A stopped container *)

Section parked.
Context `{JsDates}.
Variable limit : Z.
Hypothesis limit_pos : 0 < limit.

(** The wiring of map, store and stops alone. *)
Notation wired := (sound (fun _ _ => True) (fun _ => False)).

Lemma sound_wired (based : jstring -> Z -> Prop) (listed : jstring -> Prop) owners g :
  sound based listed owners g -> wired owners g.
Proof. by intros []. Qed.

Lemma wired_reviewOne owners nowMs o g : wired owners g -> exists owners', wired owners' (reviewOne limit nowMs o g).2.
Proof. intros Hs. destruct (reviewOne_sound limit (fun _ _ => True) (fun _ => False) limit_pos ltac:(done) owners nowMs o g) as (o' & ? & _); eauto.
Qed.

(** Container [id] is tracked by entry [r], which holds [e]; [l] are its stops under way. *)
Definition holding (id : jstring) (r : nat) (e : Tracked) (l : list stop) (g : CrashLoopGuard) : Prop :=
  mapGet (tracked g) id = Some r /\ entries g !! r = Some e /\ filter (fun s => stopEntry s = r) (stops g) = l.

Lemma holding_other owners id r e l nowMs o g :
  wired owners g -> obsContainerId o <> id -> holding id r e l g -> holding id r e l (reviewOne limit nowMs o g).2.
Proof.
  intros Hs Hne (Ht & He & Hl). unfold reviewOne. destruct (entryFor _ _ _ g) as [r' g'] eqn:E.
  assert (r' <> r /\ holding id r e l g' /\ is_Some (entries g' !! r')) as (Hr & (Ht' & He' & Hl') & [e' Ee']).
  { pose proof E as E0. apply (entryFor_sound (fun _ _ => True) (fun _ => False) (fun _ => I) owners) in E0 as (ow & Hs' & Ho & Hg & Est & _ & Hsome); [| done | done].
    unfold entryFor in E. destruct (mapGet (tracked g) (obsContainerId o)) as [r0 |] eqn:E1; simplify_eq.
    - split; [| done]. intros <-. pose proof (s_owned _ _ _ _ Hs _ _ Ht). pose proof (s_owned _ _ _ _ Hs _ _ E1). congruence.
    - split; [apply lookup_lt_Some in He; lia |]. split; [| done]. split_and!; cbn;
        [by rewrite mapGet_set_ne | by apply lookup_app_l_Some | done]. }
  cbn [entries onEntry]. rewrite list_lookup_alter_eq, Ee'. cbn [fmap option_fmap option_map snd].
  destruct (overLimit _ _ _); (split_and!; cbn; [done | rewrite ?list_lookup_alter_ne by done; done |]); [| done].
  rewrite filter_app, filter_cons_False by done. rewrite Hl', filter_nil. apply app_nil_r.
Qed.

Lemma holding_others obs nowMs owners id r e l g :
  wired owners g -> id ∉ map obsContainerId obs -> holding id r e l g ->
  holding id r e l (reviewAll limit nowMs obs g).2 /\ exists owners', wired owners' (reviewAll limit nowMs obs g).2.
Proof.
  revert owners g. induction obs as [| o obs IH]; intros owners g Hs Hn Hh; cbn [reviewAll map] in *; [eauto |].
  apply not_elem_of_cons in Hn as [Hne Hn]. pose proof (holding_other owners id r e l nowMs o g Hs ltac:(done) Hh) as Hh'.
  destruct (wired_reviewOne owners nowMs o g Hs) as [ow Hs']. destruct (reviewOne limit nowMs o g) as [o' g1].
  specialize (IH ow g1 Hs' Hn Hh'). by destruct (reviewAll limit nowMs obs g1).
Qed.

Lemma holding_forget obs id r e l g : id ∈ map obsContainerId obs -> holding id r e l g -> holding id r e l (forget obs g).
Proof.
  intros Hin (Ht & He & Hl). split_and!; [| done | done].
  etrans; [exact (mapGet_filter_keys (fun k => k ∈ map obsContainerId obs) (tracked g) id) |]. by rewrite decide_True.
Qed.

Lemma reviewOne_holding id r e l nowMs o g :
  obsContainerId o = id -> holding id r e l g ->
  reviewOne limit nowMs o g
  = (withStreak (restartsOf o - baseline (refresh o nowMs e)) (stopped (refresh o nowMs e)) o,
     if overLimit limit o (refresh o nowMs e) then stopInBackground o r (restartsOf o) (onEntry r (refresh o nowMs) g)
     else onEntry r (refresh o nowMs) g) /\
  holding id r (refresh o nowMs e) l (onEntry r (refresh o nowMs) g).
Proof.
  intros <- (Ht & He & Hl). unfold reviewOne, entryFor. rewrite Ht. cbn [entries onEntry].
  rewrite list_lookup_alter_eq, He. split; [done |]. split_and!; cbn; [done | by rewrite list_lookup_alter_eq, He | done].
Qed.

(** The guard stopped the container, in the run that began at [run]. *)
Definition parked (id : jstring) (r : nat) (run : option jstring) (g : CrashLoopGuard) : Prop :=
  exists e, holding id r e [] g /\ stopped e = true /\ stoppedRun e = run /\ stopping e = false.

(** Not started again since: down, or still shown in the run that was stopped. *)
Definition resting (run : option jstring) (o : ServiceContainerObservation) : Prop :=
  dockerStatusOf o <> "running" /\ dockerStatusOf o <> "restarting" \/ startedAtOf o = run.

Definition rests (id : jstring) (run : option jstring) (e : guardEvent) : Prop :=
  match e with
  | Reviews obs _ => id ∈ map obsContainerId obs /\ Forall (fun o => obsContainerId o = id -> resting run o) obs
  | _ => True
  end.

Lemma refresh_resting o nowMs e :
  stopped e = true -> resting (stoppedRun e) o ->
  stopped (refresh o nowMs e) = true /\ stoppedRun (refresh o nowMs e) = stoppedRun e.
Proof.
  intros Hs Hr. unfold refresh. cbv zeta. set (e1 := if restartsOf o <? baseline e then _ else e).
  assert (stopped e1 = true /\ stoppedRun e1 = stoppedRun e) as [H1 H2] by (unfold e1; destruct (_ <? _); done).
  set (e2 := if decide _ then clearIfStartedAgain o e1 else e1).
  assert (stopped e2 = true /\ stoppedRun e2 = stoppedRun e) as [H3 H4].
  { unfold e2, clearIfStartedAgain. case_decide as Hst; [| done]. rewrite H1. cbn [negb orb]. destruct (stopping e1); [done |].
    rewrite decide_True; [done |]. rewrite H2. destruct Hr as [[? ?] | Hr]; [by destruct Hst | done]. }
  by rewrite H3, andb_false_r.
Qed.

Lemma parked_reviewOne owners id r run nowMs o g :
  wired owners g -> (obsContainerId o = id -> resting run o) -> parked id r run g ->
  parked id r run (reviewOne limit nowMs o g).2 /\
  (obsContainerId o = id -> crashStopped (reviewOne limit nowMs o g).1 = Some true).
Proof.
  intros Hs Hr (e & Hh & Hst & Hrun & Hsg). destruct (decide (obsContainerId o = id)) as [Eid |].
  - destruct (reviewOne_holding id r e [] nowMs o g Eid Hh) as [-> Hh']. subst run.
    destruct (refresh_resting o nowMs e Hst) as [E1 E2]; [auto |].
    unfold overLimit. rewrite E1, andb_false_r. cbn [andb fst snd]. split; [| done].
    exists (refresh o nowMs e). split_and!; try done. by rewrite refresh_stopping.
  - split; [| done]. exists e. split; [by apply (holding_other owners) | done].
Qed.

(** What a review makes of an observation while container [id] is stopped. *)
Definition reviewedAs (id : jstring) (o x : ServiceContainerObservation) : Prop :=
  (obsContainerId x = obsContainerId o /\ dockerStatusOf x = dockerStatusOf o /\ serviceId x = serviceId o) /\
  (obsContainerId o = id -> crashStopped x = Some true).

Lemma reviewOne_id nowMs o g :
  obsContainerId (reviewOne limit nowMs o g).1 = obsContainerId o /\
  dockerStatusOf (reviewOne limit nowMs o g).1 = dockerStatusOf o /\
  serviceId (reviewOne limit nowMs o g).1 = serviceId o.
Proof. unfold reviewOne. destruct (entryFor _ _ _ g). by destruct (entries _ !! _). Qed.

Lemma parked_reviewAll obs nowMs owners id r run g :
  wired owners g -> Forall (fun o => obsContainerId o = id -> resting run o) obs -> parked id r run g ->
  parked id r run (reviewAll limit nowMs obs g).2 /\ (exists owners', wired owners' (reviewAll limit nowMs obs g).2) /\
  Forall2 (reviewedAs id) obs (reviewAll limit nowMs obs g).1.
Proof.
  revert owners g. induction obs as [| o obs IH]; intros owners g Hs Hr Hp; cbn [reviewAll].
  { split_and!; [done | eauto | constructor]. }
  apply Forall_cons in Hr as [Ho Hr]. destruct (parked_reviewOne owners id r run nowMs o g Hs Ho Hp) as [Hp' Hc].
  destruct (wired_reviewOne owners nowMs o g Hs) as [ow Hs']. pose proof (reviewOne_id nowMs o g) as E1.
  destruct (reviewOne limit nowMs o g) as [o' g1]. cbn [fst snd] in *.
  destruct (IH ow g1 Hs' Hr Hp') as (? & ? & ?). destruct (reviewAll limit nowMs obs g1). cbn [fst snd] in *.
  split_and!; [done | done |]. by constructor.
Qed.

Lemma parked_review obs nowMs owners id r run g :
  wired owners g -> rests id run (Reviews obs nowMs) -> parked id r run g ->
  parked id r run (review limit obs nowMs g).2 /\ (exists owners', wired owners' (review limit obs nowMs g).2) /\
  Forall2 (reviewedAs id) obs (review limit obs nowMs g).1.
Proof.
  intros Hs [Hin Hr] (e & Hh & Hp). apply (parked_reviewAll obs nowMs owners); [by apply forget_sound | done |].
  exists e. split; [by apply holding_forget | done].
Qed.

Lemma insert_middle {A} (l1 : list A) x y l2 : <[length l1 := y]> (l1 ++ x :: l2) = l1 ++ y :: l2.
Proof. by rewrite insert_app_r_alt, Nat.sub_diag. Qed.

(** Filtering the stops of an entry, where one of them stands. *)
Lemma filter_split_other (r : nat) l1 s l2 :
  filter (fun s => stopEntry s = r) (l1 ++ s :: l2) = [] ->
  stopEntry s <> r /\ filter (fun s => stopEntry s = r) (l1 ++ l2) = [].
Proof.
  rewrite !filter_app. intros [E1 E2]%app_nil. rewrite filter_cons in E2. case_decide; [done |]. by rewrite E1, E2.
Qed.

Lemma filter_split_own l1 (s : stop) l2 :
  filter (fun x => stopEntry x = stopEntry s) (l1 ++ s :: l2) = [s] ->
  filter (fun x => stopEntry x = stopEntry s) l1 = [] /\ filter (fun x => stopEntry x = stopEntry s) l2 = [].
Proof.
  rewrite filter_app, filter_cons_True by done.
  destruct (filter (fun x => stopEntry x = stopEntry s) l1) as [| x l]; [by intros [= ->] |].
  cbn. intros [= _ E]. by destruct l.
Qed.

Lemma parked_settles i out id r run g : parked id r run g -> parked id r run (stopSettles i out g).
Proof.
  intros (e & (Ht & He & Hl) & Hp). unfold stopSettles. destruct (stops g !! i) as [s |] eqn:Es; [| by exists e].
  destruct (settled s); [by exists e |].
  apply list_elem_of_split_length in Es as (l1 & l2 & El & ->). rewrite El in Hl |- *.
  destruct (filter_split_other _ _ _ _ Hl) as [Hne Hl'].
  assert (Hf : filter (fun s => stopEntry s = r) (<[length l1 := settle s]> (l1 ++ s :: l2)) = []).
  { rewrite insert_middle, filter_app, filter_cons_False by done. rewrite <- filter_app. done. }
  exists e. destruct out; (split; [split_and!; cbn; [done | rewrite ?list_lookup_alter_ne by done; done | done] | done]).
Qed.

Lemma parked_ends i id r run g : parked id r run g -> parked id r run (stopEnds i g).
Proof.
  intros (e & (Ht & He & Hl) & Hp). unfold stopEnds. destruct (stops g !! i) as [s |] eqn:Es; [| by exists e].
  destruct (settled s); [| by exists e].
  apply list_elem_of_split_length in Es as (l1 & l2 & El & ->). rewrite El in Hl |- *.
  destruct (filter_split_other _ _ _ _ Hl) as [Hne Hl'].
  exists e. split; [split_and!; cbn; [done | rewrite ?list_lookup_alter_ne by done; done | by rewrite delete_middle] | done].
Qed.

Lemma parked_later later owners id r run g :
  wired owners g -> Forall (rests id run) later -> parked id r run g ->
  parked id r run (foldl (guardStep limit) g later) /\ exists owners', wired owners' (foldl (guardStep limit) g later).
Proof.
  revert owners g. induction later as [| ev later IH]; intros owners g Hs Hr Hp; [eauto |].
  apply Forall_cons in Hr as [Hev Hr]. cbn [foldl].
  destruct ev as [obs nowMs | i out | i]; cbn [guardStep].
  - destruct (parked_review obs nowMs owners id r run g Hs Hev Hp) as (? & [ow ?] & _). by apply (IH ow).
  - apply (IH owners); [by apply stopSettles_sound | done | by apply parked_settles].
  - apply (IH owners); [by apply stopEnds_sound | done | by apply parked_ends].
Qed.

(** The stop of the container under way succeeds. *)
Lemma stop_parks i s id e g :
  stops g !! i = Some s -> settled s = false -> holding id (stopEntry s) e [s] g ->
  parked id (stopEntry s) (stopRun s) (stopEnds i (stopSettles i (Ok tt) g)).
Proof.
  intros Es Hs (Ht & He & Hl). unfold stopSettles. rewrite Es, Hs.
  apply list_elem_of_split_length in Es as (l1 & l2 & El & ->). rewrite El in *.
  destruct (filter_split_own _ _ _ Hl) as [Hl1 Hl2]. unfold stopEnds. cbn [stops logLine onEntry setStops].
  rewrite insert_middle, list_lookup_middle by done. cbn [settled settle stopEntry].
  exists (setStopping false (setStopped true (stopRun s) e)). split; [| done]. split_and!; cbn.
  - done.
  - by rewrite !list_lookup_alter_eq, He.
  - rewrite delete_middle, filter_app. by rewrite Hl1, Hl2.
Qed.

(** A container over the limit gets its stop in a review that lists it once. *)
Lemma review_stops obs nowMs owners id r e o g :
  wired owners g -> NoDup (map obsContainerId obs) -> o ∈ obs -> obsContainerId o = id -> holding id r e [] g ->
  overLimit limit o (refresh o nowMs e) = true ->
  exists e' s, holding id r e' [s] (review limit obs nowMs g).2 /\
    s = {| stopEntry := r; stopId := id; stopRun := startedAtOf o; stopCount := restartsOf o; settled := false |}.
Proof.
  intros Hs Hnd Ho <- Hh Hover. pose proof Ho as Hin. apply list_elem_of_split in Ho as (a & b & ->).
  rewrite map_app in Hnd. cbn [map] in Hnd. apply NoDup_app in Hnd as (_ & Ha & [Hb _]%NoDup_cons).
  assert (Hna : obsContainerId o ∉ map obsContainerId a) by (intros Hx; apply (Ha _ Hx); by left).
  unfold review. set (g0 := forget _ g).
  assert (Hs0 : wired owners g0) by (by apply forget_sound).
  assert (Hh0 : holding (obsContainerId o) r e [] g0)
    by (apply holding_forget; [apply list_elem_of_In, in_map, list_elem_of_In, Hin | done]).
  clearbody g0. revert Hs0 Hh0. clear Ha Hin Hh Hs. revert owners g0.
  induction a as [| x a IH]; intros owners g0 Hs0 Hh0; cbn [app reviewAll].
  - destruct (reviewOne_holding _ r e [] nowMs o g0 eq_refl Hh0) as [E (Ht & He & Hl)]. rewrite Hover in E.
    destruct (wired_reviewOne owners nowMs o g0 Hs0) as [ow Hs1]. rewrite E in Hs1 |- *. cbn [snd] in Hs1.
    set (s := {| stopEntry := r; stopId := obsContainerId o; stopRun := startedAtOf o; stopCount := restartsOf o; settled := false |}).
    assert (Hh1 : holding (obsContainerId o) r (setStopping true (refresh o nowMs e)) [s]
                    (stopInBackground o r (restartsOf o) (onEntry r (refresh o nowMs) g0))).
    { split_and!; cbn; [done | |].
      - cbn in He. by rewrite list_lookup_alter_eq, He.
      - rewrite filter_app, filter_cons_True by done. cbn in Hl. rewrite Hl. done. }
    destruct (holding_others b nowMs ow _ _ _ _ _ Hs1 Hb Hh1) as [Hh2 _].
    destruct (reviewAll limit nowMs b _) as [rest g2]. eauto.
  - apply not_elem_of_cons in Hna as [Hne Hna].
    pose proof (holding_other owners _ r e [] nowMs x g0 Hs0 ltac:(done) Hh0) as Hh1.
    destruct (wired_reviewOne owners nowMs x g0 Hs0) as [ow Hs1]. destruct (reviewOne limit nowMs x g0) as [x' g1].
    cbn [snd] in *. specialize (IH Hna ow g1 Hs1 Hh1). by destruct (reviewAll limit nowMs (a ++ o :: b) g1).
Qed.
End parked.

(** A stopped container that is down shows it. *)
Lemma stopped_down `{JsDates} x t :
  crashStopped x = Some true -> dockerStatusOf x ∈ (["exited"; "dead"; "paused"] : list jstring) ->
  containerRunState x t = SvStoppedAfterCrashes.
Proof.
  intros Hcs Hdown. unfold containerRunState, downState. rewrite Hcs.
  apply elem_of_cons in Hdown as [E | [E | [E | []%not_elem_of_nil]%elem_of_cons]%elem_of_cons]; rewrite E; reflexivity.
Qed.

Section stopped_loops.
Context `{JsDates}.
Variable limit : Z.

End stopped_loops.

(** ** Witnesses *)

#[local] Instance isoDatesOnly : JsDates := {| otherDate := fun _ => None |}.

Definition looping (restarts : Z) : ServiceContainerObservation :=
  {| serviceId := "svc"; obsContainerId := "c1"; obsSummary := None;
     obsInspect := Some {| inspectId := "c1"; inspectName := "/web"; inspectImage := "sha256:1"; RestartCount := Some restarts;
       State := {| Status := "restarting"; ExitCode := 1; StartedAt := Some ("1970-01-01T00:00:05.000Z" : jstring);
                   FinishedAt := Some ("1970-01-01T00:00:06.000Z" : jstring); Health := None |};
       configImage := None; configLabels := None; networkPorts := None |};
     lastLogLine := None; crashStreak := None; crashStopped := None |}.


