(* ===== verification/MonDelta.v ===== *)
(** * Reporting changes ([monitor/delta.ts])

    The tracker remembers what the control plane confirmed and sends the
    difference.  Resources are compared by the JSON text of all fields but
    [updatedAt], in the order the objects were built ([normalizeContainer]). *)

From stdpp Require Import list.
From S2P Require Import Prelude Json Number JsonPrint Dates MonState.

#[local] Open Scope Z_scope.

Definition MONITOR_PROTOCOL_VERSION : Z := 1.

Record MonitorEvent := {
  eventKey : jstring; eventKind : MonitorResourceKind; fromStatus : option MonitorResourceStatus;
  toStatus : MonitorResourceStatus; eventAt : jstring; reason : jstring; eventSequence : Z
}.

Record ResourceDiff := { changed : list MonitorResourceState; events : list MonitorEvent }.

Inductive payload :=
| MonitorSyncPayload (at_ : jstring) (sequence : Z) (instance : jval) (resources : list MonitorResourceState) (protocolVersion : Z)
| MonitorHeartbeatPayload (at_ : jstring) (sequence : Z) (instance : jval)
    (resources : option (list MonitorResourceState)) (events : option (list MonitorEvent))
| MonitorTransitionPayload (at_ : jstring) (sequence : Z) (events : list MonitorEvent) (resources : list MonitorResourceState).

Record MonitorDeliveryBundle := { sent : payload; bundleSequence : Z; resourcesAfter : list MonitorResourceState }.

(** ** Comparing resources *)

Definition memberOpt (k : jstring) (v : option jval) : list (jstring * jval) := match v with Some x => [(k, x)] | None => [] end.

Definition resourceSnapshotForDiff (r : MonitorResourceState) : jval :=
  JObj ([("resourceKey" : jstring, JStr (resourceKey r)); ("kind" : jstring, JStr (resourceKindName (kind r)));
         ("status" : jstring, JStr (statusName (resourceStatus r)))]
        ++ memberOpt "containerId" (JStr <$> containerId r) ++ memberOpt "name" (JStr <$> name r)
        ++ memberOpt "image" (JStr <$> image r) ++ memberOpt "healthStatus" (JStr <$> healthStatus r)
        ++ memberOpt "restartCount" ((fun z => JNum (num_of_Z z)) <$> restartCount r)
        ++ memberOpt "ports" ((fun l => JArr (map JStr l)) <$> ports r)
        ++ memberOpt "labels" ((fun m => JObj (map (fun x => (x.1, JStr x.2)) m)) <$> labels r)
        ++ memberOpt "projectId" (JStr <$> projectId r) ++ memberOpt "serviceId" (JStr <$> resourceServiceId r)).

Section texts.
Context `{JsTables}.

Definition snapshotText (r : MonitorResourceState) : jstring := JSON_stringify (resourceSnapshotForDiff r).
Definition resourceMeaningfulFieldsChanged (previous next : MonitorResourceState) : bool :=
  negb (bool_decide (snapshotText previous = snapshotText next)).

Definition snapshotResources (resources : list MonitorResourceState) : jsmap MonitorResourceState :=
  foldl (fun m r => mapSet (resourceKey r) r m) [] resources.

Definition discovered (r : MonitorResourceState) (at_ : jstring) (sequence : Z) : MonitorEvent :=
  {| eventKey := resourceKey r; eventKind := kind r; fromStatus := None; toStatus := resourceStatus r; eventAt := at_;
     reason := "discovered"; eventSequence := sequence |}.
Definition status_change (previous r : MonitorResourceState) (at_ : jstring) (sequence : Z) : MonitorEvent :=
  {| eventKey := resourceKey r; eventKind := kind r; fromStatus := Some (resourceStatus previous);
     toStatus := resourceStatus r; eventAt := at_; reason := "status_change"; eventSequence := sequence |}.
Definition removed (key : jstring) (previous : MonitorResourceState) (at_ : jstring) (sequence : Z) : MonitorEvent :=
  {| eventKey := key; eventKind := kind previous; fromStatus := Some (resourceStatus previous); toStatus := Offline;
     eventAt := at_; reason := "removed"; eventSequence := sequence |}.
(** [{ ...previous, status: "offline", updatedAt: at }] *)
Definition offlineResource (previous : MonitorResourceState) (at_ : jstring) : MonitorResourceState :=
  {| resourceKey := resourceKey previous; kind := kind previous; resourceStatus := Offline; name := name previous;
     image := image previous; healthStatus := healthStatus previous; restartCount := restartCount previous;
     ports := ports previous; labels := labels previous; projectId := projectId previous;
     resourceServiceId := resourceServiceId previous; containerId := containerId previous; updatedAt := Some at_ |}.

Definition statusChanged (previous r : MonitorResourceState) : bool :=
  negb (bool_decide (resourceStatus previous = resourceStatus r)).

(** One resource of the new list, and one of the old map. *)
Definition diffNext (prev : jsmap MonitorResourceState) (sequence : Z) (at_ : jstring) (d : ResourceDiff) (r : MonitorResourceState)
    : ResourceDiff :=
  match mapGet prev (resourceKey r) with
  | None => {| changed := changed d ++ [r]; events := events d ++ [discovered r at_ sequence] |}
  | Some previous =>
      {| changed := changed d ++ (if statusChanged previous r || resourceMeaningfulFieldsChanged previous r then [r] else []);
         events := events d ++ (if statusChanged previous r then [status_change previous r at_ sequence] else []) |}
  end.
Definition diffGone (next : list MonitorResourceState) (sequence : Z) (at_ : jstring) (d : ResourceDiff)
    (x : jstring * MonitorResourceState) : ResourceDiff :=
  if existsb (fun r => bool_decide (resourceKey r = x.1)) next then d
  else {| changed := changed d ++ [offlineResource x.2 at_]; events := events d ++ [removed x.1 x.2 at_ sequence] |}.

Definition diffResources (prev : jsmap MonitorResourceState) (next : list MonitorResourceState) (sequence : Z) (at_ : jstring)
    : ResourceDiff :=
  let d := foldl (diffNext prev sequence at_) {| changed := []; events := [] |} next in
  foldl (diffGone next sequence at_) d prev.

(** ** The tracker *)

Record tracker := {
  sequence : Z; deliveredSequence : Z; deliveredBaseline : jsmap MonitorResourceState;
  pendingDeliveries : list (Z * jsmap MonitorResourceState)
}.
Definition createMonitorDeltaTracker : tracker :=
  {| sequence := 0; deliveredSequence := 0; deliveredBaseline := []; pendingDeliveries := [] |}.

Definition seedTracked (resources : list MonitorResourceState) (t : tracker) : tracker :=
  {| sequence := 0; deliveredSequence := 0; deliveredBaseline := snapshotResources resources; pendingDeliveries := [] |}.

(** The pending delivery with the highest number up to the accepted one; [-1] when there is none. *)
Definition confirmed (accepted : Z) (pending : list (Z * jsmap MonitorResourceState)) : Z * option (jsmap MonitorResourceState) :=
  foldl (fun acc p => if (p.1 <=? accepted) && (acc.1 <? p.1) then (p.1, Some p.2) else acc) (-1, None) pending.

Definition applyAck (accepted : Z) (t : tracker) : tracker :=
  if accepted <=? deliveredSequence t then t
  else
    let '(confirmedSequence, snapshot) := confirmed accepted (pendingDeliveries t) in
    if confirmedSequence <=? deliveredSequence t then t
    else {| sequence := sequence t; deliveredSequence := confirmedSequence;
            deliveredBaseline := match snapshot with
                                 | Some m => foldl (fun b x => mapSet x.1 x.2 b) [] m
                                 | None => deliveredBaseline t
                                 end;
            pendingDeliveries := filter (fun p : Z * jsmap MonitorResourceState => confirmedSequence < p.1) (pendingDeliveries t) |}.

(** [Map.set] on the pending deliveries. *)
Fixpoint setPending (n : Z) (m : jsmap MonitorResourceState) (l : list (Z * jsmap MonitorResourceState))
    : list (Z * jsmap MonitorResourceState) :=
  match l with
  | [] => [(n, m)]
  | p :: l' => if p.1 =? n then (n, m) :: l' else p :: setPending n m l'
  end.

Definition registerPendingDelivery (n : Z) (after : list MonitorResourceState) (t : tracker) : tracker :=
  {| sequence := Z.max (sequence t) n; deliveredSequence := deliveredSequence t; deliveredBaseline := deliveredBaseline t;
     pendingDeliveries := setPending n (snapshotResources after) (pendingDeliveries t) |}.

Definition confirmDelivery (n : Z) (after : list MonitorResourceState) (t : tracker) : tracker :=
  applyAck n (registerPendingDelivery n after t).

(** ** Building messages at a time *)

Definition buildSync (now : Z) (instance : jval) (resources : list MonitorResourceState) (t : tracker) : MonitorDeliveryBundle :=
  {| bundleSequence := sequence t + 1; resourcesAfter := resources;
     sent := MonitorSyncPayload (toISOString now) (sequence t + 1) instance resources MONITOR_PROTOCOL_VERSION |}.

Definition nonEmpty {A} (l : list A) : option (list A) := match l with [] => None | _ => Some l end.

Definition buildHeartbeat (now : Z) (instance : jval) (resources : list MonitorResourceState) (t : tracker) : MonitorDeliveryBundle :=
  let d := diffResources (deliveredBaseline t) resources (sequence t + 1) (toISOString now) in
  {| bundleSequence := sequence t + 1; resourcesAfter := resources;
     sent := MonitorHeartbeatPayload (toISOString now) (sequence t + 1) instance (nonEmpty (changed d)) (nonEmpty (events d)) |}.

Definition previewTransitionEvents (key : jstring) (next : MonitorResourceState) (at_ : jstring) (n : Z) (t : tracker) : list MonitorEvent :=
  match mapGet (deliveredBaseline t) key with
  | None => [discovered next at_ n]
  | Some previous => if decide (resourceStatus previous = resourceStatus next) then [] else [status_change previous next at_ n]
  end.

Definition buildTransition (now : Z) (key : jstring) (next : MonitorResourceState) (after : list MonitorResourceState) (t : tracker)
    : option MonitorDeliveryBundle :=
  match previewTransitionEvents key next (toISOString now) (sequence t + 1) t with
  | [] => None
  | evs =>
      Some {| bundleSequence := sequence t + 1; resourcesAfter := after;
              sent := MonitorTransitionPayload (toISOString now) (sequence t + 1) evs [next] |}
  end.

Definition buildRemovalTransition (now : Z) (key : jstring) (previous : MonitorResourceState) (after : list MonitorResourceState)
    (t : tracker) : MonitorDeliveryBundle :=
  {| bundleSequence := sequence t + 1; resourcesAfter := after;
     sent := MonitorTransitionPayload (toISOString now) (sequence t + 1)
               [removed key previous (toISOString now) (sequence t + 1)] [offlineResource previous (toISOString now)] |}.
End texts.

(** ** The control plane's picture *)

Section mirror.
Context `{JsTables}.

(** What the control plane shows when it takes over the resources it is sent; a sync is a fresh start. *)
Definition received (p : payload) (m : jsmap MonitorResourceState) : jsmap MonitorResourceState :=
  let put := foldl (fun m r => mapSet (resourceKey r) r m) in
  match p with
  | MonitorSyncPayload _ _ _ resources _ => put [] resources
  | MonitorHeartbeatPayload _ _ _ resources _ => put m (default [] resources)
  | MonitorTransitionPayload _ _ _ resources => put m resources
  end.

(** Equal up to [updatedAt], as far as the comparison can tell. *)
Definition same (a b : MonitorResourceState) : Prop :=
  resourceStatus a = resourceStatus b /\ snapshotText a = snapshotText b.

Definition shows (m : jsmap MonitorResourceState) (resources : list MonitorResourceState) : Prop :=
  forall k, match mapGet (snapshotResources resources) k with
       | Some r => exists x, mapGet m k = Some x /\ same x r
       | None => forall x, mapGet m k = Some x -> resourceStatus x = Offline
       end.

(** A heartbeat that arrives and is confirmed before the next, or is lost. *)
Record beat := { beatResources : list MonitorResourceState; beatTime : Z; arrives : bool }.
Definition beatStep (instance : jval) (st : tracker * jsmap MonitorResourceState) (b : beat) : tracker * jsmap MonitorResourceState :=
  let '(t, m) := st in
  let bundle := buildHeartbeat (beatTime b) instance (beatResources b) t in
  let t1 := registerPendingDelivery (bundleSequence bundle) (resourcesAfter bundle) t in
  if arrives b then (applyAck (bundleSequence bundle) t1, received (sent bundle) m) else (t1, m).

(** A connection: the tracker is seeded, a sync arrives and is confirmed. *)
Definition connected (seed resources : list MonitorResourceState) (now : Z) (instance : jval) (t : tracker)
    : tracker * jsmap MonitorResourceState :=
  let t0 := seedTracked seed t in
  let bundle := buildSync now instance resources t0 in
  (confirmDelivery (bundleSequence bundle) (resourcesAfter bundle) t0, received (sent bundle) []).

Definition lastArrived (resources : list MonitorResourceState) (beats : list beat) : list MonitorResourceState :=
  default resources (last (map beatResources (filter (fun b => arrives b = true) beats))).

(** *** Maps written by a loop *)

Lemma mapSets_get {A} (key : A -> jstring) (l : list A) (m : jsmap A) k :
  NoDup (map key l) ->
  mapGet (foldl (fun m x => mapSet (key x) x m) m l) k
  = match head (filter (fun x => key x = k) l) with Some x => Some x | None => mapGet m k end.
Proof.
  revert m. induction l as [| x l IH]; intros m; [done |]. cbn [map foldl]. intros [Hx Hnd]%NoDup_cons.
  rewrite IH by done. rewrite filter_cons. destruct (decide (key x = k)) as [<- | Hne]; [| by rewrite mapGet_set_ne].
  rewrite filter_none, mapGet_set; [done |]. apply Forall_forall. intros y Hy E. apply Hx. rewrite <- E.
  apply list_elem_of_In, in_map, list_elem_of_In, Hy.
Qed.

Lemma head_filter_key {A} (key : A -> jstring) (l : list A) x :
  NoDup (map key l) -> x ∈ l -> head (filter (fun y => key y = key x) l) = Some x.
Proof.
  induction l as [| y l IH]; [by intros _ ?%not_elem_of_nil |]. cbn [map]. intros [Hy Hnd]%NoDup_cons [-> | Hx]%elem_of_cons.
  - by rewrite filter_cons_True.
  - rewrite filter_cons_False; [by apply IH |]. intros E. apply Hy. rewrite E. apply list_elem_of_In, in_map, list_elem_of_In, Hx.
Qed.

Lemma head_filter_Some {A} (key : A -> jstring) (l : list A) k x :
  head (filter (fun y => key y = k) l) = Some x -> key x = k /\ x ∈ l.
Proof. intros E. by apply head_Some_elem_of, list_elem_of_filter in E. Qed.

Definition keyed (m : jsmap MonitorResourceState) : Prop :=
  NoDup (map fst m) /\ Forall (fun x => resourceKey x.2 = x.1) m.

Lemma keyed_set r m : keyed m -> keyed (mapSet (resourceKey r) r m).
Proof.
  intros [Hnd Hf]. split; [by apply mapSet_keys_NoDup |]. clear Hnd.
  induction m as [| [k v] m IH]; cbn [mapSet]; [by constructor |]. apply Forall_cons in Hf as [Hk Hf].
  case_decide; constructor; auto.
Qed.

Lemma snapshot_keyed resources : keyed (snapshotResources resources).
Proof.
  unfold snapshotResources. assert (Hk : keyed []) by (split; constructor). revert Hk. generalize (@nil (jstring * MonitorResourceState)).
  induction resources as [| r l IH]; intros m Hm; [done |]. cbn. by apply IH, keyed_set.
Qed.

Lemma refold (m : jsmap MonitorResourceState) : NoDup (map fst m) -> foldl (fun b x => mapSet x.1 x.2 b) [] m = m.
Proof.
  induction m as [| [k v] m IH] using rev_ind; [done |]. rewrite map_app. intros (Hnd & Hk & _)%NoDup_app.
  rewrite foldl_app, IH by done. cbn [foldl fst snd]. apply mapSet_fresh. intros Hin. apply (Hk _ Hin). by left.
Qed.

(** *** What a heartbeat carries *)

Definition differs (prev : jsmap MonitorResourceState) (r : MonitorResourceState) : bool :=
  match mapGet prev (resourceKey r) with
  | None => true
  | Some previous => statusChanged previous r || resourceMeaningfulFieldsChanged previous r
  end.
Definition gone (next : list MonitorResourceState) (x : jstring * MonitorResourceState) : bool :=
  negb (existsb (fun r => bool_decide (resourceKey r = x.1)) next).

Lemma diff_changed prev next n at_ :
  changed (diffResources prev next n at_)
  = filter (fun r => differs prev r = true) next
    ++ map (fun x => offlineResource x.2 at_) (filter (fun x => gone next x = true) prev).
Proof.
  unfold diffResources.
  assert (Hgone : forall l d, changed (foldl (diffGone next n at_) d l)
            = changed d ++ map (fun x => offlineResource x.2 at_) (filter (fun x => gone next x = true) l)).
  { induction l as [| x l IH]; intros d; cbn [foldl]; [by rewrite app_nil_r |]. rewrite IH, filter_cons. unfold diffGone, gone.
    destruct (existsb _ next); cbn [negb]; [done |]. cbn [changed]. by rewrite <- app_assoc. }
  assert (Hnext : forall l d, changed (foldl (diffNext prev n at_) d l) = changed d ++ filter (fun r => differs prev r = true) l).
  { induction l as [| r l IH]; intros d; cbn [foldl]; [by rewrite app_nil_r |]. rewrite IH, filter_cons. unfold diffNext, differs.
    destruct (mapGet prev (resourceKey r)); cbn [changed]; rewrite <- app_assoc; [| done].
    by destruct (_ || _). }
  rewrite Hgone, Hnext. done.
Qed.

Lemma gone_spec next k b : gone next (k, b) = true <-> k ∉ map resourceKey next.
Proof.
  unfold gone. rewrite negb_true_iff, existsb_false_iff, Forall_forall. cbn [fst]. split.
  - intros Hall Hin. apply list_elem_of_In, in_map_iff in Hin as (r & E & Hr%list_elem_of_In).
    specialize (Hall r Hr). apply bool_decide_eq_false in Hall. done.
  - intros Hn r Hr. apply bool_decide_eq_false. intros <-. apply Hn, list_elem_of_In, in_map, list_elem_of_In, Hr.
Qed.

Lemma offline_key b at_ : resourceKey (offlineResource b at_) = resourceKey b.
Proof. done. Qed.

Lemma gone_keys prev next at_ :
  keyed prev ->
  map resourceKey (map (fun x => offlineResource x.2 at_) (filter (fun x => gone next x = true) prev))
  = map fst (filter (fun x => gone next x = true) prev).
Proof.
  intros [_ Hk]. rewrite map_map. apply map_ext_in. intros x Hx%list_elem_of_In. apply list_elem_of_filter in Hx as [_ Hx].
  rewrite offline_key. rewrite Forall_forall in Hk. by apply Hk.
Qed.

Lemma diff_keys prev next n at_ :
  keyed prev -> NoDup (map resourceKey next) -> NoDup (map resourceKey (changed (diffResources prev next n at_))).
Proof.
  intros Hk Hnd. rewrite diff_changed, map_app, gone_keys by done. apply NoDup_app. split_and!.
  - eapply sublist_NoDup; [exact Hnd |]. apply (fmap_sublist resourceKey), sublist_filter.
  - intros k Hk1 Hk2. apply list_elem_of_In, in_map_iff in Hk2 as ([k' b] & E & Hb%list_elem_of_In). cbn in E. subst k'.
    apply list_elem_of_filter in Hb as [Hg _]. apply gone_spec in Hg. apply Hg.
    apply list_elem_of_In, in_map_iff in Hk1 as (r & <- & Hr%list_elem_of_In). apply list_elem_of_filter in Hr as [_ Hr].
    apply list_elem_of_In, in_map, list_elem_of_In, Hr.
  - apply filter_keys_NoDup. by destruct Hk.
Qed.

(** The resource a heartbeat carries for a key. *)
Definition carried (l : list MonitorResourceState) (k : jstring) : option MonitorResourceState :=
  head (filter (fun x => resourceKey x = k) l).

Lemma carried_next prev next n at_ r :
  keyed prev -> NoDup (map resourceKey next) -> r ∈ next ->
  carried (changed (diffResources prev next n at_)) (resourceKey r) = if differs prev r then Some r else None.
Proof.
  intros Hk Hnd Hr. pose proof (diff_keys prev next n at_ Hk Hnd) as Hdk. destruct (differs prev r) eqn:Ed.
  - apply head_filter_key; [done |]. rewrite diff_changed. apply elem_of_app. left. by apply list_elem_of_filter.
  - destruct (carried _ _) as [y |] eqn:Ey; [| done]. exfalso. apply head_filter_Some in Ey as [Ey Hy].
    rewrite diff_changed in Hy. apply elem_of_app in Hy as [[Hd Hy]%list_elem_of_filter | Hy].
    + pose proof (head_filter_key resourceKey next r Hnd Hr) as H1. pose proof (head_filter_key resourceKey next y Hnd Hy) as H2.
      rewrite Ey in H2. congruence.
    + apply list_elem_of_In, in_map_iff in Hy as ([k' b] & <- & [Hg Hb]%list_elem_of_In%list_elem_of_filter).
      apply gone_spec in Hg. apply Hg. destruct Hk as [_ Hk]. rewrite Forall_forall in Hk. specialize (Hk _ Hb).
      cbn in Hk, Ey. rewrite <- Hk, Ey. apply list_elem_of_In, in_map, list_elem_of_In, Hr.
Qed.

Lemma carried_gone prev next n at_ k :
  keyed prev -> NoDup (map resourceKey next) -> k ∉ map resourceKey next ->
  carried (changed (diffResources prev next n at_)) k = (fun b => offlineResource b at_) <$> mapGet prev k.
Proof.
  intros Hk Hnd Hn. pose proof (diff_keys prev next n at_ Hk Hnd) as Hdk. destruct Hk as [Hnk Hk]. rewrite Forall_forall in Hk.
  destruct (mapGet prev k) as [b |] eqn:Eb.
  - apply mapGet_elem in Eb; [| done]. pose proof (Hk _ Eb) as Ekb. cbn in Ekb |- *. rewrite <- Ekb at 1.
    apply (head_filter_key resourceKey _ (offlineResource b at_)); [done |]. rewrite diff_changed. apply elem_of_app. right.
    apply list_elem_of_In, in_map_iff. exists (k, b). split; [done |]. apply list_elem_of_In, list_elem_of_filter.
    split; [by apply gone_spec | done].
  - destruct (carried _ _) as [y |] eqn:Ey; [| done]. exfalso. apply head_filter_Some in Ey as [Ey Hy].
    rewrite diff_changed in Hy. apply elem_of_app in Hy as [[_ Hy]%list_elem_of_filter | Hy].
    + apply Hn. subst k. apply list_elem_of_In, in_map, list_elem_of_In, Hy.
    + apply list_elem_of_In, in_map_iff in Hy as ([k' b] & <- & [_ Hb]%list_elem_of_In%list_elem_of_filter).
      pose proof (Hk _ Hb) as Ekb. cbn in Ekb, Ey. apply mapGet_elem in Hb; [| done]. congruence.
Qed.

(** The picture after a heartbeat that arrives. *)
Lemma heartbeat_shows next n at_ m old :
  NoDup (map resourceKey next) -> shows m old ->
  shows (foldl (fun m r => mapSet (resourceKey r) r m) m (changed (diffResources (snapshotResources old) next n at_))) next.
Proof.
  intros Hnd Hm k. pose proof (snapshot_keyed old) as Hk. rewrite mapSets_get by (by apply diff_keys).
  unfold snapshotResources at 1. rewrite mapSets_get by done. cbn [mapGet]. specialize (Hm k).
  change (head (filter _ (changed ?d))) with (carried (changed d) k).
  destruct (head (filter (fun x => resourceKey x = k) next)) as [r |] eqn:Er.
  - apply head_filter_Some in Er as [<- Hr]. rewrite carried_next by done.
    unfold differs. destruct (mapGet (snapshotResources old) (resourceKey r)) as [b |]; [| by exists r].
    destruct (statusChanged b r || resourceMeaningfulFieldsChanged b r) eqn:Ed; [by exists r |].
    destruct Hm as (x & Ex & E1 & E2). exists x. split; [done |]. apply orb_false_iff in Ed as [Ed1 Ed2].
    apply negb_false_iff, bool_decide_eq_true in Ed1, Ed2. split; congruence.
  - rewrite carried_gone; [| done | done |].
    + destruct (mapGet (snapshotResources old) k) as [b |]; [by intros x [= <-] | done].
    + intros Hin. apply list_elem_of_In, in_map_iff in Hin as (r & <- & Hr%list_elem_of_In). by rewrite head_filter_key in Er.
Qed.

(** *** Confirming *)

Lemma confirmed_last n m l :
  0 <= n -> Forall (fun p => p.1 < n) l -> confirmed n (setPending n m l) = (n, Some m).
Proof.
  intros Hn Hl.
  assert (Hs : setPending n m l = l ++ [(n, m)]).
  { induction l as [| p l IH]; [done |]. apply Forall_cons in Hl as [Hp Hl]. cbn [setPending].
    destruct (Z.eqb_spec p.1 n); [lia |]. by rewrite IH. }
  rewrite Hs. unfold confirmed. rewrite foldl_app. cbn [foldl fst].
  enough (Hlt : forall acc, acc.1 < n -> (foldl (fun acc p => if (p.1 <=? n) && (acc.1 <? p.1) then (p.1, Some p.2) else acc) acc l).1 < n).
  { specialize (Hlt (-1, None) ltac:(cbn; lia)). destruct (foldl _ _ l) as [c o]. cbn [fst snd] in *.
    destruct (Z.leb_spec n n), (Z.ltb_spec c n); cbn; lia || done. }
  clear Hs. induction l as [| p l IH]; intros acc Ha; [done |]. apply Forall_cons in Hl as [Hp Hl]. cbn [foldl]. apply IH; [done |].
  by destruct (_ && _).
Qed.

Lemma nonEmpty_default {A} (l : list A) : default [] (nonEmpty l) = l.
Proof. by destruct l. Qed.

(** The numbers in a tracker, and that its baseline is [old]'s. *)
Definition at_rest (t : tracker) (old : list MonitorResourceState) : Prop :=
  deliveredBaseline t = snapshotResources old /\ 0 <= deliveredSequence t <= sequence t /\
  Forall (fun p => p.1 <= sequence t) (pendingDeliveries t).

Lemma registered_rest t n after old :
  at_rest t old -> sequence t < n -> at_rest (registerPendingDelivery n after t) old.
Proof.
  intros (Hb & Hd & Hp) Hn. split_and!; cbn; [done | lia | lia |]. rewrite Z.max_r by lia.
  induction (pendingDeliveries t) as [| p l IH]; cbn [setPending]; [by constructor |]. apply Forall_cons in Hp as [Hp Hl].
  destruct (p.1 =? n); constructor; cbn; try lia; [| auto]. eapply Forall_impl; [exact Hl |]. cbn. lia.
Qed.

Lemma acked_rest t n after old :
  at_rest t old -> sequence t < n -> at_rest (applyAck n (registerPendingDelivery n after t)) after.
Proof.
  intros (Hb & Hd & Hp) Hn. unfold applyAck. cbn [deliveredSequence registerPendingDelivery pendingDeliveries sequence].
  destruct (Z.leb_spec n (deliveredSequence t)); [lia |].
  rewrite confirmed_last; [| lia | eapply Forall_impl; [exact Hp |]; cbn; lia].
  destruct (Z.leb_spec n (deliveredSequence t)); [lia |]. destruct (snapshot_keyed after) as [Hnd _].
  split_and!; cbn; [by apply refold | lia | lia |].
  apply Forall_forall. intros p Hin. apply list_elem_of_filter in Hin as [Hlt Hin].
  destruct (registered_rest t n after old) as (_ & _ & Hall); [done | done |]. rewrite Forall_forall in Hall. by apply Hall.
Qed.

(** C31. After a connection's sync and any row of heartbeats, each delivered and
    confirmed before the next or lost, the control plane shows every resource of
    the last list that arrived as it is there, up to [updatedAt], and shows
    everything else it ever heard of as offline. *)
Theorem heartbeats_keep_mirror instance t seed resources now beats
    (Hnd : NoDup (map resourceKey resources)) (Hbeats : Forall (fun b => NoDup (map resourceKey (beatResources b))) beats) :
  shows (foldl (beatStep instance) (connected seed resources now instance t) beats).2 (lastArrived resources beats).
Proof.
  enough (shows (foldl (beatStep instance) (connected seed resources now instance t) beats).2 (lastArrived resources beats) /\
          at_rest (foldl (beatStep instance) (connected seed resources now instance t) beats).1 (lastArrived resources beats)) by tauto.
  induction beats as [| b beats IH] using rev_ind.
  - split; cbn [foldl connected fst snd].
    + intros k. unfold lastArrived. cbn. destruct (mapGet (snapshotResources resources) k) as [r |] eqn:E;
        change (foldl _ [] resources) with (snapshotResources resources); rewrite E; [by exists r | done].
    + apply (acked_rest _ _ _ seed); cbn; [| lia]. split_and!; [done | done | done | constructor].
  - apply Forall_app in Hbeats as [Hbs [Hb _]%Forall_cons]. destruct (IH Hbs) as [Hm Hr]. rewrite foldl_app. cbn [foldl].
    destruct (foldl (beatStep instance) _ beats) as [t' m]. cbn [fst snd] in *.
    unfold beatStep, lastArrived in *. rewrite filter_app, map_app.
    destruct (arrives b) eqn:Ea.
    + rewrite filter_cons_True, last_app by done. cbn [map last filter default fst snd]. cbn [received sent buildHeartbeat].
      pose proof Hr as (Hbase & _). rewrite Hbase. split.
      * rewrite nonEmpty_default. by apply heartbeat_shows.
      * apply (acked_rest _ _ _ (default resources (last (map beatResources (filter (fun b => arrives b = true) beats))))); [done | cbn; lia].
    + rewrite filter_cons_False by congruence. cbn [map filter]. rewrite app_nil_r. split; [done |].
      apply registered_rest; [done | cbn; lia].
Qed.
End mirror.

(** ** Witness and counterexamples *)

#[local] Instance plainTables : JsTables := integerTables.

Definition containerNamed (key : jstring) (s : MonitorResourceStatus) (restarts : Z) : MonitorResourceState :=
  {| resourceKey := key; kind := ContainerResource; resourceStatus := s; name := None; image := None; healthStatus := None;
     restartCount := Some restarts; ports := None; labels := None; projectId := None; resourceServiceId := None;
     containerId := Some key; updatedAt := None |}.
Definition beginning : list MonitorResourceState := [containerNamed "a" Healthy 0; containerNamed "b" Healthy 0].
Definition afterwards : list MonitorResourceState := [containerNamed "a" Failed 0; containerNamed "b" Healthy 1].

Lemma heartbeats_keep_mirror_witness :
  shows (foldl (beatStep JNull) (connected [] beginning 0 JNull createMonitorDeltaTracker)
           [{| beatResources := afterwards; beatTime := 1000; arrives := false |};
            {| beatResources := [containerNamed "b" Healthy 2]; beatTime := 2000; arrives := true |}]).2
        [containerNamed "b" Healthy 2].
Proof.
  apply (heartbeats_keep_mirror JNull createMonitorDeltaTracker [] beginning 0
    [{| beatResources := afterwards; beatTime := 1000; arrives := false |};
     {| beatResources := [containerNamed "b" Healthy 2]; beatTime := 2000; arrives := true |}]).
  - apply (bool_decide_eq_true_1 _). vm_compute. reflexivity.
  - repeat constructor; apply (bool_decide_eq_true_1 _); vm_compute; reflexivity.
Defined.

Lemma shows_not m l k x r :
  mapGet (snapshotResources l) k = Some r -> mapGet m k = Some x -> snapshotText x <> snapshotText r -> ~ shows m l.
Proof. intros Er Ex Hne Hs. specialize (Hs k). rewrite Er in Hs. destruct Hs as (y & Ey & _ & Et). congruence. Qed.

(** Confirming a transition makes all resources at that time the baseline, though it
    carried one of them: container [b]'s new restart count is never sent, and
    the next heartbeat carries nothing. *)
Theorem transition_hides_other_changes :
  let '(t, m) := connected [] beginning 0 JNull createMonitorDeltaTracker in
  exists bundle, buildTransition 1000 "a" (containerNamed "a" Failed 0) afterwards t = Some bundle /\
    let t' := confirmDelivery (bundleSequence bundle) (resourcesAfter bundle) t in
    let m' := received (sent bundle) m in
    received (sent (buildHeartbeat 2000 JNull afterwards t')) m' = m' /\ ~ shows m' afterwards.
Proof.
  cbv zeta. eexists. split; [reflexivity |]. split; [vm_compute; reflexivity |].
  apply (shows_not _ _ "b" (containerNamed "b" Healthy 0) (containerNamed "b" Healthy 1)); [reflexivity | reflexivity |].
  vm_compute. discriminate.
Qed.

(** Two heartbeats under way: a change that is undone before the first is confirmed
    stays shown, and later heartbeats carry nothing. *)
Theorem overlapping_heartbeats_leave_stale :
  let '(t, m) := connected [] beginning 0 JNull createMonitorDeltaTracker in
  let first := buildHeartbeat 1000 JNull afterwards t in
  let t1 := registerPendingDelivery (bundleSequence first) (resourcesAfter first) t in
  let second := buildHeartbeat 2000 JNull beginning t1 in
  let t2 := registerPendingDelivery (bundleSequence second) (resourcesAfter second) t1 in
  let m' := received (sent second) (received (sent first) m) in
  let t3 := applyAck (bundleSequence second) (applyAck (bundleSequence first) t2) in
  received (sent (buildHeartbeat 3000 JNull beginning t3)) m' = m' /\ ~ shows m' beginning.
Proof.
  cbv zeta. split; [vm_compute; reflexivity |].
  apply (shows_not _ _ "a" (containerNamed "a" Failed 0) (containerNamed "a" Healthy 0)); [reflexivity | reflexivity |].
  vm_compute. discriminate.
Qed.
