(* ===== verification/MonDocker.v ===== *)
(** * Watching the engine ([docker/monitor.ts])

    The monitor lists and inspects containers on a timer and follows the event
    stream.  Everything it awaits (a listing, an inspection, a delay, the next
    event) is a task; a step gives one task its answer and runs the code up to
    its next await, so every interleaving is a list of steps.  What engine
    calls throw is the chain of messages of the error and its causes. *)

From stdpp Require Import list.
From S2P Require Import Prelude Json Dates MonState.

#[local] Open Scope Z_scope.

Record DockerMonitorChange := {
  changeId : jstring; changeSummary : option ContainerSummary; changeInspect : option ContainerInspect;
  changeEvent : option DockerEvent; changeRemoved : bool
}.

(** ** Errors *)

(** The messages of an error and its causes, as long as these are errors. *)
Definition error_chain := list jstring.

Definition isContainerNotFound (err : error_chain) : bool :=
  match err with message :: _ => includes "HTTP 404" message | [] => false end.

Definition DOCKER_UNAVAILABLE_PATTERNS : list jstring :=
  ["No such file or directory" : jstring; "os error 2" : jstring; "Connection refused" : jstring;
   "os error 111" : jstring; "client error (Connect)" : jstring].
Definition MAX_CAUSE_DEPTH : nat := 5.
Definition isDockerUnavailable (err : error_chain) : bool :=
  existsb (fun message => existsb (fun pattern => includes pattern message) DOCKER_UNAVAILABLE_PATTERNS) (take MAX_CAUSE_DEPTH err).

Definition isContainerDestroyEvent (e : DockerEvent) : bool :=
  bool_decide (Action e = Some ("destroy" : jstring) \/ Action e = Some ("remove" : jstring)).

Definition MAX_IDLE_BACKOFF_MS : Z := 300000.

(** ** State *)

Inductive monitor_log :=
| LogReachable
| LogUnavailable (reason : jstring)
| LogFailed (what : jstring) (err : error_chain).

Record DockerMonitor := {
  containers : list ContainerSummary; inspects : jsmap ContainerInspect;
  eventsBackoffMs : Z; reconcileBackoffMs : Z; pollBackoffMs : Z; usingPollFallback : bool;
  dockerReachable : option bool; ready : bool; aborted : bool;
  changes : list DockerMonitorChange; reachability : list bool; lines : list monitor_log
}.

Section monitor.
Variables (pollIntervalMs reconcileIntervalMs : Z).

Definition newDockerMonitor : DockerMonitor :=
  {| containers := []; inspects := []; eventsBackoffMs := 1000; reconcileBackoffMs := reconcileIntervalMs;
     pollBackoffMs := pollIntervalMs; usingPollFallback := false; dockerReachable := None; ready := false;
     aborted := false; changes := []; reachability := []; lines := [] |}.

Definition setContainers l s := {| containers := l; inspects := inspects s; eventsBackoffMs := eventsBackoffMs s;
  reconcileBackoffMs := reconcileBackoffMs s; pollBackoffMs := pollBackoffMs s; usingPollFallback := usingPollFallback s;
  dockerReachable := dockerReachable s; ready := ready s; aborted := aborted s; changes := changes s;
  reachability := reachability s; lines := lines s |}.
Definition setInspects m s := {| containers := containers s; inspects := m; eventsBackoffMs := eventsBackoffMs s;
  reconcileBackoffMs := reconcileBackoffMs s; pollBackoffMs := pollBackoffMs s; usingPollFallback := usingPollFallback s;
  dockerReachable := dockerReachable s; ready := ready s; aborted := aborted s; changes := changes s;
  reachability := reachability s; lines := lines s |}.
Definition setBackoffs ev rec poll s := {| containers := containers s; inspects := inspects s; eventsBackoffMs := ev;
  reconcileBackoffMs := rec; pollBackoffMs := poll; usingPollFallback := usingPollFallback s;
  dockerReachable := dockerReachable s; ready := ready s; aborted := aborted s; changes := changes s;
  reachability := reachability s; lines := lines s |}.
Definition setFallback b s := {| containers := containers s; inspects := inspects s; eventsBackoffMs := eventsBackoffMs s;
  reconcileBackoffMs := reconcileBackoffMs s; pollBackoffMs := pollBackoffMs s; usingPollFallback := b;
  dockerReachable := dockerReachable s; ready := ready s; aborted := aborted s; changes := changes s;
  reachability := reachability s; lines := lines s |}.
Definition setReachable b s := {| containers := containers s; inspects := inspects s; eventsBackoffMs := eventsBackoffMs s;
  reconcileBackoffMs := reconcileBackoffMs s; pollBackoffMs := pollBackoffMs s; usingPollFallback := usingPollFallback s;
  dockerReachable := Some b; ready := ready s; aborted := aborted s; changes := changes s;
  reachability := reachability s; lines := lines s |}.
Definition markReady s := {| containers := containers s; inspects := inspects s; eventsBackoffMs := eventsBackoffMs s;
  reconcileBackoffMs := reconcileBackoffMs s; pollBackoffMs := pollBackoffMs s; usingPollFallback := usingPollFallback s;
  dockerReachable := dockerReachable s; ready := true; aborted := aborted s; changes := changes s;
  reachability := reachability s; lines := lines s |}.
Definition abort s := {| containers := containers s; inspects := inspects s; eventsBackoffMs := eventsBackoffMs s;
  reconcileBackoffMs := reconcileBackoffMs s; pollBackoffMs := pollBackoffMs s; usingPollFallback := usingPollFallback s;
  dockerReachable := dockerReachable s; ready := ready s; aborted := true; changes := changes s;
  reachability := reachability s; lines := lines s |}.
(** [#notify], [#notifyReachability] and the log. *)
Definition notify c s := {| containers := containers s; inspects := inspects s; eventsBackoffMs := eventsBackoffMs s;
  reconcileBackoffMs := reconcileBackoffMs s; pollBackoffMs := pollBackoffMs s; usingPollFallback := usingPollFallback s;
  dockerReachable := dockerReachable s; ready := ready s; aborted := aborted s; changes := changes s ++ [c];
  reachability := reachability s; lines := lines s |}.
Definition notifyReachability b s := {| containers := containers s; inspects := inspects s; eventsBackoffMs := eventsBackoffMs s;
  reconcileBackoffMs := reconcileBackoffMs s; pollBackoffMs := pollBackoffMs s; usingPollFallback := usingPollFallback s;
  dockerReachable := dockerReachable s; ready := ready s; aborted := aborted s; changes := changes s;
  reachability := reachability s ++ [b]; lines := lines s |}.
Definition writeLine l s := {| containers := containers s; inspects := inspects s; eventsBackoffMs := eventsBackoffMs s;
  reconcileBackoffMs := reconcileBackoffMs s; pollBackoffMs := pollBackoffMs s; usingPollFallback := usingPollFallback s;
  dockerReachable := dockerReachable s; ready := ready s; aborted := aborted s; changes := changes s;
  reachability := reachability s; lines := lines s ++ [l] |}.

(** ** Reachability *)

Definition markDockerReachable (s : DockerMonitor) : DockerMonitor :=
  if decide (dockerReachable s = Some false)
  then notifyReachability true (setReachable true (writeLine LogReachable s))
  else setReachable true s.

Definition markDockerUnavailable (reason : jstring) (s : DockerMonitor) : DockerMonitor :=
  if decide (dockerReachable s = Some false) then setReachable false s
  else notifyReachability false (setReachable false (writeLine (LogUnavailable reason) s)).

Definition handleReconcileError (err : error_chain) (s : DockerMonitor) : DockerMonitor :=
  if isDockerUnavailable err then markDockerUnavailable "reconcile" s else writeLine (LogFailed "reconcile failed:" err) s.
Definition handleEventsStreamError (err : error_chain) (s : DockerMonitor) : DockerMonitor :=
  if isDockerUnavailable err then markDockerUnavailable "events stream" s
  else writeLine (LogFailed "events stream failed:" err) s.

(** ** Containers *)

Definition findSummary (id : jstring) (l : list ContainerSummary) : option ContainerSummary :=
  head (filter (fun c => summaryId c = id) l).

Definition removeContainer (id : jstring) (event : option DockerEvent) (s : DockerMonitor) : DockerMonitor :=
  let summary := findSummary id (containers s) in
  let inspect := mapGet (inspects s) id in
  let s1 := setInspects (filter (fun x : jstring * ContainerInspect => x.1 <> id) (inspects s))
              (setContainers (filter (fun c => summaryId c <> id) (containers s)) s) in
  match summary, inspect with
  | None, None => s1
  | _, _ => notify {| changeId := id; changeSummary := summary; changeInspect := inspect; changeEvent := event; changeRemoved := true |} s1
  end.

Definition handleEventRefreshError (err : error_chain) (id : jstring) (event : DockerEvent) (s : DockerMonitor) : DockerMonitor :=
  if aborted s then s
  else if isContainerNotFound err then removeContainer id (Some event) s
  else writeLine (LogFailed "event refresh failed:" err) s.

Definition notifyListed (s : DockerMonitor) (summary : ContainerSummary) : DockerMonitor :=
  notify {| changeId := summaryId summary; changeSummary := Some summary; changeInspect := mapGet (inspects s) (summaryId summary);
            changeEvent := None; changeRemoved := false |} s.

(** ** Tasks *)

(** Which of the three loops a task belongs to: the first reconcile, the reconcile timer, the event stream. *)
Inductive activity := FirstReconcile | ReconcileTimer | EventStream.

Inductive monitorTask :=
| Listing (timer : bool)
| Inspecting (timer : bool) (summaries rest : list ContainerSummary) (found : jsmap ContainerInspect)
| TimerDelay
| NextEvent (streamedAny : bool)
| EventInspect (id : jstring) (event : DockerEvent)
| EventList (id : jstring) (event : DockerEvent) (inspect : ContainerInspect)
| StreamDelay.

Inductive answer :=
| Listed (r : result error_chain (list ContainerSummary))
| Inspected (r : result error_chain ContainerInspect)
| Elapsed
| Streamed (e : DockerEvent)
| StreamEnds
| StreamFails (err : error_chain).

(** [#reconcileLoop] from its beginning. *)
Definition reconcileLoop (s : DockerMonitor) : list monitorTask * DockerMonitor :=
  if aborted s then ([], s) else ([TimerDelay], s).

(** A reconcile returns [ok]; the timer's picks its next delay and goes round. *)
Definition reconciled (timer ok : bool) (s : DockerMonitor) : list monitorTask * DockerMonitor :=
  if negb timer then ([], s)
  else
    let s := if usingPollFallback s
             then setBackoffs (eventsBackoffMs s) (reconcileBackoffMs s)
                    (if ok then pollIntervalMs else Z.min (pollBackoffMs s * 2) MAX_IDLE_BACKOFF_MS) s
             else setBackoffs (eventsBackoffMs s)
                    (if ok then reconcileIntervalMs else Z.min (reconcileBackoffMs s * 2) MAX_IDLE_BACKOFF_MS) (pollBackoffMs s) s in
    reconcileLoop s.

(** All inspections are in. *)
Definition listingDone (timer : bool) (summaries : list ContainerSummary) (found : jsmap ContainerInspect) (s : DockerMonitor)
    : list monitorTask * DockerMonitor :=
  let s := setInspects found s in
  if aborted s then reconciled timer false (markReady s)
  else reconciled timer true (markReady (markDockerReachable (foldl notifyListed s summaries))).

(** [#inspectAll] before its next inspection. *)
Definition inspectNext (timer : bool) (summaries rest : list ContainerSummary) (found : jsmap ContainerInspect) (s : DockerMonitor)
    : list monitorTask * DockerMonitor :=
  match rest with
  | [] => listingDone timer summaries found s
  | _ => if aborted s then listingDone timer summaries found s else ([Inspecting timer summaries rest found], s)
  end.

(** [#reconcileAll] *)
Definition reconcileAll (timer : bool) (s : DockerMonitor) : list monitorTask * DockerMonitor :=
  if aborted s then reconciled timer false s else ([Listing timer], s).

(** [#eventsLoop] *)
Definition eventsLoop (s : DockerMonitor) : list monitorTask * DockerMonitor :=
  if aborted s then ([], s) else ([NextEvent false], s).

(** The stream is over. *)
Definition streamDone (streamedAny : bool) (s : DockerMonitor) : list monitorTask * DockerMonitor :=
  if aborted s then ([], s)
  else
    let s := if streamedAny then s else setFallback true s in
    let s := if streamedAny then setBackoffs 1000 (reconcileBackoffMs s) (pollBackoffMs s) s else s in
    ([StreamDelay], s).

(** [#handleEvent] up to its first await. *)
Definition handleEvent (e : DockerEvent) (s : DockerMonitor) : list monitorTask * DockerMonitor :=
  match truthy (actorId e) with
  | None => ([NextEvent true], s)
  | Some id =>
      if isContainerDestroyEvent e then ([NextEvent true], removeContainer id (Some e) s)
      else ([EventInspect id e], s)
  end.

Definition runTask (t : monitorTask) (a : answer) (s : DockerMonitor) : option (list monitorTask * DockerMonitor) :=
  match t, a with
  | Listing timer, Listed (Ok summaries) => Some (inspectNext timer summaries summaries [] (setContainers summaries s))
  | Listing timer, Listed (Throw err) => Some (reconciled timer false (markReady (handleReconcileError err s)))
  | Inspecting timer summaries (c :: rest) found, Inspected (Ok i) =>
      Some (inspectNext timer summaries rest (mapSet (summaryId c) i found) s)
  | Inspecting timer summaries (c :: rest) found, Inspected (Throw err) =>
      Some (inspectNext timer summaries rest found (writeLine (LogFailed "inspect failed:" err) s))
  | TimerDelay, Elapsed => Some (if aborted s then ([], s) else reconcileAll true s)
  | NextEvent streamedAny, Streamed e =>
      Some (if aborted s then ([], s)
            else
              let s := markDockerReachable (setFallback false s) in
              handleEvent e (setBackoffs 1000 (reconcileBackoffMs s) (pollBackoffMs s) s))
  | NextEvent streamedAny, StreamEnds => Some (streamDone streamedAny s)
  | NextEvent streamedAny, StreamFails err =>
      Some (streamDone streamedAny (if aborted s then s else handleEventsStreamError err s))
  | EventInspect id e, Inspected (Ok i) =>
      let s := setInspects (mapSet id i (inspects s)) s in
      Some (match findSummary id (containers s) with
            | Some c => ([NextEvent true], notify {| changeId := id; changeSummary := Some c; changeInspect := Some i; changeEvent := Some e; changeRemoved := false |} s)
            | None => ([EventList id e i], s)
            end)
  | EventInspect id e, Inspected (Throw err) => Some ([NextEvent true], handleEventRefreshError err id e s)
  | EventList id e i, Listed r =>
      let '(summary, s) := match r with
                           | Ok summaries => (findSummary id summaries, setContainers summaries s)
                           | Throw err => (None, writeLine (LogFailed "list after event failed:" err) s)
                           end in
      Some ([NextEvent true], notify {| changeId := id; changeSummary := summary; changeInspect := Some i; changeEvent := Some e; changeRemoved := false |} s)
  | StreamDelay, Elapsed =>
      Some (eventsLoop (setBackoffs (Z.min (eventsBackoffMs s * 2) 60000) (reconcileBackoffMs s) (pollBackoffMs s) s))
  | _, _ => None
  end.

(** ** Runs *)

(** [start] with a live signal. *)
Definition start : list monitorTask * DockerMonitor := ([Listing false; NextEvent false; TimerDelay], newDockerMonitor).

Inductive monitorEvent := Answers (i : nat) (a : answer) | Aborts.
Definition monitorStep (st : list monitorTask * DockerMonitor) (e : monitorEvent) : list monitorTask * DockerMonitor :=
  match e with
  | Aborts => (st.1, abort st.2)
  | Answers i a =>
      match st.1 !! i with
      | None => st
      | Some t =>
          match runTask t a st.2 with
          | None => st
          | Some (next, s) => (take i st.1 ++ next ++ drop (S i) st.1, s)
          end
      end
  end.
Definition monitorAfter (l : list monitorEvent) : list monitorTask * DockerMonitor := foldl monitorStep start l.
End monitor.

(** ** What stays true *)

Section always.
Variables (pollIntervalMs reconcileIntervalMs : Z).

Notation run := (runTask pollIntervalMs reconcileIntervalMs).

Definition activityOf (t : monitorTask) : activity :=
  match t with
  | Listing timer | Inspecting timer _ _ _ => if timer then ReconcileTimer else FirstReconcile
  | TimerDelay => ReconcileTimer
  | NextEvent _ | EventInspect _ _ | EventList _ _ _ | StreamDelay => EventStream
  end.

Definition continues (t : monitorTask) (next : list monitorTask) : Prop := next = [] \/ exists t', next = [t'] /\ activityOf t' = activityOf t.

Lemma reconciled_next timer ok s :
  (reconciled pollIntervalMs reconcileIntervalMs timer ok s).1 = [] \/
  timer = true /\ (reconciled pollIntervalMs reconcileIntervalMs timer ok s).1 = [TimerDelay].
Proof. unfold reconciled, reconcileLoop. destruct timer; cbn [negb]; [| by left]. cbv zeta. destruct (aborted _); auto. Qed.

Lemma reconciled_continues (timer ok : bool) s t :
  activityOf t = (if timer then ReconcileTimer else FirstReconcile) ->
  continues t (reconciled pollIntervalMs reconcileIntervalMs timer ok s).1.
Proof. intros Ht. destruct (reconciled_next timer ok s) as [-> | [-> ->]]; [by left | right]. exists TimerDelay. by rewrite Ht. Qed.

Lemma listingDone_continues (timer : bool) summaries found s t :
  activityOf t = (if timer then ReconcileTimer else FirstReconcile) ->
  continues t (listingDone pollIntervalMs reconcileIntervalMs timer summaries found s).1.
Proof. intros Ht. unfold listingDone. cbv zeta. destruct (aborted _); by apply reconciled_continues. Qed.

Lemma inspectNext_continues (timer : bool) summaries rest found s t :
  activityOf t = (if timer then ReconcileTimer else FirstReconcile) ->
  continues t (inspectNext pollIntervalMs reconcileIntervalMs timer summaries rest found s).1.
Proof.
  intros Ht. unfold inspectNext. destruct rest as [| c rest]; [by apply listingDone_continues |].
  destruct (aborted s); [by apply listingDone_continues |]. right. by exists (Inspecting timer summaries (c :: rest) found).
Qed.

Lemma runTask_continues t a s next s' : run t a s = Some (next, s') -> continues t next.
Proof.
  intros E. assert (Hk : forall x : list monitorTask * DockerMonitor, x = (next, s') -> continues t x.1 -> continues t next) by (by intros x ->).
  destruct t, a; cbn [runTask] in E; try done; repeat (case_match; try done); simplify_eq;
    try (by left); try (right; eexists; by split).
  all: try (eapply Hk; [eassumption |]).
  all: try (by apply inspectNext_continues). all: try (by apply reconciled_continues).
  all: unfold reconcileAll, handleEvent, streamDone, eventsLoop in *; repeat case_match; simplify_eq;
    try (by left); try (right; eexists; by split).
  all: by apply reconciled_continues.
Qed.

(** *** Delays and reachability *)

Definition within (base x : Z) : Prop := Z.min base MAX_IDLE_BACKOFF_MS <= x <= Z.max base MAX_IDLE_BACKOFF_MS.

(** [b], [negb b], [b], ... *)
Fixpoint flips (b : bool) (n : nat) : list bool := match n with O => [] | S n => b :: flips (negb b) n end.

(** The lines that speak of a transition. *)
Definition transitionOf (l : monitor_log) : option bool :=
  match l with LogReachable => Some true | LogUnavailable _ => Some false | LogFailed _ _ => None end.

Definition paced (s : DockerMonitor) : Prop :=
  1000 <= eventsBackoffMs s <= 60000 /\ within reconcileIntervalMs (reconcileBackoffMs s) /\ within pollIntervalMs (pollBackoffMs s).
Definition told (s : DockerMonitor) : Prop :=
  reachability s = flips false (length (reachability s)) /\
  (dockerReachable s = Some false <-> Nat.odd (length (reachability s)) = true) /\
  omap transitionOf (lines s) = reachability s.
Definition steady (s : DockerMonitor) : Prop := paced s /\ told s.

Lemma flips_snoc b n : flips b n ++ [if Nat.odd n then negb b else b] = flips b (S n).
Proof.
  revert b. induction n as [| n IH]; intros b; [done |]. cbn [flips app]. f_equal. rewrite Nat.odd_succ, <- Nat.negb_odd.
  specialize (IH (negb b)). rewrite negb_involutive in IH. cbn [flips] in IH. rewrite <- IH. by destruct (Nat.odd n).
Qed.

Lemma told_tell b s :
  told s -> dockerReachable s = Some false <-> b = true ->
  forall l, transitionOf l = Some b -> told (notifyReachability b (setReachable b (writeLine l s))).
Proof.
  intros (H1 & H2 & H3) Hb l Hl. unfold told. cbn [reachability notifyReachability setReachable writeLine dockerReachable lines].
  rewrite length_app, Nat.add_1_r, omap_app, H3. cbn [omap list_omap]. rewrite Hl.
  assert (Ho : Nat.odd (length (reachability s)) = b) by (apply eq_true_iff_eq; by rewrite <- H2).
  split; [| split; [| done]].
  - rewrite H1 at 1. rewrite <- flips_snoc, Ho. by destruct b.
  - rewrite Nat.odd_succ, <- Nat.negb_odd, Ho. destruct b; cbn; naive_solver.
Qed.

Lemma steady_reachable s : steady s -> steady (markDockerReachable s).
Proof.
  intros [Hp Ht]. unfold markDockerReachable. case_decide as E; split; try exact Hp.
  - by apply told_tell.
  - destruct Ht as (H1 & H2 & H3). split_and!; [exact H1 | | exact H3]. cbn. split; [done |]. naive_solver.
Qed.

Lemma steady_unavailable reason s : steady s -> steady (markDockerUnavailable reason s).
Proof.
  intros [Hp Ht]. unfold markDockerUnavailable. case_decide as E; split; try exact Hp.
  - destruct Ht as (H1 & H2 & H3). split_and!; [exact H1 | | exact H3]. cbn. naive_solver.
  - apply told_tell; naive_solver.
Qed.

Lemma steady_failed what err s : steady s -> steady (writeLine (LogFailed what err) s).
Proof.
  intros [Hp (H1 & H2 & H3)]. split; [exact Hp |]. split_and!; [exact H1 | exact H2 |]. cbn [lines writeLine reachability].
  rewrite omap_app, H3. cbn. by rewrite app_nil_r.
Qed.

Lemma steady_backoffs ev rec poll s :
  1000 <= ev <= 60000 -> within reconcileIntervalMs rec -> within pollIntervalMs poll -> steady s -> steady (setBackoffs ev rec poll s).
Proof. intros H1 H2 H3 [_ Ht]. split; [done | exact Ht]. Qed.

Lemma steady_notified l s : steady s -> steady (foldl notifyListed s l).
Proof. revert s. induction l as [| c l IH]; intros s Hs; [done |]. cbn. by apply IH. Qed.

Lemma steady_removed id e s : steady s -> steady (removeContainer id e s).
Proof. intros Hs. unfold removeContainer. repeat case_match; exact Hs. Qed.

Lemma steady_reconcile_error err s : steady s -> steady (handleReconcileError err s).
Proof. intros Hs. unfold handleReconcileError. case_match; [by apply steady_unavailable | by apply steady_failed]. Qed.

Lemma steady_stream_error err s : steady s -> steady (handleEventsStreamError err s).
Proof. intros Hs. unfold handleEventsStreamError. case_match; [by apply steady_unavailable | by apply steady_failed]. Qed.

Lemma steady_refresh_error err id e s : steady s -> steady (handleEventRefreshError err id e s).
Proof. intros Hs. unfold handleEventRefreshError. repeat case_match; [done | by apply steady_removed | by apply steady_failed]. Qed.

Hypothesis poll_pos : 0 < pollIntervalMs.
Hypothesis reconcile_pos : 0 < reconcileIntervalMs.

Lemma within_base base : within base base.
Proof. unfold within. lia. Qed.
Lemma within_double base x : 0 < base -> within base x -> within base (Z.min (x * 2) MAX_IDLE_BACKOFF_MS).
Proof. unfold within, MAX_IDLE_BACKOFF_MS. lia. Qed.

Lemma steady_reconciled timer ok s : steady s -> steady (reconciled pollIntervalMs reconcileIntervalMs timer ok s).2.
Proof.
  intros Hs. pose proof Hs as [(He & Hr & Hp) _]. unfold reconciled, reconcileLoop. destruct timer; cbn [negb]; [| done]. cbv zeta.
  set (s1 := if usingPollFallback s then _ else _). assert (H1 : steady s1); [| by destruct (aborted s1)].
  unfold s1. destruct (usingPollFallback s); apply steady_backoffs; try done; destruct ok; auto using within_base, within_double.
Qed.

Lemma steady_inspectNext timer summaries rest found s :
  steady s -> steady (inspectNext pollIntervalMs reconcileIntervalMs timer summaries rest found s).2.
Proof.
  intros Hs. assert (Hd : steady (listingDone pollIntervalMs reconcileIntervalMs timer summaries found s).2).
  { unfold listingDone. cbv zeta. destruct (aborted _); apply steady_reconciled; [exact Hs |].
    apply (steady_reachable (foldl notifyListed (setInspects found s) summaries)), steady_notified. exact Hs. }
  unfold inspectNext. destruct rest; [done |]. by destruct (aborted s).
Qed.

Lemma steady_streamDone b s : steady s -> steady (streamDone b s).2.
Proof.
  intros Hs. pose proof Hs as [(He & Hr & Hp) _]. unfold streamDone. destruct (aborted s); [done |].
  destruct b; cbn [snd]; [apply steady_backoffs; try done; lia | exact Hs].
Qed.

Lemma steady_handleEvent e s : steady s -> steady (handleEvent e s).2.
Proof. intros Hs. unfold handleEvent. repeat case_match; cbn [snd]; [by apply steady_removed | exact Hs | exact Hs]. Qed.

Lemma runTask_steady t a s next s' : run t a s = Some (next, s') -> steady s -> steady s'.
Proof.
  intros E Hs. pose proof Hs as [(He & Hr & Hp) _].
  assert (Hk : forall x : list monitorTask * DockerMonitor, Some x = Some (next, s') -> steady x.2 -> steady s') by (by intros x [= ->]).
  destruct t, a; cbn [runTask] in E; try done; try (destruct rest; try done); try destruct r; try done;
    try (eapply Hk; [exact E |]).
  - apply steady_inspectNext. exact Hs.
  - apply steady_reconciled, steady_reconcile_error, Hs.
  - by apply steady_inspectNext.
  - by apply steady_inspectNext, steady_failed.
  - unfold reconcileAll. destruct (aborted s); [done |]. by destruct (aborted s).
  - destruct (aborted s); [done |]. cbv zeta. apply steady_handleEvent.
    assert (Hm : steady (markDockerReachable (setFallback false s))) by (apply steady_reachable; exact Hs).
    pose proof Hm as [(? & ? & ?) _]. apply steady_backoffs; try done; lia.
  - by apply steady_streamDone.
  - apply steady_streamDone. destruct (aborted s); [done | by apply steady_stream_error].
  - cbv zeta. case_match; exact Hs.
  - by apply steady_refresh_error.
  - exact Hs.
  - exact (steady_failed _ _ _ Hs).
  - unfold eventsLoop. assert (H1 : steady (setBackoffs (Z.min (eventsBackoffMs s * 2) 60000) (reconcileBackoffMs s) (pollBackoffMs s) s))
      by (apply steady_backoffs; try done; lia).
    by destruct (aborted _).
Qed.
End always.

Section watching.
Variables (pollIntervalMs reconcileIntervalMs : Z).

Lemma monitorAfter_ok l :
  0 < pollIntervalMs -> 0 < reconcileIntervalMs ->
  NoDup (map activityOf (monitorAfter pollIntervalMs reconcileIntervalMs l).1) /\
  steady pollIntervalMs reconcileIntervalMs (monitorAfter pollIntervalMs reconcileIntervalMs l).2.
Proof.
  intros Hp Hr. induction l as [| e l [Hnd Hs]] using rev_ind.
  { split; [repeat constructor; set_solver |]. split; [| done]. split_and!; cbn; try lia; apply within_base. }
  unfold monitorAfter in *. rewrite foldl_app. cbn [foldl]. destruct (foldl _ _ l) as [ts s]. cbn [fst snd] in *.
  destruct e as [i a |]; cbn [monitorStep fst snd]; [| split; [done | exact Hs]].
  destruct (ts !! i) as [t |] eqn:Et; [| done]. destruct (runTask _ _ t a s) as [[next s'] |] eqn:Er; [| done]. cbn [fst snd].
  split; [| by eapply runTask_steady]. apply runTask_continues in Er.
  rewrite <- (take_drop_middle ts i t Et) in Hnd. rewrite !map_app in *. cbn [map] in Hnd.
  destruct Er as [-> | (t' & -> & Ea)]; cbn [map app].
  - apply NoDup_app in Hnd as (N1 & N2 & [N3 N4]%NoDup_cons). apply NoDup_app. split_and!; [done | | done].
    intros x Hx Hx2. apply (N2 x Hx). by right.
  - by rewrite Ea.
Qed.

(** Whatever the engine answers and in whichever order, the monitor has at
    most three calls or timers under way, one for each of its activities; its
    delays stay between the base interval and five minutes (a minute for the
    stream); and what it tells about the socket alternates, a loss first, each
    with exactly one line in the log. *)
Theorem monitor_never_piles_up l (Hp : 0 < pollIntervalMs) (Hr : 0 < reconcileIntervalMs) :
  let '(tasks, s) := monitorAfter pollIntervalMs reconcileIntervalMs l in
  (NoDup (map activityOf tasks) /\ (length tasks <= 3)%nat) /\
  (1000 <= eventsBackoffMs s <= 60000 /\ within reconcileIntervalMs (reconcileBackoffMs s) /\ within pollIntervalMs (pollBackoffMs s)) /\
  (reachability s = flips false (length (reachability s)) /\
   (dockerReachable s = Some false <-> Nat.odd (length (reachability s)) = true) /\
   omap transitionOf (lines s) = reachability s).
Proof.
  destruct (monitorAfter_ok l Hp Hr) as [Hnd Hs]. destruct (monitorAfter _ _ l) as [tasks s]. cbn [fst snd] in *.
  split; [| exact Hs]. split; [done |]. rewrite <- (length_map activityOf).
  change 3%nat with (length [FirstReconcile; ReconcileTimer; EventStream]). apply submseteq_length, NoDup_submseteq; [done |].
  intros [] _; set_solver.
Qed.
End watching.

Definition noDockerThenDocker : list monitorEvent :=
  [Answers 0 (Listed (Throw ["fetch failed" : jstring; "No such file or directory (os error 2)" : jstring]));
   Answers 0 (StreamFails ["fetch failed" : jstring; "Connection refused" : jstring]);
   Answers 1 Elapsed; Answers 1 (Listed (Ok []))].

Lemma monitor_never_piles_up_witness :
  let s := (monitorAfter 10000 30000 noDockerThenDocker).2 in
  reachability s = flips false (length (reachability s)) /\ reachability s = [false; true].
Proof.
  cbv zeta. split; [| vm_compute; reflexivity].
  pose proof (monitor_never_piles_up 10000 30000 noDockerThenDocker ltac:(lia) ltac:(lia)) as Hm.
  destruct (monitorAfter 10000 30000 noDockerThenDocker) as [tasks s]. destruct Hm as (_ & _ & Hm & _). exact Hm.
Defined.
