(* ===== verification/MonSentinel.v ===== *)
(** * The monitor loop ([monitor/sentinel.ts])

    The sentinel turns what the Docker monitor holds into resources and run
    states: it runs the crash-loop guard on the service containers, fetches the
    last log line of failing ones in the background, stamps the states it
    reports and builds the messages of a change.  The Docker monitor's
    containers and inspections are read at each operation.  Event times are
    taken to be within the range of [Date]. *)

From stdpp Require Import list sorting.
From S2P Require Import Prelude Json Number JsonPrint Dates Log MonState MonCrash MonDelta MonDocker.

#[local] Open Scope Z_scope.

Record CachedLogLine := { cachedRestarts : Z; line : jstring }.
(** A log fetch under way. *)
Record logFetch := { fetchId : jstring; fetchRestarts : Z }.

Record Sentinel := {
  dockerEnabled : bool; fetchesLines : bool; delta : tracker; crashGuard : option CrashLoopGuard;
  stamper : jsmap seen; logLines : jsmap CachedLogLine; logFetchesInFlight : list jstring; fetches : list logFetch;
  containersKnown : bool; sentinelAborted : bool;
  emitted : list MonitorDeliveryBundle; warned : list (list jstring)
}.

Definition newSentinel (docker fetchLastLogLine stopContainer : bool) : Sentinel :=
  {| dockerEnabled := docker; fetchesLines := fetchLastLogLine; delta := createMonitorDeltaTracker;
     crashGuard := if stopContainer then Some newGuard else None; stamper := []; logLines := []; logFetchesInFlight := [];
     fetches := []; containersKnown := false; sentinelAborted := false; emitted := []; warned := [] |}.

Definition setDelta t s := {| dockerEnabled := dockerEnabled s; fetchesLines := fetchesLines s; delta := t; crashGuard := crashGuard s;
  stamper := stamper s; logLines := logLines s; logFetchesInFlight := logFetchesInFlight s; fetches := fetches s;
  containersKnown := containersKnown s; sentinelAborted := sentinelAborted s; emitted := emitted s; warned := warned s |}.
Definition setGuard g s := {| dockerEnabled := dockerEnabled s; fetchesLines := fetchesLines s; delta := delta s; crashGuard := Some g;
  stamper := stamper s; logLines := logLines s; logFetchesInFlight := logFetchesInFlight s; fetches := fetches s;
  containersKnown := containersKnown s; sentinelAborted := sentinelAborted s; emitted := emitted s; warned := warned s |}.
Definition setStamper m s := {| dockerEnabled := dockerEnabled s; fetchesLines := fetchesLines s; delta := delta s; crashGuard := crashGuard s;
  stamper := m; logLines := logLines s; logFetchesInFlight := logFetchesInFlight s; fetches := fetches s;
  containersKnown := containersKnown s; sentinelAborted := sentinelAborted s; emitted := emitted s; warned := warned s |}.
Definition setFetching m ids l s := {| dockerEnabled := dockerEnabled s; fetchesLines := fetchesLines s; delta := delta s; crashGuard := crashGuard s;
  stamper := stamper s; logLines := m; logFetchesInFlight := ids; fetches := l;
  containersKnown := containersKnown s; sentinelAborted := sentinelAborted s; emitted := emitted s; warned := warned s |}.
Definition setKnown s := {| dockerEnabled := dockerEnabled s; fetchesLines := fetchesLines s; delta := delta s; crashGuard := crashGuard s;
  stamper := stamper s; logLines := logLines s; logFetchesInFlight := logFetchesInFlight s; fetches := fetches s;
  containersKnown := true; sentinelAborted := sentinelAborted s; emitted := emitted s; warned := warned s |}.
Definition abortSentinel s := {| dockerEnabled := dockerEnabled s; fetchesLines := fetchesLines s; delta := delta s; crashGuard := crashGuard s;
  stamper := stamper s; logLines := logLines s; logFetchesInFlight := logFetchesInFlight s; fetches := fetches s;
  containersKnown := containersKnown s; sentinelAborted := true; emitted := emitted s; warned := warned s |}.
Definition emitTransition b s := {| dockerEnabled := dockerEnabled s; fetchesLines := fetchesLines s; delta := delta s; crashGuard := crashGuard s;
  stamper := stamper s; logLines := logLines s; logFetchesInFlight := logFetchesInFlight s; fetches := fetches s;
  containersKnown := containersKnown s; sentinelAborted := sentinelAborted s; emitted := emitted s ++ [b]; warned := warned s |}.
Definition warn l s := {| dockerEnabled := dockerEnabled s; fetchesLines := fetchesLines s; delta := delta s; crashGuard := crashGuard s;
  stamper := stamper s; logLines := logLines s; logFetchesInFlight := logFetchesInFlight s; fetches := fetches s;
  containersKnown := containersKnown s; sentinelAborted := sentinelAborted s; emitted := emitted s; warned := warned s ++ [l] |}.

Section sentinel.
Context `{JsDates} `{JsTables} `{Collation}.

(** ** Reading the Docker monitor *)

Definition normalizedOf (s : option ContainerSummary) (i : option ContainerInspect) (e : option DockerEvent) : MonitorResourceState :=
  normalizeContainer {| inspect := i; summary := s; event := e |}.

Definition collectNormalizedResources (d : DockerMonitor) (s : Sentinel) : list MonitorResourceState :=
  if dockerEnabled s then map (fun c => normalizedOf (Some c) (mapGet (inspects d) (summaryId c)) None) (containers d) else [].

Definition observationOf (d : DockerMonitor) (s : Sentinel) (c : ContainerSummary) : option ServiceContainerObservation :=
  let i := mapGet (inspects d) (summaryId c) in
  let l := match x ← i; configLabels x with Some l => Some l | None => summaryLabels c end in
  id ← serviceIdForContainer l;
  Some {| serviceId := id; obsContainerId := summaryId c; obsSummary := Some c; obsInspect := i;
          lastLogLine := line <$> mapGet (logLines s) (summaryId c); crashStreak := None; crashStopped := None |}.
Definition collectServiceObservations (d : DockerMonitor) (s : Sentinel) : list ServiceContainerObservation :=
  omap (observationOf d s) (containers d).

(** ** Log lines *)

Definition scheduleOne (s : Sentinel) (o : ServiceContainerObservation) : Sentinel :=
  if negb (wantsLastLogLine o) then s
  else if decide ((cachedRestarts <$> mapGet (logLines s) (obsContainerId o)) = Some (restartsOf o)) then s
  else if memb (obsContainerId o) (logFetchesInFlight s) then s
  else setFetching (logLines s) (setAdd (logFetchesInFlight s) (obsContainerId o))
         (fetches s ++ [{| fetchId := obsContainerId o; fetchRestarts := restartsOf o |}]) s.

Definition scheduleLogFetches (obs : list ServiceContainerObservation) (s : Sentinel) : Sentinel :=
  if negb (fetchesLines s) then s
  else foldl scheduleOne
         (setFetching (filter (fun x : jstring * CachedLogLine => x.1 ∈ map obsContainerId obs) (logLines s))
            (logFetchesInFlight s) (fetches s) s) obs.

(** The [i]-th fetch settles. *)
Definition fetchSettles (i : nat) (r : result jstring jstring) (s : Sentinel) : Sentinel :=
  match fetches s !! i with
  | None => s
  | Some f =>
      let ids := filter (fun x => x <> fetchId f) (logFetchesInFlight s) in
      let rest := delete i (fetches s) in
      match r with
      | Ok text => setFetching (mapSet (fetchId f) {| cachedRestarts := fetchRestarts f; line := text |} (logLines s)) ids rest s
      | Throw message => setFetching (logLines s) ids rest (warn ["last log line fetch failed:" : jstring; message] s)
      end
  end.

(** ** Run states *)

Definition observeServices (now : Z) (d : DockerMonitor) (s : Sentinel) : list ServiceContainerObservation * Sentinel :=
  let collected := collectServiceObservations d s in
  let '(obs, s) := match crashGuard s with
                   | Some g => let '(obs, g) := review SERVICE_CRASH_LIMIT collected now g in (obs, setGuard g s)
                   | None => (collected, s)
                   end in
  (obs, scheduleLogFetches obs s).

Definition serviceRunStates (now : Z) (d : DockerMonitor) (s : Sentinel) : option (list ServiceRunState) * Sentinel :=
  if negb (dockerEnabled s) || negb (containersKnown s) then (None, s)
  else
    let '(obs, s) := observeServices now d s in
    let '(m, out) := stampStates (stamper s) (deriveServiceRunStates obs now) now in
    (Some out, setStamper m s).

(** ** Messages *)

Definition sentinelSync (now : Z) (instance : jval) (d : DockerMonitor) (s : Sentinel) : MonitorDeliveryBundle :=
  buildSync now instance (collectNormalizedResources d s) (delta s).
Definition sentinelHeartbeat (now : Z) (instance : jval) (d : DockerMonitor) (s : Sentinel) : MonitorDeliveryBundle :=
  buildHeartbeat now instance (collectNormalizedResources d s) (delta s).
Definition handleAck (accepted : Z) (s : Sentinel) : Sentinel := setDelta (applyAck accepted (delta s)) s.
Definition sentinelRegister (n : Z) (after : list MonitorResourceState) (s : Sentinel) : Sentinel :=
  setDelta (registerPendingDelivery n after (delta s)) s.
Definition sentinelConfirm (n : Z) (after : list MonitorResourceState) (s : Sentinel) : Sentinel :=
  setDelta (confirmDelivery n after (delta s)) s.
Definition resetForReconnect (d : DockerMonitor) (s : Sentinel) : Sentinel :=
  setDelta (seedTracked (collectNormalizedResources d s) (delta s)) s.

(** [#bootstrap] once the Docker monitor is ready. *)
Definition bootstrap (d : DockerMonitor) (s : Sentinel) : Sentinel :=
  if negb (dockerEnabled s) then setDelta (seedTracked [] (delta s)) s
  else if sentinelAborted s then s
  else let s := setKnown s in setDelta (seedTracked (collectNormalizedResources d s) (delta s)) s.

Definition resourceKeyForChange (c : DockerMonitorChange) : jstring :=
  let fullId := match changeInspect c, changeSummary c with
                | Some i, _ => inspectId i
                | None, Some x => summaryId x
                | None, None => changeId c
                end in
  ("container:" : jstring) ++ take 12 (stripSlashes fullId).

(** The state a removed container was last reported in, or is normalised to. *)
Definition removedState (c : DockerMonitorChange) (s : Sentinel) : option MonitorResourceState :=
  match mapGet (deliveredBaseline (delta s)) (resourceKeyForChange c) with
  | Some r => Some r
  | None =>
      match changeSummary c, changeInspect c with
      | None, None => None
      | _, _ => Some (normalizedOf (changeSummary c) (changeInspect c) (changeEvent c))
      end
  end.

Definition handleChange (now : Z) (c : DockerMonitorChange) (d : DockerMonitor) (s : Sentinel) : Sentinel :=
  if sentinelAborted s || negb (dockerEnabled s) then s
  else
    let after := collectNormalizedResources d s in
    let s := (observeServices now d s).2 in
    if changeRemoved c then
      match removedState c s with
      | Some previous => emitTransition (buildRemovalTransition now (resourceKey previous) previous after (delta s)) s
      | None => s
      end
    else
      let normalized := normalizedOf (changeSummary c) (changeInspect c) (changeEvent c) in
      match buildTransition now (resourceKey normalized) normalized after (delta s) with
      | Some bundle => emitTransition bundle s
      | None => s
      end.

(** The guard's stops end while the sentinel runs. *)
Definition onGuard (f : CrashLoopGuard -> CrashLoopGuard) (s : Sentinel) : Sentinel :=
  match crashGuard s with Some g => setGuard (f g) s | None => s end.

(** ** Runs *)

Inductive sentinelEvent :=
| Bootstraps (d : DockerMonitor)
| Reports (now : Z) (d : DockerMonitor)
| Changes (now : Z) (c : DockerMonitorChange) (d : DockerMonitor)
| Fetched (i : nat) (r : result jstring jstring)
| StopSettled (i : nat) (r : result jstring unit)
| StopEnded (i : nat)
| Acks (n : Z)
| Registers (n : Z) (after : list MonitorResourceState)
| Reconnects (d : DockerMonitor)
| AbortsSentinel.

Definition sentinelStep (s : Sentinel) (e : sentinelEvent) : Sentinel :=
  match e with
  | Bootstraps d => bootstrap d s
  | Reports now d => (serviceRunStates now d s).2
  | Changes now c d => handleChange now c d s
  | Fetched i r => fetchSettles i r s
  | StopSettled i r => onGuard (stopSettles i r) s
  | StopEnded i => onGuard (stopEnds i) s
  | Acks n => handleAck n s
  | Registers n after => sentinelRegister n after s
  | Reconnects d => resetForReconnect d s
  | AbortsSentinel => abortSentinel s
  end.
Definition sentinelAfter (docker fetchLastLogLine stopContainer : bool) (l : list sentinelEvent) : Sentinel :=
  foldl sentinelStep (newSentinel docker fetchLastLogLine stopContainer) l.
End sentinel.

(** ** What a run keeps *)

Section runs.
Context `{JsDates} `{JsTables} `{Collation}.

Lemma scheduleOne_guard s o : crashGuard (scheduleOne s o) = crashGuard s.
Proof. unfold scheduleOne. destruct (negb _); [done |]. case_decide; [done |]. by destruct (memb _ _). Qed.

Lemma schedule_guard obs s : crashGuard (scheduleLogFetches obs s) = crashGuard s.
Proof.
  unfold scheduleLogFetches. destruct (negb _); [done |]. set (s1 := setFetching _ _ _ s).
  assert (E : crashGuard s1 = crashGuard s) by done. rewrite <- E. clearbody s1. clear E. revert s1.
  induction obs as [| o obs IH]; intros s1; [done |]. cbn [foldl]. by rewrite IH, scheduleOne_guard.
Qed.

Lemma observe_guard now d s :
  crashGuard (observeServices now d s).2
  = (fun g => (review SERVICE_CRASH_LIMIT (collectServiceObservations d s) now g).2) <$> crashGuard s.
Proof.
  unfold observeServices. destruct (crashGuard s) as [g |] eqn:E; [| cbn; by rewrite schedule_guard].
  destruct (review SERVICE_CRASH_LIMIT _ now g) as [obs g'] eqn:Er. cbn [snd fmap option_fmap option_map].
  by rewrite schedule_guard, Er.
Qed.

(** The sentinel's guard lives the life of a guard. *)
Lemma guard_follows docker fl l :
  exists evs, crashGuard (sentinelAfter docker fl true l) = Some (guardAfter SERVICE_CRASH_LIMIT evs).
Proof.
  induction l as [| e l [evs IH]] using rev_ind; [by exists [] |].
  unfold sentinelAfter in *. rewrite foldl_app. cbn [foldl]. set (s := foldl _ _ l) in *. clearbody s.
  assert (Hev : forall ev, exists evs', Some (guardStep SERVICE_CRASH_LIMIT (guardAfter SERVICE_CRASH_LIMIT evs) ev)
                                = Some (guardAfter SERVICE_CRASH_LIMIT evs')).
  { intros ev. exists (evs ++ [ev]). unfold guardAfter. by rewrite foldl_app. }
  assert (Hobs : forall now d, exists evs', crashGuard (observeServices now d s).2 = Some (guardAfter SERVICE_CRASH_LIMIT evs')).
  { intros now d. rewrite observe_guard, IH. apply (Hev (Reviews (collectServiceObservations d s) now)). }
  destruct e as [d | now d | now c d | i r | i r | i | n | n after | d |]; cbn [sentinelStep];
    try (exists evs; exact IH).
  - exists evs. unfold bootstrap. by repeat case_match.
  - unfold serviceRunStates. case_match; [by exists evs |]. specialize (Hobs now d).
    destruct (observeServices now d s) as [obs s1]. cbn [snd] in Hobs. by destruct (stampStates _ _ _).
  - unfold handleChange. case_match; [by exists evs |]. cbv zeta. specialize (Hobs now d).
    repeat case_match; exact Hobs.
  - exists evs. unfold fetchSettles. by repeat case_match.
  - unfold onGuard. rewrite IH. apply (Hev (Settles i r)).
  - unfold onGuard. rewrite IH. apply (Hev (Ends i)).
Qed.

Lemma enabled_kept docker fl stops l : dockerEnabled (sentinelAfter docker fl stops l) = docker.
Proof.
  assert (Hs : forall obs s, dockerEnabled (scheduleLogFetches obs s) = dockerEnabled s).
  { intros obs s. unfold scheduleLogFetches. destruct (negb _); [done |]. set (s1 := setFetching _ _ _ s).
    assert (E : dockerEnabled s1 = dockerEnabled s) by done. rewrite <- E. clearbody s1. clear E. revert s1.
    induction obs as [| o obs IH]; intros s1; [done |]. cbn [foldl]. rewrite IH. unfold scheduleOne.
    destruct (negb _); [done |]. case_decide; [done |]. by destruct (memb _ _). }
  assert (Ho : forall now d s, dockerEnabled (observeServices now d s).2 = dockerEnabled s).
  { intros now d s. unfold observeServices. destruct (crashGuard s) as [g |]; [| apply Hs].
    destruct (review _ _ now g). cbn [snd]. by rewrite Hs. }
  induction l as [| e l IH] using rev_ind; [done |]. unfold sentinelAfter in *. rewrite foldl_app. cbn [foldl].
  set (s := foldl _ _ l) in *. clearbody s. rewrite <- IH.
  destruct e as [d | now d | now c d | i r | i r | i | n | n after | d |]; cbn [sentinelStep]; try done.
  - unfold bootstrap. by repeat case_match.
  - unfold serviceRunStates. case_match; [done |]. specialize (Ho now d s). destruct (observeServices now d s).
    by destruct (stampStates _ _ _).
  - unfold handleChange. case_match; [done |]. cbv zeta. specialize (Ho now d s). repeat case_match; exact Ho.
  - unfold fetchSettles. by repeat case_match.
  - unfold onGuard. by case_match.
  - unfold onGuard. by case_match.
Qed.

(** The set of containers being asked for a log line is the list of fetches under way. *)
Definition asking (s : Sentinel) : Prop := logFetchesInFlight s = map fetchId (fetches s) /\ NoDup (map fetchId (fetches s)).

Lemma asking_one s o : asking s -> asking (scheduleOne s o).
Proof.
  intros [E Hnd]. unfold scheduleOne. repeat (case_match; try done).
  match goal with Hm : memb _ _ = false |- _ => rename Hm into Hn end. pose proof Hn as Hm. apply memb_false in Hn. rewrite E in Hn.
  unfold asking. cbn [logFetchesInFlight fetches setFetching]. unfold setAdd. rewrite Hm, map_app, E. split; [done |].
  apply NoDup_app. split_and!; [done | | apply NoDup_singleton]. intros x Hx ->%list_elem_of_singleton. done.
Qed.

Lemma asking_schedule obs s : asking s -> asking (scheduleLogFetches obs s).
Proof.
  intros Ha. unfold scheduleLogFetches. destruct (negb _); [done |]. set (s1 := setFetching _ _ _ s).
  assert (Ha1 : asking s1) by exact Ha. clearbody s1. clear Ha. revert s1 Ha1.
  induction obs as [| o obs IH]; intros s1 Ha; [done |]. cbn [foldl]. by apply IH, asking_one.
Qed.

Lemma asking_observe now d s : asking s -> asking (observeServices now d s).2.
Proof.
  intros Ha. unfold observeServices. destruct (crashGuard s) as [g |]; [| by apply asking_schedule].
  destruct (review _ _ now g) as [obs g']. by apply asking_schedule.
Qed.

Lemma asking_settles i r s : asking s -> asking (fetchSettles i r s).
Proof.
  intros [E Hnd]. unfold fetchSettles. destruct (fetches s !! i) as [f |] eqn:Ef; [| done].
  apply list_elem_of_split_length in Ef as (l1 & l2 & El & ->). rewrite E, El, delete_middle.
  rewrite El, map_app in Hnd. cbn [map] in Hnd. apply NoDup_app in Hnd as (N1 & N2 & [N3 N4]%NoDup_cons).
  assert (Hf : filter (fun x => x <> fetchId f) (map fetchId (l1 ++ f :: l2)) = map fetchId (l1 ++ l2)).
  { rewrite !map_app, filter_app. cbn [map]. rewrite filter_cons_False by naive_solver.
    rewrite !filter_all; [done | |]; apply Forall_forall; intros x Hx ->; [done |]. apply (N2 _ Hx). by left. }
  assert (Hd : NoDup (map fetchId (l1 ++ l2))).
  { rewrite map_app. apply NoDup_app. split_and!; [done | | done]. intros x Hx Hx2. apply (N2 _ Hx). by right. }
  destruct r; split; cbn; done.
Qed.

(** However reports, changes and fetches interleave, a container has at most
    one log fetch under way, and the set that prevents a second one holds exactly
    the containers being asked. *)
Theorem one_log_fetch_per_container docker fl stops l :
  let s := sentinelAfter docker fl stops l in
  NoDup (map fetchId (fetches s)) /\ forall id, id ∈ logFetchesInFlight s <-> exists f, f ∈ fetches s /\ fetchId f = id.
Proof.
  enough (asking (sentinelAfter docker fl stops l)) as [E Hnd].
  { cbv zeta. split; [done |]. intros id. rewrite E, list_elem_of_In, in_map_iff. setoid_rewrite <- list_elem_of_In. naive_solver. }
  induction l as [| e l IH] using rev_ind; [split; [done | constructor] |].
  unfold sentinelAfter in *. rewrite foldl_app. cbn [foldl]. set (s := foldl _ _ l) in *. clearbody s.
  destruct e as [d | now d | now c d | i r | i r | i | n | n after | d |]; cbn [sentinelStep]; try exact IH.
  - unfold bootstrap. by repeat case_match.
  - unfold serviceRunStates. case_match; [done |]. pose proof (asking_observe now d s IH) as Ho.
    destruct (observeServices now d s) as [obs s1]. by destruct (stampStates _ _ _).
  - unfold handleChange. case_match; [done |]. cbv zeta. pose proof (asking_observe now d s IH) as Ho. repeat case_match; exact Ho.
  - by apply asking_settles.
  - unfold onGuard. by case_match.
  - unfold onGuard. by case_match.
Qed.

Lemma observationOf_id d s c o : observationOf d s c = Some o -> obsContainerId o = summaryId c.
Proof. unfold observationOf. cbv zeta. destruct (serviceIdForContainer _); by intros [= <-]. Qed.

Lemma collected_unique d s c o o' :
  NoDup (map summaryId (containers d)) -> c ∈ containers d -> observationOf d s c = Some o ->
  o' ∈ collectServiceObservations d s -> obsContainerId o' = obsContainerId o -> o' = o.
Proof.
  intros Hnd Hc Ho Ho' E. apply list_elem_of_omap in Ho' as (c' & Hc' & Ho').
  pose proof (observationOf_id _ _ _ _ Ho). pose proof (observationOf_id _ _ _ _ Ho').
  pose proof (head_filter_key summaryId _ c Hnd Hc) as Hh. pose proof (head_filter_key summaryId _ c' Hnd Hc') as Hh'.
  assert (Es : summaryId c' = summaryId c) by congruence. rewrite Es in Hh'. rewrite Hh in Hh'. injection Hh' as <-. congruence.
Qed.

Lemma severity_top s : STATE_SEVERITY SvStoppedAfterCrashes <= STATE_SEVERITY s -> s = SvStoppedAfterCrashes.
Proof. by destruct s. Qed.

(** One container stopped by the guard decides the state of its service. *)
Lemma derive_stopped obs now x :
  (length (deriveServiceRunStates obs now) < MAX_SERVICE_RUN_STATES)%nat -> x ∈ obs ->
  containerRunState x now = SvStoppedAfterCrashes ->
  exists y, y ∈ deriveServiceRunStates obs now /\ derivedService y = serviceId x /\ state y = SvStoppedAfterCrashes.
Proof.
  intros Hlen Hx Hs. pose proof (derive_complete obs now x Hlen Hx) as Hin.
  apply list_elem_of_In, in_map_iff in Hin as (y & Ey & Hy%list_elem_of_In). exists y. split_and!; [done | done |].
  destruct (derive_worst obs now y Hy) as (_ & _ & Hall). apply severity_top. rewrite <- Hs. apply Hall.
  by apply list_elem_of_filter.
Qed.

(** When the guard of a running sentinel has stopped a container that is still
    listed, and down, the next report shows its service as stopped after crashes,
    unless two hundred services fill the report. *)
Theorem crash_stop_is_reported fl l now d c o g r run
    (Hknown : containersKnown (sentinelAfter true fl true l) = true)
    (Hg : crashGuard (sentinelAfter true fl true l) = Some g) (Hp : parked (summaryId c) r run g)
    (Hnd : NoDup (map summaryId (containers d))) (Hc : c ∈ containers d)
    (Ho : observationOf d (sentinelAfter true fl true l) c = Some o)
    (Hdown : dockerStatusOf o ∈ (["exited"; "dead"; "paused"] : list jstring)) :
  exists out, (serviceRunStates now d (sentinelAfter true fl true l)).1 = Some out /\
    ((length out < MAX_SERVICE_RUN_STATES)%nat ->
     exists x, x ∈ out /\ derivedService (derived x) = serviceId o /\ state (derived x) = SvStoppedAfterCrashes).
Proof.
  destruct (guard_follows true fl l) as [evs Hf]. rewrite Hg in Hf. injection Hf as ->.
  assert (He : dockerEnabled (sentinelAfter true fl true l) = true) by apply enabled_kept.
  set (s := sentinelAfter true fl true l) in *. clearbody s.
  unfold serviceRunStates. rewrite He, Hknown. cbn [negb orb]. unfold observeServices. rewrite Hg.
  destruct (guardAfter_sound SERVICE_CRASH_LIMIT evs evs ltac:(done) ltac:(done)) as [owners Hw%sound_wired].
  pose proof (observationOf_id _ _ _ _ Ho) as Eid.
  assert (Hin : o ∈ collectServiceObservations d s) by (apply list_elem_of_omap; eauto).
  destruct (parked_review SERVICE_CRASH_LIMIT ltac:(done) (collectServiceObservations d s) now owners (summaryId c) r run _ Hw)
    as (_ & _ & Hall); [| done |].
  { split; [rewrite <- Eid; apply list_elem_of_In, in_map, list_elem_of_In, Hin |]. apply Forall_forall. intros o' Ho' E'. left.
    rewrite (collected_unique d s c o o' Hnd Hc Ho Ho') by congruence.
    split; intros E; rewrite E in Hdown; apply (bool_decide_eq_true_2 _) in Hdown; vm_compute in Hdown; done. }
  destruct (review SERVICE_CRASH_LIMIT _ now _) as [obs g']. cbn [fst] in Hall.
  destruct (stamp_fold (toISOString now) (deriveServiceRunStates obs now) (stamper (scheduleLogFetches obs (setGuard g' s))) []
    (derive_unique obs now)) as [Hout _].
  unfold stampStates. destruct (foldl _ _ (deriveServiceRunStates obs now)) as [m out]. cbn [fst snd] in *. subst out. cbn [app].
  eexists. split; [reflexivity |]. rewrite length_map. intros Hlen.
  apply list_elem_of_lookup in Hin as [j Hj]. destruct (Forall2_lookup_l _ _ _ _ _ Hall Hj) as (x & Hx & (E1 & E2 & E3) & Hcs).
  destruct (derive_stopped obs now x Hlen) as (y & Hy & Ey & Es).
  { apply list_elem_of_lookup. eauto. }
  { apply stopped_down; [auto |]. by rewrite E2. }
  eexists. split; [apply list_elem_of_In, in_map, list_elem_of_In, Hy |]. cbn. split; congruence.
Qed.
End runs.

(** ** Witness *)

#[local] Instance isoOnly : JsDates := {| otherDate := fun _ => None |}.
#[local] Instance wholeTables : JsTables := integerTables.
#[local] Instance unordered : Collation := {| localeLe := fun _ _ => true |}.

Definition webSummary : ContainerSummary :=
  {| summaryId := "c1"; Names := ["/web" : jstring]; summaryImage := "web"; summaryState := "restarting";
     summaryLabels := Some [(SERVICE_LABEL, "svc" : jstring)]; summaryPorts := [] |}.
Definition webInspect (status : jstring) : ContainerInspect :=
  {| inspectId := "c1"; inspectName := "/web"; inspectImage := "sha256:1"; RestartCount := Some 10;
     State := {| Status := status; ExitCode := 1; StartedAt := Some ("1970-01-01T00:00:05.000Z" : jstring);
                 FinishedAt := Some ("1970-01-01T00:00:06.000Z" : jstring); Health := None |};
     configImage := None; configLabels := Some [(SERVICE_LABEL, "svc" : jstring)]; networkPorts := None |}.
Definition dockerWith (status : jstring) : DockerMonitor :=
  setInspects [("c1" : jstring, webInspect status)] (setContainers [webSummary] (newDockerMonitor 10000 30000)).
Definition crashHistory : list sentinelEvent :=
  [Bootstraps (dockerWith "restarting"); Reports 7000 (dockerWith "restarting"); StopSettled 0 (Ok tt); StopEnded 0].

Definition webObservation : ServiceContainerObservation :=
  {| serviceId := "svc"; obsContainerId := "c1"; obsSummary := Some webSummary; obsInspect := Some (webInspect "exited");
     lastLogLine := None; crashStreak := None; crashStopped := None |}.

Lemma crash_stop_is_reported_witness :
  exists out, (serviceRunStates 9000 (dockerWith "exited") (sentinelAfter true false true crashHistory)).1 = Some out /\
    ((length out < MAX_SERVICE_RUN_STATES)%nat ->
     exists x, x ∈ out /\ derivedService (derived x) = "svc" /\ state (derived x) = SvStoppedAfterCrashes).
Proof.
  assert (Hg : exists g, crashGuard (sentinelAfter true false true crashHistory) = Some g /\
                 parked "c1" 0 (Some ("1970-01-01T00:00:05.000Z" : jstring)) g).
  { eexists. split; [vm_compute; reflexivity |]. eexists. split; [split_and!; vm_compute; reflexivity | done]. }
  destruct Hg as (g & Hg & Hp).
  refine (crash_stop_is_reported false crashHistory 9000 (dockerWith "exited") webSummary webObservation g 0 _ _ Hg Hp _ _ _ _).
  - vm_compute. reflexivity.
  - apply (bool_decide_eq_true_1 _). vm_compute. reflexivity.
  - by left.
  - vm_compute. reflexivity.
  - by left.
Defined.
