(* ===== verification/MonWire.v ===== *)
(** * Monitor messages on the wire ([monitor/protocol.ts])

    The guards that read a monitor message from JSON, and that they accept what
    the tracker builds.  Members the guards do not read stay JSON values. *)

From stdpp Require Import list.
From S2P Require Import Prelude Json Number JsonPrint Dates MonState MonDelta.

#[local] Open Scope Z_scope.

Definition MONITOR_RESOURCE_STATUSES : list jstring :=
  map statusName [Unknown; Starting; Healthy; Degraded; Unhealthy; Stopped; Failed; Offline].
Definition MONITOR_RESOURCE_KINDS : list jstring :=
  map resourceKindName [InstanceResource; ProjectResource; ServiceResource; ContainerResource].
Definition MONITOR_MESSAGE_TYPES : list jstring :=
  ["monitor.sync" : jstring; "monitor.heartbeat" : jstring; "monitor.transition" : jstring; "monitor.ack" : jstring].

Definition stringOf (v : option jval) : option jstring := match v with Some (JStr s) => Some s | _ => None end.
Definition isText (v : option jval) : bool := match stringOf v with Some _ => true | None => false end.
Definition finiteOf (v : option jval) : option SpecFloat.spec_float :=
  match v with Some (JNum n) => if num_finite n then Some n else None | _ => None end.
Definition isNumber (v : option jval) : bool := match finiteOf v with Some _ => true | None => false end.
Definition isMonitorResourceStatus (v : option jval) : bool :=
  match stringOf v with Some s => memb s MONITOR_RESOURCE_STATUSES | None => false end.
Definition isMonitorResourceKind (v : option jval) : bool :=
  match stringOf v with Some s => memb s MONITOR_RESOURCE_KINDS | None => false end.

Definition isMonitorResourceState (v : jval) : bool :=
  match v with
  | JObj o => isText (getEntry o "resourceKey") && isMonitorResourceKind (getEntry o "kind")
              && isMonitorResourceStatus (getEntry o "status")
  | _ => false
  end.

(** [value === undefined || check(value)] *)
Definition absentOr (check : option jval -> bool) (v : option jval) : bool := match v with None => true | _ => check v end.

Definition isMonitorEvent (v : jval) : bool :=
  match v with
  | JObj o =>
      isMonitorResourceStatus (getEntry o "toStatus") && isText (getEntry o "at")
      && absentOr isText (getEntry o "resourceKey") && absentOr isMonitorResourceKind (getEntry o "kind")
      && absentOr isMonitorResourceStatus (getEntry o "fromStatus") && absentOr isText (getEntry o "reason")
      && absentOr isNumber (getEntry o "sequence")
  | _ => false
  end.

(** An array whose elements all pass. *)
Definition arrayOf (check : jval -> bool) (v : option jval) : option (list jval) :=
  l ← asArray v; if forallb check l then Some l else None.
(** [undefined], a checked array, or [null] for anything else. *)
Definition optionalArray (check : jval -> bool) (v : option jval) : option (option (list jval)) :=
  match v with None => Some None | _ => Some <$> arrayOf check v end.
Definition optionalResourceStates := optionalArray isMonitorResourceState.
Definition optionalEvents := optionalArray isMonitorEvent.

Record DaemonBuildInfo := {
  commit : jstring; buildId : jstring; builtAt : option jstring; channel : option jstring; version : option jstring
}.
Definition parseDaemonBuildInfo (v : option jval) : option DaemonBuildInfo :=
  o ← asRecord v;
  c ← truthy (stringOf (getEntry o "commit"));
  b ← truthy (stringOf (getEntry o "buildId"));
  Some {| commit := c; buildId := b; builtAt := stringOf (getEntry o "builtAt"); channel := stringOf (getEntry o "channel");
          version := stringOf (getEntry o "version") |}.

Record MonitorDaemonBase := { serverId : jstring; baseAt : jstring; baseSequence : SpecFloat.spec_float }.
Definition parseDaemonBase (o : entries) : option MonitorDaemonBase :=
  if decide (stringOf (getEntry o "from") = Some ("daemon" : jstring)) then
    server ← stringOf (getEntry o "serverId"); at_ ← stringOf (getEntry o "at"); n ← finiteOf (getEntry o "sequence");
    Some {| serverId := server; baseAt := at_; baseSequence := n |}
  else None.

Inductive MonitorMessage :=
| MonitorSync (base : MonitorDaemonBase) (instance : jval) (resources : list jval) (events : option (list jval))
    (daemonBuild : option DaemonBuildInfo)
| MonitorHeartbeat (base : MonitorDaemonBase) (instance : jval) (resources events : option (list jval))
    (daemonBuild : option DaemonBuildInfo)
| MonitorTransition (base : MonitorDaemonBase) (events : list jval) (resources : option (list jval))
| MonitorAck (server at_ : jstring) (acceptedSequence : SpecFloat.spec_float) (resyncNeeded : option bool).

(** [isMonitorInstanceSummary] *)
Definition instanceOf (o : entries) : option jval :=
  if isRecord (getEntry o "instance") then getEntry o "instance" else None.

Definition parseMonitorSync (o : entries) : option MonitorMessage :=
  base ← parseDaemonBase o; instance ← instanceOf o;
  resources ← arrayOf isMonitorResourceState (getEntry o "resources");
  events ← optionalEvents (getEntry o "events");
  if decide ((finiteOf (getEntry o "protocolVersion") ≫= integer_of) = Some MONITOR_PROTOCOL_VERSION)
  then Some (MonitorSync base instance resources events (parseDaemonBuildInfo (getEntry o "daemonBuild"))) else None.

Definition parseMonitorHeartbeat (o : entries) : option MonitorMessage :=
  base ← parseDaemonBase o; instance ← instanceOf o;
  resources ← optionalResourceStates (getEntry o "resources");
  events ← optionalEvents (getEntry o "events");
  Some (MonitorHeartbeat base instance resources events (parseDaemonBuildInfo (getEntry o "daemonBuild"))).

Definition parseMonitorTransition (o : entries) : option MonitorMessage :=
  base ← parseDaemonBase o;
  events ← arrayOf isMonitorEvent (getEntry o "events");
  resources ← optionalResourceStates (getEntry o "resources");
  Some (MonitorTransition base events resources).

Definition parseMonitorAck (o : entries) : option MonitorMessage :=
  if decide (stringOf (getEntry o "from") = Some ("instance" : jstring)) then
    server ← stringOf (getEntry o "serverId"); at_ ← stringOf (getEntry o "at"); n ← finiteOf (getEntry o "acceptedSequence");
    match getEntry o "resyncNeeded" with
    | None => Some (MonitorAck server at_ n None)
    | Some (JBool b) => Some (MonitorAck server at_ n (Some b))
    | _ => None
    end
  else None.

Definition parseMonitorMessageObject (o : entries) : option MonitorMessage :=
  type ← stringOf (getEntry o "type");
  if decide (type = "monitor.sync") then parseMonitorSync o
  else if decide (type = "monitor.heartbeat") then parseMonitorHeartbeat o
  else if decide (type = "monitor.transition") then parseMonitorTransition o
  else if decide (type = "monitor.ack") then parseMonitorAck o
  else None.

Definition parseMonitorMessage (raw : jval) : option MonitorMessage :=
  match raw with
  | JStr text => match JSON_parse text with Ok (JObj o) => parseMonitorMessageObject o | _ => None end
  | JObj o => parseMonitorMessageObject o
  | _ => None
  end.

(** ** What the tracker builds *)

Definition wireResource (r : MonitorResourceState) : jval :=
  match resourceSnapshotForDiff r with
  | JObj o => JObj (o ++ memberOpt "updatedAt" (JStr <$> updatedAt r))
  | v => v
  end.
Definition wireEvent (e : MonitorEvent) : jval :=
  JObj ([("resourceKey" : jstring, JStr (eventKey e)); ("kind" : jstring, JStr (resourceKindName (eventKind e)))]
        ++ memberOpt "fromStatus" ((fun s => JStr (statusName s)) <$> fromStatus e)
        ++ [("toStatus" : jstring, JStr (statusName (toStatus e))); ("at" : jstring, JStr (eventAt e));
            ("reason" : jstring, JStr (reason e)); ("sequence" : jstring, JNum (num_of_Z (eventSequence e)))]).
(** A payload with its sender, as the members [from] and [serverId] added to it. *)
Definition wireOf (server : jstring) (p : payload) : jval :=
  let head type at_ n := [("type" : jstring, JStr type); ("at" : jstring, JStr at_); ("sequence" : jstring, JNum (num_of_Z n))] in
  let sender := [("from" : jstring, JStr "daemon"); ("serverId" : jstring, JStr server)] in
  match p with
  | MonitorSyncPayload at_ n instance resources v =>
      JObj (head "monitor.sync" at_ n ++ [("instance" : jstring, instance); ("resources" : jstring, JArr (map wireResource resources));
            ("protocolVersion" : jstring, JNum (num_of_Z v))] ++ sender)
  | MonitorHeartbeatPayload at_ n instance resources evs =>
      JObj (head "monitor.heartbeat" at_ n ++ [("instance" : jstring, instance)]
            ++ memberOpt "resources" ((fun l => JArr (map wireResource l)) <$> resources)
            ++ memberOpt "events" ((fun l => JArr (map wireEvent l)) <$> evs) ++ sender)
  | MonitorTransitionPayload at_ n evs resources =>
      JObj (head "monitor.transition" at_ n ++ [("events" : jstring, JArr (map wireEvent evs));
            ("resources" : jstring, JArr (map wireResource resources))] ++ sender)
  end.

Definition payloadNumber (p : payload) : Z :=
  match p with MonitorSyncPayload _ n _ _ _ | MonitorHeartbeatPayload _ n _ _ _ | MonitorTransitionPayload _ n _ _ => n end.
Definition payloadTime (p : payload) : jstring :=
  match p with MonitorSyncPayload a _ _ _ _ | MonitorHeartbeatPayload a _ _ _ _ | MonitorTransitionPayload a _ _ _ => a end.
Definition payloadEvents (p : payload) : list MonitorEvent :=
  match p with
  | MonitorSyncPayload _ _ _ _ _ => []
  | MonitorHeartbeatPayload _ _ _ _ evs => default [] evs
  | MonitorTransitionPayload _ _ evs _ => evs
  end.

(** The message a payload means. *)
Definition messageOf (server : jstring) (p : payload) : MonitorMessage :=
  let base := {| serverId := server; baseAt := payloadTime p; baseSequence := num_of_Z (payloadNumber p) |} in
  match p with
  | MonitorSyncPayload _ _ instance resources _ => MonitorSync base instance (map wireResource resources) None None
  | MonitorHeartbeatPayload _ _ instance resources evs =>
      MonitorHeartbeat base instance (map wireResource <$> resources) (map wireEvent <$> evs) None
  | MonitorTransitionPayload _ _ evs resources => MonitorTransition base (map wireEvent evs) (Some (map wireResource resources))
  end.

Definition representable (n : Z) : Prop := Z.abs n < 2 ^ 53.
(** Numbers are representable, the instance summary is an object, a sync has the protocol's version. *)
Definition wellBuilt (p : payload) : Prop :=
  representable (payloadNumber p) /\ Forall (fun e => representable (eventSequence e)) (payloadEvents p) /\
  match p with
  | MonitorSyncPayload _ _ instance _ v => isRecord (Some instance) = true /\ v = MONITOR_PROTOCOL_VERSION
  | MonitorHeartbeatPayload _ _ instance _ _ => isRecord (Some instance) = true
  | MonitorTransitionPayload _ _ _ _ => True
  end.

Lemma representable_number n : representable n -> finiteOf (Some (JNum (num_of_Z n))) = Some (num_of_Z n).
Proof. intros Hn. unfold finiteOf. by rewrite (integer_finite _ n (num_of_Z_exact n Hn)). Qed.

Lemma status_known s : isMonitorResourceStatus (Some (JStr (statusName s))) = true.
Proof. by destruct s. Qed.
Lemma kind_known k : isMonitorResourceKind (Some (JStr (resourceKindName k))) = true.
Proof. by destruct k. Qed.

Lemma resource_accepted r : isMonitorResourceState (wireResource r) = true.
Proof.
  change (isText (Some (JStr (resourceKey r))) && isMonitorResourceKind (Some (JStr (resourceKindName (kind r))))
          && isMonitorResourceStatus (Some (JStr (statusName (resourceStatus r)))) = true).
  by rewrite status_known, kind_known.
Qed.

Lemma event_accepted e : representable (eventSequence e) -> isMonitorEvent (wireEvent e) = true.
Proof.
  destruct e as [k kd from to at_ rs n]. cbn [eventSequence]. intros Hn.
  assert (Hnum : isNumber (Some (JNum (num_of_Z n))) = true) by (unfold isNumber; by rewrite representable_number).
  destruct from as [s |].
  - change (isMonitorResourceStatus (Some (JStr (statusName to))) && true && true && isMonitorResourceKind (Some (JStr (resourceKindName kd)))
            && isMonitorResourceStatus (Some (JStr (statusName s))) && true && isNumber (Some (JNum (num_of_Z n))) = true).
    by rewrite !status_known, kind_known, Hnum.
  - change (isMonitorResourceStatus (Some (JStr (statusName to))) && true && true && isMonitorResourceKind (Some (JStr (resourceKindName kd)))
            && true && true && isNumber (Some (JNum (num_of_Z n))) = true).
    by rewrite status_known, kind_known, Hnum.
Qed.

Lemma all_accepted {A} (check : jval -> bool) (f : A -> jval) l :
  Forall (fun x => check (f x) = true) l -> arrayOf check (Some (JArr (map f l))) = Some (map f l).
Proof.
  intros Hl. unfold arrayOf. cbn [asArray mbind option_bind]. replace (forallb check (map f l)) with true; [done |].
  symmetry. induction Hl as [| x l Hx _ IH]; [done |]. cbn. by rewrite Hx.
Qed.

Lemma resources_accepted l : arrayOf isMonitorResourceState (Some (JArr (map wireResource l))) = Some (map wireResource l).
Proof. apply all_accepted, Forall_forall. intros r _. apply resource_accepted. Qed.
Lemma events_accepted l :
  Forall (fun e => representable (eventSequence e)) l -> arrayOf isMonitorEvent (Some (JArr (map wireEvent l))) = Some (map wireEvent l).
Proof. intros Hl. apply all_accepted. eapply Forall_impl; [exact Hl |]. apply event_accepted. Qed.

Lemma base_read server at_ n o :
  representable n -> getEntry o "from" = Some (JStr "daemon") -> getEntry o "serverId" = Some (JStr server) ->
  getEntry o "at" = Some (JStr at_) -> getEntry o "sequence" = Some (JNum (num_of_Z n)) ->
  parseDaemonBase o = Some {| serverId := server; baseAt := at_; baseSequence := num_of_Z n |}.
Proof.
  intros Hn E1 E2 E3 E4. unfold parseDaemonBase. rewrite E1, E2, E3, E4, representable_number by done.
  by rewrite decide_True.
Qed.

Lemma optional_read {A} (check : jval -> bool) (f : A -> jval) (l : option (list A)) :
  (forall x, l = Some x -> arrayOf check (Some (JArr (map f x))) = Some (map f x)) ->
  optionalArray check ((fun x => JArr (map f x)) <$> l) = Some (map f <$> l).
Proof. destruct l as [l |]; [| done]. intros Hl. cbn [fmap option_fmap option_map optionalArray]. by rewrite Hl. Qed.

Lemma heartbeat_read o base inst rs evs :
  parseDaemonBase o = Some base -> getEntry o "instance" = Some inst -> isRecord (Some inst) = true ->
  getEntry o "resources" = (fun l => JArr (map wireResource l)) <$> rs ->
  getEntry o "events" = (fun l => JArr (map wireEvent l)) <$> evs -> getEntry o "daemonBuild" = None ->
  Forall (fun e => representable (eventSequence e)) (default [] evs) ->
  parseMonitorHeartbeat o = Some (MonitorHeartbeat base inst (map wireResource <$> rs) (map wireEvent <$> evs) None).
Proof.
  intros Eb Ei Hi Er Ee Ed He. unfold parseMonitorHeartbeat, instanceOf. rewrite Eb, Ei, Hi. cbn [mbind option_bind].
  unfold optionalResourceStates, optionalEvents. rewrite Er, Ee, Ed.
  rewrite (optional_read isMonitorResourceState) by (intros x _; apply resources_accepted).
  by rewrite (optional_read isMonitorEvent) by (intros x ->; by apply events_accepted).
Qed.

(** Every message the tracker builds is accepted by the wire guards and read
    as what was built: same number, time, instance, resources and events. *)
Theorem built_messages_are_read server p (Hp : wellBuilt p) :
  parseMonitorMessage (wireOf server p) = Some (messageOf server p).
Proof.
  destruct Hp as (Hn & He & Hx). destruct p as [at_ n inst rs v | at_ n inst rs evs | at_ n evs rs]; cbn [payloadNumber payloadEvents] in *.
  - destruct Hx as [Hi ->]. change (parseMonitorMessage _) with (parseMonitorSync
      [("type" : jstring, JStr "monitor.sync"); ("at" : jstring, JStr at_); ("sequence" : jstring, JNum (num_of_Z n));
       ("instance" : jstring, inst); ("resources" : jstring, JArr (map wireResource rs));
       ("protocolVersion" : jstring, JNum (num_of_Z MONITOR_PROTOCOL_VERSION)); ("from" : jstring, JStr "daemon");
       ("serverId" : jstring, JStr server)]).
    unfold parseMonitorSync. rewrite (base_read server at_ n) by done. cbn [mbind option_bind].
    change (instanceOf _) with (if isRecord (Some inst) then Some inst else None). rewrite Hi. cbn [mbind option_bind].
    change (getEntry _ "resources") with (Some (JArr (map wireResource rs))). rewrite resources_accepted. reflexivity.
  - change (parseMonitorMessage (wireOf server ?p)) with
      (match wireOf server p with JObj o => parseMonitorHeartbeat o | _ => None end). cbn [wireOf].
    apply heartbeat_read; try done; try (by destruct rs, evs). apply base_read; try done; by destruct rs, evs.
  - change (parseMonitorMessage (wireOf server ?p)) with
      (match wireOf server p with JObj o => parseMonitorTransition o | _ => None end). cbn [wireOf].
    unfold parseMonitorTransition. rewrite (base_read server at_ n) by done. cbn [mbind option_bind].
    change (getEntry _ "events") with (Some (JArr (map wireEvent evs))). rewrite events_accepted by done. cbn [mbind option_bind].
    change (getEntry _ "resources") with (Some (JArr (map wireResource rs))).
    unfold optionalResourceStates, optionalArray. rewrite resources_accepted. reflexivity.
Qed.

Lemma built_messages_are_read_witness :
  parseMonitorMessage (wireOf "srv" (MonitorTransitionPayload "1970-01-01T00:00:00.000Z" 7
    [status_change (containerNamed "a" Healthy 0) (containerNamed "a" Failed 0) "1970-01-01T00:00:00.000Z" 7] [containerNamed "a" Failed 0]))
  = Some (messageOf "srv" (MonitorTransitionPayload "1970-01-01T00:00:00.000Z" 7
    [status_change (containerNamed "a" Healthy 0) (containerNamed "a" Failed 0) "1970-01-01T00:00:00.000Z" 7] [containerNamed "a" Failed 0])).
Proof. apply built_messages_are_read. split; [done |]. split; [repeat constructor; done | exact I]. Defined.
