(* ===== verification/DepCompose.v ===== *)
(** * The resolved compose model ([deploy/compose-final-policy.ts], [deploy/compose-reserved-labels.ts])

    Before a tenant's compose file runs, the daemon judges the model Docker
    Compose resolved it to, a JSON document: labels that would make a container
    the platform's, service keys that reach the host, reserved host ports,
    volumes and networks with driver options, and built images named like the
    platform's.  A finding refuses the deploy. *)

From stdpp Require Import list.
From S2P Require Import Prelude Regex Json Number JsonPrint GateHttp GatePlatform GatePolicy GateConfig MonState.

#[local] Open Scope N_scope.

(** ** Reading a document *)

Definition orNone (v : option entries) : entries := default [] v.
Definition stringIn (o : entries) (k : jstring) : option jstring :=
  match getEntry o k with Some (JStr s) => Some s | _ => None end.
(** The entries of a member that is an object, in enumeration order; none otherwise. *)
Definition entriesIn (o : entries) (k : jstring) : entries := ownEntries (orNone (asRecord (getEntry o k))).
Definition recordEntries (l : entries) : list (jstring * entries) :=
  omap (fun x => match x.2 with JObj o => Some (x.1, o) | _ => None end) l.

(** [toLowerCase], as far as comparing with ASCII text goes: of the letters above
    Latin-1 only the Kelvin sign becomes an ASCII letter alone. *)
Definition loweredText (s : jstring) : jstring := map (fun c => if c =? 8490 then 107 else lowerUnit c) s.

(** ** Labels only the platform sets *)

Definition LABEL_RAW_PORT : jstring := "com.turbopanel.raw-port".
Definition SYSTEM_COMPONENT_LABEL : jstring := "com.turbopanel.system.component".
Definition RESERVED_KEYS : list jstring :=
  [LABEL_ROLE; SYSTEM_COMPONENT_LABEL; "tp.managed.engine"; "com.turbopanel.approval"; LABEL_RAW_PORT].
Definition RESERVED_PREFIXES : list jstring := ["turbopanel."; "com.turbopanel.system."; "tp."; "traefik."].

Definition isReserved (key : jstring) : bool :=
  let folded := loweredText (trim key) in
  memb folded RESERVED_KEYS || existsb (fun p => startsWith p folded) RESERVED_PREFIXES.

Definition labelKeys (v : option jval) : list jstring :=
  match v with
  | Some (JArr l) => omap (fun x => match x with JStr s => Some (takeWhile (fun c => negb (c =? 61)) s) | _ => None end) l
  | Some (JObj o) => ownKeys o
  | _ => []
  end.

Definition LABELLED_SECTIONS : list jstring := ["services"; "volumes"; "networks"].
Definition reservedOwnerLabels (document : entries) : list jstring :=
  LABELLED_SECTIONS ≫= fun section =>
  recordEntries (entriesIn document section) ≫= fun '(name, spec) =>
  map (fun key => section ++ 46 :: name ++ (": " : jstring) ++ key) (filter (fun k => isReserved k = true) (labelKeys (getEntry spec "labels"))).

Definition COMPOSE_RESERVED_LABEL_CODE : jstring := "compose_reserved_label".
Definition assertNoReservedOwnerLabels (document : entries) : result jstring unit :=
  match reservedOwnerLabels document with
  | [] => Ok tt
  | found =>
      Throw (91 :: COMPOSE_RESERVED_LABEL_CODE ++ ("] the compose file sets labels that only TurboPanel itself may set (" : jstring)
             ++ join ", " found ++ ("); remove those labels" : jstring))
  end.

(** ** Host-level keys *)

Definition HOST_LEVEL_SERVICE_KEYS : list jstring :=
  ["cap_add"; "cgroup"; "cgroup_parent"; "device_cgroup_rules"; "devices"; "ipc"; "network_mode"; "pid"; "privileged";
   "runtime"; "security_opt"; "sysctls"; "use_api_socket"; "userns_mode"; "uts"; "volumes_from"].
Definition HOST_LEVEL_DEVICE_KEYS : list jstring := ["gpus"; "group_add"].
Definition PLATFORM_IMAGE_REPOSITORIES : list jstring :=
  ["traefik"; "tecnativa/docker-socket-proxy"; "proxysql/proxysql"; "percona/percona-orchestrator";
   "ghcr.io/railwayapp/railpack-frontend"].
Definition RESERVED_HOST_PORT_RANGES : list (Z * Z) :=
  [(80, 80); (443, 443); (2019, 2019); (2029, 2029); (2039, 2039); (6070, 6070); (7080, 7081); (7443, 7443);
   (18080, 18999); (19100, 19799)]%Z.

(** Whether a value counts as set. *)
Definition isSet (v : option jval) : bool :=
  match v with
  | None | Some JNull | Some (JBool false) => false
  | Some (JArr l) => negb (bool_decide (length l = 0%nat))
  | Some (JObj o) => negb (bool_decide (length o = 0%nat))
  | Some (JStr s) => negb (bool_decide (s = []))
  | _ => true
  end.

Definition setsKey (name key : jstring) : jstring :=
  ("service " : jstring) ++ name ++ (" sets `" : jstring) ++ key ++ ("`" : jstring).
Definition hostLevelServiceFindings (name : jstring) (service : entries) : list jstring :=
  map (setsKey name) (filter (fun k => isSet (getEntry service k) = true) HOST_LEVEL_SERVICE_KEYS).

(** A member that is an object, or an empty one. *)
Definition recordIn (o : entries) (k : jstring) : entries := orNone (asRecord (getEntry o k)).
Definition deviceFindings (name : jstring) (service : entries) : list jstring :=
  let reservations := recordIn (recordIn (recordIn service "deploy") "resources") "reservations" in
  map (setsKey name)
    (filter (fun k => isSet (getEntry service k) = true) HOST_LEVEL_DEVICE_KEYS
     ++ (if isSet (getEntry reservations "devices") then ["deploy.resources.reservations.devices" : jstring] else [])).

(** ** Images *)

Definition DOCKER_HUB_HOSTS : list jstring := ["docker.io/"; "index.docker.io/"; "registry-1.docker.io/"].
Definition stripPrefix (p s : jstring) : jstring := if startsWith p s then drop (length p) s else s.
Definition indexOr (i : option nat) : Z := match i with Some n => Z.of_nat n | None => (-1)%Z end.
Definition imageRepository (reference : jstring) : jstring :=
  let repo := loweredText (trim reference) in
  let repo := match indexOf 64 repo with Some n => take n repo | None => repo end in
  let repo := if (indexOr (lastIndexOf 47 repo) <? indexOr (lastIndexOf 58 repo))%Z
              then match lastIndexOf 58 repo with Some n => take n repo | None => repo end else repo in
  let repo := foldl (fun r host => stripPrefix host r) repo DOCKER_HUB_HOSTS in
  stripPrefix "library/" repo.

Definition imageShadowFindings (name : jstring) (service : entries) : list jstring :=
  if negb (isSet (getEntry service "build")) then []
  else
    let tags := match asRecord (getEntry service "build") ≫= fun b => asArray (getEntry b "tags") with Some l => l | None => [] end in
    let names := omap (fun v => match v with JStr s => Some s | _ => None end) (match getEntry service "image" with Some v => [v] | None => [] end ++ tags) in
    map (fun n => ("service " : jstring) ++ name ++ (" builds an image named `" : jstring) ++ n ++ ("`, a name the platform uses" : jstring))
      (filter (fun n => imageRepository n ∈ PLATFORM_IMAGE_REPOSITORIES) names).

(** ** Ports *)

Section ports.
Context `{JsTables}.

Definition publishedRange (port : option jval) : option (Z * Z) :=
  let text := match port with Some (JNum n) => Some (number_text n) | Some (JStr s) => Some s | _ => None end in
  t ← text;
  let parts := split 45 (trim t) in
  let from := default [] (head parts) in
  let to := match parts with _ :: x :: _ => x | _ => from end in
  lo ← integer_of (numberOfText from);
  hi ← integer_of (numberOfText to);
  Some (lo, hi).

Definition portRangeText (r : Z * Z) : jstring :=
  if (r.1 =? r.2)%Z then integerText r.1 else integerText r.1 ++ 45 :: integerText r.2.
Definition describeReservedHostPorts : jstring := join ", " (map portRangeText RESERVED_HOST_PORT_RANGES).

Definition hitsReserved (range : Z * Z) : bool :=
  existsb (fun r => (range.1 <=? r.2)%Z && (r.1 <=? range.2)%Z) RESERVED_HOST_PORT_RANGES.
Definition reservedPortFinding (name : jstring) (entry : jval) : list jstring :=
  match asRecord (Some entry) ≫= fun o => publishedRange (getEntry o "published") with
  | Some range =>
      if hitsReserved range
      then [("service " : jstring) ++ name ++ (" publishes host port " : jstring) ++ integerText range.1
            ++ (", which the platform reserves for its own services (reserved host ports: " : jstring)
            ++ describeReservedHostPorts ++ ("); publish a different host port" : jstring)]
      else []
  | None => []
  end.
Definition reservedPortFindings (name : jstring) (service : entries) : list jstring :=
  default [] (asArray (getEntry service "ports")) ≫= reservedPortFinding name.
End ports.

(** ** Volumes and networks *)

Definition SAFE_TMPFS_KEYS : list jstring := ["size"; "mode"; "uid"; "gid"; "nr_inodes"; "nr_blocks"].
Definition SAFE_TMPFS_FLAGS : list jstring := ["noexec"; "nosuid"; "nodev"; "noatime"; "ro"; "rw"].
(** [/^(size|mode|uid|gid|nr_inodes|nr_blocks)=[\w.]+$/] *)
Definition SAFE_TMPFS_OPTION (flag : jstring) : bool :=
  existsb (fun k => startsWith (k ++ [61]) flag
                    && negb (bool_decide (drop (S (length k)) flag = []))
                    && forallb (fun c => is_word c || (c =? 46)) (drop (S (length k)) flag)) SAFE_TMPFS_KEYS.

Definition normText (v : option jval) : option jstring := match v with Some (JStr s) => Some (loweredText (trim s)) | _ => None end.
Definition mountOptions (opts : entries) : list jstring :=
  match getEntry opts "o" with Some (JStr s) => map (fun x => loweredText (trim x)) (split 44 s) | _ => [] end.

Definition isBindStyleVolume (opts : entries) : bool :=
  let type := normText (getEntry opts "type") in
  let o := mountOptions opts in
  memb ("bind" : jstring) o || memb ("rbind" : jstring) o
  || bool_decide (type = Some ("none" : jstring)) || bool_decide (type = Some ("bind" : jstring)).

Definition isSafeTmpfsVolume (opts : entries) : bool :=
  forallb (fun k => memb k ["type" : jstring; "device" : jstring; "o" : jstring]) (ownKeys opts)
  && bool_decide (normText (getEntry opts "type") = Some ("tmpfs" : jstring))
  && match getEntry opts "device" with None => true | v => bool_decide (normText v = Some ("tmpfs" : jstring)) end
  && forallb (fun flag => bool_decide (flag = []) || memb flag SAFE_TMPFS_FLAGS || SAFE_TMPFS_OPTION flag) (mountOptions opts).

(** The driver options of the entries that have an object of them. *)
Definition driverOpts (l : list (jstring * entries)) : list (jstring * entries) :=
  omap (fun x => (fun o => (x.1, o)) <$> asRecord (getEntry x.2 "driver_opts")) l.

Definition volumeFindings (document : entries) : list jstring :=
  map (fun x => ("volume " : jstring) ++ x.1 ++ (" mounts something other than plain Docker storage (overlay, network and other filesystem types can reach host paths; only a sized tmpfs is allowed without host-level approval)" : jstring))
    (filter (fun x => x.2 <> [] /\ isBindStyleVolume x.2 = false /\ isSafeTmpfsVolume x.2 = false)
       (driverOpts (recordEntries (entriesIn document "volumes")))).

Definition bridgeKeys (opts : entries) : list jstring :=
  filter (fun k => startsWith "com.docker.network.bridge." (loweredText (trim k)) = true) (ownKeys opts).
Definition networkFindings (document : entries) : list jstring :=
  map (fun x => ("network " : jstring) ++ x.1 ++ (" sets bridge options (" : jstring) ++ join ", " (bridgeKeys x.2) ++ (")" : jstring))
    (filter (fun x => bridgeKeys x.2 <> []) (driverOpts (recordEntries (entriesIn document "networks")))).

Definition networkName (x : jstring * jval) : jstring :=
  match x.2 with JObj o => default x.1 (stringIn o "name") | _ => x.1 end.
Definition platformNetworkFindings (document : entries) (platformNetworks : list jstring) : list jstring :=
  map (fun x => ("network " : jstring) ++ x.1 ++ (" is the platform's own network " : jstring) ++ networkName x)
    (filter (fun x => networkName x ∈ platformNetworks) (entriesIn document "networks")).

(** ** The verdict *)

Section verdict.
Context `{JsTables}.

Definition serviceFindings (approved : bool) (x : jstring * entries) : list jstring :=
  (if approved then []
   else hostLevelServiceFindings x.1 x.2 ++ deviceFindings x.1 x.2 ++ reservedPortFindings x.1 x.2)
  ++ imageShadowFindings x.1 x.2.

Definition collectComposePolicyFindings (document : entries) (approved : bool) (platformNetworks : list jstring) : list jstring :=
  (recordEntries (entriesIn document "services") ≫= serviceFindings approved)
  ++ platformNetworkFindings document platformNetworks
  ++ (if approved then [] else volumeFindings document ++ networkFindings document).

Definition COMPOSE_POLICY_REFUSED_CODE : jstring := "compose_policy_refused".
Definition assertComposePolicy (document : entries) (approved : bool) (platformNetworks : list jstring) : result jstring unit :=
  match collectComposePolicyFindings document approved platformNetworks with
  | [] => Ok tt
  | findings =>
      Throw (91 :: COMPOSE_POLICY_REFUSED_CODE ++ ("] the compose file is not allowed to run: " : jstring) ++ join "; " findings)
  end.
End verdict.

(** ** What an accepted model is *)

Lemma recordEntries_elem l name spec : (name, JObj spec) ∈ l -> (name, spec) ∈ recordEntries l.
Proof. intros Hin. apply list_elem_of_omap. by exists (name, JObj spec). Qed.

Lemma map_nil {A B} (f : A -> B) l : map f l = [] -> l = [].
Proof. by destruct l. Qed.

Lemma filter_nil_iff {A} (P : A -> Prop) `{forall x, Decision (P x)} l : filter P l = [] -> forall x, x ∈ l -> ~ P x.
Proof. intros E x Hx HP. assert (Hin : x ∈ filter P l) by (by apply list_elem_of_filter). rewrite E in Hin. by apply not_elem_of_nil in Hin. Qed.

(** Labels of a container Compose creates for a service: what the file sets for it
    and Compose's own. *)
Definition labelsFor (spec : entries) (labels : Labels) : Prop :=
  forall k v, getLabel labels k = Some v -> k ∈ labelKeys (getEntry spec "labels") \/ startsWith "com.docker.compose." k = true.


Section accepted.
Context `{JsTables}.

Lemma policy_parts document nets :
  assertComposePolicy document false nets = Ok tt ->
  Forall (fun x => serviceFindings false x = []) (recordEntries (entriesIn document "services")) /\
  platformNetworkFindings document nets = [] /\ volumeFindings document = [] /\ networkFindings document = [].
Proof.
  unfold assertComposePolicy. destruct (collectComposePolicyFindings document false nets) eqn:E; [| done]. intros _.
  unfold collectComposePolicyFindings in E. apply app_nil in E as [E1 [E2 [E3 E4]%app_nil]%app_nil]. by apply bind_nil in E1.
Qed.

Lemma reserved_free range p r :
  hitsReserved range = false -> (range.1 <= p <= range.2)%Z -> r ∈ RESERVED_HOST_PORT_RANGES -> ~ (r.1 <= p <= r.2)%Z.
Proof.
  unfold hitsReserved. rewrite existsb_false_iff, Forall_forall. intros Hf Hp Hr Hin. specialize (Hf r Hr).
  apply andb_false_iff in Hf as [Hf | Hf]; apply Z.leb_gt in Hf; lia.
Qed.

(** What a service of an accepted model may not have. *)
Definition off_host (service : entries) : Prop :=
  (forall key, key ∈ HOST_LEVEL_SERVICE_KEYS ++ HOST_LEVEL_DEVICE_KEYS -> isSet (getEntry service key) = false) /\
  isSet (getEntry (recordIn (recordIn (recordIn service "deploy") "resources") "reservations") "devices") = false /\
  (forall l o range p r, getEntry service "ports" = Some (JArr l) -> JObj o ∈ l -> publishedRange (getEntry o "published") = Some range ->
     (range.1 <= p <= range.2)%Z -> r ∈ RESERVED_HOST_PORT_RANGES -> ~ (r.1 <= p <= r.2)%Z).

Lemma service_off_host x : serviceFindings false x = [] -> off_host x.2.
Proof.
  destruct x as [name service]. unfold serviceFindings. cbn [fst snd]. intros [[E1 [E2 E3]%app_nil]%app_nil _]%app_nil.
  unfold hostLevelServiceFindings in E1. unfold deviceFindings in E2. apply map_nil in E1, E2. apply app_nil in E2 as [E2 E2'].
  split_and!.
  - intros key [Hk | Hk]%elem_of_app; apply not_true_iff_false; [by apply (filter_nil_iff _ _ E1) | by apply (filter_nil_iff _ _ E2)].
  - by destruct (isSet _).
  - intros l o range p r El Ho Er Hp Hr. unfold reservedPortFindings in E3. rewrite El in E3. cbn [asArray default] in E3.
    apply bind_nil in E3. rewrite Forall_forall in E3. specialize (E3 _ Ho). unfold reservedPortFinding in E3.
    cbn [asRecord mbind option_bind] in E3. rewrite Er in E3. destruct (hitsReserved range) eqn:Eh; [done |].
    by apply (reserved_free range p r).
Qed.

(** A compose model accepted without host-level approval has no service key
    that reaches the host and no device, publishes no host port the platform
    reserves, has only named volumes of plain Docker storage, a sized tmpfs or a
    bind (which the path checks confine), sets no bridge options and does not
    name the platform's networks; a built image does not take a platform image's
    name. *)
Theorem accepted_compose_stays_off_host document nets (Hok : assertComposePolicy document false nets = Ok tt) :
  (forall name service, (name, JObj service) ∈ entriesIn document "services" -> off_host service) /\
  (forall name service image, (name, JObj service) ∈ entriesIn document "services" -> isSet (getEntry service "build") = true ->
     getEntry service "image" = Some (JStr image) -> imageRepository image ∉ PLATFORM_IMAGE_REPOSITORIES) /\
  (forall name spec opts, (name, JObj spec) ∈ entriesIn document "volumes" -> getEntry spec "driver_opts" = Some (JObj opts) ->
     opts = [] \/ isBindStyleVolume opts = true \/ isSafeTmpfsVolume opts = true) /\
  (forall name spec opts, (name, JObj spec) ∈ entriesIn document "networks" -> getEntry spec "driver_opts" = Some (JObj opts) ->
     bridgeKeys opts = []) /\
  (forall x, x ∈ entriesIn document "networks" -> networkName x ∉ nets).
Proof.
  destruct (policy_parts document nets Hok) as (Hs & Hn & Hv & Hb). rewrite Forall_forall in Hs.
  assert (Hopts : forall section name spec opts, (name, JObj spec) ∈ entriesIn document section ->
            getEntry spec "driver_opts" = Some (JObj opts) -> (name, opts) ∈ driverOpts (recordEntries (entriesIn document section))).
  { intros section name spec opts Hin E. apply list_elem_of_omap. exists (name, spec). split; [by apply recordEntries_elem |].
    cbn [fst snd]. by rewrite E. }
  split_and!.
  - intros name service Hin. by apply (service_off_host (name, service)), Hs, recordEntries_elem.
  - intros name service image Hin Hbuild Ei Hbad. specialize (Hs _ (recordEntries_elem _ _ _ Hin)).
    unfold serviceFindings in Hs. apply app_nil in Hs as [_ Hs]. cbn [fst snd] in Hs. unfold imageShadowFindings in Hs.
    rewrite Hbuild, Ei in Hs. cbn [negb] in Hs. apply map_nil in Hs. apply (filter_nil_iff _ _ Hs image); [| done].
    apply list_elem_of_omap. exists (JStr image). split; [by left | done].
  - intros name spec opts Hin E. apply map_nil in Hv. pose proof (filter_nil_iff _ _ Hv _ (Hopts _ _ _ _ Hin E)) as Hx. cbn [snd] in Hx.
    destruct (decide (opts = [])); [by left |]. destruct (isBindStyleVolume opts); [auto |]. destruct (isSafeTmpfsVolume opts); [auto |]. naive_solver.
  - intros name spec opts Hin E. apply map_nil in Hb. pose proof (filter_nil_iff _ _ Hb _ (Hopts _ _ _ _ Hin E)) as Hx. cbn [snd] in Hx.
    by destruct (decide (bridgeKeys opts = [])).
  - intros x Hx. apply map_nil in Hn. by apply (filter_nil_iff _ _ Hn).
Qed.
End accepted.

(** ** Witnesses *)

#[local] Instance composeTables : JsTables := integerTables.

Definition webService : entries :=
  [("image" : jstring, JStr "nginx"); ("labels" : jstring, JObj [("com.turbopanel.service" : jstring, JStr "svc")]);
   ("ports" : jstring, JArr [JObj [("published" : jstring, JStr "8000-8010")]])].
Definition webDocument : entries :=
  [("services" : jstring, JObj [("web" : jstring, JObj webService)]);
   ("volumes" : jstring, JObj [("scratch" : jstring, JObj [("driver_opts" : jstring,
      JObj [("type" : jstring, JStr "tmpfs"); ("o" : jstring, JStr "size=64m,noexec")])])])].


Lemma accepted_compose_stays_off_host_witness : off_host webService.
Proof.
  apply (accepted_compose_stays_off_host webDocument ["ingress" : jstring]) with (name := "web"); [vm_compute; reflexivity |]. by left.
Defined.

(** The check refuses what it is for. *)
Example reserved_port_is_refused :
  assertComposePolicy [("services" : jstring, JObj [("web" : jstring, JObj [("ports" : jstring,
    JArr [JObj [("published" : jstring, JStr "18000-18100")]])])])] false [] <> Ok tt.
Proof. vm_compute. discriminate. Qed.
