(* ===== verification/DepBuild.v ===== *)
(** * Build options of a compose model ([deploy/compose-build-policy.ts])

    A build's steps run as root on the engine, so these rules hold whatever was
    approved: no host network, privileges or agent, no secret file outside the
    deployment directory, no name mapped to this host or a metadata address, no
    build source on an internal host.  Addresses are judged as bytes.  Paths
    and URL host names are the platform's ([StdPath], [UrlHost]). *)

From stdpp Require Import list.
From S2P Require Import Prelude Regex Json Number JsonPrint GateHttp GatePolicy GateConfig CtNet MonState DepCompose.

#[local] Open Scope N_scope.

(** [@std/path] *)
Class StdPath := {
  normalize : jstring -> jstring; isAbsolute : jstring -> bool; resolve : jstring -> jstring -> jstring;
  joinPaths : jstring -> jstring -> jstring; relativePath : jstring -> jstring -> jstring;
  dirname : jstring -> jstring; basename : jstring -> jstring
}.
(** [new URL(text).hostname]; [None] when it throws. *)
Class UrlHost := { urlHostname : jstring -> option jstring }.

(** ** Addresses *)

Definition smallNumber (p : jstring) : option N :=
  if forallb is_digit p && (1 <=? N.of_nat (length p)) && (N.of_nat (length p) <=? 3) then
    let n := foldl (fun n d => 10 * n + (d - 48)) 0 p in if n <=? 255 then Some n else None
  else None.
Definition ipv4Bytes (value : jstring) : option (list N) :=
  let parts := split 46 value in
  if decide (length parts = 4%nat) then mapM smallNumber parts else None.

Definition hextet (g : jstring) : option N :=
  if forallb is_hex g && (1 <=? N.of_nat (length g)) && (N.of_nat (length g) <=? 4)
  then Some (foldl (fun n d => 16 * n + hexUnit d) 0 g) else None.
Definition hextetBytes (groups : list jstring) : option (list N) :=
  @concat N <$> mapM (fun g => (fun n => [n / 256; n mod 256]) <$> hextet g) groups.

(** [n.toString(16)] below 65536. *)
Definition hexText (n : N) : jstring :=
  dropWhile (N.eqb 48) [hexDigit (n / 4096); hexDigit ((n / 256) mod 16); hexDigit ((n / 16) mod 16)] ++ [hexDigit (n mod 16)].

Definition withIpv4Tail (groups : list jstring) : option (list jstring) :=
  match last groups with
  | Some t =>
      if hasChar 46 t then
        v4 ← ipv4Bytes t;
        match v4 with
        | [a; b; c; d] => Some (removelast groups ++ [hexText (a * 256 + b); hexText (c * 256 + d)])
        | _ => None
        end
      else Some groups
  | None => Some groups
  end.

Definition groupsOf (half : jstring) : list jstring := match half with [] => [] | _ => split 58 half end.
Definition ipv6Bytes (value : jstring) : option (list N) :=
  match splitPair 58 value with
  | [side] =>
      groups ← withIpv4Tail (groupsOf side);
      if decide (length groups = 8%nat) then hextetBytes groups else None
  | [l; r] =>
      tailGroups ← withIpv4Tail (groupsOf r);
      let n := (length (groupsOf l) + length tailGroups)%nat in
      if decide (n < 8)%nat then hextetBytes (groupsOf l ++ repeat ("0" : jstring) (8 - n) ++ tailGroups) else None
  | _ => None
  end.

(** [startsWith("[") && endsWith("]")] *)
Definition unbracketed (value : jstring) : jstring :=
  if startsWith "[" value && bool_decide (last value = Some 93) then removelast (drop 1 value) else value.
Definition ipBytes (raw : jstring) : option (list N) :=
  let value := unbracketed (trim raw) in
  let value := match indexOf 37 value with Some (S z) => take (S z) value | _ => value end in
  if hasChar 58 value then ipv6Bytes value else ipv4Bytes value.

Inductive Scope := ScInternal | ScPrivate | ScPublic.
#[global] Instance Scope_dec : EqDecision Scope.
Proof. solve_decision. Defined.
Definition SCOPE_RANK (s : Scope) : N := match s with ScPublic => 0 | ScPrivate => 1 | ScInternal => 2 end.

Definition zeros (from to : nat) (b : list N) : bool := forallb (N.eqb 0) (take (to - from) (drop from b)).
Definition embeddedIpv4 (b : list N) : list (list N) :=
  if zeros 0 10 b && (b !!! 10%nat =? 255) && (b !!! 11%nat =? 255) then [drop 12 b]
  else if zeros 0 12 b then [drop 12 b]
  else if (b !!! 0%nat =? 0) && (b !!! 1%nat =? 100) && (b !!! 2%nat =? 255) && (b !!! 3%nat =? 155)
  then (if zeros 4 12 b then [drop 12 b] else [])
  else if (b !!! 0%nat =? 32) && (b !!! 1%nat =? 2) then [take 4 (drop 2 b)]
  else if (b !!! 0%nat =? 32) && (b !!! 1%nat =? 1) && (b !!! 2%nat =? 0) && (b !!! 3%nat =? 0)
  then [take 4 (drop 4 b); map (fun x => N.lxor x 255) (drop 12 b)]
  else [].

Definition AWS_V6_METADATA : list N := [253; 0; 14; 194] ++ repeat 0 10 ++ [2; 84].

Definition ipv4Scope (q : list N) : Scope :=
  let a := q !!! 0%nat in let b := q !!! 1%nat in let c := q !!! 2%nat in let d := q !!! 3%nat in
  if (a =? 0) || (a =? 127) || (224 <=? a) then ScInternal
  else if (a =? 169) && (b =? 254) then ScInternal
  else if (a =? 100) && (b =? 100) && (c =? 100) && (d =? 200) then ScInternal
  else if (a =? 10) || ((a =? 172) && (16 <=? b) && (b <=? 31)) then ScPrivate
  else if ((a =? 192) && (b =? 168)) || ((a =? 100) && (64 <=? b) && (b <=? 127)) then ScPrivate
  else ScPublic.

Definition isLocalNat64 (b : list N) : bool :=
  (b !!! 0%nat =? 0) && (b !!! 1%nat =? 100) && (b !!! 2%nat =? 255) && (b !!! 3%nat =? 155) && (b !!! 4%nat =? 0) && (b !!! 5%nat =? 1).

Definition worseScope (worst scope : Scope) : Scope := if SCOPE_RANK worst <? SCOPE_RANK scope then scope else worst.
Definition ipv6Scope (b : list N) : Scope :=
  let embedded := foldl worseScope ScPublic (map ipv4Scope (embeddedIpv4 b)) in
  if decide (embedded <> ScPublic) then embedded
  else if isLocalNat64 b then ScPrivate
  else if (b !!! 0%nat =? 255) || ((b !!! 0%nat =? 254) && (N.land (b !!! 1%nat) 192 =? 128)) then ScInternal
  else if decide (b = AWS_V6_METADATA) then ScInternal
  else if N.land (b !!! 0%nat) 254 =? 252 then ScPrivate else ScPublic.

Definition ipScope (raw : jstring) : option Scope :=
  b ← ipBytes raw; Some (if decide (length b = 4%nat) then ipv4Scope b else ipv6Scope b).

(** ** Rules *)

Inductive BuildPolicyCode :=
| build_network_refused | build_privileged_refused | build_entitlements_refused | build_ssh_refused
| build_secret_outside_project | build_extra_host_internal | build_context_internal_url | build_remote_source_refused.
Definition buildCodeName (c : BuildPolicyCode) : jstring :=
  match c with
  | build_network_refused => "build_network_refused" | build_privileged_refused => "build_privileged_refused"
  | build_entitlements_refused => "build_entitlements_refused" | build_ssh_refused => "build_ssh_refused"
  | build_secret_outside_project => "build_secret_outside_project" | build_extra_host_internal => "build_extra_host_internal"
  | build_context_internal_url => "build_context_internal_url" | build_remote_source_refused => "build_remote_source_refused"
  end.
Record BuildPolicyFinding := { findingCode : BuildPolicyCode; findingMessage : jstring }.

Definition NO_OPT_IN : jstring := "builds may not do this, whatever the organization allows".
Definition REMOTE_OPT_IN : jstring :=
  ("an organization owner can allow remote build sources under Manage Organization " : jstring) ++ 8594 :: (" Compose" : jstring).
Definition ALLOWED_BUILD_NETWORKS : list jstring := ["default"; "none"].
Definition RESERVED_SUFFIXES : list jstring :=
  [".localhost"; ".local"; ".internal"; ".arpa"; ".lan"; ".corp"; ".intranet"; ".private"; ".home"].

Definition refuseWith (code : BuildPolicyCode) (what why suffix : jstring) : BuildPolicyFinding :=
  {| findingCode := code; findingMessage := what ++ 32 :: why ++ 32 :: 8212 :: 32 :: suffix |}.
Definition refuse (code : BuildPolicyCode) (what why : jstring) : BuildPolicyFinding := refuseWith code what why NO_OPT_IN.

Definition ticked (s : jstring) : jstring := 96 :: s ++ [96].

Section rules.
Context `{JsTables} `{StdPath} `{UrlHost}.

(** [describeUnknown] of a JSON value or [undefined]. *)
Definition describeUnknown (v : option jval) : jstring :=
  match v with
  | None => "undefined"
  | Some (JStr s) => s
  | Some JNull => "null"
  | Some (JBool b) => if b then "true" else "false"
  | Some (JNum n) => number_text n
  | Some v => JSON_stringify v
  end.

Record Ctx := { topLevelSecrets : entries; stageDir : jstring; exemptSecretNames : list jstring; remoteBuildSourcesApproved : bool }.

Definition absentValue (v : option jval) : bool := match v with None | Some JNull => true | _ => false end.
Definition serviceBuild (name : jstring) : jstring := ("service " : jstring) ++ name ++ (" build" : jstring).

Definition checkPrivileges (name : jstring) (build : entries) : list BuildPolicyFinding :=
  let network := getEntry build "network" in
  let privileged := getEntry build "privileged" in
  (if absentValue network || match network with Some (JStr s) => memb s ALLOWED_BUILD_NETWORKS | _ => false end then []
   else [refuse build_network_refused (serviceBuild name ++ (" network " : jstring) ++ ticked (describeUnknown network))
           "is refused: only `default` and `none` keep the build off the host network"])
  ++ (if absentValue privileged || match privileged with Some (JBool false) => true | _ => false end then []
      else [refuse build_privileged_refused (serviceBuild name) "is privileged, which runs it with full host privileges"])
  ++ (if absentValue (getEntry build "entitlements") then []
      else [refuse build_entitlements_refused (serviceBuild name ++ (" entitlements" : jstring)) "grant the build host-level privileges"]).

(** Ids that forward the agent: no key path. *)
Definition sshAgentId (item : jval) : list jstring :=
  match item with
  | JStr s =>
      match indexOf 61 s with
      | None => [s]
      | Some eq => if decide (eq = (length s - 1)%nat) then [if bool_decide (last s = Some 61) then removelast s else s] else []
      end
  | _ => []
  end.
Definition noPath (v : jval) : bool := match v with JNull | JStr [] => true | _ => false end.
Definition sshAgentIds (ssh : option jval) : list jstring :=
  match ssh with
  | Some (JArr l) => l ≫= sshAgentId
  | Some (JObj o) => map fst (filter (fun x => noPath x.2 = true) (ownEntries o))
  | Some (JStr s) => if hasChar 61 s then [] else [s]
  | _ => []
  end.
Definition checkSsh (name : jstring) (ssh : option jval) : list BuildPolicyFinding :=
  map (fun id => refuse build_ssh_refused (serviceBuild name ++ (" ssh " : jstring) ++ ticked id) "forwards the daemon's SSH agent into the build")
    (sshAgentIds ssh).

Definition isWithin (child parent : jstring) : bool :=
  bool_decide (child = parent)
  || startsWith (if bool_decide (last parent = Some 47) then parent else parent ++ [47]) child.

Definition secretSource (entry : jval) : option jval :=
  match entry with JObj o => getEntry o "source" | v => Some v end.
Definition secretInside (ctx : Ctx) (file : jval) : bool :=
  match file with
  | JStr f => negb (hasChar 36 f) && isWithin (normalize (if isAbsolute f then f else resolve (stageDir ctx) f)) (stageDir ctx)
  | _ => false
  end.
Definition checkSecret (ctx : Ctx) (name : jstring) (entry : jval) : list BuildPolicyFinding :=
  match secretSource entry with
  | Some (JStr source) =>
      if memb source (exemptSecretNames ctx) then []
      else match asRecord (getEntry (topLevelSecrets ctx) source) ≫= fun spec => getEntry spec "file" with
           | None => []
           | Some file =>
               if secretInside ctx file then []
               else [refuse build_secret_outside_project
                       (serviceBuild name ++ (" secret " : jstring) ++ ticked source ++ (" file " : jstring) ++ ticked (describeUnknown (Some file)))
                       "is outside the deployment directory"]
           end
  | _ => []
  end.
Definition checkSecrets (ctx : Ctx) (name : jstring) (secrets : option jval) : list BuildPolicyFinding :=
  default [] (asArray secrets) ≫= checkSecret ctx name.

Record HostEntry := { hostLabel : jstring; hostIp : jval }.
Definition extraHostItem (item : jval) : HostEntry :=
  match item with
  | JStr s =>
      let at_ := match indexOf 61 s with Some n => Some n | None => indexOf 58 s end in
      {| hostLabel := s; hostIp := JStr (match at_ with Some n => drop (S n) s | None => [] end) |}
  | v => {| hostLabel := "?"; hostIp := v |}
  end.
Definition extraHostEntries (value : option jval) : list HostEntry :=
  match value with
  | Some (JArr l) => map extraHostItem l
  | Some (JObj o) =>
      ownEntries o ≫= fun x =>
      map (fun ip => {| hostLabel := x.1 ++ 61 :: describeUnknown (Some ip); hostIp := ip |}) (match x.2 with JArr l => l | v => [v] end)
  | _ => []
  end.
Definition extraHostReason (ip : jval) : option jstring :=
  match ip with
  | JStr s =>
      if decide (trim s = "host-gateway") then Some ("maps a name to this host itself" : jstring)
      else match ipScope s with
           | None => Some ("is not an IP address" : jstring)
           | Some ScInternal => Some ("points at a loopback, link-local, unspecified or metadata address" : jstring)
           | Some _ => None
           end
  | _ => Some ("is not an address" : jstring)
  end.
Definition checkExtraHosts (name : jstring) (value : option jval) : list BuildPolicyFinding :=
  extraHostEntries value ≫= fun h =>
  match extraHostReason (hostIp h) with
  | Some why => [refuse build_extra_host_internal (serviceBuild name ++ (" extra host " : jstring) ++ ticked (hostLabel h)) why]
  | None => []
  end.

(** *** Remote contexts *)

(** [/^(?:0x[0-9a-f]*|\d+)$/i] *)
Definition NUMERIC_LABEL_RE (l : jstring) : bool :=
  match l with
  | 48 :: x :: ds => (memb x [120; 88] && forallb is_hex ds) || forallb is_digit l
  | [] => false
  | _ => forallb is_digit l
  end.

Definition endsWith (suffix s : jstring) : bool := startsWith (rev suffix) (rev s).
Definition stripDots (s : jstring) : jstring := rev (dropWhile (N.eqb 46) (rev s)).
Definition hostOf (rawHost : jstring) : jstring :=
  let h := loweredText rawHost in
  let h := match h with 91 :: t => t | _ => h end in
  let h := if bool_decide (last h = Some 93) then removelast h else h in
  stripDots h.
Definition internalHostReason (rawHost : jstring) : option jstring :=
  let host := hostOf rawHost in
  if decide (host = []) then Some ("names no host" : jstring)
  else match ipScope host with
       | Some ScPublic => None
       | Some _ => Some ("is not a public address" : jstring)
       | None =>
           if forallb NUMERIC_LABEL_RE (split 46 host)
           then Some ("is a numeric host that resolves to an address this check cannot see" : jstring)
           else if bool_decide (host = "localhost") || negb (hasChar 46 host) || existsb (fun s => endsWith s host) RESERVED_SUFFIXES
           then Some ("names an internal host" : jstring) else None
       end.

Inductive remote := NotRemote | Unparseable | RemoteHost (host : jstring).
(** [/^[a-z][a-z0-9+.-]*:\/\//i] *)
Definition is_scheme_char (c : N) : bool := is_alnum c || (c =? 43) || (c =? 46) || (c =? 45).
Definition hasScheme (value : jstring) : bool :=
  match value with
  | c :: _ => is_alpha c && startsWith "://" (dropWhile is_scheme_char value)
  | [] => false
  end.
Definition remoteHost (value : jstring) : remote :=
  if startsWith "github.com/" (toLowerCase value) then RemoteHost "github.com"
  else if startsWith "git@" value then
    match indexOf 58 value with Some n => RemoteHost (drop 4 (take n value)) | None => Unparseable end
  else if negb (hasScheme value) || startsWith "oci-layout://" (toLowerCase value) || startsWith "docker-image://" (toLowerCase value)
  then NotRemote
  else match urlHostname value with Some h => RemoteHost h | None => Unparseable end.

Definition checkRemoteContext (ctx : Ctx) (what : jstring) (value : option jval) : list BuildPolicyFinding :=
  match value with
  | Some (JStr v) =>
      let verdict h :=
        match h with
        | Some why => [refuse build_context_internal_url (what ++ 32 :: ticked v) why]
        | None =>
            if remoteBuildSourcesApproved ctx then []
            else [refuseWith build_remote_source_refused (what ++ 32 :: ticked v)
                    "fetches the build source from a remote host, which cannot be vetted before deploy" REMOTE_OPT_IN]
        end in
      match remoteHost v with
      | NotRemote => []
      | Unparseable => verdict (Some ("cannot be parsed, so where it points cannot be checked" : jstring))
      | RemoteHost h => verdict (internalHostReason h)
      end
  | _ => []
  end.

Definition checkContexts (ctx : Ctx) (name : jstring) (build : entries) : list BuildPolicyFinding :=
  checkRemoteContext ctx (serviceBuild name ++ (" context" : jstring)) (getEntry build "context")
  ++ (entriesIn build "additional_contexts" ≫= fun x =>
      checkRemoteContext ctx (serviceBuild name ++ (" context " : jstring) ++ ticked x.1) (Some x.2)).

Definition checkService (ctx : Ctx) (x : jstring * entries) : list BuildPolicyFinding :=
  let '(name, service) := x in
  match getEntry service "build" with
  | Some (JStr s) => checkRemoteContext ctx (serviceBuild name ++ (" context" : jstring)) (Some (JStr s))
  | Some (JObj build) =>
      checkPrivileges name build ++ checkSsh name (getEntry build "ssh") ++ checkSecrets ctx name (getEntry build "secrets")
      ++ checkExtraHosts name (getEntry build "extra_hosts") ++ checkContexts ctx name build
  | _ => []
  end.

Definition collectBuildPolicyFindings (document : entries) (dir : jstring) (exempt : list jstring) (remoteApproved : bool)
    : list BuildPolicyFinding :=
  let ctx := {| topLevelSecrets := recordIn document "secrets"; stageDir := normalize dir; exemptSecretNames := exempt;
                remoteBuildSourcesApproved := remoteApproved |} in
  recordEntries (entriesIn document "services") ≫= checkService ctx.

Definition assertComposeBuildPolicy (document : entries) (dir : jstring) (exempt : list jstring) (remoteApproved : bool)
    : result (list BuildPolicyFinding) unit :=
  match collectBuildPolicyFindings document dir exempt remoteApproved with [] => Ok tt | findings => Throw findings end.
End rules.

(** ** Address scopes as address blocks *)

Definition v4Value (q : list N) : N :=
  q !!! 0%nat * 2 ^ 24 + q !!! 1%nat * 2 ^ 16 + q !!! 2%nat * 2 ^ 8 + q !!! 3%nat.
(** [q] is in the block [a.b.c.d/prefix]. *)
Definition inBlock (q : list N) (block : list N * N) : bool :=
  v4Value q / 2 ^ (32 - block.2) =? v4Value block.1 / 2 ^ (32 - block.2).
Definition INTERNAL_BLOCKS : list (list N * N) :=
  [([0; 0; 0; 0], 8); ([127; 0; 0; 0], 8); ([224; 0; 0; 0], 3); ([169; 254; 0; 0], 16); ([100; 100; 100; 200], 32)].
Definition PRIVATE_BLOCKS : list (list N * N) :=
  [([10; 0; 0; 0], 8); ([172; 16; 0; 0], 12); ([192; 168; 0; 0], 16); ([100; 64; 0; 0], 10)].
Definition v4Table (q : list N) : Scope :=
  if existsb (inBlock q) INTERNAL_BLOCKS then ScInternal else if existsb (inBlock q) PRIVATE_BLOCKS then ScPrivate else ScPublic.

(** The whole bytes of a prefix, and the bits of the next one. *)
Definition inPrefix (b : list N) (block : list N * nat) : bool :=
  let whole := (block.2 / 8)%nat in
  let shift := 2 ^ (8 - N.of_nat (block.2 mod 8)) in
  bool_decide (take whole b = take whole block.1)
  && (b !!! whole / shift =? block.1 !!! whole / shift).
(** Multicast, link-local, unique local (the AWS metadata address is one) and local-use NAT64. *)
Definition V6_BLOCKS : list (list N * nat) :=
  [([255; 0], 8%nat); ([254; 128], 10%nat); ([252], 7%nat); ([0; 100; 255; 155; 0; 1; 0], 48%nat)].

Definition is_bytes (b : list N) : Prop := Forall (fun x => x < 256) b.

#[local] Ltac Zify.zify_post_hook ::= Z.to_euclidean_division_equations.

Section v4.
Variables a b c d : N.
Hypothesis bytes4 : a < 256 /\ b < 256 /\ c < 256 /\ d < 256.

(** A block whose test is a test on the bytes. *)
Lemma block_test net p (t : bool) :
  (a * 16777216 + b * 65536 + c * 256 + d) / 2 ^ (32 - p) = v4Value net / 2 ^ (32 - p) <-> t = true ->
  inBlock [a; b; c; d] (net, p) = t.
Proof. intros Ht. apply eq_true_iff_eq. unfold inBlock. cbn [fst snd]. rewrite N.eqb_eq. exact Ht. Qed.

Lemma v4_table : ipv4Scope [a; b; c; d] = v4Table [a; b; c; d].
Proof.
  unfold v4Table, INTERNAL_BLOCKS, PRIVATE_BLOCKS. cbn [existsb].
  rewrite (block_test [0; 0; 0; 0] 8 (a =? 0)) by (change (2 ^ (32 - 8)) with 16777216; change (v4Value _ / _) with 0; rewrite ?andb_true_iff, ?N.eqb_eq, ?N.leb_le; lia).
  rewrite (block_test [127; 0; 0; 0] 8 (a =? 127)) by (change (2 ^ (32 - 8)) with 16777216; change (v4Value _ / _) with 127; rewrite ?andb_true_iff, ?N.eqb_eq, ?N.leb_le; lia).
  rewrite (block_test [224; 0; 0; 0] 3 (224 <=? a)) by (change (2 ^ (32 - 3)) with 536870912; change (v4Value _ / _) with 7; rewrite ?andb_true_iff, ?N.eqb_eq, ?N.leb_le; lia).
  rewrite (block_test [169; 254; 0; 0] 16 ((a =? 169) && (b =? 254)))
    by (change (2 ^ (32 - 16)) with 65536; change (v4Value _ / _) with 43518; rewrite ?andb_true_iff, ?N.eqb_eq, ?N.leb_le; lia).
  rewrite (block_test [100; 100; 100; 200] 32 ((a =? 100) && (b =? 100) && (c =? 100) && (d =? 200)))
    by (change (2 ^ (32 - 32)) with 1; change (v4Value _ / _) with 1684301000; rewrite ?andb_true_iff, ?N.eqb_eq, ?N.leb_le; lia).
  rewrite (block_test [10; 0; 0; 0] 8 (a =? 10)) by (change (2 ^ (32 - 8)) with 16777216; change (v4Value _ / _) with 10; rewrite ?andb_true_iff, ?N.eqb_eq, ?N.leb_le; lia).
  rewrite (block_test [172; 16; 0; 0] 12 ((a =? 172) && (16 <=? b) && (b <=? 31)))
    by (change (2 ^ (32 - 12)) with 1048576; change (v4Value _ / _) with 2753; rewrite ?andb_true_iff, ?N.eqb_eq, ?N.leb_le; lia).
  rewrite (block_test [192; 168; 0; 0] 16 ((a =? 192) && (b =? 168)))
    by (change (2 ^ (32 - 16)) with 65536; change (v4Value _ / _) with 49320; rewrite ?andb_true_iff, ?N.eqb_eq, ?N.leb_le; lia).
  rewrite (block_test [100; 64; 0; 0] 10 ((a =? 100) && (64 <=? b) && (b <=? 127)))
    by (change (2 ^ (32 - 10)) with 4194304; change (v4Value _ / _) with 401; rewrite ?andb_true_iff, ?N.eqb_eq, ?N.leb_le; lia).
  unfold ipv4Scope. cbn [lookup_total list_lookup_total]. rewrite !orb_false_r.
  destruct ((a =? 0) || (a =? 127) || (224 <=? a)) eqn:E1.
  { rewrite <- !orb_assoc in E1. apply orb_true_iff in E1 as [-> | [-> | ->]%orb_true_iff]; rewrite ?orb_true_r; done. }
  rewrite <- !orb_assoc in E1. apply orb_false_iff in E1 as [-> [-> ->]%orb_false_iff]. cbn [orb].
  destruct ((a =? 169) && (b =? 254)); [done |]. destruct ((a =? 100) && (b =? 100) && (c =? 100) && (d =? 200)); [done |]. cbn [orb].
  by destruct ((a =? 10)), ((a =? 172) && (16 <=? b) && (b <=? 31)), ((a =? 192) && (b =? 168)).
Qed.
End v4.

Lemma byte_cases (f g : N -> bool) :
  forallb (fun n => bool_decide (f (N.of_nat n) = g (N.of_nat n))) (seq 0 256) = true -> forall x, x < 256 -> f x = g x.
Proof.
  intros Hall x Hx. apply forallb_forall with (x := N.to_nat x) in Hall; [| apply in_seq; lia].
  apply bool_decide_eq_true in Hall. by rewrite N2Nat.id in Hall.
Qed.
Lemma land_link_local x : x < 256 -> (N.land x 192 =? 128) = (x / 64 =? 2).
Proof. by apply (byte_cases (fun x => N.land x 192 =? 128) (fun x => x / 64 =? 2)). Qed.
Lemma land_unique_local x : x < 256 -> (N.land x 254 =? 252) = (x / 2 =? 126).
Proof. by apply (byte_cases (fun x => N.land x 254 =? 252) (fun x => x / 2 =? 126)). Qed.

Lemma fold_public l : foldl worseScope ScPublic l = ScPublic <-> Forall (fun s => s = ScPublic) l.
Proof.
  assert (Hbad : forall l s, s <> ScPublic -> foldl worseScope s l <> ScPublic).
  { clear l. induction l as [| x l IH]; intros s Hs; [done |]. cbn [foldl]. apply IH. unfold worseScope. by destruct s, x. }
  induction l as [| x l IH]; [split; [constructor | done] |]. rewrite Forall_cons. cbn [foldl]. destruct (decide (x = ScPublic)) as [-> | Hx].
  - change (worseScope ScPublic ScPublic) with ScPublic. rewrite IH. naive_solver.
  - split; [| naive_solver]. intros E. exfalso. revert E. apply Hbad. by destruct x.
Qed.

Definition v6Public (b : list N) : Prop :=
  Forall (fun q => ipv4Scope q = ScPublic) (embeddedIpv4 b) /\ existsb (inPrefix b) V6_BLOCKS = false.

Lemma v6_blocks b0 b1 b2 b3 b4 b5 b6 rest :
  is_bytes (b0 :: b1 :: b2 :: b3 :: b4 :: b5 :: b6 :: rest) ->
  existsb (inPrefix (b0 :: b1 :: b2 :: b3 :: b4 :: b5 :: b6 :: rest)) V6_BLOCKS
  = (b0 =? 255) || ((b0 =? 254) && (N.land b1 192 =? 128)) || (N.land b0 254 =? 252)
    || isLocalNat64 (b0 :: b1 :: b2 :: b3 :: b4 :: b5 :: b6 :: rest).
Proof.
  intros Hb. unfold is_bytes in Hb. rewrite !Forall_cons in Hb. destruct Hb as (H0 & H1 & H2 & H3 & H4 & H5 & H6 & _).
  rewrite land_link_local, land_unique_local by done. unfold V6_BLOCKS. cbn [existsb]. unfold inPrefix, isLocalNat64. cbn [fst snd].
  change (8 / 8)%nat with 1%nat. change (10 / 8)%nat with 1%nat. change (7 / 8)%nat with 0%nat. change (48 / 8)%nat with 6%nat.
  change (2 ^ (8 - N.of_nat (8 mod 8))) with 256. change (2 ^ (8 - N.of_nat (10 mod 8))) with 64.
  change (2 ^ (8 - N.of_nat (7 mod 8))) with 2. change (2 ^ (8 - N.of_nat (48 mod 8))) with 256.
  cbn [take lookup_total list_lookup_total].
  apply eq_true_iff_eq. rewrite !orb_true_iff, !andb_true_iff, !bool_decide_eq_true, !N.eqb_eq.
  change (128 / 64) with 2. change (252 / 2) with 126. rewrite !(N.div_small _ 256) by done. split.
  - intros [[[= ->] _] | [[[= ->] E] | [[_ E] | [[[= -> -> -> -> -> ->] _] | [=]]]]]; tauto.
  - intros [[[-> | [-> E]] | E] | [[[[[-> ->] ->] ->] ->] ->]]; tauto.
Qed.

Lemma v6_public b : is_bytes b -> length b = 16%nat -> ipv6Scope b = ScPublic <-> v6Public b.
Proof.
  intros Hb Hlen. do 7 (destruct b as [| ? b]; [discriminate Hlen |]). unfold v6Public. rewrite v6_blocks by done. unfold ipv6Scope.
  set (e := foldl worseScope ScPublic _).
  assert (He : e = ScPublic <-> Forall (fun q => ipv4Scope q = ScPublic) (embeddedIpv4 (n :: n0 :: n1 :: n2 :: n3 :: n4 :: n5 :: b)))
    by (unfold e; rewrite fold_public, Forall_map; done).
  rewrite <- He. clearbody e. clear He. destruct (decide (e <> ScPublic)) as [He | He]; [naive_solver |].
  assert (Ee : e = ScPublic) by (destruct e; naive_solver). cbn [lookup_total list_lookup_total].
  destruct (isLocalNat64 _); [rewrite orb_true_r; naive_solver |]. rewrite orb_false_r.
  destruct ((n =? 255) || ((n =? 254) && (N.land n0 192 =? 128))); [naive_solver |]. cbn [orb].
  case_decide as Ea; [injection Ea as -> _; naive_solver |]. destruct (N.land n 254 =? 252); naive_solver.
Qed.

Lemma mapM_length {A B} (f : A -> option B) l k : mapM f l = Some k -> length k = length l.
Proof. intros E. apply mapM_Some in E. symmetry. by apply Forall2_length in E. Qed.

Lemma ipv4_bytes value b : ipv4Bytes value = Some b -> is_bytes b /\ length b = 4%nat.
Proof.
  unfold ipv4Bytes. case_decide as Hl; [| done]. intros E. split; [| by rewrite (mapM_length _ _ _ E)].
  apply mapM_Some in E. apply Forall_forall. intros x Hx. apply list_elem_of_lookup in Hx as [i Hi].
  destruct (Forall2_lookup_r _ _ _ _ _ E Hi) as (p & _ & Ep). unfold smallNumber in Ep. case_match; [| done].
  case_match eqn:En; [| done]. apply N.leb_le in En. injection Ep as <-. lia.
Qed.

Lemma hexUnit_small c : is_hex c = true -> hexUnit c < 16.
Proof.
  unfold is_hex, hexUnit, is_digit, in_range. rewrite !orb_true_iff, !andb_true_iff, !N.leb_le.
  destruct ((48 <=? c) && (c <=? 57)) eqn:E1; [apply andb_prop in E1 as [?%N.leb_le ?%N.leb_le]; lia |].
  destruct ((65 <=? c) && (c <=? 70)) eqn:E2; [apply andb_prop in E2 as [?%N.leb_le ?%N.leb_le]; lia |].
  apply andb_false_iff in E1 as [E1%N.leb_gt | E1%N.leb_gt], E2 as [E2%N.leb_gt | E2%N.leb_gt]; lia.
Qed.

Lemma hextet_small g n : hextet g = Some n -> n < 65536.
Proof.
  unfold hextet. destruct (forallb is_hex g && _ && _) eqn:E; [| done]. intros [= <-].
  apply andb_prop in E as [[Hh _]%andb_prop Hl]. apply N.leb_le in Hl.
  assert (Hb : forall acc, forallb is_hex g = true -> foldl (fun n d => 16 * n + hexUnit d) acc g < (acc + 1) * 16 ^ N.of_nat (length g)).
  { clear. induction g as [| c g IH]; intros acc; cbn [foldl forallb length]; [cbn; lia |]. intros [Hc Hg]%andb_prop.
    specialize (IH (16 * acc + hexUnit c) Hg). eapply N.lt_le_trans; [exact IH |].
    pose proof (hexUnit_small c Hc) as Hu.
    rewrite Nat2N.inj_succ, N.pow_succ_r'. nia. }
  specialize (Hb 0 Hh). eapply N.lt_le_trans; [exact Hb |]. rewrite N.add_0_l, N.mul_1_l.
  change 65536 with (16 ^ 4). by apply N.pow_le_mono_r.
Qed.

Lemma hextets_bytes groups b : hextetBytes groups = Some b -> is_bytes b /\ length b = (2 * length groups)%nat.
Proof.
  unfold hextetBytes. intros (l & E & ->)%fmap_Some. revert l E. induction groups as [| g groups IH]; intros l.
  { intros [= <-]. split; [constructor | done]. }
  cbn [mapM]. intros (x & (n & En & ->)%fmap_Some & (l' & El & [= <-])%bind_Some)%bind_Some. destruct (IH l' El) as [Hb Hl].
  pose proof (hextet_small _ _ En). split; [repeat constructor; [lia | lia | exact Hb] |].
  cbn [concat length app]. lia.
Qed.

Lemma ipv6_bytes value b : ipv6Bytes value = Some b -> is_bytes b /\ length b = 16%nat.
Proof.
  unfold ipv6Bytes. destruct (splitPair 58 value) as [| l [| r [| ]]]; try done; intros (groups & Eg & E)%bind_Some; cbv zeta in E;
    case_decide as Hn; try done; apply hextets_bytes in E as [Hb Hl]; (split; [done |]).
  - lia.
  - rewrite Hl, !length_app, repeat_length. lia.
Qed.

Lemma ipBytes_bytes raw b : ipBytes raw = Some b -> is_bytes b /\ (length b = 4%nat \/ length b = 16%nat).
Proof.
  unfold ipBytes. cbv zeta. destruct (hasChar 58 _).
  - intros [? ?]%ipv6_bytes. auto.
  - intros [? ?]%ipv4_bytes. auto.
Qed.

Lemma embedded_table b : is_bytes b -> length b = 16%nat -> Forall (fun q => ipv4Scope q = v4Table q) (embeddedIpv4 b).
Proof.
  intros Hb Hl.
  assert (Hq : forall q, is_bytes q -> length q = 4%nat -> ipv4Scope q = v4Table q).
  { intros q Hbq Hlq. destruct q as [| a [| x [| c [| d [|]]]]]; try discriminate Hlq. unfold is_bytes in Hbq. rewrite !Forall_cons in Hbq.
    apply v4_table. tauto. }
  assert (Hd : forall n, is_bytes (drop n b)) by (intros n; by apply Forall_drop).
  unfold embeddedIpv4. repeat case_match; repeat constructor; apply Hq; try apply Hd; rewrite ?length_take, ?length_map, ?length_drop; try lia.
  - apply Forall_take, Hd.
  - apply Forall_take, Hd.
  - apply Forall_map. eapply Forall_impl; [apply (Hd 12%nat) |]. intros x Hx. cbn in Hx |- *.
    apply (byte_cases (fun x => N.lxor x 255 <? 256) (fun _ => true)) in Hx; [by apply N.ltb_lt | by vm_compute].
Qed.

(** An address literal is judged by address blocks: an IPv4 address by the
    blocks of loopback, link-local, multicast, metadata and private addresses, and
    an IPv6 address is public exactly when it is in no multicast, link-local,
    unique-local or local NAT64 block and every IPv4 address it delivers to is
    public. *)
Theorem scope_is_block_table raw b (Hb : ipBytes raw = Some b) :
  (length b = 4%nat /\ ipScope raw = Some (v4Table b)) \/
  (length b = 16%nat /\ (ipScope raw = Some ScPublic <-> Forall (fun q => v4Table q = ScPublic) (embeddedIpv4 b) /\
                                                existsb (inPrefix b) V6_BLOCKS = false)).
Proof.
  unfold ipScope. rewrite Hb. cbn [mbind option_bind]. destruct (ipBytes_bytes raw b Hb) as [Hbytes [Hl | Hl]]; rewrite Hl; [left | right].
  - split; [done |]. destruct b as [| a [| b [| c [| d [|]]]]]; try discriminate Hl. unfold is_bytes in Hbytes. rewrite !Forall_cons in Hbytes.
    rewrite decide_True by done. rewrite v4_table by tauto. done.
  - split; [done |]. rewrite decide_False by done. pose proof (v6_public b Hbytes Hl) as Hv. unfold v6Public in Hv.
    assert (Hemb : Forall (fun q => ipv4Scope q = v4Table q) (embeddedIpv4 b)) by (by apply embedded_table).
    assert (Hq : Forall (fun q => ipv4Scope q = ScPublic) (embeddedIpv4 b) <-> Forall (fun q => v4Table q = ScPublic) (embeddedIpv4 b)).
    { rewrite !Forall_forall in *. split; intros Hx q Hin; specialize (Hemb q Hin); specialize (Hx q Hin); congruence. }
    rewrite <- Hq, <- Hv. split; [by intros [= ->] | by intros ->].
Qed.

(** ** What an accepted build is *)

Section accepted.
Context `{JsTables} `{StdPath} `{UrlHost}.

(** A context an accepted model may name. *)
Definition vetted (ctx : Ctx) (v : jval) : Prop :=
  forall text, v = JStr text ->
    match remoteHost text with
    | NotRemote => True
    | Unparseable => False
    | RemoteHost host => internalHostReason host = None /\ remoteBuildSourcesApproved ctx = true
    end.

Lemma context_vetted ctx what v : checkRemoteContext ctx what (Some v) = [] -> vetted ctx v.
Proof.
  intros E text ->. cbn [checkRemoteContext] in E. destruct (remoteHost text) as [| | host]; [done | done |].
  destruct (internalHostReason host); [done |]. by destruct (remoteBuildSourcesApproved ctx).
Qed.

Lemma privileges_absent name build :
  checkPrivileges name build = [] ->
  (forall v, getEntry build "network" = Some v -> v = JNull \/ exists s, v = JStr s /\ s ∈ ALLOWED_BUILD_NETWORKS) /\
  (forall v, getEntry build "privileged" = Some v -> v = JNull \/ v = JBool false) /\
  (forall v, getEntry build "entitlements" = Some v -> v = JNull).
Proof.
  unfold checkPrivileges. cbv zeta. intros [E1 [E2 E3]%app_nil]%app_nil. split_and!; intros v Ev; rewrite Ev in *.
  - destruct v; cbn in E1; try done; [by left |]. destruct (memb s ALLOWED_BUILD_NETWORKS) eqn:Em; [| done].
    right. exists s. split; [done |]. by apply memb_true.
  - destruct v as [| [] | | | |]; cbn in E2; try done; auto.
  - by destruct v.
Qed.

Lemma extra_host_scope h ip :
  extraHostReason ip = None -> hostIp h = ip -> exists s sc, ip = JStr s /\ ipScope s = Some sc /\ sc <> ScInternal.
Proof.
  intros E _. unfold extraHostReason in E. destruct ip as [| | | s | |]; try done. case_decide; [done |].
  destruct (ipScope s) as [sc |] eqn:Es; [| done]. exists s, sc. split_and!; [done | done |]. by intros ->.
Qed.

End accepted.

(** ** Witnesses *)

#[local] Instance buildTables : JsTables := integerTables.
#[local] Instance plainPaths : StdPath := {|
  normalize := id; isAbsolute := startsWith "/"; resolve := fun a b => a ++ 47 :: b; joinPaths := fun a b => a ++ 47 :: b;
  relativePath := fun _ b => b; dirname := id; basename := id |}.
#[local] Instance noUrls : UrlHost := {| urlHostname := fun _ => None |}.

Definition appBuild : entries :=
  [("context" : jstring, JStr "/srv/stage/app"); ("network" : jstring, JStr "none");
   ("extra_hosts" : jstring, JArr [JStr "db=203.0.113.7"; JStr "v6=2606:4700::1111"])].
Definition appDocument : entries :=
  [("services" : jstring, JObj [("app" : jstring, JObj [("build" : jstring, JObj appBuild)])])].


Lemma scope_is_block_table_witness :
  (length [0; 100; 255; 155; 0; 0; 0; 0; 0; 0; 0; 0; 169; 254; 169; 254] = 4%nat /\ ipScope "64:ff9b::169.254.169.254" = Some (v4Table [0; 100; 255; 155; 0; 0; 0; 0; 0; 0; 0; 0; 169; 254; 169; 254])) \/
  (length [0; 100; 255; 155; 0; 0; 0; 0; 0; 0; 0; 0; 169; 254; 169; 254] = 16%nat /\
   (ipScope "64:ff9b::169.254.169.254" = Some ScPublic <->
    Forall (fun q => v4Table q = ScPublic) (embeddedIpv4 [0; 100; 255; 155; 0; 0; 0; 0; 0; 0; 0; 0; 169; 254; 169; 254]) /\
    existsb (inPrefix [0; 100; 255; 155; 0; 0; 0; 0; 0; 0; 0; 0; 169; 254; 169; 254]) V6_BLOCKS = false)).
Proof. apply scope_is_block_table. vm_compute. reflexivity. Defined.

(** The metadata address behind NAT64 is refused. *)
Example nat64_metadata_is_internal : ipScope "64:ff9b::169.254.169.254" = Some ScInternal.
Proof. vm_compute. reflexivity. Qed.
