(* ===== verification/DepPaths.v ===== *)
(** * Host paths of a compose model ([deploy/compose-host-paths.ts])

    Every host path a tenant's compose file mounts or reads is resolved on the
    host right before the deploy and refused when it lands outside the
    deployment directory.  [realPath] is the file system's; path functions are
    [StdPath]'s; the YAML parser is [Yaml]'s. *)

From stdpp Require Import list.
From S2P Require Import Prelude Regex Json Number JsonPrint GateHttp GatePolicy MonState DepCompose DepBuild.

#[local] Open Scope N_scope.

Definition DOCKER_SOCKET_PATHS : list jstring := ["/var/run/docker.sock"; "/run/docker.sock"].
Definition RUNTIME_COMPOSE_FILENAME : jstring := "compose.yaml".
Definition COMPOSE_PREVIOUS_DIRNAME : jstring := "previous".
Definition COMPOSE_STAGE_DIRNAME : jstring := ".staging".

Inductive HostPathKind := PathMount | PathRead.
#[global] Instance HostPathKind_dec : EqDecision HostPathKind.
Proof. solve_decision. Defined.

Record HostPathEntry := { what : jstring; path : jstring; pathKind : HostPathKind; readOnly : bool; forBuild : bool }.
Record ComposeHostPathScan := { scanEntries : list HostPathEntry; scanFindings : list jstring }.
Definition emptyScan : ComposeHostPathScan := {| scanEntries := []; scanFindings := [] |}.
Definition pushEntry (e : HostPathEntry) (s : ComposeHostPathScan) : ComposeHostPathScan :=
  {| scanEntries := scanEntries s ++ [e]; scanFindings := scanFindings s |}.
Definition pushFinding (f : jstring) (s : ComposeHostPathScan) : ComposeHostPathScan :=
  {| scanEntries := scanEntries s; scanFindings := scanFindings s ++ [f] |}.

(** The dash of the messages. *)
Definition DASH : jstring := [32; 8212; 32].
Definition BUILD_PATH_NOTE : jstring :=
  "builds may not read outside the project, whatever the organization allows (build_context_outside_project)".
Definition OWNER_TREE_NOTE : jstring :=
  "mount a volume of this environment instead; service folders and other owners' folders are never bind sources".
Definition HOST_LEVEL_NOTE : jstring :=
  "host-level Compose features need an organization owner's opt-in and a manager's deploy".

Definition isRemoteBuildSource (value : jstring) : bool :=
  hasScheme value || startsWith "git@" value || startsWith "service:" value || startsWith "target:" value.
Definition OCI_LAYOUT_PREFIX : jstring := "oci-layout://".

(** ** Collecting the paths of the resolved model *)

(** [/:ro(?:,|$)/] *)
Fixpoint mountsReadOnly (s : jstring) : bool :=
  (startsWith ":ro" s && match drop 3 s with [] => true | c :: _ => c =? 44 end)
  || match s with [] => false | _ :: s' => mountsReadOnly s' end.

Definition serviceVolume (name : jstring) : jstring := ("service " : jstring) ++ name ++ (" volume" : jstring).
Definition collectShortVolume (name volume : jstring) (out : ComposeHostPathScan) : ComposeHostPathScan :=
  match indexOf 58 volume with
  | None => out
  | Some colon =>
      let source := take colon volume in
      if startsWith "/" source || startsWith "." source
      then pushEntry {| what := serviceVolume name ++ 32 :: ticked volume; path := source; pathKind := PathMount;
                        readOnly := mountsReadOnly (drop (S colon) volume); forBuild := false |} out
      else out
  end.
Definition collectLongVolume (name : jstring) (volume : entries) (out : ComposeHostPathScan) : ComposeHostPathScan :=
  let type := stringIn volume "type" in
  if decide (type = Some ("npipe" : jstring))
  then pushFinding (serviceVolume name ++ (" uses an npipe mount, which is not supported" : jstring)) out
  else if decide (type <> Some ("bind" : jstring)) then out
  else
    let target := default ("?" : jstring) (stringIn volume "target") in
    match stringIn volume "source" with
    | None => pushFinding (serviceVolume name ++ 32 :: target ++ (" has no bind source" : jstring)) out
    | Some source =>
        pushEntry {| what := serviceVolume name ++ 32 :: target; path := source; pathKind := PathMount;
                     readOnly := match getEntry volume "read_only" with Some (JBool true) => true | _ => false end; forBuild := false |} out
    end.
Definition collectServiceVolumes (name : jstring) (volumes : option jval) (out : ComposeHostPathScan) : ComposeHostPathScan :=
  foldl (fun out v => match v with
                      | JStr s => collectShortVolume name s out
                      | JObj o => collectLongVolume name o out
                      | _ => out
                      end) out (default [] (asArray volumes)).

Section collect.
Context `{StdPath}.

Definition localBuildContext (build : entries) : option jstring :=
  c ← stringIn build "context"; if isRemoteBuildSource c then None else Some c.
Definition additionalContextPath (v : jval) : option jstring :=
  match v with
  | JStr s =>
      if startsWith OCI_LAYOUT_PREFIX s then Some (drop (length OCI_LAYOUT_PREFIX) s)
      else if isRemoteBuildSource s then None else Some s
  | _ => None
  end.
Definition buildEntry (w p : jstring) : HostPathEntry :=
  {| what := w; path := p; pathKind := PathRead; readOnly := true; forBuild := true |}.
Definition collectBuild (name : jstring) (build : option jval) (out : ComposeHostPathScan) : ComposeHostPathScan :=
  match asRecord build with
  | None => out
  | Some b =>
      let service := ("service " : jstring) ++ name in
      let out := match localBuildContext b with
                 | None => out
                 | Some context =>
                     let out := pushEntry (buildEntry (service ++ (" build context" : jstring)) context) out in
                     match stringIn b "dockerfile" with
                     | Some d => pushEntry (buildEntry (service ++ (" Dockerfile" : jstring)) (if isAbsolute d then d else joinPaths context d)) out
                     | None => out
                     end
                 end in
      foldl (fun out x => match additionalContextPath x.2 with
                          | Some p => pushEntry (buildEntry (service ++ (" build context " : jstring) ++ ticked x.1) p) out
                          | None => out
                          end) out (entriesIn b "additional_contexts")
  end.

Definition collectTopLevelVolume (out : ComposeHostPathScan) (x : jstring * entries) : ComposeHostPathScan :=
  let '(name, opts) := x in
  if decide (opts = []) then out
  else if negb (isBindStyleVolume opts) then out
  else match stringIn opts "device" with
       | Some device =>
           if isAbsolute device
           then pushEntry {| what := ("volume " : jstring) ++ name ++ (" device" : jstring); path := device; pathKind := PathMount;
                             readOnly := memb ("ro" : jstring) (mountOptions opts); forBuild := false |} out
           else pushFinding (("volume " : jstring) ++ name ++ (" binds a device that is not an absolute host path" : jstring)) out
       | None => pushFinding (("volume " : jstring) ++ name ++ (" binds a device that is not an absolute host path" : jstring)) out
       end.
Definition collectTopLevelVolumes (document : entries) (out : ComposeHostPathScan) : ComposeHostPathScan :=
  foldl collectTopLevelVolume out (driverOpts (recordEntries (entriesIn document "volumes"))).

Definition collectFileBacked (label : jstring) (specs : entries) (exempt : list jstring) (out : ComposeHostPathScan) : ComposeHostPathScan :=
  foldl (fun out x => match stringIn x.2 "file" with
                      | Some f =>
                          if memb x.1 exempt then out
                          else pushEntry {| what := label ++ 32 :: x.1 ++ (" file" : jstring); path := f; pathKind := PathMount;
                                            readOnly := true; forBuild := false |} out
                      | None => out
                      end) out (recordEntries specs).

Definition collectResolvedHostPaths (document : entries) (exemptSecretNames : list jstring) : ComposeHostPathScan :=
  let out := foldl (fun out x => collectBuild x.1 (getEntry x.2 "build") (collectServiceVolumes x.1 (getEntry x.2 "volumes") out))
               emptyScan (recordEntries (entriesIn document "services")) in
  let out := collectTopLevelVolumes document out in
  let out := collectFileBacked "config" (entriesIn document "configs") [] out in
  collectFileBacked "secret" (entriesIn document "secrets") exemptSecretNames out.

(** ** Paths only the authored file names *)

Definition fileListPaths (value : jval) : list jstring :=
  omap (fun item => match item with JStr s => Some s | JObj o => stringIn o "path" | _ => None end)
    (match value with JArr l => l | v => [v] end).
Definition sshKeyPaths (value : option jval) : list jstring :=
  match value with
  | Some (JArr l) => omap (fun v => match v with JStr s => (fun eq => drop (S eq) s) <$> indexOf 61 s | _ => None end) l
  | Some (JObj o) => omap (fun x => match x.2 with JStr s => Some s | _ => None end) (ownEntries o)
  | _ => []
  end.
Definition collectExtendsFile (name : jstring) (service : entries) (out : ComposeHostPathScan) : ComposeHostPathScan :=
  match asRecord (getEntry service "extends") ≫= fun e => getEntry e "file" with
  | Some _ => pushFinding (("service " : jstring) ++ name ++ (" `extends.file` pulls another Compose file from the host" : jstring) ++ DASH ++ HOST_LEVEL_NOTE) out
  | None => out
  end.
Definition readEntry (w p : jstring) : HostPathEntry := {| what := w; path := p; pathKind := PathRead; readOnly := true; forBuild := false |}.
Definition collectFileListEntries (name : jstring) (service : entries) (out : ComposeHostPathScan) : ComposeHostPathScan :=
  foldl (fun out key => match getEntry service key with
                        | None | Some JNull => out
                        | Some v => foldl (fun out p => pushEntry (readEntry (("service " : jstring) ++ name ++ 32 :: key) p) out) out (fileListPaths v)
                        end) out ["env_file" : jstring; "label_file" : jstring].
Definition collectBuildSshEntries (name : jstring) (service : entries) (out : ComposeHostPathScan) : ComposeHostPathScan :=
  match asRecord (getEntry service "build") with
  | Some b => foldl (fun out p => pushEntry (buildEntry (("service " : jstring) ++ name ++ (" build SSH key" : jstring)) p) out) out (sshKeyPaths (getEntry b "ssh"))
  | None => out
  end.

(** [parse(yaml, { merge: true })]; [None] when it throws. *)
Class Yaml := { parseYaml : jstring -> option jval }.
Definition collectAuthoredHostPaths `{Yaml} (yaml : jstring) : ComposeHostPathScan :=
  match parseYaml yaml with
  | None => pushFinding "the compose document could not be parsed" emptyScan
  | Some (JObj doc) =>
      let out := match getEntry doc "include" with
                 | None | Some JNull => emptyScan
                 | Some _ => pushFinding (("`include` pulls another Compose file from the host" : jstring) ++ DASH ++ HOST_LEVEL_NOTE) emptyScan
                 end in
      foldl (fun out x => collectBuildSshEntries x.1 x.2 (collectFileListEntries x.1 x.2 (collectExtendsFile x.1 x.2 out)))
        out (recordEntries (entriesIn doc "services"))
  | Some _ => emptyScan
  end.
End collect.

(** ** Resolving on the host *)

Inductive pathError := PathNotFound | NotADirectory | PathFails (message : jstring) | PathNoFuel.
(** The message of an error. *)
Class PathMessages := { pathMessage : pathError -> jstring }.

Section confine.
Context `{StdPath} `{PathMessages}.
Variable realPath : jstring -> result pathError jstring.

Fixpoint existingPrefix (fuel : nat) (p : jstring) : result pathError jstring :=
  match realPath p with
  | Ok r => Ok r
  | Throw (PathNotFound | NotADirectory) =>
      let parent := dirname p in
      if decide (parent = p) then Ok p
      else match fuel with
           | O => Throw PathNoFuel
           | S fuel => r ← existingPrefix fuel parent; Ok (joinPaths r (basename p))
           end
  | Throw e => Throw e
  end.
Definition resolveExistingPrefix (p : jstring) : result pathError jstring := existingPrefix (S (length p)) p.

Definition isStrictlyWithin (child parent : jstring) : bool := negb (bool_decide (child = parent)) && isWithin child parent.

Record ownerTree := { homeRoot : jstring; ownerVolumes : list jstring }.
Record ConfinementOptions := {
  deploymentDir : jstring; optStageDir : jstring; hostLevelApproved : bool; priorMounts : list jstring; tree : option ownerTree
}.
Record ConfinementContext := { opts : ConfinementOptions; realDir : jstring; realStage : jstring; realPrevious : jstring; ctxStageDir : jstring }.

Inductive EntryOutcome := Finding (finding : jstring) | Checked (real : jstring) | Accepted.

Definition unresolvable (label : jstring) (e : pathError) : EntryOutcome :=
  Finding (label ++ (" cannot be resolved on this host (" : jstring) ++ pathMessage e ++ (")" : jstring)).

Definition ownerTreeOutcome (e : HostPathEntry) (label staged : jstring) (ctx : ConfinementContext) : option EntryOutcome :=
  match tree (opts ctx) with
  | None => None
  | Some t =>
      if negb (isWithin staged (normalize (homeRoot t))) then None
      else Some (match head (filter (fun root => isWithin staged root = true) (ownerVolumes t)), forBuild e with
                 | Some volume, false =>
                     match resolveExistingPrefix staged with
                     | Throw err => unresolvable label err
                     | Ok real =>
                         match resolveExistingPrefix volume with
                         | Throw err => unresolvable label err
                         | Ok realVolume =>
                             if isWithin real realVolume then Checked real
                             else Finding (label ++ (" resolves through a symlink to " : jstring) ++ real ++ (", outside its volume folder" : jstring))
                         end
                     end
                 | _, _ => Finding (label ++ (" is inside a site owner's folder but is not one of this environment's volumes" : jstring) ++ DASH ++ OWNER_TREE_NOTE)
                 end)
  end.

Definition hostLevelOutcome (e : HostPathEntry) (label staged : jstring) (ctx : ConfinementContext) : option EntryOutcome :=
  let final why :=
    Some (if forBuild e then Finding (label ++ 32 :: why ++ DASH ++ BUILD_PATH_NOTE)
          else if hostLevelApproved (opts ctx) then Accepted
          else Finding (label ++ 32 :: why ++ DASH ++ HOST_LEVEL_NOTE)) in
  if memb staged DOCKER_SOCKET_PATHS then final ("is the Docker engine socket" : jstring)
  else if negb (isWithin staged (ctxStageDir ctx)) then final ("is outside the deployment directory" : jstring)
  else None.

Definition resolvedPathRefusal (e : HostPathEntry) (label real : jstring) (ctx : ConfinementContext) : option jstring :=
  if negb (isWithin real (realDir ctx))
  then Some (label ++ (" resolves through a symlink to " : jstring) ++ real ++ (", outside the deployment directory" : jstring))
  else if decide (pathKind e <> PathMount) then None
  else if isWithin real (realStage ctx) then Some (label ++ (" is the daemon's staging directory" : jstring))
  else if isWithin real (realPrevious ctx)
  then Some (label ++ (" is the daemon's retained previous deployment, which rollback restores from" : jstring))
  else if bool_decide (real = realDir ctx) && negb (readOnly e)
  then Some (label ++ (" mounts the deployment directory itself writable, which would let a container rewrite " : jstring) ++ RUNTIME_COMPOSE_FILENAME)
  else None.

(** The path as the staged file means it, and where the live directory has it. *)
Definition stagedPath (ctx : ConfinementContext) (p : jstring) : jstring :=
  normalize (if isAbsolute p then p else resolve (ctxStageDir ctx) p).
Definition livePath (ctx : ConfinementContext) (p : jstring) : jstring :=
  joinPaths (deploymentDir (opts ctx)) (relativePath (ctxStageDir ctx) (stagedPath ctx p)).

Definition confineEntry (ctx : ConfinementContext) (e : HostPathEntry) : EntryOutcome :=
  let label := what e ++ 32 :: ticked (path e) in
  if hasChar 36 (path e) then Finding (label ++ (" is interpolated, so where it points cannot be checked" : jstring))
  else
    let staged := stagedPath ctx (path e) in
    match ownerTreeOutcome e label staged ctx with
    | Some o => o
    | None =>
        match hostLevelOutcome e label staged ctx with
        | Some o => o
        | None =>
            match resolveExistingPrefix (livePath ctx (path e)) with
            | Throw err => unresolvable label err
            | Ok real => match resolvedPathRefusal e label real ctx with None => Checked real | Some f => Finding f end
            end
        end
    end.

Definition writableSources (ctx : ConfinementContext) (checked : list (HostPathEntry * jstring)) : list jstring :=
  map snd (filter (fun c : HostPathEntry * jstring => pathKind c.1 = PathMount /\ readOnly c.1 = false) checked)
  ++ map (fun p => match resolveExistingPrefix p with Ok r => r | Throw _ => p end) (priorMounts (opts ctx)).
Definition nestedInWritableBindFindings (checked : list (HostPathEntry * jstring)) (ctx : ConfinementContext) : list jstring :=
  omap (fun c => match head (filter (fun w => isStrictlyWithin c.2 w = true) (writableSources ctx checked)) with
                 | None | Some [] => None
                 | Some holder => Some (what c.1 ++ 32 :: ticked (path c.1) ++ (" sits inside the writable bind " : jstring) ++ holder
                                        ++ (", where a container could replace part of its path with a symlink" : jstring))
                 end) checked.

Definition checkedOf (ctx : ConfinementContext) (l : list HostPathEntry) : list (HostPathEntry * jstring) :=
  omap (fun e => match confineEntry ctx e with Checked real => Some (e, real) | _ => None end) l.
Definition findingsOf (ctx : ConfinementContext) (l : list HostPathEntry) : list jstring :=
  omap (fun e => match confineEntry ctx e with Finding f => Some f | _ => None end) l.

Definition contextOf (o : ConfinementOptions) (dir : jstring) : ConfinementContext :=
  {| opts := o; realDir := dir; realStage := joinPaths dir COMPOSE_STAGE_DIRNAME; realPrevious := joinPaths dir COMPOSE_PREVIOUS_DIRNAME;
     ctxStageDir := normalize (optStageDir o) |}.
Inductive confinement := Refused (findings : list jstring) | DirectoryFails (e : pathError).
Definition assertComposeHostPathsConfined (scans : list ComposeHostPathScan) (o : ConfinementOptions) : result confinement unit :=
  match realPath (deploymentDir o) with
  | Throw e => Throw (DirectoryFails e)
  | Ok dir =>
      let ctx := contextOf o dir in
      let l := scans ≫= scanEntries in
      match (scans ≫= scanFindings) ++ findingsOf ctx l ++ nestedInWritableBindFindings (checkedOf ctx l) ctx with
      | [] => Ok tt
      | findings => Throw (Refused findings)
      end
  end.

(** Writable bind sources of a resolved model. *)
Definition writableMountSources (document : entries) : list jstring :=
  map (fun e => normalize (path e))
    (filter (fun e => pathKind e = PathMount /\ readOnly e = false /\ isAbsolute (path e) = true)
       (scanEntries (collectResolvedHostPaths document []))).
End confine.

(** ** What an accepted deploy mounts *)

(** [@std/path]'s [dirname] shortens a path, and ends at a root or at ["."]. *)
Class StdPathLaws `{StdPath} := {
  dirname_dot : dirname "." = ".";
  dirname_shorter p : dirname p = p \/ dirname p = "." \/ (length (dirname p) < length p)%nat
}.

Section confined.
Context `{StdPath} `{PathMessages}.
Variable realPath : jstring -> result pathError jstring.

(** The rules, path by path. *)
Definition confinedInTree (ctx : ConfinementContext) (e : HostPathEntry) (t : ownerTree) : Prop :=
  forBuild e = false /\
  exists volume real realVolume,
    volume ∈ ownerVolumes t /\ isWithin (stagedPath ctx (path e)) volume = true /\
    resolveExistingPrefix realPath (stagedPath ctx (path e)) = Ok real /\ resolveExistingPrefix realPath volume = Ok realVolume /\
    isWithin real realVolume = true.
Definition confinedInside (ctx : ConfinementContext) (e : HostPathEntry) : Prop :=
  exists real,
    resolveExistingPrefix realPath (livePath ctx (path e)) = Ok real /\ isWithin real (realDir ctx) = true /\
    (pathKind e = PathMount ->
       isWithin real (realStage ctx) = false /\ isWithin real (realPrevious ctx) = false /\ (real = realDir ctx -> readOnly e = true)).
Definition hostLevelPath (ctx : ConfinementContext) (staged : jstring) : Prop :=
  staged ∈ DOCKER_SOCKET_PATHS \/ isWithin staged (ctxStageDir ctx) = false.
Definition inOwnerTree (ctx : ConfinementContext) (staged : jstring) (t : ownerTree) : Prop :=
  tree (opts ctx) = Some t /\ isWithin staged (normalize (homeRoot t)) = true.
Definition confined (ctx : ConfinementContext) (e : HostPathEntry) : Prop :=
  let staged := stagedPath ctx (path e) in
  hasChar 36 (path e) = false /\
  (forall t, inOwnerTree ctx staged t -> confinedInTree ctx e t) /\
  ((forall t, ~ inOwnerTree ctx staged t) ->
     (hostLevelPath ctx staged -> hostLevelApproved (opts ctx) = true /\ forBuild e = false) /\
     (~ hostLevelPath ctx staged -> confinedInside ctx e)).

Lemma ownerTree_none e label staged ctx :
  ownerTreeOutcome realPath e label staged ctx = None -> forall t, ~ inOwnerTree ctx staged t.
Proof.
  unfold ownerTreeOutcome. intros E t [Et Ew]. rewrite Et, Ew in E. done.
Qed.

Lemma ownerTree_some e label ctx o t :
  ownerTreeOutcome realPath e label (stagedPath ctx (path e)) ctx = Some o -> (forall f, o <> Finding f) ->
  inOwnerTree ctx (stagedPath ctx (path e)) t -> confinedInTree ctx e t.
Proof.
  unfold ownerTreeOutcome. intros E Hf [Et Ew]. rewrite Et, Ew in E. cbn [negb] in E. injection E as <-.
  destruct (head _) as [volume |] eqn:Eh; [| by destruct (Hf _ eq_refl)].
  destruct (forBuild e) eqn:Eb; [by destruct (Hf _ eq_refl) |].
  apply head_Some_elem_of in Eh. apply list_elem_of_filter in Eh as [Hw Hin].
  destruct (resolveExistingPrefix realPath (stagedPath ctx (path e))) as [real | err] eqn:Er; [| by destruct (Hf _ eq_refl)].
  destruct (resolveExistingPrefix realPath volume) as [realVolume | err] eqn:Ev; [| by destruct (Hf _ eq_refl)].
  destruct (isWithin real realVolume) eqn:Eww; [| by destruct (Hf _ eq_refl)].
  split; [done |]. by exists volume, real, realVolume.
Qed.

Lemma hostLevel_none e label staged ctx : hostLevelOutcome e label staged ctx = None -> ~ hostLevelPath ctx staged.
Proof.
  unfold hostLevelOutcome. cbv zeta. destruct (memb staged DOCKER_SOCKET_PATHS) eqn:Em; [done |].
  destruct (isWithin staged (ctxStageDir ctx)) eqn:Ew; [| done]. intros _ [Hin | Hn]; [| congruence].
  apply memb_true in Hin. congruence.
Qed.

Lemma hostLevel_some e label staged ctx o :
  hostLevelOutcome e label staged ctx = Some o -> (forall f, o <> Finding f) ->
  hostLevelPath ctx staged /\ hostLevelApproved (opts ctx) = true /\ forBuild e = false.
Proof.
  unfold hostLevelOutcome. cbv zeta. intros E Hf.
  assert (Hp : hostLevelPath ctx staged).
  { unfold hostLevelPath. destruct (memb staged DOCKER_SOCKET_PATHS) eqn:Em; [left; by apply memb_true |].
    destruct (isWithin staged (ctxStageDir ctx)); [done | by right]. }
  split; [exact Hp |].
  destruct (memb staged DOCKER_SOCKET_PATHS), (isWithin staged (ctxStageDir ctx)); try discriminate E; injection E as <-;
    destruct (forBuild e), (hostLevelApproved (opts ctx)); try done; by destruct (Hf _ eq_refl).
Qed.

Lemma refusal_none e label real ctx :
  resolvedPathRefusal e label real ctx = None ->
  isWithin real (realDir ctx) = true /\
  (pathKind e = PathMount ->
     isWithin real (realStage ctx) = false /\ isWithin real (realPrevious ctx) = false /\ (real = realDir ctx -> readOnly e = true)).
Proof.
  unfold resolvedPathRefusal. destruct (isWithin real (realDir ctx)); [| done]. cbn [negb]. split; [done |]. intros Hk.
  rewrite decide_False in H1 by naive_solver. destruct (isWithin real (realStage ctx)); [done |].
  destruct (isWithin real (realPrevious ctx)); [done |]. split_and!; [done | done |]. intros ->. rewrite bool_decide_true in H1 by done.
  by destruct (readOnly e).
Qed.

Lemma entry_confined ctx e : (forall f, confineEntry realPath ctx e <> Finding f) -> confined ctx e.
Proof.
  unfold confineEntry, confined. cbv zeta. set (label := what e ++ 32 :: ticked (path e)). intros Hf. destruct (hasChar 36 (path e)); [by destruct (Hf _ eq_refl) |].
  split; [done |]. destruct (ownerTreeOutcome realPath e label (stagedPath ctx (path e)) ctx) as [o |] eqn:Eo.
  { split; [intros t; exact (ownerTree_some e label ctx o t Eo Hf) |]. intros Hn. unfold ownerTreeOutcome in Eo.
    destruct (tree (opts ctx)) as [t |] eqn:Et; [| done]. destruct (isWithin _ (normalize (homeRoot t))) eqn:Ew; [| done].
    by destruct (Hn t). }
  pose proof (ownerTree_none _ _ _ _ Eo) as Hno. split; [intros t Ht; by destruct (Hno t) |]. intros _.
  destruct (hostLevelOutcome e label (stagedPath ctx (path e)) ctx) as [o |] eqn:El.
  { destruct (hostLevel_some _ _ _ _ _ El Hf) as [Hp Ha]. split; [done |]. intros Hc. by destruct (Hc Hp). }
  pose proof (hostLevel_none _ _ _ _ El) as Hnp. split; [done |]. intros _.
  destruct (resolveExistingPrefix realPath (livePath ctx (path e))) as [real | err] eqn:Er; [| by destruct (Hf _ eq_refl)].
  destruct (resolvedPathRefusal e label real ctx) eqn:Ers; [by destruct (Hf _ eq_refl) |].
  apply refusal_none in Ers. by exists real.
Qed.

Lemma checked_elem ctx l e real : e ∈ l -> confineEntry realPath ctx e = Checked real -> (e, real) ∈ checkedOf realPath ctx l.
Proof. intros Hin E. apply list_elem_of_omap. exists e. by rewrite E. Qed.

Lemma not_nested ctx checked e real w :
  nestedInWritableBindFindings realPath checked ctx = [] -> [] ∉ writableSources realPath ctx checked ->
  (e, real) ∈ checked -> w ∈ writableSources realPath ctx checked -> isStrictlyWithin real w = false.
Proof.
  intros En Hne Hin Hw. apply omap_nil in En. rewrite Forall_forall in En. specialize (En _ Hin). cbn beta in En. cbn [snd fst] in En.
  destruct (head _) as [holder |] eqn:Eh.
  - apply head_Some_elem_of, list_elem_of_filter in Eh as [_ Hin']. by destruct holder.
  - apply head_None in Eh. destruct (isStrictlyWithin real w) eqn:Es; [| done].
    assert (Hc : w ∈ filter (fun w => isStrictlyWithin real w = true) (writableSources realPath ctx checked)) by by apply list_elem_of_filter.
    rewrite Eh in Hc. by apply elem_of_nil in Hc.
Qed.


(** The walk up, without fuel. *)
Inductive resolvesTo : jstring -> result pathError jstring -> Prop :=
| resolves_there p r : realPath p = Ok r -> resolvesTo p (Ok r)
| resolves_fails p e : realPath p = Throw e -> e <> PathNotFound -> e <> NotADirectory -> resolvesTo p (Throw e)
| resolves_root p e : realPath p = Throw e -> e = PathNotFound \/ e = NotADirectory -> dirname p = p -> resolvesTo p (Ok p)
| resolves_parent p e r : realPath p = Throw e -> e = PathNotFound \/ e = NotADirectory -> dirname p <> p ->
    resolvesTo (dirname p) (Ok r) -> resolvesTo p (Ok (joinPaths r (basename p)))
| resolves_parent_fails p e err : realPath p = Throw e -> e = PathNotFound \/ e = NotADirectory -> dirname p <> p ->
    resolvesTo (dirname p) (Throw err) -> resolvesTo p (Throw err).

Lemma existingPrefix_resolves `{!StdPathLaws} fuel p :
  ((p = "." \/ length p < fuel)%nat) -> resolvesTo p (existingPrefix realPath fuel p).
Proof.
  revert p. induction fuel as [| fuel IH]; intros p Hp; cbn [existingPrefix];
    destruct (realPath p) as [r | e] eqn:Er; [by constructor | | by constructor |].
  - assert (Hd : dirname p = p) by (destruct Hp as [-> | Hp]; [apply dirname_dot | lia]).
    destruct e; try (by apply resolves_fails); rewrite decide_True by done; by eapply resolves_root; [| | exact Hd]; eauto.
  - destruct (decide (dirname p = p)) as [Hd | Hd].
    { destruct e; try (by apply resolves_fails); by eapply resolves_root; eauto. }
    assert (Hlt : dirname p = "." \/ (length (dirname p) < fuel)%nat).
    { destruct Hp as [-> | Hp]; [by destruct (Hd dirname_dot) |]. destruct (dirname_shorter p) as [? | [? | ?]]; [done | by left | right; lia]. }
    specialize (IH (dirname p) Hlt).
    destruct e; try (by apply resolves_fails); destruct (existingPrefix realPath fuel (dirname p)) as [r | err];
      cbn [mbind result_bind]; solve [eapply resolves_parent; eauto | eapply resolves_parent_fails; eauto].
Qed.

Lemma resolvesTo_error p e : resolvesTo p (Throw e) -> exists q, realPath q = Throw e.
Proof. intros Hr. remember (Throw e) as o eqn:Eo. revert e Eo. induction Hr; intros e' Eo; simplify_eq; eauto. Qed.

(** Looking for the deepest existing ancestor ends on every path, whatever is
    missing: the fuel is never used up, and the answer is the one of walking up
    until a directory exists and putting the missing names back. *)
Theorem resolution_ends `{!StdPathLaws} p (Hreal : forall q, realPath q <> Throw PathNoFuel) :
  resolvesTo p (resolveExistingPrefix realPath p) /\ resolveExistingPrefix realPath p <> Throw PathNoFuel.
Proof.
  assert (Hr : resolvesTo p (resolveExistingPrefix realPath p)) by (apply existingPrefix_resolves; right; lia).
  split; [exact Hr |]. intros E. rewrite E in Hr. destruct (resolvesTo_error _ _ Hr) as [q Hq]. by destruct (Hreal q).
Qed.
End confined.

(** ** Every path of the model is collected *)

(** The host paths a resolved model names: path, kind, read-only, build. *)
Inductive namesPath `{StdPath} (document : entries) (exempt : list jstring) : jstring -> HostPathKind -> bool -> bool -> Prop :=
| names_long name service l v source :
    (name, JObj service) ∈ entriesIn document "services" -> getEntry service "volumes" = Some (JArr l) -> JObj v ∈ l ->
    stringIn v "type" = Some "bind" -> stringIn v "source" = Some source ->
    namesPath document exempt source PathMount (match getEntry v "read_only" with Some (JBool true) => true | _ => false end) false
| names_short name service l volume colon :
    (name, JObj service) ∈ entriesIn document "services" -> getEntry service "volumes" = Some (JArr l) -> JStr volume ∈ l ->
    indexOf 58 volume = Some colon -> startsWith "/" (take colon volume) || startsWith "." (take colon volume) = true ->
    namesPath document exempt (take colon volume) PathMount (mountsReadOnly (drop (S colon) volume)) false
| names_context name service build context :
    (name, JObj service) ∈ entriesIn document "services" -> getEntry service "build" = Some (JObj build) ->
    stringIn build "context" = Some context -> isRemoteBuildSource context = false -> namesPath document exempt context PathRead true true
| names_other_context name service build x p :
    (name, JObj service) ∈ entriesIn document "services" -> getEntry service "build" = Some (JObj build) ->
    x ∈ entriesIn build "additional_contexts" -> additionalContextPath x.2 = Some p -> namesPath document exempt p PathRead true true
| names_volume name options device :
    (name, options) ∈ driverOpts (recordEntries (entriesIn document "volumes")) -> options <> [] -> isBindStyleVolume options = true ->
    stringIn options "device" = Some device -> isAbsolute device = true ->
    namesPath document exempt device PathMount (memb ("ro" : jstring) (mountOptions options)) false
| names_config name spec f :
    (name, JObj spec) ∈ entriesIn document "configs" -> stringIn spec "file" = Some f -> namesPath document exempt f PathMount true false
| names_secret name spec f :
    (name, JObj spec) ∈ entriesIn document "secrets" -> stringIn spec "file" = Some f -> name ∉ exempt ->
    namesPath document exempt f PathMount true false.

Definition grows (s s' : ComposeHostPathScan) : Prop := scanEntries s ⊆ scanEntries s'.
#[local] Instance grows_preorder : PreOrder grows.
Proof. split; [by intros s x | by intros s1 s2 s3 H1 H2 x Hx; apply H2, H1]. Qed.

Lemma grows_entry e s : grows s (pushEntry e s).
Proof. intros x Hx. apply elem_of_app. by left. Qed.
Lemma grows_finding f s : grows s (pushFinding f s).
Proof. by intros x. Qed.
Lemma grows_if (b : bool) s s1 s2 : grows s s1 -> grows s s2 -> grows s (if b then s1 else s2).
Proof. by destruct b. Qed.
Lemma grows_fold {A} (f : ComposeHostPathScan -> A -> ComposeHostPathScan) l s :
  (forall s x, grows s (f s x)) -> grows s (foldl f s l).
Proof. intros Hf. revert s. induction l as [| x l IH]; intros s; [reflexivity |]. etransitivity; [apply Hf | apply IH]. Qed.
Lemma fold_reaches {A} (f : ComposeHostPathScan -> A -> ComposeHostPathScan) l s x e :
  (forall s x, grows s (f s x)) -> x ∈ l -> (forall s, e ∈ scanEntries (f s x)) -> e ∈ scanEntries (foldl f s l).
Proof.
  intros Hf Hin He. apply list_elem_of_split in Hin as (l1 & l2 & ->). rewrite foldl_app. cbn [foldl].
  exact (grows_fold f l2 _ Hf e (He _)).
Qed.
Lemma pushed e s : e ∈ scanEntries (pushEntry e s).
Proof. apply elem_of_app. right. by left. Qed.

Create HintDb scans.
#[local] Hint Resolve grows_entry grows_finding grows_if grows_fold : scans.
#[local] Hint Extern 1 (grows ?s ?s) => reflexivity : scans.

Section collected.
Context `{StdPath}.

Lemma short_grows name v s : grows s (collectShortVolume name v s).
Proof. unfold collectShortVolume. destruct (indexOf 58 v); auto with scans. Qed.
Lemma long_grows name v s : grows s (collectLongVolume name v s).
Proof. unfold collectLongVolume. cbv zeta. repeat case_match; auto with scans. Qed.
Lemma volume_grows name s v :
  grows s match v with JStr x => collectShortVolume name x s | JObj o => collectLongVolume name o s | _ => s end.
Proof. destruct v; auto using short_grows, long_grows with scans. Qed.
Lemma volumes_grow name v s : grows s (collectServiceVolumes name v s).
Proof. apply grows_fold. intros. apply volume_grows. Qed.
Lemma context_grows label s (x : jstring * jval) :
  grows s match additionalContextPath x.2 with Some p => pushEntry (buildEntry (label ++ ticked x.1) p) s | None => s end.
Proof. destruct (additionalContextPath x.2); auto with scans. Qed.
Lemma build_grows name v s : grows s (collectBuild name v s).
Proof.
  unfold collectBuild. destruct (asRecord v) as [b |]; [| reflexivity]. cbv zeta. etransitivity; [| apply grows_fold].
  - destruct (localBuildContext b); [| reflexivity]. destruct (stringIn b "dockerfile"); [| apply grows_entry].
    etransitivity; apply grows_entry.
  - intros s' x. destruct (additionalContextPath x.2); auto with scans.
Qed.
Lemma topLevel_grows s x : grows s (collectTopLevelVolume s x).
Proof. destruct x as [name o]. unfold collectTopLevelVolume. repeat case_match; auto with scans. Qed.
Lemma topLevels_grow d s : grows s (collectTopLevelVolumes d s).
Proof. apply grows_fold, topLevel_grows. Qed.
Lemma files_grow label specs exempt s : grows s (collectFileBacked label specs exempt s).
Proof. apply grows_fold. intros s' x. repeat case_match; auto with scans. Qed.
Lemma service_grows s (x : jstring * entries) :
  grows s (collectBuild x.1 (getEntry x.2 "build") (collectServiceVolumes x.1 (getEntry x.2 "volumes") s)).
Proof. etransitivity; [apply volumes_grow | apply build_grows]. Qed.

Lemma service_reaches document exempt name service e :
  (name, JObj service) ∈ entriesIn document "services" ->
  (forall s, e ∈ scanEntries (collectBuild name (getEntry service "build") (collectServiceVolumes name (getEntry service "volumes") s))) ->
  e ∈ scanEntries (collectResolvedHostPaths document exempt).
Proof.
  intros Hin He. unfold collectResolvedHostPaths. cbv zeta. apply files_grow, files_grow, topLevels_grow.
  apply (fold_reaches _ _ _ (name, service)); [apply service_grows | by apply recordEntries_elem | exact He].
Qed.

Lemma volume_reaches name l v e s :
  v ∈ l -> (forall s, e ∈ scanEntries match v with JStr x => collectShortVolume name x s | JObj o => collectLongVolume name o s | _ => s end) ->
  e ∈ scanEntries (collectServiceVolumes name (Some (JArr l)) s).
Proof. intros Hin He. apply (fold_reaches _ _ _ v); [apply volume_grows | exact Hin | exact He]. Qed.

Lemma file_reaches label specs exempt name spec f s :
  (name, JObj spec) ∈ specs -> stringIn spec "file" = Some f -> name ∉ exempt ->
  exists e, e ∈ scanEntries (collectFileBacked label specs exempt s) /\ path e = f /\ pathKind e = PathMount /\ readOnly e = true /\ forBuild e = false.
Proof.
  intros Hin Ef He. eexists. split.
  - apply (fold_reaches _ _ _ (name, spec)); [intros s' x; repeat case_match; auto with scans | by apply recordEntries_elem |].
    intros s'. cbn [fst snd]. rewrite Ef. apply memb_false in He. rewrite He. apply pushed.
  - done.
Qed.

(** Every host path of the resolved model is collected for the check, with
    its kind, its read-only flag and whether a build reads it: bind sources in
    long and short form, build contexts, bind-style volume devices, and files of
    configs and of secrets that are not the daemon's own. *)
Theorem model_paths_are_collected document exempt p kind ro build (Hn : namesPath document exempt p kind ro build) :
  exists e, e ∈ scanEntries (collectResolvedHostPaths document exempt) /\ path e = p /\ pathKind e = kind /\ readOnly e = ro /\ forBuild e = build.
Proof.
  destruct Hn as [name service l v source Hin Ev Hl Et Es | name service l volume colon Hin Ev Hl Ec Hp | name service b context Hin Eb Ec Hr
                 | name service b x p Hin Eb Hx Ep | name o device Hin Hne Hb Ed Ha | name spec f Hin Ef | name spec f Hin Ef He].
  - eexists. split; [apply (service_reaches _ _ name service); [done |] |].
    + intros s. rewrite Ev. apply build_grows, (volume_reaches name l (JObj v)); [done |]. intros s'. unfold collectLongVolume. rewrite Et, Es.
      rewrite decide_False by done. rewrite decide_False by naive_solver. apply pushed.
    + done.
  - eexists. split; [apply (service_reaches _ _ name service); [done |] |].
    + intros s. rewrite Ev. apply build_grows, (volume_reaches name l (JStr volume)); [done |]. intros s'. unfold collectShortVolume. rewrite Ec.
      cbv zeta. rewrite Hp. apply pushed.
    + done.
  - exists (buildEntry (("service " : jstring) ++ name ++ (" build context" : jstring)) context). split; [apply (service_reaches _ _ name service); [done |] | done].
    intros s. rewrite Eb. unfold collectBuild. cbn [asRecord]. cbv zeta. unfold localBuildContext. rewrite Ec. cbn [mbind option_bind]. rewrite Hr.
    apply grows_fold; [intros s' x; destruct (additionalContextPath x.2); auto with scans |].
    rewrite app_assoc. destruct (stringIn b "dockerfile"); [apply grows_entry |]; apply pushed.
  - eexists. split; [apply (service_reaches _ _ name service); [done |] |].
    + intros s. rewrite Eb. unfold collectBuild. cbn [asRecord]. cbv zeta.
      apply (fold_reaches _ _ _ x); [intros s' y; destruct (additionalContextPath y.2); auto with scans | done |].
      intros s'. rewrite Ep. apply pushed.
    + done.
  - eexists. split; [unfold collectResolvedHostPaths; cbv zeta; apply files_grow, files_grow, (fold_reaches _ _ _ (name, o)) |].
    + apply topLevel_grows.
    + done.
    + intros s. unfold collectTopLevelVolume. rewrite decide_False by done. rewrite Hb. cbn [negb]. rewrite Ed, Ha. apply pushed.
    + done.
  - unfold collectResolvedHostPaths. cbv zeta. set (s := collectTopLevelVolumes document _).
    destruct (file_reaches "config" (entriesIn document "configs") [] name spec f s Hin Ef) as (e & Hin' & Hrest); [by intros ?%elem_of_nil |].
    exists e. split; [by apply files_grow | exact Hrest].
  - unfold collectResolvedHostPaths. cbv zeta. exact (file_reaches _ _ _ name spec f _ Hin Ef He).
Qed.
End collected.

(** ** Witnesses *)

Definition posixDirname (p : jstring) : jstring :=
  match dropWhile (fun c => negb (c =? 47)) (rev p) with [] => "." | [_] => "/" | _ :: r => rev r end.
Definition posixBasename (p : jstring) : jstring := rev (takeWhile (fun c => negb (c =? 47)) (rev p)).
#[local] Instance posixPaths : StdPath := {|
  normalize := id; isAbsolute := startsWith "/"; resolve := fun a b => a ++ 47 :: b; joinPaths := fun a b => a ++ 47 :: b;
  relativePath := fun a b => drop (S (length a)) b; dirname := posixDirname; basename := posixBasename |}.

#[local] Instance posixLaws : StdPathLaws.
Proof.
  split; [reflexivity |]. intros p. cbn [dirname posixPaths]. unfold posixDirname.
  pose proof (dropWhile_length (fun c => negb (c =? 47)) (rev p)) as Hl. rewrite length_rev in Hl.
  destruct (dropWhile _ (rev p)) as [| a [| b r]] eqn:E; [by right; left | | right; right; rewrite length_rev; cbn in *; lia].
  destruct p as [| c [| d p]]; [done | | right; right; cbn; lia]. left. cbn in E. destruct (c =? 47) eqn:Ec; [| done].
  apply N.eqb_eq in Ec as ->. done.
Qed.
#[local] Instance plainMessages : PathMessages := {| pathMessage := fun _ => "unreadable" |}.

(** Only the deployment directory exists. *)
Definition onlyLive (p : jstring) : result pathError jstring := if decide (p = "/srv/live") then Ok p else Throw PathNotFound.
Definition dataVolume : entries :=
  [("type" : jstring, JStr "bind"); ("source" : jstring, JStr "/srv/live/.staging/data"); ("target" : jstring, JStr "/data")].
Definition dataDocument : entries :=
  [("services" : jstring, JObj [("app" : jstring, JObj [("volumes" : jstring, JArr [JObj dataVolume])])])].
Definition liveOptions : ConfinementOptions :=
  {| deploymentDir := "/srv/live"; optStageDir := "/srv/live/.staging"; hostLevelApproved := false; priorMounts := ["/srv/live/cache"];
     tree := Some {| homeRoot := "/home"; ownerVolumes := [] |} |}.


Lemma resolution_ends_witness :
  resolvesTo onlyLive "/srv/live/data/x" (resolveExistingPrefix onlyLive "/srv/live/data/x") /\
  resolveExistingPrefix onlyLive "/srv/live/data/x" <> Throw PathNoFuel.
Proof. refine (resolution_ends onlyLive _ _). intros q. unfold onlyLive. by case_decide. Defined.

Lemma model_paths_are_collected_witness :
  exists e, e ∈ scanEntries (collectResolvedHostPaths dataDocument []) /\ path e = "/srv/live/.staging/data" /\ pathKind e = PathMount /\
    readOnly e = false /\ forBuild e = false.
Proof.
  apply model_paths_are_collected. apply (names_long _ _ "app" [("volumes" : jstring, JArr [JObj dataVolume])] [JObj dataVolume] dataVolume);
    first [by left | by vm_compute].
Defined.

(** A link that leaves the deployment directory is refused. *)
Example link_out_is_refused :
  assertComposeHostPathsConfined (fun p => if decide (p = "/srv/live") then Ok p else Ok ("/etc" : jstring))
    [collectResolvedHostPaths dataDocument []] liveOptions =
  Throw (Refused ["service app volume /data `/srv/live/.staging/data` resolves through a symlink to /etc, outside the deployment directory"]).
Proof. vm_compute. reflexivity. Qed.
