(* ===== verification/HaProbe.v ===== *)
(** * The dead-primary probe ([managed/pg-dead-primary.ts])

    A detector per PostgreSQL primary turns samples of its container and server
    into observations, counts failures and says when to report the primary
    dead, which starts a failover.  Clocks are whole milliseconds.  A Docker
    call is answered, times out or fails to run ([dockerAnswer]). *)

From stdpp Require Import list sorting.
From S2P Require Import Prelude Json Number JsonPrint GateConfig Dates Log CtParse MonState.

#[local] Open Scope Z_scope.

Definition DEAD_PRIMARY_DETECTION_SCOPE : jstring := "engine-dead-host-alive".
Definition POSTGRES_PROBE_DETECTOR : jstring := "postgres-probe".

Record PgDeadPrimaryConfig := {
  intervalMs : Z; failureThreshold : Z; minFailureSpanMs : Z; rejectingGraceMs : Z; crashRecoveryGraceMs : Z; startGraceMs : Z;
  unresponsiveGraceMs : Z; backoffMs : Z; resendBaseMs : Z; resendMaxMs : Z; maxEventsPerIncident : Z; dockerTimeoutMs : Z;
  pgReadyTimeoutSeconds : Z
}.
Definition DEFAULT_PG_DEAD_PRIMARY_CONFIG : PgDeadPrimaryConfig := {|
  intervalMs := 5000; failureThreshold := 6; minFailureSpanMs := 20000; rejectingGraceMs := 10 * 60000; crashRecoveryGraceMs := 30 * 60000;
  startGraceMs := 60000; unresponsiveGraceMs := 5 * 60000; backoffMs := 5 * 60000; resendBaseMs := 60000; resendMaxMs := 60000;
  maxEventsPerIncident := 25; dockerTimeoutMs := 10000; pgReadyTimeoutSeconds := 3 |}.

(** ** Samples *)

Record ContainerSnapshot := {
  snapStatus : jstring; exitCode : spec_float; restartCount : spec_float; startedAt : option jstring; health : option jstring; oomKilled : bool
}.
Inductive ContainerRead := Present (state : ContainerSnapshot) | Absent | ContainerUnreadable (reason : jstring).
Inductive PgReadyRead := PgExit (code : Z) | PgUnreadable (reason : jstring).

Inductive ControlDataState :=
| InProduction | InCrashRecovery | InArchiveRecovery | ShutDown | ShutDownInRecovery | ShuttingDown | UnknownState | UnreadableState.
#[global] Instance ControlDataState_dec : EqDecision ControlDataState.
Proof. solve_decision. Defined.
Definition controlDataName (s : ControlDataState) : jstring :=
  match s with
  | InProduction => "in production" | InCrashRecovery => "in crash recovery" | InArchiveRecovery => "in archive recovery"
  | ShutDown => "shut down" | ShutDownInRecovery => "shut down in recovery" | ShuttingDown => "shutting down"
  | UnknownState => "unknown" | UnreadableState => "unreadable"
  end.

Inductive PostmasterState := PmRunning | PmStopped | PmUnknown.
#[global] Instance PostmasterState_dec : EqDecision PostmasterState.
Proof. solve_decision. Defined.
Definition postmasterName (s : PostmasterState) : jstring :=
  match s with PmRunning => "running" | PmStopped => "stopped" | PmUnknown => "unknown" end.

Record ProbeSample := {
  container : ContainerRead; pgReady : option PgReadyRead; controlData : option ControlDataState; postmaster : option PostmasterState
}.

Inductive Observation :=
| Healthy | Inconclusive (reason : jstring) | Soft (reason : jstring) (graceMs : Z) | Hard (reason : jstring) | NotPrimary (reason : jstring).

(** ** Classifying *)

Definition DEAD_CONTAINER_STATES : list jstring := ["exited"; "dead"; "restarting"; "created"; "paused"; "removing"].
Definition CRASH_RECOVERY_GRACE_STATES : list ControlDataState := [InCrashRecovery; UnknownState; UnreadableState].

Section classify.
Context `{JsTables} `{JsDates}.

(** [None] is [Infinity]. *)
Definition containerAgeMs (state : ContainerSnapshot) (nowMs : Z) : option Z :=
  text ← truthy (startedAt state); started ← Date_parse text; Some (nowMs - started).

Definition classifyNoResponse (sample : ProbeSample) (state : ContainerSnapshot) (wallMs : Z) (config : PgDeadPrimaryConfig) : Observation :=
  if match containerAgeMs state wallMs with Some age => age <? startGraceMs config | None => false end
  then Soft "postgres not answering yet after container start" (startGraceMs config)
  else if decide (postmaster sample = Some PmStopped) then Hard "postgres not answering and postmaster gone"
  else Soft (("postgres not answering (pg_isready 2), postmaster " : jstring) ++ postmasterName (default PmUnknown (postmaster sample)))
         (unresponsiveGraceMs config).

Definition classifyRejecting (sample : ProbeSample) (config : PgDeadPrimaryConfig) : Observation :=
  if decide (controlData sample = Some InArchiveRecovery) then NotPrimary "engine is in archive recovery"
  else if decide (default UnreadableState (controlData sample) ∈ CRASH_RECOVERY_GRACE_STATES)
  then Soft (("postgres rejecting connections (57P03), control data: " : jstring)
             ++ match controlData sample with Some s => controlDataName s | None => "not read" end) (crashRecoveryGraceMs config)
  else Soft "postgres rejecting connections (57P03)" (rejectingGraceMs config).

Definition classifyPgReady (sample : ProbeSample) (state : ContainerSnapshot) (nowMs : Z) (config : PgDeadPrimaryConfig) : Observation :=
  match pgReady sample with
  | None => Inconclusive "pg_isready unreadable: not run"
  | Some (PgUnreadable reason) => Inconclusive (("pg_isready unreadable: " : jstring) ++ reason)
  | Some (PgExit code) =>
      if code =? 0 then Healthy
      else if code =? 1 then classifyRejecting sample config
      else if code =? 2 then classifyNoResponse sample state nowMs config
      else Inconclusive (("pg_isready exit " : jstring) ++ integerText code)
  end.

Definition classifyProbeSample (sample : ProbeSample) (nowMs : Z) (config : PgDeadPrimaryConfig) : Observation :=
  match container sample with
  | ContainerUnreadable reason => Inconclusive (("container state unreadable: " : jstring) ++ reason)
  | Absent => Hard "engine container absent"
  | Present state =>
      if memb (snapStatus state) DEAD_CONTAINER_STATES
      then Hard (("container " : jstring) ++ snapStatus state ++ (" exit=" : jstring) ++ number_text (exitCode state)
                 ++ (if oomKilled state then " oom" else []))
      else if decide (snapStatus state <> "running") then Inconclusive (("container status " : jstring) ++ snapStatus state)
      else classifyPgReady sample state nowMs config
  end.
End classify.

(** ** The detector *)

Record DeadPrimaryEvidence := {
  evFailures : Z; spanMs : Z; evLastError : jstring; evContainer : option ContainerSnapshot; evScope : jstring; attempt : Z
}.
Record DetectorStepContext := { nowMs : Z; wallMs : option Z; intentActive : bool }.

Record DeadPrimaryDetector := {
  streak : Z; streakStartMs : option Z; softSinceMs : option Z; lastError : jstring; lastContainer : option ContainerSnapshot;
  incidentEvents : Z; nextResendMs : option Z; lastEmitMs : option Z
}.
Definition newDetector : DeadPrimaryDetector := {|
  streak := 0; streakStartMs := None; softSinceMs := None; lastError := []; lastContainer := None;
  incidentEvents := 0; nextResendMs := None; lastEmitMs := None |}.

Definition resetStreak (d : DeadPrimaryDetector) : DeadPrimaryDetector := {|
  streak := 0; streakStartMs := None; softSinceMs := None; lastError := lastError d; lastContainer := lastContainer d;
  incidentEvents := incidentEvents d; nextResendMs := nextResendMs d; lastEmitMs := lastEmitMs d |}.
Definition setSoftSince (s : option Z) (d : DeadPrimaryDetector) : DeadPrimaryDetector := {|
  streak := streak d; streakStartMs := streakStartMs d; softSinceMs := s; lastError := lastError d; lastContainer := lastContainer d;
  incidentEvents := incidentEvents d; nextResendMs := nextResendMs d; lastEmitMs := lastEmitMs d |}.
Definition setLastContainer (c : ContainerSnapshot) (d : DeadPrimaryDetector) : DeadPrimaryDetector := {|
  streak := streak d; streakStartMs := streakStartMs d; softSinceMs := softSinceMs d; lastError := lastError d; lastContainer := Some c;
  incidentEvents := incidentEvents d; nextResendMs := nextResendMs d; lastEmitMs := lastEmitMs d |}.
Definition endIncident (d : DeadPrimaryDetector) : DeadPrimaryDetector := {|
  streak := streak d; streakStartMs := streakStartMs d; softSinceMs := softSinceMs d; lastError := lastError d; lastContainer := lastContainer d;
  incidentEvents := 0; nextResendMs := None; lastEmitMs := lastEmitMs d |}.
Definition recordHard (reason : jstring) (now : Z) (d : DeadPrimaryDetector) : DeadPrimaryDetector := {|
  streak := streak d + 1; streakStartMs := Some (default now (streakStartMs d)); softSinceMs := softSinceMs d; lastError := reason;
  lastContainer := lastContainer d; incidentEvents := incidentEvents d; nextResendMs := nextResendMs d; lastEmitMs := lastEmitMs d |}.

Definition applySoft (reason : jstring) (graceMs now : Z) (d : DeadPrimaryDetector) : DeadPrimaryDetector :=
  let since := default now (softSinceMs d) in
  let d := setSoftSince (Some since) d in
  if graceMs <=? now - since then recordHard (reason ++ (" beyond grace" : jstring)) now d else d.

Definition applyObservation (o : Observation) (now : Z) (d : DeadPrimaryDetector) : DeadPrimaryDetector :=
  match o with
  | Healthy => endIncident (resetStreak d)
  | Inconclusive _ | NotPrimary _ => resetStreak d
  | Soft reason graceMs => applySoft reason graceMs now d
  | Hard reason => recordHard reason now (setSoftSince None d)
  end.

(** [clipKeepingEnd]: the ellipsis is one unit. *)
Definition clipKeepingEnd (text : jstring) (max : nat) : jstring :=
  if (length text <=? max)%nat then text else 8230%N :: drop (length text - max + 1) text.

Section detector.
Context `{JsTables} `{JsDates}.
Variable config : PgDeadPrimaryConfig.

Definition canFire (now : Z) (d : DeadPrimaryDetector) : bool :=
  if streak d <? failureThreshold config then false
  else match streakStartMs d with
       | None => false
       | Some start =>
           if now - start <? minFailureSpanMs config then false
           else if 0 <? incidentEvents d
           then (incidentEvents d <? maxEventsPerIncident config) && match nextResendMs d with Some n => n <=? now | None => false end
           else match lastEmitMs d with None => true | Some l => backoffMs config <=? now - l end
       end.

Definition noteContainer (sample : ProbeSample) (d : DeadPrimaryDetector) : DeadPrimaryDetector :=
  match container sample with Present state => setLastContainer state d | _ => d end.
Definition evidenceOf (now : Z) (d : DeadPrimaryDetector) : DeadPrimaryEvidence := {|
  evFailures := streak d; spanMs := now - default now (streakStartMs d); evLastError := clipKeepingEnd (sanitizeForLog (lastError d)) 300;
  evContainer := lastContainer d; evScope := DEAD_PRIMARY_DETECTION_SCOPE; attempt := incidentEvents d + 1 |}.

(** The verdict is the evidence when it fires. *)
Definition step (sample : ProbeSample) (ctx : DetectorStepContext) (d : DeadPrimaryDetector) : DeadPrimaryDetector * option DeadPrimaryEvidence :=
  if intentActive ctx then (resetStreak d, None)
  else
    let d := noteContainer sample d in
    let d := applyObservation (classifyProbeSample sample (default (nowMs ctx) (wallMs ctx)) config) (nowMs ctx) d in
    (d, if canFire (nowMs ctx) d then Some (evidenceOf (nowMs ctx) d) else None).

Definition markEmitted (now : Z) (d : DeadPrimaryDetector) : DeadPrimaryDetector :=
  let events := incidentEvents d + 1 in
  let interval := Z.min (resendBaseMs config * 2 ^ (events - 1)) (resendMaxMs config) in
  {| streak := streak d; streakStartMs := streakStartMs d; softSinceMs := softSinceMs d; lastError := lastError d; lastContainer := lastContainer d;
     incidentEvents := events; nextResendMs := Some (now + interval); lastEmitMs := Some now |}.
End detector.

(** ** Taking a sample *)

Record dockerResult := { dkSuccess : bool; dkCode : Z; dkStdout : jstring; dkStderr : jstring }.
Inductive dockerAnswer := DockerAnswered (r : dockerResult) | DockerTimedOut | DockerThrew (message : jstring).

(** What [withTimeout] gives: no result after the timeout. *)
Definition withTimeout (a : dockerAnswer) : result jstring (option dockerResult) :=
  match a with DockerAnswered r => Ok (Some r) | DockerTimedOut => Ok None | DockerThrew m => Throw m end.

Section sample.
Context `{JsTables}.
Variable run : list jstring -> dockerAnswer.

Definition parseInspectState (stdout : jstring) : option ContainerSnapshot :=
  let trimmed := trim stdout in
  match lastIndexOf 32 trimmed with
  | None | Some O => None
  | Some at_ =>
      match JSON_parse (take at_ trimmed) with
      | Ok (JObj state) =>
          status ← asString (getEntry state "Status");
          let restarts := numberOfText (drop (S at_) trimmed) in
          Some {| snapStatus := status;
                  exitCode := match getEntry state "ExitCode" with Some (JNum n) => n | _ => num_of_Z 0 end;
                  restartCount := if num_finite restarts then restarts else num_of_Z 0;
                  startedAt := asString (getEntry state "StartedAt");
                  health := match getEntry state "Health" with Some (JObj h) => asString (getEntry h "Status") | _ => None end;
                  oomKilled := match getEntry state "OOMKilled" with Some (JBool true) => true | _ => false end |}
      | _ => None
      end
  end.

(** [/no such (object|container)/i] *)
Definition NO_SUCH_CONTAINER_RE (s : jstring) : bool :=
  includes "no such object" (toLowerCase s) || includes "no such container" (toLowerCase s).

Definition readContainerState (name : jstring) : result jstring ContainerRead :=
  answer ← withTimeout (run ["inspect"; "--type"; "container"; "-f"; "{{json .State}} {{.RestartCount}}"; name]);
  Ok match answer with
     | None => ContainerUnreadable "docker inspect timeout"
     | Some r =>
         if dkSuccess r
         then match parseInspectState (dkStdout r) with
              | Some state => Present state
              | None => ContainerUnreadable "docker inspect output unparseable"
              end
         else if NO_SUCH_CONTAINER_RE (dkStderr r) then Absent
         else ContainerUnreadable (take 200 (sanitizeForLog (match dkStderr r with [] => "docker inspect failed" | s => s end)))
     end.

Definition readPgReady (name : jstring) (config : PgDeadPrimaryConfig) : result jstring PgReadyRead :=
  answer ← withTimeout (run ["exec"; "-u"; "postgres"; name; "pg_isready"; "-q"; "-t"; integerText (pgReadyTimeoutSeconds config);
                             "-U"; "postgres"; "-d"; "postgres"]);
  Ok match answer with
     | None => PgUnreadable "pg_isready timeout"
     | Some r => match trim (dkStderr r) with [] => PgExit (dkCode r) | s => PgUnreadable (clipKeepingEnd (sanitizeForLog s) 200) end
     end.

Definition CONTROL_DATA_STATES : list ControlDataState :=
  [ShutDownInRecovery; InCrashRecovery; InArchiveRecovery; InProduction; ShuttingDown; ShutDown].
Definition CLUSTER_STATE : jstring := "Database cluster state:".
Definition parseControlDataState (stdout : jstring) : ControlDataState :=
  match head (filter (fun line => startsWith CLUSTER_STATE line = true) (split 10 stdout)) with
  | None => UnknownState
  | Some line =>
      let value := trim (drop (length CLUSTER_STATE) line) in
      default UnknownState (head (filter (fun s => controlDataName s = value) CONTROL_DATA_STATES))
  end.
Definition readControlData (name : jstring) : result jstring ControlDataState :=
  answer ← withTimeout (run ["exec"; "-u"; "postgres"; "-e"; "LC_ALL=C"; name; "pg_controldata"]);
  Ok match answer with
     | Some r => if dkSuccess r then parseControlDataState (dkStdout r) else UnreadableState
     | None => UnreadableState
     end.

Definition readPostmaster (name : jstring) : result jstring PostmasterState :=
  answer ← withTimeout (run ["exec"; "-u"; "postgres"; name; "pg_ctl"; "status"]);
  Ok match answer with
     | None => PmUnknown
     | Some r =>
         if dkCode r =? 0 then PmRunning
         else if (dkCode r =? 3) && negb (includes "error response from daemon" (toLowerCase (dkStderr r))) then PmStopped
         else PmUnknown
     end.

Definition sampleManagedPostgres (name : jstring) (config : PgDeadPrimaryConfig) : result jstring ProbeSample :=
  c ← readContainerState name;
  match c with
  | Present state =>
      if decide (snapStatus state <> "running") then Ok {| container := c; pgReady := None; controlData := None; postmaster := None |}
      else
        ready ← readPgReady name config;
        match ready with
        | PgExit 2 => pm ← readPostmaster name; Ok {| container := c; pgReady := Some ready; controlData := None; postmaster := Some pm |}
        | PgExit 1 => cd ← readControlData name; Ok {| container := c; pgReady := Some ready; controlData := Some cd; postmaster := None |}
        | _ => Ok {| container := c; pgReady := Some ready; controlData := None; postmaster := None |}
        end
  | _ => Ok {| container := c; pgReady := None; controlData := None; postmaster := None |}
  end.
End sample.

(** ** What a verdict means *)

(** What happens to a detector: a tick steps it, the observer forgets its run, or
    an event left.  Histories are newest first. *)
Inductive detEvent := Stepped (sample : ProbeSample) (ctx : DetectorStepContext) | Forgotten | Emitted (now : Z).

Section verdicts.
Context `{JsTables} `{JsDates}.
Variable config : PgDeadPrimaryConfig.

Definition detStep (e : detEvent) (d : DeadPrimaryDetector) : DeadPrimaryDetector :=
  match e with
  | Stepped s c => (step config s c d).1
  | Forgotten => resetStreak d
  | Emitted now => markEmitted config now d
  end.
Fixpoint detector (r : list detEvent) : DeadPrimaryDetector :=
  match r with [] => newDetector | e :: r => detStep e (detector r) end.

Definition observe (s : ProbeSample) (c : DetectorStepContext) : Observation := classifyProbeSample s (default (nowMs c) (wallMs c)) config.
Definition failing (o : Observation) : bool := match o with Soft _ _ | Hard _ => true | _ => false end.
(** Whether an event keeps a run of failures going. *)
Definition unbroken (e : detEvent) : bool :=
  match e with
  | Stepped s c => negb (intentActive c) && failing (observe s c)
  | Forgotten => false
  | Emitted _ => true
  end.
Fixpoint currentRun (r : list detEvent) : list detEvent :=
  match r with e :: r => if unbroken e then e :: currentRun r else [] | [] => [] end.
Definition observations (r : list detEvent) : list (Z * Observation) :=
  omap (fun e => match e with Stepped s c => Some (nowMs c, observe s c) | _ => None end) r.

(** When the soft observations at the head began, without a hard one since. *)
Fixpoint softStart (l : list (Z * Observation)) : option Z :=
  match l with (t, Soft _ _) :: l => Some (default t (softStart l)) | _ => None end.
(** The times of the failures that count: hard ones, and soft ones whose grace is over. *)
Fixpoint failures (l : list (Z * Observation)) : list Z :=
  match l with
  | [] => []
  | (t, Hard _) :: l => t :: failures l
  | (t, Soft _ grace) :: l => if grace <=? t - default t (softStart l) then t :: failures l else failures l
  | _ :: l => failures l
  end.

Definition counted (r : list detEvent) : list (Z * Observation) := observations (currentRun r).

Lemma last_default {A} (x : A) l : last (x :: l) = Some (default x (last l)).
Proof. rewrite last_cons. by destruct (last l). Qed.

(** The detector's counters are what the history says. *)
Lemma detector_spec r :
  streak (detector r) = Z.of_nat (length (failures (counted r))) /\ streakStartMs (detector r) = last (failures (counted r)) /\
  softSinceMs (detector r) = softStart (counted r).
Proof.
  induction r as [| e r (IH1 & IH2 & IH3)]; [done |]. unfold counted. cbn [detector detStep currentRun]. destruct e as [s c | | now].
  - cbn [unbroken detStep]. unfold step. destruct (intentActive c); [done |]. cbn [negb andb fst].
    fold (observe s c). set (d := noteContainer s (detector r)).
    assert (Hd : streak d = streak (detector r) /\ streakStartMs d = streakStartMs (detector r) /\ softSinceMs d = softSinceMs (detector r))
      by (unfold d, noteContainer; by destruct (container s)).
    destruct Hd as (E1 & E2 & E3). rewrite IH1 in E1. rewrite IH2 in E2. rewrite IH3 in E3.
    destruct (observe s c) as [| reason | reason grace | reason | reason] eqn:Eo; cbn [failing]; try done; cbn [observations omap list_omap];
      rewrite Eo; fold (observations (currentRun r)); fold (counted r); cbn [softStart failures].
    + cbn [applyObservation]. unfold applySoft. rewrite E3. cbv zeta. destruct (Z.leb_spec grace (nowMs c - default (nowMs c) (softStart (counted r))));
        cbn [recordHard setSoftSince streak streakStartMs softSinceMs]; rewrite E1, E2; [| by split_and!].
      rewrite last_default. split_and!; [cbn [length]; lia | done | done].
    + cbn [applyObservation recordHard setSoftSince streak streakStartMs softSinceMs]. rewrite E1, E2, last_default.
      split_and!; [cbn [length]; lia | done | done].
  - done.
  - cbn [detStep markEmitted streak streakStartMs softSinceMs unbroken observations omap list_omap]. done.
Qed.

(** The server is down: no container, one in a dead state, or no answer and no
    postmaster, past the grace after a start. *)
Definition engineDown (s : ProbeSample) (wall : Z) : Prop :=
  container s = Absent \/
  exists state, container s = Present state /\
    (snapStatus state ∈ DEAD_CONTAINER_STATES \/
     (snapStatus state = "running" /\ pgReady s = Some (PgExit 2) /\ postmaster s = Some PmStopped /\
      forall age, containerAgeMs state wall = Some age -> startGraceMs config <= age)).
(** The container runs and the server refuses or does not answer; a standby is no such server. *)
Definition notServing (s : ProbeSample) : Prop :=
  exists state, container s = Present state /\ snapStatus state = "running" /\
    ((pgReady s = Some (PgExit 1) /\ controlData s <> Some InArchiveRecovery) \/ pgReady s = Some (PgExit 2)).

Lemma hard_is_down s wall reason : classifyProbeSample s wall config = Hard reason -> engineDown s wall.
Proof.
  unfold classifyProbeSample, engineDown. destruct (container s) as [state | | reason']; [| by left | done].
  destruct (memb (snapStatus state) DEAD_CONTAINER_STATES) eqn:Em.
  { intros _. right. exists state. split; [done | left; by apply memb_true]. }
  case_decide as Hr; [done |]. unfold classifyPgReady. destruct (pgReady s) as [[code | reason'] |]; try done.
  destruct (Z.eqb_spec code 0); [done |]. destruct (Z.eqb_spec code 1).
  { unfold classifyRejecting. by repeat case_decide. }
  destruct (Z.eqb_spec code 2) as [-> |]; [| done]. unfold classifyNoResponse. intros E. right. exists state. split; [done |]. right.
  destruct (decide (snapStatus state = "running")) as [Hs |]; [| done].
  destruct (containerAgeMs state wall) as [age |].
  - destruct (Z.ltb_spec age (startGraceMs config)); [done |]. case_decide; [| done]. split_and!; [done | done | done |]. by intros ? [= <-].
  - case_decide; [| done]. by split_and!.
Qed.

Lemma soft_is_not_serving s wall reason grace : classifyProbeSample s wall config = Soft reason grace -> notServing s.
Proof.
  unfold classifyProbeSample, notServing. destruct (container s) as [state | | reason']; [| done | done].
  destruct (memb (snapStatus state) DEAD_CONTAINER_STATES); [done |]. case_decide as Hr; [done |].
  destruct (decide (snapStatus state = "running")) as [Hs |]; [| done].
  unfold classifyPgReady. destruct (pgReady s) as [[code | reason'] |]; try done. destruct (Z.eqb_spec code 0); [done |].
  destruct (Z.eqb_spec code 1) as [-> |].
  { unfold classifyRejecting. case_decide as Hc; [done |]. intros _. exists state. split_and!; [done | done |]. by left. }
  destruct (Z.eqb_spec code 2) as [-> |]; [| done]. intros _. exists state. split_and!; [done | done | by right].
Qed.

(** What the probe saw in the events of a run of failures. *)
Definition suspect (e : detEvent) : Prop :=
  match e with
  | Stepped s c => intentActive c = false /\ (engineDown s (default (nowMs c) (wallMs c)) \/ notServing s)
  | Forgotten => False
  | Emitted _ => True
  end.

Lemma run_is_suspect r : Forall suspect (currentRun r).
Proof.
  induction r as [| e r IH]; [constructor |]. cbn [currentRun]. destruct (unbroken e) eqn:Eu; [| constructor]. constructor; [| done].
  destruct e as [s c | |]; try done. cbn [unbroken] in Eu. apply andb_prop in Eu as [Ei Ef]. apply negb_true_iff in Ei. split; [done |].
  unfold observe in Ef. destruct (classifyProbeSample _ _ _) eqn:Eo; try done.
  - right. by eapply soft_is_not_serving.
  - left. by eapply hard_is_down.
Qed.

Lemma currentRun_prefix r : exists older, r = currentRun r ++ older.
Proof.
  induction r as [| e r [older IH]]; [by exists [] |]. cbn [currentRun]. destruct (unbroken e); [| by exists (e :: r)].
  exists older. cbn [app]. by f_equal.
Qed.

(** A primary is only reported dead after an unbroken run of ticks in each of
    which no platform action was under way and the probe read its server as down
    or not serving: at least the threshold of them count, over at least the
    minimal span, where a tick counts when the engine was down, or when it was not
    serving and had not been for its whole grace.  An answer, a standby or
    anything unreadable ends the run.  The evidence says the same numbers. *)
Theorem fired_primary_is_dead r s c ev (Hfire : (step config s c (detector r)).2 = Some ev) :
  exists run older first,
    Stepped s c :: r = run ++ older /\ Forall suspect run /\
    last (failures (observations run)) = Some first /\
    failureThreshold config <= Z.of_nat (length (failures (observations run))) /\ minFailureSpanMs config <= nowMs c - first /\
    evFailures ev = Z.of_nat (length (failures (observations run))) /\ spanMs ev = nowMs c - first.
Proof.
  destruct (detector_spec (Stepped s c :: r)) as (E1 & E2 & _). destruct (currentRun_prefix (Stepped s c :: r)) as [older Ho].
  unfold counted in E1, E2. exists (currentRun (Stepped s c :: r)), older. cbn [detector detStep] in E1, E2.
  unfold step in Hfire, E1, E2. destruct (intentActive c); [done |]. cbn [fst snd] in *. set (d := applyObservation _ _ _) in *.
  destruct (canFire config (nowMs c) d) eqn:Ec; [| done]. injection Hfire as <-. unfold canFire in Ec.
  destruct (Z.ltb_spec (streak d) (failureThreshold config)); [done |]. rewrite E2 in Ec.
  destruct (last (failures _)) as [first |] eqn:El; [| done]. exists first.
  destruct (Z.ltb_spec (nowMs c - first) (minFailureSpanMs config)); [done |].
  split; [exact Ho |]. split; [apply run_is_suspect |]. unfold evidenceOf. cbn [evFailures spanMs]. rewrite E1, E2. cbn [default].
  split_and!; [done | lia | done | done | done].
Qed.

(** ** How often it is reported *)

Definition emissions (r : list detEvent) : list Z := omap (fun e => match e with Emitted t => Some t | _ => None end) r.
(** The events since the server last answered. *)
Fixpoint incident (r : list detEvent) : list Z :=
  match r with
  | [] => []
  | Emitted t :: r => t :: incident r
  | Forgotten :: r => incident r
  | Stepped s c :: r =>
      if intentActive c then incident r else match observe s c with Healthy => [] | _ => incident r end
  end.
Definition resendInterval (sent : Z) : Z := Z.min (resendBaseMs config * 2 ^ sent) (resendMaxMs config).

Lemma incident_spec r :
  incidentEvents (detector r) = Z.of_nat (length (incident r)) /\ lastEmitMs (detector r) = head (emissions r) /\
  nextResendMs (detector r) = match incident r with [] => None | t :: l => Some (t + resendInterval (Z.of_nat (length l))) end.
Proof.
  induction r as [| e r (IH1 & IH2 & IH3)]; [done |]. cbn [detector]. destruct e as [s c | | now]; cbn [detStep emissions omap list_omap incident].
  - unfold step. destruct (intentActive c); [done |]. cbn [fst]. fold (observe s c). set (d := noteContainer s (detector r)).
    assert (Hd : incidentEvents d = incidentEvents (detector r) /\ lastEmitMs d = lastEmitMs (detector r) /\ nextResendMs d = nextResendMs (detector r))
      by (unfold d, noteContainer; by destruct (container s)).
    destruct Hd as (E1 & E2 & E3). fold (emissions r). rewrite <- IH2, <- E2.
    destruct (observe s c); cbn [applyObservation]; try (rewrite <- IH1, <- IH3, <- E1, <- E3; done); [done |].
    rewrite <- IH1, <- IH3, <- E1, <- E3. unfold applySoft. cbv zeta. by destruct (_ <=? _).
  - done.
  - cbn [markEmitted incidentEvents lastEmitMs nextResendMs length head]. rewrite IH1. split_and!; [lia | done |].
    unfold resendInterval. by rewrite Z.add_simpl_r.
Qed.

Lemma incident_last r t l : incident r = t :: l -> head (emissions r) = Some t.
Proof.
  induction r as [| e r IH]; [done |]. destruct e as [s c | | now]; cbn [incident emissions omap list_omap].
  - intros E. apply IH. destruct (intentActive c); [done |]. by destruct (observe s c).
  - exact IH.
  - by intros [= -> _].
Qed.

(** Events leave only after a verdict: no tick of the detector lies in between. *)
Fixpoint fired (now : Z) (r : list detEvent) : Prop :=
  match r with
  | Forgotten :: r => fired now r
  | Stepped s c :: r => nowMs c <= now /\ exists ev, (step config s c (detector r)).2 = Some ev
  | _ => False
  end.
Fixpoint protocol (r : list detEvent) : Prop :=
  match r with Emitted now :: r => fired now r /\ protocol r | _ :: r => protocol r | [] => True end.

(** Every two neighbours are at least [gap] apart. *)
Fixpoint spaced (gap : Z) (l : list Z) : Prop :=
  match l with t :: ((t' :: _) as l') => gap <= t - t' /\ spaced gap l' | _ => True end.

Lemma fired_due now r :
  fired now r ->
  match incident r with
  | t :: l => Z.of_nat (length (incident r)) < maxEventsPerIncident config /\ t + resendInterval (Z.of_nat (length l)) <= now
  | [] => forall t, head (emissions r) = Some t -> backoffMs config <= now - t
  end.
Proof.
  induction r as [| [s c | |] r IH]; cbn [fired]; try done. intros [Hle [ev Hev]].
  destruct (incident_spec (Stepped s c :: r)) as (E1 & E2 & E3). cbn [detector detStep] in E1, E2, E3.
  unfold step in Hev, E1, E2, E3. destruct (intentActive c) eqn:Ei; [done |]. cbn [fst snd] in *. set (d := applyObservation _ _ _) in *.
  destruct (canFire config (nowMs c) d) eqn:Ec; [| done]. unfold canFire in Ec. destruct (streak d <? _); [done |].
  destruct (streakStartMs d); [| done]. destruct (_ <? minFailureSpanMs config); [done |]. rewrite E1, E2, E3 in Ec.
  destruct (incident (Stepped s c :: r)) as [| t l]; cbn [length] in Ec |- *.
  - intros t Et. rewrite Et in Ec. apply Z.leb_le in Ec. lia.
  - rewrite (proj2 (Z.ltb_lt 0 _)) in Ec by lia. apply andb_prop in Ec as [Hm%Z.ltb_lt Hn%Z.leb_le]. lia.
Qed.


(** ** A dead engine is reported *)

Definition times (r : list detEvent) : list Z := omap (fun e => match e with Stepped _ c => Some (nowMs c) | _ => None end) r.
Definition hardTick (e : detEvent) : Prop :=
  match e with Stepped s c => intentActive c = false /\ exists reason, observe s c = Hard reason | _ => False end.

Lemma hard_counts down older :
  Forall hardTick down -> failures (counted (down ++ older)) = times down ++ failures (counted older).
Proof.
  induction 1 as [| e down He _ IH]; [done |]. destruct e as [s c | |]; try done. destruct He as [Ei [reason Eo]].
  unfold counted in *. cbn [app currentRun unbroken]. rewrite Ei, Eo. cbn [negb andb failing observations omap list_omap]. rewrite Eo.
  cbn [failures times omap list_omap app]. f_equal. exact IH.
Qed.

Lemma failures_times r : failures (counted r) ⊆ times r.
Proof.
  unfold counted. induction r as [| e r IH]; [done |]. cbn [currentRun]. destruct (unbroken e); [| intros x Hx; by apply elem_of_nil in Hx].
  destruct e as [s c | | now]; cbn [observations omap list_omap times]; [| exact IH | exact IH].
  destruct (observe s c); cbn [failures]; try (case_match); intros x Hx; set_solver.
Qed.

End verdicts.

(** ** Witnesses *)

#[local] Instance probeTables : JsTables := integerTables.
#[local] Instance probeDates : JsDates := {| otherDate := fun _ => None |}.
#[local] Notation defaults := DEFAULT_PG_DEAD_PRIMARY_CONFIG.

(** A tick at [t] ms after midnight of 2026-01-01. *)
Definition tickAt (t : Z) : DetectorStepContext := {| nowMs := t; wallMs := Some (1767225600000 + t); intentActive := false |}.
Definition absentSample : ProbeSample := {| container := Absent; pgReady := None; controlData := None; postmaster := None |}.
Definition absentTicks (l : list Z) : list detEvent := map (fun t => Stepped absentSample (tickAt t)) l.
Definition fiveAbsent : list detEvent := absentTicks [20000; 15000; 10000; 5000; 0].

Lemma fired_primary_is_dead_witness : exists ev first, (step defaults absentSample (tickAt 25000) (detector defaults fiveAbsent)).2 = Some ev /\
  20000 <= 25000 - first /\ spanMs ev = 25000 - first.
Proof.
  destruct (fired_primary_is_dead defaults fiveAbsent absentSample (tickAt 25000)
              {| evFailures := 6; spanMs := 25000; evLastError := "engine container absent"; evContainer := None;
                 evScope := DEAD_PRIMARY_DETECTION_SCOPE; attempt := 1 |}) as (run & older & first & _ & _ & _ & _ & Hs & _ & Es); [vm_compute; reflexivity |].
  eexists _, first. split; [vm_compute; reflexivity |]. split; [exact Hs | exact Es].
Defined.



(** The grace of a soft state runs from the first soft tick of any kind: a server
    in crash recovery whose container then restarts is counted as failing at once,
    and reported 29 seconds after the restart, although a start has a minute. *)
Definition snapshotAt (started : jstring) : ContainerSnapshot :=
  {| snapStatus := "running"; exitCode := num_of_Z 0; restartCount := num_of_Z 0; startedAt := Some started; health := None; oomKilled := false |}.
Definition recoveringSample : ProbeSample :=
  {| container := Present (snapshotAt "2025-12-31T00:00:00.000Z"); pgReady := Some (PgExit 1); controlData := Some InCrashRecovery; postmaster := None |}.
Definition restartedSample : ProbeSample :=
  {| container := Present (snapshotAt "2026-01-01T00:01:01.000Z"); pgReady := Some (PgExit 2); controlData := None; postmaster := Some PmRunning |}.
Example start_grace_is_skipped :
  containerAgeMs (snapshotAt "2026-01-01T00:01:01.000Z") (1767225600000 + 90000) = Some 29000 /\ startGraceMs defaults = 60000 /\
  is_Some (step defaults restartedSample (tickAt 90000)
    (detector defaults (map (fun t => Stepped restartedSample (tickAt t)) [85000; 80000; 75000; 70000; 65000]
                        ++ map (fun t => Stepped recoveringSample (tickAt t)) [60000; 30000; 0]))).2.
Proof. vm_compute. split_and!; [done | done | by eexists]. Qed.
