(* ===== verification/HaIntent.v ===== *)
(** * Intent markers ([managed/ha-intent.ts])

    Before a command that can take an engine down runs, a marker says so, and the
    dead-primary probe holds its fire.  Markers are in memory and, so that they
    survive a restart, in files; a file call may fail.  Each exported function
    runs to its end before the next one; between the begin and the end of a
    command anything may happen.  An id is [crypto.randomUUID]'s. *)

From stdpp Require Import list.
From S2P Require Import Prelude Regex Json Number JsonPrint CtParse Log MonState.

#[local] Open Scope Z_scope.

Inductive ManagedIntentKind := KApply | KStart | KStop | KRestart | KDestroy | KPromote | KFailover | KRestore.
#[global] Instance ManagedIntentKind_dec : EqDecision ManagedIntentKind.
Proof. solve_decision. Defined.
Definition kindText (k : ManagedIntentKind) : jstring :=
  match k with
  | KApply => "apply" | KStart => "start" | KStop => "stop" | KRestart => "restart" | KDestroy => "destroy"
  | KPromote => "promote" | KFailover => "failover" | KRestore => "restore"
  end.

(** Times are numbers; a marker read from a file may name any kind. *)
Record ManagedIntent := {
  intentId : jstring; managedId : jstring; kind : jstring; setAtMs : spec_float; untilMs : option spec_float; maxUntilMs : option spec_float
}.
Inductive ManagedIntentMode := ModeRunning | ModeTransient | ModeHeld.

Definition MANAGED_INTENT_MAX_RUNNING_MS : Z := 6 * 60 * 60000.
Definition MANAGED_INTENT_TTL_MS : Z := 10 * 60000.
Definition MANAGED_INTENT_SETTLED_TTL_MS : Z := 60000.
Definition MANAGED_INTENT_GRACE_MS : Z := 30000.

(** ** Which commands carry an intent

    The command type is one of the contract's. *)

Definition lifecycleKind (payload : entries) : option ManagedIntentKind :=
  match asString (getEntry payload "action") with
  | Some a =>
      if decide (a = "start") then Some KStart
      else if decide (a = "stop") then Some KStop
      else if decide (a = "restart") then Some KRestart else None
  | None => None
  end.
Definition MANAGED_COMMAND_INTENT_KINDS : list (jstring * (entries -> option ManagedIntentKind)) := [
  ("managed.apply" : jstring, fun _ => Some KApply);
  ("managed.lifecycle" : jstring, lifecycleKind);
  ("managed.destroy" : jstring, fun _ => Some KDestroy);
  ("managed.promote" : jstring, fun _ => Some KPromote);
  ("managed.restore" : jstring, fun _ => Some KRestore);
  ("managed.ha.failover" : jstring,
   fun payload => if decide (asString (getEntry payload "phase") = Some ("repoint" : jstring)) then None else Some KFailover)].
Definition HOST_WIDE_INTENT_ID : jstring := "_host".
Definition HOST_WIDE_COMMAND_INTENT_KINDS : list (jstring * ManagedIntentKind) :=
  [("storage.restore" : jstring, KRestore); ("server.reboot" : jstring, KRestart)].

(** [/^[A-Za-z0-9_-]+$/] *)
Definition SAFE_MANAGED_ID_RE (s : jstring) : bool :=
  negb (bool_decide (s = [])) && forallb (fun c => is_alnum c || (c =? 95)%N || (c =? 45)%N) s.

Definition lookupIn {A} (l : list (jstring * A)) (k : jstring) : option A := snd <$> head (filter (fun e => e.1 = k) l).
Definition managedCommandIntent (commandType : jstring) (payload : jval) : option (jstring * ManagedIntentKind) :=
  match lookupIn HOST_WIDE_COMMAND_INTENT_KINDS commandType with
  | Some k => Some (HOST_WIDE_INTENT_ID, k)
  | None =>
      resolver ← lookupIn MANAGED_COMMAND_INTENT_KINDS commandType;
      match payload with
      | JObj record =>
          id ← asString (getEntry record "managedId");
          if SAFE_MANAGED_ID_RE id then (fun k => (id, k)) <$> resolver record else None
      | _ => None
      end
  end.

(** ** Markers *)

(** The marker file of the host, or of one database. *)
Inductive markerPath := HostMarker | ClusterMarker (managedId : jstring).
#[global] Instance markerPath_dec : EqDecision markerPath.
Proof. solve_decision. Defined.
Definition managedIntentPath (id : jstring) : markerPath := if decide (id = HOST_WIDE_INTENT_ID) then HostMarker else ClusterMarker id.

(** What a file read gives. *)
Inductive markerFile := FileMissing | FileText (text : jstring) | FileFails (reason : jstring).
(** Memory: no entry, cleared ([None]) or a marker.  Files by path. *)
Record markers := { memory : jsmap (option ManagedIntent); files : markerPath -> markerFile }.
Definition setMemory (id : jstring) (m : option ManagedIntent) (s : markers) : markers :=
  {| memory := mapSet id m (memory s); files := files s |}.
Definition setFile (p : markerPath) (f : markerFile) (s : markers) : markers :=
  {| memory := memory s; files := fun q => if decide (q = p) then f else files s q |}.

Section store.
Context `{JsTables}.

Definition timeValue (t : option spec_float) : jval := match t with Some n => JNum n | None => JNull end.
Definition intentValue (i : ManagedIntent) : jval :=
  JObj [("id" : jstring, JStr (intentId i)); ("managedId" : jstring, JStr (managedId i)); ("kind" : jstring, JStr (kind i));
        ("setAtMs" : jstring, JNum (setAtMs i)); ("untilMs" : jstring, timeValue (untilMs i)); ("maxUntilMs" : jstring, timeValue (maxUntilMs i))].
Definition intentText (i : ManagedIntent) : jstring := JSON_stringify (intentValue i) ++ [10%N].

Definition newIntent (uuid id : jstring) (k : ManagedIntentKind) (mode : ManagedIntentMode) (now : Z) (ttl : option Z) : ManagedIntent := {|
  intentId := uuid; managedId := id; kind := kindText k; setAtMs := num_of_Z now;
  untilMs := match mode with ModeTransient => Some (num_of_Z (now + default MANAGED_INTENT_TTL_MS ttl)) | _ => None end;
  maxUntilMs := match mode with ModeRunning => Some (num_of_Z (now + MANAGED_INTENT_MAX_RUNNING_MS)) | _ => None end |}.

(** [writes]: whether the file is replaced; a failed write leaves the old one. *)
Definition recordManagedIntent (i : ManagedIntent) (writes : bool) (s : markers) : markers :=
  let s := setMemory (managedId i) (Some i) s in
  if writes then setFile (managedIntentPath (managedId i)) (FileText (intentText i)) s else s.

Definition clearManagedIntent (id : jstring) (removes : bool) (s : markers) : markers :=
  let s := setMemory id None s in if removes then setFile (managedIntentPath id) FileMissing s else s.

Inductive IntentLookup := LookupNone | LookupFound (intent : ManagedIntent) (fromDisk : bool) | LookupUnreadable (reason : jstring).

(** A time is a number or [null]. *)
Definition readTime (v : option jval) : option (option spec_float) :=
  match v with Some (JNum n) => Some (Some n) | Some JNull => Some None | _ => None end.
Definition parseIntent (text id : jstring) : option ManagedIntent :=
  match JSON_parse text with
  | Ok (JObj o) =>
      _ ← (if decide (asString (getEntry o "managedId") = Some id) then Some tt else None);
      uuid ← asString (getEntry o "id");
      k ← asString (getEntry o "kind");
      setAt ← asNumber (getEntry o "setAtMs");
      until ← readTime (getEntry o "untilMs");
      ceiling ← readTime (match getEntry o "maxUntilMs" with None => Some JNull | v => v end);
      Some {| intentId := uuid; managedId := id; kind := k; setAtMs := setAt; untilMs := until; maxUntilMs := ceiling |}
  | _ => None
  end.

Definition lookupManagedIntent (id : jstring) (s : markers) : IntentLookup :=
  match mapGet (memory s) id with
  | Some None => LookupNone
  | Some (Some i) => LookupFound i false
  | None =>
      match files s (managedIntentPath id) with
      | FileMissing => LookupNone
      | FileFails reason => LookupUnreadable (sanitizeForLog reason)
      | FileText text =>
          match parseIntent text id with Some i => LookupFound i true | None => LookupUnreadable "marker file does not parse" end
      end
  end.

(** [now < until + grace], compared by value. *)
Definition isManagedIntentActive (i : ManagedIntent) (now : Z) : bool :=
  match untilMs i with
  | Some until => negb (num_leb until (now - MANAGED_INTENT_GRACE_MS))
  | None => match maxUntilMs i with None => true | Some ceiling => negb (num_leb ceiling now) end
  end.
Definition isIntentLookupActive (l : IntentLookup) (now : Z) : bool :=
  match l with LookupUnreadable _ => true | LookupFound i _ => isManagedIntentActive i now | LookupNone => false end.
Definition isHeldIntent (l : IntentLookup) : bool :=
  match l with LookupFound i _ => match untilMs i, maxUntilMs i with None, None => true | _, _ => false end | _ => false end.
Definition isRunningIntent (l : IntentLookup) : bool :=
  match l with LookupFound i _ => match untilMs i, maxUntilMs i with None, Some _ => true | _, _ => false end | _ => false end.
Definition isOverdueRunningIntent (l : IntentLookup) (now : Z) : bool :=
  isRunningIntent l && match l with LookupFound i _ => match maxUntilMs i with Some c => num_leb c now | None => false end | _ => false end.

(** ** Around a command *)

Definition RELEASES_HELD : list ManagedIntentKind := [KStart; KRestart; KApply; KPromote; KFailover].
Definition SETTLES_QUICKLY : list ManagedIntentKind := [KApply; KPromote; KFailover].

Record ManagedIntentToken := { tokenId : jstring; tokenKind : ManagedIntentKind; ownId : option jstring }.

(** The clock, the id and the write of a call that records a marker. *)
Record call := { at_ : Z; uuid : jstring; writes : bool }.
Definition record (id : jstring) (k : ManagedIntentKind) (mode : ManagedIntentMode) (ttl : option Z) (c : call) (s : markers) : markers :=
  recordManagedIntent (newIntent (uuid c) id k mode (at_ c) ttl) (writes c) s.

Definition beginManagedIntent (id : jstring) (k : ManagedIntentKind) (c : call) (s : markers) : ManagedIntentToken * markers :=
  if bool_decide (k <> KDestroy) && isHeldIntent (lookupManagedIntent id s)
  then ({| tokenId := id; tokenKind := k; ownId := None |}, s)
  else ({| tokenId := id; tokenKind := k; ownId := Some (uuid c) |},
        record id k (if decide (k = KDestroy) then ModeHeld else ModeRunning) None c s).

Definition owns (t : ManagedIntentToken) (l : IntentLookup) : bool :=
  match l, ownId t with LookupFound i _, Some own => bool_decide (intentId i = own) | _, _ => false end.

Definition endManagedIntent (t : ManagedIntentToken) (succeeded keepHeld : bool) (c : call) (s : markers) : markers :=
  if succeeded && bool_decide (tokenKind t = KDestroy) && keepHeld then s
  else if succeeded && bool_decide (tokenKind t = KDestroy) then clearManagedIntent (tokenId t) (writes c) s
  else
    let current := lookupManagedIntent (tokenId t) s in
    if succeeded && bool_decide (tokenKind t = KStop) then record (tokenId t) KStop ModeHeld None c s
    else
      let ttl := if succeeded && bool_decide (tokenKind t ∈ SETTLES_QUICKLY) then Some MANAGED_INTENT_SETTLED_TTL_MS else None in
      if succeeded && bool_decide (tokenKind t ∈ RELEASES_HELD) && isHeldIntent current
      then record (tokenId t) (tokenKind t) ModeTransient ttl c s
      else if negb (owns t current) || bool_decide (tokenKind t = KDestroy) then s
      else record (tokenId t) (tokenKind t) ModeTransient ttl c s.
End store.

(** ** Markers survive a restart *)

Section survive.
Context `{WholeNumberText}.

(** A call of a healthy host: its id is text and its clock a time. *)
Definition sane (c : call) : Prop := utf16 (uuid c) /\ 0 <= at_ c /\ at_ c + MANAGED_INTENT_MAX_RUNNING_MS < 2 ^ 53.
Definition written (i : ManagedIntent) : Prop :=
  utf16 (intentId i) /\ utf16 (managedId i) /\ utf16 (kind i) /\
  forall n, (n = setAtMs i \/ untilMs i = Some n \/ maxUntilMs i = Some n) -> number_ok n.

Lemma newIntent_written c id k mode ttl :
  sane c -> utf16 id -> (forall t, ttl = Some t -> 0 <= t <= MANAGED_INTENT_MAX_RUNNING_MS) -> written (newIntent (uuid c) id k mode (at_ c) ttl).
Proof.
  unfold sane, written, MANAGED_INTENT_MAX_RUNNING_MS. intros (Hu & Hp & Hm) Hid Ht. cbn [newIntent intentId managedId kind setAtMs untilMs maxUntilMs].
  split_and!; [done | done | by destruct k; apply (bool_decide_unpack _) |].
  assert (0 <= default MANAGED_INTENT_TTL_MS ttl <= 6 * 60 * 60000) by (destruct ttl; [by apply Ht | done]).
  intros n [-> | [Hn | Hn]]; [apply whole_number_ok; lia | |]; destruct mode; try done; injection Hn as <-; apply whole_number_ok;
    unfold MANAGED_INTENT_MAX_RUNNING_MS; lia.
Qed.

Lemma six_members (a b c d e f : jval) :
  let o : entries := [("id" : jstring, a); ("managedId" : jstring, b); ("kind" : jstring, c); ("setAtMs" : jstring, d);
                      ("untilMs" : jstring, e); ("maxUntilMs" : jstring, f)] in
  getEntry o "id" = Some a /\ getEntry o "managedId" = Some b /\ getEntry o "kind" = Some c /\ getEntry o "setAtMs" = Some d /\
  getEntry o "untilMs" = Some e /\ getEntry o "maxUntilMs" = Some f /\ enumerate o = o /\ NoDup (map fst o).
Proof. split_and!; try (vm_compute; reflexivity). apply (bool_decide_unpack _). vm_compute. exact I. Qed.

Lemma intent_printable i : written i -> printable_value (intentValue i).
Proof.
  intros (H1 & H2 & H3 & Ht). unfold intentValue. constructor; [by apply six_members |].
  assert (Hv : forall t, (forall n, t = Some n -> number_ok n) -> printable_value (timeValue t)).
  { intros [n |] Hn; [constructor; by apply Hn | constructor]. }
  repeat (apply Forall_cons_2; [split; [by apply (bool_decide_unpack _) |] |]); [.. | apply Forall_nil_2]; cbn [snd]; try (by constructor).
  - constructor. apply Ht. by left.
  - apply Hv. intros n Hn. apply Ht. by right; left.
  - apply Hv. intros n Hn. apply Ht. by right; right.
Qed.

Lemma intent_reads i : written i -> parseIntent (intentText i) (managedId i) = Some i.
Proof.
  intros Hi. unfold parseIntent, intentText. rewrite stringify_compact.
  assert (Ee : enumKeys (intentValue i) = intentValue i).
  { transitivity (JObj (enumerate [("id" : jstring, JStr (intentId i)); ("managedId" : jstring, JStr (managedId i)); ("kind" : jstring, JStr (kind i));
        ("setAtMs" : jstring, JNum (setAtMs i)); ("untilMs" : jstring, timeValue (untilMs i)); ("maxUntilMs" : jstring, timeValue (maxUntilMs i))])).
    - unfold intentValue, timeValue. destruct (untilMs i), (maxUntilMs i); reflexivity.
    - reflexivity. }
  rewrite Ee, parse_compact_line by (by apply intent_printable). unfold intentValue at 1.
  destruct (six_members (JStr (intentId i)) (JStr (managedId i)) (JStr (kind i)) (JNum (setAtMs i)) (timeValue (untilMs i)) (timeValue (maxUntilMs i)))
    as (E1 & E2 & E3 & E4 & E5 & E6 & _).
  cbv zeta in *. rewrite E1, E2, E3, E4, E5, E6. cbn [asString asNumber mbind option_bind]. rewrite decide_True by done. cbn [mbind option_bind].
  destruct i as [a b k n u m]. cbn [untilMs maxUntilMs]. by destruct u, m.
Qed.

Lemma intentPath_inj a b : managedIntentPath a = managedIntentPath b -> a = b.
Proof. unfold managedIntentPath. repeat case_decide; congruence. Qed.

Lemma file_lookup i s :
  written i -> mapGet (memory s) (managedId i) = None -> files s (managedIntentPath (managedId i)) = FileText (intentText i) ->
  lookupManagedIntent (managedId i) s = LookupFound i true.
Proof. intros Hi Hm Hf. unfold lookupManagedIntent. by rewrite Hm, Hf, intent_reads. Qed.

(** A daemon that starts: nothing in memory, the files as they were. *)
Definition restarted (s : markers) : markers := {| memory := []; files := files s |}.

(** A marker whose file was written is found again, the same, by a daemon that
    starts later: the probe of a restarted daemon knows what the platform did. *)
Theorem marker_survives_restart id k mode ttl c s
    (Hc : sane c) (Hid : utf16 id) (Ht : forall t, ttl = Some t -> 0 <= t <= MANAGED_INTENT_MAX_RUNNING_MS) (Hw : writes c = true) :
  lookupManagedIntent id (restarted (record id k mode ttl c s)) = LookupFound (newIntent (uuid c) id k mode (at_ c) ttl) true.
Proof.
  apply (file_lookup (newIntent (uuid c) id k mode (at_ c) ttl)); [by apply newIntent_written | done |].
  unfold record, recordManagedIntent. rewrite Hw. cbn. by rewrite decide_True.
Qed.
End survive.

(** ** Commands that overlap *)

(** Markers and the tokens of the commands that began, by number. *)
Record life := { store : markers; tokens : list ManagedIntentToken }.
(** A command begins or ends, the observer holds or releases a marker, the daemon restarts. *)
Inductive op :=
| OpBegin (id : jstring) (k : ManagedIntentKind) (c : call) | OpEnd (n : nat) (succeeded keepHeld : bool) (c : call)
| OpHold (id : jstring) (c : call) | OpRelease (id : jstring) (removes : bool) | OpRestart.

Section lives.
Context `{WholeNumberText}.

Definition opStep (o : op) (l : life) : life :=
  match o with
  | OpBegin id k c => let '(t, s) := beginManagedIntent id k c (store l) in {| store := s; tokens := tokens l ++ [t] |}
  | OpEnd n su ke c =>
      match tokens l !! n with
      | Some t => {| store := endManagedIntent t su ke c (store l); tokens := tokens l |}
      | None => l
      end
  | OpHold id c => {| store := record id KStop ModeHeld None c (store l); tokens := tokens l |}
  | OpRelease id removes => {| store := clearManagedIntent id removes (store l); tokens := tokens l |}
  | OpRestart => {| store := restarted (store l); tokens := [] |}
  end.
Definition opsRun (ops : list op) (l : life) : life := foldl (fun l o => opStep o l) l ops.
(** [P] of every operation and the state it meets. *)
Fixpoint along (P : op -> life -> Prop) (ops : list op) (l : life) : Prop :=
  match ops with [] => True | o :: ops => P o l /\ along P ops (opStep o l) end.

Lemma lookup_record id k mode ttl c s :
  lookupManagedIntent id (record id k mode ttl c s) = LookupFound (newIntent (uuid c) id k mode (at_ c) ttl) false.
Proof. unfold lookupManagedIntent, record, recordManagedIntent. destruct (writes c); cbn [setFile setMemory memory managedId newIntent]; by rewrite mapGet_set. Qed.

Lemma lookup_record_other id id' k mode ttl c s :
  id <> id' -> lookupManagedIntent id (record id' k mode ttl c s) = lookupManagedIntent id s.
Proof.
  intros Hn. unfold lookupManagedIntent, record, recordManagedIntent.
  assert (Hp : managedIntentPath id <> managedIntentPath id') by (intros E; by apply intentPath_inj in E).
  destruct (writes c); cbn [setFile setMemory memory files managedId newIntent]; rewrite mapGet_set_ne by done; [| done].
  by rewrite decide_False.
Qed.

Lemma lookup_clear_other id id' b s : id <> id' -> lookupManagedIntent id (clearManagedIntent id' b s) = lookupManagedIntent id s.
Proof.
  intros Hn. unfold lookupManagedIntent, clearManagedIntent.
  assert (Hp : managedIntentPath id <> managedIntentPath id') by (intros E; by apply intentPath_inj in E).
  destruct b; cbn [setFile setMemory memory files]; rewrite mapGet_set_ne by done; [| done]. by rewrite decide_False.
Qed.

(** The end of a command touches no other database's marker. *)
Lemma lookup_end_other id t su ke c s : tokenId t <> id -> lookupManagedIntent id (endManagedIntent t su ke c s) = lookupManagedIntent id s.
Proof.
  intros Hn. unfold endManagedIntent. cbv zeta. repeat case_match; try done; by first [apply lookup_record_other | apply lookup_clear_other].
Qed.

Lemma begin_cases id k c s :
  (beginManagedIntent id k c s = ({| tokenId := id; tokenKind := k; ownId := None |}, s) /\ k <> KDestroy /\
   isHeldIntent (lookupManagedIntent id s) = true) \/
  (beginManagedIntent id k c s = ({| tokenId := id; tokenKind := k; ownId := Some (uuid c) |},
     record id k (if decide (k = KDestroy) then ModeHeld else ModeRunning) None c s) /\
   (k = KDestroy \/ isHeldIntent (lookupManagedIntent id s) = false)).
Proof.
  unfold beginManagedIntent. destruct (decide (k = KDestroy)) as [-> | Hk]; [right; auto |].
  rewrite bool_decide_true by done. cbn [andb]. destruct (isHeldIntent _) eqn:Eh; [left | right]; auto.
Qed.

(** *** While a command runs *)

Definition whenever (c : call) : Prop := 0 <= at_ c /\ at_ c + MANAGED_INTENT_MAX_RUNNING_MS < 2 ^ 53.
(** The marker does not expire before [t] and the ceiling of a running command. *)
Definition shields (id : jstring) (t : Z) (l : life) : Prop :=
  exists i d, lookupManagedIntent id (store l) = LookupFound i d /\ untilMs i = None /\
    forall n, maxUntilMs i = Some n -> exists z, integer_of n = Some z /\ t + MANAGED_INTENT_MAX_RUNNING_MS <= z.
(** No other command of the database ends, no marker is dropped, the daemon keeps
    running; commands may begin, later than [t]. *)
Definition undisturbed (id : jstring) (t : Z) (o : op) (l : life) : Prop :=
  match o with
  | OpBegin id' k c => id' = id -> t <= at_ c /\ whenever c
  | OpEnd m _ _ _ => forall tk, tokens l !! m = Some tk -> tokenId tk <> id
  | OpHold _ _ => True
  | OpRelease id' _ => id' <> id
  | OpRestart => False
  end.

Lemma record_shields id k mode ttl c s t tks :
  mode <> ModeTransient -> t <= at_ c -> whenever c -> shields id t {| store := record id k mode ttl c s; tokens := tks |}.
Proof.
  intros Hm Ht [H0' Hw]. exists (newIntent (uuid c) id k mode (at_ c) ttl), false. cbn [store]. rewrite lookup_record. split; [done |].
  destruct mode; [| done | done]. split; [done |]. cbn [newIntent maxUntilMs]. intros n [= <-]. eexists. unfold MANAGED_INTENT_MAX_RUNNING_MS in *. split; [apply num_of_Z_exact; lia | lia].
Qed.

Lemma undisturbed_shields id t o l : undisturbed id t o l -> shields id t l -> shields id t (opStep o l).
Proof.
  intros Hu Hs. assert (Hsame : forall s tks, lookupManagedIntent id s = lookupManagedIntent id (store l) -> shields id t {| store := s; tokens := tks |}).
  { intros s tks E. destruct Hs as (i & d & El & Hi). exists i, d. cbn [store]. by rewrite E. }
  destruct o as [id' k c | m su ke c | id' c | id' r |]; cbn [opStep undisturbed] in *; try done.
  - destruct (begin_cases id' k c (store l)) as [(-> & _ & _) | (-> & _)]; [by apply Hsame |].
    destruct (decide (id' = id)) as [-> | Hn]; [| apply Hsame; by apply lookup_record_other].
    destruct (Hu eq_refl) as [Ht Hw]. apply record_shields; [by case_decide | done | done].
  - destruct (tokens l !! m) as [tk |]; [| done]. apply Hsame. apply lookup_end_other. by apply Hu.
  - destruct (decide (id' = id)) as [-> | Hn]; [| apply Hsame; by apply lookup_record_other].
    exists (newIntent (uuid c) id KStop ModeHeld (at_ c) None), false. cbn [store]. by rewrite lookup_record.
  - apply Hsame. by apply lookup_clear_other.
Qed.

Lemma tokens_kept id t ops l :
  along (undisturbed id t) ops l -> forall n tk, tokens l !! n = Some tk -> tokens (opsRun ops l) !! n = Some tk.
Proof.
  revert l. induction ops as [| o ops IH]; intros l; [done |]. intros [Ho Hops] n tk Hn. cbn [opsRun foldl]. apply (IH _ Hops).
  destruct o as [id' k c | m su ke c | | |]; cbn [opStep] in *; try done.
  - destruct (beginManagedIntent _ _ _ _). cbn [tokens]. by apply lookup_app_l_Some.
  - by destruct (tokens l !! m).
Qed.

Lemma along_shields id t ops l : along (undisturbed id t) ops l -> shields id t l -> shields id t (opsRun ops l).
Proof.
  revert l. induction ops as [| o ops IH]; intros l; [done |]. intros [Ho Hops] Hs. apply (IH _ Hops). by apply undisturbed_shields.
Qed.

Lemma shields_active id t l now : shields id t l -> now < t + MANAGED_INTENT_MAX_RUNNING_MS -> isIntentLookupActive (lookupManagedIntent id (store l)) now = true.
Proof.
  intros (i & d & -> & Hu & Hm) Hn. cbn. unfold isManagedIntentActive. rewrite Hu. destruct (maxUntilMs i) as [n |]; [| done].
  destruct (Hm n eq_refl) as (z & Hz & Hle). rewrite (num_leb_integer _ _ _ Hz). apply negb_true_iff, Z.leb_gt. lia.
Qed.

Lemma transient_active id k ttl c s now :
  whenever c -> MANAGED_INTENT_SETTLED_TTL_MS <= default MANAGED_INTENT_TTL_MS ttl <= MANAGED_INTENT_MAX_RUNNING_MS ->
  now < at_ c + MANAGED_INTENT_SETTLED_TTL_MS + MANAGED_INTENT_GRACE_MS ->
  isIntentLookupActive (lookupManagedIntent id (record id k ModeTransient ttl c s)) now = true.
Proof.
  intros [H0' Hw] Ht Hn. rewrite lookup_record. cbn. unfold isManagedIntentActive. cbn [newIntent untilMs].
  rewrite (num_leb_integer _ (at_ c + default MANAGED_INTENT_TTL_MS ttl)) by (apply num_of_Z_exact; unfold MANAGED_INTENT_SETTLED_TTL_MS in *; lia).
  apply negb_true_iff, Z.leb_gt. lia.
Qed.

Lemma begin_shields id k c l : whenever c -> shields id (at_ c) (opStep (OpBegin id k c) l).
Proof.
  intros Hw. cbn [opStep]. destruct (begin_cases id k c (store l)) as [(-> & _ & Hh) | (-> & _)]; [| apply record_shields; [by case_decide | lia | done]].
  unfold isHeldIntent in Hh. destruct (lookupManagedIntent id (store l)) as [| i d |] eqn:El; try done.
  destruct (untilMs i) eqn:Eu; [done |]. destruct (maxUntilMs i) eqn:Em; [done |]. exists i, d. cbn [store]. split_and!; [done | done |]. by rewrite Em.
Qed.

Lemma begin_token id k c l : exists own, tokens (opStep (OpBegin id k c) l) !! length (tokens l) = Some {| tokenId := id; tokenKind := k; ownId := own |}.
Proof.
  cbn [opStep]. destruct (begin_cases id k c (store l)) as [(-> & _) | (-> & _)]; eexists; cbn [tokens]; by apply list_lookup_middle.
Qed.

(** The end of a command that is no destroy leaves the marker active a while. *)
Lemma end_covers id t own k su ke c l now :
  k <> KDestroy -> shields id t l -> whenever c -> now < at_ c + MANAGED_INTENT_SETTLED_TTL_MS + MANAGED_INTENT_GRACE_MS ->
  now < t + MANAGED_INTENT_MAX_RUNNING_MS ->
  isIntentLookupActive (lookupManagedIntent id (endManagedIntent {| tokenId := id; tokenKind := k; ownId := own |} su ke c (store l))) now = true.
Proof.
  intros Hk Hs Hw Hn Hm. unfold endManagedIntent. cbn [tokenKind tokenId]. cbv zeta. rewrite (bool_decide_false (k = KDestroy)) by done.
  rewrite andb_false_r, orb_false_r. cbn [andb]. destruct (su && bool_decide (k = KStop)); [by rewrite lookup_record |].
  assert (Ht : forall b : bool, MANAGED_INTENT_SETTLED_TTL_MS <= default MANAGED_INTENT_TTL_MS (if b then Some MANAGED_INTENT_SETTLED_TTL_MS else None)
                 <= MANAGED_INTENT_MAX_RUNNING_MS) by (by intros []).
  destruct (su && bool_decide (k ∈ RELEASES_HELD) && _); [by apply transient_active |].
  destruct (negb _); [by eapply shields_active | by apply transient_active].
Qed.

(** From the moment a command that can take the engine down begins, the probe
    is held off: until the command ends, for six hours at most, and, unless it was
    a destroy, for at least a minute and a half after its end; whatever commands
    begin meanwhile and whatever fails on disk.  The condition is that no other
    command of the same database ends before it. *)
Theorem command_is_covered id k c ops l now
    (Hc : whenever c) (Hops : along (undisturbed id (at_ c)) ops (opStep (OpBegin id k c) l)) (Hnow : now < at_ c + MANAGED_INTENT_MAX_RUNNING_MS) :
  let l1 := opsRun ops (opStep (OpBegin id k c) l) in
  isIntentLookupActive (lookupManagedIntent id (store l1)) now = true /\
  forall su ke c2, k <> KDestroy -> whenever c2 -> now < at_ c2 + MANAGED_INTENT_SETTLED_TTL_MS + MANAGED_INTENT_GRACE_MS ->
    isIntentLookupActive (lookupManagedIntent id (store (opStep (OpEnd (length (tokens l)) su ke c2) l1))) now = true.
Proof.
  cbv zeta. pose proof (along_shields _ _ _ _ Hops (begin_shields id k c l Hc)) as Hs.
  destruct (begin_token id k c l) as [own Htk]. apply (tokens_kept _ _ _ _ Hops) in Htk.
  split; [by apply (shields_active id (at_ c)) |]. intros su ke c2 Hk Hw Hn. set (l1 := opsRun ops _) in *. cbn [opStep]. rewrite Htk. cbn [store].
  by apply (end_covers id (at_ c)).
Qed.

(** *** A held stop *)

Definition uuidsOf (o : op) : list jstring := match o with OpBegin _ _ c | OpEnd _ _ _ c | OpHold _ c => [uuid c] | _ => [] end.
(** Ids are never used twice. *)
Fixpoint fresh (used : list jstring) (ops : list op) : Prop :=
  match ops with [] => True | o :: ops => (forall u, u ∈ uuidsOf o -> u ∉ used) /\ fresh (uuidsOf o ++ used) ops end.
Definition stored (c : call) : Prop := sane c /\ writes c = true.
(** No command that wants the engine up succeeds, no destroy, no release; the
    marker's writes reach the disk. *)
Definition harmless (id : jstring) (o : op) (l : life) : Prop :=
  match o with
  | OpBegin id' _ c | OpHold id' c => id' = id -> stored c
  | OpEnd m su ke c =>
      forall tk, tokens l !! m = Some tk -> tokenId tk = id ->
        stored c /\ (su = true -> tokenKind tk ∉ RELEASES_HELD /\ (tokenKind tk = KDestroy -> ke = true))
  | OpRelease id' _ => id' <> id
  | OpRestart => True
  end.

(** A held marker is in force and on disk, and no command but a destroy owns it. *)
Definition heldBy (i : ManagedIntent) (l : life) : Prop :=
  written i /\ untilMs i = None /\ maxUntilMs i = None /\
  (mapGet (memory (store l)) (managedId i) = Some (Some i) \/ mapGet (memory (store l)) (managedId i) = None) /\
  files (store l) (managedIntentPath (managedId i)) = FileText (intentText i) /\
  forall tk, tk ∈ tokens l -> ownId tk = Some (intentId i) -> tokenKind tk = KDestroy.
Definition known (used : list jstring) (l : life) : Prop := forall tk own, tk ∈ tokens l -> ownId tk = Some own -> own ∈ used.
Definition heldFor (id : jstring) (used : list jstring) (l : life) : Prop :=
  known used l /\ exists i, managedId i = id /\ intentId i ∈ used /\ heldBy i l.

Lemma heldBy_lookup i l : heldBy i l -> exists d, lookupManagedIntent (managedId i) (store l) = LookupFound i d.
Proof.
  intros (Hw & _ & _ & [Hm | Hm] & Hf & _); [exists false; unfold lookupManagedIntent; by rewrite Hm | exists true; by apply file_lookup].
Qed.

Lemma heldBy_held i l : heldBy i l -> isHeldIntent (lookupManagedIntent (managedId i) (store l)) = true.
Proof. intros Hh. destruct (heldBy_lookup _ _ Hh) as [d ->]. destruct Hh as (_ & Hu & Hm & _). cbn. by rewrite Hu, Hm. Qed.

(** A held marker that is recorded now. *)
Lemma record_held id k c used s tks :
  utf16 id -> stored c -> uuid c ∉ used -> (forall tk own, tk ∈ tks -> ownId tk = Some own -> own ∈ used \/ (own = uuid c /\ tokenKind tk = KDestroy)) ->
  heldFor id (uuid c :: used) {| store := record id k ModeHeld None c s; tokens := tks |}.
Proof.
  intros Hid [Hc Hw] Hu Ht. split.
  { intros tk own Hin Ho. destruct (Ht tk own Hin Ho) as [? | [-> _]]; [by right | by left]. }
  exists (newIntent (uuid c) id k ModeHeld (at_ c) None). split; [done |]. split; [by left |]. unfold heldBy. cbn [newIntent managedId intentId untilMs maxUntilMs store].
  split; [by apply newIntent_written |]. do 2 (split; [done |]). unfold record, recordManagedIntent. rewrite Hw. cbn [setFile setMemory memory files newIntent managedId].
  split; [left; apply mapGet_set |]. split; [by rewrite decide_True |]. intros tk Hin Ho. destruct (Ht tk _ Hin Ho) as [? | [_ ?]]; [by destruct Hu | done].
Qed.

(** A change to another database's marker, and to the tokens. *)
Lemma heldFor_other id used used' l s tks :
  heldFor id used l -> mapGet (memory s) id = mapGet (memory (store l)) id -> files s (managedIntentPath id) = files (store l) (managedIntentPath id) ->
  used ⊆ used' -> (forall tk, tk ∈ tks -> tk ∈ tokens l \/ forall own, ownId tk = Some own -> own ∉ used /\ own ∈ used') ->
  heldFor id used' {| store := s; tokens := tks |}.
Proof.
  intros [Hk (i & <- & Hin & Hw & Hu & Hm & Hmem & Hf & Ht)] Em Ef Hsub Htk. split.
  { intros tk own Hi Ho. destruct (Htk tk Hi) as [Hold | Hnew]; [by apply Hsub, (Hk tk) | by apply Hnew]. }
  exists i. split; [done |]. split; [by apply Hsub |]. unfold heldBy. cbn [store tokens]. rewrite Em, Ef. split_and!; try done.
  intros tk Hi Ho. destruct (Htk tk Hi) as [Hold | Hnew]; [by apply (Ht tk) | by destruct (Hnew _ Ho)].
Qed.

Lemma record_elsewhere id id' k mode ttl c s :
  id <> id' -> mapGet (memory (record id' k mode ttl c s)) id = mapGet (memory s) id /\
    files (record id' k mode ttl c s) (managedIntentPath id) = files s (managedIntentPath id).
Proof.
  intros Hn. assert (Hp : managedIntentPath id <> managedIntentPath id') by (intros E; by apply intentPath_inj in E).
  unfold record, recordManagedIntent. destruct (writes c); cbn [setFile setMemory memory files newIntent managedId];
    rewrite mapGet_set_ne by done; [rewrite decide_False by done |]; done.
Qed.

Lemma clear_elsewhere id id' b s :
  id <> id' -> mapGet (memory (clearManagedIntent id' b s)) id = mapGet (memory s) id /\
    files (clearManagedIntent id' b s) (managedIntentPath id) = files s (managedIntentPath id).
Proof.
  intros Hn. assert (Hp : managedIntentPath id <> managedIntentPath id') by (intros E; by apply intentPath_inj in E).
  unfold clearManagedIntent. destruct b; cbn [setFile setMemory memory files]; rewrite mapGet_set_ne by done; [rewrite decide_False by done |]; done.
Qed.

Lemma end_elsewhere id tk su ke c s :
  tokenId tk <> id -> mapGet (memory (endManagedIntent tk su ke c s)) id = mapGet (memory s) id /\
    files (endManagedIntent tk su ke c s) (managedIntentPath id) = files s (managedIntentPath id).
Proof.
  intros Hn. unfold endManagedIntent. cbv zeta. repeat case_match; try done; by first [apply record_elsewhere | apply clear_elsewhere].
Qed.

(** The end of a command that does not want the engine up keeps a held marker, or
    records the stop. *)
Lemma harmless_end i tk su ke c l :
  heldBy i l -> tk ∈ tokens l -> tokenId tk = managedId i -> (su = true -> tokenKind tk ∉ RELEASES_HELD /\ (tokenKind tk = KDestroy -> ke = true)) ->
  endManagedIntent tk su ke c (store l) = store l \/ endManagedIntent tk su ke c (store l) = record (managedId i) KStop ModeHeld None c (store l).
Proof.
  intros Hh Hin Hid Hsu. destruct (heldBy_lookup _ _ Hh) as [d Hl]. destruct Hh as (_ & _ & _ & _ & _ & Ht).
  unfold endManagedIntent. cbv zeta. rewrite Hid, Hl. destruct (decide (tokenKind tk = KDestroy)) as [Ek | Ek].
  { rewrite Ek. rewrite (bool_decide_true (KDestroy = KDestroy)) by done. destruct su; [destruct (Hsu eq_refl) as [_ Hke]; rewrite Hke by done; by left |].
    cbn [andb]. rewrite orb_true_r. by left. }
  rewrite (bool_decide_false (tokenKind tk = KDestroy)) by done. rewrite andb_false_r, orb_false_r. cbn [andb].
  assert (Ho : owns tk (LookupFound i d) = false).
  { unfold owns. destruct (ownId tk) as [own |] eqn:Eo; [| done]. apply bool_decide_false. intros <-. by apply Ek, Ht. }
  rewrite Ho. cbn [negb]. destruct su; cbn [andb]; [| by left].
  destruct (bool_decide (tokenKind tk = KStop)); [by right |]. rewrite bool_decide_false by (by apply Hsu). cbn [andb]. by left.
Qed.

Lemma elem_of_snoc {A} (x y : A) l : x ∈ l ++ [y] -> x ∈ l \/ x = y.
Proof. intros [? | ?%list_elem_of_singleton]%elem_of_app; auto. Qed.

Lemma harmless_step id used o l :
  utf16 id -> harmless id o l -> (forall u, u ∈ uuidsOf o -> u ∉ used) -> heldFor id used l -> heldFor id (uuidsOf o ++ used) (opStep o l).
Proof.
  intros Hid Hh Hu Hf. assert (Hf' := Hf). destruct Hf' as [Hk (i & Ei & Hin & Hb)].
  destruct o as [id' k c | m su ke c | id' c | id' r |]; cbn [opStep uuidsOf harmless app] in *.
  - assert (Hc : uuid c ∉ used) by (apply Hu; by left).
    destruct (begin_cases id' k c (store l)) as [(-> & _ & _) | (-> & Hkind)].
    { eapply heldFor_other; [exact Hf | done | done | set_solver |]. intros tk [? | ->]%elem_of_snoc; [by left | by right]. }
    assert (Htk : forall tk own, tk ∈ tokens l ++ [{| tokenId := id'; tokenKind := k; ownId := Some (uuid c) |}] -> ownId tk = Some own ->
                    own ∈ used \/ (own = uuid c /\ tokenKind tk = k)).
    { intros tk own [Ht | ->]%elem_of_snoc Ho; [left; by apply (Hk tk) | right; by injection Ho as <-]. }
    destruct (decide (id' = id)) as [-> | Hn].
    + destruct Hkind as [-> | Hheld]; [| by rewrite <- Ei, (heldBy_held i l Hb) in Hheld].
      rewrite decide_True by done. apply record_held; [done | by apply Hh | done | exact Htk].
    + destruct (record_elsewhere id id' k (if decide (k = KDestroy) then ModeHeld else ModeRunning) None c (store l)) as [Em Ef]; [done |].
      eapply heldFor_other; [exact Hf | exact Em | exact Ef | set_solver |].
      intros tk [? | ->]%elem_of_snoc; [by left |]. right. intros own [= <-]. split; [done | by left].
  - assert (Hc : uuid c ∉ used) by (apply Hu; by left). destruct (tokens l !! m) as [tk |] eqn:Em.
    2: { destruct l. eapply heldFor_other; [exact Hf | done | done | set_solver |]. by left. }
    destruct (decide (tokenId tk = id)) as [Et | Et].
    + destruct (Hh tk eq_refl Et) as [Hs Hsu].
      destruct (harmless_end i tk su ke c l Hb) as [-> | ->]; [by eapply list_elem_of_lookup_2 | congruence | done | |].
      * eapply heldFor_other; [exact Hf | done | done | set_solver |]. by left.
      * rewrite Ei. apply record_held; [done | done | done |]. intros tk' own Ht Ho. left. by apply (Hk tk').
    + destruct (end_elsewhere id tk su ke c (store l) Et) as [E1 E2].
      eapply heldFor_other; [exact Hf | exact E1 | exact E2 | set_solver |]. by left.
  - assert (Hc : uuid c ∉ used) by (apply Hu; by left). destruct (decide (id' = id)) as [-> | Hn].
    + apply record_held; [done | by apply Hh | done |]. intros tk' own Ht Ho. left. by apply (Hk tk').
    + destruct (record_elsewhere id id' KStop ModeHeld None c (store l)) as [E1 E2]; [done |].
      eapply heldFor_other; [exact Hf | exact E1 | exact E2 | set_solver |]. by left.
  - destruct (clear_elsewhere id id' r (store l)) as [E1 E2]; [done |]. eapply heldFor_other; [exact Hf | exact E1 | exact E2 | done |]. by left.
  - split; [intros tk own Ht; by apply elem_of_nil in Ht |]. exists i. split; [done |]. split; [done |].
    destruct Hb as (Hw & Hun & Hmx & _ & Hfile & _). unfold heldBy. cbn [store tokens restarted memory files]. split_and!; try done.
    + by right.
    + intros tk Ht. by apply elem_of_nil in Ht.
Qed.

Lemma harmless_run id used ops l :
  utf16 id -> along (harmless id) ops l -> fresh used ops -> heldFor id used l -> exists used', heldFor id used' (opsRun ops l).
Proof.
  intros Hid. revert used l. induction ops as [| o ops IH]; intros used l; [by exists used |].
  intros [Ho Hops] [Hu Hfr] Hf. apply (IH _ _ Hops Hfr). by apply harmless_step.
Qed.

(** C22. A database the platform stopped stays marked: after a successful stop,
    whatever begins, ends or fails and however often the daemon restarts, the probe
    is held off at any time, until a command that wants the engine up succeeds, a
    destroy does, or the marker is released; as long as the marker's writes reach
    the disk. *)
Theorem stop_stays_held id n tk ke c ops l used now
    (Hid : utf16 id) (Htk : tokens l !! n = Some tk) (Eid : tokenId tk = id) (Ek : tokenKind tk = KStop)
    (Hk : known used l) (Hc : stored c) (Hu : uuid c ∉ used)
    (Hops : along (harmless id) ops (opStep (OpEnd n true ke c) l)) (Hfr : fresh (uuid c :: used) ops) :
  let l1 := opsRun ops (opStep (OpEnd n true ke c) l) in
  isHeldIntent (lookupManagedIntent id (store l1)) = true /\ isIntentLookupActive (lookupManagedIntent id (store l1)) now = true.
Proof.
  cbv zeta.
  assert (Hf : heldFor id (uuid c :: used) (opStep (OpEnd n true ke c) l)).
  { cbn [opStep]. rewrite Htk. unfold endManagedIntent. rewrite Ek, Eid. apply record_held; [done | done | done |].
    intros tk' own Ht Ho. left. by apply (Hk tk'). }
  destruct (harmless_run id _ ops _ Hid Hops Hfr Hf) as (used' & _ & i & <- & _ & Hb). rewrite (heldBy_held i _ Hb).
  split; [done |]. destruct (heldBy_lookup i _ Hb) as [d ->]. destruct Hb as (_ & Hun & Hmx & _). cbn. unfold isManagedIntentActive. by rewrite Hun, Hmx.
Qed.
End lives.

(** ** Witnesses *)

#[local] Instance intentTables : JsTables := integerTables.

Definition at_ms (t : Z) (u : jstring) : call := {| at_ := t; uuid := u; writes := true |}.
Definition noMarkers : life := {| store := {| memory := []; files := fun _ => FileMissing |}; tokens := [] |}.

Lemma marker_survives_restart_witness :
  lookupManagedIntent "db1" (restarted (record "db1" KStop ModeHeld None (at_ms 1000 "u1") (store noMarkers)))
  = LookupFound (newIntent "u1" "db1" KStop ModeHeld 1000 None) true.
Proof.
  apply (marker_survives_restart "db1" KStop ModeHeld None (at_ms 1000 "u1")); [| by apply (bool_decide_unpack _) | done | done].
  split; [by apply (bool_decide_unpack _) |]. vm_compute. split; [by intros [=] | reflexivity].
Defined.

(** A restore runs over the end of nothing else and is covered to its end. *)
Lemma command_is_covered_witness :
  isIntentLookupActive (lookupManagedIntent "db1"
    (store (opsRun [OpBegin "db2" KStart (at_ms 2000 "u2"); OpEnd 1 true false (at_ms 3000 "u3")] (opStep (OpBegin "db1" KRestore (at_ms 1000 "u1")) noMarkers))))
    21600999 = true.
Proof.
  apply (command_is_covered "db1" KRestore (at_ms 1000 "u1")); [vm_compute; split; [by intros [=] | reflexivity] | | vm_compute; reflexivity].
  cbn [along]. split; [intros [=] |]. split; [| done]. intros tk Etk. vm_compute in Etk. injection Etk as <-. by vm_compute.
Defined.

Definition stoppedOnce : life := opStep (OpBegin "db1" KStop (at_ms 1000 "u1")) noMarkers.
Lemma stop_stays_held_witness :
  isHeldIntent (lookupManagedIntent "db1" (store (opsRun [OpRestart; OpBegin "db1" KRestore (at_ms 9000 "u3"); OpEnd 0 true false (at_ms 9500 "u4")]
    (opStep (OpEnd 0 true false (at_ms 2000 "u2")) stoppedOnce)))) = true.
Proof.
  refine (proj1 (stop_stays_held "db1" 0 {| tokenId := "db1"; tokenKind := KStop; ownId := Some "u1" |} false (at_ms 2000 "u2") _ stoppedOnce ["u1"] 0 _ _ _ _ _ _ _ _ _)).
  - by apply (bool_decide_unpack _).
  - vm_compute. reflexivity.
  - reflexivity.
  - reflexivity.
  - intros tk own Ht Ho. change (tokens stoppedOnce) with [{| tokenId := "db1"; tokenKind := KStop; ownId := Some ("u1" : jstring) |}] in Ht.
    apply list_elem_of_singleton in Ht as ->. injection Ho as <-. by left.
  - split; [split; [by apply (bool_decide_unpack _) |] | reflexivity]. vm_compute. split; [by intros [=] | reflexivity].
  - by apply (bool_decide_unpack _).
  - cbn [along]. split_and!; [done | | | done].
    + intros _. split; [split; [by apply (bool_decide_unpack _) |] | reflexivity]. vm_compute. split; [by intros [=] | reflexivity].
    + intros tk Etk _. vm_compute in Etk. injection Etk as <-. split.
      * split; [split; [by apply (bool_decide_unpack _) |] | reflexivity]. vm_compute. split; [by intros [=] | reflexivity].
      * intros _. split; [by apply (bool_decide_unpack _) | by intros [=]].
  - cbn [fresh uuidsOf]. split_and!; try done; intros u Hin; first [by apply elem_of_nil in Hin | apply list_elem_of_singleton in Hin as ->; by apply (bool_decide_unpack _)].
Defined.

(** Two commands of one database that overlap: the end of the second starts the
    countdown of the marker, and eleven minutes later the probe is armed although
    the first command still runs. *)
Example overlapping_end_uncovers_command :
  let l := opsRun [OpBegin "db1" KRestore (at_ms 0 "u1"); OpBegin "db1" KRestart (at_ms 1000 "u2"); OpEnd 1 false false (at_ms 2000 "u3")] noMarkers in
  isIntentLookupActive (lookupManagedIntent "db1" (store l)) 660000 = false /\ 660000 < MANAGED_INTENT_MAX_RUNNING_MS.
Proof. vm_compute. by split. Qed.
