(* ===== verification/HaObserve.v ===== *)
(** * The dead-primary observer ([instance/pg-dead-primary-observe.ts])

    On a timer the observer samples every PostgreSQL primary of this host, looks
    up the intent markers of the platform and steps the primary's detector; when
    it fires, the event is sent.  A probe waits for its sample, for the lookup of
    the markers and for systemd: these are its stages, and the steps of probes,
    ticks, commands, attach and detach interleave in any order.  Watches are
    shared objects, kept in a heap. *)

From stdpp Require Import list.
From S2P Require Import Prelude Json Number JsonPrint Dates Log CtParse MonState HaProbe HaIntent.

#[local] Open Scope Z_scope.

Definition DOCKER_STILL_BUSY : ProbeSample :=
  {| container := ContainerUnreadable "previous docker call still running"; pgReady := None; controlData := None; postmaster := None |}.
Definition HELD_INTENT_HEALTHY_RELEASE_MS : Z := 10 * 60000.
Definition UNREADABLE_WARN_EVERY_MS : Z := 10 * 60000.
Definition SOFT_LOG_EVERY_MS : Z := 60000.
Definition GAP_RESET_INTERVALS : Z := 3.

(** ** What is watched *)

Record ManagedHaMemberRecord := {
  memManagedId : jstring; memberId : jstring; engine : jstring; role : jstring; containerName : jstring; replicaPeerCount : spec_float
}.
Definition isWatchedPrimary (r : ManagedHaMemberRecord) : bool :=
  bool_decide (engine r = "postgres") && bool_decide (role r = "primary") && num_positive (replicaPeerCount r).

Definition pgProbeGloballyEnabled (value : option jstring) : bool :=
  match value with
  | None => true
  | Some v => negb (memb (toLowerCase (trim v)) ["off" : jstring; "0" : jstring; "false" : jstring; "no" : jstring])
  end.

(** What [systemctl is-system-running] printed; [None] when it failed or timed out. *)
Definition systemdHostBlocksEmit (stdout : option jstring) : bool :=
  match stdout with
  | Some out => negb (bool_decide (trim out = "running")) && negb (bool_decide (trim out = "degraded"))
  | None => true
  end.

Definition isEngineDown (s : ProbeSample) : bool :=
  match container s with Absent => true | Present state => negb (bool_decide (snapStatus state = "running")) | _ => false end.
Definition isHealthySample (s : ProbeSample) : bool :=
  match container s, pgReady s with Present state, Some (PgExit 0) => bool_decide (snapStatus state = "running") | _, _ => false end.

(** ** Markers as the observer sees them *)

Record IntentState := {
  active : bool; heldClusterMarker : bool; runningKind : option jstring; runningOverdue : bool; unreadableReason : option jstring;
  noClusterMarker : bool
}.
Definition intentState (cluster host : IntentLookup) (wall : Z) : IntentState := {|
  active := isIntentLookupActive cluster wall || isIntentLookupActive host wall;
  heldClusterMarker :=
    isHeldIntent cluster || (isRunningIntent cluster && match cluster with LookupFound _ d => d | _ => false end)
    || match cluster with LookupUnreadable _ => true | _ => false end;
  runningKind := if isRunningIntent cluster then match cluster with LookupFound i _ => Some (kind i) | _ => None end else None;
  runningOverdue := isOverdueRunningIntent cluster wall;
  unreadableReason := match cluster with LookupUnreadable r => Some r | _ => None end;
  noClusterMarker := match cluster with LookupNone => true | _ => false end |}.
Definition intentsAt `{JsTables} (s : markers) (id : jstring) (wall : Z) : IntentState :=
  intentState (lookupManagedIntent id s) (lookupManagedIntent HOST_WIDE_INTENT_ID s) wall.

(** ** State *)

Record ClusterWatch := {
  wDetector : DeadPrimaryDetector; intentWasActive : bool; healthySinceMono : option Z; unreadableSinceMono : option Z;
  unreadableWarnedMono : option Z; overdueWarned : bool; lastObservation : option jstring; lastSoftLogMono : option Z
}.
Definition newWatch : ClusterWatch := {|
  wDetector := newDetector; intentWasActive := false; healthySinceMono := None; unreadableSinceMono := None; unreadableWarnedMono := None;
  overdueWarned := false; lastObservation := None; lastSoftLogMono := None |}.
Definition setDetector (d : DeadPrimaryDetector) (w : ClusterWatch) : ClusterWatch := {|
  wDetector := d; intentWasActive := intentWasActive w; healthySinceMono := healthySinceMono w; unreadableSinceMono := unreadableSinceMono w;
  unreadableWarnedMono := unreadableWarnedMono w; overdueWarned := overdueWarned w; lastObservation := lastObservation w;
  lastSoftLogMono := lastSoftLogMono w |}.
Definition setHealthySince (t : option Z) (w : ClusterWatch) : ClusterWatch := {|
  wDetector := wDetector w; intentWasActive := intentWasActive w; healthySinceMono := t; unreadableSinceMono := unreadableSinceMono w;
  unreadableWarnedMono := unreadableWarnedMono w; overdueWarned := overdueWarned w; lastObservation := lastObservation w;
  lastSoftLogMono := lastSoftLogMono w |}.
Definition setUnreadable (since warned : option Z) (w : ClusterWatch) : ClusterWatch := {|
  wDetector := wDetector w; intentWasActive := intentWasActive w; healthySinceMono := healthySinceMono w; unreadableSinceMono := since;
  unreadableWarnedMono := warned; overdueWarned := overdueWarned w; lastObservation := lastObservation w; lastSoftLogMono := lastSoftLogMono w |}.
Definition setTransition (wasActive warned : bool) (w : ClusterWatch) : ClusterWatch := {|
  wDetector := wDetector w; intentWasActive := wasActive; healthySinceMono := healthySinceMono w; unreadableSinceMono := unreadableSinceMono w;
  unreadableWarnedMono := unreadableWarnedMono w; overdueWarned := warned; lastObservation := lastObservation w; lastSoftLogMono := lastSoftLogMono w |}.
Definition setSoftLog (o : option jstring) (t : option Z) (w : ClusterWatch) : ClusterWatch := {|
  wDetector := wDetector w; intentWasActive := intentWasActive w; healthySinceMono := healthySinceMono w; unreadableSinceMono := unreadableSinceMono w;
  unreadableWarnedMono := unreadableWarnedMono w; overdueWarned := overdueWarned w; lastObservation := o; lastSoftLogMono := t |}.

Inductive probe_log :=
| PollFailed (message : jstring) | TickGap (ms : Z) | StopHeld (id : jstring) | StoppedAtStart (id : jstring)
| MarkerUnreadable (id reason : jstring) | MarkerOverdue (id : jstring) (kind : option jstring) | MarkerExpired (id : jstring)
| StillSoft (id reason : jstring) | LeftSoft (id : jstring) (was : option jstring) (now : Observation) | SoftFailure (id reason : jstring)
| HostNotRunning (id : jstring) | PeerLacksProbe (id : jstring) | EventSent (id : jstring) (failures attempt : Z).

Record PgDeadPrimaryEventMessage := { msgManagedId : jstring; sourceMemberId : jstring; evidence : DeadPrimaryEvidence; msgAt : jstring }.

(** Where a probe is: waiting for its sample, for the marker lookup it made, or for systemd. *)
Inductive stage :=
| Sampling | Looking (sample : ProbeSample) (wall : Z) (intent : IntentState) | Asking (ev : DeadPrimaryEvidence) (mono : Z).
Record probe := { probeRecord : ManagedHaMemberRecord; watchRef : nat; pollNo : nat; probeStage : stage }.

(** [#inFlight] is whether there is a [current] poll; the polls are numbered. *)
Record observer := {
  watches : jsmap nat; heap : list ClusterWatch; startupChecked : list jstring; dockerInFlight : jsmap nat;
  current : option nat; polls : nat; listing : bool; obsStopped : bool; lastPollMono : option Z;
  probes : list (option probe); sent : list PgDeadPrimaryEventMessage; obsLog : list probe_log
}.
Definition newObserver : observer := {|
  watches := []; heap := []; startupChecked := []; dockerInFlight := []; current := None; polls := 0; listing := false; obsStopped := true;
  lastPollMono := None; probes := []; sent := []; obsLog := [] |}.
Definition setWatches (m : jsmap nat) (h : list ClusterWatch) (o : observer) : observer := {|
  watches := m; heap := h; startupChecked := startupChecked o; dockerInFlight := dockerInFlight o; current := current o; polls := polls o;
  listing := listing o; obsStopped := obsStopped o; lastPollMono := lastPollMono o; probes := probes o; sent := sent o; obsLog := obsLog o |}.
Definition onWatch (ref : nat) (f : ClusterWatch -> ClusterWatch) (o : observer) : observer := setWatches (watches o) (alter f ref (heap o)) o.
Definition setChecked (id : jstring) (o : observer) : observer := {|
  watches := watches o; heap := heap o; startupChecked := startupChecked o ++ [id]; dockerInFlight := dockerInFlight o; current := current o;
  polls := polls o; listing := listing o; obsStopped := obsStopped o; lastPollMono := lastPollMono o; probes := probes o; sent := sent o; obsLog := obsLog o |}.
Definition setDocker (m : jsmap nat) (o : observer) : observer := {|
  watches := watches o; heap := heap o; startupChecked := startupChecked o; dockerInFlight := m; current := current o; polls := polls o;
  listing := listing o; obsStopped := obsStopped o; lastPollMono := lastPollMono o; probes := probes o; sent := sent o; obsLog := obsLog o |}.
Definition setPoll (c : option nat) (n : nat) (l : bool) (o : observer) : observer := {|
  watches := watches o; heap := heap o; startupChecked := startupChecked o; dockerInFlight := dockerInFlight o; current := c; polls := n;
  listing := l; obsStopped := obsStopped o; lastPollMono := lastPollMono o; probes := probes o; sent := sent o; obsLog := obsLog o |}.
Definition setStopped (b : bool) (o : observer) : observer := {|
  watches := watches o; heap := heap o; startupChecked := startupChecked o; dockerInFlight := dockerInFlight o; current := current o; polls := polls o;
  listing := listing o; obsStopped := b; lastPollMono := lastPollMono o; probes := probes o; sent := sent o; obsLog := obsLog o |}.
Definition setLastPoll (t : option Z) (o : observer) : observer := {|
  watches := watches o; heap := heap o; startupChecked := startupChecked o; dockerInFlight := dockerInFlight o; current := current o; polls := polls o;
  listing := listing o; obsStopped := obsStopped o; lastPollMono := t; probes := probes o; sent := sent o; obsLog := obsLog o |}.
Definition setProbes (l : list (option probe)) (o : observer) : observer := {|
  watches := watches o; heap := heap o; startupChecked := startupChecked o; dockerInFlight := dockerInFlight o; current := current o; polls := polls o;
  listing := listing o; obsStopped := obsStopped o; lastPollMono := lastPollMono o; probes := l; sent := sent o; obsLog := obsLog o |}.
Definition sendMessage (m : PgDeadPrimaryEventMessage) (o : observer) : observer := {|
  watches := watches o; heap := heap o; startupChecked := startupChecked o; dockerInFlight := dockerInFlight o; current := current o; polls := polls o;
  listing := listing o; obsStopped := obsStopped o; lastPollMono := lastPollMono o; probes := probes o; sent := sent o ++ [m]; obsLog := obsLog o |}.
Definition say (l : list probe_log) (o : observer) : observer := {|
  watches := watches o; heap := heap o; startupChecked := startupChecked o; dockerInFlight := dockerInFlight o; current := current o; polls := polls o;
  listing := listing o; obsStopped := obsStopped o; lastPollMono := lastPollMono o; probes := probes o; sent := sent o; obsLog := obsLog o ++ l |}.

(** The observer and the markers it shares with the commands. *)
Record world := { ob : observer; lf : life }.

(** ** Ticks *)

(** [for (const watch of this.#watches.values())]. *)
Definition resetWatch (w : ClusterWatch) : ClusterWatch := setHealthySince None (setDetector (resetStreak (wDetector w)) w).
Definition resetStreaks (o : observer) : observer :=
  setLastPoll None (foldl (fun o e => onWatch e.2 resetWatch o) o (watches o)).
Definition detach (o : observer) : observer := resetStreaks (setStopped true o).
Definition attach (o : observer) : observer := setStopped false (detach o).

(** [count] of [#trackedRun]. *)
Definition countDocker (name : jstring) (f : nat -> nat) (o : observer) : observer :=
  let next := f (default 0%nat (mapGet (dockerInFlight o) name)) in
  setDocker (match next with O => filter (fun e => e.1 <> name) (dockerInFlight o) | _ => mapSet name next (dockerInFlight o) end) o.

Section observe.
Context `{JsTables} `{JsDates}.
Variable config : PgDeadPrimaryConfig.

Definition noteTickGap (mono : Z) (o : observer) : observer :=
  let o := match lastPollMono o with
           | Some last => if GAP_RESET_INTERVALS * intervalMs config <? mono - last then say [TickGap (mono - last)] (resetStreaks o) else o
           | None => o
           end in
  setLastPoll (Some mono) o.

(** [poll] up to the listing of the members. *)
Definition tick (enabled : bool) (mono : Z) (o : observer) : observer :=
  if bool_decide (current o <> None) || obsStopped o then o
  else if enabled then noteTickGap mono (setPoll (Some (polls o)) (S (polls o)) true o)
  else setWatches [] (heap o) o.

Definition watchFor (id : jstring) (o : observer) : nat * observer :=
  match mapGet (watches o) id with
  | Some ref => (ref, o)
  | None => (length (heap o), setWatches (mapSet id (length (heap o)) (watches o)) (heap o ++ [newWatch]) o)
  end.
Definition startProbe (no : nat) (wall : Z) (marks : markers) (o : observer) (r : ManagedHaMemberRecord) : observer :=
  let '(ref, o) := watchFor (memManagedId r) o in
  let add st o := setProbes (probes o ++ [Some {| probeRecord := r; watchRef := ref; pollNo := no; probeStage := st |}]) o in
  if mapHas (dockerInFlight o) (containerName r)
  then add (Looking DOCKER_STILL_BUSY wall (intentsAt marks (memManagedId r) wall)) o
  else add Sampling (countDocker (containerName r) S o).

(** The poll is over when none of its probes is left. *)
Definition pollEnds (no : nat) (o : observer) : observer :=
  if bool_decide (current o = Some no) && forallb (fun p => match p with Some p => negb (pollNo p =? no)%nat | None => true end) (probes o)
  then setPoll None (polls o) (listing o) o else o.
Definition listed (members : list ManagedHaMemberRecord) (wall : Z) (marks : markers) (o : observer) : observer :=
  match listing o, current o with
  | true, Some no =>
      let watched := filter (fun r => isWatchedPrimary r = true) members in
      let o := setPoll (Some no) (polls o) false o in
      let o := setWatches (filter (fun e => e.1 ∈ map memManagedId watched) (watches o)) (heap o) o in
      pollEnds no (foldl (startProbe no wall marks) o watched)
  | _, _ => o
  end.
(** The probe throws: the poll is over, its other probes go on. *)
Definition pollFails (no : nat) (message : jstring) (o : observer) : observer :=
  if decide (current o = Some no) then say [PollFailed (sanitizeForLog message)] (setPoll None (polls o) false o) else o.
Definition listFails (message : jstring) (o : observer) : observer :=
  match listing o, current o with true, Some no => pollFails no message o | _, _ => o end.

(** ** A probe *)

Definition setStage (n : nat) (p : probe) (st : stage) (o : observer) : observer :=
  setProbes (<[n := Some {| probeRecord := probeRecord p; watchRef := watchRef p; pollNo := pollNo p; probeStage := st |}]> (probes o)) o.
Definition finish (n : nat) (p : probe) (o : observer) : observer := pollEnds (pollNo p) (setProbes (<[n := None]> (probes o)) o).

(** The sample is there; [hung] of its Docker calls have not ended. *)
Definition sampled (n : nat) (p : probe) (r : result jstring ProbeSample) (hung : nat) (wall : Z) (marks : markers) (o : observer) : observer :=
  let o := countDocker (containerName (probeRecord p)) (fun k => (k - 1 + hung)%nat) o in
  match r with
  | Throw message => pollFails (pollNo p) message (setProbes (<[n := None]> (probes o)) o)
  | Ok s => setStage n p (Looking s wall (intentsAt marks (memManagedId (probeRecord p)) wall)) o
  end.

(** Whether the interrupted stop is held, and what is logged. *)
Definition startupCheck (id : jstring) (s : ProbeSample) (i : IntentState) (c : call) (w : world) : world :=
  if memb id (startupChecked (ob w)) then w
  else match container s with
       | ContainerUnreadable _ => w
       | _ =>
           let o := setChecked id (ob w) in
           if negb (isEngineDown s) then {| ob := o; lf := lf w |}
           else if decide (runningKind i = Some "stop") then {| ob := say [StopHeld id] o; lf := opStep (OpHold id c) (lf w) |}
           else {| ob := if noClusterMarker i then say [StoppedAtStart id] o else o; lf := lf w |}
       end.

Definition warnUnreadable (id reason : jstring) (mono : Z) (w : ClusterWatch) : ClusterWatch * list probe_log :=
  let since := Some (default mono (unreadableSinceMono w)) in
  match unreadableWarnedMono w with
  | Some last => if mono - last <? UNREADABLE_WARN_EVERY_MS then (setUnreadable since (Some last) w, [])
                 else (setUnreadable since (Some mono) w, [MarkerUnreadable id reason])
  | None => (setUnreadable since (Some mono) w, [MarkerUnreadable id reason])
  end.

Definition noteIntentTransitions (id : jstring) (i : IntentState) (w : ClusterWatch) : ClusterWatch * list probe_log :=
  let overdue := runningOverdue i && negb (overdueWarned w) in
  (setTransition (active i) (runningOverdue i) w,
   (if overdue then [MarkerOverdue id (runningKind i)] else [])
   ++ (if intentWasActive w && negb (active i) then [MarkerExpired id] else [])).

(** The watch, the lines, and whether the held marker is released. *)
Definition trackIntent (id : jstring) (s : ProbeSample) (i : IntentState) (mono : Z) (w : ClusterWatch) : ClusterWatch * list probe_log * bool :=
  let '(w, lines) := noteIntentTransitions id i w in
  let '(w, more, tooOld) :=
    match unreadableReason i with
    | None => (setUnreadable None None w, [], false)
    | Some reason =>
        let '(w, more) := warnUnreadable id reason mono w in
        if MANAGED_INTENT_MAX_RUNNING_MS <=? mono - default mono (unreadableSinceMono w)
        then (setUnreadable None (unreadableWarnedMono w) w, more, true) else (w, more, false)
    end in
  if tooOld then (w, lines ++ more, true)
  else if negb (heldClusterMarker i) || negb (isHealthySample s) then (setHealthySince None w, lines ++ more, false)
  else
    let since := default mono (healthySinceMono w) in
    if mono - since <? HELD_INTENT_HEALTHY_RELEASE_MS then (setHealthySince (Some since) w, lines ++ more, false)
    else (setHealthySince None w, lines ++ more, true).

Definition logSoftPhase (id : jstring) (obs : Observation) (mono : Z) (w : ClusterWatch) : ClusterWatch * list probe_log :=
  let key := match obs with Soft reason _ => Some reason | _ => None end in
  if decide (key = lastObservation w) then
    match key with
    | None => (w, [])
    | Some reason =>
        if match lastSoftLogMono w with Some t => mono - t <? SOFT_LOG_EVERY_MS | None => false end then (w, [])
        else (setSoftLog (lastObservation w) (Some mono) w, [StillSoft id reason])
    end
  else (setSoftLog key (Some mono) w, match key with None => [LeftSoft id (lastObservation w) obs] | Some reason => [SoftFailure id reason] end).

(** From the lookup to the verdict.  The markers change at once; [mono1] and
    [mono2] are the two readings of the clock. *)
Definition looked (n : nat) (p : probe) (s : ProbeSample) (wall : Z) (i : IntentState) (c : call) (mono1 mono2 : Z) (w : world) : world :=
  let id := memManagedId (probeRecord p) in
  let w := startupCheck id s i c w in
  match heap (ob w) !! watchRef p with
  | None => w
  | Some watch =>
      let '(watch, lines, release) := trackIntent id s i mono1 watch in
      let l := if release then opStep (OpRelease id (writes c)) (lf w) else lf w in
      let '(watch, more) := if active i then (watch, []) else logSoftPhase id (classifyProbeSample s wall config) mono2 watch in
      let '(d, verdict) := step config s {| nowMs := mono2; wallMs := Some wall; intentActive := active i |} (wDetector watch) in
      let o := say (lines ++ more) (onWatch (watchRef p) (fun _ => setDetector d watch) (ob w)) in
      {| ob := match verdict with
               | Some ev => if obsStopped o then finish n p o else setStage n p (Asking ev mono2) o
               | None => finish n p o
               end;
         lf := l |}
  end.

(** [mayEmit] from systemd's answer on, and the send. *)
Definition asked (n : nat) (p : probe) (ev : DeadPrimaryEvidence) (mono : Z) (blocked supports delivered : bool) (mono2 wall : Z) (o : observer) : observer :=
  let id := memManagedId (probeRecord p) in
  let onDetector f o := onWatch (watchRef p) (fun w => setDetector (f (wDetector w)) w) o in
  finish n p
    (if blocked then say [HostNotRunning id] (onDetector resetStreak o)
     else if negb supports then say [PeerLacksProbe id] (onDetector (markEmitted config mono2) o)
     else if obsStopped o then o
     else if delivered
     then say [EventSent id (evFailures ev) (attempt ev)]
            (onDetector (markEmitted config mono)
               (sendMessage {| msgManagedId := id; sourceMemberId := memberId (probeRecord p); evidence := ev; msgAt := toISOString wall |} o))
     else o).

(** ** Histories *)

Inductive obsEvent :=
| Attached | Detached | Ticked (enabled : bool) (mono : Z) | Listed (members : list ManagedHaMemberRecord) (wall : Z) | ListFailed (message : jstring)
| Sampled (n : nat) (r : result jstring ProbeSample) (hung : nat) (wall : Z) | Looked (n : nat) (c : call) (mono1 mono2 : Z)
| Asked (n : nat) (systemd : option jstring) (supports delivered : bool) (mono wall : Z) | DockerEnded (name : jstring) | Command (o : op).

(** A restarted daemon has a new observer; what left stays said. *)
Definition restartObserver (o : observer) : observer := {|
  watches := []; heap := []; startupChecked := []; dockerInFlight := []; current := None; polls := 0; listing := false; obsStopped := true;
  lastPollMono := None; probes := []; sent := sent o; obsLog := obsLog o |}.
Definition onObserver (f : observer -> observer) (w : world) : world := {| ob := f (ob w); lf := lf w |}.
Definition obsStep (e : obsEvent) (w : world) : world :=
  match e with
  | Attached => onObserver attach w
  | Detached => onObserver detach w
  | Ticked enabled mono => onObserver (tick enabled mono) w
  | Listed members wall => onObserver (listed members wall (store (lf w))) w
  | ListFailed m => onObserver (listFails m) w
  | Sampled n r hung wall =>
      match probes (ob w) !! n with
      | Some (Some p) => match probeStage p with Sampling => onObserver (sampled n p r hung wall (store (lf w))) w | _ => w end
      | _ => w
      end
  | Looked n c mono1 mono2 =>
      match probes (ob w) !! n with
      | Some (Some p) => match probeStage p with Looking s wall i => looked n p s wall i c mono1 mono2 w | _ => w end
      | _ => w
      end
  | Asked n systemd supports delivered mono2 wall =>
      match probes (ob w) !! n with
      | Some (Some p) =>
          match probeStage p with
          | Asking ev mono => onObserver (asked n p ev mono (systemdHostBlocksEmit systemd) supports delivered mono2 wall) w
          | _ => w
          end
      | _ => w
      end
  | DockerEnded name => onObserver (countDocker name pred) w
  | Command OpRestart => {| ob := restartObserver (ob w); lf := opStep OpRestart (lf w) |}
  | Command o => {| ob := ob w; lf := opStep o (lf w) |}
  end.
End observe.

(** ** An event means a dead primary *)

Section meaning.
Context `{JsTables} `{JsDates}.
Variable config : PgDeadPrimaryConfig.

(** The states a history goes through, newest first. *)
Inductive reach : list world -> world -> Prop :=
| reach_start l : reach [] {| ob := newObserver; lf := l |}
| reach_step past w e : reach past w -> reach (w :: past) (obsStep config e w).

(** A tick was judged by the markers of its database, and of the host, as they were. *)
Definition lawful (id : jstring) (past : list world) (e : detEvent) : Prop :=
  match e with
  | Stepped s c =>
      exists st wall, st ∈ past /\ wallMs c = Some wall /\ intentActive c = active (intentsAt (store (lf st)) id wall)
  | _ => True
  end.
Definition genuine (id : jstring) (past : list world) (d : DeadPrimaryDetector) : Prop :=
  exists r, d = detector config r /\ Forall (lawful id past) r.
Definition stageOk (id : jstring) (past : list world) (st : stage) : Prop :=
  match st with
  | Sampling => True
  | Looking s wall i => exists w, w ∈ past /\ i = intentsAt (store (lf w)) id wall
  | Asking ev mono => exists s c r, Forall (lawful id past) (Stepped s c :: r) /\ (step config s c (detector config r)).2 = Some ev
  end.
Definition probeOk (owners : list jstring) (past : list world) (p : probe) : Prop :=
  owners !! watchRef p = Some (memManagedId (probeRecord p)) /\ isWatchedPrimary (probeRecord p) = true /\
  stageOk (memManagedId (probeRecord p)) past (probeStage p).
(** Every watch belongs to one database and its detector saw lawful ticks only. *)
Record sound (owners : list jstring) (past : list world) (o : observer) : Prop := {
  sound_length : length owners = length (heap o);
  sound_heap : forall ref w id, heap o !! ref = Some w -> owners !! ref = Some id -> genuine id past (wDetector w);
  sound_watches : forall id ref, mapGet (watches o) id = Some ref -> owners !! ref = Some id;
  sound_probes : forall n p, probes o !! n = Some (Some p) -> probeOk owners past p
}.

Lemma lawful_more id past past' e : past ⊆ past' -> lawful id past e -> lawful id past' e.
Proof. intros Hsub. destruct e; try done. intros (st & wall & Hin & Hrest). exists st, wall. split; [by apply Hsub | done]. Qed.
Lemma lawfuls_more id past past' r : past ⊆ past' -> Forall (lawful id past) r -> Forall (lawful id past') r.
Proof. intros Hsub Hr. eapply Forall_impl; [exact Hr |]. intros e. by apply lawful_more. Qed.
Lemma genuine_more id past past' d : past ⊆ past' -> genuine id past d -> genuine id past' d.
Proof. intros Hsub (r & -> & Hr). exists r. split; [done | by eapply lawfuls_more]. Qed.
Lemma stage_more id past past' st : past ⊆ past' -> stageOk id past st -> stageOk id past' st.
Proof.
  intros Hsub. destruct st as [| s wall i | ev mono]; [done | |].
  - intros (w & Hin & ->). exists w. split; [by apply Hsub | done].
  - intros (s & c & r & Hr & Hf). exists s, c, r. split; [by eapply lawfuls_more | done].
Qed.
Lemma sound_more owners past past' o : past ⊆ past' -> sound owners past o -> sound owners past' o.
Proof.
  intros Hsub [S1 S2 S3 S4]. split; [done | | done |].
  - intros ref w id Hw Ho. eapply genuine_more; [exact Hsub | by eapply S2].
  - intros n p Hp. destruct (S4 n p Hp) as (E1 & E2 & E3). split_and!; [done | done | by eapply stage_more].
Qed.

Lemma sound_ext owners past o o' :
  heap o' = heap o -> watches o' = watches o -> probes o' = probes o -> sound owners past o -> sound owners past o'.
Proof. intros E1 E2 E3 [S1 S2 S3 S4]. split; rewrite ?E1, ?E2, ?E3; done. Qed.

Lemma sound_say owners past l o : sound owners past o -> sound owners past (say l o).
Proof. by apply sound_ext. Qed.

Lemma genuine_forget id past d : genuine id past d -> genuine id past (resetStreak d).
Proof. intros (r & -> & Hr). exists (Forgotten :: r). split; [done |]. by constructor. Qed.
Lemma genuine_emit id past d t : genuine id past d -> genuine id past (markEmitted config t d).
Proof. intros (r & -> & Hr). exists (Emitted t :: r). split; [done |]. by constructor. Qed.

Lemma sound_onWatch owners past ref f o :
  sound owners past o -> (forall id w, owners !! ref = Some id -> heap o !! ref = Some w -> genuine id past (wDetector (f w))) ->
  sound owners past (onWatch ref f o).
Proof.
  intros [S1 S2 S3 S4] Hf. split; cbn [onWatch setWatches heap watches probes]; [by rewrite length_alter | | done | done].
  intros ref' w id Hw Ho. destruct (decide (ref' = ref)) as [-> | Hn].
  - rewrite list_lookup_alter_eq in Hw. apply fmap_Some in Hw as (w0 & Hw0 & ->). by apply Hf.
  - rewrite list_lookup_alter_ne in Hw by done. by eapply S2.
Qed.

Lemma sound_reset owners past o : sound owners past o -> sound owners past (resetStreaks o).
Proof.
  intros S. unfold resetStreaks. apply (sound_ext _ _ (foldl (fun o e => onWatch e.2 resetWatch o) o (watches o))); [done | done | done |].
  generalize (watches o). intros l. revert o S. induction l as [| e l IH]; intros o S; [exact S |]. cbn [foldl]. apply IH. apply sound_onWatch; [exact S |].
  intros id w Ho Hw. cbn [resetWatch setHealthySince setDetector wDetector]. apply genuine_forget. by eapply sound_heap.
Qed.

Lemma sound_detach owners past o : sound owners past o -> sound owners past (detach o).
Proof. intros S. by apply sound_reset, (sound_ext _ _ o). Qed.

Lemma sound_pollEnds owners past no o : sound owners past o -> sound owners past (pollEnds no o).
Proof. intros S. unfold pollEnds. case_match; [by apply (sound_ext _ _ o) | done]. Qed.
Lemma sound_pollFails owners past no m o : sound owners past o -> sound owners past (pollFails no m o).
Proof. intros S. unfold pollFails. case_match; [by apply (sound_ext _ _ o) | done]. Qed.

Lemma sound_tick owners past en mono o : sound owners past o -> sound owners past (tick config en mono o).
Proof.
  intros S. unfold tick. destruct (_ || _); [done |]. destruct en.
  - unfold noteTickGap. cbv zeta. set (o1 := setPoll _ _ _ o). assert (S1 : sound owners past o1) by (by apply (sound_ext _ _ o)).
    match goal with |- sound _ _ (setLastPoll _ ?o2) => apply (sound_ext _ _ o2); [done | done | done |] end.
    destruct (lastPollMono o1) as [last |]; [| done]. destruct (_ <? _); [| done]. by apply (sound_ext _ _ (resetStreaks o1)), sound_reset.
  - destruct S as [S1 S2 S3 S4]. by split.
Qed.

Lemma sound_setProbe owners past n st o : sound owners past o -> (forall p, st = Some p -> probeOk owners past p) -> sound owners past (setProbes (<[n := st]> (probes o)) o).
Proof.
  intros [S1 S2 S3 S4] Hp. split; [done | done | done |]. cbn [setProbes probes]. intros m p Hm.
  destruct (decide (m = n)) as [-> | Hn]; [| rewrite list_lookup_insert_ne in Hm by done; by apply (S4 m)].
  destruct (decide (n < length (probes o))%nat) as [Hl | Hl].
  - rewrite list_lookup_insert_eq in Hm by done. injection Hm as ->. by apply Hp.
  - rewrite list_insert_ge in Hm by lia. by apply (S4 n).
Qed.
Lemma sound_finish owners past n p o : sound owners past o -> sound owners past (finish n p o).
Proof. intros S. by apply sound_pollEnds, sound_setProbe. Qed.

Lemma sound_startProbe owners past no wall w o r :
  sound owners past o -> w ∈ past -> isWatchedPrimary r = true ->
  exists owners', sound owners' past (startProbe no wall (store (lf w)) o r).
Proof.
  intros S Hin Hw. unfold startProbe.
  assert (Hf : exists owners' ref o1, watchFor (memManagedId r) o = (ref, o1) /\ sound owners' past o1 /\ owners' !! ref = Some (memManagedId r)).
  { unfold watchFor. destruct (mapGet (watches o) (memManagedId r)) as [ref |] eqn:Eg.
    - exists owners, ref, o. split_and!; [done | done | by eapply sound_watches].
    - exists (owners ++ [memManagedId r]), (length (heap o)), (setWatches (mapSet (memManagedId r) (length (heap o)) (watches o)) (heap o ++ [newWatch]) o).
      destruct S as [S1 S2 S3 S4]. split; [done |]. split; [| rewrite <- S1; by apply list_lookup_middle].
      split; cbn [setWatches heap watches probes].
      + rewrite !length_app. cbn. lia.
      + intros ref x id [Hx | [Hge Hx]]%lookup_app_Some Ho.
        * apply (S2 ref x id Hx). rewrite lookup_app_l in Ho; [done |]. rewrite S1. by eapply lookup_lt_Some.
        * apply list_lookup_singleton_Some in Hx as [_ <-]. by exists [].
      + intros id ref. destruct (decide (id = memManagedId r)) as [-> | Hn].
        * rewrite mapGet_set. intros [= <-]. rewrite <- S1. by apply list_lookup_middle.
        * rewrite mapGet_set_ne by done. intros Hg%S3. by apply lookup_app_l_Some.
      + intros n p Hp. destruct (S4 n p Hp) as (E1 & E2 & E3). split_and!; [by apply lookup_app_l_Some | done | done]. }
  destruct Hf as (owners' & ref & o1 & -> & S1 & Ho). exists owners'. cbv zeta.
  assert (Hadd : forall o2 st, sound owners' past o2 -> stageOk (memManagedId r) past st ->
    sound owners' past (setProbes (probes o2 ++ [Some {| probeRecord := r; watchRef := ref; pollNo := no; probeStage := st |}]) o2)).
  { intros o2 st [T1 T2 T3 T4] Hst. split; [done | done | done |]. cbn [setProbes probes]. intros n p [Hp | [_ Hp]]%lookup_app_Some; [by apply (T4 n) |].
    apply list_lookup_singleton_Some in Hp as [_ [= <-]]. by split_and!. }
  destruct (mapHas _ _); [apply Hadd; [done |]; by exists w |]. apply Hadd; [by apply (sound_ext _ _ o1) | done].
Qed.

Lemma sound_listed owners past members wall w o :
  sound owners past o -> w ∈ past -> exists owners', sound owners' past (listed members wall (store (lf w)) o).
Proof.
  intros S Hin. unfold listed. destruct (listing o); [| by exists owners]. destruct (current o) as [no |]; [| by exists owners].
  cbv zeta. set (o1 := setWatches _ _ _). assert (S1 : sound owners past o1).
  { destruct S as [S1 S2 S3 S4]. split; [done | done | | done]. cbn [o1 setWatches watches setPoll]. intros id ref Hg.
    pose proof (mapGet_filter_keys (fun k => k ∈ map memManagedId (filter (fun r => isWatchedPrimary r = true) members)) (watches o) id) as Ek.
    rewrite Ek in Hg. case_decide; [by apply S3 | done]. }
  assert (Hw : Forall (fun r => isWatchedPrimary r = true) (filter (fun r => isWatchedPrimary r = true) members)).
  { apply Forall_forall. by intros r [? _]%list_elem_of_filter. }
  revert S1. generalize o1 owners. clear -Hin Hw. induction Hw as [| r l Hr _ IH]; intros o1 owners S1; cbn [foldl].
  { exists owners. by apply sound_pollEnds. }
  destruct (sound_startProbe owners past no wall w o1 r S1 Hin Hr) as [owners' S2]. by apply (IH _ owners').
Qed.

Lemma sound_sampled owners past n p r hung wall w o :
  sound owners past o -> probeOk owners past p -> w ∈ past -> sound owners past (sampled n p r hung wall (store (lf w)) o).
Proof.
  intros S (P1 & P2 & _) Hin. unfold sampled. cbv zeta. set (o1 := countDocker _ _ o). assert (S1 : sound owners past o1) by (by apply (sound_ext _ _ o)).
  destruct r as [s | m].
  - apply sound_setProbe; [done |]. intros q [= <-]. split_and!; [done | done |]. by exists w.
  - apply sound_pollFails. by apply sound_setProbe.
Qed.

Lemma transitions_detector id i w : wDetector (noteIntentTransitions id i w).1 = wDetector w.
Proof. done. Qed.
Lemma trackIntent_detector id s i mono w : wDetector (trackIntent id s i mono w).1.1 = wDetector w.
Proof.
  unfold trackIntent, noteIntentTransitions. destruct (unreadableReason i) as [reason |].
  - unfold warnUnreadable. destruct (unreadableWarnedMono _); repeat case_match; simplify_eq; done.
  - repeat case_match; simplify_eq; done.
Qed.
Lemma logSoftPhase_detector id obs mono w : wDetector (logSoftPhase id obs mono w).1 = wDetector w.
Proof. unfold logSoftPhase. repeat case_match; done. Qed.

Lemma startup_fields id s i c w :
  heap (ob (startupCheck id s i c w)) = heap (ob w) /\ watches (ob (startupCheck id s i c w)) = watches (ob w) /\
  probes (ob (startupCheck id s i c w)) = probes (ob w) /\ sent (ob (startupCheck id s i c w)) = sent (ob w).
Proof. unfold startupCheck. repeat case_match; done. Qed.

Lemma sound_looked owners past n p s wall i c mono1 mono2 w :
  sound owners past (ob w) -> probeOk owners past p -> probeStage p = Looking s wall i ->
  sound owners past (ob (looked config n p s wall i c mono1 mono2 w)).
Proof.
  intros S (P1 & P2 & P3) Est. rewrite Est in P3. destruct P3 as (w0 & Hw0 & Ei). unfold looked. cbv zeta.
  set (id := memManagedId (probeRecord p)) in *. destruct (startup_fields id s i c w) as (E1 & E2 & E3 & _).
  set (w1 := startupCheck id s i c w) in *. assert (S1 : sound owners past (ob w1)) by (by apply (sound_ext _ _ (ob w))).
  destruct (heap (ob w1) !! watchRef p) as [watch |] eqn:Ew; [| done].
  pose proof (trackIntent_detector id s i mono1 watch) as Et. destruct (trackIntent id s i mono1 watch) as [[watch1 lines] release]. cbn [fst] in Et.
  assert (Hsoft : exists watch2 more, (if active i then (watch1, []) else logSoftPhase id (classifyProbeSample s wall config) mono2 watch1) = (watch2, more)
    /\ wDetector watch2 = wDetector watch).
  { destruct (active i); [by exists watch1, [] |]. pose proof (logSoftPhase_detector id (classifyProbeSample s wall config) mono2 watch1) as El.
    destruct (logSoftPhase _ _ _ _) as [watch2 more]. exists watch2, more. split; [done |]. cbn [fst] in El. congruence. }
  destruct Hsoft as (watch2 & more & -> & Ed). rewrite Ed. set (ctx := {| nowMs := mono2; wallMs := Some wall; intentActive := active i |}).
  destruct (sound_heap _ _ _ S1 _ _ _ Ew P1) as (r & Er & Hr). rewrite Er.
  assert (Hlaw : Forall (lawful id past) (Stepped s ctx :: r)).
  { constructor; [| done]. exists w0, wall. split_and!; [done | done |]. unfold ctx. cbn [intentActive]. by rewrite <- Ei. }
  destruct (step config s ctx (detector config r)) as [d verdict] eqn:Es.
  assert (S2 : sound owners past (say (lines ++ more) (onWatch (watchRef p) (fun _ => setDetector d watch2) (ob w1)))).
  { eapply (sound_ext _ _ (onWatch (watchRef p) (fun _ => setDetector d watch2) (ob w1))); [done | done | done |]. apply sound_onWatch; [done |].
    intros id' x Ho _. rewrite P1 in Ho. injection Ho as <-. exists (Stepped s ctx :: r). split; [| done]. cbn [detector detStep setDetector wDetector]. by rewrite Es. }
  set (o := say _ _) in *. destruct verdict as [ev |]; [| by apply sound_finish]. cbn [ob]. destruct (obsStopped o); [by apply sound_finish |].
  apply sound_setProbe; [done |]. intros q [= <-]. split_and!; [done | done |]. exists s, ctx, r. split; [done |]. by rewrite Es.
Qed.

Lemma sound_asked owners past n p ev mono bl su de mono2 wall o :
  sound owners past o -> probeOk owners past p -> sound owners past (asked config n p ev mono bl su de mono2 wall o).
Proof.
  intros S (P1 & _ & _). unfold asked. cbv zeta. apply sound_finish.
  assert (Hd : forall f o', sound owners past o' -> (forall id d, genuine id past d -> genuine id past (f d)) ->
    sound owners past (onWatch (watchRef p) (fun w => setDetector (f (wDetector w)) w) o')).
  { intros f o' S' Hf. apply sound_onWatch; [done |]. intros id w Ho Hw. cbn [setDetector wDetector]. apply Hf. by eapply sound_heap. }
  destruct bl; [apply sound_say, (Hd resetStreak); [done |]; intros; by apply genuine_forget |].
  destruct su; cbn [negb]; [| apply sound_say, (Hd (markEmitted config mono2)); [done |]; intros; by apply genuine_emit].
  destruct (obsStopped o); [done |]. destruct de; [| done].
  apply sound_say, (Hd (markEmitted config mono)); [by apply (sound_ext _ _ o) | intros; by apply genuine_emit].
Qed.

Lemma sound_step owners past e w :
  w ∈ past -> sound owners past (ob w) -> exists owners', sound owners' past (ob (obsStep config e w)).
Proof.
  intros Hin S. destruct e as [| | en mono | members wall | m | n r hung wall | n c mono1 mono2 | n systemd su de mono wall | name | o]; cbn [obsStep onObserver ob].
  - exists owners. apply (sound_ext _ _ (detach (ob w))); [done | done | done | by apply sound_detach].
  - exists owners. by apply sound_detach.
  - exists owners. by apply sound_tick.
  - by apply (sound_listed owners).
  - exists owners. unfold listFails. destruct (listing (ob w)); [| done]. destruct (current (ob w)); [| done]. by apply sound_pollFails.
  - exists owners. destruct (probes (ob w) !! n) as [[p |] |] eqn:Ep; try done. destruct (probeStage p); try done. cbn [onObserver ob].
    apply sound_sampled; [done | by eapply sound_probes | done].
  - exists owners. destruct (probes (ob w) !! n) as [[p |] |] eqn:Ep; try done. destruct (probeStage p) as [| s wall i |] eqn:Es; try done.
    apply sound_looked; [done | by eapply sound_probes | done].
  - exists owners. destruct (probes (ob w) !! n) as [[p |] |] eqn:Ep; try done. destruct (probeStage p) as [| |ev mono0]; try done. cbn [onObserver ob].
    apply sound_asked; [done | by eapply sound_probes].
  - exists owners. by apply (sound_ext _ _ (ob w)).
  - destruct o; [exists owners; done .. |]. exists []. cbn [ob restartObserver]. split; [done | done | done | done].
Qed.

Lemma reach_sound past w : reach past w -> exists owners, sound owners (w :: past) (ob w).
Proof.
  induction 1 as [l | past w e _ [owners IH]]; [exists []; by split |].
  destruct (sound_step owners (w :: past) e w) as [owners' S]; [by left | done |]. exists owners'.
  eapply sound_more; [| exact S]. intros x Hx. by right.
Qed.

(** *** Only a probe that asked systemd sends *)

Lemma sent_fold {A} (f : observer -> A -> observer) l o : (forall o x, sent (f o x) = sent o) -> sent (foldl f o l) = sent o.
Proof. intros Hf. revert o. induction l as [| x l IH]; intros o; [done |]. cbn [foldl]. by rewrite IH. Qed.
Lemma sent_reset o : sent (resetStreaks o) = sent o.
Proof. unfold resetStreaks. cbn [setLastPoll sent]. by apply sent_fold. Qed.
Lemma sent_detach o : sent (detach o) = sent o.
Proof. unfold detach. by rewrite sent_reset. Qed.
Lemma sent_pollEnds no o : sent (pollEnds no o) = sent o.
Proof. unfold pollEnds. by case_match. Qed.
Lemma sent_pollFails no m o : sent (pollFails no m o) = sent o.
Proof. unfold pollFails. by case_match. Qed.
Lemma sent_finish n p o : sent (finish n p o) = sent o.
Proof. unfold finish. by rewrite sent_pollEnds. Qed.
Lemma sent_tick en mono o : sent (tick config en mono o) = sent o.
Proof.
  unfold tick. destruct (_ || _); [done |]. destruct en; [| done]. unfold noteTickGap. cbv zeta. cbn [setLastPoll sent].
  destruct (lastPollMono _); [| done]. destruct (_ <? _); [| done]. cbn [say sent]. by rewrite sent_reset.
Qed.
Lemma sent_startProbe no wall marks o r : sent (startProbe no wall marks o r) = sent o.
Proof.
  unfold startProbe, watchFor. destruct (mapGet (watches o) (memManagedId r)); cbv zeta; by destruct (mapHas _ _).
Qed.
Lemma sent_listed members wall marks o : sent (listed members wall marks o) = sent o.
Proof.
  unfold listed. destruct (listing o); [| done]. destruct (current o); [| done]. cbv zeta. rewrite sent_pollEnds, sent_fold; [done |].
  intros. apply sent_startProbe.
Qed.
Lemma sent_sampled n p r hung wall marks o : sent (sampled n p r hung wall marks o) = sent o.
Proof. unfold sampled. cbv zeta. destruct r; [done |]. by rewrite sent_pollFails. Qed.
Lemma sent_looked n p s wall i c mono1 mono2 w : sent (ob (looked config n p s wall i c mono1 mono2 w)) = sent (ob w).
Proof.
  unfold looked. cbv zeta. destruct (startup_fields (memManagedId (probeRecord p)) s i c w) as (_ & _ & _ & Es).
  destruct (heap _ !! _); [| done]. repeat (case_match; simplify_eq; cbn [ob]); rewrite ?sent_finish; done.
Qed.

(** Neither the database's marker nor the host's was active when the tick looked. *)
Definition unmarked (id : jstring) (past : list world) (e : detEvent) : Prop :=
  match e with
  | Stepped s c => exists st wall, st ∈ past /\ wallMs c = Some wall /\
      isIntentLookupActive (lookupManagedIntent id (store (lf st))) wall = false /\
      isIntentLookupActive (lookupManagedIntent HOST_WIDE_INTENT_ID (store (lf st))) wall = false
  | _ => True
  end.

Lemma suspect_unmarked id past r : Forall (lawful id past) r -> Forall (suspect config) r -> Forall (unmarked id past) r.
Proof.
  rewrite !Forall_forall. intros Hl Hs e Hin. specialize (Hl e Hin). specialize (Hs e Hin). destruct e as [s c | |]; [| done | done].
  destruct Hl as (st & wall & Hst & Hw & Ha). destruct Hs as [Hi _]. rewrite Hi in Ha. cbn [active intentsAt intentState] in Ha.
  symmetry in Ha. apply orb_false_elim in Ha as [? ?]. by exists st, wall.
Qed.

End meaning.

(** ** Witnesses *)

#[local] Instance observerTables : JsTables := integerTables.
#[local] Instance observerDates : JsDates := {| otherDate := fun _ => None |}.
#[local] Notation defaults := DEFAULT_PG_DEAD_PRIMARY_CONFIG.

(** The states before, and the state after, a history (newest first) of a host without markers. *)
Definition freshWorld : world := {| ob := newObserver; lf := noMarkers |}.
Fixpoint runs (es : list obsEvent) : list world * world :=
  match es with
  | [] => ([], freshWorld)
  | e :: es => let '(past, w) := runs es in (w :: past, obsStep defaults e w)
  end.
Lemma runs_reach es : reach defaults (runs es).1 (runs es).2.
Proof.
  induction es as [| e es IH]; [apply reach_start |]. cbn [runs]. destruct (runs es) as [past w]. by apply reach_step.
Qed.

Definition aPrimary : ManagedHaMemberRecord :=
  {| memManagedId := "db1"; memberId := "m1"; engine := "postgres"; role := "primary"; containerName := "pg1"; replicaPeerCount := num_of_Z 1 |}.
Definition goneTick (n : nat) : list obsEvent :=
  let t := 5000 * Z.of_nat n in
  [Looked n (at_ms t "u") t t; Sampled n (Ok absentSample) 0 (1767225600000 + t); Listed [aPrimary] (1767225600000 + t); Ticked true t].
(** Six ticks without a container. *)
Definition goneHistory : list obsEvent := concat (map goneTick [5; 4; 3; 2; 1; 0]%nat) ++ [Attached].


(** A tick that was in flight when the observer was detached sends after all when
    it is attached again before systemd answers. *)
Example reattached_tick_sends :
  length (sent (ob (runs (Asked 5 (Some ("running" : jstring)) true true 25001 1767225625001 :: Attached :: Detached :: goneHistory)).2)) = 1%nat.
Proof. vm_compute. reflexivity. Qed.
