(* ===== verification/SqlServer.v ===== *)
(** * How a MySQL-family server reads and runs a script

    The specification side of the SQL builders: what the MySQL and MariaDB
    manuals say of the texts the daemon feeds to the client.  [lex] are the
    lexical rules (default SQL mode), [parse] the grammar of the account and
    grant statements, [runScript] their effect on the accounts and on the grant
    table [mysql.db].  Everything the rules leave open here (comments, double
    quotes, client commands, other statements) makes the reading fail, so a
    theorem that a text is read says that it has none of them. *)

From S2P Require Import Prelude.

(** ** Lexical rules *)

Inductive token :=
| TWord (w : jstring)
| TName (s : jstring)     (** a name in backticks *)
| TString (s : jstring)   (** a string in single quotes, decoded *)
| TSymbol (c : N).

#[global] Instance token_dec : EqDecision token.
Proof. solve_decision. Defined.

(** Where in the text the server is. *)
Inductive scanning :=
| Between
| InWord (w : jstring)
| InString (s : jstring)
| InEscape (s : jstring)      (** after a backslash in a string *)
| AfterString (s : jstring)   (** after a quote: the end, or the first of two *)
| InName (s : jstring)
| AfterName (s : jstring).

(** What a backslash and a character denote inside a string. *)
Definition unescape (c : N) : jstring :=
  match c with
  | 48 => [0] | 98 => [8] | 110 => [10] | 114 => [13] | 116 => [9] | 90 => [26]
  | 37 => [92; 37] | 95 => [92; 95]
  | _ => [c]
  end%N.

Definition is_sql_word (c : N) : bool := is_word c || (c =? 36)%N.

Definition SYMBOLS : jstring := ".,;@()=<>*".

(** The first character of a token.  Characters that open a comment, a client
    command or a double-quoted string are refused. *)
Definition begin (c : N) : option (list token * scanning) :=
  if (c =? 32)%N || (c =? 10)%N then Some ([], Between)
  else if is_sql_word c then Some ([], InWord [c])
  else if (c =? 39)%N then Some ([], InString [])
  else if (c =? 96)%N then Some ([], InName [])
  else if hasChar c SYMBOLS then Some ([TSymbol c], Between)
  else None.

Definition emit (t : token) (r : option (list token * scanning)) : option (list token * scanning) :=
  '(ts, st) ← r; Some (t :: ts, st).

(** One character.  A word right before a quote would be a character set or a
    literal's type: refused. *)
Definition scanStep (st : scanning) (c : N) : option (list token * scanning) :=
  match st with
  | Between => begin c
  | InWord w =>
      if is_sql_word c then Some ([], InWord (w ++ [c]))
      else if (c =? 39)%N then None
      else emit (TWord w) (begin c)
  | InString s =>
      if (c =? 39)%N then Some ([], AfterString s)
      else if (c =? 92)%N then Some ([], InEscape s)
      else Some ([], InString (s ++ [c]))
  | InEscape s => Some ([], InString (s ++ unescape c))
  | AfterString s =>
      if (c =? 39)%N then Some ([], InString (s ++ [39%N])) else emit (TString s) (begin c)
  | InName s =>
      if (c =? 96)%N then Some ([], AfterName s) else Some ([], InName (s ++ [c]))
  | AfterName s =>
      if (c =? 96)%N then Some ([], InName (s ++ [96%N])) else emit (TName s) (begin c)
  end.

Fixpoint scan (st : scanning) (text : jstring) : option (list token * scanning) :=
  match text with
  | [] => Some ([], st)
  | c :: text' =>
      '(ts, st1) ← scanStep st c;
      '(us, st2) ← scan st1 text';
      Some (ts ++ us, st2)
  end.

(** The end of the text: an open string or name is an error. *)
Definition scanEnd (st : scanning) : option (list token) :=
  match st with
  | Between => Some []
  | InWord w => Some [TWord w]
  | AfterString s => Some [TString s]
  | AfterName s => Some [TName s]
  | InString _ | InEscape _ | InName _ => None
  end.

Definition lex (text : jstring) : option (list token) :=
  '(ts, st) ← scan Between text;
  us ← scanEnd st;
  Some (ts ++ us).

(** The statements of a script: the tokens between semicolons. *)
Definition SEMICOLON : token := TSymbol 59.

Fixpoint statementsOf (ts : list token) : list (list token) :=
  match ts with
  | [] => []
  | t :: ts' =>
      if decide (t = SEMICOLON) then [] :: statementsOf ts'
      else match statementsOf ts' with
           | [] => [[t]]
           | s :: ss => (t :: s) :: ss
           end
  end.

(** ** Grammar *)

Record account := Account { acUser : jstring; acHost : jstring }.
#[global] Instance account_dec : EqDecision account.
Proof. solve_decision. Defined.
#[global] Instance account_countable : Countable account.
Proof.
  refine (inj_countable' (fun a => (acUser a, acHost a)) (fun p => Account p.1 p.2) _).
  by intros [].
Defined.

(** How an account proves itself: a password, or a plugin that asks the
    operating system. *)
Inductive auth := Password (p : jstring) | Plugin (name : jstring).
#[global] Instance auth_dec : EqDecision auth.
Proof. solve_decision. Defined.

(** What a grant is on: everything, a database (a pattern), or a table. *)
Inductive scope :=
| Everywhere
| OnSchema (pattern : jstring)
| OnTable (schema table : jstring).
#[global] Instance scope_dec : EqDecision scope.
Proof. solve_decision. Defined.

(** A subquery of [information_schema] for the things an account defines. *)
Record definerQuery := DefinerQuery { dqTable : jstring; dqSchema : jstring; dqDefiner : jstring }.
#[global] Instance definerQuery_dec : EqDecision definerQuery.
Proof. solve_decision. Defined.

Inductive condition :=
| ColumnYes (column : jstring) (unless : option definerQuery)  (** [c = 'Y' AND NOT EXISTS (...)] *)
| Positive (v : jstring)                                       (** [@v > 0] *)
| Blank (v : jstring).                                         (** [@v IS NULL OR @v = ''] *)

Inductive expr :=
| EString (s : jstring)
| ENull
| EVariable (v : jstring)
| ECount
| EIf (c : condition) (a b : expr)
| EConcat (es : list expr)
| EConcatWs (sep : expr) (es : list expr).

(** The row of [mysql.db] a subquery names. *)
Notation rowKey := (jstring * account)%type.

Inductive optionValue := OVString (s : jstring) | OVWord (w : jstring).

Inductive stmt :=
| CreateUser (a : account) (how : auth)
| AlterUser (a : account) (how : auth)
| RequireSsl (a : account)
| DropUser (a : account)
| CreateDatabase (name : jstring)
| DropDatabase (name : jstring)
| Grant (privileges : list jstring) (on : scope) (to : account) (grantOption ssl : bool)
| Revoke (privileges : list jstring) (on : scope) (from : account)
| SetVariable (v : jstring) (e : expr) (row : option rowKey)
| SetSystem (kind name value : jstring)
| Prepare (name v : jstring)
| Execute (name : jstring)
| Deallocate (name : jstring)
| ChangeSource (options : list (jstring * optionValue))
| Words (ws : list jstring).

(** A parser takes tokens from the front. *)
Definition parser (A : Type) : Type := list token -> option (A * list token).

Definition pret {A} (a : A) : parser A := fun ts => Some (a, ts).
Definition pbind {A B} (p : parser A) (k : A -> parser B) : parser B := fun ts =>
  '(a, ts') ← p ts; k a ts'.
Definition por {A} (p q : parser A) : parser A := fun ts =>
  match p ts with Some r => Some r | None => q ts end.

Declare Scope sql_scope.
Delimit Scope sql_scope with sql.
Notation "x <- p ;; k" := (pbind p (fun x => k))
  (at level 100, p at next level, right associativity) : sql_scope.
Notation "p >> k" := (pbind p (fun _ => k))
  (at level 100, k at level 200, right associativity) : sql_scope.
Notation "p <|> q" := (por p q) (at level 90, right associativity) : sql_scope.
Open Scope sql_scope.

Definition symbol (c : N) : parser () := fun ts =>
  match ts with
  | TSymbol d :: ts' => if (c =? d)%N then Some ((), ts') else None
  | _ => None
  end.
Definition word : parser jstring := fun ts =>
  match ts with TWord w :: ts' => Some (w, ts') | _ => None end.
Definition string : parser jstring := fun ts =>
  match ts with TString s :: ts' => Some (s, ts') | _ => None end.
Definition name : parser jstring := fun ts =>
  match ts with TName s :: ts' => Some (s, ts') | _ => None end.

(** Keywords, in the spelling the daemon uses. *)
Fixpoint keywords (ws : list jstring) : parser () :=
  match ws with
  | [] => pret ()
  | w :: ws' => fun ts =>
      match ts with
      | TWord v :: ts' => if decide (w = v) then keywords ws' ts' else None
      | _ => None
      end
  end.

Definition kw (text : jstring) : parser () := keywords (split 32 text).

(** Privileges, some of several words, up to [ON]. *)
Fixpoint privilegesOn (cur : list jstring) (ts : list token) : option (list jstring * list token) :=
  match ts with
  | TWord w :: ts' =>
      if decide (w = "ON") then
        match cur with [] => None | _ => Some ([join " " cur], ts') end
      else privilegesOn (cur ++ [w]) ts'
  | TSymbol c :: ts' =>
      if (c =? 44)%N then
        match cur with
        | [] => None
        | _ => '(ps, rest) ← privilegesOn [] ts'; Some (join " " cur :: ps, rest)
        end
      else None
  | _ => None
  end.

Definition parseAccount : parser account :=
  u <- name ;; symbol 64 >> h <- string ;; pret (Account u h).

Definition parseScope : parser scope :=
  (symbol 42 >> symbol 46 >> symbol 42 >> pret Everywhere)
  <|> (s <- name ;; symbol 46 >> symbol 42 >> pret (OnSchema s))
  <|> (s <- word ;; symbol 46 >> t <- word ;; pret (OnTable s t)).

Definition parseAuth : parser auth :=
  (kw "IDENTIFIED BY" >> p <- string ;; pret (Password p))
  <|> ((kw "IDENTIFIED WITH" <|> kw "IDENTIFIED VIA") >> w <- word ;; pret (Plugin w)).

Definition parseOptional (text : jstring) : parser bool :=
  (kw text >> pret true) <|> pret false.

Definition parseVariable : parser jstring := symbol 64 >> word.

(** [SELECT 1 FROM information_schema.T WHERE T_SCHEMA = s AND DEFINER = d] *)
Definition parseDefinerQuery : parser definerQuery :=
  kw "SELECT 1 FROM information_schema" >> symbol 46 >>
  t <- ((kw "TRIGGERS WHERE TRIGGER_SCHEMA" >> pret ("TRIGGERS" : jstring))
        <|> (kw "EVENTS WHERE EVENT_SCHEMA" >> pret ("EVENTS" : jstring))) ;;
  symbol 61 >> s <- string ;; kw "AND DEFINER" >> symbol 61 >> d <- string ;;
  pret (DefinerQuery t s d).

(** A string literal with the given contents. *)
Definition literally (text : jstring) : parser () := fun ts =>
  '(s, ts') ← string ts; if decide (s = text) then Some ((), ts') else None.

Definition parseCondition : parser condition :=
  (c <- word ;; symbol 61 >> literally "Y" >>
     (kw "AND NOT EXISTS" >> symbol 40 >> q <- parseDefinerQuery ;; symbol 41 >>
      pret (ColumnYes c (Some q)))
     <|> pret (ColumnYes c None))
  <|> (v <- parseVariable ;;
       (symbol 62 >> kw "0" >> pret (Positive v))
       <|> (kw "IS NULL OR" >> w <- parseVariable ;; symbol 61 >> literally "" >>
            if decide (v = w) then pret (Blank v) else fun _ => None)).

(** Expressions nest at most as deep as there are tokens. *)
Fixpoint parseExpr (fuel : nat) : parser expr :=
  match fuel with
  | O => fun _ => None
  | S fuel' =>
      (s <- string ;; pret (EString s))
      <|> (v <- parseVariable ;; pret (EVariable v))
      <|> (kw "NULL" >> pret ENull)
      <|> (kw "COUNT" >> symbol 40 >> symbol 42 >> symbol 41 >> pret ECount)
      <|> (kw "IF" >> symbol 40 >> c <- parseCondition ;; symbol 44 >> a <- parseExpr fuel' ;;
           symbol 44 >> b <- parseExpr fuel' ;; symbol 41 >> pret (EIf c a b))
      <|> (kw "CONCAT" >> symbol 40 >> es <- parseArguments fuel' ;; pret (EConcat es))
      <|> (kw "CONCAT_WS" >> symbol 40 >> s <- parseExpr fuel' ;; symbol 44 >>
           es <- parseArguments fuel' ;; pret (EConcatWs s es))
  end
with parseArguments (fuel : nat) : parser (list expr) :=
  match fuel with
  | O => fun _ => None
  | S fuel' =>
      e <- parseExpr fuel' ;;
      (symbol 44 >> es <- parseArguments fuel' ;; pret (e :: es))
      <|> (symbol 41 >> pret [e])
  end.

Definition parseWhereRow : parser rowKey :=
  kw "FROM mysql" >> symbol 46 >> kw "db WHERE Db" >> symbol 61 >> d <- string ;;
  kw "AND User" >> symbol 61 >> u <- string ;;
  kw "AND Host" >> symbol 61 >> h <- string ;; pret (d, Account u h).

Definition parseSetVariable : parser stmt := fun ts =>
  (kw "SET" >> v <- parseVariable ;; symbol 61 >>
   (symbol 40 >> kw "SELECT" >> e <- parseExpr (length ts) ;; row <- parseWhereRow ;;
    symbol 41 >> pret (SetVariable v e (Some row)))
   <|> (e <- parseExpr (length ts) ;; pret (SetVariable v e None))) ts.

Definition parseValue : parser optionValue :=
  (s <- string ;; pret (OVString s)) <|> (w <- word ;; pret (OVWord w)).

Fixpoint parseOptions (fuel : nat) : parser (list (jstring * optionValue)) :=
  match fuel with
  | O => fun _ => None
  | S fuel' =>
      k <- word ;; symbol 61 >> v <- parseValue ;;
      (symbol 44 >> os <- parseOptions fuel' ;; pret ((k, v) :: os)) <|> pret [(k, v)]
  end.

Definition parseWords : parser stmt := fun ts =>
  ws ← mapM (fun t => match t with TWord w => Some w | _ => None end) ts;
  match ws with [] => None | _ => Some (Words ws, []) end.

Definition parseStmt : parser stmt :=
  (kw "CREATE USER IF NOT EXISTS" >> a <- parseAccount ;; h <- parseAuth ;; pret (CreateUser a h))
  <|> (kw "ALTER USER" >> a <- parseAccount ;;
       (kw "REQUIRE SSL" >> pret (RequireSsl a)) <|> (h <- parseAuth ;; pret (AlterUser a h)))
  <|> (kw "DROP USER IF EXISTS" >> a <- parseAccount ;; pret (DropUser a))
  <|> (kw "CREATE DATABASE IF NOT EXISTS" >> n <- name ;;
       kw "CHARACTER SET utf8mb4 COLLATE utf8mb4_unicode_ci" >> pret (CreateDatabase n))
  <|> (kw "DROP DATABASE IF EXISTS" >> n <- name ;; pret (DropDatabase n))
  <|> (kw "GRANT" >> ps <- privilegesOn [] ;; s <- parseScope ;; kw "TO" >> a <- parseAccount ;;
       o <- parseOptional "WITH GRANT OPTION" ;; t <- parseOptional "REQUIRE SSL" ;;
       pret (Grant ps s a o t))
  <|> (kw "REVOKE" >> ps <- privilegesOn [] ;; s <- parseScope ;; kw "FROM" >>
       a <- parseAccount ;; pret (Revoke ps s a))
  <|> parseSetVariable
  <|> (kw "SET" >> k <- word ;; n <- word ;; symbol 61 >> v <- word ;; pret (SetSystem k n v))
  <|> (kw "PREPARE" >> n <- word ;; kw "FROM" >> v <- parseVariable ;; pret (Prepare n v))
  <|> (kw "EXECUTE" >> n <- word ;; pret (Execute n))
  <|> (kw "DEALLOCATE PREPARE" >> n <- word ;; pret (Deallocate n))
  <|> ((kw "CHANGE REPLICATION SOURCE TO" <|> kw "CHANGE MASTER TO") >>
       fun ts => (os <- parseOptions (length ts) ;; pret (ChangeSource os)) ts)
  <|> parseWords.

(** One whole statement; a script's statements. *)
Definition parse (ts : list token) : option stmt :=
  match parseStmt ts with Some (s, []) => Some s | _ => None end.

Definition statements (sql : jstring) : option (list stmt) :=
  ts ← lex sql; mapM parse (statementsOf ts).

(** ** Effect on accounts and grants *)

Inductive engine := MySQL | MariaDB.

(** The privileges a database-level grant can hold, with the column of
    [mysql.db] that records each, as the manuals list them. *)
Definition schemaPrivileges (e : engine) : list (jstring * jstring) :=
  [("ALTER", "Alter_priv"); ("ALTER ROUTINE", "Alter_routine_priv"); ("CREATE", "Create_priv");
   ("CREATE ROUTINE", "Create_routine_priv"); ("CREATE TEMPORARY TABLES", "Create_tmp_table_priv");
   ("CREATE VIEW", "Create_view_priv"); ("DELETE", "Delete_priv"); ("DROP", "Drop_priv");
   ("EVENT", "Event_priv"); ("EXECUTE", "Execute_priv"); ("GRANT OPTION", "Grant_priv");
   ("INDEX", "Index_priv"); ("INSERT", "Insert_priv"); ("LOCK TABLES", "Lock_tables_priv");
   ("REFERENCES", "References_priv"); ("SELECT", "Select_priv"); ("SHOW VIEW", "Show_view_priv");
   ("TRIGGER", "Trigger_priv"); ("UPDATE", "Update_priv")] ++
  match e with
  | MySQL => []
  | MariaDB => [("DELETE HISTORY", "Delete_history_priv");
                ("SHOW CREATE ROUTINE", "Show_create_routine_priv")]
  end.

Definition GRANT_OPTION : jstring := "Grant_priv".

(** Every column but the grant option's: what [ALL PRIVILEGES] stands for. *)
Definition allColumns (e : engine) : gset jstring :=
  list_to_set (map snd (schemaPrivileges e)) ∖ {[ GRANT_OPTION ]}.

Definition privilegeColumns (e : engine) (ps : list jstring) : option (gset jstring) :=
  if decide (ps = ["ALL PRIVILEGES" : jstring]) then Some (allColumns e)
  else list_to_set <$> mapM (mapGet (schemaPrivileges e)) ps.

(** A count is over one key of the table, so it is 0 or 1. *)
Inductive value := VNull | VString (s : jstring) | VCount (some : bool).

(** A row of [mysql.db] is the set of its columns that hold ['Y']. *)
Record server := Server {
  svAccounts : gmap account auth;
  svDatabases : gset jstring;
  svRows : gmap rowKey (gset jstring);
  svDefined : gset (jstring * jstring * jstring);  (** kind, database, definer *)
  svVariables : gmap jstring value;
  svPrepared : gmap jstring stmt }.

Definition setAccounts (a : gmap account auth) (sv : server) : server :=
  Server a (svDatabases sv) (svRows sv) (svDefined sv) (svVariables sv) (svPrepared sv).
Definition setDatabases (d : gset jstring) (sv : server) : server :=
  Server (svAccounts sv) d (svRows sv) (svDefined sv) (svVariables sv) (svPrepared sv).
Definition setRows (r : gmap rowKey (gset jstring)) (sv : server) : server :=
  Server (svAccounts sv) (svDatabases sv) r (svDefined sv) (svVariables sv) (svPrepared sv).
Definition setVariables (v : gmap jstring value) (sv : server) : server :=
  Server (svAccounts sv) (svDatabases sv) (svRows sv) (svDefined sv) v (svPrepared sv).
Definition setPrepared (p : gmap jstring stmt) (sv : server) : server :=
  Server (svAccounts sv) (svDatabases sv) (svRows sv) (svDefined sv) (svVariables sv) p.

Definition variable (sv : server) (v : jstring) : value := default VNull (svVariables sv !! v).

Definition rowOf (sv : server) (k : rowKey) : gset jstring := default ∅ (svRows sv !! k).

Definition defines (sv : server) (q : definerQuery) : bool :=
  bool_decide ((dqTable q, dqSchema q, dqDefiner q) ∈ svDefined sv).

Definition holds (sv : server) (row : gset jstring) (c : condition) : bool :=
  match c with
  | ColumnYes col unless =>
      bool_decide (col ∈ row) &&
      match unless with Some q => negb (defines sv q) | None => true end
  | Positive v => match variable sv v with VCount b => b | _ => false end
  | Blank v => match variable sv v with VNull | VString [] => true | _ => false end
  end.

(** The text of a value, [None] for [NULL]. *)
Definition textOf (v : value) : option jstring :=
  match v with
  | VNull => None
  | VString s => Some s
  | VCount b => Some (if b then "1" else "0")%js
  end.

Definition concatValue (l : list value) : value :=
  match mapM textOf l with Some ss => VString (mjoin ss) | None => VNull end.

(** [CONCAT_WS] leaves [NULL]s out. *)
Definition concatWs (sep : value) (l : list value) : value :=
  match textOf sep with Some s => VString (join s (omap textOf l)) | None => VNull end.

Section Eval.
Context (sv : server) (row : option (gset jstring)).

Fixpoint eval (e : expr) : value :=
  match e with
  | EString s => VString s
  | ENull => VNull
  | EVariable v => variable sv v
  | ECount => VCount (if row then true else false)
  | EIf c a b => if holds sv (default ∅ row) c then eval a else eval b
  | EConcat es => concatValue (map eval es)
  | EConcatWs s es => concatWs (eval s) (map eval es)
  end.
End Eval.

(** A scalar subquery over no row is [NULL], unless it counts. *)
Definition subquery (sv : server) (k : rowKey) (e : expr) : value :=
  match svRows sv !! k, e with
  | None, ECount => VCount false
  | None, _ => VNull
  | Some row, _ => eval sv (Some row) e
  end.

(** A row without privileges is removed. *)
Definition putRow (k : rowKey) (row : gset jstring) (sv : server) : server :=
  setRows (if decide (row = ∅) then delete k (svRows sv) else <[k := row]> (svRows sv)) sv.

Section Run.
Context (e : engine).

(** A statement on an account that does not exist fails, and so does the
    [REVOKE] of a privilege the row does not hold (error 1141). *)
Definition execGrant (ps : list jstring) (on : scope) (a : account) (opt : bool) (sv : server) : option server :=
  _ ← svAccounts sv !! a;
  match on with
  | OnSchema s =>
      cols ← privilegeColumns e ps;
      Some (putRow (s, a) (rowOf sv (s, a) ∪ cols ∪ (if opt then {[ GRANT_OPTION ]} else ∅)) sv)
  | Everywhere | OnTable _ _ => Some sv
  end.

Definition execRevoke (ps : list jstring) (on : scope) (a : account) (sv : server) : option server :=
  _ ← svAccounts sv !! a;
  match on with
  | OnSchema s =>
      row ← svRows sv !! (s, a);
      cols ← privilegeColumns e ps;
      if decide (ps = ["ALL PRIVILEGES" : jstring]) then Some (putRow (s, a) (row ∖ cols) sv)
      else if decide (cols ⊆ row) then Some (putRow (s, a) (row ∖ cols) sv)
      else None
  | Everywhere | OnTable _ _ => Some sv
  end.

Definition dropAccount (a : account) (sv : server) : server :=
  setRows (filter (fun kv => kv.1.2 <> a) (svRows sv)) (setAccounts (delete a (svAccounts sv)) sv).

(** A statement that is not prepared. *)
Definition execDirect (s : stmt) (sv : server) : option server :=
  match s with
  | CreateUser a h =>
      Some (match svAccounts sv !! a with
            | Some _ => sv
            | None => setAccounts (<[a := h]> (svAccounts sv)) sv
            end)
  | AlterUser a h => _ ← svAccounts sv !! a; Some (setAccounts (<[a := h]> (svAccounts sv)) sv)
  | RequireSsl a => _ ← svAccounts sv !! a; Some sv
  | DropUser a => Some (dropAccount a sv)
  | CreateDatabase n => Some (setDatabases ({[ n ]} ∪ svDatabases sv) sv)
  | DropDatabase n => Some (setDatabases (svDatabases sv ∖ {[ n ]}) sv)
  | Grant ps on a opt _ => execGrant ps on a opt sv
  | Revoke ps on a => execRevoke ps on a sv
  | SetVariable v ex row =>
      let x := match row with Some k => subquery sv k ex | None => eval sv None ex end in
      Some (setVariables (<[v := x]> (svVariables sv)) sv)
  | Words ws =>
      if decide (ws = split 32 "DO 0") then Some sv
      else if decide (ws = split 32 "FLUSH PRIVILEGES") then Some sv
      else None
  | _ => None
  end.

Definition exec (s : stmt) (sv : server) : option server :=
  match s with
  | Prepare n v =>
      text ← textOf (variable sv v);
      ts ← lex text;
      st ← parse ts;
      Some (setPrepared (<[n := st]> (svPrepared sv)) sv)
  | Execute n => st ← svPrepared sv !! n; execDirect st sv
  | Deallocate n => _ ← svPrepared sv !! n; Some (setPrepared (delete n (svPrepared sv)) sv)
  | _ => execDirect s sv
  end.

Fixpoint execAll (ss : list stmt) (sv : server) : option server :=
  match ss with
  | [] => Some sv
  | s :: ss' => sv' ← exec s sv; execAll ss' sv'
  end.

(** The script on the client's standard input, statement by statement. *)
Definition runScript (sql : jstring) (sv : server) : option server :=
  ss ← statements sql; execAll ss sv.
End Run.

(** ** Which databases a grant reaches

    The database of a row is a pattern: [%] is any run, [_] any character, and
    a backslash makes the next character plain. *)
Fixpoint reaches (pattern : jstring) (db : jstring) : bool :=
  match pattern with
  | [] => match db with [] => true | _ => false end
  | c :: pattern' =>
      if (c =? 37)%N then
        (fix any (db : jstring) : bool :=
           reaches pattern' db || match db with [] => false | _ :: db' => any db' end) db
      else if (c =? 92)%N then
        match pattern', db with
        | d :: pattern'', x :: db' => (d =? x)%N && reaches pattern'' db'
        | _, _ => false
        end
      else match db with
           | [] => false
           | x :: db' => ((c =? 95)%N || (c =? x)%N) && reaches pattern' db'
           end
  end.

(** What an account may do in a database through its rows. *)
Definition mayOn (sv : server) (a : account) (db column : jstring) : Prop :=
  exists pattern row,
    svRows sv !! (pattern, a) = Some row /\ reaches pattern db = true /\ column ∈ row.

(** ** Reading texts made of parts *)

Lemma scan_app st a b :
  scan st (a ++ b) =
  ('(ts, st1) ← scan st a; '(us, st2) ← scan st1 b; Some (ts ++ us, st2)).
Proof.
  revert st. induction a as [| c a IH]; intros st; cbn.
  - destruct (scan st b) as [[us st2] |]; done.
  - destruct (scanStep st c) as [[ts st1] |]; cbn; [| done]. rewrite IH.
    destruct (scan st1 a) as [[us st2] |]; cbn; [| done].
    destruct (scan st2 b) as [[vs st3] |]; cbn; [| done]. by rewrite <- app_assoc.
Qed.

Lemma scan_app_Some st a b ts st1 us st2 vs :
  scan st a = Some (ts, st1) -> scan st1 b = Some (us, st2) -> ts ++ us = vs ->
  scan st (a ++ b) = Some (vs, st2).
Proof. intros Ha Hb <-. by rewrite scan_app, Ha; cbn; rewrite Hb. Qed.

(** A string literal with backslashes and quotes escaped. *)
Definition escapeLiteral (v : jstring) : jstring :=
  v ≫= (fun c => if (c =? 92)%N then [92; 92]%N else if (c =? 39)%N then [92; 39]%N else [c]).
Definition quotedText (v : jstring) : jstring := "'" ++ escapeLiteral v ++ "'".

Lemma scan_escaped s v : scan (InString s) (escapeLiteral v) = Some ([], InString (s ++ v)).
Proof.
  revert s. induction v as [| c v IH]; intros s; [by rewrite app_nil_r |].
  set (e := if (c =? 92)%N then [92; 92]%N else if (c =? 39)%N then [92; 39]%N else [c]).
  change (escapeLiteral (c :: v)) with (e ++ escapeLiteral v). rewrite scan_app.
  assert (scan (InString s) e = Some ([], InString (s ++ [c]))) as ->.
  { subst e. destruct (N.eqb_spec c 92) as [-> | E1]; [done |].
    destruct (N.eqb_spec c 39) as [-> | E2]; [done |]. cbn.
    by rewrite (proj2 (N.eqb_neq c 39) E2), (proj2 (N.eqb_neq c 92) E1). }
  cbn. rewrite IH. cbn. by rewrite <- app_assoc.
Qed.

(** Whatever it holds, a quoted value is read as one string, itself. *)
Lemma scan_quoted v : scan Between (quotedText v) = Some ([], AfterString v).
Proof.
  eapply scan_app_Some; [reflexivity | | reflexivity].
  eapply scan_app_Some; [apply scan_escaped | reflexivity | reflexivity].
Qed.

Lemma scan_name s v : Forall (fun c => (c =? 96)%N = false) v ->
  scan (InName s) v = Some ([], InName (s ++ v)).
Proof.
  intros H. revert s. induction H as [| c v Hc _ IH]; intros s; [by rewrite app_nil_r |].
  cbn. rewrite Hc. cbn. rewrite IH. cbn. by rewrite <- app_assoc.
Qed.

(** *** Scripts whose statements all end *)

Definition noSemicolon (ts : list token) : bool :=
  forallb (fun t => negb (bool_decide (t = SEMICOLON))) ts.

Definition terminated (tss : list (list token)) : list token := tss ≫= (fun ts => ts ++ [SEMICOLON]).

Definition reads (sql : jstring) (l : list stmt) : Prop :=
  exists tss, scan Between sql = Some (terminated tss, Between) /\
    Forall (fun ts => noSemicolon ts = true) tss /\ mapM parse tss = Some l.

Lemma statementsOf_terminated tss :
  Forall (fun ts => noSemicolon ts = true) tss -> statementsOf (terminated tss) = tss.
Proof.
  induction 1 as [| ts tss Hts _ IH]; [done |].
  change (terminated (ts :: tss)) with ((ts ++ [SEMICOLON]) ++ terminated tss). rewrite <- app_assoc.
  induction ts as [| t ts IHt]; cbn [app statementsOf]; [by rewrite IH |].
  unfold noSemicolon in Hts. cbn [forallb] in Hts. bools.
  rewrite decide_False by done. cbn [app] in IHt. by rewrite IHt.
Qed.

Lemma reads_statements sql l : reads sql l -> statements sql = Some l.
Proof.
  intros (tss & Hs & Hn & Hp). unfold statements, lex. rewrite Hs. cbn.
  by rewrite app_nil_r, statementsOf_terminated.
Qed.

Lemma reads_nil : reads [] [].
Proof. by exists []. Qed.

Lemma reads_nil_inv l : reads [] l -> l = [].
Proof.
  intros (tss & [= Ht] & _ & Hp). destruct tss as [| ts tss]; [by injection Hp |].
  by destruct ts.
Qed.

Lemma reads_app a b l m : reads a l -> reads b m -> reads (a ++ [10%N] ++ b) (l ++ m).
Proof.
  intros (tss & Ha & Hn & Hp) (uss & Hb & Hn' & Hp'). exists (tss ++ uss). split_and!.
  - eapply scan_app_Some; [exact Ha | | by unfold terminated; rewrite bind_app].
    eapply scan_app_Some; [reflexivity | exact Hb | done].
  - by apply Forall_app.
  - apply mapM_Some. apply mapM_Some in Hp, Hp'. by apply Forall2_app.
Qed.

Lemma reads_join parts l :
  Forall2 reads parts l -> reads (join [10%N] parts) (mjoin l).
Proof.
  induction 1 as [| a l1 parts l Ha Hp IH]; [apply reads_nil |].
  destruct Hp as [| b l2 parts l]; cbn [mjoin list_join join]; [by rewrite app_nil_r |].
  by apply reads_app.
Qed.

Lemma reads_cons a parts l m :
  reads a l -> reads (join [10%N] parts) m -> reads (join [10%N] (a :: parts)) (l ++ m).
Proof.
  intros Ha Hp. destruct parts as [| b parts]; [| by apply reads_app].
  apply reads_nil_inv in Hp as ->. by rewrite app_nil_r.
Qed.

Lemma reads_parts a b l m :
  reads (join [10%N] a) l -> reads (join [10%N] b) m -> reads (join [10%N] (a ++ b)) (l ++ m).
Proof.
  intros Ha Hb. destruct a as [| x a]; [by apply reads_nil_inv in Ha as -> |].
  destruct b as [| y b]; [apply reads_nil_inv in Hb as ->; by rewrite !app_nil_r |].
  assert (join [10%N] ((x :: a) ++ y :: b) = join [10%N] (x :: a) ++ [10%N] ++ join [10%N] (y :: b)) as ->;
    [| by apply reads_app].
  clear. revert x. induction a as [| z a IH]; intros x; [done |].
  change (x ++ [10%N] ++ join [10%N] ((z :: a) ++ y :: b) =
          (x ++ [10%N] ++ join [10%N] (z :: a)) ++ [10%N] ++ join [10%N] (y :: b)).
  by rewrite IH, <- !app_assoc.
Qed.

(** One line with its semicolon. *)
Definition oneLine (ts : list token) : option stmt :=
  if bool_decide (last ts = Some SEMICOLON) && noSemicolon (removelast ts)
  then parse (removelast ts) else None.

Lemma reads_line sql ts s :
  scan Between sql = Some (ts, Between) -> oneLine ts = Some s -> reads sql [s].
Proof.
  unfold oneLine. intros Hs Hr. destruct (bool_decide _ && _) eqn:E; [| done]. bools.
  exists [removelast ts]. split_and!.
  - rewrite Hs. cbn. rewrite app_nil_r. do 2 f_equal.
    destruct (last_Some ts SEMICOLON) as [[l ->] _]; [done |]. by rewrite removelast_last.
  - by constructor.
  - cbn. by rewrite Hr.
Qed.

(** [scan] on a text made of closed parts, quoted values and parts with a
    hypothesis of their own. *)
Ltac scan_closed st a :=
  let r := eval vm_compute in (scan st a) in
  lazymatch r with
  | Some (?ts, ?st') => exact (eq_refl (Some (ts, st')) <: scan st a = Some (ts, st'))
  end.

(** What a text that is neither closed nor a quoted value is made of; extended
    where such texts are defined. *)
Ltac scan_unfold a := fail.

Ltac scan_text :=
  lazymatch goal with
  | |- scan ?st ?a = Some _ =>
      lazymatch a with
      | ?x ++ ?y => eapply scan_app_Some; [scan_text | scan_text | reflexivity]
      | join ?s (?x :: ?y :: ?l) => change a with (x ++ s ++ join s (y :: l)); scan_text
      | join ?s [?x] => change a with x; scan_text
      | quotedText ?v => tryif is_var v then eapply scan_quoted else first [scan_closed st a | eapply scan_quoted]
      | _ => first [ is_var a; eassumption
                   | scan_unfold a; scan_text
                   | scan_closed st a | eassumption ]
      end
  end.

(** A statement on its line, of which [scan_text] finds the tokens. *)
Ltac read_line := eapply reads_line; [scan_text | vm_compute; reflexivity].

(** A text of several statements, read at once. *)
Lemma statementsOf_terminates ts :
  last ts = Some SEMICOLON ->
  terminated (statementsOf ts) = ts /\ Forall (fun s => noSemicolon s = true) (statementsOf ts).
Proof.
  induction ts as [| t ts IH]; [done |]. intros Hl. cbn [statementsOf].
  assert (ts = [] \/ last ts = Some SEMICOLON) as [-> | Hts] by (destruct ts; [by left | by right]).
  - injection Hl as ->. rewrite decide_True by done. split; [done | by repeat constructor].
  - destruct (IH Hts) as [IH1 IH2]. destruct (decide (t = SEMICOLON)) as [-> | Hne].
    + split; [| by constructor]. change (terminated ([] :: statementsOf ts)) with (SEMICOLON :: terminated (statementsOf ts)).
      by rewrite IH1.
    + destruct (statementsOf ts) as [| s ss]; [by destruct ts |]. apply Forall_cons in IH2 as [Hs Hss]. split.
      * change (terminated ((t :: s) :: ss)) with (t :: terminated (s :: ss)). by rewrite IH1.
      * constructor; [| done]. cbn. rewrite bool_decide_eq_false_2 by done. done.
Qed.

Definition readLines (ts : list token) : option (list stmt) :=
  if bool_decide (last ts = Some SEMICOLON) then mapM parse (statementsOf ts) else None.

Lemma reads_lines sql ts l :
  scan Between sql = Some (ts, Between) -> readLines ts = Some l -> reads sql l.
Proof.
  unfold readLines. intros Hs Hr. case_bool_decide as E; [| done].
  destruct (statementsOf_terminates ts E) as [Ht Hn]. exists (statementsOf ts). by rewrite Ht.
Qed.

Ltac read_lines := eapply reads_lines; [scan_text | vm_compute; reflexivity].
