(* ===== verification/SqlGrants.v ===== *)
(** * Database grants of managed MySQL and MariaDB

    [managed/engines/grant-pattern.ts] (the SQL of one grant) and
    [grant-databases.ts] (which grants a login gets), over the quoting of a
    dialect.  The theorems are proved against [QuotingLaws], which the dialects'
    files discharge: what the server of [SqlServer] does with these texts. *)

From S2P Require Import Prelude.
From S2P Require Import SqlServer.

(** Errors are their messages. *)
Notation text := (result jstring jstring).

(** ** [grant-pattern.ts] *)

Definition escapeGrantSchemaPattern (name : jstring) : jstring :=
  name ≫= (fun ch => if hasChar ch "\_%" then [92%N; ch] else [ch]).

Definition hasGrantWildcard (name : jstring) : bool :=
  existsb (fun ch => hasChar ch "_%") name.

Definition GRANT_SCHEMA_MAX_LENGTH : nat := 64.

Inductive ManagedDatabasePrivilege := Admin | Owner | ReadWrite | ReadOnly.
#[global] Instance ManagedDatabasePrivilege_dec : EqDecision ManagedDatabasePrivilege.
Proof. solve_decision. Defined.

Record GrantQuoting := {
  quoteIdentifier : jstring -> text;
  quoteLiteral : jstring -> text;
  accountAt : jstring -> jstring -> text;
  extraPrivileges : option (list (jstring * jstring));
  backupPrivileges : list jstring }.

Section Pattern.
Context (quoting : GrantQuoting).

Definition quoteGrantSchema (name : jstring) : text :=
  _ ← quoteIdentifier quoting name;
  let escaped := escapeGrantSchemaPattern name in
  if decide (GRANT_SCHEMA_MAX_LENGTH < length escaped)%nat then
    Throw ("database name too long to grant on once escaped: " ++ name)
  else Ok ("`" ++ escaped ++ "`").

(** One of the two revokes, re-checking that the row is still there. *)
Definition revokePlainStep (database username host revoke : jstring) : text :=
  d ← quoteLiteral quoting database;
  u ← quoteLiteral quoting username;
  h ← quoteLiteral quoting host;
  r ← quoteLiteral quoting revoke;
  Ok (join [10%N]
    ["SET @tp_plain_grant = (SELECT COUNT(*) FROM mysql.db WHERE Db = " ++ d ++ " AND User = " ++ u ++
       " AND Host = " ++ h ++ ");";
     "SET @tp_plain_revoke = IF(@tp_plain_grant > 0, " ++ r ++ ", 'DO 0');";
     "PREPARE tp_plain_revoke FROM @tp_plain_revoke;";
     "EXECUTE tp_plain_revoke;";
     "DEALLOCATE PREPARE tp_plain_revoke;"]).

Definition revokePlainPatternGrantSql (database username host : jstring) : text :=
  i ← quoteIdentifier quoting database;
  a ← accountAt quoting username host;
  let target := i ++ ".* FROM " ++ a in
  parts ← mapM (revokePlainStep database username host)
    ["REVOKE ALL PRIVILEGES ON " ++ target; "REVOKE GRANT OPTION ON " ++ target];
  Ok (join [10%N] parts).

Definition DATABASE_PRIVILEGES : list (jstring * jstring) :=
  [("SELECT", "Select_priv"); ("INSERT", "Insert_priv"); ("UPDATE", "Update_priv");
   ("DELETE", "Delete_priv"); ("CREATE", "Create_priv"); ("DROP", "Drop_priv");
   ("REFERENCES", "References_priv"); ("INDEX", "Index_priv"); ("ALTER", "Alter_priv");
   ("CREATE TEMPORARY TABLES", "Create_tmp_table_priv"); ("LOCK TABLES", "Lock_tables_priv");
   ("EXECUTE", "Execute_priv"); ("CREATE VIEW", "Create_view_priv");
   ("SHOW VIEW", "Show_view_priv"); ("CREATE ROUTINE", "Create_routine_priv");
   ("ALTER ROUTINE", "Alter_routine_priv"); ("EVENT", "Event_priv"); ("TRIGGER", "Trigger_priv")].

(** [LEVEL_PRIVILEGES]: of [read-only], and of [read-write]. *)
Definition LEVEL_READ_ONLY : list jstring := ["SELECT"; "SHOW VIEW"].
Definition LEVEL_READ_WRITE : list jstring :=
  ["SELECT"; "INSERT"; "UPDATE"; "DELETE"; "EXECUTE"; "LOCK TABLES"; "CREATE TEMPORARY TABLES";
   "SHOW VIEW"].

(** [definedBy]: the subquery that keeps a privilege on its definer. *)
Definition definedBy (schemaName definer column : jstring) : option jstring :=
  if decide (column = "Trigger_priv") then
    Some ("SELECT 1 FROM information_schema.TRIGGERS WHERE TRIGGER_SCHEMA = " ++ schemaName ++
          " AND DEFINER = " ++ definer)
  else if decide (column = "Event_priv") then
    Some ("SELECT 1 FROM information_schema.EVENTS WHERE EVENT_SCHEMA = " ++ schemaName ++
          " AND DEFINER = " ++ definer)
  else None.

Definition held (schemaName definer : jstring) (p : jstring * jstring) : text :=
  let '(name, column) := p in
  let test := match definedBy schemaName definer column with
              | None => column ++ " = 'Y'"
              | Some lookup => column ++ " = 'Y' AND NOT EXISTS (" ++ lookup ++ ")"
              end in
  n ← quoteLiteral quoting name;
  Ok ("IF(" ++ test ++ ", " ++ n ++ ", NULL)").

Definition addRevokeStep (row tail variable listSql prefix : jstring) : result jstring (list jstring) :=
  p ← quoteLiteral quoting prefix;
  t ← quoteLiteral quoting tail;
  Ok ["SET @" ++ variable ++ " = (SELECT " ++ listSql ++ " " ++ row ++ ");";
      "SET @" ++ variable ++ "_sql = IF(@" ++ variable ++ " IS NULL OR @" ++ variable ++
        " = '', 'DO 0', CONCAT(" ++ p ++ ", @" ++ variable ++ ", " ++ t ++ "));";
      "PREPARE " ++ variable ++ " FROM @" ++ variable ++ "_sql;";
      "EXECUTE " ++ variable ++ ";";
      "DEALLOCATE PREPARE " ++ variable ++ ";"].

Definition revokeExcessSql (schema database username host : jstring)
    (revoked : list (jstring * jstring)) (withGrantOption : bool) : text :=
  s ← quoteLiteral quoting schema;
  u ← quoteLiteral quoting username;
  h ← quoteLiteral quoting host;
  let row := "FROM mysql.db WHERE Db = " ++ s ++ " AND User = " ++ u ++ " AND Host = " ++ h in
  a ← accountAt quoting username host;
  let tail := " ON `" ++ schema ++ "`.* FROM " ++ a in
  definer ← quoteLiteral quoting (username ++ "@" ++ host);
  schemaName ← quoteLiteral quoting database;
  excess ← (match revoked with
            | [] => Ok []
            | _ =>
                hs ← mapM (held schemaName definer) revoked;
                addRevokeStep row tail "tp_excess"
                  ("CONCAT_WS(', ', " ++ join ", " hs ++ ")") "REVOKE "
            end);
  option ← (if withGrantOption : bool then
              addRevokeStep row tail "tp_excess_option"
                "IF(Grant_priv = 'Y', 'GRANT OPTION', NULL)" "REVOKE "
            else Ok []);
  Ok (join [10%N] (excess ++ option)).

Definition revokeAllButSql (schema database username host : jstring) (heldNames : list jstring) : text :=
  revokeExcessSql schema database username host
    (filter (fun p => p.1 ∉ heldNames) (DATABASE_PRIVILEGES ++ default [] (extraPrivileges quoting)))
    true.

(** [db.slice(1, -1)] *)
Definition sliceInner (s : jstring) : jstring := take (length s - 2) (drop 1 s).

Definition grantOnDatabaseSql (database username : jstring) (privilege : ManagedDatabasePrivilege)
    (host : jstring) : text :=
  db ← quoteGrantSchema database;
  account ← accountAt quoting username host;
  let schema := sliceInner db in
  let grantHeld (names : list jstring) : text :=
    rest ← revokeAllButSql schema database username host names;
    Ok (join [10%N] ["GRANT " ++ join ", " names ++ " ON " ++ db ++ ".* TO " ++ account ++ ";"; rest]) in
  match privilege with
  | Admin => Ok ("GRANT ALL PRIVILEGES ON " ++ db ++ ".* TO " ++ account ++ " WITH GRANT OPTION;")
  | Owner =>
      rest ← revokeExcessSql schema database username host [] true;
      Ok (join [10%N] ["GRANT ALL PRIVILEGES ON " ++ db ++ ".* TO " ++ account ++ ";"; rest])
  | ReadWrite => grantHeld LEVEL_READ_WRITE
  | ReadOnly => grantHeld LEVEL_READ_ONLY
  end.

Definition grantBackupOnAllSql (username host : jstring) : text :=
  a ← accountAt quoting username host;
  Ok ("GRANT " ++ join ", " (backupPrivileges quoting) ++ " ON *.* TO " ++ a ++ ";").

(** [grantSqlFor]: the builders with the dialect's default host. *)
Record GrantSql := {
  grantDatabaseSql : jstring -> jstring -> ManagedDatabasePrivilege -> option jstring -> text;
  revokePlainDatabaseGrantSql : jstring -> jstring -> option jstring -> text;
  grantBackupSql : jstring -> option jstring -> text }.

Definition grantSqlFor (defaultHost : jstring) : GrantSql := {|
  grantBackupSql username host := grantBackupOnAllSql username (default defaultHost host);
  grantDatabaseSql database username privilege host :=
    grantOnDatabaseSql database username privilege (default defaultHost host);
  revokePlainDatabaseGrantSql database username host :=
    revokePlainPatternGrantSql database username (default defaultHost host) |}.
End Pattern.

(** ** [grant-databases.ts] *)

(** Code that runs SQL: a state passed along, and an error. *)
Definition sqlM (W A : Type) : Type := W -> result jstring A * W.
#[global] Instance sqlM_ret W : MRet (sqlM W) := fun A a w => (Ok a, w).
#[global] Instance sqlM_bind W : MBind (sqlM W) := fun A B k m w =>
  match m w with (Ok a, w') => k a w' | (Throw e, w') => (Throw e, w') end.
Definition liftR {W A} (r : result jstring A) : sqlM W A := fun w => (r, w).

(** [forEachSequential] *)
Fixpoint inOrder {W A} (step : A -> sqlM W unit) (items : list A) : sqlM W unit :=
  match items with
  | [] => mret tt
  | x :: items' => '_ ← step x; inOrder step items'
  end.

Definition asPrivilege (value : jstring) : option ManagedDatabasePrivilege :=
  if decide (value = "admin") then Some Admin
  else if decide (value = "owner") then Some Owner
  else if decide (value = "read-write") then Some ReadWrite
  else if decide (value = "read-only") then Some ReadOnly
  else None.

Definition LEVEL_RANK (p : ManagedDatabasePrivilege) : nat :=
  match p with ReadOnly => 0 | ReadWrite => 1 | Owner => 2 | Admin => 3 end.

Definition strongestPrivilege (privileges : list jstring) : option ManagedDatabasePrivilege :=
  foldl (fun best value =>
    match asPrivilege value with
    | None => best
    | Some level =>
        match best with
        | None => Some level
        | Some b => if (LEVEL_RANK b <? LEVEL_RANK level)%nat then Some level else best
        end
    end) None privileges.

Record ManagedApplyCredential := {
  username : jstring;
  role : jstring;
  databases : list jstring;
  privileges : option (list jstring);
  grantMode : option jstring;
  kind : option jstring;
  password : jstring }.

Section Databases.
Context {W : Type}.

(** The steps: a grant per database, and for a name that is a pattern the
    removal of the plain grant after it ([None]). *)
Definition grantSteps (dbs privs : list jstring) (revokePlain : bool)
    : list (jstring * option ManagedDatabasePrivilege) :=
  let known := match strongestPrivilege privs with None => [] | Some p => [p] end in
  dbs ≫= (fun database =>
    map (fun p => (database, Some p)) known ++
    (if negb (bool_decide (known = [])) && revokePlain && hasGrantWildcard database
     then [(database, None)] else [])).

Definition grantDatabasePrivileges (dbs privs : list jstring) (user : jstring) (hosts : list jstring)
    (grantSql : jstring -> jstring -> ManagedDatabasePrivilege -> option jstring -> text)
    (revokePlainSql : option (jstring -> jstring -> option jstring -> text))
    (run : jstring -> sqlM W unit) : sqlM W unit :=
  inOrder (fun '(database, privilege) =>
    match privilege, revokePlainSql with
    | None, Some revokePlain =>
        parts ← liftR (mapM (revokePlain database user) (None :: map Some hosts));
        run (join [10%N] parts)
    | None, None => mret tt
    | Some p, _ =>
        first ← liftR (grantSql database user p None);
        others ← liftR (mapM (fun host => grantSql database user p (Some host)) hosts);
        run (join [10%N] (first :: others))
    end)
    (grantSteps dbs privs (if revokePlainSql then true else false)).

Definition grantableDatabases (c : ManagedApplyCredential) : list jstring :=
  if negb (bool_decide (grantMode c = Some ("self" : jstring))) then databases c
  else if memb ("admin" : jstring) (default [] (privileges c)) then databases c
  else [].

Definition isBackupCredential (c : ManagedApplyCredential) : bool :=
  bool_decide (role c = "user") && bool_decide (kind c = Some ("backup" : jstring)).

Definition grantBackupPrivileges (user : jstring) (hosts : list jstring)
    (grantSql : jstring -> option jstring -> text) (run : jstring -> sqlM W unit) : sqlM W unit :=
  first ← liftR (grantSql user None);
  others ← liftR (mapM (fun host => grantSql user (Some host)) hosts);
  run (join [10%N] (first :: others)).
End Databases.
