(* ===== verification/SqlGranted.v ===== *)
(** * What the grant scripts do on a server

    Theorems on [SqlGrants] for any dialect whose quoting meets [QuotingLaws]:
    how a server of [SqlServer] reads the scripts, and what they leave in its
    grant table. *)

From S2P Require Import Prelude.
From S2P Require Import SqlServer.
From S2P Require Import SqlGrants.

(** ** The interface of a dialect *)

Definition plainName (v : jstring) : Prop := Forall (fun c => is_word c = true) v.

Definition inTicks (v : jstring) : jstring := "`" ++ v ++ "`".

(** Text without control characters, and names a dialect accepts up to a length. *)
Definition cleanText (v : jstring) : Prop := Forall (fun c => (c <=? 31)%N || (c =? 127)%N = false) v.

Definition goodName (max : nat) (v : jstring) : Prop :=
  v <> [] /\ (length v <= max)%nat /\ plainName v /\ Forall (fun c => is_digit c = false) (take 1 v).

Class QuotingLaws (e : engine) (q : GrantQuoting) : Prop := {
  literal_ok v : cleanText v -> quoteLiteral q v = Ok (quotedText v);
  identifier_ok v : goodName 64 v -> quoteIdentifier q v = Ok (inTicks v);
  account_ok u h : goodName 32 u -> cleanText h -> accountAt q u h = Ok (inTicks u ++ "@" ++ quotedText h);
  literal_text v t : quoteLiteral q v = Ok t -> t = quotedText v;
  identifier_text v t : quoteIdentifier q v = Ok t -> t = inTicks v /\ plainName v;
  account_text u h t : accountAt q u h = Ok t -> t = inTicks u ++ "@" ++ quotedText h /\ plainName u;
  dialect_privileges :
    default [] (extraPrivileges q) =
    match e with
    | MySQL => []
    | MariaDB => [("DELETE HISTORY", "Delete_history_priv");
                  ("SHOW CREATE ROUTINE", "Show_create_routine_priv")]
    end }.

(** ** Names and patterns *)

Lemma is_word_plain c : is_word c = true -> c <> 37%N /\ c <> 92%N /\ c <> 96%N.
Proof. intros H. split_and!; by intros ->. Qed.

Lemma plain_scans v : plainName v -> scan (InName []) v = Some ([], InName v).
Proof.
  intros H. apply (scan_name []). eapply Forall_impl; [exact H |]. intros c Hc.
  apply N.eqb_neq. by apply is_word_plain.
Qed.

Lemma escape_cons c name :
  escapeGrantSchemaPattern (c :: name) =
  (if hasChar c "\_%" then [92%N; c] else [c]) ++ escapeGrantSchemaPattern name.
Proof. done. Qed.

Lemma escaped_scans v :
  plainName v -> scan (InName []) (escapeGrantSchemaPattern v) = Some ([], InName (escapeGrantSchemaPattern v)).
Proof.
  intros H. apply (scan_name []). induction H as [| c v Hc _ IH]; [constructor |].
  rewrite escape_cons. apply Forall_app. split; [| done].
  assert ((c =? 96)%N = false) by (apply N.eqb_neq; by apply is_word_plain).
  destruct (hasChar c "\_%"); repeat constructor; done.
Qed.

Lemma hasChar_special c : hasChar c "\_%" = false -> (c =? 37)%N = false /\ (c =? 92)%N = false /\ (c =? 95)%N = false.
Proof. intros H. apply hasChar_false in H. rewrite !N.eqb_neq. split_and!; intros ->; apply H; set_solver. Qed.

(** An escaped name reaches exactly the database of that name. *)
Lemma escaped_reaches name db : reaches (escapeGrantSchemaPattern name) db = true <-> db = name.
Proof.
  revert db. induction name as [| c name IH]; intros db; [by destruct db |].
  rewrite escape_cons. destruct (hasChar c "\_%") eqn:E.
  - cbn. destruct db as [| x db]; [done |]. rewrite andb_true_iff, N.eqb_eq, IH. naive_solver.
  - apply hasChar_special in E as (E1 & E2 & E3). cbn. rewrite E1, E2, E3.
    destruct db as [| x db]; [done |]. cbn. rewrite andb_true_iff, N.eqb_eq, IH. naive_solver.
Qed.

(** ** Reading the scripts *)

(** The subquery that keeps [TRIGGER] and [EVENT] on their definers. *)
Definition keptBy (db definer column : jstring) : option definerQuery :=
  if decide (column = "Trigger_priv") then Some (DefinerQuery "TRIGGERS" db definer)
  else if decide (column = "Event_priv") then Some (DefinerQuery "EVENTS" db definer)
  else None.

Definition heldExpr (db definer : jstring) (p : jstring * jstring) : expr :=
  EIf (ColumnYes p.2 (keptBy db definer p.2)) (EString p.1) ENull.

Definition excessExpr (db definer : jstring) (revoked : list (jstring * jstring)) : expr :=
  EConcatWs (EString ", ") (map (heldExpr db definer) revoked).

Definition optionExpr : expr := EIf (ColumnYes GRANT_OPTION None) (EString "GRANT OPTION") ENull.

(** The end of a statement on the database of a row. *)
Definition rowTarget (k : rowKey) : jstring :=
  " ON `" ++ k.1 ++ "`.* FROM " ++ inTicks (acUser k.2) ++ "@" ++ quotedText (acHost k.2).

Definition revokeStmts (v : jstring) (ex : expr) (k : rowKey) : list stmt :=
  [SetVariable v ex (Some k);
   SetVariable (v ++ "_sql")
     (EIf (Blank v) (EString "DO 0") (EConcat [EString "REVOKE "; EVariable v; EString (rowTarget k)])) None;
   Prepare v (v ++ "_sql"); Execute v; Deallocate v].

Definition excessStmts (k : rowKey) (db : jstring) (revoked : list (jstring * jstring)) : list stmt :=
  match revoked with
  | [] => []
  | _ => revokeStmts "tp_excess" (excessExpr db (acUser k.2 ++ "@" ++ acHost k.2) revoked) k
  end ++ revokeStmts "tp_excess_option" optionExpr k.

Definition levelNames (l : ManagedDatabasePrivilege) : list jstring :=
  match l with
  | Admin | Owner => ["ALL PRIVILEGES" : jstring]
  | ReadWrite => LEVEL_READ_WRITE
  | ReadOnly => LEVEL_READ_ONLY
  end.

(** What a level revokes of the privileges of the engine. *)
Definition levelRevokes (e : engine) (l : ManagedDatabasePrivilege) : list (jstring * jstring) :=
  match l with
  | Admin | Owner => []
  | ReadWrite | ReadOnly =>
      filter (fun p => p.1 ∉ levelNames l)
        (DATABASE_PRIVILEGES ++
         match e with
         | MySQL => []
         | MariaDB => [("DELETE HISTORY", "Delete_history_priv");
                       ("SHOW CREATE ROUTINE", "Show_create_routine_priv")]
         end)
  end.

Definition grantStmts (e : engine) (db : jstring) (a : account) (l : ManagedDatabasePrivilege) : list stmt :=
  let k := (escapeGrantSchemaPattern db, a) in
  Grant (levelNames l) (OnSchema k.1) a (bool_decide (l = Admin)) false ::
  match l with Admin => [] | _ => excessStmts k db (levelRevokes e l) end.

(** The text of one privilege in the list of those to revoke. *)
Definition heldText (schemaName definer : jstring) (p : jstring * jstring) : jstring :=
  "IF(" ++ match definedBy schemaName definer p.2 with
           | None => p.2 ++ " = 'Y'"
           | Some lookup => p.2 ++ " = 'Y' AND NOT EXISTS (" ++ lookup ++ ")"
           end ++ ", " ++ quotedText p.1 ++ ", NULL)".

(** The privileges whose text holds a subquery. *)
Definition keptUnless (column query name schemaName definer : jstring) : jstring :=
  "IF(" ++ (column ++ " = 'Y' AND NOT EXISTS (" ++ (query ++ schemaName ++ " AND DEFINER = " ++ definer) ++ ")")
        ++ ", " ++ quotedText name ++ ", NULL)".
Definition triggerText : jstring -> jstring -> jstring :=
  keptUnless "Trigger_priv" "SELECT 1 FROM information_schema.TRIGGERS WHERE TRIGGER_SCHEMA = " "TRIGGER".
Definition eventText : jstring -> jstring -> jstring :=
  keptUnless "Event_priv" "SELECT 1 FROM information_schema.EVENTS WHERE EVENT_SCHEMA = " "EVENT".

Ltac scan_unfold a ::=
  lazymatch a with
  | heldText ?s ?d _ =>
      first [ change a with (triggerText s d); unfold triggerText, keptUnless
            | change a with (eventText s d); unfold eventText, keptUnless ]
  | inTicks _ => unfold inTicks
  | rowTarget _ => unfold rowTarget
  end.

Lemma excess_line e l db u schema h definer :
  levelRevokes e l <> [] ->
  reads ("SET @" ++ "tp_excess" ++ " = (SELECT " ++
         ("CONCAT_WS(', ', " ++
          join ", " (map (heldText (quotedText db) (quotedText definer)) (levelRevokes e l)) ++ ")") ++
         " " ++ ("FROM mysql.db WHERE Db = " ++ quotedText schema ++ " AND User = " ++ quotedText u ++
                 " AND Host = " ++ quotedText h) ++ ");")
    [SetVariable "tp_excess" (excessExpr db definer (levelRevokes e l)) (Some (schema, Account u h))].
Proof.
  intros Hne. destruct e, l; try done.
  all: match goal with |- context [levelRevokes ?e ?l] =>
    let r := eval vm_compute in (levelRevokes e l) in change (levelRevokes e l) with r end.
  all: cbn [map].
  all: eapply reads_line; [scan_text |].
  all: vm_compute; reflexivity.
Qed.

Section Reading.
Context (e : engine) (q : GrantQuoting) `{!QuotingLaws e q}.

Lemma step_reads row v listSql ex (k : rowKey) ls :
  scan (InName []) k.1 = Some ([], InName k.1) -> scan (InName []) (acUser k.2) = Some ([], InName (acUser k.2)) ->
  v = "tp_excess" \/ v = "tp_excess_option" ->
  addRevokeStep q row (rowTarget k) v listSql "REVOKE " = Ok ls ->
  reads ("SET @" ++ v ++ " = (SELECT " ++ listSql ++ " " ++ row ++ ");") [SetVariable v ex (Some k)] ->
  reads (join [10%N] ls) (revokeStmts v ex k).
Proof.
  intros Hs Hu Hv H Hfirst. unfold addRevokeStep in H.
  apply bind_Ok in H as (? & ->%literal_text & (? & ->%literal_text & <-%Ok_inj)%bind_Ok).
  apply (reads_cons _ _ [_]); [exact Hfirst |]. clear Hfirst.
  destruct Hv as [-> | ->];
    repeat (apply (reads_cons _ _ [_]); [read_line |]); apply reads_nil.
Qed.

Lemma held_texts s d l hs : mapM (held q s d) l = Ok hs -> hs = map (heldText s d) l.
Proof.
  revert hs. induction l as [| [n c] l IH]; intros hs H; [by injection H as <- |].
  cbn [mapM] in H. apply bind_Ok in H as (x & Hx & (y & ->%IH & H)%bind_Ok).
  unfold held in Hx. apply bind_Ok in Hx as (? & ->%literal_text & <-%Ok_inj). by injection H as <-.
Qed.

Lemma excess_reads schema db u h l sql :
  scan (InName []) schema = Some ([], InName schema) ->
  revokeExcessSql q schema db u h (levelRevokes e l) true = Ok sql ->
  reads sql (excessStmts (schema, Account u h) db (levelRevokes e l)).
Proof.
  intros Hs H. unfold revokeExcessSql in H.
  apply bind_Ok in H as (? & ->%literal_text & (? & ->%literal_text & (? & ->%literal_text & H)%bind_Ok)%bind_Ok).
  apply bind_Ok in H as (? & [-> Hu%plain_scans]%account_text & (? & ->%literal_text & H)%bind_Ok).
  apply bind_Ok in H as (? & ->%literal_text & (exc & Hexc & (opt & Hopt & <-%Ok_inj)%bind_Ok)%bind_Ok).
  unfold excessStmts. apply reads_parts; cycle 1.
  { eapply step_reads; [done | done | by right | exact Hopt | read_line]. }
  pose proof (excess_line e l db u schema h (u ++ "@" ++ h)) as Hline.
  destruct (levelRevokes e l) as [| p ps]; [injection Hexc as <-; apply reads_nil |].
  apply bind_Ok in Hexc as (hs & ->%held_texts & Hexc).
  eapply step_reads; [done | done | by left | exact Hexc | by apply Hline].
Qed.

Lemma sliceInner_ticks v : sliceInner (inTicks v) = v.
Proof.
  unfold sliceInner, inTicks. rewrite !length_app. cbn. rewrite drop_0.
  replace (length v + 1 - 1)%nat with (length v) by lia. by rewrite take_app_length.
Qed.

(** The whole script of a level is its [GRANT] and the revokes after it. *)
Lemma grant_reads db u l h sql :
  grantOnDatabaseSql q db u l h = Ok sql -> reads sql (grantStmts e db (Account u h) l).
Proof.
  unfold grantOnDatabaseSql, quoteGrantSchema. intros H.
  apply bind_Ok in H as (d & (? & [_ Hp]%identifier_text & Hd)%bind_Ok & H).
  destruct (decide _); [done |]. apply Ok_inj in Hd. fold (inTicks (escapeGrantSchemaPattern db)) in Hd. subst d.
  apply bind_Ok in H as (? & [-> Hu%plain_scans]%account_text & H).
  rewrite sliceInner_ticks in H. pose proof (escaped_scans db Hp) as Hs. unfold grantStmts.
  destruct l; [apply Ok_inj in H as <-; read_line | | |];
    apply bind_Ok in H as (rest & Hrest & <-%Ok_inj); apply (reads_cons _ _ [_]); [read_line | | read_line | | read_line |].
  - cbn [join]. by apply (excess_reads _ db u h Owner).
  - cbn [join]. unfold revokeAllButSql in Hrest. rewrite (dialect_privileges (e := e)) in Hrest.
    by apply (excess_reads _ db u h ReadWrite).
  - cbn [join]. unfold revokeAllButSql in Hrest. rewrite (dialect_privileges (e := e)) in Hrest.
    by apply (excess_reads _ db u h ReadOnly).
Qed.
End Reading.

(** The removal of a plain grant: twice, with the revoke prepared as text. *)
Definition plainTarget (k : rowKey) : jstring :=
  inTicks k.1 ++ ".* FROM " ++ inTicks (acUser k.2) ++ "@" ++ quotedText (acHost k.2).

Definition plainStmts (revoke : jstring) (k : rowKey) : list stmt :=
  [SetVariable "tp_plain_grant" ECount (Some k);
   SetVariable "tp_plain_revoke" (EIf (Positive "tp_plain_grant") (EString revoke) (EString "DO 0")) None;
   Prepare "tp_plain_revoke" "tp_plain_revoke"; Execute "tp_plain_revoke"; Deallocate "tp_plain_revoke"].

Definition REVOKE_ALL (k : rowKey) : jstring := "REVOKE ALL PRIVILEGES ON " ++ plainTarget k.
Definition REVOKE_OPTION (k : rowKey) : jstring := "REVOKE GRANT OPTION ON " ++ plainTarget k.

Section ReadingPlain.
Context (e : engine) (q : GrantQuoting) `{!QuotingLaws e q}.

Lemma plain_step_reads db u h revoke sql :
  revokePlainStep q db u h revoke = Ok sql -> reads sql (plainStmts revoke (db, Account u h)).
Proof.
  unfold revokePlainStep. intros H.
  apply bind_Ok in H as (? & ->%literal_text & (? & ->%literal_text & (? & ->%literal_text & H)%bind_Ok)%bind_Ok).
  apply bind_Ok in H as (? & ->%literal_text & <-%Ok_inj).
  repeat (apply (reads_cons _ _ [_]); [read_line |]). apply reads_nil.
Qed.

Lemma plain_reads db u h sql :
  revokePlainPatternGrantSql q db u h = Ok sql ->
  plainName db /\ plainName u /\
  reads sql (plainStmts (REVOKE_ALL (db, Account u h)) (db, Account u h) ++
             plainStmts (REVOKE_OPTION (db, Account u h)) (db, Account u h)).
Proof.
  unfold revokePlainPatternGrantSql. intros H.
  apply bind_Ok in H as (? & [-> Hd]%identifier_text & (? & [-> Hu]%account_text & H)%bind_Ok).
  apply bind_Ok in H as (parts & H & <-%Ok_inj). split_and!; [done | done |].
  cbn [mapM] in H. apply bind_Ok in H as (a & Ha%plain_step_reads & (bs & Hb & H)%bind_Ok).
  apply bind_Ok in Hb as (b & Hb%plain_step_reads & <-%Ok_inj). apply Ok_inj in H as <-.
  apply reads_cons; [exact Ha |]. exact Hb.
Qed.
End ReadingPlain.

(** ** Statements prepared from text *)

(** Text that is one statement. *)
Definition readsAs (text : jstring) (s : stmt) : Prop := exists ts, lex text = Some ts /\ parse ts = Some s.

Lemma readsAs_end text ts st us s :
  scan Between text = Some (ts, st) -> scanEnd st = Some us -> parse (ts ++ us) = Some s -> readsAs text s.
Proof. intros Hs He Hp. exists (ts ++ us). split; [| done]. unfold lex. rewrite Hs. cbn. by rewrite He. Qed.

Ltac read_text := eapply readsAs_end; [scan_text | reflexivity | vm_compute; reflexivity].

Lemma do_nothing_text : readsAs "DO 0" (Words ["DO"; "0"]).
Proof. by eexists. Qed.

Section PlainTexts.
Context (k : rowKey) (Hk : plainName k.1) (Hu : plainName (acUser k.2)).
Ltac setup := destruct k as [db [u h]]; cbn in Hk, Hu; apply plain_scans in Hk as Hk', Hu as Hu'.

Lemma revoke_all_text : readsAs (REVOKE_ALL k) (Revoke ["ALL PRIVILEGES" : jstring] (OnSchema k.1) k.2).
Proof. setup. unfold REVOKE_ALL, plainTarget. cbn [fst snd acUser acHost]. read_text. Qed.

Lemma revoke_option_text : readsAs (REVOKE_OPTION k) (Revoke ["GRANT OPTION" : jstring] (OnSchema k.1) k.2).
Proof. setup. unfold REVOKE_OPTION, plainTarget. cbn [fst snd acUser acHost]. read_text. Qed.
End PlainTexts.

(** A privilege's name in a list that is put together at run time. *)
Definition listable (n : jstring) : Prop :=
  exists ts w, scan Between n = Some (ts, InWord w) /\
    forall rest,
      privilegesOn [] (ts ++ TWord w :: TWord "ON" :: rest) = Some ([n], rest) /\
      privilegesOn [] (ts ++ TWord w :: TSymbol 44 :: rest) =
        ('(ps, r) ← privilegesOn [] rest; Some (n :: ps, r)).

Lemma listable_names e : Forall listable (map fst (schemaPrivileges e)).
Proof.
  destruct e; repeat (constructor;
    [eexists _, _; split; [vm_compute; reflexivity | intros rest; split; reflexivity] |]); constructor.
Qed.

Lemma listable_nonempty n : listable n -> n <> [].
Proof. intros (ts & w & H & _) ->. done. Qed.

Lemma scan_listed names :
  names <> [] -> Forall listable names ->
  exists ts w, scan Between (join ", " names) = Some (ts, InWord w) /\
    forall rest, privilegesOn [] (ts ++ TWord w :: TWord "ON" :: rest) = Some (names, rest).
Proof.
  intros Hne H. induction H as [| n ns (ts & w & Hn & Hp) _ IH]; [done |].
  destruct ns as [| n2 ns].
  - exists ts, w. split; [done |]. intros rest. apply Hp.
  - destruct IH as (us & w2 & Hs & IH); [done |].
    exists (ts ++ [TWord w; TSymbol 44] ++ us), w2. split.
    + change (join ", " (n :: n2 :: ns)) with (n ++ ", " ++ join ", " (n2 :: ns)).
      eapply scan_app_Some; [exact Hn | | reflexivity].
      eapply scan_app_Some; [| exact Hs | reflexivity]. reflexivity.
    + intros rest. rewrite <- app_assoc. cbn [app]. rewrite (proj2 (Hp _)), IH. done.
Qed.

Lemma por_none {A} (p q : parser A) ts : p ts = None -> por p q ts = q ts.
Proof. unfold por. by intros ->. Qed.
Lemma por_some {A} (p q : parser A) ts r : p ts = Some r -> por p q ts = Some r.
Proof. unfold por. by intros ->. Qed.

Lemma parse_revoke ts ps s u h :
  privilegesOn [] ts = Some (ps, [TName s; TSymbol 46; TSymbol 42; TWord "FROM"; TName u; TSymbol 64; TString h]) ->
  parse (TWord "REVOKE" :: ts) = Some (Revoke ps (OnSchema s) (Account u h)).
Proof.
  intros H. unfold parse, parseStmt. do 6 rewrite por_none by reflexivity.
  rewrite (por_some _ _ _ (Revoke ps (OnSchema s) (Account u h), [])); [reflexivity |].
  change ((ps <- privilegesOn [] ;; s <- parseScope ;; kw "FROM" >> a <- parseAccount ;;
           pret (Revoke ps s a))%sql ts = Some (Revoke ps (OnSchema s) (Account u h), [])).
  unfold pbind at 1. by rewrite H.
Qed.

Lemma revoke_listed_text names (k : rowKey) :
  names <> [] -> Forall listable names ->
  scan (InName []) k.1 = Some ([], InName k.1) -> scan (InName []) (acUser k.2) = Some ([], InName (acUser k.2)) ->
  readsAs ("REVOKE " ++ join ", " names ++ rowTarget k) (Revoke names (OnSchema k.1) k.2).
Proof.
  intros Hne Hn Hs Hu. destruct (scan_listed names Hne Hn) as (ts & w & Hj & Hp).
  destruct k as [s [u h]]. cbn [fst snd acUser acHost] in *.
  eapply readsAs_end with (st := AfterString h); [| reflexivity |].
  - eapply scan_app_Some; [scan_text | | reflexivity].
    eapply scan_app_Some; [exact Hj | | reflexivity]. unfold rowTarget. cbn [fst snd acUser acHost]. scan_text.
  - cbn [app]. apply parse_revoke. rewrite <- app_assoc. apply Hp.
Qed.

(** ** Running the scripts *)

(** What a grant script leaves alone. *)
Definition sameRest (sv sv' : server) : Prop :=
  svAccounts sv' = svAccounts sv /\ svDatabases sv' = svDatabases sv /\ svDefined sv' = svDefined sv.

#[global] Instance sameRest_preorder : PreOrder sameRest.
Proof. split; unfold sameRest; [done | intros x y z]. naive_solver congruence. Qed.

Lemma execAll_app e a b sv : execAll e (a ++ b) sv = execAll e a sv ≫= execAll e b.
Proof.
  revert sv. induction a as [| s a IH]; intros sv; [done |]. cbn [app execAll].
  destruct (exec e s sv) as [sv' |]; cbn; [apply IH | done].
Qed.

(** A statement prepared from a variable, run and forgotten: the rows are those
    of the statement itself. *)
Lemma prepared_runs e n v text s sv sv' :
  variable sv v = VString text -> readsAs text s ->
  execDirect e s (setPrepared (<[n := s]> (svPrepared sv)) sv) = Some sv' ->
  svPrepared sv' !! n = Some s ->
  execAll e [Prepare n v; Execute n; Deallocate n] sv = Some (setPrepared (delete n (svPrepared sv')) sv').
Proof.
  intros Hv (ts & Hl & Hp) Hx Hn. cbn [execAll exec]. rewrite Hv. cbn. rewrite Hl. cbn. rewrite Hp. cbn.
  rewrite lookup_insert, decide_True by done. cbn. rewrite Hx. cbn. by rewrite Hn.
Qed.

Lemma exec_do_nothing e n v sv :
  variable sv v = VString "DO 0" ->
  exists sv', execAll e [Prepare n v; Execute n; Deallocate n] sv = Some sv' /\
    svRows sv' = svRows sv /\ sameRest sv sv'.
Proof.
  intros Hv. eexists. split_and!; [eapply prepared_runs; [exact Hv | apply do_nothing_text | done |] | done | done].
  cbn. by rewrite lookup_insert, decide_True.
Qed.

(** The columns a revoke takes, when the server accepts it. *)
Definition revocable (e : engine) (names : list jstring) (row : gset jstring) (cols : gset jstring) : Prop :=
  privilegeColumns e names = Some cols /\ (names = ["ALL PRIVILEGES" : jstring] \/ cols ⊆ row).

Lemma exec_revoke_text e n v text names (k : rowKey) sv row cols :
  variable sv v = VString text -> readsAs text (Revoke names (OnSchema k.1) k.2) ->
  is_Some (svAccounts sv !! k.2) -> svRows sv !! k = Some row -> revocable e names row cols ->
  exists sv', execAll e [Prepare n v; Execute n; Deallocate n] sv = Some sv' /\
    svRows sv' = (if decide (row ∖ cols = ∅) then delete k (svRows sv) else <[k := row ∖ cols]> (svRows sv)) /\
    sameRest sv sv'.
Proof.
  destruct k as [s a]. cbn [fst snd]. intros Hv Hr [au Ha] Hrow [Hc Hsub]. set (st := Revoke names (OnSchema s) a) in *.
  assert (execDirect e st (setPrepared (<[n := st]> (svPrepared sv)) sv) =
          Some (putRow (s, a) (row ∖ cols) (setPrepared (<[n := st]> (svPrepared sv)) sv))) as Hx.
  { cbn [execDirect st]. unfold execRevoke. cbn [svAccounts svRows setPrepared]. rewrite Ha. cbn. rewrite Hrow. cbn.
    rewrite Hc. cbn. destruct (decide (names = _)); [done |]. destruct Hsub; [done |]. by rewrite decide_True. }
  eexists. split_and!; [eapply prepared_runs; [exact Hv | exact Hr | exact Hx |] | done | done].
  cbn. by rewrite lookup_insert, decide_True.
Qed.

(** The two assignments of a revoke step. *)
Definition setStep (v : jstring) (ex : expr) (k : rowKey) (sv : server) : server :=
  let sv1 := setVariables (<[v := subquery sv k ex]> (svVariables sv)) sv in
  let cmd := EIf (Blank v) (EString "DO 0") (EConcat [EString "REVOKE "; EVariable v; EString (rowTarget k)]) in
  setVariables (<[v ++ "_sql" := eval sv1 None cmd]> (svVariables sv1)) sv1.

Lemma exec_revokeStmts e v ex k sv :
  execAll e (revokeStmts v ex k) sv =
  execAll e [Prepare v (v ++ "_sql"); Execute v; Deallocate v] (setStep v ex k sv).
Proof. done. Qed.

(** What the second variable then holds. *)
Lemma setStep_command v ex k sv :
  variable (setStep v ex k sv) (v ++ "_sql") =
  match subquery sv k ex with
  | VNull | VString [] => VString "DO 0"
  | x => concatValue [VString "REVOKE "; x; VString (rowTarget k)]
  end.
Proof.
  assert (forall sv1 w x, variable (setVariables (<[w := x]> (svVariables sv1)) sv1) w = x) as Hv.
  { intros. unfold variable. cbn. by rewrite lookup_insert, decide_True. }
  unfold setStep. rewrite Hv. cbn [eval holds map]. rewrite Hv.
  destruct (subquery sv k ex) as [| [| c s] |]; done.
Qed.

Lemma exec_blank_step e v ex k sv :
  subquery sv k ex = VNull \/ subquery sv k ex = VString [] ->
  exists sv', execAll e (revokeStmts v ex k) sv = Some sv' /\ svRows sv' = svRows sv /\ sameRest sv sv'.
Proof.
  intros Hx. rewrite exec_revokeStmts.
  destruct (exec_do_nothing e v (v ++ "_sql") (setStep v ex k sv)) as (sv' & Hr & Hs & Hrest).
  { rewrite setStep_command. by destruct Hx as [-> | ->]. }
  by exists sv'.
Qed.

Lemma exec_revoke_step e v ex (k : rowKey) sv names row cols :
  names <> [] -> Forall listable names ->
  scan (InName []) k.1 = Some ([], InName k.1) -> scan (InName []) (acUser k.2) = Some ([], InName (acUser k.2)) ->
  svRows sv !! k = Some row -> is_Some (svAccounts sv !! k.2) ->
  subquery sv k ex = VString (join ", " names) -> revocable e names row cols ->
  exists sv', execAll e (revokeStmts v ex k) sv = Some sv' /\
    svRows sv' = (if decide (row ∖ cols = ∅) then delete k (svRows sv) else <[k := row ∖ cols]> (svRows sv)) /\
    sameRest sv sv'.
Proof.
  intros Hne Hn Hs Hu Hrow Ha Hx Hc. rewrite exec_revokeStmts.
  destruct (exec_revoke_text e v (v ++ "_sql") ("REVOKE " ++ join ", " names ++ rowTarget k) names k
              (setStep v ex k sv) row cols) as (sv' & Hr & Hrows & Hrest); try done.
  - rewrite setStep_command, Hx.
    assert (join ", " names <> []) as Hj.
    { destruct Hn as [| n ns Hn%listable_nonempty]; [done |]. destruct n; [done |]. by destruct ns. }
    destruct (join ", " names) as [| c s] eqn:E; [done |]. cbn. by rewrite app_nil_r.
  - by apply revoke_listed_text.
  - by exists sv'.
Qed.

(** A privilege the row holds and its definer does not keep. *)
Definition heldNow (sv : server) (row : gset jstring) (db definer : jstring) (p : jstring * jstring) : bool :=
  holds sv row (ColumnYes p.2 (keptBy db definer p.2)).

(** The columns the excess step takes. *)
Definition taken (sv : server) (row : gset jstring) (k : rowKey) (db : jstring)
    (revoked : list (jstring * jstring)) : list (jstring * jstring) :=
  filter (fun p => heldNow sv row db (acUser k.2 ++ "@" ++ acHost k.2) p = true) revoked.

Lemma eval_excess sv row (k : rowKey) db revoked :
  eval sv (Some row) (excessExpr db (acUser k.2 ++ "@" ++ acHost k.2) revoked) =
  VString (join ", " (map fst (taken sv row k db revoked))).
Proof.
  cbn [eval excessExpr]. unfold concatWs. cbn [textOf]. do 2 f_equal. unfold taken.
  induction revoked as [| p ps IH]; [done |]. cbn [map omap list_omap]. rewrite filter_cons. rewrite IH.
  cbn [heldExpr eval]. unfold heldNow. cbn [default from_option id].
  destruct (holds sv row _) eqn:E; [by rewrite decide_True | by rewrite decide_False by congruence].
Qed.

(** The privileges of a list are named as the engine names them. *)
Definition named (e : engine) (l : list (jstring * jstring)) : Prop :=
  Forall (fun p => mapGet (schemaPrivileges e) p.1 = Some p.2) l.

Lemma named_columns e l :
  named e l -> l <> [] ->
  privilegeColumns e (map fst l) = Some (list_to_set (map snd l)) /\ Forall listable (map fst l).
Proof.
  intros Hn Hne. split.
  - unfold privilegeColumns. rewrite decide_False.
    + assert (mapM (mapGet (schemaPrivileges e)) (map fst l) = Some (map snd l)) as ->; [| done].
      apply mapM_Some. apply Forall2_fmap. by apply Forall_Forall2_diag.
    + intros E. destruct l as [| [n c] [|]]; simplify_eq/=. apply Forall_inv in Hn. by destruct e.
  - apply Forall_fmap. eapply Forall_impl; [exact Hn |]. intros p Hp. cbn in Hp.
    assert (is_Some (mapGet (schemaPrivileges e) p.1)) as Hs by eauto. clear Hp.
    pose proof (listable_names e) as Hl. rewrite Forall_forall in Hl. apply Hl.
    apply not_eq_None_Some in Hs. rewrite mapGet_None in Hs. by apply dec_stable.
Qed.

Lemma exec_excess e (k : rowKey) db revoked sv row :
  named e revoked ->
  scan (InName []) k.1 = Some ([], InName k.1) -> scan (InName []) (acUser k.2) = Some ([], InName (acUser k.2)) ->
  svRows sv !! k = Some row -> is_Some (svAccounts sv !! k.2) ->
  row ∖ list_to_set (map snd (taken sv row k db revoked)) <> ∅ ->
  exists sv', execAll e (match revoked with
      | [] => []
      | _ => revokeStmts "tp_excess" (excessExpr db (acUser k.2 ++ "@" ++ acHost k.2) revoked) k
      end) sv = Some sv' /\
    svRows sv' = <[k := row ∖ list_to_set (map snd (taken sv row k db revoked))]> (svRows sv) /\
    sameRest sv sv'.
Proof.
  intros Hn Hs Hu Hrow Ha Hne.
  assert (svRows sv = <[k := row ∖ list_to_set []]> (svRows sv)) as Hsame.
  { rewrite list_to_set_nil, difference_empty_L. by rewrite insert_id. }
  destruct revoked as [| p ps]; [by exists sv |]. set (rv := p :: ps) in *.
  assert (subquery sv k (excessExpr db (acUser k.2 ++ "@" ++ acHost k.2) rv) =
          VString (join ", " (map fst (taken sv row k db rv)))) as Hx.
  { unfold subquery. rewrite Hrow. apply eval_excess. }
  destruct (taken sv row k db rv) as [| t ts] eqn:Et.
  - destruct (exec_blank_step e "tp_excess" (excessExpr db (acUser k.2 ++ "@" ++ acHost k.2) rv) k sv)
      as (sv' & Hr & Hrows & Hrest); [by right |]. exists sv'. split_and!; [done | by rewrite Hrows | done].
  - assert (named e (t :: ts)) as Hnt.
    { rewrite <- Et. unfold taken, named in *. rewrite Forall_forall in Hn |- *.
      intros x [_ Hin]%list_elem_of_filter. by apply Hn. }
    destruct (named_columns e (t :: ts) Hnt) as [Hc Hl]; [done |].
    destruct (exec_revoke_step e "tp_excess" (excessExpr db (acUser k.2 ++ "@" ++ acHost k.2) rv) k sv
                (map fst (t :: ts)) row (list_to_set (map snd (t :: ts))))
      as (sv' & Hr & Hrows & Hrest); try done.
    + split; [done |]. right. rewrite <- Et. intros c. rewrite elem_of_list_to_set, list_elem_of_fmap.
      intros (x & -> & Hx'). unfold taken in Hx'. apply list_elem_of_filter in Hx' as [Hh _].
      unfold heldNow in Hh. cbn [holds] in Hh. bools. done.
    + exists sv'. split_and!; [done | by rewrite Hrows, decide_False | done].
Qed.

Lemma exec_option e (k : rowKey) sv row :
  scan (InName []) k.1 = Some ([], InName k.1) -> scan (InName []) (acUser k.2) = Some ([], InName (acUser k.2)) ->
  svRows sv !! k = Some row -> is_Some (svAccounts sv !! k.2) -> row ∖ {[ GRANT_OPTION ]} <> ∅ ->
  exists sv', execAll e (revokeStmts "tp_excess_option" optionExpr k) sv = Some sv' /\
    svRows sv' = <[k := row ∖ {[ GRANT_OPTION ]}]> (svRows sv) /\ sameRest sv sv'.
Proof.
  intros Hs Hu Hrow Ha Hne.
  assert (subquery sv k optionExpr =
          if decide (GRANT_OPTION ∈ row) then VString (join ", " ["GRANT OPTION" : jstring]) else VNull) as Hx.
  { unfold subquery. rewrite Hrow. cbn [eval optionExpr holds default from_option id]. rewrite andb_true_r.
    destruct (decide (GRANT_OPTION ∈ row)); [by rewrite bool_decide_eq_true_2 | by rewrite bool_decide_eq_false_2]. }
  destruct (decide (GRANT_OPTION ∈ row)) as [Hin | Hout].
  - destruct (exec_revoke_step e "tp_excess_option" optionExpr k sv ["GRANT OPTION" : jstring] row {[ GRANT_OPTION ]})
      as (sv' & Hr & Hrows & Hrest); try done.
    + constructor; [| done]. pose proof (listable_names e) as Hl. rewrite Forall_forall in Hl. apply Hl.
      destruct e; apply list_elem_of_fmap; exists ("GRANT OPTION", "Grant_priv"); (split; [done |]);
        apply memb_true; vm_compute; reflexivity.
    + split; [destruct e; apply (bool_decide_eq_true_1 _); vm_compute; reflexivity | right; set_solver].
    + exists sv'. split_and!; [done | by rewrite Hrows, decide_False | done].
  - destruct (exec_blank_step e "tp_excess_option" optionExpr k sv) as (sv' & Hr & Hrows & Hrest); [by left |].
    exists sv'. split_and!; [done | | done]. rewrite Hrows, difference_disjoint_L by set_solver. by rewrite insert_id.
Qed.

(** ** What a level is

    The columns each level holds, as the documentation of [LEVEL_PRIVILEGES]
    says; and those an account keeps while it defines a trigger or an event. *)
Definition levelColumns (e : engine) (l : ManagedDatabasePrivilege) : gset jstring :=
  match l with
  | Admin => allColumns e ∪ {[ GRANT_OPTION ]}
  | Owner => allColumns e
  | ReadWrite =>
      list_to_set ["Select_priv"; "Insert_priv"; "Update_priv"; "Delete_priv"; "Execute_priv";
                   "Lock_tables_priv"; "Create_tmp_table_priv"; "Show_view_priv"]
  | ReadOnly => list_to_set ["Select_priv"; "Show_view_priv"]
  end.

Definition keptColumns (sv : server) (db : jstring) (a : account) : gset jstring :=
  let definer := acUser a ++ "@" ++ acHost a in
  (if defines sv (DefinerQuery "TRIGGERS" db definer) then {[ "Trigger_priv" ]} else ∅) ∪
  (if defines sv (DefinerQuery "EVENTS" db definer) then {[ "Event_priv" ]} else ∅).

(** The row of a login after its level was applied over [old]. *)
Definition levelRow (e : engine) (sv : server) (db : jstring) (a : account)
    (l : ManagedDatabasePrivilege) (old : gset jstring) : gset jstring :=
  levelColumns e l ∪
  match l with ReadWrite | ReadOnly => old ∩ keptColumns sv db a | Admin | Owner => ∅ end.

Definition knownRow (e : engine) (row : gset jstring) : Prop := row ⊆ allColumns e ∪ {[ GRANT_OPTION ]}.

Lemma allColumns_elem e c :
  c ∈ allColumns e <-> c ∈ filter (fun x => x <> GRANT_OPTION) (map snd (schemaPrivileges e)).
Proof. unfold allColumns. rewrite list_elem_of_filter. set_solver. Qed.

Lemma level_granted e l :
  privilegeColumns e (levelNames l) = Some (levelColumns e l ∖ {[ GRANT_OPTION ]}).
Proof. destruct e, l; apply (bool_decide_eq_true_1 _); vm_compute; reflexivity. Qed.

Lemma level_named e l : named e (levelRevokes e l).
Proof.
  apply Forall_forall. intros p Hp.
  assert (forallb (fun p => bool_decide (mapGet (schemaPrivileges e) p.1 = Some p.2)) (levelRevokes e l) = true) as H
    by (destruct e, l; vm_compute; reflexivity).
  rewrite forallb_forall in H. specialize (H p (proj1 (list_elem_of_In _ _) Hp)). by bools.
Qed.

(** A limited level holds or revokes every column, and revokes none it holds. *)
Lemma level_splits e l c :
  l = ReadWrite \/ l = ReadOnly ->
  (c ∈ allColumns e -> c ∈ levelColumns e l \/ c ∈ map snd (levelRevokes e l)) /\
  (c ∈ map snd (levelRevokes e l) -> c ∉ levelColumns e l) /\
  GRANT_OPTION ∉ levelColumns e l.
Proof.
  intros Hl. rewrite allColumns_elem.
  assert (forallb (fun c => bool_decide (c ∈ levelColumns e l) || memb c (map snd (levelRevokes e l)))
            (filter (fun x => x <> GRANT_OPTION) (map snd (schemaPrivileges e))) = true /\
          forallb (fun c => negb (bool_decide (c ∈ levelColumns e l))) (map snd (levelRevokes e l)) = true /\
          bool_decide (GRANT_OPTION ∈ levelColumns e l) = false) as (H1 & H2 & H3)
    by (destruct e; destruct Hl as [-> | ->]; vm_compute; done).
  rewrite forallb_forall in H1, H2. split_and!.
  - intros Hc%list_elem_of_In. specialize (H1 c Hc). apply orb_true_iff in H1 as [H1 | H1]; bools; [by left |].
    right. by apply memb_true.
  - intros Hc%list_elem_of_In. specialize (H2 c Hc). by bools.
  - by bools.
Qed.

Lemma kept_elem sv db a c :
  c ∈ keptColumns sv db a <->
  match keptBy db (acUser a ++ "@" ++ acHost a) c with Some q => defines sv q = true | None => False end.
Proof.
  unfold keptColumns, keptBy. rewrite elem_of_union.
  destruct (decide (c = "Trigger_priv")) as [-> | H1].
  - destruct (defines sv (DefinerQuery "TRIGGERS" _ _)), (defines sv (DefinerQuery "EVENTS" _ _)); set_solver.
  - destruct (decide (c = "Event_priv")) as [-> | H2];
      destruct (defines sv (DefinerQuery "TRIGGERS" _ _)), (defines sv (DefinerQuery "EVENTS" _ _)); set_solver.
Qed.

Lemma taken_elem sv row k db revoked c :
  c ∈ map snd (taken sv row k db revoked) <->
  c ∈ map snd revoked /\ c ∈ row /\ c ∉ keptColumns sv db k.2.
Proof.
  rewrite kept_elem. unfold taken, heldNow. rewrite !list_elem_of_fmap. cbn [holds]. split.
  - intros (p & -> & [Hh Hp]%list_elem_of_filter). bools. split_and!; [by eauto | done |].
    destruct (keptBy _ _ _); [| by intros []]. intros E. bools. congruence.
  - intros ((p & -> & Hp) & Hr & Hk). exists p. split; [done |]. apply list_elem_of_filter. split; [| done].
    rewrite bool_decide_eq_true_2 by done. cbn. destruct (keptBy _ _ _); [| done]. by apply negb_true_iff, not_true_iff_false.
Qed.

(** ** Applying a level *)

Lemma exec_excessStmts e (k : rowKey) db revoked sv row :
  named e revoked ->
  scan (InName []) k.1 = Some ([], InName k.1) -> scan (InName []) (acUser k.2) = Some ([], InName (acUser k.2)) ->
  svRows sv !! k = Some row -> is_Some (svAccounts sv !! k.2) ->
  row ∖ list_to_set (map snd (taken sv row k db revoked)) ∖ {[ GRANT_OPTION ]} <> ∅ ->
  exists sv', execAll e (excessStmts k db revoked) sv = Some sv' /\
    svRows sv' = <[k := row ∖ list_to_set (map snd (taken sv row k db revoked)) ∖ {[ GRANT_OPTION ]}]> (svRows sv) /\
    sameRest sv sv'.
Proof.
  intros Hn Hs Hu Hrow Ha Hne. unfold excessStmts. rewrite execAll_app.
  destruct (exec_excess e k db revoked sv row) as (sv2 & -> & Hrows2 & Hrest2); try done.
  { intros E. rewrite E in Hne. apply Hne. set_solver. }
  cbn [mbind option_bind]. edestruct (exec_option e k sv2) as (sv3 & Hx3 & Hrows3 & Hrest3); [done | done | | | exact Hne |].
  { by rewrite Hrows2, lookup_insert, decide_True. } { by destruct Hrest2 as [-> _]. }
  exists sv3. split_and!; [done | | by transitivity sv2]. by rewrite Hrows3, Hrows2, insert_insert_eq.
Qed.

Lemma level_nonempty e l : "Select_priv" ∈ levelColumns e l /\ ("Select_priv" : jstring) <> GRANT_OPTION.
Proof. split; [destruct e, l; apply (bool_decide_eq_true_1 _); vm_compute; reflexivity | done]. Qed.

(** Grant, then revoke the excess: what stays is the level. *)
Lemma level_row_exact e sv k db l old :
  knownRow e old ->
  let row := old ∪ (levelColumns e l ∖ {[ GRANT_OPTION ]}) in
  l <> Admin ->
  row ∖ list_to_set (map snd (taken sv row k db (levelRevokes e l))) ∖ {[ GRANT_OPTION ]} =
  levelRow e sv db k.2 l old.
Proof.
  intros Hold row Hl. apply set_eq. intros c.
  rewrite !elem_of_difference, elem_of_list_to_set, taken_elem, elem_of_singleton.
  assert (c ∈ row <-> c ∈ old \/ c ∈ levelColumns e l /\ c <> GRANT_OPTION) as Hrow by set_solver.
  assert (c ∈ old -> c ∈ allColumns e \/ c = GRANT_OPTION) as Ho by (intros Hc; specialize (Hold c Hc); set_solver).
  rewrite Hrow. clear Hrow Hold. clearbody row. unfold levelRow. rewrite elem_of_union.
  assert (c ∈ keptColumns sv db k.2 -> c <> GRANT_OPTION) as Hk by (rewrite kept_elem; intros Hk ->; exact Hk).
  assert (c ∈ keptColumns sv db k.2 \/ c ∉ keptColumns sv db k.2) as Hd by (destruct (decide (c ∈ keptColumns sv db k.2)); auto).
  assert (l = Owner \/ l = ReadWrite \/ l = ReadOnly) as [-> | Hlim] by (destruct l; [done | auto ..]).
  - cbn [levelRevokes map levelColumns]. rewrite elem_of_empty, elem_of_nil.
    assert (c ∈ allColumns e -> c <> GRANT_OPTION) by (unfold allColumns; set_solver). tauto.
  - destruct (level_splits e l c Hlim) as (H1 & H2 & H3).
    assert (c ∈ levelColumns e l -> c <> GRANT_OPTION) as H4 by (by intros Hc ->).
    assert (match l with ReadWrite | ReadOnly => old ∩ keptColumns sv db k.2 | _ => ∅ end =
            old ∩ keptColumns sv db k.2) as -> by (by destruct Hlim as [-> | ->]).
    rewrite elem_of_intersection. clear H3 Hlim. tauto.
Qed.

Lemma admin_row_exact e sv db a old :
  knownRow e old ->
  old ∪ (levelColumns e Admin ∖ {[ GRANT_OPTION ]}) ∪ {[ GRANT_OPTION ]} = levelRow e sv db a Admin old.
Proof.
  intros Hold. apply set_eq. intros c. specialize (Hold c). unfold levelRow. cbn [levelColumns].
  rewrite !elem_of_union, elem_of_difference, elem_of_union, elem_of_singleton, elem_of_empty in *.
  assert (c = GRANT_OPTION \/ c <> GRANT_OPTION) by (destruct (decide (c = GRANT_OPTION)); auto). tauto.
Qed.

Lemma exec_level e db u h l sv :
  plainName db -> plainName u -> is_Some (svAccounts sv !! Account u h) ->
  knownRow e (rowOf sv (escapeGrantSchemaPattern db, Account u h)) ->
  exists sv', execAll e (grantStmts e db (Account u h) l) sv = Some sv' /\
    svRows sv' = <[(escapeGrantSchemaPattern db, Account u h) :=
      levelRow e sv db (Account u h) l (rowOf sv (escapeGrantSchemaPattern db, Account u h))]> (svRows sv) /\
    sameRest sv sv'.
Proof.
  intros Hdb Hu [au Ha] Hold. set (k := (escapeGrantSchemaPattern db, Account u h)) in *.
  destruct (level_nonempty e l) as [Hsel Hsel'].
  set (old := rowOf sv k) in *.
  set (row := old ∪ (levelColumns e l ∖ {[ GRANT_OPTION ]}) ∪
              (if bool_decide (l = Admin) then {[ GRANT_OPTION ]} else ∅)).
  set (sv1 := putRow k row sv).
  assert (exec e (Grant (levelNames l) (OnSchema k.1) (Account u h) (bool_decide (l = Admin)) false) sv = Some sv1) as Hg.
  { cbn [exec execDirect]. unfold execGrant. rewrite Ha. cbn. by rewrite level_granted. }
  assert (svRows sv1 = <[k := row]> (svRows sv)) as Hrows1.
  { subst sv1. unfold putRow. cbn. rewrite decide_False; [done |]. intros E.
    assert ("Select_priv" ∈ row) as Hin by set_solver. rewrite E in Hin. set_solver. }
  assert (svRows sv1 !! k = Some row) as Hrow1 by (by rewrite Hrows1, lookup_insert, decide_True).
  assert (grantStmts e db (Account u h) l =
    Grant (levelNames l) (OnSchema k.1) (Account u h) (bool_decide (l = Admin)) false ::
    match l with Admin => [] | _ => excessStmts k db (levelRevokes e l) end) as -> by done.
  cbn [execAll]. rewrite Hg. cbn [mbind option_bind].
  destruct (decide (l = Admin)) as [-> | Hl].
  { exists sv1. split_and!; [done | | done]. rewrite Hrows1. f_equal. by apply admin_row_exact. }
  assert (row = old ∪ (levelColumns e l ∖ {[ GRANT_OPTION ]})) as Hrow.
  { subst row. rewrite bool_decide_eq_false_2 by done. by rewrite union_empty_r_L. }
  pose proof (level_row_exact e sv1 k db l old Hold Hl) as Hexact. cbn zeta in Hexact. rewrite <- Hrow in Hexact.
  assert ("Select_priv" ∈ levelRow e sv1 db k.2 l old) as Hin by (unfold levelRow; set_solver).
  assert (execAll e (match l with Admin => [] | _ => excessStmts k db (levelRevokes e l) end) sv1 =
          execAll e (excessStmts k db (levelRevokes e l)) sv1) as -> by (by destruct l).
  destruct (exec_excessStmts e k db (levelRevokes e l) sv1 row) as (sv2 & Hx2 & Hrows2 & Hrest2); try done.
  { apply level_named. } { by apply escaped_scans. } { by apply plain_scans. }
  { rewrite Hexact. intros E. rewrite E in Hin. set_solver. }
  exists sv2. split_and!; [done | | done]. by rewrite Hrows2, Hexact, Hrows1, insert_insert_eq.
Qed.

(** ** Removing a plain grant *)

Definition setPlain (revoke : jstring) (k : rowKey) (sv : server) : server :=
  let sv1 := setVariables (<["tp_plain_grant" := subquery sv k ECount]> (svVariables sv)) sv in
  let cmd := EIf (Positive "tp_plain_grant") (EString revoke) (EString "DO 0") in
  setVariables (<["tp_plain_revoke" := eval sv1 None cmd]> (svVariables sv1)) sv1.

Lemma setPlain_command revoke k sv :
  variable (setPlain revoke k sv) "tp_plain_revoke" =
  VString (match svRows sv !! k with Some _ => revoke | None => "DO 0" end).
Proof.
  assert (forall sv1 w x, variable (setVariables (<[w := x]> (svVariables sv1)) sv1) w = x) as Hv.
  { intros. unfold variable. cbn. by rewrite lookup_insert, decide_True. }
  unfold setPlain. rewrite Hv. cbn [eval holds]. rewrite Hv. unfold subquery. by destruct (svRows sv !! k).
Qed.

Lemma exec_plain_absent e revoke k sv :
  svRows sv !! k = None ->
  exists sv', execAll e (plainStmts revoke k) sv = Some sv' /\ svRows sv' = svRows sv /\ sameRest sv sv'.
Proof.
  intros Hk.
  destruct (exec_do_nothing e "tp_plain_revoke" "tp_plain_revoke" (setPlain revoke k sv)) as (sv' & Hx & Hr & Hs).
  { by rewrite setPlain_command, Hk. }
  by exists sv'.
Qed.

Lemma exec_plain_present e revoke names (k : rowKey) sv row cols :
  readsAs revoke (Revoke names (OnSchema k.1) k.2) -> svRows sv !! k = Some row ->
  is_Some (svAccounts sv !! k.2) -> revocable e names row cols ->
  exists sv', execAll e (plainStmts revoke k) sv = Some sv' /\
    svRows sv' = (if decide (row ∖ cols = ∅) then delete k (svRows sv) else <[k := row ∖ cols]> (svRows sv)) /\
    sameRest sv sv'.
Proof.
  intros Hr Hk Ha Hc.
  destruct (exec_revoke_text e "tp_plain_revoke" "tp_plain_revoke" revoke names k (setPlain revoke k sv) row cols)
    as (sv' & Hx & Hrows & Hs); try done.
  { by rewrite setPlain_command, Hk. }
  by exists sv'.
Qed.

Lemma exec_plain e (k : rowKey) sv :
  plainName k.1 -> plainName (acUser k.2) -> is_Some (svAccounts sv !! k.2) -> knownRow e (rowOf sv k) ->
  exists sv', execAll e (plainStmts (REVOKE_ALL k) k ++ plainStmts (REVOKE_OPTION k) k) sv = Some sv' /\
    svRows sv' = delete k (svRows sv) /\ sameRest sv sv'.
Proof.
  intros Hd Hu Ha Hold. rewrite execAll_app. unfold rowOf in Hold. destruct (svRows sv !! k) as [row |] eqn:Hk; cycle 1.
  { destruct (exec_plain_absent e (REVOKE_ALL k) k sv Hk) as (sv1 & -> & Hr1 & Hs1). cbn [mbind option_bind].
    destruct (exec_plain_absent e (REVOKE_OPTION k) k sv1) as (sv2 & -> & Hr2 & Hs2); [by rewrite Hr1 |].
    exists sv2. split_and!; [done | by rewrite Hr2, Hr1, delete_id | by transitivity sv1]. }
  destruct (exec_plain_present e (REVOKE_ALL k) ["ALL PRIVILEGES" : jstring] k sv row (allColumns e))
    as (sv1 & -> & Hr1 & Hs1); try done.
  { by apply revoke_all_text. } { split; [done | by left]. }
  cbn [mbind option_bind]. case_decide as Hempty.
  - destruct (exec_plain_absent e (REVOKE_OPTION k) k sv1) as (sv2 & -> & Hr2 & Hs2).
    { by rewrite Hr1, lookup_delete, decide_True. }
    exists sv2. split_and!; [done | by rewrite Hr2, Hr1 | by transitivity sv1].
  - assert (row ∖ allColumns e = {[ GRANT_OPTION ]}) as Hg.
    { assert (forall c, c ∈ row -> c ∉ allColumns e -> c = GRANT_OPTION) as Hg.
      { intros c Hc Hn. specialize (Hold c Hc). rewrite elem_of_union, elem_of_singleton in Hold. tauto. }
      apply set_choose_L in Hempty as [c0 [Hc0 Hn0]%elem_of_difference]. pose proof (Hg c0 Hc0 Hn0) as ->.
      apply set_eq. intros c. rewrite elem_of_difference, elem_of_singleton. split; [intros []; auto | by intros ->]. }
    rewrite Hg in Hr1.
    destruct (exec_plain_present e (REVOKE_OPTION k) ["GRANT OPTION" : jstring] k sv1 {[ GRANT_OPTION ]} {[ GRANT_OPTION ]})
      as (sv2 & -> & Hr2 & Hs2).
    { by apply revoke_option_text. } { by rewrite Hr1, lookup_insert, decide_True. } { by destruct Hs1 as [-> _]. }
    { split; [destruct e; apply (bool_decide_eq_true_1 _); vm_compute; reflexivity | by right]. }
    rewrite decide_True in Hr2 by set_solver.
    exists sv2. split_and!; [done | | by transitivity sv1]. by rewrite Hr2, Hr1, delete_insert_eq.
Qed.

(** ** When the builders return *)

Lemma cleanText_app a b : cleanText (a ++ b) <-> cleanText a /\ cleanText b.
Proof. apply Forall_app. Qed.

Lemma plain_clean v : plainName v -> cleanText v.
Proof.
  intros H. eapply Forall_impl; [exact H |]. intros c Hc. unfold is_word, is_alnum, is_alpha, is_upper, is_lower, is_digit, in_range in Hc.
  destruct ((c <=? 31)%N || (c =? 127)%N) eqn:E; [| done]. apply orb_true_iff in E.
  rewrite !orb_true_iff, !andb_true_iff, !N.leb_le, N.eqb_eq in Hc. rewrite N.leb_le, N.eqb_eq in E. lia.
Qed.

Lemma quoted_clean v : cleanText v -> cleanText (quotedText v).
Proof.
  intros H. unfold quotedText. rewrite !cleanText_app. split_and!; [by repeat constructor | | by repeat constructor].
  induction H as [| c v Hc _ IH]; [constructor |].
  change (escapeLiteral (c :: v)) with
    ((if (c =? 92)%N then [92; 92]%N else if (c =? 39)%N then [92; 39]%N else [c]) ++ escapeLiteral v).
  apply cleanText_app. split; [| done]. repeat case_match; by repeat constructor.
Qed.

Lemma escaped_clean v : plainName v -> cleanText (escapeGrantSchemaPattern v).
Proof.
  intros H. pose proof (plain_clean v H) as Hc. clear H. induction Hc as [| c v Hc _ IH]; [constructor |].
  rewrite escape_cons. apply cleanText_app. split; [| done]. case_match; by repeat constructor.
Qed.

(** Go on with what a builder returned. *)
Ltac go := cbn [mbind result_bind].

Ltac clean :=
  repeat match goal with
  | |- cleanText (_ ++ _) => apply cleanText_app; split
  | |- cleanText (quotedText _) => apply quoted_clean
  | |- cleanText (inTicks _) => unfold inTicks
  | |- cleanText _ => first [assumption | by apply plain_clean | by apply escaped_clean | by repeat constructor]
  end.

Lemma mapM_returns {E A B} (f : A -> result E B) (g : A -> B) l :
  Forall (fun x => f x = Ok (g x)) l -> mapM f l = Ok (map g l).
Proof. induction 1 as [| x l Hx _ IH]; [done |]. cbn [mapM map]. by rewrite Hx, Ok_bind, IH. Qed.

(** What a login and its grants must look like. *)
Record grantable (db u h : jstring) : Prop := {
  gr_database : goodName 64 db;
  gr_fits : (length (escapeGrantSchemaPattern db) <= GRANT_SCHEMA_MAX_LENGTH)%nat;
  gr_user : goodName 32 u;
  gr_host : cleanText h }.

Section Totality.
Context (e : engine) (q : GrantQuoting) `{!QuotingLaws e q}.

Lemma addRevokeStep_returns row tail v l :
  cleanText tail -> exists ls, addRevokeStep q row tail v l "REVOKE " = Ok ls.
Proof.
  intros Ht. unfold addRevokeStep. rewrite (literal_ok "REVOKE ") by clean. go. rewrite (literal_ok tail) by clean. go. eauto.
Qed.

Lemma excess_returns schema db u h l :
  cleanText schema -> plainName db -> goodName 32 u -> cleanText h ->
  exists sql, revokeExcessSql q schema db u h (levelRevokes e l) true = Ok sql.
Proof.
  intros Hs Hd Hu Hh. pose proof (proj1 (proj2 (proj2 Hu))) as Hp. unfold revokeExcessSql.
  rewrite (literal_ok schema) by clean. go. rewrite (literal_ok u) by clean. go. rewrite (literal_ok h) by clean. go.
  rewrite (account_ok u h) by done. go. rewrite (literal_ok (u ++ "@" ++ h)) by clean. go.
  rewrite (literal_ok db) by clean. go.
  set (tail := " ON `" ++ schema ++ "`.* FROM " ++ inTicks u ++ "@" ++ quotedText h).
  assert (cleanText tail) as Ht by (subst tail; clean).
  assert (mapM (held q (quotedText db) (quotedText (u ++ "@" ++ h))) (levelRevokes e l) =
          Ok (map (heldText (quotedText db) (quotedText (u ++ "@" ++ h))) (levelRevokes e l))) as Hm.
  { apply mapM_returns. apply Forall_forall. intros [n c] Hin. unfold held. rewrite literal_ok; [done |].
    assert (forallb (fun p => forallb (fun c => negb ((c <=? 31)%N || (c =? 127)%N)) p.1) (levelRevokes e l) = true) as Hc
      by (destruct e, l; vm_compute; reflexivity).
    rewrite forallb_forall in Hc. specialize (Hc _ (proj1 (list_elem_of_In _ _) Hin)). cbn in Hc.
    apply Forall_forall. intros x Hx%list_elem_of_In. rewrite forallb_forall in Hc. by apply negb_true_iff, Hc. }
  rewrite Hm. go.
  match goal with |- context [addRevokeStep q ?r tail "tp_excess" ?ls _] =>
    destruct (addRevokeStep_returns r tail "tp_excess" ls Ht) as [a ->] end.
  match goal with |- context [addRevokeStep q ?r tail "tp_excess_option" ?ls _] =>
    destruct (addRevokeStep_returns r tail "tp_excess_option" ls Ht) as [b ->] end.
  destruct (levelRevokes e l); go; eauto.
Qed.

Lemma grant_returns db u l h : grantable db u h -> exists sql, grantOnDatabaseSql q db u l h = Ok sql.
Proof.
  intros [Hd Hf Hu Hh]. pose proof (proj1 (proj2 (proj2 Hd))) as Hp.
  unfold grantOnDatabaseSql, quoteGrantSchema. rewrite identifier_ok by done. go.
  rewrite decide_False by lia. fold (inTicks (escapeGrantSchemaPattern db)). go.
  rewrite account_ok by done. go. rewrite sliceInner_ticks.
  unfold revokeAllButSql. rewrite (dialect_privileges (e := e)).
  pose proof (fun l => excess_returns (escapeGrantSchemaPattern db) db u h l (escaped_clean db Hp) Hp Hu Hh) as Hx.
  destruct l; [eauto | destruct (Hx Owner) as [rest Hr] | destruct (Hx ReadWrite) as [rest Hr] |
               destruct (Hx ReadOnly) as [rest Hr]];
    cbn [levelRevokes levelNames] in Hr; rewrite Hr; go; eauto.
Qed.

Lemma plain_returns db u h : goodName 64 db -> goodName 32 u -> cleanText h ->
  exists sql, revokePlainPatternGrantSql q db u h = Ok sql.
Proof.
  intros Hd Hu Hh. pose proof (proj1 (proj2 (proj2 Hu))) as Hpu. pose proof (proj1 (proj2 (proj2 Hd))) as Hpd.
  unfold revokePlainPatternGrantSql. rewrite identifier_ok by done. go. rewrite account_ok by done. go.
  assert (forall r, cleanText r -> exists sql, revokePlainStep q db u h r = Ok sql) as Hs.
  { intros r Hr. unfold revokePlainStep.
    rewrite (literal_ok db) by clean. go. rewrite (literal_ok u) by clean. go. rewrite (literal_ok h) by clean. go.
    rewrite (literal_ok r) by clean. go. eauto. }
  cbn [mapM]. match goal with |- context [revokePlainStep q db u h ("REVOKE ALL PRIVILEGES ON " ++ ?t)] =>
    destruct (Hs ("REVOKE ALL PRIVILEGES ON " ++ t)) as [a ->]; [clean |];
    destruct (Hs ("REVOKE GRANT OPTION ON " ++ t)) as [b ->]; [clean |] end.
  go. eauto.
Qed.
End Totality.
