(* ===== verification/SqlParts.v ===== *)
(** * Parts shared by the SQL of MySQL and MariaDB

    [managed/engines/socket-admin-sql.ts] and [follow-source-sql.ts]. *)

From S2P Require Import Prelude.
From S2P Require Import Json.
From S2P Require Import Log.
From S2P Require Import SqlGrants.

(** [replaceAll] of one character *)
Definition replaceChar (c : N) (by_ : jstring) (s : jstring) : jstring :=
  s ≫= (fun d => if (d =? c)%N then by_ else [d]).

Definition lines (parts : list jstring) : jstring := join [10%N] parts.

(** ** [socket-admin-sql.ts] and [follow-source-sql.ts] *)

Definition socketAdminSql (rootAccount osAccount identified : jstring) : jstring :=
  lines ("DROP USER IF EXISTS `root`@'%';" ::
    ([rootAccount; osAccount] ≫= (fun account =>
      ["CREATE USER IF NOT EXISTS " ++ account ++ " IDENTIFIED " ++ identified ++ ";";
       "ALTER USER " ++ account ++ " IDENTIFIED " ++ identified ++ ";";
       "GRANT ALL PRIVILEGES ON *.* TO " ++ account ++ " WITH GRANT OPTION;"]))).

Record FollowSourceDialect := {
  stop : jstring; change : jstring; hostKey : jstring; portKey : jstring; start : jstring }.

Definition renderFollowSourceSql (dialect : FollowSourceDialect) (host : jstring) (port : N)
    (quote : jstring -> text) : text :=
  h ← quote host;
  Ok (lines [stop dialect ++ ";"; change dialect; "  " ++ hostKey dialect ++ " = " ++ h ++ ",";
             "  " ++ portKey dialect ++ " = " ++ decimalText port ++ ";"; start dialect ++ ";"]).

(** ** Running SQL in the engine's container

    [ManagedEngineContext] of [types.ts]: what the runtimes need of it.  [exec]
    runs a program in the container; [W] is whatever that changes. *)
Record execOutcome := ExecOutcome { success : bool; stdout : jstring; stderr : jstring }.

Record ManagedEngineContext (W : Type) := {
  rootUsername : jstring;
  socketPassword : option jstring;
  clientSourceHosts : option (list jstring);
  execIn : list jstring -> option jstring -> W -> execOutcome * W }.
Arguments rootUsername {W}.
Arguments socketPassword {W}.
Arguments clientSourceHosts {W}.
Arguments execIn {W}.

(** Shell text is written with [^] for a double quote. *)
Definition shell (s : jstring) : jstring := map (fun c => if (c =? 94)%N then 34%N else c) s.

Definition isDeniedWithoutPassword (t : jstring) : bool :=
  includes "Access denied" t && includes "using password: NO" t.

Definition clientDefaultsBody (user pass : jstring) : jstring :=
  lines ["[client]"; "user=" ++ user; "password=" ++ pass; ""].

Definition defaultsOnlyScript : jstring :=
  shell (lines ["set -e"; "tmp=$(mktemp)"; "trap 'rm -f ^$tmp^' EXIT INT TERM HUP"; "chmod 600 ^$tmp^";
    "cat > ^$tmp^"; "client=$1"; "shift"; "exec ^$client^ --defaults-extra-file=^$tmp^ ^$@^"]).

Definition SQL_STDIN_MARK : jstring := "__TP_SQL__".

Definition defaultsSqlScript (client : jstring) : jstring :=
  shell (lines ["set -e"; "tmp=$(mktemp)"; "sqlf=$(mktemp)";
    "trap 'rm -f ^$tmp^ ^$sqlf^' EXIT INT TERM HUP"; "chmod 600 ^$tmp^ ^$sqlf^"; ": > ^$tmp^";
    "while IFS= read -r line || [ -n ^$line^ ]; do";
    "  if [ ^$line^ = ^" ++ SQL_STDIN_MARK ++ "^ ]; then"; "    cat > ^$sqlf^"; "    break"; "  fi";
    "  printf '%s\n' ^$line^ >> ^$tmp^"; "done";
    client ++ " --defaults-extra-file=^$tmp^ --protocol=socket -u ^$1^ < ^$sqlf^"]).

Section Client.
Context {W : Type} (client : jstring) (ctx : ManagedEngineContext W).

(** [execMysqlWithDefaults] *)
Definition execWithDefaults (argv : list jstring) (input : option jstring) (pass : jstring)
    : sqlM W execOutcome := fun w =>
  let defaults := clientDefaultsBody (rootUsername ctx) pass in
  let '(r, w') :=
    match input with
    | Some sql =>
        execIn ctx ["sh"; "-c"; defaultsSqlScript client; "tp-" ++ client; rootUsername ctx]
          (Some (defaults ++ SQL_STDIN_MARK ++ [10%N] ++ sql)) w
    | None => execIn ctx (["sh"; "-c"; defaultsOnlyScript; "tp-" ++ client] ++ argv) (Some defaults) w
    end in
  (Ok r, w').

(** [execMysql]: once more with the password when the socket login is refused.
    An empty password is as good as none. *)
Definition execClient (argv : list jstring) (input : option jstring) : sqlM W execOutcome := fun w =>
  let '(first, w') := execIn ctx argv input w in
  let denied := isDeniedWithoutPassword (stderr first ++ [10%N] ++ stdout first) in
  if success first && negb denied then (Ok first, w')
  else match socketPassword ctx with
       | None | Some [] => (Ok first, w')
       | Some pass => if negb denied then (Ok first, w') else execWithDefaults argv input pass w'
       end.

(** [result.stderr || result.stdout || "unknown"] *)
Definition failureDetail (r : execOutcome) : jstring :=
  match stderr r, stdout r with
  | [], [] => "unknown"
  | [], out => out
  | err, _ => err
  end.

(** [runMysql] and [runMysqlQuery] *)
Definition runSql (sql : jstring) : sqlM W unit :=
  r ← execClient [client; "--protocol=socket"; "-u"; rootUsername ctx] (Some sql);
  if success r then mret tt
  else liftR (Throw (client ++ " failed: " ++ sanitizeForLog (failureDetail r))).

Definition runQuery (sql : jstring) : sqlM W jstring :=
  r ← execClient [client; "--protocol=socket"; "-u"; rootUsername ctx; "-N"; "-B"; "-e"; sql] None;
  if success r then mret (stdout r)
  else liftR (Throw (client ++ " query failed: " ++ sanitizeForLog (failureDetail r))).
End Client.

(** ** [account-hosts.ts] *)

Definition definerObjectsSql (usernames : list jstring) (quote : jstring -> text) : text :=
  names ← mapM quote usernames;
  let owner : jstring := "SUBSTRING_INDEX(DEFINER, '@', 1)" in
  let pick (what schema nm table : jstring) : jstring :=
    "SELECT " ++ owner ++ " AS u, '" ++ what ++ "' AS k, " ++ schema ++ " AS s, " ++ nm ++ " AS n " ++
    "FROM information_schema." ++ table ++ " WHERE " ++ owner ++ " IN (" ++ join ", " names ++ ")" in
  Ok (join " UNION ALL "
        [pick "view" "TABLE_SCHEMA" "TABLE_NAME" "VIEWS";
         pick "trigger" "TRIGGER_SCHEMA" "TRIGGER_NAME" "TRIGGERS";
         pick "routine" "ROUTINE_SCHEMA" "ROUTINE_NAME" "ROUTINES";
         pick "event" "EVENT_SCHEMA" "EVENT_NAME" "EVENTS"] ++ " ORDER BY 1, 2, 3, 4;").

Definition MAX_NAMED_OBJECTS : nat := 10.

Definition parseDefinerObjects (out : jstring) : jsmap (list jstring) :=
  foldl (fun byLogin line =>
    match split 9 (trim line) with
    | ((_ :: _) as user) :: ((_ :: _) as what) :: ((_ :: _) as schema) :: ((_ :: _) as nm) :: _ =>
        mapSet user (default [] (mapGet byLogin user) ++ [what ++ " " ++ schema ++ "." ++ nm]) byLogin
    | _ => byLogin
    end) [] (split 10 out).

Definition capDefinerObjects (objects : list jstring) : list jstring :=
  let shown := take MAX_NAMED_OBJECTS objects in
  if (length shown <? length objects)%nat
  then shown ++ ["and " ++ decimalText (N.of_nat (length objects - length shown)) ++ " more"]
  else shown.

(** The message of [LoginOwnsObjectsError]. *)
Definition loginOwnsObjects (user : jstring) (objects : list jstring) : jstring :=
  "The SQL login " ++ [34%N] ++ user ++ [34%N] ++ " still owns views, routines, triggers or events (" ++
  join ", " (map (fun object => "'" ++ object ++ "'") objects) ++
  "). Move or drop them first, then delete the login.".

Section DropEverywhere.
Context {W : Type} (user : jstring) (fixedHosts : list jstring) (quote : jstring -> text).
Context (query : jstring -> sqlM W jstring) (run : jstring -> sqlM W unit).
Context (dropSql : jstring -> list jstring -> text).

Definition assertNoObjectsDefinedBy : sqlM W unit :=
  sql ← liftR (definerObjectsSql [user] quote);
  out ← query sql;
  match mapGet (parseDefinerObjects out) user with
  | Some ((_ :: _) as found) => liftR (Throw (loginOwnsObjects user (capDefinerObjects found)))
  | _ => mret tt
  end.

Definition dropUserOnEveryHost : sqlM W unit :=
  '_ ← assertNoObjectsDefinedBy;
  u ← liftR (quote user);
  out ← query ("SELECT host FROM mysql.user WHERE user = " ++ u ++ ";");
  let existing := filter (fun line => line <> []) (map trim (split 10 out)) in
  sql ← liftR (dropSql user (fixedHosts ++ existing));
  run sql.
End DropEverywhere.

(** A login that defines a view is named in the refusal. *)
Lemma owner_is_refused :
  assertNoObjectsDefinedBy (W := unit) "app" Ok (fun _ => mret ("app" ++ [9%N] ++ "view" ++ [9%N] ++ "shop" ++ [9%N] ++ "v1")) tt =
  (Throw (loginOwnsObjects "app" ["view shop.v1" : jstring]), tt).
Proof. vm_compute. reflexivity. Qed.
