(* ===== verification/SqlLogins.v ===== *)
(** * Applying a login to a server

    The grants [grant-databases.ts] writes for a login, and the whole of
    [applyOneCredential] of [mysql.ts] and [mariadb.ts], on a server of
    [SqlServer] behind the client program. *)

From S2P Require Import Prelude.
From S2P Require Import SqlServer.
From S2P Require Import SqlGrants.
From S2P Require Import SqlGranted.
From S2P Require Import SqlParts.

(** ** The abstract grant table *)

Notation rows := (gmap rowKey (gset jstring)).

Definition setLevel (e : engine) (sv : server) (db : jstring) (l : ManagedDatabasePrivilege)
    (r : rows) (a : account) : rows :=
  let k := (escapeGrantSchemaPattern db, a) in
  <[k := levelRow e sv db a l (default ∅ (r !! k))]> r.

Definition dropPlain (db : jstring) (r : rows) (a : account) : rows := delete (db, a) r.

(** One database: its level on every account, then no plain grant. *)
Definition applyLevel (e : engine) (sv : server) (l : ManagedDatabasePrivilege) (accounts : list account)
    (r : rows) (db : jstring) : rows :=
  let r' := foldl (setLevel e sv db l) r accounts in
  if hasGrantWildcard db then foldl (dropPlain db) r' accounts else r'.

Definition lawful (e : engine) (r : rows) : Prop := forall k row, r !! k = Some row -> knownRow e row.

Lemma levelRow_known e sv db a l old : knownRow e old -> knownRow e (levelRow e sv db a l old).
Proof.
  unfold knownRow. intros H c. unfold levelRow. rewrite elem_of_union. intros [Hc | Hc].
  - assert (levelColumns e l ⊆ allColumns e ∪ {[ GRANT_OPTION ]}) as Hl
      by (destruct e, l; apply (bool_decide_eq_true_1 _); vm_compute; reflexivity).
    by apply Hl.
  - destruct l; try (by apply elem_of_empty in Hc); apply H; by apply elem_of_intersection in Hc as [? _].
Qed.

Lemma lawful_row e r k : lawful e r -> knownRow e (default ∅ (r !! k)).
Proof. intros H. destruct (r !! k) eqn:E; [by apply (H k) |]. intros c []%elem_of_empty. Qed.

Lemma lawful_setLevel e sv db l r a : lawful e r -> lawful e (setLevel e sv db l r a).
Proof.
  intros H k row. unfold setLevel. rewrite lookup_insert. case_decide; [| apply H].
  intros [= <-]. by apply levelRow_known, lawful_row.
Qed.

Lemma lawful_dropPlain e db r a : lawful e r -> lawful e (dropPlain db r a).
Proof. intros H k row. unfold dropPlain. rewrite lookup_delete. case_decide; [done | apply H]. Qed.

Lemma lawful_foldl {A} (e : engine) (f : rows -> A -> rows) l r :
  (forall r x, lawful e r -> lawful e (f r x)) -> lawful e r -> lawful e (foldl f r l).
Proof. intros Hf. revert r. induction l; cbn; eauto. Qed.

Lemma lawful_applyLevel e sv l accounts r db : lawful e r -> lawful e (applyLevel e sv l accounts r db).
Proof.
  intros H. unfold applyLevel. case_match; [apply lawful_foldl; [intros; by apply lawful_dropPlain |] |];
    (apply lawful_foldl; [intros; by apply lawful_setLevel | done]).
Qed.

(** Which rows this writes: those of the escaped names, and the plain ones. *)
Lemma setLevel_other e sv db l r accounts k :
  k ∉ map (fun a => (escapeGrantSchemaPattern db, a)) accounts -> foldl (setLevel e sv db l) r accounts !! k = r !! k.
Proof.
  revert r. induction accounts as [| a l' IH]; intros r Hk; [done |]. cbn [foldl map] in *.
  rewrite IH by set_solver. unfold setLevel. rewrite lookup_insert, decide_False by set_solver. done.
Qed.

Lemma levelRow_idem e sv db a l old :
  levelRow e sv db a l (levelRow e sv db a l old) = levelRow e sv db a l old.
Proof.
  apply set_eq. intros c. unfold levelRow. destruct l; [done | done | |];
    rewrite !elem_of_union, !elem_of_intersection, !elem_of_union, !elem_of_intersection; tauto.
Qed.

Lemma setLevel_these e sv db l r accounts a :
  a ∈ accounts ->
  foldl (setLevel e sv db l) r accounts !! (escapeGrantSchemaPattern db, a) =
  Some (levelRow e sv db a l (default ∅ (r !! (escapeGrantSchemaPattern db, a)))).
Proof.
  set (k := (escapeGrantSchemaPattern db, a)). revert r.
  induction accounts as [| b l' IH]; intros r Hin; [by apply elem_of_nil in Hin |]. cbn [foldl].
  destruct (decide (a ∈ l')) as [Ha | Ha].
  - rewrite IH by done. unfold setLevel. rewrite lookup_insert. case_decide as E; [| done].
    injection E as ->. cbn [default from_option id]. by rewrite levelRow_idem.
  - apply elem_of_cons in Hin as [<- | ?]; [| done].
    rewrite setLevel_other; [unfold setLevel; by rewrite lookup_insert, decide_True |].
    intros (x & [= <-] & ?)%list_elem_of_fmap. done.
Qed.

Lemma dropPlain_lookup db r accounts k :
  foldl (dropPlain db) r accounts !! k = if decide (k.1 = db /\ k.2 ∈ accounts) then None else r !! k.
Proof.
  revert r. induction accounts as [| a l IH]; intros r; cbn [foldl].
  - case_decide; [set_solver | done].
  - rewrite IH. unfold dropPlain. rewrite lookup_delete. destruct k as [d b]. cbn [fst snd].
    repeat case_decide; set_solver.
Qed.

(** No escaped name is the plain form of a name that is a pattern. *)
Lemma escape_no_backslash db : 92%N ∉ escapeGrantSchemaPattern db -> hasGrantWildcard db = false /\ escapeGrantSchemaPattern db = db.
Proof.
  induction db as [| c db IH]; [done |]. rewrite escape_cons. intros H.
  destruct (hasChar c "\_%") eqn:E; [set_solver |]. destruct IH as [IH1 IH2]; [set_solver |]. cbn. rewrite IH2.
  split; [| done]. apply orb_false_iff. split; [| done].
  apply hasChar_special in E as (E1 & _ & E3). rewrite E1, E3. done.
Qed.

Lemma plain_not_escaped db db' :
  plainName db' -> hasGrantWildcard db' = true -> db' <> escapeGrantSchemaPattern db.
Proof.
  intros Hp Hw E. destruct (escape_no_backslash db) as [Hf Hd].
  - rewrite <- E. intros Hin. unfold plainName in Hp. rewrite Forall_forall in Hp. by specialize (Hp _ Hin).
  - rewrite Hd in E. subst. by rewrite Hf in Hw.
Qed.

Lemma escape_inj db db' : escapeGrantSchemaPattern db = escapeGrantSchemaPattern db' -> db = db'.
Proof. intros E. apply escaped_reaches. rewrite <- E. by apply escaped_reaches. Qed.

Section Table.
Context (e : engine) (sv : server) (l : ManagedDatabasePrivilege) (accounts : list account).
Notation step := (applyLevel e sv l accounts).

Lemma applyLevel_escaped r db a :
  plainName db -> a ∈ accounts ->
  step r db !! (escapeGrantSchemaPattern db, a) =
  Some (levelRow e sv db a l (default ∅ (r !! (escapeGrantSchemaPattern db, a)))).
Proof.
  intros Hp Ha. unfold applyLevel. destruct (hasGrantWildcard db) eqn:Hw; [| by apply setLevel_these].
  rewrite dropPlain_lookup, decide_False; [by apply setLevel_these |]. cbn. intros [E _].
  by apply (plain_not_escaped db db Hp Hw).
Qed.

Lemma applyLevel_plain r db a :
  hasGrantWildcard db = true -> a ∈ accounts -> step r db !! (db, a) = None.
Proof. intros Hw Ha. unfold applyLevel. rewrite Hw, dropPlain_lookup, decide_True; done. Qed.

Lemma applyLevel_other r db k :
  (k.2 ∈ accounts -> k.1 <> escapeGrantSchemaPattern db /\ (hasGrantWildcard db = true -> k.1 <> db)) ->
  step r db !! k = r !! k.
Proof.
  intros Hk. unfold applyLevel. assert (foldl (setLevel e sv db l) r accounts !! k = r !! k) as Hs.
  { apply setLevel_other. intros (a & -> & Ha)%list_elem_of_fmap. by destruct (Hk Ha). }
  destruct (hasGrantWildcard db) eqn:Hw; [| done]. rewrite dropPlain_lookup, decide_False; [done |].
  intros [E Ha]. by destruct (Hk Ha) as [_ []].
Qed.

Lemma applied_other dbs r k :
  (k.2 ∈ accounts -> forall db, db ∈ dbs ->
     k.1 <> escapeGrantSchemaPattern db /\ (hasGrantWildcard db = true -> k.1 <> db)) ->
  foldl step r dbs !! k = r !! k.
Proof.
  revert r. induction dbs as [| d ds IH]; intros r Hk; [done |]. cbn [foldl]. rewrite IH.
  - apply applyLevel_other. intros Ha. apply (Hk Ha). set_solver.
  - intros Ha db Hdb. apply (Hk Ha). set_solver.
Qed.
Context (dbs : list jstring) (Hdbs : Forall plainName dbs).

Lemma applied_escaped r db a :
  db ∈ dbs -> a ∈ accounts ->
  foldl step r dbs !! (escapeGrantSchemaPattern db, a) =
  Some (levelRow e sv db a l (default ∅ (r !! (escapeGrantSchemaPattern db, a)))).
Proof.
  intros Hdb Ha. revert r. induction Hdbs as [| d ds Hd Hds IH]; intros r; [by apply elem_of_nil in Hdb |]. cbn [foldl].
  assert (plainName db) as Hp by (rewrite Forall_forall in Hdbs; by apply Hdbs).
  destruct (decide (d = db)) as [-> | Hne].
  - destruct (decide (db ∈ ds)) as [Hin | Hout].
    + rewrite IH by done. rewrite applyLevel_escaped by done. cbn [default from_option id]. by rewrite levelRow_idem.
    + rewrite applied_other; [by apply applyLevel_escaped |]. cbn. intros _ d Hd'.
      split; [by intros <-%escape_inj |]. intros Hw E. rewrite Forall_forall in Hds.
      by apply (plain_not_escaped db d (Hds d Hd') Hw).
  - rewrite IH by set_solver. f_equal. f_equal. f_equal. apply applyLevel_other. cbn. intros _.
    split; [by intros E%escape_inj |]. intros Hw E. by apply (plain_not_escaped db d).
Qed.

Lemma applied_plain r db a :
  db ∈ dbs -> hasGrantWildcard db = true -> a ∈ accounts -> foldl step r dbs !! (db, a) = None.
Proof.
  intros Hdb Hw Ha. assert (plainName db) as Hp by (rewrite Forall_forall in Hdbs; by apply Hdbs).
  assert (forall ds r, Forall plainName ds -> r !! (db, a) = None -> foldl step r ds !! (db, a) = None) as Hstay.
  { induction ds as [| d ds IH]; intros r' H Hr; [done |]. apply Forall_cons in H as [Hd H]. cbn [foldl].
    apply IH; [done |]. destruct (decide (hasGrantWildcard d = true /\ d = db)) as [[Hd' ->] | Hne].
    - by apply applyLevel_plain.
    - rewrite applyLevel_other; [done |]. cbn. intros _. split; [by apply plain_not_escaped | naive_solver]. }
  destruct (list_elem_of_split dbs db Hdb) as (ds1 & ds2 & E). rewrite E in Hdbs |- *.
  apply Forall_app in Hdbs as [_ [_ Hds]%Forall_cons]. rewrite foldl_app. cbn [foldl].
  apply Hstay; [done |]. by apply applyLevel_plain.
Qed.
End Table.

(** ** The scripts of a login, one after the other *)

Lemma mapM_each {E A B} (f : A -> result E B) (P : A -> B -> Prop) l :
  (forall x, x ∈ l -> exists y, f x = Ok y /\ P x y) -> exists ys, mapM f l = Ok ys /\ Forall2 P l ys.
Proof.
  induction l as [| x l IH]; intros H; [exists []; split; [done | constructor] |].
  destruct (H x) as (y & Hy & Hp); [set_solver |]. destruct IH as (ys & Hys & Hall); [set_solver |].
  exists (y :: ys). split; [| by constructor]. cbn [mapM]. rewrite Hy. cbn [mbind result_bind]. by rewrite Hys.
Qed.

Lemma mapM_over_map {E A B C} (f : B -> result E C) (g : A -> B) l : mapM f (map g l) = mapM (fun x => f (g x)) l.
Proof. induction l as [| x l IH]; [done |]. cbn [map mapM]. by rewrite IH. Qed.

Lemma levelRow_same e sv sv' : sameRest sv sv' -> levelRow e sv' = levelRow e sv.
Proof. intros (_ & _ & E). unfold levelRow, keptColumns, defines. by rewrite E. Qed.

Lemma setLevel_same e sv sv' : sameRest sv sv' -> setLevel e sv' = setLevel e sv.
Proof. intros H. unfold setLevel. by rewrite (levelRow_same e sv sv' H). Qed.

(** Scripts that each act on the rows as [f] says act together as their fold. *)
Lemma exec_each {A} (e : engine) (S : A -> list stmt) (f : rows -> A -> rows) sv0 l :
  (forall x sv, x ∈ l -> lawful e (svRows sv) -> sameRest sv0 sv ->
     exists sv', execAll e (S x) sv = Some sv' /\ svRows sv' = f (svRows sv) x /\ sameRest sv sv') ->
  (forall r x, lawful e r -> lawful e (f r x)) ->
  forall sv, lawful e (svRows sv) -> sameRest sv0 sv ->
    exists sv', execAll e (mjoin (map S l)) sv = Some sv' /\ svRows sv' = foldl f (svRows sv) l /\ sameRest sv sv'.
Proof.
  intros Hx Hf. induction l as [| x l IH]; intros sv Hl Hs; [by exists sv |]. cbn [foldl].
  change (mjoin (map S (x :: l))) with (S x ++ mjoin (map S l)).
  rewrite execAll_app. destruct (Hx x sv) as (sv1 & -> & Hr1 & Hs1); [by left | done | done |]. cbn [mbind option_bind].
  destruct (IH ltac:(intros; apply Hx; [by right | done | done]) sv1) as (sv2 & -> & Hr2 & Hs2).
  { rewrite Hr1. by apply Hf. } { by transitivity sv. }
  exists sv2. split_and!; [done | by rewrite Hr2, Hr1 | by transitivity sv1].
Qed.

Lemma inOrder_app {W A} (step : A -> sqlM W unit) a b w :
  inOrder step (a ++ b) w = ('_ ← inOrder step a; inOrder step b) w.
Proof.
  revert w. induction a as [| x a IH]; intros w; [done |]. cbn [app inOrder].
  unfold mbind, sqlM_bind. destruct (step x w) as [[[] | err] w1]; [| done]. by rewrite IH.
Qed.

Section Login.
Context (e : engine) (q : GrantQuoting) `{!QuotingLaws e q} (D : jstring).
Context (run : jstring -> sqlM server unit).
Context (Hrun : forall sql sv sv', runScript e sql sv = Some sv' -> run sql sv = (Ok tt, sv')).
Context (u : jstring) (hosts : list jstring) (l : ManagedDatabasePrivilege) (sv0 : server).
Context (Hu : goodName 32 u) (Hhosts : Forall cleanText (D :: hosts)).
Context (Haccounts : forall h, h ∈ D :: hosts -> is_Some (svAccounts sv0 !! Account u h)).

Let accounts : list account := map (Account u) (D :: hosts).
Let builders : GrantSql := grantSqlFor q D.

Definition grantableName (db : jstring) : Prop :=
  goodName 64 db /\ (length (escapeGrantSchemaPattern db) <= GRANT_SCHEMA_MAX_LENGTH)%nat.

Lemma run_parts {A} (S : A -> list stmt) (f : rows -> A -> rows) (xs : list A) parts sv :
  Forall2 (fun x sql => reads sql (S x)) xs parts ->
  (forall x sv, x ∈ xs -> lawful e (svRows sv) -> sameRest sv0 sv ->
     exists sv', execAll e (S x) sv = Some sv' /\ svRows sv' = f (svRows sv) x /\ sameRest sv sv') ->
  (forall r x, lawful e r -> lawful e (f r x)) ->
  lawful e (svRows sv) -> sameRest sv0 sv ->
  exists sv', run (join [10%N] parts) sv = (Ok tt, sv') /\ svRows sv' = foldl f (svRows sv) xs /\ sameRest sv sv'.
Proof.
  intros Hr Hx Hf Hl Hs. destruct (exec_each e S f sv0 xs Hx Hf sv Hl Hs) as (sv' & Hex & Hrows & Hrest).
  exists sv'. split_and!; [| done | done]. apply Hrun. unfold runScript.
  rewrite (reads_statements _ (mjoin (map S xs))); [exact Hex |]. apply reads_join.
  apply Forall2_fmap_r. by apply Forall2_flip.
Qed.

Lemma level_step db sv :
  grantableName db -> lawful e (svRows sv) -> sameRest sv0 sv ->
  exists first others,
    grantDatabaseSql builders db u l None = Ok first /\
    mapM (fun host => grantDatabaseSql builders db u l (Some host)) hosts = Ok others /\
    exists sv', run (join [10%N] (first :: others)) sv = (Ok tt, sv') /\
      svRows sv' = foldl (setLevel e sv0 db l) (svRows sv) accounts /\ sameRest sv sv'.
Proof.
  intros [Hd Hf] Hl Hs. pose proof (proj1 (proj2 (proj2 Hd))) as Hpd. pose proof (proj1 (proj2 (proj2 Hu))) as Hpu.
  destruct (mapM_each (fun h => grantOnDatabaseSql q db u l h)
    (fun h sql => reads sql (grantStmts e db (Account u h) l)) (D :: hosts)) as (parts & Hm & Hall).
  { intros h Hin. rewrite Forall_forall in Hhosts. destruct (grant_returns e q db u l h) as [sql Hsql].
    { by split; [| | | apply Hhosts]. } exists sql. split; [done |]. by eapply grant_reads. }
  cbn [mapM] in Hm. apply bind_Ok in Hm as (first & Hfirst & (others & Hothers & <-%Ok_inj)%bind_Ok).
  exists first, others. split_and!; [done | done |].
  destruct (run_parts (fun h => grantStmts e db (Account u h) l) (fun r h => setLevel e sv0 db l r (Account u h))
              (D :: hosts) (first :: others) sv) as (sv' & Hr & Hrows & Hrest); [done | | | done | done |].
  - intros h sv1 Hin Hl1 Hs1. rewrite <- (setLevel_same e sv0 sv1 Hs1).
    apply (exec_level e db u h l sv1); [done | done | | by apply lawful_row].
    destruct Hs1 as [-> _]. by apply Haccounts.
  - intros r h. apply lawful_setLevel.
  - exists sv'. split_and!; [done | | done]. rewrite Hrows. subst accounts. by rewrite foldl_fmap.
Qed.

Lemma plain_step db sv :
  goodName 64 db -> lawful e (svRows sv) -> sameRest sv0 sv ->
  exists parts, mapM (revokePlainDatabaseGrantSql builders db u) (None :: map Some hosts) = Ok parts /\
    exists sv', run (join [10%N] parts) sv = (Ok tt, sv') /\
      svRows sv' = foldl (dropPlain db) (svRows sv) accounts /\ sameRest sv sv'.
Proof.
  intros Hd Hl Hs. pose proof (proj1 (proj2 (proj2 Hd))) as Hpd. pose proof (proj1 (proj2 (proj2 Hu))) as Hpu.
  set (S := fun h => plainStmts (REVOKE_ALL (db, Account u h)) (db, Account u h) ++
                     plainStmts (REVOKE_OPTION (db, Account u h)) (db, Account u h)).
  destruct (mapM_each (fun h => revokePlainPatternGrantSql q db u h) (fun h sql => reads sql (S h)) (D :: hosts))
    as (parts & Hm & Hall).
  { intros h Hin. rewrite Forall_forall in Hhosts. destruct (plain_returns e q db u h) as [sql Hsql]; [done | done | by apply Hhosts |].
    exists sql. split; [done |]. by apply (plain_reads e q) in Hsql as (_ & _ & Hsql). }
  exists parts. split.
  { rewrite <- Hm. cbn [mapM]. rewrite mapM_over_map. reflexivity. }
  destruct (run_parts S (fun r h => dropPlain db r (Account u h)) (D :: hosts) parts sv)
    as (sv' & Hr & Hrows & Hrest); [done | | | done | done |].
  - intros h sv1 Hin Hl1 Hs1. apply (exec_plain e (db, Account u h) sv1); [done | done | | by apply lawful_row].
    destruct Hs1 as [-> _]. by apply Haccounts.
  - intros r h. apply lawful_dropPlain.
  - exists sv'. split_and!; [done | | done]. rewrite Hrows. subst accounts. by rewrite foldl_fmap.
Qed.

Lemma databases_run dbs privs sv :
  strongestPrivilege privs = Some l -> Forall grantableName dbs -> lawful e (svRows sv) -> sameRest sv0 sv ->
  exists sv', grantDatabasePrivileges dbs privs u hosts (grantDatabaseSql builders)
      (Some (revokePlainDatabaseGrantSql builders)) run sv = (Ok tt, sv') /\
    svRows sv' = foldl (applyLevel e sv0 l accounts) (svRows sv) dbs /\ sameRest sv sv'.
Proof.
  intros Hp Hdbs. unfold grantDatabasePrivileges, grantSteps. rewrite Hp.
  match goal with |- context [inOrder ?f _] => set (step := f) end.
  revert sv. induction Hdbs as [| db dbs Hdb _ IH]; intros sv Hl Hs; [by exists sv |].
  set (more := if negb (bool_decide ([l] = [])) && true && hasGrantWildcard db
               then [(db, @None ManagedDatabasePrivilege)] else []).
  match goal with |- context [inOrder step (?x ≫= ?f)] =>
    change (x ≫= f) with (([(db, Some l)] ++ more) ++ (dbs ≫= f)) end.
  assert (exists sv1, inOrder step ([(db, Some l)] ++ more) sv = (Ok tt, sv1) /\
            svRows sv1 = applyLevel e sv0 l accounts (svRows sv) db /\ sameRest sv sv1) as (sv1 & H1 & Hr1 & Hs1).
  { destruct (level_step db sv Hdb Hl Hs) as (first & others & Hf & Ho & sv1 & Hrun1 & Hr1 & Hs1).
    assert (step (db, Some l) sv = (Ok tt, sv1)) as Hstep.
    { unfold step, mbind, sqlM_bind, liftR. rewrite Hf, Ho. exact Hrun1. }
    cbn [app inOrder]. unfold mbind, sqlM_bind. rewrite Hstep. unfold applyLevel. subst more.
    rewrite bool_decide_eq_false_2 by done. cbn [negb andb].
    destruct (hasGrantWildcard db); [| by exists sv1].
    destruct (plain_step db sv1) as (parts & Hm & sv2 & Hrun2 & Hr2 & Hs2); [by destruct Hdb | | by transitivity sv |].
    { rewrite Hr1. apply lawful_foldl; [intros; by apply lawful_setLevel | done]. }
    exists sv2. split_and!; [| by rewrite Hr2, Hr1 | by transitivity sv1].
    cbn [inOrder]. unfold step, mbind, sqlM_bind, liftR. rewrite Hm. by rewrite Hrun2. }
  destruct (IH sv1) as (sv2 & H2 & Hr2 & Hs2).
  { rewrite Hr1. by apply lawful_applyLevel. } { by transitivity sv. }
  exists sv2. split_and!; [| by rewrite Hr2, Hr1 | by transitivity sv1].
  rewrite inOrder_app. unfold mbind at 1, sqlM_bind. by rewrite H1.
Qed.
End Login.

(** ** Accounts *)

Definition accountStmts (u p : jstring) (hosts : list jstring) : list stmt :=
  hosts ≫= (fun h => [CreateUser (Account u h) (Password p); AlterUser (Account u h) (Password p)]).

Definition withAccounts (u p : jstring) (m : gmap account auth) (hosts : list jstring) : gmap account auth :=
  foldl (fun m h => <[Account u h := Password p]> m) m hosts.

Lemma exec_accounts e u p hosts sv :
  execAll e (accountStmts u p hosts) sv = Some (setAccounts (withAccounts u p (svAccounts sv) hosts) sv).
Proof.
  revert sv. induction hosts as [| h hosts IH]; intros sv; [by destruct sv |].
  change (accountStmts u p (h :: hosts)) with
    ([CreateUser (Account u h) (Password p); AlterUser (Account u h) (Password p)] ++ accountStmts u p hosts).
  rewrite execAll_app.
  assert (execAll e [CreateUser (Account u h) (Password p); AlterUser (Account u h) (Password p)] sv =
          Some (setAccounts (<[Account u h := Password p]> (svAccounts sv)) sv)) as ->;
    [| cbn [mbind option_bind]; by rewrite IH].
  cbn [execAll exec execDirect]. destruct (svAccounts sv !! Account u h) eqn:E; cbn.
  - by rewrite E.
  - rewrite lookup_insert, decide_True by done. cbn. by rewrite insert_insert_eq.
Qed.

Lemma withAccounts_these u p m hosts h :
  h ∈ hosts -> withAccounts u p m hosts !! Account u h = Some (Password p).
Proof.
  intros Hin.
  assert (forall hs m, m !! Account u h = Some (Password p) ->
    withAccounts u p m hs !! Account u h = Some (Password p)) as Hstay.
  { induction hs as [| x hs IH]; intros m' Hm; [done |]. apply IH. rewrite lookup_insert. by case_decide. }
  destruct (list_elem_of_split hosts h Hin) as (a & b & ->). unfold withAccounts. rewrite foldl_app. cbn [foldl].
  apply Hstay. by rewrite lookup_insert, decide_True.
Qed.

Lemma withAccounts_other u p m hosts a :
  (acUser a = u -> acHost a ∉ hosts) -> withAccounts u p m hosts !! a = m !! a.
Proof.
  intros Ha. unfold withAccounts. revert m. induction hosts as [| h hosts IH]; intros m; [done |]. cbn [foldl].
  rewrite IH by (intros E; specialize (Ha E); set_solver). rewrite lookup_insert, decide_False; [done |].
  intros <-. by apply Ha; [| left].
Qed.

(** ** Logins *)

(** The client runs a script as the server does, silently; what else it is asked
    to run is open. *)
Definition clientRuns (e : engine) (client : jstring) (ctx : ManagedEngineContext server) : Prop :=
  forall sql sv sv', runScript e sql sv = Some sv' ->
    execIn ctx [client; "--protocol=socket"; "-u"; rootUsername ctx] (Some sql) sv = (ExecOutcome true [] [], sv').

Lemma runSql_runs e client ctx sql sv sv' :
  clientRuns e client ctx -> runScript e sql sv = Some sv' -> runSql client ctx sql sv = (Ok tt, sv').
Proof.
  intros Hc Hr. unfold runSql, mbind, sqlM_bind, execClient. by rewrite (Hc sql sv sv' Hr).
Qed.

(** ** What the dialects' quoting functions do

    Both dialects test and replace in the same way. *)

Lemma replace_escapes v : replaceChar 39 "\'" (replaceChar 92 "\\" v) = escapeLiteral v.
Proof.
  induction v as [| c v IH]; [done |].
  change (replaceChar 92 "\\" (c :: v)) with ((if (c =? 92)%N then "\\"%js else [c]) ++ replaceChar 92 "\\" v).
  unfold replaceChar at 1. rewrite bind_app. fold (replaceChar 39 "\'" (replaceChar 92 "\\" v)). rewrite IH.
  change (escapeLiteral (c :: v)) with
    ((if (c =? 92)%N then [92; 92]%N else if (c =? 39)%N then [92; 39]%N else [c]) ++ escapeLiteral v).
  f_equal. destruct (N.eqb_spec c 92) as [-> | E]; [done |]. cbn. by destruct (c =? 39)%N.
Qed.

Lemma ticks_plain v : plainName v -> replaceChar 96 "``" v = v.
Proof.
  induction 1 as [| c v Hc _ IH]; [done |].
  change (replaceChar 96 "``" (c :: v)) with ((if (c =? 96)%N then "``"%js else [c]) ++ replaceChar 96 "``" v).
  rewrite IH. by rewrite (proj2 (N.eqb_neq c 96)) by (by apply is_word_plain).
Qed.

Definition identifierTest (v : jstring) : bool :=
  match v with [] => false | c :: rest => (is_alpha c || (c =? 95)%N) && forallb is_word rest end.

Lemma identifier_plain v : identifierTest v = true -> plainName v.
Proof.
  destruct v as [| c v]; [done |]. cbn. intros [Hc Hv]%andb_true_iff. constructor.
  - unfold is_word, is_alnum. by destruct (is_alpha c), (c =? 95)%N, (is_digit c).
  - by apply Forall_forall; intros x Hx%list_elem_of_In; rewrite forallb_forall in Hv; apply Hv.
Qed.

Lemma identifier_good n v :
  goodName n v ->
  bool_decide (length v = 0)%nat || bool_decide (n < length v)%nat || negb (identifierTest v) = false.
Proof.
  intros (Hne & Hlen & Hp & Hd). rewrite !bool_decide_eq_false_2; [| lia | by destruct v].
  destruct v as [| c v]; [done |]. cbn. apply Forall_cons in Hp as [Hc Hp]. apply Forall_cons in Hd as [Hdc _].
  unfold is_word, is_alnum in Hc. rewrite Hdc in Hc.
  assert (forallb is_word v = true) as ->.
  { apply forallb_forall. intros x Hx%list_elem_of_In. unfold plainName in Hp. rewrite Forall_forall in Hp. by apply Hp. }
  by destruct (is_alpha c), (c =? 95)%N.
Qed.

Lemma control_clean v : existsb (fun c => (c <=? 31)%N || (c =? 127)%N) v = false <-> cleanText v.
Proof. apply existsb_false_iff. Qed.
