(* ===== verification/SqlMysql.v ===== *)
(** * SQL of managed MySQL

    [managed/engines/mysql-sql.ts], and how [mysql.ts] applies a login. *)

From S2P Require Import Prelude.
From S2P Require Import Json.
From S2P Require Import Log.
From S2P Require Import SqlServer.
From S2P Require Import SqlGrants.
From S2P Require Import SqlGranted.
From S2P Require Import SqlParts.
From S2P Require Import SqlLogins.

(** ** Quoting *)

Definition ACCOUNT_MAX_LENGTH : nat := 32.
Definition SCHEMA_MAX_LENGTH : nat := 64.

(** [/^[A-Za-z_]\w*$/] *)
Definition IDENTIFIER_RE (value : jstring) : bool :=
  match value with
  | [] => false
  | c :: rest => (is_alpha c || (c =? 95)%N) && forallb is_word rest
  end.

(** [/[\u0000-\u001F\u007F]/] *)
Definition CONTROL_CHAR_RE (value : jstring) : bool :=
  existsb (fun c => (c <=? 31)%N || (c =? 127)%N) value.

Definition MANAGED_DOCKER_NETWORK_HOST : jstring := "172.16.0.0/255.240.0.0".

Definition quoteIdentifier (value : jstring) (maxLength : nat) : text :=
  if bool_decide (length value = 0)%nat || bool_decide (maxLength < length value)%nat || negb (IDENTIFIER_RE value)
  then Throw ("invalid mysql identifier: " ++ value)
  else Ok ("`" ++ replaceChar 96 "``" value ++ "`").

Definition quoteAccount (value : jstring) : text := quoteIdentifier value ACCOUNT_MAX_LENGTH.

Definition quoteLiteral (value : jstring) : text :=
  if CONTROL_CHAR_RE value then Throw "mysql literal contains control characters"
  else Ok ("'" ++ replaceChar 39 "\'" (replaceChar 92 "\\" value) ++ "'").

Definition accountAt (username host : jstring) : text :=
  u ← quoteAccount username;
  h ← quoteLiteral host;
  Ok (u ++ "@" ++ h).

(** ** Accounts and databases *)

Definition createOrAlterAccountSql (username password host : jstring) : text :=
  account ← accountAt username host;
  lit ← quoteLiteral password;
  Ok (lines ["CREATE USER IF NOT EXISTS " ++ account ++ " IDENTIFIED BY " ++ lit ++ ";";
             "ALTER USER " ++ account ++ " IDENTIFIED BY " ++ lit ++ ";"]).

Definition ensureProxySqlMonitorAccountSql (username password : jstring) (extraHosts : list jstring) : text :=
  lit ← quoteLiteral password;
  let hosts := distinct (MANAGED_DOCKER_NETWORK_HOST :: extraHosts) in
  parts ← mapM (fun host =>
    account ← accountAt username host;
    Ok (["CREATE USER IF NOT EXISTS " ++ account ++ " IDENTIFIED BY " ++ lit ++ ";";
         "ALTER USER " ++ account ++ " IDENTIFIED BY " ++ lit ++ ";";
         "GRANT USAGE, PROCESS, REPLICATION CLIENT ON *.* TO " ++ account ++ ";"] : list jstring)) hosts;
  Ok (lines (mjoin parts)).

Definition dropAccountSql (username : jstring) (hosts : list jstring) : text :=
  parts ← mapM (fun host =>
    account ← accountAt username host;
    Ok ("DROP USER IF EXISTS " ++ account ++ ";")) (distinct hosts);
  Ok (lines parts).

Definition createDatabaseSql (name : jstring) : text :=
  db ← quoteIdentifier name SCHEMA_MAX_LENGTH;
  Ok ("CREATE DATABASE IF NOT EXISTS " ++ db ++ " CHARACTER SET utf8mb4 COLLATE utf8mb4_unicode_ci;").

Definition dropDatabaseSql (name : jstring) : text :=
  db ← quoteIdentifier name SCHEMA_MAX_LENGTH;
  Ok ("DROP DATABASE IF EXISTS " ++ db ++ ";").

(** ** Grants *)

Definition quoting : GrantQuoting := {|
  SqlGrants.quoteIdentifier value := quoteIdentifier value SCHEMA_MAX_LENGTH;
  SqlGrants.quoteLiteral := quoteLiteral;
  SqlGrants.accountAt := accountAt;
  extraPrivileges := None;
  backupPrivileges := ["SELECT"; "SHOW VIEW"; "TRIGGER"; "EVENT"; "SHOW_ROUTINE"; "FLUSH_TABLES"] |}.

Definition grantSql : GrantSql := grantSqlFor quoting MANAGED_DOCKER_NETWORK_HOST.

Definition grantRootSql (username host : jstring) : text :=
  account ← accountAt username host;
  Ok ("GRANT ALL PRIVILEGES ON *.* TO " ++ account ++ " WITH GRANT OPTION;").

Definition grantReplicationSql (username host : jstring) : text :=
  account ← accountAt username host;
  Ok (lines ["GRANT SELECT, RELOAD, PROCESS, LOCK TABLES, SHOW VIEW, EVENT, TRIGGER, " ++
             "REPLICATION SLAVE, REPLICATION CLIENT ON *.* TO " ++ account ++ ";";
             "ALTER USER " ++ account ++ " REQUIRE SSL;"]).

Definition ensureReplicationAccountSql (username password : jstring) (peerAddresses : list jstring) : text :=
  let at_ (host : jstring) : result jstring (list jstring) :=
    a ← createOrAlterAccountSql username password host;
    g ← grantReplicationSql username host;
    Ok [a; g] in
  parts ← mapM at_ peerAddresses;
  fallback ← (match peerAddresses with [] => at_ MANAGED_DOCKER_NETWORK_HOST | _ => Ok [] end);
  Ok (lines (mjoin parts ++ fallback ++ ["FLUSH PRIVILEGES;" : jstring])).

Definition createAccountsAt (username password : jstring) (hosts : list jstring) : text :=
  parts ← mapM (createOrAlterAccountSql username password) hosts;
  Ok (lines parts).

Definition createClientAccountSql (username password : jstring) (extraHosts : list jstring) : text :=
  createAccountsAt username password
    (distinct (MANAGED_DOCKER_NETWORK_HOST :: ("localhost" : jstring) :: extraHosts)).

Definition createNetworkAccountSql (username password : jstring) (extraHosts : list jstring) : text :=
  createAccountsAt username password (distinct (MANAGED_DOCKER_NETWORK_HOST :: extraHosts)).

Definition withoutSessionBinlogSql (sql : jstring) : jstring :=
  lines ["SET SESSION sql_log_bin = 0;"; trim sql; "SET SESSION sql_log_bin = 1;"].

Definition resetReplicaGtidStateSql : jstring := "RESET BINARY LOGS AND GTIDS;".

Definition flushPrivilegesLocalSql : jstring := withoutSessionBinlogSql "FLUSH PRIVILEGES;".

Definition ensureSocketAdminSql (osUser : jstring) : text :=
  r ← accountAt "root" "localhost";
  o ← accountAt osUser "localhost";
  Ok (socketAdminSql r o "WITH auth_socket").

(** ** Replication *)

Definition disableReadOnlySql : jstring :=
  lines ["SET GLOBAL super_read_only = OFF;"; "SET GLOBAL read_only = OFF;"].
Definition enforceReadOnlySql : jstring :=
  lines ["SET GLOBAL read_only = ON;"; "SET GLOBAL super_read_only = ON;"].
Definition seedWindowReadOnlySql : jstring :=
  lines ["SET GLOBAL read_only = ON;"; "SET GLOBAL super_read_only = OFF;"].
Definition promoteSql : jstring :=
  lines ["STOP REPLICA;"; "RESET REPLICA ALL;"; "SET GLOBAL super_read_only = OFF;";
         "SET GLOBAL read_only = OFF;"].

Definition waitForExecutedGtidSetSql (gtidSet : jstring) (timeoutSeconds : N) : text :=
  g ← quoteLiteral gtidSet;
  Ok ("SELECT WAIT_FOR_EXECUTED_GTID_SET(" ++ g ++ ", " ++ decimalText timeoutSeconds ++ ");").

Definition MYSQL_REPLICA_CONNECT_RETRY_SECONDS : N := 10.
Definition MYSQL_REPLICA_RETRY_COUNT : N := (7 * 86400) / MYSQL_REPLICA_CONNECT_RETRY_SECONDS.

Definition startReplicaSql : jstring := "START REPLICA;".

Definition changeReplicationSourceSql (host : jstring) (port : N) (username password : jstring) : text :=
  h ← quoteLiteral host;
  u ← quoteLiteral username;
  p ← quoteLiteral password;
  Ok (lines ["CHANGE REPLICATION SOURCE TO"; "  SOURCE_HOST = " ++ h ++ ",";
    "  SOURCE_PORT = " ++ decimalText port ++ ","; "  SOURCE_USER = " ++ u ++ ",";
    "  SOURCE_PASSWORD = " ++ p ++ ","; "  SOURCE_AUTO_POSITION = 1,"; "  SOURCE_SSL = 1,";
    "  SOURCE_SSL_CA = '/etc/mysql/tls/ca.crt',"; "  SOURCE_SSL_VERIFY_SERVER_CERT = 1,";
    "  SOURCE_CONNECT_RETRY = " ++ decimalText MYSQL_REPLICA_CONNECT_RETRY_SECONDS ++ ",";
    "  SOURCE_RETRY_COUNT = " ++ decimalText MYSQL_REPLICA_RETRY_COUNT ++ ";"; startReplicaSql]).

Definition MYSQL_FOLLOW_SOURCE_DIALECT : FollowSourceDialect := {|
  stop := "STOP REPLICA"; change := "CHANGE REPLICATION SOURCE TO"; hostKey := "SOURCE_HOST";
  portKey := "SOURCE_PORT"; start := "START REPLICA" |}.

Definition followReplicationSourceSql (host : jstring) (port : N) : text :=
  renderFollowSourceSql MYSQL_FOLLOW_SOURCE_DIALECT host port quoteLiteral.

(** ** Applying logins ([mysql.ts]) *)

Section Apply.
Context {W : Type} (ctx : ManagedEngineContext W).

Definition runMysql : jstring -> sqlM W unit := runSql "mysql" ctx.
Definition runMysqlQuery : jstring -> sqlM W jstring := runQuery "mysql" ctx.

Definition installAuthSocketPluginSql : jstring :=
  withoutSessionBinlogSql "INSTALL PLUGIN auth_socket SONAME 'auth_socket.so';".
Definition authSocketPluginPresentSql : jstring :=
  "SELECT PLUGIN_NAME FROM INFORMATION_SCHEMA.PLUGINS WHERE PLUGIN_NAME = 'auth_socket'".

Definition ensureAuthSocketPlugin : sqlM W unit :=
  out ← runMysqlQuery authSocketPluginPresentSql;
  match trim out with
  | _ :: _ => mret tt
  | [] =>
      r ← execClient "mysql" ctx ["mysql"; "--protocol=socket"; "-u"; rootUsername ctx]
            (Some installAuthSocketPluginSql);
      if success r then mret tt
      else if includes "already exists" (stderr r ++ [10%N] ++ stdout r) then mret tt
      else liftR (Throw ("mysql failed: " ++ sanitizeForLog (failureDetail r)))
  end.

Definition applyOneCredential (c : ManagedApplyCredential) : sqlM W unit :=
  let hosts := default [] (clientSourceHosts ctx) in
  if decide (role c = "root") then
    '_ ← ensureAuthSocketPlugin;
    network ← liftR (createNetworkAccountSql (username c) (password c) hosts);
    here ← liftR (grantRootSql (username c) MANAGED_DOCKER_NETWORK_HOST);
    there ← liftR (mapM (fun host => grantRootSql (username c) host) hosts);
    admin ← liftR (ensureSocketAdminSql "mysql");
    runMysql (lines ([network; here] ++ there ++ [admin; "FLUSH PRIVILEGES;" : jstring]))
  else if decide (role c = "replication") then
    sql ← liftR (ensureReplicationAccountSql (username c) (password c) []);
    runMysql sql
  else
    sql ← liftR (createClientAccountSql (username c) (password c) hosts);
    '_ ← runMysql sql;
    '_ ← (if isBackupCredential c then
            grantBackupPrivileges (username c) hosts (grantBackupSql grantSql) runMysql
          else
            grantDatabasePrivileges (grantableDatabases c) (default [] (privileges c)) (username c) hosts
              (grantDatabaseSql grantSql) (Some (revokePlainDatabaseGrantSql grantSql)) runMysql);
    runMysql "FLUSH PRIVILEGES;".

Definition applyCredentials (credentials : list ManagedApplyCredential) : sqlM W (list jstring) :=
  '_ ← inOrder applyOneCredential credentials;
  mret (map username credentials).

Definition ensureProxySqlMonitor (user password : jstring) : sqlM W unit :=
  sql ← liftR (ensureProxySqlMonitorAccountSql user password (default [] (clientSourceHosts ctx)));
  runMysql sql.

Definition applyDatabases (ops : list (bool * jstring)) : sqlM W (list jstring) :=
  '_ ← inOrder (fun '(create, nm) =>
    sql ← liftR (if create : bool then createDatabaseSql nm else dropDatabaseSql nm);
    runMysql sql) ops;
  mret (map snd ops).

Definition dropUsers (usernames : list jstring) : sqlM W (list jstring) :=
  let others := filter (fun user => user <> rootUsername ctx) usernames in
  '_ ← inOrder (fun user =>
    dropUserOnEveryHost user [MANAGED_DOCKER_NETWORK_HOST; "localhost"] quoteLiteral runMysqlQuery runMysql
      dropAccountSql) others;
  mret others.
End Apply.

(** ** The dialect's promises *)

Lemma mysql_literal_ok v : cleanText v -> quoteLiteral v = Ok (quotedText v).
Proof. intros H. unfold quoteLiteral, CONTROL_CHAR_RE. rewrite (proj2 (control_clean v) H). by rewrite replace_escapes. Qed.

Lemma mysql_literal_text v t : quoteLiteral v = Ok t -> t = quotedText v.
Proof. unfold quoteLiteral. case_match; [done |]. intros <-%Ok_inj. by rewrite replace_escapes. Qed.

Lemma mysql_identifier_ok n v : goodName n v -> quoteIdentifier v n = Ok (inTicks v).
Proof.
  intros H. unfold quoteIdentifier. rewrite (identifier_good n v H : _ || _ || negb (IDENTIFIER_RE v) = false).
  by rewrite ticks_plain by apply H.
Qed.

Lemma mysql_identifier_text n v t : quoteIdentifier v n = Ok t -> t = inTicks v /\ plainName v.
Proof.
  unfold quoteIdentifier. destruct (_ || _ || negb (IDENTIFIER_RE v)) eqn:E; [done |]. intros <-%Ok_inj.
  apply orb_false_iff in E as [_ E%negb_false_iff]. pose proof (identifier_plain v E) as Hp. by rewrite ticks_plain.
Qed.

Lemma mysql_account_text u h t : accountAt u h = Ok t -> t = inTicks u ++ "@" ++ quotedText h /\ plainName u.
Proof.
  unfold accountAt, quoteAccount.
  intros (a & [-> Hu]%mysql_identifier_text & (b & ->%mysql_literal_text & <-%Ok_inj)%bind_Ok)%bind_Ok. done.
Qed.

#[global] Instance mysql_laws : QuotingLaws MySQL quoting.
Proof.
  split; [exact mysql_literal_ok | exact (mysql_identifier_ok 64) | | exact mysql_literal_text |
          exact (mysql_identifier_text 64) | exact mysql_account_text | done].
  intros u h Hu Hh. change (accountAt u h = Ok (inTicks u ++ "@" ++ quotedText h)).
  unfold accountAt, quoteAccount, ACCOUNT_MAX_LENGTH. rewrite (mysql_identifier_ok 32 u Hu). cbn [mbind result_bind].
  by rewrite (mysql_literal_ok h Hh).
Qed.
