(* ===== verification/SqlMariadb.v ===== *)
(** * SQL of managed MariaDB

    [managed/engines/mariadb-sql.ts], and how [mariadb.ts] applies a login. *)

From S2P Require Import Prelude.
From S2P Require Import Json.
From S2P Require Import Log.
From S2P Require Import SqlServer.
From S2P Require Import SqlGrants.
From S2P Require Import SqlGranted.
From S2P Require Import SqlParts.
From S2P Require Import SqlLogins.

(** ** Quoting *)

Definition ACCOUNT_MAX_LENGTH : nat := 32.
Definition SCHEMA_MAX_LENGTH : nat := 64.

(** [/^[A-Za-z_]\w*$/] *)
Definition IDENTIFIER_RE (value : jstring) : bool :=
  match value with
  | [] => false
  | c :: rest => (is_alpha c || (c =? 95)%N) && forallb is_word rest
  end.

(** [/[\u0000-\u001F\u007F]/] *)
Definition CONTROL_CHAR_RE (value : jstring) : bool :=
  existsb (fun c => (c <=? 31)%N || (c =? 127)%N) value.

Definition MANAGED_DOCKER_NETWORK_HOST : jstring := "172.16.0.0/255.240.0.0".

Definition quoteIdentifier (value : jstring) (maxLength : nat) : text :=
  if bool_decide (length value = 0)%nat || bool_decide (maxLength < length value)%nat || negb (IDENTIFIER_RE value)
  then Throw ("invalid mariadb identifier: " ++ value)
  else Ok ("`" ++ replaceChar 96 "``" value ++ "`").

Definition quoteAccount (value : jstring) : text := quoteIdentifier value ACCOUNT_MAX_LENGTH.

Definition quoteLiteral (value : jstring) : text :=
  if CONTROL_CHAR_RE value then Throw "mariadb literal contains control characters"
  else Ok ("'" ++ replaceChar 39 "\'" (replaceChar 92 "\\" value) ++ "'").

Definition accountAt (username host : jstring) : text :=
  u ← quoteAccount username;
  h ← quoteLiteral host;
  Ok (u ++ "@" ++ h).

(** ** Accounts and databases *)

Definition createOrAlterAccountSql (username password host : jstring) : text :=
  account ← accountAt username host;
  lit ← quoteLiteral password;
  Ok (lines ["CREATE USER IF NOT EXISTS " ++ account ++ " IDENTIFIED BY " ++ lit ++ ";";
             "ALTER USER " ++ account ++ " IDENTIFIED BY " ++ lit ++ ";"]).

Definition ensureProxySqlMonitorAccountSql (username password : jstring) (extraHosts : list jstring) : text :=
  lit ← quoteLiteral password;
  let hosts := distinct (MANAGED_DOCKER_NETWORK_HOST :: extraHosts) in
  parts ← mapM (fun host =>
    account ← accountAt username host;
    Ok (["CREATE USER IF NOT EXISTS " ++ account ++ " IDENTIFIED BY " ++ lit ++ ";";
         "ALTER USER " ++ account ++ " IDENTIFIED BY " ++ lit ++ ";";
         "GRANT USAGE, PROCESS, REPLICATION CLIENT ON *.* TO " ++ account ++ ";"] : list jstring)) hosts;
  Ok (lines (mjoin parts)).

Definition dropAccountSql (username : jstring) (hosts : list jstring) : text :=
  parts ← mapM (fun host =>
    account ← accountAt username host;
    Ok ("DROP USER IF EXISTS " ++ account ++ ";")) (distinct hosts);
  Ok (lines parts).

Definition createDatabaseSql (name : jstring) : text :=
  db ← quoteIdentifier name SCHEMA_MAX_LENGTH;
  Ok ("CREATE DATABASE IF NOT EXISTS " ++ db ++ " CHARACTER SET utf8mb4 COLLATE utf8mb4_unicode_ci;").

Definition dropDatabaseSql (name : jstring) : text :=
  db ← quoteIdentifier name SCHEMA_MAX_LENGTH;
  Ok ("DROP DATABASE IF EXISTS " ++ db ++ ";").

(** ** Grants *)

Definition quoting : GrantQuoting := {|
  SqlGrants.quoteIdentifier value := quoteIdentifier value SCHEMA_MAX_LENGTH;
  SqlGrants.quoteLiteral := quoteLiteral;
  SqlGrants.accountAt := accountAt;
  extraPrivileges := Some [("DELETE HISTORY", "Delete_history_priv");
                           ("SHOW CREATE ROUTINE", "Show_create_routine_priv")];
  backupPrivileges := ["SELECT"; "SHOW VIEW"; "TRIGGER"; "EVENT"; "LOCK TABLES"; "SHOW CREATE ROUTINE"] |}.

Definition grantSql : GrantSql := grantSqlFor quoting MANAGED_DOCKER_NETWORK_HOST.

Definition grantRootSql (username host : jstring) : text :=
  account ← accountAt username host;
  Ok (lines ["GRANT ALL PRIVILEGES ON *.* TO " ++ account ++ " WITH GRANT OPTION;";
             "REVOKE READ_ONLY ADMIN ON *.* FROM " ++ account ++ ";"]).

Definition revokeReadOnlyAdminSql (username host : jstring) : text :=
  account ← accountAt username host;
  Ok ("REVOKE READ_ONLY ADMIN ON *.* FROM " ++ account ++ ";").

Definition ensureSocketAdminSql (osUser : jstring) : text :=
  r ← accountAt "root" "localhost";
  o ← accountAt osUser "localhost";
  Ok (socketAdminSql r o "VIA unix_socket").

Definition parseGlobalPrivAccountRows (tsv : jstring) : list (jstring * jstring) :=
  omap (fun line =>
    match indexOf 9 line with
    | None | Some O => None
    | Some tab =>
        let username := take tab line in
        let host := replaceChar 13 "" (drop (S tab) line) in
        if bool_decide (host = []) || bool_decide (host = "localhost") then None
        else Some (username, host)
    end) (split 10 tsv).

Definition isSafeAccountName (value : jstring) : bool :=
  bool_decide (0 < length value)%nat && bool_decide (length value <= ACCOUNT_MAX_LENGTH)%nat &&
  IDENTIFIER_RE value.

Definition revokeReadOnlyAdminFromNetworkAccountsSql (accounts : list (jstring * jstring)) : text :=
  parts ← mapM (fun '(username, host) => revokeReadOnlyAdminSql username host)
    (filter (fun '(username, host) =>
       negb (bool_decide (host = "localhost") || negb (isSafeAccountName username)) = true) accounts);
  match parts with
  | [] => Ok []
  | _ => Ok (lines (parts ++ ["FLUSH PRIVILEGES;" : jstring]))
  end.

Definition withoutSessionBinlogSql (sql : jstring) : jstring :=
  lines ["SET SESSION sql_log_bin = 0;"; trim sql; "SET SESSION sql_log_bin = 1;"].

Definition reassertReplicaPrivilegeGuardSql (accounts : list (jstring * jstring)) : text :=
  revokeSql ← revokeReadOnlyAdminFromNetworkAccountsSql accounts;
  admin ← ensureSocketAdminSql "mysql";
  Ok (withoutSessionBinlogSql
    (match revokeSql with [] => admin | _ => admin ++ [10%N] ++ revokeSql end)).

Definition grantReplicationSql (username host : jstring) : text :=
  account ← accountAt username host;
  Ok ("GRANT SELECT, RELOAD, PROCESS, LOCK TABLES, SHOW VIEW, EVENT, " ++
      "TRIGGER, REPLICATION SLAVE, REPLICATION CLIENT ON *.* TO " ++ account ++ " REQUIRE SSL;").

Definition ensureReplicationAccountSql (username password : jstring) (peerAddresses : list jstring) : text :=
  let at_ (host : jstring) : result jstring (list jstring) :=
    a ← createOrAlterAccountSql username password host;
    g ← grantReplicationSql username host;
    Ok [a; g] in
  parts ← mapM at_ peerAddresses;
  fallback ← (match peerAddresses with [] => at_ MANAGED_DOCKER_NETWORK_HOST | _ => Ok [] end);
  Ok (lines (mjoin parts ++ fallback ++ ["FLUSH PRIVILEGES;" : jstring])).

Definition createAccountsAt (username password : jstring) (hosts : list jstring) : text :=
  parts ← mapM (createOrAlterAccountSql username password) hosts;
  Ok (lines parts).

Definition createClientAccountSql (username password : jstring) (extraHosts : list jstring) : text :=
  createAccountsAt username password
    (distinct (MANAGED_DOCKER_NETWORK_HOST :: ("localhost" : jstring) :: extraHosts)).

Definition createNetworkAccountSql (username password : jstring) (extraHosts : list jstring) : text :=
  createAccountsAt username password (distinct (MANAGED_DOCKER_NETWORK_HOST :: extraHosts)).

Definition resetReplicaGtidStateSql : jstring := "RESET MASTER;".

Definition flushPrivilegesLocalSql : jstring := withoutSessionBinlogSql "FLUSH PRIVILEGES;".

(** ** Replication *)

Definition disableReadOnlySql : jstring := "SET GLOBAL read_only = OFF;".
Definition enforceReadOnlySql : jstring := "SET GLOBAL read_only = ON;".
Definition promoteSql : jstring := lines ["STOP SLAVE;"; "RESET SLAVE ALL;"; "SET GLOBAL read_only = OFF;"].

Definition masterGtidWaitSql (gtidSet : jstring) (timeoutSeconds : N) : text :=
  g ← quoteLiteral gtidSet;
  Ok ("SELECT MASTER_GTID_WAIT(" ++ g ++ ", " ++ decimalText timeoutSeconds ++ ");").

Definition MARIADB_REPLICA_CONNECT_RETRY_SECONDS : N := 10.

Definition startReplicaSql : jstring := "START SLAVE;".

Definition changeReplicationSourceSql (host : jstring) (port : N) (username password : jstring) : text :=
  h ← quoteLiteral host;
  u ← quoteLiteral username;
  p ← quoteLiteral password;
  Ok (lines ["CHANGE MASTER TO"; "  MASTER_HOST = " ++ h ++ ",";
    "  MASTER_PORT = " ++ decimalText port ++ ","; "  MASTER_USER = " ++ u ++ ",";
    "  MASTER_PASSWORD = " ++ p ++ ","; "  MASTER_USE_GTID = slave_pos,"; "  MASTER_SSL = 1,";
    "  MASTER_SSL_CA = '/etc/mysql/tls/ca.crt',"; "  MASTER_SSL_VERIFY_SERVER_CERT = 1,";
    "  MASTER_CONNECT_RETRY = " ++ decimalText MARIADB_REPLICA_CONNECT_RETRY_SECONDS ++ ";";
    startReplicaSql]).

Definition MARIADB_FOLLOW_SOURCE_DIALECT : FollowSourceDialect := {|
  stop := "STOP SLAVE"; change := "CHANGE MASTER TO"; hostKey := "MASTER_HOST";
  portKey := "MASTER_PORT"; start := "START SLAVE" |}.

Definition followReplicationSourceSql (host : jstring) (port : N) : text :=
  renderFollowSourceSql MARIADB_FOLLOW_SOURCE_DIALECT host port quoteLiteral.

(** ** Applying logins ([mariadb.ts]) *)

Section Apply.
Context {W : Type} (ctx : ManagedEngineContext W).

Definition runMariadb : jstring -> sqlM W unit := runSql "mariadb" ctx.
Definition runMariadbQuery : jstring -> sqlM W jstring := runQuery "mariadb" ctx.

Definition applyOneCredential (c : ManagedApplyCredential) : sqlM W unit :=
  let hosts := default [] (clientSourceHosts ctx) in
  if decide (role c = "root") then
    network ← liftR (createNetworkAccountSql (username c) (password c) hosts);
    here ← liftR (grantRootSql (username c) MANAGED_DOCKER_NETWORK_HOST);
    there ← liftR (mapM (fun host => grantRootSql (username c) host) hosts);
    admin ← liftR (ensureSocketAdminSql "mysql");
    runMariadb (lines ([network; here] ++ there ++ [admin; "FLUSH PRIVILEGES;" : jstring]))
  else if decide (role c = "replication") then
    sql ← liftR (ensureReplicationAccountSql (username c) (password c) []);
    runMariadb sql
  else
    sql ← liftR (createClientAccountSql (username c) (password c) hosts);
    '_ ← runMariadb sql;
    '_ ← (if isBackupCredential c then
            grantBackupPrivileges (username c) hosts (grantBackupSql grantSql) runMariadb
          else
            grantDatabasePrivileges (grantableDatabases c) (default [] (privileges c)) (username c) hosts
              (grantDatabaseSql grantSql) (Some (revokePlainDatabaseGrantSql grantSql)) runMariadb);
    runMariadb "FLUSH PRIVILEGES;".

Definition applyCredentials (credentials : list ManagedApplyCredential) : sqlM W (list jstring) :=
  '_ ← inOrder applyOneCredential credentials;
  mret (map username credentials).

Definition ensureProxySqlMonitor (user password : jstring) : sqlM W unit :=
  sql ← liftR (ensureProxySqlMonitorAccountSql user password (default [] (clientSourceHosts ctx)));
  runMariadb sql.

Definition applyDatabases (ops : list (bool * jstring)) : sqlM W (list jstring) :=
  '_ ← inOrder (fun '(create, nm) =>
    sql ← liftR (if create : bool then createDatabaseSql nm else dropDatabaseSql nm);
    runMariadb sql) ops;
  mret (map snd ops).

Definition dropUsers (usernames : list jstring) : sqlM W (list jstring) :=
  let others := filter (fun user => user <> rootUsername ctx) usernames in
  '_ ← inOrder (fun user =>
    dropUserOnEveryHost user [MANAGED_DOCKER_NETWORK_HOST; "localhost"] quoteLiteral runMariadbQuery runMariadb
      dropAccountSql) others;
  mret others.
End Apply.

(** ** The dialect's promises *)

Lemma mariadb_literal_ok v : cleanText v -> quoteLiteral v = Ok (quotedText v).
Proof. intros H. unfold quoteLiteral, CONTROL_CHAR_RE. rewrite (proj2 (control_clean v) H). by rewrite replace_escapes. Qed.

Lemma mariadb_literal_text v t : quoteLiteral v = Ok t -> t = quotedText v.
Proof. unfold quoteLiteral. case_match; [done |]. intros <-%Ok_inj. by rewrite replace_escapes. Qed.

Lemma mariadb_identifier_ok n v : goodName n v -> quoteIdentifier v n = Ok (inTicks v).
Proof.
  intros H. unfold quoteIdentifier. rewrite (identifier_good n v H : _ || _ || negb (IDENTIFIER_RE v) = false).
  by rewrite ticks_plain by apply H.
Qed.

Lemma mariadb_identifier_text n v t : quoteIdentifier v n = Ok t -> t = inTicks v /\ plainName v.
Proof.
  unfold quoteIdentifier. destruct (_ || _ || negb (IDENTIFIER_RE v)) eqn:E; [done |]. intros <-%Ok_inj.
  apply orb_false_iff in E as [_ E%negb_false_iff]. pose proof (identifier_plain v E) as Hp. by rewrite ticks_plain.
Qed.

Lemma mariadb_account_text u h t : accountAt u h = Ok t -> t = inTicks u ++ "@" ++ quotedText h /\ plainName u.
Proof.
  unfold accountAt, quoteAccount.
  intros (a & [-> Hu]%mariadb_identifier_text & (b & ->%mariadb_literal_text & <-%Ok_inj)%bind_Ok)%bind_Ok. done.
Qed.

#[global] Instance mariadb_laws : QuotingLaws MariaDB quoting.
Proof.
  split; [exact mariadb_literal_ok | exact (mariadb_identifier_ok 64) | | exact mariadb_literal_text |
          exact (mariadb_identifier_text 64) | exact mariadb_account_text | done].
  intros u h Hu Hh. change (accountAt u h = Ok (inTicks u ++ "@" ++ quotedText h)).
  unfold accountAt, quoteAccount, ACCOUNT_MAX_LENGTH. rewrite (mariadb_identifier_ok 32 u Hu). cbn [mbind result_bind].
  by rewrite (mariadb_literal_ok h Hh).
Qed.
