(* ===== verification/SqlTopology.v ===== *)
(** * The topology account of Orchestrator

    [managed/engines/orchestrator-topology-sql.ts]: one login per organization
    on every MySQL and MariaDB member, quoted as MySQL. *)

From S2P Require Import Prelude.
From S2P Require Import SqlServer.
From S2P Require Import SqlGrants.
From S2P Require Import SqlParts.
From S2P Require Import SqlMysql.

Definition ORCHESTRATOR_META_SCHEMA : jstring := "meta".

Definition REPLICATION_TABLE (dialect : engine) : jstring :=
  match dialect with MySQL => "mysql.slave_master_info" | MariaDB => "mysql.gtid_slave_pos" end.

Definition ORCHESTRATOR_TOPOLOGY_PRIVATE_HOSTS : list jstring :=
  ["10.0.0.0/255.0.0.0"; "192.168.0.0/255.255.0.0"].

Definition topologyAccountHosts (extraHosts : list jstring) : list jstring :=
  distinct (MANAGED_DOCKER_NETWORK_HOST :: extraHosts ++ ORCHESTRATOR_TOPOLOGY_PRIVATE_HOSTS).

Definition bindRequireSsl (account : jstring) (dialect : engine) : jstring :=
  match dialect with
  | MariaDB => "GRANT USAGE ON *.* TO " ++ account ++ " REQUIRE SSL;"
  | MySQL => "ALTER USER " ++ account ++ " REQUIRE SSL;"
  end.

Definition grantOrchestratorTopologyPrivileges (account : jstring) (dialect : engine) : result jstring (list jstring) :=
  let globalPrivs : jstring :=
    match dialect with
    | MariaDB => "SUPER, PROCESS, REPLICATION CLIENT, RELOAD, REPLICA MONITOR"
    | MySQL => "SUPER, PROCESS, REPLICATION CLIENT, RELOAD"
    end in
  meta ← quoteIdentifier ORCHESTRATOR_META_SCHEMA SCHEMA_MAX_LENGTH;
  Ok ["GRANT " ++ globalPrivs ++ " ON *.* TO " ++ account ++ ";";
      "GRANT SELECT ON " ++ meta ++ ".* TO " ++ account ++ ";"].

Definition ensureOrchestratorTopologyAccountSql (username password : jstring) (extraHosts : list jstring)
    (dialect : engine) : text :=
  parts ← mapM (fun host =>
    account ← accountAt username host;
    created ← createOrAlterAccountSql username password host;
    granted ← grantOrchestratorTopologyPrivileges account dialect;
    Ok (created :: granted ++ [bindRequireSsl account dialect])) (topologyAccountHosts extraHosts);
  Ok (lines (mjoin parts ++ ["FLUSH PRIVILEGES;" : jstring])).

Definition grantOrchestratorReplicationTableSql (username : jstring) (extraHosts : list jstring)
    (dialect : engine) : text :=
  parts ← mapM (fun host =>
    account ← accountAt username host;
    Ok ("GRANT SELECT ON " ++ REPLICATION_TABLE dialect ++ " TO " ++ account ++ ";")) (topologyAccountHosts extraHosts);
  Ok (lines parts).

(** ** Of the runtimes ([mysql.ts] and [mariadb.ts]) *)

Section Ensure.
Context {W : Type} (hosts : list jstring) (run : jstring -> sqlM W unit).

(** [try { … } catch { logWarn(…) }] *)
Definition orWarn (m : sqlM W unit) : sqlM W unit := fun w => (Ok tt, (m w).2).

(** A failure of the account is an error; the grant on the replication table is
    tried, and its failure only logged. *)
Definition ensureOrchestratorTopology (dialect : engine) (user password : jstring) : sqlM W unit :=
  account ← liftR (ensureOrchestratorTopologyAccountSql user password hosts dialect);
  '_ ← run account;
  orWarn (sql ← liftR (grantOrchestratorReplicationTableSql user hosts dialect); run sql).
End Ensure.
