(* ===== verification/SqlApplied.v ===== *)
(** * What the SQL of managed MySQL and MariaDB does

    The builders of [SqlMysql], [SqlMariadb] and [SqlTopology] together: which
    statements a server reads in their texts whatever the arguments are, when
    they refuse, and what applying a login leaves on the server. *)

From S2P Require Import Prelude.
From S2P Require Import Json.
From S2P Require Import Number.
From S2P Require Import SqlServer.
From S2P Require Import SqlGrants.
From S2P Require Import SqlGranted.
From S2P Require Import SqlParts.
From S2P Require Import SqlLogins.
From S2P Require Import SqlMysql.
From S2P Require Import SqlMariadb.
From S2P Require Import SqlTopology.

(** ** The calls the runtimes make *)

Inductive sqlCall :=
| CallAccount (user pass host : jstring)
| CallClient (user pass : jstring) (hosts : list jstring)
| CallNetwork (user pass : jstring) (hosts : list jstring)
| CallMonitor (user pass : jstring) (hosts : list jstring)
| CallReplication (user pass : jstring) (peers : list jstring)
| CallTopology (user pass : jstring) (hosts : list jstring)
| CallTopologyTable (user : jstring) (hosts : list jstring)
| CallDropAccount (user : jstring) (hosts : list jstring)
| CallCreateDatabase (db : jstring)
| CallDropDatabase (db : jstring)
| CallGrant (db user : jstring) (level : ManagedDatabasePrivilege) (host : option jstring)
| CallRevokePlain (db user : jstring) (host : option jstring)
| CallBackup (user : jstring) (host : option jstring)
| CallRoot (user host : jstring)
| CallSocketAdmin (osUser : jstring)
| CallChangeSource (host : jstring) (port : N) (user pass : jstring)
| CallFollow (host : jstring) (port : N).

(** The text a dialect builds for a call. *)
Definition build (e : engine) (c : sqlCall) : text :=
  match e, c with
  | MySQL, CallAccount u p h => SqlMysql.createOrAlterAccountSql u p h
  | MySQL, CallClient u p hs => SqlMysql.createClientAccountSql u p hs
  | MySQL, CallNetwork u p hs => SqlMysql.createNetworkAccountSql u p hs
  | MySQL, CallMonitor u p hs => SqlMysql.ensureProxySqlMonitorAccountSql u p hs
  | MySQL, CallReplication u p ps => SqlMysql.ensureReplicationAccountSql u p ps
  | MySQL, CallDropAccount u hs => SqlMysql.dropAccountSql u hs
  | MySQL, CallCreateDatabase n => SqlMysql.createDatabaseSql n
  | MySQL, CallDropDatabase n => SqlMysql.dropDatabaseSql n
  | MySQL, CallGrant db u l h => grantDatabaseSql SqlMysql.grantSql db u l h
  | MySQL, CallRevokePlain db u h => revokePlainDatabaseGrantSql SqlMysql.grantSql db u h
  | MySQL, CallBackup u h => grantBackupSql SqlMysql.grantSql u h
  | MySQL, CallRoot u h => SqlMysql.grantRootSql u h
  | MySQL, CallSocketAdmin o => SqlMysql.ensureSocketAdminSql o
  | MySQL, CallChangeSource h n u p => SqlMysql.changeReplicationSourceSql h n u p
  | MySQL, CallFollow h n => SqlMysql.followReplicationSourceSql h n
  | MariaDB, CallAccount u p h => SqlMariadb.createOrAlterAccountSql u p h
  | MariaDB, CallClient u p hs => SqlMariadb.createClientAccountSql u p hs
  | MariaDB, CallNetwork u p hs => SqlMariadb.createNetworkAccountSql u p hs
  | MariaDB, CallMonitor u p hs => SqlMariadb.ensureProxySqlMonitorAccountSql u p hs
  | MariaDB, CallReplication u p ps => SqlMariadb.ensureReplicationAccountSql u p ps
  | MariaDB, CallDropAccount u hs => SqlMariadb.dropAccountSql u hs
  | MariaDB, CallCreateDatabase n => SqlMariadb.createDatabaseSql n
  | MariaDB, CallDropDatabase n => SqlMariadb.dropDatabaseSql n
  | MariaDB, CallGrant db u l h => grantDatabaseSql SqlMariadb.grantSql db u l h
  | MariaDB, CallRevokePlain db u h => revokePlainDatabaseGrantSql SqlMariadb.grantSql db u h
  | MariaDB, CallBackup u h => grantBackupSql SqlMariadb.grantSql u h
  | MariaDB, CallRoot u h => SqlMariadb.grantRootSql u h
  | MariaDB, CallSocketAdmin o => SqlMariadb.ensureSocketAdminSql o
  | MariaDB, CallChangeSource h n u p => SqlMariadb.changeReplicationSourceSql h n u p
  | MariaDB, CallFollow h n => SqlMariadb.followReplicationSourceSql h n
  | _, CallTopology u p hs => ensureOrchestratorTopologyAccountSql u p hs e
  | _, CallTopologyTable u hs => grantOrchestratorReplicationTableSql u hs e
  end.

(** ** What each call means: its statements *)

Definition NETWORK : jstring := "172.16.0.0/255.240.0.0".
Definition networkHosts (hosts : list jstring) : list jstring := distinct (NETWORK :: hosts).

Definition create (u p h : jstring) : list stmt :=
  [CreateUser (Account u h) (Password p); AlterUser (Account u h) (Password p)].

Definition everywhere (names : list jstring) (a : account) : stmt := Grant names Everywhere a false false.

Definition FLUSH : stmt := Words ["FLUSH"; "PRIVILEGES"].

Definition replicationRights : list jstring :=
  ["SELECT"; "RELOAD"; "PROCESS"; "LOCK TABLES"; "SHOW VIEW"; "EVENT"; "TRIGGER"; "REPLICATION SLAVE";
   "REPLICATION CLIENT"].

(** Replication needs TLS: bound to the account, or to the grant. *)
Definition replicationStmts (e : engine) (a : account) : list stmt :=
  match e with
  | MySQL => [everywhere replicationRights a; RequireSsl a]
  | MariaDB => [Grant replicationRights Everywhere a false true]
  end.

Definition topologyStmts (e : engine) (a : account) : list stmt :=
  match e with
  | MySQL => [everywhere ["SUPER"; "PROCESS"; "REPLICATION CLIENT"; "RELOAD"] a;
              Grant ["SELECT" : jstring] (OnSchema "meta") a false false; RequireSsl a]
  | MariaDB => [everywhere ["SUPER"; "PROCESS"; "REPLICATION CLIENT"; "RELOAD"; "REPLICA MONITOR"] a;
                Grant ["SELECT" : jstring] (OnSchema "meta") a false false;
                Grant ["USAGE" : jstring] Everywhere a false true]
  end.

Definition topologyHosts (hosts : list jstring) : list jstring :=
  distinct (NETWORK :: hosts ++ ["10.0.0.0/255.0.0.0"; "192.168.0.0/255.255.0.0"]).

Definition backupRights (e : engine) : list jstring :=
  match e with
  | MySQL => ["SELECT"; "SHOW VIEW"; "TRIGGER"; "EVENT"; "SHOW_ROUTINE"; "FLUSH_TABLES"]
  | MariaDB => ["SELECT"; "SHOW VIEW"; "TRIGGER"; "EVENT"; "LOCK TABLES"; "SHOW CREATE ROUTINE"]
  end.

Definition socketPlugin (e : engine) : jstring :=
  match e with MySQL => "auth_socket" | MariaDB => "unix_socket" end.

Definition socketAdmin (e : engine) (a : account) : list stmt :=
  [CreateUser a (Plugin (socketPlugin e)); AlterUser a (Plugin (socketPlugin e));
   Grant ["ALL PRIVILEGES" : jstring] Everywhere a true false].

Definition sourceOptions (e : engine) (host : jstring) (port : N) : list (jstring * optionValue) :=
  match e with
  | MySQL => [("SOURCE_HOST", OVString host); ("SOURCE_PORT", OVWord (decimalText port))]
  | MariaDB => [("MASTER_HOST", OVString host); ("MASTER_PORT", OVWord (decimalText port))]
  end.

(** A new replica trusts the primary's certificate only, and keeps trying. *)
Definition sourceLogin (e : engine) (user pass : jstring) : list (jstring * optionValue) :=
  match e with
  | MySQL =>
      [("SOURCE_USER", OVString user); ("SOURCE_PASSWORD", OVString pass); ("SOURCE_AUTO_POSITION", OVWord "1");
       ("SOURCE_SSL", OVWord "1"); ("SOURCE_SSL_CA", OVString "/etc/mysql/tls/ca.crt");
       ("SOURCE_SSL_VERIFY_SERVER_CERT", OVWord "1"); ("SOURCE_CONNECT_RETRY", OVWord "10");
       ("SOURCE_RETRY_COUNT", OVWord "60480")]
  | MariaDB =>
      [("MASTER_USER", OVString user); ("MASTER_PASSWORD", OVString pass); ("MASTER_USE_GTID", OVWord "slave_pos");
       ("MASTER_SSL", OVWord "1"); ("MASTER_SSL_CA", OVString "/etc/mysql/tls/ca.crt");
       ("MASTER_SSL_VERIFY_SERVER_CERT", OVWord "1"); ("MASTER_CONNECT_RETRY", OVWord "10")]
  end.

Definition replicaWord (e : engine) : jstring := match e with MySQL => "REPLICA" | MariaDB => "SLAVE" end.

Definition meaning (e : engine) (c : sqlCall) : list stmt :=
  match c with
  | CallAccount u p h => create u p h
  | CallClient u p hs => distinct (NETWORK :: ("localhost" : jstring) :: hs) ≫= create u p
  | CallNetwork u p hs => networkHosts hs ≫= create u p
  | CallMonitor u p hs =>
      networkHosts hs ≫= (fun h => create u p h ++ [everywhere ["USAGE"; "PROCESS"; "REPLICATION CLIENT"] (Account u h)])
  | CallReplication u p ps =>
      (match ps with [] => [NETWORK] | _ => ps end ≫= (fun h => create u p h ++ replicationStmts e (Account u h))) ++ [FLUSH]
  | CallTopology u p hs =>
      (topologyHosts hs ≫= (fun h => create u p h ++ topologyStmts e (Account u h))) ++ [FLUSH]
  | CallTopologyTable u hs =>
      map (fun h => Grant ["SELECT" : jstring]
        (OnTable "mysql" (match e with MySQL => "slave_master_info" | MariaDB => "gtid_slave_pos" end))
        (Account u h) false false) (topologyHosts hs)
  | CallDropAccount u hs => map (fun h => DropUser (Account u h)) (distinct hs)
  | CallCreateDatabase n => [CreateDatabase n]
  | CallDropDatabase n => [DropDatabase n]
  | CallGrant db u l h => grantStmts e db (Account u (default NETWORK h)) l
  | CallRevokePlain db u h =>
      let k := (db, Account u (default NETWORK h)) in plainStmts (REVOKE_ALL k) k ++ plainStmts (REVOKE_OPTION k) k
  | CallBackup u h => [everywhere (backupRights e) (Account u (default NETWORK h))]
  | CallRoot u h =>
      Grant ["ALL PRIVILEGES" : jstring] Everywhere (Account u h) true false ::
      match e with MySQL => [] | MariaDB => [Revoke ["READ_ONLY ADMIN" : jstring] Everywhere (Account u h)] end
  | CallSocketAdmin o =>
      DropUser (Account "root" "%") :: ([Account "root" "localhost"; Account o "localhost"] ≫= socketAdmin e)
  | CallChangeSource h n u p =>
      [ChangeSource (sourceOptions e h n ++ sourceLogin e u p); Words ["START"; replicaWord e]]
  | CallFollow h n =>
      [Words ["STOP"; replicaWord e]; ChangeSource (sourceOptions e h n); Words ["START"; replicaWord e]]
  end.

(** ** Reading them *)

Lemma scan_decimal n : scan Between (decimalText n) = Some ([], InWord (decimalText n)).
Proof.
  destruct (decimalDigits_spec (N.size_nat n) n [] (size_nat_bound n)) as (c & ds & E & Had & _).
  assert (decimalText n = c :: ds) as ->. { unfold decimalText. by rewrite E, app_nil_r. }
  clear E.
  assert (forall d, is_digit d = true -> is_sql_word d = true /\ ((d =? 32)%N || (d =? 10)%N) = false) as Hd.
  { intros d Hd. unfold is_sql_word, is_word, is_alnum. rewrite Hd, orb_true_r. split; [done |].
    destruct (N.eqb_spec d 32) as [-> |]; [done |]. by destruct (N.eqb_spec d 10) as [-> |]. }
  unfold all_digits in Had. apply Forall_cons in Had as [Hc Hds]. destruct (Hd c Hc) as [H1 H2].
  cbn [scan scanStep]. unfold begin. rewrite H2, H1. cbn [mbind option_bind].
  assert (forall w, scan (InWord w) ds = Some ([], InWord (w ++ ds))) as ->; [| done].
  induction Hds as [| d ds Hdd _ IH]; intros w; [by rewrite app_nil_r |].
  cbn [scan scanStep]. rewrite (proj1 (Hd d Hdd)). cbn. rewrite IH. by rewrite <- app_assoc.
Qed.

(** A script made of one text per element. *)
Lemma mapM_reads {A} (f : A -> text) (S : A -> list stmt) l parts :
  mapM f l = Ok parts -> (forall x t, f x = Ok t -> reads t (S x)) -> reads (lines parts) (l ≫= S).
Proof.
  intros H Hf. revert parts H. induction l as [| x l IH]; intros parts H.
  - injection H as <-. apply reads_nil.
  - cbn [mapM] in H. apply bind_Ok in H as (t & Ht & (ts & Hts & <-%Ok_inj)%bind_Ok).
    apply reads_cons; [by apply Hf | by apply IH].
Qed.

Lemma mapM_reads_lines {A} (f : A -> result jstring (list jstring)) (S : A -> list stmt) l parts :
  mapM f l = Ok parts -> (forall x t, f x = Ok t -> reads (lines t) (S x)) -> reads (lines (mjoin parts)) (l ≫= S).
Proof.
  intros H Hf. revert parts H. induction l as [| x l IH]; intros parts H.
  - injection H as <-. apply reads_nil.
  - cbn [mapM] in H. apply bind_Ok in H as (t & Ht & (ts & Hts & <-%Ok_inj)%bind_Ok).
    apply reads_parts; [by apply Hf | by apply IH].
Qed.

(** The texts of a builder that returned. *)
Ltac texts :=
  cbv beta in *; repeat match goal with
  | H : (_ ≫= _) = Ok _ |- _ => apply bind_Ok in H as (? & ? & ?)
  | H : SqlMysql.quoteLiteral _ = Ok _ |- _ => apply mysql_literal_text in H
  | H : SqlMariadb.quoteLiteral _ = Ok _ |- _ => apply mariadb_literal_text in H
  | H : SqlMysql.quoteIdentifier _ _ = Ok _ |- _ => apply mysql_identifier_text in H as [? ?%plain_scans]
  | H : SqlMariadb.quoteIdentifier _ _ = Ok _ |- _ => apply mariadb_identifier_text in H as [? ?%plain_scans]
  | H : SqlMysql.accountAt _ _ = Ok _ |- _ => apply mysql_account_text in H as [? ?%plain_scans]
  | H : SqlMariadb.accountAt _ _ = Ok _ |- _ => apply mariadb_account_text in H as [? ?%plain_scans]
  | H : Ok _ = Ok _ |- _ => apply Ok_inj in H
  end; subst.

(** [scan_text] on the lines of a builder. *)
Ltac scan_unfold a ::=
  lazymatch a with
  | heldText ?s ?d _ =>
      first [ change a with (triggerText s d); unfold triggerText, keptUnless
            | change a with (eventText s d); unfold eventText, keptUnless ]
  | inTicks _ => unfold inTicks
  | rowTarget _ => unfold rowTarget
  | lines _ => unfold lines
  end.

Lemma create_reads e u p h sql : build e (CallAccount u p h) = Ok sql -> reads sql (create u p h).
Proof.
  destruct e; cbn [build];
    [unfold SqlMysql.createOrAlterAccountSql | unfold SqlMariadb.createOrAlterAccountSql];
    intros H; texts; read_lines.
Qed.

Lemma create_each e u p hosts parts :
  mapM (fun h => build e (CallAccount u p h)) hosts = Ok parts -> reads (lines parts) (hosts ≫= create u p).
Proof. intros H. eapply mapM_reads; [exact H |]. intros h t. apply create_reads. Qed.

Lemma client_reads e u p hosts sql :
  build e (CallClient u p hosts) = Ok sql -> reads sql (meaning e (CallClient u p hosts)).
Proof.
  destruct e; intros (parts & H & <-%Ok_inj)%bind_Ok; [by apply (create_each MySQL) | by apply (create_each MariaDB)].
Qed.

Lemma network_reads e u p hosts sql :
  build e (CallNetwork u p hosts) = Ok sql -> reads sql (meaning e (CallNetwork u p hosts)).
Proof.
  destruct e; intros (parts & H & <-%Ok_inj)%bind_Ok; [by apply (create_each MySQL) | by apply (create_each MariaDB)].
Qed.

Lemma monitor_reads e u p hosts sql :
  build e (CallMonitor u p hosts) = Ok sql -> reads sql (meaning e (CallMonitor u p hosts)).
Proof.
  destruct e; cbn [build];
    [unfold SqlMysql.ensureProxySqlMonitorAccountSql | unfold SqlMariadb.ensureProxySqlMonitorAccountSql];
    intros H; apply bind_Ok in H as (lit & Hlit & (parts & H & <-%Ok_inj)%bind_Ok);
    (eapply mapM_reads_lines; [exact H |]); intros h t Ht; texts; read_lines.
Qed.

(** The replication login at one host. *)
Definition replicationAt (e : engine) (u p h : jstring) : result jstring (list jstring) :=
  match e with
  | MySQL => a ← SqlMysql.createOrAlterAccountSql u p h; g ← SqlMysql.grantReplicationSql u h; Ok [a; g]
  | MariaDB => a ← SqlMariadb.createOrAlterAccountSql u p h; g ← SqlMariadb.grantReplicationSql u h; Ok [a; g]
  end.

Lemma replication_at_reads e u p h t :
  replicationAt e u p h = Ok t -> reads (lines t) (create u p h ++ replicationStmts e (Account u h)).
Proof.
  destruct e; cbn [replicationAt]; intros (a & Ha & (g & Hg & <-%Ok_inj)%bind_Ok)%bind_Ok;
    [apply (create_reads MySQL) in Ha; unfold SqlMysql.grantReplicationSql in Hg |
     apply (create_reads MariaDB) in Ha; unfold SqlMariadb.grantReplicationSql in Hg];
    texts; (apply reads_cons; [done |]); unfold replicationStmts; cbn [join]; read_lines.
Qed.

Lemma replication_reads e u p peers sql :
  build e (CallReplication u p peers) = Ok sql -> reads sql (meaning e (CallReplication u p peers)).
Proof.
  intros H. assert (exists parts fb, mapM (replicationAt e u p) peers = Ok parts /\
    match peers with [] => replicationAt e u p NETWORK | _ => Ok [] end = Ok fb /\
    lines (mjoin parts ++ fb ++ ["FLUSH PRIVILEGES;" : jstring]) = sql) as (parts & fb & Hp & Hfb & <-).
  { destruct e; apply bind_Ok in H as (parts & H & (fb & Hfb & <-%Ok_inj)%bind_Ok); eauto. }
  rewrite app_assoc. apply reads_parts; [| read_lines]. cbn [meaning]. destruct peers as [| h hs].
  - injection Hp as <-. cbn [mbind list_bind app mjoin list_join]. rewrite app_nil_r. by apply replication_at_reads.
  - injection Hfb as <-. rewrite app_nil_r. eapply mapM_reads_lines; [exact Hp |]. intros x t. apply replication_at_reads.
Qed.

Lemma topology_reads e u p hosts sql :
  build e (CallTopology u p hosts) = Ok sql -> reads sql (meaning e (CallTopology u p hosts)).
Proof.
  intros H. assert (ensureOrchestratorTopologyAccountSql u p hosts e = Ok sql) as H' by (by destruct e). clear H.
  unfold ensureOrchestratorTopologyAccountSql in H'. apply bind_Ok in H' as (parts & H & <-%Ok_inj).
  apply reads_parts; [| read_lines]. eapply mapM_reads_lines; [exact H |]. intros h t Ht.
  apply bind_Ok in Ht as (a & Ha & (c & Hc%(create_reads MySQL) & (g & Hg & <-%Ok_inj)%bind_Ok)%bind_Ok).
  unfold grantOrchestratorTopologyPrivileges in Hg.
  apply reads_cons; [exact Hc |]. destruct e; texts; cbn [app bindRequireSsl topologyStmts]; read_lines.
Qed.

Lemma map_bind {A B} (f : A -> B) l : map f l = l ≫= (fun x => [f x]).
Proof. induction l as [| x l IH]; [done |]. cbn. by rewrite IH. Qed.

Lemma topology_table_reads e u hosts sql :
  build e (CallTopologyTable u hosts) = Ok sql -> reads sql (meaning e (CallTopologyTable u hosts)).
Proof.
  intros H. assert (grantOrchestratorReplicationTableSql u hosts e = Ok sql) as H' by (by destruct e). clear H.
  unfold grantOrchestratorReplicationTableSql in H'. apply bind_Ok in H' as (parts & H & <-%Ok_inj).
  cbn [meaning]. rewrite map_bind. eapply mapM_reads; [exact H |]. intros h t Ht. destruct e; texts; read_lines.
Qed.

Lemma drop_reads e u hosts sql :
  build e (CallDropAccount u hosts) = Ok sql -> reads sql (meaning e (CallDropAccount u hosts)).
Proof.
  destruct e; intros (parts & H & <-%Ok_inj)%bind_Ok; cbn [meaning]; rewrite map_bind;
    (eapply mapM_reads; [exact H |]); intros h t Ht; texts; read_lines.
Qed.

Lemma socket_admin_reads e o sql :
  build e (CallSocketAdmin o) = Ok sql -> reads sql (meaning e (CallSocketAdmin o)).
Proof.
  destruct e; cbn [build]; [unfold SqlMysql.ensureSocketAdminSql | unfold SqlMariadb.ensureSocketAdminSql];
    intros H; texts; unfold socketAdminSql; cbn [mbind list_bind app]; read_lines.
Qed.

(** Lines that hold a number. *)
Ltac read_numbers n := pose proof (scan_decimal n); read_lines.

Lemma source_reads e h n u p sql :
  build e (CallChangeSource h n u p) = Ok sql -> reads sql (meaning e (CallChangeSource h n u p)).
Proof.
  destruct e; cbn [build];
    [unfold SqlMysql.changeReplicationSourceSql | unfold SqlMariadb.changeReplicationSourceSql];
    intros H; texts; read_numbers n.
Qed.

Lemma follow_reads e h n sql :
  build e (CallFollow h n) = Ok sql -> reads sql (meaning e (CallFollow h n)).
Proof.
  destruct e; cbn [build];
    [unfold SqlMysql.followReplicationSourceSql | unfold SqlMariadb.followReplicationSourceSql];
    unfold renderFollowSourceSql; intros H; texts;
    cbn [stop change hostKey portKey start SqlMysql.MYSQL_FOLLOW_SOURCE_DIALECT SqlMariadb.MARIADB_FOLLOW_SOURCE_DIALECT];
    read_numbers n.
Qed.

Lemma call_reads e c sql : build e c = Ok sql -> reads sql (meaning e c).
Proof.
  destruct c; [apply create_reads | apply client_reads | apply network_reads | apply monitor_reads | apply replication_reads |
    apply topology_reads | apply topology_table_reads | apply drop_reads | | | | | | | apply socket_admin_reads |
    apply source_reads | apply follow_reads].
  - destruct e; cbn [build]; [unfold SqlMysql.createDatabaseSql | unfold SqlMariadb.createDatabaseSql];
      intros H; texts; read_lines.
  - destruct e; cbn [build]; [unfold SqlMysql.dropDatabaseSql | unfold SqlMariadb.dropDatabaseSql];
      intros H; texts; read_lines.
  - destruct e; [apply (grant_reads MySQL SqlMysql.quoting) | apply (grant_reads MariaDB SqlMariadb.quoting)].
  - destruct e; [intros H%(plain_reads MySQL SqlMysql.quoting) | intros H%(plain_reads MariaDB SqlMariadb.quoting)]; apply H.
  - destruct e; cbn [build SqlMysql.grantSql SqlMariadb.grantSql grantSqlFor grantBackupSql];
      unfold grantBackupOnAllSql; cbn [SqlGrants.accountAt SqlMysql.quoting SqlMariadb.quoting backupPrivileges];
      intros H; texts; read_lines.
  - destruct e; cbn [build]; [unfold SqlMysql.grantRootSql | unfold SqlMariadb.grantRootSql]; intros H; texts; read_lines.
Qed.

(** ** When a builder refuses *)

(** What a call is given: names up to a length, names that must fit the grant
    table once escaped, and free text. *)
Inductive argument := AName (max : nat) (v : jstring) | APattern (v : jstring) | AText (v : jstring).

Definition acceptable (a : argument) : Prop :=
  match a with
  | AName n v => goodName n v
  | APattern v => (length (escapeGrantSchemaPattern v) <= GRANT_SCHEMA_MAX_LENGTH)%nat
  | AText v => cleanText v
  end.

Definition arguments (c : sqlCall) : list argument :=
  match c with
  | CallAccount u p h => [AName 32 u; AText p; AText h]
  | CallClient u p hs | CallNetwork u p hs | CallMonitor u p hs | CallReplication u p hs | CallTopology u p hs =>
      AName 32 u :: AText p :: map AText hs
  | CallTopologyTable u hs => AName 32 u :: map AText hs
  | CallDropAccount u hs => match hs with [] => [] | _ => AName 32 u :: map AText hs end
  | CallCreateDatabase n | CallDropDatabase n => [AName 64 n]
  | CallGrant db u _ h => [AName 64 db; APattern db; AName 32 u; AText (default NETWORK h)]
  | CallRevokePlain db u h => [AName 64 db; AName 32 u; AText (default NETWORK h)]
  | CallBackup u h => [AName 32 u; AText (default NETWORK h)]
  | CallRoot u h => [AName 32 u; AText h]
  | CallSocketAdmin o => [AName 32 o]
  | CallChangeSource h _ u p => [AText h; AText u; AText p]
  | CallFollow h _ => [AText h]
  end.

Definition returned {A} (m : result jstring A) : Prop := exists a, m = Ok a.

Lemma returned_Ok {A} (a : A) : returned (Ok a) <-> True.
Proof. split; [done | by exists a]. Qed.

Lemma returned_bind {A B} (m : result jstring A) (k : A -> result jstring B) (Q : Prop) :
  (forall a, returned (k a) <-> Q) -> returned (m ≫= k) <-> returned m /\ Q.
Proof.
  intros Hk. destruct m as [a | err]; cbn [mbind result_bind].
  - rewrite Hk. split; [intros; split; [by exists a | done] | by intros []].
  - split; [by intros [] | by intros [[] _]].
Qed.

Lemma returned_map {A B} (m : result jstring A) (g : A -> B) : returned (m ≫= (fun a => Ok (g a))) <-> returned m.
Proof. rewrite (returned_bind _ _ True); [tauto |]. intros a. apply returned_Ok. Qed.

Lemma returned_mapM {A B} (f : A -> result jstring B) l : returned (mapM f l) <-> Forall (fun x => returned (f x)) l.
Proof.
  induction l as [| x l IH]; [split; [constructor | by exists []] |]. rewrite Forall_cons, <- IH. cbn [mapM].
  apply returned_bind. intros a. destruct (mapM f l) as [y | err]; cbn; split; try (by intros []); intros _; by eexists.
Qed.

Definition quoteLiteralOf (e : engine) := match e with MySQL => SqlMysql.quoteLiteral | MariaDB => SqlMariadb.quoteLiteral end.
Definition quoteIdentifierOf (e : engine) :=
  match e with MySQL => SqlMysql.quoteIdentifier | MariaDB => SqlMariadb.quoteIdentifier end.
Definition accountAtOf (e : engine) := match e with MySQL => SqlMysql.accountAt | MariaDB => SqlMariadb.accountAt end.

Lemma literal_returns e v : returned (quoteLiteralOf e v) <-> cleanText v.
Proof.
  split.
  - intros [t H]. apply control_clean.
    destruct e; cbn [quoteLiteralOf] in H; [unfold SqlMysql.quoteLiteral, SqlMysql.CONTROL_CHAR_RE in H |
      unfold SqlMariadb.quoteLiteral, SqlMariadb.CONTROL_CHAR_RE in H]; by destruct (existsb _ v).
  - intros H. destruct e; [exists (quotedText v); by apply mysql_literal_ok | exists (quotedText v); by apply mariadb_literal_ok].
Qed.

Lemma identifier_tests n v :
  bool_decide (length v = 0)%nat || bool_decide (n < length v)%nat || negb (identifierTest v) = false -> goodName n v.
Proof.
  intros [[H1 H2]%orb_false_iff H3%negb_false_iff]%orb_false_iff. bools. split_and!; [by intros -> | lia | by apply identifier_plain |].
  destruct v as [| c v]; [done |]. cbn in H3 |- *. apply andb_true_iff in H3 as [Hc _]. constructor; [| constructor].
  destruct (is_digit c) eqn:E; [| done]. unfold is_alpha, is_upper, is_lower, is_digit, in_range in *. 
  rewrite !orb_true_iff, !andb_true_iff, !N.leb_le, N.eqb_eq in Hc. bools. lia.
Qed.

Lemma identifier_returns e n v : returned (quoteIdentifierOf e v n) <-> goodName n v.
Proof.
  split.
  - intros [t H]. apply identifier_tests.
    destruct e; cbn [quoteIdentifierOf] in H; [unfold SqlMysql.quoteIdentifier in H | unfold SqlMariadb.quoteIdentifier in H];
      by destruct (_ || _ || _) eqn:E in H |- *.
  - intros H. destruct e; [exists (inTicks v); by apply mysql_identifier_ok | exists (inTicks v); by apply mariadb_identifier_ok].
Qed.

Lemma account_returns e u h : returned (accountAtOf e u h) <-> goodName 32 u /\ cleanText h.
Proof.
  rewrite <- (literal_returns e), <- (identifier_returns e).
  destruct e; cbn [accountAtOf]; [unfold SqlMysql.accountAt, SqlMysql.quoteAccount, SqlMysql.ACCOUNT_MAX_LENGTH |
    unfold SqlMariadb.accountAt, SqlMariadb.quoteAccount, SqlMariadb.ACCOUNT_MAX_LENGTH];
    (apply returned_bind; intros a; apply returned_map).
Qed.

(** ** Calls, by the texts they quote *)

Lemma distinct_Forall (P : jstring -> Prop) l : Forall P (distinct l) <-> Forall P l.
Proof.
  unfold distinct. assert (forall acc, Forall P (foldl setAdd acc l) <-> Forall P acc /\ Forall P l) as H.
  { induction l as [| x l IH]; intros acc; cbn [foldl]; [rewrite Forall_nil; tauto |].
    rewrite IH, Forall_cons. unfold setAdd. destruct (memb x acc) eqn:E; [| rewrite Forall_app, Forall_singleton; tauto].
    apply memb_true in E. rewrite (Forall_forall P acc). naive_solver. }
  rewrite H, Forall_nil. tauto.
Qed.

Lemma texts_acceptable hs : Forall acceptable (map AText hs) <-> Forall cleanText hs.
Proof. apply Forall_fmap. Qed.

Lemma create_returns e u p h :
  returned (build e (CallAccount u p h)) <-> goodName 32 u /\ cleanText p /\ cleanText h.
Proof.
  trans (returned (accountAtOf e u h) /\ returned (quoteLiteralOf e p)); [| rewrite account_returns, literal_returns; tauto].
  destruct e; (apply returned_bind; intros a; apply returned_map).
Qed.

(** One login at several hosts, at least at one. *)
Lemma hosts_return {B} (f : jstring -> result jstring B) u p D hosts :
  (forall h, returned (f h) <-> goodName 32 u /\ cleanText p /\ cleanText h) -> cleanText D ->
  returned (mapM f (distinct (D :: hosts))) <-> goodName 32 u /\ cleanText p /\ Forall cleanText hosts.
Proof.
  intros Hf HD. rewrite returned_mapM, distinct_Forall, Forall_cons, Hf.
  assert (goodName 32 u /\ cleanText p -> Forall (fun h => returned (f h)) hosts <-> Forall cleanText hosts) as H.
  { intros Hup. apply Forall_iff. intros h. rewrite Hf. tauto. }
  tauto.
Qed.

Lemma clean_constants : cleanText NETWORK /\ cleanText "localhost" /\ cleanText "root" /\ cleanText [] /\ goodName 32 "root" /\ goodName 64 "meta".
Proof. unfold goodName. split_and!; by repeat constructor. Qed.

Lemma client_returns e u p hs :
  returned (build e (CallClient u p hs)) <-> goodName 32 u /\ cleanText p /\ Forall cleanText hs.
Proof.
  destruct clean_constants as (HN & HL & _).
  trans (returned (mapM (fun h => build e (CallAccount u p h)) (distinct (NETWORK :: ("localhost" : jstring) :: hs)))).
  { destruct e; apply returned_map. }
  rewrite (hosts_return _ u p NETWORK); [rewrite Forall_cons; tauto | apply create_returns | done].
Qed.

Lemma network_returns e u p hs :
  returned (build e (CallNetwork u p hs)) <-> goodName 32 u /\ cleanText p /\ Forall cleanText hs.
Proof.
  destruct clean_constants as (HN & _).
  trans (returned (mapM (fun h => build e (CallAccount u p h)) (networkHosts hs))).
  { destruct e; apply returned_map. }
  apply hosts_return; [apply create_returns | done].
Qed.

(** The same without a password of their own. *)
Lemma accounts_return {B} e (k : jstring -> jstring -> B) u D hosts :
  cleanText D ->
  returned (mapM (fun h => a ← accountAtOf e u h; Ok (k h a)) (distinct (D :: hosts))) <->
  goodName 32 u /\ Forall cleanText hosts.
Proof.
  intros HD. rewrite (hosts_return _ u [] D hosts); [| | done].
  - destruct clean_constants as (_ & _ & _ & Hn & _). tauto.
  - intros h. rewrite (returned_map (accountAtOf e u h) (k h)), account_returns.
    destruct clean_constants as (_ & _ & _ & Hn & _). tauto.
Qed.

Lemma monitor_returns e u p hs :
  returned (build e (CallMonitor u p hs)) <-> goodName 32 u /\ cleanText p /\ Forall cleanText hs.
Proof.
  destruct clean_constants as (HN & _). rewrite <- (literal_returns e p).
  trans (returned (quoteLiteralOf e p) /\ goodName 32 u /\ Forall cleanText hs); [| tauto].
  destruct e; apply returned_bind; intros lit; rewrite returned_map;
    [apply (accounts_return MySQL (fun _ account => ["CREATE USER IF NOT EXISTS " ++ account ++ " IDENTIFIED BY " ++ lit ++ ";";
         "ALTER USER " ++ account ++ " IDENTIFIED BY " ++ lit ++ ";";
         "GRANT USAGE, PROCESS, REPLICATION CLIENT ON *.* TO " ++ account ++ ";"])) |
     apply (accounts_return MariaDB (fun _ account => ["CREATE USER IF NOT EXISTS " ++ account ++ " IDENTIFIED BY " ++ lit ++ ";";
         "ALTER USER " ++ account ++ " IDENTIFIED BY " ++ lit ++ ";";
         "GRANT USAGE, PROCESS, REPLICATION CLIENT ON *.* TO " ++ account ++ ";"]))]; done.
Qed.

Lemma replication_returns e u p hs :
  returned (build e (CallReplication u p hs)) <-> goodName 32 u /\ cleanText p /\ Forall cleanText hs.
Proof.
  destruct clean_constants as (HN & _).
  assert (forall h, returned (replicationAt e u p h) <-> goodName 32 u /\ cleanText p /\ cleanText h) as Hat.
  { intros h. trans (returned (build e (CallAccount u p h)) /\ returned (accountAtOf e u h));
      [| rewrite create_returns, account_returns; tauto].
    destruct e; (apply returned_bind; intros a; rewrite returned_map; apply returned_map). }
  trans (returned (mapM (replicationAt e u p) hs) /\
         returned (match hs with [] => replicationAt e u p NETWORK | _ => Ok [] end)).
  { destruct e; (apply returned_bind; intros a; apply returned_map). }
  rewrite returned_mapM. destruct hs as [| h hs].
  - rewrite Hat, !Forall_nil. tauto.
  - rewrite returned_Ok, !Forall_cons, Hat.
    assert (goodName 32 u /\ cleanText p -> Forall (fun h => returned (replicationAt e u p h)) hs <-> Forall cleanText hs) as H.
    { intros Hup. apply Forall_iff. intros x. rewrite Hat. tauto. }
    tauto.
Qed.

Lemma topology_returns e u p hs :
  returned (build e (CallTopology u p hs)) <-> goodName 32 u /\ cleanText p /\ Forall cleanText hs.
Proof.
  destruct clean_constants as (HN & _ & _ & _ & _ & Hm).
  trans (returned (ensureOrchestratorTopologyAccountSql u p hs e)); [by destruct e |].
  unfold ensureOrchestratorTopologyAccountSql. rewrite returned_map. unfold topologyAccountHosts.
  rewrite (hosts_return _ u p NETWORK (hs ++ ORCHESTRATOR_TOPOLOGY_PRIVATE_HOSTS)); [| | done].
  - rewrite Forall_app. assert (Forall cleanText ORCHESTRATOR_TOPOLOGY_PRIVATE_HOSTS) by (by repeat constructor). tauto.
  - intros h. trans (returned (accountAtOf MySQL u h) /\ returned (build MySQL (CallAccount u p h)));
      [| rewrite create_returns, account_returns; tauto].
    apply returned_bind. intros a. trans (returned (build MySQL (CallAccount u p h)) /\ True); [| tauto].
    apply returned_bind. intros c. rewrite returned_map. unfold grantOrchestratorTopologyPrivileges. rewrite returned_map.
    pose proof (proj2 (identifier_returns MySQL 64 "meta") Hm) as Hr. tauto.
Qed.

Lemma topology_table_returns e u hs :
  returned (build e (CallTopologyTable u hs)) <-> goodName 32 u /\ Forall cleanText hs.
Proof.
  destruct clean_constants as (HN & _).
  trans (returned (grantOrchestratorReplicationTableSql u hs e)); [by destruct e |].
  unfold grantOrchestratorReplicationTableSql. rewrite returned_map. unfold topologyAccountHosts.
  rewrite (accounts_return MySQL (fun _ account => "GRANT SELECT ON " ++ REPLICATION_TABLE e ++ " TO " ++ account ++ ";") u
             MANAGED_DOCKER_NETWORK_HOST); [| done].
  rewrite Forall_app. assert (Forall cleanText ORCHESTRATOR_TOPOLOGY_PRIVATE_HOSTS) by (by repeat constructor). tauto.
Qed.

Lemma drop_returns e u hs :
  returned (build e (CallDropAccount u hs)) <-> Forall acceptable (arguments (CallDropAccount u hs)).
Proof.
  trans (Forall (fun h => returned (accountAtOf e u h)) hs).
  - rewrite <- distinct_Forall, <- returned_mapM.
    destruct e; cbn [build]; [unfold SqlMysql.dropAccountSql | unfold SqlMariadb.dropAccountSql];
      rewrite returned_map, !returned_mapM; apply Forall_iff; intros h; apply returned_map.
  - cbn [arguments]. destruct hs as [| h hs]; [by rewrite !Forall_nil |].
    rewrite Forall_cons, account_returns, !Forall_cons, texts_acceptable. cbn [acceptable].
    assert (goodName 32 u -> Forall (fun h => returned (accountAtOf e u h)) hs <-> Forall cleanText hs) as H.
    { intros Hu. apply Forall_iff. intros x. rewrite account_returns. tauto. }
    rewrite Forall_cons. tauto.
Qed.

Definition quotingOf (e : engine) : GrantQuoting := match e with MySQL => SqlMysql.quoting | MariaDB => SqlMariadb.quoting end.

Lemma quotingOf_identifier e v : SqlGrants.quoteIdentifier (quotingOf e) v = quoteIdentifierOf e v 64.
Proof. by destruct e. Qed.
Lemma quotingOf_account e u h : SqlGrants.accountAt (quotingOf e) u h = accountAtOf e u h.
Proof. by destruct e. Qed.

#[global] Instance quotingOf_laws e : QuotingLaws e (quotingOf e).
Proof. destruct e; [exact mysql_laws | exact mariadb_laws]. Qed.

Lemma grant_returns_iff e db u l h :
  returned (build e (CallGrant db u l h)) <-> Forall acceptable (arguments (CallGrant db u l h)).
Proof.
  cbn [arguments]. set (host := default NETWORK h). split.
  - intros [sql H]. assert (returned (quoteIdentifierOf e db 64) /\ returned (accountAtOf e u host) /\
      (length (escapeGrantSchemaPattern db) <= GRANT_SCHEMA_MAX_LENGTH)%nat) as (Hd & Ha & Hl).
    { assert (grantOnDatabaseSql (quotingOf e) db u l host = Ok sql) as H' by (destruct e; exact H).
      unfold grantOnDatabaseSql, quoteGrantSchema in H'.
      apply bind_Ok in H' as (d & (i & Hi & Hd)%bind_Ok & (a & Ha & _)%bind_Ok). destruct (decide _) in Hd; [done |].
      rewrite quotingOf_identifier in Hi. rewrite quotingOf_account in Ha. split_and!; [by exists i | by exists a | lia]. }
    apply identifier_returns in Hd. apply account_returns in Ha as [Hu Hh]. rewrite !Forall_cons, Forall_nil. by split_and!.
  - rewrite !Forall_cons. intros (Hd & Hf & Hu & Hh & _). assert (grantable db u host) as Hg by (by split).
    destruct (grant_returns e (quotingOf e) db u l host Hg) as [sql Hs]. exists sql. destruct e; exact Hs.
Qed.

Lemma plain_returns_iff e db u h :
  returned (build e (CallRevokePlain db u h)) <-> Forall acceptable (arguments (CallRevokePlain db u h)).
Proof.
  cbn [arguments]. set (host := default NETWORK h). split.
  - intros [sql H]. assert (returned (quoteIdentifierOf e db 64) /\ returned (accountAtOf e u host)) as (Hd & Ha).
    { assert (revokePlainPatternGrantSql (quotingOf e) db u host = Ok sql) as H' by (destruct e; exact H).
      unfold revokePlainPatternGrantSql in H'. apply bind_Ok in H' as (i & Hi & (a & Ha & _)%bind_Ok).
      rewrite quotingOf_identifier in Hi. rewrite quotingOf_account in Ha. split; [by exists i | by exists a]. }
    apply identifier_returns in Hd. apply account_returns in Ha as [Hu Hh]. rewrite !Forall_cons, Forall_nil. by split_and!.
  - rewrite !Forall_cons. intros (Hd & Hu & Hh & _).
    destruct (plain_returns e (quotingOf e) db u host) as [sql Hs]; [done | done | done |]. exists sql. destruct e; exact Hs.
Qed.

Lemma call_returns e c : returned (build e c) <-> Forall acceptable (arguments c).
Proof.
  destruct c; [| | | | | | | apply drop_returns | | | apply grant_returns_iff | apply plain_returns_iff | | | | |];
    cbn [arguments]; rewrite !Forall_cons, ?Forall_nil, ?texts_acceptable; cbn [acceptable].
  - rewrite create_returns. tauto.
  - apply client_returns.
  - apply network_returns.
  - apply monitor_returns.
  - apply replication_returns.
  - apply topology_returns.
  - apply topology_table_returns.
  - rewrite <- (identifier_returns e). trans (returned (quoteIdentifierOf e db 64)); [destruct e; apply returned_map | tauto].
  - rewrite <- (identifier_returns e). trans (returned (quoteIdentifierOf e db 64)); [destruct e; apply returned_map | tauto].
  - trans (returned (accountAtOf e user (default NETWORK host))); [| rewrite account_returns; tauto].
    destruct e; apply returned_map.
  - trans (returned (accountAtOf e user host)); [| rewrite account_returns; tauto]. destruct e; apply returned_map.
  - destruct clean_constants as (_ & HL & _ & _ & Hr & _).
    trans (returned (accountAtOf e "root" "localhost") /\ returned (accountAtOf e osUser "localhost"));
      [destruct e; (apply returned_bind; intros a; apply returned_map) | rewrite !account_returns; tauto].
  - rewrite <- !(literal_returns e).
    trans (returned (quoteLiteralOf e host) /\ returned (quoteLiteralOf e user) /\ returned (quoteLiteralOf e pass)); [| tauto].
    destruct e; (apply returned_bind; intros a; apply returned_bind; intros b; apply returned_map).
  - rewrite <- (literal_returns e). trans (returned (quoteLiteralOf e host)); [| tauto]. destruct e; apply returned_map.
Qed.

(** C14. Whatever its arguments are, a call either refuses, because one of them is not
    acceptable, or gives a text the server reads as exactly the statements of the
    call, with every argument as one name or one value. *)
Theorem sql_is_what_it_says e c :
  match build e c with
  | Ok sql => Forall acceptable (arguments c) /\ statements sql = Some (meaning e c)
  | Throw _ => ~ Forall acceptable (arguments c)
  end.
Proof.
  pose proof (call_returns e c) as Hr. destruct (build e c) as [sql | msg] eqn:E.
  - split; [apply Hr; by exists sql | by apply reads_statements, call_reads].
  - rewrite <- Hr. by intros [].
Qed.

(** ** Applying a login *)

Definition clientOf (e : engine) : jstring := match e with MySQL => "mysql" | MariaDB => "mariadb" end.

Definition applyOf (e : engine) (ctx : ManagedEngineContext server) (c : ManagedApplyCredential) : sqlM server unit :=
  match e with
  | MySQL => SqlMysql.applyOneCredential ctx c
  | MariaDB => SqlMariadb.applyOneCredential ctx c
  end.

Definition hostsOf (ctx : ManagedEngineContext server) : list jstring := default [] (clientSourceHosts ctx).

(** The accounts of a login that get its grants. *)
Definition loginAccounts (ctx : ManagedEngineContext server) (c : ManagedApplyCredential) : list account :=
  map (Account (username c)) (NETWORK :: hostsOf ctx).

(** The account script, the grants, and a flush. *)
Definition userFlow (e : engine) (ctx : ManagedEngineContext server) (c : ManagedApplyCredential) : sqlM server unit :=
  let run := runSql (clientOf e) ctx in
  let builders := grantSqlFor (quotingOf e) NETWORK in
  sql ← liftR (build e (CallClient (username c) (password c) (hostsOf ctx)));
  '_ ← run sql;
  '_ ← grantDatabasePrivileges (grantableDatabases c) (default [] (privileges c)) (username c) (hostsOf ctx)
         (grantDatabaseSql builders) (Some (revokePlainDatabaseGrantSql builders)) run;
  run "FLUSH PRIVILEGES;".

Lemma apply_user e ctx c sv :
  role c = "user" -> isBackupCredential c = false -> applyOf e ctx c sv = userFlow e ctx c sv.
Proof.
  intros Hr Hb. destruct e; cbn [applyOf]; [unfold SqlMysql.applyOneCredential | unfold SqlMariadb.applyOneCredential];
    rewrite !decide_False by (by rewrite Hr); rewrite Hb; reflexivity.
Qed.

Lemma flush_runs e sv : runScript e "FLUSH PRIVILEGES;" sv = Some sv.
Proof.
  unfold runScript. assert (statements "FLUSH PRIVILEGES;" = Some [FLUSH]) as -> by (vm_compute; reflexivity). reflexivity.
Qed.

Lemma distinct_elem (l : list jstring) x : x ∈ l -> x ∈ distinct l.
Proof.
  intros Hx. assert (Forall (fun y => y ∈ distinct l) l) as H by (apply distinct_Forall; by apply Forall_forall).
  rewrite Forall_forall in H. by apply H.
Qed.

Section Applied.
Context (e : engine) (ctx : ManagedEngineContext server) (c : ManagedApplyCredential) (l : ManagedDatabasePrivilege).
Context (Hclient : clientRuns e (clientOf e) ctx) (Hrole : role c = "user") (Hbackup : isBackupCredential c = false).
Context (Hlevel : strongestPrivilege (default [] (privileges c)) = Some l).
Context (Hname : goodName 32 (username c)) (Hpass : cleanText (password c)) (Hhosts : Forall cleanText (hostsOf ctx)).
Context (Hdbs : Forall grantableName (grantableDatabases c)).

Lemma apply_runs sv :
  lawful e (svRows sv) ->
  exists sv', applyOf e ctx c sv = (Ok tt, sv') /\
    svRows sv' = foldl (applyLevel e sv l (loginAccounts ctx c)) (svRows sv) (grantableDatabases c) /\
    svAccounts sv' = withAccounts (username c) (password c) (svAccounts sv)
      (distinct (NETWORK :: ("localhost" : jstring) :: hostsOf ctx)) /\
    svDefined sv' = svDefined sv /\ svDatabases sv' = svDatabases sv.
Proof.
  intros Hl. rewrite apply_user by done. unfold userFlow.
  assert (forall sql sv sv', runScript e sql sv = Some sv' -> runSql (clientOf e) ctx sql sv = (Ok tt, sv')) as Hrun.
  { intros. by eapply runSql_runs. }
  destruct (proj2 (client_returns e (username c) (password c) (hostsOf ctx))) as [sql Hsql]; [done |].
  set (hs := distinct (NETWORK :: ("localhost" : jstring) :: hostsOf ctx)).
  set (sv1 := setAccounts (withAccounts (username c) (password c) (svAccounts sv) hs) sv).
  assert (runScript e sql sv = Some sv1) as H1.
  { unfold runScript. rewrite (reads_statements _ _ (client_reads _ _ _ _ _ Hsql)). apply exec_accounts. }
  destruct (databases_run e (quotingOf e) NETWORK (runSql (clientOf e) ctx) Hrun (username c) (hostsOf ctx) l sv1 Hname)
    with (dbs := grantableDatabases c) (privs := default [] (privileges c)) (sv := sv1) as (sv2 & H2 & Hr2 & Hs2); try done.
  { apply Forall_cons. split; [by destruct clean_constants | done]. }
  { intros h Hin. exists (Password (password c)). apply withAccounts_these, distinct_elem. set_solver. }
  exists sv2. unfold mbind, sqlM_bind, liftR. rewrite Hsql, (Hrun _ _ _ H1), H2, (Hrun _ _ _ (flush_runs e sv2)).
  destruct Hs2 as (Ha & Hd & Hdef). split_and!; [done | exact Hr2 | exact Ha | exact Hdef | exact Hd].
Qed.
End Applied.

(** A pattern that applying the login does not concern. *)
Definition otherPattern (dbs : list jstring) (pattern : jstring) : Prop :=
  forall db, db ∈ dbs -> pattern <> escapeGrantSchemaPattern db /\ (hasGrantWildcard db = true -> pattern <> db).

(** C13. Applying an ordinary login ends well on any server behind the client, and
    then, on every account of the login, its grants of the listed databases reach
    exactly those databases with exactly the columns of its strongest level
    (keeping [TRIGGER] and [EVENT] where it still defines one): wider rights of
    an older grant and the plain grant that reached other databases are gone.
    Rows of other names and accounts stay, and the login has its password on
    every host. *)
Theorem applied_login_holds_its_level e ctx c l sv
    (Hclient : clientRuns e (clientOf e) ctx) (Hrole : role c = "user") (Hbackup : isBackupCredential c = false)
    (Hlevel : strongestPrivilege (default [] (privileges c)) = Some l)
    (Hname : goodName 32 (username c)) (Hpass : cleanText (password c)) (Hhosts : Forall cleanText (hostsOf ctx))
    (Hdbs : Forall grantableName (grantableDatabases c)) (Hlawful : lawful e (svRows sv)) :
  exists sv', applyOf e ctx c sv = (Ok tt, sv') /\
    (forall a d column, a ∈ loginAccounts ctx c ->
       mayOn sv' a d column <->
       (d ∈ grantableDatabases c /\
        column ∈ levelRow e sv d a l (rowOf sv (escapeGrantSchemaPattern d, a))) \/
       exists pattern row, otherPattern (grantableDatabases c) pattern /\
         svRows sv !! (pattern, a) = Some row /\ reaches pattern d = true /\ column ∈ row) /\
    (forall pattern a, a ∉ loginAccounts ctx c -> svRows sv' !! (pattern, a) = svRows sv !! (pattern, a)) /\
    (forall h, h ∈ NETWORK :: ("localhost" : jstring) :: hostsOf ctx ->
       svAccounts sv' !! Account (username c) h = Some (Password (password c))) /\
    (forall a, acUser a <> username c -> svAccounts sv' !! a = svAccounts sv !! a).
Proof.
  destruct (apply_runs e ctx c l Hclient Hrole Hbackup Hlevel Hname Hpass Hhosts Hdbs sv Hlawful)
    as (sv' & Hr & Hrows & Hacc & _). exists sv'.
  assert (Forall plainName (grantableDatabases c)) as Hplain.
  { eapply Forall_impl; [exact Hdbs |]. intros db [Hd _]. apply Hd. }
  split_and!; [done | | | |].
  - intros a d column Ha. unfold mayOn. rewrite Hrows. split.
    + intros (pattern & row & Hk & Hreach & Hcol).
      destruct (decide (Exists (fun db => pattern = escapeGrantSchemaPattern db) (grantableDatabases c))) as [Hesc | Hesc].
      * apply Exists_exists in Hesc as (db & Hdb & ->). rewrite applied_escaped in Hk by done. injection Hk as <-.
        apply escaped_reaches in Hreach as ->. by left.
      * destruct (decide (Exists (fun db => hasGrantWildcard db = true /\ pattern = db) (grantableDatabases c))) as [Hw | Hw].
        { apply Exists_exists in Hw as (db & Hdb & Hw & ->). by rewrite applied_plain in Hk. }
        assert (otherPattern (grantableDatabases c) pattern) as Hother.
        { intros db Hdb. rewrite Exists_exists in Hesc, Hw. naive_solver. }
        right. exists pattern, row. rewrite applied_other in Hk by (intros _; apply Hother). done.
    + intros [[Hd Hcol] | (pattern & row & Hother & Hk & Hreach & Hcol)].
      * exists (escapeGrantSchemaPattern d). eexists. split_and!; [by apply applied_escaped | by apply escaped_reaches | done].
      * exists pattern, row. rewrite applied_other by (intros _; apply Hother). done.
  - intros pattern a Ha. rewrite Hrows. apply applied_other. done.
  - intros h Hh. rewrite Hacc. by apply withAccounts_these, distinct_elem.
  - intros a Ha. rewrite Hacc. by apply withAccounts_other.
Qed.

(** ** Findings *)

(** A host with a control character, as a copied grant table may hold it, makes
    the guard of a new MariaDB standby throw: no account loses its right to write
    on the replica. *)
Theorem control_character_host_stops_guard :
  exists tsv, parseGlobalPrivAccountRows tsv = [("app", [49; 1]%N); ("shop", "10.0.0.7")] /\
    reassertReplicaPrivilegeGuardSql (parseGlobalPrivAccountRows tsv) =
    Throw "mariadb literal contains control characters".
Proof. exists (js ("app" ++ [9%N] ++ [49; 1]%N ++ [10%N] ++ "shop" ++ [9%N] ++ "10.0.0.7")). split; vm_compute; reflexivity. Qed.

(** The backup login's rights are on every database of the server, whatever
    databases its credential lists. *)
Theorem backup_login_reads_everything e user host sql :
  build e (CallBackup user host) = Ok sql ->
  statements sql = Some [Grant (backupRights e) Everywhere (Account user (default NETWORK host)) false false].
Proof. intros H. by apply reads_statements, (call_reads e (CallBackup user host)). Qed.

(** ** A server to try it on *)

Module Example.
(** The login [app] holds an old plain grant on a pattern, and a wider one. *)
Definition app : account := Account "app" NETWORK.
Definition before : server :=
  Server ∅ ∅ {[ ("wp_site" : jstring, app) := {[ "Select_priv" : jstring; "Drop_priv" ]};
                (escapeGrantSchemaPattern "wp_site", app) := {[ "Drop_priv" : jstring; GRANT_OPTION ]} ]} ∅ ∅ ∅.

Definition clientContext (e : engine) : ManagedEngineContext server := {|
  rootUsername := "root"; socketPassword := None; clientSourceHosts := None;
  execIn argv input sv :=
    match input with
    | Some sql => match runScript e sql sv with
                  | Some sv' => (ExecOutcome true [] [], sv')
                  | None => (ExecOutcome false [] "error", sv)
                  end
    | None => (ExecOutcome true [] [], sv)
    end |}.

Definition login : ManagedApplyCredential := {|
  username := "app"; role := "user"; databases := ["wp_site" : jstring];
  privileges := Some ["read-only" : jstring; "read-write" ]; grantMode := None; kind := None; password := "it's" |}.

(** What really is left of the rows. *)
Definition after (e : engine) : list (rowKey * list jstring) :=
  map (fun kv => (kv.1, elements kv.2)) (map_to_list (svRows (applyOf e (clientContext e) login before).2)).

Lemma before_row k row :
  svRows before !! k = Some row ->
  k = ("wp_site" : jstring, app) /\ row = {[ "Select_priv" : jstring; "Drop_priv" ]} \/
  k = (escapeGrantSchemaPattern "wp_site", app) /\ row = {[ "Drop_priv" : jstring; GRANT_OPTION ]}.
Proof.
  unfold before. cbn [svRows]. rewrite lookup_insert_Some, lookup_singleton_Some.
  intros [[<- <-] | (_ & <- & <-)]; [by left | by right].
Qed.
End Example.

Lemma example_rows : length (Example.after MySQL) = 1%nat /\ length (Example.after MariaDB) = 1%nat.
Proof. split; vm_compute; reflexivity. Qed.

Lemma applied_login_holds_its_level_witness :
  exists sv', applyOf MySQL (Example.clientContext MySQL) Example.login Example.before = (Ok tt, sv') /\
    mayOn sv' Example.app "wp_site" "Insert_priv" /\ ~ mayOn sv' Example.app "wpXsite" "Select_priv" /\
    ~ mayOn sv' Example.app "wp_site" "Drop_priv".
Proof.
  destruct (applied_login_holds_its_level MySQL (Example.clientContext MySQL) Example.login ReadWrite Example.before)
    as (sv' & Hr & Hmay & _).
  - intros sql sv sv' H. cbn. by rewrite H.
  - reflexivity.
  - reflexivity.
  - reflexivity.
  - unfold goodName. split_and!; by repeat constructor.
  - by repeat constructor.
  - constructor.
  - constructor; [| constructor]. unfold grantableName, goodName. split_and!; by repeat constructor.
  - intros k row H. apply Example.before_row in H as [[_ ->] | [_ ->]]; unfold knownRow; apply (bool_decide_eq_true_1 _); vm_compute; reflexivity.
  - exists sv'. assert (Example.app ∈ loginAccounts (Example.clientContext MySQL) Example.login) as Ha by by left.
    assert (forall d column, ~ exists pattern row, otherPattern ["wp_site" : jstring] pattern /\
      svRows Example.before !! (pattern, Example.app) = Some row /\ reaches pattern d = true /\ column ∈ row) as Hno.
    { intros d column (pattern & row & Ho & H & _). destruct (Ho "wp_site") as [H1 H2]; [by left |].
      apply Example.before_row in H as [[[= ->] _] | [[= ->] _]]; [by apply H2 | by apply H1]. }
    split_and!; [done | | |]; rewrite Hmay by done.
    + left. split; [by left | apply (bool_decide_eq_true_1 _); vm_compute; reflexivity].
    + intros [[H _] | H]; [by apply list_elem_of_singleton in H | by apply Hno in H].
    + intros [[_ H] | H]; [| by apply Hno in H]. by apply (bool_decide_eq_false_1 _) in H; [| vm_compute; reflexivity].
Defined.
