(* ===== verification/BakXml.v ===== *)
(** * XML of S3 answers ([backups/s3/client.ts])

    The client reads answers with two regular expressions,
    [<tag>([\s\S]*?)</tag>] once or for every match, and undoes entities.  Each
    is a search for the first occurrence of a text ([cut]). *)

From S2P Require Import Prelude LogRedact.

(** [s] before and after the first occurrence of [pat]. *)
Fixpoint cut (pat s : jstring) : option (jstring * jstring) :=
  if startsWith pat s then Some ([], drop (length pat) s)
  else match s with
       | [] => None
       | c :: s' => (fun r => (c :: r.1, r.2)) <$> cut pat s'
       end.

Definition decodeXml (value : jstring) : jstring :=
  replaceText "&amp;" "&" (replaceText "&apos;" "'" (replaceText "&quot;" [34%N]
    (replaceText "&gt;" ">" (replaceText "&lt;" "<" value)))).

Definition openTag (tag : jstring) : jstring := "<" ++ tag ++ ">".
Definition closeTag (tag : jstring) : jstring := "</" ++ tag ++ ">".

(** The text between the first [<tag>] and the next [</tag>], and what follows. *)
Definition xmlMatch (xml tag : jstring) : option (jstring * jstring) :=
  '(_, rest) ← cut (openTag tag) xml;
  cut (closeTag tag) rest.

Definition xmlTag (xml tag : jstring) : option jstring := (fun m => decodeXml m.1) <$> xmlMatch xml tag.

(** Every match takes at least one unit: the length of the text is enough. *)
Fixpoint xmlBlocksFrom (fuel : nat) (xml tag : jstring) : list jstring :=
  match fuel with
  | O => []
  | S fuel =>
      match xmlMatch xml tag with
      | Some (inner, rest) => inner :: xmlBlocksFrom fuel rest tag
      | None => []
      end
  end.
Definition xmlBlocks (xml tag : jstring) : list jstring := xmlBlocksFrom (length xml) xml tag.

(** ** Entities are undone *)

(** The entities of a text, for the characters [which]. *)
Definition entity (which : N -> bool) (c : N) : jstring :=
  if which c then
    if (c =? 60)%N then "&lt;" else if (c =? 62)%N then "&gt;" else if (c =? 34)%N then "&quot;"
    else if (c =? 39)%N then "&apos;" else if (c =? 38)%N then "&amp;" else [c]
  else [c].
Definition encodeXml (which : N -> bool) (s : jstring) : jstring := s ≫= entity which.

Definition without (d : N) (which : N -> bool) (c : N) : bool := which c && negb (c =? d)%N.

Lemma encodeXml_cons which c s : encodeXml which (c :: s) = entity which c ++ encodeXml which s.
Proof. reflexivity. Qed.

(** An entity of one character, as the client undoes it. *)
Definition pair_of (d : N) (e : jstring) : Prop :=
  (d = 60%N /\ e = "&lt;") \/ (d = 62%N /\ e = "&gt;") \/ (d = 34%N /\ e = "&quot;") \/ (d = 39%N /\ e = "&apos;").

Lemma replace_other e c s : head e = Some 38%N -> c <> 38%N -> startsWith e (c :: s) = false.
Proof.
  intros He Hc. destruct e as [| x e]; [done |]. injection He as ->. cbn [startsWith].
  apply andb_false_iff. left. by apply N.eqb_neq, not_eq_sym.
Qed.

Lemma pair_head d e : pair_of d e -> head e = Some 38%N.
Proof. unfold pair_of. intros H. destruct_or!; destruct_and!; by subst. Qed.

(** Replacing the entity of [d] leaves the text with the other entities. *)
Lemma replace_entity which d e s :
  which 38%N = true -> pair_of d e -> replaceText e [d] (encodeXml which s) = encodeXml (without d which) s.
Proof.
  intros Hamp Hd. unfold replaceText. induction s as [| c s IH]; [done |]. rewrite !encodeXml_cons. unfold entity, without.
  destruct (which c) eqn:Ew; cbn [andb].
  - destruct (decide (c ∈ [60; 62; 34; 39; 38]%N)) as [Hc | Hc].
    + rewrite !elem_of_cons, elem_of_nil in Hc. unfold pair_of in Hd.
      destruct Hc as [-> | [-> | [-> | [-> | [-> | []]]]]]; destruct_or!; destruct_and!; subst; cbn -[encodeXml];
        repeat apply (f_equal (cons _)); exact IH.
    + rewrite !elem_of_cons in Hc. assert (c <> 60 /\ c <> 62 /\ c <> 34 /\ c <> 39 /\ c <> 38)%N as (H1 & H2 & H3 & H4 & H5) by tauto.
      rewrite !(proj2 (N.eqb_neq c _)) by done. cbn [app replaceFrom].
      rewrite replace_other by (done || by eapply pair_head). rewrite IH. by destruct (negb _).
  - cbn [app replaceFrom]. rewrite replace_other by (congruence || by eapply pair_head). by rewrite IH.
Qed.

Lemma replace_amp s : replaceText "&amp;" "&" (encodeXml (fun c => (c =? 38)%N) s) = s.
Proof.
  unfold replaceText. induction s as [| c s IH]; [done |]. rewrite encodeXml_cons. unfold entity.
  destruct (c =? 38)%N eqn:E.
  - apply N.eqb_eq in E as ->. cbn -[encodeXml]. by apply (f_equal (cons _)).
  - apply N.eqb_neq in E. cbn [app replaceFrom]. rewrite replace_other by done. by rewrite IH.
Qed.

(** Whatever was written as entities, the ampersand included, is read back. *)
Lemma decode_encode_xml which s : which 38%N = true -> decodeXml (encodeXml which s) = s.
Proof.
  intros H. unfold decodeXml.
  rewrite (replace_entity which 60) by (try done; unfold pair_of; tauto).
  rewrite (replace_entity _ 62) by (unfold without, pair_of; rewrite ?H; tauto).
  rewrite (replace_entity _ 34) by (unfold without, pair_of; rewrite ?H; tauto).
  rewrite (replace_entity _ 39) by (unfold without, pair_of; rewrite ?H; tauto).
  trans (replaceText "&amp;" "&" (encodeXml (fun c => (c =? 38)%N) s)); [| apply replace_amp]. f_equal.
  induction s as [| c s IH]; [done |]. rewrite !encodeXml_cons, IH. f_equal. unfold entity, without.
  destruct (c =? 38)%N eqn:E; [apply N.eqb_eq in E as ->; by rewrite H |].
  destruct (which c); [| done]. cbn [andb]. repeat (case_match; cbn [negb] in *; try done).
Qed.

(** ** Finding tags *)

Lemma cut_step pat c s :
  cut pat (c :: s) =
  if startsWith pat (c :: s) then Some ([], drop (length pat) (c :: s)) else (fun r => (c :: r.1, r.2)) <$> cut pat s.
Proof. reflexivity. Qed.

Lemma cut_here pat s : cut pat (pat ++ s) = Some ([], s).
Proof.
  transitivity (if startsWith pat (pat ++ s) then Some ([] : jstring, drop (length pat) (pat ++ s)) else cut pat (pat ++ s)).
  - destruct (pat ++ s) as [| c t]; [| rewrite cut_step]; cbn [cut]; by destruct (startsWith pat _).
  - by rewrite startsWith_app, drop_app_length.
Qed.

(** A text without the first unit of the pattern is passed over. *)
Lemma cut_past x pat u s : x ∉ u -> cut (x :: pat) (u ++ s) = (fun r => (u ++ r.1, r.2)) <$> cut (x :: pat) s.
Proof.
  induction u as [| c u IH]; intros Hu; [cbn [app]; by destruct (cut _ s) as [[]|] |].
  apply not_elem_of_cons in Hu as [Hc Hu]. cbn [app]. rewrite cut_step, IH by done. cbn [startsWith].
  rewrite (proj2 (N.eqb_neq _ _)) by done. cbn [andb]. by destruct (cut _ s) as [[]|].
Qed.

Lemma cut_shorter pat s a b : cut pat s = Some (a, b) -> s = a ++ pat ++ b.
Proof.
  revert a b. induction s as [| c s IH]; intros a b.
  - cbn [cut]. destruct (startsWith pat []) eqn:E; [| done]. intros [= <- <-].
    apply startsWith_spec in E as [t E]. symmetry in E. apply app_eq_nil in E as [-> ->]. done.
  - rewrite cut_step. destruct (startsWith pat (c :: s)) eqn:E.
    + intros [= <- <-]. apply startsWith_spec in E as [t ->]. cbn [app]. by rewrite drop_app_length.
    + destruct (cut pat s) as [[a' b'] |]; [| done]. intros [= <- <-]. cbn. f_equal. by apply IH.
Qed.

(** The fuel of [xmlBlocks] does not matter once it covers the text. *)
Lemma blocks_fuel fuel fuel' tag xml :
  (length xml <= fuel)%nat -> (length xml <= fuel')%nat -> xmlBlocksFrom fuel xml tag = xmlBlocksFrom fuel' xml tag.
Proof.
  revert fuel' xml. induction fuel as [| fuel IH]; intros fuel' xml H H'.
  - assert (xml = []) as -> by (by apply length_zero_iff_nil; lia). destruct fuel'; [done |]. reflexivity.
  - destruct fuel' as [| fuel']; [assert (xml = []) as -> by (by apply length_zero_iff_nil; lia); reflexivity |].
    cbn [xmlBlocksFrom]. unfold xmlMatch. destruct (cut (openTag tag) xml) as [[a rest] |] eqn:E; [| done]. cbn [mbind option_bind].
    destruct (cut (closeTag tag) rest) as [[inner rest'] |] eqn:E'; [| done]. f_equal.
    apply cut_shorter in E, E'. subst. unfold openTag, closeTag in *. rewrite !length_app in *. cbn in H, H'.
    apply IH; lia.
Qed.

(** A block, and the blocks after it. *)
Lemma blocks_cons tag inner rest :
  (forall r, cut (closeTag tag) (inner ++ closeTag tag ++ r) = Some (inner, r)) ->
  xmlBlocks (openTag tag ++ inner ++ closeTag tag ++ rest) tag = inner :: xmlBlocks rest tag.
Proof.
  intros Hc. unfold xmlBlocks. set (xml := openTag tag ++ _).
  destruct (length xml) as [| n] eqn:En; [subst xml; unfold openTag in En; rewrite length_app in En; cbn in En; lia |].
  cbn [xmlBlocksFrom]. unfold xmlMatch. unfold xml at 1. rewrite cut_here. cbn [mbind option_bind]. rewrite Hc. f_equal.
  apply blocks_fuel; [| done]. unfold xml in En. rewrite !length_app in En. unfold openTag in En. cbn in En. lia.
Qed.

(** ** Texts without a tag *)

(** [u] holds no beginning of [pat], whatever follows. *)
Definition skips (pat u : jstring) : Prop :=
  forall r, cut pat (u ++ r) = (fun x => (u ++ x.1, x.2)) <$> cut pat r.

Lemma skips_app pat u v : skips pat u -> skips pat v -> skips pat (u ++ v).
Proof. intros Hu Hv r. rewrite <- app_assoc, Hu, Hv. destruct (cut pat r) as [[] |]; [| done]. cbn. by rewrite app_assoc. Qed.
Lemma skips_nil pat : skips pat [].
Proof. intros r. cbn [app]. by destruct (cut pat r) as [[] |]. Qed.
Lemma skips_plain x pat u : x ∉ u -> skips (x :: pat) u.
Proof. intros Hu r. by apply cut_past. Qed.
Lemma skips_cut pat u r : skips pat u -> cut pat (u ++ pat ++ r) = Some (u, r).
Proof. intros Hu. rewrite Hu, cut_here. cbn. by rewrite app_nil_r. Qed.

(** A text that is written out. *)
Ltac skips_text := let r := fresh in intros r; cbn; by destruct (cut _ r) as [[] |].

(** A row of such texts and of values without an angle bracket. *)
Ltac skips_tags solver :=
  first [ apply skips_app; [first [skips_text | apply skips_plain; solver] | skips_tags solver]
        | skips_text | apply skips_plain; solver ].

Lemma blocks_skip tag u rest : skips (openTag tag) u -> xmlBlocks (u ++ rest) tag = xmlBlocks rest tag.
Proof.
  intros Hu. unfold xmlBlocks. rewrite (blocks_fuel (length (u ++ rest)) (S (length (u ++ rest))) tag) by lia.
  rewrite (blocks_fuel (length rest) (S (length rest + length u)) tag rest) by lia.
  cbn [xmlBlocksFrom]. unfold xmlMatch. rewrite Hu. destruct (cut (openTag tag) rest) as [[a b] |] eqn:E; [| done].
  cbn [mbind option_bind fmap option_fmap option_map fst snd].
  destruct (cut (closeTag tag) b) as [[i r] |] eqn:E'; [| done]. f_equal. apply cut_shorter in E, E'. subst.
  rewrite !length_app. apply blocks_fuel; lia.
Qed.

Lemma encode_plain s : 38%N ∉ s -> encodeXml (fun c => (c =? 38)%N) s = s.
Proof.
  induction s as [| c s IH]; [done |]. rewrite not_elem_of_cons. intros [Hc Hs]. rewrite encodeXml_cons, IH by done.
  unfold entity. by rewrite (proj2 (N.eqb_neq c 38)) by done.
Qed.
Lemma decodeXml_plain s : 38%N ∉ s -> decodeXml s = s.
Proof. intros Hs. rewrite <- (encode_plain s Hs) at 1. by apply decode_encode_xml. Qed.

(** Entities hold no angle bracket. *)
Lemma encode_no_open which s : (which 60%N = false -> 60%N ∉ s) -> 60%N ∉ encodeXml which s.
Proof.
  intros Hw. induction s as [| c s IH]; [apply not_elem_of_nil |]. rewrite encodeXml_cons, elem_of_app.
  intros [Hin | Hin]; [| revert Hin; apply IH; intros E; specialize (Hw E); set_solver].
  unfold entity in Hin. destruct (which c) eqn:Ec; [| apply list_elem_of_singleton in Hin as <-; by apply (Hw Ec); left].
  repeat (case_match; [vm_compute in Hin; by repeat (apply elem_of_cons in Hin as [? | Hin]; [done |]); apply elem_of_nil in Hin |]).
  apply list_elem_of_singleton in Hin as <-. done.
Qed.

Lemma tag_read tag u value rest :
  skips (openTag tag) u -> skips (closeTag tag) value -> 
  xmlTag (u ++ openTag tag ++ value ++ closeTag tag ++ rest) tag = Some (decodeXml value).
Proof.
  intros Hu Hv. unfold xmlTag, xmlMatch. rewrite skips_cut by done. cbn [mbind option_bind]. by rewrite skips_cut.
Qed.
