(* ===== verification/BakWorld.v ===== *)
(** * The world of backup copies

    What the copier of finished backups ([backups/]) works on: its own files, the
    artifacts, the control plane that opens keys, and the object storages.  The
    storage is a specification: what an S3-compatible service does with the
    requests the client sends.

    Every call to the outside (a file, a request, a key to open) takes the next
    fate: it goes well, fails, is lost on its way there or back, is refused with
    any answer, or the daemon dies before it.  Time passes as the fates say. *)

From stdpp Require Import gmap sorting.
From S2P Require Import Prelude Text Json Number Dates BakXml.

#[local] Open Scope N_scope.

(** ** Data ([copy-queue.ts], [s3/upload.ts], [commands-contracts.ts]) *)

Record BackupCopyTargetWire := {
  destinationId : jstring; targetName : jstring; endpoint : jstring; region : jstring; bucket : jstring; prefix : jstring;
  pathStyle : bool; serverSideEncryption : bool; accessKeyId : jstring; secretKeyEnvelope : jstring
}.

Record CopyJob := {
  jobId : jstring; target : BackupCopyTargetWire; managedId : jstring; backupId : jstring; policyId : option jstring;
  artifactExtension : jstring; jobSha256 : jstring; sizeBytes : N; retentionKeep : option N; createdAt : jstring; attempts : N;
  nextAttemptAt : option jstring; lastError : option jstring
}.

Inductive copyState := Copied | Failed.
#[global] Instance copyState_dec : EqDecision copyState.
Proof. solve_decision. Defined.

Record CopyReport := {
  reportDestination : jstring; reportManaged : jstring; reportBackup : jstring; reportPolicy : option jstring;
  reportState : copyState; reportError : option jstring; reportKey : option jstring; reportSize : option N;
  reportAttempts : N; finishedAt : jstring; pruned : list jstring
}.

Record UploadState := {
  stKey : jstring; uploadId : jstring; partBytes : N; stSize : N; stMtime : Z; parts : list (N * jstring)
}.

(** ** Requests and answers *)

Record request := {
  rqMethod : jstring; rqKey : jstring; rqQuery : list (jstring * jstring); rqHeaders : list (jstring * jstring);
  rqBody : option bytes
}.

(** The text is [None] when the body cannot be read to its end. *)
Record answer := { status : Z; headers : list (jstring * jstring); body : option jstring }.

Definition assoc (name : jstring) (l : list (jstring * jstring)) : option jstring :=
  snd <$> head (filter (fun e => e.1 = name) l).

(** ** A storage *)

Record upload := { upKey : jstring; upParts : gmap N (jstring * bytes) }.
(** Objects with the time they were stored. *)
Record storage := { objects : gmap jstring (bytes * Z); uploads : gmap jstring upload; issued : nat }.
Definition newStorage : storage := {| objects := ∅; uploads := ∅; issued := 0 |}.

(** The names a storage gives to uploads and parts, in the order it gives them. *)
Class StorageNames := { uploadName : nat -> jstring; etagName : nat -> jstring }.
(** Upload ids are not reused; the checksum of a part is a header value. *)
Class StorageLaws `{StorageNames} := {
  uploadName_inj : forall m n, uploadName m = uploadName n -> m = n;
  uploadName_some : forall n, uploadName n <> [];
  etagName_some : forall n, etagName n <> [];
  etagName_plain : forall n, Forall (fun c => c < 128 /\ c <> 60) (etagName n)
}.

Definition succeeds (text : jstring) (hs : list (jstring * jstring)) : answer :=
  {| status := 200; headers := hs; body := Some text |}.
Definition errorAnswer (code : Z) (name : jstring) : answer :=
  {| status := code; headers := []; body := Some ("<Error><Code>" ++ name ++ "</Code></Error>") |}.

Definition everyEntity (c : N) : bool := memb c [60; 62; 34; 39; 38].
Definition tagged (tag inner : jstring) : jstring := openTag tag ++ inner ++ closeTag tag.
Definition tagText (tag value : jstring) : jstring := tagged tag (encodeXml everyEntity value).

(** The parts a request to complete an upload names. *)
Definition readParts (body : bytes) : option (list (N * jstring)) :=
  mapM (fun block => n ← xmlTag block "PartNumber"; e ← xmlTag block "ETag"; Some (Z.to_N (decimalValue n), e))
    (xmlBlocks (decode_lenient body) "Part").

Definition partOf (u : upload) (p : N * jstring) : option bytes :=
  '(tag, content) ← upParts u !! p.1; if decide (tag = p.2) then Some content else None.

(** The object a request to complete an upload makes. *)
Definition assemble (u : upload) (content : option bytes) : option bytes :=
  text ← content;
  ps ← readParts text;
  contents ← mapM (partOf u) ps;
  Some (mjoin contents).

(** Every object under a prefix, in one page. *)
Definition listing (s : storage) (prefix : jstring) : jstring :=
  tagged "ListBucketResult" (tagged "IsTruncated" "false" ++
    (map_to_list (objects s) ≫= (fun '(k, (content, at_)) =>
       if startsWith prefix k
       then tagged "Contents" (tagText "Key" k ++ tagText "LastModified" (toISOString at_) ++
              tagText "Size" (decimalText (N.of_nat (length content))))
       else []))).

Section serve.
Context `{StorageNames}.

Definition serveUpload (now : Z) (rq : request) (id : jstring) (u : upload) (s : storage) : answer * storage :=
  if decide (rqMethod rq = "PUT") then
    match assoc "partNumber" (rqQuery rq), rqBody rq with
    | Some n, Some content =>
        let tag := etagName (issued s) in
        let u' := {| upKey := upKey u; upParts := <[Z.to_N (decimalValue n) := (tag, content)]> (upParts u) |} in
        (succeeds [] [("etag" : jstring, tag)],
         {| objects := objects s; uploads := <[id := u']> (uploads s); issued := S (issued s) |})
    | _, _ => (errorAnswer 400 "InvalidArgument", s)
    end
  else if decide (rqMethod rq = "POST") then
    match assemble u (rqBody rq) with
    | Some content =>
        (succeeds "<CompleteMultipartUploadResult></CompleteMultipartUploadResult>" [],
         {| objects := <[upKey u := (content, now)]> (objects s); uploads := delete id (uploads s); issued := issued s |})
    | None => (errorAnswer 400 "InvalidPart", s)
    end
  else if decide (rqMethod rq = "DELETE") then
    (succeeds [] [], {| objects := objects s; uploads := delete id (uploads s); issued := issued s |})
  else (errorAnswer 405 "MethodNotAllowed", s).

Definition serveObject (now : Z) (rq : request) (s : storage) : answer * storage :=
  if decide (rqMethod rq = "PUT") then
    (succeeds [] [], {| objects := <[rqKey rq := (default [] (rqBody rq), now)]> (objects s);
                        uploads := uploads s; issued := issued s |})
  else if decide (rqMethod rq = "DELETE") then
    (succeeds [] [], {| objects := delete (rqKey rq) (objects s); uploads := uploads s; issued := issued s |})
  else if decide (rqMethod rq = "HEAD") then
    match objects s !! rqKey rq with
    | Some (content, _) => (succeeds [] [("content-length" : jstring, decimalText (N.of_nat (length content)))], s)
    | None => (errorAnswer 404 "NoSuchKey", s)
    end
  else (errorAnswer 405 "MethodNotAllowed", s).

Definition serve (now : Z) (rq : request) (s : storage) : answer * storage :=
  match assoc "uploadId" (rqQuery rq) with
  | Some id =>
      match uploads s !! id with
      | Some u => if decide (upKey u = rqKey rq) then serveUpload now rq id u s else (errorAnswer 404 "NoSuchUpload", s)
      | None => (errorAnswer 404 "NoSuchUpload", s)
      end
  | None =>
      match assoc "uploads" (rqQuery rq), assoc "list-type" (rqQuery rq) with
      | Some _, _ =>
          let id := uploadName (issued s) in
          (succeeds (tagged "InitiateMultipartUploadResult" (tagText "UploadId" id)) [],
           {| objects := objects s; uploads := <[id := {| upKey := rqKey rq; upParts := ∅ |}]> (uploads s);
              issued := S (issued s) |})
      | None, Some _ => (succeeds (listing s (default [] (assoc "prefix" (rqQuery rq)))) [], s)
      | None, None => serveObject now rq s
      end
  end.
End serve.

(** ** Files and the rest of the world *)

(** A file of the queue, of the reports or of the uploads holds a value this code
    wrote, or ([None]) something its reader refuses.  Files written under
    another name and renamed appear at once. *)
Record artifact := { content : bytes; mtime : Z }.
Abbreviation path := (list jstring).
Record disk := {
  queue : gmap jstring (option CopyJob); reports : gmap jstring (option CopyReport);
  states : gmap jstring (option UploadState); uploadsDir : bool; artifacts : gmap path artifact
}.

Inductive fate := Fine | Fails (reason : jstring) | Lost | AnswerLost | BodyLost | Refused (a : answer) | Dies.

(** A bucket of an endpoint. *)
Abbreviation address := (jstring * jstring)%type.

(** [panel]: how the control plane opens envelopes while it is attached.
    [opened]: the keys opened by this process. *)
Record world := {
  files : disk; stores : gmap address storage; fates : list (fate * N); time : Z;
  panel : option (jstring -> option jstring); opened : gmap jstring jstring
}.

Definition setFiles (d : disk) (w : world) : world :=
  {| files := d; stores := stores w; fates := fates w; time := time w; panel := panel w; opened := opened w |}.
Definition setStore (a : address) (s : storage) (w : world) : world :=
  {| files := files w; stores := <[a := s]> (stores w); fates := fates w; time := time w; panel := panel w;
     opened := opened w |}.
Definition setOpened (o : gmap jstring jstring) (w : world) : world :=
  {| files := files w; stores := stores w; fates := fates w; time := time w; panel := panel w; opened := o |}.
Definition passing (fs : list (fate * N)) (t : Z) (w : world) : world :=
  {| files := files w; stores := stores w; fates := fs; time := t; panel := panel w; opened := opened w |}.
Definition storeAt (a : address) (w : world) : storage := default newStorage (stores w !! a).

Definition setQueue (q : gmap jstring (option CopyJob)) (d : disk) : disk :=
  {| queue := q; reports := reports d; states := states d; uploadsDir := uploadsDir d; artifacts := artifacts d |}.
Definition setReports (r : gmap jstring (option CopyReport)) (d : disk) : disk :=
  {| queue := queue d; reports := r; states := states d; uploadsDir := uploadsDir d; artifacts := artifacts d |}.
Definition setStates (s : gmap jstring (option UploadState)) (d : disk) : disk :=
  {| queue := queue d; reports := reports d; states := s; uploadsDir := uploadsDir d; artifacts := artifacts d |}.
Definition setArtifacts (a : gmap path artifact) (d : disk) : disk :=
  {| queue := queue d; reports := reports d; states := states d; uploadsDir := uploadsDir d; artifacts := a |}.

(** ** Effects *)

(** [S3Error] of [s3/client.ts], any other error by its message, and the end of
    the process, which no handler sees. *)
Record S3Error := { message : jstring; httpStatus : Z; code : jstring; retryable : bool }.
Inductive failure := StorageFailure (e : S3Error) | OtherFailure (reason : jstring) | Crashed.

Definition copyIO (A : Type) : Type := world -> result failure A * world.
#[global] Instance io_ret : MRet copyIO := fun A a w => (Ok a, w).
#[global] Instance io_bind : MBind copyIO := fun A B k m w =>
  match m w with (Ok a, w') => k a w' | (Throw e, w') => (Throw e, w') end.
Definition throw {A} (e : failure) : copyIO A := fun w => (Throw e, w).
Definition gets {A} (f : world -> A) : copyIO A := fun w => (Ok (f w), w).
Definition modify (f : world -> world) : copyIO unit := fun w => (Ok tt, f w).
Definition catch {A} (m : copyIO A) (handler : failure -> copyIO A) : copyIO A := fun w =>
  match m w with
  | (Throw Crashed, w') => (Throw Crashed, w')
  | (Throw e, w') => handler e w'
  | r => r
  end.

(** The next fate. *)
Definition effect : copyIO fate := fun w =>
  match fates w with
  | [] => (Ok Fine, w)
  | (f, d) :: fs =>
      let w' := passing fs (time w + Z.of_N d) w in
      match f with Dies => (Throw Crashed, w') | _ => (Ok f, w') end
  end.

(** A file call: it fails, or does what it does. *)
Definition fileCall {A} (f : world -> result failure A * world) : copyIO A :=
  fate ← effect;
  match fate with Fails reason => throw (OtherFailure reason) | _ => f end.

(** One step after another. *)
Fixpoint inTurn {A} (step : A -> copyIO unit) (items : list A) : copyIO unit :=
  match items with
  | [] => mret tt
  | x :: items' => '_ ← step x; inTurn step items'
  end.

(** ** Triples

    [triple P m Q E]: run where [P] holds, [m] ends with a value as [Q] says or
    with a failure as [E] says. *)
Definition triple {A} (P : world -> Prop) (m : copyIO A) (Q : A -> world -> Prop) (E : failure -> world -> Prop) : Prop :=
  forall w, P w -> match m w with (Ok a, w') => Q a w' | (Throw e, w') => E e w' end.

Section rules.
Context {A B : Type}.
Implicit Types (P : world -> Prop) (E : failure -> world -> Prop).

Lemma triple_ret P a E : triple P (mret a : copyIO A) (fun x w => x = a /\ P w) E.
Proof. intros w Hw. by split. Qed.

Lemma triple_throw P e (Q : A -> world -> Prop) E : (forall w, P w -> E e w) -> triple P (throw e) Q E.
Proof. intros H w Hw. by apply H. Qed.

Lemma triple_bind P (m : copyIO A) (k : A -> copyIO B) R Q E :
  triple P m R E -> (forall a, triple (R a) (k a) Q E) -> triple P (m ≫= k) Q E.
Proof.
  intros Hm Hk w Hw. specialize (Hm w Hw). unfold mbind, io_bind. destruct (m w) as [[a | e] w']; [by apply Hk | done].
Qed.

Lemma triple_catch P (m : copyIO A) h R Q E :
  triple P m Q R -> (forall e, e <> Crashed -> triple (R e) (h e) Q E) -> (forall w, R Crashed w -> E Crashed w) ->
  triple P (catch m h) Q E.
Proof.
  intros Hm Hh Hc w Hw. specialize (Hm w Hw). unfold catch. destruct (m w) as [[a | e] w']; [done |].
  destruct e; [by apply Hh | by apply Hh | by apply Hc].
Qed.

Lemma triple_conseq P P' (m : copyIO A) Q Q' E E' :
  triple P m Q E -> (forall w, P' w -> P w) -> (forall a w, Q a w -> Q' a w) -> (forall e w, E e w -> E' e w) ->
  triple P' m Q' E'.
Proof.
  intros Hm HP HQ HE w Hw. specialize (Hm w (HP _ Hw)). destruct (m w) as [[a | e] w']; auto.
Qed.

Lemma triple_conj P P' (m : copyIO A) Q Q' E E' :
  triple P m Q E -> triple P' m Q' E' ->
  triple (fun w => P w /\ P' w) m (fun a w => Q a w /\ Q' a w) (fun e w => E e w /\ E' e w).
Proof. intros H H' w [Hw Hw']. specialize (H w Hw). specialize (H' w Hw'). by destruct (m w) as [[a | e] w']. Qed.
End rules.

(** What does not look at the fates or the clock survives the taking of a fate. *)
Definition timeless (P : world -> Prop) : Prop := forall fs t w, P w -> P (passing fs t w).

Lemma triple_effect P E : timeless P -> (forall w, P w -> E Crashed w) -> triple P effect (fun f w => f <> Dies /\ P w) E.
Proof.
  intros Ht HE w Hw. unfold effect. destruct (fates w) as [| [f d] fs]; [done |].
  destruct f; first [by apply HE, Ht | by split; [| apply Ht]].
Qed.

Lemma triple_file {A} P (f : world -> result failure A * world) Q E :
  timeless P -> (forall e w, P w -> E e w) ->
  (forall w, P w -> match f w with (Ok a, w') => Q a w' | (Throw e, w') => E e w' end) -> triple P (fileCall f) Q E.
Proof.
  intros Ht HE Hf. eapply triple_bind; [apply triple_effect; auto |]. intros got w [_ Hw].
  destruct got; first [by apply HE | by apply Hf].
Qed.

Lemma triple_turn {A} (J : list A -> world -> Prop) (step : A -> copyIO unit) E :
  (forall x rest, triple (J (x :: rest)) (step x) (fun _ => J rest) E) ->
  forall items, triple (J items) (inTurn step items) (fun _ => J []) E.
Proof.
  intros Hs items. induction items as [| x rest IH].
  - intros w Hw. exact Hw.
  - cbn [inTurn]. eapply triple_bind; [apply Hs | intros ?; exact IH].
Qed.
