(* ===== verification/BakS3.v ===== *)
(** * The S3 client ([backups/s3/client.ts], [backups/s3/endpoint-guard.ts])

    Requests are what the client signs and sends: method, key, query, headers and
    body.  The URL they are sent to and the signature are not represented. *)

From stdpp Require Import gmap.
From S2P Require Import Prelude Text Json Number BakXml BakWorld.

#[local] Open Scope N_scope.

(** ** Which endpoints may be used

    [URL] parsing is a parameter: the members the guard reads, or nothing for a
    text that is no URL. *)
Record UrlParts := { protocol : jstring; urlUser : jstring; urlPassword : jstring; pathname : jstring; search : jstring; hash : jstring; hostname : jstring }.
Class EndpointUrl := { parseUrl : jstring -> option UrlParts }.

Definition BLOCKED_NAMES : list jstring := ["localhost"; "metadata.google.internal"; "metadata"].

(** [(\d{1,3})] four times, each at most 255. *)
Definition ipv4Part (p : jstring) : option N :=
  if forallb is_digit p && (1 <=? N.of_nat (length p)) && (N.of_nat (length p) <=? 3)
  then let n := Z.to_N (decimalValue p) in if n <=? 255 then Some n else None
  else None.
Definition ipv4Parts (host : jstring) : option (list N) :=
  let ps := split 46 host in if decide (length ps = 4%nat) then mapM ipv4Part ps else None.

Definition isLoopbackOrLinkLocalV4 (p : list N) : bool :=
  match p with a :: b :: _ => (a =? 127) || (a =? 0) || ((a =? 169) && (b =? 254)) | _ => false end.
Definition isPrivateV4 (p : list N) : bool :=
  match p with
  | a :: b :: _ =>
      (a =? 10) || ((a =? 172) && in_range 16 31 b) || ((a =? 192) && (b =? 168)) || ((a =? 100) && in_range 64 127 b)
  | _ => false
  end.

Inductive v6Class := V6Loopback | V6Private | V6Other.
#[global] Instance v6Class_dec : EqDecision v6Class.
Proof. solve_decision. Defined.

(** [host.replace(/^\[|\]$/g, "")] *)
Definition stripBrackets (host : jstring) : jstring :=
  let h := match host with 91 :: rest => rest | _ => host end in
  match rev h with 93 :: rest => rev rest | _ => h end.
Definition ipv6Class (host : jstring) : v6Class :=
  let h := toLowerCase (stripBrackets host) in
  if memb h ["::1" : jstring; "::"] || startsWith "fe80:" h || startsWith "::ffff:127." h || startsWith "::ffff:169.254." h
  then V6Loopback
  else if startsWith "fc" h || startsWith "fd" h then if startsWith "fd00:ec2" h then V6Loopback else V6Private
  else V6Other.

Definition shapeRefusal (url : UrlParts) : option jstring :=
  if negb (memb (protocol url) ["https:" : jstring; "http:"]) then Some "the endpoint must start with https://"
  else if negb (bool_decide (urlUser url = []) && bool_decide (urlPassword url = []))
  then Some "the endpoint must not contain a user name or password"
  else if negb (memb (pathname url) ["/" : jstring; ""] && bool_decide (search url = []) && bool_decide (hash url = []))
  then Some "the endpoint must be a host name only, without a path"
  else None.

(** [host.endsWith(suffix)] *)
Definition endsWithText (suffix host : jstring) : bool := startsWith (rev suffix) (rev host).

Section client.
Context `{StorageNames} `{EndpointUrl}.

Definition endpointRefusal (endpoint : jstring) (allowLoopback : bool) : option jstring :=
  match parseUrl endpoint with
  | None => Some "the endpoint is not a valid URL"
  | Some url =>
      match shapeRefusal url with
      | Some reason => Some reason
      | None =>
          let host := toLowerCase (hostname url) in
          let v4 := ipv4Parts host in
          let v6 := if startsWith "[" host then Some (ipv6Class host) else None in
          let plain := bool_decide (protocol url = "http:") in
          let loopback :=
            match v4 with Some p => isLoopbackOrLinkLocalV4 p | None => false end ||
            bool_decide (v6 = Some V6Loopback) || memb host BLOCKED_NAMES || endsWithText ".localhost" host in
          if loopback then
            if allowLoopback && plain then None
            else Some "the endpoint points at this server itself or a metadata address, which is not allowed"
          else if plain then
            if match v4 with Some p => isPrivateV4 p | None => false end || bool_decide (v6 = Some V6Private) then None
            else Some "plain http:// is only allowed for an address on a private network; use https://"
          else None
      end
  end.

(** ** Requests *)

Definition REASONS : list (jstring * jstring) := [
  ("NoSuchBucket" : jstring, "the bucket does not exist" : jstring);
  ("InvalidAccessKeyId" : jstring, "the access key id is not known to the storage" : jstring);
  ("SignatureDoesNotMatch" : jstring, "the secret key does not match the access key id (or the region is wrong)" : jstring);
  ("AccessDenied" : jstring, "the access key is not allowed to do that in this bucket" : jstring);
  ("RequestTimeTooSkewed" : jstring, "the clock on this server is too far from the storage's clock" : jstring);
  ("ExpiredToken" : jstring, "the access key has expired" : jstring);
  ("NoSuchUpload" : jstring, "the storage no longer knows the upload" : jstring);
  ("SlowDown" : jstring, "the storage asked us to slow down" : jstring)].

Definition numberText (z : Z) : jstring := if (z <? 0)%Z then 45 :: decimalText (Z.to_N (- z)) else decimalText (Z.to_N z).

Definition reasonFor (status : Z) (code : jstring) : jstring :=
  match assoc code REASONS with
  | Some known => known
  | None =>
      if memb status [301; 307; 308]%Z then "the endpoint or region is wrong for this bucket"
      else if memb status [401; 403]%Z then "the storage refused the access key"
      else if (status =? 404)%Z then "the object or bucket was not found"
      else if memb status [411; 501]%Z then "the storage does not accept this kind of request"
      else if (status =? 429)%Z then "the storage is rate limiting requests"
      else if (500 <=? status)%Z then "the storage had an error (HTTP " ++ numberText status ++ ")"
      else "the storage answered HTTP " ++ numberText status
  end.

Definition isRetryableStatus (status : Z) : bool := (status =? 429)%Z || (status =? 408)%Z || (500 <=? status)%Z.

Definition s3Error (message : jstring) (status : Z) (code : jstring) (retryable : bool) : failure :=
  StorageFailure {| BakWorld.message := message; httpStatus := status; BakWorld.code := code; BakWorld.retryable := retryable |}.

Record S3Client := { config : BackupCopyTargetWire; secretAccessKey : jstring }.
Definition addressOf (t : BackupCopyTargetWire) : address := (endpoint t, bucket t).

(** A request that arrives is served at the bucket. *)
Definition arrive (a : address) (rq : request) : copyIO answer := fun w =>
  let '(ans, s) := serve (time w) rq (storeAt a w) in (Ok ans, setStore a s w).

Definition isOk (a : answer) : bool := (200 <=? status a)%Z && (status a <? 300)%Z.

(** [fetch]: nothing when it throws. *)
Definition fetch (a : address) (rq : request) : copyIO (option answer) :=
  got ← effect;
  match got with
  | Lost => mret None
  | AnswerLost => '_ ← arrive a rq; mret None
  | BodyLost => ans ← arrive a rq; mret (Some {| status := status ans; headers := headers ans; body := None |})
  | Refused ans => mret (if isOk ans then None else Some ans)
  | _ => ans ← arrive a rq; mret (Some ans)
  end.

Definition errorFrom (response : answer) : S3Error :=
  let code := if (status response =? 204)%Z then [] else default [] (body response ≫= (fun text => xmlTag text "Code")) in
  {| message := reasonFor (status response) code; httpStatus := status response;
     code := if decide (code = []) then "HTTP" ++ numberText (status response) else code;
     retryable := isRetryableStatus (status response) || bool_decide (code = "SlowDown") |}.

Definition networkError : S3Error :=
  {| message := "the storage did not answer (network error or timeout)"; httpStatus := 0; code := "Network"; retryable := true |}.

(** [#tryOnce]: the answer, or a failure worth another try; a final one is thrown. *)
Definition tryOnce (c : S3Client) (rq : request) : copyIO (answer + S3Error) :=
  got ← fetch (addressOf (config c)) rq;
  match got with
  | None => mret (inr networkError)
  | Some response =>
      if isOk response then mret (inl response)
      else let e := errorFrom response in if retryable e then mret (inr e) else throw (StorageFailure e)
  end.

Fixpoint tries (more : nat) (last : S3Error) (c : S3Client) (rq : request) : copyIO answer :=
  match more with
  | O => throw (StorageFailure last)
  | S more =>
      got ← tryOnce c rq;
      match got with inl response => mret response | inr e => tries more e c rq end
  end.

Definition ATTEMPTS : nat := 4.

(** [#send] *)
Definition send (c : S3Client) (rq : request) : copyIO answer :=
  match endpointRefusal (endpoint (config c)) false with
  | Some refusal => throw (s3Error refusal 0 "EndpointRefused" false)
  | None => tries ATTEMPTS {| message := "the storage did not answer"; httpStatus := 0; code := "Network"; retryable := true |} c rq
  end.

(** [await response.text()] *)
Definition textOf (response : answer) : copyIO jstring :=
  match body response with Some t => mret t | None => throw (OtherFailure "error reading a body from connection") end.

(** ** Calls *)

Definition fullKey (c : S3Client) (relative : jstring) : jstring :=
  if decide (prefix (config c) = []) then relative else prefix (config c) ++ "/" ++ relative.

Definition writeHeaders (c : S3Client) (metadata : list (jstring * jstring)) : list (jstring * jstring) :=
  [("content-type" : jstring, "application/octet-stream" : jstring)] ++
  (if serverSideEncryption (config c) then [("x-amz-server-side-encryption" : jstring, "AES256" : jstring)] else []) ++
  map (fun kv => ("x-amz-meta-" ++ kv.1, kv.2)) metadata.

Definition putObject (c : S3Client) (key : jstring) (content : bytes) (metadata : list (jstring * jstring)) : copyIO unit :=
  '_ ← send c {| rqMethod := "PUT"; rqKey := key; rqQuery := []; rqHeaders := writeHeaders c metadata; rqBody := Some content |};
  mret tt.

Definition createMultipartUpload (c : S3Client) (key : jstring) (metadata : list (jstring * jstring)) : copyIO jstring :=
  response ← send c {| rqMethod := "POST"; rqKey := key; rqQuery := [("uploads" : jstring, [])];
                       rqHeaders := writeHeaders c metadata; rqBody := None |};
  text ← textOf response;
  match xmlTag text "UploadId" with
  | Some ((_ :: _) as id) => mret id
  | _ => throw (s3Error "the storage did not start the upload" 200 "NoUploadId" false)
  end.

Definition uploadPart (c : S3Client) (key uploadId : jstring) (partNumber : N) (content : bytes) : copyIO jstring :=
  response ← send c {| rqMethod := "PUT"; rqKey := key;
                       rqQuery := [("partNumber" : jstring, decimalText partNumber); ("uploadId" : jstring, uploadId)];
                       rqHeaders := []; rqBody := Some content |};
  match assoc "etag" (headers response) with
  | Some ((_ :: _) as etag) => mret etag
  | _ => throw (s3Error "the storage did not return a part checksum" 200 "NoETag" false)
  end.

(** Ampersands, then double quotes. *)
Definition escapeEtag (etag : jstring) : jstring := encodeXml (fun c => (c =? 38) || (c =? 34)) etag.
Definition completeXml (parts : list (N * jstring)) : jstring :=
  "<CompleteMultipartUpload>" ++
  (parts ≫= (fun p => "<Part><PartNumber>" ++ decimalText p.1 ++ "</PartNumber><ETag>" ++ escapeEtag p.2 ++ "</ETag></Part>")) ++
  "</CompleteMultipartUpload>".

Definition completeMultipartUpload (c : S3Client) (key uploadId : jstring) (parts : list (N * jstring)) : copyIO unit :=
  response ← send c {| rqMethod := "POST"; rqKey := key; rqQuery := [("uploadId" : jstring, uploadId)];
                       rqHeaders := [("content-type" : jstring, "application/xml" : jstring)];
                       rqBody := Some (encode_text (completeXml parts)) |};
  text ← textOf response;
  if includes "<Error>" text then
    let code := default ("CompleteFailed" : jstring) (xmlTag text "Code") in
    throw (s3Error (reasonFor 200 code) 200 code false)
  else mret tt.

(** [catch (err) { if (!(err instanceof S3Error && err.status === 404)) throw err; }] *)
Definition unlessGone {A} (gone : A) (e : failure) : copyIO A :=
  match e with StorageFailure s => if (httpStatus s =? 404)%Z then mret gone else throw e | _ => throw e end.

Definition abortMultipartUpload (c : S3Client) (key uploadId : jstring) : copyIO unit :=
  catch ('_ ← send c {| rqMethod := "DELETE"; rqKey := key; rqQuery := [("uploadId" : jstring, uploadId)];
                         rqHeaders := []; rqBody := None |}; mret tt) (unlessGone tt).

(** [Number] of a header or element that holds a whole number in digits; any
    other text is nothing. *)
Definition wholeNumber (text : jstring) : option N := if forallb is_digit text then Some (Z.to_N (decimalValue text)) else None.

Definition headObject (c : S3Client) (key : jstring) : copyIO (option (option N * list (jstring * jstring))) :=
  catch (response ← send c {| rqMethod := "HEAD"; rqKey := key; rqQuery := []; rqHeaders := []; rqBody := None |};
         let metadata := filter (fun h => startsWith "x-amz-meta-" h.1 = true) (headers response) in
         mret (Some (wholeNumber (default ("0" : jstring) (assoc "content-length" (headers response))),
                     map (fun h => (drop 11 h.1, h.2)) metadata)))
    (unlessGone None).

Definition deleteObject (c : S3Client) (key : jstring) : copyIO unit :=
  catch ('_ ← send c {| rqMethod := "DELETE"; rqKey := key; rqQuery := []; rqHeaders := []; rqBody := None |}; mret tt)
    (unlessGone tt).

Record S3ObjectInfo := { objectKey : jstring; objectSize : option N; lastModified : jstring }.

Definition infoOf (block : jstring) : option S3ObjectInfo :=
  match xmlTag block "Key" with
  | Some ((_ :: _) as key) =>
      Some {| objectKey := key; objectSize := wholeNumber (default ("0" : jstring) (xmlTag block "Size"));
              lastModified := default [] (xmlTag block "LastModified") |}
  | _ => None
  end.

(** Pages are followed as long as the storage names another one, at most [pages]. *)
Fixpoint listPages (pages : nat) (token : option jstring) (out : list S3ObjectInfo) (c : S3Client) (prefix : jstring)
    : copyIO (list S3ObjectInfo) :=
  match pages with
  | O => throw (OtherFailure "no fuel")
  | S pages =>
      let query := [("list-type" : jstring, "2" : jstring); ("prefix" : jstring, prefix)] ++
                   match token with Some ((_ :: _) as t) => [("continuation-token" : jstring, t)] | _ => [] end in
      response ← send c {| rqMethod := "GET"; rqKey := []; rqQuery := query; rqHeaders := []; rqBody := None |};
      xml ← textOf response;
      let out := out ++ omap infoOf (xmlBlocks xml "Contents") in
      match (if decide (xmlTag xml "IsTruncated" = Some ("true" : jstring)) then xmlTag xml "NextContinuationToken" else None) with
      | Some token => listPages pages (Some token) out c prefix
      | None => mret out
      end
  end.
Definition LIST_PAGES : nat := 1000.
Definition listObjects (c : S3Client) (prefix : jstring) : copyIO (list S3ObjectInfo) := listPages LIST_PAGES None [] c prefix.
End client.
