(* ===== verification/BakUpload.v ===== *)
(** * Uploading a backup, and retention in the bucket

    [backups/s3/upload.ts], [backups/s3/prune.ts] and [backups/copy-keys.ts]. *)

From stdpp Require Import gmap sorting.
From S2P Require Import Prelude Text Json Number BakXml BakWorld BakS3.

#[local] Open Scope N_scope.

(** ** Keys *)

Record CopyKeyParts := { keyManaged : jstring; keyBackup : jstring; keyPolicy : option jstring; keyExtension : jstring }.

Definition copyFolder (p : CopyKeyParts) : jstring :=
  "managed/" ++ keyManaged p ++ "/" ++
  match keyPolicy p with Some ((_ :: _) as policy) => "policy-" ++ policy | _ => "manual" end.
Definition copyKey (p : CopyKeyParts) : jstring := copyFolder p ++ "/" ++ keyBackup p ++ "." ++ keyExtension p.

(** ** Uploading *)

Definition DEFAULT_PART_BYTES : N := 16 * 1024 * 1024.
Definition MAX_PARTS : N := 9000.

(** [statePath] is named by its job. *)
Record UploadRequest := { rqPath : path; rqObject : jstring; rqSha256 : jstring; statePath : jstring; rqPartBytes : option N }.

Definition ceilDiv (a b : N) : N := (a + b - 1) / b.
Definition partSizeFor (size preferred : N) : N := N.max preferred (ceilDiv size MAX_PARTS).

(** Reading fails or finds a state; a failure is nothing. *)
Definition readState (p : jstring) : copyIO (option UploadState) :=
  catch (fileCall (fun w => (Ok (default None (states (files w) !! p)), w))) (fun _ => mret None).

(** Written under another name and renamed; both need the directory. *)
Definition inUploads (f : world -> world) : copyIO unit :=
  fileCall (fun w => if uploadsDir (files w) then (Ok tt, f w) else (Throw (OtherFailure "No such file or directory"), w)).
Definition writeState (p : jstring) (st : UploadState) : copyIO unit :=
  '_ ← inUploads id;
  inUploads (fun w => setFiles (setStates (<[p := Some st]> (states (files w))) (files w)) w).

(** [Deno.remove(…).catch(() => {})] *)
Definition removeState (p : jstring) : copyIO unit :=
  catch (fileCall (fun w => (Ok tt, setFiles (setStates (delete p (states (files w))) (files w)) w))) (fun _ => mret tt).

(** One [file.read] gives between one byte and what was asked for, or ends: it
    stops after [short] bytes. *)
Definition readSome (file : bytes) (short position wanted : N) : option bytes :=
  let here := drop (N.to_nat position) file in
  match here with
  | [] => None
  | _ => Some (take (N.to_nat (N.min wanted (N.max 1 short))) here)
  end.

(** Each read takes at least a byte: [fuel] is the length. *)
Fixpoint readRangeFrom (fuel : nat) (file : bytes) (shorts : N -> N) (position left : N) : result jstring bytes :=
  if left =? 0 then Ok [] else
  match fuel with
  | O => Throw "no fuel"
  | S fuel =>
      match readSome file (shorts position) position left with
      | None => Throw "the backup file ended early"
      | Some got =>
          rest ← readRangeFrom fuel file shorts (position + N.of_nat (length got)) (left - N.of_nat (length got));
          Ok (got ++ rest)
      end
  end.
Definition readRange (file : bytes) (shorts : N -> N) (offset length : N) : copyIO bytes :=
  fileCall (fun w => (match readRangeFrom (N.to_nat length) file shorts offset length with
                      | Ok b => Ok b
                      | Throw e => Throw (OtherFailure e)
                      end, w)).

Section upload.
Context `{StorageNames} `{EndpointUrl} (shorts : N -> N).

Definition ignore (m : copyIO unit) : copyIO unit := catch m (fun _ => mret tt).

Definition freshState (c : S3Client) (rq : UploadRequest) (size : N) (mtimeMs : Z) (bytesPerPart : N) : copyIO UploadState :=
  id ← createMultipartUpload c (rqObject rq) [("sha256" : jstring, rqSha256 rq)];
  let st := {| stKey := rqObject rq; uploadId := id; partBytes := bytesPerPart; stSize := size; stMtime := mtimeMs; parts := [] |} in
  '_ ← writeState (statePath rq) st;
  mret st.

Definition resumableState (c : S3Client) (rq : UploadRequest) (size : N) (mtimeMs : Z) (bytesPerPart : N) : copyIO UploadState :=
  old ← readState (statePath rq);
  match old with
  | Some o =>
      if decide (stKey o = rqObject rq /\ stSize o = size /\ stMtime o = mtimeMs /\ partBytes o = bytesPerPart) then mret o
      else '_ ← ignore (abortMultipartUpload c (stKey o) (uploadId o)); freshState c rq size mtimeMs bytesPerPart
  | None => freshState c rq size mtimeMs bytesPerPart
  end.

(** [state.parts.push(…)] *)
Definition addPart (st : UploadState) (p : N * jstring) : UploadState :=
  {| stKey := stKey st; uploadId := uploadId st; partBytes := partBytes st; stSize := stSize st; stMtime := stMtime st;
     parts := parts st ++ [p] |}.

(** The numbers from one to [n]. *)
Definition upTo (n : N) : list N := map N.of_nat (seq 1 (N.to_nat n)).

(** The parts that are missing, one after the other; the state grows with each. *)
Fixpoint uploadEach (c : S3Client) (file : bytes) (st : UploadState) (rq : UploadRequest) (pending : list N) : copyIO UploadState :=
  match pending with
  | [] => mret st
  | n :: pending =>
      let offset := (n - 1) * partBytes st in
      let length := N.min (partBytes st) (stSize st - offset) in
      range ← readRange file shorts offset length;
      etag ← uploadPart c (rqObject rq) (uploadId st) n range;
      let st := addPart st (n, etag) in
      '_ ← writeState (statePath rq) st;
      uploadEach c file st rq pending
  end.
Definition uploadParts (c : S3Client) (file : bytes) (st : UploadState) (rq : UploadRequest) : copyIO UploadState :=
  let total := ceilDiv (stSize st) (partBytes st) in
  uploadEach c file st rq (filter (fun n => n ∉ map fst (parts st)) (upTo total)).

(** [state.parts.sort((a, b) => a.n - b.n)] *)
Definition partLe (a b : N * jstring) : Prop := a.1 <= b.1.
#[global] Instance partLe_dec : RelDecision partLe := fun a b => decide (a.1 <= b.1).
Definition sortParts (l : list (N * jstring)) : list (N * jstring) := merge_sort partLe l.

(** [Deno.stat] and [Deno.open] of the artifact. *)
Definition openArtifact (p : path) : copyIO artifact :=
  fileCall (fun w => (match artifacts (files w) !! p with
                      | Some a => Ok a
                      | None => Throw (OtherFailure "No such file or directory")
                      end, w)).

Definition sizeOf (a : artifact) : N := N.of_nat (length (content a)).

Definition uploadBackupFile (c : S3Client) (rq : UploadRequest) : copyIO N :=
  info ← openArtifact (rqPath rq);
  let size := sizeOf info in
  let bytesPerPart := partSizeFor size (default DEFAULT_PART_BYTES (rqPartBytes rq)) in
  file ← openArtifact (rqPath rq);
  '_ ← (if size <=? bytesPerPart then
          range ← readRange (content file) shorts 0 size;
          putObject c (rqObject rq) range [("sha256" : jstring, rqSha256 rq)]
        else
          st ← resumableState c rq size (mtime info) bytesPerPart;
          catch (st ← uploadParts c (content file) st rq;
                 completeMultipartUpload c (rqObject rq) (uploadId st) (sortParts (parts st)))
            (fun e =>
               '_ ← match e with
                    | StorageFailure s => if decide (code s = "NoSuchUpload") then removeState (statePath rq) else mret tt
                    | _ => mret tt
                    end;
               throw e));
  '_ ← removeState (statePath rq);
  head ← headObject c (rqObject rq);
  if bool_decide (fst <$> head = Some (Some size)) then mret size
  else throw (s3Error "the stored copy is not the same size as the backup" 200 "SizeMismatch" true).

Definition abandonUpload (c : S3Client) (p : jstring) : copyIO unit :=
  st ← readState p;
  '_ ← match st with Some st => ignore (abortMultipartUpload c (stKey st) (uploadId st)) | None => mret tt end;
  removeState p.

(** ** Retention in the bucket *)

Definition backupIdOfKey (key : jstring) : option jstring :=
  let name := default [] (last (split 47 key)) in
  let id := match indexOf 46 name with Some (S d) => take (S d) name | _ => [] end in
  if negb (bool_decide (id = [])) && forallb (fun c => is_alnum c || (c =? 95) || (c =? 45)) id then Some id else None.

(** [a < b] of strings *)
Fixpoint textLt (a b : jstring) : bool :=
  match a, b with
  | _, [] => false
  | [], _ :: _ => true
  | x :: a, y :: b => (x <? y) || ((x =? y) && textLt a b)
  end.

(** [compare(a, b) <= 0]: the copy just made first, then the newest, then the
    greatest key. *)
Definition newerLe (justCopied : jstring) (a b : S3ObjectInfo) : bool :=
  if decide (objectKey a = justCopied) then true
  else if decide (objectKey b = justCopied) then false
  else if decide (lastModified a = lastModified b) then negb (textLt (objectKey a) (objectKey b))
  else textLt (lastModified b) (lastModified a).
Fixpoint insertNewer (justCopied : jstring) (x : S3ObjectInfo) (l : list S3ObjectInfo) : list S3ObjectInfo :=
  match l with
  | [] => [x]
  | y :: l' => if newerLe justCopied x y then x :: l else y :: insertNewer justCopied x l'
  end.
Definition newestFirst (justCopied : jstring) (l : list S3ObjectInfo) : list S3ObjectInfo :=
  foldr (insertNewer justCopied) [] l.

Definition pruneBucketFolder (c : S3Client) (folder : jstring) (keep : N) (justCopied : jstring) : copyIO (list jstring) :=
  objects ← listObjects c (folder ++ "/");
  let sorted := newestFirst justCopied (filter (fun o => backupIdOfKey (objectKey o) <> None) objects) in
  let old := drop (N.to_nat keep) sorted in
  '_ ← inTurn (fun o => deleteObject c (objectKey o)) old;
  mret (omap (fun o => backupIdOfKey (objectKey o)) old).
End upload.
