(* ===== verification/BakCopier.v ===== *)
(** * The copier of finished backups

    [backups/copy-queue.ts], [copy-target.ts], [copier.ts] and
    [copy-reporter.ts]: jobs wait in files, the copier takes those that are due
    and ends each with a report, the reporter sends reports until the control
    plane answers.  A run over the queue is cut between its jobs; enqueueing (by
    another process), answers and restarts come in between. *)

From stdpp Require Import gmap.
From S2P Require Import Prelude Text Json Number Dates GateApproval Log FwRender HaIntent MonState.
From S2P Require Import BakXml BakWorld BakS3 BakUpload.

#[local] Open Scope N_scope.

(** ** The queue ([copy-queue.ts]) *)

(** [/^[0-9a-f]{32}$/], and with [.json] the names of files that are read. *)
Definition JOB_ID_RE (s : jstring) : bool :=
  bool_decide (length s = 32%nat) && forallb (fun c => is_digit c || in_range 97 102 c) s.

Definition setJobId (id : jstring) (created : jstring) (j : CopyJob) : CopyJob :=
  {| jobId := id; target := target j; managedId := managedId j; backupId := backupId j; policyId := policyId j;
     artifactExtension := artifactExtension j; jobSha256 := jobSha256 j; sizeBytes := sizeBytes j;
     retentionKeep := retentionKeep j; createdAt := created; attempts := 0; nextAttemptAt := nextAttemptAt j;
     lastError := lastError j |}.

(** Directory, temporary file, rename: only the last one is seen. *)
Definition writeAtomic (f : disk -> disk) : copyIO unit :=
  '_ ← fileCall (fun w => (Ok tt, w));
  '_ ← fileCall (fun w => (Ok tt, w));
  fileCall (fun w => (Ok tt, setFiles (f (files w)) w)).

Definition saveCopyJob (job : CopyJob) : copyIO unit :=
  writeAtomic (fun d => setQueue (<[jobId job := Some job]> (queue d)) d).
Definition writeCopyReport (id : jstring) (report : CopyReport) : copyIO unit :=
  writeAtomic (fun d => setReports (<[id := Some report]> (reports d)) d).

(** [Deno.remove(…).catch(() => {})] *)
Definition removeCopyJob (id : jstring) : copyIO unit :=
  ignore (fileCall (fun w => (Ok tt, setFiles (setQueue (delete id (queue (files w))) (files w)) w))).
Definition removeCopyReport (id : jstring) : copyIO unit :=
  ignore (fileCall (fun w => (Ok tt, setFiles (setReports (delete id (reports (files w))) (files w)) w))).

(** A file that cannot be read is skipped. *)
Fixpoint readAll {A} (ids : list jstring) (read : world -> jstring -> option A) : copyIO (list (jstring * A)) :=
  match ids with
  | [] => mret []
  | id :: ids =>
      got ← catch (fileCall (fun w => (Ok (read w id), w))) (fun _ => mret None);
      rest ← readAll ids read;
      mret (match got with Some a => (id, a) :: rest | None => rest end)
  end.

Section copier.
Context `{StorageNames} `{EndpointUrl} `{Crypto} `{Collation} `{JsDates} (shorts : N -> N).

Definition copyJobId (managed backup : jstring) : jstring :=
  take 32 (encodeHex (sha256 (encode_text (managed ++ "/" ++ backup)))).

(** The fields of [input] that [enqueueCopyJob] sets itself are replaced. *)
Definition enqueueCopyJob (input : CopyJob) : copyIO jstring :=
  let id := copyJobId (managedId input) (backupId input) in
  queued ← catch (fileCall (fun w => (Ok (bool_decide (is_Some (queue (files w) !! id))), w))) (fun _ => mret false);
  if queued : bool then mret id
  else
    now ← gets time;
    '_ ← saveCopyJob (setJobId id (toISOString now) input);
    mret id.

Fixpoint insertOlder (x : CopyJob) (l : list CopyJob) : list CopyJob :=
  match l with
  | [] => [x]
  | y :: l' => if localeLe (createdAt x) (createdAt y) then x :: l else y :: insertOlder x l'
  end.

(** [parseJob] checks that a job is in the file of its name. *)
Definition readJob (w : world) (id : jstring) : option CopyJob :=
  job ← default None (queue (files w) !! id); if decide (jobId job = id) then Some job else None.

Definition listCopyJobs : copyIO (list CopyJob) :=
  names ← fileCall (fun w => (Ok (filter (fun id => JOB_ID_RE id = true) (map fst (map_to_list (queue (files w))))), w));
  read ← readAll names readJob;
  mret (foldr insertOlder [] (map snd read)).

Definition listCopyReports : copyIO (list (jstring * CopyReport)) :=
  names ← fileCall (fun w => (Ok (filter (fun id => JOB_ID_RE id = true) (map fst (map_to_list (reports (files w))))), w));
  read ← readAll names (fun w id => default None (reports (files w) !! id));
  mret (take 20 read).

(** ** Opening the target ([copy-target.ts]) *)

Definition openTargetClient (t : BackupCopyTargetWire) : copyIO S3Client :=
  known ← gets opened;
  match known !! secretKeyEnvelope t with
  | Some key => mret {| config := t; secretAccessKey := key |}
  | None =>
      attached ← gets panel;
      match attached with
      | None => throw (s3Error "the control plane is not reachable to open the secret key" 0 "NoDecrypt" true)
      | Some decrypt =>
          plain ← catch (fileCall (fun w => (Ok (decrypt (secretKeyEnvelope t)), w)))
                    (fun _ => throw (s3Error "the control plane did not answer when opening the secret key" 0 "NoDecrypt" true));
          match plain with
          | Some ((_ :: _) as key) =>
              '_ ← modify (fun w => setOpened (<[secretKeyEnvelope t := key]> (opened w)) w);
              mret {| config := t; secretAccessKey := key |}
          | _ => throw (s3Error "the secret key could not be opened; save the target again" 0 "BadEnvelope" false)
          end
      end
  end.

(** ** The copier ([copier.ts]) *)

Definition MAX_ATTEMPTS : N := 8.
Definition RETRY_MINUTES : list Z := [1; 5; 15; 60; 360]%Z.
Definition NON_RETRYABLE_ATTEMPTS : N := 2.
Definition MAX_RESULT_ERROR_LENGTH : nat := 2000.

(** [RETRY_MINUTES[Math.min(failedAttempts, RETRY_MINUTES.length) - 1]!], for one or more. *)
Definition retryDelayMinutes (failedAttempts : N) : Z :=
  default 0%Z (RETRY_MINUTES !! (N.to_nat (N.min failedAttempts 5) - 1)%nat).

Definition plainError (e : failure) : jstring * bool :=
  match e with
  | StorageFailure s => (message s, retryable s)
  | OtherFailure text => (sanitizeForLog text, true)
  | Crashed => ([], true)
  end.

(** [managedBackupArtifactPath] of [managed/engine-paths.ts], under the backup
    directory. *)
Definition managedBackupArtifactPath (managed backup ext : jstring) (policy : option jstring) : result failure path :=
  if negb (SAFE_MANAGED_ID_RE backup) then Throw (OtherFailure "backupId contains unsupported characters")
  else if negb (memb ext ["dump" : jstring; "sql"])
  then Throw (OtherFailure ("unsupported backup artifact extension: " ++ ext))
  else match policy with
       | None => Ok ["managed" : jstring; managed; backup ++ "." ++ ext]
       | Some p =>
           if negb (SAFE_MANAGED_ID_RE p) then Throw (OtherFailure "policyId contains unsupported characters")
           else Ok ["managed" : jstring; managed; "policy-" ++ p; backup ++ "." ++ ext]
       end.
Definition artifactPath (job : CopyJob) : result failure path :=
  managedBackupArtifactPath (managedId job) (backupId job) (artifactExtension job) (policyId job).

Definition keyParts (job : CopyJob) : CopyKeyParts :=
  {| keyManaged := managedId job; keyBackup := backupId job; keyPolicy := policyId job; keyExtension := artifactExtension job |}.

Definition prune (c : S3Client) (job : CopyJob) (key : jstring) : copyIO (list jstring) :=
  match retentionKeep job with
  | None => mret []
  | Some keep =>
      catch (pruneBucketFolder c (fullKey c (copyFolder (keyParts job))) keep key) (fun _ => mret [])
  end.

Record outcome := { outState : copyState; outError : option jstring; outKey : option jstring; outSize : option N; outPruned : list jstring }.

Definition abandon (job : CopyJob) : copyIO unit :=
  ignore (c ← openTargetClient (target job); abandonUpload c (jobId job)).

(** An empty text is as good as none. *)
Definition someText (s : option jstring) : option jstring := match s with Some (_ :: _) => s | _ => None end.

Definition reportOf (job : CopyJob) (o : outcome) (now : Z) : CopyReport := {|
  reportDestination := destinationId (target job); reportManaged := managedId job; reportBackup := backupId job;
  reportPolicy := someText (policyId job); reportState := outState o;
  reportError := take MAX_RESULT_ERROR_LENGTH <$> someText (outError o); reportKey := someText (outKey o);
  reportSize := outSize o; reportAttempts := N.max (attempts job) 1; finishedAt := toISOString now; pruned := outPruned o
|}.

Definition finish (job : CopyJob) (o : outcome) : copyIO unit :=
  '_ ← (if decide (outState o = Failed) then abandon job else mret tt);
  now ← gets time;
  '_ ← writeCopyReport (jobId job) (reportOf job o now);
  removeCopyJob (jobId job).

Definition failedWith (reason : jstring) : outcome :=
  {| outState := Failed; outError := Some reason; outKey := None; outSize := None; outPruned := [] |}.

Definition retried (job : CopyJob) (n : N) (error next : jstring) : CopyJob :=
  {| jobId := jobId job; target := target job; managedId := managedId job; backupId := backupId job; policyId := policyId job;
     artifactExtension := artifactExtension job; jobSha256 := jobSha256 job; sizeBytes := sizeBytes job;
     retentionKeep := retentionKeep job; createdAt := createdAt job; attempts := n; nextAttemptAt := Some next;
     lastError := Some error |}.
Definition withAttempts (job : CopyJob) (n : N) : CopyJob :=
  {| jobId := jobId job; target := target job; managedId := managedId job; backupId := backupId job; policyId := policyId job;
     artifactExtension := artifactExtension job; jobSha256 := jobSha256 job; sizeBytes := sizeBytes job;
     retentionKeep := retentionKeep job; createdAt := createdAt job; attempts := n; nextAttemptAt := nextAttemptAt job;
     lastError := lastError job |}.

(** The key could not be opened because nobody answered. *)
Definition isWaiting (e : failure) : bool :=
  match e with StorageFailure s => bool_decide (code s = "NoDecrypt") | _ => false end.

Definition failed_ (job : CopyJob) (e : failure) (now : Z) : copyIO unit :=
  let '(text, again) := plainError e in
  let waiting := isWaiting e in
  let n := if waiting then attempts job else attempts job + 1 in
  let giveUp := negb waiting && ((MAX_ATTEMPTS <=? n) || (negb again && (NON_RETRYABLE_ATTEMPTS <=? n))) in
  if giveUp then finish (withAttempts job n) (failedWith text)
  else
    let delay := if waiting then 1%Z else retryDelayMinutes n in
    saveCopyJob (retried job n (take MAX_RESULT_ERROR_LENGTH text) (toISOString (now + delay * 60000)%Z)).

Definition exists_ (p : path) : copyIO bool :=
  catch (fileCall (fun w => (match artifacts (files w) !! p with
                             | Some _ => Ok true
                             | None => Throw (OtherFailure "No such file or directory")
                             end, w))) (fun _ => mret false).

Definition liftPath {A} (r : result failure A) : copyIO A := fun w => (r, w).

(** The body of [#process]. *)
Definition copyOne (job : CopyJob) : copyIO unit :=
  c ← openTargetClient (target job);
  p ← liftPath (artifactPath job);
  there ← exists_ p;
  if negb there then finish job (failedWith "the backup file is no longer on this server")
  else
    let key := fullKey c (copyKey (keyParts job)) in
    '_ ← uploadBackupFile shorts c
           {| rqPath := p; rqObject := key; rqSha256 := jobSha256 job; statePath := jobId job; rqPartBytes := None |};
    removed ← prune c job key;
    finish job {| outState := Copied; outError := None; outKey := Some key; outSize := Some (sizeBytes job); outPruned := removed |}.

Definition process (job : CopyJob) : copyIO unit :=
  catch (copyOne job) (fun e => now ← gets time; failed_ job e now).

(** [Date.parse(job.nextAttemptAt) > now] is false for a text that is no date. *)
Definition isDue (job : CopyJob) (now : Z) : bool :=
  match nextAttemptAt job with
  | Some ((_ :: _) as text) => match Date_parse text with Some t => negb (now <? t)%Z | None => true end
  | _ => true
  end.

(** ** The daemon over time

    [running]: the jobs a run has still to look at, and its clock.  [sent]: the
    reports sent to the control plane. *)
Record life := { here : world; running : option (list CopyJob * Z); sent : list (jstring * CopyReport) }.

Definition setHere (w : world) (l : life) : life := {| here := w; running := running l; sent := sent l |}.
Definition restarted (l : life) : life := {| here := setOpened ∅ (here l); running := None; sent := sent l |}.

(** [#opts.send] takes the first [accepted] messages of a tick. *)
Inductive op :=
| OpEnqueue (input : CopyJob) | OpTick | OpNext | OpReport (supported : bool) (accepted : nat) | OpAnswer (id : jstring)
| OpRestart | OpBackup (p : path) (a : artifact) | OpLose (p : path) | OpPanel (open_ : option (jstring -> option jstring)).

(** What the process makes of the end of a call: a crash starts it anew. *)
Definition settleCall {A} (l : life) (r : result failure A * world) (k : result failure A -> life -> life) : life :=
  match r with
  | (Throw Crashed, w) => restarted (setHere w l)
  | (x, w) => k x (setHere w l)
  end.

Definition nextJob (job : CopyJob) (now : Z) : copyIO unit := if isDue job now then process job else mret tt.

Definition handleResult (id : jstring) : copyIO unit := if JOB_ID_RE id then removeCopyReport id else mret tt.

Definition lifeOp (o : op) (l : life) : life :=
  match o with
  | OpEnqueue input => setHere (enqueueCopyJob input (here l)).2 l
  | OpTick =>
      match running l with
      | Some _ => l
      | None =>
          let now := time (here l) in
          settleCall l (listCopyJobs (here l)) (fun r l =>
            match r with
            | Ok jobs => {| here := here l; running := Some (jobs, now); sent := sent l |}
            | Throw _ => l
            end)
      end
  | OpNext =>
      match running l with
      | None => l
      | Some ([], _) => {| here := here l; running := None; sent := sent l |}
      | Some (job :: jobs, now) =>
          settleCall l (nextJob job now (here l)) (fun r l =>
            {| here := here l; running := match r with Ok _ => Some (jobs, now) | Throw _ => None end; sent := sent l |})
      end
  | OpReport supported accepted =>
      if supported then
        settleCall l (listCopyReports (here l)) (fun r l =>
          match r with
          | Ok rs => {| here := here l; running := running l; sent := sent l ++ take accepted rs |}
          | Throw _ => l
          end)
      else l
  | OpAnswer id => settleCall l (handleResult id (here l)) (fun _ l => l)
  | OpRestart => restarted l
  | OpBackup p a => setHere (setFiles (setArtifacts (<[p := a]> (artifacts (files (here l)))) (files (here l))) (here l)) l
  | OpLose p => setHere (setFiles (setArtifacts (delete p (artifacts (files (here l)))) (files (here l))) (here l)) l
  | OpPanel p =>
      let w := here l in
      setHere {| files := files w; stores := stores w; fates := fates w; time := time w; panel := p; opened := opened w |} l
  end.

(** Each operation with the fates of its calls. *)
Definition lifeStep (o : op * list (fate * N)) (l : life) : life :=
  lifeOp o.1 (setHere (passing o.2 (time (here l)) (here l)) l).
Definition lives (ops : list (op * list (fate * N))) (l : life) : life := foldl (fun l o => lifeStep o l) l ops.
End copier.
