(* ===== verification/BakKept.v ===== *)
(** * No queued copy is lost

    A backup whose copy was queued stays queued, or its report is kept, until the
    control plane answers the report: whatever fails, and whenever the daemon
    dies. *)

From stdpp Require Import gmap.
From S2P Require Import Prelude Text Json Number Dates GateApproval Log FwRender HaIntent MonState.
From S2P Require Import BakXml BakWorld BakS3 BakUpload BakCopier.

#[local] Open Scope N_scope.

(** ** What a call leaves as it was *)

Definition quiet {A} (I : world -> Prop) (m : copyIO A) : Prop := triple I m (fun _ => I) (fun _ => I).

(** What the storages, the opened keys and the progress of uploads do not matter to. *)
Class Steady (I : world -> Prop) : Prop := {
  steady_timeless : timeless I;
  steady_store : forall a s w, I w -> I (setStore a s w);
  steady_opened : forall o w, I w -> I (setOpened o w);
  steady_forget : forall p w, I w -> I (setFiles (setStates (delete p (states (files w))) (files w)) w);
  steady_save : forall s w, uploadsDir (files w) = true -> I w -> I (setFiles (setStates s (files w)) w)
}.

Section quiet.
Context (I : world -> Prop) `{!Steady I}.

Lemma quiet_ret {A} (a : A) : quiet I (mret a).
Proof. by intros w Hw. Qed.
Lemma quiet_throw {A} e : quiet I (throw e : copyIO A).
Proof. by intros w Hw. Qed.
Lemma quiet_gets {A} (f : world -> A) : quiet I (gets f).
Proof. by intros w Hw. Qed.
Lemma quiet_then {A B} (m : copyIO A) (k : A -> copyIO B) : quiet I m -> (forall a, quiet I (k a)) -> quiet I (m ≫= k).
Proof. intros Hm Hk. by eapply triple_bind. Qed.
Lemma quiet_catch {A} (m : copyIO A) h : quiet I m -> (forall e, quiet I (h e)) -> quiet I (catch m h).
Proof. intros Hm Hh. eapply triple_catch; [exact Hm | intros e _; apply Hh | done]. Qed.
Lemma quiet_effect : quiet I effect.
Proof. eapply triple_conseq; [apply (triple_effect I (fun _ => I)); [apply steady_timeless | done] | done | by intros ?? [] | done]. Qed.
Lemma quiet_file {A} (f : world -> result failure A * world) : (forall w, I w -> I (f w).2) -> quiet I (fileCall f).
Proof.
  intros Hf. apply triple_file; [apply steady_timeless | done |]. intros w Hw. specialize (Hf w Hw). by destruct (f w) as [[] ?].
Qed.
Lemma quiet_turn {A} (step : A -> copyIO unit) l : (forall x, quiet I (step x)) -> quiet I (inTurn step l).
Proof. intros H. apply (triple_turn (fun _ => I)). intros x _. apply H. Qed.
End quiet.

#[local] Opaque fileCall.
Create HintDb quiet discriminated.
#[export] Hint Resolve quiet_ret quiet_throw quiet_gets quiet_effect : quiet.

(** Cuts a program into its calls. *)
Ltac quietly :=
  repeat first
    [ solve [auto with quiet nocore]
    | apply quiet_then; [| intros ?] | apply quiet_catch; [| intros ?] | apply quiet_turn; intros ?
    | progress cbv beta zeta
    | match goal with |- quiet _ (match ?x with _ => _ end) => destruct x end ].

Lemma unlessGone_quiet I {A} (gone : A) e : quiet I (unlessGone gone e).
Proof. intros w Hw. unfold unlessGone. destruct e as [s | |]; [| done | done]. by destruct (httpStatus s =? 404)%Z. Qed.

Section calls.
Context `{StorageNames} `{EndpointUrl} `{Crypto} `{Collation} `{JsDates} (shorts : N -> N).
Context (I : world -> Prop) `{!Steady I}.

Lemma arrive_quiet a rq : quiet I (arrive a rq).
Proof. intros w Hw. unfold arrive. destruct (serve _ _ _) as [ans s]. by apply steady_store. Qed.
Hint Resolve arrive_quiet : quiet.

Lemma tries_quiet n last c rq : quiet I (tries n last c rq).
Proof. revert last. induction n as [| n IH]; intros last; cbn [tries]; unfold tryOnce, fetch; quietly. Qed.
Hint Resolve tries_quiet : quiet.

Lemma send_quiet c rq : quiet I (send c rq).
Proof. unfold send. quietly. Qed.
Hint Resolve send_quiet : quiet.

Hint Resolve unlessGone_quiet : quiet.

Lemma abort_quiet c k i : quiet I (abortMultipartUpload c k i).
Proof. unfold abortMultipartUpload. quietly. Qed.
Lemma delete_quiet c k : quiet I (deleteObject c k).
Proof. unfold deleteObject. quietly. Qed.
Hint Resolve abort_quiet delete_quiet : quiet.

Lemma listPages_quiet n t out c p : quiet I (listPages n t out c p).
Proof. revert t out. induction n as [| n IH]; intros t out; cbn [listPages]; unfold textOf; quietly. Qed.
Lemma listObjects_quiet c p : quiet I (listObjects c p).
Proof. apply listPages_quiet. Qed.
Hint Resolve listObjects_quiet : quiet.
#[local] Opaque listObjects.

Lemma prune_quiet c job key : quiet I (prune c job key).
Proof. unfold prune, pruneBucketFolder. quietly. Qed.

Lemma modify_quiet f : (forall w, I w -> I (f w)) -> quiet I (modify f).
Proof. intros Hf w Hw. by apply Hf. Qed.

Lemma openTarget_quiet t : quiet I (openTargetClient t).
Proof. unfold openTargetClient. quietly; [by apply (quiet_file I) |]. apply modify_quiet. intros w. apply steady_opened. Qed.
Hint Resolve prune_quiet openTarget_quiet : quiet.

Lemma readState_quiet p : quiet I (readState p).
Proof. unfold readState. quietly. by apply (quiet_file I). Qed.
Lemma removeState_quiet p : quiet I (removeState p).
Proof. unfold removeState. quietly. apply (quiet_file I). intros w. apply steady_forget. Qed.
Lemma writeState_quiet p st : quiet I (writeState p st).
Proof.
  unfold writeState, inUploads. quietly; apply (quiet_file I); intros w Hw; destruct (uploadsDir _) eqn:E; try done.
  by apply steady_save.
Qed.
Hint Resolve readState_quiet removeState_quiet writeState_quiet : quiet.

Lemma abandonUpload_quiet c p : quiet I (abandonUpload c p).
Proof. unfold abandonUpload, ignore. quietly. Qed.
Hint Resolve abandonUpload_quiet : quiet.
Lemma abandon_quiet job : quiet I (abandon job).
Proof. unfold abandon, ignore. quietly. Qed.

Lemma readRange_quiet file offset n : quiet I (readRange file shorts offset n).
Proof. unfold readRange. by apply (quiet_file I). Qed.
Lemma openArtifact_quiet p : quiet I (openArtifact p).
Proof. unfold openArtifact. by apply (quiet_file I). Qed.
Lemma create_quiet c k m : quiet I (createMultipartUpload c k m).
Proof. unfold createMultipartUpload, textOf. quietly. Qed.
Lemma uploadPart_quiet c k i n b : quiet I (uploadPart c k i n b).
Proof. unfold uploadPart. quietly. Qed.
Lemma complete_quiet c k i ps : quiet I (completeMultipartUpload c k i ps).
Proof. unfold completeMultipartUpload, textOf. quietly. Qed.
Lemma put_quiet c k b m : quiet I (putObject c k b m).
Proof. unfold putObject. quietly. Qed.
Lemma head_quiet c k : quiet I (headObject c k).
Proof. unfold headObject. quietly. Qed.
Hint Resolve readRange_quiet openArtifact_quiet create_quiet uploadPart_quiet complete_quiet put_quiet head_quiet : quiet.

Lemma uploadEach_quiet c file rq pending st : quiet I (uploadEach shorts c file st rq pending).
Proof. revert st. induction pending as [| n pending IH]; intros st; cbn [uploadEach]; quietly. Qed.
Hint Resolve uploadEach_quiet : quiet.

Lemma upload_quiet c rq : quiet I (uploadBackupFile shorts c rq).
Proof. unfold uploadBackupFile, resumableState, freshState, uploadParts, ignore. quietly. Qed.
End calls.

(** ** What is kept of a job *)

Definition waiting (j : jstring) (w : world) : Prop := exists job, queue (files w) !! j = Some (Some job) /\ jobId job = j.
Definition reported (j : jstring) (w : world) : Prop := exists r, reports (files w) !! j = Some (Some r).
Definition kept (j : jstring) (w : world) : Prop := waiting j w \/ reported j w.
(** Every job is readable, in the file of its name. *)
Definition tidy (w : world) : Prop := forall j x, queue (files w) !! j = Some x -> exists job, x = Some job /\ jobId job = j.

#[global] Instance kept_steady j : Steady (kept j).
Proof. split; unfold timeless; intros; assumption. Qed.
#[global] Instance reported_steady j : Steady (reported j).
Proof. split; unfold timeless; intros; assumption. Qed.
#[global] Instance tidy_steady : Steady tidy.
Proof. split; unfold timeless; intros; assumption. Qed.

(** A file appears at its new name, or nothing changed. *)
Lemma writeAtomic_triple (I : world -> Prop) f :
  timeless I -> triple I (writeAtomic f) (fun _ w => exists w0, I w0 /\ w = setFiles (f (files w0)) w0) (fun _ => I).
Proof.
  intros Ht. unfold writeAtomic. eapply (triple_bind I _ _ (fun _ => I)); [by apply triple_file | intros ?].
  eapply (triple_bind I _ _ (fun _ => I)); [by apply triple_file | intros ?].
  apply triple_file; [done | done |]. intros w Hw. by exists w.
Qed.

Lemma writeAtomic_quiet I `{!Steady I} f : (forall w, I w -> I (setFiles (f (files w)) w)) -> quiet I (writeAtomic f).
Proof.
  intros Hf. eapply triple_conseq; [apply (writeAtomic_triple I), steady_timeless | done | | done]. intros _ w (w0 & H0 & ->). by apply Hf.
Qed.

Lemma save_tidy job : quiet tidy (saveCopyJob job).
Proof.
  apply (writeAtomic_quiet tidy). intros w Hw j x. cbn. rewrite lookup_insert.
  case_decide as E; [intros [= <-]; subst; by exists job | apply Hw].
Qed.
Lemma save_kept j job : quiet (kept j) (saveCopyJob job).
Proof.
  apply (writeAtomic_quiet (kept j)). intros w [(job' & Hq & Hj) | Hr]; [left | by right].
  unfold waiting. cbn. rewrite lookup_insert. case_decide as E; [by exists job | by exists job'].
Qed.
Lemma save_waiting I `{!Steady I} job :
  triple I (saveCopyJob job) (fun _ w => waiting (jobId job) w) (fun _ => I).
Proof.
  eapply triple_conseq; [apply (writeAtomic_triple I), steady_timeless | done | | done]. intros _ w (w0 & _ & ->). exists job. cbn.
  by rewrite lookup_insert_eq.
Qed.

Lemma report_tidy id r : quiet tidy (writeCopyReport id r).
Proof. by apply (writeAtomic_quiet tidy). Qed.
Lemma report_kept j id r : quiet (kept j) (writeCopyReport id r).
Proof.
  apply (writeAtomic_quiet (kept j)). intros w [Hq | (r' & Hr)]; [by left | right].
  unfold reported. cbn. rewrite lookup_insert. case_decide; eauto.
Qed.
Lemma report_written I `{!Steady I} id r : triple I (writeCopyReport id r) (fun _ => reported id) (fun _ => I).
Proof.
  eapply triple_conseq; [apply (writeAtomic_triple I), steady_timeless | done | | done]. intros _ w (w0 & _ & ->). exists r. cbn.
  by rewrite lookup_insert_eq.
Qed.

Lemma remove_quiet I `{!Steady I} id :
  (forall w, I w -> I (setFiles (setQueue (delete id (queue (files w))) (files w)) w)) -> quiet I (removeCopyJob id).
Proof. intros H. unfold removeCopyJob, ignore. quietly. by apply (quiet_file I). Qed.
Lemma remove_tidy id : quiet tidy (removeCopyJob id).
Proof.
  apply (remove_quiet tidy). intros w Hw j x. cbn. rewrite lookup_delete_Some. intros [_ H]. by apply Hw.
Qed.
Lemma remove_kept j id : j <> id -> quiet (kept j) (removeCopyJob id).
Proof.
  intros Hn. apply (remove_quiet (kept j)). intros w [(job & Hq & Hj) | Hr]; [left | by right].
  exists job. cbn. by rewrite lookup_delete_ne.
Qed.
Lemma remove_reported j id : quiet (reported j) (removeCopyJob id).
Proof. by apply (remove_quiet (reported j)). Qed.

Section process.
Hint Extern 0 (Steady _) => typeclasses eauto : quiet.
Context `{StorageNames} `{EndpointUrl} `{Crypto} `{Collation} `{JsDates} (shorts : N -> N).
Hint Resolve abandon_quiet save_tidy save_kept report_tidy report_kept remove_tidy remove_kept prune_quiet openTarget_quiet upload_quiet : quiet.

Lemma finish_tidy job o : quiet tidy (finish job o).
Proof. unfold finish. quietly. Qed.

(** The report is there before the job goes. *)
Lemma finish_kept j job o : quiet (kept j) (finish job o).
Proof.
  unfold finish. apply quiet_then; [by quietly | intros ?]. apply quiet_then; [auto with quiet | intros now].
  destruct (decide (j = jobId job)) as [-> | Hn]; [| by quietly].
  eapply triple_bind; [apply (report_written (kept _)) | intros ?].
  eapply triple_conseq; [apply remove_reported | done | |]; by right.
Qed.
Hint Resolve finish_tidy finish_kept : quiet.

Lemma failed_tidy job e now : quiet tidy (failed_ job e now).
Proof. unfold failed_. destruct (plainError e). quietly. Qed.
Lemma failed_kept j job e now : quiet (kept j) (failed_ job e now).
Proof. unfold failed_. destruct (plainError e). quietly. Qed.
Hint Resolve failed_tidy failed_kept : quiet.

Lemma liftPath_quiet I {A} (r : result failure A) : quiet I (liftPath r).
Proof. intros w Hw. by destruct r. Qed.
Lemma exists_quiet I `{!Steady I} p : quiet I (exists_ p).
Proof. unfold exists_. quietly. by apply (quiet_file I). Qed.
Hint Resolve liftPath_quiet exists_quiet : quiet.

Lemma process_tidy job : quiet tidy (process shorts job).
Proof. unfold process, copyOne. quietly. Qed.
Lemma process_kept j job : quiet (kept j) (process shorts job).
Proof. unfold process, copyOne. quietly. Qed.

Lemma readAll_quiet I `{!Steady I} {A} ids (read : world -> jstring -> option A) : quiet I (readAll ids read).
Proof. induction ids as [| id ids IH]; cbn [readAll]; quietly. by apply (quiet_file I). Qed.
Hint Resolve readAll_quiet : quiet.
Lemma listCopyJobs_quiet I `{!Steady I} : quiet I listCopyJobs.
Proof. unfold listCopyJobs. quietly. by apply (quiet_file I). Qed.
Lemma listCopyReports_quiet I `{!Steady I} : quiet I listCopyReports.
Proof. unfold listCopyReports. quietly. by apply (quiet_file I). Qed.

Lemma answer_kept j id : j <> id -> quiet (kept j) (handleResult id).
Proof.
  intros Hn. unfold handleResult, removeCopyReport, ignore. quietly. apply (quiet_file (kept j)).
  intros w [Hq | (r & Hr)]; [by left | right]. exists r. cbn. by rewrite lookup_delete_ne.
Qed.
Lemma answer_tidy id : quiet tidy (handleResult id).
Proof. unfold handleResult, removeCopyReport, ignore. quietly. by apply (quiet_file tidy). Qed.

Lemma enqueue_quiet I `{!Steady I} input : (forall job, quiet I (saveCopyJob job)) -> quiet I (enqueueCopyJob input).
Proof. intros Hs. unfold enqueueCopyJob. quietly. by apply (quiet_file I). Qed.

(** A call that returns leaves a job in the queue. *)
Lemma enqueue_waits input : triple tidy (enqueueCopyJob input) (fun id w => waiting id w) (fun _ => tidy).
Proof.
  unfold enqueueCopyJob. set (id := copyJobId _ _).
  eapply (triple_bind _ _ _ (fun (q : bool) w => tidy w /\ (q = true -> waiting id w))).
  - eapply triple_catch with (R := fun _ => tidy); [| intros e _ w Hw; by split | done].
    apply triple_file; [apply steady_timeless | done |]. intros w Hw. split; [done |]. intros Hq. apply bool_decide_eq_true in Hq as [x Hx].
    destruct (Hw _ _ Hx) as (job & -> & Hj). by exists job.
  - intros [] w [Hw Hq]; [by apply Hq |].
    refine (triple_bind tidy (gets time) _ (fun _ => tidy) _ _ _ _ w Hw); [by apply quiet_gets | intros now].
    refine (triple_bind tidy _ _ (fun _ w => waiting id w) _ _ _ _); [| by intros ? w' Hw'].
    apply (save_waiting tidy (setJobId id (toISOString now) input)).
Qed.

(** ** Over time *)

Lemma settle_keeps {A} I l (m : copyIO A) k :
  quiet I m -> I (here l) -> (forall o w, I w -> I (setOpened o w)) ->
  (forall r l', I (here l') -> I (here (k r l'))) -> I (here (settleCall l (m (here l)) k)).
Proof.
  intros Hm Hl Ho Hk. specialize (Hm _ Hl). destruct (m (here l)) as [[a | e] w]; cbn [settleCall]; [by apply Hk |].
  destruct e; [by apply Hk | by apply Hk | by apply Ho].
Qed.

(** What every operation keeps. *)
Lemma step_keeps I `{!Steady I} o l :
  (forall input, quiet I (enqueueCopyJob input)) -> (forall job, quiet I (process shorts job)) ->
  (forall id, o.1 = OpAnswer id -> quiet I (handleResult id)) ->
  (forall a w, I w -> I (setFiles (setArtifacts a (files w)) w)) ->
  (forall p w, I w -> I {| files := files w; stores := stores w; fates := fates w; time := time w; panel := p; opened := opened w |}) ->
  I (here l) -> I (here (lifeStep shorts o l)).
Proof.
  destruct o as [o fs]. intros Henq Hproc Hans Harts Hpanel Hl. unfold lifeStep. cbn [fst snd].
  set (l0 := setHere _ l). assert (I (here l0)) as Hw0 by (by apply steady_timeless). clearbody l0. clear Hl.
  destruct o; cbn [lifeOp].
  - specialize (Henq input _ Hw0). cbn. by destruct (enqueueCopyJob input (here l0)) as [[] ?].
  - destruct (running l0); [done |]. apply settle_keeps; [by apply listCopyJobs_quiet | done | apply steady_opened | by intros [] ?].
  - destruct (running l0) as [[[| job jobs] now] |]; [done | | done].
    apply settle_keeps; [| done | apply steady_opened | by intros [] ?]. unfold nextJob. destruct (isDue job now); [by apply Hproc | by apply quiet_ret].
  - destruct supported; [| done]. apply settle_keeps; [by apply listCopyReports_quiet | done | apply steady_opened | by intros [] ?].
  - apply settle_keeps; [by apply Hans | done | apply steady_opened | by intros [] ?].
  - by apply steady_opened.
  - by apply Harts.
  - by apply Harts.
  - by apply Hpanel.
Qed.

Lemma lives_kept j ops l :
  Forall (fun o => o.1 <> OpAnswer j) ops -> kept j (here l) -> kept j (here (lives shorts ops l)).
Proof.
  revert l. induction ops as [| o ops IH]; intros l Ho Hl; [done |]. apply Forall_cons in Ho as [Ho Hops]. apply IH; [done |].
  apply (step_keeps (kept j)); try done.
  - intros input. apply (enqueue_quiet (kept j)). intros job. apply save_kept.
  - intros job. apply process_kept.
  - intros id E. apply answer_kept. by intros ->.
Qed.

(** C16. Once a copy was queued, its job or its report is there until the control
    plane answers the report: whatever calls fail or are lost, and whenever the
    daemon dies.  The job of the file is one the copier reads. *)
Theorem queued_copy_is_kept l input fs ops id
    (Htidy : tidy (here l))
    (Hok : (enqueueCopyJob input (passing fs (time (here l)) (here l))).1 = Ok id)
    (Hops : Forall (fun o => o.1 <> OpAnswer id) ops) :
  kept id (here (lives shorts ((OpEnqueue input, fs) :: ops) l)).
Proof.
  apply (lives_kept id ops (lifeStep shorts (OpEnqueue input, fs) l)); [done |]. left. unfold lifeStep. cbn [lifeOp fst snd here setHere].
  pose proof (enqueue_waits input (passing fs (time (here l)) (here l)) Htidy) as He.
  destruct (enqueueCopyJob _ _) as [[i | e] w]; cbn in Hok |- *; [by injection Hok as -> | done].
Qed.
End process.

(** ** An example *)

Definition exampleNames : StorageNames := {| uploadName := fun n => replicate (S n) 97; etagName := fun n => replicate (S n) 98 |}.
Lemma exampleLaws : @StorageLaws exampleNames.
Proof.
  split; cbn; try done.
  - intros m n E. apply (f_equal length) in E. cbn in E. rewrite !length_replicate in E. lia.
  - intros n. apply Forall_cons. split; [lia |]. apply Forall_forall. intros c [-> _]%elem_of_replicate. lia.
Qed.
Definition exampleUrl : EndpointUrl := {| parseUrl := fun s =>
  if startsWith "https://" s
  then Some {| protocol := "https:"; urlUser := ""; urlPassword := ""; pathname := "/"; search := ""; hash := ""; hostname := drop 8 s |}
  else None |}.
Definition exampleOrder : Collation := {| localeLe := fun _ _ => true |}.
Definition exampleDates : JsDates := {| otherDate := fun _ => None |}.

Definition exampleTarget : BackupCopyTargetWire := {|
  destinationId := "d1"; targetName := "offsite"; endpoint := "https://s3.example"; region := "eu"; bucket := "b"; prefix := "";
  pathStyle := true; serverSideEncryption := false; accessKeyId := "AK"; secretKeyEnvelope := "sealed"
|}.
Definition exampleJob : CopyJob := {|
  jobId := ""; target := exampleTarget; managedId := "m1"; backupId := "b1"; policyId := None; artifactExtension := "dump";
  jobSha256 := "00"; sizeBytes := 3; retentionKeep := Some 2; createdAt := ""; attempts := 0; nextAttemptAt := None; lastError := None
|}.
Definition exampleLife : life := {|
  here := {| files := {| queue := ∅; reports := ∅; states := ∅; uploadsDir := false; artifacts := ∅ |}; stores := ∅; fates := [];
             time := 0; panel := Some (fun _ => Some "key"); opened := ∅ |};
  running := None; sent := []
|}.
Definition exampleId : jstring := @copyJobId toyCrypto "m1" "b1".

(** The artifact is lost, a run begins, and the daemon dies while it reports. *)
Lemma queued_copy_is_kept_witness :
  kept exampleId (here (@lives exampleNames exampleUrl toyCrypto exampleOrder exampleDates (fun _ => 1)
    [(OpEnqueue exampleJob, []); (OpTick, []); (OpNext, [(Fine, 1); (Fine, 1); (Fine, 1); (Dies, 0)]); (OpRestart, [])] exampleLife)).
Proof.
  apply (@queued_copy_is_kept exampleNames exampleUrl toyCrypto exampleOrder exampleDates (fun _ => 1)).
  - intros j x. done.
  - vm_compute. reflexivity.
  - repeat (apply Forall_cons; split; [done |]). apply Forall_nil_2.
Defined.
