(* ===== verification/BakServed.v ===== *)
(** * Requests, answers and the parts of a file

    What the storage does with each request the client sends, that the parts named
    in a request are read as they were written, how a request that is tried
    again behaves, and that the parts of a file make up the file. *)

From stdpp Require Import gmap sorting.
From S2P Require Import Prelude Text Json Number JsonPrint Dates GateApproval Log FwRender FwContract HaIntent MonState.
From S2P Require Import BakXml BakWorld BakS3 BakUpload BakCopier BakKept.

#[local] Open Scope N_scope.

(** ** What the storage does with each request *)

Lemma assoc_cons n k v l : assoc n ((k, v) :: l) = if decide (k = n) then Some v else assoc n l.
Proof. unfold assoc. rewrite filter_cons. cbn [fst]. by case_decide. Qed.
Lemma assoc_nil n : assoc n [] = None.
Proof. reflexivity. Qed.

Ltac served :=
  unfold serve, serveUpload, serveObject; cbn [rqMethod rqKey rqQuery rqHeaders rqBody];
  rewrite ?assoc_cons, ?assoc_nil;
  repeat first [rewrite decide_True by done | rewrite decide_False by done].

Lemma decimalValue_text n : Z.to_N (decimalValue (decimalText n)) = n.
Proof.
  destruct (decimalDigits_spec (N.size_nat n) n [] (size_nat_bound n)) as (c & ds & E & Had & Hv & Hz).
  unfold decimalText. rewrite E, app_nil_r. rewrite Hv. apply N2Z.id.
Qed.

Section serve.
Context `{StorageNames}.
Implicit Types (s : storage) (now : Z).

Lemma serve_put now k hs b s :
  serve now {| rqMethod := "PUT"; rqKey := k; rqQuery := []; rqHeaders := hs; rqBody := Some b |} s =
  (succeeds [] [], {| objects := <[k := (b, now)]> (objects s); uploads := uploads s; issued := issued s |}).
Proof. by served. Qed.

Lemma serve_delete now k s :
  serve now {| rqMethod := "DELETE"; rqKey := k; rqQuery := []; rqHeaders := []; rqBody := None |} s =
  (succeeds [] [], {| objects := delete k (objects s); uploads := uploads s; issued := issued s |}).
Proof. by served. Qed.

Lemma serve_head now k s :
  (serve now {| rqMethod := "HEAD"; rqKey := k; rqQuery := []; rqHeaders := []; rqBody := None |} s).2 = s.
Proof. served. by destruct (objects s !! k) as [[] |]. Qed.

Lemma serve_list now p more s :
  serve now {| rqMethod := "GET"; rqKey := []; rqQuery := [("list-type" : jstring, "2" : jstring); ("prefix" : jstring, p)] ++ more;
               rqHeaders := []; rqBody := None |} s =
  match assoc "uploadId" more, assoc "uploads" more with
  | None, None => (succeeds (listing s p) [], s)
  | _, _ => serve now {| rqMethod := "GET"; rqKey := [];
               rqQuery := [("list-type" : jstring, "2" : jstring); ("prefix" : jstring, p)] ++ more; rqHeaders := []; rqBody := None |} s
  end.
Proof.
  destruct (assoc "uploadId" more) eqn:E1, (assoc "uploads" more) eqn:E2; try done. cbn [app]. served. by rewrite E1, E2.
Qed.

Lemma serve_create now k hs s :
  serve now {| rqMethod := "POST"; rqKey := k; rqQuery := [("uploads" : jstring, [])]; rqHeaders := hs; rqBody := None |} s =
  (succeeds (tagged "InitiateMultipartUploadResult" (tagText "UploadId" (uploadName (issued s)))) [],
   {| objects := objects s; uploads := <[uploadName (issued s) := {| upKey := k; upParts := ∅ |}]> (uploads s);
      issued := S (issued s) |}).
Proof. by served. Qed.

Definition known (s : storage) (id k : jstring) : option upload :=
  u ← uploads s !! id; if decide (upKey u = k) then Some u else None.

Lemma serve_part now k id n b s :
  serve now {| rqMethod := "PUT"; rqKey := k; rqQuery := [("partNumber" : jstring, decimalText n); ("uploadId" : jstring, id)];
               rqHeaders := []; rqBody := Some b |} s =
  match known s id k with
  | Some u =>
      (succeeds [] [("etag" : jstring, etagName (issued s))],
       {| objects := objects s;
          uploads := <[id := {| upKey := k; upParts := <[n := (etagName (issued s), b)]> (upParts u) |}]> (uploads s);
          issued := S (issued s) |})
  | None => (errorAnswer 404 "NoSuchUpload", s)
  end.
Proof.
  served. unfold known. destruct (uploads s !! id) as [u |]; [| done]. cbn [mbind option_bind].
  destruct (decide (upKey u = k)) as [<- |]; [| done]. 
  by rewrite decimalValue_text.
Qed.

Lemma serve_complete now k id hs b s :
  serve now {| rqMethod := "POST"; rqKey := k; rqQuery := [("uploadId" : jstring, id)]; rqHeaders := hs; rqBody := Some b |} s =
  match known s id k with
  | Some u =>
      match assemble u (Some b) with
      | Some made =>
          (succeeds "<CompleteMultipartUploadResult></CompleteMultipartUploadResult>" [],
           {| objects := <[k := (made, now)]> (objects s); uploads := delete id (uploads s); issued := issued s |})
      | None => (errorAnswer 400 "InvalidPart", s)
      end
  | None => (errorAnswer 404 "NoSuchUpload", s)
  end.
Proof.
  served. unfold known. destruct (uploads s !! id) as [u |]; [| done]. cbn [mbind option_bind].
  by destruct (decide (upKey u = k)) as [<- |].
Qed.

Lemma serve_abort now k id s :
  serve now {| rqMethod := "DELETE"; rqKey := k; rqQuery := [("uploadId" : jstring, id)]; rqHeaders := []; rqBody := None |} s =
  match known s id k with
  | Some u => (succeeds [] [], {| objects := objects s; uploads := delete id (uploads s); issued := issued s |})
  | None => (errorAnswer 404 "NoSuchUpload", s)
  end.
Proof.
  served. unfold known. destruct (uploads s !! id) as [u |]; [| done]. cbn [mbind option_bind].
  by destruct (decide (upKey u = k)) as [<- |].
Qed.
End serve.

(** ** The parts a request names are read as they were written *)

Definition plainTag (e : jstring) : Prop := Forall (fun c => c < 128 /\ c <> 60) e.

Definition partInner (p : N * jstring) : jstring :=
  openTag "PartNumber" ++ decimalText p.1 ++ closeTag "PartNumber" ++ openTag "ETag" ++ escapeEtag p.2 ++ closeTag "ETag".

Lemma completeXml_tags ps :
  completeXml ps = openTag "CompleteMultipartUpload" ++
    (ps ≫= (fun p => openTag "Part" ++ partInner p ++ closeTag "Part")) ++ closeTag "CompleteMultipartUpload".
Proof.
  unfold completeXml. change "<CompleteMultipartUpload>" with (openTag "CompleteMultipartUpload").
  change "</CompleteMultipartUpload>" with (closeTag "CompleteMultipartUpload"). do 2 f_equal.
  induction ps as [| p ps IH]; [done |]. cbn [mbind list_bind]. f_equal; [| exact IH].
  unfold partInner, openTag, closeTag. by rewrite <- !app_assoc.
Qed.

Lemma escape_no_open e : plainTag e -> 60 ∉ escapeEtag e.
Proof. intros He. apply encode_no_open. intros _ Hin. unfold plainTag in He. rewrite Forall_forall in He. by apply He in Hin as [_ ?]. Qed.
Lemma decimal_no_open n : 60 ∉ decimalText n.
Proof. by apply decimalText_no. Qed.

Lemma partInner_closes p r : plainTag p.2 -> cut (closeTag "Part") (partInner p ++ closeTag "Part" ++ r) = Some (partInner p, r).
Proof.
  intros He. apply skips_cut. unfold partInner.
  skips_tags ltac:(first [apply decimal_no_open | by apply escape_no_open]).
Qed.

Lemma partInner_number p : plainTag p.2 -> xmlTag (partInner p) "PartNumber" = Some (decimalText p.1).
Proof.
  intros He. pose proof (tag_read "PartNumber" [] (decimalText p.1) (openTag "ETag" ++ escapeEtag p.2 ++ closeTag "ETag")) as Ht.
  cbn [app] in Ht. etransitivity; [apply Ht; [apply skips_nil | apply skips_plain, decimal_no_open] |].
  rewrite decodeXml_plain; [done |]. by apply decimalText_no.
Qed.
Lemma partInner_etag p : plainTag p.2 -> xmlTag (partInner p) "ETag" = Some p.2.
Proof.
  intros He. pose proof (tag_read "ETag" (openTag "PartNumber" ++ decimalText p.1 ++ closeTag "PartNumber") (escapeEtag p.2) []) as Ht.
  rewrite app_nil_r, <- !app_assoc in Ht. etransitivity; [apply Ht |].
  - skips_tags ltac:(apply decimal_no_open).
  - by apply skips_plain, escape_no_open.
  - f_equal. by apply decode_encode_xml.
Qed.

Lemma ascii_app a b : is_ascii a = true -> is_ascii b = true -> is_ascii (a ++ b) = true.
Proof. unfold is_ascii. intros Ha Hb. by rewrite forallb_app, Ha, Hb. Qed.
Lemma escape_ascii e : plainTag e -> is_ascii (escapeEtag e) = true.
Proof.
  unfold escapeEtag. induction 1 as [| c e [Hc _] He IH]; [done |]. rewrite encodeXml_cons. apply ascii_app; [| exact IH].
  unfold entity. repeat case_match; try reflexivity; cbn; by rewrite (proj2 (N.ltb_lt c 128) Hc).
Qed.
Lemma completeXml_ascii ps : Forall (fun p => plainTag p.2) ps -> is_ascii (completeXml ps) = true.
Proof.
  intros Hps. unfold completeXml. apply ascii_app; [done |]. apply ascii_app; [| done].
  induction Hps as [| p ps Hp _ IH]; [done |]. cbn [mbind list_bind]. apply ascii_app; [| exact IH].
  repeat apply ascii_app; first [done | apply decimalText_ascii | by apply escape_ascii].
Qed.

Lemma readParts_written ps : Forall (fun p => plainTag p.2) ps -> readParts (encode_text (completeXml ps)) = Some ps.
Proof.
  intros Hps. unfold readParts. rewrite decode_encode by (by apply well_formed_ascii, completeXml_ascii).
  rewrite completeXml_tags, blocks_skip by skips_text.
  induction Hps as [| p ps Hp _ IH]; [reflexivity |]. cbn [mbind list_bind]. rewrite <- !app_assoc.
  rewrite blocks_cons by (intros r; by apply partInner_closes). cbn [mapM].
  rewrite partInner_number, partInner_etag by done. cbn [mbind option_bind]. rewrite decimalValue_text.
  etransitivity; [apply (f_equal (fun o => ys ← o; Some ((p.1, p.2) :: ys)) IH) |]. by destruct p.
Qed.

(** ** A request and its answer *)

Section sending.
Context `{StorageNames} `{EndpointUrl}.

(** What arrives keeps [I], and an answer that comes back was given by a request
    that arrived. *)
Lemma send_triple (I : world -> Prop) (R : answer -> world -> Prop) c rq :
  timeless I ->
  (forall w, I w -> let '(ans, s) := serve (time w) rq (storeAt (addressOf (config c)) w) in
     I (setStore (addressOf (config c)) s w) /\ R ans (setStore (addressOf (config c)) s w)) ->
  triple I (send c rq)
    (fun ans w => I w /\ exists given, R given w /\ isOk given = true /\ headers ans = headers given /\
                   (body ans = body given \/ body ans = None)) (fun _ => I).
Proof.
  intros Ht Ha. unfold send. destruct (endpointRefusal _ _); [by apply triple_throw |].
  generalize ATTEMPTS. intros n. match goal with |- triple _ (tries n ?e c rq) _ _ => generalize e end.
  assert (forall w, I w -> let '(ans, s) := serve (time w) rq (storeAt (addressOf (config c)) w) in
     I (setStore (addressOf (config c)) s w) /\ R ans (setStore (addressOf (config c)) s w)) as Ha' by exact Ha.
  induction n as [| n IH]; intros last; [by apply triple_throw |]. cbn [tries].
  eapply (triple_bind I _ _ (fun got w => I w /\ match got with
      | inl ans => exists given, R given w /\ isOk given = true /\ headers ans = headers given /\ (body ans = body given \/ body ans = None)
      | inr _ => True end)); cycle 1.
  { intros [ans | e] w [Hw Hx]; [by split |]. by apply IH. }
  unfold tryOnce.
  eapply (triple_bind I _ _ (fun got w => I w /\ match got with
      | Some ans => isOk ans = true -> exists given, R given w /\ isOk given = true /\ headers ans = headers given /\ (body ans = body given \/ body ans = None)
      | None => True end)); cycle 1.
  { intros [ans |] w [Hw Hx]; [| by split]. cbv beta iota. destruct (isOk ans) eqn:Eo; [by split; [| apply Hx] |].
    destruct (retryable (errorFrom ans)); [by split | done]. }
  unfold fetch. eapply triple_bind; [by apply (triple_effect I (fun _ => I)) |].
  intros got w [_ Hw]. specialize (Ha w Hw). unfold arrive, mbind, io_bind, mret, io_ret.
  destruct got; cbv beta iota; try (by split); destruct (serve _ _ _) as [given s]; destruct Ha as [HI HR].
  - split; [done |]. intros Ho. exists given. tauto.
  - split; [done |]. intros Ho. exists given. tauto.
  - by split.
  - split; [done |]. intros Ho. exists given. cbn in *. tauto.
  - split; [done |]. destruct (isOk a) eqn:E; [done |]. by rewrite E.
  - split; [done |]. intros Ho. exists given. tauto.
Qed.

Lemma send_keeps (I : world -> Prop) c rq :
  timeless I ->
  (forall w, I w -> I (setStore (addressOf (config c)) (serve (time w) rq (storeAt (addressOf (config c)) w)).2 w)) ->
  quiet I (send c rq).
Proof.
  intros Ht Ha. eapply triple_conseq; [apply (send_triple I (fun _ _ => True)); [done |] | done | by intros ?? [] | done].
  intros w Hw. specialize (Ha w Hw). by destruct (serve _ _ _).
Qed.
End sending.

(** ** Parts of a file *)

Definition slice (size n : N) (file : bytes) : bytes := take (N.to_nat size) (drop (N.to_nat ((n - 1) * size)) file).

Lemma range_read fuel file shorts position n got :
  readRangeFrom fuel file shorts position n = Ok got -> got = take (N.to_nat n) (drop (N.to_nat position) file).
Proof.
  revert position n got. induction fuel as [| fuel IH]; intros position n got; cbn [readRangeFrom].
  - destruct (N.eqb_spec n 0) as [-> | _]; [by intros [= <-] | done].
  - destruct (N.eqb_spec n 0) as [-> | Hn]; [by intros [= <-] |].
    destruct (readSome file (shorts position) position n) as [b |] eqn:Eb; [| done].
    intros (rest & Hr & [= <-])%bind_Ok. apply IH in Hr as ->. unfold readSome in Eb.
    destruct (drop (N.to_nat position) file) as [| x xs] eqn:Ed; [done |]. injection Eb as <-.
    rewrite <- Ed. set (k := N.to_nat (N.min n (N.max 1 (shorts position)))).
    assert (k <= N.to_nat n)%nat by (subst k; lia).
    rewrite N2Nat.inj_add, N2Nat.inj_sub, Nat2N.id, length_take, <- drop_drop.
    set (here := drop (N.to_nat position) file). replace (N.to_nat n) with (k + (N.to_nat n - k))%nat at 2 by lia.
    rewrite <- take_take_drop. f_equal. destruct (le_lt_dec k (length here)) as [Hk | Hk].
    + by rewrite Nat.min_l by lia.
    + rewrite Nat.min_r by lia. rewrite !drop_ge by lia. by rewrite !take_nil.
Qed.

(** Reading what the file has ends well. *)
Lemma range_ends fuel file shorts position n :
  position + n <= N.of_nat (length file) -> (N.to_nat n <= fuel)%nat ->
  exists got, readRangeFrom fuel file shorts position n = Ok got.
Proof.
  revert position n. induction fuel as [| fuel IH]; intros position n Hl Hf; cbn [readRangeFrom].
  - assert (n = 0) as -> by lia. by exists [].
  - destruct (N.eqb_spec n 0) as [-> | Hn]; [by exists [] |]. unfold readSome.
    assert (length (drop (N.to_nat position) file) >= N.to_nat n)%nat as Hd by (rewrite length_drop; lia).
    destruct (drop (N.to_nat position) file) as [| x xs] eqn:Ed; [cbn in Hd; lia |].
    set (k := N.to_nat (N.min n (N.max 1 (shorts position)))).
    assert (1 <= k <= N.to_nat n)%nat as Hk by (subst k; lia).
    rewrite length_take, Nat.min_l by lia.
    destruct (IH (position + N.of_nat k) (n - N.of_nat k)) as [rest ->]; [lia | lia |]. by eexists.
Qed.

Lemma upTo_S k : upTo (N.succ k) = upTo k ++ [N.succ k].
Proof. unfold upTo. rewrite N2Nat.inj_succ, seq_S, map_app. cbn. do 2 f_equal. lia. Qed.
Lemma upTo_elem n k : n ∈ upTo k <-> 1 <= n <= k.
Proof.
  unfold upTo. rewrite list_elem_of_fmap. split.
  - intros (i & -> & Hi). apply elem_of_seq in Hi. lia.
  - intros Hn. exists (N.to_nat n). rewrite elem_of_seq. lia.
Qed.
Lemma upTo_NoDup k : NoDup (upTo k).
Proof. unfold upTo. apply NoDup_fmap_2; [intros a b; lia | apply NoDup_seq]. Qed.
Lemma upTo_sorted k : StronglySorted N.le (upTo k).
Proof.
  induction k as [| k IH] using N.peano_ind; [constructor |]. rewrite upTo_S. apply StronglySorted_app_2; [| done |].
  - intros x1 x2 H1 H2. apply upTo_elem in H1. apply list_elem_of_singleton in H2 as ->. lia.
  - repeat constructor.
Qed.

Lemma mjoin_snoc (ls : list bytes) (x : bytes) : mjoin (ls ++ [x]) = mjoin ls ++ x.
Proof.
  induction ls as [| l ls IH]; [cbn; by rewrite app_nil_r |].
  transitivity (l ++ mjoin (ls ++ [x])); [reflexivity |]. rewrite IH. apply app_assoc.
Qed.
Lemma slices_take size file k : mjoin (map (fun n => slice size n file) (upTo k)) = take (N.to_nat (k * size)) file.
Proof.
  induction k as [| k IH] using N.peano_ind; [done |].
  rewrite upTo_S, map_app. cbn [map]. rewrite mjoin_snoc, IH. unfold slice.
  replace (N.succ k - 1) with k by lia. rewrite take_take_drop. f_equal. lia.
Qed.
Lemma slices_whole size file :
  0 < size -> mjoin (map (fun n => slice size n file) (upTo (ceilDiv (N.of_nat (length file)) size))) = file.
Proof.
  intros Hs. rewrite slices_take. apply take_ge. unfold ceilDiv.
  pose proof (N.div_mod (N.of_nat (length file) + size - 1) size). pose proof (N.mod_lt (N.of_nat (length file) + size - 1) size). nia.
Qed.

Lemma sorted_numbers ps total :
  NoDup (map fst ps) -> (forall n, n ∈ map fst ps <-> n ∈ upTo total) -> map fst (sortParts ps) = upTo total.
Proof.
  intros Hn He. apply (Sorted_unique N.le).
  - assert (StronglySorted partLe (sortParts ps)) as Hs.
    { apply Sorted_StronglySorted; [intros ? ? ?; unfold partLe; lia |]. apply Sorted_merge_sort. intros a b. unfold partLe. lia. }
    apply StronglySorted_Sorted. clear -Hs. induction Hs as [| p l _ IH Hf]; [constructor |]. cbn. constructor; [done |].
    apply Forall_fmap. exact Hf.
  - apply StronglySorted_Sorted, upTo_sorted.
  - unfold sortParts. rewrite (merge_sort_Permutation partLe ps). apply NoDup_Permutation; [done | apply upTo_NoDup | done].
Qed.

(** ** Listings *)

Definition entryInner (k : jstring) (b : bytes) (at_ : Z) : jstring :=
  tagText "Key" k ++ tagText "LastModified" (toISOString at_) ++ tagText "Size" (decimalText (N.of_nat (length b))).

Lemma entity_no_open s : 60 ∉ encodeXml everyEntity s.
Proof. by apply encode_no_open. Qed.

Lemma entry_closes k b t r : cut (closeTag "Contents") (entryInner k b t ++ closeTag "Contents" ++ r) = Some (entryInner k b t, r).
Proof.
  apply skips_cut. unfold entryInner, tagText, tagged. rewrite <- !app_assoc.
  skips_tags ltac:(apply entity_no_open).
Qed.

Lemma entry_key k b t o : infoOf (entryInner k b t) = Some o -> objectKey o = k.
Proof.
  unfold infoOf. assert (xmlTag (entryInner k b t) "Key" = Some k) as ->.
  { unfold entryInner, tagText at 1, tagged. rewrite <- !app_assoc.
    etransitivity; [apply (tag_read "Key" [] (encodeXml everyEntity k)); [apply skips_nil | apply skips_plain, entity_no_open] |].
    f_equal. by apply decode_encode_xml. }
  destruct k as [| x k]; [done |]. by intros [= <-].
Qed.

Lemma entries_keys p (l : list (jstring * (bytes * Z))) :
  map objectKey (omap infoOf (xmlBlocks ((l ≫= (fun '(k, (b, t)) =>
    if startsWith p k then tagged "Contents" (entryInner k b t) else [])) ++ closeTag "ListBucketResult") "Contents"))
  `sublist_of` map fst l.
Proof.
  induction l as [| [k [b t]] l IH]; [vm_compute; constructor |]. cbn [mbind list_bind map fst].
  destruct (startsWith p k); [| by apply sublist_cons].
  unfold tagged at 1. rewrite <- !app_assoc, blocks_cons by (intros r; apply entry_closes). cbn [omap list_omap].
  destruct (infoOf (entryInner k b t)) as [o |] eqn:Eo; [| by apply sublist_cons].
  cbn [map]. rewrite (entry_key _ _ _ _ Eo). by apply sublist_skip.
Qed.

Lemma listing_text s p :
  listing s p = (openTag "ListBucketResult" ++ openTag "IsTruncated" ++ "false" ++ closeTag "IsTruncated") ++
    (map_to_list (objects s) ≫= (fun '(k, (b, t)) => if startsWith p k then tagged "Contents" (entryInner k b t) else [])) ++
    closeTag "ListBucketResult".
Proof. unfold listing, tagged at 1 2. by rewrite <- !app_assoc. Qed.

(** A listing names every object once. *)
Lemma listing_keys s p : NoDup (map objectKey (omap infoOf (xmlBlocks (listing s p) "Contents"))).
Proof.
  rewrite listing_text, blocks_skip by skips_text. eapply sublist_NoDup; [| apply entries_keys]. apply NoDup_fst_map_to_list.
Qed.

Lemma listing_last s p : xmlTag (listing s p) "IsTruncated" = Some ("false" : jstring).
Proof. rewrite listing_text. reflexivity. Qed.

(** ** Which objects go *)

Lemma newer_elem k x l o : o ∈ insertNewer k x l <-> o = x \/ o ∈ l.
Proof.
  induction l as [| y l IH]; cbn [insertNewer]; [rewrite elem_of_cons; tauto |].
  destruct (newerLe k x y); rewrite ?elem_of_cons, ?IH; tauto.
Qed.
Lemma newest_elem k l o : o ∈ newestFirst k l <-> o ∈ l.
Proof. unfold newestFirst. induction l as [| x l IH]; [done |]. cbn [foldr]. rewrite newer_elem, IH, elem_of_cons. tauto. Qed.

(** The copy just made is the first of the list, or not in it. *)
Lemma just_copied_first k l :
  NoDup (map objectKey l) -> forall o, o ∈ drop 1 (newestFirst k l) -> objectKey o <> k.
Proof.
  intros Hd. enough ((forall o, o ∈ newestFirst k l -> objectKey o <> k) \/
    exists first rest, newestFirst k l = first :: rest /\ objectKey first = k /\ forall o, o ∈ rest -> objectKey o <> k) as Hc.
  { intros o Ho. destruct Hc as [Hn | (f & r & E & _ & Hr)]; [| rewrite E in Ho; by apply Hr].
    apply Hn. destruct (newestFirst k l); [by apply elem_of_nil in Ho | by right]. }
  induction l as [| x l IH]; [left; by intros o Ho%elem_of_nil |]. cbn [map] in Hd. apply NoDup_cons in Hd as [Hx Hd].
  specialize (IH Hd). cbn [newestFirst foldr]. fold (newestFirst k l).
  destruct (decide (objectKey x = k)) as [Ek | Ek].
  - right. exists x, (newestFirst k l). split_and!; [| done |].
    + destruct (newestFirst k l); [done |]. cbn [insertNewer]. unfold newerLe. by rewrite decide_True.
    + intros o Ho%newest_elem E. apply Hx. rewrite Ek, <- E. by apply list_elem_of_fmap_2.
  - destruct IH as [Hn | (f & r & E & Ef & Hr)].
    + left. intros o [-> | Ho]%newer_elem; [done | by apply Hn].
    + right. exists f, (insertNewer k x r). rewrite E. cbn [insertNewer]. unfold newerLe at 1.
      rewrite decide_False, decide_True by done. split_and!; [done | done |].
      intros o [-> | Ho]%newer_elem; [done | by apply Hr].
Qed.
