(* ===== verification/BakStored.v ===== *)
(** * A copy that is reported is in the bucket

    Whatever requests are lost, refused or answered in vain, and whenever the
    daemon dies and goes on with what it had saved: an upload that returns has
    left the very bytes of the backup under its key, and a report that says so is
    true when it is written. *)

From stdpp Require Import gmap sorting.
From S2P Require Import Prelude Text Json Number JsonPrint Dates GateApproval Log FwRender FwContract HaIntent MonState.
From S2P Require Import BakXml BakWorld BakS3 BakUpload BakCopier BakKept BakServed.

#[local] Open Scope N_scope.

Lemma storeAt_set a b s w : storeAt b (setStore a s w) = if decide (a = b) then s else storeAt b w.
Proof. unfold storeAt. cbn [stores setStore]. rewrite lookup_insert. by case_decide. Qed.

Section honest.
Context `{StorageLaws} `{EndpointUrl} `{Crypto} `{Collation} `{JsDates} (shorts : N -> N).
(** The artifact and the bucket of each job, and what the artifacts hold: a
    backup is written once. *)
Context (pathOf : jstring -> path) (addrOf : jstring -> address) (original : path -> artifact).

(** ** What holds of saved progress *)

Definition named (s : storage) (id : jstring) : Prop := exists n, id = uploadName n /\ (n < issued s)%nat.
Definition fits (j : jstring) (st : UploadState) : Prop :=
  stSize st = sizeOf (original (pathOf j)) /\ stMtime st = mtime (original (pathOf j)).
(** Every part the storage holds is the part of the backup. *)
Definition filled (j : jstring) (st : UploadState) (u : upload) : Prop :=
  fits j st -> forall n tag b, upParts u !! n = Some (tag, b) -> b = slice (partBytes st) n (content (original (pathOf j))).
Definition goodParts (st : UploadState) : Prop :=
  NoDup (map fst (parts st)) /\
  Forall (fun p => p.1 ∈ upTo (ceilDiv (stSize st) (partBytes st)) /\ plainTag p.2) (parts st).
Definition owned (w : world) (j : jstring) (st : UploadState) : Prop :=
  named (storeAt (addrOf j) w) (uploadId st) /\ goodParts st /\
  forall u, uploads (storeAt (addrOf j) w) !! uploadId st = Some u -> filled j st u.

Record honest (w : world) : Prop := {
  honest_files : forall p a, artifacts (files w) !! p = Some a -> a = original p;
  honest_names : forall a id u, uploads (storeAt a w) !! id = Some u -> named (storeAt a w) id;
  honest_owned : forall j st, states (files w) !! j = Some (Some st) -> owned w j st;
  honest_alone : forall i j st st', states (files w) !! i = Some (Some st) -> states (files w) !! j = Some (Some st') ->
    addrOf i = addrOf j -> uploadId st = uploadId st' -> i = j
}.

(** A storage that changed no part: at most objects, uploads that ended and new
    ones that are empty. *)
Definition gentle (s s' : storage) : Prop :=
  (issued s <= issued s')%nat /\
  forall id u, uploads s' !! id = Some u ->
    uploads s !! id = Some u \/ (upParts u = ∅ /\ exists n, id = uploadName n /\ (issued s <= n < issued s')%nat).

Lemma gentle_refl s : gentle s s.
Proof. split; [done | by left]. Qed.
Lemma gentle_objects s o : gentle s {| objects := o; uploads := uploads s; issued := issued s |}.
Proof. split; [done | by left]. Qed.
Lemma gentle_ended s o id : gentle s {| objects := o; uploads := delete id (uploads s); issued := issued s |}.
Proof. split; [done |]. cbn. intros i u. rewrite lookup_delete_Some. intros [_ Hu]. by left. Qed.
Lemma gentle_created s k :
  gentle s {| objects := objects s; uploads := <[uploadName (issued s) := {| upKey := k; upParts := ∅ |}]> (uploads s);
              issued := S (issued s) |}.
Proof.
  split; [cbn; lia |]. cbn. intros i u. rewrite lookup_insert. case_decide as E; [| by left].
  intros [= <-]. right. split; [done |]. exists (issued s). split; [done | lia].
Qed.

Lemma named_later s s' id : (issued s <= issued s')%nat -> named s id -> named s' id.
Proof. intros Hl (n & -> & Hn). exists n. split; [done | lia]. Qed.

Lemma owned_gentle w a s j st : gentle (storeAt a w) s -> owned w j st -> owned (setStore a s w) j st.
Proof.
  intros [Hi Hg] (Hn & Hp & Hf). unfold owned. rewrite storeAt_set. case_decide as E; [subst a | done].
  split_and!; [by eapply named_later | done |]. intros u Hu. destruct (Hg _ _ Hu) as [Ho | (He & m & Em & Hm)]; [by apply Hf |].
  destruct Hn as (n & En & Hl). rewrite En in Em. apply uploadName_inj in Em. lia.
Qed.

Lemma honest_gentle w a s : gentle (storeAt a w) s -> honest w -> honest (setStore a s w).
Proof.
  intros Hg [K1 K2 K3 K4]. split; [done | | | done].
  - intros b id u. rewrite storeAt_set. case_decide as E; [subst a | by apply K2].
    intros Hu. destruct Hg as [Hi Hg]. destruct (Hg _ _ Hu) as [Ho | (_ & n & -> & Hn)]; [by eapply named_later, K2 |].
    exists n. split; [done | lia].
  - intros j st Hs. apply owned_gentle; [done | by apply K3].
Qed.

Lemma honest_timeless : timeless honest.
Proof. intros fs t w [K1 K2 K3 K4]. by split. Qed.
Lemma honest_opened o w : honest w -> honest (setOpened o w).
Proof. intros [K1 K2 K3 K4]. by split. Qed.
Lemma honest_forget j w : honest w -> honest (setFiles (setStates (delete j (states (files w))) (files w)) w).
Proof.
  intros [K1 K2 K3 K4]. split; [done | done | |]; cbn.
  - intros i st. rewrite lookup_delete_Some. intros [_ Hs]. by apply K3.
  - intros i i' st st'. rewrite !lookup_delete_Some. intros [_ Hi] [_ Hi']. by apply K4.
Qed.

(** A request whose effect is gentle. *)
Lemma gentle_sends (I : world -> Prop) c rq :
  timeless I -> (forall a s w, gentle (storeAt a w) s -> I w -> I (setStore a s w)) ->
  (forall now s, gentle s (serve now rq s).2) -> quiet I (send c rq).
Proof. intros Ht Hg Hs. apply send_keeps; [done |]. intros w Hw. apply Hg; [apply Hs | done]. Qed.

(** Saving progress of the same upload. *)
Lemma honest_save j st w :
  honest w -> owned w j st ->
  (forall i st', i <> j -> states (files w) !! i = Some (Some st') -> addrOf i = addrOf j -> uploadId st' <> uploadId st) ->
  honest (setFiles (setStates (<[j := Some st]> (states (files w))) (files w)) w).
Proof.
  intros [K1 K2 K3 K4] Ho Hu. split; [done | done | |]; cbn.
  - intros i st'. rewrite lookup_insert. case_decide as E; [intros [= <-]; by subst | by apply K3].
  - intros i i' st1 st2. rewrite !lookup_insert. case_decide as E; case_decide as E'; subst.
    + done.
    + intros [= <-] Hs Ha Hid. exfalso. by eapply (Hu i' st2).
    + intros Hs [= <-] Ha Hid. exfalso. by eapply (Hu i st1).
    + by apply K4.
Qed.

(** ** One upload *)

Section one.
Context (j : jstring) (c : S3Client) (rq : UploadRequest).
Context (Hpath : rqPath rq = pathOf j) (Hstate : statePath rq = j) (Haddr : addressOf (config c) = addrOf j).
Let file : bytes := content (original (pathOf j)).

Definition saved (st : UploadState) (w : world) : Prop := honest w /\ states (files w) !! j = Some (Some st).
Definition stored (k : jstring) (w : world) : Prop := exists t, objects (storeAt (addrOf j) w) !! k = Some (file, t).
(** An upload nobody has saved yet. *)
Definition unclaimed (id : jstring) (w : world) : Prop :=
  named (storeAt (addrOf j) w) id /\
  (forall i st, states (files w) !! i = Some (Some st) -> addrOf i = addrOf j -> uploadId st <> id) /\
  forall u, uploads (storeAt (addrOf j) w) !! id = Some u -> upParts u = ∅.

Lemma abort_honest k id : quiet honest (abortMultipartUpload c k id).
Proof.
  unfold abortMultipartUpload. apply quiet_catch; [apply quiet_then; [| intros ?; apply quiet_ret] | intros e].
  - apply gentle_sends; [apply honest_timeless | intros a s w; apply honest_gentle |]. intros now s. rewrite serve_abort.
    destruct (known s id k); [apply gentle_ended | apply gentle_refl].
  - apply unlessGone_quiet.
Qed.

Lemma readState_honest :
  triple honest (readState (statePath rq)) (fun o w => honest w /\ forall st, o = Some st -> states (files w) !! j = Some (Some st))
    (fun _ => honest).
Proof.
  unfold readState. rewrite Hstate. eapply triple_catch with (R := fun _ => honest); [| intros e _ w Hw; by split | done].
  apply triple_file; [apply honest_timeless | done |]. intros w Hw. split; [done |]. intros st.
  destruct (states (files w) !! j) as [[]|]; cbn; by intros [= ->].
Qed.

Lemma create_unclaimed k md :
  triple honest (createMultipartUpload c k md) (fun id w => honest w /\ unclaimed id w) (fun _ => honest).
Proof.
  unfold createMultipartUpload. eapply triple_bind.
  { apply (send_triple honest (fun ans w => exists n,
      body ans = Some (tagged "InitiateMultipartUploadResult" (tagText "UploadId" (uploadName n))) /\ unclaimed (uploadName n) w));
      [apply honest_timeless |].
    intros w Hw. rewrite serve_create, Haddr. set (s := storeAt (addrOf j) w). split; [apply honest_gentle; [apply gentle_created | done] |].
    exists (issued s). split; [done |]. unfold unclaimed. rewrite storeAt_set, decide_True by done. cbn. split_and!.
    - exists (issued s). split; [done | cbn; lia].
    - intros i st Hs Ha Hid. destruct (honest_owned _ Hw _ _ Hs) as ((n & En & Hn) & _). rewrite Ha in Hn. fold s in Hn.
      rewrite Hid in En. apply uploadName_inj in En. lia.
    - intros u. rewrite lookup_insert_eq. by intros [= <-]. }
  intros ans w (Hw & given & (n & Hb & Hu) & _ & _ & Hbody). unfold textOf.
  destruct Hbody as [Hbody | Hbody]; rewrite Hbody; [| done]. rewrite Hb. unfold mbind, io_bind, mret, io_ret.
  assert (xmlTag (tagged "InitiateMultipartUploadResult" (tagText "UploadId" (uploadName n))) "UploadId" = Some (uploadName n)) as ->.
  { unfold tagged at 1, tagText, tagged. rewrite <- !app_assoc.
    rewrite (tag_read "UploadId" (openTag "InitiateMultipartUploadResult")); [| skips_text |].
    - f_equal. by apply decode_encode_xml.
    - apply skips_plain, encode_no_open. done. }
  pose proof (uploadName_some n) as Hs. by destruct (uploadName n).
Qed.

Lemma uploads_write (P : world -> Prop) p st Q :
  timeless P -> (forall w, P w -> honest w) ->
  (forall w, P w -> Q (setFiles (setStates (<[p := Some st]> (states (files w))) (files w)) w)) ->
  triple P (writeState p st) (fun _ => Q) (fun _ => honest).
Proof.
  intros Ht Hh HQ. unfold writeState, inUploads. eapply (triple_bind P _ _ (fun _ => P)).
  - apply triple_file; [done | by intros; apply Hh |]. intros w Hw. destruct (uploadsDir _); [done | by apply Hh].
  - intros ?. apply triple_file; [done | by intros; apply Hh |]. intros w Hw. destruct (uploadsDir _); [by apply HQ | by apply Hh].
Qed.

Definition begunAt (st : UploadState) (size : N) (mt : Z) (pb : N) : Prop :=
  stKey st = rqObject rq /\ stSize st = size /\ stMtime st = mt /\ partBytes st = pb.

Lemma fresh_saved size mt pb :
  triple honest (freshState c rq size mt pb) (fun st w => saved st w /\ begunAt st size mt pb) (fun _ => honest).
Proof.
  unfold freshState. eapply triple_bind; [apply create_unclaimed |]. intros id. cbv zeta. set (st := Build_UploadState _ _ _ _ _ _).
  eapply (triple_bind _ _ _ (fun _ => saved st)); [| intros ? w Hw; by split].
  rewrite Hstate. apply uploads_write.
  - intros fs t w [Hw Hu]. split; [by apply honest_timeless | exact Hu].
  - by intros w [].
  - intros w [Hw (Hn & Ho & He)]. split; [| cbn; by rewrite lookup_insert_eq]. apply honest_save; [done | |].
    + split_and!; [done | split; constructor |]. intros u Hu _ n tag b. rewrite (He u Hu). by rewrite lookup_empty.
    + intros i st' _ Hs Ha. by apply (Ho i st').
Qed.

Lemma resumable_saved size mt pb :
  triple honest (resumableState c rq size mt pb) (fun st w => saved st w /\ begunAt st size mt pb) (fun _ => honest).
Proof.
  unfold resumableState. eapply triple_bind; [apply readState_honest |]. intros [o |] w [Hw Ho]; [| by apply fresh_saved].
  cbv beta iota. case_decide as E; [split; [by split; [| apply Ho] | exact E] |].
  refine (triple_bind honest _ _ (fun _ => honest) _ _ _ _ w Hw); [| intros ?; apply fresh_saved].
  unfold ignore. apply quiet_catch; [apply abort_honest | intros ?; apply quiet_ret].
Qed.

(** A part the storage takes over is the part of the backup. *)
Lemma honest_part st n now w :
  saved st w -> fits j st ->
  honest (setStore (addrOf j) (serve now {| rqMethod := "PUT"; rqKey := rqObject rq;
    rqQuery := [("partNumber" : jstring, decimalText n); ("uploadId" : jstring, uploadId st)]; rqHeaders := [];
    rqBody := Some (slice (partBytes st) n file) |} (storeAt (addrOf j) w)).2 w).
Proof.
  intros [Hw Hs] Hfit. set (s := storeAt (addrOf j) w). rewrite serve_part.
  destruct (known s (uploadId st) (rqObject rq)) as [u |] eqn:Ek; [| by apply honest_gentle; [apply gentle_refl |]].
  assert (uploads s !! uploadId st = Some u) as Eu.
  { unfold known in Ek. destruct (uploads s !! uploadId st) as [u' |]; [| done]. cbn in Ek. by case_decide; simplify_eq. }
  destruct (honest_owned _ Hw _ _ Hs) as (Hn & Hp & Hf). destruct Hw as [K1 K2 K3 K4].
  split; [done | | | done]; cbn [files setStore].
  - intros a id u'. rewrite storeAt_set. case_decide as E; [subst a | by apply K2]. cbn. rewrite lookup_insert. case_decide as E.
    + intros _. subst id. eapply named_later; [| exact Hn]. cbn. fold s. lia.
    + intros Hu. eapply named_later; [| by eapply K2]. cbn. fold s. lia.
  - intros i st' Hi. destruct (K3 _ _ Hi) as (Hn' & Hp' & Hf'). unfold owned. rewrite storeAt_set.
    destruct (decide (addrOf j = addrOf i)) as [E | E]; [| done].
    split_and!; [eapply named_later; [| exact Hn']; rewrite <- E; cbn; fold s; lia | done |]. cbn [uploads snd].
    intros u'. rewrite lookup_insert. case_decide as Eid; [| rewrite <- E in Hf'; apply Hf'].
    assert (j = i) as <- by (eapply K4; [exact Hs | exact Hi | done | done]).
    assert (st' = st) as -> by congruence. intros [= <-] Hx m tag b. cbn [upParts]. rewrite lookup_insert. case_decide as En.
    + intros [= _ <-]. by subst.
    + by apply (Hf u Eu Hx).
Qed.

Lemma part_taken st n :
  fits j st -> triple (saved st) (uploadPart c (rqObject rq) (uploadId st) n (slice (partBytes st) n file))
    (fun etag w => saved st w /\ plainTag etag) (fun _ => honest).
Proof.
  intros Hfit. unfold uploadPart. eapply triple_bind.
  { eapply triple_conseq; [apply (send_triple (saved st) (fun ans w => isOk ans = true -> exists m, headers ans = [("etag" : jstring, etagName m)])) | done | done | by intros ?? []].
    - intros fs t w [Hw Hs]. split; [by apply honest_timeless | exact Hs].
    - intros w Hw. rewrite Haddr. pose proof (honest_part st n (time w) w Hw Hfit) as Hh.
      pose proof (serve_part (time w) (rqObject rq) (uploadId st) n (slice (partBytes st) n file) (storeAt (addrOf j) w)) as Es.
      destruct (serve _ _ _) as [ans s]. split; [split; [exact Hh | apply Hw] |]. intros Hok.
      destruct (known _ _ _); injection Es as -> _; [by eexists | done]. }
  intros ans w (Hw & given & Hg & Hok & Hh & _). destruct (Hg Hok) as [m Em]. rewrite Hh, Em.
  rewrite assoc_cons, decide_True by done. pose proof (etagName_some m) as Hs. pose proof (etagName_plain m) as Hp.
  destruct (etagName m) as [| x t]; [done |]. by split.
Qed.

Lemma part_saved st n etag :
  n ∈ upTo (ceilDiv (stSize st) (partBytes st)) -> n ∉ map fst (parts st) -> plainTag etag ->
  triple (saved st) (writeState (statePath rq) (addPart st (n, etag))) (fun _ => saved (addPart st (n, etag))) (fun _ => honest).
Proof.
  intros Hn Hnew He. rewrite Hstate. apply uploads_write.
  - intros fs t w [Hw Hs]. split; [by apply honest_timeless | exact Hs].
  - by intros w [].
  - intros w [Hw Hs]. split; [| cbn; by rewrite lookup_insert_eq].
    destruct (honest_owned _ Hw _ _ Hs) as (Hid & [Hd Hp] & Hf). apply honest_save; [done | |].
    + split_and!; [exact Hid | | exact Hf]. split; cbn [addPart parts stSize partBytes].
      * rewrite map_app. cbn. apply NoDup_app. split_and!; [done | | apply NoDup_singleton].
        intros x Hx ->%list_elem_of_singleton. done.
      * apply Forall_app. split; [exact Hp | by repeat constructor].
    + intros i st' Hi Hs' Ha Hid'. apply Hi. by eapply (honest_alone _ Hw).
Qed.

Lemma saved_timeless st : timeless (saved st).
Proof. intros fs t w [Hw Hs]. split; [by apply honest_timeless | exact Hs]. Qed.

Lemma range_is_slice st n got :
  fits j st -> readRangeFrom (N.to_nat (N.min (partBytes st) (stSize st - (n - 1) * partBytes st))) file shorts
    ((n - 1) * partBytes st) (N.min (partBytes st) (stSize st - (n - 1) * partBytes st)) = Ok got ->
  got = slice (partBytes st) n file.
Proof.
  intros [Hsize _] ->%range_read. unfold slice. rewrite Hsize. unfold sizeOf. fold file.
  set (here := drop _ file). assert (length here = N.to_nat (N.of_nat (length file) - (n - 1) * partBytes st)) as Hl.
  { subst here. rewrite length_drop. lia. }
  destruct (N.le_ge_cases (partBytes st) (N.of_nat (length file) - (n - 1) * partBytes st)) as [Hc | Hc].
  - by rewrite N.min_l by done.
  - rewrite N.min_r by done. rewrite !take_ge by lia. done.
Qed.

(** The parts of the file that [st] does not have yet. *)
Definition missingParts (st : UploadState) (pending : list N) : Prop :=
  NoDup pending /\ (forall n, n ∈ pending -> n ∈ upTo (ceilDiv (stSize st) (partBytes st)) /\ n ∉ map fst (parts st)) /\
  forall n, n ∈ upTo (ceilDiv (stSize st) (partBytes st)) -> n ∈ map fst (parts st) \/ n ∈ pending.
(** The same upload, with every part. *)
Definition whole (st st' : UploadState) : Prop :=
  stSize st' = stSize st /\ stMtime st' = stMtime st /\ partBytes st' = partBytes st /\
  forall n, n ∈ upTo (ceilDiv (stSize st) (partBytes st)) -> n ∈ map fst (parts st').

Lemma missing_rest st n etag pending : missingParts st (n :: pending) -> missingParts (addPart st (n, etag)) pending.
Proof.
  intros (Hd & Hp & Hall). apply NoDup_cons in Hd as [Hn Hd]. unfold missingParts. cbn [addPart stSize partBytes parts].
  rewrite map_app. cbn [map fst]. split_and!; [done | |].
  - intros m Hm. destruct (Hp m) as [Hm1 Hm2]; [by right |]. split; [done |]. rewrite elem_of_app, list_elem_of_singleton.
    intros [? | ->]; done.
  - intros m Hm. rewrite elem_of_app, list_elem_of_singleton. destruct (Hall m Hm) as [? | [-> | ?]%elem_of_cons]; tauto.
Qed.

Lemma each_saved pending st :
  fits j st -> missingParts st pending ->
  triple (saved st) (uploadEach shorts c file st rq pending) (fun st' w => saved st' w /\ whole st st') (fun _ => honest).
Proof.
  revert st. induction pending as [| n pending IH]; intros st Hfit Hm; cbn [uploadEach].
  { intros w Hw. split; [done |]. split_and!; try done. intros n Hn. destruct Hm as (_ & _ & Hall).
    destruct (Hall n Hn) as [? | []%elem_of_nil]; done. }
  pose proof Hm as (Hd & Hp & _). destruct (Hp n) as [Hn Hnew]; [by left |].
  eapply (triple_bind (saved st) _ _ (fun got w => saved st w /\ got = slice (partBytes st) n file)).
  { unfold readRange. apply triple_file; [apply saved_timeless | by intros ?? [] |]. intros w Hw.
    destruct (readRangeFrom _ _ _ _ _) as [got | e] eqn:E; [| apply Hw]. split; [done |]. by apply range_is_slice. }
  intros got w [Hw ->]. revert w Hw.
  eapply (triple_bind (saved st)); [by apply part_taken |]. intros etag w [Hw He]. revert w Hw.
  eapply (triple_bind (saved st)); [by apply part_saved |]. intros ?.
  eapply triple_conseq; [apply IH | done | | done]; [exact Hfit | by apply missing_rest |].
  intros st' w' [Hw' (H1' & H2' & H3' & H4')]. split; [done |]. by split_and!.
Qed.

Lemma assembled st u made :
  fits j st -> 0 < partBytes st -> goodParts st -> filled j st u ->
  (forall n, n ∈ upTo (ceilDiv (stSize st) (partBytes st)) -> n ∈ map fst (parts st)) ->
  assemble u (Some (encode_text (completeXml (sortParts (parts st))))) = Some made -> made = file.
Proof.
  intros Hfit Hpos [Hd Hp] Hf Hall. unfold assemble. cbn [mbind option_bind].
  assert (sortParts (parts st) ≡ₚ parts st) as Hperm by apply merge_sort_Permutation.
  rewrite readParts_written; cycle 1.
  { rewrite Hperm. eapply Forall_impl; [exact Hp |]. by intros ? []. }
  intros (ps & [= <-] & (contents & Em & [= <-])%bind_Some)%bind_Some.
  assert (contents = map (fun n => slice (partBytes st) n file) (map fst (sortParts (parts st)))) as ->.
  { apply mapM_Some in Em. clear -Em Hf Hfit. induction Em as [| p b l l' Hb _ IH]; [done |]. cbn. f_equal; [| exact IH].
    unfold partOf in Hb. destruct (upParts u !! p.1) as [[tag b'] |] eqn:Eu; [| done]. cbn in Hb. case_decide; [| done].
    injection Hb as <-. by apply (Hf Hfit _ _ _ Eu). }
  rewrite (sorted_numbers _ (ceilDiv (stSize st) (partBytes st))); [| done |].
  - destruct Hfit as [Hs _]. rewrite Hs. by apply slices_whole.
  - intros n. split; [| apply Hall]. intros (p & -> & Hin)%list_elem_of_fmap. rewrite Forall_forall in Hp. by apply Hp.
Qed.

Lemma complete_stored st :
  fits j st -> 0 < partBytes st ->
  (forall n, n ∈ upTo (ceilDiv (stSize st) (partBytes st)) -> n ∈ map fst (parts st)) ->
  triple (saved st) (completeMultipartUpload c (rqObject rq) (uploadId st) (sortParts (parts st)))
    (fun _ w => honest w /\ stored (rqObject rq) w) (fun _ => honest).
Proof.
  intros Hfit Hpos Hall. unfold completeMultipartUpload. eapply triple_bind.
  { eapply triple_conseq; [apply (send_triple (saved st) (fun ans w => isOk ans = true -> stored (rqObject rq) w)) | done | done | by intros ?? []].
    - apply saved_timeless.
    - intros w Hw. rewrite Haddr, serve_complete. pose proof Hw as [Hh Hs]. destruct (honest_owned _ Hh _ _ Hs) as (_ & Hp & Hf).
      set (s := storeAt (addrOf j) w) in *. destruct (known s (uploadId st) (rqObject rq)) as [u |] eqn:Ek.
      + assert (uploads s !! uploadId st = Some u) as Eu.
        { unfold known in Ek. destruct (uploads s !! uploadId st) as [u' |]; [| done]. cbn in Ek. by case_decide; simplify_eq. }
        destruct (assemble u _) as [made |] eqn:Ea.
        * split; [split; [apply honest_gentle; [apply gentle_ended | done] | exact Hs] |]. intros _.
          exists (time w). rewrite storeAt_set, decide_True by done. cbn. rewrite lookup_insert_eq.
          by rewrite (assembled st u made Hfit Hpos Hp (Hf u Eu) Hall Ea).
        * split; [split; [apply honest_gentle; [apply gentle_refl | done] | exact Hs] | done].
      + split; [split; [apply honest_gentle; [apply gentle_refl | done] | exact Hs] | done]. }
  intros ans w ([Hw _] & given & Hg & Hok & _ & _). unfold textOf, mbind, io_bind. destruct (body ans) as [t |]; [| exact Hw].
  unfold mret at 1, io_ret at 1. cbv beta iota zeta. destruct (includes _ t); [exact Hw | by split; [| apply Hg]].
Qed.

Definition copied (k : jstring) (w : world) : Prop := honest w /\ stored k w.

Lemma copied_timeless k : timeless (copied k).
Proof. intros fs t w [Hw Hs]. split; [by apply honest_timeless | exact Hs]. Qed.

Lemma removeState_keeps (I : world -> Prop) p :
  timeless I -> (forall w, I w -> I (setFiles (setStates (delete p (states (files w))) (files w)) w)) -> quiet I (removeState p).
Proof.
  intros Ht HI. unfold removeState. apply quiet_catch; [| intros ?; apply quiet_ret]. by apply triple_file.
Qed.
Lemma removeState_honest p : quiet honest (removeState p).
Proof. apply removeState_keeps; [apply honest_timeless | intros w; apply honest_forget]. Qed.
Lemma removeState_copied p k : quiet (copied k) (removeState p).
Proof.
  apply removeState_keeps; [apply copied_timeless |]. intros w [Hw Hs]. split; [by apply honest_forget | exact Hs].
Qed.

Lemma copied_same k a s w : s = storeAt a w -> copied k w -> copied k (setStore a s w).
Proof.
  intros -> [Hw (t & Hs)]. split; [apply honest_gentle; [apply gentle_refl | done] |]. exists t. rewrite storeAt_set.
  by case_decide; subst.
Qed.
Lemma head_copied k k' : quiet (copied k) (headObject c k').
Proof.
  unfold headObject. apply quiet_catch; [apply quiet_then; [| intros ?; apply quiet_ret] | intros e; apply unlessGone_quiet].
  apply send_keeps; [apply copied_timeless |]. intros w Hw. apply copied_same; [apply serve_head | done].
Qed.

Lemma put_stores md : triple honest (putObject c (rqObject rq) file md) (fun _ => copied (rqObject rq)) (fun _ => honest).
Proof.
  unfold putObject. eapply triple_bind; [apply (send_triple honest (fun _ w => stored (rqObject rq) w)); [apply honest_timeless |] |].
  - intros w Hw. rewrite serve_put, Haddr. split; [apply honest_gentle; [apply gentle_objects | done] |].
    exists (time w). rewrite storeAt_set, decide_True by done. cbn. by rewrite lookup_insert_eq.
  - intros ans w (Hw & given & Hs & _). by split.
Qed.

Lemma openArtifact_original :
  triple honest (openArtifact (rqPath rq)) (fun a w => honest w /\ a = original (pathOf j)) (fun _ => honest).
Proof.
  unfold openArtifact. apply triple_file; [apply honest_timeless | done |]. intros w Hw. rewrite Hpath.
  destruct (artifacts (files w) !! pathOf j) as [a |] eqn:Ea; [| done]. split; [done |]. by apply (honest_files _ Hw).
Qed.

Lemma partSize_pos size pref : partSizeFor size pref < size -> 0 < partSizeFor size pref.
Proof.
  unfold partSizeFor, ceilDiv, MAX_PARTS. intros Hs. assert (0 < size) by lia.
  assert (1 <= (size + 9000 - 1) / 9000) by (apply N.div_le_lower_bound; lia). lia.
Qed.

Lemma parts_stored pb :
  0 < pb ->
  triple honest
    (st ← resumableState c rq (sizeOf (original (pathOf j))) (mtime (original (pathOf j))) pb;
     catch (st ← uploadParts shorts c file st rq; completeMultipartUpload c (rqObject rq) (uploadId st) (sortParts (parts st)))
       (fun e => '_ ← match e with
                      | StorageFailure s => if decide (code s = "NoSuchUpload") then removeState (statePath rq) else mret tt
                      | _ => mret tt
                      end; throw e))
    (fun _ => copied (rqObject rq)) (fun _ => honest).
Proof.
  intros Hpos. eapply triple_bind; [apply resumable_saved |]. intros st w [Hw (_ & Hs & Hm & Hb)]. revert w Hw.
  assert (fits j st) as Hfit by (by split). eapply triple_catch with (R := fun _ => honest); [| | done].
  - eapply triple_bind; [apply (each_saved _ st Hfit) |].
    + split_and!; [apply NoDup_filter, upTo_NoDup | by intros n [? ?]%list_elem_of_filter |].
      intros n Hn. destruct (decide (n ∈ map fst (parts st))); [by left | right]. by apply list_elem_of_filter.
    + intros st' w [Hw (Es & Em & Eb & Hall)]. revert w Hw. apply complete_stored; [by split; congruence | congruence |].
      intros n. rewrite Es, Eb. apply Hall.
  - intros e _. apply (triple_bind honest _ _ (fun _ => honest)); [| intros ?; by apply triple_throw]. destruct e as [s | |]; try apply quiet_ret.
    case_decide; [apply removeState_honest | apply quiet_ret].
Qed.

(** An upload that returns has stored the backup, byte for byte. *)
Lemma upload_stores : triple honest (uploadBackupFile shorts c rq) (fun _ => copied (rqObject rq)) (fun _ => honest).
Proof.
  unfold uploadBackupFile. eapply triple_bind; [apply openArtifact_original |]. intros info w [Hw ->]. revert w Hw. cbv zeta.
  eapply triple_bind; [apply openArtifact_original |]. intros again w [Hw ->]. revert w Hw. fold file.
  eapply (triple_bind honest _ _ (fun _ => copied (rqObject rq))); cycle 1.
  - intros ?. eapply triple_bind.
    + eapply triple_conseq; [apply removeState_copied | done | done | by intros ?? []].
    + intros ?. eapply triple_bind; [eapply triple_conseq; [apply (head_copied (rqObject rq) (rqObject rq)) | done | done | by intros ?? []] |].
      intros head w Hw. destruct (bool_decide _); [exact Hw | apply Hw].
  - set (size := sizeOf _). set (pb := partSizeFor _ _). destruct (N.leb_spec size pb) as [Hc | Hc].
    + eapply (triple_bind honest _ _ (fun got w => honest w /\ got = file)).
      * unfold readRange. apply triple_file; [apply honest_timeless | done |]. intros w Hw.
        destruct (readRangeFrom _ _ _ _ _) as [got | e] eqn:E; [| done]. split; [done |].
        apply range_read in E as ->. rewrite drop_0, take_ge; [done |]. subst size. unfold sizeOf. fold file. lia.
      * intros got w [Hw ->]. revert w Hw. apply put_stores.
    + apply parts_stored. by apply partSize_pos.
Qed.

(** ** Retention spares the copy just made *)

Lemma list_keeps (I : world -> Prop) p :
  timeless I -> (forall s w, s = storeAt (addrOf j) w -> I w -> I (setStore (addrOf j) s w)) ->
  triple I (listObjects c p) (fun out w => I w /\ NoDup (map objectKey out)) (fun _ => I).
Proof.
  intros Ht HI. unfold listObjects. change LIST_PAGES with (S (pred LIST_PAGES)). generalize (pred LIST_PAGES). intros n.
  cbn [listPages]. eapply triple_bind.
  { apply (send_triple I (fun ans w => exists s, body ans = Some (listing s p))); [done |].
    intros w Hw. pose proof (serve_list (time w) p [] (storeAt (addrOf j) w)) as Es. rewrite !assoc_nil in Es. rewrite Haddr, Es.
    split; [by apply HI | by eexists]. }
  intros ans w (Hw & given & (s & Hb) & _ & _ & Hbody). unfold textOf.
  destruct Hbody as [Hbody | Hbody]; rewrite Hbody; [| done]. rewrite Hb. unfold mbind, io_bind, mret, io_ret. cbv zeta.
  rewrite listing_last, decide_False by done. split; [done | apply listing_keys].
Qed.

Lemma delete_copied k k' : k' <> k -> quiet (copied k) (deleteObject c k').
Proof.
  intros Hn. unfold deleteObject. apply quiet_catch; [apply quiet_then; [| intros ?; apply quiet_ret] | intros e; apply unlessGone_quiet].
  apply send_keeps; [apply copied_timeless |]. intros w [Hw (t & Hs)]. rewrite serve_delete, Haddr. cbn [snd].
  split; [apply honest_gentle; [apply gentle_objects | done] |]. exists t. rewrite storeAt_set, decide_True by done. cbn.
  by rewrite lookup_delete_ne.
Qed.

Lemma prune_copied folder keep k : 1 <= keep -> quiet (copied k) (pruneBucketFolder c folder keep k).
Proof.
  intros Hkeep. unfold pruneBucketFolder. eapply triple_bind; [apply (list_keeps (copied k)); [apply copied_timeless |] |].
  { intros s w Hs. by apply copied_same. }
  intros out w [Hw Hd]. revert w Hw. cbv zeta. set (old := drop _ _).
  assert (forall o, o ∈ old -> objectKey o <> k) as Hold.
  { intros o Ho. eapply (just_copied_first k (filter (fun o => backupIdOfKey (objectKey o) <> None) out)).
    - eapply sublist_NoDup; [exact Hd |]. apply (fmap_sublist objectKey), sublist_filter.
    - subst old. replace (N.to_nat keep) with (1 + (N.to_nat keep - 1))%nat in Ho by lia. rewrite <- drop_drop in Ho.
      eapply elem_of_sublist; [exact Ho | apply sublist_drop]. }
  clearbody old. apply (triple_bind (copied k) _ _ (fun _ => copied k)); [| intros ?; apply quiet_ret].
  induction old as [| o old IH]; [apply quiet_ret |]. cbn [inTurn]. apply quiet_then; [apply delete_copied, Hold; by left |].
  intros ?. apply IH. intros o' Ho'. apply Hold. by right.
Qed.
End one.

(** ** Reports *)

(** A report that was not there before ([r0]) and says that the backup was copied
    names a key under which the bucket has the backup. *)
Definition truthful (j : jstring) (r0 : option (option CopyReport)) (w : world) : Prop :=
  forall r, reports (files w) !! j = Some (Some r) -> r0 <> Some (Some r) -> reportState r = Copied ->
  exists k, reportKey r = Some k /\ stored j k w.

Definition soundJob (job : CopyJob) : Prop :=
  (forall p, artifactPath job = Ok p -> p = pathOf (jobId job)) /\ addressOf (target job) = addrOf (jobId job) /\
  (forall keep, retentionKeep job = Some keep -> 1 <= keep).

Section job.
Context (j : jstring) (r0 : option (option CopyReport)).

Definition before (w : world) : Prop := reports (files w) !! j = r0.
#[local] Instance before_steady : Steady before.
Proof. split; unfold timeless; intros; assumption. Qed.
Definition ready (w : world) : Prop := honest w /\ before w.
Definition told (w : world) : Prop := honest w /\ truthful j r0 w.
(** Only the end of the process can come after the report. *)
Definition unreported (e : failure) (w : world) : Prop :=
  honest w /\ match e with Crashed => truthful j r0 w | _ => before w end.

Lemma ready_timeless : timeless ready.
Proof. intros fs t w [Hw Hb]. split; [by apply honest_timeless | exact Hb]. Qed.
Lemma ready_told w : ready w -> told w.
Proof. intros [Hw Hb]. split; [done |]. intros r Hr Hn. unfold before in Hb. congruence. Qed.
Lemma ready_unreported e w : ready w -> unreported e w.
Proof. intros Hw. pose proof (ready_told w Hw) as [_ Ht]. destruct Hw. split; [done |]. by destruct e. Qed.

Lemma ready_quiet {A} (m : copyIO A) : quiet honest m -> quiet before m -> quiet ready m.
Proof. intros H1' H2'. by apply triple_conj. Qed.

Lemma ready_through {A} (m : copyIO A) : quiet honest m -> quiet before m -> triple ready m (fun _ => ready) unreported.
Proof.
  intros H1' H2'. eapply triple_conseq; [by apply ready_quiet | done | done |]. intros e w. apply ready_unreported.
Qed.

Lemma openTarget_honest t : quiet honest (openTargetClient t).
Proof.
  unfold openTargetClient. apply quiet_then; [apply quiet_gets | intros known]. destruct (known !! _); [apply quiet_ret |].
  apply quiet_then; [apply quiet_gets | intros attached]. destruct attached as [decrypt |]; [| apply quiet_throw].
  apply quiet_then; [apply quiet_catch; [by apply triple_file; [apply honest_timeless | |] | intros ?; apply quiet_throw] |].
  intros [[| x key] |]; [apply quiet_throw | | apply quiet_throw].
  apply quiet_then; [| intros ?; apply quiet_ret]. intros w Hw. by apply honest_opened.
Qed.

Lemma abandon_honest job : quiet honest (abandon job).
Proof.
  unfold abandon, ignore. apply quiet_catch; [| intros ?; apply quiet_ret]. apply quiet_then; [apply openTarget_honest | intros c].
  unfold abandonUpload. apply quiet_then; [apply quiet_catch; [by apply triple_file; [apply honest_timeless | |] | intros ?; apply quiet_ret] |].
  intros st. apply quiet_then; [| intros ?; apply removeState_honest].
  destruct st as [st |]; [| apply quiet_ret]. unfold ignore. apply quiet_catch; [apply abort_honest | intros ?; apply quiet_ret].
Qed.

(** Queue and reports are not looked at. *)
Lemma honest_files_only (w w' : world) :
  stores w' = stores w -> states (files w') = states (files w) -> artifacts (files w') = artifacts (files w) -> honest w -> honest w'.
Proof.
  intros Es Est Ea [K1 K2 K3 K4]. assert (forall a, storeAt a w' = storeAt a w) as Hs by (intros a; unfold storeAt; by rewrite Es).
  split; rewrite ?Est, ?Ea; try done.
  - intros a id u. rewrite Hs. apply K2.
  - intros i st Hi. unfold owned. rewrite Hs. by apply K3.
Qed.
Lemma stored_files_only k (w w' : world) : stores w' = stores w -> stored j k w -> stored j k w'.
Proof. intros Es (t & Ht). exists t. unfold storeAt in *. by rewrite Es. Qed.

Lemma removeJob_told id : quiet told (removeCopyJob id).
Proof.
  unfold removeCopyJob, ignore. apply quiet_catch; [| intros ?; apply quiet_ret]. apply triple_file; [| done |].
  - intros fs t w [Hw Ht]. split; [by apply honest_timeless | exact Ht].
  - intros w [Hw Ht]. split; [by apply (honest_files_only w) | exact Ht].
Qed.

Lemma report_told (I : world -> Prop) r :
  timeless I -> (forall w, I w -> ready w) ->
  (forall w, I w -> reportState r = Copied -> exists k, reportKey r = Some k /\ stored j k w) ->
  triple I (writeCopyReport j r) (fun _ => told) unreported.
Proof.
  intros Ht Hr Hs. eapply triple_conseq; [by apply (writeAtomic_triple I) | done | | by intros; apply ready_unreported, Hr].
  intros _ w (w0 & H0' & ->). destruct (Hr _ H0') as [Hw Hb]. split; [by apply (honest_files_only w0) |].
  intros r'. cbn. rewrite lookup_insert_eq. intros [= <-] _ Hc. destruct (Hs _ H0' Hc) as (k & Ek & Hk). exists k.
  split; [done |]. by apply (stored_files_only k w0).
Qed.

Lemma told_unreported w : told w -> unreported Crashed w.
Proof. intros [Hw Ht]. by split. Qed.

(** A call that tells nothing and cannot throw. *)
Lemma removeJob_end id : triple told (removeCopyJob id) (fun _ => told) unreported.
Proof.
  intros w Hw. pose proof (removeJob_told id w Hw) as Hr.
  assert (forall e, (removeCopyJob id w).1 = Throw e -> e = Crashed) as Hc.
  { unfold removeCopyJob, ignore, catch. intros e. destruct (fileCall _ w) as [[|[]] ?]; cbn; congruence. }
  destruct (removeCopyJob id w) as [[a | e] w']; [done |]. rewrite (Hc e) by done. by apply told_unreported.
Qed.

Lemma finish_failed job text : jobId job = j -> triple ready (finish job (failedWith text)) (fun _ => told) unreported.
Proof.
  intros Hj. unfold finish. rewrite Hj. eapply (triple_bind ready _ _ (fun _ => ready)).
  { rewrite decide_True by done. apply ready_through; [apply abandon_honest | by apply abandon_quiet, before_steady]. }
  intros ?. eapply (triple_bind ready _ _ (fun _ => ready)); [intros w Hw; exact Hw | intros now].
  eapply triple_bind; [apply (report_told ready); [apply ready_timeless | done | done] | intros ?]. apply removeJob_end.
Qed.

Lemma finish_copied job k removed size :
  jobId job = j -> k <> [] ->
  triple (fun w => copied j k w /\ before w)
    (finish job {| outState := Copied; outError := None; outKey := Some k; outSize := size; outPruned := removed |})
    (fun _ => told) unreported.
Proof.
  intros Hj Hk. unfold finish. rewrite Hj. set (I := fun w => copied j k w /\ before w).
  eapply (triple_bind I _ _ (fun _ => I)); [rewrite decide_False by done; intros w Hw; exact Hw | intros ?].
  eapply (triple_bind I _ _ (fun _ => I)); [intros w Hw; exact Hw | intros now].
  eapply triple_bind; [apply (report_told I) | intros ?; apply removeJob_end].
  - intros fs t w [Hw Hb]. split; [by apply copied_timeless | exact Hb].
  - intros w [[Hw _] Hb]. by split.
  - intros w [[_ Hs] _] _. exists k. split; [by destruct k | done].
Qed.

Lemma openTarget_config t :
  triple ready (openTargetClient t) (fun c w => ready w /\ config c = t) (fun e w => ready w).
Proof.
  pose proof (ready_quiet _ (openTarget_honest t) (openTarget_quiet before t)) as Hq. intros w Hw. specialize (Hq w Hw).
  assert (forall c w', openTargetClient t w = (Ok c, w') -> config c = t) as Hc.
  { intros c w'. unfold openTargetClient, mbind, io_bind, gets. destruct (opened w !! _); [by intros [= <- _] |].
    destruct (panel w) as [decrypt |]; [| done]. destruct (catch _ _ w) as [[[[| x key] |] | e] w1]; try done. by intros [= <- _]. }
  destruct (openTargetClient t w) as [[c | e] w']; [| done]. split; [done |]. by eapply Hc.
Qed.

Lemma fullKey_some c job : fullKey c (copyKey (keyParts job)) <> [].
Proof. unfold fullKey, copyKey, copyFolder. destruct (decide _); [done |]. by destruct (prefix (config c)). Qed.

Lemma process_copies job :
  soundJob job -> jobId job = j -> triple ready (copyOne shorts job) (fun _ => told) unreported.
Proof.
  intros (Hp & Ha & Hk) Hj. rewrite Hj in *. unfold copyOne.
  eapply triple_bind; [eapply triple_conseq; [apply openTarget_config | done | done | intros e w; apply ready_unreported] |].
  intros c w [Hw Hc]. revert w Hw.
  eapply (triple_bind ready _ _ (fun p w => ready w /\ p = pathOf j)).
  { intros w Hw. unfold liftPath. destruct (artifactPath job) as [p | e]; [| by apply ready_unreported]. split; [done | by apply Hp]. }
  intros p w [Hw ->]. revert w Hw. eapply (triple_bind ready _ _ (fun _ => ready)).
  { apply ready_through; [| by apply exists_quiet, before_steady].
    unfold exists_. apply quiet_catch; [| intros ?; apply quiet_ret]. apply triple_file; [apply honest_timeless | done |].
    intros w Hw. by destruct (artifacts (files w) !! _). }
  intros there. destruct there; cbn [negb]; [| by apply finish_failed]. cbv zeta. set (key := fullKey c _).
  set (rq := {| rqPath := pathOf j |}).
  eapply (triple_bind ready _ _ (fun _ w => copied j key w /\ before w)).
  { eapply triple_conseq; [apply triple_conj; [apply (upload_stores j c rq); [done | done | by rewrite Hc] | by apply upload_quiet, before_steady] | done | done |].
    intros e w Hw. by apply ready_unreported. }
  intros ?. eapply (triple_bind _ _ _ (fun _ w => copied j key w /\ before w)).
  { assert (quiet (copied j key) (prune c job key)) as Hprune.
    { unfold prune. destruct (retentionKeep job) as [keep |] eqn:Ek; [| apply quiet_ret].
      apply quiet_catch; [| intros ?; apply quiet_ret]. apply (prune_copied j c rq); [done | done | by rewrite Hc | by apply Hk]. }
    pose proof (prune_quiet before c job key) as Hb. eapply triple_conseq; [exact (triple_conj _ _ _ _ _ _ _ Hprune Hb) | done | done |].
    intros e w [[Hw _] Hbw]. by apply ready_unreported. }
  intros removed. apply finish_copied; [done | apply fullKey_some].
Qed.

Lemma save_ready job : quiet ready (saveCopyJob job).
Proof.
  eapply triple_conseq; [by apply (writeAtomic_triple ready), ready_timeless | done | | done].
  intros _ w (w0 & [Hw Hb] & ->). split; [by apply (honest_files_only w0) | exact Hb].
Qed.

Lemma process_told job : soundJob job -> jobId job = j -> triple ready (process shorts job) (fun _ => told) (fun _ => told).
Proof.
  intros Hs Hj. unfold process. eapply triple_catch; [by apply process_copies | | by intros w []].
  intros e He. assert (forall w, unreported e w -> ready w) as Hr by (intros w [Hw Hb]; split; [done | by destruct e]).
  eapply (triple_conseq ready _ _ (fun _ => told) _ (fun _ => told)); [| exact Hr | done | done].
  eapply (triple_bind ready _ _ (fun _ => ready)); [intros w Hw; exact Hw | intros now].
  unfold failed_. destruct (plainError e) as [text again]. cbv zeta.
  destruct (negb (isWaiting e) && _).
  - eapply triple_conseq; [by apply finish_failed | done | done |]. intros e' w [Hw Ht]. destruct e'; try (by apply ready_told). by split.
  - eapply triple_conseq; [apply save_ready | done | |]; intros ? w; apply ready_told.
Qed.
End job.
End honest.
