(* ===== verification/BakReports.v ===== *)
(** * Reports tell the truth

    Over the whole life of the daemon: a new report that says a backup was copied
    is about a backup that is in its bucket, byte for byte, when the report is
    written.  At the end, what does not work: a backup that needs more than one
    part is never uploaded where the directory of saved progress is missing, and
    nothing makes it; an IPv4 loopback address written as an IPv6 one passes the
    endpoint guard. *)

From stdpp Require Import gmap sorting.
From S2P Require Import Prelude Text Json Number JsonPrint Dates GateApproval Log FwRender FwContract HaIntent MonState.
From S2P Require Import BakXml BakWorld BakS3 BakUpload BakCopier BakKept BakServed BakStored.

#[local] Open Scope N_scope.

Section reports.
Context `{StorageLaws} `{EndpointUrl} `{Crypto} `{Collation} `{JsDates} (shorts : N -> N).
Context (pathOf : jstring -> path) (addrOf : jstring -> address) (original : path -> artifact).

Notation soundJob := (soundJob pathOf addrOf).
Notation honest := (honest pathOf addrOf original).
Notation told := (told pathOf addrOf original).

(** ** Jobs stay sound *)

Definition soundQueue (w : world) : Prop := forall id job, queue (files w) !! id = Some (Some job) -> soundJob job.
#[local] Instance soundQueue_steady : Steady soundQueue.
Proof. split; unfold timeless; intros; assumption. Qed.

Lemma sound_same job job' :
  jobId job' = jobId job -> artifactPath job' = artifactPath job -> target job' = target job -> retentionKeep job' = retentionKeep job ->
  soundJob job -> soundJob job'.
Proof. intros E1 E2 E3 E4 (Hp & Ha & Hk). unfold BakStored.soundJob. by rewrite E1, E2, E3, E4. Qed.

Lemma save_soundQueue job : soundJob job -> quiet soundQueue (saveCopyJob job).
Proof.
  intros Hj. apply (writeAtomic_quiet soundQueue). intros w Hw id job'. cbn. rewrite lookup_insert. case_decide; [by intros [= <-] | apply Hw].
Qed.
Lemma remove_soundQueue id : quiet soundQueue (removeCopyJob id).
Proof.
  apply (remove_quiet soundQueue). intros w Hw i job. cbn. rewrite lookup_delete_Some. intros [_ Hq]. by eapply Hw.
Qed.
Lemma report_soundQueue id r : quiet soundQueue (writeCopyReport id r).
Proof. by apply (writeAtomic_quiet soundQueue). Qed.
Lemma retry_soundQueue job n e next : soundJob job -> quiet soundQueue (saveCopyJob (retried job n e next)).
Proof. intros Hj. by apply save_soundQueue, (sound_same job). Qed.

Section process.
Hint Extern 0 (Steady _) => typeclasses eauto : quiet.
Hint Resolve retry_soundQueue abandon_quiet remove_soundQueue report_soundQueue prune_quiet openTarget_quiet upload_quiet liftPath_quiet exists_quiet : quiet.

Lemma finish_soundQueue job o : quiet soundQueue (finish job o).
Proof. unfold finish. quietly. Qed.
Hint Resolve finish_soundQueue : quiet.

Lemma process_soundQueue job : soundJob job -> quiet soundQueue (process shorts job).
Proof. intros Hj. unfold process, copyOne, failed_. quietly. Qed.

(** The reports of other jobs are left alone. *)
#[local] Instance before_always j r0 : Steady (before j r0).
Proof. split; unfold timeless; intros; assumption. Qed.

Lemma save_before j r0 job : quiet (before j r0) (saveCopyJob job).
Proof. by apply (writeAtomic_quiet (before j r0)). Qed.
Lemma remove_before j r0 id : quiet (before j r0) (removeCopyJob id).
Proof. by apply (remove_quiet (before j r0)). Qed.
Lemma report_before j r0 id r : id <> j -> quiet (before j r0) (writeCopyReport id r).
Proof. intros Hn. apply (writeAtomic_quiet (before j r0)). intros w Hw. unfold before. cbn. by rewrite lookup_insert_ne. Qed.
Hint Extern 0 (jobId _ <> _) => assumption : quiet.
Hint Resolve save_before remove_before report_before : quiet.

Lemma finish_before j r0 job o : jobId job <> j -> quiet (before j r0) (finish job o).
Proof. intros Hn. unfold finish. quietly. Qed.
Hint Resolve finish_before : quiet.
Lemma process_before j r0 job : jobId job <> j -> quiet (before j r0) (process shorts job).
Proof. intros Hn. unfold process, copyOne, failed_. quietly. Qed.
End process.

(** Whatever is processed, a new report about [j] is true. *)
Lemma told_opened j r0 o w : told j r0 w -> told j r0 (setOpened o w).
Proof. intros [Hw Ht]. split; [by apply honest_opened | exact Ht]. Qed.

Lemma next_told j r0 job now :
  soundJob job -> triple (ready pathOf addrOf original j r0) (nextJob shorts job now) (fun _ => told j r0) (fun _ => told j r0).
Proof.
  intros Hj. unfold nextJob. destruct (isDue job now); [| by intros w Hw; apply ready_told].
  destruct (decide (jobId job = j)) as [E | E]; [by apply process_told |]. intros w [Hw Hb].
  pose proof (process_before j r0 job E w Hb) as Hb'.
  pose proof (process_told shorts pathOf addrOf original (jobId job) (reports (files w) !! jobId job) job Hj eq_refl w (conj Hw eq_refl)) as Ht.
  destruct (process shorts job w) as [[a | e] w']; destruct Ht as [Hh _]; by apply ready_told.
Qed.

(** ** Over time *)

(** A backup is written once, at its place; a job that is queued is about its
    artifact and its bucket, and keeps at least one backup there. *)
Definition soundOp (o : op) : Prop :=
  match o with
  | OpEnqueue input => soundJob (setJobId (copyJobId (managedId input) (backupId input)) [] input)
  | OpBackup p a => a = original p
  | _ => True
  end.

Definition reading (l : life) : list CopyJob := default [] (fst <$> running l).
Definition trusted (l : life) : Prop := honest (here l) /\ soundQueue (here l) /\ Forall soundJob (reading l).

Notation ready := (ready pathOf addrOf original).
Hint Resolve ready_timeless : core.

(** Calls that only look. *)
Lemma look_keeps (I : world -> Prop) {A} (f : world -> A) : timeless I -> quiet I (fileCall (fun w => (Ok (f w), w))).
Proof. intros Ht. by apply triple_file. Qed.
Lemma readAll_keeps (I : world -> Prop) {A} ids (read : world -> jstring -> option A) : timeless I -> quiet I (readAll ids read).
Proof.
  intros Ht. induction ids as [| id ids IH]; cbn [readAll]; [apply quiet_ret |].
  apply quiet_then; [apply quiet_catch; [by apply look_keeps | intros ?; apply quiet_ret] | intros got].
  apply quiet_then; [apply IH | intros rest]. apply quiet_ret.
Qed.
Lemma listCopyJobs_keeps (I : world -> Prop) : timeless I -> quiet I listCopyJobs.
Proof.
  intros Ht. unfold listCopyJobs. apply quiet_then; [by apply look_keeps | intros names].
  apply quiet_then; [by apply readAll_keeps | intros read]. apply quiet_ret.
Qed.
Lemma listCopyReports_keeps (I : world -> Prop) : timeless I -> quiet I listCopyReports.
Proof.
  intros Ht. unfold listCopyReports. apply quiet_then; [by apply look_keeps | intros names].
  apply quiet_then; [by apply readAll_keeps | intros read]. apply quiet_ret.
Qed.

Lemma enqueue_ready j r0 input : quiet (ready j r0) (enqueueCopyJob input).
Proof.
  unfold enqueueCopyJob. apply quiet_then; [apply quiet_catch; [by apply look_keeps | intros ?; apply quiet_ret] | intros q].
  destruct q; [apply quiet_ret |]. apply quiet_then; [apply quiet_gets | intros now].
  apply quiet_then; [apply save_ready | intros ?]. apply quiet_ret.
Qed.

Lemma answer_told j r0 id : triple (ready j r0) (handleResult id) (fun _ => told j r0) (fun _ => told j r0).
Proof.
  unfold handleResult, removeCopyReport, ignore. destruct (JOB_ID_RE id); [| by intros w Hw; apply ready_told].
  eapply triple_catch with (R := fun _ => told j r0); [| by intros e _ w Hw | done].
  apply triple_file; [done | by intros ? w; apply ready_told |]. intros w [Hw Hb]. split; [by apply (honest_files_only pathOf addrOf original w) |].
  intros r. cbn. rewrite lookup_delete_Some. intros [_ Hr] Hn. unfold before in Hb. congruence.
Qed.

Lemma settle_told {A} j r0 l (m : copyIO A) k :
  triple (ready j r0) m (fun _ => told j r0) (fun _ => told j r0) -> ready j r0 (here l) ->
  (forall r l', told j r0 (here l') -> told j r0 (here (k r l'))) -> told j r0 (here (settleCall l (m (here l)) k)).
Proof.
  intros Hm Hl Hk. specialize (Hm _ Hl). destruct (m (here l)) as [[a | e] w]; cbn [settleCall]; [by apply Hk |].
  destruct e; [by apply Hk | by apply Hk | by apply told_opened].
Qed.
Lemma quiet_told {A} j r0 (m : copyIO A) : quiet (ready j r0) m -> triple (ready j r0) m (fun _ => told j r0) (fun _ => told j r0).
Proof. intros Hm. eapply triple_conseq; [exact Hm | done | |]; intros ? w; apply ready_told. Qed.

Lemma honest_artifacts arts w :
  (forall p a, arts !! p = Some a -> a = original p) -> honest w -> honest (setFiles (setArtifacts arts (files w)) w).
Proof. intros Ha [K1 K2 K3 K4]. by split. Qed.

(** One operation: the bucket has what a new report says. *)
Lemma step_told o l j :
  trusted l -> soundOp o.1 -> told j (reports (files (here l)) !! j) (here (lifeStep shorts o l)).
Proof.
  destruct o as [o fs]. intros (Hw & Hq & Hr) Ho. unfold lifeStep. cbn [fst snd] in *. set (r0 := reports (files (here l)) !! j).
  set (l0 := setHere _ l). assert (ready j r0 (here l0)) as Hl0 by (by split; [apply honest_timeless |]).
  assert (Forall soundJob (reading l0)) as Hr0 by done. clearbody l0 r0. clear Hw Hq Hr l.
  destruct o; cbn [lifeOp].
  - pose proof (enqueue_ready j r0 input _ Hl0) as He. cbn. destruct (enqueueCopyJob input (here l0)) as [[] ?]; by apply ready_told.
  - destruct (running l0); [by apply ready_told |]. apply settle_told; [by apply quiet_told, listCopyJobs_keeps | done | by intros [] ?].
  - unfold reading in Hr0. destruct (running l0) as [[[| job jobs] now] |]; [by apply ready_told | | by apply ready_told].
    apply settle_told; [by apply next_told, (Forall_inv Hr0) | done | by intros [] ?].
  - destruct supported; [| by apply ready_told]. apply settle_told; [by apply quiet_told, listCopyReports_keeps | done | by intros [] ?].
  - apply settle_told; [apply answer_told | done | by intros [] ?].
  - by apply told_opened, ready_told.
  - apply ready_told. destruct Hl0 as [Hw Hb]. split; [| exact Hb]. apply honest_artifacts; [| done]. cbn in Ho. subst a.
    intros p' a. rewrite lookup_insert. case_decide; [intros [= <-]; by subst | by apply (honest_files _ _ _ _ Hw)].
  - apply ready_told. destruct Hl0 as [Hw Hb]. split; [| exact Hb]. apply honest_artifacts; [| done].
    intros p' a. rewrite lookup_delete_Some. intros [_ Ha]. by apply (honest_files _ _ _ _ Hw).
  - apply ready_told. destruct Hl0 as [[K1 K2 K3 K4] Hb]. by split.
Qed.

(** The jobs a run is about to look at were read from the queue. *)
Lemma insertOlder_sound job jobs : soundJob job -> Forall soundJob jobs -> Forall soundJob (insertOlder job jobs).
Proof.
  intros Hj. induction 1 as [| x jobs Hx Hjobs IH]; cbn; [by apply Forall_singleton |].
  destruct (localeLe _ _); repeat (apply Forall_cons; split); done.
Qed.

Lemma readAll_sound ids :
  triple soundQueue (readAll ids readJob) (fun read _ => Forall soundJob (map snd read)) (fun _ _ => True).
Proof.
  induction ids as [| id ids IH]; cbn [readAll]; [intros w Hw; apply Forall_nil_2 |].
  eapply (triple_bind _ _ _ (fun got w => soundQueue w /\ forall job, got = Some job -> soundJob job)).
  - eapply triple_catch with (R := fun _ => soundQueue); [| by intros e _ w Hw | done].
    apply triple_file; [apply steady_timeless | done |]. intros w Hw. split; [done |]. intros job. unfold readJob.
    destruct (queue (files w) !! id) as [[job' |] |] eqn:E; cbn; [| done | done]. case_decide; [| done]. intros [= <-]. by eapply Hw.
  - intros got w [Hw Hg]. revert w Hw. eapply triple_bind; [apply IH |]. intros rest w Hr. cbn. destruct got; [| done].
    apply Forall_cons. split; [by apply Hg | done].
Qed.

Lemma listCopyJobs_sound : triple soundQueue listCopyJobs (fun jobs _ => Forall soundJob jobs) (fun _ _ => True).
Proof.
  unfold listCopyJobs. eapply (triple_bind _ _ _ (fun _ => soundQueue)); [by apply triple_file; [apply steady_timeless | |] | intros names].
  eapply triple_bind; [apply readAll_sound |]. intros read w Hr. cbn. induction Hr; cbn; [apply Forall_nil_2 | by apply insertOlder_sound].
Qed.

Lemma enqueue_soundQueue input :
  soundOp (OpEnqueue input) -> quiet soundQueue (enqueueCopyJob input).
Proof.
  intros Hi. unfold enqueueCopyJob. apply quiet_then; [apply quiet_catch; [apply look_keeps, steady_timeless | intros ?; apply quiet_ret] |].
  intros q. destruct q; [apply quiet_ret |]. apply quiet_then; [apply quiet_gets | intros now].
  apply quiet_then; [| intros ?; apply quiet_ret]. apply save_soundQueue. by eapply sound_same, Hi.
Qed.

Definition soundLife (l : life) : Prop := soundQueue (here l) /\ Forall soundJob (reading l).

Lemma settle_sound {A} l (m : copyIO A) k :
  quiet soundQueue m -> soundQueue (here l) ->
  (forall r w, m (here l) = (r, w) -> soundQueue w -> soundLife (k r (setHere w l))) -> soundLife (settleCall l (m (here l)) k).
Proof.
  intros Hm Hl Hk. specialize (Hm _ Hl). destruct (m (here l)) as [[a | e] w] eqn:E; cbn [settleCall]; [by apply Hk |].
  destruct e; [by apply Hk | by apply Hk |]. by split; [| apply Forall_nil_2].
Qed.

Lemma step_sound o l : soundOp o.1 -> soundLife l -> soundLife (lifeStep shorts o l).
Proof.
  destruct o as [o fs]. intros Ho [Hq Hr]. unfold lifeStep. cbn [fst snd] in *.
  set (l0 := setHere _ l). assert (soundQueue (here l0)) as Hq0 by done. assert (Forall soundJob (reading l0)) as Hr0 by done.
  clearbody l0. clear Hq Hr l. assert (soundLife l0) as Hl0 by done.
  destruct o; cbn [lifeOp]; try done.
  - split; [| done]. pose proof (enqueue_soundQueue input Ho _ Hq0) as He. cbn. by destruct (enqueueCopyJob input (here l0)) as [[] ?].
  - destruct (running l0) eqn:E; [done |]. apply settle_sound; [apply listCopyJobs_keeps, steady_timeless | done |].
    intros [jobs | e] w Em Hw; [| done]. split; [done |]. pose proof (listCopyJobs_sound _ Hq0) as Hs. by rewrite Em in Hs.
  - unfold reading in Hr0. destruct (running l0) as [[[| job jobs] now] |] eqn:E; [by split; [| apply Forall_nil_2] | | done].
    apply Forall_cons in Hr0 as [Hj Hjobs]. apply settle_sound; [| done |].
    + unfold nextJob. destruct (isDue job now); [by apply process_soundQueue | apply quiet_ret].
    + intros [a | e] w _ Hw; (split; [done |]); [done | apply Forall_nil_2].
  - destruct supported; [| done]. apply settle_sound; [apply listCopyReports_keeps, steady_timeless | done | by intros [] w].
  - apply settle_sound; [| done | by intros [] w]. unfold handleResult, removeCopyReport, ignore.
    destruct (JOB_ID_RE id); [| apply quiet_ret]. apply quiet_catch; [by apply triple_file; [apply steady_timeless | |] | intros ?; apply quiet_ret].
Qed.

Lemma lives_trusted ops l : Forall (fun o => soundOp o.1) ops -> trusted l -> trusted (lives shorts ops l).
Proof.
  revert l. induction ops as [| o ops IH]; intros l Ho Hl; [done |]. apply Forall_cons in Ho as [Ho Hops]. apply IH; [done |].
  pose proof (step_told o l [] Hl Ho) as [Hw _]. destruct Hl as [_ Hl]. split; [done |]. by apply step_sound.
Qed.

(** Nothing queued, nothing begun. *)
Definition unstarted (l : life) : Prop :=
  queue (files (here l)) = ∅ /\ states (files (here l)) = ∅ /\ artifacts (files (here l)) = ∅ /\ running l = None /\
  forall a, uploads (storeAt a (here l)) = ∅.

Lemma unstarted_trusted l : unstarted l -> trusted l.
Proof.
  intros (Hq & Hs & Ha & Hr & Hu). split; [split | split].
  - intros p a. by rewrite Ha.
  - intros a id u. by rewrite Hu.
  - intros j st. by rewrite Hs.
  - intros i j st st'. by rewrite Hs.
  - intros id job. by rewrite Hq.
  - unfold reading. rewrite Hr. apply Forall_nil_2.
Qed.

(** C15. Whatever happened before and whatever happens during an operation of the
    daemon (requests lost on the way there or back, answered by errors or cut
    off, files that cannot be written, the end of the process at any call,
    progress continued after it): a report that the operation leaves and that
    says the backup was copied names the key under which the bucket of the job
    holds the backup, byte for byte. *)
Theorem copied_report_means_stored l0 ops o j r
    (Hstart : unstarted l0)
    (Hops : Forall (fun o => soundOp o.1) ops) (Ho : soundOp o.1)
    (Hnew : reports (files (here (lives shorts ops l0))) !! j <> Some (Some r))
    (Hreport : reports (files (here (lifeStep shorts o (lives shorts ops l0)))) !! j = Some (Some r))
    (Hcopied : reportState r = Copied) :
  exists key time,
    reportKey r = Some key /\
    objects (storeAt (addrOf j) (here (lifeStep shorts o (lives shorts ops l0)))) !! key =
      Some (content (original (pathOf j)), time).
Proof.
  pose proof (lives_trusted ops l0 Hops (unstarted_trusted l0 Hstart)) as Ht.
  destruct (step_told o _ j Ht Ho) as [_ Htold]. destruct (Htold r Hreport Hnew Hcopied) as (k & Hk & t & Hs). by exists k, t.
Qed.
End reports.

(** ** An example *)

Definition examplePath : path := ["managed" : jstring; "m1"; "b1.dump"].
Definition exampleBackup : artifact := {| content := [1; 2; 3]; mtime := 5 |}.
(** The first try loses its answer, and the next run copies. *)
Definition exampleOps : list (op * list (fate * N)) :=
  [(OpBackup examplePath exampleBackup, []); (OpEnqueue exampleJob, [(Fine, 4)]); (OpTick, []);
   (OpNext, [(Fine, 1); (Fine, 1); (Fine, 1); (Fine, 1); (Fine, 1); (AnswerLost, 2); (AnswerLost, 1); (AnswerLost, 1); (AnswerLost, 3)]);
   (OpNext, []); (OpRestart, []); (OpReport true 1, [(Fine, 100000)]); (OpTick, [])].
Definition exampleLives : list (op * list (fate * N)) -> life -> life :=
  @lives exampleNames exampleUrl toyCrypto exampleOrder exampleDates (fun _ => 1).
Definition exampleReport : CopyReport := {|
  reportDestination := "d1"; reportManaged := "m1"; reportBackup := "b1"; reportPolicy := None; reportState := Copied;
  reportError := None; reportKey := Some "managed/m1/manual/b1.dump"; reportSize := Some 3; reportAttempts := 1;
  finishedAt := "1970-01-01T00:01:40.016Z"; pruned := []
|}.

Lemma copied_report_means_stored_witness :
  exists key time,
    reportKey exampleReport = Some key /\
    objects (storeAt ("https://s3.example" : jstring, "b" : jstring) (here (exampleLives (exampleOps ++ [(OpNext, [])]) exampleLife))) !! key =
      Some ([1; 2; 3], time).
Proof.
  apply (@copied_report_means_stored exampleNames exampleLaws exampleUrl toyCrypto exampleOrder exampleDates (fun _ => 1)
           (fun _ => examplePath) (fun _ => ("https://s3.example" : jstring, "b" : jstring)) (fun _ => exampleBackup)
           exampleLife exampleOps (OpNext, []) exampleId exampleReport).
  - by repeat split.
  - repeat (apply Forall_cons; split; [| ]); try apply Forall_nil_2; try done.
    split; [| split; [done | intros keep [= <-]; lia]]. intros p. vm_compute. congruence.
  - done.
  - vm_compute. congruence.
  - vm_compute. reflexivity.
  - reflexivity.
Defined.

(** ** The directory of saved progress *)

Definition homeless (w : world) : Prop := uploadsDir (files w) = false /\ states (files w) = ∅.
#[global] Instance homeless_steady : Steady homeless.
Proof.
  split; unfold timeless, homeless; cbn; try done.
  - intros p w [Hd Hs]. rewrite Hs. split; [done | apply delete_empty].
  - intros s w Hd [Hn _]. congruence.
Qed.

Lemma writeState_homeless p st : triple homeless (writeState p st) (fun _ _ => False) (fun _ _ => True).
Proof.
  unfold writeState, inUploads. apply (triple_bind _ _ _ (fun _ _ => False)); [| by intros ? w []].
  apply triple_file; [apply steady_timeless | done |]. intros w [Hd _]. by rewrite Hd.
Qed.

#[local] Opaque fileCall.
Section limits.
Hint Extern 0 (Steady _) => typeclasses eauto : quiet.
Context `{StorageNames} `{EndpointUrl} `{Crypto} `{Collation} `{JsDates} (shorts : N -> N).
Hint Resolve abandon_quiet prune_quiet openTarget_quiet upload_quiet liftPath_quiet exists_quiet create_quiet : quiet.

Lemma resumable_homeless c rq size m pb : triple homeless (resumableState c rq size m pb) (fun _ _ => False) (fun _ _ => True).
Proof.
  assert (triple homeless (freshState c rq size m pb) (fun _ _ => False) (fun _ _ => True)) as Hfresh.
  { unfold freshState. eapply (triple_bind _ _ _ (fun _ => homeless)).
    - eapply triple_conseq; [by apply (create_quiet homeless) | done | done | done].
    - intros id. cbv zeta. eapply (triple_bind _ _ _ (fun _ _ => False)); [apply writeState_homeless | by intros ? w []]. }
  unfold resumableState. eapply (triple_bind _ _ _ (fun old w => old = None /\ homeless w)).
  - eapply triple_catch with (R := fun _ => homeless); [| by intros e _ w Hw | done].
    apply triple_file; [apply steady_timeless | done |]. intros w Hw. pose proof Hw as [_ Hs]. by rewrite Hs.
  - intros old w [-> Hw]. by apply Hfresh.
Qed.

Lemma save_homeless job : quiet homeless (saveCopyJob job).
Proof. by apply (writeAtomic_quiet homeless). Qed.
Lemma report_homeless id r : quiet homeless (writeCopyReport id r).
Proof. by apply (writeAtomic_quiet homeless). Qed.
Lemma remove_homeless id : quiet homeless (removeCopyJob id).
Proof. by apply (remove_quiet homeless). Qed.
Hint Resolve save_homeless report_homeless remove_homeless : quiet.
Lemma finish_homeless job o : quiet homeless (finish job o).
Proof. unfold finish. quietly. Qed.
Hint Resolve finish_homeless : quiet.
Lemma process_homeless job : quiet homeless (process shorts job).
Proof. unfold process, copyOne, failed_. quietly. Qed.
Lemma answer_homeless id : quiet homeless (handleResult id).
Proof. unfold handleResult, removeCopyReport, ignore. quietly. by apply (quiet_file homeless). Qed.

Lemma lives_homeless ops l : homeless (here l) -> homeless (here (lives shorts ops l)).
Proof.
  revert l. induction ops as [| o ops IH]; intros l Hl; [done |]. apply IH.
  apply (step_keeps shorts homeless); try done.
  - intros input. apply (enqueue_quiet homeless). apply save_homeless.
  - apply process_homeless.
  - intros id _. apply answer_homeless.
Qed.

(** Where the directory [copies/uploads] does not exist, no operation of the
    daemon makes it, and however often a backup of more than one part is tried,
    its upload does not end. *)
Theorem large_backup_is_never_uploaded l ops fs t c rq a n :
  homeless (here l) ->
  artifacts (files (here (lives shorts ops l))) !! rqPath rq = Some a ->
  partSizeFor (sizeOf a) (default DEFAULT_PART_BYTES (rqPartBytes rq)) < sizeOf a ->
  (uploadBackupFile shorts c rq (passing fs t (here (lives shorts ops l)))).1 <> Ok n.
Proof.
  intros Hl Ha Hs. apply (lives_homeless ops) in Hl. set (w := here (lives shorts ops l)) in *. clearbody w. clear l ops.
  set (I := fun w => homeless w /\ artifacts (files w) !! rqPath rq = Some a).
  assert (timeless I) as Ht by (by intros ??? [[]]; split).
  assert (triple I (openArtifact (rqPath rq)) (fun got w => got = a /\ I w) (fun _ _ => True)) as Hopen.
  { apply triple_file; [done | done |]. intros w' Hw'. pose proof Hw' as [_ E]. by rewrite E. }
  assert (triple I (uploadBackupFile shorts c rq) (fun _ _ => False) (fun _ _ => True)) as Hnot.
  { unfold uploadBackupFile. eapply triple_bind; [apply Hopen |]. intros got w' [-> Hw']. revert w' Hw'. cbv zeta.
    eapply triple_bind; [apply Hopen |]. intros got w' [-> Hw']. revert w' Hw'.
    eapply (triple_bind _ _ _ (fun _ _ => False)); [| by intros ? w' []].
    rewrite (proj2 (N.leb_gt _ _) Hs). eapply (triple_bind _ _ _ (fun _ _ => False)); [| by intros ? w' []].
    eapply triple_conseq; [apply resumable_homeless | by intros w' [] | done | done]. }
  specialize (Hnot (passing fs t w) (Ht fs t w (conj Hl Ha))). by destruct (uploadBackupFile shorts c rq _) as [[] ?].
Qed.

(** ** The endpoint guard *)

(** [URL] writes the host of [https://[::ffff:127.0.0.1]] as [[::ffff:7f00:1]],
    which none of the tests of [ipv6Class] is about. *)
Theorem mapped_loopback_is_let_through endpoint :
  parseUrl endpoint = Some {| protocol := "https:"; urlUser := ""; urlPassword := ""; pathname := "/"; search := ""; hash := "";
                              hostname := "[::ffff:7f00:1]" |} ->
  endpointRefusal endpoint false = None.
Proof. intros E. unfold endpointRefusal. rewrite E. vm_compute. done. Qed.
End limits.
